(* ===== verification/_CoqProject ===== *)
-Q . S2P
Prelude.v
GoStrings.v
GoTime.v
SortLib.v
GoPath.v
Effects.v
Cron.v
CronCorrect.v
CronParse.v
Retention.v
RetentionCorrect.v
ZfsNames.v
ZfsNamesCorrect.v
Scheduler.v
SchedulerPrune.v
SchedulerTick.v
Csi.v
CsiCorrect.v
CsiNode.v
Replication.v
ReplicationSafety.v
Regex.v
Plugins.v
PluginsPlan.v
Rbac.v
AuthCorrect.v
PluginPackage.v
PluginPackageCorrect.v
PluginNeeds.v
PluginNeedsCorrect.v
PluginRouter.v
PluginLifecycle.v
PluginLifecycleInv.v
PluginLifecycleCorrect.v
PluginLifecycleTermination.v
PluginLifecycleWorld.v
PluginMarket.v
PluginMarketApi.v
PluginMarketCorrect.v
PluginDeploy.v
GoBase64.v
Tpm.v
TpmCorrect.v
HostExec.v
Secrets.v
SecretsCorrect.v
ZfsDataset.v
ZfsDatasetCorrect.v
ZfsEncryption.v
ZfsEncryptionCorrect.v
GoText.v
ZfsPool.v
ZfsPoolCorrect.v
ZfsPoolStatus.v
NfsAcl.v
NfsAclCorrect.v
GoNet.v
HostFiles.v
NfsExports.v
NfsExportsCorrect.v
Samba.v
SambaCorrect.v
SambaFiles.v
ProtocolShare.v
ProtocolShareCorrect.v
CsiEndpoint.v
NvmeOf.v
NvmeOfSave.v
NvmeOfRoundTrip.v
GoJson.v
JobTypes.v
Jobs.v
JobsCorrect.v
ScrubPolicy.v
NotifyCenter.v
NotifyCenterCorrect.v
Iscsi.v
Network.v
Smart.v
Krb5.v
