(* ===== verification/Prelude.v ===== *)
(** * NovaNAS: a verification library for the control plane

    NovaNAS is a storage appliance: a Go control plane (under src/) that
    drives ZFS, NFS, Samba, iSCSI and NVMe-oF on the host, serves an HTTP
    API with OIDC authentication, schedules snapshots and replication,
    installs plugins and provides Kubernetes with volumes through a CSI
    driver.  This library is a shallow embedding of the parts that carry
    its own logic, with the theorems that make them correct.  Go functions
    are Rocq functions of the same name; a fallible function returns a
    [res]; code that calls out is a computation on the state of the world
    (file Effects); code that is not under src/ (ZFS, PostgreSQL, the JWT
    and semantic version libraries, the kernel's mount table) is a class
    of operations, and what is relied on about it is a class of laws with
    an instance that shows that they can hold.

    ** Shared files

    - Prelude (this file): results, loops with fuel, 64-bit integers,
      tactics and lemmas on lists.
    - GoStrings, GoTime, SortLib, Regex: what the code uses of the packages
      strings and strconv, time (instants, zones with transitions,
      time.Date, the calendar), sort and regexp.
    - GoPath, GoText, GoNet, GoBase64: path/filepath, text made of words and
      lines (trimming, fields, bufio.Scanner), addresses and networks, and
      base64.
    - GoJson: encoding/json on described types, with what is sent is what is
      received.
    - HostExec: the runner of host commands and how getopt reads an
      argument vector.  HostFiles: the file operations the share managers
      are written against, with their laws, and the configuration tree of
      the kernel.
    - Effects: the monad of code that calls out and may not return, with
      the judgements [respects] (every step respects a preorder on states)
      and [returns].

    ** Snapshot scheduler (src/internal/host/scheduler)

    - Cron is cron.go: the parser, [matchTime], the search [NextAfter], the
      tick predicate.  CronCorrect: the search returns the earliest
      matching minute and always ends where the zone has a constant
      offset; it does not end when it reaches a 25-hour day.  CronParse:
      what a field denotes, that parsing ends, and a step that overflows.
    - Retention is retention.go, with bucket keys that are faithful to the
      calendar.  RetentionCorrect: what is kept, how much at most, that
      pruning again drops nothing, and that the time stamp in a snapshot
      name reads back.
    - Scheduler is manager.go over the interface [Host].  SchedulerPrune:
      a prune removes expired snapshots only, all of them on a working
      host, and is stable.  SchedulerTick: for every behaviour of the host,
      which calls a pass makes, what a replication records, and whether a
      tick returns.

    ** ZFS names and snapshots (src/internal/host/zfs/names, .../snapshot)

    - ZfsNames is names.go and the snapshot manager over the runner of the
      zfs binary.  ZfsNamesCorrect: the grammar of valid names, that no
      caller's string is ever read as an option, and that listings read
      back.

    ** Datasets, keys and pools (src/internal/host/zfs, .../tpm, .../secrets)

    - ZfsDataset is the dataset manager; ZfsDatasetCorrect: what zfs reads
      from the arguments of each operation is the request.
    - NfsAcl is dataset/acl.go, the NFSv4 access lists; NfsAclCorrect: a list
      that is written reads back, and principals that turn into others.
    - Tpm is the sealing of small secrets and the wrapping of larger ones
      over the commands of a TPM; TpmCorrect: blobs are read exactly,
      sealing releases what it opened, and wrapping is undone.
    - Secrets is the file and the OpenBao backend of the secrets manager;
      SecretsCorrect: the file backend refines the interface its clients
      are proved against, with an instance of the disk.
    - ZfsEncryption is the escrow of dataset keys with its handlers and the
      boot-time loader; ZfsEncryptionCorrect: the key that was escrowed is
      the one that is recovered, over the file backend.
    - ZfsPool is the pool manager, with the status tree read into slices
      that share their arrays; ZfsPoolCorrect: when zpool reads the layout
      that was asked for, and what every operation runs; ZfsPoolStatus: the
      vdevs that are read have the states and the nesting that were
      printed, however slices grow.

    ** Shares (src/internal/host/nfs, .../samba, .../protocolshare)

    - NfsExports is the export manager; NfsExportsCorrect: what a successful
      call leaves on disk reads back as it was requested.
    - Samba is the samba manager with its globals; SambaCorrect: a section
      reads back as its share; SambaFiles: changes are transactions, and
      what smbd makes of a section.
    - ProtocolShare is the manager of shares over both protocols, over a
      class that the three managers below implement; ProtocolShareCorrect:
      the calls of a creation and what takes them back when one fails, and
      what that misses over the managers of the host.

    ** CSI driver (src/internal/csi)

    - Csi is the identifiers and the controller over the API client;
      CsiCorrect the identifiers, capability classification and size
      arithmetic, and over any API which jobs a call starts, on what, and
      when it reports success.
    - CsiNode is the node service over the interface [Mounter]: no
      filesystem is lost and publishing mounts, against [MounterLaws].
    - CsiEndpoint is nfs_addr.go: which client networks are accepted, and
      that those with a long enough prefix are private.

    ** Replication (src/internal/replication)

    - Replication is the jobs, the manager with its in-memory store and
      locker, the ZFS and rsync backends, the retention of runs, and a run
      cut at its store and lock calls.
    - ReplicationSafety is the step relation in which any number of runs
      and edits interleave, its invariants (one run per job, one row in
      progress) and an update that is lost.

    ** Plugins (src/internal/plugins)

    - Plugins is the manifest with its validation and the dependency
      resolver, over the semantic version library, the marketplace index
      and the installed plugins: a manifest that validates claims only what
      its category may.  PluginsPlan: a plan can be
      carried out and meets every constraint, the version picked is the
      highest, and a bundled entry that hides a requirement.
    - PluginPackage unpacks tarballs over the interface [Disk], reads the manifest for the
      preview, summarises permissions and serves UI files;
      PluginPackageCorrect: unpacking stays inside its directory, and when
      the preview shows the manifest that is installed.
    - PluginNeeds is needs.go and the provisioners of datasets, OIDC
      clients, certificates and permissions; PluginNeedsCorrect: all needs
      are met or exactly what was provisioned is released, and a rollback
      that destroys a dataset it did not create.
    - PluginRouter is the table of mounted routes and the choice of the
      upstream and of the credentials it gets.
    - PluginMarket is one marketplace source with its cache, the search
      across the registered sources, the merged index and the signature
      check; PluginMarketApi the in-memory registry, the seeding, the
      preview and the registry's HTTP handlers; PluginMarketCorrect: only
      tarballs signed with the pinned key are handed out, the official
      source cannot be removed, re-keyed or shadowed by registry calls, and
      what an outage of it allows.
    - PluginLifecycle is the manager (install with dependencies, uninstall,
      upgrade, restart, restore) with its locks per plugin, over the classes
      of the database, the marketplace, the disk, the deployer and the
      provisioners.  PluginLifecycleInv has the specification of each phase;
      PluginLifecycleCorrect the invariant over all sequences of calls, that
      dependencies stay installed and that a failed install changes nothing;
      PluginLifecycleTermination that Install returns when the requirements
      are well-founded; PluginLifecycleWorld instances of the interfaces,
      the witnesses, and the deadlock of two plugins that require each
      other.
    - PluginDeploy is the systemd deployer over the disk and the service
      commands: what precedes the start of a service.

    ** Authentication and authorisation (src/internal/auth)

    - Rbac is the permissions and the shipped roles, with their hierarchy,
      the key cache, the verifier and the middlewares; AuthCorrect who
      reaches a protected handler, and that EC keys are never accepted.

    ** Targets (src/internal/host/nvmeof, .../configfs, .../iscsi)

    - NvmeOf is the NVMe-oF manager over the configuration tree: no
      operation leaves the tree.  NvmeOfSave is the saved configuration and
      the secrets of hosts; NvmeOfRoundTrip: what is restored into an empty
      kernel is saved again as it was.
    - Iscsi is the iSCSI manager over targetcli: every command is read as
      the request, and a target that is printed is read back.

    ** Network (src/internal/host/network, .../api/handlers/network_write.go)

    - Network is the files of interfaces, VLANs and bonds, the manager and
      the write handlers: what was applied is on disk and reads back, and
      the guard against cutting off the caller.

    ** Jobs (src/internal/jobs, .../api/handlers/jobs.go)

    - JobTypes has the kinds of jobs and their payloads, Jobs the
      dispatcher, the worker and the rows; JobsCorrect: under every
      interleaving a settled row tells how its job ended, and every queued
      task is decoded as the struct that was sent.

    ** Scrub policies and notifications (src/internal/scrubpolicy,
       .../notifycenter)

    - ScrubPolicy: a scrub is dispatched only for a policy that is due and a
      pool that is not being scrubbed.
    - NotifyCenter is the store, the manager, the aggregator and the list
      handler; NotifyCenterCorrect: failed jobs are notified, and paging
      shows every event once.

    ** Disk health and Kerberos (src/internal/host/smart, .../krb5,
       src/internal/krb5sync)

    - Smart is the manager over smartctl: the alarm is raised exactly when
      the document or the exit code gives a reason.
    - Krb5 is the daemon that keeps principals in step with Keycloak
      (Module Sync), its state file (StateFile) and the principals of the
      KDC through kadmin.local (Kdc): a pass leaves exactly the principals
      that are wanted, service principals are never removed, the state
      survives a restart, and names reach kadmin as single words.

    ** Bounds and fuel

    Go loops without a static bound are step functions.  [NextAfter] has
    fuel for 5,270,400 iterations, more than the minutes of the nine
    calendar years it can visit, and is proved to end within it where the
    zone is constant; the divergence is proved for every number of steps.
    The loop over the values of a cron item has fuel 512 and is proved to
    end within it.  Install has fuel for the depth of nested installs, one
    more than the rank of the plugin in the order of requirements, and is
    proved to return within it; the deadlock is proved for every fuel.
    Decimal printing has fuel for the twenty digits of a
    64-bit number, trimming and splitting for the length of the string, and
    the parser of IPv6 addresses for its eight groups.  The status parser
    keeps the four levels the code keeps.  The loops of the Kerberos daemon
    have fuel for their turns; what is shown of them holds for every fuel,
    so at every point of a run.
    Integers keep their width where it matters ([wrap64]).

    ** Not modelled

    Logging and metrics.  The wire formats of YAML, JSON text, HTTP and
    gRPC: decoders and requests are parameters.  Ticker loops around a
    modelled tick, other than that of the Kerberos daemon, and the starting
    of processes.  The S3 backend, the SMTP relay, the PostgreSQL stores
    and generated queries other than those of notifications: calls of
    libraries that are not under src/.  Kerberos client files, RDMA
    adapters, host information, certificates and the list of disks: reading
    and writing of text around I/O, with little to decide.  Workloads and
    virtual machines: clients of Helm and Kubernetes.  HTTP handlers that
    only decode a request and call a component; those that decide are with
    their component.  Generated code, the client SDK, the command line tools
    but for the key loader, and the web console. *)

From stdpp Require Export base list gmap strings sorting.
From Stdlib Require Export ZArith Lia Ascii.

(** ** Conventions

    Go strings are byte strings: [gostr] is a list of bytes ([ascii]).
    Integers are [Z]; the widths that matter are written out with
    [wrap64].  A fallible Go function [(T, error)] is a [res E T]. *)

Abbreviation gostr := (list ascii).

Declare Scope go_scope.
Delimit Scope go_scope with go.
#[global] Open Scope Z_scope.
#[global] Open Scope go_scope.

Definition str (s : string) : gostr := String.list_ascii_of_string s.
Notation "# s" := (str s%string) (at level 1, s at level 0, format "# s") : go_scope.

(** ** Results of fallible code *)

Inductive res (E A : Type) : Type :=
| Ok (a : A)
| Err (e : E).
Arguments Ok {E A} _.
Arguments Err {E A} _.

Definition is_ok {E A} (r : res E A) : bool :=
  match r with Ok _ => true | Err _ => false end.

Notation "'let?' x := c 'in' k" :=
  (match c with Ok x => k | Err e => Err e end)
  (at level 10, x pattern, c at level 200, k at level 200) : go_scope.

Notation "'ensure' c 'else' e ';;' k" :=
  (if c then k else Err e)
  (at level 10, c at level 99, e at level 99, k at level 200) : go_scope.

(** ** Loops

    A Go loop is a step function: [inl s] continues with state [s],
    [inr b] leaves the loop with [b].  [iterN] runs it a number of
    times; [iterP] is the same with binary fuel, for evaluation. *)

Section Loops.
Context {A B : Type} (f : A -> A + B).

Fixpoint iterN (n : nat) (a : A) : A + B :=
  match n with
  | O => inl a
  | S n => match f a with inl a' => iterN n a' | inr b => inr b end
  end.

Fixpoint iterP (p : positive) (a : A) : A + B :=
  match p with
  | xH => f a
  | xO q => match iterP q a with inl a' => iterP q a' | inr b => inr b end
  | xI q =>
      match f a with
      | inl a1 => match iterP q a1 with inl a2 => iterP q a2 | inr b => inr b end
      | inr b => inr b
      end
  end.

Lemma iterN_add n m a :
  iterN (n + m) a =
  match iterN n a with inl a' => iterN m a' | inr b => inr b end.
Proof. revert a; induction n as [|n IH]; intros a; simpl; [done|]. by destruct (f a). Qed.

Lemma iterP_iterN p a : iterP p a = iterN (Pos.to_nat p) a.
Proof.
  revert a; induction p as [p IH|p IH|]; intros a.
  - rewrite Pos2Nat.inj_xI. simpl. destruct (f a) as [a1|]; [|done].
    replace (_ + _)%nat with (Pos.to_nat p + Pos.to_nat p)%nat by lia.
    rewrite iterN_add, <- IH. destruct (iterP p a1); [apply IH|done].
  - rewrite Pos2Nat.inj_xO. simpl iterP.
    replace (2 * _)%nat with (Pos.to_nat p + Pos.to_nat p)%nat by lia.
    rewrite iterN_add, <- IH. destruct (iterP p a); [apply IH|done].
  - change (Pos.to_nat 1) with 1%nat; simpl. by destruct (f a).
Qed.

(** A loop that always moves to a strictly smaller non-negative measure
    ends within that many steps, and an invariant carries through it. *)
Lemma iterN_measure (Inv : A -> Prop) (Post : B -> Prop) (mu : A -> Z) :
  (forall a, Inv a -> 0 <= mu a) ->
  (forall a, Inv a ->
     match f a with
     | inl a' => Inv a' /\ mu a' < mu a
     | inr b => Post b
     end) ->
  forall n a, Inv a -> mu a < Z.of_nat n ->
  exists b, iterN n a = inr b /\ Post b.
Proof.
  intros Hpos Hstep n; induction n as [|n IH]; intros a Ha Hmu.
  - specialize (Hpos a Ha). lia.
  - simpl. specialize (Hstep a Ha). destruct (f a) as [a'|b].
    + destruct Hstep as [Ha' Hlt]. apply IH; [done|lia].
    + by exists b.
Qed.

(** A state the step maps to itself is never left. *)
Lemma iterN_stuck a : f a = inl a -> forall n, iterN n a = inl a.
Proof. intros Hf n; induction n as [|n IH]; simpl; [done|]. by rewrite Hf. Qed.

Lemma iterN_reach_stuck n a a' :
  iterN n a = inl a' -> f a' = inl a' -> forall m, exists s, iterN m a = inl s.
Proof.
  intros Hn Hf m. destruct (le_lt_dec n m) as [Hle|Hlt].
  - replace m with (n + (m - n))%nat by lia. rewrite iterN_add, Hn.
    exists a'. by apply iterN_stuck.
  - replace n with (m + (n - m))%nat in Hn by lia. rewrite iterN_add in Hn.
    destruct (iterN m a) as [s|]; [by exists s|done].
Qed.
End Loops.

(** ** Machine integers *)

Definition MinInt64 : Z := - 2 ^ 63.
Definition MaxInt64 : Z := 2 ^ 63 - 1.
Definition in_int64 (z : Z) : bool := (MinInt64 <=? z) && (z <=? MaxInt64).

(** Two's-complement wrap-around of a mathematical integer to [int64]. *)
Definition wrap64 (z : Z) : Z := (z + 2 ^ 63) mod 2 ^ 64 - 2 ^ 63.

Lemma wrap64_id z : in_int64 z = true -> wrap64 z = z.
Proof.
  unfold in_int64, wrap64, MinInt64, MaxInt64. intros H.
  rewrite Z.mod_small; lia.
Qed.

Lemma wrap64_range z : in_int64 (wrap64 z) = true.
Proof.
  unfold in_int64, wrap64, MinInt64, MaxInt64.
  pose proof (Z.mod_pos_bound (z + 2 ^ 63) (2 ^ 64)). lia.
Qed.

(** [lia] with divisions and remainders by constants made explicit. *)
Ltac dlia := Z.div_mod_to_equations; lia.

(** A closed decidable goal, by evaluation of its decision procedure. *)
Ltac by_dec := match goal with |- ?P => apply (bool_decide_unpack P); vm_compute; exact I end.

(** ** Boolean guards

    [gobool] turns the boolean guards of the code into propositions; the
    files that define a comparison add its specification to the database. *)

Create HintDb gobool.
#[export] Hint Rewrite andb_true_iff orb_true_iff negb_true_iff negb_false_iff
  bool_decide_eq_true bool_decide_eq_false : gobool.

Tactic Notation "gobool" "in" hyp(H) := autorewrite with gobool in H.

(** The result of [match o with Some x => f x | None => false end]. *)
Lemma match_some_true {A} (o : option A) (f : A -> bool) :
  match o with Some x => f x | None => false end = true <-> exists x, o = Some x /\ f x = true.
Proof. destruct o; naive_solver. Qed.

(** ** Filters *)

Section Filters.
Context {A : Type} (P : A -> Prop) `{Pdec : !forall x, Decision (P x)}.

Lemma filter_twice (l : list A) : filter P (filter P l) = filter P l.
Proof.
  induction l as [|x l IH]; [done|]. rewrite filter_cons.
  destruct (decide (P x)) eqn:E; [|done]. rewrite filter_cons, E. by rewrite IH.
Qed.

Lemma filter_neg_twice (l : list A) : filter (fun x => ~ P x) (filter P l) = [].
Proof.
  induction l as [|x l IH]; [done|]. rewrite filter_cons.
  destruct (decide (P x)); [|done]. rewrite filter_cons.
  by destruct (decide (~ P x)).
Qed.

Lemma filter_neg_perm (l : list A) : filter P l ++ filter (fun x => ~ P x) l ≡ₚ l.
Proof.
  induction l as [|x l IH]; [done|]. rewrite !filter_cons.
  destruct (decide (P x)), (decide (~ P x)); try done; simpl.
  - by rewrite IH.
  - rewrite <- Permutation_middle. by rewrite IH.
Qed.
End Filters.

Lemma filter_ext_in {A} (P Q : A -> Prop) `{Pdec : !forall x, Decision (P x)}
    `{Qdec : !forall x, Decision (Q x)} (l : list A) :
  (forall x, x ∈ l -> P x <-> Q x) -> filter P l = filter Q l.
Proof.
  induction l as [|x l IH]; intros H; [done|]. rewrite !filter_cons.
  rewrite IH by set_solver. assert (P x <-> Q x) by (apply H; set_solver).
  destruct (decide (P x)), (decide (Q x)); tauto.
Qed.

Lemma filter_true {A} (P : A -> Prop) `{Pdec : !forall x, Decision (P x)} (l : list A) :
  (forall x, x ∈ l -> P x) -> filter P l = l.
Proof.
  induction l as [|x l IH]; intros H; [done|]. rewrite filter_cons.
  rewrite IH by set_solver. destruct (decide (P x)) as [|Hx]; [done|]. exfalso. apply Hx, H. set_solver.
Qed.

Lemma NoDup_map_inj {A B} (f : A -> B) (l : list A) x y :
  NoDup (map f l) -> x ∈ l -> y ∈ l -> f x = f y -> x = y.
Proof.
  induction l as [|z l IH]; simpl; intros Hnd Hx Hy E; [set_solver|].
  apply NoDup_cons in Hnd as [Hz Hnd].
  apply elem_of_cons in Hx as [->|Hx], Hy as [->|Hy]; [done| | |by apply IH].
  - exfalso. apply Hz. rewrite E. by apply list_elem_of_fmap_2.
  - exfalso. apply Hz. rewrite <- E. by apply list_elem_of_fmap_2.
Qed.
