(* ===== verification/GoStrings.v ===== *)
(** * Go's strings and strconv, as far as the modelled code uses them

    Byte strings with the functions of the packages strings and strconv
    the components call: Split, Join, Index, HasPrefix, TrimSpace,
    Fields, EqualFold, Atoi and decimal printing; then the facts about
    them that the components share. *)

From S2P Require Import Prelude.

(** ** Bytes *)

Definition byte_val (c : ascii) : Z := Z.of_N (N_of_ascii c).

Definition is_digit (c : ascii) : bool :=
  (48 <=? byte_val c) && (byte_val c <=? 57).

Definition is_upper (c : ascii) : bool :=
  (65 <=? byte_val c) && (byte_val c <=? 90).

Definition is_lower (c : ascii) : bool :=
  (97 <=? byte_val c) && (byte_val c <=? 122).

Definition byte_of (z : Z) : ascii := ascii_of_N (Z.to_N z).

(** [s == t] on strings. *)
Definition str_eqb (s t : gostr) : bool := bool_decide (s = t).

Definition ch_eqb (a b : ascii) : bool := bool_decide (a = b).

(** ** Searching and splitting *)

(** strings.HasPrefix, and strings.TrimPrefix as the rest when it holds. *)
Fixpoint strip_prefix (p s : gostr) : option gostr :=
  match p, s with
  | [], _ => Some s
  | _ :: _, [] => None
  | a :: p', b :: s' => if ch_eqb a b then strip_prefix p' s' else None
  end.

Definition has_prefix (s p : gostr) : bool :=
  match strip_prefix p s with Some _ => true | None => false end.

Definition trim_prefix (s p : gostr) : gostr :=
  match strip_prefix p s with Some r => r | None => s end.

(** strings.Split with a one-byte separator: never the empty slice. *)
Fixpoint split_on (c : ascii) (s : gostr) : list gostr :=
  match s with
  | [] => [[]]
  | a :: s' =>
      if ch_eqb a c then [] :: split_on c s'
      else match split_on c s' with
           | [] => [[a]]
           | w :: ws => (a :: w) :: ws
           end
  end.

(** strings.Join with a one-byte separator. *)
Fixpoint join_with (c : ascii) (ws : list gostr) : gostr :=
  match ws with
  | [] => []
  | [w] => w
  | w :: ws' => w ++ c :: join_with c ws'
  end.

(** The cut at the first [c]: strings.Index/SplitN(s, c, 2). *)
Fixpoint cut_at (c : ascii) (s : gostr) : option (gostr * gostr) :=
  match s with
  | [] => None
  | a :: s' =>
      if ch_eqb a c then Some ([], s')
      else match cut_at c s' with
           | Some (l, r) => Some (a :: l, r)
           | None => None
           end
  end.

(** The cut at the last [c]: strings.LastIndex. *)
Fixpoint cut_last (c : ascii) (s : gostr) : option (gostr * gostr) :=
  match s with
  | [] => None
  | a :: s' =>
      match cut_last c s' with
      | Some (l, r) => Some (a :: l, r)
      | None => if ch_eqb a c then Some ([], s') else None
      end
  end.

Definition contains_byte (c : ascii) (s : gostr) : bool := existsb (ch_eqb c) s.

(** At most the first [n] bytes: io.LimitReader read to its end. *)
Definition limit (n : Z) (body : gostr) : gostr :=
  if Z.of_nat (length body) <=? n then body else take (Z.to_nat n) body.

(** strings.Contains *)
Fixpoint contains (s sub : gostr) : bool :=
  has_prefix s sub || match s with [] => false | _ :: s' => contains s' sub end.

Fixpoint count_byte (c : ascii) (s : gostr) : nat :=
  match s with
  | [] => 0
  | a :: s' => (if ch_eqb a c then 1 else 0) + count_byte c s'
  end%nat.

(** strings.TrimRight with a one-byte cutset. *)
Fixpoint trim_right_byte (c : ascii) (s : gostr) : gostr :=
  match s with
  | [] => []
  | a :: s' =>
      match trim_right_byte c s' with
      | [] => if ch_eqb a c then [] else [a]
      | r => a :: r
      end
  end.

(** ** White space

    The UTF-8 encodings of the runes for which unicode.IsSpace holds.
    UTF-8 is self-synchronising, so a scan for these byte sequences finds
    exactly the runes Go's decoding loop finds. *)

Definition enc (l : list Z) : gostr := map byte_of l.

Definition space_encodings : list gostr :=
  map enc
    ([[9]; [10]; [11]; [12]; [13]; [32]; [194; 133]; [194; 160]; [225; 154; 128];
      [226; 128; 168]; [226; 128; 169]; [226; 128; 175]; [226; 129; 159]; [227; 128; 128]]
     ++ map (fun k => [226; 128; 128 + Z.of_nat k]) (seq 0 11)).

Fixpoint first_strip (ps : list gostr) (s : gostr) : option gostr :=
  match ps with
  | [] => None
  | p :: ps' => match strip_prefix p s with Some r => Some r | None => first_strip ps' s end
  end.

(** A leading white-space rune, removed. *)
Definition strip_space (s : gostr) : option gostr := first_strip space_encodings s.

Fixpoint trim_left_with (ps : list gostr) (fuel : nat) (s : gostr) : gostr :=
  match fuel with
  | O => s
  | S fuel => match first_strip ps s with Some r => trim_left_with ps fuel r | None => s end
  end.

(** strings.TrimSpace: every rune removed is at least one byte, so the
    length is enough fuel. *)
Definition trim_space (s : gostr) : gostr :=
  let l := trim_left_with space_encodings (length s) s in
  rev (trim_left_with (map (@rev ascii) space_encodings) (length l) (rev l)).

(** strings.Fields: the maximal runs of non-space bytes. *)
Fixpoint fields_go (fuel : nat) (cur : gostr) (s : gostr) : list gostr :=
  let flush := match cur with [] => [] | _ => [rev cur] end in
  match fuel with
  | O => flush
  | S fuel =>
      match s with
      | [] => flush
      | a :: s' =>
          match strip_space s with
          | Some r => flush ++ fields_go fuel [] r
          | None => fields_go fuel (a :: cur) s'
          end
      end
  end.

Definition fields (s : gostr) : list gostr := fields_go (S (length s)) [] s.

(** ** Case folding against an ASCII string: strings.EqualFold

    Besides the other case of the same letter, the long s (U+017F) folds
    to [s] and the Kelvin sign (U+212A) to [k]. *)

Definition to_lower_byte (c : ascii) : ascii :=
  if is_upper c then byte_of (byte_val c + 32) else c.

Definition fold_strip (c : ascii) (s : gostr) : option gostr :=
  match s with
  | a :: s' =>
      if ch_eqb (to_lower_byte a) (to_lower_byte c) then Some s'
      else if ch_eqb (to_lower_byte c) "s"%char then strip_prefix (enc [197; 191]) s
      else if ch_eqb (to_lower_byte c) "k"%char then strip_prefix (enc [226; 132; 170]) s
      else None
  | [] => None
  end.

Fixpoint equal_fold (s t : gostr) : bool :=
  match t with
  | [] => match s with [] => true | _ => false end
  | c :: t' => match fold_strip c s with Some r => equal_fold r t' | None => false end
  end.

(** ** Numbers *)

Definition digit_val (c : ascii) : Z := byte_val c - 48.

Fixpoint digits_val (acc : Z) (s : gostr) : option Z :=
  match s with
  | [] => Some acc
  | c :: s' => if is_digit c then digits_val (10 * acc + digit_val c) s' else None
  end.

(** strconv.Atoi on a 64-bit platform: an optional sign, at least one
    digit, and a value that fits [int64]. *)
Definition atoi (s : gostr) : option Z :=
  let signed (neg : bool) (ds : gostr) :=
    match ds with
    | [] => None
    | _ =>
        match digits_val 0 ds with
        | None => None
        | Some v =>
            let w := if neg then - v else v in
            if in_int64 w then Some w else None
        end
    end in
  match s with
  | c :: ds =>
      if ch_eqb c "-"%char then signed true ds
      else if ch_eqb c "+"%char then signed false ds
      else signed false s
  | [] => None
  end.

(** The decimal digits of [n], most significant first; [fuel] bounds
    their number. *)
Fixpoint dec_digits (fuel : nat) (n : Z) (acc : gostr) : gostr :=
  match fuel with
  | O => acc
  | S fuel =>
      if n >? 0 then dec_digits fuel (n / 10) (byte_of (48 + n mod 10) :: acc) else acc
  end.

(** ** Facts *)

Lemma str_eqb_eq s t : str_eqb s t = true <-> s = t.
Proof. apply bool_decide_eq_true. Qed.

Lemma str_eqb_refl s : str_eqb s s = true.
Proof. by apply str_eqb_eq. Qed.

Lemma str_eqb_neq s t : str_eqb s t = false <-> s <> t.
Proof. apply bool_decide_eq_false. Qed.

Lemma ch_eqb_eq a b : ch_eqb a b = true <-> a = b.
Proof. apply bool_decide_eq_true. Qed.

Lemma ch_eqb_refl a : ch_eqb a a = true.
Proof. by apply ch_eqb_eq. Qed.

Lemma ch_eqb_neq a b : ch_eqb a b = false <-> a <> b.
Proof. apply bool_decide_eq_false. Qed.

#[export] Hint Rewrite str_eqb_eq str_eqb_neq ch_eqb_eq ch_eqb_neq : gobool.

(** Case analysis on a comparison of strings, as a proposition. *)
Tactic Notation "case_str" constr(s) constr(t) "as" ident(E) :=
  destruct (str_eqb s t) eqn:E; [apply str_eqb_eq in E|apply str_eqb_neq in E].

Ltac ch_case :=
  match goal with
  | |- context [ch_eqb ?a ?b] =>
      let E := fresh "E" in
      destruct (ch_eqb a b) eqn:E; [apply ch_eqb_eq in E | apply ch_eqb_neq in E]
  | H : context [ch_eqb ?a ?b] |- _ =>
      let E := fresh "E" in
      destruct (ch_eqb a b) eqn:E; [apply ch_eqb_eq in E | apply ch_eqb_neq in E]
  end.

Lemma strip_prefix_Some p s r : strip_prefix p s = Some r <-> s = p ++ r.
Proof.
  revert s; induction p as [|a p IH]; intros s; simpl; [naive_solver|].
  destruct s as [|b s]; [naive_solver|]. ch_case; [|naive_solver].
  subst. rewrite IH. naive_solver.
Qed.

Lemma strip_prefix_app p s : strip_prefix p (p ++ s) = Some s.
Proof. by apply strip_prefix_Some. Qed.

Lemma has_prefix_iff s p : has_prefix s p = true <-> exists r, s = p ++ r.
Proof.
  unfold has_prefix. destruct (strip_prefix p s) as [r|] eqn:E.
  - apply strip_prefix_Some in E. naive_solver.
  - split; [done|]. intros [r Hr]. apply strip_prefix_Some in Hr. congruence.
Qed.

Lemma contains_iff s sub : contains s sub = true <-> exists a b, s = a ++ sub ++ b.
Proof.
  induction s as [|c s IH]; cbn [contains]; rewrite orb_true_iff, has_prefix_iff.
  - split; [intros [[r E]|]; [exists [], r; exact E|done]|].
    intros (a & b & E). left. exists b. symmetry in E. apply app_nil in E as [-> E]. done.
  - rewrite IH. split.
    + intros [[r E]|(a & b & ->)]; [exists [], r; exact E|by exists (c :: a), b].
    + intros (a & b & E). destruct a as [|c' a]; [left; by exists b|].
      right. injection E as -> ->. eauto.
Qed.

Lemma limit_id n s : Z.of_nat (length s) <= n -> limit n s = s.
Proof. unfold limit. intros H. by rewrite (proj2 (Z.leb_le _ _) H). Qed.

Lemma limit_length n s : 0 <= n -> Z.of_nat (length (limit n s)) = Z.min (Z.of_nat (length s)) n.
Proof.
  unfold limit. intros H. destruct (Z.of_nat (length s) <=? n) eqn:E; [lia|].
  rewrite length_take. lia.
Qed.

Lemma trim_prefix_app p s : trim_prefix (p ++ s) p = s.
Proof. unfold trim_prefix. by rewrite strip_prefix_app. Qed.

Lemma split_on_cons c s : exists w ws, split_on c s = w :: ws.
Proof.
  destruct s as [|a s]; simpl; [eauto|].
  ch_case; [eauto|]. destruct (split_on c s); eauto.
Qed.

Lemma join_with_snoc c ps p : ps <> [] -> join_with c (ps ++ [p]) = join_with c ps ++ c :: p.
Proof.
  induction ps as [|q ps IH]; [done|]. intros _. destruct ps as [|q' ps]; [done|].
  specialize (IH ltac:(done)). simpl in *. rewrite IH. by rewrite <- app_assoc.
Qed.

Lemma join_split c s : join_with c (split_on c s) = s.
Proof.
  induction s as [|a s IH]; [done|]. simpl.
  destruct (split_on_cons c s) as (w & ws & E). rewrite E in IH |- *.
  ch_case; [subst a|].
  - simpl in *. by rewrite IH.
  - destruct ws; simpl in *; by rewrite IH.
Qed.

Lemma split_on_no_sep c s : Forall (fun w => c ∉ w) (split_on c s).
Proof.
  induction s as [|a s IH]; simpl; [repeat constructor; set_solver|].
  ch_case; [constructor; set_solver|].
  destruct (split_on c s); [repeat constructor; set_solver|].
  apply Forall_cons in IH as [H1 H2]. constructor; [set_solver|done].
Qed.

Lemma split_on_id c w : c ∉ w -> split_on c w = [w].
Proof.
  induction w as [|a w IH]; simpl; intros H; [done|].
  ch_case; [set_solver|]. by rewrite IH by set_solver.
Qed.

Lemma split_on_app c w s : c ∉ w -> split_on c (w ++ c :: s) = w :: split_on c s.
Proof.
  induction w as [|a w IH]; simpl; intros H.
  - by rewrite ch_eqb_refl.
  - ch_case; [set_solver|]. by rewrite IH by set_solver.
Qed.

Lemma split_on_app_sep c s t : split_on c (s ++ c :: t) = split_on c s ++ split_on c t.
Proof.
  induction s as [|a s IH]; simpl; [by rewrite ch_eqb_refl|].
  destruct (ch_eqb a c); [by rewrite IH|]. rewrite IH.
  destruct (split_on_cons c s) as (w & ws & ->). done.
Qed.

Lemma split_join c ws :
  ws <> [] -> Forall (fun w => c ∉ w) ws -> split_on c (join_with c ws) = ws.
Proof.
  intros Hne H. induction H as [|w ws Hw Hws IH]; [done|].
  destruct ws as [|w' ws]; simpl; [by apply split_on_id|].
  rewrite split_on_app by done. f_equal. by apply IH.
Qed.

Lemma cut_at_Some c s l r : cut_at c s = Some (l, r) <-> s = l ++ c :: r /\ c ∉ l.
Proof.
  revert l r; induction s as [|a s IH]; intros l r; simpl.
  { split; [done|]. intros [H _]. by destruct l. }
  ch_case; subst.
  - split; [intros [= <- <-]; split; [done|set_solver]|].
    intros [H1 H2]. destruct l as [|b l]; simplify_eq/=; [done|set_solver].
  - destruct (cut_at c s) as [[l' r']|] eqn:Hc.
    + assert (s = l' ++ c :: r' /\ c ∉ l') as Hs by (by apply IH).
      split; [intros [= <- <-]; destruct Hs; subst; split; [done|set_solver]|].
      intros [H1 H2]. destruct l as [|b l]; simplify_eq/=.
      assert (Some (l', r') = Some (l, r)) as [= -> ->]; [|done].
      apply IH. split; [done|set_solver].
    + split; [done|]. intros [H1 H2]. destruct l as [|b l]; simplify_eq/=.
      assert (None = Some (l, r)) as [=].
      apply IH. split; [done|set_solver].
Qed.

Lemma cut_at_None c s : cut_at c s = None <-> c ∉ s.
Proof.
  induction s as [|a s IH]; simpl; [set_solver|].
  ch_case; [set_solver|].
  destruct (cut_at c s) as [[]|]; split; intros H; try done.
  - exfalso. assert (c ∉ s) as Hn by set_solver. apply IH in Hn. done.
  - apply not_elem_of_cons. split; [congruence|by apply IH].
Qed.

Lemma cut_last_None c s : cut_last c s = None <-> c ∉ s.
Proof.
  induction s as [|a s IH]; simpl; [set_solver|].
  destruct (cut_last c s) as [[]|].
  - split; [done|]. intros H. exfalso.
    assert (c ∉ s) as Hn by set_solver. apply IH in Hn. done.
  - assert (c ∉ s) by (by apply IH). ch_case; set_solver.
Qed.

Lemma cut_last_Some c s l r : cut_last c s = Some (l, r) <-> s = l ++ c :: r /\ c ∉ r.
Proof.
  revert l r; induction s as [|a s IH]; intros l r; simpl.
  { split; [done|]. intros [H _]. by destruct l. }
  destruct (cut_last c s) as [[l' r']|] eqn:Hc.
  - assert (s = l' ++ c :: r' /\ c ∉ r') as Hs by (by apply IH).
    split; [intros [= <- <-]; destruct Hs; by subst|].
    intros [H1 H2]. destruct l as [|b l]; simplify_eq/=; [destruct Hs; set_solver|].
    assert (Some (l', r') = Some (l, r)) as [= -> ->]; [|done]. by apply IH.
  - apply cut_last_None in Hc. ch_case; subst.
    + split; [intros [= <- <-]; done|].
      intros [H1 H2]. destruct l as [|b l]; simplify_eq/=; [done|set_solver].
    + split; [done|]. intros [H1 H2]. destruct l as [|b l]; simplify_eq/=. set_solver.
Qed.

Lemma count_byte_app c s t : count_byte c (s ++ t) = (count_byte c s + count_byte c t)%nat.
Proof. induction s as [|a s IH]; simpl; [done|]. rewrite IH. lia. Qed.

Lemma count_byte_0 c s : count_byte c s = 0%nat <-> c ∉ s.
Proof.
  induction s as [|a s IH]; simpl; [set_solver|].
  ch_case; subst; [set_solver by lia|]. simpl. rewrite IH. set_solver.
Qed.

Lemma contains_byte_iff c s : contains_byte c s = true <-> c ∈ s.
Proof.
  unfold contains_byte. rewrite existsb_exists.
  setoid_rewrite ch_eqb_eq. setoid_rewrite <- list_elem_of_In. naive_solver.
Qed.

(** *** Decimal digits *)

Lemma byte_val_range c : 0 <= byte_val c < 256.
Proof. unfold byte_val. pose proof (N_ascii_bounded c). lia. Qed.

Lemma byte_val_byte_of z : 0 <= z < 256 -> byte_val (byte_of z) = z.
Proof.
  intros H. unfold byte_val, byte_of.
  rewrite N_ascii_embedding; lia.
Qed.

Lemma byte_of_byte_val c : byte_of (byte_val c) = c.
Proof. unfold byte_val, byte_of. rewrite N2Z.id. apply ascii_N_embedding. Qed.

Lemma digit_byte d : 0 <= d < 10 ->
  is_digit (byte_of (48 + d)) = true /\ digit_val (byte_of (48 + d)) = d.
Proof.
  intros H. unfold is_digit, digit_val. rewrite byte_val_byte_of by lia. lia.
Qed.

Lemma is_digit_not_sign c : is_digit c = true -> c <> "-"%char /\ c <> "+"%char.
Proof. intros H; split; intros ->; discriminate. Qed.

Lemma digits_val_cons_digit a d s : 0 <= d < 10 ->
  digits_val a (byte_of (48 + d) :: s) = digits_val (10 * a + d) s.
Proof. intros H. simpl. destruct (digit_byte d H) as [-> ->]. done. Qed.

Lemma dec_digits_val fuel n acc : 0 <= n < 10 ^ Z.of_nat fuel ->
  digits_val 0 (dec_digits fuel n acc) = digits_val n acc.
Proof.
  revert n acc; induction fuel as [|fuel IH]; intros n acc Hn.
  - simpl in *. replace n with 0 by lia. done.
  - rewrite Nat2Z.inj_succ, Z.pow_succ_r in Hn by lia.
    cbn [dec_digits]. destruct (n >? 0) eqn:E.
    + rewrite IH.
      * rewrite digits_val_cons_digit by (apply Z.mod_pos_bound; lia).
        f_equal. pose proof (Z.div_mod n 10). lia.
      * split; [apply Z.div_pos; lia|]. apply Z.div_lt_upper_bound; lia.
    + replace n with 0 by lia. done.
Qed.

Lemma dec_digits_Forall fuel n acc :
  Forall (fun c => is_digit c = true) acc ->
  Forall (fun c => is_digit c = true) (dec_digits fuel n acc).
Proof.
  revert n acc; induction fuel as [|fuel IH]; intros n acc H; simpl; [done|].
  destruct (n >? 0); [|done]. apply IH. constructor; [|done].
  apply digit_byte. apply Z.mod_pos_bound. lia.
Qed.

Lemma dec_digits_length fuel n acc :
  (length acc <= length (dec_digits fuel n acc))%nat.
Proof.
  revert n acc; induction fuel as [|fuel IH]; intros n acc; simpl; [done|].
  destruct (n >? 0); [|done]. etrans; [|apply IH]. simpl. lia.
Qed.

(** An unsigned digit string is read as its value. *)
Lemma atoi_digits s v :
  s <> [] -> Forall (fun c => is_digit c = true) s ->
  digits_val 0 s = Some v -> in_int64 v = true -> atoi s = Some v.
Proof.
  intros Hne Hd Hv Hr. destruct s as [|c s]; [done|].
  inversion Hd as [|? ? Hc Hs]; subst. unfold atoi.
  destruct (is_digit_not_sign c Hc) as [H1 H2].
  apply ch_eqb_neq in H1. apply ch_eqb_neq in H2. rewrite H1, H2.
  by rewrite Hv, Hr.
Qed.

Lemma atoi_neg_digits s v :
  s <> [] -> digits_val 0 s = Some v -> in_int64 (- v) = true ->
  atoi ("-"%char :: s) = Some (- v).
Proof.
  intros Hne Hv Hr. unfold atoi. rewrite ch_eqb_refl.
  destruct s; [done|]. by rewrite Hv, Hr.
Qed.

(** Decimal printing of a non-negative 64-bit number (strconv.FormatUint,
    the %d verb): at most twenty digits. *)
Definition print_uint (n : Z) : gostr :=
  if n =? 0 then #"0" else dec_digits 20 n [].

Lemma print_uint_digits n : Forall (fun c => is_digit c = true) (print_uint n).
Proof.
  unfold print_uint. destruct (n =? 0); [repeat constructor|].
  apply dec_digits_Forall. constructor.
Qed.

Lemma print_uint_nonempty n : 0 <= n -> print_uint n <> [].
Proof.
  intros Hn. unfold print_uint. destruct (Z.eqb_spec n 0) as [|Hz]; [done|].
  change (dec_digits 20 n [])
    with (if n >? 0 then dec_digits 19 (n / 10) [byte_of (48 + n mod 10)] else []).
  replace (n >? 0) with true by lia.
  pose proof (dec_digits_length 19 (n / 10) [byte_of (48 + n mod 10)]) as H.
  intros E. rewrite E in H. inversion H.
Qed.

Lemma print_uint_val n : 0 <= n < 10 ^ 20 -> digits_val 0 (print_uint n) = Some n.
Proof.
  intros Hn. unfold print_uint. destruct (Z.eqb_spec n 0) as [->|Hz]; [done|].
  by rewrite dec_digits_val.
Qed.

Lemma print_uint_length n : (length (print_uint n) <= 20)%nat.
Proof.
  assert (forall fuel m acc, (length (dec_digits fuel m acc) <= fuel + length acc)%nat) as H.
  { induction fuel as [|fuel IH]; intros m acc; simpl; [lia|].
    destruct (m >? 0); [|simpl; lia]. specialize (IH (m / 10) (byte_of (48 + m mod 10) :: acc)).
    simpl in *. lia. }
  unfold print_uint. destruct (n =? 0); [simpl; lia|]. apply (H 20%nat n []).
Qed.

Lemma print_uint_atoi n : 0 <= n <= MaxInt64 -> atoi (print_uint n) = Some n.
Proof.
  unfold MaxInt64. intros Hn. apply atoi_digits.
  - apply print_uint_nonempty. lia.
  - apply print_uint_digits.
  - apply print_uint_val. lia.
  - unfold in_int64, MinInt64, MaxInt64. lia.
Qed.

Lemma digits_no c s :
  is_digit c = false -> Forall (fun c => is_digit c = true) s -> c ∉ s.
Proof. intros Hc Hs Hin. rewrite Forall_forall in Hs. specialize (Hs c Hin). congruence. Qed.

(** ** Order

    [s < t] on Go strings: by bytes, a proper prefix first. *)
Fixpoint str_ltb (s t : gostr) : bool :=
  match s, t with
  | _, [] => false
  | [], _ :: _ => true
  | a :: s', b :: t' => if ch_eqb a b then str_ltb s' t' else byte_val a <? byte_val b
  end.

Lemma str_ltb_irrefl s : str_ltb s s = false.
Proof. induction s as [|a s IH]; simpl; [done|]. by rewrite ch_eqb_refl. Qed.

Lemma byte_val_inj a b : byte_val a = byte_val b -> a = b.
Proof.
  unfold byte_val. intros H%N2Z.inj.
  by rewrite <- (ascii_N_embedding a), <- (ascii_N_embedding b), H.
Qed.

Lemma str_ltb_total s t : str_ltb s t = false -> str_ltb t s = false -> s = t.
Proof.
  revert t. induction s as [|a s IH]; intros [|b t]; simpl; [done..|].
  destruct (ch_eqb a b) eqn:E.
  - apply ch_eqb_eq in E. subst b. rewrite ch_eqb_refl. intros. f_equal. by apply IH.
  - assert (ch_eqb b a = false) as ->.
    { apply not_true_iff_false. intros ->%ch_eqb_eq. by rewrite ch_eqb_refl in E. }
    intros H1 H2. exfalso. assert (byte_val a = byte_val b) as ->%byte_val_inj by lia.
    by rewrite ch_eqb_refl in E.
Qed.

Lemma str_ltb_trans s t u : str_ltb s t = true -> str_ltb t u = true -> str_ltb s u = true.
Proof.
  revert t u. induction s as [|a s IH]; intros [|b t] [|c u]; simpl; try done.
  destruct (ch_eqb a b) eqn:E1; destruct (ch_eqb b c) eqn:E2; intros H1 H2.
  - apply ch_eqb_eq in E1, E2. subst. rewrite ch_eqb_refl. by eapply IH.
  - apply ch_eqb_eq in E1. subst. by rewrite E2.
  - apply ch_eqb_eq in E2. subst. by rewrite E1.
  - destruct (ch_eqb a c) eqn:E3; [apply ch_eqb_eq in E3; subst; lia|lia].
Qed.

(** ** strings.ReplaceAll, for a non-empty [old]

    [skip] counts the bytes of an occurrence that are still to be passed. *)
Fixpoint replace_from (old new : gostr) (skip : nat) (s : gostr) : gostr :=
  match s with
  | [] => []
  | c :: s' =>
      match skip with
      | S k => replace_from old new k s'
      | O => if has_prefix s old then new ++ replace_from old new (length old - 1) s'
             else c :: replace_from old new 0 s'
      end
  end.

Definition replace_all (s old new : gostr) : gostr := replace_from old new 0 s.

Lemma replace_from_skip old new p s :
  replace_from old new (length p) (p ++ s) = replace_from old new 0 s.
Proof. induction p as [|c p IH]; [done|]. simpl. exact IH. Qed.

(** The first occurrence is replaced, and so is the rest. *)
Lemma replace_all_occurs old new s : old <> [] ->
  replace_all (old ++ s) old new = new ++ replace_all s old new.
Proof.
  intros Ho. unfold replace_all. destruct old as [|c old]; [done|]. cbn [app replace_from].
  rewrite (proj2 (has_prefix_iff (c :: old ++ s) (c :: old))) by (by exists s).
  f_equal. cbn [length]. rewrite Nat.sub_1_r. cbn [pred]. apply replace_from_skip.
Qed.

Lemma replace_all_none old new s : contains s old = false -> replace_all s old new = s.
Proof.
  unfold replace_all. induction s as [|c s IH]; intros Hc; [done|]. cbn [replace_from].
  destruct (has_prefix (c :: s) old) eqn:E.
  - exfalso. apply has_prefix_iff in E as [t E]. apply not_true_iff_false in Hc. apply Hc.
    apply contains_iff. exists [], t. done.
  - f_equal. apply IH. apply not_true_iff_false. intros H. apply not_true_iff_false in Hc. apply Hc.
    apply contains_iff in H as (a & b & ->). apply contains_iff. by exists (c :: a), b.
Qed.
