(* ===== verification/GoTime.v ===== *)
(** * Go's package time, as far as the schedulers use it

    An instant is a number of nanoseconds since 0001-01-01T00:00:00 UTC,
    Go's zero Time, so [IsZero] is [t =? 0] and [Truncate] rounds down in
    absolute time.  A Location is a base offset and a table of zone
    transitions, which is what Location.lookup searches; [go_date]
    follows time.Date, including how it resolves wall clocks near a
    transition.  The second half is the calendar: the civil date of a day
    number is the unique one, and what stays constant over a month, a day
    and an hour. *)

From S2P Require Import Prelude GoStrings.

(** ** Instants and durations *)

Abbreviation Instant := Z (only parsing).

Definition Second : Z := 1000000000.
Definition Minute : Z := 60 * Second.
Definition Hour : Z := 3600 * Second.
Definition Day : Z := 86400 * Second.

Definition zero_time : Instant := 0.
Definition is_zero (t : Instant) : bool := t =? 0.
Definition truncate (t : Instant) (d : Z) : Instant := t - t mod d.

(** ** The proleptic Gregorian calendar on day numbers (0 is 0001-01-01) *)

Definition is_leap (y : Z) : bool :=
  (y mod 4 =? 0) && (negb (y mod 100 =? 0) || (y mod 400 =? 0)).

Definition days_before_year (y : Z) : Z :=
  365 * (y - 1) + (y - 1) / 4 - (y - 1) / 100 + (y - 1) / 400.

(** Days of the year before month [m]; [m = 13] is the length of the year. *)
Definition days_before_month (leap : bool) (m : Z) : Z :=
  let l := if leap then 1 else 0 in
  if m <=? 1 then 0
  else if m =? 2 then 31
  else if m =? 3 then 59 + l
  else if m =? 4 then 90 + l
  else if m =? 5 then 120 + l
  else if m =? 6 then 151 + l
  else if m =? 7 then 181 + l
  else if m =? 8 then 212 + l
  else if m =? 9 then 243 + l
  else if m =? 10 then 273 + l
  else if m =? 11 then 304 + l
  else if m =? 12 then 334 + l
  else 365 + l.

Definition days_in_month (y m : Z) : Z :=
  days_before_month (is_leap y) (m + 1) - days_before_month (is_leap y) m.

Definition day_of_civil (y m d : Z) : Z :=
  days_before_year y + days_before_month (is_leap y) m + (d - 1).

(** The year of a day number: cut off cycles of 400, 100, 4 and 1 years. *)
Definition year_of_day (n : Z) : Z :=
  let n400 := n / 146097 in
  let d1 := n - 146097 * n400 in
  let n100 := d1 / 36524 - d1 / 36524 / 4 in
  let d2 := d1 - 36524 * n100 in
  let n4 := d2 / 1461 in
  let d3 := d2 - 1461 * n4 in
  let n1 := d3 / 365 - d3 / 365 / 4 in
  400 * n400 + 100 * n100 + 4 * n4 + n1 + 1.

Definition yday_of_day (n : Z) : Z := n - days_before_year (year_of_day n).

Definition month_of_yday (leap : bool) (yd : Z) : Z :=
  if yd <? days_before_month leap 2 then 1
  else if yd <? days_before_month leap 3 then 2
  else if yd <? days_before_month leap 4 then 3
  else if yd <? days_before_month leap 5 then 4
  else if yd <? days_before_month leap 6 then 5
  else if yd <? days_before_month leap 7 then 6
  else if yd <? days_before_month leap 8 then 7
  else if yd <? days_before_month leap 9 then 8
  else if yd <? days_before_month leap 10 then 9
  else if yd <? days_before_month leap 11 then 10
  else if yd <? days_before_month leap 12 then 11
  else 12.

Definition month_of_day (n : Z) : Z :=
  month_of_yday (is_leap (year_of_day n)) (yday_of_day n).

Definition mday_of_day (n : Z) : Z :=
  yday_of_day n - days_before_month (is_leap (year_of_day n)) (month_of_day n) + 1.

(** Sunday is 0; 0001-01-01 is a Monday. *)
Definition weekday_of_day (n : Z) : Z := (n + 1) mod 7.

(** Time.ISOWeek: the year and week of the Thursday of the same week. *)
Definition iso_week_of_day (n : Z) : Z * Z :=
  let d := 4 - weekday_of_day n in
  let th := n + (if d =? 4 then -3 else d) in
  (year_of_day th, yday_of_day th / 7 + 1).

(** ** Locations *)

(** [zone0] is the offset in seconds before the first transition; each
    transition is the second at which a new offset starts. *)
Record Location := mkLocation { zone0 : Z; zone_tx : list (Z * Z) }.

Definition fixed_zone (off : Z) : Location := mkLocation off [].
Definition UTC : Location := fixed_zone 0.

(** Location.lookup: the offset at [sec] and the half-open interval of
    seconds on which it is in force ([None] is unbounded). *)
Fixpoint lookup_from (off : Z) (start : option Z) (tx : list (Z * Z)) (sec : Z)
  : Z * option Z * option Z :=
  match tx with
  | [] => (off, start, None)
  | (w, o) :: tx' =>
      if sec <? w then (off, start, Some w) else lookup_from o (Some w) tx' sec
  end.

Definition zone_lookup (loc : Location) (sec : Z) : Z * option Z * option Z :=
  lookup_from (zone0 loc) None (zone_tx loc) sec.

Definition zone_offset (loc : Location) (sec : Z) : Z := (zone_lookup loc sec).1.1.

(** ** Wall clock of an instant *)

Definition unix_sec (t : Instant) : Z := t / Second.
Definition wall_sec (loc : Location) (t : Instant) : Z :=
  unix_sec t + zone_offset loc (unix_sec t).
Definition wall_day (loc : Location) (t : Instant) : Z := wall_sec loc t / 86400.

Definition time_year (loc : Location) (t : Instant) : Z := year_of_day (wall_day loc t).
Definition time_month (loc : Location) (t : Instant) : Z := month_of_day (wall_day loc t).
Definition time_day (loc : Location) (t : Instant) : Z := mday_of_day (wall_day loc t).
Definition time_weekday (loc : Location) (t : Instant) : Z := weekday_of_day (wall_day loc t).
Definition time_hour (loc : Location) (t : Instant) : Z := wall_sec loc t mod 86400 / 3600.
Definition time_minute (loc : Location) (t : Instant) : Z := wall_sec loc t mod 3600 / 60.

(** time.Date(y, m, d, h, mi, 0, 0, loc) for a month in 1..12.  The offset
    in force at the wall clock read as UTC is tried first; when the
    resulting instant lies outside that zone's interval the offset in
    force at the resulting instant is used. *)
Definition go_date (y m d h mi : Z) (loc : Location) : Instant :=
  let sec := day_of_civil y m d * 86400 + h * 3600 + mi * 60 in
  let '(off, start, fin) := zone_lookup loc sec in
  let utc := sec - off in
  let outside :=
    match start with Some a => utc <? a | None => false end ||
    match fin with Some b => b <=? utc | None => false end in
  let off' := if (off =? 0) then 0 else if outside then zone_offset loc utc else off in
  (sec - off') * Second.

(** ** The layouts used: "2006-01-02-1504" and its prefixes *)

Definition digits_of (n : Z) : gostr :=
  if n =? 0 then #"0" else dec_digits 20 n [].

(** time's appendInt: sign, then the decimal digits padded with zeros. *)
Definition append_int (x : Z) (width : nat) : gostr :=
  let u := Z.abs x in
  let ds := digits_of u in
  (if x <? 0 then #"-" else []) ++ replicate (width - length ds) "0"%char ++ ds.

Definition fmt_year (loc : Location) (t : Instant) : gostr := append_int (time_year loc t) 4.
Definition fmt_month (loc : Location) (t : Instant) : gostr :=
  fmt_year loc t ++ #"-" ++ append_int (time_month loc t) 2.
Definition fmt_date (loc : Location) (t : Instant) : gostr :=
  fmt_month loc t ++ #"-" ++ append_int (time_day loc t) 2.
Definition fmt_hour (loc : Location) (t : Instant) : gostr :=
  fmt_date loc t ++ #"-" ++ append_int (time_hour loc t) 2.
Definition fmt_stamp (loc : Location) (t : Instant) : gostr :=
  fmt_hour loc t ++ append_int (time_minute loc t) 2.

(** time's getnum with two digits required. *)
Definition two_digits (s : gostr) : option (Z * gostr) :=
  match s with
  | a :: b :: r =>
      if is_digit a && is_digit b then Some (10 * digit_val a + digit_val b, r) else None
  | _ => None
  end.

Definition four_digits (s : gostr) : option (Z * gostr) :=
  match s with
  | a :: b :: c :: d :: r =>
      if is_digit a && is_digit b && is_digit c && is_digit d
      then Some (1000 * digit_val a + 100 * digit_val b + 10 * digit_val c + digit_val d, r)
      else None
  | _ => None
  end.

Definition skip_dash (s : gostr) : option gostr :=
  match s with a :: r => if ch_eqb a "-"%char then Some r else None | [] => None end.

(** time.ParseInLocation("2006-01-02-1504", s, loc).  The hour field
    accepts one digit only when the next byte is no digit, and then the
    two-digit minute cannot follow, so it takes two digits. *)
Definition parse_stamp (s : gostr) (loc : Location) : option Instant :=
  '(y, s) ← four_digits s; s ← skip_dash s;
  '(mo, s) ← two_digits s; s ← skip_dash s;
  '(d, s) ← two_digits s; s ← skip_dash s;
  '(h, s) ← two_digits s;
  '(mi, s) ← two_digits s;
  if bool_decide (s = []) && (1 <=? mo) && (mo <=? 12) && (h <? 24) && (mi <? 60)
     && (1 <=? d) && (d <=? days_in_month y mo)
  then Some (go_date y mo d h mi loc) else None.

(** ** Calendar facts *)

Lemma days_before_year_next y :
  days_before_year (y + 1) = days_before_year y + if is_leap y then 366 else 365.
Proof.
  unfold days_before_year, is_leap.
  replace (y + 1 - 1) with y by dlia.
  assert (y / 4 = (y - 1) / 4 + if y mod 4 =? 0 then 1 else 0).
  { destruct (Z.eqb_spec (y mod 4) 0); dlia. }
  assert (y / 100 = (y - 1) / 100 + if y mod 100 =? 0 then 1 else 0).
  { destruct (Z.eqb_spec (y mod 100) 0); dlia. }
  assert (y / 400 = (y - 1) / 400 + if y mod 400 =? 0 then 1 else 0).
  { destruct (Z.eqb_spec (y mod 400) 0); dlia. }
  destruct (Z.eqb_spec (y mod 4) 0), (Z.eqb_spec (y mod 100) 0),
    (Z.eqb_spec (y mod 400) 0); simpl; try dlia.
Qed.

Lemma days_before_year_mono y1 y2 :
  y1 < y2 -> days_before_year (y1 + 1) <= days_before_year y2.
Proof. unfold days_before_year. intros H. dlia. Qed.

Lemma days_before_year_cycles a b c e :
  0 <= b <= 3 -> 0 <= c <= 24 -> 0 <= e <= 3 ->
  days_before_year (400 * a + 100 * b + 4 * c + e + 1)
  = 146097 * a + 36524 * b + 1461 * c + 365 * e.
Proof.
  intros Hb Hc He. unfold days_before_year.
  set (y := 400 * a + 100 * b + 4 * c + e + 1 - 1).
  assert (y / 4 = 100 * a + 25 * b + c) as -> by (unfold y; dlia).
  assert (y / 100 = 4 * a + b) as -> by (unfold y; dlia).
  assert (y / 400 = a) as -> by (unfold y; dlia).
  unfold y; dlia.
Qed.

Lemma year_of_day_spec n :
  days_before_year (year_of_day n) <= n < days_before_year (year_of_day n + 1).
Proof.
  unfold year_of_day; cbv zeta.
  set (a := n / 146097). set (d1 := n - 146097 * a).
  assert (0 <= d1 < 146097) as H1 by (unfold d1, a; dlia).
  set (b := d1 / 36524 - d1 / 36524 / 4).
  set (d2 := d1 - 36524 * b).
  assert (0 <= b <= 3 /\ 0 <= d2 <= 36524 /\ (b < 3 -> d2 < 36524)) as (Hb & H2 & H2')
    by (unfold d2, b; dlia).
  set (c := d2 / 1461). set (d3 := d2 - 1461 * c).
  assert (0 <= c <= 24 /\ 0 <= d3 < 1461) as (Hc & H3) by (unfold d3, c; dlia).
  set (e := d3 / 365 - d3 / 365 / 4).
  assert (0 <= e <= 3 /\ 0 <= d3 - 365 * e <= 365 /\ (e < 3 -> d3 - 365 * e < 365))
    as (He & H4 & H4') by (unfold e; dlia).
  set (y := 400 * a + 100 * b + 4 * c + e + 1).
  rewrite (days_before_year_next y).
  assert (days_before_year y = 146097 * a + 36524 * b + 1461 * c + 365 * e) as ->
    by (by apply days_before_year_cycles).
  assert (is_leap y = (e =? 3) && (negb (c =? 24) || (b =? 3))) as ->.
  { unfold is_leap.
    assert (y mod 4 = (e + 1) mod 4) as -> by (unfold y; dlia).
    assert (y mod 100 = (4 * c + e + 1) mod 100) as -> by (unfold y; dlia).
    assert (y mod 400 = (100 * b + 4 * c + e + 1) mod 400) as -> by (unfold y; dlia).
    destruct (Z.eqb_spec e 3) as [->|]; simpl; [|dlia].
    destruct (Z.eqb_spec c 24) as [->|]; simpl; dlia. }
  destruct (Z.eqb_spec e 3), (Z.eqb_spec c 24), (Z.eqb_spec b 3); simpl; unfold d2, d3 in *; dlia.
Qed.

Lemma year_of_day_unique n y :
  days_before_year y <= n < days_before_year (y + 1) -> year_of_day n = y.
Proof.
  intros H. pose proof (year_of_day_spec n) as H'.
  destruct (Z.lt_trichotomy (year_of_day n) y) as [Hlt|[He|Hlt]]; [|done|];
    apply days_before_year_mono in Hlt; lia.
Qed.

Lemma yday_range n : 0 <= yday_of_day n < 365 + if is_leap (year_of_day n) then 1 else 0.
Proof.
  pose proof (year_of_day_spec n) as H. rewrite days_before_year_next in H.
  unfold yday_of_day. destruct (is_leap _); lia.
Qed.

Ltac month_cases :=
  repeat match goal with
  | |- context [?a <? ?b] => destruct (Z.ltb_spec a b)
  | |- context [?a <=? ?b] => destruct (Z.leb_spec a b)
  | |- context [?a =? ?b] => destruct (Z.eqb_spec a b)
  end.

(** Evaluate the month table where its arguments are known. *)
Ltac month_value l m k :=
  let v := eval vm_compute in (days_before_month l m) in
  lazymatch isZcst v with true => k v end.

Ltac eval_months :=
  repeat match goal with
  | |- context [days_before_month ?l ?m] =>
      month_value l m ltac:(fun v => change (days_before_month l m) with v)
  | H : context [days_before_month ?l ?m] |- _ =>
      month_value l m ltac:(fun v => change (days_before_month l m) with v in H)
  end.

Lemma month_of_yday_spec (leap : bool) yd :
  0 <= yd < 365 + (if leap then 1 else 0) ->
  1 <= month_of_yday leap yd <= 12 /\
  days_before_month leap (month_of_yday leap yd) <= yd
    < days_before_month leap (month_of_yday leap yd + 1).
Proof.
  intros H. unfold month_of_yday.
  destruct leap; eval_months; month_cases; eval_months; lia.
Qed.

Lemma month_cases m : 1 <= m <= 12 ->
  m = 1 \/ m = 2 \/ m = 3 \/ m = 4 \/ m = 5 \/ m = 6 \/ m = 7 \/ m = 8 \/
  m = 9 \/ m = 10 \/ m = 11 \/ m = 12.
Proof. lia. Qed.

Ltac by_month H :=
  apply month_cases in H;
  repeat destruct H as [->|H]; try subst.

Lemma month_of_yday_unique leap yd m :
  1 <= m <= 12 ->
  days_before_month leap m <= yd < days_before_month leap (m + 1) ->
  month_of_yday leap yd = m.
Proof.
  intros Hm H. unfold month_of_yday.
  by_month Hm; destruct leap; eval_months; month_cases; lia.
Qed.

Lemma days_in_month_range y m : 1 <= m <= 12 -> 28 <= days_in_month y m <= 31.
Proof. intros Hm. unfold days_in_month. by_month Hm; destruct (is_leap y); eval_months; lia. Qed.

(** The civil date of a day number, and that it is the only one. *)
Lemma civil_of_day n :
  day_of_civil (year_of_day n) (month_of_day n) (mday_of_day n) = n /\
  1 <= month_of_day n <= 12 /\
  1 <= mday_of_day n <= days_in_month (year_of_day n) (month_of_day n).
Proof.
  pose proof (yday_range n) as H. apply month_of_yday_spec in H.
  fold (month_of_day n) in H. unfold day_of_civil, mday_of_day, days_in_month.
  unfold yday_of_day in *. lia.
Qed.

Lemma civil_unique y m d :
  1 <= m <= 12 -> 1 <= d <= days_in_month y m ->
  year_of_day (day_of_civil y m d) = y /\
  month_of_day (day_of_civil y m d) = m /\
  mday_of_day (day_of_civil y m d) = d.
Proof.
  intros Hm Hd.
  assert (0 <= days_before_month (is_leap y) m /\
          days_before_month (is_leap y) (m + 1) <= 365 + if is_leap y then 1 else 0) as [Ha Hb].
  { by_month Hm; destruct (is_leap y); eval_months; lia. }
  unfold days_in_month in Hd.
  assert (year_of_day (day_of_civil y m d) = y) as Hy.
  { apply year_of_day_unique. rewrite days_before_year_next.
    unfold day_of_civil. destruct (is_leap y); lia. }
  assert (month_of_day (day_of_civil y m d) = m) as Hmo.
  { unfold month_of_day, yday_of_day. rewrite Hy.
    apply month_of_yday_unique; [done|]. unfold day_of_civil. lia. }
  split_and!; [done|done|].
  unfold mday_of_day, yday_of_day. rewrite Hy, Hmo. unfold day_of_civil. lia.
Qed.

(** The month after (y, m), as nextMonthStart computes it. *)
Definition next_month (y m : Z) : Z * Z := if m + 1 >? 12 then (y + 1, 1) else (y, m + 1).

Lemma day_of_civil_next_month y m :
  1 <= m <= 12 ->
  day_of_civil (next_month y m).1 (next_month y m).2 1
  = day_of_civil y m 1 + days_in_month y m.
Proof.
  intros Hm. unfold next_month, day_of_civil, days_in_month.
  by_month Hm; simpl;
    rewrite ?days_before_year_next; destruct (is_leap y);
    repeat match goal with |- context [is_leap ?z] => destruct (is_leap z) end;
    eval_months; lia.
Qed.

(** Every day from the first of a month to the first of the next one lies
    in that month. *)
Lemma month_span n k :
  n <= k ->
  k < day_of_civil (next_month (year_of_day n) (month_of_day n)).1
                   (next_month (year_of_day n) (month_of_day n)).2 1 ->
  year_of_day k = year_of_day n /\ month_of_day k = month_of_day n.
Proof.
  intros H1 H2. destruct (civil_of_day n) as (Hn & Hm & Hd).
  rewrite day_of_civil_next_month in H2 by done.
  set (y := year_of_day n) in *. set (m := month_of_day n) in *.
  destruct (civil_unique y m (k - day_of_civil y m 1 + 1)) as (E1 & E2 & _);
    [done|unfold day_of_civil in *; lia|].
  replace (day_of_civil y m (k - day_of_civil y m 1 + 1)) with k in E1, E2
    by (unfold day_of_civil; lia).
  done.
Qed.

Lemma next_month_after n :
  n < day_of_civil (next_month (year_of_day n) (month_of_day n)).1
                   (next_month (year_of_day n) (month_of_day n)).2 1.
Proof.
  destruct (civil_of_day n) as (Hn & Hm & Hd).
  rewrite day_of_civil_next_month by done. unfold day_of_civil in *. lia.
Qed.

Lemma year_of_day_mono n k : n <= k -> year_of_day n <= year_of_day k.
Proof.
  intros H. destruct (Z.le_gt_cases (year_of_day n) (year_of_day k)) as [|Hlt]; [done|].
  apply days_before_year_mono in Hlt.
  pose proof (year_of_day_spec n). pose proof (year_of_day_spec k). lia.
Qed.

(** ** Fixed zones *)

Section FixedZone.
Context (off : Z).
Let loc := fixed_zone off.

Lemma fixed_wall_sec t : wall_sec loc t = t / Second + off.
Proof. done. Qed.

Lemma fixed_go_date y m d h mi :
  go_date y m d h mi loc
  = (day_of_civil y m d * 86400 + h * 3600 + mi * 60 - off) * Second.
Proof. unfold go_date, zone_lookup; simpl. destruct (Z.eqb_spec off 0); subst; lia. Qed.

Lemma fixed_wall_day t u :
  wall_day loc t = u <-> (u * 86400 - off) * Second <= t < ((u + 1) * 86400 - off) * Second.
Proof. unfold wall_day. rewrite fixed_wall_sec. unfold Second. dlia. Qed.

Lemma fixed_wall_day_mono t u : t <= u -> wall_day loc t <= wall_day loc u.
Proof. unfold wall_day. rewrite !fixed_wall_sec. unfold Second. dlia. Qed.

Lemma fixed_year_mono t u : t <= u -> time_year loc t <= time_year loc u.
Proof. intros H. by apply year_of_day_mono, fixed_wall_day_mono. Qed.

(** An instant is the start of its wall-clock minute, hour and day plus
    the rest. *)
Lemma fixed_hour_span t u :
  wall_day loc t = wall_day loc u ->
  time_hour loc t = time_hour loc u <->
  wall_sec loc t / 3600 = wall_sec loc u / 3600.
Proof. unfold wall_day, time_hour. rewrite !fixed_wall_sec. intros H. dlia. Qed.
End FixedZone.
