(* ===== verification/SortLib.v ===== *)
(** * Sorting

    [stable_sort] is Go's sort.SliceStable for a strict order given as a
    boolean: insertion, each new element placed after those it is not
    smaller than. *)

From S2P Require Import Prelude.

Section StableSort.
Context {A : Type} (less : A -> A -> bool).

Fixpoint insert_after (x : A) (l : list A) : list A :=
  match l with
  | [] => [x]
  | y :: l' => if less x y then x :: l else y :: insert_after x l'
  end.

Definition stable_sort (l : list A) : list A :=
  fold_left (fun acc x => insert_after x acc) l [].

Lemma insert_after_perm x l : insert_after x l ≡ₚ x :: l.
Proof.
  induction l as [|y l IH]; simpl; [done|]. destruct (less x y); [done|].
  rewrite IH. apply Permutation_swap.
Qed.

Lemma fold_insert_perm l acc :
  fold_left (fun acc x => insert_after x acc) l acc ≡ₚ l ++ acc.
Proof.
  revert acc; induction l as [|x l IH]; intros acc; simpl; [done|].
  rewrite IH, insert_after_perm. by rewrite Permutation_middle.
Qed.

Lemma stable_sort_perm l : stable_sort l ≡ₚ l.
Proof. unfold stable_sort. by rewrite fold_insert_perm, app_nil_r. Qed.

(** The order is that of a key. *)
Context (key : A -> Z) (Hkey : forall x y, less x y = (key x <? key y)).

Abbreviation key_le := (fun x y : A => key x <= key y).

Lemma insert_after_sorted x l :
  StronglySorted key_le l -> StronglySorted key_le (insert_after x l).
Proof.
  induction 1 as [|y l Hs IH Hy]; simpl; [repeat constructor|].
  rewrite Hkey. destruct (Z.ltb_spec (key x) (key y)).
  - repeat constructor; [done|done|lia|].
    eapply Forall_impl; [done|]. simpl; intros; lia.
  - constructor; [done|]. rewrite insert_after_perm. by constructor.
Qed.

Lemma stable_sort_sorted l : StronglySorted key_le (stable_sort l).
Proof.
  unfold stable_sort. assert (StronglySorted key_le (@nil A)) as H by constructor. revert H.
  generalize (@nil A). induction l as [|x l IH]; intros acc Hacc; simpl; [done|].
  apply IH. by apply insert_after_sorted.
Qed.

(** Sorting a sorted list changes nothing. *)
Lemma insert_after_last x l :
  Forall (fun y => key y <= key x) l -> insert_after x l = l ++ [x].
Proof.
  induction 1 as [|y l Hy Hl IH]; simpl; [done|].
  rewrite Hkey. destruct (Z.ltb_spec (key x) (key y)); [lia|]. by rewrite IH.
Qed.

Lemma stable_sort_id l : StronglySorted key_le l -> stable_sort l = l.
Proof.
  unfold stable_sort. intros H.
  assert (forall acc, StronglySorted key_le (acc ++ l) ->
            fold_left (fun acc x => insert_after x acc) l acc = acc ++ l) as Hgen.
  { clear H. induction l as [|x l IH]; intros acc Hs; simpl; [by rewrite app_nil_r|].
    rewrite insert_after_last, IH; rewrite <- ?app_assoc; simpl; [done..|].
    clear IH. induction acc as [|a acc IHa]; [done|].
    simpl in Hs. apply StronglySorted_inv in Hs as [Hs Ha].
    constructor; [|by apply IHa]. rewrite Forall_app, Forall_cons in Ha. naive_solver. }
  apply (Hgen []). done.
Qed.

(** Sorting commutes with keeping a part of the list: stability. *)
Lemma insert_after_filter (P : A -> Prop) `{!forall x, Decision (P x)} x l :
  StronglySorted key_le l ->
  filter P (insert_after x l) = if decide (P x) then insert_after x (filter P l) else filter P l.
Proof.
  induction 1 as [|y l Hs IH Hy]; simpl.
  { rewrite filter_cons, filter_nil. by destruct (decide (P x)). }
  rewrite Hkey. destruct (Z.ltb_spec (key x) (key y)).
  - rewrite filter_cons. destruct (decide (P x)); [|done].
    assert (Forall (fun z => key x < key z) (filter P (y :: l))) as Hall.
    { apply Forall_forall. intros z [_ Hz]%list_elem_of_filter.
      rewrite Forall_forall in Hy. apply elem_of_cons in Hz as [->|Hz]; [done|].
      specialize (Hy z Hz). simpl in Hy. lia. }
    destruct (filter P (y :: l)) as [|z l']; [done|]. simpl. rewrite Hkey.
    apply Forall_cons in Hall as [Hz _]. destruct (Z.ltb_spec (key x) (key z)); [done|lia].
  - rewrite !filter_cons, IH. destruct (decide (P y)), (decide (P x)); simpl; try done.
    rewrite Hkey. destruct (Z.ltb_spec (key x) (key y)); [lia|done].
Qed.

Lemma stable_sort_filter (P : A -> Prop) `{!forall x, Decision (P x)} l :
  filter P (stable_sort l) = stable_sort (filter P l).
Proof.
  unfold stable_sort.
  assert (forall acc, StronglySorted key_le acc ->
    filter P (fold_left (fun acc x => insert_after x acc) l acc)
    = fold_left (fun acc x => insert_after x acc) (filter P l) (filter P acc)) as Hgen.
  { induction l as [|x l IH]; intros acc Hacc; simpl; [done|].
    rewrite IH by (by apply insert_after_sorted).
    rewrite insert_after_filter, filter_cons by done. by destruct (decide (P x)). }
  rewrite Hgen by constructor. done.
Qed.
End StableSort.

(** An element smaller than all others comes first. *)
Lemma stable_sort_least {A} (less : A -> A -> bool) (x : A) (l : list A) :
  x ∈ l -> less x x = false -> (forall y, y ∈ l -> y <> x -> less x y = true /\ less y x = false) ->
  (forall y : A, y ∈ l -> Decision (y = x)) -> exists rest, stable_sort less l = x :: rest.
Proof.
  intros Hx Hxx Hless Hdec. unfold stable_sort.
  assert (forall l' acc, (forall y, y ∈ l' -> y ∈ l) -> (forall y, y ∈ acc -> y ∈ l) ->
    ((exists rest, acc = x :: rest) \/ (x ∉ acc /\ x ∈ l')) ->
    exists rest, fold_left (fun acc x => insert_after less x acc) l' acc = x :: rest) as H.
  { induction l' as [|y l' IH]; intros acc Hl' Hacc [[rest ->]|[Hn Hin]]; cbn [fold_left]; [by exists rest|set_solver|..].
    - apply IH; [set_solver|..].
      + intros z. rewrite insert_after_perm. set_solver.
      + left. simpl. destruct (Hdec y ltac:(set_solver)) as [->|Hne]; [rewrite Hxx; eauto|].
        destruct (Hless y ltac:(set_solver) Hne) as [_ ->]. eauto.
    - apply IH; [set_solver|intros z; rewrite insert_after_perm; set_solver|].
      destruct (Hdec y ltac:(set_solver)) as [->|Hne].
      + left. destruct acc as [|z acc]; simpl; [eauto|].
        destruct (Hless z ltac:(set_solver) ltac:(set_solver)) as [-> _]. eauto.
      + right. split; [rewrite insert_after_perm; set_solver|set_solver]. }
  apply H; [done|set_solver|right; set_solver].
Qed.

(** Sortedness for a strict weak order. *)
Lemma stable_sort_weak {A} (less : A -> A -> bool) (l : list A) :
  (forall x y, less x y = true -> less y x = false) ->
  (forall x y z, less y x = false -> less z y = false -> less z x = false) ->
  StronglySorted (fun x y => less y x = false) (stable_sort less l).
Proof.
  intros Hasym Htrans. unfold stable_sort.
  assert (forall acc, StronglySorted (fun x y => less y x = false) acc ->
    StronglySorted (fun x y => less y x = false)
      (fold_left (fun acc x => insert_after less x acc) l acc)) as H; [|apply H; constructor].
  induction l as [|x l IH]; intros acc Hacc; simpl; [done|]. apply IH. clear IH.
  induction Hacc as [|y acc Hs IH Hy]; simpl; [repeat constructor|].
  destruct (less x y) eqn:E.
  - assert (Hyx : less y x = false) by by apply Hasym. repeat constructor; [done|done|done|].
    eapply Forall_impl; [exact Hy|]. intros z Hz. simpl in *. by eapply Htrans.
  - constructor; [done|]. rewrite insert_after_perm. by constructor.
Qed.

(** * Sorting lists whose elements are comparable

    The result of sorting is determined by the elements. *)

From S2P Require Import Prelude.

(** Sorting has one result when the elements are pairwise comparable: the
    strictly sorted permutation. *)
Section Unique.
Context {A : Type} (less : A -> A -> bool).
Context (less_trans : forall x y z, less x y = true -> less y z = true -> less x z = true).

Abbreviation lt := (fun x y : A => less x y = true).
Definition comparable (l : list A) : Prop := forall x y, x ∈ l -> y ∈ l -> x <> y -> less x y = true \/ less y x = true.

Lemma insert_after_strict x l : (forall y, y ∈ l -> less x y = true \/ less y x = true) ->
  StronglySorted lt l -> StronglySorted lt (insert_after less x l).
Proof.
  intros Hc. induction 1 as [|y l Hs IH Hy]; simpl; [repeat constructor|]. destruct (less x y) eqn:E.
  - repeat constructor; [done|done|done|]. eapply Forall_impl; [exact Hy|]. intros z Hz. by eapply less_trans.
  - constructor; [apply IH; set_solver|]. rewrite insert_after_perm. constructor; [|done].
    destruct (Hc y) as [?|?]; [set_solver|congruence|done].
Qed.

Lemma stable_sort_strict l : NoDup l -> comparable l -> StronglySorted lt (stable_sort less l).
Proof.
  unfold stable_sort. intros Hd Hc.
  assert (forall acc, NoDup (l ++ acc) -> comparable (l ++ acc) -> StronglySorted lt acc ->
    StronglySorted lt (fold_left (fun acc x => insert_after less x acc) l acc)) as H.
  { clear Hd Hc. induction l as [|x l IH]; intros acc Hd Hc Hs; simpl; [done|].
    simpl in Hd. apply NoDup_cons in Hd as [Hx Hd].
    assert (Hp : l ++ insert_after less x acc ≡ₚ x :: l ++ acc) by (rewrite insert_after_perm; symmetry; apply Permutation_middle).
    apply IH.
    - rewrite Hp. by constructor.
    - intros y z. rewrite !Hp. apply Hc.
    - apply insert_after_strict; [|done]. intros y Hy. apply Hc; set_solver. }
  apply H; [by rewrite app_nil_r|by rewrite app_nil_r|constructor].
Qed.

Lemma strict_sorted_comparable l : StronglySorted lt l -> comparable l.
Proof.
  induction 1 as [|x l Hs IH Hx]; intros y z Hy Hz Hne; [by apply elem_of_nil in Hy|].
  rewrite Forall_forall in Hx. apply elem_of_cons in Hy as [->|Hy], Hz as [->|Hz]; auto.
Qed.

Lemma strict_sorted_NoDup l : (forall x, less x x = false) -> StronglySorted lt l -> NoDup l.
Proof.
  intros Hirr. induction 1 as [|x l Hs IH Hx]; constructor; [|done]. intros Hin. rewrite Forall_forall in Hx.
  specialize (Hx _ Hin). cbv beta in Hx. by rewrite Hirr in Hx.
Qed.

Lemma stable_sort_unique l l' : (forall x, less x x = false) -> l ≡ₚ l' -> StronglySorted lt l' -> stable_sort less l = l'.
Proof.
  intros Hirr Hp Hs. eapply (StronglySorted_unique_strong lt); [| |exact Hs|by rewrite stable_sort_perm].
  - intros x y _ _ Hxy Hyx. pose proof (less_trans _ _ _ Hxy Hyx) as E. by rewrite Hirr in E.
  - apply stable_sort_strict; [rewrite Hp; by apply strict_sorted_NoDup|]. intros x y. rewrite !Hp. by apply strict_sorted_comparable.
Qed.
End Unique.
