(* ===== verification/GoPath.v ===== *)
(** * path/filepath on Unix: Clean, Join and Rel

    A path is cleaned segment by segment: empty segments and "." are
    dropped, ".." removes the segment before it, and in a rooted path
    disappears at the root.  The facts say what cleaning leaves: a cleaned
    rooted path has no ".." in it, and joining it below a directory stays
    below the directory. *)

From S2P Require Import Prelude GoStrings.

Definition dot : gostr := #".".
Definition dotdot : gostr := #"..".

(** One segment against the segments so far, innermost first. *)
Definition push_seg (rooted : bool) (stack : list gostr) (seg : gostr) : list gostr :=
  if str_eqb seg [] || str_eqb seg dot then stack
  else if str_eqb seg dotdot then
    match stack with
    | top :: rest => if str_eqb top dotdot then seg :: stack else rest
    | [] => if rooted then [] else [seg]
    end
  else seg :: stack.

Definition is_rooted (p : gostr) : bool := has_prefix p #"/".

(** The segments that remain of a path. *)
Definition clean_segs (p : gostr) : list gostr :=
  rev (fold_left (push_seg (is_rooted p)) (split_on "/"%char p) []).

Definition render (rooted : bool) (segs : list gostr) : gostr :=
  if rooted then "/"%char :: join_with "/"%char segs
  else match segs with [] => dot | _ => join_with "/"%char segs end.

Definition Clean (p : gostr) : gostr := render (is_rooted p) (clean_segs p).

(** Empty elements are left out; no element at all gives the empty path. *)
Definition Join (elems : list gostr) : gostr :=
  match filter (fun e => e <> []) elems with
  | [] => []
  | es => Clean (join_with "/"%char es)
  end.

Fixpoint strip_segs (base targ : list gostr) : list gostr * list gostr :=
  match base, targ with
  | b :: base', t :: targ' => if str_eqb b t then strip_segs base' targ' else (base, targ)
  | _, _ => (base, targ)
  end.

(** filepath.Rel, for a target that is not "." unless the base is. *)
Definition Rel (basepath targpath : gostr) : option gostr :=
  if str_eqb (Clean targpath) (Clean basepath) then Some dot
  else if negb (Bool.eqb (is_rooted basepath) (is_rooted targpath)) then None
  else
    let '(b, t) := strip_segs (clean_segs basepath) (clean_segs targpath) in
    match b with
    | [] => Some (join_with "/"%char t)
    | b0 :: _ =>
        if str_eqb b0 dotdot then None
        else Some (join_with "/"%char (map (fun _ => dotdot) b ++ t))
    end.

(** [filepath.Dir] of a cleaned absolute path. *)
Definition Dir (p : gostr) : gostr :=
  match cut_last "/"%char p with
  | Some (d, _) => Clean (d ++ #"/")
  | None => dot
  end.

(** ** What cleaning leaves *)

(** A segment a cleaned path can have, ".." apart. *)
Definition plain_seg (s : gostr) : Prop := s <> [] /\ s <> dot /\ s <> dotdot /\ "/"%char ∉ s.

Lemma push_seg_plain stack seg : "/"%char ∉ seg ->
  Forall plain_seg stack -> Forall plain_seg (push_seg true stack seg).
Proof.
  intros Hseg Hs. unfold push_seg. case_str seg (@nil ascii) as E1; [done|].
  case_str seg dot as E2; [done|]. case_str seg dotdot as E3; simpl.
  - destruct stack as [|top rest]; [done|]. apply Forall_cons in Hs as [Ht Hs].
    case_str top dotdot as E4; [|done]. by destruct Ht as (_ & _ & ? & _).
  - by constructor.
Qed.

Lemma fold_push_plain segs stack : Forall (fun w => "/"%char ∉ w) segs ->
  Forall plain_seg stack -> Forall plain_seg (fold_left (push_seg true) segs stack).
Proof.
  revert stack. induction segs as [|seg segs IH]; intros stack Hsegs Hs; [done|].
  apply Forall_cons in Hsegs as [? Hsegs]. simpl. by apply IH; [|apply push_seg_plain].
Qed.

Lemma clean_segs_plain p : is_rooted p = true -> Forall plain_seg (clean_segs p).
Proof.
  intros Hr. unfold clean_segs. rewrite Hr. apply Forall_rev, fold_push_plain; [|constructor].
  apply split_on_no_sep.
Qed.

Lemma is_rooted_cons p : is_rooted ("/"%char :: p) = true.
Proof. unfold is_rooted. apply has_prefix_iff. by exists p. Qed.

Lemma is_rooted_iff p : is_rooted p = true <-> exists q, p = "/"%char :: q.
Proof. unfold is_rooted. apply has_prefix_iff. Qed.

(** Pushing plain segments just stacks them. *)
Lemma fold_push_id rooted segs stack : Forall plain_seg segs ->
  fold_left (push_seg rooted) segs stack = rev segs ++ stack.
Proof.
  revert stack. induction segs as [|seg segs IH]; intros stack Hs; [done|].
  apply Forall_cons in Hs as [(H1 & H2 & H3 & _) Hs]. simpl. rewrite IH by done.
  unfold push_seg. apply str_eqb_neq in H1, H2, H3. rewrite H1, H2, H3. simpl. by rewrite <- app_assoc.
Qed.

Lemma plain_no_sep segs : Forall plain_seg segs -> Forall (fun w => "/"%char ∉ w) segs.
Proof. intros H. eapply Forall_impl; [exact H|]. by intros x (_ & _ & _ & ?). Qed.

(** Cleaning is idempotent on rooted paths, and reads back its segments. *)
Lemma clean_segs_render segs : Forall plain_seg segs ->
  clean_segs (render true segs) = segs.
Proof.
  intros Hs. unfold clean_segs, render. rewrite is_rooted_cons.
  change (split_on "/"%char ("/"%char :: join_with "/"%char segs))
    with ([] :: split_on "/"%char (join_with "/"%char segs)). cbn [fold_left].
  change (push_seg true [] []) with (@nil gostr).
  destruct segs as [|s segs]; [done|].
  rewrite split_join by (done || by apply plain_no_sep).
  rewrite fold_push_id by done. by rewrite app_nil_r, rev_involutive.
Qed.

Lemma is_rooted_app d p : d <> [] -> is_rooted (d ++ p) = is_rooted d.
Proof.
  intros Hd. destruct d as [|c d]; [done|]. apply eq_true_iff_eq. rewrite !is_rooted_iff.
  simpl. split; intros [q [= -> _]]; eauto.
Qed.

Lemma Clean_rooted p : is_rooted p = true -> Clean p = "/"%char :: join_with "/"%char (clean_segs p).
Proof. intros H. unfold Clean. by rewrite H. Qed.

(** A cleaned rooted path joined to a directory: its segments, below those
    of the directory. *)
Lemma clean_segs_below d p : d <> [] -> is_rooted p = true ->
  clean_segs (d ++ "/"%char :: Clean p) = clean_segs d ++ clean_segs p.
Proof.
  intros Hd Hp. pose proof (clean_segs_plain p Hp) as Hplain. rewrite Clean_rooted by done.
  unfold clean_segs at 1. rewrite is_rooted_app by done.
  rewrite split_on_app_sep, fold_left_app. unfold clean_segs at 2.
  set (stack := fold_left _ (split_on _ d) _).
  change (split_on "/"%char ("/"%char :: join_with "/"%char (clean_segs p)))
    with ([] :: split_on "/"%char (join_with "/"%char (clean_segs p))). cbn [fold_left].
  change (push_seg (is_rooted d) stack []) with stack.
  destruct (clean_segs p) as [|s segs]; [by rewrite app_nil_r|].
  rewrite split_join by (done || by apply plain_no_sep).
  rewrite fold_push_id by done. by rewrite rev_app_distr, rev_involutive.
Qed.

Lemma Clean_nonempty p : Clean p <> [].
Proof.
  unfold Clean, render. destruct (is_rooted p); [done|].
  destruct (clean_segs p) as [|s segs] eqn:E; [done|]. intros Hj.
  assert (exists w, fold_left (push_seg (is_rooted p)) (split_on "/"%char p) [] = w ++ [[]]) as Hbad.
  { unfold clean_segs in E. destruct segs; [|by destruct s]. simpl in Hj. subst s. exists [].
    apply (f_equal (@rev gostr)) in E. by rewrite rev_involutive in E. }
  destruct Hbad as [w Hw].
  assert (forall l st, [] ∉ st -> [] ∉ fold_left (push_seg (is_rooted p)) l st) as Hno.
  { intros l. induction l as [|x l IH]; intros st Hst; [done|]. simpl. apply IH. unfold push_seg.
    case_str x (@nil ascii) as E1; [done|]. simpl. case_str x dot as E2; [done|]. simpl.
    case_str x dotdot as E3; [|set_solver].
    destruct st as [|top rest]; [destruct (is_rooted p); set_solver|].
    case_str top dotdot as E4; set_solver. }
  apply (Hno (split_on "/"%char p) []); [set_solver|]. rewrite Hw. set_solver.
Qed.

Lemma Join_below d p : d <> [] -> is_rooted p = true ->
  Join [d; Clean p] = render (is_rooted d) (clean_segs d ++ clean_segs p).
Proof.
  intros Hd Hp. unfold Join.
  rewrite filter_cons_True, filter_cons_True, filter_nil by (done || apply Clean_nonempty).
  change (join_with "/"%char [d; Clean p]) with (d ++ "/"%char :: Clean p).
  unfold Clean at 1. by rewrite clean_segs_below, is_rooted_app.
Qed.

Lemma strip_segs_app base t : strip_segs base (base ++ t) = ([], t).
Proof. induction base as [|b base IH]; simpl; [by destruct t|]. by rewrite str_eqb_refl. Qed.

Lemma render_inj s t : Forall plain_seg s -> Forall plain_seg t ->
  render true s = render true t -> s = t.
Proof. intros Hs Ht E. rewrite <- (clean_segs_render s), E by done. by apply clean_segs_render. Qed.

(** Relative to an absolute directory, what was joined below it. *)
Lemma Rel_below d p : is_rooted d = true -> is_rooted p = true ->
  Rel d (Join [d; Clean p]) =
  Some (match clean_segs p with [] => dot | segs => join_with "/"%char segs end).
Proof.
  intros Hd Hp. pose proof (clean_segs_plain p Hp) as Hpp. pose proof (clean_segs_plain d Hd) as Hdp.
  assert (d <> []) as Hne by (by destruct d).
  rewrite Join_below, Hd by done. set (full := render true _).
  assert (clean_segs full = clean_segs d ++ clean_segs p) as Hseg
    by (apply clean_segs_render; by apply Forall_app).
  assert (is_rooted full = true) as Hr by apply is_rooted_cons.
  unfold Rel. unfold Clean. rewrite Hd, Hr, Hseg.
  case_str (render true (clean_segs d ++ clean_segs p)) (render true (clean_segs d)) as E.
  - apply render_inj in E; [|by apply Forall_app|done].
    assert (clean_segs p = []) as ->; [|done].
    apply (f_equal length) in E. rewrite length_app in E. destruct (clean_segs p); [done|]. simpl in E. lia.
  - simpl. rewrite strip_segs_app. destruct (clean_segs p); [|done]. by rewrite app_nil_r in E.
Qed.

Lemma Dir_render l x : Forall plain_seg l -> plain_seg x -> Dir (render true (l ++ [x])) = render true l.
Proof.
  intros Hl (Hx1 & Hx2 & Hx3 & Hx4). unfold Dir, render at 1.
  assert (exists d, "/"%char :: join_with "/"%char (l ++ [x]) = d ++ "/"%char :: x /\
    clean_segs (d ++ #"/") = l /\ is_rooted (d ++ #"/") = true) as (d & -> & Hd & Hr).
  { destruct (decide (l = [])) as [->|Hne]; [by exists []|].
    exists ("/"%char :: join_with "/"%char l). rewrite join_with_snoc by done. split_and!; [done| |apply is_rooted_cons].
    change #"/" with ["/"%char].
    transitivity (clean_segs (("/"%char :: join_with "/"%char l) ++ "/"%char :: Clean ["/"%char])).
    - unfold clean_segs. rewrite !is_rooted_app by done.
      rewrite !split_on_app_sep. f_equal. rewrite !fold_left_app. reflexivity.
    - rewrite clean_segs_below by done. change (clean_segs ["/"%char]) with (@nil gostr). rewrite app_nil_r.
      by apply (clean_segs_render l). }
  rewrite (proj2 (cut_last_Some "/"%char _ d x)) by done. unfold Clean. by rewrite Hd, Hr.
Qed.

Lemma Dir_root : Dir (render true []) = render true [].
Proof. done. Qed.

(** Plain segments joined to an absolute directory lie below it. *)
Lemma Join_segs d ks : is_rooted d = true -> ks <> [] -> Forall plain_seg ks ->
  Join [d; join_with "/"%char ks] = render true (clean_segs d ++ ks).
Proof.
  intros Hd Hne Hk. destruct (proj1 (is_rooted_iff d) Hd) as [q Eq].
  assert (Hj : join_with "/"%char ks <> []).
  { destruct ks as [|k ks]; [done|]. apply Forall_cons in Hk as [(Hk & _) _]. by destruct k, ks. }
  unfold Join. rewrite filter_cons_True, filter_cons_True, filter_nil by (done || by rewrite Eq).
  change (join_with "/"%char [d; join_with "/"%char ks]) with (d ++ "/"%char :: join_with "/"%char ks).
  unfold Clean. rewrite is_rooted_app, Hd by (by rewrite Eq). f_equal.
  unfold clean_segs. rewrite is_rooted_app by (by rewrite Eq).
  rewrite split_on_app_sep, fold_left_app, split_join by (done || by apply plain_no_sep).
  rewrite fold_push_id by done. by rewrite rev_app_distr, rev_involutive.
Qed.
