(* ===== verification/Effects.v ===== *)
(** * Effectful code

    Go code that calls out (to the database, to the zfs binary, to the
    network) runs on a state [W] of the outside world and may fail to
    return: [M W A] gives the state reached and, when the call returns,
    its result.  With it come the two judgements the components use: a
    preorder on states that every step respects, and that a computation
    always returns. *)

From S2P Require Import Prelude.

Definition M (W A : Type) : Type := W -> W * option A.

Definition ret {W A} (a : A) : M W A := fun w => (w, Some a).

(** A call that never returns. *)
Definition hang {W A} : M W A := fun w => (w, None).

(** A run-time panic: the call does not return to its caller either. *)
Definition panic {W A} : M W A := hang.

Definition bind {W A B} (m : M W A) (k : A -> M W B) : M W B :=
  fun w => match m w with (w', Some a) => k a w' | (w', None) => (w', None) end.

Notation "'let!' x := c 'in' k" :=
  (bind c (fun x => k))
  (at level 10, x pattern, c at level 200, k at level 200) : go_scope.

(** An operation of the host, which always returns. *)
Definition call {W A} (f : W -> W * A) : M W A :=
  fun w => let '(w', a) := f w in (w', Some a).

(** A pure computation that may not return. *)
Definition lift {W A} (o : option A) : M W A := fun w => (w, o).

(** [for _, x := range l { body(x) }] with no early exit. *)
Fixpoint each {W A} (body : A -> M W unit) (l : list A) : M W unit :=
  match l with
  | [] => ret tt
  | x :: l' => let! _ := body x in each body l'
  end.

Create HintDb eff.

(** ** Every step respects a preorder on states *)

Section Respects.
Context {W : Type} (R : W -> W -> Prop) `{!Reflexive R, !Transitive R}.

Definition respects {A} (m : M W A) : Prop := forall w, R w (m w).1.

Lemma respects_ret {A} (a : A) : respects (ret a).
Proof. intros w. simpl. reflexivity. Qed.

Lemma respects_lift {A} (o : option A) : respects (lift o).
Proof. intros w. simpl. reflexivity. Qed.

Lemma respects_bind {A B} (m : M W A) (k : A -> M W B) :
  respects m -> (forall a, respects (k a)) -> respects (bind m k).
Proof.
  intros Hm Hk w. unfold bind. specialize (Hm w). destruct (m w) as [w' [a|]]; [|done].
  simpl in Hm. etransitivity; [done|apply Hk].
Qed.

Lemma respects_call {A} (f : W -> W * A) : (forall w, R w (f w).1) -> respects (call f).
Proof. intros Hf w. unfold call. specialize (Hf w). by destruct (f w). Qed.

Lemma respects_each {A} (body : A -> M W unit) l :
  (forall x, x ∈ l -> respects (body x)) -> respects (each body l).
Proof.
  induction l as [|x l IH]; intros H; simpl; [apply respects_ret|].
  apply respects_bind; [apply H; set_solver|]. intros _. apply IH. set_solver.
Qed.
End Respects.

#[export] Hint Resolve respects_ret respects_lift respects_bind respects_call respects_each : eff.

(** ** A computation always returns *)

Definition returns {W A} (m : M W A) : Prop := forall w, exists w' a, m w = (w', Some a).

Lemma returns_ret {W A} (a : A) : returns (W := W) (ret a).
Proof. intros w. by exists w, a. Qed.

Lemma returns_call {W A} (f : W -> W * A) : returns (call f).
Proof. intros w. unfold call. destruct (f w) as [w' a]. by exists w', a. Qed.

Lemma returns_bind {W A B} (m : M W A) (k : A -> M W B) :
  returns m -> (forall a, returns (k a)) -> returns (bind m k).
Proof. intros Hm Hk w. unfold bind. destruct (Hm w) as (w' & a & ->). apply Hk. Qed.

Lemma returns_each {W A} (body : A -> M W unit) l :
  (forall x, x ∈ l -> returns (body x)) -> returns (each body l).
Proof.
  induction l as [|x l IH]; intros H; simpl; [apply returns_ret|].
  apply returns_bind; [apply H; set_solver|]. intros _. apply IH. set_solver.
Qed.

#[export] Hint Resolve returns_ret returns_call returns_bind returns_each : eff.

Lemma call_run {W A} (f : W -> W * A) w w' a : f w = (w', a) -> call f w = (w', Some a).
Proof. unfold call. by intros ->. Qed.

(** A sequence that returned returned at every step. *)
Lemma bind_returned {W A B} (m : M W A) (k : A -> M W B) w w' b :
  bind m k w = (w', Some b) -> exists w1 a, m w = (w1, Some a) /\ k a w1 = (w', Some b).
Proof. unfold bind. destruct (m w) as [w1 [a|]] eqn:E; [|done]. intros H. by exists w1, a. Qed.

Lemma ret_returned {W A} (a b : A) (w w' : W) : ret a w = (w', Some b) -> w' = w /\ b = a.
Proof. by intros [= <- <-]. Qed.

Lemma respects_run {W A} (R : W -> W -> Prop) (m : M W A) w w' r :
  respects R m -> m w = (w', r) -> R w w'.
Proof. intros H E. specialize (H w). by rewrite E in H. Qed.

Tactic Notation "run" hyp(H) "as" ident(w) simple_intropattern(a) ident(E) :=
  apply bind_returned in H as (w & a & E & H).
