(* ===== verification/Cron.v ===== *)
(** * internal/host/scheduler/cron.go: the five-field cron engine

    Parsing of expressions ([ParseCron]), matching of an instant
    ([matchTime]), the skip-ahead search for the next firing
    ([NextAfter]) and the tick predicate ([ShouldFireBetween]).  The
    search is a loop that Go runs without a bound on its iterations, so
    it is modelled as a step function; [NextAfter] gives it fuel for one
    iteration per minute of the nine calendar years it can visit. *)

From S2P Require Import Prelude GoStrings GoTime.

Module Cron.

Record CronField := mkField { wildcard : bool; values : list Z }.

Record CronExpr := mkExpr {
  cMinute : CronField; cHour : CronField; cDom : CronField;
  cMon : CronField; cDow : CronField; raw : gostr }.

Record fieldRange := mkRange { rmin : Z; rmax : Z }.

Definition rngMinute := mkRange 0 59.
Definition rngHour := mkRange 0 23.
Definition rngDom := mkRange 1 31.
Definition rngMon := mkRange 1 12.
Definition rngDow := mkRange 0 6.

Inductive field_err :=
| EmptyField
| EmptyItem (s : gostr)
| BadStep (s : gostr)
| BadRangeStart (s : gostr)
| BadRangeEnd (s : gostr)
| ReversedRange (a b : Z)
| BadValue (s : gostr)
| OutOfRange (part : gostr)
| LoopOverrun.  (** not an error of the code: the model's fuel ran out *)

Inductive cron_field_name := FMinute | FHour | FDom | FMonth | FDow.

Inductive cron_err :=
| FieldCount (n : nat)
| BadField (f : cron_field_name) (e : field_err).

(** The loop [for v := lo; v <= hi; v += step], with the addition at
    64 bits; [None] when the fuel runs out. *)
Fixpoint step_values (fuel : nat) (v hi step : Z) : option (list Z) :=
  match fuel with
  | O => None
  | S fuel =>
      if v <=? hi
      then vs ← step_values fuel (wrap64 (v + step)) hi step; Some (v :: vs)
      else Some []
  end.

#[global] Arguments step_values : simpl never.

(** More than any range of [fieldRange] holds, twice over (see
    [step_values_total]). *)
Definition step_fuel : nat := 512.

(** The step suffix of a list item. *)
Definition parse_step (part : gostr) : res field_err (gostr * Z) :=
  match cut_at "/"%char part with
  | None => Ok (part, 1)
  | Some (body, stepStr) =>
      match atoi stepStr with
      | Some n => if n <=? 0 then Err (BadStep stepStr) else Ok (body, n)
      | None => Err (BadStep stepStr)
      end
  end.

(** The body of a list item: a star, a range or a single value. *)
Definition parse_body (r : fieldRange) (body : gostr) : res field_err (Z * Z) :=
  if str_eqb body #"*" then Ok (rmin r, rmax r)
  else match cut_at "-"%char body with
       | Some (sa, sb) =>
           match atoi sa with
           | None => Err (BadRangeStart sa)
           | Some a =>
               match atoi sb with
               | None => Err (BadRangeEnd sb)
               | Some b => if a >? b then Err (ReversedRange a b) else Ok (a, b)
               end
           end
       | None =>
           match atoi body with
           | None => Err (BadValue body)
           | Some n => Ok (n, n)
           end
       end.

(** One list item: the values it adds to the set. *)
Definition parse_item (s : gostr) (r : fieldRange) (part : gostr) : res field_err (list Z) :=
  ensure negb (str_eqb part []) else EmptyItem s ;;
  let? (body, step) := parse_step part in
  let? (lo, hi) := parse_body r body in
  ensure negb ((lo <? rmin r) || (hi >? rmax r)) else OutOfRange part ;;
  match step_values step_fuel lo hi step with
  | Some vs => Ok vs
  | None => Err LoopOverrun
  end.

Fixpoint parse_items (s : gostr) (r : fieldRange) (parts : list gostr)
  : res field_err (list Z) :=
  match parts with
  | [] => Ok []
  | part :: rest =>
      let? vs := parse_item s r part in
      let? ws := parse_items s r rest in
      Ok (vs ++ ws)
  end.

(** The set is a map keyed by value; its keys are collected and sorted. *)
Definition parseField (s : gostr) (r : fieldRange) : res field_err CronField :=
  ensure negb (str_eqb s []) else EmptyField ;;
  if str_eqb s #"*" then Ok (mkField true [])
  else
    let? vs := parse_items s r (split_on ","%char s) in
    Ok (mkField false (merge_sort Z.le (remove_dups vs))).

Definition at_field {A} (f : cron_field_name) (x : res field_err A) : res cron_err A :=
  match x with Ok a => Ok a | Err e => Err (BadField f e) end.

Definition ParseCron (expr : gostr) : res cron_err CronExpr :=
  match fields (trim_space expr) with
  | [p0; p1; p2; p3; p4] =>
      let? mi := at_field FMinute (parseField p0 rngMinute) in
      let? hr := at_field FHour (parseField p1 rngHour) in
      let? dom := at_field FDom (parseField p2 rngDom) in
      let? mon := at_field FMonth (parseField p3 rngMon) in
      let? dow := at_field FDow (parseField p4 rngDow) in
      Ok (mkExpr mi hr dom mon dow expr)
  | parts => Err (FieldCount (length parts))
  end.

(** ** Matching *)

Fixpoint scan (vs : list Z) (v : Z) : bool :=
  match vs with
  | [] => false
  | x :: vs' => if x =? v then true else if x >? v then false else scan vs' v
  end.

Definition matches (f : CronField) (v : Z) : bool :=
  if wildcard f then true else scan (values f) v.

(** Vixie semantics of the two day fields. *)
Definition dayOK (c : CronExpr) (loc : Location) (t : Instant) : bool :=
  let dom := matches (cDom c) (time_day loc t) in
  let dow := matches (cDow c) (time_weekday loc t) in
  match wildcard (cDom c), wildcard (cDow c) with
  | true, true => true
  | true, false => dow
  | false, true => dom
  | false, false => dom || dow
  end.

Definition matchTime (c : CronExpr) (loc : Location) (t : Instant) : bool :=
  if negb (matches (cMinute c) (time_minute loc t)) then false
  else if negb (matches (cHour c) (time_hour loc t)) then false
  else if negb (matches (cMon c) (time_month loc t)) then false
  else dayOK c loc t.

(** ** The search for the next firing *)

Definition nextMonthStart (t : Instant) (loc : Location) : Instant :=
  let '(y, m) := next_month (time_year loc t) (time_month loc t) in
  go_date y m 1 0 0 loc.

Definition nextDayStart (t : Instant) (loc : Location) : Instant :=
  let t2 := t + 24 * Hour in
  go_date (time_year loc t2) (time_month loc t2) (time_day loc t2) 0 0 loc.

Definition nextHourStart (t : Instant) (loc : Location) : Instant :=
  let t2 := t + Hour in
  go_date (time_year loc t2) (time_month loc t2) (time_day loc t2) (time_hour loc t2) 0 loc.

(** One iteration of the loop of NextAfter: leave it with a result, or go
    on from a later instant. *)
Definition next_step (c : CronExpr) (loc : Location) (endYear : Z) (t : Instant)
  : Instant + Instant :=
  if negb (time_year loc t <=? endYear) then inr zero_time
  else if negb (matches (cMon c) (time_month loc t)) then inl (nextMonthStart t loc)
  else if negb (dayOK c loc t) then inl (nextDayStart t loc)
  else if negb (matches (cHour c) (time_hour loc t)) then inl (nextHourStart t loc)
  else if negb (matches (cMinute c) (time_minute loc t)) then inl (t + Minute)
  else inr t.

Definition loc_or_utc (loc : option Location) : Location :=
  match loc with Some l => l | None => UTC end.

Definition next_start (t : Instant) : Instant := truncate t Minute + Minute.

(** One iteration per minute of ten leap years. *)
Definition next_fuel : positive := 5270400.

(** [None] is a search that has not ended within the fuel. *)
Definition NextAfter (c : CronExpr) (t : Instant) (loc : option Location) : option Instant :=
  let loc := loc_or_utc loc in
  let t := next_start t in
  match iterP (next_step c loc (time_year loc t + 8)) next_fuel t with
  | inr r => Some r
  | inl _ => None
  end.

Definition ShouldFireBetween (c : CronExpr) (prev now : Instant) (loc : option Location)
  : option bool :=
  let l := loc_or_utc loc in
  let now := truncate now Minute in
  if is_zero prev then Some (matchTime c l now)
  else
    let prev := truncate prev Minute in
    if negb (prev <? now) then Some false
    else
      next ← NextAfter c prev loc;
      if is_zero next then Some false else Some (negb (now <? next)).

End Cron.
