(* ===== verification/CronCorrect.v ===== *)
(** * Correctness of the cron engine

    In a zone with a constant offset the search ends and returns the
    least matching minute; across a 25-hour day it can fail to end. *)

From S2P Require Import Prelude GoStrings GoTime Cron.
Import Cron.

(** Instants on a whole minute. *)
Definition aligned (t : Instant) : Prop := t mod Minute = 0.

(** No whole minute in [[lo, hi)] fires. *)
Definition quiet (c : CronExpr) (loc : Location) (lo hi : Instant) : Prop :=
  forall u, aligned u -> lo <= u < hi -> matchTime c loc u = false.

(** [r] is what a search from [t0] up to the end of year [endY] should
    return: the least firing minute, or the zero time when there is none. *)
Definition search_result (c : CronExpr) (loc : Location) (t0 endY : Z) (r : Instant) : Prop :=
  (r = zero_time /\
   forall u, aligned u -> t0 <= u -> time_year loc u <= endY -> matchTime c loc u = false) \/
  (aligned r /\ t0 <= r /\ time_year loc r <= endY /\
   matchTime c loc r = true /\ quiet c loc t0 r).

Lemma matchTime_iff c l t :
  matchTime c l t = true <->
  matches (cMinute c) (time_minute l t) = true /\
  matches (cHour c) (time_hour l t) = true /\
  matches (cMon c) (time_month l t) = true /\ dayOK c l t = true.
Proof.
  unfold matchTime.
  destruct (matches (cMinute c) _), (matches (cHour c) _), (matches (cMon c) _); simpl; naive_solver.
Qed.

(** ** Fixed zones whose offset is a whole number of minutes *)

Section Fixed.
Context (off : Z) (Hoff : off mod 60 = 0).
Let loc := fixed_zone off.

Lemma fixed_day_start t :
  go_date (time_year loc t) (time_month loc t) (time_day loc t) 0 0 loc
  = (wall_day loc t * 86400 - off) * Second.
Proof.
  rewrite (fixed_go_date off).
  destruct (civil_of_day (wall_day loc t)) as (E & _).
  unfold time_year, time_month, time_day. rewrite E. lia.
Qed.

Lemma wall_day_bounds t :
  (wall_day loc t * 86400 - off) * Second <= t < ((wall_day loc t + 1) * 86400 - off) * Second.
Proof. by apply fixed_wall_day. Qed.

Lemma fixed_nextDayStart t :
  nextDayStart t loc = ((wall_day loc t + 1) * 86400 - off) * Second.
Proof.
  unfold nextDayStart. rewrite fixed_day_start.
  replace (wall_day loc (t + 24 * Hour)) with (wall_day loc t + 1); [done|].
  symmetry. apply fixed_wall_day.
  pose proof (wall_day_bounds t). unfold Hour, Second in *. lia.
Qed.

Lemma fixed_nextHourStart t :
  nextHourStart t loc = ((wall_sec loc t / 3600 + 1) * 3600 - off) * Second.
Proof.
  unfold nextHourStart. rewrite (fixed_go_date off).
  destruct (civil_of_day (wall_day loc (t + Hour))) as (E & _).
  unfold time_year, time_month, time_day. rewrite E.
  unfold time_hour, wall_day, loc. rewrite !fixed_wall_sec.
  unfold Hour, Second. dlia.
Qed.

Lemma fixed_nextMonthStart t :
  nextMonthStart t loc =
  (day_of_civil (next_month (time_year loc t) (time_month loc t)).1
                (next_month (time_year loc t) (time_month loc t)).2 1 * 86400 - off) * Second.
Proof.
  unfold nextMonthStart. destruct (next_month _ _) as [y m]. unfold loc.
  rewrite fixed_go_date. simpl. lia.
Qed.

(** What one skip passes over looks the same to the field that failed. *)

Lemma month_skip t u :
  t <= u < nextMonthStart t loc -> time_month loc u = time_month loc t.
Proof.
  intros H. rewrite fixed_nextMonthStart in H.
  apply (month_span (wall_day loc t) (wall_day loc u)).
  - apply fixed_wall_day_mono. lia.
  - pose proof (wall_day_bounds u).
    unfold time_year, time_month, Second in *. lia.
Qed.

Lemma day_skip t u : t <= u < nextDayStart t loc -> wall_day loc u = wall_day loc t.
Proof.
  intros H. rewrite fixed_nextDayStart in H. apply fixed_wall_day.
  pose proof (wall_day_bounds t). lia.
Qed.

Lemma hour_skip t u : t <= u < nextHourStart t loc -> time_hour loc u = time_hour loc t.
Proof.
  intros H. rewrite fixed_nextHourStart in H. unfold time_hour, loc in *.
  rewrite !fixed_wall_sec in *. unfold Second in *.
  set (a := t / 1000000000 + off) in *. set (b := u / 1000000000 + off) in *.
  assert (b / 3600 = a / 3600) by (unfold b, a in *; dlia). dlia.
Qed.

Lemma day_fields t u :
  wall_day loc u = wall_day loc t ->
  time_day loc u = time_day loc t /\ time_weekday loc u = time_weekday loc t.
Proof. unfold time_day, time_weekday. by intros ->. Qed.

Lemma aligned_le t u : aligned t -> aligned u -> t < u -> t + Minute <= u.
Proof. unfold aligned, Minute, Second. dlia. Qed.

(** Every skip lands on a later whole minute. *)
Lemma nextMonthStart_step t :
  aligned t -> aligned (nextMonthStart t loc) /\ t < nextMonthStart t loc.
Proof.
  rewrite fixed_nextMonthStart. intros Ht.
  pose proof (next_month_after (wall_day loc t)) as H.
  fold (time_year loc t) (time_month loc t) in H.
  pose proof (wall_day_bounds t).
  set (D := day_of_civil _ _ 1) in *. unfold aligned, Minute, Second in *. dlia.
Qed.

Lemma nextDayStart_step t :
  aligned t -> aligned (nextDayStart t loc) /\ t < nextDayStart t loc.
Proof.
  rewrite fixed_nextDayStart. intros Ht.
  pose proof (wall_day_bounds t).
  unfold aligned, Minute, Second in *. dlia.
Qed.

Lemma nextHourStart_step t :
  aligned t -> aligned (nextHourStart t loc) /\ t < nextHourStart t loc.
Proof.
  rewrite fixed_nextHourStart. intros Ht. unfold loc. rewrite fixed_wall_sec.
  unfold aligned, Minute, Second in *. dlia.
Qed.

(** A skip from [t] to [t'] over instants that cannot fire. *)
Definition search_inv (c : CronExpr) (t0 t : Instant) : Prop :=
  aligned t /\ t0 <= t /\ quiet c loc t0 t.

Lemma search_inv_skip c t0 t t' :
  search_inv c t0 t -> aligned t' -> t < t' ->
  (forall u, t <= u < t' -> matchTime c loc u = false) ->
  search_inv c t0 t' /\ t + Minute <= t'.
Proof.
  intros (Ha & Hle & Hq) Ha' Hlt Hskip. split; [|by apply aligned_le].
  split_and!; [done|lia|]. intros u Hu Hr.
  destruct (Z.lt_ge_cases u t); [apply Hq|apply Hskip]; done || lia.
Qed.

Lemma not_match_mon c u : matches (cMon c) (time_month loc u) = false -> matchTime c loc u = false.
Proof. intros H. apply not_true_iff_false. rewrite matchTime_iff, H. naive_solver. Qed.

Lemma not_match_day c u : dayOK c loc u = false -> matchTime c loc u = false.
Proof. intros H. apply not_true_iff_false. rewrite matchTime_iff, H. naive_solver. Qed.

Lemma not_match_hour c u : matches (cHour c) (time_hour loc u) = false -> matchTime c loc u = false.
Proof. intros H. apply not_true_iff_false. rewrite matchTime_iff, H. naive_solver. Qed.

Lemma dayOK_skip c t u : wall_day loc u = wall_day loc t -> dayOK c loc u = dayOK c loc t.
Proof. intros H. unfold dayOK. by destruct (day_fields t u H) as [-> ->]. Qed.

Lemma next_step_spec c endY t0 t :
  search_inv c t0 t ->
  match next_step c loc endY t with
  | inl t' => search_inv c t0 t' /\ t + Minute <= t' /\ time_year loc t <= endY
  | inr r => search_result c loc t0 endY r
  end.
Proof.
  intros Hinv. pose proof Hinv as (Ha & Hle & Hq). unfold next_step.
  destruct (Z.leb_spec (time_year loc t) endY) as [Hy|Hy]; simpl.
  2: { left; split; [done|]. intros u Hu Hu0 Hyu.
       destruct (Z.lt_ge_cases u t); [by apply Hq|].
       assert (time_year loc t <= time_year loc u) by (by apply fixed_year_mono). lia. }
  destruct (matches (cMon c) _) eqn:Emon; simpl.
  2: { destruct (nextMonthStart_step t Ha) as [Ha' Hlt].
       edestruct (search_inv_skip c t0 t _ Hinv Ha' Hlt); [|done].
       intros u Hu. apply not_match_mon. by rewrite (month_skip t). }
  destruct (dayOK c loc t) eqn:Eday; simpl.
  2: { destruct (nextDayStart_step t Ha) as [Ha' Hlt].
       edestruct (search_inv_skip c t0 t _ Hinv Ha' Hlt); [|done].
       intros u Hu. apply not_match_day. rewrite (dayOK_skip c t); [done|by apply day_skip]. }
  destruct (matches (cHour c) _) eqn:Ehour; simpl.
  2: { destruct (nextHourStart_step t Ha) as [Ha' Hlt].
       edestruct (search_inv_skip c t0 t _ Hinv Ha' Hlt); [|done].
       intros u Hu. apply not_match_hour. by rewrite (hour_skip t). }
  destruct (matches (cMinute c) _) eqn:Emin; simpl.
  - right. split_and!; [done|done|done| |done]. by apply matchTime_iff.
  - split_and!; [|lia|done]. split_and!.
    + unfold aligned, Minute, Second in *. dlia.
    + unfold Minute, Second in *. lia.
    + intros u Hu Hr. destruct (Z.lt_ge_cases u t); [apply Hq; [done|lia]|].
      destruct (Z.eq_dec u t) as [->|]; [|pose proof (aligned_le t u Ha Hu); lia].
      apply not_true_iff_false. rewrite matchTime_iff, Emin. naive_solver.
Qed.

(** The search visits at most one instant per minute of nine years. *)
Definition year_limit (endY : Z) : Instant :=
  (days_before_year (endY + 1) * 86400 - off) * Second.

Lemma year_limit_spec endY t : time_year loc t <= endY -> t < year_limit endY.
Proof.
  intros H. unfold year_limit. pose proof (wall_day_bounds t).
  pose proof (year_of_day_spec (wall_day loc t)). unfold time_year in H.
  assert (days_before_year (year_of_day (wall_day loc t) + 1) <= days_before_year (endY + 1)).
  { apply days_before_year_mono. lia. }
  unfold Second in *. lia.
Qed.

Lemma year_limit_width t : year_limit (time_year loc t + 8) - t <= 9 * 366 * Day.
Proof.
  unfold year_limit. pose proof (wall_day_bounds t).
  pose proof (year_of_day_spec (wall_day loc t)). unfold time_year.
  set (y := year_of_day _) in *.
  assert (days_before_year (y + 8 + 1) <= days_before_year y + 9 * 366).
  { unfold days_before_year. dlia. }
  unfold Day, Second in *. lia.
Qed.

Definition minutes_left (endY t : Z) : Z :=
  if t <? year_limit endY then (year_limit endY - t) / Minute + 1 else 0.

Lemma search_total c t0 :
  aligned t0 ->
  exists r, iterP (next_step c loc (time_year loc t0 + 8)) next_fuel t0 = inr r /\
            search_result c loc t0 (time_year loc t0 + 8) r.
Proof.
  intros Ha. set (endY := time_year loc t0 + 8).
  rewrite iterP_iterN.
  assert (Hn : Z.of_nat (Pos.to_nat next_fuel) = 5270400) by (rewrite positive_nat_Z; done).
  revert Hn. generalize (Pos.to_nat next_fuel). intros n Hn.
  apply (iterN_measure _ (search_inv c t0) _ (minutes_left endY)).
  - intros t _. unfold minutes_left. destruct (Z.ltb_spec t (year_limit endY)); [|lia].
    unfold Minute, Second. dlia.
  - intros t Hinv. pose proof (next_step_spec c endY t0 t Hinv) as H.
    destruct (next_step c loc endY t) as [t'|r]; [|done].
    destruct H as (H1 & H2 & H3). split; [done|].
    apply year_limit_spec in H3. unfold minutes_left.
    destruct (Z.ltb_spec t (year_limit endY)), (Z.ltb_spec t' (year_limit endY));
      unfold Minute, Second in *; dlia.
  - split_and!; [done|lia|]. intros u _ Hu. lia.
  - pose proof (year_limit_width t0). fold endY in H.
    unfold minutes_left. rewrite Hn.
    destruct (Z.ltb_spec t0 (year_limit endY)); [|lia].
    unfold Day, Minute, Second in *. dlia.
Qed.
End Fixed.

Lemma next_start_spec t :
  aligned (next_start t) /\ t < next_start t <= t + Minute.
Proof. unfold aligned, next_start, truncate, Minute, Second. dlia. Qed.

(** The minutes after [t] are those from [next_start t] on. *)
Lemma next_start_after t u : aligned u -> t < u <-> next_start t <= u.
Proof. unfold aligned, next_start, truncate, Minute, Second. dlia. Qed.

Lemma NextAfter_spec c t off (Hoff : off mod 60 = 0) :
  let loc := fixed_zone off in
  let endY := time_year loc (next_start t) + 8 in
  exists r, NextAfter c t (Some loc) = Some r /\
    ((r = zero_time /\
      forall u, aligned u -> t < u -> time_year loc u <= endY -> matchTime c loc u = false) \/
     (aligned r /\ t < r /\ time_year loc r <= endY /\ matchTime c loc r = true /\
      forall u, aligned u -> t < u < r -> matchTime c loc u = false)).
Proof.
  intros loc endY. destruct (next_start_spec t) as [Ha Hlt].
  destruct (search_total off Hoff c (next_start t) Ha) as (r & Hr & Hs).
  exists r. unfold NextAfter, loc_or_utc. fold loc in Hr, Hs |- *. rewrite Hr. split; [done|].
  destruct Hs as [[-> Hnone]|(H1 & H2 & H3 & H4 & H5)]; [left|right].
  - split; [done|]. intros u Hu Htu Hy. apply Hnone; [done| |done].
    by apply next_start_after.
  - split_and!; try done; [lia|]. intros u Hu Hr'. apply H5; [done|].
    split; [|lia]. apply next_start_after; [done|lia].
Qed.

(** C1. In a zone with a constant offset of whole minutes, NextAfter
    always returns, and what it returns is the earliest whole minute
    strictly after [t] that the expression matches, or the zero time when
    no minute up to the end of the eighth following year matches. *)
Theorem NextAfter_earliest c t off (Hoff : off mod 60 = 0) :
  let loc := fixed_zone off in
  let endY := time_year loc (next_start t) + 8 in
  exists r, NextAfter c t (Some loc) = Some r /\
    ((r = zero_time /\
      forall u, aligned u -> t < u -> time_year loc u <= endY -> matchTime c loc u = false) \/
     (aligned r /\ t < r /\ time_year loc r <= endY /\ matchTime c loc r = true /\
      forall u, aligned u -> t < u < r -> matchTime c loc u = false)).
Proof. by apply NextAfter_spec. Qed.

Lemma truncate_spec t u : aligned u -> u <= t <-> u <= truncate t Minute.
Proof. unfold aligned, truncate, Minute, Second. dlia. Qed.

(** The tick predicate in a fixed zone: with a previous check after
    year 1 and no more than eight calendar years back, it returns, and it
    answers true exactly when some whole minute in (prev, now] matches. *)
Theorem ShouldFireBetween_iff c prev now off
    (Hoff : off mod 60 = 0) (Hprev : 0 < prev)
    (Hwin : time_year (fixed_zone off) now
            <= time_year (fixed_zone off) (next_start prev) + 8) :
  exists b, ShouldFireBetween c prev now (Some (fixed_zone off)) = Some b /\
    (b = true <->
     exists u, aligned u /\ prev < u <= now /\ matchTime c (fixed_zone off) u = true).
Proof.
  set (loc := fixed_zone off) in *.
  unfold ShouldFireBetween, loc_or_utc, is_zero.
  destruct (Z.eqb_spec prev 0); [lia|].
  assert (Hns : next_start (truncate prev Minute) = next_start prev).
  { unfold next_start, truncate, Minute, Second. dlia. }
  destruct (Z.ltb_spec (truncate prev Minute) (truncate now Minute)) as [Hlt|Hge]; simpl.
  2: { exists false; split; [done|]. split; [done|]. intros (u & Hu & Hr & _). exfalso.
       assert (u <= truncate now Minute) by (apply (truncate_spec now u Hu); lia).
       assert (u <= prev) by (apply (truncate_spec prev u Hu); lia). lia. }
  destruct (NextAfter_spec c (truncate prev Minute) off Hoff) as (r & Hr & Hspec).
  fold loc in Hr, Hspec. rewrite Hr, Hns in *. simpl.
  assert (Hafter : forall u, aligned u -> truncate prev Minute < u <-> prev < u).
  { intros u Hu. rewrite !next_start_after by done. by rewrite Hns. }
  destruct Hspec as [[-> Hnone]|(Ha & Hgt & Hy & Hm & Hq)]; simpl.
  - exists false. split; [done|]. split; [done|]. intros (u & Hu & Hr' & Hm).
    assert (matchTime c loc u = false); [|congruence].
    apply Hnone; [done|apply Hafter; [done|lia]|].
    etrans; [apply (fixed_year_mono off _ now); lia|done].
  - apply Hafter in Hgt; [|done].
    destruct (Z.eqb_spec r 0); [lia|].
    eexists; split; [done|].
    rewrite negb_true_iff, Z.ltb_ge. split.
    + intros Hle. exists r. split_and!; [done|done|by apply (truncate_spec now r Ha)|done].
    + intros (u & Hu & Hr' & Hmu).
      destruct (Z.lt_ge_cases u r) as [Hur|].
      * assert (matchTime c loc u = false); [|congruence].
        apply Hq; [done|]. split; [apply Hafter; [done|lia]|done].
      * assert (u <= truncate now Minute) by (apply (truncate_spec now u Hu); lia). lia.
Qed.

(** ** A 25-hour day *)

(** America/New_York around 2026: transitions in seconds since year 1. *)
Definition unix_epoch : Z := 62135596800.
Definition new_york : Location :=
  mkLocation (-18000)
    [(unix_epoch + 1741503600, -14400); (unix_epoch + 1762063200, -18000);
     (unix_epoch + 1772953200, -14400); (unix_epoch + 1793512800, -18000);
     (unix_epoch + 1805007600, -14400); (unix_epoch + 1825567200, -18000)].

(** Midnight at the start of 2026-11-01, a day of 25 hours. *)
Definition fall_back_midnight : Instant := go_date 2026 11 1 0 0 new_york.

Lemma nextDayStart_fixpoint : nextDayStart fall_back_midnight new_york = fall_back_midnight.
Proof. reflexivity. Qed.

Lemma fall_back_stuck c endY :
  matches (cMon c) 11 = true -> dayOK c new_york fall_back_midnight = false -> 2026 <= endY ->
  next_step c new_york endY fall_back_midnight = inl fall_back_midnight.
Proof.
  intros Hm Hd Hy. unfold next_step.
  change (time_year new_york fall_back_midnight) with 2026.
  change (time_month new_york fall_back_midnight) with 11.
  rewrite Hm, Hd, nextDayStart_fixpoint. destruct (Z.leb_spec 2026 endY); [done|lia].
Qed.

Definition monthly_on_15th : CronExpr :=
  mkExpr (mkField false [0]) (mkField false [3]) (mkField false [15])
         (mkField true []) (mkField true []) #"0 3 15 * *".

Lemma october_stuck :
  let t := next_start (go_date 2026 10 15 3 0 new_york) in
  forall n, exists s,
    iterN (next_step monthly_on_15th new_york (time_year new_york t + 8)) n t = inl s.
Proof.
  intros t. apply (iterN_reach_stuck _ 100 _ fall_back_midnight).
  - vm_compute. reflexivity.
  - apply fall_back_stuck; vm_compute; congruence.
Qed.

Lemma NextAfter_hangs :
  NextAfter monthly_on_15th (truncate (go_date 2026 10 15 3 0 new_york) Minute) (Some new_york)
  = None.
Proof.
  unfold NextAfter, loc_or_utc.
  change (truncate (go_date 2026 10 15 3 0 new_york) Minute) with (go_date 2026 10 15 3 0 new_york).
  rewrite iterP_iterN. by destruct (october_stuck (Pos.to_nat next_fuel)) as [s ->].
Qed.

(** The search is not guaranteed to make progress: in a zone with
    daylight saving, nextDayStart maps the midnight that starts a 25-hour
    day to itself, so the search for the firing after 2026-10-15 03:00 of
    the schedule [0 3 15 * *] in America/New_York goes round forever,
    whatever number of iterations is allowed. *)
Theorem NextAfter_diverges_on_25h_day :
  ParseCron #"0 3 15 * *" = Ok monthly_on_15th /\
  let t := next_start (go_date 2026 10 15 3 0 new_york) in
  forall n, exists s,
    iterN (next_step monthly_on_15th new_york (time_year new_york t + 8)) n t = inl s.
Proof.
  split; [vm_compute; reflexivity|]. exact october_stuck.
Qed.

(** Witnesses. *)

Lemma NextAfter_earliest_witness :
  3600 mod 60 = 0 /\
  exists r, NextAfter monthly_on_15th fall_back_midnight (Some (fixed_zone 3600)) = Some r.
Proof.
  split; [reflexivity|].
  destruct (NextAfter_earliest monthly_on_15th fall_back_midnight 3600 eq_refl) as (r & H & _).
  exists r. exact H.
Defined.

Lemma ShouldFireBetween_iff_witness :
  exists b,
    ShouldFireBetween monthly_on_15th fall_back_midnight (fall_back_midnight + 20 * Day)
      (Some (fixed_zone 3600)) = Some b.
Proof.
  destruct (ShouldFireBetween_iff monthly_on_15th fall_back_midnight
              (fall_back_midnight + 20 * Day) 3600) as (b & H & _).
  - reflexivity.
  - vm_compute. reflexivity.
  - vm_compute. discriminate.
  - exists b. exact H.
Defined.
