(* ===== verification/CronParse.v ===== *)
(** * Correctness of the cron parser

    The item loop ends for every step a machine integer can hold; when the
    addition cannot overflow, a field's values are exactly the ones its
    items denote, sorted and without repetition, and [matches] is
    membership. *)

From S2P Require Import Prelude GoStrings GoTime Cron.
Import Cron.

(** ** The item loop *)

Lemma step_values_S fuel v hi step :
  step_values (S fuel) v hi step =
  if v <=? hi
  then vs ← step_values fuel (wrap64 (v + step)) hi step; Some (v :: vs)
  else Some [].
Proof. done. Qed.

(** Without overflow the loop enumerates the arithmetic progression. *)
Lemma step_values_progression fuel v hi step :
  0 < step -> MinInt64 <= v -> hi + step <= MaxInt64 -> Z.max 0 (hi - v + 1) < Z.of_nat fuel ->
  exists vs, step_values fuel v hi step = Some vs /\
    forall x, x ∈ vs <-> v <= x <= hi /\ (x - v) mod step = 0.
Proof.
  intros Hs. revert v. induction fuel as [|fuel IH]; intros v Hv Hmax Hf.
  - lia.
  - rewrite step_values_S. destruct (Z.leb_spec v hi) as [Hle|Hgt].
    + rewrite wrap64_id by (unfold in_int64; lia).
      destruct (IH (v + step)) as (vs & -> & Hvs); [lia..|].
      exists (v :: vs). split; [done|]. intros x.
      rewrite elem_of_cons, Hvs. split.
      * intros [->|[H1 H2]]; [rewrite Z.sub_diag; split; [lia|done]|].
        split; [lia|]. replace (x - v) with (x - (v + step) + 1 * step) by lia.
        by rewrite Z.mod_add by lia.
      * intros [H1 H2]. destruct (Z.eq_dec x v) as [->|]; [by left|right].
        apply Z.mod_divide in H2 as [k Hk]; [|lia].
        assert (1 <= k) by nia.
        split; [nia|]. replace (x - (v + step)) with ((k - 1) * step) by lia.
        apply Z.mod_mul. lia.
    + exists []. split; [done|]. intros x. split; [set_solver|lia].
Qed.

(** With a step close to the top of the range the addition overflows and
    the variable swings between the two ends, but it still leaves. *)
Lemma step_values_overflow fuel v hi step :
  MaxInt64 - 60 < step <= MaxInt64 -> - 70 <= v <= hi -> hi <= 59 ->
  2 * v + 143 < Z.of_nat fuel -> exists vs, step_values fuel v hi step = Some vs.
Proof.
  intros Hs. revert v. induction (lt_wf fuel) as [fuel _ IH]. intros v Hv Hhi Hf.
  destruct fuel as [|[|[|fuel]]]; [lia..|].
  assert (H63 : 2 ^ 63 = 9223372036854775808) by reflexivity.
  assert (H64 : 2 ^ 64 = 18446744073709551616) by reflexivity.
  rewrite step_values_S. destruct (Z.leb_spec v hi); [|lia]. rewrite step_values_S.
  destruct (Z.le_gt_cases (v + step) MaxInt64) as [Hno|Hov].
  - rewrite wrap64_id by (unfold in_int64, MinInt64, MaxInt64 in *; lia).
    destruct (Z.leb_spec (v + step) hi); [unfold MaxInt64 in *; lia|]. eauto.
  - assert (E : wrap64 (v + step) = v + step - 2 ^ 64).
    { unfold wrap64, MaxInt64 in *. rewrite H63, H64 in *. dlia. }
    rewrite E. destruct (Z.leb_spec (v + step - 2 ^ 64) hi); [|unfold MaxInt64 in *; lia].
    assert (E2 : wrap64 (v + step - 2 ^ 64 + step) = v + 2 * step - 2 ^ 64).
    { unfold wrap64, MaxInt64 in *. rewrite H63, H64 in *. dlia. }
    rewrite E2.
    assert (exists vs, step_values (S fuel) (v + 2 * step - 2 ^ 64) hi step = Some vs) as [vs ->].
    { apply IH; unfold MaxInt64 in *; lia. }
    simpl. eauto.
Qed.

Lemma step_values_total v hi step :
  0 < step <= MaxInt64 -> 0 <= v <= hi -> hi <= 59 ->
  exists vs, step_values step_fuel v hi step = Some vs.
Proof.
  intros Hs Hv Hhi. destruct (Z.le_gt_cases step (MaxInt64 - 60)).
  - edestruct (step_values_progression step_fuel v hi step) as (vs & -> & _);
      unfold MinInt64, MaxInt64, step_fuel in *; eauto; lia.
  - apply step_values_overflow; unfold step_fuel; lia.
Qed.

(** ** Items and fields *)

(** The ranges of the five fields. *)
Definition small_range (r : fieldRange) : Prop := 0 <= rmin r <= rmax r /\ rmax r <= 59.

(** What a list item means: a stepped range of values. *)
Definition item_denotes (r : fieldRange) (part : gostr) (v : Z) : Prop :=
  exists body step lo hi,
    parse_step part = Ok (body, step) /\ parse_body r body = Ok (lo, hi) /\
    lo <= v <= hi /\ (v - lo) mod step = 0.

Lemma item_denotes_iff r part body step lo hi v :
  parse_step part = Ok (body, step) -> parse_body r body = Ok (lo, hi) ->
  item_denotes r part v <-> lo <= v <= hi /\ (v - lo) mod step = 0.
Proof.
  intros Hs Hb. split; [|by exists body, step, lo, hi].
  intros (b & st & l & h & E1 & E2 & H). rewrite Hs in E1. injection E1 as <- <-.
  rewrite Hb in E2. by injection E2 as <- <-.
Qed.

(** The item's step leaves room for one addition beyond the range. *)
Definition step_fits (r : fieldRange) (part : gostr) : Prop :=
  forall body step, parse_step part = Ok (body, step) -> step <= MaxInt64 - rmax r.

Lemma atoi_range s n : atoi s = Some n -> MinInt64 <= n <= MaxInt64.
Proof.
  unfold atoi. intros H. repeat case_match; simplify_eq; unfold in_int64 in *; lia.
Qed.

Lemma parse_step_range part body step :
  parse_step part = Ok (body, step) -> 0 < step <= MaxInt64.
Proof.
  unfold parse_step. intros H.
  destruct (cut_at _ _) as [[b ss]|]; [|simplify_eq; unfold MaxInt64; lia].
  destruct (atoi ss) as [n|] eqn:En; [|done].
  apply atoi_range in En. destruct (Z.leb_spec n 0); simplify_eq. lia.
Qed.

Lemma parse_body_range r body lo hi :
  small_range r -> parse_body r body = Ok (lo, hi) -> lo <= hi.
Proof.
  intros [Hr _]. unfold parse_body. intros H.
  destruct (str_eqb _ _); [simplify_eq; lia|].
  destruct (cut_at _ _) as [[sa sb]|].
  - destruct (atoi sa), (atoi sb); try done. destruct (Z.gtb_spec z z0); simplify_eq. lia.
  - destruct (atoi body); simplify_eq. lia.
Qed.

Lemma parse_item_inv s r part vs :
  parse_item s r part = Ok vs ->
  exists body step lo hi,
    parse_step part = Ok (body, step) /\ parse_body r body = Ok (lo, hi) /\
    rmin r <= lo /\ hi <= rmax r /\ step_values step_fuel lo hi step = Some vs.
Proof.
  unfold parse_item. intros H.
  destruct (str_eqb part []); [done|]. simpl in H.
  destruct (parse_step part) as [[body step]|] eqn:Es; [|done].
  destruct (parse_body r body) as [[lo hi]|] eqn:Eb; [|done].
  destruct (Z.ltb_spec lo (rmin r)), (Z.gtb_spec hi (rmax r)); simpl in H; try done.
  destruct (step_values _ lo hi step) eqn:E; [|done]. injection H as <-.
  exists body, step, lo, hi. split_and!; done || lia.
Qed.

Lemma parse_item_spec s r part vs :
  small_range r -> step_fits r part -> parse_item s r part = Ok vs ->
  forall v, v ∈ vs <-> item_denotes r part v /\ rmin r <= v <= rmax r.
Proof.
  intros Hr Hfit H v.
  apply parse_item_inv in H as (body & step & lo & hi & Hs & Hb & Hlo & Hhi & Hv).
  pose proof (parse_step_range _ _ _ Hs). pose proof (parse_body_range _ _ _ _ Hr Hb).
  destruct Hr as [Hr1 Hr2]. specialize (Hfit _ _ Hs).
  destruct (step_values_progression step_fuel lo hi step) as (ws & E & Hws);
    [lia|unfold MinInt64; lia|lia|unfold step_fuel; lia|].
  rewrite Hv in E. injection E as <-.
  rewrite Hws, (item_denotes_iff _ _ _ _ _ _ _ Hs Hb). naive_solver lia.
Qed.

Lemma parse_items_spec s r parts vs :
  parse_items s r parts = Ok vs ->
  forall v, v ∈ vs <->
    exists part ws, part ∈ parts /\ parse_item s r part = Ok ws /\ v ∈ ws.
Proof.
  revert vs. induction parts as [|p ps IH]; intros vs; simpl.
  { intros [= <-] v. set_solver. }
  destruct (parse_item s r p) as [ws|] eqn:Ep; [|done].
  destruct (parse_items s r ps) as [us|]; [|done].
  intros [= <-] v. rewrite elem_of_app, (IH us eq_refl). split.
  - intros [H|(part & w & H1 & H2 & H3)]; [exists p, ws|exists part, w]; set_solver.
  - intros (part & w & H1 & H2 & H3). apply elem_of_cons in H1 as [->|H1].
    + left. congruence.
    + right. eauto.
Qed.

Lemma parse_items_ok s r parts vs part :
  parse_items s r parts = Ok vs -> part ∈ parts -> exists ws, parse_item s r part = Ok ws.
Proof.
  revert vs. induction parts as [|p ps IH]; intros vs; simpl; [set_solver|].
  destruct (parse_item s r p) as [ws|] eqn:Ep; [|done].
  destruct (parse_items s r ps) as [us|]; [|done].
  intros _ [->|H]%elem_of_cons; eauto.
Qed.

Lemma scan_sorted vs v : StronglySorted Z.le vs -> scan vs v = true <-> v ∈ vs.
Proof.
  induction 1 as [|x vs Hs IH Hx]; simpl; [set_solver|].
  destruct (Z.eqb_spec x v) as [->|]; [set_solver|].
  destruct (Z.gtb_spec x v).
  - split; [done|]. intros [->|Hv]%elem_of_cons; [done|].
    rewrite Forall_forall in Hx. specialize (Hx v Hv). lia.
  - rewrite IH. set_solver.
Qed.

(** A field that parses with items whose step cannot overflow matches
    exactly the values its comma-separated items denote; its value list
    is sorted, without repetition and inside the field's range. *)
Theorem parseField_values s r f
    (Hr : small_range r) (Hp : parseField s r = Ok f) (Hw : wildcard f = false)
    (Hfit : Forall (step_fits r) (split_on ","%char s)) :
  StronglySorted Z.le (values f) /\ NoDup (values f) /\
  Forall (fun v => rmin r <= v <= rmax r) (values f) /\
  forall v, matches f v = true <->
    exists part, part ∈ split_on ","%char s /\ item_denotes r part v.
Proof.
  unfold parseField in Hp. destruct (str_eqb s []); [done|]. simpl in Hp.
  destruct (str_eqb s _); [by simplify_eq|].
  destruct (parse_items s r _) as [vs|] eqn:E; [|done]. simplify_eq. simpl in *.
  assert (Hmem : forall v, v ∈ merge_sort Z.le (remove_dups vs) <-> v ∈ vs).
  { intros v. rewrite (merge_sort_Permutation Z.le). apply elem_of_remove_dups. }
  assert (Hin : forall v, v ∈ vs <-> exists part,
            part ∈ split_on ","%char s /\ item_denotes r part v /\ rmin r <= v <= rmax r).
  { intros v. rewrite (parse_items_spec _ _ _ _ E). rewrite Forall_forall in Hfit. split.
    - intros (part & ws & H1 & H2 & H3). exists part. split; [done|].
      by eapply (parse_item_spec s r part ws); eauto.
    - intros (part & H1 & H2). destruct (parse_items_ok _ _ _ _ part E H1) as [ws Hws].
      exists part, ws. split_and!; [done..|]. eapply (parse_item_spec s r part ws); eauto. }
  assert (Hsort : StronglySorted Z.le (merge_sort Z.le (remove_dups vs))).
  { apply (StronglySorted_merge_sort Z.le). }
  split_and!; [done| | |].
  - rewrite (merge_sort_Permutation Z.le). apply NoDup_remove_dups.
  - apply Forall_forall. intros v Hv. apply Hmem, Hin in Hv as (? & _ & _ & ?). done.
  - intros v. unfold matches; simpl. rewrite scan_sorted, Hmem, Hin by done. split; [naive_solver|].
    intros (part & H1 & H2). exists part. split; [done|]. split; [done|].
    destruct (parse_items_ok _ _ _ _ part E H1) as [ws Hws].
    apply parse_item_inv in Hws as (b & st & l & h & E1 & E2 & ? & ? & _).
    apply (item_denotes_iff _ _ _ _ _ _ _ E1 E2) in H2. lia.
Qed.

Lemma parse_item_no_overrun s r part :
  small_range r -> parse_item s r part <> Err LoopOverrun.
Proof.
  intros Hr. unfold parse_item.
  destruct (str_eqb part []); [done|]. simpl.
  destruct (parse_step part) as [[body step]|e] eqn:Es.
  2: { unfold parse_step in Es. repeat case_match; simplify_eq; done. }
  destruct (parse_body r body) as [[lo hi]|e] eqn:Eb.
  2: { unfold parse_body in Eb. repeat case_match; simplify_eq; done. }
  apply parse_step_range in Es. apply (parse_body_range _ _ _ _ Hr) in Eb.
  destruct Hr. destruct (Z.ltb_spec lo (rmin r)), (Z.gtb_spec hi (rmax r)); simpl; try done.
  destruct (step_values_total lo hi step) as [vs ->]; [lia..|done].
Qed.

(** Parsing a field always ends: the loop over an item's values stops
    for every step that fits a machine integer, so the model's fuel is
    never the reason for a rejection. *)
Theorem parseField_terminates s r (Hr : small_range r) : parseField s r <> Err LoopOverrun.
Proof.
  unfold parseField. destruct (str_eqb s []); [done|]. simpl. destruct (str_eqb s _); [done|].
  assert (H : parse_items s r (split_on ","%char s) <> Err LoopOverrun).
  { generalize (split_on ","%char s). intros parts.
    induction parts as [|p ps IH]; simpl; [done|].
    pose proof (parse_item_no_overrun s r p Hr).
    destruct (parse_item s r p); [|congruence]. by destruct (parse_items s r ps). }
  destruct (parse_items s r _); [done|]. intros [= ->]. by apply H.
Qed.

(** The overflow is observable: the minute field
    [10/9223372036854775806], a single value with a step, also matches
    the minutes 2 and 6, because [v += step] wraps around. *)
Theorem parseField_step_overflow :
  exists f, parseField #"10/9223372036854775806" rngMinute = Ok f /\
    matches f 10 = true /\ matches f 6 = true /\ matches f 2 = true /\
    forall v, item_denotes rngMinute #"10/9223372036854775806" v -> v = 10.
Proof.
  eexists. split; [vm_compute; reflexivity|]. split_and!; [done..|].
  intros v H.
  eapply (item_denotes_iff rngMinute _ #"10" 9223372036854775806 10 10) in H; [lia|..];
    vm_compute; reflexivity.
Qed.

(** Witnesses. *)

Lemma rngMinute_small : small_range rngMinute.
Proof. unfold small_range; simpl; lia. Qed.

Lemma parseField_values_witness :
  matches (mkField false [0; 2; 4; 7]) 4 = true <->
  exists part, part ∈ split_on ","%char #"0-5/2,7" /\ item_denotes rngMinute part 4.
Proof.
  apply (parseField_values #"0-5/2,7" rngMinute); [apply rngMinute_small|vm_compute; reflexivity|reflexivity|].
  change (split_on ","%char #"0-5/2,7") with [ #"0-5/2"; #"7"].
  rewrite Forall_cons, Forall_singleton.
  split; intros body step H; vm_compute in H; injection H as <- <-; vm_compute; discriminate.
Defined.

Lemma parseField_terminates_witness : parseField #"*/61,5" rngMinute <> Err LoopOverrun.
Proof. apply parseField_terminates. apply rngMinute_small. Defined.
