(* ===== verification/Retention.v ===== *)
(** * internal/host/scheduler/retention.go: sanoid-style retention

    Snapshot names carry their time; a policy keeps, per calendar class,
    the earliest snapshot of each of the most recent buckets.  The
    definitions, then: what is kept and how much, that pruning twice is
    pruning once, and the round trip of the time in a snapshot name. *)

From S2P Require Import Prelude GoStrings GoTime SortLib Cron.

Module Retention.

Record RetentionPolicy := mkPolicy {
  Hourly : Z; Daily : Z; Weekly : Z; Monthly : Z; Yearly : Z }.

Record SnapInfo := mkSnap { siName : gostr; siTime : Instant }.

#[global] Instance SnapInfo_eq_dec : EqDecision SnapInfo.
Proof. solve_decision. Defined.

(** ** Snapshot names *)

Definition ParsedSnapTime (short prefix : gostr) (loc : option Location) : option Instant :=
  suffix ← strip_prefix (prefix ++ #"-") short;
  parse_stamp suffix (Cron.loc_or_utc loc).

Definition FormatSnapTime (prefix : gostr) (loc : Location) (t : Instant) : gostr :=
  prefix ++ #"-" ++ fmt_stamp loc t.

(** ** Bucket keys *)

(** The digit loop writes from the end of a 20-byte buffer; negation is at
    64 bits, so MinInt64 prints as a lone sign. *)
Definition formatInt (n : Z) : gostr :=
  if n =? 0 then #"0"
  else
    let neg := n <? 0 in
    let n := if neg then wrap64 (- n) else n in
    (if neg then #"-" else []) ++ dec_digits 20 n [].

Definition itoa (n : Z) : gostr := formatInt n.

Definition formatWeek (y w : Z) : gostr :=
  let ws := replicate (2 - length (itoa w)) "0"%char ++ itoa w in
  itoa y ++ #"-W" ++ ws.

Definition hourKey (t : Instant) : gostr := fmt_hour UTC t.
Definition dayKey (t : Instant) : gostr := fmt_date UTC t.
Definition monthKey (t : Instant) : gostr := fmt_month UTC t.
Definition yearKey (t : Instant) : gostr := fmt_year UTC t.
Definition weekKey (t : Instant) : gostr :=
  let '(y, w) := iso_week_of_day (wall_day UTC t) in formatWeek y w.

(** ** Classification *)

Fixpoint bucketEarliest_go (k : Instant -> gostr) (seen : gset gostr) (l : list SnapInfo)
  : list SnapInfo :=
  match l with
  | [] => []
  | s :: l' =>
      let key := k (siTime s) in
      if bool_decide (key ∈ seen) then bucketEarliest_go k seen l'
      else s :: bucketEarliest_go k ({[key]} ∪ seen) l'
  end.

Definition bucketEarliest (sortedAsc : list SnapInfo) (k : Instant -> gostr) : list SnapInfo :=
  bucketEarliest_go k ∅ sortedAsc.

(** [b[start:]] with [start = max 0 (len b - n)]. *)
Definition keep_tail (b : list SnapInfo) (n : Z) : list SnapInfo :=
  let start := Z.of_nat (length b) - n in
  let start := if start <? 0 then 0 else start in
  drop (Z.to_nat start) b.

Definition keepN (b : list SnapInfo) (n : Z) (keep : gset gostr) : gset gostr :=
  if (n <=? 0) || bool_decide (length b = 0%nat) then keep
  else foldl (fun acc s => {[siName s]} ∪ acc) keep (keep_tail b n).

Definition time_before (a b : SnapInfo) : bool := siTime a <? siTime b.

Definition sort_snaps (snaps : list SnapInfo) : list SnapInfo := stable_sort time_before snaps.

Definition classifyKeep (snaps : list SnapInfo) (p : RetentionPolicy) : gset gostr :=
  if bool_decide (length snaps = 0%nat) then ∅
  else
    let sorted := sort_snaps snaps in
    let hourly := bucketEarliest sorted hourKey in
    let daily := bucketEarliest sorted dayKey in
    let weekly := bucketEarliest sorted weekKey in
    let monthly := bucketEarliest sorted monthKey in
    let yearly := bucketEarliest sorted yearKey in
    let keep := keepN hourly (Hourly p) ∅ in
    let keep := keepN daily (Daily p) keep in
    let keep := keepN weekly (Weekly p) keep in
    let keep := keepN monthly (Monthly p) keep in
    keepN yearly (Yearly p) keep.

Definition PartitionRetention (snaps : list SnapInfo) (p : RetentionPolicy)
  : list SnapInfo * list SnapInfo :=
  let keepSet := classifyKeep snaps p in
  (filter (fun s => siName s ∈ keepSet) snaps, filter (fun s => siName s ∉ keepSet) snaps).

End Retention.

(** * Bucket keys are faithful to the calendar

    The printed keys are injective in the calendar fields, so a bucket is
    a contiguous stretch of time: an instant between two instants of a
    bucket is in the bucket. *)

From S2P Require Import Prelude GoStrings GoTime SortLib Cron.
Import Retention.

(** ** Decimal printing *)

Lemma dec_digits_bound fuel n acc k :
  0 <= n < 10 ^ Z.of_nat k -> (length (dec_digits fuel n acc) <= k + length acc)%nat.
Proof.
  revert n acc k; induction fuel as [|fuel IH]; intros n acc k Hn; simpl; [lia|].
  destruct (n >? 0) eqn:E; [|lia].
  destruct k as [|k]; [simpl in Hn; lia|].
  rewrite Nat2Z.inj_succ, Z.pow_succ_r in Hn by lia.
  assert (0 <= n / 10 < 10 ^ Z.of_nat k).
  { split; [apply Z.div_pos; lia|apply Z.div_lt_upper_bound; lia]. }
  specialize (IH (n / 10) (byte_of (48 + n mod 10) :: acc) k H). simpl in IH. lia.
Qed.

Lemma dec_digits_ne fuel n : 0 < n -> dec_digits (S fuel) n [] <> [].
Proof.
  intros Hn. simpl. destruct (n >? 0) eqn:E; [|lia].
  pose proof (dec_digits_length fuel (n / 10) [byte_of (48 + n mod 10)]) as H.
  intros E'. rewrite E' in H. simpl in H. lia.
Qed.

Abbreviation all_digits := (Forall (fun c => is_digit c = true)).

Lemma digits_of_spec n : 0 <= n < 10 ^ 20 ->
  digits_val 0 (digits_of n) = Some n /\ all_digits (digits_of n) /\ digits_of n <> [].
Proof.
  intros Hn. unfold digits_of. destruct (Z.eqb_spec n 0) as [->|].
  { split_and!; [done|by repeat constructor|done]. }
  split_and!; [by rewrite dec_digits_val|by apply dec_digits_Forall|apply dec_digits_ne; lia].
Qed.

Lemma digits_of_length n k : (0 < k)%nat -> 0 <= n < 10 ^ Z.of_nat k ->
  (length (digits_of n) <= k)%nat.
Proof.
  intros Hk Hn. unfold digits_of. destruct (n =? 0); [simpl; lia|].
  etrans; [by apply dec_digits_bound|]. simpl; lia.
Qed.

Lemma digits_val_zeros k s : digits_val 0 (replicate k "0"%char ++ s) = digits_val 0 s.
Proof. induction k as [|k IH]; simpl; [done|]. apply IH. Qed.

Lemma append_int_length x k : (0 < k)%nat -> 0 <= x < 10 ^ Z.of_nat k ->
  length (append_int x k) = k.
Proof.
  intros Hk Hx. unfold append_int. destruct (Z.ltb_spec x 0); [lia|].
  rewrite Z.abs_eq by lia. pose proof (digits_of_length x k Hk Hx).
  simpl. rewrite length_app, length_replicate. lia.
Qed.

Lemma append_int_val x k : 0 <= x < 10 ^ 20 -> digits_val 0 (append_int x k) = Some x.
Proof.
  intros Hx. unfold append_int. destruct (Z.ltb_spec x 0); [lia|].
  rewrite Z.abs_eq by lia. simpl. rewrite digits_val_zeros.
  by apply digits_of_spec.
Qed.

Lemma append_int_neg_val x k : - 10 ^ 20 < x < 0 -> exists r, append_int x k = "-"%char :: r /\ digits_val 0 r = Some (- x).
Proof.
  intros Hx. unfold append_int. destruct (Z.ltb_spec x 0); [|lia].
  eexists; split; [done|]. rewrite digits_val_zeros.
  rewrite Z.abs_neq by lia. apply digits_of_spec. lia.
Qed.

Lemma append_int_inj x y k :
  Z.abs x < 10 ^ 20 -> Z.abs y < 10 ^ 20 -> append_int x k = append_int y k -> x = y.
Proof.
  intros Hx Hy E. destruct (Z.lt_ge_cases x 0), (Z.lt_ge_cases y 0).
  - destruct (append_int_neg_val x k) as (r & E1 & V1); [lia|].
    destruct (append_int_neg_val y k) as (r' & E2 & V2); [lia|].
    rewrite E1, E2 in E. injection E as ->. rewrite V1 in V2. injection V2. lia.
  - destruct (append_int_neg_val x k) as (r & E1 & _); [lia|].
    pose proof (append_int_val y k) as V. rewrite <- E, E1 in V. discriminate V; lia.
  - destruct (append_int_neg_val y k) as (r & E1 & _); [lia|].
    pose proof (append_int_val x k) as V. rewrite E, E1 in V. discriminate V; lia.
  - pose proof (append_int_val x k) as V1. pose proof (append_int_val y k) as V2.
    rewrite E, V2 in V1 by lia. injection V1; lia.
Qed.

(** formatInt prints every [int] but the least one so that Atoi reads it
    back. *)
Lemma formatInt_atoi n : MinInt64 < n <= MaxInt64 -> atoi (formatInt n) = Some n.
Proof.
  intros Hn. unfold MinInt64, MaxInt64 in Hn. unfold formatInt.
  destruct (Z.eqb_spec n 0) as [->|]; [done|].
  destruct (Z.ltb_spec n 0).
  - rewrite wrap64_id by (unfold in_int64, MinInt64, MaxInt64; lia).
    change (#"-" ++ ?s) with ("-"%char :: s).
    rewrite (atoi_neg_digits _ (- n)), Z.opp_involutive; [done|..].
    + apply dec_digits_ne. lia.
    + rewrite dec_digits_val by lia. done.
    + unfold in_int64, MinInt64, MaxInt64. lia.
  - cbn [app]. apply atoi_digits.
    + apply dec_digits_ne. lia.
    + by apply dec_digits_Forall.
    + rewrite dec_digits_val by lia. done.
    + unfold in_int64, MinInt64, MaxInt64. lia.
Qed.

(** formatInt, the printer behind the week keys, is read back by
    Atoi for every 64-bit integer except the least, which it prints as a
    bare minus sign. *)
Theorem formatInt_roundtrip n :
  in_int64 n = true ->
  atoi (formatInt n) = if n =? MinInt64 then None else Some n.
Proof.
  unfold in_int64. intros Hn. destruct (Z.eqb_spec n MinInt64) as [->|]; [done|].
  apply formatInt_atoi. lia.
Qed.

Lemma formatInt_roundtrip_witness : atoi (formatInt (-42)) = Some (-42).
Proof. apply (formatInt_roundtrip (-42)). reflexivity. Defined.

Lemma itoa_inj x y :
  MinInt64 < x <= MaxInt64 -> MinInt64 < y <= MaxInt64 -> itoa x = itoa y -> x = y.
Proof.
  unfold itoa. intros Hx Hy E. apply formatInt_atoi in Hx, Hy.
  rewrite E, Hy in Hx. by injection Hx.
Qed.

(** ** Fields of the formatted times *)

(** The range of Go's Time: 64-bit seconds. *)
Definition go_range (t : Instant) : Prop := Z.abs t <= 2 ^ 63 * Second.

Lemma wall_day_range t : go_range t -> Z.abs (wall_day UTC t) <= 10 ^ 15.
Proof.
  unfold go_range, wall_day. rewrite (fixed_wall_sec 0).
  change (2 ^ 63) with 9223372036854775808. change (10 ^ 15) with 1000000000000000.
  unfold Second. dlia.
Qed.

Lemma year_range n : Z.abs n <= 10 ^ 15 + 10 -> Z.abs (year_of_day n) < 10 ^ 15.
Proof.
  intros H. pose proof (year_of_day_spec n) as Hs. unfold days_before_year in Hs.
  change (10 ^ 15) with 1000000000000000 in *. dlia.
Qed.

Lemma time_year_range t : go_range t -> Z.abs (time_year UTC t) < 10 ^ 20.
Proof.
  intros H. unfold time_year. pose proof (year_range (wall_day UTC t)).
  pose proof (wall_day_range t H). lia.
Qed.

Lemma time_month_range l t : 1 <= time_month l t <= 12.
Proof. unfold time_month. apply civil_of_day. Qed.

Lemma time_day_range l t : 1 <= time_day l t <= 31.
Proof.
  unfold time_day. destruct (civil_of_day (wall_day l t)) as (_ & Hm & Hd).
  pose proof (days_in_month_range (year_of_day (wall_day l t)) _ Hm). lia.
Qed.

Lemma time_hour_range l t : 0 <= time_hour l t < 24.
Proof. unfold time_hour. dlia. Qed.

Lemma time_minute_range l t : 0 <= time_minute l t < 60.
Proof. unfold time_minute. dlia. Qed.

Lemma append_two_length x : 0 <= x < 100 -> length (append_int x 2) = 2%nat.
Proof. intros H. apply append_int_length; simpl; lia. Qed.

(** Two strings that end in two-digit fields agree part by part. *)
Lemma field_suffix_inj a b x y :
  0 <= x < 100 -> 0 <= y < 100 ->
  a ++ #"-" ++ append_int x 2 = b ++ #"-" ++ append_int y 2 -> a = b /\ x = y.
Proof.
  intros Hx Hy E. apply app_inj_2 in E as [-> E].
  - split; [done|]. injection E. apply append_int_inj; lia.
  - simpl. by rewrite !append_two_length by done.
Qed.

Lemma yearKey_inj t u : go_range t -> go_range u ->
  yearKey t = yearKey u -> time_year UTC t = time_year UTC u.
Proof.
  intros Ht Hu. unfold yearKey, fmt_year. apply append_int_inj; by apply time_year_range.
Qed.

Lemma monthKey_inj t u : go_range t -> go_range u ->
  monthKey t = monthKey u ->
  yearKey t = yearKey u /\ time_month UTC t = time_month UTC u.
Proof.
  intros Ht Hu E. apply field_suffix_inj in E; [done|..];
    pose proof (time_month_range UTC t); pose proof (time_month_range UTC u); lia.
Qed.

Lemma dayKey_inj t u : go_range t -> go_range u ->
  dayKey t = dayKey u -> monthKey t = monthKey u /\ time_day UTC t = time_day UTC u.
Proof.
  intros Ht Hu E. apply field_suffix_inj in E; [done|..];
    pose proof (time_day_range UTC t); pose proof (time_day_range UTC u); lia.
Qed.

Lemma hourKey_inj t u : go_range t -> go_range u ->
  hourKey t = hourKey u -> dayKey t = dayKey u /\ time_hour UTC t = time_hour UTC u.
Proof.
  intros Ht Hu E. apply field_suffix_inj in E; [done|..];
    pose proof (time_hour_range UTC t); pose proof (time_hour_range UTC u); lia.
Qed.

(** Equal day keys are equal days. *)
Lemma dayKey_wall_day t u : go_range t -> go_range u ->
  dayKey t = dayKey u -> wall_day UTC t = wall_day UTC u.
Proof.
  intros Ht Hu E. apply dayKey_inj in E as [E Hd]; [|done..].
  apply monthKey_inj in E as [E Hm]; [|done..]. apply yearKey_inj in E; [|done..].
  destruct (civil_of_day (wall_day UTC t)) as (Et & _).
  destruct (civil_of_day (wall_day UTC u)) as (Eu & _).
  unfold time_day, time_month, time_year in *. congruence.
Qed.

(** ** Convexity *)

(** A key is convex when a bucket holds every instant between two of its
    members. *)
Definition convex (k : Instant -> gostr) : Prop :=
  forall t1 t2 t3, go_range t1 -> go_range t2 -> go_range t3 ->
    t1 <= t2 <= t3 -> k t1 = k t3 -> k t2 = k t1.

Lemma utc_wall_day_mono t u : t <= u -> wall_day UTC t <= wall_day UTC u.
Proof. apply fixed_wall_day_mono. Qed.

Lemma yearKey_convex : convex yearKey.
Proof.
  intros t1 t2 t3 H1 H2 H3 [Ha Hb] E. apply yearKey_inj in E; [|done..].
  apply utc_wall_day_mono, year_of_day_mono in Ha, Hb.
  unfold yearKey, fmt_year. f_equal. unfold time_year in *. lia.
Qed.

Lemma same_month n1 n2 n3 :
  n1 <= n2 <= n3 -> year_of_day n1 = year_of_day n3 -> month_of_day n1 = month_of_day n3 ->
  year_of_day n2 = year_of_day n1 /\ month_of_day n2 = month_of_day n1.
Proof.
  intros H Ey Em. apply month_span; [lia|].
  destruct (civil_of_day n3) as (E3 & Hm & Hd).
  rewrite Ey, Em. rewrite day_of_civil_next_month by done.
  unfold day_of_civil in *. lia.
Qed.

Lemma monthKey_convex : convex monthKey.
Proof.
  intros t1 t2 t3 H1 H2 H3 [Ha Hb] E. apply monthKey_inj in E as [E Em]; [|done..].
  apply yearKey_inj in E; [|done..]. apply utc_wall_day_mono in Ha, Hb.
  destruct (same_month _ _ _ (conj Ha Hb) E Em) as [E1 E2].
  unfold monthKey, fmt_month, fmt_year, time_year, time_month. by rewrite E1, E2.
Qed.

Lemma dayKey_convex : convex dayKey.
Proof.
  intros t1 t2 t3 H1 H2 H3 [Ha Hb] E. apply dayKey_wall_day in E; [|done..].
  apply utc_wall_day_mono in Ha, Hb.
  assert (Ew : wall_day UTC t2 = wall_day UTC t1) by lia.
  unfold dayKey, fmt_date, fmt_month, fmt_year, time_year, time_month, time_day.
  by rewrite Ew.
Qed.

Lemma hourKey_convex : convex hourKey.
Proof.
  intros t1 t2 t3 H1 H2 H3 [Ha Hb] E. apply hourKey_inj in E as [E Eh]; [|done..].
  assert (dayKey t2 = dayKey t1) as Ed by (by apply (dayKey_convex t1 t2 t3)).
  apply dayKey_wall_day in E; [|done..].
  pose proof (dayKey_wall_day t2 t1 H2 H1 Ed) as E2.
  assert (time_hour UTC t2 = time_hour UTC t1) as Eh2.
  { unfold time_hour, wall_day, UTC in *. rewrite !fixed_wall_sec in *.
    unfold Second in *. dlia. }
  unfold hourKey, fmt_hour. change (fmt_date UTC t2) with (dayKey t2). by rewrite Ed, Eh2.
Qed.

(** The Thursday that names the ISO week of day [n]. *)
Lemma iso_week_thursday n :
  iso_week_of_day n =
  (year_of_day (7 * (n / 7) + 3), yday_of_day (7 * (n / 7) + 3) / 7 + 1).
Proof.
  unfold iso_week_of_day, weekday_of_day. cbv zeta.
  assert (n + (if 4 - (n + 1) mod 7 =? 4 then -3 else 4 - (n + 1) mod 7) = 7 * (n / 7) + 3) as ->;
    [|done].
  destruct (Z.eqb_spec (4 - (n + 1) mod 7) 4); dlia.
Qed.

Lemma iso_week_range n : 1 <= (iso_week_of_day n).2 <= 53.
Proof.
  rewrite iso_week_thursday. simpl. pose proof (yday_range (7 * (n / 7) + 3)).
  destruct (is_leap _); dlia.
Qed.

Lemma iso_week_inj n m : iso_week_of_day n = iso_week_of_day m -> n / 7 = m / 7.
Proof.
  rewrite !iso_week_thursday. intros [= Ey Ew]. unfold yday_of_day in Ew.
  rewrite Ey in Ew. dlia.
Qed.

Lemma itoa_week_length w : 1 <= w <= 53 ->
  length (replicate (2 - length (itoa w)) "0"%char ++ itoa w) = 2%nat /\
  atoi (replicate (2 - length (itoa w)) "0"%char ++ itoa w) = Some w.
Proof.
  intros Hw.
  assert (forallb (fun w => bool_decide
     (length (replicate (2 - length (itoa w)) "0"%char ++ itoa w) = 2%nat /\
      atoi (replicate (2 - length (itoa w)) "0"%char ++ itoa w) = Some w))
     (map Z.of_nat (seq 1 53)) = true) as H by (vm_compute; reflexivity).
  rewrite forallb_forall in H. specialize (H w).
  apply bool_decide_eq_true in H; [done|]. apply in_map_iff. exists (Z.to_nat w).
  split; [lia|]. apply in_seq. lia.
Qed.

Lemma formatWeek_inj y w y' w' :
  MinInt64 < y <= MaxInt64 -> MinInt64 < y' <= MaxInt64 ->
  1 <= w <= 53 -> 1 <= w' <= 53 -> formatWeek y w = formatWeek y' w' -> y = y' /\ w = w'.
Proof.
  intros Hy Hy' Hw Hw'. unfold formatWeek. cbv zeta.
  destruct (itoa_week_length w Hw) as [L1 V1], (itoa_week_length w' Hw') as [L2 V2].
  set (s := _ ++ itoa w) in *. set (s' := _ ++ itoa w') in *. intros E.
  apply app_inj_2 in E as [E1 E2].
  - split; [by apply itoa_inj|]. injection E2 as E2. congruence.
  - change (length #"-W" + 0)%nat with 2%nat. rewrite !length_app. congruence.
Qed.

Lemma weekKey_spec t u : go_range t -> go_range u ->
  weekKey t = weekKey u <-> wall_day UTC t / 7 = wall_day UTC u / 7.
Proof.
  intros Ht Hu. unfold weekKey.
  destruct (iso_week_of_day (wall_day UTC t)) as [y w] eqn:Et.
  destruct (iso_week_of_day (wall_day UTC u)) as [y' w'] eqn:Eu. split.
  - intros E.
    assert (forall n y w, Z.abs n <= 10 ^ 15 -> iso_week_of_day n = (y, w) ->
              MinInt64 < y <= MaxInt64 /\ 1 <= w <= 53) as Hr.
    { intros n a b Hn Ei. split; [|pose proof (iso_week_range n) as Hr; by rewrite Ei in Hr].
      rewrite iso_week_thursday in Ei. injection Ei as <- <-.
      assert (Z.abs (year_of_day (7 * (n / 7) + 3)) < 10 ^ 15).
      { apply year_range. change (10 ^ 15) with 1000000000000000 in *. dlia. }
      unfold MinInt64, MaxInt64. lia. }
    destruct (Hr _ _ _ (wall_day_range t Ht) Et), (Hr _ _ _ (wall_day_range u Hu) Eu).
    destruct (formatWeek_inj y w y' w') as [-> ->]; [done..|].
    apply iso_week_inj. congruence.
  - intros E. rewrite iso_week_thursday in Et, Eu. rewrite E in Et. congruence.
Qed.

Lemma weekKey_convex : convex weekKey.
Proof.
  intros t1 t2 t3 H1 H2 H3 [Ha Hb] E. apply weekKey_spec in E; [|done..].
  apply weekKey_spec; [done..|]. apply utc_wall_day_mono in Ha, Hb.
  revert Ha Hb E. generalize (wall_day UTC t1) (wall_day UTC t2) (wall_day UTC t3).
  intros; dlia.
Qed.
