(* ===== verification/RetentionCorrect.v ===== *)
(** * Correctness of snapshot retention

    What a policy keeps, how many snapshots that can be, and that applying
    a policy to what it kept drops nothing more.  The last matters because
    the scheduler prunes on every tick. *)

From S2P Require Import Prelude GoStrings GoTime SortLib Cron Retention.
Import Retention.

(** ** Earliest representatives *)

Section Reps.
Context (k : Instant -> gostr).

Abbreviation key s := (k (siTime s)).

Definition keys (l : list SnapInfo) : gset gostr := list_to_set (map (fun s => key s) l).

Lemma elem_of_keys x l : x ∈ keys l <-> exists s, s ∈ l /\ x = key s.
Proof. unfold keys. rewrite elem_of_list_to_set, list_elem_of_fmap. naive_solver. Qed.

Lemma keys_cons s l : keys (s :: l) = {[key s]} ∪ keys l.
Proof. unfold keys. by rewrite map_cons. Qed.

Lemma keys_app l1 l2 : keys (l1 ++ l2) = keys l1 ∪ keys l2.
Proof. unfold keys. by rewrite map_app, list_to_set_app_L. Qed.

Lemma reps_app seen l1 l2 :
  bucketEarliest_go k seen (l1 ++ l2)
  = bucketEarliest_go k seen l1 ++ bucketEarliest_go k (keys l1 ∪ seen) l2.
Proof.
  revert seen; induction l1 as [|s l1 IH]; intros seen; simpl.
  { f_equal. unfold keys. set_solver. }
  rewrite keys_cons. case_bool_decide.
  - rewrite IH. do 2 f_equal. set_solver.
  - simpl. rewrite IH. do 3 f_equal. set_solver.
Qed.

(** Only the keys that occur matter. *)
Lemma reps_seen seen seen' l :
  (forall s, s ∈ l -> key s ∈ seen <-> key s ∈ seen') ->
  bucketEarliest_go k seen l = bucketEarliest_go k seen' l.
Proof.
  revert seen seen'; induction l as [|s l IH]; intros seen seen' H; simpl; [done|].
  assert (key s ∈ seen <-> key s ∈ seen') as Hs by (apply H; set_solver).
  rewrite (bool_decide_ext _ _ Hs). case_bool_decide.
  - apply IH. set_solver.
  - f_equal. apply IH. intros s' Hs'. rewrite !elem_of_union. specialize (H s'). set_solver.
Qed.

(** When all representatives survive a filter, they stay the
    representatives. *)
Lemma reps_filter (P : SnapInfo -> Prop) `{Pdec : !forall s, Decision (P s)} seen l :
  Forall P (bucketEarliest_go k seen l) ->
  bucketEarliest_go k seen (filter P l) = bucketEarliest_go k seen l.
Proof.
  revert seen; induction l as [|s l IH]; intros seen H; [done|].
  rewrite filter_cons. simpl in *. case_bool_decide as E.
  - destruct (decide (P s)); simpl; [rewrite bool_decide_eq_true_2 by done|]; by apply IH.
  - apply Forall_cons in H as [Hs H]. destruct (decide (P s)); [|done].
    simpl. rewrite bool_decide_eq_false_2 by done. f_equal. by apply IH.
Qed.

Lemma reps_not_seen seen l t : t ∈ bucketEarliest_go k seen l -> key t ∉ seen.
Proof.
  revert seen; induction l as [|s l IH]; intros seen; simpl; [set_solver|].
  case_bool_decide; [by apply IH|]. intros [->|Ht]%elem_of_cons; [done|].
  apply IH in Ht. set_solver.
Qed.

(** The list splits where a representative stands. *)
Lemma reps_split seen l A t T :
  bucketEarliest_go k seen l = A ++ t :: T ->
  exists l1 l2, l = l1 ++ t :: l2 /\ bucketEarliest_go k seen l1 = A /\
    bucketEarliest_go k (keys l1 ∪ seen) (t :: l2) = t :: T.
Proof.
  revert seen A; induction l as [|s l IH]; intros seen A H; simpl in H; [by destruct A|].
  case_bool_decide as E; [|destruct A as [|a A]; injection H as <- H].
  - destruct (IH _ _ H) as (l1 & l2 & -> & H1 & H3).
    assert (Hsub : keys (s :: l1) ∪ seen = keys l1 ∪ seen) by (rewrite keys_cons; set_solver).
    exists (s :: l1), l2. split_and!; [done| |by rewrite Hsub].
    simpl. by rewrite bool_decide_eq_true_2.
  - exists [], l. split_and!; [done|done|]. simpl.
    rewrite bool_decide_eq_false_2 by set_solver. rewrite <- H. do 2 f_equal. set_solver.
  - destruct (IH _ _ H) as (l1 & l2 & -> & H1 & H3).
    assert (Hsub : keys (s :: l1) ∪ seen = keys l1 ∪ ({[key s]} ∪ seen))
      by (rewrite keys_cons; set_solver).
    exists (s :: l1), l2. split_and!; [done| |by rewrite Hsub].
    simpl. rewrite bool_decide_eq_false_2 by done. by rewrite H1.
Qed.

(** Buckets are contiguous in a list sorted by time, so the newest
    representatives are unaffected by what happens to older snapshots. *)
Context (Hconv : convex k).

Lemma reps_tail_filter (P : SnapInfo -> Prop) `{Pdec : !forall s, Decision (P s)} l A t T :
  StronglySorted (fun x y => siTime x <= siTime y) l ->
  Forall (fun s => go_range (siTime s)) l ->
  bucketEarliest l k = A ++ t :: T -> Forall P (t :: T) ->
  exists A', bucketEarliest (filter P l) k = A' ++ t :: T.
Proof.
  unfold bucketEarliest. intros Hs Hr H HP.
  apply reps_split in H as (l1 & l2 & -> & _ & H).
  assert (Hnew : key t ∉ keys l1).
  { assert (t ∈ bucketEarliest_go k (keys l1 ∪ ∅) (t :: l2)) as Ht by (rewrite H; set_solver).
    apply reps_not_seen in Ht. set_solver. }
  assert (Hdisj : forall s, s ∈ t :: l2 -> key s ∉ keys l1).
  { intros s Hin. apply elem_of_cons in Hin as [->|Hin]; [done|]. intros Hk.
    apply elem_of_keys in Hk as (s1 & Hs1 & Ek). apply Hnew, elem_of_keys. exists s1. split; [done|].
    rewrite Forall_app, Forall_cons in Hr. destruct Hr as (R1 & Rt & R2).
    rewrite Forall_forall in R1, R2.
    apply StronglySorted_app in Hs as (Hcross & _ & Hs2).
    apply StronglySorted_inv in Hs2 as [_ Ht2]. rewrite Forall_forall in Ht2.
    apply (Hconv (siTime s1) (siTime t) (siTime s)); [auto..| |by rewrite Ek].
    split; [apply Hcross; set_solver|auto]. }
  rewrite filter_app, reps_app. eexists. f_equal.
  rewrite <- H. rewrite <- (reps_filter P (keys l1 ∪ ∅) (t :: l2)) by (by rewrite H).
  apply reps_seen. intros s [_ Hin]%list_elem_of_filter.
  assert (keys (filter P l1) ⊆ keys l1).
  { intros x Hx. apply elem_of_keys in Hx as (s' & [_ Hs']%list_elem_of_filter & ->).
    apply elem_of_keys. eauto. }
  specialize (Hdisj s Hin). set_solver.
Qed.
End Reps.

(** ** The kept tail of a class *)

Lemma keep_tail_length b n : 0 < n ->
  Z.of_nat (length (keep_tail b n)) = Z.min (Z.of_nat (length b)) n.
Proof.
  intros Hn. unfold keep_tail. rewrite length_drop.
  destruct (Z.ltb_spec (Z.of_nat (length b) - n) 0); lia.
Qed.

(** The tail is everything, or a suffix of exactly [n]. *)
Lemma keep_tail_cases b n : 0 < n ->
  keep_tail b n = b \/
  exists A t T, b = A ++ t :: T /\ keep_tail b n = t :: T /\ Z.of_nat (length (t :: T)) = n.
Proof.
  intros Hn. pose proof (keep_tail_length b n Hn) as Hlen. unfold keep_tail in *.
  destruct (Z.ltb_spec (Z.of_nat (length b) - n) 0); [by left|].
  right. set (j := Z.to_nat (Z.of_nat (length b) - n)) in *.
  destruct (drop j b) as [|t T] eqn:E; [simpl in Hlen; lia|].
  exists (take j b), t, T. split_and!; [|done|lia]. by rewrite <- E, take_drop.
Qed.

Lemma keep_tail_suffix A T n : 0 < n -> Z.of_nat (length T) = n -> keep_tail (A ++ T) n = T.
Proof.
  intros Hn HT. unfold keep_tail. rewrite length_app.
  destruct (Z.ltb_spec (Z.of_nat (length A + length T) - n) 0); [lia|].
  apply drop_app_length'. lia.
Qed.

Lemma keep_tail_nil n : keep_tail [] n = [].
Proof. apply drop_nil. Qed.

Lemma elem_of_keepN x b n keep :
  x ∈ keepN b n keep <-> x ∈ keep \/ (0 < n /\ exists s, s ∈ keep_tail b n /\ siName s = x).
Proof.
  unfold keepN. destruct (Z.leb_spec n 0); simpl; [naive_solver lia|].
  assert (forall l (acc : gset gostr), x ∈ foldl (fun acc s => {[siName s]} ∪ acc) acc l <->
            x ∈ acc \/ exists s, s ∈ l /\ siName s = x) as Hf.
  { induction l as [|s l IH]; intros acc; simpl; [set_solver|]. rewrite IH. set_solver. }
  case_bool_decide as Hb; [|rewrite Hf; naive_solver].
  destruct b; [|done]. rewrite keep_tail_nil. set_solver.
Qed.

(** The classes of a policy, as classifyKeep walks them. *)
Definition classes (p : RetentionPolicy) : list ((Instant -> gostr) * Z) :=
  [(hourKey, Hourly p); (dayKey, Daily p); (weekKey, Weekly p);
   (monthKey, Monthly p); (yearKey, Yearly p)].

Lemma classes_convex p k n : (k, n) ∈ classes p -> convex k.
Proof.
  unfold classes. rewrite !elem_of_cons. intros H.
  destruct_or!; simplify_eq; auto using hourKey_convex, dayKey_convex, weekKey_convex,
    monthKey_convex, yearKey_convex. set_solver.
Qed.

(** A name is kept when some class keeps a snapshot of that name. *)
Lemma elem_of_classifyKeep x snaps p :
  x ∈ classifyKeep snaps p <->
  exists k n s, (k, n) ∈ classes p /\ 0 < n /\
    s ∈ keep_tail (bucketEarliest (sort_snaps snaps) k) n /\ siName s = x.
Proof.
  unfold classifyKeep. case_bool_decide as Hl.
  - destruct snaps; [|done]. split; [set_solver|].
    intros (k & n & s & _ & _ & Hs & _).
    change (bucketEarliest (sort_snaps []) k) with (@nil SnapInfo) in Hs.
    rewrite keep_tail_nil in Hs. set_solver.
  - rewrite !elem_of_keepN. unfold classes. setoid_rewrite elem_of_cons. split.
    + intros [[[[[Hx|(Hn & s & Hs & Hx)]|(Hn & s & Hs & Hx)]|(Hn & s & Hs & Hx)]
               |(Hn & s & Hs & Hx)]|(Hn & s & Hs & Hx)];
        [set_solver|exists hourKey, (Hourly p), s|exists dayKey, (Daily p), s
        |exists weekKey, (Weekly p), s|exists monthKey, (Monthly p), s|exists yearKey, (Yearly p), s];
        (split; [repeat first [left; reflexivity|right]|done]).
    + intros (k & n & s & H & Hn & Hs & Hx).
      destruct_or!; simplify_eq; [naive_solver..|set_solver].
Qed.

Lemma sort_snaps_perm snaps : sort_snaps snaps ≡ₚ snaps.
Proof. apply stable_sort_perm. Qed.

Lemma time_before_key x y : time_before x y = (siTime x <? siTime y).
Proof. done. Qed.

Lemma sort_snaps_sorted snaps :
  StronglySorted (fun x y => siTime x <= siTime y) (sort_snaps snaps).
Proof. apply stable_sort_sorted, time_before_key. Qed.

Lemma sort_snaps_filter (P : SnapInfo -> Prop) `{Pdec : !forall s, Decision (P s)} snaps :
  sort_snaps (filter P snaps) = filter P (sort_snaps snaps).
Proof. symmetry. apply stable_sort_filter with (key := siTime), time_before_key. Qed.

(** ** Idempotence *)

(** A class keeps the same snapshots after everything the policy drops is
    gone. *)
Lemma class_stable k n snaps (P : SnapInfo -> Prop) `{Pdec : !forall s, Decision (P s)} :
  convex k -> 0 < n -> Forall (fun s => go_range (siTime s)) snaps ->
  Forall P (keep_tail (bucketEarliest (sort_snaps snaps) k) n) ->
  keep_tail (bucketEarliest (sort_snaps (filter P snaps)) k) n
  = keep_tail (bucketEarliest (sort_snaps snaps) k) n.
Proof.
  intros Hc Hn Hr HP. rewrite sort_snaps_filter.
  destruct (keep_tail_cases (bucketEarliest (sort_snaps snaps) k) n Hn)
    as [E|(A & t & T & Eb & Et & Hlen)].
  - rewrite E in HP. unfold bucketEarliest in *. by rewrite (reps_filter k P).
  - rewrite Et in HP |- *.
    destruct (reps_tail_filter k Hc P (sort_snaps snaps) A t T) as [A' ->];
      [apply sort_snaps_sorted|by rewrite sort_snaps_perm|done|done|].
    by apply keep_tail_suffix.
Qed.

Lemma PartitionRetention_again snaps p
    (Hr : Forall (fun s => go_range (siTime s)) snaps) :
  let keep := (PartitionRetention snaps p).1 in
  PartitionRetention keep p = (keep, []).
Proof.
  intros keep. unfold keep, PartitionRetention; simpl.
  set (K := classifyKeep snaps p).
  assert (classifyKeep (filter (fun s => siName s ∈ K) snaps) p = K) as ->.
  { apply set_eq. intros x. rewrite elem_of_classifyKeep.
    assert (HK := elem_of_classifyKeep x snaps p). fold K in HK. rewrite HK.
    assert (forall k n, (k, n) ∈ classes p -> 0 < n ->
      keep_tail (bucketEarliest (sort_snaps (filter (fun s => siName s ∈ K) snaps)) k) n
      = keep_tail (bucketEarliest (sort_snaps snaps) k) n) as Hstab.
    { intros k n Hk Hn. apply class_stable; [by eapply classes_convex|done|done|].
      apply Forall_forall. intros s Hs. apply elem_of_classifyKeep. eauto 8. }
    split; intros (k & n & s & Hk & Hn & Hs & Hx); exists k, n, s.
    - by rewrite <- (Hstab k n Hk Hn).
    - by rewrite (Hstab k n Hk Hn). }
  by rewrite filter_twice, filter_neg_twice.
Qed.

(** Pruning is idempotent: a policy applied to the snapshots it kept
    keeps all of them and drops none, so running retention on every tick
    settles after one pass. *)
Theorem PartitionRetention_idempotent snaps p
    (Hr : Forall (fun s => go_range (siTime s)) snaps) :
  let keep := (PartitionRetention snaps p).1 in
  PartitionRetention keep p = (keep, []).
Proof. by apply PartitionRetention_again. Qed.

Lemma PartitionRetention_idempotent_witness :
  let snaps := [mkSnap #"a" 0; mkSnap #"b" Hour; mkSnap #"c" (2 * Hour); mkSnap #"d" (30 * Day)] in
  let p := mkPolicy 1 1 0 2 0 in
  PartitionRetention (PartitionRetention snaps p).1 p = ((PartitionRetention snaps p).1, []).
Proof.
  intros snaps p. apply (PartitionRetention_idempotent snaps p).
  repeat constructor; vm_compute; discriminate.
Defined.

(** ** How much is kept *)

Lemma keepN_size b n keep : (Z.of_nat (size (keepN b n keep)) <= Z.of_nat (size keep) + Z.max 0 n).
Proof.
  unfold keepN. destruct (Z.leb_spec n 0); simpl; [lia|]. case_bool_decide; [lia|].
  pose proof (keep_tail_length b n) as Hl.
  assert (forall l (acc : gset gostr),
    (size (foldl (fun acc s => {[siName s]} ∪ acc) acc l) <= size acc + length l)%nat) as Hf.
  { induction l as [|s l IH]; intros acc; simpl; [lia|].
    etrans; [apply IH|]. pose proof (size_union_alt {[siName s]} acc) as Hu.
    rewrite size_singleton in Hu.
    assert (size (acc ∖ {[siName s]}) <= size acc)%nat by (apply subseteq_size; set_solver). lia. }
  specialize (Hf (keep_tail b n) keep). lia.
Qed.

(** A policy never keeps more names than the sum of its (positive)
    counts, whatever snapshots exist. *)
Theorem classifyKeep_bounded snaps p :
  Z.of_nat (size (classifyKeep snaps p)) <=
  Z.max 0 (Hourly p) + Z.max 0 (Daily p) + Z.max 0 (Weekly p) +
  Z.max 0 (Monthly p) + Z.max 0 (Yearly p).
Proof.
  unfold classifyKeep. case_bool_decide; [rewrite size_empty; lia|].
  cbv zeta.
  set (k1 := keepN _ (Hourly p) ∅). set (k2 := keepN _ (Daily p) k1).
  set (k3 := keepN _ (Weekly p) k2). set (k4 := keepN _ (Monthly p) k3).
  pose proof (keepN_size (bucketEarliest (sort_snaps snaps) hourKey) (Hourly p) ∅) as H1.
  pose proof (keepN_size (bucketEarliest (sort_snaps snaps) dayKey) (Daily p) k1) as H2.
  pose proof (keepN_size (bucketEarliest (sort_snaps snaps) weekKey) (Weekly p) k2) as H3.
  pose proof (keepN_size (bucketEarliest (sort_snaps snaps) monthKey) (Monthly p) k3) as H4.
  pose proof (keepN_size (bucketEarliest (sort_snaps snaps) yearKey) (Yearly p) k4) as H5.
  rewrite size_empty in H1. fold k1 in H1. fold k2 in H2. fold k3 in H3. fold k4 in H4. lia.
Qed.

(** ** Which snapshots are kept *)

Section Which.
Context (k : Instant -> gostr).
Abbreviation key s := (k (siTime s)).

Lemma reps_keys seen l : keys k (bucketEarliest_go k seen l) = keys k l ∖ seen.
Proof.
  revert seen; induction l as [|s l IH]; intros seen; simpl; [unfold keys; set_solver|].
  rewrite keys_cons. case_bool_decide.
  - rewrite IH. set_solver.
  - rewrite keys_cons, IH. apply set_eq. intros x. rewrite !elem_of_difference, !elem_of_union,
      !elem_of_difference, elem_of_union, !elem_of_singleton.
    destruct (decide (x = key s)); naive_solver.
Qed.

Lemma reps_length seen l : length (bucketEarliest_go k seen l) = size (keys k l ∖ seen).
Proof.
  rewrite <- reps_keys. unfold keys.
  rewrite size_list_to_set, length_map; [done|].
  revert seen; induction l as [|s l IH]; intros seen; simpl; [constructor|].
  case_bool_decide; [done|]. simpl. constructor; [|done].
  intros Hin. apply list_elem_of_fmap in Hin as (s' & E & Hs').
  apply reps_not_seen in Hs'. set_solver.
Qed.

(** [s] opens its bucket: no snapshot of the bucket is earlier. *)
Definition opens_bucket (snaps : list SnapInfo) (s : SnapInfo) : Prop :=
  forall s', s' ∈ snaps -> key s' = key s -> siTime s <= siTime s'.

(** The buckets of snapshots newer than [s], other than its own. *)
Definition newer_buckets (snaps : list SnapInfo) (s : SnapInfo) : gset gostr :=
  keys k (filter (fun s' => siTime s < siTime s' /\ key s' <> key s) snaps).

Lemma sorted_split_times l1 (s : SnapInfo) l2 :
  StronglySorted (fun x y => siTime x <= siTime y) (l1 ++ s :: l2) ->
  (forall x, x ∈ l1 -> siTime x <= siTime s) /\ (forall y, y ∈ l2 -> siTime s <= siTime y).
Proof.
  intros (Hc & _ & Hs2)%StronglySorted_app.
  apply StronglySorted_inv in Hs2 as [_ H2]. rewrite Forall_forall in H2.
  split; [|done]. intros x Hx. apply Hc; set_solver.
Qed.

Context (Hconv : convex k).

(** The keys that come after the representative [s] in time order. *)
Lemma later_keys l1 s l2 :
  StronglySorted (fun x y => siTime x <= siTime y) (l1 ++ s :: l2) ->
  Forall (fun s => go_range (siTime s)) (l1 ++ s :: l2) -> key s ∉ keys k l1 ->
  keys k l2 ∖ ({[key s]} ∪ keys k l1) = newer_buckets (l1 ++ s :: l2) s.
Proof.
  intros Hs Hr Hnew. destruct (sorted_split_times _ _ _ Hs) as [H1 H2].
  assert (R : forall x, x ∈ l1 ++ s :: l2 -> go_range (siTime x)) by (by apply Forall_forall).
  apply set_eq. intros x. unfold newer_buckets.
  rewrite elem_of_difference, elem_of_union, elem_of_singleton, !elem_of_keys. split.
  - intros [(y & Hy & ->) Hn]. exists y. split; [|done].
    apply list_elem_of_filter. split; [|set_solver]. specialize (H2 y Hy).
    split; [|naive_solver]. destruct (Z.eq_dec (siTime s) (siTime y)) as [E|]; [|lia].
    exfalso. apply Hn. left. by rewrite E.
  - intros (y & [[Hlt Hne] Hy]%list_elem_of_filter & ->).
    apply elem_of_app in Hy as [Hy|[->|Hy]%elem_of_cons]; [|lia|].
    { specialize (H1 y Hy). lia. }
    split; [eauto|]. intros [E|(z & Hz & E)]; [done|]. apply Hnew, elem_of_keys.
    exists z. split; [done|].
    apply (Hconv (siTime z) (siTime s) (siTime y)); [apply R; set_solver..| |done].
    split; [by apply H1|by apply H2].
Qed.

Lemma lookup_unique (A : list SnapInfo) s T i :
  s ∉ A -> s ∉ T -> (A ++ s :: T) !! i = Some s <-> i = length A.
Proof.
  intros HA HT. rewrite lookup_app_Some. split.
  - intros [Hi|[Hi Hs']]; [apply list_elem_of_lookup_2 in Hi; done|].
    destruct (i - length A)%nat eqn:Ei; simpl in Hs'; [lia|].
    apply list_elem_of_lookup_2 in Hs'. done.
  - intros ->. right. by rewrite Nat.sub_diag.
Qed.

(** A representative is in the tail when few enough come after it. *)
Lemma keep_tail_position A s T n :
  s ∉ A -> s ∉ T -> 0 < n -> s ∈ keep_tail (A ++ s :: T) n <-> Z.of_nat (length T) < n.
Proof.
  intros HA HT Hn. unfold keep_tail. rewrite length_app. simpl.
  rewrite list_elem_of_lookup. setoid_rewrite lookup_drop.
  setoid_rewrite (lookup_unique A s T); [|done..].
  destruct (Z.ltb_spec (Z.of_nat (length A + S (length T)) - n) 0).
  - split; [lia|]. intros _. exists (length A). lia.
  - split; [intros [i Hi]; lia|]. intros Hlt.
    exists (length A - Z.to_nat (Z.of_nat (length A + S (length T)) - n))%nat. lia.
Qed.

Lemma rep_kept_iff l1 s l2 n :
  0 < n -> StronglySorted (fun x y => siTime x <= siTime y) (l1 ++ s :: l2) ->
  Forall (fun s => go_range (siTime s)) (l1 ++ s :: l2) -> key s ∉ keys k l1 ->
  s ∈ keep_tail (bucketEarliest (l1 ++ s :: l2) k) n <->
  Z.of_nat (size (newer_buckets (l1 ++ s :: l2) s)) < n.
Proof.
  intros Hn Hs Hr Hnew. rewrite <- later_keys by done.
  unfold bucketEarliest. rewrite reps_app. simpl.
  rewrite bool_decide_eq_false_2 by set_solver.
  assert (E : forall X, keys k l2 ∖ ({[key s]} ∪ (X ∪ ∅)) = keys k l2 ∖ ({[key s]} ∪ X))
    by set_solver.
  rewrite <- (E (keys k l1)), <- reps_length. apply keep_tail_position; [| |done].
  - intros H. apply Hnew. rewrite <- (difference_empty_L (keys k l1)), <- reps_keys.
    apply elem_of_keys. eauto.
  - intros H. apply reps_not_seen in H. set_solver.
Qed.

(** Being the first of its key in a sorted list is opening the bucket. *)
Lemma first_of_key l1 s l2 :
  StronglySorted (fun x y => siTime x <= siTime y) (l1 ++ s :: l2) ->
  NoDup (map siTime (l1 ++ s :: l2)) ->
  key s ∉ keys k l1 <-> opens_bucket (l1 ++ s :: l2) s.
Proof.
  intros Hs Hnd. destruct (sorted_split_times _ _ _ Hs) as [H1 H2]. split.
  - intros Hnew s' [H|[->|H]%elem_of_cons]%elem_of_app Ek; [|lia|by apply H2].
    exfalso. apply Hnew, elem_of_keys. eauto.
  - intros Hopen (z & Hz & Ek)%elem_of_keys.
    assert (siTime s <= siTime z) as Hle by (apply Hopen; [set_solver|done]).
    specialize (H1 z Hz).
    rewrite map_app, map_cons in Hnd. apply NoDup_app in Hnd as (_ & Hd & _).
    apply (Hd (siTime z)); [by apply list_elem_of_fmap_2|].
    replace (siTime z) with (siTime s) by lia. set_solver.
Qed.

Lemma class_keeps_iff snaps n s :
  0 < n -> Forall (fun s => go_range (siTime s)) snaps -> NoDup (map siTime snaps) ->
  s ∈ keep_tail (bucketEarliest (sort_snaps snaps) k) n <->
  s ∈ snaps /\ opens_bucket snaps s /\ Z.of_nat (size (newer_buckets snaps s)) < n.
Proof.
  intros Hn Hr Hnd.
  pose proof (sort_snaps_sorted snaps) as Hs. pose proof (sort_snaps_perm snaps) as Hp.
  assert (newer_buckets (sort_snaps snaps) s = newer_buckets snaps s) as Hnb.
  { apply set_eq. intros x. unfold newer_buckets. rewrite !elem_of_keys.
    setoid_rewrite list_elem_of_filter. by setoid_rewrite Hp. }
  rewrite <- Hp in Hr. rewrite <- Hp in Hnd.
  assert (Hmem : s ∈ snaps <-> s ∈ sort_snaps snaps) by (by rewrite Hp).
  assert (Hob : opens_bucket snaps s <-> opens_bucket (sort_snaps snaps) s).
  { unfold opens_bucket. by setoid_rewrite Hp. }
  rewrite Hmem, Hob, <- Hnb. clear Hnb Hmem Hob Hp.
  generalize dependent (sort_snaps snaps). intros l Hr Hnd Hs. split.
  - intros Hin.
    assert (s ∈ bucketEarliest l k) as Hrep.
    { unfold keep_tail in Hin. apply list_elem_of_lookup in Hin as [i Hi].
      rewrite lookup_drop in Hi. by eapply list_elem_of_lookup_2. }
    apply list_elem_of_split in Hrep as (A & T & HA).
    apply reps_split in HA as (l1 & l2 & -> & _ & H3).
    assert (Hnew : key s ∉ keys k l1).
    { assert (s ∈ bucketEarliest_go k (keys k l1 ∪ ∅) (s :: l2)) as Ht by (rewrite H3; set_solver).
      apply reps_not_seen in Ht. set_solver. }
    split_and!; [set_solver|by apply first_of_key|by apply rep_kept_iff].
  - intros (Hin & Hopen & Hsz). apply list_elem_of_split in Hin as (l1 & l2 & ->).
    apply rep_kept_iff; [done..| |done]. by apply (first_of_key l1 s l2).
Qed.
End Which.

(** C16. What is kept, in terms of the calendar: with distinct times, a
    snapshot is kept exactly when, for some class with a positive count
    [n], it is the earliest of its bucket and fewer than [n] buckets of
    that class hold newer snapshots. *)
Theorem classifyKeep_iff snaps p s
    (Hr : Forall (fun s => go_range (siTime s)) snaps)
    (Ht : NoDup (map siTime snaps)) (Hn : NoDup (map siName snaps)) (Hin : s ∈ snaps) :
  siName s ∈ classifyKeep snaps p <->
  exists k n, (k, n) ∈ classes p /\ 0 < n /\ opens_bucket k snaps s /\
    Z.of_nat (size (newer_buckets k snaps s)) < n.
Proof.
  rewrite elem_of_classifyKeep. split.
  - intros (k & n & s' & Hk & Hpos & Hs' & E).
    apply class_keeps_iff in Hs' as (Hin' & Ho & Hsz); [|by eapply classes_convex|done..].
    assert (s' = s) as ->; [|eauto 6].
    by eapply NoDup_map_inj.
  - intros (k & n & Hk & Hpos & Ho & Hsz). exists k, n, s. split_and!; [done..| |done].
    apply class_keeps_iff; [by eapply classes_convex|done..].
Qed.

Lemma classifyKeep_iff_witness :
  let snaps := [mkSnap #"a" 0; mkSnap #"b" Hour; mkSnap #"c" (2 * Hour); mkSnap #"d" (30 * Day)] in
  siName (mkSnap #"d" (30 * Day)) ∈ classifyKeep snaps (mkPolicy 1 0 0 0 0) <->
  exists k n, (k, n) ∈ classes (mkPolicy 1 0 0 0 0) /\ 0 < n /\
    opens_bucket k snaps (mkSnap #"d" (30 * Day)) /\
    Z.of_nat (size (newer_buckets k snaps (mkSnap #"d" (30 * Day)))) < n.
Proof.
  intros snaps. apply (classifyKeep_iff snaps).
  - repeat constructor; vm_compute; discriminate.
  - apply (bool_decide_eq_true_1 (NoDup (map siTime snaps))). vm_compute. reflexivity.
  - apply (bool_decide_eq_true_1 (NoDup (map siName snaps))). vm_compute. reflexivity.
  - apply (bool_decide_eq_true_1 (mkSnap #"d" (30 * Day) ∈ snaps)). vm_compute. reflexivity.
Defined.

(** * The time in a snapshot name

    FormatSnapTime and ParsedSnapTime are inverse up to the minute in a
    fixed zone, and a name that parses is the one printed for its time. *)

From S2P Require Import Prelude GoStrings GoTime SortLib Cron Retention.
Import Retention.

Lemma append_int_digits x k : 0 <= x < 10 ^ 20 -> all_digits (append_int x k).
Proof.
  intros Hx. unfold append_int. destruct (Z.ltb_spec x 0); [lia|].
  rewrite Z.abs_eq by lia. simpl. apply Forall_app. split.
  - apply Forall_replicate. done.
  - by apply digits_of_spec.
Qed.

Lemma two_digits_append x r : 0 <= x < 100 -> two_digits (append_int x 2 ++ r) = Some (x, r).
Proof.
  intros Hx. pose proof (append_two_length x Hx) as Hl.
  pose proof (append_int_digits x 2) as Hd. pose proof (append_int_val x 2) as Hv.
  destruct (append_int x 2) as [|a [|b [|]]]; try done.
  rewrite !Forall_cons in Hd. destruct Hd as (Ha & Hb & _); [lia|].
  simpl in Hv |- *. rewrite Ha, Hb in *. simpl in *. f_equal. f_equal.
  injection Hv; lia.
Qed.

Lemma four_digits_append x r : 0 <= x < 10000 -> four_digits (append_int x 4 ++ r) = Some (x, r).
Proof.
  intros Hx. assert (Hl : length (append_int x 4) = 4%nat) by (apply append_int_length; simpl; lia).
  pose proof (append_int_digits x 4) as Hd. pose proof (append_int_val x 4) as Hv.
  destruct (append_int x 4) as [|a [|b [|c [|d [|]]]]]; try done.
  rewrite !Forall_cons in Hd. destruct Hd as (Ha & Hb & Hc & Hd & _); [lia|].
  simpl in Hv |- *. rewrite Ha, Hb, Hc, Hd in *. simpl in *. f_equal. f_equal.
  injection Hv; lia.
Qed.

(** The wall-clock fields of an instant rebuild it up to the minute. *)
Lemma fixed_rebuild off t :
  off mod 60 = 0 ->
  let loc := fixed_zone off in
  go_date (time_year loc t) (time_month loc t) (time_day loc t)
          (time_hour loc t) (time_minute loc t) loc = truncate t Minute.
Proof.
  intros Hoff loc. unfold loc at 6. rewrite fixed_go_date.
  destruct (civil_of_day (wall_day loc t)) as (E & _).
  unfold time_year, time_month, time_day. rewrite E.
  unfold time_hour, time_minute, wall_day, loc. rewrite !fixed_wall_sec.
  unfold truncate, Minute, Second. dlia.
Qed.

Lemma parse_fmt_stamp off t :
  off mod 60 = 0 -> 0 <= time_year (fixed_zone off) t <= 9999 ->
  parse_stamp (fmt_stamp (fixed_zone off) t) (fixed_zone off) = Some (truncate t Minute).
Proof.
  intros Hoff Hy. pose proof (fixed_rebuild off t Hoff) as Hd.
  set (loc := fixed_zone off) in *.
  pose proof (time_month_range loc t). pose proof (time_day_range loc t).
  pose proof (time_hour_range loc t). pose proof (time_minute_range loc t).
  unfold fmt_stamp, fmt_hour, fmt_date, fmt_month, fmt_year, parse_stamp.
  rewrite <- !app_assoc.
  rewrite four_digits_append by lia. cbn [mbind option_bind app str String.list_ascii_of_string].
  cbn [skip_dash]. rewrite ch_eqb_refl. cbn [mbind option_bind].
  rewrite two_digits_append by lia. cbn [mbind option_bind].
  cbn [skip_dash]. rewrite ch_eqb_refl. cbn [mbind option_bind].
  rewrite two_digits_append by lia. cbn [mbind option_bind].
  cbn [skip_dash]. rewrite ch_eqb_refl. cbn [mbind option_bind].
  rewrite two_digits_append by lia. cbn [mbind option_bind].
  rewrite <- (app_nil_r (append_int (time_minute loc t) 2)).
  rewrite two_digits_append by lia. cbn [mbind option_bind].
  rewrite Hd. rewrite bool_decide_eq_true_2 by done.
  destruct (civil_of_day (wall_day loc t)) as (_ & _ & Hdm).
  fold (time_year loc t) (time_month loc t) (time_day loc t) in Hdm.
  match goal with |- (if ?b then _ else _) = _ => assert (b = true) as -> end; [|done].
  lia.
Qed.

(** The name a schedule gives a snapshot carries its time: parsing
    it with the same prefix in the same fixed zone gives the instant the
    snapshot was taken, to the minute, for the years of four digits. *)
Theorem ParsedSnapTime_FormatSnapTime prefix off t
    (Hoff : off mod 60 = 0) (Hy : 0 <= time_year (fixed_zone off) t <= 9999) :
  ParsedSnapTime (FormatSnapTime prefix (fixed_zone off) t) prefix (Some (fixed_zone off))
  = Some (truncate t Minute).
Proof.
  unfold ParsedSnapTime, FormatSnapTime. rewrite app_assoc, strip_prefix_app. simpl.
  by apply parse_fmt_stamp.
Qed.

Lemma ParsedSnapTime_FormatSnapTime_witness :
  ParsedSnapTime (FormatSnapTime #"auto" (fixed_zone 7200) 63902840400000000000) #"auto"
    (Some (fixed_zone 7200)) = Some (truncate 63902840400000000000 Minute).
Proof.
  apply ParsedSnapTime_FormatSnapTime; [reflexivity|]. vm_compute. split; discriminate.
Defined.
