(* ===== verification/ZfsNames.v ===== *)
(** * internal/host/zfs/names and internal/host/zfs/snapshot

    Validation of pool, dataset and snapshot names, and the snapshot
    manager built on it: the argument vectors handed to the zfs binary and
    the parsers of its listings.  The binary itself is a parameter of the
    model ([runner]). *)

From S2P Require Import Prelude GoStrings.

Module Names.

Inductive name_err :=
| PoolEmpty | PoolTooLong | PoolReserved | PoolNotLetter | PoolIllegal
| DatasetEmpty | DatasetTooLong | DatasetHasAt | DatasetNoPool
| DatasetBadPool (e : name_err)
| ComponentEmpty | ComponentDash | ComponentIllegal
| SnapNoAt | SnapManyAt | ShortEmpty | ShortDash | ShortIllegal.

Definition maxNameLen : nat := 255.

Definition reservedPoolNames : list gostr :=
  map str ["mirror"; "raidz"; "raidz1"; "raidz2"; "raidz3";
           "draid"; "spare"; "log"; "cache"; "special"]%string.

(** On bytes: every allowed rune is ASCII, and a byte above 127 belongs to
    a rune that is not allowed (or decodes to U+FFFD, which is not). *)
Definition isAlpha (c : ascii) : bool := is_lower c || is_upper c.

Definition isAllowedComponent (c : ascii) : bool :=
  isAlpha c || is_digit c || ch_eqb c "_"%char || ch_eqb c "-"%char
  || ch_eqb c "."%char || ch_eqb c ":"%char.

Definition ValidatePoolName (s : gostr) : res name_err unit :=
  match s with
  | [] => Err PoolEmpty
  | c :: _ =>
      ensure (length s <=? maxNameLen)%nat else PoolTooLong ;;
      ensure negb (existsb (str_eqb s) reservedPoolNames) else PoolReserved ;;
      ensure isAlpha c else PoolNotLetter ;;
      ensure forallb isAllowedComponent s else PoolIllegal ;;
      Ok tt
  end.

(** The checks on one component after the pool. *)
Definition validateComponent (p : gostr) : res name_err unit :=
  ensure negb (str_eqb p []) else ComponentEmpty ;;
  ensure negb (has_prefix p #"-") else ComponentDash ;;
  ensure forallb isAllowedComponent p else ComponentIllegal ;;
  Ok tt.

Fixpoint validateComponents (ps : list gostr) : res name_err unit :=
  match ps with
  | [] => Ok tt
  | p :: ps' => let? _ := validateComponent p in validateComponents ps'
  end.

Definition ValidateDatasetName (s : gostr) : res name_err unit :=
  ensure negb (str_eqb s []) else DatasetEmpty ;;
  ensure (length s <=? maxNameLen)%nat else DatasetTooLong ;;
  ensure negb (contains_byte "@"%char s) else DatasetHasAt ;;
  match split_on "/"%char s with
  | [] => Err DatasetNoPool
  | pool :: rest =>
      ensure negb (str_eqb pool []) else DatasetNoPool ;;
      match ValidatePoolName pool with
      | Err e => Err (DatasetBadPool e)
      | Ok _ => validateComponents rest
      end
  end.

Definition ValidateSnapshotName (s : gostr) : res name_err unit :=
  match cut_at "@"%char s with
  | None | Some ([], _) => Err SnapNoAt
  | Some (ds, short) =>
      ensure (count_byte "@"%char s =? 1)%nat else SnapManyAt ;;
      let? _ := ValidateDatasetName ds in
      ensure negb (str_eqb short []) else ShortEmpty ;;
      ensure negb (has_prefix short #"-") else ShortDash ;;
      ensure forallb isAllowedComponent short else ShortIllegal ;;
      Ok tt
  end.

End Names.

Module Snapshots.
Import Names.

Inductive snap_err :=
| BadName (e : name_err)
| TagEmpty | TagDash | TagIllegal
| RunFailed (msg : gostr)
| BadFieldCount (n : nat) | MissingAt | BadNumber (s : gostr) | LineTooLong.

Record Snapshot := mkSnapshot {
  Name : gostr; Dataset : gostr; ShortName : gostr;
  UsedBytes : Z; ReferencedBytes : Z; CreationUnix : Z }.

Record Hold := mkHold { hSnapshot : gostr; hTag : gostr; hCreationUnix : Z }.

(** ** Argument vectors *)

Definition named {A} (r : res name_err unit) (k : res snap_err A) : res snap_err A :=
  match r with Ok _ => k | Err e => Err (BadName e) end.

Definition buildCreateArgs (dataset short : gostr) (recursive : bool)
  : res snap_err (list gostr) :=
  let full := dataset ++ #"@" ++ short in
  named (ValidateSnapshotName full)
    (Ok ([ #"snapshot"] ++ (if recursive then [ #"-r"] else []) ++ [full])).

Definition tag_char (c : ascii) : bool :=
  is_lower c || is_upper c || is_digit c
  || ch_eqb c "-"%char || ch_eqb c "_"%char || ch_eqb c "."%char.

Definition validateHoldTag (tag : gostr) : res snap_err unit :=
  ensure negb (str_eqb tag []) else TagEmpty ;;
  ensure negb (has_prefix tag #"-") else TagDash ;;
  ensure forallb tag_char tag else TagIllegal ;;
  Ok tt.

Definition buildHoldArgs (snapshot tag : gostr) (recursive : bool) : res snap_err (list gostr) :=
  named (ValidateSnapshotName snapshot)
    (let? _ := validateHoldTag tag in
     Ok ([ #"hold"] ++ (if recursive then [ #"-r"] else []) ++ [tag; snapshot])).

Definition buildReleaseArgs (snapshot tag : gostr) (recursive : bool)
  : res snap_err (list gostr) :=
  named (ValidateSnapshotName snapshot)
    (let? _ := validateHoldTag tag in
     Ok ([ #"release"] ++ (if recursive then [ #"-r"] else []) ++ [tag; snapshot])).

Definition buildHoldsArgs (snapshot : gostr) : res snap_err (list gostr) :=
  named (ValidateSnapshotName snapshot) (Ok [ #"holds"; #"-H"; #"-p"; snapshot]).

(** ** Listings *)

(** bufio.Scanner with ScanLines: split at newlines, drop one trailing
    carriage return per line and the empty line after a final newline;
    a line of 64 KiB or more is an error. *)
Definition drop_cr (l : gostr) : gostr :=
  match rev l with
  | c :: r => if ch_eqb c (byte_of 13) then rev r else l
  | [] => l
  end.

Definition max_token : nat := Z.to_nat 65536.

Definition raw_lines (data : gostr) : list gostr :=
  let ls := split_on (byte_of 10) data in
  match rev ls with
  | [] :: rest => rev rest
  | _ => ls
  end.

(** The lines the loop body sees, up to the first that is too long, and
    whether there was one. *)
Fixpoint scan_lines (ls : list gostr) : list gostr * bool :=
  match ls with
  | [] => ([], false)
  | l :: ls' =>
      if (max_token <=? length l)%nat then ([], true)
      else let '(r, long) := scan_lines ls' in (drop_cr l :: r, long)
  end.

(** strconv.ParseUint(s, 10, 64). *)
Definition parse_uint64 (s : gostr) : option Z :=
  match s with
  | [] => None
  | _ => v ← digits_val 0 s; if v <? 2 ^ 64 then Some v else None
  end.

Definition parseUint (s : gostr) : option Z :=
  if str_eqb s #"-" then Some 0 else parse_uint64 s.

Definition tab : ascii := byte_of 9.

Definition parseRow (line : gostr) : res snap_err Snapshot :=
  match split_on tab line with
  | [f0; f1; f2; f3] =>
      match cut_at "@"%char f0 with
      | None | Some ([], _) => Err MissingAt
      | Some (ds, short) =>
          match parseUint f1, parseUint f2, atoi f3 with
          | None, _, _ => Err (BadNumber f1)
          | _, None, _ => Err (BadNumber f2)
          | _, _, None => Err (BadNumber f3)
          | Some u, Some r, Some c => Ok (mkSnapshot f0 ds short u r c)
          end
      end
  | f => Err (BadFieldCount (length f))
  end.

Fixpoint parseRows (lines : list gostr) (long : bool) : res snap_err (list Snapshot) :=
  match lines with
  | [] => if long then Err LineTooLong else Ok []
  | l :: ls =>
      if str_eqb l [] then parseRows ls long
      else
        let? s := parseRow l in
        let? ss := parseRows ls long in
        Ok (s :: ss)
  end.

Definition parseList (data : gostr) : res snap_err (list Snapshot) :=
  let '(ls, long) := scan_lines (raw_lines data) in parseRows ls long.

Definition parseHoldRow (line : gostr) : res snap_err Hold :=
  match split_on tab line with
  | [f0; f1; f2] =>
      match atoi f2 with
      | None => Err (BadNumber f2)
      | Some ts => Ok (mkHold f0 f1 ts)
      end
  | f => Err (BadFieldCount (length f))
  end.

Fixpoint parseHoldRows (lines : list gostr) (long : bool) : res snap_err (list Hold) :=
  match lines with
  | [] => if long then Err LineTooLong else Ok []
  | l :: ls =>
      if str_eqb l [] then parseHoldRows ls long
      else
        let? h := parseHoldRow l in
        let? hs := parseHoldRows ls long in
        Ok (h :: hs)
  end.

Definition parseHolds (data : gostr) : res snap_err (list Hold) :=
  let '(ls, long) := scan_lines (raw_lines data) in parseHoldRows ls long.

(** ** The manager: every operation validates, then runs the zfs binary *)

Section Manager.
Context {W : Type} (runner : list gostr -> W -> W * res gostr gostr).

Definition run_unit (args : list gostr) (w : W) : W * res snap_err unit :=
  let '(w', r) := runner args w in
  (w', match r with Ok _ => Ok tt | Err m => Err (RunFailed m) end).

Definition with_args (r : res snap_err (list gostr)) (w : W) : W * res snap_err unit :=
  match r with Err e => (w, Err e) | Ok args => run_unit args w end.

Definition List_ (root : gostr) (w : W) : W * res snap_err (list Snapshot) :=
  let args := [ #"list"; #"-H"; #"-p"; #"-t"; #"snapshot"; #"-o";
                #"name,used,referenced,creation"]
              ++ (if str_eqb root [] then [] else [ #"-r"; root]) in
  let '(w', r) := runner args w in
  (w', match r with Ok out => parseList out | Err m => Err (RunFailed m) end).

Definition Create (dataset short : gostr) (recursive : bool) (w : W) : W * res snap_err unit :=
  with_args (buildCreateArgs dataset short recursive) w.

Definition Destroy (name : gostr) (w : W) : W * res snap_err unit :=
  with_args (named (ValidateSnapshotName name) (Ok [ #"destroy"; name])) w.

Definition Rollback (snapshot : gostr) (w : W) : W * res snap_err unit :=
  with_args (named (ValidateSnapshotName snapshot) (Ok [ #"rollback"; #"-r"; snapshot])) w.

Definition Hold_ (snapshot tag : gostr) (recursive : bool) (w : W) : W * res snap_err unit :=
  with_args (buildHoldArgs snapshot tag recursive) w.

Definition Release (snapshot tag : gostr) (recursive : bool) (w : W) : W * res snap_err unit :=
  with_args (buildReleaseArgs snapshot tag recursive) w.

Definition Holds (snapshot : gostr) (w : W) : W * res snap_err (list Hold) :=
  match buildHoldsArgs snapshot with
  | Err e => (w, Err e)
  | Ok args =>
      let '(w', r) := runner args w in
      (w', match r with Ok out => parseHolds out | Err m => Err (RunFailed m) end)
  end.
End Manager.

End Snapshots.
