(* ===== verification/ZfsNamesCorrect.v ===== *)
(** * Correctness of name validation and of the snapshot manager

    The validators accept exactly a grammar; whatever reaches the zfs
    binary from a caller's string is a validated name, so it can be taken
    neither for an option nor for a path outside the pool; listings are
    read back as printed. *)

From S2P Require Import Prelude GoStrings ZfsNames.
Import Names Snapshots.

(** ** The grammar of names *)

Definition allowed (s : gostr) : Prop := Forall (fun c => isAllowedComponent c = true) s.

Definition valid_component (p : gostr) : Prop :=
  allowed p /\ exists c r, p = c :: r /\ c <> "-"%char.

Definition valid_pool (p : gostr) : Prop :=
  allowed p /\ (length p <= 255)%nat /\ p ∉ reservedPoolNames /\
  exists c r, p = c :: r /\ isAlpha c = true.

Definition valid_dataset (s : gostr) : Prop :=
  (length s <= 255)%nat /\
  exists pool rest, s = join_with "/"%char (pool :: rest) /\
    valid_pool pool /\ Forall valid_component rest.

Definition valid_snapshot (s : gostr) : Prop :=
  exists ds short, s = ds ++ #"@" ++ short /\ valid_dataset ds /\ valid_component short.

Lemma allowed_no c s : isAllowedComponent c = false -> allowed s -> c ∉ s.
Proof. intros Hc Hs Hin. unfold allowed in Hs. rewrite Forall_forall in Hs. specialize (Hs c Hin). congruence. Qed.

Lemma forallb_allowed s : forallb isAllowedComponent s = true <-> allowed s.
Proof. unfold allowed. rewrite forallb_forall, Forall_forall. by setoid_rewrite list_elem_of_In. Qed.

Lemma existsb_str s l : existsb (str_eqb s) l = true <-> s ∈ l.
Proof.
  rewrite existsb_exists. setoid_rewrite str_eqb_eq. setoid_rewrite <- list_elem_of_In. naive_solver.
Qed.

Lemma has_dash_prefix c r : has_prefix (c :: r) #"-" = ch_eqb "-"%char c.
Proof. unfold has_prefix; simpl. by destruct (ch_eqb "-"%char c). Qed.

Lemma ValidatePoolName_iff s : ValidatePoolName s = Ok tt <-> valid_pool s.
Proof.
  unfold valid_pool, ValidatePoolName. destruct s as [|c r].
  { split; [done|]. intros (_ & _ & _ & c & r & ? & _). done. }
  destruct (Nat.leb_spec (length (c :: r)) maxNameLen) as [Hl|Hl]; unfold maxNameLen in Hl.
  2: { split; [done|]. intros (_ & ? & _). lia. }
  destruct (existsb (str_eqb (c :: r)) reservedPoolNames) eqn:Er; cbn [negb].
  { apply existsb_str in Er. split; [done|]. intros (_ & _ & ? & _). done. }
  assert (c :: r ∉ reservedPoolNames) as Hr by (rewrite <- existsb_str; congruence).
  destruct (isAlpha c) eqn:Ea.
  2: { split; [done|]. intros (_ & _ & _ & c' & r' & ? & ?). congruence. }
  destruct (forallb isAllowedComponent (c :: r)) eqn:Ef.
  - apply forallb_allowed in Ef. split; [|done]. intros _. split_and!; [done|lia|done|eauto].
  - split; [done|]. intros (Ha & _). apply forallb_allowed in Ha. congruence.
Qed.

Lemma validateComponent_iff p : validateComponent p = Ok tt <-> valid_component p.
Proof.
  unfold validateComponent, valid_component. destruct p as [|c r].
  { split; [done|]. intros (_ & c & r & ? & _). done. }
  rewrite has_dash_prefix. cbn [str_eqb negb].
  replace (str_eqb (c :: r) []) with false by done. simpl negb.
  destruct (ch_eqb "-"%char c) eqn:Ed; simpl negb.
  { apply ch_eqb_eq in Ed as <-. split; [done|]. intros (_ & c' & r' & ? & ?). congruence. }
  apply ch_eqb_neq in Ed.
  destruct (forallb isAllowedComponent (c :: r)) eqn:Ef.
  - apply forallb_allowed in Ef. naive_solver.
  - split; [done|]. intros [Ha _]. apply forallb_allowed in Ha. congruence.
Qed.

Lemma validateComponents_iff ps : validateComponents ps = Ok tt <-> Forall valid_component ps.
Proof.
  induction ps as [|p ps IH]; simpl; [split; [constructor|done]|].
  rewrite Forall_cons, <- IH, <- validateComponent_iff.
  destruct (validateComponent p) as [[]|]; naive_solver.
Qed.

Lemma valid_component_no_sep c p :
  isAllowedComponent c = false -> valid_component p -> c ∉ p.
Proof. intros Hc [Ha _]. by apply allowed_no. Qed.

Lemma valid_dataset_no_at ds : valid_dataset ds -> "@"%char ∉ ds.
Proof.
  intros (_ & pool & rest & -> & (Hp & _) & Hrest).
  assert (Hall : Forall (fun w => "@"%char ∉ w) (pool :: rest)).
  { constructor; [by apply allowed_no|].
    eapply Forall_impl; [done|]. intros x Hx. by apply valid_component_no_sep. }
  clear Hp Hrest. induction Hall as [|w ws Hw Hws IH]; [set_solver|].
  destruct ws; simpl in *; [done|]. set_solver.
Qed.

Lemma ValidateDatasetName_iff s : ValidateDatasetName s = Ok tt <-> valid_dataset s.
Proof.
  unfold ValidateDatasetName.
  destruct (str_eqb s []) eqn:E0; simpl negb.
  { apply str_eqb_eq in E0 as ->. split; [done|].
    intros (_ & [|c pool] & rest & E & (_ & _ & _ & c' & r' & Ec & _) & _); [done|].
    destruct rest; done. }
  destruct (Nat.leb_spec (length s) maxNameLen) as [Hl|Hl]; unfold maxNameLen in Hl.
  2: { split; [done|]. intros [Hl' _]. lia. }
  destruct (contains_byte "@"%char s) eqn:Ea; simpl negb.
  { apply contains_byte_iff in Ea. split; [done|]. intros H%valid_dataset_no_at. done. }
  destruct (split_on_cons "/"%char s) as (pool & rest & Es). rewrite Es.
  assert (Hs : s = join_with "/"%char (pool :: rest)) by (by rewrite <- Es, join_split).
  assert (Hinv : valid_dataset s -> valid_pool pool /\ Forall valid_component rest).
  { intros (_ & pool' & rest' & E & Hp & Hr).
    assert (split_on "/"%char s = pool' :: rest') as Es'.
    { rewrite E. apply split_join; [done|]. constructor; [by apply allowed_no; [|destruct Hp]|].
      eapply Forall_impl; [done|]. intros x Hx. by apply valid_component_no_sep. }
    rewrite Es in Es'. by simplify_eq. }
  destruct (str_eqb pool []) eqn:Ep; simpl negb.
  { apply str_eqb_eq in Ep as ->. split; [done|]. intros H.
    destruct (Hinv H) as [(_ & _ & _ & c & r & ? & _) _]. done. }
  destruct (ValidatePoolName pool) as [[]|e] eqn:Ev.
  - apply ValidatePoolName_iff in Ev. rewrite validateComponents_iff. split.
    + intros Hr. split; [lia|]. eauto 6.
    + intros H. by apply Hinv.
  - split; [done|]. intros H. destruct (Hinv H) as [Hp _].
    apply ValidatePoolName_iff in Hp. congruence.
Qed.

Lemma snapshot_grammar s :
  ValidateSnapshotName s = Ok tt <-> valid_snapshot s.
Proof.
  unfold ValidateSnapshotName, valid_snapshot. split.
  - destruct (cut_at "@"%char s) as [[[|c ds] short]|] eqn:Ec; [done| |done].
    apply cut_at_Some in Ec as [-> Hno].
    destruct (Nat.eqb _ 1); [|done]. destruct (ValidateDatasetName (c :: ds)) as [[]|] eqn:Ed; [|done].
    intros H. exists (c :: ds), short. split_and!; [done|by apply ValidateDatasetName_iff|].
    apply validateComponent_iff. unfold validateComponent.
    destruct (str_eqb short []), (has_prefix short _), (forallb isAllowedComponent short); done.
  - intros (ds & short & -> & Hd & Hsh).
    pose proof (valid_dataset_no_at ds Hd) as Hno.
    assert (Hsno : "@"%char ∉ short) by (by apply valid_component_no_sep).
    assert (cut_at "@"%char (ds ++ #"@" ++ short) = Some (ds, short)) as ->
      by (by apply cut_at_Some).
    destruct ds as [|c ds].
    { apply ValidateDatasetName_iff in Hd. done. }
    assert (count_byte "@"%char ((c :: ds) ++ #"@" ++ short) = 1%nat) as ->.
    { rewrite !count_byte_app. apply count_byte_0 in Hno as ->. by apply count_byte_0 in Hsno as ->. }
    simpl Nat.eqb.
    apply ValidateDatasetName_iff in Hd as ->.
    apply validateComponent_iff in Hsh. unfold validateComponent in Hsh.
    destruct (str_eqb short []), (has_prefix short _), (forallb isAllowedComponent short); done.
Qed.

(** A string passes ValidateSnapshotName exactly when it is a dataset
    name of at most 255 bytes (a pool that starts with a letter and is not
    reserved, then non-empty components that do not start with a dash, all
    over the allowed alphabet), one at sign, and such a component. *)
Theorem ValidateSnapshotName_iff s :
  ValidateSnapshotName s = Ok tt <-> valid_snapshot s.
Proof. apply snapshot_grammar. Qed.

(** ** What reaches the zfs binary *)

(** An argument that cannot be read as an option. *)
Definition not_option (a : gostr) : Prop := exists c r, a = c :: r /\ c <> "-"%char.

Lemma valid_snapshot_not_option s : valid_snapshot s -> not_option s.
Proof.
  intros (ds & short & -> & (_ & pool & rest & -> & (_ & _ & _ & c & r & -> & Hc) & _) & _).
  exists c. destruct rest; simpl; eexists; (split; [done|]); intros ->; discriminate.
Qed.

(** The operations that act on one snapshot. *)
Inductive op :=
| OpCreate (dataset short : gostr) (recursive : bool)
| OpDestroy (name : gostr)
| OpRollback (snapshot : gostr)
| OpHold (snapshot tag : gostr) (recursive : bool)
| OpRelease (snapshot tag : gostr) (recursive : bool)
| OpHolds (snapshot : gostr).

Definition op_target (o : op) : gostr :=
  match o with
  | OpCreate ds short _ => ds ++ #"@" ++ short
  | OpDestroy s | OpRollback s | OpHold s _ _ | OpRelease s _ _ | OpHolds s => s
  end.

(** The state and the success of an operation. *)
Definition exec {W} (runner : list gostr -> W -> W * res gostr gostr) (o : op) (w : W)
  : W * option snap_err :=
  let fin {A} (r : W * res snap_err A) :=
    (r.1, match r.2 with Ok _ => None | Err e => Some e end) in
  match o with
  | OpCreate ds short rc => fin (Create runner ds short rc w)
  | OpDestroy s => fin (Destroy runner s w)
  | OpRollback s => fin (Rollback runner s w)
  | OpHold s t rc => fin (Hold_ runner s t rc w)
  | OpRelease s t rc => fin (Release runner s t rc w)
  | OpHolds s => fin (Holds runner s w)
  end.

Definition verbs : list gostr :=
  map str ["snapshot"; "destroy"; "rollback"; "hold"; "release"; "holds"]%string.
Definition flags : list gostr := map str ["-r"; "-H"; "-p"]%string.

(** An argument vector that means what the caller asked: a verb, fixed
    flags, operands that are not options, the snapshot last. *)
Definition well_formed_argv (target : gostr) (args : list gostr) : Prop :=
  exists verb fs ops,
    args = verb :: fs ++ ops ++ [target] /\
    verb ∈ verbs /\ Forall (.∈ flags) fs /\ Forall not_option ops /\ valid_snapshot target.

Lemma validateHoldTag_not_option t : validateHoldTag t = Ok tt -> not_option t.
Proof.
  unfold validateHoldTag, not_option. destruct t as [|c r]; [done|].
  rewrite has_dash_prefix. replace (str_eqb (c :: r) []) with false by done. simpl negb.
  destruct (ch_eqb "-"%char c) eqn:E; [done|]. apply ch_eqb_neq in E. eauto.
Qed.

Lemma named_cases {A} s (k : res snap_err A) :
  (exists e, named (ValidateSnapshotName s) k = Err (BadName e)) \/
  valid_snapshot s /\ named (ValidateSnapshotName s) k = k.
Proof.
  destruct (ValidateSnapshotName s) as [[]|e] eqn:E; [right|left; by exists e].
  split; [|done]. by apply snapshot_grammar.
Qed.

Lemma argv_intro target verb fs ops :
  valid_snapshot target -> verb ∈ verbs -> Forall (.∈ flags) fs -> Forall not_option ops ->
  well_formed_argv target (verb :: fs ++ ops ++ [target]).
Proof. intros. by exists verb, fs, ops. Qed.

(** The vector an operation builds, or the error that stops it. *)
Definition op_args (o : op) : res snap_err (list gostr) :=
  match o with
  | OpCreate ds short rc => buildCreateArgs ds short rc
  | OpDestroy s => named (ValidateSnapshotName s) (Ok [ #"destroy"; s])
  | OpRollback s => named (ValidateSnapshotName s) (Ok [ #"rollback"; #"-r"; s])
  | OpHold s t rc => buildHoldArgs s t rc
  | OpRelease s t rc => buildReleaseArgs s t rc
  | OpHolds s => buildHoldsArgs s
  end.

Lemma r_flags (rc : bool) : Forall (.∈ flags) (if rc then [ #"-r"] else []).
Proof. destruct rc; [|constructor]. constructor; [|constructor]. by_dec. Qed.

Lemma op_args_safe o args : op_args o = Ok args -> well_formed_argv (op_target o) args.
Proof.
  assert (Htag : forall verb s t (rc : bool),
    verb ∈ verbs -> valid_snapshot s -> validateHoldTag t = Ok tt ->
    well_formed_argv s ([verb] ++ (if rc then [ #"-r"] else []) ++ [t; s])).
  { intros verb s t rc Hv Hs Ht.
    apply (argv_intro s verb _ [t]); [done|done|apply r_flags|].
    constructor; [by apply validateHoldTag_not_option|constructor]. }
  destruct o as [ds short rc|s|s|s t rc|s t rc|s]; simpl;
    unfold buildCreateArgs, buildHoldArgs, buildReleaseArgs, buildHoldsArgs;
    (match goal with |- context [named (ValidateSnapshotName ?s) ?k] =>
       destruct (named_cases s k) as [[e ->]|[Hv ->]] end; [done|]).
  - intros [= <-]. apply (argv_intro _ _ _ []); [done|by_dec|apply r_flags|constructor].
  - intros [= <-]. apply (argv_intro _ _ [] []); [done|by_dec|constructor|constructor].
  - intros [= <-]. apply (argv_intro _ _ [_] []); [done|by_dec| |constructor].
    constructor; [by_dec|constructor].
  - destruct (validateHoldTag t) as [[]|] eqn:Et; [|done]. intros [= <-].
    apply Htag; [by_dec|done|done].
  - destruct (validateHoldTag t) as [[]|] eqn:Et; [|done]. intros [= <-].
    apply Htag; [by_dec|done|done].
  - intros [= <-]. apply (argv_intro _ _ [_; _] []); [done|by_dec| |constructor].
    repeat (constructor; [by_dec|]). constructor.
Qed.

(** Whatever strings a caller passes, an operation of the snapshot
    manager either returns an error without running anything, or runs the
    zfs binary exactly once, with a fixed verb, fixed flags and operands
    none of which can be read as an option, the last of them the snapshot
    asked for, which is a valid snapshot name. *)
Theorem snapshot_ops_safe {W} (runner : list gostr -> W -> W * res gostr gostr) o w :
  (exists e, exec runner o w = (w, Some e)) \/
  (exists args, well_formed_argv (op_target o) args /\
     (exec runner o w).1 = (runner args w).1 /\
     ((runner args w).2 = Ok [] -> (exec runner o w).2 = None)).
Proof.
  pose proof (op_args_safe o) as Hsafe.
  destruct (op_args o) as [args|e] eqn:Ea.
  - right. exists args. split; [by apply Hsafe|].
    destruct o; cbn [op_args] in Ea; cbn [exec];
      unfold Create, Destroy, Rollback, Hold_, Release, Holds, with_args, run_unit;
      rewrite Ea; destruct (runner args w) as [w' r]; simpl; (split; [done|by intros ->]).
  - left. exists e.
    destruct o; cbn [op_args] in Ea; cbn [exec];
      unfold Create, Destroy, Rollback, Hold_, Release, Holds, with_args, run_unit;
      by rewrite Ea.
Qed.

(** ** Listings are read back as printed *)

(** The row `zfs list -H -p` prints for a snapshot, with its newline. *)
Definition print_row (s : Snapshot) : gostr :=
  join_with tab [Name s; print_uint (UsedBytes s); print_uint (ReferencedBytes s);
                 print_uint (CreationUnix s)].

Definition print_list (l : list Snapshot) : gostr :=
  concat (map (fun s => print_row s ++ [byte_of 10]) l).

Record printable (s : Snapshot) : Prop := {
  pr_name : Name s = Dataset s ++ #"@" ++ ShortName s;
  pr_valid : valid_snapshot (Name s);
  pr_dataset : valid_dataset (Dataset s);
  pr_len : Z.of_nat (length (Name s)) <= 65000;
  pr_used : 0 <= UsedBytes s < 2 ^ 64;
  pr_ref : 0 <= ReferencedBytes s < 2 ^ 64;
  pr_creation : 0 <= CreationUnix s <= MaxInt64 }.

Lemma valid_snapshot_no c s :
  isAllowedComponent c = false -> c <> "/"%char -> c <> "@"%char -> valid_snapshot s -> c ∉ s.
Proof.
  intros Hc H1 H2 (ds & short & -> & (_ & pool & rest & -> & (Hp & _) & Hr) & Hs).
  apply not_elem_of_app. split.
  - assert (Forall (fun w => c ∉ w) (pool :: rest)) as Hall.
    { constructor; [by apply allowed_no|]. eapply Forall_impl; [done|].
      intros x Hx. by apply valid_component_no_sep. }
    clear Hp Hr. induction Hall as [|w ws Hw Hws IH]; [set_solver|].
    destruct ws; simpl in *; [done|]. set_solver.
  - pose proof (valid_component_no_sep c short Hc Hs). set_solver.
Qed.

Lemma print_row_split s : printable s ->
  split_on tab (print_row s) =
  [Name s; print_uint (UsedBytes s); print_uint (ReferencedBytes s); print_uint (CreationUnix s)].
Proof.
  intros Hs. apply split_join; [done|].
  constructor; [by apply valid_snapshot_no; [..|apply Hs]|].
  repeat constructor; (apply digits_no; [done|apply print_uint_digits]).
Qed.

Lemma parseUint_print n : 0 <= n < 2 ^ 64 -> parseUint (print_uint n) = Some n.
Proof.
  intros Hn. pose proof (print_uint_digits n) as Hd.
  pose proof (print_uint_val n ltac:(lia)) as Hv.
  pose proof (print_uint_nonempty n ltac:(lia)) as Hne.
  unfold parseUint. destruct (str_eqb (print_uint n) #"-") eqn:E.
  { apply str_eqb_eq in E. rewrite E in Hd. apply Forall_cons in Hd as [Hd _]. discriminate. }
  unfold parse_uint64. destruct (print_uint n); [done|]. rewrite Hv. simpl.
  by replace (n <? 2 ^ 64) with true by lia.
Qed.

Lemma parseRow_print s : printable s -> parseRow (print_row s) = Ok s.
Proof.
  intros Hs. unfold parseRow. rewrite print_row_split by done.
  assert (cut_at "@"%char (Name s) = Some (Dataset s, ShortName s)) as ->.
  { apply cut_at_Some. split; [by rewrite (pr_name s Hs)|]. apply valid_dataset_no_at, Hs. }
  rewrite !parseUint_print, print_uint_atoi by apply Hs.
  destruct (Dataset s) eqn:E; [|by rewrite <- E; destruct s].
  pose proof (pr_dataset s Hs) as Hd. rewrite E in Hd. by apply ValidateDatasetName_iff in Hd.
Qed.

Lemma print_row_line s : printable s ->
  byte_of 10 ∉ print_row s /\ (length (print_row s) < max_token)%nat /\
  drop_cr (print_row s) = print_row s /\ print_row s <> [].
Proof.
  intros Hs. unfold print_row; cbn [join_with].
  pose proof (print_uint_digits (UsedBytes s)) as D1.
  pose proof (print_uint_digits (ReferencedBytes s)) as D2.
  pose proof (print_uint_digits (CreationUnix s)) as D3.
  split_and!.
  - assert (Hn : byte_of 10 ∉ Name s) by (by apply valid_snapshot_no; [..|apply Hs]).
    assert (forall n, byte_of 10 ∉ print_uint n) as Hp.
    { intros n. apply digits_no; [done|apply print_uint_digits]. }
    rewrite !not_elem_of_app, !not_elem_of_cons, !not_elem_of_app, !not_elem_of_cons,
      !not_elem_of_app, !not_elem_of_cons. by split_and!.
  - repeat (rewrite length_app; simpl length).
    pose proof (pr_len s Hs). pose proof (print_uint_length (UsedBytes s)).
    pose proof (print_uint_length (ReferencedBytes s)).
    pose proof (print_uint_length (CreationUnix s)). unfold max_token. lia.
  - pose proof (print_uint_nonempty (CreationUnix s) ltac:(apply Hs)) as Hne.
    destruct (exists_last Hne) as (l & c & El). rewrite El in D3 |- *.
    apply Forall_app in D3 as [_ D3]. apply Forall_cons in D3 as [Hc _].
    unfold drop_cr. rewrite !app_comm_cons, !app_assoc, rev_app_distr. simpl.
    destruct (ch_eqb c (byte_of 13)) eqn:Ec; [|done]. apply ch_eqb_eq in Ec as ->. discriminate.
  - destruct (Name s); done.
Qed.

Lemma raw_lines_print l : Forall printable l -> raw_lines (print_list l) = map print_row l.
Proof.
  intros Hl. unfold raw_lines, print_list.
  assert (split_on (byte_of 10) (concat (map (fun s => print_row s ++ [byte_of 10]) l))
          = map print_row l ++ [[]]) as ->.
  { induction Hl as [|s l Hs Hl IH]; [done|]. simpl. rewrite <- app_assoc. simpl.
    rewrite split_on_app by (by apply print_row_line). by rewrite IH. }
  rewrite rev_app_distr. simpl. apply rev_involutive.
Qed.

Lemma scan_lines_print l : Forall printable l ->
  scan_lines (map print_row l) = (map print_row l, false).
Proof.
  induction 1 as [|s l Hs Hl IH]; [done|]. cbn [map scan_lines].
  destruct (print_row_line s Hs) as (_ & Hlen & Hcr & _).
  apply Nat.leb_gt in Hlen as ->. by rewrite IH, Hcr.
Qed.

Lemma parseRows_print l : Forall printable l -> parseRows (map print_row l) false = Ok l.
Proof.
  induction 1 as [|s l Hs Hl IH]; [done|]. cbn [map parseRows].
  destruct (print_row_line s Hs) as (_ & _ & _ & Hne).
  apply str_eqb_neq in Hne as ->. by rewrite parseRow_print, IH.
Qed.

(** parseList reads back, in order, every listing of snapshots with
    valid names and 64-bit counters that zfs list -H -p can print. *)
Theorem parseList_print (l : list Snapshot) :
  Forall printable l -> parseList (print_list l) = Ok l.
Proof.
  intros Hl. unfold parseList. rewrite raw_lines_print, scan_lines_print by done.
  by apply parseRows_print.
Qed.

Definition sample_snapshot : Snapshot :=
  mkSnapshot #"tank/data@nightly-1" #"tank/data" #"nightly-1" 18446744073709551615 0 1700000000.

Lemma parseList_print_witness :
  parseList (print_list [sample_snapshot]) = Ok [sample_snapshot].
Proof.
  apply parseList_print. constructor; [|constructor].
  assert (valid_dataset #"tank/data") as Hd
    by (apply ValidateDatasetName_iff; vm_compute; reflexivity).
  split; [reflexivity| |exact Hd|cbn; lia|cbn; lia|cbn; lia|vm_compute; split; discriminate].
  apply snapshot_grammar. vm_compute. reflexivity.
Defined.
