(* ===== verification/Scheduler.v ===== *)
(** * internal/host/scheduler/manager.go: the snapshot and replication scheduler

    One tick lists the enabled schedules, fires those that are due, marks
    them, and prunes.  The database, the snapshot manager and the pipe
    that ships a stream to a remote are the interface [Host]; the clock is
    an argument of the tick. *)

From S2P Require Import Prelude GoStrings GoTime Cron Retention ZfsNames Effects.
Import Cron Retention.

Module Scheduler.

(** The message of an error the host returned. *)
Abbreviation error := gostr.

Abbreviation uuid := gostr.

Record SnapshotSchedule := mkSnapshotSchedule {
  ssID : uuid; ssDataset : gostr; ssCron : gostr; ssRecursive : bool; ssPrefix : gostr;
  RetentionHourly : Z; RetentionDaily : Z; RetentionWeekly : Z; RetentionMonthly : Z;
  RetentionYearly : Z; ssLastFiredAt : option Instant }.

Record ReplicationSchedule := mkReplicationSchedule {
  rsID : uuid; SrcDataset : gostr; TargetID : uuid; rsCron : gostr; rsPrefix : gostr;
  rsLastFiredAt : option Instant; LastSyncSnapshot : option gostr }.

Record ReplicationTarget := mkTarget {
  tID : uuid; tHost : gostr; tPort : Z; SshUser : gostr; SshKeyPath : gostr;
  DatasetPrefix : gostr }.

Record SendOpts := mkSendOpts {
  soRecursive : bool; IncrementalFrom : gostr; Raw : bool; Compressed : bool;
  LargeBlock : bool; EmbeddedData : bool }.

(** What fireReplication can fail with; [Pipe] is the receive or the send
    error, passed on as it is. *)
Inductive fire_err :=
| GetTarget (e : error)
| CreateSnapshot (full : gostr) (e : error)
| VerifyLast (e : fire_err)
| NotSnapshotName (name : gostr)
| ListSnapshots (e : error)
| NoTransport
| Pipe (e : error)
| MarkResult (e : error).

(** The interfaces SnapshotsAPI, QueriesAPI and the pipe that joins
    Datasets.Send to Transport.Receive, whose two errors come back once
    both sides are done. *)
Class Host (W : Type) := {
  Snapshots_Create : gostr -> gostr -> bool -> W -> W * option error;
  Snapshots_Destroy : gostr -> W -> W * option error;
  Snapshots_List : gostr -> W -> W * res error (list Snapshots.Snapshot);
  ListEnabledSnapshotSchedules : W -> W * res error (list SnapshotSchedule);
  ListEnabledReplicationSchedules : W -> W * res error (list ReplicationSchedule);
  GetReplicationTarget : uuid -> W -> W * res error ReplicationTarget;
  MarkSnapshotScheduleFired : uuid -> Instant -> W -> W * option error;
  MarkReplicationScheduleFired : uuid -> Instant -> W -> W * option error;
  MarkReplicationScheduleResult :
    uuid -> option gostr -> option fire_err -> W -> W * option error;
  Send_Receive : gostr -> SendOpts -> ReplicationTarget -> gostr ->
                 W -> W * (option error * option error) }.

(** The fields of the Manager the passes read: the zone, and whether a
    transport is configured. *)
Record Manager := mkManager { Loc : Location; has_transport : bool }.

Section Passes.
Context {W : Type} `{!Host W} (m : Manager).

(** ** Snapshots *)

Definition fireSnapshot (s : SnapshotSchedule) (now : Instant) : M W (option error) :=
  let short := FormatSnapTime (ssPrefix s) (Loc m) now in
  call (Snapshots_Create (ssDataset s) short (ssRecursive s)).

Definition policy_of (s : SnapshotSchedule) : RetentionPolicy :=
  mkPolicy (RetentionHourly s) (RetentionDaily s) (RetentionWeekly s) (RetentionMonthly s)
           (RetentionYearly s).

Definition policy_empty (p : RetentionPolicy) : bool :=
  (Hourly p =? 0) && (Daily p =? 0) && (Weekly p =? 0) && (Monthly p =? 0) && (Yearly p =? 0).

(** The loop that collects the snapshots a schedule manages. *)
Definition managed_of (s : SnapshotSchedule) (sn : Snapshots.Snapshot) : option SnapInfo :=
  if negb (str_eqb (Snapshots.Dataset sn) (ssDataset s)) then None
  else if negb (has_prefix (Snapshots.ShortName sn) (ssPrefix s ++ #"-")) then None
  else
    t ← ParsedSnapTime (Snapshots.ShortName sn) (ssPrefix s) (Some (Loc m));
    Some (mkSnap (Snapshots.Name sn) t).

Definition managed (s : SnapshotSchedule) (all : list Snapshots.Snapshot) : list SnapInfo :=
  omap (managed_of s) all.

(** A failed destroy is logged and the loop goes on. *)
Definition destroy_one (d : SnapInfo) : M W unit :=
  let! _ := call (Snapshots_Destroy (siName d)) in ret tt.

Definition pruneSnapshots (s : SnapshotSchedule) : M W (option error) :=
  let! all := call (Snapshots_List (ssDataset s)) in
  match all with
  | Err e => ret (Some e)
  | Ok all =>
      let policy := policy_of s in
      if policy_empty policy then ret None
      else
        let '(_, drop) := PartitionRetention (managed s all) policy in
        let! _ := each destroy_one drop in
        ret None
  end.

Definition prev_of (last : option Instant) : Instant :=
  match last with Some t => t | None => zero_time end.

Definition runSnapshotSchedule (now : Instant) (s : SnapshotSchedule) : M W unit :=
  match ParseCron (ssCron s) with
  | Err _ => ret tt
  | Ok expr =>
      let! due := lift (ShouldFireBetween expr (prev_of (ssLastFiredAt s)) now (Some (Loc m))) in
      let! _ :=
        if due : bool then
          let! _ := fireSnapshot s now in
          let! _ := call (MarkSnapshotScheduleFired (ssID s) now) in
          ret tt
        else ret tt in
      let! _ := pruneSnapshots s in
      ret tt
  end.

Definition runSnapshotSchedules (now : Instant) : M W (option error) :=
  let! r := call ListEnabledSnapshotSchedules in
  match r with
  | Err e => ret (Some e)
  | Ok scheds =>
      let! _ := each (runSnapshotSchedule now) scheds in
      ret None
  end.

(** ** Replication *)

Definition snapshotExists (name : gostr) : M W (res fire_err bool) :=
  match cut_at "@"%char name with
  | None => ret (Err (NotSnapshotName name))
  | Some (ds, _) =>
      let! r := call (Snapshots_List ds) in
      match r with
      | Err e => ret (Err (ListSnapshots e))
      | Ok all => ret (Ok (existsb (fun s => str_eqb (Snapshots.Name s) name) all))
      end
  end.

Definition remoteDataset (prefix src : gostr) : gostr :=
  let base := match cut_last "/"%char src with Some (_, b) => b | None => src end in
  trim_right_byte "/"%char prefix ++ #"/" ++ base.

(** The snapshot an incremental send starts from, the empty string for a
    full send. *)
Definition incremental_base (last : option gostr) : M W (res fire_err gostr) :=
  match last with
  | None => ret (Ok [])
  | Some l =>
      if str_eqb l [] then ret (Ok [])
      else
        let! r := snapshotExists l in
        match r with
        | Err e => ret (Err (VerifyLast e))
        | Ok exists_ => ret (Ok (if exists_ : bool then l else []))
        end
  end.

Definition ship (s : ReplicationSchedule) (target : ReplicationTarget) (full base : gostr)
  : M W (option fire_err) :=
  let sendOpts := mkSendOpts false base false true true false in
  let dst := remoteDataset (DatasetPrefix target) (SrcDataset s) in
  if negb (has_transport m) then ret (Some NoTransport)
  else
    let! errs := call (Send_Receive full sendOpts target dst) in
    match errs with
    | (_, Some recvErr) => ret (Some (Pipe recvErr))
    | (Some sendErr, None) => ret (Some (Pipe sendErr))
    | (None, None) =>
        let! e := call (MarkReplicationScheduleResult (rsID s) (Some full) None) in
        ret (match e with Some e => Some (MarkResult e) | None => None end)
    end.

Definition fireReplication (s : ReplicationSchedule) (now : Instant) : M W (option fire_err) :=
  let! r := call (GetReplicationTarget (TargetID s)) in
  match r with
  | Err e => ret (Some (GetTarget e))
  | Ok target =>
      let short := FormatSnapTime (rsPrefix s) (Loc m) now in
      let full := SrcDataset s ++ #"@" ++ short in
      let! ce := call (Snapshots_Create (SrcDataset s) short false) in
      match ce with
      | Some e => ret (Some (CreateSnapshot full e))
      | None =>
          let! b := incremental_base (LastSyncSnapshot s) in
          match b with
          | Err e => ret (Some e)
          | Ok base => ship s target full base
          end
      end
  end.

Definition runReplicationSchedule (now : Instant) (s : ReplicationSchedule) : M W unit :=
  match ParseCron (rsCron s) with
  | Err _ => ret tt
  | Ok expr =>
      let! due := lift (ShouldFireBetween expr (prev_of (rsLastFiredAt s)) now (Some (Loc m))) in
      if negb due then ret tt
      else
        let! err := fireReplication s now in
        let! _ :=
          match err with
          | Some e =>
              let! _ := call (MarkReplicationScheduleResult (rsID s) (LastSyncSnapshot s) (Some e)) in
              ret tt
          | None => ret tt
          end in
        let! _ := call (MarkReplicationScheduleFired (rsID s) now) in
        ret tt
  end.

Definition runReplicationSchedules (now : Instant) : M W (option error) :=
  let! r := call ListEnabledReplicationSchedules in
  match r with
  | Err e => ret (Some e)
  | Ok scheds =>
      let! _ := each (runReplicationSchedule now) scheds in
      ret None
  end.

(** One pass; the errors of the two halves are logged. *)
Definition tick (now : Instant) : M W unit :=
  let! _ := runSnapshotSchedules now in
  let! _ := runReplicationSchedules now in
  ret tt.
End Passes.

End Scheduler.
