(* ===== verification/SchedulerPrune.v ===== *)
(** * Pruning: what a schedule's retention does to the snapshots on the host

    Proved against an interface: what the snapshot manager promises about
    listing and destroying. *)

From S2P Require Import Prelude GoStrings GoTime SortLib Cron Retention.
From S2P Require Import RetentionCorrect ZfsNames Effects Scheduler.
Import Cron Retention Scheduler.

Abbreviation Snapshot := Snapshots.Snapshot.

(** [zfs list -r root]: the dataset and its descendants. *)
Definition in_tree (root d : gostr) : bool := str_eqb d root || has_prefix d (root ++ #"/").

(** What the snapshot manager promises: a listing changes nothing and
    shows the snapshots of the tree, in order; a destroy that reports
    success removes the named snapshot, one that fails removes nothing. *)
Class SnapshotStore (W : Type) `{!Host W} := {
  snaps : W -> list Snapshot;
  list_state : forall root w, snaps (Snapshots_List root w).1 = snaps w;
  list_result : forall root w l, (Snapshots_List root w).2 = Ok l ->
    l = filter (fun s => in_tree root (Snapshots.Dataset s) = true) (snaps w);
  destroy_state : forall n w,
    snaps (Snapshots_Destroy n w).1 =
    match (Snapshots_Destroy n w).2 with
    | None => filter (fun s => Snapshots.Name s <> n) (snaps w)
    | Some _ => snaps w
    end }.

(** ** Times read from names are in Go's range *)

(** Offsets of at most a day, as every real zone has. *)
Definition sane_zone (loc : Location) : Prop :=
  Forall (fun off => Z.abs off <= 86400) (zone0 loc :: map snd (zone_tx loc)).

Lemma zone_offset_sane loc sec : sane_zone loc -> Z.abs (zone_offset loc sec) <= 86400.
Proof.
  unfold sane_zone, zone_offset, zone_lookup. rewrite Forall_cons. intros [H0 Htx].
  revert H0. generalize (zone0 loc), (@None Z). induction (zone_tx loc) as [|[x o] tx IH];
    intros off start H0; simpl; [done|].
  apply Forall_cons in Htx as [Ho Htx]. destruct (sec <? x); [done|]. by apply IH.
Qed.

Lemma go_date_range y mo d h mi loc : sane_zone loc ->
  0 <= y <= 9999 -> 1 <= mo <= 12 -> 1 <= d <= 31 -> 0 <= h < 24 -> 0 <= mi < 60 ->
  go_range (go_date y mo d h mi loc).
Proof.
  intros Hz Hy Hmo Hd Hh Hmi.
  assert (exists off, Z.abs off <= 86400 /\
    go_date y mo d h mi loc = (day_of_civil y mo d * 86400 + h * 3600 + mi * 60 - off) * Second)
    as (off & Hoff & ->).
  { unfold go_date. pose proof (zone_offset_sane loc (day_of_civil y mo d * 86400 + h * 3600 + mi * 60) Hz) as H1.
    unfold zone_offset in H1.
    destruct (zone_lookup loc _) as [[off start] fin]; simpl in H1.
    destruct (off =? 0); [exists 0; split; [lia|done]|].
    destruct (_ || _); [|by exists off]. eexists; split; [|done]. by apply zone_offset_sane. }
  assert (0 <= days_before_month (is_leap y) mo <= 366).
  { unfold days_before_month. destruct (is_leap y); repeat case_match; lia. }
  assert (- 366 <= day_of_civil y mo d <= 4000000) by (unfold day_of_civil, days_before_year; dlia).
  unfold go_range, Second. change (2 ^ 63) with 9223372036854775808. lia.
Qed.

Lemma digit_val_range c : is_digit c = true -> 0 <= digit_val c <= 9.
Proof. unfold is_digit, digit_val. lia. Qed.

Lemma two_digits_range s v r : two_digits s = Some (v, r) -> 0 <= v <= 99.
Proof.
  unfold two_digits. destruct s as [|a [|b s]]; [done..|].
  destruct (is_digit a) eqn:Ea, (is_digit b) eqn:Eb; try done. simpl. intros [= <- _].
  apply digit_val_range in Ea, Eb. lia.
Qed.

Lemma four_digits_range s v r : four_digits s = Some (v, r) -> 0 <= v <= 9999.
Proof.
  unfold four_digits. destruct s as [|a [|b [|c [|d s]]]]; [done..|].
  destruct (is_digit a) eqn:Ea, (is_digit b) eqn:Eb, (is_digit c) eqn:Ec, (is_digit d) eqn:Ed;
    try done. simpl. intros [= <- _].
  apply digit_val_range in Ea, Eb, Ec, Ed. lia.
Qed.

Lemma parse_stamp_range s loc t : sane_zone loc -> parse_stamp s loc = Some t -> go_range t.
Proof.
  intros Hz. unfold parse_stamp. intros H.
  apply bind_Some in H as ([y s1] & Hy & H). apply bind_Some in H as (s2 & _ & H).
  apply bind_Some in H as ([mo s3] & Hmo & H). apply bind_Some in H as (s4 & _ & H).
  apply bind_Some in H as ([d s5] & Hd & H). apply bind_Some in H as (s6 & _ & H).
  apply bind_Some in H as ([h s7] & Hh & H). apply bind_Some in H as ([mi s8] & Hmi & H).
  apply four_digits_range in Hy. apply two_digits_range in Hmo, Hd, Hh, Hmi.
  destruct (_ && _) eqn:E in H; [|done]. injection H as <-.
  assert (days_in_month y mo <= 31).
  { assert (1 <= mo <= 12) by lia. unfold days_in_month, days_before_month.
    destruct (is_leap y); repeat case_match; lia. }
  apply go_date_range; [done|lia..].
Qed.

Section Prune.
Context {W : Type} `{SnapshotStore W} (m : Manager).

(** A schedule manages a snapshot: of its dataset, with its prefix and a
    time stamp. *)
Definition manages (s : SnapshotSchedule) (sn : Snapshot) : Prop :=
  Snapshots.Dataset sn = ssDataset s /\
  exists t, ParsedSnapTime (Snapshots.ShortName sn) (ssPrefix s) (Some (Loc m)) = Some t.

Lemma managed_of_Some s sn i :
  managed_of m s sn = Some i <->
  Snapshots.Dataset sn = ssDataset s /\ siName i = Snapshots.Name sn /\
  ParsedSnapTime (Snapshots.ShortName sn) (ssPrefix s) (Some (Loc m)) = Some (siTime i).
Proof.
  unfold managed_of. destruct (str_eqb _ _) eqn:E; simpl negb; cbv iota.
  2: { apply str_eqb_neq in E. naive_solver. }
  apply str_eqb_eq in E. unfold ParsedSnapTime, has_prefix.
  destruct (strip_prefix _ _) as [suffix|]; simpl; [|naive_solver].
  destruct (parse_stamp suffix (Loc m)) as [t|]; simpl; [|naive_solver].
  destruct i as [n t']; simpl. naive_solver.
Qed.

Lemma managed_of_manages s sn : manages s sn <-> exists i, managed_of m s sn = Some i.
Proof.
  split.
  - intros (H1 & t & H2). exists (mkSnap (Snapshots.Name sn) t). by apply managed_of_Some.
  - intros (i & (? & _ & ?)%managed_of_Some). split; eauto.
Qed.

#[global] Instance manages_dec s sn : Decision (manages s sn).
Proof.
  destruct (managed_of m s sn) as [i|] eqn:E; [left|right].
  - apply managed_of_manages. eauto.
  - intros [i Hi]%managed_of_manages. congruence.
Defined.

(** The snapshots of the dataset are all in the listing. *)
Lemma managed_listed s (l : list Snapshot) :
  managed m s (filter (fun sn => in_tree (ssDataset s) (Snapshots.Dataset sn) = true) l)
  = managed m s l.
Proof.
  induction l as [|sn l IH]; [done|]. rewrite filter_cons. case_decide as Ht; simpl; [by rewrite IH|].
  destruct (managed_of m s sn) as [i|] eqn:E; [|done].
  apply managed_of_Some in E as [E _]. exfalso. apply Ht. unfold in_tree. by rewrite E, str_eqb_refl.
Qed.

(** What the policy keeps of the snapshots on the host, by name. *)
Definition kept_names (s : SnapshotSchedule) (w : W) : gset gostr :=
  classifyKeep (managed m s (snaps w)) (policy_of s).

(** Counts that mean something: none is negative, and one is positive. *)
Definition retains (p : RetentionPolicy) : Prop :=
  let counts := [Hourly p; Daily p; Weekly p; Monthly p; Yearly p] in
  Forall (fun n => 0 <= n) counts /\ Exists (fun n => 0 < n) counts.

(** A snapshot that retention removes. *)
Definition expired (s : SnapshotSchedule) (w : W) (sn : Snapshot) : Prop :=
  policy_empty (policy_of s) = false /\ manages s sn /\ Snapshots.Name sn ∉ kept_names s w.

(** Destroying a list of names: what is left is between all of the
    others and everything there was, and exactly the others when no
    destroy fails. *)
Lemma each_destroy_left (drop : list SnapInfo) w :
  let w' := (each destroy_one drop w).1 in
  (each destroy_one drop w).2 = Some tt /\
  (forall sn, sn ∈ snaps w' -> sn ∈ snaps w) /\
  (forall sn, sn ∈ snaps w -> Snapshots.Name sn ∉ map siName drop -> sn ∈ snaps w') /\
  ((forall n w, (Snapshots_Destroy n w).2 = None) ->
   snaps w' = filter (fun sn => Snapshots.Name sn ∉ map siName drop) (snaps w)).
Proof.
  revert w; induction drop as [|d drop IH]; intros w; simpl.
  { split_and!; [done|done|done|]. intros _. symmetry. induction (snaps w) as [|x l IHl]; [done|].
    rewrite filter_cons. case_decide as Hx; [by rewrite IHl|]. set_solver. }
  unfold destroy_one at 1 3 5 7, bind, call.
  pose proof (destroy_state (siName d) w) as Hd.
  destruct (Snapshots_Destroy (siName d) w) as [w1 r] eqn:Ed. simpl in Hd |- *.
  destruct (IH w1) as (H1 & H2 & H3 & H4). split_and!.
  - done.
  - intros sn Hsn. apply H2 in Hsn. rewrite Hd in Hsn. destruct r; [done|].
    by apply list_elem_of_filter in Hsn as [_ ?].
  - intros sn Hsn Hn. apply H3; [|set_solver]. rewrite Hd. destruct r; [done|].
    apply list_elem_of_filter. set_solver.
  - intros Hrel. specialize (Hrel (siName d) w) as Hr. rewrite Ed in Hr. simpl in Hr. subst r.
    rewrite (H4 Hrel), Hd, list_filter_filter. apply list_filter_iff. set_solver.
Qed.

Lemma list_run root w :
  call (Snapshots_List root) w = ((Snapshots_List root w).1, Some (Snapshots_List root w).2).
Proof. unfold call. by destruct (Snapshots_List root w). Qed.

(** The run of a prune: it returns; unless the listing succeeds and the
    policy is not empty it changes nothing, and then it destroys the list
    that PartitionRetention drops. *)
Lemma prune_run s w :
  let w1 := (Snapshots_List (ssDataset s) w).1 in
  let drop := (PartitionRetention (managed m s (snaps w)) (policy_of s)).2 in
  pruneSnapshots m s w =
  match (Snapshots_List (ssDataset s) w).2 with
  | Err e => (w1, Some (Some e))
  | Ok _ => if policy_empty (policy_of s) then (w1, Some None)
            else ((each destroy_one drop w1).1, Some None)
  end.
Proof.
  intros w1 drop. unfold pruneSnapshots, bind. rewrite list_run. fold w1.
  destruct ((Snapshots_List (ssDataset s) w).2) as [all|e] eqn:El; [|done].
  apply list_result in El as ->. rewrite managed_listed.
  destruct (policy_empty _); [done|].
  destruct (PartitionRetention _ _) as [keep drop'] eqn:Ep. unfold drop.
  pose proof (each_destroy_left drop' w1) as [H1 _].
  simpl. destruct (each destroy_one drop' w1) as [w2 r]. simpl in H1. by subst r.
Qed.

Lemma drop_expired s w i :
  policy_empty (policy_of s) = false ->
  i ∈ (PartitionRetention (managed m s (snaps w)) (policy_of s)).2 ->
  exists sn, sn ∈ snaps w /\ Snapshots.Name sn = siName i /\ expired s w sn.
Proof.
  intros Hp. simpl. unfold managed. rewrite list_elem_of_filter, list_elem_of_omap.
  intros (Hk & sn & Hsn & Hm). exists sn. pose proof Hm as (Hd & Hn & Ht)%managed_of_Some.
  split_and!; [done|done|]. split; [done|]. split; [|by rewrite <- Hn].
  apply managed_of_manages. eauto.
Qed.

#[global] Instance expired_dec s w sn : Decision (expired s w sn).
Proof. unfold expired. apply _. Defined.

Lemma drop_names s w sn :
  policy_empty (policy_of s) = false -> NoDup (map Snapshots.Name (snaps w)) -> sn ∈ snaps w ->
  Snapshots.Name sn ∈ map siName (PartitionRetention (managed m s (snaps w)) (policy_of s)).2
  <-> expired s w sn.
Proof.
  intros Hp Hnd Hsn. split.
  - intros (i & En & Hi)%list_elem_of_fmap. destruct (drop_expired s w i Hp Hi) as (sn' & ? & ? & ?).
    assert (sn = sn') as ->; [|done]. eapply NoDup_map_inj; [done..|congruence].
  - intros (_ & Hm & Hk). apply managed_of_manages in Hm as [i Hi].
    apply list_elem_of_fmap. exists i. pose proof Hi as (_ & En & _)%managed_of_Some.
    split; [done|]. apply list_elem_of_filter. split; [by rewrite En|].
    apply list_elem_of_omap. eauto.
Qed.

(** A prune always returns, and the only snapshots it can remove are
    those of the schedule's own dataset, with the schedule's prefix and a
    time stamp, that a non-empty policy does not keep: manual snapshots,
    other prefixes, descendants and kept snapshots survive, whichever
    destroys fail. *)
Theorem prune_removes_only_expired s w (Hnd : NoDup (map Snapshots.Name (snaps w))) :
  let w' := (pruneSnapshots m s w).1 in
  (pruneSnapshots m s w).2 <> None /\
  (forall sn, sn ∈ snaps w' -> sn ∈ snaps w) /\
  (forall sn, sn ∈ snaps w -> sn ∉ snaps w' -> expired s w sn).
Proof.
  simpl. rewrite prune_run. pose proof (list_state (ssDataset s) w) as Hs.
  destruct ((Snapshots_List (ssDataset s) w).2) as [all|e]; [|simpl; rewrite Hs; naive_solver].
  destruct (policy_empty (policy_of s)) eqn:Ep; [simpl; rewrite Hs; naive_solver|].
  match goal with |- context [each destroy_one ?d ?x] =>
    destruct (each_destroy_left d x) as (_ & H2 & H3 & _) end.
  rewrite Hs in H2, H3. split_and!; [done|done|].
  intros sn Hsn Hgone. apply drop_names; [done..|].
  destruct (decide (Snapshots.Name sn ∈
    map siName (PartitionRetention (managed m s (snaps w)) (policy_of s)).2)) as [|Hn]; [done|].
  exfalso. by apply Hgone, H3.
Qed.

(** When the listing and the destroys succeed, exactly the expired
    snapshots are gone. *)
Lemma prune_left s w :
  NoDup (map Snapshots.Name (snaps w)) ->
  is_ok (Snapshots_List (ssDataset s) w).2 = true ->
  (forall n w, (Snapshots_Destroy n w).2 = None) ->
  snaps (pruneSnapshots m s w).1 = filter (fun sn => ~ expired s w sn) (snaps w).
Proof.
  intros Hnd Hl Hrel. rewrite prune_run. pose proof (list_state (ssDataset s) w) as Hs.
  destruct ((Snapshots_List (ssDataset s) w).2) as [all|e]; [|done].
  destruct (policy_empty (policy_of s)) eqn:Ep.
  - simpl. rewrite Hs. symmetry. apply filter_true. intros sn _ (? & _). congruence.
  - match goal with |- context [each destroy_one ?d ?x] =>
      destruct (each_destroy_left d x) as (_ & _ & _ & H4) end.
    cbn [fst]. rewrite (H4 Hrel), Hs. apply filter_ext_in. intros sn Hsn. by rewrite drop_names.
Qed.

Lemma managed_filter_expired s w (l : list Snapshot) :
  policy_empty (policy_of s) = false ->
  managed m s (filter (fun sn => ~ expired s w sn) l)
  = filter (fun i => siName i ∈ kept_names s w) (managed m s l).
Proof.
  intros Hp. induction l as [|sn l IH]; [done|]. rewrite filter_cons.
  destruct (managed_of m s sn) as [i|] eqn:E.
  - pose proof E as (_ & En & _)%managed_of_Some.
    assert (manages s sn) as Hm by (apply managed_of_manages; eauto).
    unfold managed at 2. simpl. rewrite E. simpl. rewrite filter_cons.
    case_decide as H1; case_decide as H2; simpl.
    + rewrite E. by f_equal.
    + exfalso. apply H1. split_and!; [done..|]. by rewrite <- En.
    + exfalso. destruct H1 as (_ & _ & Hn). apply Hn. by rewrite <- En.
    + done.
  - unfold managed at 2. simpl. rewrite E.
    case_decide; simpl; [rewrite E|]; done.
Qed.

(** The guard against an empty policy tests for zeros only: with no
    positive count and at least one count that is not zero, every snapshot
    the schedule manages is expired, so the next prune removes them all. *)
Theorem negative_policy_expires_all s w sn
    (Hneg : Z.max (RetentionHourly s) (Z.max (RetentionDaily s) (Z.max (RetentionWeekly s)
              (Z.max (RetentionMonthly s) (RetentionYearly s)))) <= 0)
    (Hnz : policy_empty (policy_of s) = false) :
  expired s w sn <-> manages s sn.
Proof.
  split; [by intros (_ & ? & _)|]. intros Hm. split_and!; [done..|].
  unfold kept_names. rewrite elem_of_classifyKeep.
  intros (k & n & i & Hk & Hn & _). unfold classes in Hk. simpl in Hk.
  rewrite !elem_of_cons in Hk. destruct_or!; simplify_eq; try lia. set_solver.
Qed.

Hypothesis loc_sane : sane_zone (Loc m).

Lemma managed_range s (l : list Snapshot) : Forall (fun i => go_range (siTime i)) (managed m s l).
Proof.
  apply Forall_forall. intros i (sn & _ & Hi)%list_elem_of_omap.
  apply managed_of_Some in Hi as (_ & _ & Ht). unfold ParsedSnapTime in Ht.
  apply bind_Some in Ht as (suffix & _ & Ht). by eapply parse_stamp_range.
Qed.

(** C36. For a policy with a positive and no negative count, in a zone
    whose offsets are at most a day, on a host whose snapshots have
    distinct names and whose listing and destroys succeed, a prune
    leaves exactly the snapshots that are not expired (those of the
    exact dataset with the prefix and a time stamp that no class keeps),
    and the next prune removes nothing more. *)
Theorem prune_exact_and_stable s w (Hpol : retains (policy_of s))
    (Hnd : NoDup (map Snapshots.Name (snaps w)))
    (Hl : forall w, is_ok (Snapshots_List (ssDataset s) w).2 = true)
    (Hrel : forall n w, (Snapshots_Destroy n w).2 = None) :
  let w' := (pruneSnapshots m s w).1 in
  snaps w' = filter (fun sn => ~ expired s w sn) (snaps w) /\
  snaps (pruneSnapshots m s w').1 = snaps w'.
Proof.
  intros w'. assert (Hw' : snaps w' = filter (fun sn => ~ expired s w sn) (snaps w))
    by (by apply prune_left).
  split; [done|]. unfold w'. rewrite (prune_run _ w'). fold w'.
  pose proof (list_state (ssDataset s) w') as Hs.
  destruct ((Snapshots_List (ssDataset s) w').2) as [all|e]; [|done].
  destruct (policy_empty (policy_of s)) eqn:Ep; [done|].
  rewrite Hw', managed_filter_expired by done.
  pose proof (PartitionRetention_again (managed m s (snaps w)) (policy_of s) (managed_range s _))
    as Hagain. cbv zeta in Hagain. unfold PartitionRetention at 2 3 in Hagain. cbn [fst] in Hagain.
  unfold kept_names. rewrite Hagain. cbn [fst snd each]. unfold ret. cbn [fst]. by rewrite Hs.
Qed.
End Prune.

(** ** A host in memory *)

Record MemHost := mkMemHost {
  mh_snaps : list Snapshot;
  mh_scheds : list SnapshotSchedule;
  mh_fired : list (uuid * Instant) }.

Definition mem_snapshot (ds short : gostr) : Snapshot :=
  Snapshots.mkSnapshot (ds ++ #"@" ++ short) ds short 0 0 0.

#[global] Instance MemHost_Host : Host MemHost := {
  Snapshots_Create ds short _ w :=
    if existsb (fun s => str_eqb (Snapshots.Name s) (ds ++ #"@" ++ short)) (mh_snaps w)
    then (w, Some #"dataset already exists")
    else (mkMemHost (mh_snaps w ++ [mem_snapshot ds short]) (mh_scheds w) (mh_fired w), None);
  Snapshots_Destroy n w :=
    (mkMemHost (filter (fun s => Snapshots.Name s <> n) (mh_snaps w)) (mh_scheds w) (mh_fired w),
     None);
  Snapshots_List root w :=
    (w, Ok (filter (fun s => in_tree root (Snapshots.Dataset s) = true) (mh_snaps w)));
  ListEnabledSnapshotSchedules w := (w, Ok (mh_scheds w));
  ListEnabledReplicationSchedules w := (w, Ok []);
  GetReplicationTarget _ w := (w, Err #"no rows in result set");
  MarkSnapshotScheduleFired id t w :=
    (mkMemHost (mh_snaps w) (mh_scheds w) (mh_fired w ++ [(id, t)]), None);
  MarkReplicationScheduleFired _ _ w := (w, None);
  MarkReplicationScheduleResult _ _ _ w := (w, None);
  Send_Receive _ _ _ _ w := (w, (None, None)) }.

#[global] Program Instance MemHost_Store : SnapshotStore MemHost := {
  snaps := mh_snaps }.
Solve Obligations with naive_solver.

Definition every_hour : SnapshotSchedule :=
  mkSnapshotSchedule #"s1" #"tank/data" #"0 * * * *" true #"auto" 2 1 0 0 0 None.

Definition sample_host : MemHost :=
  mkMemHost
    [mem_snapshot #"tank/data" #"auto-2026-03-01-0000"; mem_snapshot #"tank/data" #"auto-2026-03-01-0100";
     mem_snapshot #"tank/data" #"manual"; mem_snapshot #"tank/data" #"auto-2026-03-01-0200";
     mem_snapshot #"tank/data/sub" #"auto-2026-03-01-0100"; mem_snapshot #"tank/data" #"auto-2026-03-01-0300"]
    [every_hour] [].

Lemma prune_removes_only_expired_witness :
  expired (mkManager UTC true) every_hour sample_host
    (mem_snapshot #"tank/data" #"auto-2026-03-01-0100").
Proof.
  apply (prune_removes_only_expired (mkManager UTC true) every_hour sample_host).
  - by_dec.
  - vm_compute. right. left.
  - vm_compute. intros H. repeat (apply elem_of_cons in H as [H|H]; [discriminate|]). inversion H.
Defined.

Lemma prune_exact_and_stable_witness :
  let w' := (pruneSnapshots (mkManager UTC true) every_hour sample_host).1 in
  map Snapshots.ShortName (snaps w')
  = map str ["auto-2026-03-01-0000"; "manual"; "auto-2026-03-01-0200"; "auto-2026-03-01-0100";
             "auto-2026-03-01-0300"]%string /\
  snaps (pruneSnapshots (mkManager UTC true) every_hour w').1 = snaps w'.
Proof.
  intros w'. split; [vm_compute; reflexivity|].
  apply (prune_exact_and_stable (mkManager UTC true)).
  - repeat constructor; simpl; lia.
  - split; [repeat constructor; cbn; lia|constructor; cbn; lia].
  - by_dec.
  - intros w. reflexivity.
  - intros n w. reflexivity.
Defined.

Definition hourly_minus_one : SnapshotSchedule :=
  mkSnapshotSchedule #"s1" #"tank/data" #"0 * * * *" true #"auto" (-1) 0 0 0 0 None.

Lemma negative_policy_expires_all_witness :
  (forall sn, expired (mkManager UTC true) hourly_minus_one sample_host sn <->
     manages (mkManager UTC true) hourly_minus_one sn) /\
  map Snapshots.ShortName (snaps (pruneSnapshots (mkManager UTC true) hourly_minus_one sample_host).1)
  = map str ["manual"; "auto-2026-03-01-0100"]%string.
Proof.
  split; [|vm_compute; reflexivity]. intros sn.
  apply negative_policy_expires_all; [vm_compute; discriminate|reflexivity].
Defined.
