(* ===== verification/SchedulerTick.v ===== *)
(** * The tick: whatever the host answers

    A host that records every call and answers each from an oracle that
    may look at the whole history: what holds of it for every oracle holds
    of every behaviour of the database, the zfs binary and the remote. *)

From S2P Require Import Prelude GoStrings GoTime Cron CronCorrect Retention ZfsNames Effects.
From S2P Require Import Scheduler.
Import Cron Retention Scheduler.

Inductive event :=
| ECreate (ds short : gostr) (recursive : bool)
| EDestroy (name : gostr)
| EList (root : gostr)
| EListSnapshotSchedules
| EListReplicationSchedules
| EGetTarget (id : uuid)
| EMarkSnapshotFired (id : uuid) (at_ : Instant)
| EMarkReplicationFired (id : uuid) (at_ : Instant)
| EMarkResult (id : uuid) (last : option gostr) (err : option fire_err)
| ESendReceive (full : gostr) (opts : SendOpts) (target : ReplicationTarget) (dst : gostr).

(** The history, oldest call first. *)
Abbreviation history := (list event).

Record oracle := mkOracle {
  o_err : history -> option error;
  o_snaps : history -> res error (list Snapshots.Snapshot);
  o_snap_scheds : history -> res error (list SnapshotSchedule);
  o_repl_scheds : history -> res error (list ReplicationSchedule);
  o_target : history -> res error ReplicationTarget;
  o_pipe : history -> option error * option error }.

Section Traces.
Context (o : oracle).

Definition step {A} (e : event) (answer : history -> A) (h : history) : history * A :=
  (h ++ [e], answer (h ++ [e])).

#[local] Instance TraceHost : Host history := {
  Snapshots_Create ds short r := step (ECreate ds short r) (o_err o);
  Snapshots_Destroy n := step (EDestroy n) (o_err o);
  Snapshots_List root := step (EList root) (o_snaps o);
  ListEnabledSnapshotSchedules := step EListSnapshotSchedules (o_snap_scheds o);
  ListEnabledReplicationSchedules := step EListReplicationSchedules (o_repl_scheds o);
  GetReplicationTarget id := step (EGetTarget id) (o_target o);
  MarkSnapshotScheduleFired id t := step (EMarkSnapshotFired id t) (o_err o);
  MarkReplicationScheduleFired id t := step (EMarkReplicationFired id t) (o_err o);
  MarkReplicationScheduleResult id l e := step (EMarkResult id l e) (o_err o);
  Send_Receive full opts t dst := step (ESendReceive full opts t dst) (o_pipe o) }.

Context (m : Manager).

(** The calls, as steps of the history. *)
Lemma run_create ds short r h :
  call (Snapshots_Create ds short r) h
  = (h ++ [ECreate ds short r], Some (o_err o (h ++ [ECreate ds short r]))).
Proof. done. Qed.

Lemma run_list root h :
  call (Snapshots_List root) h = (h ++ [EList root], Some (o_snaps o (h ++ [EList root]))).
Proof. done. Qed.

Lemma run_target id h :
  call (GetReplicationTarget id) h
  = (h ++ [EGetTarget id], Some (o_target o (h ++ [EGetTarget id]))).
Proof. done. Qed.

Lemma run_pipe full opts t dst h :
  call (Send_Receive full opts t dst) h
  = (h ++ [ESendReceive full opts t dst], Some (o_pipe o (h ++ [ESendReceive full opts t dst]))).
Proof. done. Qed.

Lemma run_result id l e h :
  call (MarkReplicationScheduleResult id l e) h
  = (h ++ [EMarkResult id l e], Some (o_err o (h ++ [EMarkResult id l e]))).
Proof. done. Qed.

(** ** Replication: what was sent, and what is recorded *)

Definition full_name (s : ReplicationSchedule) (now : Instant) : gostr :=
  SrcDataset s ++ #"@" ++ FormatSnapTime (rsPrefix s) (Loc m) now.

Lemma incremental_base_spec s h :
  exists h' r, incremental_base (LastSyncSnapshot s) h = (h', Some r) /\
    (h' = h \/ exists ds, h' = h ++ [EList ds]) /\
    forall base, r = Ok base ->
      base = [] \/
      (LastSyncSnapshot s = Some base /\ exists all sn, o_snaps o h' = Ok all /\
         sn ∈ all /\ Snapshots.Name sn = base).
Proof.
  unfold incremental_base. destruct (LastSyncSnapshot s) as [l|].
  2: { exists h. eexists. split; [done|]. split; [by left|]. intros base [= <-]. by left. }
  destruct (str_eqb l []).
  { exists h. eexists. split; [done|]. split; [by left|]. intros base [= <-]. by left. }
  unfold snapshotExists. destruct (cut_at "@"%char l) as [[ds short]|].
  2: { exists h. eexists. split; [done|]. split; [by left|]. done. }
  exists (h ++ [EList ds]). unfold bind; simpl.
  destruct (o_snaps o (h ++ [EList ds])) as [all|e] eqn:Eo; simpl;
    (eexists; split; [done|]; split; [by eauto|]); [|done].
  intros base. destruct (existsb _ all) eqn:Ex; intros [= <-]; [right|by left].
  split; [done|]. exists all. apply existsb_exists in Ex as (sn & Hin & En).
  exists sn. split; [done|]. split; [by apply list_elem_of_In|]. by apply str_eqb_eq.
Qed.

Section Replication.
Context (s : ReplicationSchedule) (now : Instant) (h : history).

Let short := FormatSnapTime (rsPrefix s) (Loc m) now.
Let asked := [EGetTarget (TargetID s); ECreate (SrcDataset s) short false].

(** The calls of a successful transfer: the target is read, the fresh
    snapshot made, the base of an incremental send confirmed by a listing
    (an empty base is a full send), and both ends of the pipe succeed. *)
Definition sent (evs : list event) : Prop :=
  exists target base pre,
    evs = pre ++ [ESendReceive (full_name s now) (mkSendOpts false base false true true false)
                    target (remoteDataset (DatasetPrefix target) (SrcDataset s))] /\
    (pre = asked \/ exists ds, pre = asked ++ [EList ds]) /\
    (base = [] \/
     (LastSyncSnapshot s = Some base /\
      exists all sn, o_snaps o (h ++ pre) = Ok all /\ sn ∈ all /\ Snapshots.Name sn = base)) /\
    o_target o (h ++ [EGetTarget (TargetID s)]) = Ok target /\
    o_err o (h ++ asked) = None /\
    o_pipe o (h ++ evs) = (None, None).

Definition no_result (evs : list event) : Prop := forall id l e, EMarkResult id l e ∉ evs.

(** A firing either transfers and records the new snapshot, or fails
    without recording anything. *)
Lemma fireReplication_spec :
  exists evs r, fireReplication m s now h = (h ++ evs, Some r) /\
    ((r <> None /\ no_result evs) \/
     exists evs0, evs = evs0 ++ [EMarkResult (rsID s) (Some (full_name s now)) None] /\
       sent evs0 /\
       r = match o_err o (h ++ evs) with Some e => Some (MarkResult e) | None => None end).
Proof.
  unfold fireReplication, bind at 1. rewrite run_target.
  destruct (o_target o _) as [target|e] eqn:Et.
  2: { exists [EGetTarget (TargetID s)]. eexists. split; [done|]. left. split; [done|].
       intros id l e'. set_solver. }
  unfold bind at 1. rewrite run_create, <- app_assoc.
  change ([EGetTarget (TargetID s)] ++ [ECreate (SrcDataset s) (FormatSnapTime (rsPrefix s) (Loc m) now) false])
    with asked.
  change (full_name s now) with (SrcDataset s ++ #"@" ++ short). fold short.
  destruct (o_err o (h ++ asked)) as [e|] eqn:Ec.
  { exists asked. eexists. split; [done|]. left. split; [done|]. intros id l e'. set_solver. }
  unfold bind at 1. destruct (incremental_base_spec s (h ++ asked)) as (h' & r & -> & Hh & Hr).
  assert (exists pre, h' = h ++ pre /\ (pre = asked \/ exists ds, pre = asked ++ [EList ds])
            /\ no_result pre) as (pre & -> & Hpre & Hno).
  { destruct Hh as [->|[ds ->]]; [exists asked|exists (asked ++ [EList ds])]; rewrite ?app_assoc;
      (split; [done|]; split; [by eauto|]); intros id l e; set_solver. }
  destruct r as [base|e].
  2: { exists pre. eexists. split; [done|]. left. by split. }
  specialize (Hr base eq_refl). unfold ship. cbv zeta.
  destruct (has_transport m); cbn [negb].
  2: { exists pre. eexists. split; [done|]. left. by split. }
  unfold bind at 1. rewrite run_pipe, <- app_assoc.
  set (evs0 := pre ++ [ESendReceive _ _ _ _]).
  assert (no_result evs0) as Hno0 by (intros id l e; specialize (Hno id l e); set_solver).
  destruct (o_pipe o (h ++ evs0)) as [[e1|] [e2|]] eqn:Ep;
    try (exists evs0; eexists; split; [done|]; left; by split).
  unfold bind at 1. rewrite run_result, <- app_assoc.
  eexists (evs0 ++ [_]), _. split; [done|]. right. exists evs0. split_and!; [done| |done].
  exists target, base, pre. by split_and!.
Qed.

(** C39. When a replication schedule is due, then for every behaviour of
    the host the pass returns and ends by marking the schedule fired; the
    recorded sync point moves to the new snapshot only after a transfer
    of it in which both ends succeeded, incremental only from the old
    sync point and only if a listing shows it; after a failure the old
    sync point is written back with the error. *)
Theorem replication_records_only_what_was_sent expr
    (Hc : ParseCron (rsCron s) = Ok expr)
    (Hdue : ShouldFireBetween expr (prev_of (rsLastFiredAt s)) now (Some (Loc m)) = Some true) :
  exists evs,
    runReplicationSchedule m now s h
    = (h ++ evs ++ [EMarkReplicationFired (rsID s) now], Some tt) /\
    forall id last err, EMarkResult id last err ∈ evs ->
      id = rsID s /\
      ((last = Some (full_name s now) /\ err = None /\
        exists evs0 rest, evs = evs0 ++ rest /\ sent evs0) \/
       (last = LastSyncSnapshot s /\ err <> None)).
Proof.
  unfold runReplicationSchedule. rewrite Hc, Hdue. unfold lift, bind at 1. cbn [negb].
  unfold bind at 1. destruct fireReplication_spec as (evs & r & -> & Hs).
  destruct r as [e|].
  - exists (evs ++ [EMarkResult (rsID s) (LastSyncSnapshot s) (Some e)]).
    unfold bind; simpl. rewrite <- !app_assoc. split; [done|].
    intros id last err [Hin|Hin]%elem_of_app.
    + destruct Hs as [[_ Hno]|(evs0 & -> & Hsent & _)]; [by apply Hno in Hin|].
      apply elem_of_app in Hin as [Hin|Hin].
      { exfalso. destruct Hsent as (t & b & pre & -> & [->|[ds ->]] & _); set_solver. }
      apply list_elem_of_singleton in Hin. simplify_eq. split; [done|]. left.
      split_and!; [done..|]. exists evs0. eexists. by rewrite <- app_assoc.
    + apply list_elem_of_singleton in Hin. simplify_eq. split; [done|]. by right.
  - destruct Hs as [[? _]|(evs0 & -> & Hsent & Hr)]; [done|].
    exists (evs0 ++ [EMarkResult (rsID s) (Some (full_name s now)) None]).
    unfold bind; simpl. rewrite <- !app_assoc. split; [done|].
    intros id last err [Hin|Hin]%elem_of_app.
    { exfalso. destruct Hsent as (t & b & pre & -> & [->|[ds ->]] & _); set_solver. }
    apply list_elem_of_singleton in Hin. simplify_eq. split; [done|]. left.
    split_and!; [done..|]. by exists evs0, [EMarkResult (rsID s) (Some (full_name s now)) None].
Qed.
End Replication.

(** ** Snapshots: the calls of a pass *)

Lemma each_destroy_trace (drop : list SnapInfo) h :
  each destroy_one drop h = (h ++ map EDestroy (map siName drop), Some tt).
Proof.
  revert h; induction drop as [|d drop IH]; intros h; simpl; [by rewrite app_nil_r|].
  unfold bind at 1. simpl. rewrite IH, <- app_assoc. done.
Qed.

Definition destroyed (s : SnapshotSchedule) (listing : res error (list Snapshots.Snapshot))
  : list gostr :=
  match listing with
  | Err _ => []
  | Ok all =>
      if policy_empty (policy_of s) then []
      else map siName (PartitionRetention (managed m s all) (policy_of s)).2
  end.

Lemma prune_trace s h :
  exists e, pruneSnapshots m s h
    = ((h ++ [EList (ssDataset s)])
         ++ map EDestroy (destroyed s (o_snaps o (h ++ [EList (ssDataset s)]))), Some e).
Proof.
  unfold pruneSnapshots, bind at 1. rewrite run_list. unfold destroyed.
  destruct (o_snaps o _) as [all|e]; [|simpl map; rewrite app_nil_r; by eexists].
  destruct (policy_empty _); [simpl map; rewrite app_nil_r; by eexists|].
  destruct (PartitionRetention _ _) as [keep drop]. unfold bind. rewrite each_destroy_trace.
  by eexists.
Qed.

(** The calls a pass makes for one snapshot schedule, for every
    behaviour of the host: when due, one snapshot with the schedule's
    name for [now], then the mark, whether or not the snapshot succeeded;
    then, due or not, one listing and the destroys of what the policy
    drops from it, none of which stops the others. *)
Theorem snapshot_schedule_calls s now h expr due
    (Hc : ParseCron (ssCron s) = Ok expr)
    (Hdue : ShouldFireBetween expr (prev_of (ssLastFiredAt s)) now (Some (Loc m)) = Some due) :
  let fired :=
    if due then [ECreate (ssDataset s) (FormatSnapTime (ssPrefix s) (Loc m) now) (ssRecursive s);
                 EMarkSnapshotFired (ssID s) now] else [] in
  let listed := h ++ fired ++ [EList (ssDataset s)] in
  runSnapshotSchedule m now s h
  = (listed ++ map EDestroy (destroyed s (o_snaps o listed)), Some tt).
Proof.
  intros fired listed. unfold runSnapshotSchedule. rewrite Hc, Hdue. unfold lift, bind at 1.
  assert (Hf : (if due then
             let! _ := fireSnapshot m s now in
             let! _ := call (MarkSnapshotScheduleFired (ssID s) now) in ret tt
           else ret tt) h = (h ++ fired, Some tt)).
  { unfold fired. destruct due; unfold bind; simpl; [by rewrite <- app_assoc|by rewrite app_nil_r]. }
  unfold bind at 1. rewrite Hf. unfold bind. destruct (prune_trace s (h ++ fired)) as [e ->].
  unfold listed. by rewrite (app_assoc h fired).
Qed.
End Traces.

(** ** Every tick returns, in a fixed zone *)

Section Returns.
Context {W : Type} `{!Host W} (m : Manager) (off : Z).
Hypothesis Hloc : Loc m = fixed_zone off.
Hypothesis Hoff : off mod 60 = 0.

Lemma due_returns c prev now :
  exists b, ShouldFireBetween c prev now (Some (Loc m)) = Some b.
Proof.
  rewrite Hloc. unfold ShouldFireBetween. destruct (is_zero prev); [eauto|].
  destruct (negb _); [eauto|].
  destruct (NextAfter_spec c (truncate prev Minute) off Hoff) as (r & -> & _). simpl.
  destruct (is_zero r); eauto.
Qed.

Lemma returns_due {A} c prev now (k : bool -> M W A) :
  (forall b, returns (k b)) ->
  returns (bind (lift (ShouldFireBetween c prev now (Some (Loc m)))) k).
Proof.
  intros Hk w. destruct (due_returns c prev now) as [b ->]. apply Hk.
Qed.

Lemma returns_prune s : returns (pruneSnapshots (W := W) m s).
Proof.
  unfold pruneSnapshots. apply returns_bind; [auto with eff|]. intros [all|e]; [|auto with eff].
  destruct (policy_empty _); [auto with eff|]. destruct (PartitionRetention _ _) as [keep drop].
  apply returns_bind; [|auto with eff]. apply returns_each. intros d _.
  unfold destroy_one. auto with eff.
Qed.

Lemma returns_fireReplication s now : returns (fireReplication (W := W) m s now).
Proof.
  unfold fireReplication. apply returns_bind; [auto with eff|]. intros [t|e]; [|auto with eff].
  apply returns_bind; [auto with eff|]. intros [e|]; [auto with eff|].
  apply returns_bind.
  { unfold incremental_base. destruct (LastSyncSnapshot s) as [l|]; [|auto with eff].
    destruct (str_eqb l []); [auto with eff|]. apply returns_bind.
    - unfold snapshotExists. destruct (cut_at _ l) as [[ds ?]|]; [|auto with eff].
      apply returns_bind; [auto with eff|]. intros [?|?]; auto with eff.
    - intros [?|?]; auto with eff. }
  intros [base|e]; [|auto with eff]. unfold ship. destruct (negb _); [auto with eff|].
  apply returns_bind; [auto with eff|]. intros [[?|] [?|]]; auto with eff.
Qed.

(** C40. With the clock in a zone of constant offset in whole minutes, a
    tick always returns: whatever the schedules, the expressions and the
    times they last fired, and whatever the host answers. *)
Theorem tick_returns now : returns (tick (W := W) m now).
Proof.
  unfold tick. apply returns_bind; [|intros _; apply returns_bind; [|auto with eff]].
  - unfold runSnapshotSchedules. apply returns_bind; [auto with eff|].
    intros [l|e]; [|auto with eff]. apply returns_bind; [|auto with eff].
    apply returns_each. intros s _. unfold runSnapshotSchedule.
    destruct (ParseCron _); [|auto with eff]. apply returns_due. intros b.
    apply returns_bind; [unfold fireSnapshot; destruct b; auto with eff|]. intros _.
    apply returns_bind; [apply returns_prune|auto with eff].
  - unfold runReplicationSchedules. apply returns_bind; [auto with eff|].
    intros [l|e]; [|auto with eff]. apply returns_bind; [|auto with eff].
    apply returns_each. intros s _. unfold runReplicationSchedule.
    destruct (ParseCron _); [|auto with eff]. apply returns_due. intros b.
    destruct (negb b); [auto with eff|].
    apply returns_bind; [apply returns_fireReplication|]. intros [e|]; auto with eff.
Qed.
End Returns.

(** ** Some tick does not return *)

#[local] Existing Instance TraceHost.

(** A replication-free host with one schedule, due on the 15th at 03:00
    New York time and fired on time in October 2026. *)
Definition monthly : SnapshotSchedule :=
  mkSnapshotSchedule #"s1" #"tank/data" #"0 3 15 * *" false #"auto" 0 0 0 0 0
    (Some (go_date 2026 10 15 3 0 new_york)).

Definition quiet_host (scheds : list SnapshotSchedule) : oracle :=
  mkOracle (fun _ => None) (fun _ => Ok []) (fun _ => Ok scheds) (fun _ => Ok [])
           (fun _ => Err #"none") (fun _ => (None, None)).

Lemma monthly_parsed : ParseCron #"0 3 15 * *" = Ok monthly_on_15th.
Proof. vm_compute. reflexivity. Qed.

Lemma due_hangs :
  ShouldFireBetween monthly_on_15th (go_date 2026 10 15 3 0 new_york)
    (go_date 2026 10 15 3 1 new_york) (Some new_york) = None.
Proof.
  unfold ShouldFireBetween.
  replace (is_zero (go_date 2026 10 15 3 0 new_york)) with false by (vm_compute; reflexivity).
  cbv iota zeta. rewrite NextAfter_hangs. destruct (negb _) eqn:E; [|done].
  exfalso. revert E. vm_compute. discriminate.
Qed.

Lemma monthly_hangs o h :
  runSnapshotSchedule (Host0 := TraceHost o) (mkManager new_york true)
    (go_date 2026 10 15 3 1 new_york) monthly h = (h, None).
Proof.
  unfold runSnapshotSchedule. cbn [ssCron monthly]. rewrite monthly_parsed.
  cbn [ssLastFiredAt monthly prev_of Loc]. unfold lift, bind at 1. by rewrite due_hangs.
Qed.

(** In a zone with daylight saving the tick can hang: the minute
    after the schedule [0 3 15 * *] fired in October 2026 in New York, the
    tick lists the schedules and never comes back from the first one, so
    neither it nor any schedule after it, nor any replication, is handled
    from then on. *)
Theorem tick_hangs_in_daylight_saving (others : list SnapshotSchedule) :
  let now := go_date 2026 10 15 3 1 new_york in
  tick (Host0 := TraceHost (quiet_host (monthly :: others))) (mkManager new_york true) now []
  = ([EListSnapshotSchedules], None).
Proof.
  intros now. set (o := quiet_host (monthly :: others)).
  assert (runSnapshotSchedules (Host0 := TraceHost o) (mkManager new_york true) now []
          = ([EListSnapshotSchedules], None)) as H.
  { unfold runSnapshotSchedules, bind at 1, call. cbn [ListEnabledSnapshotSchedules TraceHost step app].
    cbn [o o_snap_scheds quiet_host each]. unfold bind. by rewrite monthly_hangs. }
  unfold tick, bind at 1. by rewrite H.
Qed.

(** Witnesses. *)

Definition every_minute : CronExpr :=
  mkExpr (mkField true []) (mkField true []) (mkField true []) (mkField true [])
         (mkField true []) #"* * * * *".

Definition backup : ReplicationSchedule :=
  mkReplicationSchedule #"r1" #"tank/data" #"t1" #"* * * * *" #"repl" None
    (Some #"tank/data@repl-2026-01-01-0000").

Definition on_minute : SnapshotSchedule :=
  mkSnapshotSchedule #"s1" #"tank/data" #"* * * * *" false #"auto" 1 0 0 0 0 None.

Lemma snapshot_schedule_calls_witness :
  let now := go_date 2026 10 15 3 1 UTC in
  (runSnapshotSchedule (Host0 := TraceHost (quiet_host [])) (mkManager UTC true) now on_minute []).1
  = [ECreate #"tank/data" #"auto-2026-10-15-0301" false; EMarkSnapshotFired #"s1" now;
     EList #"tank/data"].
Proof.
  intros now.
  pose proof (snapshot_schedule_calls (quiet_host []) (mkManager UTC true) on_minute now []
    every_minute true ltac:(vm_compute; reflexivity) ltac:(vm_compute; reflexivity)) as H.
  cbv zeta in H. rewrite H. vm_compute. reflexivity.
Defined.

Lemma replication_records_only_what_was_sent_witness :
  let now := go_date 2026 10 15 3 1 UTC in
  exists evs,
    runReplicationSchedule (Host0 := TraceHost (quiet_host [])) (mkManager UTC true) now backup []
    = (evs ++ [EMarkReplicationFired #"r1" now], Some tt).
Proof.
  intros now.
  destruct (replication_records_only_what_was_sent (quiet_host []) (mkManager UTC true) backup now []
    every_minute ltac:(vm_compute; reflexivity) ltac:(vm_compute; reflexivity)) as (evs & H & _).
  exists evs. exact H.
Defined.

Lemma tick_returns_witness :
  exists w a, tick (Host0 := TraceHost (quiet_host [monthly])) (mkManager (fixed_zone 7200) true)
    (go_date 2026 11 15 3 1 UTC) [] = (w, Some a).
Proof. exact (tick_returns (mkManager (fixed_zone 7200) true) 7200 eq_refl eq_refl _ []). Defined.
