(* ===== verification/Csi.v ===== *)
(** * internal/csi: the CSI driver's controller and volume identifiers

    volume_id.go, controller.go, errors.go and the parts of driver.go the
    controller reads.  The NovaNAS API is the interface [Client]; a call
    that starts a job is followed by a wait for it. *)

From S2P Require Import Prelude GoStrings Effects.

Module Csi.

(** ** Errors: the gRPC code and the format of the message *)

Inductive code := InvalidArgument | AlreadyExists | NotFound | Internal | Unimplemented
| NilDereference (* a run-time panic, not a status *).

#[global] Instance code_eq_dec : EqDecision code.
Proof. solve_decision. Defined.

Record status := mkStatus { st_code : code; st_msg : gostr }.

Definition errInvalid (m : string) : status := mkStatus InvalidArgument (str m).
Definition errNotFound (m : string) : status := mkStatus NotFound (str m).
Definition errAlreadyExists (m : string) : status := mkStatus AlreadyExists (str m).
Definition errInternal (m : string) : status := mkStatus Internal (str m).
Definition errUnimplemented (m : string) : status := mkStatus Unimplemented (str m).
Definition nilDereference : status := mkStatus NilDereference [].

(** ** volume_id.go *)

Record VolumeID := mkVolumeID { vFull : gostr; vPool : gostr; vParent : gostr; vLeaf : gostr }.

Definition EncodeVolumeID (parent leaf : gostr) : gostr :=
  if str_eqb parent [] then leaf else parent ++ #"/" ++ leaf.

Inductive id_err := EmptyVolumeID | NoPoolName | EmptySegment | BadSnapshotID.

Definition ParseVolumeID (id : gostr) : res id_err VolumeID :=
  ensure negb (str_eqb id []) else EmptyVolumeID ;;
  let parts := split_on "/"%char id in
  ensure (2 <=? length parts)%nat else NoPoolName ;;
  ensure negb (existsb (fun p => str_eqb p []) parts) else EmptySegment ;;
  Ok (mkVolumeID id (hd [] parts) (join_with "/"%char (removelast parts)) (List.last parts [])).

Record SnapshotID := mkSnapshotID { sFull : gostr; sDataset : gostr; ShortTag : gostr }.

Definition EncodeSnapshotID (dataset short : gostr) : gostr := dataset ++ #"@" ++ short.

Definition ParseSnapshotID (id : gostr) : res id_err SnapshotID :=
  match cut_last "@"%char id with
  | None => Err BadSnapshotID
  | Some (ds, short) =>
      if bool_decide (ds = []) || bool_decide (short = []) then Err BadSnapshotID
      else Ok (mkSnapshotID id ds short)
  end.

Definition ZvolDevicePath (id : VolumeID) : gostr :=
  let rest := trim_prefix (vFull id) [] in
  #"/dev/zvol/" ++ rest.

(** ** The client interface: client.go *)

Record NFSClientRule := mkRule { ruleSpec : gostr; ruleOptions : gostr }.

Record ProtocolShareSpec := mkShareSpec {
  psName : gostr; psPool : gostr; psDatasetName : gostr; psProtocols : list gostr;
  psQuotaBytes : Z; psNFSClients : list NFSClientRule }.

Record ProtocolShareDetail := mkShare {
  pdName : gostr; pdPool : gostr; pdDatasetName : gostr; pdPath : gostr }.

Record Dataset := mkDataset {
  dName : gostr; dType : gostr; UsedBytes : Z; AvailableBytes : Z; Mountpoint : gostr;
  Volsize : Z; Quota : Z }.

Record CreateDatasetSpec := mkDatasetSpec {
  cdParent : gostr; cdName : gostr; cdType : gostr; VolumeSizeBytes : Z;
  Properties : gmap gostr gostr }.

Definition FullName (s : CreateDatasetSpec) : gostr :=
  if str_eqb (cdParent s) [] then cdName s else cdParent s ++ #"/" ++ cdName s.

(** Calls return [res E]; a pointer that may be nil without an error is an
    option.  A job is its identifier. *)
Class Client (W E : Type) := {
  IsNotFound : E -> bool;
  GetDataset : gostr -> W -> W * res E (option Dataset);
  CreateDataset : CreateDatasetSpec -> W -> W * res E gostr;
  DestroyDataset : gostr -> bool -> W -> W * res E gostr;
  SetDatasetProps : gostr -> gmap gostr gostr -> W -> W * res E gostr;
  CreateSnapshot_ : gostr -> gostr -> bool -> W -> W * res E gostr;
  DestroySnapshot : gostr -> W -> W * res E gostr;
  CreateProtocolShare : ProtocolShareSpec -> W -> W * res E gostr;
  GetProtocolShare : gostr -> gostr -> gostr -> W -> W * res E (option ProtocolShareDetail);
  DeleteProtocolShare : gostr -> gostr -> gostr -> W -> W * res E gostr;
  WaitJob : gostr -> W -> W * option E }.

(** ** Requests *)

Inductive access_type := Mount (fsType : option gostr) | Block.

Inductive access_mode :=
| UNKNOWN | SINGLE_NODE_WRITER | SINGLE_NODE_READER_ONLY | MULTI_NODE_READER_ONLY
| MULTI_NODE_SINGLE_WRITER | MULTI_NODE_MULTI_WRITER | SINGLE_NODE_SINGLE_WRITER
| SINGLE_NODE_MULTI_WRITER.

Record VolumeCapability := mkCap { cap_type : option access_type; cap_mode : access_mode }.

Record CapacityRange := mkRange { RequiredBytes : Z; LimitBytes : Z }.

Abbreviation smap := (gmap gostr gostr).

(** [m[k]] on a Go map of strings: the zero value when absent. *)
Definition lookup_str (m : smap) (k : gostr) : gostr := default [] (m !! k).

(** The logger is whether one is set. *)
Record Config := mkConfig {
  drvName : gostr; drvVersion : gostr; drvLogger : bool;
  NodeID : gostr; DefaultPool : gostr; DefaultParent : gostr; HostRootPrefix : gostr;
  NFSServer : gostr; DefaultNFSClients : gostr }.

Record Volume := mkVolume { VolumeId : gostr; CapacityBytes : Z; VolumeContext : smap }.

(** ** Helpers *)

Fixpoint firstNonEmpty (vs : list gostr) : gostr :=
  match vs with
  | [] => []
  | v :: vs' => if negb (str_eqb v []) then v else firstNonEmpty vs'
  end.

Inductive volumeKind := kindUnknown | kindFilesystem | kindBlock | kindNFS.

#[global] Instance volumeKind_eq_dec : EqDecision volumeKind.
Proof. solve_decision. Defined.

Definition zfsType (k : volumeKind) : gostr :=
  match k with kindBlock => #"volume" | _ => #"filesystem" end.

Definition defaultCapacityBytes : Z := 2 ^ 30.
Definition oneMiB : Z := 2 ^ 20.

Definition requestedCapacity (r : option CapacityRange) : Z :=
  match r with
  | None => defaultCapacityBytes
  | Some r =>
      if RequiredBytes r >? 0 then RequiredBytes r
      else if LimitBytes r >? 0 then LimitBytes r
      else defaultCapacityBytes
  end.

(** Division and remainder truncate towards zero; the product and the sum
    wrap around at 64 bits. *)
Definition roundUp (n m : Z) : Z :=
  if m <=? 0 then n
  else if Z.rem n m =? 0 then n
  else wrap64 (wrap64 (Z.quot n m + 1) * m).

Definition sizeCompatible (ds : Dataset) (kind : volumeKind) (want : Z) : bool :=
  match kind with
  | kindBlock => (Volsize ds =? 0) || (Volsize ds =? want)
  | kindFilesystem => (Quota ds =? 0) || (Quota ds =? want)
  | _ => false
  end.

Definition datasetCapacity (ds : Dataset) : Z :=
  if Volsize ds >? 0 then Volsize ds
  else if Quota ds >? 0 then Quota ds
  else wrap64 (UsedBytes ds + AvailableBytes ds).

Definition datasetSubpath (pool full : gostr) : gostr :=
  let prefix := pool ++ #"/" in
  if negb (has_prefix full prefix) then [] else trim_prefix full prefix.

Definition extractPool (full : gostr) : gostr :=
  match cut_at "/"%char full with
  | Some (c :: p, _) => c :: p
  | _ => full
  end.

Definition buildNFSClientRules (csv : gostr) : list NFSClientRule :=
  if str_eqb (trim_space csv) [] then []
  else
    omap (fun p => let p := trim_space p in
                   if str_eqb p [] then None else Some (mkRule p []))
      (split_on ","%char csv).

(** strconv.FormatInt(n, 10) *)
Definition FormatInt (n : Z) : gostr :=
  if n <? 0 then "-"%char :: print_uint (- n) else print_uint n.

(** ** classify *)

(** The loop: [i] and the kind of the first capability. *)
Fixpoint classify_caps (first : option volumeKind) (caps : list VolumeCapability)
  : res status volumeKind :=
  match caps with
  | [] => Ok (default kindUnknown first)
  | c :: caps' =>
      match cap_type c with
      | None => Err (errInvalid "VolumeCapabilities[%d]: access_type required")
      | Some t =>
          let k := match t with Mount _ => kindFilesystem | Block => kindBlock end in
          match first with
          | None => classify_caps (Some k) caps'
          | Some kind =>
              if bool_decide (k <> kind)
              then Err (errInvalid "mixed Block and Mount capabilities are not supported")
              else classify_caps first caps'
          end
      end
  end.

Definition classify (caps : list VolumeCapability) (params : smap) : res status volumeKind :=
  match caps with
  | [] => Err (errInvalid "VolumeCapabilities is required")
  | _ =>
      let? kind := classify_caps None caps in
      if equal_fold (lookup_str params #"accessProtocol") #"nfs" then
        if bool_decide (kind <> kindFilesystem)
        then Err (errInvalid "accessProtocol=nfs requires Mount access type")
        else Ok kindNFS
      else Ok kind
  end.

Definition accessModeSupported (kind : volumeKind) (mode : access_mode) : bool :=
  match kind with
  | kindBlock =>
      match mode with SINGLE_NODE_WRITER | SINGLE_NODE_SINGLE_WRITER => true | _ => false end
  | kindFilesystem | kindNFS =>
      match mode with
      | SINGLE_NODE_WRITER | SINGLE_NODE_SINGLE_WRITER | SINGLE_NODE_MULTI_WRITER
      | MULTI_NODE_READER_ONLY | MULTI_NODE_MULTI_WRITER => true
      | _ => false
      end
  | kindUnknown => false
  end.

Definition DefaultNFSMountOptions : gostr := #"vers=4.2,sec=krb5p,hard".

Definition defaultParent (cfg : Config) (pool : gostr) : gostr :=
  if negb (str_eqb (DefaultParent cfg) []) then DefaultParent cfg
  else
    let pool := if str_eqb pool [] then DefaultPool cfg else pool in
    if str_eqb pool [] then [] else pool ++ #"/csi".

Definition buildVolume (volumeID : gostr) (capacity : Z) (kind : volumeKind) (params : smap)
  : Volume :=
  let ctx : smap := {[ #"volumeKind" := zfsType kind ]} in
  let ctx :=
    if bool_decide (kind = kindBlock) then
      let fs := lookup_str params #"fsType" in
      let fs := if str_eqb fs [] then #"ext4" else fs in
      <[ #"fsType" := fs ]> ctx
    else ctx in
  mkVolume volumeID capacity ctx.

Definition buildNFSVolume (cfg : Config) (volumeID : gostr) (capacity : Z) (params : smap)
    (dsName : gostr) : Volume :=
  let mountOpts := firstNonEmpty [lookup_str params #"mountOptions"; DefaultNFSMountOptions] in
  let exportPath := #"/" ++ extractPool volumeID ++ #"/" ++ dsName in
  mkVolume volumeID capacity
    (<[ #"volumeKind" := #"nfs" ]> (<[ #"nfsServer" := NFSServer cfg ]>
      (<[ #"nfsPath" := exportPath ]> (<[ #"mountOptions" := mountOpts ]> ∅)))).

(** ** The controller's operations *)

Section Controller.
Context {W E : Type} `{!Client W E} (cfg : Config).

(** Start a job and wait for it: [None] is success, the boolean tells
    whether the error came from the wait. *)
Definition run_job (start : W -> W * res E gostr) : M W (option (bool * E)) :=
  let! r := call start in
  match r with
  | Err e => ret (Some (false, e))
  | Ok job =>
      let! e := call (WaitJob job) in
      ret (match e with Some e => Some (true, e) | None => None end)
  end.

Definition createNFSVolume (params : smap) (pool leaf full : gostr) (capacity : Z)
  : M W (res status Volume) :=
  let dsName := datasetSubpath pool full in
  if str_eqb dsName [] then ret (Err (errInvalid "derived empty dataset name from %q under pool %q"))
  else
    let! g := call (GetProtocolShare leaf pool dsName) in
    let create :=
      let clientCSV := firstNonEmpty [lookup_str params #"nfsClients"; DefaultNFSClients cfg] in
      let spec := mkShareSpec leaf pool dsName [ #"nfs"] capacity (buildNFSClientRules clientCSV) in
      let! r := run_job (CreateProtocolShare spec) in
      match r with
      | Some (false, _) => ret (Err (errInternal "create protocol-share %s: %v"))
      | Some (true, _) => ret (Err (errInternal "wait create-protocol-share job: %v"))
      | None => ret (Ok (buildNFSVolume cfg full capacity params dsName))
      end in
    match g with
    | Err e => if IsNotFound e then create else ret (Err (errInternal "get protocol-share %s: %v"))
    | Ok None => create
    | Ok (Some _) => ret (Ok (buildNFSVolume cfg full capacity params dsName))
    end.

Definition volume_props (kind : volumeKind) (params : smap) (capacity : Z) : smap :=
  let c := lookup_str params #"compression" in
  let props : smap := {[ #"compression" := if negb (str_eqb c []) then c else #"lz4" ]} in
  match kind with
  | kindFilesystem =>
      let rs := lookup_str params #"recordsize" in
      let props := if negb (str_eqb rs []) then <[ #"recordsize" := rs ]> props else props in
      <[ #"refquota" := FormatInt capacity ]> (<[ #"quota" := FormatInt capacity ]> props)
  | kindBlock =>
      let vbs := lookup_str params #"volblocksize" in
      if negb (str_eqb vbs []) then <[ #"volblocksize" := vbs ]> props else props
  | _ => props
  end.

Record CreateVolumeRequest := mkCreateVolume {
  cvName : gostr; cvParameters : smap; cvCapabilities : list VolumeCapability;
  cvRange : option CapacityRange }.

Definition CreateVolume (req : CreateVolumeRequest) : M W (res status Volume) :=
  if str_eqb (cvName req) [] then ret (Err (errInvalid "Name is required"))
  else
    let params := cvParameters req in
    match classify (cvCapabilities req) params with
    | Err e => ret (Err e)
    | Ok kind =>
        let pool := firstNonEmpty [lookup_str params #"pool"; DefaultPool cfg] in
        if str_eqb pool [] then ret (Err (errInvalid "StorageClass parameter 'pool' is required"))
        else
          let parent := firstNonEmpty [lookup_str params #"parent"; defaultParent cfg pool] in
          let leaf := cvName req in
          let full := EncodeVolumeID parent leaf in
          let capacity := requestedCapacity (cvRange req) in
          let capacity :=
            if bool_decide (kind = kindFilesystem) || bool_decide (kind = kindNFS)
            then roundUp capacity oneMiB else capacity in
          if bool_decide (kind = kindNFS) then createNFSVolume params pool leaf full capacity
          else
            let props := volume_props kind params capacity in
            let! g := call (GetDataset full) in
            let create :=
              let spec := mkDatasetSpec parent leaf (zfsType kind)
                            (if bool_decide (kind = kindBlock) then capacity else 0) props in
              let! r := run_job (CreateDataset spec) in
              match r with
              | Some (false, _) => ret (Err (errInternal "create dataset %s: %v"))
              | Some (true, _) => ret (Err (errInternal "wait create-dataset job: %v"))
              | None => ret (Ok (buildVolume full capacity kind params))
              end in
            match g with
            | Err e => if IsNotFound e then create else ret (Err (errInternal "get dataset %s: %v"))
            | Ok None => create
            | Ok (Some existing) =>
                if negb (str_eqb (dType existing) (zfsType kind))
                then ret (Err (errAlreadyExists "dataset %s exists with type %q, want %q"))
                else if negb (sizeCompatible existing kind capacity)
                then ret (Err (errAlreadyExists "dataset %s exists with incompatible size"))
                else ret (Ok (buildVolume full capacity kind params))
            end
    end.

Definition destroy_volume (id : VolumeID) : M W (res status unit) :=
  let! r := run_job (DestroyDataset (vFull id) false) in
  match r with
  | Some (false, e) =>
      if IsNotFound e then ret (Ok tt) else ret (Err (errInternal "destroy dataset %s: %v"))
  | Some (true, _) => ret (Err (errInternal "wait destroy-dataset job: %v"))
  | None => ret (Ok tt)
  end.

Definition DeleteVolume (volumeId : gostr) : M W (res status unit) :=
  match ParseVolumeID volumeId with
  | Err _ => ret (Err (errInvalid "VolumeId: %v"))
  | Ok id =>
      let dsName := datasetSubpath (vPool id) (vFull id) in
      if negb (str_eqb dsName []) then
        let! share := call (GetProtocolShare (vLeaf id) (vPool id) dsName) in
        match share with
        | Ok (Some _) =>
            let! r := run_job (DeleteProtocolShare (vLeaf id) (vPool id) dsName) in
            match r with
            | Some (false, e) =>
                if IsNotFound e then ret (Ok tt)
                else ret (Err (errInternal "delete protocol-share %s: %v"))
            | Some (true, _) => ret (Err (errInternal "wait delete-protocol-share job: %v"))
            | None => ret (Ok tt)
            end
        | _ => destroy_volume id
        end
      else destroy_volume id
  end.

Record ExpandResponse := mkExpand { eCapacityBytes : Z; NodeExpansionRequired : bool }.

Definition ControllerExpandVolume (volumeId : gostr) (range : option CapacityRange)
    (vcap : option VolumeCapability) : M W (res status ExpandResponse) :=
  match ParseVolumeID volumeId with
  | Err _ => ret (Err (errInvalid "VolumeId: %v"))
  | Ok id =>
      let capacity := requestedCapacity range in
      let! g := call (GetDataset (vFull id)) in
      match g with
      | Err e =>
          if IsNotFound e then ret (Err (errNotFound "volume %s not found"))
          else ret (Err (errInternal "get dataset: %v"))
      | Ok None => ret (Err nilDereference)
      | Ok (Some ds) =>
          let apply (capacity : Z) (props : smap) (nodeExpansion : bool) :=
            let! r := run_job (SetDatasetProps (vFull id) props) in
            match r with
            | Some (false, _) => ret (Err (errInternal "set props: %v"))
            | Some (true, _) => ret (Err (errInternal "wait set-props job: %v"))
            | None => ret (Ok (mkExpand capacity nodeExpansion))
            end in
          if str_eqb (dType ds) #"filesystem" then
            let capacity := roundUp capacity oneMiB in
            apply capacity
              (<[ #"refquota" := FormatInt capacity ]> {[ #"quota" := FormatInt capacity ]}) false
          else if str_eqb (dType ds) #"volume" then
            apply capacity {[ #"volsize" := FormatInt capacity ]}
              (match vcap with
               | Some c => match cap_type c with Some (Mount _) => true | _ => false end
               | None => false
               end)
          else ret (Err (errInternal "unknown dataset type %q"))
      end
  end.

Definition ControllerGetVolume (volumeId : gostr) : M W (res status Volume) :=
  match ParseVolumeID volumeId with
  | Err _ => ret (Err (errInvalid "VolumeId: %v"))
  | Ok id =>
      let! g := call (GetDataset (vFull id)) in
      match g with
      | Err e =>
          if IsNotFound e then ret (Err (errNotFound "volume %s"))
          else ret (Err (errInternal "get dataset: %v"))
      | Ok None => ret (Err nilDereference)
      | Ok (Some ds) =>
          ret (Ok (mkVolume (vFull id) (datasetCapacity ds) {[ #"volumeKind" := dType ds ]}))
      end
  end.

Record SnapshotResponse := mkSnapshotResponse {
  SnapshotId : gostr; SourceVolumeId : gostr; ReadyToUse : bool }.

Definition CreateSnapshot (name sourceVolumeId : gostr) : M W (res status SnapshotResponse) :=
  if str_eqb name [] then ret (Err (errInvalid "Name is required"))
  else
    match ParseVolumeID sourceVolumeId with
    | Err _ => ret (Err (errInvalid "SourceVolumeId: %v"))
    | Ok src =>
        let! r := run_job (CreateSnapshot_ (vFull src) name false) in
        match r with
        | Some (false, _) => ret (Err (errInternal "create snapshot: %v"))
        | Some (true, _) => ret (Err (errInternal "wait snapshot job: %v"))
        | None =>
            ret (Ok (mkSnapshotResponse (EncodeSnapshotID (vFull src) name) (vFull src) true))
        end
    end.

Definition DeleteSnapshot (snapshotId : gostr) : M W (res status unit) :=
  if str_eqb snapshotId [] then ret (Err (errInvalid "SnapshotId is required"))
  else
    match ParseSnapshotID snapshotId with
    | Err _ => ret (Err (errInvalid "SnapshotId: %v"))
    | Ok _ =>
        let! r := run_job (DestroySnapshot snapshotId) in
        match r with
        | Some (false, e) =>
            if IsNotFound e then ret (Ok tt) else ret (Err (errInternal "destroy snapshot: %v"))
        | Some (true, _) => ret (Err (errInternal "wait destroy-snapshot job: %v"))
        | None => ret (Ok tt)
        end
    end.
End Controller.

(** The response: the confirmed capabilities, or a message. *)
Definition ValidateVolumeCapabilities (volumeId : gostr) (caps : list VolumeCapability)
    (params : smap) : res status (list VolumeCapability + gostr) :=
  ensure negb (str_eqb volumeId []) else errInvalid "VolumeId is required" ;;
  match caps with
  | [] => Err (errInvalid "VolumeCapabilities is required")
  | _ =>
      match classify caps params with
      | Err e => Ok (inr (st_msg e))
      | Ok kind =>
          if forallb (fun c => accessModeSupported kind (cap_mode c)) caps then Ok (inl caps)
          else Ok (inr #"access mode %s not supported")
      end
  end.

End Csi.
