(* ===== verification/CsiCorrect.v ===== *)
(** * The CSI driver: identifiers, capabilities, jobs and sizes

    Volume and snapshot identifiers read back, classify accepts exactly the
    capability lists it should, the controller starts jobs on its own
    volume only, and rounding is to the least multiple as long as it does
    not overflow. *)

From S2P Require Import Prelude GoStrings Effects Csi.
Import Csi.

(** ** Volume identifiers *)

(** A path of at least one non-empty segment. *)
Definition segments (ps : list gostr) : Prop :=
  ps <> [] /\ Forall (fun p => p <> [] /\ "/"%char ∉ p) ps.

Lemma existsb_empty_seg ps :
  existsb (fun p => str_eqb p []) ps = false <-> Forall (fun p => p <> []) ps.
Proof.
  induction ps as [|p ps IH]; simpl; [split; [constructor|done]|].
  rewrite orb_false_iff, IH, Forall_cons, str_eqb_neq. done.
Qed.

Lemma join_nonempty ps : segments ps -> join_with "/"%char ps <> [].
Proof.
  intros [Hne Hps]. destruct ps as [|p ps]; [done|]. apply Forall_cons in Hps as [[Hp _] _].
  destruct ps; simpl; [done|]. by destruct p.
Qed.

(** Volume identifiers: every identifier that parses is the encoding
    of its parent and leaf, and the encoding of a parent path and a leaf
    (non-empty segments without a slash) parses to exactly these, with
    the first segment as the pool. *)
Theorem volume_id_roundtrip :
  (forall id v, ParseVolumeID id = Ok v ->
     vFull v = id /\ EncodeVolumeID (vParent v) (vLeaf v) = id /\
     exists rest, id = vPool v ++ #"/" ++ rest) /\
  (forall ps leaf, segments ps -> segments [leaf] ->
     ParseVolumeID (EncodeVolumeID (join_with "/"%char ps) leaf) =
     Ok (mkVolumeID (join_with "/"%char ps ++ #"/" ++ leaf) (hd [] ps) (join_with "/"%char ps) leaf)).
Proof.
  split.
  - intros id v. unfold ParseVolumeID. destruct (str_eqb id []) eqn:E0; simpl negb; cbv iota; [done|].
    destruct (Nat.leb_spec 2 (length (split_on "/"%char id))) as [Hl|]; [|done].
    destruct (existsb _ _) eqn:Ee; cbn [negb]; [done|]. apply existsb_empty_seg in Ee.
    intros [= <-]. simpl. split; [done|].
    pose proof (join_split "/"%char id) as Hj.
    destruct (exists_last (l := split_on "/"%char id)) as (ps & leaf & Es).
    { intros E. rewrite E in Hl. simpl in Hl. lia. }
    rewrite Es in *. rewrite length_app in Hl. simpl in Hl.
    assert (ps <> []) as Hps by (intros ->; simpl in Hl; lia).
    rewrite removelast_last, List.last_last. rewrite join_with_snoc in Hj by done.
    assert (join_with "/"%char ps <> []) as Hne.
    { destruct ps as [|p ps]; [done|]. simpl in Ee. apply Forall_cons in Ee as [Hp _].
      destruct ps; simpl; [done|]. by destruct p. }
    split.
    + unfold EncodeVolumeID. apply str_eqb_neq in Hne as ->. done.
    + destruct ps as [|p ps]; [done|]. simpl hd. rewrite <- Hj.
      destruct ps as [|p' ps]; [by eexists|]. simpl. rewrite <- app_assoc. simpl. by eexists.
  - intros ps leaf Hps [_ Hleaf]. pose proof (join_nonempty ps Hps) as Hne.
    destruct Hps as [Hps1 Hps]. apply Forall_cons in Hleaf as [[Hl1 Hl2] _].
    unfold EncodeVolumeID. apply str_eqb_neq in Hne as Hne'. rewrite Hne'.
    assert (Hj : join_with "/"%char ps ++ #"/" ++ leaf = join_with "/"%char (ps ++ [leaf]))
      by (by rewrite join_with_snoc).
    unfold ParseVolumeID. rewrite Hj, split_join.
    + replace (str_eqb _ []) with false.
      2: { symmetry. apply str_eqb_neq. rewrite <- Hj. by destruct (join_with "/"%char ps). }
      cbn [negb]. rewrite length_app. destruct ps as [|p ps]; [done|].
      replace (2 <=? _)%nat with true by (symmetry; apply Nat.leb_le; simpl; lia).
      replace (existsb _ _) with false.
      2: { symmetry. apply existsb_empty_seg. apply Forall_app. split; [|by repeat constructor].
           eapply Forall_impl; [done|]. by intros x [? _]. }
      cbn [negb]. by rewrite removelast_last, List.last_last.
    + by destruct ps.
    + apply Forall_app. split; [|by repeat constructor].
      eapply Forall_impl; [done|]. by intros x [_ ?].
Qed.

Lemma cut_last_at_app ds short : "@"%char ∉ short ->
  cut_last "@"%char (ds ++ #"@" ++ short) = Some (ds, short).
Proof. intros H. by apply cut_last_Some. Qed.

(** Snapshot identifiers, likewise: parsing gives back the dataset
    (which may itself contain an at sign) and the tag that were encoded. *)
Theorem snapshot_id_roundtrip :
  (forall id s, ParseSnapshotID id = Ok s ->
     EncodeSnapshotID (sDataset s) (ShortTag s) = id /\ sFull s = id) /\
  (forall ds short, ds <> [] -> short <> [] -> "@"%char ∉ short ->
     ParseSnapshotID (EncodeSnapshotID ds short) =
     Ok (mkSnapshotID (EncodeSnapshotID ds short) ds short)).
Proof.
  unfold ParseSnapshotID, EncodeSnapshotID. split.
  - intros id s. destruct (cut_last "@"%char id) as [[ds short]|] eqn:Ec; [|done].
    apply cut_last_Some in Ec as [-> _]. destruct (_ || _); [done|]. by intros [= <-].
  - intros ds short H1 H2 H3. rewrite cut_last_at_app by done.
    rewrite !bool_decide_eq_false_2 by done. done.
Qed.

(** ** Sizes *)

(** Rounding: for a non-negative size and a positive unit whose sum
    fits 64 bits, the result is the least multiple of the unit that is not
    below the size. *)
Theorem roundUp_least n m (Hn : 0 <= n) (Hm : 0 < m) (Hfit : n + m <= MaxInt64) :
  let r := roundUp n m in
  n <= r < n + m /\ (m | r) /\ forall q, (m | q) -> n <= q -> r <= q.
Proof.
  assert (H : exists k, roundUp n m = k * m /\ n <= k * m < n + m).
  { unfold roundUp. destruct (Z.leb_spec m 0); [lia|].
    rewrite Z.rem_mod_nonneg, Z.quot_div_nonneg by lia.
    pose proof (Z.div_mod n m ltac:(lia)) as Hd. pose proof (Z.mod_pos_bound n m Hm) as Hb.
    assert (0 <= n / m) as Hq by (apply Z.div_pos; lia).
    revert Hd Hb Hq. generalize (n / m), (n mod m). intros q r Hd Hb Hq.
    assert (q <= q * m) by nia.
    destruct (Z.eqb_spec r 0) as [E|E]; [exists q; lia|].
    exists (q + 1). unfold MaxInt64 in Hfit.
    rewrite (wrap64_id (q + 1)) by (unfold in_int64, MinInt64, MaxInt64; lia).
    rewrite wrap64_id by (unfold in_int64, MinInt64, MaxInt64; lia). lia. }
  destruct H as (k & E & Hk). cbv zeta. rewrite E. split; [lia|].
  split; [by exists k|]. intros q [j ->] Hq.
  assert (k < j + 1) by (apply (Z.mul_lt_mono_pos_r m); lia).
  apply Z.mul_le_mono_nonneg_r; lia.
Qed.

Lemma roundUp_least_witness :
  let r := roundUp 1500000000 oneMiB in 1500000000 <= r < 1500000000 + oneMiB /\ (oneMiB | r).
Proof.
  destruct (roundUp_least 1500000000 oneMiB) as (H1 & H2 & _); [cbv; discriminate|reflexivity|cbv; discriminate|].
  split; assumption.
Defined.

(** Above the last whole MiB of the int64 range the rounding wraps
    around: a request for 2^63 - 1 bytes sets the quota to -2^63. *)
Theorem roundUp_overflows :
  roundUp MaxInt64 oneMiB = MinInt64 /\
  volume_props kindFilesystem ∅ (roundUp MaxInt64 oneMiB) !! #"quota"
  = Some #"-9223372036854775808".
Proof. split; vm_compute; reflexivity. Qed.

(** ** Capabilities *)

Lemma classify_caps_some k caps kind :
  classify_caps (Some k) caps = Ok kind <->
  kind = k /\ Forall (fun c => exists t, cap_type c = Some t /\
     match t with Mount _ => kindFilesystem | Block => kindBlock end = k) caps.
Proof.
  induction caps as [|c caps IH]; simpl; [naive_solver|].
  rewrite Forall_cons. destruct (cap_type c) as [t|]; [|naive_solver].
  case_bool_decide; [naive_solver|]. rewrite IH.
  split; [intros [-> ?]; split_and!; [done| |done]|intros (-> & _ & ?); done].
  exists t. split; [done|]. by destruct (decide (match t with Mount _ => kindFilesystem | Block => kindBlock end = k)).
Qed.

(** classify accepts exactly the non-empty capability lists of one
    access type; mount volumes become NFS volumes when the storage class
    asks for it, which block volumes must not. *)
Theorem classify_iff caps params kind :
  let nfs := equal_fold (lookup_str params #"accessProtocol") #"nfs" in
  classify caps params = Ok kind <->
  caps <> [] /\
  ((kind = kindBlock /\ nfs = false /\ Forall (fun c => cap_type c = Some Block) caps) \/
   (kind = (if nfs then kindNFS else kindFilesystem) /\
    Forall (fun c => exists fs, cap_type c = Some (Mount fs)) caps)).
Proof.
  intros nfs. unfold classify. fold nfs. destruct caps as [|c caps]; [naive_solver|].
  cbn [classify_caps].
  destruct (cap_type c) as [t|] eqn:Ec.
  2: { split; [done|]. intros [_ [(_ & _ & H)|(_ & H)]]; apply Forall_cons in H; naive_solver. }
  set (k := match t with Mount _ => kindFilesystem | Block => kindBlock end).
  assert (Hall : forall P : VolumeCapability -> Prop,
    (forall c', P c' <-> exists t', cap_type c' = Some t' /\
       match t' with Mount _ => kindFilesystem | Block => kindBlock end = k) ->
    Forall P (c :: caps) <-> classify_caps (Some k) caps = Ok k).
  { intros P HP. rewrite classify_caps_some, Forall_cons.
    rewrite (Forall_iff P _ _ HP). rewrite (HP c). naive_solver. }
  destruct (classify_caps (Some k) caps) as [k'|e] eqn:Er.
  - assert (k' = k) as -> by (by apply classify_caps_some in Er as [? _]).
    destruct t as [fs|]; unfold k in *.
    + assert (Forall (fun c => exists fs, cap_type c = Some (Mount fs)) (c :: caps)) as HF.
      { apply Hall; [|done]. intros c'. split; [intros [fs' ->]; eauto|].
        intros ([fs'|] & -> & ?); [eauto|done]. }
      rewrite bool_decide_eq_false_2 by naive_solver.
      destruct nfs; (split; [intros [= <-]; naive_solver|]);
        (intros [_ [(_ & ? & H)|(-> & _)]]; [apply Forall_cons in H; naive_solver|done]).
    + assert (Forall (fun c => cap_type c = Some Block) (c :: caps)) as HF.
      { apply Hall; [|done]. intros c'. split; [intros ->; eauto|].
        intros ([fs'|] & -> & ?); done. }
      rewrite bool_decide_eq_true_2 by done.
      destruct nfs; (split; [naive_solver|]);
        (intros [_ [(? & ? & H)|(-> & H)]]; [naive_solver|apply Forall_cons in H; naive_solver]).
  - split; [done|]. intros [_ H]. exfalso.
    assert (Err e = Ok k) as [=]. rewrite <- Er.
    destruct t as [fs|]; unfold k in *; destruct H as [(_ & _ & H)|(_ & H)].
    + apply Forall_cons in H. naive_solver.
    + apply (Hall _) in H; [done|]. intros c'. split; [intros [fs' ->]; eauto|].
      intros ([fs'|] & -> & ?); [eauto|done].
    + apply (Hall _) in H; [done|]. intros c'. split; [intros ->; eauto|].
      intros ([fs'|] & -> & ?); done.
    + apply Forall_cons in H. naive_solver.
Qed.

(** * The jobs of the CSI controller

    Over any API: which jobs a call of the controller starts, on what, and
    when it reports success. *)

Inductive api_job :=
| JCreate (spec : CreateDatasetSpec) | JDestroy (n : gostr) (recursive : bool)
| JProps (n : gostr) (props : gmap gostr gostr)
| JSnapshot (ds short : gostr) (recursive : bool) | JDestroySnapshot (n : gostr)
| JShare (spec : ProtocolShareSpec) | JDeleteShare (l p d : gostr).

Inductive start_outcome := Accepted | RefusedNotFound | Refused.
Inductive ctl_event := Start (j : api_job) (o : start_outcome) | Wait (ok : bool).

Section Recording.
Context {W E : Type} `{!Client W E}.

Definition noting (j : api_job) (c : W -> W * res E gostr) (wl : W * list ctl_event) : (W * list ctl_event) * res E gostr :=
  let '(w', r) := c wl.1 in
  ((w', wl.2 ++ [Start j (match r with Ok _ => Accepted | Err e => if IsNotFound e then RefusedNotFound else Refused end)]), r).

Definition silent {A} (c : W -> W * A) (wl : W * list ctl_event) : (W * list ctl_event) * A :=
  let '(w', r) := c wl.1 in ((w', wl.2), r).

(** The same API, with every job and how it ended noted down. *)
#[export] Instance recording_client : Client (W * list ctl_event) E := {
  IsNotFound := IsNotFound (W := W);
  GetDataset n := silent (GetDataset n);
  CreateDataset spec := noting (JCreate spec) (CreateDataset spec);
  DestroyDataset n r := noting (JDestroy n r) (DestroyDataset n r);
  SetDatasetProps n ps := noting (JProps n ps) (SetDatasetProps n ps);
  CreateSnapshot_ ds short r := noting (JSnapshot ds short r) (CreateSnapshot_ ds short r);
  DestroySnapshot n := noting (JDestroySnapshot n) (DestroySnapshot n);
  CreateProtocolShare spec := noting (JShare spec) (CreateProtocolShare spec);
  GetProtocolShare l p d := silent (GetProtocolShare l p d);
  DeleteProtocolShare l p d := noting (JDeleteShare l p d) (DeleteProtocolShare l p d);
  WaitJob j wl := let '(w', e) := WaitJob j wl.1 in ((w', wl.2 ++ [Wait (match e with None => true | Some _ => false end)]), e) }.
End Recording.

Inductive ctl_op :=
| CCreate (req : CreateVolumeRequest) | CDelete (id : gostr)
| CExpand (id : gostr) (range : option CapacityRange) (cap : option VolumeCapability)
| CGet (id : gostr) | CSnapshot (name source : gostr) | CDeleteSnapshot (id : gostr).

(** The identifier of the volume a request asks for. *)
Definition requested_volume (cfg : Config) (req : CreateVolumeRequest) : gostr :=
  let pool := firstNonEmpty [lookup_str (cvParameters req) #"pool"; DefaultPool cfg] in
  EncodeVolumeID (firstNonEmpty [lookup_str (cvParameters req) #"parent"; defaultParent cfg pool]) (cvName req).

(** The jobs an operation may start. *)
Definition own (cfg : Config) (o : ctl_op) (j : api_job) : Prop :=
  match o, j with
  | CCreate req, JCreate spec => FullName spec = requested_volume cfg req
  | CCreate req, JShare spec => psPool spec ++ #"/" ++ psDatasetName spec = requested_volume cfg req /\ psName spec = cvName req
  | CDelete id, JDestroy n recursive => n = id /\ recursive = false
  | CDelete id, JDeleteShare l p d => p ++ #"/" ++ d = id
  | CExpand id _ _, JProps n _ => n = id
  | CSnapshot name source, JSnapshot ds short recursive => ds = source /\ short = name /\ recursive = false
  | CDeleteSnapshot id, JDestroySnapshot n => n = id
  | _, _ => False
  end.

Definition deleting (o : ctl_op) : Prop := match o with CDelete _ | CDeleteSnapshot _ => True | _ => False end.

(** What an operation did, and whether it reported success. *)
Definition job_outcome (cfg : Config) (o : ctl_op) (es : list ctl_event) (success : bool) : Prop :=
  es = [] \/ exists j, own cfg o j /\
    ((exists e, es = [Start j e] /\ e <> Accepted /\ (success = true -> e = RefusedNotFound /\ deleting o)) \/
     es = [Start j Accepted; Wait success]).

Section Jobs.
Context {W E : Type} `{!Client W E} (cfg : Config).
Implicit Types (wl : W * list ctl_event).

Definition exec_ctl (o : ctl_op) : M (W * list ctl_event) bool :=
  match o with
  | CCreate req => let! r := CreateVolume cfg req in ret (is_ok r)
  | CDelete id => let! r := DeleteVolume id in ret (is_ok r)
  | CExpand id range cap => let! r := ControllerExpandVolume id range cap in ret (is_ok r)
  | CGet id => let! r := ControllerGetVolume id in ret (is_ok r)
  | CSnapshot name source => let! r := CreateSnapshot name source in ret (is_ok r)
  | CDeleteSnapshot id => let! r := DeleteSnapshot id in ret (is_ok r)
  end.

(** A call ends, adding events that are an outcome of the operation. *)
Definition does {A} (o : ctl_op) (c : M (W * list ctl_event) (res status A)) : Prop :=
  forall w l, exists w' es r, c (w, l) = ((w', l ++ es), Some r) /\ job_outcome cfg o es (is_ok r).

Lemma does_ret {A} o (r : res status A) : does o (ret r).
Proof. intros w l. exists w, [], r. rewrite app_nil_r. split; [done|by left]. Qed.

Lemma does_read {A B} o (c : W -> W * B) (k : B -> M (W * list ctl_event) (res status A)) :
  (forall b, does o (k b)) -> does o (let! b := call (silent c) in k b).
Proof. intros Hk w l. unfold bind, call, silent. cbn [fst snd]. destruct (c w) as [w' b]. apply Hk. Qed.

(** A job whose failures, but perhaps a refusal as not found, are errors. *)
Lemma does_job {A} o j (c : W -> W * res E gostr) (k : option (bool * E) -> M (W * list ctl_event) (res status A)) :
  own cfg o j -> (exists a, k None = ret a /\ is_ok a = true) -> (forall e, exists a, k (Some (true, e)) = ret a /\ is_ok a = false) ->
  (forall e, exists a, k (Some (false, e)) = ret a /\ (is_ok a = true -> IsNotFound (W := W) e = true /\ deleting o)) ->
  does o (let! r := run_job (noting j c) in k r).
Proof.
  intros Ho (an & Kn & Hn) Kt Kf w l. unfold bind at 1. unfold run_job, bind, call, noting. cbn [fst snd]. destruct (c w) as [w1 [job|e]].
  - cbn [WaitJob recording_client fst snd]. destruct (WaitJob job w1) as [w2 [e|]]; cbn [fst snd]; unfold ret at 1.
    + destruct (Kt e) as (a & -> & Ha). exists w2, [Start j Accepted; Wait false], a. rewrite <- app_assoc. split; [done|].
      right. exists j. split; [done|]. right. by rewrite Ha.
    + exists w2, [Start j Accepted; Wait true], an. rewrite Kn, <- app_assoc. split; [done|]. right. exists j. split; [done|]. right. by rewrite Hn.
  - unfold ret at 1. destruct (Kf e) as (a & -> & Ha). eexists w1, _, a. split; [done|]. right. exists j. split; [done|]. left.
    eexists. split; [done|]. split; [by destruct (IsNotFound e)|]. intros Hk. by destruct (Ha Hk) as [-> Hd].
Qed.

(** The branches after a job. *)
Ltac after_job := let x := fresh "e" in
  first [ by (eexists; split; [reflexivity|reflexivity]) | by (intros x; eexists; split; [reflexivity|reflexivity])
        | by (intros x; eexists; split; [reflexivity|discriminate])
        | intros x; cbv beta iota; destruct (IsNotFound x) eqn:?; eexists; (split; [reflexivity|]); first [done|discriminate] ].

Lemma datasetSubpath_full pool full :
  datasetSubpath pool full <> [] -> full = pool ++ #"/" ++ datasetSubpath pool full.
Proof.
  unfold datasetSubpath. destruct (has_prefix full (pool ++ #"/")) eqn:Ep; cbn [negb]; [|done].
  apply has_prefix_iff in Ep as [r ->]. intros _. by rewrite trim_prefix_app, <- app_assoc.
Qed.

Lemma EncodeVolumeID_name parent leaf spec : cdParent spec = parent -> cdName spec = leaf ->
  FullName spec = EncodeVolumeID parent leaf.
Proof. intros <- <-. reflexivity. Qed.

Lemma create_does req : does (CCreate req) (CreateVolume cfg req).
Proof.
  unfold CreateVolume. destruct (str_eqb (cvName req) []); [apply does_ret|]. destruct (classify _ _) as [kind|e]; [|apply does_ret]. cbv zeta.
  destruct (str_eqb (firstNonEmpty [lookup_str (cvParameters req) #"pool"; DefaultPool cfg]) []); [apply does_ret|].
  set (pool := firstNonEmpty [lookup_str (cvParameters req) #"pool"; DefaultPool cfg]).
  set (parent := firstNonEmpty _). set (full := EncodeVolumeID parent (cvName req)).
  set (capacity := if _ || _ then _ else _). destruct (bool_decide (kind = kindNFS)).
  - unfold createNFSVolume. destruct (str_eqb (datasetSubpath pool full) []) eqn:Ed; [apply does_ret|]. apply str_eqb_neq, datasetSubpath_full in Ed.
    assert (Hj : forall spec, psPool spec = pool -> psDatasetName spec = datasetSubpath pool full -> psName spec = cvName req -> own cfg (CCreate req) (JShare spec)).
    { intros spec Hp Hds Hn. cbn [own]. by rewrite Hp, Hds, Hn, <- Ed. }
    apply does_read. intros [[s|]|e]; [apply does_ret| |destruct (IsNotFound e); [|apply does_ret]]; apply does_job; try (by apply Hj); after_job.
  - assert (Hj : forall spec, cdParent spec = parent -> cdName spec = cvName req -> own cfg (CCreate req) (JCreate spec)).
    { intros spec. apply EncodeVolumeID_name. }
    apply does_read. intros [[d|]|e]; [repeat (destruct (negb _); [apply does_ret|]); apply does_ret| |destruct (IsNotFound e); [|apply does_ret]];
      apply does_job; try (by apply Hj); after_job.
Qed.

Lemma parse_full id v : ParseVolumeID id = Ok v -> vFull v = id.
Proof. unfold ParseVolumeID. intros. repeat case_match; by simplify_eq. Qed.

Lemma destroy_does id v : ParseVolumeID id = Ok v -> does (CDelete id) (destroy_volume v).
Proof. intros Hv. apply does_job; [by split; [apply parse_full|]|after_job..]. Qed.

Lemma delete_does id : does (CDelete id) (DeleteVolume id).
Proof.
  unfold DeleteVolume. destruct (ParseVolumeID id) as [v|] eqn:Ev; [|apply does_ret]. cbv zeta.
  destruct (str_eqb _ []) eqn:Ed; cbn [negb]; [by apply destroy_does|]. apply str_eqb_neq, datasetSubpath_full in Ed.
  apply does_read. intros [[s|]|e]; [|by apply destroy_does..]. apply does_job; [|after_job..]. cbn [own]. by rewrite <- Ed, (parse_full _ _ Ev).
Qed.

Lemma expand_does id range cap : does (CExpand id range cap) (ControllerExpandVolume id range cap).
Proof.
  unfold ControllerExpandVolume. destruct (ParseVolumeID id) as [v|] eqn:Ev; [|apply does_ret]. cbv zeta.
  apply does_read. intros [[d|]|e]; [|apply does_ret|destruct (IsNotFound e); apply does_ret].
  assert (Hj : forall props, own cfg (CExpand id range cap) (JProps (vFull v) props)) by (intros props; by apply parse_full).
  destruct (str_eqb (dType d) #"filesystem"); [apply does_job; [apply Hj|after_job..]|].
  destruct (str_eqb (dType d) #"volume"); [apply does_job; [apply Hj|after_job..]|apply does_ret].
Qed.

Lemma snapshots_do :
  (forall name source, does (CSnapshot name source) (CreateSnapshot name source)) /\
  (forall id, does (CDeleteSnapshot id) (DeleteSnapshot id)) /\ (forall id, does (CGet id) (ControllerGetVolume id)).
Proof.
  split_and!.
  - intros name source. unfold CreateSnapshot. destruct (str_eqb name []); [apply does_ret|].
    destruct (ParseVolumeID source) as [v|] eqn:Ev; [|apply does_ret]. apply does_job; [by split; [apply parse_full|]|after_job..].
  - intros id. unfold DeleteSnapshot. destruct (str_eqb id []); [apply does_ret|].
    destruct (ParseSnapshotID id); [|apply does_ret]. apply does_job; [done|after_job..].
  - intros id. unfold ControllerGetVolume. destruct (ParseVolumeID id) as [v|]; [|apply does_ret].
    apply does_read. intros [[d|]|e]; [apply does_ret..|destruct (IsNotFound e); apply does_ret].
Qed.

End Jobs.

(** ** What the controller expects of the API *)

Section Expected.
Context {W E : Type} `{!Client W E} (cfg : Config).

(** When a share that does not exist is not reported as not found, no NFS
    volume is ever created. *)
Lemma nfs_create_needs_not_found req w :
  (forall l p d w, exists w1 e, GetProtocolShare l p d w = (w1, Err e) /\ IsNotFound e = false) ->
  classify (cvCapabilities req) (cvParameters req) = Ok kindNFS ->
  exists w' st, CreateVolume cfg req w = (w', Some (Err st)).
Proof.
  intros Hget Hk. unfold CreateVolume. destruct (str_eqb (cvName req) []); [by eexists _, _|]. rewrite Hk. cbv zeta.
  destruct (str_eqb _ []); [by eexists _, _|]. change (bool_decide (kindNFS = kindNFS)) with true. cbv iota.
  unfold createNFSVolume. destruct (str_eqb _ []); [by eexists _, _|]. unfold bind at 1, call at 1.
  match goal with |- context [GetProtocolShare ?l ?p ?d w] => destruct (Hget l p d w) as (w1 & e & -> & He) end.
  rewrite He. by eexists _, _.
Qed.

(** Destroying a dataset that is gone is a job that fails, not a refusal:
    deleting the volume again is an error. *)
Lemma delete_missing_fails id v w w0 r w1 job w2 e : ParseVolumeID id = Ok v ->
  GetProtocolShare (vLeaf v) (vPool v) (datasetSubpath (vPool v) (vFull v)) w = (w0, Err r) -> datasetSubpath (vPool v) (vFull v) <> [] ->
  DestroyDataset (vFull v) false w0 = (w1, Ok job) -> WaitJob job w1 = (w2, Some e) ->
  exists st, DeleteVolume id w = (w2, Some (Err st)).
Proof.
  intros Hv Hg Hd Hdes Hw. unfold DeleteVolume. rewrite Hv. cbv zeta. rewrite (proj2 (str_eqb_neq _ _)) by done. cbn [negb].
  unfold bind at 1, call at 1. rewrite Hg. unfold destroy_volume, run_job, bind, call, ret. rewrite Hdes, Hw. by eexists.
Qed.
End Expected.

(** ** Sizes *)

(** The fields of a capacity range are int64. *)
Definition int64_range (r : option CapacityRange) : Prop :=
  match r with
  | Some r => in_int64 (RequiredBytes r) = true /\ in_int64 (LimitBytes r) = true
  | None => True
  end.

Lemma requestedCapacity_int64 r : int64_range r -> in_int64 (requestedCapacity r) = true.
Proof. destruct r as [r|]; [|done]. intros [? ?]. unfold requestedCapacity. by repeat case_match. Qed.

Lemma roundUp_int64 n m : in_int64 n = true -> in_int64 (roundUp n m) = true.
Proof. intros Hn. unfold roundUp. repeat case_match; [done..|apply wrap64_range]. Qed.

Lemma classify_known caps params kind : classify caps params = Ok kind -> kind <> kindUnknown.
Proof.
  assert (Hk : forall l first k, classify_caps first l = Ok k -> first <> Some kindUnknown ->
            (first = None -> l <> []) -> k <> kindUnknown).
  { induction l as [|c l IH]; intros first k; simpl.
    - destruct first; [|naive_solver]. by intros [= <-] ? _ ->.
    - destruct (cap_type c) as [t|]; [|done]. destruct first as [k0|].
      + case_bool_decide; [done|]. intros ? ? _. by eapply IH.
      + intros Hc _ _. eapply IH; [done|by destruct t|done]. }
  unfold classify. destruct caps as [|c caps]; [done|].
  destruct (classify_caps None (c :: caps)) as [k|] eqn:E; [|done].
  apply Hk in E; [|done|done].
  destruct (equal_fold _ _); [case_bool_decide|]; naive_solver.
Qed.

(** ** An API in memory *)

Abbreviation share_key := (gostr * gostr * gostr)%type.

Record MemApi := mkMemApi {
  ma_datasets : gmap gostr Dataset;
  ma_shares : gmap share_key ProtocolShareDetail }.

Definition created (spec : CreateDatasetSpec) : Dataset :=
  let n := FullName spec in
  mkDataset n (cdType spec) 0 0 (#"/" ++ n) (VolumeSizeBytes spec)
    (default 0 (Properties spec !! #"quota" ≫= atoi)).

(** The only error: not found. *)
#[global] Instance MemApi_Client : Client MemApi unit := {
  IsNotFound _ := true;
  GetDataset n w := (w, match ma_datasets w !! n with Some d => Ok (Some d) | None => Err tt end);
  CreateDataset spec w :=
    (mkMemApi (<[FullName spec := created spec]> (ma_datasets w)) (ma_shares w), Ok #"job");
  DestroyDataset n _ w :=
    match ma_datasets w !! n with
    | Some _ => (mkMemApi (delete n (ma_datasets w)) (ma_shares w), Ok #"job")
    | None => (w, Err tt)
    end;
  SetDatasetProps n props w :=
    match ma_datasets w !! n with
    | Some d =>
        (mkMemApi (<[n := mkDataset (dName d) (dType d) (UsedBytes d) (AvailableBytes d) (Mountpoint d)
                            (default (Volsize d) (props !! #"volsize" ≫= atoi))
                            (default (Quota d) (props !! #"quota" ≫= atoi))]> (ma_datasets w))
           (ma_shares w), Ok #"job")
    | None => (w, Err tt)
    end;
  CreateSnapshot_ _ _ _ w := (w, Ok #"job");
  DestroySnapshot _ w := (w, Ok #"job");
  CreateProtocolShare spec w :=
    (mkMemApi (ma_datasets w)
       (<[(psName spec, psPool spec, psDatasetName spec) :=
            mkShare (psName spec) (psPool spec) (psDatasetName spec) []]> (ma_shares w)), Ok #"job");
  GetProtocolShare l p d w :=
    (w, match ma_shares w !! (l, p, d) with Some s => Ok (Some s) | None => Err tt end);
  DeleteProtocolShare l p d w :=
    match ma_shares w !! (l, p, d) with
    | Some _ => (mkMemApi (delete (p ++ #"/" ++ d) (ma_datasets w)) (delete (l, p, d) (ma_shares w)),
                 Ok #"job")
    | None => (w, Err tt)
    end;
  WaitJob _ w := (w, None) }.

Lemma atoi_FormatInt q : in_int64 q = true -> atoi (FormatInt q) = Some q.
Proof.
  unfold in_int64, MinInt64, MaxInt64. intros Hq. unfold FormatInt. destruct (Z.ltb_spec q 0).
  - rewrite <- (Z.opp_involutive q) at 2. apply atoi_neg_digits.
    + apply print_uint_nonempty. lia.
    + apply print_uint_val. lia.
    + unfold in_int64, MinInt64, MaxInt64. lia.
  - apply print_uint_atoi. unfold MaxInt64. lia.
Qed.

Definition sample_cfg : Config := mkConfig [] [] false #"node1" #"tank" [] [] #"nas.local" #"10.0.0.0/8".

Definition sample_request : CreateVolumeRequest :=
  mkCreateVolume #"pvc-1" ∅ [mkCap (Some (Mount None)) SINGLE_NODE_WRITER]
    (Some (mkRange 1500000000 0)).

Definition empty_api : MemApi := mkMemApi ∅ ∅.

(** The expansion is not guarded: whatever the present size of a
    filesystem volume, a request sets its quota to the size asked for,
    rounded to a MiB, and to 1 GiB when it names no size; so a request can
    shrink a volume, and the answer reports success. *)
Theorem ControllerExpandVolume_can_shrink n (d : Dataset) v range w
    (Hv : ParseVolumeID n = Ok v) (Hfull : vFull v = n)
    (Hd : ma_datasets w !! n = Some d) (Ht : dType d = #"filesystem")
    (Hrange : int64_range range) :
  let q := roundUp (requestedCapacity range) oneMiB in
  exists w', ControllerExpandVolume n range None w = (w', Some (Ok (mkExpand q false))) /\
    exists d', ma_datasets w' !! n = Some d' /\ Quota d' = q.
Proof.
  intros q. unfold ControllerExpandVolume. rewrite Hv, Hfull. unfold bind at 1, call. simpl GetDataset.
  rewrite Hd. rewrite Ht. cbv zeta. replace (str_eqb #"filesystem" #"filesystem") with true by done.
  fold q. unfold run_job, bind, call; simpl. rewrite Hd. simpl.
  eexists; split; [done|]. simpl. rewrite lookup_insert_eq. eexists; split; [done|]. simpl.
  rewrite lookup_insert_ne by done. rewrite lookup_singleton_eq. simpl.
  rewrite atoi_FormatInt; [done|]. unfold q. by apply roundUp_int64, requestedCapacity_int64.
Qed.

Lemma ControllerExpandVolume_can_shrink_witness :
  let w := (CreateVolume sample_cfg sample_request empty_api).1 in
  (exists d, ma_datasets w !! #"tank/csi/pvc-1" = Some d /\ Quota d = 1500512256) /\
  exists w', ControllerExpandVolume #"tank/csi/pvc-1" (Some (mkRange 1048576 0)) None w
             = (w', Some (Ok (mkExpand 1048576 false))) /\
    exists d', ma_datasets w' !! #"tank/csi/pvc-1" = Some d' /\ Quota d' = 1048576.
Proof.
  intros w. split; [eexists; split; [vm_compute; reflexivity|reflexivity]|].
  eapply (ControllerExpandVolume_can_shrink #"tank/csi/pvc-1" _ _ (Some (mkRange 1048576 0)) w).
  - vm_compute. reflexivity.
  - reflexivity.
  - vm_compute. reflexivity.
  - reflexivity.
  - split; reflexivity.
Defined.
