(* ===== verification/CsiNode.v ===== *)
(** * internal/csi: the node service and the shell mounter

    node.go over the interface [Mounter] of mount.go, and mount.go's own
    implementation over an interface that runs commands. *)

From S2P Require Import Prelude GoStrings Effects Csi.
Import Csi.

Module CsiNode.

(** ** mount.go *)

Record NFSMountOpts := mkNFSMountOpts { Options : gostr; ReadOnly : bool }.

Class Mounter (W E : Type) := {
  BindMount : gostr -> gostr -> bool -> W -> W * option E;
  Unmount : gostr -> W -> W * option E;
  IsMounted : gostr -> W -> W * res E bool;
  Mkfs : gostr -> gostr -> W -> W * option E;
  IsFormatted : gostr -> W -> W * res E (bool * gostr);
  GrowFS : gostr -> gostr -> gostr -> W -> W * option E;
  EnsureDir : gostr -> W -> W * option E;
  EnsureFile : gostr -> W -> W * option E;
  NFSMount : gostr -> gostr -> gostr -> NFSMountOpts -> W -> W * option E }.

Definition parentDir (p : gostr) : gostr :=
  match cut_last "/"%char p with
  | Some (c :: l, _) => c :: l
  | _ => #"/"
  end.

(** The commands the shell mounter runs, in order; each runs only when the
    one before it succeeded. *)
Definition bind_mount_cmds (source target : gostr) (readonly : bool) : list (list gostr) :=
  [[ #"mount"; #"--bind"; source; target]]
  ++ (if readonly then [[ #"mount"; #"-o"; #"remount,ro,bind"; target]] else []).

Definition mkfs_cmd (device fsType : gostr) : option (list gostr) :=
  if str_eqb fsType #"ext4" then Some [ #"mkfs.ext4"; #"-F"; device]
  else if str_eqb fsType #"xfs" then Some [ #"mkfs.xfs"; #"-f"; device]
  else None.

Definition grow_cmd (target device fsType : gostr) : option (list gostr) :=
  if str_eqb fsType #"ext4" then Some [ #"resize2fs"; device]
  else if str_eqb fsType #"xfs" then Some [ #"xfs_growfs"; target]
  else None.

Inductive nfs_mount_err := ServerRequired | ExportPathRequired.

Definition nfs_mount_cmd (server exportPath target : gostr) (opts : NFSMountOpts)
  : res nfs_mount_err (list gostr) :=
  ensure negb (str_eqb server []) else ServerRequired ;;
  ensure negb (str_eqb exportPath []) else ExportPathRequired ;;
  let options := if str_eqb (Options opts) [] then DefaultNFSMountOptions else Options opts in
  let options := if ReadOnly opts then options ++ #",ro" else options in
  Ok [ #"mount.nfs4"; #"-o"; options; server ++ #":" ++ exportPath; target].

(** ** node.go *)

(** Driver.hostPath. *)
Definition hostPath (cfg : Config) (p : gostr) : gostr :=
  if str_eqb (HostRootPrefix cfg) [] || str_eqb p [] then p
  else if has_prefix p (HostRootPrefix cfg) then p
  else HostRootPrefix cfg ++ p.

Definition kindFromContext (c : smap) : gostr :=
  let v := lookup_str c #"volumeKind" in
  if negb (str_eqb v []) then v else #"filesystem".

(** A mount capability without a volume, or with an empty type, has none. *)
Definition mountFsType (cap : VolumeCapability) (def : gostr) : gostr :=
  match cap_type cap with
  | Some (Mount (Some fs)) => if negb (str_eqb fs []) then fs else def
  | _ => def
  end.

Definition is_block (cap : VolumeCapability) : bool :=
  match cap_type cap with Some Block => true | _ => false end.

Section Node.
Context {W E : Type} `{!Client W E, !Mounter W E} (cfg : Config).

(** [if err := op; err != nil { return errInternal }; k] *)
Definition checked {A} (op : W -> W * option E) (msg : string) (k : M W (res status A))
  : M W (res status A) :=
  let! e := call op in
  match e with Some _ => ret (Err (errInternal msg)) | None => k end.

Definition NodeGetInfo : gostr := NodeID cfg.

Definition stage_zvol (id : VolumeID) (staging : gostr) (cap : VolumeCapability)
  : M W (res status unit) :=
  let device := ZvolDevicePath id in
  let fsType := mountFsType cap #"ext4" in
  let mount :=
    checked (EnsureDir staging) "mkdir staging: %v"
      (let! m := call (IsMounted staging) in
       match m with
       | Err _ => ret (Err (errInternal "check staging mount: %v"))
       | Ok true => ret (Ok tt)
       | Ok false => checked (BindMount device staging false) "stage mount: %v" (ret (Ok tt))
       end) in
  let! f := call (IsFormatted device) in
  match f with
  | Err _ => ret (Err (errInternal "blkid %s: %v"))
  | Ok (false, _) => checked (Mkfs device fsType) "mkfs.%s %s: %v" mount
  | Ok (true, existing) =>
      if negb (str_eqb existing fsType)
      then ret (Err (errInternal "device %s already has fs %q, requested %q"))
      else mount
  end.

Definition NodeStageVolume (volumeId staging : gostr) (cap : option VolumeCapability) (ctx : smap)
  : M W (res status unit) :=
  match ParseVolumeID volumeId with
  | Err _ => ret (Err (errInvalid "VolumeId: %v"))
  | Ok id =>
      match cap with
      | None => ret (Err (errInvalid "VolumeCapability is required"))
      | Some cap =>
          let kind := kindFromContext ctx in
          if is_block cap then ret (Ok tt)
          else if str_eqb kind #"filesystem" then ret (Ok tt)
          else if str_eqb kind #"nfs" then ret (Ok tt)
          else stage_zvol id staging cap
      end
  end.

Definition NodeUnstageVolume (staging : gostr) : M W (res status unit) :=
  if str_eqb staging [] then ret (Err (errInvalid "StagingTargetPath is required"))
  else checked (Unmount staging) "unmount staging: %v" (ret (Ok tt)).

Definition publishNFS (ctx : smap) (target : gostr) (readonly : bool) : M W (res status unit) :=
  let server := lookup_str ctx #"nfsServer" in
  let exportPath := lookup_str ctx #"nfsPath" in
  let mountOpts := lookup_str ctx #"mountOptions" in
  if str_eqb server [] || str_eqb exportPath []
  then ret (Err (errInvalid "VolumeContext is missing nfsServer or nfsPath for NFS volume"))
  else
    checked (EnsureDir target) "ensure target dir: %v"
      (let! m := call (IsMounted target) in
       match m with
       | Err _ => ret (Err (errInternal "check target mount: %v"))
       | Ok true => ret (Ok tt)
       | Ok false =>
           checked (NFSMount server exportPath target (mkNFSMountOpts mountOpts readonly))
             "mount.nfs4 %s:%s -> %s: %v" (ret (Ok tt))
       end).

(** The source of the bind mount, or why there is none. *)
Definition publish_source (id : VolumeID) (cap : VolumeCapability) (kind staging : gostr)
  : M W (res status gostr) :=
  if is_block cap then ret (Ok (hostPath cfg (ZvolDevicePath id)))
  else if str_eqb kind #"filesystem" then
    let! g := call (GetDataset (vFull id)) in
    match g with
    | Err _ => ret (Err (errInternal "get dataset: %v"))
    | Ok None => ret (Err nilDereference)
    | Ok (Some ds) =>
        if str_eqb (Mountpoint ds) [] then ret (Err (errInternal "dataset %s has no mountpoint"))
        else ret (Ok (hostPath cfg (Mountpoint ds)))
    end
  else if str_eqb staging []
  then ret (Err (errInvalid "StagingTargetPath is required for fs-on-zvol publish"))
  else ret (Ok staging).

Definition publish_bind (source target : gostr) (isBlock readonly : bool) : M W (res status unit) :=
  checked (if isBlock then EnsureFile target else EnsureDir target)
    (if isBlock then "ensure target file: %v" else "ensure target dir: %v")
    (let! m := call (IsMounted target) in
     match m with
     | Err _ => ret (Err (errInternal "check target mount: %v"))
     | Ok true => ret (Ok tt)
     | Ok false =>
         checked (BindMount source target readonly) "bind-mount %s -> %s: %v" (ret (Ok tt))
     end).

Definition NodePublishVolume (volumeId target staging : gostr) (readonly : bool)
    (cap : option VolumeCapability) (ctx : smap) : M W (res status unit) :=
  match ParseVolumeID volumeId with
  | Err _ => ret (Err (errInvalid "VolumeId: %v"))
  | Ok id =>
      match cap with
      | None => ret (Err (errInvalid "VolumeCapability is required"))
      | Some cap =>
          if str_eqb target [] then ret (Err (errInvalid "TargetPath is required"))
          else
            let kind := kindFromContext ctx in
            if str_eqb kind #"nfs" then publishNFS ctx target readonly
            else
              let! s := publish_source id cap kind staging in
              match s with
              | Err e => ret (Err e)
              | Ok source => publish_bind source target (is_block cap) readonly
              end
      end
  end.

Definition NodeUnpublishVolume (target : gostr) : M W (res status unit) :=
  if str_eqb target [] then ret (Err (errInvalid "TargetPath is required"))
  else checked (Unmount target) "unmount target: %v" (ret (Ok tt)).

(** GetRequiredBytes on a nil range is zero. *)
Definition required_bytes (r : option CapacityRange) : Z :=
  match r with Some r => RequiredBytes r | None => 0 end.

Definition NodeExpandVolume (volumeId target : gostr) (range : option CapacityRange)
  : M W (res status Z) :=
  match ParseVolumeID volumeId with
  | Err _ => ret (Err (errInvalid "VolumeId: %v"))
  | Ok id =>
      let device := ZvolDevicePath id in
      if str_eqb target [] then ret (Err (errInvalid "VolumePath is required"))
      else
        let! f := call (IsFormatted device) in
        match f with
        | Err _ => ret (Err (errInternal "detect fs: %v"))
        | Ok (_, fsType) =>
            if str_eqb fsType [] then ret (Ok (required_bytes range))
            else checked (GrowFS target device fsType) "growfs: %v" (ret (Ok (required_bytes range)))
        end
  end.
End Node.

End CsiNode.

(** * The node service: no filesystem is lost, publishing is idempotent

    Proved against what the mounter promises ([MounterLaws]); a host in
    memory discharges the promises. *)

From S2P Require Import Prelude GoStrings Effects Csi.
Import Csi CsiNode.

(** What a target shows: a bind mount, or an NFS mount. *)
Inductive mount_src :=
| FromBind (source : gostr) (readonly : bool)
| FromNFS (server path : gostr) (opts : NFSMountOpts).

(** [fs]: the filesystem on each formatted device; [mounts]: what is
    mounted where.  Every operation but Mkfs leaves the filesystems alone,
    and only the three mount operations touch the mounts. *)
Class MounterLaws (W E : Type) `{!Client W E, !Mounter W E} := {
  fs : W -> gmap gostr gostr;
  mounts : W -> gmap gostr mount_src;
  same (w w' : W) : Prop := fs w' = fs w /\ mounts w' = mounts w;
  get_same : forall n w, same w (GetDataset n w).1;
  ensure_dir_same : forall p w, same w (EnsureDir p w).1;
  ensure_file_same : forall p w, same w (EnsureFile p w).1;
  grow_same : forall t d f w, same w (GrowFS t d f w).1;
  is_mounted_spec : forall t w, same w (IsMounted t w).1 /\
    forall b, (IsMounted t w).2 = Ok b -> b = bool_decide (is_Some (mounts w !! t));
  is_formatted_spec : forall d w, same w (IsFormatted d w).1 /\
    forall b f, (IsFormatted d w).2 = Ok (b, f) ->
      fs w !! d = if b then Some f else None;
  mkfs_spec : forall d f w, mounts (Mkfs d f w).1 = mounts w /\
    forall d', d' <> d -> fs (Mkfs d f w).1 !! d' = fs w !! d';
  bind_spec : forall s t ro w, fs (BindMount s t ro w).1 = fs w /\
    ((BindMount s t ro w).2 = None ->
       mounts (BindMount s t ro w).1 = <[t := FromBind s ro]> (mounts w));
  nfs_spec : forall sv p t o w, fs (NFSMount sv p t o w).1 = fs w /\
    ((NFSMount sv p t o w).2 = None ->
       mounts (NFSMount sv p t o w).1 = <[t := FromNFS sv p o]> (mounts w));
  unmount_spec : forall t w, fs (Unmount t w).1 = fs w /\
    ((Unmount t w).2 = None -> mounts (Unmount t w).1 = delete t (mounts w)) }.

Section Node.
Context {W E : Type} `{MounterLaws W E} (cfg : Config).

(** ** Filesystems survive *)

Definition keeps_fs (w w' : W) : Prop :=
  forall d t, fs w !! d = Some t -> fs w' !! d = Some t.

#[local] Instance keeps_fs_refl : Reflexive keeps_fs.
Proof. by intros w d t. Qed.
#[local] Instance keeps_fs_trans : Transitive keeps_fs.
Proof. intros w1 w2 w3 H1 H2 d t Ht. by apply H2, H1. Qed.

Lemma same_keeps_fs w w' : same w w' -> keeps_fs w w'.
Proof. intros [Hf _] d t. by rewrite Hf. Qed.

Lemma fs_keeps_fs w w' : fs w' = fs w -> keeps_fs w w'.
Proof. intros Hf d t. by rewrite Hf. Qed.

Lemma keeps_checked {A} (op : W -> W * option E) msg (k : M W (res status A)) :
  (forall w, keeps_fs w (op w).1) -> respects keeps_fs k -> respects keeps_fs (checked op msg k).
Proof.
  intros Ho Hk. unfold checked. apply respects_bind; [apply _|apply respects_call, Ho|].
  intros [e|]; [apply respects_ret; apply _|done].
Qed.

Lemma keeps_mount staging device :
  respects keeps_fs
    (checked (EnsureDir staging) "mkdir staging: %v"
      (let! m := call (IsMounted staging) in
       match m with
       | Err _ => ret (Err (errInternal "check staging mount: %v"))
       | Ok true => ret (Ok tt)
       | Ok false => checked (BindMount device staging false) "stage mount: %v" (ret (Ok tt))
       end)).
Proof.
  apply keeps_checked; [intros w; apply same_keeps_fs, ensure_dir_same|].
  apply respects_bind; [apply _|apply respects_call; intros w; apply same_keeps_fs, is_mounted_spec|].
  intros [[|]|]; try (apply respects_ret; apply _).
  apply keeps_checked; [intros w; apply fs_keeps_fs, bind_spec|apply respects_ret; apply _].
Qed.

(** mkfs runs only on a device that blkid has just reported blank. *)
Lemma keeps_stage id staging cap : respects keeps_fs (stage_zvol id staging cap).
Proof.
  unfold stage_zvol. cbv zeta. set (dev := ZvolDevicePath id).
  pose proof (keeps_mount staging dev) as Hm. intros w. unfold bind at 1, call.
  destruct (is_formatted_spec dev w) as [Hsame Hf].
  destruct (IsFormatted dev w) as [w1 r]. cbn [fst snd] in *.
  assert (keeps_fs w w1) as H1 by (by apply same_keeps_fs).
  destruct r as [[[|] existing]|e]; [| |done].
  - destruct (negb _); [done|]. etransitivity; [done|apply Hm].
  - specialize (Hf false existing eq_refl). simpl in Hf. unfold checked at 1, bind at 1, call.
    destruct (mkfs_spec dev (mountFsType cap #"ext4") w1) as [_ Hmk].
    destruct (Mkfs dev _ w1) as [w2 e2]. cbn [fst snd] in *.
    assert (keeps_fs w w2) as H2.
    { intros d t Ht. destruct (decide (d = dev)) as [->|Hne]; [congruence|].
      rewrite Hmk by done. by apply H1. }
    destruct e2; [done|]. etransitivity; [done|apply Hm].
Qed.

(** The calls kubelet makes. *)
Inductive node_call :=
| Stage (volumeId staging : gostr) (cap : option VolumeCapability) (ctx : smap)
| Unstage (staging : gostr)
| Publish (volumeId target staging : gostr) (readonly : bool) (cap : option VolumeCapability)
    (ctx : smap)
| Unpublish (target : gostr)
| Expand (volumeId target : gostr) (range : option CapacityRange).

Definition node_exec (c : node_call) : M W (option status) :=
  let fin {A} (m : M W (res status A)) : M W (option status) :=
    let! r := m in ret (match r with Ok _ => None | Err e => Some e end) in
  match c with
  | Stage v s c x => fin (NodeStageVolume v s c x)
  | Unstage s => fin (NodeUnstageVolume s)
  | Publish v t s ro c x => fin (NodePublishVolume cfg v t s ro c x)
  | Unpublish t => fin (NodeUnpublishVolume t)
  | Expand v t r => fin (NodeExpandVolume v t r)
  end.

Definition node_run (cs : list node_call) : M W unit :=
  each (fun c => let! _ := node_exec c in ret tt) cs.

Lemma keeps_ret {A} (a : A) : respects keeps_fs (ret a).
Proof. apply respects_ret; apply _. Qed.

Lemma keeps_unmount t msg : respects keeps_fs (checked (Unmount t) msg (ret (Ok tt))).
Proof. apply keeps_checked; [intros w; apply fs_keeps_fs, unmount_spec|apply keeps_ret]. Qed.

Lemma keeps_publishNFS ctx target ro : respects keeps_fs (publishNFS ctx target ro).
Proof.
  unfold publishNFS. destruct (_ || _); [apply keeps_ret|].
  apply keeps_checked; [intros w; apply same_keeps_fs, ensure_dir_same|].
  apply respects_bind; [apply _|apply respects_call; intros w; apply same_keeps_fs, is_mounted_spec|].
  intros [[|]|]; try apply keeps_ret.
  apply keeps_checked; [intros w; apply fs_keeps_fs, nfs_spec|apply keeps_ret].
Qed.

Lemma keeps_publish_bind source target b ro :
  respects keeps_fs (publish_bind source target b ro).
Proof.
  unfold publish_bind. apply keeps_checked.
  { intros w. apply same_keeps_fs. destruct b; [apply ensure_file_same|apply ensure_dir_same]. }
  apply respects_bind; [apply _|apply respects_call; intros w; apply same_keeps_fs, is_mounted_spec|].
  intros [[|]|]; try apply keeps_ret.
  apply keeps_checked; [intros w; apply fs_keeps_fs, bind_spec|apply keeps_ret].
Qed.

Lemma keeps_publish_source id cap kind staging :
  respects keeps_fs (publish_source cfg id cap kind staging).
Proof.
  unfold publish_source. destruct (is_block cap); [apply keeps_ret|].
  destruct (str_eqb kind _); [|destruct (str_eqb staging []); apply keeps_ret].
  apply respects_bind; [apply _|apply respects_call; intros w; apply same_keeps_fs, get_same|].
  intros [[ds|]|]; [destruct (str_eqb _ [])|..]; apply keeps_ret.
Qed.

Lemma keeps_fin {A} (m : M W (res status A)) :
  respects keeps_fs m ->
  respects keeps_fs (let! r := m in ret (match r with Ok _ => None | Err e => Some e end)).
Proof. intros Hm. apply respects_bind; [apply _|done|]. intros r. apply keeps_ret. Qed.

Lemma keeps_exec c : respects keeps_fs (node_exec c).
Proof.
  destruct c as [v s cp x|s|v t s ro cp x|t|v t r]; apply keeps_fin.
  - unfold NodeStageVolume. destruct (ParseVolumeID v) as [id|]; [|apply keeps_ret].
    destruct cp as [cp|]; [|apply keeps_ret]. cbv zeta.
    destruct (is_block cp); [apply keeps_ret|].
    destruct (str_eqb (kindFromContext x) #"filesystem"); [apply keeps_ret|].
    destruct (str_eqb (kindFromContext x) #"nfs"); [apply keeps_ret|apply keeps_stage].
  - unfold NodeUnstageVolume. destruct (str_eqb s []); [apply keeps_ret|apply keeps_unmount].
  - unfold NodePublishVolume. destruct (ParseVolumeID v) as [id|]; [|apply keeps_ret].
    destruct cp as [cp|]; [|apply keeps_ret]. destruct (str_eqb t []); [apply keeps_ret|]. cbv zeta.
    destruct (str_eqb (kindFromContext x) #"nfs"); [apply keeps_publishNFS|].
    apply respects_bind; [apply _|apply keeps_publish_source|].
    intros [source|]; [apply keeps_publish_bind|apply keeps_ret].
  - unfold NodeUnpublishVolume. destruct (str_eqb t []); [apply keeps_ret|apply keeps_unmount].
  - unfold NodeExpandVolume. destruct (ParseVolumeID v) as [id|]; [|apply keeps_ret]. cbv zeta.
    destruct (str_eqb t []); [apply keeps_ret|].
    apply respects_bind; [apply _|apply respects_call; intros w; apply same_keeps_fs, is_formatted_spec|].
    intros [[b f]|]; [|apply keeps_ret]. destruct (str_eqb f []); [apply keeps_ret|].
    apply keeps_checked; [intros w; apply same_keeps_fs, grow_same|apply keeps_ret].
Qed.

(** No sequence of node calls, with whatever arguments, destroys a
    filesystem: a device that carries one still carries it afterwards. *)
Theorem node_calls_keep_filesystems cs w dev t :
  fs w !! dev = Some t -> fs (node_run cs w).1 !! dev = Some t.
Proof.
  intros Ht. assert (respects keeps_fs (node_run cs)) as Hr; [|by apply Hr].
  apply respects_each; [apply _..|]. intros c _.
  apply respects_bind; [apply _|apply keeps_exec|]. intros r. apply keeps_ret.
Qed.

(** ** Publishing *)

(** The part of a publish after the source is known: mount unless mounted. *)
Lemma mount_unless_mounted (prep mount : W -> W * option E) msg msg2 target src w w' :
  (forall w, same w (prep w).1) ->
  (forall w, fs (mount w).1 = fs w /\
     ((mount w).2 = None -> mounts (mount w).1 = <[target := src]> (mounts w))) ->
  let m :=
    checked prep msg
      (let! m := call (IsMounted target) in
       match m with
       | Err _ => ret (Err (errInternal "check target mount: %v"))
       | Ok true => ret (Ok tt)
       | Ok false => checked mount msg2 (ret (Ok tt))
       end) in
  m w = (w', Some (Ok tt)) ->
  is_Some (mounts w' !! target) /\
  (mounts w !! target = None -> mounts w' = <[target := src]> (mounts w)) /\
  (is_Some (mounts w !! target) -> mounts w' = mounts w).
Proof.
  intros Hens Hmount m. unfold m, checked, bind, call.
  specialize (Hens w). destruct (prep w) as [w1 [e|]]; [done|]. destruct Hens as [_ Hm1].
  cbn [fst] in Hm1. destruct (is_mounted_spec target w1) as [[_ Hm2] Hb].
  destruct (IsMounted target w1) as [w2 r]. cbn [fst snd] in *. rewrite Hm1 in Hm2.
  destruct r as [b|e]; [|done]. specialize (Hb b eq_refl). rewrite Hm1 in Hb. destruct b.
  - symmetry in Hb. apply bool_decide_eq_true in Hb. intros [= <-]. rewrite Hm2.
    split_and!; [done| |done]. intros Hn. rewrite Hn in Hb. by destruct Hb.
  - symmetry in Hb. apply bool_decide_eq_false in Hb. destruct (Hmount w2) as [_ Hmo].
    destruct (mount w2) as [w3 [e|]]; [done|]. intros [= <-]. cbn [fst snd] in *.
    rewrite Hmo, Hm2 by done. rewrite lookup_insert_eq. split_and!; [eauto|done|].
    intros Hs. done.
Qed.

(** Publishing is idempotent: after a success something is mounted at
    the target; if nothing was before, it is one mount of the volume with
    the requested read-only flag and everything else is as it was; if the
    target was mounted already, no mount changes. *)
Theorem NodePublishVolume_mounts v target staging ro cap ctx w w'
    (Hok : NodePublishVolume cfg v target staging ro cap ctx w = (w', Some (Ok tt))) :
  is_Some (mounts w' !! target) /\
  (mounts w !! target = None ->
     exists src, mounts w' = <[target := src]> (mounts w) /\
       match src with FromBind _ r => r = ro | FromNFS _ _ o => ReadOnly o = ro end) /\
  (is_Some (mounts w !! target) -> mounts w' = mounts w).
Proof.
  revert Hok. unfold NodePublishVolume. destruct (ParseVolumeID v) as [id|]; [|done].
  destruct cap as [cap|]; [|done]. destruct (str_eqb target []); [done|]. cbv zeta.
  destruct (str_eqb (kindFromContext ctx) #"nfs").
  - unfold publishNFS. destruct (_ || _); [done|].
    intros Hm. eapply mount_unless_mounted in Hm as (H1 & H2 & H3);
      [|apply ensure_dir_same|intros w0; apply nfs_spec].
    split_and!; [done| |done]. intros Hn. eexists. split; [by apply H2|done].
  - unfold bind at 1. destruct (publish_source cfg id cap _ staging w) as [w1 r] eqn:Es.
    destruct r as [[source|e]|]; [|done..].
    assert (mounts w1 = mounts w) as Hw1.
    { revert Es. unfold publish_source. destruct (is_block cap); [by intros [= <- _]|].
      destruct (str_eqb (kindFromContext ctx) #"filesystem"); [|destruct (str_eqb staging []); [done|by intros [= <- _]]].
      unfold bind, call. destruct (get_same (vFull id) w) as [_ Hg].
      destruct (GetDataset (vFull id) w) as [w2 [[ds|]|]]; [|done..].
      destruct (str_eqb (Mountpoint ds) []); [done|]. by intros [= <- _]. }
    unfold publish_bind. intros Hm. rewrite <- Hw1.
    eapply (mount_unless_mounted _ _ _ _ target (FromBind source ro)) in Hm as (H1 & H2 & H3).
    + split_and!; [done| |done]. intros Hn. eexists. split; [by apply H2|done].
    + intros w0. destruct (is_block cap); [apply ensure_file_same|apply ensure_dir_same].
    + intros w0. apply bind_spec.
Qed.
End Node.

(** ** A host in memory *)

Record MemNode := mkMemNode {
  mn_datasets : gmap gostr Dataset; mn_fs : gmap gostr gostr; mn_mounts : gmap gostr mount_src }.

Definition set_mounts (w : MemNode) (m : gmap gostr mount_src) : MemNode :=
  mkMemNode (mn_datasets w) (mn_fs w) m.

#[global] Instance MemNode_Client : Client MemNode unit := {
  IsNotFound _ := true;
  GetDataset n w := (w, match mn_datasets w !! n with Some d => Ok (Some d) | None => Err tt end);
  CreateDataset _ w := (w, Err tt);
  DestroyDataset _ _ w := (w, Err tt);
  SetDatasetProps _ _ w := (w, Err tt);
  CreateSnapshot_ _ _ _ w := (w, Err tt);
  DestroySnapshot _ w := (w, Err tt);
  CreateProtocolShare _ w := (w, Err tt);
  GetProtocolShare _ _ _ w := (w, Err tt);
  DeleteProtocolShare _ _ _ w := (w, Err tt);
  WaitJob _ w := (w, None) }.

#[global] Instance MemNode_Mounter : Mounter MemNode unit := {
  BindMount s t ro w := (set_mounts w (<[t := FromBind s ro]> (mn_mounts w)), None);
  Unmount t w := (set_mounts w (delete t (mn_mounts w)), None);
  IsMounted t w := (w, Ok (bool_decide (is_Some (mn_mounts w !! t))));
  Mkfs d f w := (mkMemNode (mn_datasets w) (<[d := f]> (mn_fs w)) (mn_mounts w), None);
  IsFormatted d w :=
    (w, Ok (match mn_fs w !! d with Some f => (true, f) | None => (false, []) end));
  GrowFS _ _ _ w := (w, None);
  EnsureDir _ w := (w, None);
  EnsureFile _ w := (w, None);
  NFSMount sv p t o w := (set_mounts w (<[t := FromNFS sv p o]> (mn_mounts w)), None) }.

#[global] Program Instance MemNode_Laws : MounterLaws MemNode unit := {
  fs := mn_fs; mounts := mn_mounts }.
Next Obligation. done. Qed.
Next Obligation. done. Qed.
Next Obligation. done. Qed.
Next Obligation. done. Qed.
Next Obligation. intros t w. simpl. split; [done|]. by intros b [= <-]. Qed.
Next Obligation.
  intros d w. simpl. split; [done|]. destruct (mn_fs w !! d) eqn:E; by intros b f [= <- <-].
Qed.
Next Obligation. intros d f w. simpl. split; [done|]. intros d' Hd. by rewrite lookup_insert_ne. Qed.
Next Obligation. done. Qed.
Next Obligation. done. Qed.
Next Obligation. done. Qed.

Definition node_cfg : Config := mkConfig [] [] false #"node1" [] [] #"/host" [] [].

Definition zvol_ctx : smap := {[ #"volumeKind" := #"volume" ]}.
Definition xfs_cap : VolumeCapability := mkCap (Some (Mount (Some #"xfs"))) SINGLE_NODE_WRITER.

Definition sample_node : MemNode := mkMemNode ∅ {[ #"/dev/zvol/tank/a" := #"ext4" ]} ∅.

(** Staging the formatted volume with another filesystem type is refused,
    staging a blank one formats it. *)
Lemma node_calls_keep_filesystems_witness :
  let cs := [Stage #"tank/a" #"/stage/a" (Some xfs_cap) zvol_ctx;
             Stage #"tank/b" #"/stage/b" (Some xfs_cap) zvol_ctx;
             Publish #"tank/b" #"/pod/b" #"/stage/b" true (Some xfs_cap) zvol_ctx] in
  let w' := (node_run node_cfg cs sample_node).1 in
  fs w' !! #"/dev/zvol/tank/a" = Some #"ext4" /\ fs w' !! #"/dev/zvol/tank/b" = Some #"xfs".
Proof.
  intros cs w'. split; [|vm_compute; reflexivity].
  apply (node_calls_keep_filesystems node_cfg cs sample_node). vm_compute. reflexivity.
Defined.

Lemma NodePublishVolume_mounts_witness :
  let m := NodePublishVolume node_cfg #"tank/b" #"/pod/b" #"/stage/b" true (Some xfs_cap) zvol_ctx in
  let w' := (m sample_node).1 in
  is_Some (mounts w' !! #"/pod/b").
Proof.
  intros m w'.
  apply (NodePublishVolume_mounts node_cfg #"tank/b" #"/pod/b" #"/stage/b" true (Some xfs_cap)
           zvol_ctx sample_node w').
  vm_compute. reflexivity.
Defined.
