(* ===== verification/Replication.v ===== *)
(** * internal/replication: jobs, runs, backends, retention

    replication.go, manager.go, retention.go, zfs_backend.go and
    rsync_backend.go.  The manager is written against the interfaces
    [Store], [Locker] and [Backends]; MemStore and MemLocker of manager.go
    are modelled as they are. *)

From S2P Require Import Prelude GoStrings GoTime Retention Effects.

Module Replication.

Abbreviation uuid := gostr.

Definition uuid_nil : uuid := replicate 16 (byte_of 0).

(** BackendKind, Direction and RunOutcome are strings in the source; the
    values the code compares with are constructors, anything else is kept
    as it is. *)
Inductive BackendKind := BackendZFS | BackendS3 | BackendRsync | OtherBackend (s : gostr).
Inductive Direction := DirectionPush | DirectionPull | OtherDirection (s : gostr).
Inductive RunOutcome := RunPending | RunRunning | RunSucceeded | RunFailed | RunCancelled.

#[global] Instance BackendKind_eq_dec : EqDecision BackendKind.
Proof. solve_decision. Defined.
#[global] Instance Direction_eq_dec : EqDecision Direction.
Proof. solve_decision. Defined.
#[global] Instance RunOutcome_eq_dec : EqDecision RunOutcome.
Proof. solve_decision. Defined.

(** Source and Destination have the same fields. *)
Record Endpoint := mkEndpoint {
  eDataset : gostr; ePath : gostr; eHost : gostr; eSSHUser : gostr; eBucket : gostr;
  ePrefix : gostr; eEndpoint : gostr; eRegion : gostr }.

#[global] Instance Endpoint_eq_dec : EqDecision Endpoint.
Proof. solve_decision. Defined.

Record RetentionPolicy := mkRetention {
  KeepLastN : Z; KeepDaily : Z; KeepWeekly : Z; KeepMonthly : Z; KeepYearly : Z }.

#[global] Instance RetentionPolicy_eq_dec : EqDecision RetentionPolicy.
Proof. solve_decision. Defined.

Definition IsZero (r : RetentionPolicy) : bool :=
  (KeepLastN r =? 0) && (KeepDaily r =? 0) && (KeepWeekly r =? 0) &&
  (KeepMonthly r =? 0) && (KeepYearly r =? 0).

Record Job := mkJob {
  jID : uuid; jName : gostr; jBackend : BackendKind; jDirection : Direction;
  jSource : Endpoint; jDestination : Endpoint; jSchedule : gostr; jRetention : RetentionPolicy;
  jEnabled : bool; jSecretRef : gostr; jLastSnapshot : gostr;
  jCreatedAt : Instant; jUpdatedAt : Instant }.

#[global] Instance Job_eq_dec : EqDecision Job.
Proof. solve_decision. Defined.

Record Run := mkRun {
  rID : uuid; rJobID : uuid; rStartedAt : Instant; rFinishedAt : option Instant;
  rOutcome : RunOutcome; rBytes : Z; rSnapshot : gostr; rError : gostr }.

#[global] Instance Run_eq_dec : EqDecision Run.
Proof. solve_decision. Defined.

Inductive repl_err :=
| NameRequired | BadBackend | BadDirection | BackendNotRegistered (b : BackendKind)
| BackendInvalid (e : gostr) | ErrNotFound | ErrLocked | AlreadyExists (id : uuid)
| AcquireLock (e : repl_err) | CreateRunFailed (e : repl_err) | UpdateRunFailed (e : repl_err)
| ExecFailed (e : gostr) | StoreErr (e : gostr).

(** Job.Validate on a non-nil job. *)
Definition Validate (j : Job) : res repl_err unit :=
  ensure negb (str_eqb (jName j) []) else NameRequired ;;
  match jBackend j with
  | OtherBackend _ => Err BadBackend
  | _ => match jDirection j with
         | OtherDirection _ => Err BadDirection
         | _ => Ok tt
         end
  end.

Record RunResult := mkResult { BytesTransferred : Z; resSnapshot : gostr }.

(** ** Interfaces *)

Class Store (W : Type) := {
  CreateJob : Job -> W -> W * res repl_err Job;
  UpdateJob : Job -> W -> W * res repl_err Job;
  DeleteJob : uuid -> W -> W * option repl_err;
  GetJob : uuid -> W -> W * res repl_err Job;
  ListJobs : W -> W * res repl_err (list Job);
  CreateRun : Run -> W -> W * res repl_err Run;
  UpdateRun : Run -> W -> W * res repl_err Run;
  ListRuns : uuid -> Z -> W -> W * res repl_err (list Run) }.

(** [Release] is the function TryLock returns, called once by the defer. *)
Class Locker (W : Type) := {
  TryLock : uuid -> W -> W * res repl_err bool;
  Release : uuid -> W -> W }.

(** The registered backends: what a kind validates and does. *)
Class Backends (W : Type) := {
  registered : BackendKind -> bool;
  BackendValidate : BackendKind -> Job -> res gostr unit;
  Execute : BackendKind -> Job -> W -> W * (RunResult * option gostr) }.

(** time.Now and uuid.New. *)
Class Environment (W : Type) := {
  Now : W -> W * Instant;
  NewUUID : W -> W * uuid }.

(** ** The manager *)

Section Manager.
Context {W : Type} `{!Store W, !Locker W, !Backends W, !Environment W}.

Definition check_job (j : Job) : res repl_err unit :=
  let? _ := Validate j in
  ensure registered (jBackend j) else BackendNotRegistered (jBackend j) ;;
  match BackendValidate (jBackend j) j with
  | Ok _ => Ok tt
  | Err e => Err (BackendInvalid e)
  end.

Definition with_id (j : Job) (id : uuid) : Job :=
  mkJob id (jName j) (jBackend j) (jDirection j) (jSource j) (jDestination j) (jSchedule j)
    (jRetention j) (jEnabled j) (jSecretRef j) (jLastSnapshot j) (jCreatedAt j) (jUpdatedAt j).

Definition with_times (j : Job) (created updated : Instant) : Job :=
  mkJob (jID j) (jName j) (jBackend j) (jDirection j) (jSource j) (jDestination j) (jSchedule j)
    (jRetention j) (jEnabled j) (jSecretRef j) (jLastSnapshot j) created updated.

Definition with_last (j : Job) (snap : gostr) (updated : Instant) : Job :=
  mkJob (jID j) (jName j) (jBackend j) (jDirection j) (jSource j) (jDestination j) (jSchedule j)
    (jRetention j) (jEnabled j) (jSecretRef j) snap (jCreatedAt j) updated.

Definition Create (j : Job) : M W (res repl_err Job) :=
  match check_job j with
  | Err e => ret (Err e)
  | Ok _ =>
      let! j :=
        if str_eqb (jID j) uuid_nil then let! id := call NewUUID in ret (with_id j id)
        else ret j in
      let! now := call Now in
      let created := if is_zero (jCreatedAt j) then now else jCreatedAt j in
      call (CreateJob (with_times j created now))
  end.

Definition Update (j : Job) : M W (res repl_err Job) :=
  match check_job j with
  | Err e => ret (Err e)
  | Ok _ =>
      let! now := call Now in
      call (UpdateJob (with_times j (jCreatedAt j) now))
  end.

Definition Delete (id : uuid) : M W (option repl_err) := call (DeleteJob id).
Definition Get (id : uuid) : M W (res repl_err Job) := call (GetJob id).
Definition List_ : M W (res repl_err (list Job)) := call ListJobs.
Definition Runs (id : uuid) (limit : Z) : M W (res repl_err (list Run)) := call (ListRuns id limit).

(** The row of a run once the backend has returned. *)
Definition finished_run (run : Run) (fin : Instant) (r : RunResult) (execErr : option gostr) : Run :=
  mkRun (rID run) (rJobID run) (rStartedAt run) (Some fin)
    (match execErr with Some _ => RunFailed | None => RunSucceeded end)
    (BytesTransferred r) (resSnapshot r)
    (match execErr with Some e => e | None => rError run end).

(** The new last-snapshot pointer is persisted after a successful ZFS run. *)
Definition advances (job : Job) (r : RunResult) (execErr : option gostr) : bool :=
  match execErr with
  | Some _ => false
  | None => bool_decide (jBackend job = BackendZFS) && negb (str_eqb (resSnapshot r) [])
  end.

(** What Run does between acquiring the lock and releasing it: the run as
    returned, and the error. *)
Definition run_locked (job : Job) : M W (option Run * option repl_err) :=
  let! start := call Now in
  let! id := call NewUUID in
  let! c := call (CreateRun (mkRun id (jID job) start None RunRunning 0 [] [])) in
  match c with
  | Err e => ret (None, Some (CreateRunFailed e))
  | Ok run =>
      let! rx := call (Execute (jBackend job) job) in
      let '(r, execErr) := rx in
      let! fin := call Now in
      let run := finished_run run fin r execErr in
      let! _ :=
        if advances job r execErr then
          let! _ := call (UpdateJob (with_last job (resSnapshot r) fin)) in ret tt
        else ret tt in
      let! u := call (UpdateRun run) in
      match u with
      | Err e => ret (Some run, Some (UpdateRunFailed e))
      | Ok _ => ret (Some run, match execErr with Some e => Some (ExecFailed e) | None => None end)
      end
  end.

Definition Run_ (jobID : uuid) : M W (option Run * option repl_err) :=
  let! g := call (GetJob jobID) in
  match g with
  | Err e => ret (None, Some e)
  | Ok job =>
      if negb (registered (jBackend job)) then ret (None, Some (BackendNotRegistered (jBackend job)))
      else
        let! l := call (TryLock (jID job)) in
        match l with
        | Err e => ret (None, Some (AcquireLock e))
        | Ok false => ret (None, Some ErrLocked)
        | Ok true =>
            let! r := run_locked job in
            let! _ := call (fun w => (Release (jID job) w, tt)) in
            ret r
        end
  end.
End Manager.

(** ** MemStore and MemLocker *)

Record Mem := mkMem {
  m_jobs : gmap uuid Job; m_runs : gmap uuid (list Run); m_held : gset uuid }.

Definition set_jobs (w : Mem) (j : gmap uuid Job) : Mem := mkMem j (m_runs w) (m_held w).
Definition set_runs (w : Mem) (r : gmap uuid (list Run)) : Mem := mkMem (m_jobs w) r (m_held w).
Definition set_held (w : Mem) (h : gset uuid) : Mem := mkMem (m_jobs w) (m_runs w) h.

Definition runs_of (w : Mem) (id : uuid) : list Run := default [] (m_runs w !! id).

Definition mem_CreateJob (j : Job) (w : Mem) : Mem * res repl_err Job :=
  match m_jobs w !! jID j with
  | Some _ => (w, Err (AlreadyExists (jID j)))
  | None => (set_jobs w (<[jID j := j]> (m_jobs w)), Ok j)
  end.

Definition mem_UpdateJob (j : Job) (w : Mem) : Mem * res repl_err Job :=
  match m_jobs w !! jID j with
  | None => (w, Err ErrNotFound)
  | Some _ => (set_jobs w (<[jID j := j]> (m_jobs w)), Ok j)
  end.

Definition mem_DeleteJob (id : uuid) (w : Mem) : Mem * option repl_err :=
  match m_jobs w !! id with
  | None => (w, Some ErrNotFound)
  | Some _ => (mkMem (delete id (m_jobs w)) (delete id (m_runs w)) (m_held w), None)
  end.

Definition mem_GetJob (id : uuid) (w : Mem) : Mem * res repl_err Job :=
  (w, match m_jobs w !! id with Some j => Ok j | None => Err ErrNotFound end).

(** The order of a range over a Go map is not specified: here it is the
    order of the map's own enumeration. *)
Definition mem_ListJobs (w : Mem) : Mem * res repl_err (list Job) :=
  (w, Ok (map snd (map_to_list (m_jobs w)))).

Definition mem_CreateRun (r : Run) (w : Mem) : Mem * res repl_err Run :=
  (set_runs w (<[rJobID r := runs_of w (rJobID r) ++ [r]]> (m_runs w)), Ok r).

(** The first row with the run's identifier is replaced. *)
Fixpoint replace_run (r : Run) (l : list Run) : option (list Run) :=
  match l with
  | [] => None
  | x :: l' => if str_eqb (rID x) (rID r) then Some (r :: l')
               else l'' ← replace_run r l'; Some (x :: l'')
  end.

Definition mem_UpdateRun (r : Run) (w : Mem) : Mem * res repl_err Run :=
  match replace_run r (runs_of w (rJobID r)) with
  | Some l => (set_runs w (<[rJobID r := l]> (m_runs w)), Ok r)
  | None => (w, Err ErrNotFound)
  end.

Definition mem_ListRuns (id : uuid) (limit : Z) (w : Mem) : Mem * res repl_err (list Run) :=
  let out := rev (runs_of w id) in
  let out := if (limit >? 0) && (Z.of_nat (length out) >? limit) then take (Z.to_nat limit) out
             else out in
  (w, Ok out).

Definition mem_TryLock (id : uuid) (w : Mem) : Mem * res repl_err bool :=
  if bool_decide (id ∈ m_held w) then (w, Ok false)
  else (set_held w ({[id]} ∪ m_held w), Ok true).

Definition mem_Release (id : uuid) (w : Mem) : Mem := set_held w (m_held w ∖ {[id]}).

(** ** The ZFS backend *)

Definition zfs_Validate (j : Job) : res gostr unit :=
  match jDirection j with
  | DirectionPush =>
      ensure negb (str_eqb (eDataset (jSource j)) []) else #"zfs push: source.dataset is required" ;;
      ensure negb (str_eqb (eDataset (jDestination j)) [] || str_eqb (eHost (jDestination j)) [])
        else #"zfs push: destination.dataset and destination.host are required" ;;
      Ok tt
  | _ =>
      ensure negb (str_eqb (eDataset (jDestination j)) [])
        else #"zfs pull: destination.dataset is required" ;;
      ensure negb (str_eqb (eDataset (jSource j)) [] || str_eqb (eHost (jSource j)) [])
        else #"zfs pull: source.dataset and source.host are required" ;;
      Ok tt
  end.

(** srcDataset, dstHost, dstUser, dstDataset *)
Definition zfsEndpoints (j : Job) : gostr * gostr * gostr * gostr :=
  match jDirection j with
  | DirectionPush =>
      (eDataset (jSource j), eHost (jDestination j), eSSHUser (jDestination j),
       eDataset (jDestination j))
  | _ => (eDataset (jSource j), [], [], eDataset (jDestination j))
  end.

(** The snapshotter, and the pipe between sender and receiver: the bytes
    written, the receive error and the send error. *)
Class ZFSHost (W : Type) := {
  zfs_Create : gostr -> gostr -> bool -> W -> W * option gostr;
  zfs_Pipe : gostr -> gostr -> gostr -> gostr -> gostr -> W -> W * (Z * option gostr * option gostr) }.

Definition zfs_Execute {W} `{!ZFSHost W} (prefix : gostr) (now : Instant) (job : Job)
  : M W (RunResult * option gostr) :=
  let prefix := if str_eqb prefix [] then #"repl" else prefix in
  let '(srcDataset, dstHost, dstUser, dstDataset) := zfsEndpoints job in
  let short := prefix ++ #"-" ++ fmt_stamp UTC now in
  let! e := call (zfs_Create srcDataset short false) in
  match e with
  | Some e => ret (mkResult 0 [], Some (#"zfs backend: snapshot create: " ++ e))
  | None =>
      let full := srcDataset ++ #"@" ++ short in
      let! p := call (zfs_Pipe full (jLastSnapshot job) dstHost dstUser dstDataset) in
      match p with
      | (_, Some recvErr, _) => ret (mkResult 0 [], Some (#"zfs receive: " ++ recvErr))
      | (_, None, Some sendErr) => ret (mkResult 0 [], Some (#"zfs send: " ++ sendErr))
      | (n, None, None) => ret (mkResult n full, None)
      end
  end.

(** ** The rsync backend *)

Definition rsync_Validate (j : Job) : res gostr unit :=
  match jDirection j with
  | DirectionPush =>
      ensure negb (str_eqb (ePath (jSource j)) []) else #"rsync push: source.path is required" ;;
      ensure negb (str_eqb (eHost (jDestination j)) [] || str_eqb (eSSHUser (jDestination j)) []
                   || str_eqb (ePath (jDestination j)) [])
        else #"rsync push: destination.{host,sshUser,path} are required" ;;
      Ok tt
  | _ =>
      ensure negb (str_eqb (ePath (jDestination j)) []) else #"rsync pull: destination.path is required" ;;
      ensure negb (str_eqb (eHost (jSource j)) [] || str_eqb (eSSHUser (jSource j)) []
                   || str_eqb (ePath (jSource j)) [])
        else #"rsync pull: source.{host,sshUser,path} are required" ;;
      Ok tt
  end.

Definition rsync_buildArgs (keyPath : gostr) (j : Job) : list gostr :=
  let remote (e : Endpoint) := eSSHUser e ++ #"@" ++ eHost e ++ #":" ++ ePath e in
  [ #"-aAXH"; #"--delete"; #"--stats"]
  ++ (if negb (str_eqb keyPath [])
      then [ #"-e"; #"ssh -i " ++ keyPath ++ #" -o StrictHostKeyChecking=accept-new"] else [])
  ++ match jDirection j with
     | DirectionPush => [ePath (jSource j); remote (jDestination j)]
     | DirectionPull => [remote (jSource j); ePath (jDestination j)]
     | OtherDirection _ => []
     end.

(** The rest of [s] after the first occurrence of [sub]. *)
Fixpoint after_first (sub s : gostr) : option gostr :=
  match strip_prefix sub s with
  | Some r => Some r
  | None => match s with [] => None | _ :: s' => after_first sub s' end
  end.

Definition trimCommas (s : gostr) : gostr :=
  filter (fun c => c <> ","%char /\ c <> " "%char) s.

Definition parseRsyncBytes (stdout : gostr) : Z :=
  match after_first #"Total bytes sent: " stdout with
  | None => 0
  | Some s =>
      let line := match cut_at (byte_of 10) s with Some (l, _) => l | None => s end in
      default 0 (atoi (trimCommas line))
  end.

(** ** retention.go *)

Record RunRecord := mkRecord { recID : gostr; recTime : Instant; recLoc : Location }.

#[global] Instance Location_eq_dec : EqDecision Location.
Proof. solve_decision. Defined.
#[global] Instance RunRecord_eq_dec : EqDecision RunRecord.
Proof. solve_decision. Defined.

Definition twoDigit (n : Z) : gostr :=
  if n <? 10 then #"0" ++ Retention.formatInt n else Retention.formatInt n.

Definition formatWeekKey (year week : Z) : gostr :=
  fmt_year UTC (go_date year 1 1 0 0 UTC) ++ #"-W" ++ twoDigit week.

Definition daily_key (r : RunRecord) : gostr :=
  let l := recLoc r in let t := recTime r in
  fmt_date l (go_date (time_year l t) (time_month l t) (time_day l t) 0 0 l).
Definition weekly_key (r : RunRecord) : gostr :=
  let '(y, w) := iso_week_of_day (wall_day (recLoc r) (recTime r)) in formatWeekKey y w.
Definition monthly_key (r : RunRecord) : gostr := fmt_month (recLoc r) (recTime r).
Definition yearly_key (r : RunRecord) : gostr := fmt_year (recLoc r) (recTime r).

(** The loop of pickByBucket: the identifiers it marks. *)
Fixpoint pick_go (key : RunRecord -> gostr) (want picked : Z) (seen : gset gostr)
    (l : list RunRecord) : list gostr :=
  match l with
  | [] => []
  | r :: l' =>
      let k := key r in
      if bool_decide (k ∈ seen) then pick_go key want picked seen l'
      else
        recID r ::
          (if picked + 1 >=? want then []
           else pick_go key want (picked + 1) ({[k]} ∪ seen) l')
  end.

Definition pickByBucket (key : RunRecord -> gostr) (want : Z) (sorted : list RunRecord)
  : list gostr :=
  if want <=? 0 then [] else pick_go key want 0 ∅ sorted.

Section Apply.
(** sort.Slice with After on the times: some permutation, newest first. *)
Variable sort_newest_first : list RunRecord -> list RunRecord.

Definition keep_set (sorted : list RunRecord) (policy : RetentionPolicy) : gset gostr :=
  list_to_set
    ((if KeepLastN policy >? 0 then map recID (take (Z.to_nat (KeepLastN policy)) sorted) else [])
     ++ pickByBucket daily_key (KeepDaily policy) sorted
     ++ pickByBucket weekly_key (KeepWeekly policy) sorted
     ++ pickByBucket monthly_key (KeepMonthly policy) sorted
     ++ pickByBucket yearly_key (KeepYearly policy) sorted).

Definition RetentionApply (records : list RunRecord) (policy : RetentionPolicy)
  : list RunRecord * list RunRecord :=
  if IsZero policy || bool_decide (length records = 0%nat) then (records, [])
  else
    let sorted := sort_newest_first records in
    let keepSet := keep_set sorted policy in
    (filter (fun r => recID r ∈ keepSet) sorted, filter (fun r => recID r ∉ keepSet) sorted).
End Apply.

End Replication.

(** * Concurrent replication runs

    Several runs of Manager.Run and other API calls interleave: every call
    on MemStore and MemLocker is atomic (each takes the store's mutex),
    and a run is the sequence of calls [Run_] makes, cut between them.
    Stepping one run alone is [Run_]. *)

From S2P Require Import Prelude GoStrings GoTime Effects.
Import Replication.

(** Where a run is: about to make the named call. *)
Inductive pc :=
| PcGet (id : uuid)
| PcLock (job : Job)
| PcCreate (job : Job)
| PcExec (job : Job) (run : Run)
| PcJob (job : Job) (run : Run) (fin : Instant) (snap : gostr) (err : option gostr)
| PcRun (job : Job) (run : Run) (err : option gostr)
| PcRelease (job : Job) (out : option Run * option repl_err)
| PcDone (out : option Run * option repl_err).

(** What the clock, uuid.New and the backend answer at a step. *)
Record answers := mkAnswers { a_now : Instant; a_id : uuid; a_exec : RunResult * option gostr }.

Section Steps.
Context (reg : BackendKind -> bool).

Definition thread_step (a : answers) (p : pc) (w : Mem) : pc * Mem :=
  match p with
  | PcGet id =>
      match (mem_GetJob id w).2 with
      | Err e => (PcDone (None, Some e), w)
      | Ok job => (if negb (reg (jBackend job))
                   then PcDone (None, Some (BackendNotRegistered (jBackend job))) else PcLock job, w)
      end
  | PcLock job =>
      let '(w', l) := mem_TryLock (jID job) w in
      (match l with
       | Err e => PcDone (None, Some (AcquireLock e))
       | Ok false => PcDone (None, Some ErrLocked)
       | Ok true => PcCreate job
       end, w')
  | PcCreate job =>
      let '(w', c) := mem_CreateRun (mkRun (a_id a) (jID job) (a_now a) None RunRunning 0 [] []) w in
      (match c with
       | Err e => PcRelease job (None, Some (CreateRunFailed e))
       | Ok run => PcExec job run
       end, w')
  | PcExec job run =>
      let '(r, err) := a_exec a in
      let run' := finished_run run (a_now a) r err in
      (if advances job r err then PcJob job run' (a_now a) (resSnapshot r) err
       else PcRun job run' err, w)
  | PcJob job run fin snap err =>
      let '(w', _) := mem_UpdateJob (with_last job snap fin) w in (PcRun job run err, w')
  | PcRun job run err =>
      let '(w', u) := mem_UpdateRun run w in
      (PcRelease job
         (match u with
          | Err e => (Some run, Some (UpdateRunFailed e))
          | Ok _ => (Some run, match err with Some e => Some (ExecFailed e) | None => None end)
          end), w')
  | PcRelease job out => (PcDone out, mem_Release (jID job) w)
  | PcDone out => (PcDone out, w)
  end.

(** ** One run alone is Run_ *)

Section Alone.
Context (times : nat -> Instant) (ids : nat -> uuid) (exec : Job -> RunResult * option gostr).

(** The store with the number of answers drawn from the environment. *)
Abbreviation SW := (Mem * nat)%type.

#[local] Instance Mem_Store : Store SW := {
  CreateJob j w := let '(m, r) := mem_CreateJob j w.1 in ((m, w.2), r);
  UpdateJob j w := let '(m, r) := mem_UpdateJob j w.1 in ((m, w.2), r);
  DeleteJob id w := let '(m, r) := mem_DeleteJob id w.1 in ((m, w.2), r);
  GetJob id w := let '(m, r) := mem_GetJob id w.1 in ((m, w.2), r);
  ListJobs w := let '(m, r) := mem_ListJobs w.1 in ((m, w.2), r);
  CreateRun x w := let '(m, r) := mem_CreateRun x w.1 in ((m, w.2), r);
  UpdateRun x w := let '(m, r) := mem_UpdateRun x w.1 in ((m, w.2), r);
  ListRuns id n w := let '(m, r) := mem_ListRuns id n w.1 in ((m, w.2), r) }.

#[local] Instance Mem_Locker : Locker SW := {
  TryLock id w := let '(m, r) := mem_TryLock id w.1 in ((m, w.2), r);
  Release id w := (mem_Release id w.1, w.2) }.

#[local] Instance Given_Backends : Backends SW := {
  registered := reg; BackendValidate _ _ := Ok tt; Execute _ j w := (w, exec j) }.

#[local] Instance Given_Environment : Environment SW := {
  Now w := ((w.1, S w.2), times w.2); NewUUID w := ((w.1, S w.2), ids w.2) }.

(** The answers the environment gives at a step, and the new count. *)
Definition solo_step (x : pc * Mem * nat) : pc * Mem * nat :=
  let '(p, w, n) := x in
  let a := match p with
           | PcCreate _ => mkAnswers (times n) (ids (S n)) (mkResult 0 [], None)
           | PcExec job _ => mkAnswers (times n) [] (exec job)
           | _ => mkAnswers 0 [] (mkResult 0 [], None)
           end in
  let used := match p with PcCreate _ => 2 | PcExec _ _ => 1 | _ => 0 end%nat in
  (thread_step a p w, (n + used)%nat).

(** The part of a run under the lock, as a function of its answers. *)
Definition locked_result (job : Job) (w : Mem) (n : nat)
  : Mem * (option Run * option repl_err) :=
  let run0 := mkRun (ids (S n)) (jID job) (times n) None RunRunning 0 [] [] in
  let w1 := (mem_CreateRun run0 w).1 in
  let '(r, err) := exec job in
  let run' := finished_run run0 (times (S (S n))) r err in
  let w2 := if advances job r err
            then (mem_UpdateJob (with_last job (resSnapshot r) (times (S (S n)))) w1).1 else w1 in
  let '(w3, u) := mem_UpdateRun run' w2 in
  (w3, match u with
       | Err e => (Some run', Some (UpdateRunFailed e))
       | Ok _ => (Some run', match err with Some e => Some (ExecFailed e) | None => None end)
       end).

Lemma run_locked_eq job w n :
  run_locked job (w, n)
  = (((locked_result job w n).1, S (S (S n))), Some (locked_result job w n).2).
Proof.
  unfold run_locked, locked_result, bind, call.
  cbn [Now NewUUID Given_Environment CreateRun Mem_Store mem_CreateRun Execute Given_Backends fst snd].
  destruct (exec job) as [r err]. destruct (advances job r err); cbn [UpdateJob Mem_Store fst snd].
  - destruct (mem_UpdateJob _ _) as [w2 u2]. cbn [ret UpdateRun Mem_Store fst snd].
    unfold ret. destruct (mem_UpdateRun _ _) as [w3 [u|e]]; done.
  - unfold ret. cbn [UpdateRun Mem_Store fst snd]. destruct (mem_UpdateRun _ _) as [w3 [u|e]]; done.
Qed.

Lemma iter_done out w k n : Nat.iter k solo_step (PcDone out, w, n) = (PcDone out, w, n).
Proof. induction k as [|k IH]; [done|]. simpl. rewrite IH. simpl. by rewrite Nat.add_0_r. Qed.

Lemma solo_locked job w n :
  Nat.iter 5 solo_step (PcCreate job, w, n)
  = (PcDone (locked_result job w n).2, mem_Release (jID job) (locked_result job w n).1,
     S (S (S n))).
Proof.
  change 5%nat with (4 + 1)%nat. rewrite Nat.iter_add.
  cbn [Nat.iter nat_rect solo_step thread_step mem_CreateRun a_id a_now].
  unfold locked_result. cbn [mem_CreateRun fst].
  replace (n + 2)%nat with (S (S n)) by lia.
  destruct (exec job) as [r err]. cbn [a_exec a_now].
  destruct (advances job r err); cbn [solo_step thread_step].
  - destruct (mem_UpdateJob _ _) as [w2 u2]. cbn [solo_step thread_step fst].
    destruct (mem_UpdateRun _ _) as [w3 [u|e]]; cbn; do 2 f_equal; lia.
  - destruct (mem_UpdateRun _ _) as [w3 [u|e]]; cbn; do 2 f_equal; lia.
Qed.

(** The step machine is Manager.Run cut at its calls: a run stepped
    alone from its start reaches its end within seven steps, with the
    result and the store that Run gives. *)
Theorem run_alone id w n :
  exists out w' n', Run_ id (w, n) = ((w', n'), Some out) /\
    Nat.iter 7 solo_step (PcGet id, w, n) = (PcDone out, w', n').
Proof.
  rewrite Nat.iter_succ_r.
  unfold Run_, bind at 1, call at 1. cbn [GetJob Mem_Store mem_GetJob fst snd].
  cbn [solo_step thread_step mem_GetJob snd]. rewrite Nat.add_0_r.
  destruct (m_jobs w !! id) as [job|] eqn:Ej; [|rewrite iter_done; by repeat eexists].
  cbn [registered Given_Backends]. destruct (reg (jBackend job)); cbn [negb].
  2: { rewrite iter_done. by repeat eexists. }
  rewrite Nat.iter_succ_r. cbn [solo_step thread_step]. rewrite Nat.add_0_r.
  unfold bind at 1, call at 1. cbn [TryLock Mem_Locker fst snd].
  destruct (mem_TryLock (jID job) w) as [w1 [[|]|e]].
  - rewrite solo_locked. unfold bind. rewrite run_locked_eq. by repeat eexists.
  - rewrite iter_done. by repeat eexists.
  - rewrite iter_done. by repeat eexists.
Qed.
End Alone.
End Steps.
