(* ===== verification/ReplicationSafety.v ===== *)
(** * Interleaved replication runs: exclusion, run rows, lost updates

    Any number of runs and of Create, Update and Delete calls, interleaved
    in any order, on MemStore and MemLocker. *)

From S2P Require Import Prelude GoStrings GoTime Effects Replication.
Import Replication.

Record sys := mkSys { s_mem : Mem; s_threads : list pc }.

Section System.
Context (reg : BackendKind -> bool).

(** uuid.New gives an identifier no stored run has. *)
Definition fresh (id : uuid) (w : Mem) : Prop :=
  forall j r, r ∈ runs_of w j -> rID r <> id.

Inductive step : sys -> sys -> Prop :=
| StepThread s i p a p' w' :
    s_threads s !! i = Some p -> fresh (a_id a) (s_mem s) ->
    thread_step reg a p (s_mem s) = (p', w') ->
    step s (mkSys w' (<[i := p']> (s_threads s)))
| StepSpawn s id : step s (mkSys (s_mem s) (s_threads s ++ [PcGet id]))
| StepCreate s j : step s (mkSys (mem_CreateJob j (s_mem s)).1 (s_threads s))
| StepUpdate s j : step s (mkSys (mem_UpdateJob j (s_mem s)).1 (s_threads s))
| StepDelete s id : step s (mkSys (mem_DeleteJob id (s_mem s)).1 (s_threads s)).

Definition init : sys := mkSys (mkMem ∅ ∅ ∅) [].

Definition reachable (s : sys) : Prop := rtc step init s.

(** ** The lock *)

(** The job whose lock a run holds. *)
Definition owns (p : pc) : option uuid :=
  match p with
  | PcCreate job | PcExec job _ | PcJob job _ _ _ _ | PcRun job _ _ | PcRelease job _ =>
      Some (jID job)
  | _ => None
  end.

Definition lock_inv (s : sys) : Prop :=
  (forall id, id ∈ m_held (s_mem s) <-> exists i p, s_threads s !! i = Some p /\ owns p = Some id) /\
  (forall i j p q id, s_threads s !! i = Some p -> s_threads s !! j = Some q ->
     owns p = Some id -> owns q = Some id -> i = j).

(** What a step of one run does to the lock and to ownership. *)
Lemma thread_step_owns a p w p' w' :
  thread_step reg a p w = (p', w') ->
  (owns p' = owns p /\ m_held w' = m_held w) \/
  (exists id, owns p = None /\ owns p' = Some id /\ id ∉ m_held w /\ m_held w' = {[id]} ∪ m_held w) \/
  (exists id, owns p = Some id /\ owns p' = None /\ m_held w' = m_held w ∖ {[id]}).
Proof.
  destruct p as [id|job|job|job run|job run fin snap err|job run err|job out|out]; simpl.
  - destruct (m_jobs w !! id) as [job|]; [destruct (reg _)|]; intros [= <- <-]; by left.
  - unfold mem_TryLock. case_bool_decide as Hh; intros [= <- <-]; [by left|].
    right; left. by exists (jID job).
  - intros [= <- <-]. by left.
  - destruct (a_exec a) as [r err]. destruct (advances job r err); intros [= <- <-]; by left.
  - unfold mem_UpdateJob. destruct (_ !! _); intros [= <- <-]; by left.
  - unfold mem_UpdateRun. destruct (replace_run _ _); intros [= <- <-]; by left.
  - intros [= <- <-]. right; right. by exists (jID job).
  - intros [= <- <-]. by left.
Qed.

Lemma lookup_insert_cases (l : list pc) i p' j q :
  <[i := p']> l !! j = Some q -> (j = i /\ q = p') \/ (j <> i /\ l !! j = Some q).
Proof.
  intros H. apply list_lookup_insert_Some in H as [(-> & <- & _)|[? ?]]; [by left|by right].
Qed.

Lemma lock_inv_thread s i p a p' w' :
  lock_inv s -> s_threads s !! i = Some p -> thread_step reg a p (s_mem s) = (p', w') ->
  lock_inv (mkSys w' (<[i := p']> (s_threads s))).
Proof.
  intros [Hheld Huniq] Hi Hstep. apply thread_step_owns in Hstep.
  assert (Hlt : (i < length (s_threads s))%nat) by (by eapply lookup_lt_Some).
  assert (Hnew : <[i := p']> (s_threads s) !! i = Some p') by (by apply list_lookup_insert_eq).
  assert (Hold : forall j, j <> i -> <[i := p']> (s_threads s) !! j = s_threads s !! j)
    by (intros j Hj; by apply list_lookup_insert_ne).
  destruct Hstep as [[Ho Hh]|[(id & Ho & Ho' & Hfree & Hh)|(id & Ho & Ho' & Hh)]]; split; simpl.
  - intros id. rewrite Hh, Hheld. split; intros (j & q & Hj & Hq).
    + destruct (decide (j = i)) as [->|Hne]; [exists i, p'|exists j, q; by rewrite Hold].
      split; [done|]. rewrite Ho. congruence.
    + apply lookup_insert_cases in Hj as [[-> ->]|[Hne Hj]]; [exists i, p|by exists j, q].
      split; [done|]. by rewrite <- Ho.
  - intros j k q r id Hj Hk Hq Hr.
    apply lookup_insert_cases in Hj as [[-> ->]|[Hne Hj]], Hk as [[-> ->]|[Hne' Hk]];
      rewrite ?Ho in *; eauto.
  - intros id'. rewrite Hh, elem_of_union, elem_of_singleton, Hheld. split.
    + intros [->|(j & q & Hj & Hq)]; [by exists i, p'|].
      exists j, q. rewrite Hold; [done|]. intros ->. congruence.
    + intros (j & q & Hj & Hq). apply lookup_insert_cases in Hj as [[-> ->]|[Hne Hj]].
      * left. congruence.
      * right. by exists j, q.
  - intros j k q r id' Hj Hk Hq Hr.
    apply lookup_insert_cases in Hj as [[-> ->]|[Hne Hj]], Hk as [[-> ->]|[Hne' Hk]]; [done|..|eauto].
    + exfalso. assert (id' = id) as -> by congruence. apply Hfree, Hheld. eauto.
    + exfalso. assert (id' = id) as -> by congruence. apply Hfree, Hheld. eauto.
  - intros id'. rewrite Hh, elem_of_difference, elem_of_singleton, Hheld. split.
    + intros [(j & q & Hj & Hq) Hne]. exists j, q. rewrite Hold; [done|]. intros ->. congruence.
    + intros (j & q & Hj & Hq). apply lookup_insert_cases in Hj as [[-> ->]|[Hne Hj]]; [congruence|].
      split; [by exists j, q|]. intros ->. apply Hne. by eapply Huniq.
  - intros j k q r id' Hj Hk Hq Hr.
    apply lookup_insert_cases in Hj as [[-> ->]|[Hne Hj]], Hk as [[-> ->]|[Hne' Hk]]; try congruence.
    eauto.
Qed.

Lemma lock_inv_mem s w' :
  lock_inv s -> m_held w' = m_held (s_mem s) -> lock_inv (mkSys w' (s_threads s)).
Proof. intros [H1 H2] Hh. split; simpl; [by rewrite Hh|done]. Qed.

Lemma mem_jobs_held w j id :
  m_held (mem_CreateJob j w).1 = m_held w /\ m_held (mem_UpdateJob j w).1 = m_held w /\
  m_held (mem_DeleteJob id w).1 = m_held w.
Proof. unfold mem_CreateJob, mem_UpdateJob, mem_DeleteJob. split_and!; by destruct (_ !! _). Qed.

Lemma lock_inv_step s s' : lock_inv s -> step s s' -> lock_inv s'.
Proof.
  intros Hinv Hs. destruct Hs as [s i p a p' w' Hi _ Hst|s id|s j|s j|s id].
  - by eapply lock_inv_thread.
  - destruct Hinv as [H1 H2].
    assert (Hx : forall j q, (s_threads s ++ [PcGet id]) !! j = Some q -> owns q <> None ->
              s_threads s !! j = Some q).
    { intros j q [Hj|[_ Hj]]%lookup_app_Some Hq; [done|]. destruct (j - _)%nat; simplify_eq/=. }
    split; simpl.
    + intros x. rewrite H1. split; intros (i & p & Hi & Hp); exists i, p; split; try done.
      * by apply lookup_app_l_Some.
      * apply Hx; [done|congruence].
    + intros i j p q x Hi Hj Hp Hq. eapply H2; [apply Hx|apply Hx|..]; eauto; congruence.
  - apply lock_inv_mem; [done|]. by apply (mem_jobs_held _ _ []).
  - apply lock_inv_mem; [done|]. by apply (mem_jobs_held _ _ []).
  - apply lock_inv_mem; [done|]. by apply (mem_jobs_held _ (mkJob [] [] BackendZFS DirectionPush
      (mkEndpoint [] [] [] [] [] [] [] []) (mkEndpoint [] [] [] [] [] [] [] []) []
      (mkRetention 0 0 0 0 0) false [] [] 0 0) _).
Qed.

Lemma reachable_lock s : reachable s -> lock_inv s.
Proof.
  intros H. assert (Hi : lock_inv init).
  { split; simpl; [|intros i j p q id Hi; by rewrite lookup_nil in Hi].
    intros id. split; [set_solver|]. intros (i & p & Hi & _). by rewrite lookup_nil in Hi. }
  unfold reachable in H. revert Hi. induction H as [|x y z Hxy Hyz IH]; [done|].
  intros Hx. apply IH. by eapply lock_inv_step.
Qed.

(** At most one run per job: whatever is interleaved, no two runs are
    between acquiring and releasing the lock of the same job, and a held
    lock always has a run that will release it. *)
Theorem runs_exclude_each_other s (Hr : reachable s) :
  (forall i j p q id, s_threads s !! i = Some p -> s_threads s !! j = Some q ->
     owns p = Some id -> owns q = Some id -> i = j) /\
  (forall id, id ∈ m_held (s_mem s) <->
     exists i p, s_threads s !! i = Some p /\ owns p = Some id).
Proof. apply reachable_lock in Hr as [H1 H2]. split; [exact H2|exact H1]. Qed.

(** ** The rows of running runs *)

(** The job and the row of a run that has created its row and not yet
    finished it. *)
Definition flight (p : pc) : option (uuid * uuid) :=
  match p with
  | PcExec job run | PcJob job run _ _ _ | PcRun job run _ => Some (jID job, rID run)
  | _ => None
  end.

Definition pc_ok (p : pc) : Prop :=
  match p with
  | PcExec job run => rJobID run = jID job
  | PcJob job run _ _ _ | PcRun job run _ => rJobID run = jID job /\ rOutcome run <> RunRunning
  | _ => True
  end.

Definition rows_inv (s : sys) : Prop :=
  (forall id, NoDup (map rID (runs_of (s_mem s) id))) /\
  (forall i p, s_threads s !! i = Some p -> pc_ok p) /\
  (forall id r, r ∈ runs_of (s_mem s) id -> rOutcome r = RunRunning ->
     exists i p, s_threads s !! i = Some p /\ flight p = Some (id, rID r)).

Lemma replace_run_Some r l l' :
  replace_run r l = Some l' ->
  map rID l' = map rID l /\ r ∈ l' /\ forall x, x ∈ l' -> x = r \/ x ∈ l.
Proof.
  revert l'. induction l as [|y l IH]; simpl; intros l'; [done|].
  destruct (str_eqb (rID y) (rID r)) eqn:E.
  - apply str_eqb_eq in E. intros [= <-]. simpl. split; [by rewrite E|]. set_solver.
  - destruct (replace_run r l) as [l1|]; simpl; [|done]. intros [= <-].
    destruct (IH l1 eq_refl) as (H1 & H2 & H3). simpl. split; [by rewrite H1|].
    split; [set_solver|]. intros x [->|Hx]%elem_of_cons; [set_solver|].
    apply H3 in Hx. set_solver.
Qed.

Lemma replace_run_None r l : replace_run r l = None -> forall x, x ∈ l -> rID x <> rID r.
Proof.
  induction l as [|y l IH]; simpl; [set_solver|].
  case_str (rID y) (rID r) as E; [done|].
  destruct (replace_run r l); [done|]. intros _ x [->|Hx]%elem_of_cons; [done|]. by apply IH.
Qed.

Lemma runs_of_insert w id l j :
  runs_of (set_runs w (<[id := l]> (m_runs w))) j = if decide (j = id) then l else runs_of w j.
Proof.
  unfold runs_of. simpl. destruct (decide (j = id)) as [->|Hne].
  - by rewrite lookup_insert_eq.
  - by rewrite lookup_insert_ne.
Qed.

(** A step that leaves the rows alone and keeps the run in flight. *)
Lemma rows_inv_quiet s i p p' w' :
  rows_inv s -> s_threads s !! i = Some p -> pc_ok p' ->
  (forall id, runs_of w' id = runs_of (s_mem s) id) ->
  (flight p' = flight p \/ flight p = None) ->
  rows_inv (mkSys w' (<[i := p']> (s_threads s))).
Proof.
  intros (Hnd & Hok & Hrow) Hi Hp' Hw Hf. split_and!; simpl.
  - intros id. by rewrite Hw.
  - intros j q Hj. apply lookup_insert_cases in Hj as [[-> ->]|[_ Hj]]; [done|eauto].
  - intros id r Hr Ho. rewrite Hw in Hr. destruct (Hrow id r Hr Ho) as (j & q & Hj & Hq).
    destruct (decide (j = i)) as [->|Hne].
    + exists i, p'. split; [apply list_lookup_insert_eq; by eapply lookup_lt_Some|].
      assert (q = p) as -> by congruence. destruct Hf as [->|Hf]; [done|congruence].
    + exists j, q. split; [by rewrite list_lookup_insert_ne|done].
Qed.

(** The step that creates the row. *)
Lemma rows_inv_create s i job r0 :
  rows_inv s -> s_threads s !! i = Some (PcCreate job) -> fresh (rID r0) (s_mem s) ->
  rJobID r0 = jID job ->
  rows_inv (mkSys (mem_CreateRun r0 (s_mem s)).1 (<[i := PcExec job r0]> (s_threads s))).
Proof.
  intros (Hnd & Hok & Hrow) Hi Hfresh Hj0.
  assert (Hlt : (i < length (s_threads s))%nat) by (by eapply lookup_lt_Some).
  unfold mem_CreateRun; cbn [fst]. split_and!; cbn [s_mem s_threads].
  - intros id. rewrite runs_of_insert. destruct (decide (id = rJobID r0)) as [->|]; [|done].
    rewrite map_app. apply NoDup_app. split_and!; [done| |apply NoDup_singleton].
    intros x (r & -> & Hr)%list_elem_of_fmap Hx. apply list_elem_of_singleton in Hx.
    by eapply Hfresh.
  - intros j q Hj. apply lookup_insert_cases in Hj as [[-> ->]|[_ Hj]]; [done|eauto].
  - intros id r Hr Ho.
    assert (r ∈ runs_of (s_mem s) id \/ (r = r0 /\ id = rJobID r0)) as [Hr'|[-> ->]].
    { rewrite runs_of_insert in Hr. destruct (decide (id = rJobID r0)) as [->|]; [|by left].
      apply elem_of_app in Hr as [?|?%list_elem_of_singleton]; [by left|by right]. }
    + destruct (Hrow id r Hr' Ho) as (j & q & Hj & Hq). exists j, q. split; [|done].
      rewrite list_lookup_insert_ne; [done|]. intros ->. rewrite Hi in Hj. by simplify_eq.
    + exists i, (PcExec job r0). split; [by apply list_lookup_insert_eq|]. simpl. by rewrite Hj0.
Qed.

(** The step that finishes the row. *)
Lemma rows_inv_finish s i job run err out w' :
  rows_inv s -> s_threads s !! i = Some (PcRun job run err) ->
  w' = (mem_UpdateRun run (s_mem s)).1 ->
  rows_inv (mkSys w' (<[i := PcRelease job out]> (s_threads s))).
Proof.
  intros (Hnd & Hok & Hrow) Hi ->. destruct (Hok _ _ Hi) as [Hjob Hfin].
  assert ((forall id, NoDup (map rID (runs_of (mem_UpdateRun run (s_mem s)).1 id))) /\
    forall id r, r ∈ runs_of (mem_UpdateRun run (s_mem s)).1 id -> rOutcome r = RunRunning ->
      r ∈ runs_of (s_mem s) id /\ (id = jID job -> rID r <> rID run)) as [Hnd' Hold].
  { unfold mem_UpdateRun. destruct (replace_run run _) as [l|] eqn:Er; cbn [fst].
    - apply replace_run_Some in Er as (Em & Hin & Hsub). split.
      + intros id. rewrite runs_of_insert. destruct (decide (id = rJobID run)); [|done].
        rewrite Em. apply Hnd.
      + intros id r. rewrite runs_of_insert. destruct (decide (id = rJobID run)) as [->|Hne].
        2: { intros Hr _. split; [done|]. intros ->. by rewrite Hjob in Hne. }
        intros Hr Ho. destruct (Hsub r Hr) as [->|Hr']; [done|]. split; [done|].
        intros _ E. assert (r = run) as ->; [|done].
        eapply (NoDup_map_inj rID l); [rewrite Em; apply Hnd|done..].
    - split; [done|]. intros id r Hr _. split; [done|]. intros ->.
      eapply replace_run_None; [done|]. by rewrite Hjob. }
  split_and!; cbn [s_mem s_threads]; [done| |].
  - intros j q Hj. apply lookup_insert_cases in Hj as [[-> ->]|[_ Hj]]; [done|eauto].
  - intros id r Hr Ho. destruct (Hold id r Hr Ho) as [Hr' Hne].
    destruct (Hrow id r Hr' Ho) as (j & q & Hj & Hq). exists j, q. split; [|done].
    rewrite list_lookup_insert_ne; [done|]. intros ->. rewrite Hi in Hj. simplify_eq/=. by apply Hne.
Qed.

Lemma finished_not_running run fin r err : rOutcome (finished_run run fin r err) <> RunRunning.
Proof. by destruct err. Qed.

Lemma rows_inv_thread s i p a p' w' :
  rows_inv s -> s_threads s !! i = Some p -> fresh (a_id a) (s_mem s) ->
  thread_step reg a p (s_mem s) = (p', w') ->
  rows_inv (mkSys w' (<[i := p']> (s_threads s))).
Proof.
  intros Hinv Hi Hfresh Hs. pose proof Hinv as (_ & Hok & _). specialize (Hok _ _ Hi).
  destruct p as [id|job|job|job run|job run fin snap err|job run err|job out|out]; simpl in Hs.
  - destruct (m_jobs _ !! id) as [job|]; [destruct (reg _)|]; injection Hs as <- <-;
      (eapply rows_inv_quiet; [done..|by right]).
  - unfold mem_TryLock in Hs. destruct (bool_decide _); injection Hs as <- <-;
      (eapply rows_inv_quiet; [done..|by right]).
  - injection Hs as <- <-. by apply (rows_inv_create s i job (mkRun (a_id a) _ _ _ _ _ _ _)).
  - destruct (a_exec a) as [r err]. destruct (advances job r err); injection Hs as <- <-;
      (eapply rows_inv_quiet; [done|done| |done|by left]);
      (split; [exact Hok|apply finished_not_running]).
  - unfold mem_UpdateJob in Hs. destruct (m_jobs _ !! _); injection Hs as <- <-;
      (eapply rows_inv_quiet; [done..|by left]).
  - destruct (mem_UpdateRun run (s_mem s)) as [w1 u] eqn:Eu. injection Hs as <- <-.
    eapply rows_inv_finish; [done..|by rewrite Eu].
  - injection Hs as <- <-. eapply rows_inv_quiet; [done..|by right].
  - injection Hs as <- <-. eapply rows_inv_quiet; [done..|by right].
Qed.

Lemma rows_inv_mem s w' :
  rows_inv s -> (forall id, runs_of w' id = runs_of (s_mem s) id \/ runs_of w' id = []) ->
  rows_inv (mkSys w' (s_threads s)).
Proof.
  intros (H1 & H2 & H3) Hw. split_and!; simpl; [|done|].
  - intros id. destruct (Hw id) as [->| ->]; [done|constructor].
  - intros id r Hr. destruct (Hw id) as [E|E]; rewrite E in Hr; [by apply H3|set_solver].
Qed.

Lemma rows_inv_step s s' : rows_inv s -> step s s' -> rows_inv s'.
Proof.
  intros Hinv Hs. destruct Hs as [s i p a p' w' Hi Hf Hst|s id|s j|s j|s id].
  - by eapply rows_inv_thread.
  - destruct Hinv as (H1 & H2 & H3). split_and!; simpl; [done| |].
    + intros i p [Hi|[_ Hi]]%lookup_app_Some; [eauto|]. destruct (i - _)%nat; by simplify_eq/=.
    + intros x r Hr Ho. destruct (H3 x r Hr Ho) as (i & p & Hi & Hp). exists i, p.
      split; [by apply lookup_app_l_Some|done].
  - apply rows_inv_mem; [done|]. intros x. left. unfold mem_CreateJob. by destruct (_ !! _).
  - apply rows_inv_mem; [done|]. intros x. left. unfold mem_UpdateJob. by destruct (_ !! _).
  - apply rows_inv_mem; [done|]. intros x. unfold mem_DeleteJob, runs_of.
    destruct (m_jobs _ !! id); simpl; [|by left].
    destruct (decide (x = id)) as [->|]; [right; by rewrite lookup_delete_eq|left].
    by rewrite lookup_delete_ne.
Qed.

Lemma reachable_rows s : reachable s -> rows_inv s.
Proof.
  intros H. assert (Hi : rows_inv init).
  { split_and!; simpl; [intros id; constructor| |].
    - intros i p Hi. by rewrite lookup_nil in Hi.
    - intros id r Hr. unfold runs_of in Hr; simpl in Hr. rewrite lookup_empty in Hr. set_solver. }
  unfold reachable in H. revert Hi. induction H as [|x y z Hxy Hyz IH]; [done|].
  intros Hx. apply IH. by eapply rows_inv_step.
Qed.

Lemma flight_owns p id x : flight p = Some (id, x) -> owns p = Some id.
Proof. destruct p; simpl; naive_solver. Qed.

(** C3. The run history never shows two runs of a job in progress, and
    shows one in progress only while a run holds the job's lock. *)
Theorem at_most_one_running_row s id r (Hs : reachable s)
    (Hr : r ∈ runs_of (s_mem s) id) (Ho : rOutcome r = RunRunning) :
  id ∈ m_held (s_mem s) /\
  forall r', r' ∈ runs_of (s_mem s) id -> rOutcome r' = RunRunning -> r' = r.
Proof.
  pose proof (reachable_rows s Hs) as (Hnd & _ & Hrow).
  pose proof (reachable_lock s Hs) as [Hheld Huniq].
  destruct (Hrow id r Hr Ho) as (i & p & Hi & Hp). split.
  - apply Hheld. exists i, p. split; [done|]. by eapply flight_owns.
  - intros r' Hr' Ho'. destruct (Hrow id r' Hr' Ho') as (j & q & Hj & Hq).
    assert (i = j) as -> by (eapply Huniq; [done|done|by eapply flight_owns..]).
    eapply (NoDup_map_inj rID _ r' r (Hnd id)); [done..|]. congruence.
Qed.

(** ** A run writes back the job it read *)

(** Run reads the job before it takes the lock and writes the whole
    job back after a successful ZFS transfer, so an update of the job made
    in between is lost: the final job is the one read at the start with
    the new snapshot and time, whatever the user's update said. *)
Theorem run_loses_concurrent_update w job user a1 a2
    (Hjob : m_jobs w !! jID job = Some job) (Hid : jID user = jID job)
    (Hreg : reg (jBackend job) = true) (Hfree : jID job ∉ m_held w)
    (Hadv : advances job (a_exec a2).1 (a_exec a2).2 = true) :
  let t (a : answers) (x : pc * Mem) := thread_step reg a x.1 x.2 in
  let at_exec := t a1 (t a1 (t a1 (PcGet (jID job), w))) in
  let updated := (mem_UpdateJob user at_exec.2).1 in
  let after := t a2 (t a2 (at_exec.1, updated)) in
  m_jobs updated !! jID job = Some user /\
  m_jobs after.2 !! jID job = Some (with_last job (resSnapshot (a_exec a2).1) (a_now a2)).
Proof.
  intros t at_exec updated after.
  assert (Hat : exists run, at_exec.1 = PcExec job run /\ m_jobs at_exec.2 = m_jobs w).
  { unfold at_exec, t. simpl. rewrite Hjob, Hreg. simpl. unfold mem_TryLock.
    rewrite bool_decide_eq_false_2 by done. simpl. eauto. }
  destruct Hat as (run & Hpc & Hj).
  assert (Hup : m_jobs updated = <[jID job := user]> (m_jobs w)).
  { unfold updated, mem_UpdateJob. rewrite Hid, Hj, Hjob. done. }
  split; [by rewrite Hup, lookup_insert_eq|].
  unfold after, t. rewrite Hpc. simpl. destruct (a_exec a2) as [r err]. simpl in Hadv |- *.
  rewrite Hadv. simpl. unfold mem_UpdateJob. cbn [jID with_last].
  rewrite Hup, lookup_insert_eq. simpl. by rewrite lookup_insert_eq.
Qed.
End System.

(** ** A concrete interleaving *)

Definition no_endpoint : Endpoint := mkEndpoint [] [] [] [] [] [] [] [].
Definition sample_job : Job :=
  mkJob #"job1" #"nightly" BackendZFS DirectionPush no_endpoint no_endpoint #"0 3 * * *"
    (mkRetention 7 0 0 0 0) true [] [] 0 0.
Definition all_registered (b : BackendKind) : bool := true.
Definition answer1 : answers := mkAnswers 100 #"run1" (mkResult 4096 #"tank@repl-1", None).

Definition after_step (i : nat) (s : sys) : sys :=
  match s_threads s !! i with
  | Some p => let '(p', w') := thread_step all_registered answer1 p (s_mem s) in
              mkSys w' (<[i := p']> (s_threads s))
  | None => s
  end.

(** Two runs of the job: the first has created its row, the second has
    read the job. *)
Definition spawned : sys :=
  mkSys (mem_CreateJob sample_job (s_mem init)).1 [PcGet #"job1"; PcGet #"job1"].
Definition one_running : sys :=
  after_step 1 (after_step 0 (after_step 0 (after_step 0 spawned))).

Lemma after_step_reachable i s :
  reachable all_registered s -> fresh #"run1" (s_mem s) -> reachable all_registered (after_step i s).
Proof.
  intros Hr Hf. unfold after_step. destruct (s_threads s !! i) as [p|] eqn:Ei; [|done].
  destruct (thread_step all_registered answer1 p (s_mem s)) as [p' w'] eqn:Et.
  eapply rtc_r; [done|]. by apply (StepThread _ s i p answer1).
Qed.

Lemma no_rows_fresh w id : m_runs w = ∅ -> fresh id w.
Proof. intros Hw j r Hr. unfold runs_of in Hr. rewrite Hw, lookup_empty in Hr. set_solver. Qed.

Lemma spawned_reachable : reachable all_registered spawned.
Proof.
  eapply rtc_l; [apply (StepCreate _ init sample_job)|].
  eapply rtc_l; [apply (StepSpawn _ _ #"job1")|].
  eapply rtc_l; [apply (StepSpawn _ _ #"job1")|]. apply rtc_refl.
Qed.

(** The second run only reads, so it can go before the row is created. *)
Lemma one_running_reachable : reachable all_registered one_running.
Proof.
  replace one_running with (after_step 0 (after_step 0 (after_step 1 (after_step 0 spawned))))
    by (vm_compute; reflexivity).
  do 4 (apply after_step_reachable; [|apply no_rows_fresh; vm_compute; reflexivity]). apply spawned_reachable.
Qed.

Lemma runs_exclude_each_other_witness :
  s_threads one_running !! 1%nat = Some (PcLock sample_job) /\
  exists i p, s_threads one_running !! i = Some p /\ owns p = Some #"job1".
Proof.
  split; [vm_compute; reflexivity|].
  destruct (runs_exclude_each_other all_registered one_running one_running_reachable) as [_ H].
  apply H. by_dec.
Defined.

Lemma at_most_one_running_row_witness :
  #"job1" ∈ m_held (s_mem one_running).
Proof.
  apply (at_most_one_running_row all_registered one_running #"job1"
           (mkRun #"run1" #"job1" 100 None RunRunning 0 [] [])).
  - exact one_running_reachable.
  - vm_compute. left.
  - reflexivity.
Defined.

(** The user disables the job while it runs; the run enables it again. *)
Definition disabled_job : Job :=
  mkJob #"job1" #"nightly" BackendZFS DirectionPush no_endpoint no_endpoint #"0 3 * * *"
    (mkRetention 7 0 0 0 0) false [] [] 0 50.

Lemma run_loses_concurrent_update_witness :
  let w := (mem_CreateJob sample_job (mkMem ∅ ∅ ∅)).1 in
  let t (x : pc * Mem) := thread_step all_registered answer1 x.1 x.2 in
  let at_exec := t (t (t (PcGet #"job1", w))) in
  let updated := (mem_UpdateJob disabled_job at_exec.2).1 in
  let after := t (t (at_exec.1, updated)) in
  (exists j, m_jobs updated !! #"job1" = Some j /\ jEnabled j = false) /\
  (exists j, m_jobs after.2 !! #"job1" = Some j /\ jEnabled j = true).
Proof.
  intros w t at_exec updated after.
  destruct (run_loses_concurrent_update all_registered w sample_job disabled_job answer1 answer1)
    as [H1 H2]; [reflexivity|reflexivity|reflexivity|set_solver|reflexivity|].
  split; eexists; (split; [first [exact H1|exact H2]|reflexivity]).
Defined.
