(* ===== verification/Regex.v ===== *)
(** * Regular expressions over bytes, for the patterns of package regexp

    A pattern anchored at both ends (as every pattern of the modelled code
    is) matches a string when the string is in the language of the
    expression.  The matcher takes derivatives; it is proved equivalent to
    the language. *)

From S2P Require Import Prelude GoStrings.

Inductive re :=
| Empty
| Eps
| Cls (p : ascii -> bool)
| Cat (r s : re)
| Alt (r s : re)
| Star (r : re).

Inductive lang : re -> gostr -> Prop :=
| LEps : lang Eps []
| LCls p c : p c = true -> lang (Cls p) [c]
| LCat r s x y : lang r x -> lang s y -> lang (Cat r s) (x ++ y)
| LAltL r s x : lang r x -> lang (Alt r s) x
| LAltR r s x : lang s x -> lang (Alt r s) x
| LStarNil r : lang (Star r) []
| LStarCons r x y : lang r x -> lang (Star r) y -> lang (Star r) (x ++ y).

(** Derived forms: a literal byte, [r?], [r+], [r{0,n}]. *)
Definition Lit (a : ascii) : re := Cls (fun c => ch_eqb c a).
Definition Opt (r : re) : re := Alt Eps r.
Definition Plus (r : re) : re := Cat r (Star r).
Fixpoint UpTo (n : nat) (r : re) : re :=
  match n with O => Eps | S n => Opt (Cat r (UpTo n r)) end.

Fixpoint nullable (r : re) : bool :=
  match r with
  | Empty | Cls _ => false
  | Eps | Star _ => true
  | Cat r s => nullable r && nullable s
  | Alt r s => nullable r || nullable s
  end.

(** Smart constructors keep the derivatives small. *)
Definition cat (r s : re) : re :=
  match r, s with
  | Empty, _ => Empty
  | _, Empty => Empty
  | Eps, _ => s
  | _, _ => Cat r s
  end.

Definition alt (r s : re) : re :=
  match r, s with
  | Empty, _ => s
  | _, Empty => r
  | _, _ => Alt r s
  end.

Fixpoint deriv (c : ascii) (r : re) : re :=
  match r with
  | Empty | Eps => Empty
  | Cls p => if p c then Eps else Empty
  | Cat r s =>
      if nullable r then alt (cat (deriv c r) s) (deriv c s) else cat (deriv c r) s
  | Alt r s => alt (deriv c r) (deriv c s)
  | Star r' => cat (deriv c r') r
  end.

Fixpoint match_string (r : re) (s : gostr) : bool :=
  match s with
  | [] => nullable r
  | c :: s' => match_string (deriv c r) s'
  end.

(** ** Correctness *)

Lemma lang_Empty s : ~ lang Empty s.
Proof. inversion 1. Qed.

Lemma lang_Eps s : lang Eps s <-> s = [].
Proof. split; [by inversion 1|]. intros ->. constructor. Qed.

Lemma lang_Cls p s : lang (Cls p) s <-> exists c, s = [c] /\ p c = true.
Proof. split; [inversion 1; eauto|]. intros (c & -> & Hc). by constructor. Qed.

Lemma lang_Cat r s x : lang (Cat r s) x <-> exists a b, x = a ++ b /\ lang r a /\ lang s b.
Proof. split; [inversion 1; eauto|]. intros (a & b & -> & Ha & Hb). by constructor. Qed.

Lemma lang_Alt r s x : lang (Alt r s) x <-> lang r x \/ lang s x.
Proof. split; [inversion 1; eauto|]. intros [H|H]; [by apply LAltL|by apply LAltR]. Qed.

Lemma lang_Star r x :
  lang (Star r) x <-> x = [] \/ exists a b, x = a ++ b /\ a <> [] /\ lang r a /\ lang (Star r) b.
Proof.
  split.
  - remember (Star r) as q eqn:E. induction 1 as [| | | | | |r' a b Ha _ Hb IH]; try done; [by left|].
    injection E as ->. destruct a as [|c a]; [by apply IH|]. right. exists (c :: a), b. by split_and!.
  - intros [->|(a & b & -> & _ & Ha & Hb)]; by constructor.
Qed.

Lemma lang_cat r s x : lang (cat r s) x <-> lang (Cat r s) x.
Proof.
  assert (HE : forall q, ~ lang (Cat Empty q) x).
  { intros q (a & b & _ & H & _)%lang_Cat. by apply lang_Empty in H. }
  assert (HE' : forall q, ~ lang (Cat q Empty) x).
  { intros q (a & b & _ & _ & H)%lang_Cat. by apply lang_Empty in H. }
  assert (Hone : forall q, lang q x <-> lang (Cat Eps q) x).
  { intros q. rewrite lang_Cat. split.
    - intros H. exists [], x. split_and!; [done|constructor|done].
    - intros (a & b & -> & ->%lang_Eps & H). done. }
  pose proof (lang_Empty x).
  destruct r; simpl; destruct s; try done; try apply Hone; split; intros Hx;
    exfalso; first [done|by eapply HE|by eapply HE'].
Qed.

Lemma lang_alt r s x : lang (alt r s) x <-> lang (Alt r s) x.
Proof.
  rewrite lang_Alt. pose proof (lang_Empty x).
  destruct r; simpl; destruct s; rewrite ?lang_Alt; naive_solver.
Qed.

Lemma nullable_lang r : nullable r = true <-> lang r [].
Proof.
  induction r as [| |p|r IHr s IHs|r IHr s IHs|r IHr]; simpl.
  - split; [done|]. by intros ?%lang_Empty.
  - split; [constructor|done].
  - split; [done|]. intros (c & [=] & _)%lang_Cls.
  - rewrite andb_true_iff, IHr, IHs, lang_Cat. split; [intros [? ?]; by exists [], []|].
    intros (a & b & E & Ha & Hb). symmetry in E. apply app_nil in E as [-> ->]. done.
  - by rewrite orb_true_iff, IHr, IHs, lang_Alt.
  - split; [constructor|done].
Qed.

Lemma deriv_lang c r x : lang (deriv c r) x <-> lang r (c :: x).
Proof.
  revert x. induction r as [| |p|r IHr s IHs|r IHr s IHs|r IHr]; intros x; simpl.
  - split; by intros ?%lang_Empty.
  - split; [by intros ?%lang_Empty|]. by intros ?%lang_Eps.
  - rewrite lang_Cls. destruct (p c) eqn:Ep.
    + rewrite lang_Eps. split; [intros ->; by exists c|]. intros (d & [=] & _). done.
    + split; [by intros ?%lang_Empty|]. intros (d & [= -> _] & Hd). congruence.
  - assert (Hc : lang (cat (deriv c r) s) x <->
              exists a b, c :: x = (c :: a) ++ b /\ lang r (c :: a) /\ lang s b).
    { rewrite lang_cat, lang_Cat. setoid_rewrite IHr. naive_solver. }
    assert (Hsplit : lang (Cat r s) (c :: x) <->
              (exists a b, c :: x = (c :: a) ++ b /\ lang r (c :: a) /\ lang s b) \/
              (nullable r = true /\ lang s (c :: x))).
    { rewrite lang_Cat, nullable_lang. split.
      - intros ([|d a] & b & E & Ha & Hb); simplify_eq/=; [by right|]. left. by exists a, b.
      - intros [(a & b & E & Ha & Hb)|[Hn Hs]]; [by exists (c :: a), b|]. by exists [], (c :: x). }
    rewrite Hsplit. destruct (nullable r).
    + rewrite lang_alt, lang_Alt, Hc, IHs. naive_solver.
    + rewrite Hc. naive_solver.
  - by rewrite lang_alt, !lang_Alt, IHr, IHs.
  - rewrite lang_cat, lang_Cat, lang_Star. setoid_rewrite IHr. split.
    + intros (a & b & -> & Ha & Hb). right. by exists (c :: a), b.
    + intros [[=]|([|d a] & b & E & Hne & Ha & Hb)]; [done|]. simplify_eq/=. by exists a, b.
Qed.

(** The matcher accepts exactly the language. *)
Lemma match_string_iff r s : match_string r s = true <-> lang r s.
Proof.
  revert r; induction s as [|c s IH]; intros r; simpl; [apply nullable_lang|].
  rewrite IH. apply deriv_lang.
Qed.

(** ** Languages of the derived forms *)

Definition all_in (p : ascii -> bool) (s : gostr) : Prop := Forall (fun c => p c = true) s.

Lemma lang_Opt r x : lang (Opt r) x <-> x = [] \/ lang r x.
Proof. unfold Opt. by rewrite lang_Alt, lang_Eps. Qed.

Lemma lang_Star_Cls p x : lang (Star (Cls p)) x <-> all_in p x.
Proof.
  unfold all_in. induction x as [|c x IH].
  - split; [constructor|]. intros _. constructor.
  - rewrite lang_Star, Forall_cons, <- IH. split.
    + intros [[=]|(a & b & E & _ & (d & -> & Hd)%lang_Cls & Hb)]. by simplify_eq/=.
    + intros [Hc Hx]. right. exists [c], x. split_and!; try done. by constructor.
Qed.

Lemma lang_Plus_Cls p x : lang (Plus (Cls p)) x <-> x <> [] /\ all_in p x.
Proof.
  unfold Plus. rewrite lang_Cat. setoid_rewrite lang_Star_Cls. unfold all_in. split.
  - intros (a & b & -> & (c & -> & Hc)%lang_Cls & Hb). split; [done|]. by constructor.
  - intros [Hne Hx]. destruct x as [|c x]; [done|]. apply Forall_cons in Hx as [Hc Hx].
    exists [c], x. split_and!; try done. by constructor.
Qed.

Lemma lang_UpTo_Cls n p x : lang (UpTo n (Cls p)) x <-> (length x <= n)%nat /\ all_in p x.
Proof.
  unfold all_in. revert x; induction n as [|n IH]; intros x; cbn [UpTo].
  - rewrite lang_Eps. split; [intros ->; split; [done|constructor]|].
    intros [Hl _]. destruct x; [done|simpl in Hl; lia].
  - rewrite lang_Opt, lang_Cat. setoid_rewrite IH. split.
    + intros [->|(a & b & -> & (c & -> & Hc)%lang_Cls & Hl & Hb)]; [split; [simpl; lia|constructor]|].
      simpl. split; [lia|]. by constructor.
    + intros [Hl Hx]. destruct x as [|c x]; [by left|]. right. apply Forall_cons in Hx as [Hc Hx].
      exists [c], x. split_and!; try done; [by constructor|]. simpl in Hl. lia.
Qed.
