(* ===== verification/Plugins.v ===== *)
(** * internal/plugins: the plugin manifest and the dependency resolver

    manifest.go and dependencies.go.  The YAML decoder, the semantic
    version library, the marketplace index and the table of installed
    plugins are parameters. *)

From S2P Require Import Prelude GoStrings Regex.

Module Manifest.

(** ** Constants: the string types of the manifest *)

Definition CurrentAPIVersion : gostr := #"novanas.io/v1".
Definition Kind : gostr := #"Plugin".

Definition CategoryStorage : gostr := #"storage".
Definition CategoryNetworking : gostr := #"networking".
Definition CategoryObservability : gostr := #"observability".
Definition CategoryDeveloper : gostr := #"developer".
Definition CategoryUtility : gostr := #"utility".

Definition validCategories : list gostr :=
  [CategoryStorage; CategoryNetworking; CategoryObservability; CategoryDeveloper; CategoryUtility].

Definition AllDisplayCategories : list gostr :=
  map str ["backup"; "files"; "multimedia"; "photos"; "productivity"; "security";
           "communication"; "home"; "developer"; "network"; "storage"; "surveillance";
           "utilities"; "observability"]%string.

Definition mem (s : gostr) (l : list gostr) : bool := existsb (str_eqb s) l.

Definition IsValidDisplayCategory (c : gostr) : bool := mem c AllDisplayCategories.

(** The display names, in the order of [AllDisplayCategories]. *)
Definition display_names : list gostr :=
  map str ["Backup"; "Files"; "Multimedia"; "Photos"; "Productivity"; "Security";
           "Communication"; "Home"; "Developer"; "Network"; "Storage"; "Surveillance";
           "Utilities"; "Observability"]%string.

Definition assoc (k : gostr) (l : list (gostr * gostr)) : option gostr :=
  snd <$> find (fun p => str_eqb (fst p) k) l.

Definition DisplayCategoryDisplayName (c : gostr) : gostr :=
  default c (assoc c (zip AllDisplayCategories display_names)).

Definition DefaultDisplayCategoryFor (privCategory : gostr) : gostr :=
  default []
    (assoc privCategory
       [(CategoryStorage, #"storage"); (CategoryNetworking, #"network");
        (CategoryObservability, #"observability"); (CategoryDeveloper, #"developer");
        (CategoryUtility, #"utilities")]).

Definition NeedDataset : gostr := #"dataset".
Definition NeedOIDCClient : gostr := #"oidcClient".
Definition NeedTLSCert : gostr := #"tlsCert".
Definition NeedPermission : gostr := #"permission".

(** A category that is not listed has the nil map: nothing is allowed. *)
Definition privilegedNeedsByCategory (category : gostr) : list gostr :=
  if str_eqb category CategoryStorage
  then [NeedDataset; NeedOIDCClient; NeedTLSCert; NeedPermission]
  else if str_eqb category CategoryNetworking then [NeedOIDCClient; NeedTLSCert; NeedPermission]
  else if str_eqb category CategoryObservability then [NeedOIDCClient; NeedTLSCert; NeedPermission]
  else if str_eqb category CategoryDeveloper then [NeedOIDCClient; NeedPermission]
  else if str_eqb category CategoryUtility then [NeedPermission]
  else [].

Definition DependencySourceTier2 : gostr := #"tier-2".
Definition DependencySourceBundled : gostr := #"bundled".
Definition validDependencySources : list gostr := [DependencySourceTier2; DependencySourceBundled].

(** ** Patterns *)

Definition lower_or_digit (c : ascii) : bool := is_lower c || is_digit c.
Definition name_mid (c : ascii) : bool := lower_or_digit c || ch_eqb c "-"%char.
Definition alnum_dot_dash (c : ascii) : bool :=
  is_digit c || is_upper c || is_lower c || ch_eqb c "."%char || ch_eqb c "-"%char.

(** [^[a-z0-9]([a-z0-9-]{0,38}[a-z0-9])?$] *)
Definition nameRE : re :=
  Cat (Cls lower_or_digit) (Opt (Cat (UpTo 38 (Cls name_mid)) (Cls lower_or_digit))).

(** [^v?[0-9]+\.[0-9]+\.[0-9]+(-[0-9A-Za-z.-]+)?(\+[0-9A-Za-z.-]+)?$] *)
Definition versionRE : re :=
  let num := Plus (Cls is_digit) in
  Cat (Opt (Lit "v"%char))
   (Cat num (Cat (Lit "."%char) (Cat num (Cat (Lit "."%char) (Cat num
     (Cat (Opt (Cat (Lit "-"%char) (Plus (Cls alnum_dot_dash))))
          (Opt (Cat (Lit "+"%char) (Plus (Cls alnum_dot_dash)))))))))).

(** [^[a-z0-9][a-z0-9-]*$] *)
Definition tagRE : re := Cat (Cls lower_or_digit) (Star (Cls name_mid)).

Definition MaxTagLength : nat := 32.
Definition MaxTags : nat := 16.

(** ** The manifest *)

Record DatasetNeed := mkDatasetNeed {
  dnPool : gostr; dnName : gostr; dnProperties : list (gostr * gostr) }.
Record OIDCClientNeed := mkOIDCNeed {
  ocClientID : gostr; ocRedirects : list gostr; ocPublic : bool }.
Record TLSCertNeed := mkTLSNeed {
  tcCommonName : gostr; tcDNSNames : list gostr; tcIPs : list gostr; tcTTLDays : Z }.
Record PermissionNeed := mkPermNeed { pnRole : gostr; pnDescription : gostr }.

Record Need := mkNeed {
  nKind : gostr; nDataset : option DatasetNeed; nOIDCClient : option OIDCClientNeed;
  nTLSCert : option TLSCertNeed; nPermission : option PermissionNeed }.

Record Dependency := mkDep { dName : gostr; dConstraint : gostr; dSource : gostr }.

Record Deployment := mkDeployment {
  DeployType : gostr; DeployChart : gostr; DeployNamespace : gostr; DeployUnit : gostr }.

Record APIRoute := mkRoute {
  rPath : gostr; rUpstream : gostr; rScopes : list gostr; rAuth : gostr }.

Record UIWindow := mkWindow {
  WindowName : gostr; WindowIcon : gostr; WindowRoute : gostr; WindowBundle : gostr }.

Record Health := mkHealth { hPath : gostr; IntervalSeconds : Z; TimeoutSeconds : Z }.

Record Lifecycle := mkLifecycle {
  PreInstall : gostr; PostInstall : gostr; PreUninstall : gostr }.

Record PluginMetadata := mkMetadata {
  mName : gostr; mVersion : gostr; mVendor : gostr; mSignature : gostr }.

Record PluginSpec := mkSpec {
  Description : gostr; Category : gostr; DisplayCategory : gostr; Tags : list gostr;
  Icon : gostr; sDeployment : Deployment; sNeeds : list Need;
  sDependencies : list Dependency; sRoutes : list APIRoute; Window : UIWindow;
  sHealth : Health; sLifecycle : Lifecycle }.

Record Plugin := mkPlugin {
  APIVersion : gostr; pKind : gostr; Metadata : PluginMetadata; Spec : PluginSpec }.

Definition pName (p : Plugin) : gostr := mName (Metadata p).
Definition pVersion (p : Plugin) : gostr := mVersion (Metadata p).
Definition pCategory (p : Plugin) : gostr := Category (Spec p).
Definition Needs (p : Plugin) : list Need := sNeeds (Spec p).
Definition Dependencies (p : Plugin) : list Dependency := sDependencies (Spec p).

Inductive manifest_err :=
| BadAPIVersion | BadKind | BadName | BadVersion | NoVendor | NoDescription | BadCategory
| BadDisplayCategory | TooManyTags | TagTooLong (i : nat) | BadTag (i : nat)
| NoChart | NoUnit | BadDeployment
| NeedNotAllowed (i : nat) | NeedIncomplete (i : nat) | NeedUnknown (i : nat)
| RoutePath (i : nat) | RouteUpstream (i : nat) | RouteAuth (i : nat)
| DepName (i : nat) | DepSource (i : nat) | DepConstraint (i : nat) | DepSelf (i : nat)
| WindowIncomplete.

(** [if bad { errs = append(errs, e) }] *)
Definition when (bad : bool) (e : manifest_err) : list manifest_err := if bad then [e] else [].

Definition check_tag (i : nat) (t : gostr) : list manifest_err :=
  if (MaxTagLength <? length t)%nat then [TagTooLong i]
  else when (negb (match_string tagRE t)) (BadTag i).

(** A nil pointer or an empty required field. *)
Definition need_ok (n : Need) : option bool :=
  if str_eqb (nKind n) NeedDataset then
    Some (match nDataset n with
          | Some d => negb (str_eqb (dnPool d) []) && negb (str_eqb (dnName d) [])
          | None => false end)
  else if str_eqb (nKind n) NeedOIDCClient then
    Some (match nOIDCClient n with Some o => negb (str_eqb (ocClientID o) []) | None => false end)
  else if str_eqb (nKind n) NeedTLSCert then
    Some (match nTLSCert n with Some t => negb (str_eqb (tcCommonName t) []) | None => false end)
  else if str_eqb (nKind n) NeedPermission then
    Some (match nPermission n with Some p => negb (str_eqb (pnRole p) []) | None => false end)
  else None.

Definition check_need (category : gostr) (i : nat) (n : Need) : list manifest_err :=
  if negb (mem (nKind n) (privilegedNeedsByCategory category)) then [NeedNotAllowed i]
  else match need_ok n with
       | Some ok => when (negb ok) (NeedIncomplete i)
       | None => [NeedUnknown i]
       end.

Definition check_route (i : nat) (r : APIRoute) : list manifest_err :=
  when (negb (has_prefix (rPath r) #"/")) (RoutePath i)
  ++ when (str_eqb (rUpstream r) []) (RouteUpstream i)
  ++ when (negb (mem (rAuth r) [ #"bearer-passthrough"; #"service-token"])) (RouteAuth i).

Section WithSemver.
(** github.com/Masterminds/semver/v3: versions and constraints. *)
Context {V C : Type} (NewVersion : gostr -> option V) (NewConstraint : gostr -> option C)
  (Check_ : C -> V -> bool) (GreaterThan : V -> V -> bool).

Definition check_dep (self : gostr) (i : nat) (d : Dependency) : list manifest_err :=
  when (negb (match_string nameRE (dName d))) (DepName i)
  ++ when (negb (mem (dSource d) validDependencySources)) (DepSource i)
  ++ (if negb (str_eqb (dConstraint d) [])
      then match NewConstraint (dConstraint d) with None => [DepConstraint i] | Some _ => [] end
      else [])
  ++ when (str_eqb (dName d) self) (DepSelf i).

Definition DeploymentHelm : gostr := #"helm".
Definition DeploymentSystemd : gostr := #"systemd".

Definition check_deployment (d : Deployment) : list manifest_err :=
  if str_eqb (DeployType d) DeploymentHelm then when (str_eqb (DeployChart d) []) NoChart
  else if str_eqb (DeployType d) DeploymentSystemd then when (str_eqb (DeployUnit d) []) NoUnit
  else [BadDeployment].

Definition check_window (w : UIWindow) : list manifest_err :=
  if negb (str_eqb (WindowBundle w) [])
  then when (str_eqb (WindowName w) [] || str_eqb (WindowRoute w) []) WindowIncomplete
  else [].

(** Every problem, in the order they are found; none is a valid manifest. *)
Definition Validate (p : Plugin) : list manifest_err :=
  when (negb (str_eqb (APIVersion p) CurrentAPIVersion)) BadAPIVersion
  ++ when (negb (str_eqb (pKind p) Kind)) BadKind
  ++ when (negb (match_string nameRE (pName p))) BadName
  ++ when (negb (match_string versionRE (pVersion p))) BadVersion
  ++ when (str_eqb (trim_space (mVendor (Metadata p))) []) NoVendor
  ++ when (str_eqb (trim_space (Description (Spec p))) []) NoDescription
  ++ when (negb (mem (pCategory p) validCategories)) BadCategory
  ++ when (negb (str_eqb (DisplayCategory (Spec p)) [])
           && negb (IsValidDisplayCategory (DisplayCategory (Spec p)))) BadDisplayCategory
  ++ when (MaxTags <? length (Tags (Spec p)))%nat TooManyTags
  ++ concat (imap check_tag (Tags (Spec p)))
  ++ check_deployment (sDeployment (Spec p))
  ++ concat (imap (check_need (pCategory p)) (Needs p))
  ++ concat (imap check_route (sRoutes (Spec p)))
  ++ concat (imap (check_dep (pName p)) (Dependencies p))
  ++ check_window (Window (Spec p)).

(** The display category inferred from the privilege category. *)
Definition fill_display (p : Plugin) : Plugin :=
  let s := Spec p in
  if str_eqb (DisplayCategory s) [] then
    mkPlugin (APIVersion p) (pKind p) (Metadata p)
      (mkSpec (Description s) (Category s) (DefaultDisplayCategoryFor (Category s)) (Tags s)
         (Icon s) (sDeployment s) (sNeeds s) (sDependencies s) (sRoutes s) (Window s)
         (sHealth s) (sLifecycle s))
  else p.

Inductive parse_err := YamlErr | Invalid (errs : list manifest_err).

Definition ParseManifest (decode : gostr -> option Plugin) (data : gostr) : res parse_err Plugin :=
  match decode data with
  | None => Err YamlErr
  | Some p =>
      let p := fill_display p in
      match Validate p with [] => Ok p | errs => Err (Invalid errs) end
  end.

(** ** dependencies.go *)

Definition constraintSatisfied (constraint ver : gostr) : bool :=
  if str_eqb (trim_space constraint) [] then true
  else match NewConstraint constraint, NewVersion ver with
       | Some c, Some v => Check_ c v
       | _, _ => false
       end.

Definition filterEmpty (l : list gostr) : list gostr :=
  filter (fun s => trim_space s <> []) l.

Inductive resolve_err :=
| MaxDepth | ErrCycle (name : gostr) | UnknownSource (name : gostr)
| InstalledLookup (name : gostr) | ErrUnsatisfiable (name ver : gostr)
| NoMarketplace (name : gostr) | MarketplaceLookup (name : gostr)
| InvalidConstraint | NoVersionSatisfies.

(** The loop of pickHighestSatisfying: the best version so far. *)
Fixpoint pick_loop (combined : option C) (best : option (V * gostr)) (versions : list gostr)
  : option (V * gostr) :=
  match versions with
  | [] => best
  | raw :: vs =>
      let next :=
        match NewVersion raw with
        | None => best
        | Some v =>
            if match combined with Some c => negb (Check_ c v) | None => false end then best
            else match best with
                 | None => Some (v, raw)
                 | Some (b, _) => if GreaterThan v b then Some (v, raw) else best
                 end
        end in
      pick_loop combined next vs
  end.

Definition pickHighestSatisfying (versions constraints : list gostr) : res resolve_err gostr :=
  let cs := filterEmpty constraints in
  let pick (combined : option C) :=
    match pick_loop combined None versions with
    | Some (_, raw) => Ok raw
    | None => Err NoVersionSatisfies
    end in
  match cs with
  | [] => pick None
  | _ => match NewConstraint (join_with ","%char cs) with
         | None => Err InvalidConstraint
         | Some c => pick (Some c)
         end
  end.

Inductive PlanAction := PlanActionInstall | PlanActionSkip | PlanActionBundled.

#[global] Instance PlanAction_eq_dec : EqDecision PlanAction.
Proof. solve_decision. Defined.

Record PlanStep := mkStep {
  sName : gostr; sVersion : gostr; sSource : gostr; sAction : PlanAction; sConstraint : gostr }.

(** An entry of the marketplace index; a version is its version string. *)
Record IndexPlugin := mkIndexPlugin { ipName : gostr; ipVersions : list gostr }.

Inductive find_err := FetchFailed | NoVersions | NoSuchVersion | NotInIndex.

(** MarketplaceClient.FindVersion on the index it fetched, [None] when
    fetching fails: the entry and the version of it that is asked for, the
    first one listed when [ver] is empty. *)
Fixpoint find_in (plugins : list IndexPlugin) (name ver : gostr)
  : res find_err (IndexPlugin * gostr) :=
  match plugins with
  | [] => Err NotInIndex
  | p :: ps =>
      if negb (str_eqb (ipName p) name) then find_in ps name ver
      else match ipVersions p with
           | [] => Err NoVersions
           | v0 :: _ =>
               if str_eqb ver [] then Ok (p, v0)
               else match find (str_eqb ver) (ipVersions p) with
                    | Some v => Ok (p, v)
                    | None => Err NoSuchVersion
                    end
           end
  end.

Definition FindVersion (idx : option (list IndexPlugin)) (name ver : gostr)
  : res find_err (IndexPlugin * gostr) :=
  match idx with None => Err FetchFailed | Some plugins => find_in plugins name ver end.

(** The marketplace and the table of installed plugins, when the resolver
    has them (an interface value that may be nil).  They answer the same
    during one call. *)
Record Resolver := mkResolver {
  Marketplace : option (gostr -> gostr -> res find_err (IndexPlugin * gostr));
  Installed : option (gostr -> res unit (option gostr));
  rMaxDepth : Z }.

Definition maxDepth (r : Resolver) : Z := if rMaxDepth r <=? 0 then 32 else rMaxDepth r.

Record resolveState := mkState {
  visiting : gset gostr; resolved : gmap gostr PlanStep; order : list gostr;
  constraints : gmap gostr (list gostr) }.

Definition constraints_of (st : resolveState) (n : gostr) : list gostr :=
  default [] (constraints st !! n).

(** [resolved[n] = step; order = append(order, n)] *)
Definition record_step (st : resolveState) (s : PlanStep) : resolveState :=
  mkState (visiting st) (<[sName s := s]> (resolved st)) (order st ++ [sName s]) (constraints st).

Definition replace_step (st : resolveState) (s : PlanStep) : resolveState :=
  mkState (visiting st) (<[sName s := s]> (resolved st)) (order st) (constraints st).

Definition add_constraint (st : resolveState) (d : Dependency) : resolveState :=
  mkState (visiting st) (resolved st) (order st)
    (<[dName d := constraints_of st (dName d) ++ [dConstraint d]]> (constraints st)).

(** A tier-2 dependency that is installed at version [cur]. *)
Definition walk_installed (d : Dependency) (cur : gostr) (st : resolveState)
  : res resolve_err resolveState :=
  if negb (constraintSatisfied (dConstraint d) cur) then Err (ErrUnsatisfiable (dName d) cur)
  else
    match resolved st !! dName d with
    | None =>
        Ok (record_step st (mkStep (dName d) cur DependencySourceTier2 PlanActionSkip (dConstraint d)))
    | Some existing =>
        if bool_decide (sAction existing = PlanActionSkip)
           && negb (constraintSatisfied (dConstraint d) (sVersion existing))
        then Err (ErrUnsatisfiable (dName d) (sVersion existing))
        else Ok st
    end.

(** A tier-2 dependency to take from the marketplace. *)
Definition walk_market (r : Resolver) (d : Dependency) (st : resolveState)
  : res resolve_err resolveState :=
  match Marketplace r with
  | None => Err (NoMarketplace (dName d))
  | Some find =>
      match find (dName d) [] with
      | Err _ => Err (MarketplaceLookup (dName d))
      | Ok (idxPlugin, _) =>
          let? picked :=
            pickHighestSatisfying (ipVersions idxPlugin) (constraints_of st (dName d)) in
          let joined := join_with ","%char (filterEmpty (constraints_of st (dName d))) in
          match resolved st !! dName d with
          | Some existing =>
              if bool_decide (sAction existing = PlanActionInstall)
                 && negb (constraintSatisfied (dConstraint d) (sVersion existing))
              then Ok (replace_step st
                         (mkStep (sName existing) picked (sSource existing) (sAction existing) joined))
              else Ok st
          | None =>
              Ok (record_step st
                    (mkStep (dName d) picked DependencySourceTier2 PlanActionInstall joined))
          end
      end
  end.

(** The body of the loop over the dependencies of the plugin [self]. *)
Definition walk_dep (r : Resolver) (self : gostr) (d : Dependency) (st : resolveState)
  : res resolve_err resolveState :=
  if str_eqb (dSource d) DependencySourceBundled then
    match resolved st !! dName d with
    | Some _ => Ok st
    | None =>
        Ok (record_step st
              (mkStep (dName d) [] DependencySourceBundled PlanActionBundled (dConstraint d)))
    end
  else if negb (str_eqb (dSource d) DependencySourceTier2) then Err (UnknownSource (dName d))
  else if str_eqb (dName d) self then Err (ErrCycle (dName d))
  else
    let st := add_constraint st d in
    match Installed r with
    | None => walk_market r d st
    | Some installed =>
        match installed (dName d) with
        | Err _ => Err (InstalledLookup (dName d))
        | Ok (Some cur) => walk_installed d cur st
        | Ok None => walk_market r d st
        end
    end.

Fixpoint walk_deps (r : Resolver) (self : gostr) (ds : list Dependency) (st : resolveState)
  : res resolve_err resolveState :=
  match ds with
  | [] => Ok st
  | d :: ds' => let? st' := walk_dep r self d st in walk_deps r self ds' st'
  end.

Definition walk (r : Resolver) (m : Plugin) (depth : Z) (st : resolveState)
  : res resolve_err resolveState :=
  ensure depth <=? maxDepth r else MaxDepth ;;
  ensure negb (bool_decide (pName m ∈ visiting st)) else ErrCycle (pName m) ;;
  let st := mkState ({[pName m]} ∪ visiting st) (resolved st) (order st) (constraints st) in
  let? st := walk_deps r (pName m) (Dependencies m) st in
  Ok (mkState (visiting st ∖ {[pName m]}) (resolved st) (order st) (constraints st)).

Definition Plan (r : Resolver) (root : Plugin) : res resolve_err (list PlanStep) :=
  let? st := walk r root 0 (mkState ∅ ∅ [] ∅) in
  Ok (omap (fun n => resolved st !! n) (order st)
      ++ [mkStep (pName root) (pVersion root) DependencySourceTier2 PlanActionInstall []]).

(** ** The dependency tree *)

Inductive TreeNode := mkNode {
  tName : gostr; tVersion : gostr; tConstraint : gostr; tSource : gostr;
  tInstalled : bool; tSatisfied : bool; tChildren : list TreeNode }.

(** The latest version the marketplace lists, when it answers. *)
Definition latest (r : Resolver) (name : gostr) : option gostr :=
  match Marketplace r with
  | None => None
  | Some find => match find name [] with Ok (_, v) => Some v | Err _ => None end
  end.

Definition tree_child (r : Resolver) (d : Dependency) : TreeNode :=
  if str_eqb (dSource d) DependencySourceBundled
  then mkNode (dName d) [] (dConstraint d) (dSource d) false true []
  else
    let '(ver, inst, sat) :=
      match Installed r with
      | None => ([], false, false)
      | Some installed =>
          match installed (dName d) with
          | Ok (Some cur) => (cur, true, constraintSatisfied (dConstraint d) cur)
          | _ => ([], false, false)
          end
      end in
    let ver := if str_eqb ver [] then default ver (latest r (dName d)) else ver in
    mkNode (dName d) ver (dConstraint d) (dSource d) inst sat [].

Definition tree (r : Resolver) (m : Plugin) (visiting : gset gostr) (depth : Z)
  : res resolve_err TreeNode :=
  ensure depth <=? maxDepth r else MaxDepth ;;
  ensure negb (bool_decide (pName m ∈ visiting)) else ErrCycle (pName m) ;;
  Ok (mkNode (pName m) (pVersion m) [] DependencySourceTier2 false false
        (map (tree_child r) (Dependencies m))).

Definition Tree (r : Resolver) (root : Plugin) : res resolve_err TreeNode := tree r root ∅ 0.
End WithSemver.

End Manifest.

(** * Plugins: what a manifest that validates may claim *)

From S2P Require Import Prelude GoStrings Regex.
Import Manifest.

(** ** Names *)

(** A DNS-1123 label of at most forty bytes. *)
Definition valid_name (s : gostr) : Prop :=
  (1 <= length s <= 40)%nat /\ all_in name_mid s /\
  (exists c r, s = c :: r /\ lower_or_digit c = true) /\
  (exists r c, s = r ++ [c] /\ lower_or_digit c = true).

Lemma lower_or_digit_mid c : lower_or_digit c = true -> name_mid c = true.
Proof. unfold name_mid. by intros ->. Qed.

Lemma nameRE_iff s : match_string nameRE s = true <-> valid_name s.
Proof.
  rewrite match_string_iff. unfold nameRE, valid_name, all_in. rewrite lang_Cat.
  setoid_rewrite lang_Cls. setoid_rewrite lang_Opt. setoid_rewrite lang_Cat.
  setoid_rewrite lang_UpTo_Cls. setoid_rewrite lang_Cls. split.
  - intros (a & b & -> & (c & -> & Hc) & [->|(m & l & -> & [Hm Hmid] & (d & -> & Hd))]).
    + split_and!; [simpl; lia..| |eauto|by exists [], c].
      repeat constructor. by apply lower_or_digit_mid.
    + split_and!; [simpl; rewrite length_app; simpl; lia..| |eauto|by exists (c :: m), d].
      constructor; [by apply lower_or_digit_mid|]. apply Forall_app. split; [done|].
      repeat constructor. by apply lower_or_digit_mid.
  - intros (Hlen & Hall & (c & r & -> & Hc) & (r' & d & E & Hd)).
    exists [c], r. split; [done|]. split; [eauto|].
    destruct r as [|x r]; [by left|]. right.
    destruct (exists_last (l := x :: r)) as (m & e & Em); [done|]. rewrite Em in *.
    assert (e = d) as ->.
    { rewrite app_comm_cons in E. by apply app_inj_tail in E as [_ ->]. }
    exists m, [d]. split_and!; [done| | |eauto].
    + simpl in Hlen. rewrite length_app in Hlen. simpl in Hlen. lia.
    + apply Forall_cons in Hall as [_ Hall]. by apply Forall_app in Hall as [? _].
Qed.

(** ** The privilege guard *)

Lemma when_nil b e : when b e = [] -> b = false.
Proof. by destruct b. Qed.

Lemma mem_iff s l : mem s l = true <-> s ∈ l.
Proof.
  unfold mem. rewrite existsb_exists. setoid_rewrite str_eqb_eq. setoid_rewrite <- list_elem_of_In.
  naive_solver.
Qed.

Lemma concat_imap_nil {A B} (f : nat -> A -> list B) (l : list A) :
  concat (imap f l) = [] -> forall i x, l !! i = Some x -> f i x = [].
Proof.
  revert f. induction l as [|a l IH]; intros f H i x Hi; [done|].
  rewrite imap_cons in H. simpl in H. apply app_nil in H as [Ha Hl].
  destruct i as [|i]; simpl in Hi; [by simplify_eq|]. by apply (IH (f ∘ S) Hl i x).
Qed.

Section Validate.
Context {C : Type} (NewConstraint : gostr -> option C).

Lemma Validate_parts p : Validate NewConstraint p = [] ->
  match_string nameRE (pName p) = true /\ pCategory p ∈ validCategories /\
  (forall n, n ∈ Needs p -> exists i, check_need (pCategory p) i n = []) /\
  (forall d, d ∈ Dependencies p -> exists i, check_dep NewConstraint (pName p) i d = []).
Proof.
  unfold Validate. intros H. repeat (apply app_nil in H as [? H]).
  split_and!.
  - match goal with H : when (negb (match_string nameRE _)) _ = [] |- _ =>
      apply when_nil, negb_false_iff in H; exact H end.
  - match goal with H : when (negb (mem (pCategory p) _)) _ = [] |- _ =>
      apply when_nil, negb_false_iff, mem_iff in H; exact H end.
  - intros n [i Hi]%list_elem_of_lookup. exists i.
    match goal with H : concat (imap (check_need _) _) = [] |- _ =>
      by apply (concat_imap_nil _ _ H) end.
  - intros d [i Hi]%list_elem_of_lookup. exists i.
    match goal with H : concat (imap (check_dep _ _) _) = [] |- _ =>
      by apply (concat_imap_nil _ _ H) end.
Qed.

Lemma check_need_ok cat i n : check_need cat i n = [] ->
  nKind n ∈ privilegedNeedsByCategory cat /\ need_ok n = Some true.
Proof.
  unfold check_need. destruct (mem _ _) eqn:E; cbn [negb]; [|done]. apply mem_iff in E.
  destruct (need_ok n) as [[|]|]; [done| |]; done.
Qed.

(** A need kind, the field it requires, and that it is filled in. *)
Definition need_filled (n : Need) : Prop :=
  (nKind n = NeedDataset /\ exists d, nDataset n = Some d /\ dnPool d <> [] /\ dnName d <> []) \/
  (nKind n = NeedOIDCClient /\ exists o, nOIDCClient n = Some o /\ ocClientID o <> []) \/
  (nKind n = NeedTLSCert /\ exists t, nTLSCert n = Some t /\ tcCommonName t <> []) \/
  (nKind n = NeedPermission /\ exists q, nPermission n = Some q /\ pnRole q <> []).

Lemma need_ok_filled n : need_ok n = Some true -> need_filled n.
Proof.
  unfold need_ok, need_filled. case_str (nKind n) NeedDataset as E1.
  { intros [= (d & ? & H)%match_some_true]. gobool in H. naive_solver. }
  case_str (nKind n) NeedOIDCClient as E2.
  { intros [= (d & ? & H)%match_some_true]. gobool in H. naive_solver. }
  case_str (nKind n) NeedTLSCert as E3.
  { intros [= (d & ? & H)%match_some_true]. gobool in H. naive_solver. }
  case_str (nKind n) NeedPermission as E4; [|done].
  intros [= (d & ? & H)%match_some_true]. gobool in H. naive_solver.
Qed.

Lemma Validate_needs p n : Validate NewConstraint p = [] -> n ∈ Needs p ->
  nKind n ∈ privilegedNeedsByCategory (pCategory p) /\ need_filled n.
Proof.
  intros (_ & _ & Hneeds & _)%Validate_parts [i Hi]%Hneeds.
  apply check_need_ok in Hi as [? ?]. split; [done|]. by apply need_ok_filled.
Qed.

(** A manifest that passes Validate cannot escalate: its name is a
    DNS label of at most forty bytes, every resource it asks for is of a
    kind its category may claim and names what it needs; only storage
    plugins claim datasets, and neither developer nor utility plugins
    claim certificates; and it does not depend on itself. *)
Theorem Validate_guards_privileges p (Hv : Validate NewConstraint p = []) :
  valid_name (pName p) /\
  (forall n, n ∈ Needs p ->
     nKind n ∈ privilegedNeedsByCategory (pCategory p) /\ need_filled n) /\
  (forall n, n ∈ Needs p -> nKind n = NeedDataset -> pCategory p = CategoryStorage) /\
  (forall n, n ∈ Needs p -> nKind n = NeedTLSCert ->
     pCategory p <> CategoryDeveloper /\ pCategory p <> CategoryUtility) /\
  (forall d, d ∈ Dependencies p -> valid_name (dName d) /\ dName d <> pName p).
Proof.
  pose proof (fun n => Validate_needs p n Hv) as Hn.
  apply Validate_parts in Hv as (Hname & Hcat & Hneeds & Hdeps).
  assert (Hall : forallb (fun c =>
            (negb (mem NeedDataset (privilegedNeedsByCategory c)) || str_eqb c CategoryStorage) &&
            (negb (mem NeedTLSCert (privilegedNeedsByCategory c)) ||
             (negb (str_eqb c CategoryDeveloper) && negb (str_eqb c CategoryUtility))))
            validCategories = true) by (vm_compute; reflexivity).
  rewrite forallb_forall in Hall. apply list_elem_of_In in Hcat. specialize (Hall _ Hcat).
  apply andb_true_iff in Hall as [Hds Htls].
  split_and!; [by apply nameRE_iff|done| | |].
  - intros n [Hk _]%Hn E. rewrite E in Hk. apply mem_iff in Hk. rewrite Hk in Hds.
    by apply str_eqb_eq in Hds.
  - intros n [Hk _]%Hn E. rewrite E in Hk. apply mem_iff in Hk. rewrite Hk in Htls. simpl in Htls.
    apply andb_true_iff in Htls as [H1 H2]. by rewrite negb_true_iff, str_eqb_neq in H1, H2.
  - intros d [i Hi]%Hdeps. unfold check_dep in Hi. apply app_nil in Hi as [H1 Hi].
    repeat (apply app_nil in Hi as [? Hi]).
    apply when_nil, negb_false_iff, nameRE_iff in H1. apply when_nil, str_eqb_neq in Hi. done.
Qed.
End Validate.
