(* ===== verification/PluginsPlan.v ===== *)
(** * Install plans: what Resolver.Plan promises *)

From S2P Require Import Prelude GoStrings Regex Plugins.
Import Manifest.

(** What the documentation of the semantic version library promises:
    clauses joined by commas are a conjunction (outside "||", and for
    versions that are not pre-releases, which a group of clauses treats
    together), and "greater than" is a strict order. *)
Class SemverLaws {V C : Type} (NewVersion : gostr -> option V) (NewConstraint : gostr -> option C)
    (Check_ : C -> V -> bool) (GreaterThan : V -> V -> bool) : Prop := {
  comma_is_and (cs : list gostr) (c : C) (raw : gostr) (v : V) :
    cs <> [] -> Forall (fun x => "|"%char ∉ x) cs -> "-"%char ∉ raw ->
    NewConstraint (join_with ","%char cs) = Some c -> NewVersion raw = Some v ->
    Check_ c v = true ->
    Forall (fun x => exists cx, NewConstraint x = Some cx /\ Check_ cx v = true) cs;
  greater_irrefl v : GreaterThan v v = false;
  greater_trans u v w : GreaterThan u v = true -> GreaterThan v w = true -> GreaterThan u w = true
}.

Section Plan.
Context {V C : Type} (NewVersion : gostr -> option V) (NewConstraint : gostr -> option C)
  (Check_ : C -> V -> bool) (GreaterThan : V -> V -> bool)
  `{Laws : !SemverLaws NewVersion NewConstraint Check_ GreaterThan}.

Notation satisfied := (constraintSatisfied NewVersion NewConstraint Check_).
Notation pick := (pickHighestSatisfying NewVersion NewConstraint Check_ GreaterThan).
Notation loop := (pick_loop NewVersion Check_ GreaterThan).
Notation plan := (Plan NewVersion NewConstraint Check_ GreaterThan).

(** ** Picking a version *)

Definition admits (combined : option C) (v : V) : Prop :=
  match combined with Some c => Check_ c v = true | None => True end.

(** A version that pick_loop may choose. *)
Definition candidate (combined : option C) (versions : list gostr) (v : V) (raw : gostr) : Prop :=
  raw ∈ versions /\ NewVersion raw = Some v /\ admits combined v.

Lemma candidate_cons combined raw vs v r :
  candidate combined (raw :: vs) v r <->
  (r = raw /\ NewVersion raw = Some v /\ admits combined v) \/ candidate combined vs v r.
Proof. unfold candidate. rewrite elem_of_cons. naive_solver. Qed.

(** One version weighed against the best so far. *)
Definition weigh (combined : option C) (best : option (V * gostr)) (raw : gostr)
  : option (V * gostr) :=
  match NewVersion raw with
  | None => best
  | Some v =>
      if match combined with Some c => negb (Check_ c v) | None => false end then best
      else match best with
           | None => Some (v, raw)
           | Some (b, _) => if GreaterThan v b then Some (v, raw) else best
           end
  end.

Lemma pick_loop_cons combined best raw vs :
  loop combined best (raw :: vs) = loop combined (weigh combined best raw) vs.
Proof. done. Qed.

(** The best of [seen]: [None] when there is no candidate. *)
Definition is_best (combined : option C) (seen : list gostr) (best : option (V * gostr)) : Prop :=
  match best with
  | None => forall v raw, ~ candidate combined seen v raw
  | Some (b, raw) =>
      candidate combined seen b raw /\
      forall v raw', candidate combined seen v raw' -> GreaterThan v b = false
  end.

Lemma candidate_app combined l raw v r :
  candidate combined (l ++ [raw]) v r <->
  candidate combined l v r \/ (r = raw /\ NewVersion raw = Some v /\ admits combined v).
Proof. unfold candidate. rewrite elem_of_app, list_elem_of_singleton. naive_solver. Qed.

Lemma weigh_best combined seen best raw :
  is_best combined seen best -> is_best combined (seen ++ [raw]) (weigh combined best raw).
Proof.
  intros Hb. unfold weigh. destruct (NewVersion raw) as [v|] eqn:Ev.
  2:{ destruct best as [[b rb]|]; simpl in *; setoid_rewrite candidate_app; naive_solver. }
  destruct (match combined with Some c => negb (Check_ c v) | None => false end) eqn:Ea.
  { assert (~ admits combined v) as Hna
      by (destruct combined as [c|]; simpl; [|done]; by destruct (Check_ c v)).
    destruct best as [[b rb]|]; simpl in *; setoid_rewrite candidate_app; naive_solver. }
  assert (admits combined v) as Hv by (destruct combined as [c|]; simpl; [by destruct (Check_ c v)|done]).
  destruct best as [[b rb]|]; simpl in *.
  - destruct Hb as [Hc Hmax]. destruct (GreaterThan v b) eqn:Eg; simpl; setoid_rewrite candidate_app.
    + split; [by right|]. intros u r [Hu|(-> & Hu & _)].
      * destruct (GreaterThan u v) eqn:Eu; [|done].
        rewrite <- (Hmax u r Hu). by rewrite (greater_trans u v b Eu Eg).
      * rewrite Ev in Hu. simplify_eq. apply greater_irrefl.
    + split; [by left|]. intros u r [Hu|(-> & Hu & _)]; [eauto|]. by rewrite Ev in Hu; simplify_eq.
  - setoid_rewrite candidate_app. split; [by right|].
    intros u r [Hu|(-> & Hu & _)]; [by destruct (Hb u r)|].
    rewrite Ev in Hu. simplify_eq. apply greater_irrefl.
Qed.

Lemma pick_loop_best combined best seen vs :
  is_best combined seen best -> is_best combined (seen ++ vs) (loop combined best vs).
Proof.
  revert best seen. induction vs as [|raw vs IH]; intros best seen Hb.
  - by rewrite app_nil_r.
  - rewrite pick_loop_cons. replace (seen ++ raw :: vs) with ((seen ++ [raw]) ++ vs)
      by by rewrite <- app_assoc. by apply IH, weigh_best.
Qed.

(** The constraint that the non-empty clauses amount to. *)
Definition combined_of (constraints : list gostr) : option (option C) :=
  match filterEmpty constraints with
  | [] => Some None
  | cs => Some <$> NewConstraint (join_with ","%char cs)
  end.

Lemma loop_best c versions : is_best c versions (loop c None versions).
Proof. apply (pick_loop_best c None [] versions). intros v raw (H & _). set_solver. Qed.

Lemma pick_Ok versions constraints raw : pick versions constraints = Ok raw ->
  exists c v, combined_of constraints = Some c /\ candidate c versions v raw.
Proof.
  unfold combined_of, pickHighestSatisfying. destruct (filterEmpty constraints) as [|x cs].
  - pose proof (loop_best None versions) as Hb.
    destruct (loop None None versions) as [[v r]|]; [|done]. intros [= <-]. exists None, v. by destruct Hb.
  - destruct (NewConstraint _) as [c|]; simpl; [|done].
    pose proof (loop_best (Some c) versions) as Hb.
    destruct (loop (Some c) None versions) as [[v r]|]; [|done]. intros [= <-].
    exists (Some c), v. by destruct Hb.
Qed.

(** pickHighestSatisfying returns a listed version that satisfies the
    combined constraint and that no other such version exceeds; it fails
    only when the combination does not parse, or when no listed version
    satisfies it. *)
Theorem pickHighestSatisfying_spec versions constraints :
  match combined_of constraints, pick versions constraints with
  | None, r => r = Err InvalidConstraint
  | Some c, Ok raw => exists v, is_best c versions (Some (v, raw))
  | Some c, Err e => e = NoVersionSatisfies /\ is_best c versions None
  end.
Proof.
  unfold combined_of, pickHighestSatisfying.
  pose proof (fun c => loop_best c versions) as Hbest.
  destruct (filterEmpty constraints) as [|x cs].
  - specialize (Hbest None). destruct (loop None None versions) as [[v raw]|]; eauto.
  - destruct (NewConstraint _) as [c|]; simpl; [|done].
    specialize (Hbest (Some c)). destruct (loop (Some c) None versions) as [[v raw]|]; eauto.
Qed.

(** ** The plan *)

Definition plain (constraint : gostr) : Prop := "|"%char ∉ constraint.
Definition release (ver : gostr) : Prop := "-"%char ∉ ver.

Lemma satisfied_nonempty x ver cx v : trim_space x <> [] -> NewConstraint x = Some cx ->
  NewVersion ver = Some v -> satisfied x ver = Check_ cx v.
Proof. intros Hx Hc Hv. unfold constraintSatisfied. apply str_eqb_neq in Hx. by rewrite Hx, Hc, Hv. Qed.

(** A picked version satisfies every clause on its own. *)
Lemma pick_satisfies versions cs raw :
  Forall plain cs -> Forall release versions -> pick versions cs = Ok raw ->
  raw ∈ versions /\ forall x, x ∈ cs -> satisfied x raw = true.
Proof.
  intros Hplain Hrel (c & v & Hc & Hraw & Hv & Hadm)%pick_Ok. split; [done|].
  intros x Hx. destruct (decide (trim_space x = [])) as [E|Hne].
  { unfold constraintSatisfied. by rewrite E. }
  assert (x ∈ filterEmpty cs) as Hin by (unfold filterEmpty; by apply list_elem_of_filter).
  unfold combined_of in Hc. destruct (filterEmpty cs) as [|y l] eqn:Ef; [set_solver|].
  destruct (NewConstraint (join_with _ _)) as [c'|] eqn:Ec; simplify_eq/=.
  assert (Forall plain (y :: l)) as Hp.
  { rewrite <- Ef. unfold filterEmpty. apply Forall_forall. intros z [_ Hz]%list_elem_of_filter.
    by apply (proj1 (Forall_forall _ _) Hplain). }
  pose proof (comma_is_and (y :: l) c' raw v ltac:(done) Hp
    (proj1 (Forall_forall _ _) Hrel _ Hraw) Ec Hv Hadm) as Hall.
  apply (proj1 (Forall_forall _ _) Hall) in Hin as (cx & Hcx & Hok).
  by rewrite (satisfied_nonempty x raw cx v).
Qed.

Section ForResolver.
Context (r : Resolver).

Definition installed_at (n : gostr) : option gostr :=
  match Installed r with
  | Some installed => match installed n with Ok cur => cur | Err _ => None end
  | None => None
  end.

Definition listed (n : gostr) (ver : gostr) : Prop :=
  exists find p v, Marketplace r = Some find /\ find n [] = Ok (p, v) /\ ver ∈ ipVersions p.

Definition tier2 (n : gostr) (d : Dependency) : bool :=
  str_eqb (dSource d) DependencySourceTier2 && str_eqb (dName d) n.

Definition bundled (n : gostr) (d : Dependency) : bool :=
  str_eqb (dSource d) DependencySourceBundled && str_eqb (dName d) n.

(** Every tier-2 requirement on [n] holds of version [ver]. *)
Definition meets (ds : list Dependency) (n ver : gostr) : Prop :=
  forall d, d ∈ ds -> tier2 n d = true -> satisfied (dConstraint d) ver = true.

(** What a step of the plan for the dependencies [ds] stands for. *)
Definition step_ok (ds : list Dependency) (s : PlanStep) : Prop :=
  match sAction s with
  | PlanActionBundled => exists d, d ∈ ds /\ bundled (sName s) d = true
  | PlanActionSkip => installed_at (sName s) = Some (sVersion s) /\ meets ds (sName s) (sVersion s)
  | PlanActionInstall =>
      installed_at (sName s) = None /\ listed (sName s) (sVersion s) /\
      meets ds (sName s) (sVersion s)
  end.

Record plan_inv (ds : list Dependency) (st : resolveState) : Prop := {
  pi_nodup : NoDup (order st);
  pi_dom n : n ∈ order st <-> is_Some (resolved st !! n);
  pi_name n s : resolved st !! n = Some s -> sName s = n /\ step_ok ds s;
  pi_constraints n : constraints_of st n = map dConstraint (filter (fun d => tier2 n d = true) ds);
  pi_cover d : d ∈ ds -> is_Some (resolved st !! dName d);
  pi_origin n : n ∈ order st -> n ∈ map dName ds
}.

Lemma tier2_iff n d : tier2 n d = true <-> dSource d = DependencySourceTier2 /\ dName d = n.
Proof. unfold tier2. by rewrite andb_true_iff, !str_eqb_eq. Qed.

Lemma meets_snoc ds d n ver : meets ds n ver ->
  (tier2 n d = true -> satisfied (dConstraint d) ver = true) -> meets (ds ++ [d]) n ver.
Proof.
  intros Hm Hd e He Ht. apply elem_of_app in He as [He|He%list_elem_of_singleton]; [by apply Hm|].
  subst e. by apply Hd.
Qed.

Lemma step_ok_snoc ds d s : step_ok ds s ->
  (tier2 (sName s) d = true -> sAction s <> PlanActionBundled ->
   satisfied (dConstraint d) (sVersion s) = true) -> step_ok (ds ++ [d]) s.
Proof.
  unfold step_ok. destruct (sAction s).
  - intros (? & ? & ?) Hd. split_and!; [done..|]. apply meets_snoc; naive_solver.
  - intros (? & ?) Hd. split_and!; [done..|]. apply meets_snoc; naive_solver.
  - intros (e & ? & ?) _. exists e. split; [|done]. set_solver.
Qed.

(** Handling the dependency [d] leaves a good step for it. *)
Lemma plan_inv_put ds d st st' s : plan_inv ds st ->
  sName s = dName d -> step_ok (ds ++ [d]) s ->
  resolved st' = <[dName d := s]> (resolved st) ->
  order st' = match resolved st !! dName d with Some _ => order st | None => order st ++ [dName d] end ->
  (forall n, constraints_of st' n =
     constraints_of st n ++ (if tier2 n d then [dConstraint d] else [])) ->
  plan_inv (ds ++ [d]) st'.
Proof.
  intros [Hnd Hdom Hname Hcs Hcov Horg] Hs Hok Hres Hord Hc. split.
  - rewrite Hord. destruct (resolved st !! dName d) eqn:E; [done|].
    apply NoDup_app. split_and!; [done| |apply NoDup_singleton].
    intros n Hn ->%list_elem_of_singleton. apply Hdom in Hn. rewrite E in Hn. by destruct Hn.
  - intros n. rewrite Hord, Hres. destruct (decide (n = dName d)) as [->|Hne].
    + rewrite lookup_insert_eq. destruct (resolved st !! dName d) eqn:E.
      * rewrite Hdom, E. split; eauto.
      * rewrite elem_of_app, list_elem_of_singleton. split; eauto.
    + rewrite lookup_insert_ne, <- Hdom by done.
      destruct (resolved st !! dName d); [done|]. rewrite elem_of_app, list_elem_of_singleton. naive_solver.
  - intros n t. rewrite Hres, lookup_insert_Some. intros [[<- <-]|[Hne Ht]]; [done|].
    apply Hname in Ht as [<- Ht]. split; [done|]. apply step_ok_snoc; [done|].
    intros [_ E]%tier2_iff. congruence.
  - intros n. rewrite Hc, Hcs, filter_app, map_app. f_equal.
    rewrite filter_cons, filter_nil. by destruct (tier2 n d).
  - intros e He. rewrite Hres. apply elem_of_app in He as [He|He%list_elem_of_singleton].
    + destruct (decide (dName d = dName e)) as [->|?].
      * rewrite lookup_insert_eq; eauto.
      * rewrite lookup_insert_ne by done. by apply Hcov.
    + subst e. rewrite lookup_insert_eq. eauto.
  - intros n Hn. rewrite map_app. rewrite Hord in Hn.
    destruct (resolved st !! dName d); [|apply elem_of_app in Hn as [Hn|Hn]]; simpl; set_solver.
Qed.

(** Handling [d] changed nothing but the list of its requirements. *)
Lemma plan_inv_keep ds d st st' s : plan_inv ds st -> resolved st !! dName d = Some s ->
  (tier2 (dName d) d = true -> sAction s <> PlanActionBundled ->
   satisfied (dConstraint d) (sVersion s) = true) ->
  resolved st' = resolved st -> order st' = order st ->
  (forall n, constraints_of st' n =
     constraints_of st n ++ (if tier2 n d then [dConstraint d] else [])) ->
  plan_inv (ds ++ [d]) st'.
Proof.
  intros Hinv Hs Hsat Hres Hord Hc. destruct (pi_name _ _ Hinv _ _ Hs) as [Hn Hok].
  eapply plan_inv_put; [done|exact Hn| | | |done].
  - apply step_ok_snoc; [done|]. by rewrite Hn.
  - by rewrite Hres, insert_id.
  - by rewrite Hord, Hs.
Qed.

Lemma constraints_add st d n : tier2 (dName d) d = true ->
  constraints_of (add_constraint st d) n =
  constraints_of st n ++ (if tier2 n d then [dConstraint d] else []).
Proof.
  intros [Hs _]%tier2_iff. unfold constraints_of, add_constraint; simpl. unfold tier2.
  rewrite Hs, str_eqb_refl, andb_true_l. case_str (dName d) n as E.
  - rewrite <- E. by rewrite lookup_insert_eq.
  - by rewrite lookup_insert_ne, app_nil_r.
Qed.

Lemma constraints_bundled st d n : dSource d = DependencySourceBundled ->
  constraints_of st n = constraints_of st n ++ (if tier2 n d then [dConstraint d] else []).
Proof. intros Hs. unfold tier2. rewrite Hs. by rewrite app_nil_r. Qed.

(** The step just recorded or replaced is the one for the dependency. *)
Ltac put_step :=
  match goal with
  | |- plan_inv (?ds ++ [?d]) (record_step _ ?s) => eapply (plan_inv_put ds d _ _ s)
  | |- plan_inv (?ds ++ [?d]) (replace_step _ ?s) => eapply (plan_inv_put ds d _ _ s)
  end.

Notation walk_dep_ := (walk_dep NewVersion NewConstraint Check_ GreaterThan r).
Notation walk_deps_ := (walk_deps NewVersion NewConstraint Check_ GreaterThan r).

Lemma walk_installed_inv ds d cur st st' : plan_inv ds st -> tier2 (dName d) d = true ->
  installed_at (dName d) = Some cur ->
  walk_installed NewVersion NewConstraint Check_ d cur (add_constraint st d) = Ok st' ->
  plan_inv (ds ++ [d]) st'.
Proof.
  intros Hinv Ht Hcur. unfold walk_installed.
  destruct (satisfied (dConstraint d) cur) eqn:Es; cbn [negb]; [|done].
  change (resolved (add_constraint st d)) with (resolved st).
  destruct (resolved st !! dName d) as [e|] eqn:Ee.
  - destruct (pi_name _ _ Hinv _ _ Ee) as [Hn Hok]. unfold step_ok in Hok. rewrite Hn, Hcur in Hok.
    destruct (bool_decide _ && negb _); [done|]. intros [= <-].
    eapply plan_inv_keep; [done|exact Ee| |done..|by intros; apply constraints_add].
    intros _ Hnb. destruct (sAction e); [by destruct Hok| |done]. destruct Hok as [[= <-] _]. done.
  - intros [= <-]. put_step; [done|done| |done|simpl; by rewrite Ee|by intros; apply constraints_add].
    split; [exact Hcur|]. apply meets_snoc; [|done]. intros e He [_ E]%tier2_iff.
    destruct (pi_cover _ _ Hinv e He) as [x Hx]. cbn [sName] in E. congruence.
Qed.

(** Requirements recorded so far for [d], [d] included. *)
Lemma constraints_after ds d st : plan_inv ds st -> tier2 (dName d) d = true ->
  constraints_of (add_constraint st d) (dName d) =
  map dConstraint (filter (fun e => tier2 (dName d) e = true) (ds ++ [d])).
Proof.
  intros Hinv Ht. rewrite constraints_add, (pi_constraints _ _ Hinv), filter_app, map_app by done.
  f_equal. by rewrite Ht, filter_cons_True, filter_nil.
Qed.

Lemma picked_meets ds d st versions picked : plan_inv ds st -> tier2 (dName d) d = true ->
  Forall (fun e => plain (dConstraint e)) (ds ++ [d]) -> Forall release versions ->
  pick versions (constraints_of (add_constraint st d) (dName d)) = Ok picked ->
  picked ∈ versions /\ meets (ds ++ [d]) (dName d) picked.
Proof.
  intros Hinv Ht Hplain Hrel. rewrite (constraints_after ds) by done. intros Hp.
  apply pick_satisfies in Hp as [Hin Hsat]; [|clear Hp|done].
  - split; [done|]. intros e He Hte. apply Hsat, list_elem_of_fmap_2, list_elem_of_filter. done.
  - apply Forall_forall. intros x (e & -> & [_ He]%list_elem_of_filter)%list_elem_of_fmap.
    by apply (proj1 (Forall_forall _ _) Hplain).
Qed.

(** Every version the marketplace lists is a release. *)
Definition releases_only : Prop := forall find n p v,
  Marketplace r = Some find -> find n [] = Ok (p, v) -> Forall release (ipVersions p).

Lemma walk_market_inv ds d st st' : plan_inv ds st -> tier2 (dName d) d = true ->
  Forall (fun e => plain (dConstraint e)) (ds ++ [d]) -> releases_only ->
  installed_at (dName d) = None ->
  walk_market NewVersion NewConstraint Check_ GreaterThan r d (add_constraint st d) = Ok st' ->
  plan_inv (ds ++ [d]) st'.
Proof.
  intros Hinv Ht Hplain Hrel Hno. unfold walk_market.
  destruct (Marketplace r) as [find|] eqn:Em; [|done].
  destruct (find (dName d) []) as [[p v]|] eqn:Ef; [|done].
  destruct (pick (ipVersions p) _) as [picked|] eqn:Ep; [|done].
  eapply picked_meets in Ep as [Hin Hmeets]; [|done..|by eapply Hrel].
  assert (Hlist : listed (dName d) picked) by by exists find, p, v.
  change (resolved (add_constraint st d)) with (resolved st).
  destruct (resolved st !! dName d) as [e|] eqn:Ee.
  - destruct (pi_name _ _ Hinv _ _ Ee) as [Hn Hok]. unfold step_ok in Hok. rewrite Hn, Hno in Hok.
    destruct (bool_decide (sAction e = PlanActionInstall)) eqn:Ea; cbn [andb].
    + apply bool_decide_eq_true in Ea.
      destruct (satisfied (dConstraint d) (sVersion e)) eqn:Es; cbn [negb]; intros [= <-].
      * eapply plan_inv_keep; [done|exact Ee|done|done..|by intros; apply constraints_add].
      * put_step; [done|exact Hn| |by simpl; rewrite Hn|by simpl; rewrite Ee|
          by intros; apply constraints_add].
        unfold step_ok; cbn [sAction sName sVersion]. by rewrite Ea, Hn.
    + apply bool_decide_eq_false in Ea. intros [= <-].
      eapply plan_inv_keep; [done|exact Ee| |done..|by intros; apply constraints_add].
      intros _ ?. destruct (sAction e); [done|by destruct Hok|done].
  - intros [= <-]. put_step; [done|done| |done|by simpl; rewrite Ee|
      by intros; apply constraints_add].
    done.
Qed.

Lemma walk_dep_inv self ds d st st' : plan_inv ds st ->
  Forall (fun e => plain (dConstraint e)) (ds ++ [d]) -> releases_only ->
  walk_dep_ self d st = Ok st' -> plan_inv (ds ++ [d]) st'.
Proof.
  intros Hinv Hplain Hrel. unfold walk_dep.
  case_str (dSource d) DependencySourceBundled as Eb.
  { destruct (resolved st !! dName d) as [e|] eqn:Ee; intros [= <-].
    - eapply plan_inv_keep; [done|exact Ee| |done..|by intros; apply constraints_bundled].
      intros [E _]%tier2_iff. by rewrite Eb in E.
    - put_step; [done|done| |done|by simpl; rewrite Ee|
        by intros; apply (constraints_bundled st)].
      exists d. split; [set_solver|]. unfold bundled; simpl. by rewrite Eb, !str_eqb_refl. }
  destruct (str_eqb (dSource d) DependencySourceTier2) eqn:Et; cbn [negb]; [|done].
  destruct (str_eqb (dName d) self); [done|].
  assert (Ht : tier2 (dName d) d = true) by (unfold tier2; by rewrite Et, str_eqb_refl).
  destruct (Installed r) as [inst|] eqn:Ei; [destruct (inst (dName d)) as [[cur|]|] eqn:En; [..|done]|].
  - eapply walk_installed_inv; [done..|]. unfold installed_at. by rewrite Ei, En.
  - eapply walk_market_inv; [done..|]. unfold installed_at. by rewrite Ei, En.
  - eapply walk_market_inv; [done..|]. unfold installed_at. by rewrite Ei.
Qed.

Lemma walk_deps_inv self ds ds' st st' : plan_inv ds st ->
  Forall (fun e => plain (dConstraint e)) (ds ++ ds') -> releases_only ->
  walk_deps_ self ds' st = Ok st' -> plan_inv (ds ++ ds') st'.
Proof.
  revert ds st. induction ds' as [|d ds' IH]; intros ds st Hinv Hplain Hrel; simpl.
  { intros [= <-]. by rewrite app_nil_r. }
  destruct (walk_dep_ self d st) as [st1|] eqn:E1; [|done]. intros H.
  replace (ds ++ d :: ds') with ((ds ++ [d]) ++ ds') in * by by rewrite <- app_assoc.
  eapply (IH (ds ++ [d])); [|done..]. eapply walk_dep_inv; [done| |done|exact E1].
  by apply Forall_app in Hplain as [? _].
Qed.
End ForResolver.

(** A plugin that requires itself is refused. *)
Lemma walk_deps_self r self ds st st' :
  walk_deps NewVersion NewConstraint Check_ GreaterThan r self ds st = Ok st' ->
  forall d, d ∈ ds -> dSource d = DependencySourceTier2 -> dName d <> self.
Proof.
  revert st. induction ds as [|e ds IH]; intros st; simpl; [set_solver|].
  destruct (walk_dep _ _ _ _ r self e st) as [st1|] eqn:E1; [|done]. intros H d Hd Hsrc.
  apply elem_of_cons in Hd as [->|Hd]; [|by eapply IH].
  intros Hn. unfold walk_dep in E1. rewrite Hsrc, Hn in E1. simpl in E1. by rewrite str_eqb_refl in E1.
Qed.

Lemma plan_inv_start r vis : plan_inv r [] (mkState vis ∅ [] ∅).
Proof.
  split; simpl.
  - constructor.
  - intros n. rewrite lookup_empty, is_Some_alt. set_solver.
  - intros n s. by rewrite lookup_empty.
  - intros n. unfold constraints_of; simpl. by rewrite lookup_empty.
  - set_solver.
  - set_solver.
Qed.

(** The steps before the root's are those of [order], in order. *)
Lemma plan_inv_steps r ds st : plan_inv r ds st ->
  map sName (omap (fun n => resolved st !! n) (order st)) = order st.
Proof.
  intros Hinv.
  assert (forall l, (forall n, n ∈ l -> n ∈ order st) ->
    map sName (omap (fun n => resolved st !! n) l) = l) as H; [|by apply H].
  intros l. induction l as [|n l IH]; intros Hl; [done|]. simpl.
  destruct (proj1 (pi_dom _ _ _ Hinv n)) as [s Hs]; [set_solver|]. rewrite Hs. simpl.
  f_equal; [by apply (pi_name _ _ _ Hinv _ _ Hs)|]. apply IH. set_solver.
Qed.

(** C37. When no constraint has an alternative (a bar) and the
    marketplace lists release versions only, a plan Resolver.Plan
    returns can be carried out: its last step installs the root plugin;
    before it every dependency the manifest declares has exactly one
    step and nothing else does; a skip step is for a plugin already
    installed at that version, an install step for one that is not
    installed and whose version the marketplace lists, and in both cases
    the version satisfies the constraint of every tier-2 dependency of
    that name. A tier-2 dependency is left to a bundled step only if the
    manifest declares the same name as bundled too. *)
Theorem Plan_sound r root steps
    (Hplain : Forall (fun d => plain (dConstraint d)) (Dependencies root))
    (Hrel : releases_only r) (HP : plan r root = Ok steps) :
  exists pre,
    steps = pre ++ [mkStep (pName root) (pVersion root) DependencySourceTier2 PlanActionInstall []] /\
    NoDup (map sName pre) /\
    (forall n, n ∈ map sName pre <-> n ∈ map dName (Dependencies root)) /\
    (forall s, s ∈ pre -> step_ok r (Dependencies root) s) /\
    (forall d, d ∈ Dependencies root -> dSource d = DependencySourceTier2 ->
       dName d <> pName root /\
       exists s, s ∈ pre /\ sName s = dName d /\
         (sAction s = PlanActionBundled ->
          exists b, b ∈ Dependencies root /\ bundled (dName d) b = true)).
Proof.
  unfold Plan, walk in HP. 
  destruct (0 <=? maxDepth r); [|done].
  destruct (negb _); [|done]. cbn [resolved order constraints visiting] in HP.
  destruct (walk_deps _ _ _ _ _ _ _ _) as [st|] eqn:Ew; [|done]. simplify_eq/=.
  pose proof (walk_deps_self _ _ _ _ _ Ew) as Hself.
  eapply (walk_deps_inv r _ []) in Ew; [|apply plan_inv_start|done..]. simpl in Ew.
  pose proof (plan_inv_steps _ _ _ Ew) as Hsteps.
  eexists. split; [done|]. rewrite Hsteps.
  split_and!.
  - apply (pi_nodup _ _ _ Ew).
  - intros n. split; [apply (pi_origin _ _ _ Ew)|].
    intros (d & -> & Hd)%list_elem_of_fmap. apply (pi_dom _ _ _ Ew), (pi_cover _ _ _ Ew), Hd.
  - intros s (n & Hn & Hs)%list_elem_of_omap. by apply (pi_name _ _ _ Ew _ _ Hs).
  - intros d Hd Hsrc. split; [by apply Hself|].
    destruct (pi_cover _ _ _ Ew d Hd) as [s Hs]. destruct (pi_name _ _ _ Ew _ _ Hs) as [Hn Hok].
    exists s. split_and!; [|done|].
    + apply list_elem_of_omap. exists (dName d). split; [|done]. apply (pi_dom _ _ _ Ew). eauto.
    + intros Ha. unfold step_ok in Hok. by rewrite Ha, Hn in Hok.
Qed.
End Plan.

(** A bundled entry hides a tier-2 requirement on the same name that
    comes after it: the plan has only the bundled step, which does nothing,
    so the plugin it requires is not installed; the version the requirement
    selects is looked up and dropped. *)
Theorem bundled_hides_tier2 {V C : Type} (NewVersion : gostr -> option V)
    (NewConstraint : gostr -> option C) (Check_ : C -> V -> bool) (GreaterThan : V -> V -> bool)
    r root n c0 c steps
    (Hdeps : Dependencies root =
       [mkDep n c0 DependencySourceBundled; mkDep n c DependencySourceTier2])
    (HP : Plan NewVersion NewConstraint Check_ GreaterThan r root = Ok steps) :
  steps =
  [mkStep n [] DependencySourceBundled PlanActionBundled c0;
   mkStep (pName root) (pVersion root) DependencySourceTier2 PlanActionInstall []].
Proof.
  unfold Plan, walk in HP. destruct (0 <=? maxDepth r); [|done]. destruct (negb _); [|done].
  rewrite Hdeps in HP. cbn [walk_deps] in HP. unfold walk_dep at 1 in HP. cbn [dSource dName dConstraint] in HP.
  rewrite str_eqb_refl in HP. cbn [resolved] in HP. rewrite lookup_empty in HP.
  set (st1 := record_step _ _) in HP.
  set (s1 := mkStep n [] DependencySourceBundled PlanActionBundled c0) in st1.
  assert (Hres : resolved st1 !! n = Some s1) by apply lookup_insert_eq.
  destruct (walk_dep _ _ _ _ r (pName root) _ st1) as [st2|] eqn:E2; [|done].
  assert (resolved st2 = resolved st1 /\ order st2 = order st1) as [Hr Ho].
  { revert E2. unfold walk_dep. cbn [dSource dName dConstraint].
    destruct (str_eqb DependencySourceTier2 DependencySourceBundled); [by rewrite Hres; intros [= <-]|].
    destruct (negb _); [done|]. destruct (str_eqb n (pName root)); [done|].
    assert (Hm : forall st', walk_market NewVersion NewConstraint Check_ GreaterThan r
        (mkDep n c DependencySourceTier2) (add_constraint st1 (mkDep n c DependencySourceTier2)) = Ok st' ->
        resolved st' = resolved st1 /\ order st' = order st1).
    { intros st'. unfold walk_market. destruct (Marketplace r) as [f|]; [|done].
      destruct (f _ _) as [[ip v]|]; [|done]. destruct (pickHighestSatisfying _ _ _ _ _ _); [|done].
      cbn [dName]. change (resolved (add_constraint st1 _)) with (resolved st1). rewrite Hres.
      by intros [= <-]. }
    destruct (Installed r) as [inst|]; [|by apply Hm].
    destruct (inst n) as [[cur|]|]; [|by apply Hm|done].
    unfold walk_installed. destruct (negb _); [done|]. cbn [dName].
    change (resolved (add_constraint st1 _)) with (resolved st1). rewrite Hres. by intros [= <-]. }
  injection HP as <-. cbn [resolved order]. rewrite Hr, Ho. simpl. by rewrite lookup_insert_eq.
Qed.

(** ** A concrete version scheme and catalogue

    Versions are whole numbers and a clause is the greatest number it
    admits: small enough to evaluate, and an instance of the interface. *)
Module WholeVersions.

Definition number (s : gostr) : option Z := if str_eqb s [] then None else digits_val 0 s.
Definition NewConstraint_ (s : gostr) : option (list Z) := mapM number (split_on ","%char s).
Definition check (c : list Z) (v : Z) : bool := forallb (fun b => v <=? b) c.
Definition greater (u v : Z) : bool := v <? u.

Lemma split_on_join cs : cs <> [] ->
  split_on ","%char (join_with ","%char cs) = concat (map (split_on ","%char) cs).
Proof.
  induction cs as [|x cs IH]; [done|]. intros _. destruct cs as [|y cs].
  - simpl. by rewrite app_nil_r.
  - change (join_with ","%char (x :: y :: cs)) with (x ++ ","%char :: join_with ","%char (y :: cs)).
    rewrite split_on_app_sep, IH by done. done.
Qed.

Lemma mapM_concat (ls : list (list gostr)) (c : list Z) (v : Z) :
  mapM number (concat ls) = Some c -> check c v = true ->
  Forall (fun l => exists cl, mapM number l = Some cl /\ check cl v = true) ls.
Proof.
  revert c. induction ls as [|l ls IH]; intros c; [constructor|]. cbn [concat].
  intros Hm Hc. apply mapM_Some in Hm. apply Forall2_app_inv_l in Hm as (c1 & c2 & H1 & H2 & ->).
  unfold check in Hc. rewrite forallb_app in Hc. apply andb_true_iff in Hc as [Hc1 Hc2].
  constructor; [|apply (IH c2); [apply mapM_Some; exact H2|exact Hc2]].
  exists c1. split; [apply mapM_Some; exact H1|exact Hc1].
Qed.

#[global] Instance laws : SemverLaws number NewConstraint_ check greater.
Proof.
  split.
  - intros cs c raw v Hne _ _ Hc _ Hok. unfold NewConstraint_ in Hc. rewrite split_on_join in Hc by done.
    apply mapM_concat with (v := v) in Hc; [|done]. apply (proj1 (Forall_fmap _ _ _)) in Hc. exact Hc.
  - intros v. unfold greater. lia.
  - intros u v w. unfold greater. lia.
Qed.

Definition index : list IndexPlugin :=
  [mkIndexPlugin #"auth" [ #"2"; #"4"; #"3"]; mkIndexPlugin #"other" [ #"1"]].

Definition resolver : Resolver :=
  mkResolver (Some (FindVersion (Some index)))
    (Some (fun n => Ok (if str_eqb n #"backup" then Some #"5" else None))) 0.

Lemma find_in_elem ps n ver p v : find_in ps n ver = Ok (p, v) -> p ∈ ps.
Proof.
  induction ps as [|q ps IH]; simpl; [done|].
  destruct (str_eqb (ipName q) n); cbn [negb]; [|set_solver].
  destruct (ipVersions q); [done|]. destruct (str_eqb ver []); [intros [= -> _]; set_solver|].
  destruct (find _ _); [intros [= -> _]; set_solver|done].
Qed.

Lemma resolver_releases : releases_only resolver.
Proof.
  intros find n p v [= <-] H. apply find_in_elem in H.
  assert (Forall (fun q => Forall release (ipVersions q)) index) as Hall.
  { unfold release. by_dec. }
  by apply (proj1 (Forall_forall _ _) Hall).
Qed.

(** A storage plugin with a dataset and dependencies of every kind. *)
Definition plugin_with (deps : list Dependency) : Plugin :=
  mkPlugin CurrentAPIVersion Kind (mkMetadata #"rustfs" #"1.2.0" #"NovaNAS" [])
    (mkSpec #"Object storage" CategoryStorage #"files" [ #"s3"] []
       (mkDeployment DeploymentHelm #"chart" [] [])
       [mkNeed NeedDataset (Some (mkDatasetNeed #"tank" #"objects" [])) None None None]
       deps [mkRoute #"/buckets" #"http://127.0.0.1:9000" [] #"service-token"]
       (mkWindow [] [] [] []) (mkHealth [] 0 0) (mkLifecycle [] [] [])).

Definition deps : list Dependency :=
  [mkDep #"auth" #"9" DependencySourceTier2; mkDep #"zfs" [] DependencySourceBundled;
   mkDep #"backup" #"7" DependencySourceTier2; mkDep #"auth" #"3" DependencySourceTier2].

Definition the_plan : res resolve_err (list PlanStep) :=
  Plan number NewConstraint_ check greater resolver (plugin_with deps).

(** The second requirement on "auth" lowers the version picked for it. *)
Example the_plan_is : the_plan = Ok
  [mkStep #"auth" #"3" DependencySourceTier2 PlanActionInstall #"9,3";
   mkStep #"zfs" [] DependencySourceBundled PlanActionBundled [];
   mkStep #"backup" #"5" DependencySourceTier2 PlanActionSkip #"7";
   mkStep #"rustfs" #"1.2.0" DependencySourceTier2 PlanActionInstall []].
Proof. vm_compute. reflexivity. Qed.
End WholeVersions.

Lemma pickHighestSatisfying_spec_witness :
  pickHighestSatisfying WholeVersions.number WholeVersions.NewConstraint_ WholeVersions.check
    WholeVersions.greater [ #"2"; #"4"; #"3"] [ #"9"; #" "; #"3"] = Ok #"3" /\
  exists v, is_best WholeVersions.number WholeVersions.check WholeVersions.greater (Some [9; 3])
    [ #"2"; #"4"; #"3"] (Some (v, #"3")).
Proof.
  split; [vm_compute; reflexivity|].
  exact (pickHighestSatisfying_spec WholeVersions.number WholeVersions.NewConstraint_
    WholeVersions.check WholeVersions.greater [ #"2"; #"4"; #"3"] [ #"9"; #" "; #"3"]).
Defined.

Lemma Plan_sound_witness :
  exists pre, WholeVersions.the_plan = Ok (pre ++
      [mkStep #"rustfs" #"1.2.0" DependencySourceTier2 PlanActionInstall []]) /\
    NoDup (map sName pre).
Proof.
  destruct (Plan_sound WholeVersions.number WholeVersions.NewConstraint_ WholeVersions.check
    WholeVersions.greater WholeVersions.resolver (WholeVersions.plugin_with WholeVersions.deps) _
    ltac:(unfold plain; by_dec) WholeVersions.resolver_releases WholeVersions.the_plan_is)
    as (pre & E & Hnd & _).
  exists pre. split; [|exact Hnd]. rewrite WholeVersions.the_plan_is. by rewrite E.
Defined.

Lemma bundled_hides_tier2_witness :
  let root := WholeVersions.plugin_with
    [mkDep #"auth" [] DependencySourceBundled; mkDep #"auth" #"3" DependencySourceTier2] in
  Validate WholeVersions.NewConstraint_ root = [] /\
  exists steps, Plan WholeVersions.number WholeVersions.NewConstraint_ WholeVersions.check
      WholeVersions.greater WholeVersions.resolver root = Ok steps /\
    steps = [mkStep #"auth" [] DependencySourceBundled PlanActionBundled [];
             mkStep #"rustfs" #"1.2.0" DependencySourceTier2 PlanActionInstall []].
Proof.
  split; [vm_compute; reflexivity|]. eexists. split; [vm_compute; reflexivity|].
  apply (bundled_hides_tier2 WholeVersions.number WholeVersions.NewConstraint_
    WholeVersions.check WholeVersions.greater WholeVersions.resolver
    (WholeVersions.plugin_with
       [mkDep #"auth" [] DependencySourceBundled; mkDep #"auth" #"3" DependencySourceTier2])
    #"auth" [] #"3" _ eq_refl).
  vm_compute. reflexivity.
Defined.

Lemma Validate_guards_privileges_witness :
  Validate WholeVersions.NewConstraint_ (WholeVersions.plugin_with WholeVersions.deps) = [] /\
  valid_name #"rustfs".
Proof.
  split; [vm_compute; reflexivity|].
  apply (Validate_guards_privileges WholeVersions.NewConstraint_
    (WholeVersions.plugin_with WholeVersions.deps) ltac:(vm_compute; reflexivity)).
Defined.
