(* ===== verification/Rbac.v ===== *)
(** * internal/auth/rbac.go: permissions, roles and the permission check *)

From S2P Require Import Prelude GoStrings.

Module Rbac.

Inductive Permission :=
| PermStorageRead | PermStorageWrite | PermNetworkRead | PermNetworkWrite
| PermSystemRead | PermSystemWrite | PermSystemAdmin | PermAuditRead
| PermSchedulerRead | PermSchedulerWrite | PermKrb5Read | PermKrb5Write
| PermNotificationsRead | PermNotificationsWrite
| PermNotificationsEventsRead | PermNotificationsEventsWrite
| PermPoolEncryptionRead | PermPoolEncryptionWrite | PermPoolEncryptionRecover
| PermReplicationRead | PermReplicationWrite | PermScrubRead | PermScrubWrite
| PermAlertsRead | PermAlertsWrite | PermLogsRead | PermSessionsRead | PermSessionsAdmin
| PermVMRead | PermVMWrite | PermWorkloadsRead | PermWorkloadsWrite
| PermPluginsRead | PermPluginsWrite | PermPluginsAdmin
| PermMarketplacesRead | PermMarketplacesAdmin.

#[global] Instance Permission_eq_dec : EqDecision Permission.
Proof. solve_decision. Defined.

Definition all_permissions : list Permission :=
  [PermStorageRead; PermStorageWrite; PermNetworkRead; PermNetworkWrite;
   PermSystemRead; PermSystemWrite; PermSystemAdmin; PermAuditRead;
   PermSchedulerRead; PermSchedulerWrite; PermKrb5Read; PermKrb5Write;
   PermNotificationsRead; PermNotificationsWrite;
   PermNotificationsEventsRead; PermNotificationsEventsWrite;
   PermPoolEncryptionRead; PermPoolEncryptionWrite; PermPoolEncryptionRecover;
   PermReplicationRead; PermReplicationWrite; PermScrubRead; PermScrubWrite;
   PermAlertsRead; PermAlertsWrite; PermLogsRead; PermSessionsRead; PermSessionsAdmin;
   PermVMRead; PermVMWrite; PermWorkloadsRead; PermWorkloadsWrite;
   PermPluginsRead; PermPluginsWrite; PermPluginsAdmin;
   PermMarketplacesRead; PermMarketplacesAdmin].

(** The string constants of the source. *)
Definition permission_string (p : Permission) : gostr :=
  match p with
  | PermStorageRead => #"nova:storage:read" | PermStorageWrite => #"nova:storage:write"
  | PermNetworkRead => #"nova:network:read" | PermNetworkWrite => #"nova:network:write"
  | PermSystemRead => #"nova:system:read" | PermSystemWrite => #"nova:system:write"
  | PermSystemAdmin => #"nova:system:admin" | PermAuditRead => #"nova:audit:read"
  | PermSchedulerRead => #"nova:scheduler:read" | PermSchedulerWrite => #"nova:scheduler:write"
  | PermKrb5Read => #"nova:krb5:read" | PermKrb5Write => #"nova:krb5:write"
  | PermNotificationsRead => #"nova:notifications:read"
  | PermNotificationsWrite => #"nova:notifications:write"
  | PermNotificationsEventsRead => #"nova:notifications.events:read"
  | PermNotificationsEventsWrite => #"nova:notifications.events:write"
  | PermPoolEncryptionRead => #"nova:encryption:read"
  | PermPoolEncryptionWrite => #"nova:encryption:write"
  | PermPoolEncryptionRecover => #"nova:encryption:recover"
  | PermReplicationRead => #"nova:replication:read"
  | PermReplicationWrite => #"nova:replication:write"
  | PermScrubRead => #"nova:scrub:read" | PermScrubWrite => #"nova:scrub:write"
  | PermAlertsRead => #"nova:alerts:read" | PermAlertsWrite => #"nova:alerts:write"
  | PermLogsRead => #"nova:logs:read" | PermSessionsRead => #"nova:sessions:read"
  | PermSessionsAdmin => #"nova:sessions:admin"
  | PermVMRead => #"nova:vm:read" | PermVMWrite => #"nova:vm:write"
  | PermWorkloadsRead => #"nova:workloads:read" | PermWorkloadsWrite => #"nova:workloads:write"
  | PermPluginsRead => #"nova:plugins:read" | PermPluginsWrite => #"nova:plugins:write"
  | PermPluginsAdmin => #"nova:plugins:admin"
  | PermMarketplacesRead => #"nova:marketplaces:read"
  | PermMarketplacesAdmin => #"nova:marketplaces:admin"
  end.

(** [None] is the nil map. *)
Definition RoleMap : Type := option (gmap gostr (list gostr)).

Definition perms (l : list Permission) : list gostr := map permission_string l.

Definition admin_perms : list Permission :=
  [PermStorageRead; PermStorageWrite; PermNetworkRead; PermNetworkWrite;
   PermSystemRead; PermSystemWrite; PermSystemAdmin; PermAuditRead;
   PermSchedulerRead; PermSchedulerWrite; PermKrb5Read; PermKrb5Write;
   PermNotificationsRead; PermNotificationsWrite;
   PermNotificationsEventsRead; PermNotificationsEventsWrite;
   PermPoolEncryptionRead; PermPoolEncryptionWrite; PermPoolEncryptionRecover;
   PermReplicationRead; PermReplicationWrite; PermScrubRead; PermScrubWrite;
   PermAlertsRead; PermAlertsWrite; PermLogsRead; PermSessionsRead; PermSessionsAdmin;
   PermVMRead; PermVMWrite; PermWorkloadsRead; PermWorkloadsWrite;
   PermPluginsRead; PermPluginsWrite; PermPluginsAdmin;
   PermMarketplacesRead; PermMarketplacesAdmin].

Definition operator_perms : list Permission :=
  [PermStorageRead; PermStorageWrite; PermNetworkRead; PermSystemRead; PermAuditRead;
   PermSchedulerRead; PermSchedulerWrite; PermNotificationsRead;
   PermNotificationsEventsRead; PermNotificationsEventsWrite;
   PermPoolEncryptionRead; PermPoolEncryptionWrite;
   PermReplicationRead; PermReplicationWrite; PermScrubRead; PermScrubWrite;
   PermAlertsRead; PermAlertsWrite; PermLogsRead; PermSessionsRead;
   PermVMRead; PermVMWrite; PermWorkloadsRead; PermWorkloadsWrite;
   PermPluginsRead; PermMarketplacesRead].

Definition viewer_perms : list Permission :=
  [PermStorageRead; PermNetworkRead; PermSystemRead; PermSchedulerRead; PermReplicationRead;
   PermScrubRead; PermAlertsRead; PermSessionsRead; PermVMRead; PermWorkloadsRead;
   PermPluginsRead; PermMarketplacesRead;
   PermNotificationsEventsRead; PermNotificationsEventsWrite].

Definition system_admin_perms : list Permission :=
  [PermStorageRead; PermNetworkRead; PermNetworkWrite;
   PermSystemRead; PermSystemWrite; PermSystemAdmin].

Definition DefaultRoleMap : RoleMap :=
  Some (list_to_map
    [(#"nova-admin", perms admin_perms); (#"nova-operator", perms operator_perms);
     (#"nova-viewer", perms viewer_perms); (#"nova-system-admin", perms system_admin_perms)]).

Record Identity := mkIdentity {
  Subject : gostr; PreferredName : gostr; Email : gostr; Realm : gostr;
  Roles : list gostr; Scopes : list gostr; ExpiresAt : option Z }.

(** The loop over the granted permissions of a role, and over the roles. *)
Definition role_grants (m : gmap gostr (list gostr)) (p role : gostr) : bool :=
  match m !! role with
  | None => false
  | Some granted => existsb (fun g => str_eqb g p) granted
  end.

Definition IdentityHasPermission (roleMap : RoleMap) (identity : option Identity) (p : gostr) : bool :=
  match identity, roleMap with
  | Some id, Some m => existsb (role_grants m p) (Roles id)
  | _, _ => false
  end.

(** ** What the check decides *)

Lemma role_grants_iff m p role :
  role_grants m p role = true <-> exists granted, m !! role = Some granted /\ p ∈ granted.
Proof.
  unfold role_grants. destruct (m !! role) as [g|]; [|naive_solver].
  rewrite existsb_exists. setoid_rewrite str_eqb_eq. setoid_rewrite <- list_elem_of_In. naive_solver.
Qed.

Lemma has_permission_iff m id p :
  IdentityHasPermission (Some m) (Some id) p = true <->
  exists role granted, role ∈ Roles id /\ m !! role = Some granted /\ p ∈ granted.
Proof.
  simpl. rewrite existsb_exists. setoid_rewrite role_grants_iff. setoid_rewrite <- list_elem_of_In.
  naive_solver.
Qed.

Definition with_roles (roles : list gostr) : Identity := mkIdentity [] [] [] [] roles [] None.

(** What a single role of the default map may do. *)
Definition grants (role : gostr) (p : Permission) : bool :=
  IdentityHasPermission DefaultRoleMap (Some (with_roles [role])) (permission_string p).

Lemma all_permissions_complete p : p ∈ all_permissions.
Proof. destruct p; by_dec. Qed.

(** A decidable statement about every permission, by evaluation. *)
Lemma for_all_permissions (P : Permission -> bool) :
  forallb P all_permissions = true -> forall p, P p = true.
Proof.
  intros H p. rewrite forallb_forall in H. apply H, list_elem_of_In, all_permissions_complete.
Qed.

Definition only_admin (p : Permission) : bool :=
  bool_decide (p ∈ [PermKrb5Read; PermKrb5Write; PermNotificationsWrite;
    PermPoolEncryptionRecover; PermSessionsAdmin; PermPluginsWrite; PermPluginsAdmin;
    PermMarketplacesAdmin]).

(** Permissions of the operator that a viewer does not have. *)
Definition operator_only (p : Permission) : bool :=
  bool_decide (p ∈ [PermStorageWrite; PermAuditRead; PermSchedulerWrite; PermNotificationsRead;
    PermPoolEncryptionRead; PermPoolEncryptionWrite; PermReplicationWrite; PermScrubWrite;
    PermAlertsWrite; PermLogsRead; PermVMWrite; PermWorkloadsWrite]).

(** What the shipped roles amount to, permission by permission. *)
Definition hierarchy_at (p : Permission) : bool :=
  let operator := grants #"nova-operator" p in
  let viewer := grants #"nova-viewer" p in
  let system := grants #"nova-system-admin" p in
  grants #"nova-admin" p && implb viewer operator
  && implb (only_admin p) (negb operator && negb viewer && negb system)
  && implb (operator_only p) (operator && negb viewer && negb system).

Lemma hierarchy_holds p : hierarchy_at p = true.
Proof. revert p. apply for_all_permissions. vm_compute. reflexivity. Qed.

Lemma has_default_iff id p :
  IdentityHasPermission DefaultRoleMap (Some id) (permission_string p) = true <->
  exists role, role ∈ Roles id /\ grants role p = true.
Proof.
  unfold grants, DefaultRoleMap. setoid_rewrite has_permission_iff. simpl. set_solver.
Qed.

Lemma grants_known role p : grants role p = true ->
  role ∈ [ #"nova-admin"; #"nova-operator"; #"nova-viewer"; #"nova-system-admin"].
Proof.
  unfold grants, DefaultRoleMap. rewrite has_permission_iff. intros (r & g & Hr & Hl & _).
  simpl in Hr. apply list_elem_of_singleton in Hr as ->.
  apply elem_of_list_to_map_2, (list_elem_of_fmap_2 fst) in Hl. done.
Qed.

(** The shipped roles form the hierarchy the comments describe: the
    administrator may do everything; whatever a viewer may do an operator
    may; a permission kept for administrators (Kerberos keys, the
    break-glass key recovery, other users' sessions, plugins and
    marketplaces) is granted to nobody without that role; one kept from
    viewers (the audit log and the logs among them) takes the
    administrator's or the operator's role; and roles the map does not
    know grant nothing. *)
Theorem default_roles_hierarchy id p :
  let has := IdentityHasPermission DefaultRoleMap (Some id) (permission_string p) in
  (#"nova-admin" ∈ Roles id -> has = true) /\
  (#"nova-operator" ∈ Roles id -> grants #"nova-viewer" p = true -> has = true) /\
  (only_admin p = true -> has = true -> #"nova-admin" ∈ Roles id) /\
  (operator_only p = true -> has = true ->
     #"nova-admin" ∈ Roles id \/ #"nova-operator" ∈ Roles id) /\
  ((forall role, role ∈ Roles id ->
      role ∉ [ #"nova-admin"; #"nova-operator"; #"nova-viewer"; #"nova-system-admin"]) ->
   has = false).
Proof.
  intros has. pose proof (hierarchy_holds p) as H. unfold hierarchy_at in H.
  rewrite !andb_true_iff in H. destruct H as [[[Hadmin Hview] Honly] Hop].
  assert (Hhas : has = true <-> exists role, role ∈ Roles id /\ grants role p = true)
    by apply has_default_iff.
  split_and!.
  - intros Hr. apply Hhas. eauto.
  - intros Hr Hv. rewrite Hv in Hview. apply Hhas. eauto.
  - intros Ho (role & Hr & Hg)%Hhas. rewrite Ho in Honly. cbn [implb] in Honly.
    pose proof (grants_known _ _ Hg) as Hk. set_unfold in Hk.
    destruct Hk as [->|[->|[->|[->|[]]]]]; [done|rewrite Hg, !andb_true_iff in Honly; naive_solver..].
  - intros Ho (role & Hr & Hg)%Hhas. rewrite Ho in Hop. cbn [implb] in Hop.
    pose proof (grants_known _ _ Hg) as Hk. set_unfold in Hk.
    destruct Hk as [->|[->|[->|[->|[]]]]]; [by left|by right|..];
      rewrite Hg, !andb_true_iff in Hop; naive_solver.
  - intros Hno. apply not_true_iff_false. intros (role & Hr & Hg)%Hhas.
    by apply (Hno role Hr), (grants_known role p).
Qed.

End Rbac.

(** * internal/auth: key cache, token verification and HTTP middleware

    jwks.go, verifier.go, middleware.go, config.go and dev.go.  The HTTP
    client, the clock, the JSON decoder, the JWT library and the elliptic
    curve point decoder are parameters; the throttled warning of
    development mode and the log lines are left out. *)

From S2P Require Import Prelude GoStrings Effects.
Import Rbac.

Module Auth.

(** ** base64.RawURLEncoding.DecodeString

    Line breaks are skipped, the last group may have two or three digits
    (its spare bits are not checked), and nothing else is accepted. *)

Definition b64_digit (c : ascii) : option Z :=
  if is_upper c then Some (byte_val c - 65)
  else if is_lower c then Some (byte_val c - 71)
  else if is_digit c then Some (byte_val c + 4)
  else if ch_eqb c "-"%char then Some 62
  else if ch_eqb c "_"%char then Some 63
  else None.

Fixpoint b64_groups (ds : list Z) : option (list Z) :=
  match ds with
  | [] => Some []
  | [_] => None
  | [a; b] => Some [Z.lor (Z.shiftl a 2) (Z.shiftr b 4)]
  | [a; b; c] =>
      Some [Z.lor (Z.shiftl a 2) (Z.shiftr b 4); Z.lor (Z.shiftl (Z.land b 15) 4) (Z.shiftr c 2)]
  | a :: b :: c :: d :: ds' =>
      (fun bs => [Z.lor (Z.shiftl a 2) (Z.shiftr b 4);
                  Z.lor (Z.shiftl (Z.land b 15) 4) (Z.shiftr c 2);
                  Z.lor (Z.shiftl (Z.land c 3) 6) d] ++ bs) <$> b64_groups ds'
  end.

Definition is_line_break (c : ascii) : bool := (byte_val c =? 10) || (byte_val c =? 13).

(** The decoded bytes, each between 0 and 255. *)
Definition DecodeString (s : gostr) : option (list Z) :=
  mapM b64_digit (filter (fun c => is_line_break c = false) s) ≫= b64_groups.

(** ** jwks.go: keys *)

Record jwk := mkJwk {
  Kty : gostr; Kid : gostr; Alg : gostr; Use : gostr; jN : gostr; jE : gostr;
  Crv : gostr; jX : gostr; jY : gostr }.

Inductive Curve := P256 | P384 | P521.

(** [ECPoint] is a point the library decoded, by its encoding. *)
Inductive Key :=
| RSAKey (n e : Z)
| ECKey (c : Curve) (point : list Z).

Inductive jwk_err := MissingNE | BadBase64 | ZeroExponent | BadCurve | BadPoint | BadKty.

(** [new(big.Int).SetBytes]: big-endian, unbounded. *)
Definition SetBytes (bs : list Z) : Z := fold_left (fun n b => 256 * n + b) bs 0.

(** [e = e<<8 | int(b)], in 64-bit arithmetic. *)
Definition exponent (bs : list Z) : Z :=
  fold_left (fun e b => wrap64 (Z.lor (Z.shiftl e 8) b)) bs 0.

Section Keys.
(** ecdsa.ParseUncompressedPublicKey: does this byte string decode? *)
Context (ParseUncompressedPublicKey : Curve -> list Z -> bool).

Definition parse_ec (c : Curve) (k : jwk) : res jwk_err Key :=
  match DecodeString (jX k), DecodeString (jY k) with
  | Some xB, Some yB =>
      let raw := xB ++ yB in
      if ParseUncompressedPublicKey c raw then Ok (ECKey c raw) else Err BadPoint
  | _, _ => Err BadBase64
  end.

Definition parseJWK (k : jwk) : res jwk_err Key :=
  if str_eqb (Kty k) #"RSA" then
    if str_eqb (jN k) [] || str_eqb (jE k) [] then Err MissingNE
    else
      match DecodeString (jN k), DecodeString (jE k) with
      | Some nB, Some eB =>
          if exponent eB =? 0 then Err ZeroExponent else Ok (RSAKey (SetBytes nB) (exponent eB))
      | _, _ => Err BadBase64
      end
  else if str_eqb (Kty k) #"EC" then
    if str_eqb (Crv k) #"P-256" then parse_ec P256 k
    else if str_eqb (Crv k) #"P-384" then parse_ec P384 k
    else if str_eqb (Crv k) #"P-521" then parse_ec P521 k
    else Err BadCurve
  else Err BadKty.

(** The loop of fetchJWKS: unusable keys are skipped, a later key with the
    same kid replaces an earlier one. *)
Definition add_key (out : gmap gostr Key) (k : jwk) : gmap gostr Key :=
  match parseJWK k with
  | Err _ => out
  | Ok pub => if str_eqb (Kid k) [] then out else <[Kid k := pub]> out
  end.

Definition usable_keys (ks : list jwk) : gmap gostr Key := fold_left add_key ks ∅.
End Keys.

(** ** jwks.go: the cache *)

(** What the package needs of the outside: an HTTP GET (its status and
    body, or no answer when the request cannot be made, fails, or its body
    cannot be read), the clock, the JSON decoder and the point decoder. *)
Class Env (W : Type) := {
  httpGet : gostr -> W -> W * option (Z * gostr);
  now : W -> W * Z;
  json_discovery : gostr -> option (gostr * gostr);
  json_jwks : gostr -> option (list jwk);
  ec_point : Curve -> list Z -> bool
}.

Record jwksCache := mkCache {
  issuer : gostr; ttl : Z;
  jwksURI : gostr; keys : option (gmap gostr Key); loadedAt : Z; lastForce : Z }.

Definition newJWKSCache (issuer : gostr) (ttl : Z) : jwksCache := mkCache issuer ttl [] None 0 0.

Inductive auth_err :=
| HttpErr | HttpStatus (status : Z) | BadJson | MissingURI | NoUsableKeys | NoKid (kid : gostr)
| BadMethod | MissingKid | ParseErr | InvalidToken | AudMissing | AudMismatch.

Section Cache.
Context {W : Type} `{!Env W}.

(** The package's state beside the outside world. *)
Record St := mkSt { cache : jwksCache; world : W }.

Definition ask {A} (f : W -> W * A) : M St A :=
  fun s => let '(w, a) := f (world s) in (mkSt (cache s) w, Some a).
Definition get_cache : M St jwksCache := fun s => (s, Some (cache s)).
Definition put_cache (c : jwksCache) : M St unit := fun s => (mkSt c (world s), Some tt).

Definition get_body (url : gostr) (max : Z) : M St (res auth_err gostr) :=
  let! r := ask (httpGet url) in
  match r with
  | None => ret (Err HttpErr)
  | Some (status, body) =>
      if negb (status =? 200) then ret (Err (HttpStatus status)) else ret (Ok (limit max body))
  end.

Definition discoverJWKSURI : M St (res auth_err gostr) :=
  let! c := get_cache in
  let! r := get_body (trim_right_byte "/"%char (issuer c) ++ #"/.well-known/openid-configuration")
              (2 ^ 20) in
  match r with
  | Err e => ret (Err e)
  | Ok body =>
      match json_discovery body with
      | None => ret (Err BadJson)
      | Some (uri, _) => if str_eqb uri [] then ret (Err MissingURI) else ret (Ok uri)
      end
  end.

Definition fetchJWKS (uri : gostr) : M St (res auth_err (gmap gostr Key)) :=
  let! r := get_body uri (4 * 2 ^ 20) in
  match r with
  | Err e => ret (Err e)
  | Ok body =>
      match json_jwks body with
      | None => ret (Err BadJson)
      | Some ks =>
          let out := usable_keys ec_point ks in
          if bool_decide (out = ∅) then ret (Err NoUsableKeys) else ret (Ok out)
      end
  end.

Definition refresh : M St (res auth_err unit) :=
  let! c := get_cache in
  let! t := ask now in
  let! _ := put_cache (mkCache (issuer c) (ttl c) (jwksURI c) (keys c) (loadedAt c) t) in
  let! uri := (if str_eqb (jwksURI c) [] then discoverJWKSURI else ret (Ok (jwksURI c))) in
  match uri with
  | Err e => ret (Err e)
  | Ok uri =>
      let! ks := fetchJWKS uri in
      match ks with
      | Err e => ret (Err e)
      | Ok ks =>
          let! t' := ask now in
          let! c' := get_cache in
          let! _ := put_cache (mkCache (issuer c') (ttl c') uri (Some ks) t' (lastForce c')) in
          ret (Ok tt)
      end
  end.

Definition cached (c : jwksCache) (kid : gostr) : option Key := keys c ≫= (!!) kid.

Definition keyForKID (kid : gostr) : M St (res auth_err Key) :=
  let! c := get_cache in
  let! expired :=
    (match keys c with
     | None => ret true
     | Some _ => let! t := ask now in ret (ttl c <? t - loadedAt c)
     end) in
  let again : M St (res auth_err Key) :=
    let! r := refresh in
    match r with
    | Err e => ret (Err e)
    | Ok _ =>
        let! c' := get_cache in
        match cached c' kid with
        | Some k => ret (Ok k)
        | None => ret (Err (NoKid kid))
        end
    end in
  if negb expired then
    match cached c kid with Some k => ret (Ok k) | None => again end
  else again.
End Cache.
Arguments St : clear implicits.

(** ** verifier.go *)

(** A Go [any] as the decoder builds it. *)
Inductive any :=
| VStr (s : gostr)
| VList (l : list any)
| VStrs (l : list gostr)
| VMap (m : list (gostr * any))
| VOther.

Definition Claims : Type := list (gostr * any).

Definition field (k : gostr) (m : list (gostr * any)) : option any :=
  snd <$> find (fun p => str_eqb (fst p) k) m.

(** The comma-ok assertions [v.(string)] and [v.(map[string]any)]. *)
Definition as_string (v : option any) : option gostr :=
  match v with Some (VStr s) => Some s | _ => None end.
Definition as_map (v : option any) : option (list (gostr * any)) :=
  match v with Some (VMap m) => Some m | _ => None end.

Definition is_str (want : gostr) (v : any) : bool :=
  match v with VStr s => str_eqb s want | _ => false end.

Definition checkAudience (claims : Claims) (want : gostr) : res auth_err unit :=
  match field #"aud" claims with
  | None => Err AudMissing
  | Some raw =>
      let found :=
        match raw with
        | VStr a => str_eqb a want
        | VList a => existsb (is_str want) a
        | VStrs a => existsb (fun s => str_eqb s want) a
        | _ => false
        end in
      if found then Ok tt else Err AudMismatch
  end.

Definition role_of (v : any) : option gostr :=
  match v with VStr s => if str_eqb s [] then None else Some s | _ => None end.

Definition appendRoles (out : list gostr) (raw : option any) : list gostr :=
  match raw with Some (VList arr) => out ++ omap role_of arr | _ => out end.

Record Config := mkConfig {
  IssuerURL : gostr; Audience : gostr; RequiredRolePrefix : gostr; ResourceClient : gostr;
  SkipVerify : bool; JWKSCacheTTL : Z; ClockSkew : Z }.

(** Durations in nanoseconds. *)
Definition withDefaults (c : Config) : Config :=
  mkConfig (IssuerURL c) (Audience c) (RequiredRolePrefix c) (ResourceClient c) (SkipVerify c)
    (if JWKSCacheTTL c <=? 0 then 3600 * 10 ^ 9 else JWKSCacheTTL c)
    (if ClockSkew c <=? 0 then 30 * 10 ^ 9 else ClockSkew c).

Inductive new_err := NoIssuer | NoAudience.

(** The configuration and the cache of a new verifier. *)
Definition NewVerifier (c : Config) : res new_err (Config * option jwksCache) :=
  let c := withDefaults c in
  if negb (SkipVerify c) then
    if str_eqb (IssuerURL c) [] then Err NoIssuer
    else if str_eqb (Audience c) [] then Err NoAudience
    else Ok (c, Some (newJWKSCache (IssuerURL c) (JWKSCacheTTL c)))
  else Ok (c, None).

(** The last path segment of the issuer. *)
Definition realm_of (iss : gostr) : gostr :=
  match cut_last "/"%char iss with
  | Some (_, r) => if str_eqb r [] then iss else r
  | None => iss
  end.

Definition project_roles (claims : Claims) (cfg : Config) : list gostr :=
  let roles :=
    match as_map (field #"realm_access" claims) with
    | Some ra => appendRoles [] (field #"roles" ra)
    | None => []
    end in
  let roles :=
    if str_eqb (ResourceClient cfg) [] then roles
    else
      match as_map (field #"resource_access" claims) with
      | Some res =>
          match as_map (field (ResourceClient cfg) res) with
          | Some c => appendRoles roles (field #"roles" c)
          | None => roles
          end
      | None => roles
      end in
  if str_eqb (RequiredRolePrefix cfg) [] then roles
  else filter (fun r => has_prefix r (RequiredRolePrefix cfg) = true) roles.

(** github.com/golang-jwt/jwt: tokens, and the parser with its options. *)
Inductive SigningMethod := SigningMethodRSA | SigningMethodRSAPSS | SigningMethodECDSA | OtherMethod.

Record Header := mkHeader { Method : SigningMethod; hKid : option any }.
Record Token := mkToken { Valid : bool; TokClaims : option Claims }.
Record Options := mkOptions { WithIssuer : gostr; WithLeeway : Z; WithExpirationRequired : bool }.

Class Jwt (W : Type) := {
  ParseWithClaims : Options -> (Header -> M (St W) (res auth_err Key)) -> gostr ->
    M (St W) (option Token);
  GetExpirationTime : Claims -> option Z
}.

Section Verifier.
Context {W : Type} `{!Env W, !Jwt W} (cfg : Config).

Definition projectIdentity (claims : Claims) : Identity :=
  mkIdentity
    (default [] (as_string (field #"sub" claims)))
    (default [] (as_string (field #"preferred_username" claims)))
    (default [] (as_string (field #"email" claims)))
    (match as_string (field #"iss" claims) with Some s => realm_of s | None => [] end)
    (project_roles claims cfg)
    (match as_string (field #"scope" claims) with
     | Some s => if str_eqb s [] then [] else fields s
     | None => []
     end)
    (GetExpirationTime claims).

(** The key function handed to the parser. *)
Definition keyfunc (t : Header) : M (St W) (res auth_err Key) :=
  match Method t with
  | OtherMethod => ret (Err BadMethod)
  | _ =>
      let kid := default [] (as_string (hKid t)) in
      if str_eqb kid [] then ret (Err MissingKid) else keyForKID kid
  end.

Definition syntheticDevIdentity (t : Z) : Identity :=
  mkIdentity #"dev-skip-verify" #"dev" #"dev@localhost" #"dev" [ #"nova-admin"] [ #"openid"]
    (Some (t + 3600 * 10 ^ 9)).

Definition Verify (rawJWT : gostr) : M (St W) (res auth_err Identity) :=
  if SkipVerify cfg then let! t := ask now in ret (Ok (syntheticDevIdentity t))
  else
    let! r := ParseWithClaims (mkOptions (IssuerURL cfg) (ClockSkew cfg) true) keyfunc rawJWT in
    match r with
    | None => ret (Err ParseErr)
    | Some tok =>
        if negb (Valid tok) then ret (Err InvalidToken)
        else match TokClaims tok with
             | None => ret (Err InvalidToken)
             | Some claims =>
                 match checkAudience claims (Audience cfg) with
                 | Err e => ret (Err e)
                 | Ok _ => ret (Ok (projectIdentity claims))
                 end
             end
    end.

(** ** middleware.go *)

(** The path, the Authorization header and the identity in the context. *)
Record Request := mkRequest { Path : gostr; Authorization : gostr; ctxIdentity : option Identity }.

(** A response of the middleware itself, or one of the handler. *)
Inductive Response (X : Type) :=
| Rejected (status : Z) (code message : gostr)
| Served (x : X).
Arguments Rejected {X} _ _ _.
Arguments Served {X} _.

Definition WithIdentity (r : Request) (id : Identity) : Request :=
  mkRequest (Path r) (Authorization r) (Some id).

Definition bearerToken (r : Request) : option gostr :=
  let h := Authorization r in
  if str_eqb h [] then None
  else if (length h <=? 7)%nat || negb (equal_fold (take 7 h) #"Bearer ") then None
  else
    let tok := trim_space (drop 7 h) in
    if str_eqb tok [] then None else Some tok.

Definition Handler (X : Type) : Type := Request -> M (St W) (Response X).

Definition is_public (publicPaths : list gostr) (path : gostr) : bool :=
  existsb (fun p => negb (str_eqb p []) && has_prefix path p) publicPaths.

Definition Middleware {X} (publicPaths : list gostr) (next : Handler X) : Handler X := fun r =>
  if is_public publicPaths (Path r) then next r
  else
    match bearerToken r with
    | None => ret (Rejected 401 #"unauthorized" #"missing bearer token")
    | Some raw =>
        let! id := Verify raw in
        match id with
        | Err _ => ret (Rejected 401 #"unauthorized" #"invalid token")
        | Ok id => next (WithIdentity r id)
        end
    end.

Definition RequirePermission {X} (roleMap : RoleMap) (p : gostr) (next : Handler X) : Handler X :=
  fun r =>
  match ctxIdentity r with
  | None => ret (Rejected 401 #"unauthorized" #"no identity in context")
  | Some id =>
      if negb (IdentityHasPermission roleMap (Some id) p)
      then ret (Rejected 403 #"forbidden" (#"missing permission " ++ p))
      else next r
  end.
End Verifier.
Arguments Rejected {X} _ _ _.
Arguments Served {X} _.
End Auth.
