(* ===== verification/AuthCorrect.v ===== *)
(** * Authentication: who reaches a protected handler, and which keys verify *)

From S2P Require Import Prelude GoStrings Effects Rbac.
Import Rbac Auth.

(** What the JWT library's documentation promises: the parser calls the key
    function at most once and keeps no state of its own, so the cache it
    leaves is the one it found or the one the call left; and when it
    succeeds, the key function answered for the token's header, the
    signature checks under that key, and the issuer is the required one. *)
Class JwtLaws (W : Type) `{!Jwt W} (header_of : gostr -> option Header)
    (signature_ok : gostr -> Header -> Key -> bool) : Prop := {
  parse_state : forall o (kf : Header -> M (St W) (res auth_err Key)) raw s s' r,
    ParseWithClaims o kf raw s = (s', r) -> cache s' = cache s \/
    exists h s1 s2 k, cache s1 = cache s /\ kf h s1 = (s2, k) /\ cache s' = cache s2;
  parse_checks : forall o (kf : Header -> M (St W) (res auth_err Key)) raw s s' tok,
    ParseWithClaims o kf raw s = (s', Some (Some tok)) ->
    exists h k s1 s2, header_of raw = Some h /\ cache s1 = cache s /\ kf h s1 = (s2, Some (Ok k)) /\
      signature_ok raw h k = true /\
      (WithIssuer o <> [] -> forall claims, TokClaims tok = Some claims ->
         field #"iss" claims = Some (VStr (WithIssuer o))) }.

(** ** The keys of an issuer

    The issuer's discovery document, fetched from its well-known address,
    names the address of its key set; the key set, fetched from there, has
    the key under its kid. *)
Section IssuerKeys.
Context {W : Type} `{!Env W}.

Definition answered (url : gostr) (max : Z) (body : gostr) : Prop :=
  exists (w w' : W) full, httpGet url w = (w', Some (200, full)) /\ body = limit max full.

Definition names_key_set (iss uri : gostr) : Prop :=
  uri <> [] /\ exists body x,
    answered (trim_right_byte "/"%char iss ++ #"/.well-known/openid-configuration") (2 ^ 20) body /\
    json_discovery (W := W) body = Some (uri, x).

Definition publishes (uri kid : gostr) (k : Key) : Prop :=
  exists body ks j, answered uri (4 * 2 ^ 20) body /\ json_jwks (W := W) body = Some ks /\ j ∈ ks /\
    Kid j = kid /\ parseJWK (ec_point (W := W)) j = Ok k.

Definition issuer_key (iss kid : gostr) (k : Key) : Prop := exists uri, names_key_set iss uri /\ publishes uri kid k.

(** A cache of this issuer that holds such keys only. *)
Definition genuine (iss : gostr) (c : jwksCache) : Prop :=
  issuer c = iss /\ (jwksURI c = [] \/ names_key_set iss (jwksURI c)) /\
  forall kid k, cached c kid = Some k -> issuer_key iss kid k.

Lemma usable_keys_from parse ks kid k : usable_keys parse ks !! kid = Some k ->
  exists j, j ∈ ks /\ Kid j = kid /\ parseJWK parse j = Ok k.
Proof.
  unfold usable_keys.
  assert (forall m, fold_left (add_key parse) ks m !! kid = Some k ->
    m !! kid = Some k \/ exists j, j ∈ ks /\ Kid j = kid /\ parseJWK parse j = Ok k) as H.
  { induction ks as [|j ks IH]; intros m; cbn [fold_left]; [by left|]. intros [Hm|(j' & ? & ?)]%IH; [|right; exists j'; set_solver].
    revert Hm. unfold add_key. destruct (parseJWK parse j) as [pub|] eqn:Ej; [|by left]. destruct (str_eqb _ _); [by left|].
    rewrite lookup_insert_Some. intros [[<- <-]|[_ ?]]; [right; exists j; set_solver|by left]. }
  intros Hk%H. destruct Hk as [Hk|Hk]; [by rewrite lookup_empty in Hk|done].
Qed.

Lemma get_body_run url max (s : St W) : exists s' r, get_body url max s = (s', Some r) /\ cache s' = cache s /\
  forall body, r = Ok body -> answered url max body.
Proof.
  unfold get_body, bind, ask. destruct (httpGet url (world s)) as [w [[status full]|]] eqn:E; [|do 2 eexists; by split_and!].
  destruct (Z.eqb_spec status 200) as [->|]; cbn [negb]; do 2 eexists; (split; [done|]); (split; [done|]); [|done].
  intros body [= <-]. by exists (world s), w, full.
Qed.

Lemma discover_run (s : St W) : exists s' r, discoverJWKSURI s = (s', Some r) /\ cache s' = cache s /\
  forall uri, r = Ok uri -> names_key_set (issuer (cache s)) uri.
Proof.
  unfold discoverJWKSURI, get_cache. unfold bind at 1. cbv beta iota.
  destruct (get_body_run (trim_right_byte "/"%char (issuer (cache s)) ++ #"/.well-known/openid-configuration") (2 ^ 20) s) as (s1 & r & E & Hc & Hb).
  unfold bind. rewrite E. destruct r as [body|e]; [|do 2 eexists; by split_and!].
  destruct (json_discovery body) as [[uri x]|] eqn:Ej; [|do 2 eexists; by split_and!].
  case_str uri (@nil ascii) as Eu; do 2 eexists; (split; [done|]); (split; [done|]); [done|]. intros u [= <-]. split; [done|]. exists body, x. auto.
Qed.

Lemma fetch_run uri (s : St W) : exists s' r, fetchJWKS uri s = (s', Some r) /\ cache s' = cache s /\
  forall m, r = Ok m -> forall kid k, m !! kid = Some k -> publishes uri kid k.
Proof.
  unfold fetchJWKS. destruct (get_body_run uri (4 * 2 ^ 20) s) as (s1 & r & E & Hc & Hb). unfold bind. rewrite E.
  destruct r as [body|e]; [|do 2 eexists; by split_and!]. destruct (json_jwks body) as [ks|] eqn:Ej; [|do 2 eexists; by split_and!].
  cbv zeta. case_bool_decide; do 2 eexists; (split; [done|]); (split; [done|]); [done|]. intros m [= <-] kid k (j & ? & ? & ?)%usable_keys_from.
  exists body, ks, j. auto.
Qed.

Lemma refresh_genuine iss (s : St W) : genuine iss (cache s) -> exists s' r, refresh s = (s', Some r) /\ genuine iss (cache s').
Proof.
  intros (Hi & Hu & Hk). unfold refresh, get_cache, put_cache, ask. unfold bind at 1 2. cbv beta iota. destruct (now (world s)) as [w t].
  unfold bind at 1. cbn [cache world]. set (s1 := mkSt (mkCache _ _ _ _ _ _) w).
  assert (genuine iss (cache s1)) as G1 by (unfold s1; by split_and!).
  assert (exists s2 r, (if str_eqb (jwksURI (cache s)) [] then discoverJWKSURI else ret (Ok (jwksURI (cache s)))) s1 = (s2, Some r) /\
    cache s2 = cache s1 /\ forall uri, r = Ok uri -> names_key_set iss uri) as (s2 & r & E & Hc2 & Hr).
  { case_str (jwksURI (cache s)) (@nil ascii) as Eu.
    - destruct (discover_run s1) as (s2 & r & E & Hc & Hn). exists s2, r. split; [done|]. split; [done|]. intros uri Er. rewrite <- Hi. by apply Hn.
    - do 2 eexists. split; [done|]. split; [done|]. intros uri [= <-]. by destruct Hu. }
  unfold bind at 1. rewrite E. destruct r as [uri|e]; [|do 2 eexists; split; [done|]; by rewrite Hc2].
  destruct (fetch_run uri s2) as (s3 & r & E3 & Hc3 & Hm). unfold bind at 1. rewrite E3.
  destruct r as [m|e]; [|do 2 eexists; split; [done|]; by rewrite Hc3, Hc2].
  unfold bind. cbv beta iota. destruct (now (world s3)) as [w4 t4]. do 2 eexists. split; [done|]. cbn [cache]. rewrite Hc3, Hc2. split; [by apply G1|].
  cbn [jwksURI]. split; [right; by apply Hr|]. intros kid k Hc. exists uri. split; [by apply Hr|]. by apply (Hm m).
Qed.

(** The key that is found for a kid is a key of the issuer. *)
Lemma keyForKID_genuine iss kid (s : St W) : genuine iss (cache s) -> exists s' r, keyForKID kid s = (s', Some r) /\
  genuine iss (cache s') /\ forall k, r = Ok k -> issuer_key iss kid k.
Proof.
  intros G. unfold keyForKID. unfold bind at 1, get_cache at 1. cbv beta iota.
  assert (exists s1 b, (match keys (cache s) with None => ret true | Some _ => let! t := ask now in ret (ttl (cache s) <? t - loadedAt (cache s)) end) s = (s1, Some b)
    /\ cache s1 = cache s) as (s1 & b & E & Hc).
  { unfold bind, ask. destruct (keys (cache s)); [|by do 2 eexists]. destruct (now (world s)) as [w t]. by do 2 eexists. }
  unfold bind at 1. rewrite E. rewrite <- Hc in G.
  assert (exists s' r, (let! r := refresh in match r with Err e => ret (Err e) | Ok _ => let! c' := get_cache in
      match cached c' kid with Some k => ret (Ok k) | None => ret (Err (NoKid kid)) end end) s1 = (s', Some r) /\
    genuine iss (cache s') /\ forall k, r = Ok k -> issuer_key iss kid k) as Ha.
  { destruct (refresh_genuine iss s1 G) as (s2 & r & Er & G2). unfold bind at 1. rewrite Er. destruct r as [u|e]; [|by do 2 eexists; split_and!].
    unfold bind, get_cache. cbv beta iota. destruct (cached (cache s2) kid) as [k|] eqn:Ek; do 2 eexists; (split; [done|]); (split; [done|]); [|done].
    intros k' [= <-]. by apply G2. }
  destruct b; cbn [negb]; [done|]. destruct (cached (cache s) kid) as [k|] eqn:Ek; [|done].
  do 2 eexists. split; [done|]. split; [done|]. intros k' [= <-]. apply G. by rewrite Hc.
Qed.
End IssuerKeys.

(** ** Roles and audiences, by the shape of the claims *)

(** The audience claim is, or lists, [want]. *)
Definition audience_in (claims : Claims) (want : gostr) : Prop :=
  field #"aud" claims = Some (VStr want) \/
  (exists l, field #"aud" claims = Some (VList l) /\ VStr want ∈ l) \/
  (exists l, field #"aud" claims = Some (VStrs l) /\ want ∈ l).

(** [role] is listed under "roles" of the object [obj]. *)
Definition lists_role (obj : list (gostr * any)) (role : gostr) : Prop :=
  exists l, field #"roles" obj = Some (VList l) /\ VStr role ∈ l.

Definition claimed (cfg : Config) (claims : Claims) (role : gostr) : Prop :=
  role <> [] /\ (exists t, role = RequiredRolePrefix cfg ++ t) /\
  ((exists ra, field #"realm_access" claims = Some (VMap ra) /\ lists_role ra role) \/
   (ResourceClient cfg <> [] /\ exists res c,
      field #"resource_access" claims = Some (VMap res) /\
      field (ResourceClient cfg) res = Some (VMap c) /\ lists_role c role)).

Lemma checkAudience_iff claims want : checkAudience claims want = Ok tt <-> audience_in claims want.
Proof.
  unfold checkAudience, audience_in. destruct (field #"aud" claims) as [v|]; [|naive_solver].
  destruct v as [a|a|a|a|]; simpl.
  - case_str a want as E; naive_solver.
  - assert (existsb (is_str want) a = true <-> VStr want ∈ a) as H.
    { rewrite existsb_exists. setoid_rewrite <- list_elem_of_In. split; [|by exists (VStr want); split; [|apply str_eqb_refl]].
      intros (v & Hv & Hs). destruct v; simpl in Hs; try done. by apply str_eqb_eq in Hs as ->. }
    destruct (existsb _ _); naive_solver.
  - assert (existsb (fun s => str_eqb s want) a = true <-> want ∈ a) as H.
    { rewrite existsb_exists. setoid_rewrite <- list_elem_of_In. setoid_rewrite str_eqb_eq. naive_solver. }
    destruct (existsb _ _); naive_solver.
  - naive_solver.
  - naive_solver.
Qed.

Lemma appendRoles_iff out obj role :
  role ∈ appendRoles out (field #"roles" obj) <-> role ∈ out \/ (role <> [] /\ lists_role obj role).
Proof.
  unfold appendRoles, lists_role. destruct (field #"roles" obj) as [[]|]; try naive_solver.
  rewrite elem_of_app, list_elem_of_omap. split; (intros [H|H]; [by left|right]).
  - destruct H as (v & Hv & Hr). destruct v; simpl in Hr; try done.
    case_str s (@nil ascii) as E; simplify_eq. eauto.
  - destruct H as (Hne & l' & [= <-] & Hin). exists (VStr role). split; [done|]. simpl.
    apply str_eqb_neq in Hne. by rewrite Hne.
Qed.

Lemma as_map_Some v m : as_map v = Some m <-> v = Some (VMap m).
Proof. destruct v as [[]|]; simpl; naive_solver. Qed.

(** The roles projected out of a token are exactly the claimed ones. *)
Lemma project_roles_iff cfg claims role : role ∈ project_roles claims cfg <-> claimed cfg claims role.
Proof.
  unfold project_roles, claimed.
  set (r0 := match as_map (field #"realm_access" claims) with Some ra => _ | None => _ end).
  assert (H0 : role ∈ r0 <-> role <> [] /\ exists ra, field #"realm_access" claims = Some (VMap ra) /\ lists_role ra role).
  { subst r0. destruct (as_map (field #"realm_access" claims)) as [ra|] eqn:E.
    - apply as_map_Some in E. rewrite appendRoles_iff, E. set_solver.
    - split; [set_solver|]. intros (_ & ra & Hra & _). by rewrite Hra in E. }
  set (r1 := if str_eqb (ResourceClient cfg) [] then r0 else _).
  assert (H1 : role ∈ r1 <-> role <> [] /\
    ((exists ra, field #"realm_access" claims = Some (VMap ra) /\ lists_role ra role) \/
     (ResourceClient cfg <> [] /\ exists res c, field #"resource_access" claims = Some (VMap res) /\
        field (ResourceClient cfg) res = Some (VMap c) /\ lists_role c role))).
  { subst r1. case_str (ResourceClient cfg) (@nil ascii) as E; [naive_solver|].
    destruct (as_map (field #"resource_access" claims)) as [rs|] eqn:Er; [apply as_map_Some in Er|].
    2:{ rewrite H0. split; [naive_solver|]. intros (? & [?|(_ & rs & c & Hrs & _)]); [done|]. by rewrite Hrs in Er. }
    rewrite Er. destruct (as_map (field (ResourceClient cfg) rs)) as [c|] eqn:Ec; [apply as_map_Some in Ec|].
    - rewrite appendRoles_iff, H0. naive_solver.
    - rewrite H0. split; [naive_solver|]. intros (? & [?|(_ & rs' & c & [= <-] & Hc & _)]); [done|].
      by rewrite Hc in Ec. }
  case_str (RequiredRolePrefix cfg) (@nil ascii) as E.
  - rewrite H1, E. simpl. split; [|naive_solver].
    intros [? ?]. split_and!; [done|eauto|done].
  - rewrite list_elem_of_filter, has_prefix_iff, H1. naive_solver.
Qed.

(** ** Requests *)

Section Requests.
Context {W : Type} `{!Env W, !Jwt W} (header_of : gostr -> option Header)
  (signature_ok : gostr -> Header -> Key -> bool) `{Laws : !JwtLaws W header_of signature_ok}.

(** A route: the handler behind the permission check. *)
Definition serve {X} (h : Request -> M (St W) X) : Handler X :=
  fun r => let! x := h r in ret (Served x).

(** The token was signed, under an asymmetric method, with the key the
    issuer publishes under the token's kid. *)
Definition signed (iss raw : gostr) : Prop :=
  exists hd k kid, header_of raw = Some hd /\ Method hd <> OtherMethod /\
    as_string (hKid hd) = Some kid /\ kid <> [] /\
    issuer_key (W := W) iss kid k /\ signature_ok raw hd k = true.

Lemma keyfunc_genuine iss hd (s1 s2 : St W) k : genuine (W := W) iss (cache s1) -> keyfunc hd s1 = (s2, k) ->
  genuine (W := W) iss (cache s2).
Proof.
  intros G. unfold keyfunc. destruct (Method hd); [..|by intros [= <- _]];
    (destruct (str_eqb _ []); [by intros [= <- _]|]; intros E;
     destruct (keyForKID_genuine iss (default [] (as_string (hKid hd))) s1 G) as (s' & r & E' & G' & _); congruence).
Qed.

Lemma keyfunc_Ok iss hd s1 s2 (k : Key) : genuine (W := W) iss (cache s1) -> keyfunc (W := W) hd s1 = (s2, Some (Ok k)) ->
  Method hd <> OtherMethod /\ exists kid, as_string (hKid hd) = Some kid /\ kid <> [] /\ issuer_key (W := W) iss kid k.
Proof.
  intros G. unfold keyfunc. destruct (Method hd) eqn:Em; [..|done];
    (destruct (str_eqb _ []) eqn:E; [done|]; apply str_eqb_neq in E; intros H;
     split; [done|]; destruct (as_string (hKid hd)) as [kid|]; [|done]; exists kid; split; [done|]; split; [done|];
     destruct (keyForKID_genuine iss kid s1 G) as (s' & r & E' & _ & Hk); assert (keyForKID kid s1 = (s2, Some (Ok k))) as H' by exact H; rewrite H' in E'; injection E' as <- <-; by apply Hk).
Qed.

Lemma Verify_genuine cfg iss raw s s' r : genuine (W := W) iss (cache s) -> Verify cfg raw s = (s', r) -> genuine (W := W) iss (cache s').
Proof.
  intros G. unfold Verify, bind. destruct (SkipVerify cfg).
  { unfold ask. destruct (now (world s)) as [w t]. by intros [= <- _]. }
  destruct (ParseWithClaims _ _ raw s) as [s1 p] eqn:Ep. intros Hs. assert (cache s' = cache s1) as -> by (unfold ret in Hs; repeat case_match; by simplify_eq).
  apply parse_state in Ep as [->|(h & t1 & t2 & k & Hc & Hk & ->)]; [done|]. eapply keyfunc_genuine; [|exact Hk]. by rewrite Hc.
Qed.

Lemma Verify_Ok cfg raw s s' id : SkipVerify cfg = false -> IssuerURL cfg <> [] -> genuine (W := W) (IssuerURL cfg) (cache s) ->
  Verify cfg raw s = (s', Some (Ok id)) ->
  exists claims, id = projectIdentity cfg claims /\ signed (IssuerURL cfg) raw /\
    field #"iss" claims = Some (VStr (IssuerURL cfg)) /\ audience_in claims (Audience cfg).
Proof.
  intros Hskip Hiss G. unfold Verify, bind. rewrite Hskip.
  destruct (ParseWithClaims _ _ raw s) as [s1 [[tok|]|]] eqn:Ep; [|done..].
  destruct (Valid tok); simpl; [|done]. destruct (TokClaims tok) as [claims|] eqn:Ec; [|done].
  destruct (checkAudience claims (Audience cfg)) as [[]|] eqn:Ea; [|done]. intros [= <- <-].
  apply checkAudience_iff in Ea.
  apply parse_checks in Ep as (hd & k & t1 & t2 & Hh & Hc & Hk & Hsig & Hclaims).
  rewrite <- Hc in G. apply (keyfunc_Ok _ _ _ _ _ G) in Hk as (Hm & kid & Hkid & Hne & Hkey).
  exists claims. split_and!; [done| |by apply Hclaims|done].
  exists hd, k, kid. done.
Qed.

Lemma RequirePermission_Served {X} m p (h : Request -> M (St W) X) r s s' x :
  RequirePermission (Some m) p (serve h) r s = (s', Some (Served x)) ->
  exists id, ctxIdentity r = Some id /\ IdentityHasPermission (Some m) (Some id) p = true /\
    h r s = (s', Some x).
Proof.
  unfold RequirePermission. destruct (ctxIdentity r) as [id|]; [|done].
  destruct (IdentityHasPermission (Some m) (Some id) p) eqn:Ep; cbn [negb]; [|done].
  unfold serve, bind. destruct (h r s) as [s2 [y|]] eqn:Eh; [|done]. intros [= -> ->].
  exists id. done.
Qed.

Lemma NewVerifier_verifies cfg0 cfg c0 : NewVerifier cfg0 = Ok (cfg, Some c0) ->
  SkipVerify cfg = false /\ IssuerURL cfg <> [] /\ Audience cfg <> [] /\ genuine (W := W) (IssuerURL cfg) c0.
Proof.
  unfold NewVerifier. destruct (SkipVerify _) eqn:Es; cbn [negb]; [done|].
  destruct (str_eqb (IssuerURL _) []) eqn:Ei; [done|].
  destruct (str_eqb (Audience _) []) eqn:Ea; [done|]. intros [= <- <-].
  rewrite str_eqb_neq in Ei, Ea. split_and!; try done. split; [done|]. split; [by left|]. by intros kid k.
Qed.

(** The caches a verifier can have: a new one, and what the verification of
    a token, accepted or not, leaves of one, in whatever world. *)
Inductive cache_of (cfg : Config) (c0 : jwksCache) : jwksCache -> Prop :=
| cache_new : cache_of cfg c0 c0
| cache_used c raw w s' r : cache_of cfg c0 c -> Verify cfg raw (mkSt c w) = (s', r) -> cache_of cfg c0 (cache s').

Lemma cache_of_genuine cfg c0 iss c : genuine (W := W) iss c0 -> cache_of cfg c0 c -> genuine (W := W) iss c.
Proof. intros G. induction 1 as [|c raw w s' r _ IH E]; [done|]. exact (Verify_genuine cfg iss raw (mkSt c w) s' r IH E). Qed.

(** C15. With verification on, a request served by a handler behind
    RequirePermission carried a token signed with a key that the key set
    published by the issuer lists under its kid, for the configured
    issuer and audience, claiming a role to which the role map grants
    the permission. *)
Theorem access_is_granted {X} cfg0 cfg c0 publicPaths m p (h : Request -> M (St W) X) r s s' x
    (Hnew : NewVerifier cfg0 = Ok (cfg, Some c0)) (Hcache : cache_of cfg c0 (cache s)) (Hctx : ctxIdentity r = None)
    (Hrun : Middleware cfg publicPaths (RequirePermission (Some m) p (serve h)) r s =
            (s', Some (Served x))) :
  exists raw claims role granted,
    bearerToken r = Some raw /\ signed (IssuerURL cfg) raw /\
    field #"iss" claims = Some (VStr (IssuerURL cfg)) /\ audience_in claims (Audience cfg) /\
    claimed cfg claims role /\ m !! role = Some granted /\ p ∈ granted /\
    exists s3, h (WithIdentity r (projectIdentity cfg claims)) s3 = (s', Some x).
Proof.
  apply NewVerifier_verifies in Hnew as (Hskip & Hiss & Haud & G). apply (cache_of_genuine _ _ _ _ G) in Hcache. unfold Middleware in Hrun.
  destruct (is_public publicPaths (Path r)).
  { apply RequirePermission_Served in Hrun as (id & Hid & _). congruence. }
  destruct (bearerToken r) as [raw|]; [|done]. unfold bind in Hrun.
  destruct (Verify cfg raw s) as [s1 [[id|e]|]] eqn:Ev; [|done..].
  apply Verify_Ok in Ev as (claims & -> & Hsig & Hi & Ha); [|done..].
  apply RequirePermission_Served in Hrun as (id & [= <-] & Hp & Hh).
  apply has_permission_iff in Hp as (role & granted & Hrole & Hm & Hin).
  simpl in Hrole. apply project_roles_iff in Hrole.
  exists raw, claims, role, granted. split_and!; try done. by exists s1.
Qed.
End Requests.

(** ** Keys *)

(** Bytes of a coordinate on the curve. *)
Definition coord_size (c : Curve) : nat :=
  match c with P256 => 32 | P384 => 48 | P521 => 66 end.

Definition curve_name (c : Curve) : gostr :=
  match c with P256 => #"P-256" | P384 => #"P-384" | P521 => #"P-521" end.

(** An EC key as RFC 7518 has it: both coordinates at full size. *)
Definition ec_jwk (c : Curve) (k : jwk) : Prop :=
  Kty k = #"EC" /\ Crv k = curve_name c /\
  exists x y, DecodeString (jX k) = Some x /\ DecodeString (jY k) = Some y /\
    length x = coord_size c /\ length y = coord_size c.

(** SEC 1, section 2.3.3: the uncompressed form is one byte 4 and the two
    coordinates; nothing else parses. *)
Definition uncompressed_only (parse : Curve -> list Z -> bool) : Prop :=
  forall c bs, parse c bs = true -> length bs = (1 + 2 * coord_size c)%nat /\ head bs = Some 4.

Lemma parseJWK_ec parse c k : uncompressed_only parse -> ec_jwk c k ->
  parseJWK parse k = Err BadPoint.
Proof.
  intros Hparse (Hkty & Hcrv & x & y & Hx & Hy & Hlx & Hly).
  assert (Hec : parse_ec parse c k = Err BadPoint).
  { unfold parse_ec. rewrite Hx, Hy. destruct (parse c (x ++ y)) eqn:E; [|done].
    apply Hparse in E as [E _]. rewrite length_app in E. lia. }
  unfold parseJWK. rewrite Hkty, Hcrv. destruct c; exact Hec.
Qed.

Lemma usable_keys_none parse ks : Forall (fun k => exists e, parseJWK parse k = Err e) ks ->
  usable_keys parse ks = ∅.
Proof.
  unfold usable_keys. generalize (∅ : gmap gostr Key). induction ks as [|k ks IH]; intros m H; [done|].
  apply Forall_cons in H as [[e He] H]. simpl. unfold add_key at 2. rewrite He. by apply IH.
Qed.

(** Elliptic-curve keys never work.  A well-formed EC key of the
    issuer is rejected, because the coordinates are handed to the point
    decoder without the leading byte of the uncompressed form; so an issuer
    that publishes EC keys only has no usable key, although the comments
    list EC among the supported key types. *)
Theorem ec_keys_rejected parse ks (Hparse : uncompressed_only parse)
    (Hks : Forall (fun k => exists c, ec_jwk c k) ks) :
  Forall (fun k => parseJWK parse k = Err BadPoint) ks /\ usable_keys parse ks = ∅.
Proof.
  assert (H : Forall (fun k => parseJWK parse k = Err BadPoint) ks).
  { eapply Forall_impl; [exact Hks|]. intros k [c Hk]. by eapply parseJWK_ec. }
  split; [done|]. apply usable_keys_none. eapply Forall_impl; [exact H|]. intros k Hk. by exists BadPoint.
Qed.

Section CacheFacts.
Context {W : Type} `{!Env W}.

(** A fresh cache answers a known kid without touching the network. *)
Lemma keyForKID_hit c (w w' : W) t m kid k : keys c = Some m -> m !! kid = Some k ->
  now w = (w', t) -> t - loadedAt c <= ttl c ->
  keyForKID kid (mkSt c w) = (mkSt c w', Some (Ok k)).
Proof.
  intros Hc Hk Hn Ht. unfold keyForKID, bind, get_cache, cached, ask. simpl. rewrite Hc. simpl.
  rewrite Hn. simpl. replace (ttl c <? t - loadedAt c) with false by lia. simpl. by rewrite Hk.
Qed.

(** A kid the cache does not have is looked up with a refresh every time:
    nothing depends on when the last one was. *)
Lemma unknown_kid_refreshes c (w w' : W) t m kid : keys c = Some m -> m !! kid = None ->
  now w = (w', t) ->
  keyForKID kid (mkSt c w) =
  (let! r := refresh in
   match r with
   | Err e => ret (Err e)
   | Ok _ =>
       let! c' := get_cache in
       match cached c' kid with Some k => ret (Ok k) | None => ret (Err (NoKid kid)) end
   end) (mkSt c w').
Proof.
  intros Hc Hk Hn. unfold keyForKID. unfold bind at 1, get_cache at 1. cbn [cache].
  rewrite Hc. unfold bind at 1, ask at 1. unfold bind at 1. cbn [world]. rewrite Hn.
  unfold ret at 1. destruct (negb _); [|done]. unfold cached at 1. rewrite Hc. cbn [mbind option_bind].
  by rewrite Hk.
Qed.
End CacheFacts.

(** ** A concrete issuer *)

Module MemIssuer.

Definition base : gostr := #"https://kc/realms/nova".
Definition discovery_url : gostr := base ++ #"/.well-known/openid-configuration".
Definition keys_url : gostr := #"https://kc/keys".

Definition rsa_key : jwk := mkJwk #"RSA" #"k1" [] [] #"0Vs" #"AQAB" [] [] [].

Definition uncompressed (c : Curve) (bs : list Z) : bool :=
  (length bs =? 1 + 2 * coord_size c)%nat && bool_decide (head bs = Some 4).

(** The state is the clock. *)
#[global] Instance env : Env Z := {|
  httpGet := fun url w =>
    (w, if str_eqb url discovery_url then Some (200, #"D")
        else if str_eqb url keys_url then Some (200, #"J") else None);
  now := fun w => (w + 1, w);
  json_discovery := fun b => if str_eqb b #"D" then Some (keys_url, base) else None;
  json_jwks := fun b => if str_eqb b #"J" then Some [rsa_key] else None;
  ec_point := uncompressed |}.

Definition token : gostr := #"good".

Definition claims : Claims :=
  [(#"iss", VStr base); (#"aud", VList [VStr #"account"; VStr #"nova-api"]); (#"sub", VStr #"u1");
   (#"realm_access", VMap [(#"roles", VList [VStr #"offline"; VStr #"nova-viewer"])])].

Definition header_of (raw : gostr) : option Header :=
  if str_eqb raw token then Some (mkHeader SigningMethodRSA (Some (VStr #"k1"))) else None.

Definition signature_ok (raw : gostr) (_ : Header) (k : Key) : bool :=
  str_eqb raw token && match k with RSAKey _ e => e =? 65537 | _ => false end.

#[global] Instance jwt : Jwt Z := {|
  ParseWithClaims := fun o kf raw =>
    match header_of raw with
    | None => ret None
    | Some h =>
        let! k := kf h in
        match k with
        | Err _ => ret None
        | Ok k =>
            if signature_ok raw h k && str_eqb (WithIssuer o) base
            then ret (Some (mkToken true (Some claims))) else ret None
        end
    end;
  GetExpirationTime := fun _ => Some 100 |}.

#[global] Instance laws : JwtLaws Z header_of signature_ok.
Proof.
  split.
  - intros o kf raw s s' r. simpl. destruct (header_of raw) as [h|]; [|intros [= <- _]; by left].
    unfold bind. destruct (kf h s) as [s2 k] eqn:Ek. intros E. right. exists h, s, s2, k. split_and!; try done.
    unfold ret in E. repeat case_match; by simplify_eq.
  - intros o kf raw s s' tok. simpl. destruct (header_of raw) as [h|]; [|done].
    unfold bind. destruct (kf h s) as [s2 [[k|e]|]] eqn:Ek; [|done..].
    destruct (signature_ok raw h k) eqn:Es; simpl; [|done].
    case_str (WithIssuer o) base as Ei; [|done]. intros [= <- <-]. exists h, k, s, s2. split_and!; [done..|].
    intros _ cl [= <-]. by rewrite Ei.
Qed.

Definition cfg0 : Config := mkConfig base #"nova-api" #"nova-" [] false 0 0.
Definition cfg : Config := withDefaults cfg0.
Definition start : St Z := mkSt (newJWKSCache base (3600 * 10 ^ 9)) 0.
Definition get_pools : Request := mkRequest #"/api/v1/pools" #"bearer good" None.
Definition list_pools (r : Request) : M (St Z) Z := ret 7.

Definition viewer_map : gmap gostr (list gostr) :=
  {[ #"nova-viewer" := [permission_string PermStorageRead] ]}.

Definition served : St Z * option (Response Z) :=
  Middleware cfg [ #"/healthz"]
    (RequirePermission (Some viewer_map) (permission_string PermStorageRead) (serve list_pools))
    get_pools start.

Example served_ok : exists s, served = (s, Some (Served 7)).
Proof. eexists. vm_compute. reflexivity. Qed.

(** The same token does not open a route it has no permission for. *)
Example write_is_forbidden : exists s msg,
  Middleware cfg [ #"/healthz"]
    (RequirePermission (Some viewer_map) (permission_string PermStorageWrite) (serve list_pools))
    get_pools start = (s, Some (Rejected 403 #"forbidden" msg)).
Proof. do 2 eexists. vm_compute. reflexivity. Qed.

Definition ec_key : jwk :=
  mkJwk #"EC" #"e1" [] [] [] [] #"P-256" (repeat "A"%char 43) (repeat "B"%char 43).

Lemma uncompressed_ok : uncompressed_only uncompressed.
Proof.
  intros c bs [Hl Hh]%andb_true_iff. apply bool_decide_eq_true in Hh.
  by apply Nat.eqb_eq in Hl.
Qed.

Lemma ec_key_ok : ec_jwk P256 ec_key.
Proof. split; [done|]. split; [done|]. by do 2 eexists. Qed.
End MemIssuer.

Lemma access_is_granted_witness :
  (exists s, MemIssuer.served = (s, Some (Served 7))) /\
  exists raw, bearerToken MemIssuer.get_pools = Some raw /\
    signed (W := Z) MemIssuer.header_of MemIssuer.signature_ok MemIssuer.base raw.
Proof.
  split; [exact MemIssuer.served_ok|].
  destruct MemIssuer.served_ok as [s Hs].
  destruct (access_is_granted MemIssuer.header_of MemIssuer.signature_ok MemIssuer.cfg0
    MemIssuer.cfg _ [ #"/healthz"] MemIssuer.viewer_map (permission_string PermStorageRead)
    MemIssuer.list_pools MemIssuer.get_pools MemIssuer.start s 7 eq_refl (cache_new _ _) eq_refl Hs)
    as (raw & claims & role & granted & Hraw & Hsig & _).
  exists raw. split; [exact Hraw|exact Hsig].
Defined.

Lemma ec_keys_rejected_witness :
  parseJWK MemIssuer.uncompressed MemIssuer.ec_key = Err BadPoint /\
  usable_keys MemIssuer.uncompressed [MemIssuer.ec_key] = ∅.
Proof.
  split; [vm_compute; reflexivity|].
  exact (proj2 (ec_keys_rejected MemIssuer.uncompressed [MemIssuer.ec_key] MemIssuer.uncompressed_ok
    (Forall_cons_2 _ _ _ (ex_intro _ P256 MemIssuer.ec_key_ok) (Forall_nil_2 _)))).
Defined.
