(* ===== verification/PluginPackage.v ===== *)
(** * internal/plugins: plugin packages

    ui_assets.go, preview.go and permissions_summary.go: unpacking a
    package on disk, reading its manifest for the consent dialog, the
    summary of what an install will do, and serving a plugin's UI files.
    The gzip and tar readers are a parameter, which gives the entries of an
    archive; the disk is the interface [Disk]. *)

From S2P Require Import Prelude GoStrings GoPath Regex Effects Plugins.
Import Manifest.

Module Package.

(** ** Archives *)

Inductive Typeflag := TypeDir | TypeReg | TypeOther.

#[global] Instance Typeflag_eq_dec : EqDecision Typeflag.
Proof. solve_decision. Defined.

(** The bytes that can be read of an entry, and whether reading then fails
    instead of reaching its end. *)
Record tar_entry := mkEntry {
  eName : gostr; eType : Typeflag; eSize : Z; eData : gostr; eReadErr : bool }.

(** What tr.Next returns in turn; [None] is an error, the end of the list
    the end of the archive. *)
Definition archive : Type := list (option tar_entry).

Inductive package_err :=
| MkdirErr | GzipErr | TarErr | Escapes (name : gostr) | TooLarge | FileErr | ReadErr
| NoManifest | ManifestTooLarge.

(** ** The disk *)

Inductive file_kind := IsFile | IsDir.

Class Disk (W : Type) := {
  MkdirAll : gostr -> W -> W * bool;
  WriteFile : gostr -> gostr -> W -> W * bool;
  ReadFile : gostr -> W -> W * option gostr;
  RemoveAll : gostr -> W -> W * bool;
  Stat : gostr -> W -> W * option file_kind
}.

Definition maxExtractBytes : Z := 512 * 2 ^ 20.

Definition manifest_yaml : gostr := #"manifest.yaml".

Section OnDisk.
Context {W : Type} `{!Disk W} (untar : gostr -> option archive).

(** The loop's variables. *)
Record extract_state := mkExtract { remaining : Z; manifestBytes : option gostr; hasUI : bool }.

Definition is_ui_path (rel : gostr) : bool := has_prefix rel #"ui/".

(** A regular file: created, filled with at most what remains of the
    budget, and read back when it is the manifest. *)
Definition extract_file (full rel : gostr) (e : tar_entry) (st : extract_state)
  : M W (res package_err extract_state) :=
  if remaining st <? eSize e then ret (Err TooLarge)
  else
    let! ok := call (MkdirAll (Dir full)) in
    if negb ok then ret (Err MkdirErr)
    else
      let data := limit (remaining st) (eData e) in
      let! ok := call (WriteFile full data) in
      if negb ok then ret (Err FileErr)
      else if eReadErr e && (Z.of_nat (length data) <? remaining st) then ret (Err ReadErr)
      else
        let st' := mkExtract (remaining st - Z.of_nat (length data)) (manifestBytes st)
                     (hasUI st || is_ui_path rel) in
        if str_eqb rel manifest_yaml then
          let! mb := call (ReadFile full) in
          match mb with
          | None => ret (Err FileErr)
          | Some b => ret (Ok (mkExtract (remaining st') (Some b) (hasUI st')))
          end
        else ret (Ok st').

Definition extract_dir (full rel : gostr) (st : extract_state)
  : M W (res package_err extract_state) :=
  let! ok := call (MkdirAll full) in
  if negb ok then ret (Err MkdirErr)
  else ret (Ok (mkExtract (remaining st) (manifestBytes st) (hasUI st || str_eqb rel #"ui"))).

Definition extract_entry (destDir : gostr) (e : tar_entry) (st : extract_state)
  : M W (res package_err extract_state) :=
  let clean := Clean (#"/" ++ eName e) in
  if contains clean dotdot then ret (Err (Escapes (eName e)))
  else
    let full := Join [destDir; clean] in
    match Rel destDir full with
    | None => ret (Err (Escapes (eName e)))
    | Some rel =>
        if has_prefix rel dotdot then ret (Err (Escapes (eName e)))
        else match eType e with
             | TypeDir => extract_dir full rel st
             | TypeReg => extract_file full rel e st
             | TypeOther => ret (Ok st)
             end
    end.

Fixpoint extract_entries (destDir : gostr) (es : archive) (st : extract_state)
  : M W (res package_err extract_state) :=
  match es with
  | [] => ret (Ok st)
  | None :: _ => ret (Err TarErr)
  | Some e :: es' =>
      let! r := extract_entry destDir e st in
      match r with
      | Err err => ret (Err err)
      | Ok st' => extract_entries destDir es' st'
      end
  end.

(** The manifest's bytes and the directory of the UI bundle, if any. *)
Definition ExtractTarball (tarball destDir : gostr) : M W (res package_err (gostr * gostr)) :=
  let! ok := call (MkdirAll destDir) in
  if negb ok then ret (Err MkdirErr)
  else
    match untar tarball with
    | None => ret (Err GzipErr)
    | Some es =>
        let! r := extract_entries destDir es (mkExtract maxExtractBytes None false) in
        match r with
        | Err err => ret (Err err)
        | Ok st =>
            match manifestBytes st with
            | None => ret (Err NoManifest)
            | Some mb => ret (Ok (mb, if hasUI st then Join [destDir; #"ui"] else []))
            end
        end
    end.
End OnDisk.

(** ** preview.go: the manifest shown to the operator *)

Definition manifestCap : Z := 2 ^ 20.

(** [io.LimitReader(tr, manifestCap+1)] read to its end. *)
Definition read_capped (e : tar_entry) : res package_err gostr :=
  let buf := limit (manifestCap + 1) (eData e) in
  if eReadErr e && (Z.of_nat (length buf) <=? manifestCap) then Err ReadErr
  else if manifestCap <? Z.of_nat (length buf) then Err ManifestTooLarge
  else Ok buf.

Definition is_manifest_name (name : gostr) : bool :=
  str_eqb name manifest_yaml || str_eqb name #"./manifest.yaml".

Fixpoint read_manifest (es : archive) : res package_err gostr :=
  match es with
  | [] => Err NoManifest
  | None :: _ => Err TarErr
  | Some e :: es' =>
      if negb (bool_decide (eType e = TypeReg)) then read_manifest es'
      else if is_manifest_name (eName e) then read_capped e
      else read_manifest es'
  end.

Definition readManifestFromTarball (untar : gostr -> option archive) (tarball : gostr)
  : res package_err gostr :=
  match untar tarball with None => Err GzipErr | Some es => read_manifest es end.

(** ** permissions_summary.go *)

Definition pluginAPIPrefix : gostr := #"/api/v1/plugins".

Record ProvisionedResource := mkProvisioned {
  prKind : gostr; prWhat : gostr; prDestructive : bool }.

Record PermissionsSummary := mkSummary {
  WillCreate : list ProvisionedResource; WillMount : list gostr; WillOpen : list gostr;
  SumScopes : list gostr; SumCategory : gostr }.

Section Summary.
(** strconv.Quote, the [%q] of fmt. *)
Context (quote : gostr -> gostr).

Definition summarizeNeed (plugin : gostr) (n : Need) : ProvisionedResource :=
  let res (what : gostr) := mkProvisioned (nKind n) what false in
  if str_eqb (nKind n) NeedDataset then
    match nDataset n with
    | Some d => if negb (str_eqb (dnPool d) []) && negb (str_eqb (dnName d) [])
                then res (#"ZFS dataset " ++ dnPool d ++ #"/" ++ dnName d) else res #"ZFS dataset"
    | None => res #"ZFS dataset"
    end
  else if str_eqb (nKind n) NeedOIDCClient then
    match nOIDCClient n with
    | Some o => if negb (str_eqb (ocClientID o) [])
                then res (#"Keycloak client " ++ quote (ocClientID o)) else res #"Keycloak client"
    | None => res #"Keycloak client"
    end
  else if str_eqb (nKind n) NeedTLSCert then
    match nTLSCert n with
    | Some t => if negb (str_eqb (tcCommonName t) [])
                then res (#"TLS cert for " ++ tcCommonName t) else res #"TLS cert"
    | None => res #"TLS cert"
    end
  else if str_eqb (nKind n) NeedPermission then
    match nPermission n with
    | Some q => if negb (str_eqb (pnRole q) [])
                then res (#"Bind realm role " ++ quote (pnRole q) ++ #" to plugin service account")
                else res #"Bind realm role to plugin service account"
    | None => res #"Bind realm role to plugin service account"
    end
  else res (#"Unknown need " ++ quote (nKind n) ++ #" for plugin " ++ quote plugin).

(** [strings.TrimRight(path, "/")], with the root for the empty path. *)
Definition mount_path (r : APIRoute) : gostr :=
  let path := trim_right_byte "/"%char (rPath r) in
  if str_eqb path [] then #"/" else path.

Definition Summarize (p : Plugin) : PermissionsSummary :=
  mkSummary
    (map (summarizeNeed (pName p)) (Needs p))
    (map (fun r => pluginAPIPrefix ++ #"/" ++ pName p ++ mount_path r ++ #"/*") (sRoutes (Spec p)))
    [] [ #"PermPluginsRead"] (pCategory p).
End Summary.

(** ** ui_assets.go: the registry and the file server *)

Definition DefaultPluginsRoot : gostr := #"/var/lib/nova-nas/plugins".

Record UIAssets := mkUI { Root : gostr; uiPlugins : gmap gostr gostr }.

Definition NewUIAssets (root : gostr) : UIAssets :=
  mkUI (if str_eqb root [] then DefaultPluginsRoot else root) ∅.

Definition Register (u : UIAssets) (plugin uiDir : gostr) : UIAssets :=
  mkUI (Root u)
    (if str_eqb uiDir [] then delete plugin (uiPlugins u) else <[plugin := uiDir]> (uiPlugins u)).

Definition Deregister (u : UIAssets) (plugin : gostr) : UIAssets := Register u plugin [].

Definition Lookup (u : UIAssets) (plugin : gostr) : gostr := default [] (uiPlugins u !! plugin).

Definition PluginRootFor (u : UIAssets) (plugin : gostr) : gostr := Join [Root u; plugin].

Inductive ui_response := UiError (status : Z) (code : gostr) | UiFile (path : gostr).

Section Serve.
Context {W : Type} `{!Disk W}.

(** [http.ServeFile(w, r, name)], where [path] is [r.URL.Path], absent for a
    nil URL: the path is inspected first, and through a nil pointer. *)
Definition ServeFile (path : option gostr) (name : gostr) : M W ui_response :=
  match path with
  | None => panic
  | Some p =>
      if mem dotdot (split_on "/"%char p) then ret (UiError 400 #"invalid URL path")
      else ret (UiFile name)
  end.

(** Which file a request names, or the error it gets. *)
Definition ui_file (u : UIAssets) (plugin rest : gostr) : M W ui_response :=
  let dir := Lookup u plugin in
  if str_eqb dir [] then ret (UiError 404 #"ui_not_registered")
  else
    let clean := Clean (#"/" ++ rest) in
    if contains clean dotdot then ret (UiError 400 #"bad_path")
    else
      let full := Join [dir; clean] in
      match Rel dir full with
      | None => ret (UiError 400 #"bad_path")
      | Some rel =>
          if has_prefix rel dotdot then ret (UiError 400 #"bad_path")
          else
            let! info := call (Stat full) in
            match info with
            | None => ret (UiError 404 #"not_found")
            | Some IsDir => ret (UiFile (Join [full; #"main.js"]))
            | Some IsFile => ret (UiFile full)
            end
      end.

Definition Serve (u : UIAssets) (plugin rest : gostr) : M W ui_response :=
  let! r := ui_file u plugin rest in
  match r with
  | UiFile full => ServeFile None full
  | err => ret err
  end.
End Serve.
End Package.
