(* ===== verification/PluginPackageCorrect.v ===== *)
(** * Plugin packages: unpacking stays inside, and the previewed manifest

    Unpacking touches nothing outside its directory, whatever names the
    archive has; the manifest an operator consents to is the installed one
    when the archive has a single manifest entry, and need not be otherwise. *)

From S2P Require Import Prelude GoStrings GoPath Regex Effects Plugins PluginPackage.
Import Manifest Package.

(** ** Paths below a directory *)

(** [p] is the absolute directory [d] or below it. *)
Definition inside (d p : gostr) : Prop :=
  exists segs, Forall plain_seg segs /\ p = render true (clean_segs d ++ segs).

(** [p] is [d] or a directory above it. *)
Definition above (d p : gostr) : Prop :=
  exists a b, clean_segs d = a ++ b /\ p = render true a.

Lemma inside_dir d segs : is_rooted d = true -> Forall plain_seg segs ->
  inside d (Dir (render true (clean_segs d ++ segs))) \/ above d (Dir (render true (clean_segs d ++ segs))).
Proof.
  intros Hd Hs. pose proof (clean_segs_plain d Hd) as Hp.
  destruct (decide (segs = [])) as [->|Hne].
  - right. rewrite app_nil_r. destruct (decide (clean_segs d = [])) as [E|Hn].
    + rewrite E, Dir_root. exists [], []. by rewrite E.
    + destruct (exists_last Hn) as (l & x & E). rewrite E in *.
      apply Forall_app in Hp as [Hl Hx]. apply Forall_cons in Hx as [Hx _].
      rewrite Dir_render by done. by exists l, [x].
  - left. destruct (exists_last Hne) as (l & x & ->). apply Forall_app in Hs as [Hl Hx].
    apply Forall_cons in Hx as [Hx _]. rewrite app_assoc, Dir_render by (done || by apply Forall_app).
    by exists l.
Qed.

Lemma rooted_name name : is_rooted (#"/" ++ name) = true.
Proof. apply (is_rooted_cons name). Qed.

Lemma Join_inside d name : is_rooted d = true ->
  Join [d; Clean (#"/" ++ name)] = render true (clean_segs d ++ clean_segs (#"/" ++ name)).
Proof. intros Hd. rewrite Join_below, Hd by (apply rooted_name || by destruct d). done. Qed.

(** The name of an entry relative to the directory. *)
Definition rel_name (name : gostr) : gostr :=
  match clean_segs (#"/" ++ name) with [] => dot | segs => join_with "/"%char segs end.

Lemma Rel_name d name : is_rooted d = true ->
  Rel d (Join [d; Clean (#"/" ++ name)]) = Some (rel_name name).
Proof. intros Hd. apply Rel_below; [done|apply rooted_name]. Qed.

Lemma rel_name_manifest name :
  rel_name name = manifest_yaml <-> clean_segs (#"/" ++ name) = [manifest_yaml].
Proof.
  unfold rel_name. pose proof (clean_segs_plain _ (rooted_name name)) as Hp.
  destruct (clean_segs (#"/" ++ name)) as [|s segs]; [done|]. split; [|by intros ->].
  intros E. rewrite <- (split_join "/"%char (s :: segs)), E by (done || by apply plain_no_sep). done.
Qed.

(** ** Unpacking *)

Section Unpack.
Context {W : Type} `{!Disk W} (untar : gostr -> option archive).

Section Footprint.
Context (R : W -> W -> Prop) `{!Reflexive R, !Transitive R} (d : gostr) (Hd : is_rooted d = true)
  (Hmkdir : forall p w, inside d p \/ above d p -> R w (MkdirAll p w).1)
  (Hwrite : forall p data w, inside d p -> R w (WriteFile p data w).1)
  (Hread : forall p w, inside d p -> R w (ReadFile p w).1).

Lemma extract_file_footprint name rel e st :
  respects R (extract_file (Join [d; Clean (#"/" ++ name)]) rel e st).
Proof.
  pose proof (clean_segs_plain _ (rooted_name name)) as Hp.
  assert (Hin : inside d (Join [d; Clean (#"/" ++ name)])).
  { rewrite Join_inside by done. by exists (clean_segs (#"/" ++ name)). }
  assert (Hpar : inside d (Dir (Join [d; Clean (#"/" ++ name)])) \/ above d (Dir (Join [d; Clean (#"/" ++ name)]))).
  { rewrite Join_inside by done. by apply inside_dir. }
  unfold extract_file. destruct (_ <? _); [auto with eff|].
  apply respects_bind; [done|by apply respects_call; auto|]. intros ok. destruct (negb ok); [auto with eff|].
  apply respects_bind; [done|by apply respects_call; auto|]. intros ok'. destruct (negb ok'); [auto with eff|].
  destruct (_ && _); [auto with eff|]. destruct (str_eqb _ _); [|auto with eff].
  apply respects_bind; [done|by apply respects_call; auto|]. intros [b|]; auto with eff.
Qed.

Lemma extract_entry_footprint e st : respects R (extract_entry d e st).
Proof.
  pose proof (clean_segs_plain _ (rooted_name (eName e))) as Hp.
  unfold extract_entry. destruct (contains _ _); [auto with eff|]. rewrite Rel_name by done.
  destruct (has_prefix _ _); [auto with eff|]. destruct (eType e); [|apply extract_file_footprint|auto with eff].
  unfold extract_dir. apply respects_bind; [done| |].
  - apply respects_call. intros w. apply Hmkdir. left. rewrite Join_inside by done.
    by exists (clean_segs (#"/" ++ eName e)).
  - intros ok. destruct (negb ok); auto with eff.
Qed.

Lemma extract_entries_footprint es st : respects R (extract_entries d es st).
Proof.
  revert st. induction es as [|[e|] es IH]; intros st; simpl; [auto with eff| |auto with eff].
  apply respects_bind; [done|apply extract_entry_footprint|]. intros [st'|err]; [apply IH|auto with eff].
Qed.

Lemma Clean_inside : is_rooted d = true -> above d (Clean d).
Proof. intros H. exists (clean_segs d), []. unfold Clean. rewrite H. by rewrite app_nil_r. Qed.
End Footprint.

(** C33. Unpacking a package never leaves its directory: for every archive,
    every directory and every relation on disk states that creating
    directories on the way to it or inside it, and writing and reading
    files inside it, respect, unpacking respects the relation - whatever
    "..", absolute or empty names the entries have, and whether or not it
    succeeds. *)
Theorem ExtractTarball_stays_inside (R : W -> W -> Prop) tarball d
    (Hrefl : Reflexive R) (Htrans : Transitive R) (Hd : is_rooted d = true)
    (Hmk0 : forall w, R w (MkdirAll d w).1)
    (Hmkdir : forall p w, inside d p \/ above d p -> R w (MkdirAll p w).1)
    (Hwrite : forall p data w, inside d p -> R w (WriteFile p data w).1)
    (Hread : forall p w, inside d p -> R w (ReadFile p w).1) :
  respects R (ExtractTarball untar tarball d).
Proof.
  unfold ExtractTarball. apply respects_bind; [done|by apply respects_call|].
  intros ok. destruct (negb ok); [auto with eff|]. destruct (untar tarball) as [es|]; [|auto with eff].
  apply respects_bind; [done|by apply extract_entries_footprint|].
  intros [st|err]; [|auto with eff]. destruct (manifestBytes st); auto with eff.
Qed.
End Unpack.

(** ** The previewed and the installed manifest *)

(** Entries as a tar reader gives them: no more bytes than the header
    says, and fewer when reading fails. *)
Definition entry_ok (e : tar_entry) : Prop :=
  0 <= eSize e /\ Z.of_nat (length (eData e)) <= eSize e /\
  (eReadErr e = true -> Z.of_nat (length (eData e)) < eSize e).

(** Unpacking takes the entry for the manifest. *)
Definition is_manifest (e : tar_entry) : Prop :=
  eType e = TypeReg /\ clean_segs (#"/" ++ eName e) = [manifest_yaml].

Definition no_manifest (es : archive) : Prop := forall e, Some e ∈ es -> ~ is_manifest e.

Definition entries_ok (es : archive) : Prop := forall e, Some e ∈ es -> entry_ok e.

Lemma is_manifest_name_segs name : is_manifest_name name = true ->
  clean_segs (#"/" ++ name) = [manifest_yaml].
Proof. unfold is_manifest_name. intros H. gobool in H. by destruct H as [-> | ->]; vm_compute. Qed.

Lemma read_manifest_skip pre es : no_manifest pre -> None ∉ pre ->
  read_manifest (pre ++ es) = read_manifest es.
Proof.
  induction pre as [|[e|] pre IH]; intros Hno Hnone; [done| |set_solver].
  simpl. assert (read_manifest (pre ++ es) = read_manifest es) as ->.
  { apply IH; [|set_solver]. intros x Hx. apply Hno. set_solver. }
  destruct (bool_decide (eType e = TypeReg)) eqn:Et; cbn [negb]; [|done].
  destruct (is_manifest_name (eName e)) eqn:En; [|done]. exfalso.
  apply (Hno e); [set_solver|]. split; [by apply bool_decide_eq_true in Et|by apply is_manifest_name_segs].
Qed.

Section Preview.
Context {W : Type} `{!Disk W} (untar : gostr -> option archive) (d : gostr) (Hd : is_rooted d = true)
  (read_back : forall p data w w' w'' b,
     WriteFile p data w = (w', true) -> ReadFile p w' = (w'', Some b) -> b = data).

Definition budget_ok (st : extract_state) : Prop := 0 <= remaining st.

Lemma extract_entry_inv e st w w' st' : budget_ok st -> entry_ok e ->
  extract_entry d e st w = (w', Some (Ok st')) ->
  budget_ok st' /\
  (~ is_manifest e -> manifestBytes st' = manifestBytes st) /\
  (is_manifest e -> manifestBytes st' = Some (eData e) /\ eReadErr e = false).
Proof.
  intros Hb (Hs0 & Hlen & Hre). unfold extract_entry, is_manifest.
  destruct (contains _ _); [done|]. rewrite Rel_name by done.
  destruct (has_prefix _ _); [done|]. destruct (eType e); [| |by intros [= <- <-]; naive_solver].
  { unfold extract_dir, bind, call. destruct (MkdirAll _ w) as [w1 ok]. destruct (negb ok); [done|].
    intros [= <- <-]. simpl. naive_solver. }
  unfold extract_file. destruct (remaining st <? eSize e) eqn:Er; [done|]. unfold bind, call.
  destruct (MkdirAll _ w) as [w1 ok]. destruct (negb ok); [done|].
  rewrite limit_id by (unfold budget_ok in *; lia).
  destruct (WriteFile _ (eData e) w1) as [w2 ok2] eqn:Ew. destruct ok2; cbn [negb]; [|done].
  destruct (eReadErr e && _) eqn:Ee; [done|].
  assert (eReadErr e = false) as Hne.
  { destruct (eReadErr e); [|done]. simpl in Ee. specialize (Hre eq_refl). lia. }
  case_str (rel_name (eName e)) manifest_yaml as En.
  - apply rel_name_manifest in En. destruct (ReadFile _ w2) as [w3 [b|]] eqn:Erd; [|done].
    intros [= <- <-]. apply (read_back _ _ _ _ _ _ Ew) in Erd as ->. simpl.
    unfold budget_ok in *. simpl. split; [lia|]. naive_solver.
  - intros [= <- <-]. unfold budget_ok in *. simpl. split; [lia|].
    split; [done|]. by intros [_ Hm%rel_name_manifest].
Qed.

Lemma extract_entries_none es st w w' st' : budget_ok st -> entries_ok es -> no_manifest es ->
  extract_entries d es st w = (w', Some (Ok st')) ->
  budget_ok st' /\ manifestBytes st' = manifestBytes st /\ None ∉ es.
Proof.
  revert st w. induction es as [|[e|] es IH]; intros st w Hb Hok Hno; simpl; [|unfold bind|done].
  { intros [= <- <-]. set_solver. }
  destruct (extract_entry d e st w) as [w1 [[st1|]|]] eqn:E1; [|done..]. intros E2.
  apply extract_entry_inv in E1 as (Hb1 & Hm1 & _); [|done|apply Hok; set_solver].
  apply IH in E2 as (Hb2 & Hm2 & Hn); [|done| |].
  - split_and!; [done| |set_solver]. rewrite Hm2. apply Hm1, Hno. set_solver.
  - intros x Hx. apply Hok. set_solver.
  - intros x Hx. apply Hno. set_solver.
Qed.

Lemma extract_entries_app es es' st w : 
  extract_entries d (es ++ es') st w =
  bind (extract_entries d es st)
    (fun r => match r with Ok st1 => extract_entries d es' st1 | Err e => ret (Err e) end) w.
Proof.
  revert st w. induction es as [|[e|] es IH]; intros st w; [done| |done].
  simpl. unfold bind at 1 2 3. destruct (extract_entry d e st w) as [w1 [[st1|]|]]; [|done..].
  by rewrite IH.
Qed.

(** The operator consents to what is installed, as long as the package
    has one manifest: when a single entry of the archive unpacks to
    manifest.yaml, it has one of the two plain names and is at most a
    megabyte, then the manifest of a successful unpacking is the one the
    preview shows. *)
Theorem preview_matches_install tarball pre e post w w' mb ui
    (Har : untar tarball = Some (pre ++ Some e :: post))
    (Hok : entries_ok (pre ++ Some e :: post))
    (Hpre : no_manifest pre) (Hpost : no_manifest post)
    (Hty : eType e = TypeReg) (Hname : is_manifest_name (eName e) = true)
    (Hcap : Z.of_nat (length (eData e)) <= manifestCap)
    (Hrun : ExtractTarball untar tarball d w = (w', Some (Ok (mb, ui)))) :
  readManifestFromTarball untar tarball = Ok mb.
Proof.
  unfold ExtractTarball, bind, call in Hrun. destruct (MkdirAll d w) as [w1 ok].
  destruct (negb ok); [done|]. rewrite Har in Hrun.
  rewrite extract_entries_app in Hrun. unfold bind in Hrun.
  destruct (extract_entries d pre _ w1) as [w2 [[st1|]|]] eqn:E1; [|done..].
  apply extract_entries_none in E1 as (Hb1 & Hm1 & Hn1); [|unfold budget_ok; simpl; unfold maxExtractBytes; lia| |done].
  2:{ intros x Hx. apply Hok. set_solver. }
  simpl in Hrun. unfold bind in Hrun.
  destruct (extract_entry d e st1 w2) as [w3 [[st2|]|]] eqn:E2; [|done..].
  apply extract_entry_inv in E2 as (Hb2 & _ & Hm2); [|done|apply Hok; set_solver].
  destruct Hm2 as [Hm2 Hre]; [split; [done|by apply is_manifest_name_segs]|].
  destruct (extract_entries d post st2 w3) as [w4 [[st3|]|]] eqn:E3; [|done..].
  apply extract_entries_none in E3 as (_ & Hm3 & _); [|done| |done].
  2:{ intros x Hx. apply Hok. set_solver. }
  rewrite Hm3, Hm2 in Hrun. injection Hrun as <- <- _.
  unfold readManifestFromTarball. rewrite Har, read_manifest_skip by done. simpl.
  rewrite Hty, Hname. rewrite bool_decide_eq_true_2 by done. cbn [negb]. unfold read_capped.
  rewrite limit_id, Hre by lia. cbn [andb]. by replace (manifestCap <? _) with false by lia.
Qed.
End Preview.

(** ** A disk in memory *)

Module MemDisk.

Abbreviation files := (gmap gostr gostr).

Definition below (d p : gostr) : bool := str_eqb p d || has_prefix p (d ++ #"/").

#[global] Instance disk : Disk files := {|
  MkdirAll := fun _ w => (w, true);
  WriteFile := fun p data w => (<[p := data]> w, true);
  ReadFile := fun p w => (w, w !! p);
  RemoveAll := fun p w => (filter (fun kv => below p kv.1 = false) w, true);
  Stat := fun p w => (w, match w !! p with Some _ => Some IsFile | None => None end) |}.

Lemma read_back p data w w' w'' b : WriteFile (W := files) p data w = (w', true) ->
  ReadFile p w' = (w'', Some b) -> b = data.
Proof.
  intros [= <-] H. change (ReadFile p (<[p:=data]> w)) with (<[p:=data]> w, <[p:=data]> w !! p) in H.
  rewrite lookup_insert_eq in H. by simplify_eq.
Qed.

(** Files that are not the directory or below it. *)
Definition same_outside (d : gostr) (w w' : files) : Prop :=
  forall p, ~ inside d p -> w' !! p = w !! p.

#[global] Instance same_outside_refl d : Reflexive (same_outside d).
Proof. by intros w p. Qed.
#[global] Instance same_outside_trans d : Transitive (same_outside d).
Proof. intros w1 w2 w3 H1 H2 p Hp. by rewrite H2, H1. Qed.

Definition reg (name data : gostr) : tar_entry :=
  mkEntry name TypeReg (Z.of_nat (length data)) data false.

(** An archive of regular files, as it is. *)
Definition plain_tar (es : list tar_entry) : gostr -> option archive := fun _ => Some (map Some es).

Definition sample : list tar_entry :=
  [reg #"../../etc/passwd" #"x"; reg #"ui/main.js" #"js"; reg #"manifest.yaml" #"m"].
Definition root : gostr := #"/var/lib/nova-nas/plugins/rustfs".
Definition before : files := {[ #"/etc/passwd" := #"root" ]}.
End MemDisk.

(** The consent dialog can show another manifest than the one that is
    installed: of two entries "manifest.yaml" and "./manifest.yaml" the
    preview reads the first and unpacking keeps the last, for any two
    manifests and on a disk that works. *)
Theorem preview_can_differ (d m1 m2 : gostr) (w : MemDisk.files) (Hd : is_rooted d = true)
    (H1 : Z.of_nat (length m1) <= manifestCap) (H2 : Z.of_nat (length m2) <= manifestCap) :
  let untar := MemDisk.plain_tar [MemDisk.reg manifest_yaml m1; MemDisk.reg #"./manifest.yaml" m2] in
  readManifestFromTarball untar [] = Ok m1 /\
  exists w', ExtractTarball untar [] d w = (w', Some (Ok (m2, []))).
Proof.
  intros untar. assert (Hsize : forall m : gostr, Z.of_nat (length m) <= manifestCap ->
    Z.of_nat (length m) <= maxExtractBytes) by (unfold manifestCap, maxExtractBytes; lia).
  split.
  - change (readManifestFromTarball untar []) with (read_capped (MemDisk.reg manifest_yaml m1)).
    unfold read_capped. cbn [eData eReadErr MemDisk.reg andb]. rewrite limit_id by lia.
    by replace (manifestCap <? Z.of_nat (length m1)) with false by lia.
  - assert (Hstep : forall name m st w0, rel_name name = manifest_yaml ->
      contains (Clean (#"/" ++ name)) dotdot = false ->
      Z.of_nat (length m) <= remaining st -> 
      exists w1, extract_entry d (MemDisk.reg name m) st w0 =
        (w1, Some (Ok (mkExtract (remaining st - Z.of_nat (length m)) (Some m) (hasUI st))))).
    { intros name m st w0 Hrel Hc Hle. unfold extract_entry. cbn [eName MemDisk.reg eType]. rewrite Hc, Rel_name, Hrel by done.
      simpl. unfold extract_file. cbn [eSize eData eReadErr MemDisk.reg].
      replace (remaining st <? _) with false by lia. unfold bind, call. simpl.
      rewrite lookup_insert_eq, limit_id, orb_false_r by lia. eauto. }
    unfold ExtractTarball. cbv zeta. unfold bind at 1, call at 1. simpl MkdirAll. cbn [negb].
    change (untar []) with (Some [Some (MemDisk.reg manifest_yaml m1); Some (MemDisk.reg #"./manifest.yaml" m2)]).
    destruct (Hstep manifest_yaml m1 (mkExtract maxExtractBytes None false) w) as [w1 E1]; [done..|by apply Hsize|].
    destruct (Hstep #"./manifest.yaml" m2 (mkExtract (maxExtractBytes - Z.of_nat (length m1)) (Some m1) false) w1)
      as [w2 E2]; [done..|unfold manifestCap, maxExtractBytes in *; simpl; lia|].
    exists w2. cbn [extract_entries]. unfold bind. rewrite E1. cbn [remaining hasUI]. rewrite E2. done.
Qed.

Lemma ExtractTarball_stays_inside_witness :
  MemDisk.same_outside MemDisk.root MemDisk.before
    (ExtractTarball (MemDisk.plain_tar MemDisk.sample) [] MemDisk.root MemDisk.before).1.
Proof.
  apply (ExtractTarball_stays_inside (MemDisk.plain_tar MemDisk.sample)
    (MemDisk.same_outside MemDisk.root) [] MemDisk.root).
  - apply _.
  - apply _.
  - vm_compute; reflexivity.
  - intros w p _. reflexivity.
  - intros q w _ p _. reflexivity.
  - intros q data w Hq p Hp. simpl. rewrite lookup_insert_ne; [reflexivity|].
    intros E. apply Hp. rewrite <- E. exact Hq.
  - intros q w _ p _. reflexivity.
Defined.

Lemma preview_matches_install_witness :
  readManifestFromTarball (MemDisk.plain_tar MemDisk.sample) [] = Ok #"m".
Proof.
  apply (preview_matches_install (W := MemDisk.files) (MemDisk.plain_tar MemDisk.sample) MemDisk.root
    ltac:(vm_compute; reflexivity) MemDisk.read_back []
    [Some (MemDisk.reg #"../../etc/passwd" #"x"); Some (MemDisk.reg #"ui/main.js" #"js")]
    (MemDisk.reg #"manifest.yaml" #"m") [] ∅
    (ExtractTarball (MemDisk.plain_tar MemDisk.sample) [] MemDisk.root ∅).1 #"m"
    (Join [MemDisk.root; #"ui"])).
  - reflexivity.
  - intros e He. unfold entry_ok. set_unfold in He. naive_solver (simpl; lia).
  - intros e He [_ Hs]. set_unfold in He. destruct He as [[= ->]|[[= ->]|[]]]; vm_compute in Hs; discriminate Hs.
  - intros e He. set_solver.
  - reflexivity.
  - vm_compute; reflexivity.
  - vm_compute; discriminate.
  - vm_compute; reflexivity.
Defined.

Lemma preview_can_differ_witness :
  exists w', ExtractTarball (MemDisk.plain_tar [MemDisk.reg manifest_yaml #"harmless";
    MemDisk.reg #"./manifest.yaml" #"greedy"]) [] MemDisk.root ∅ = (w', Some (Ok (#"greedy", []))).
Proof.
  refine (proj2 (preview_can_differ MemDisk.root #"harmless" #"greedy" ∅ _ _ _)).
  - vm_compute; reflexivity.
  - vm_compute; discriminate.
  - vm_compute; discriminate.
Defined.
