(* ===== verification/PluginNeeds.v ===== *)
(** * internal/plugins: provisioning what a manifest needs

    needs.go and the four provisioners with their composition
    (provisioner_dataset.go, provisioner_oidc.go, provisioner_tls.go,
    provisioner_permission.go, provisioner_production.go).  The ZFS dataset
    manager, Keycloak's admin API, the secret store, the certificate issuer
    and the JSON codecs are interfaces. *)

From S2P Require Import Prelude GoStrings GoPath Regex Effects Plugins PluginPackage.
Import Manifest Package.

Module NeedsM.

Inductive perr :=
| NotConfigured (kind : gostr) | FieldRequired | UnknownKind (i : nat) (kind : gostr)
| BadResourceID (id : gostr)
| DatasetProbe | DatasetCreate | DatasetDestroy
| KeycloakErr | KeycloakStatus (status : Z) | KeycloakDecode | LookupPostCreate
| RoleNotFound (role : gostr) | NoClient (clientID : gostr) | EmptyUser
| SecretErr | CertErr.

(** ** The interface of the lifecycle manager to the provisioners *)

Class NeedsProvisioner (W : Type) := {
  ProvisionDataset : gostr -> DatasetNeed -> M W (res perr gostr);
  UnprovisionDataset : gostr -> gostr -> M W (option perr);
  ProvisionOIDCClient : gostr -> OIDCClientNeed -> M W (res perr gostr);
  UnprovisionOIDCClient : gostr -> gostr -> M W (option perr);
  ProvisionTLSCert : gostr -> TLSCertNeed -> M W (res perr gostr);
  UnprovisionTLSCert : gostr -> gostr -> M W (option perr);
  ProvisionPermission : gostr -> PermissionNeed -> M W (res perr gostr);
  UnprovisionPermission : gostr -> gostr -> M W (option perr)
}.

Record provisionedResource := mkResource { resKind : gostr; resID : gostr }.

Section RunNeeds.
Context {W : Type} `{!NeedsProvisioner W}.

(** One need; the kind's field is dereferenced, which panics when nil. *)
Definition provision (plugin : gostr) (i : nat) (n : Need) : M W (res perr gostr) :=
  if str_eqb (nKind n) NeedDataset then
    match nDataset n with Some d => ProvisionDataset plugin d | None => panic end
  else if str_eqb (nKind n) NeedOIDCClient then
    match nOIDCClient n with Some o => ProvisionOIDCClient plugin o | None => panic end
  else if str_eqb (nKind n) NeedTLSCert then
    match nTLSCert n with Some t => ProvisionTLSCert plugin t | None => panic end
  else if str_eqb (nKind n) NeedPermission then
    match nPermission n with Some p => ProvisionPermission plugin p | None => panic end
  else ret (Err (UnknownKind i (nKind n))).

Definition unprovision (plugin : gostr) (r : provisionedResource) : M W (option perr) :=
  if str_eqb (resKind r) NeedDataset then UnprovisionDataset plugin (resID r)
  else if str_eqb (resKind r) NeedOIDCClient then UnprovisionOIDCClient plugin (resID r)
  else if str_eqb (resKind r) NeedTLSCert then UnprovisionTLSCert plugin (resID r)
  else if str_eqb (resKind r) NeedPermission then UnprovisionPermission plugin (resID r)
  else ret None.

(** The loop of rollbackNeeds, over the resources last first. *)
Fixpoint unwind (plugin : gostr) (rs : list provisionedResource) : M W (list perr) :=
  match rs with
  | [] => ret []
  | r :: rs' =>
      let! e := unprovision plugin r in
      let! es := unwind plugin rs' in
      ret (match e with Some err => err :: es | None => es end)
  end.

(** The errors joined; none is success. *)
Definition rollbackNeeds (plugin : gostr) (done_ : list provisionedResource) : M W (list perr) :=
  unwind plugin (rev done_).

Fixpoint run_needs (plugin : gostr) (i : nat) (needs : list Need) (done_ : list provisionedResource)
  : M W (list provisionedResource * option (perr * list perr)) :=
  match needs with
  | [] => ret (done_, None)
  | n :: needs' =>
      let! r := provision plugin i n in
      match r with
      | Err e =>
          let! rb := rollbackNeeds plugin done_ in
          ret (done_, Some (e, rb))
      | Ok id => run_needs plugin (S i) needs' (done_ ++ [mkResource (nKind n) id])
      end
  end.

(** What was created, and the first error with those of the rollback. *)
Definition runNeeds (plugin : gostr) (needs : list Need)
  : M W (list provisionedResource * option (perr * list perr)) :=
  run_needs plugin 0 needs [].
End RunNeeds.

(** ** Resource identifiers: "<kind>:<plugin>/<rest>" *)

Definition resource_id (prefix plugin rest : gostr) : gostr := prefix ++ #":" ++ plugin ++ #"/" ++ rest.

Definition parse_resource_id (prefix id : gostr) : option (gostr * gostr) :=
  if negb (has_prefix id (prefix ++ #":")) then None
  else cut_at "/"%char (trim_prefix id (prefix ++ #":")).

Definition datasetResourceID : gostr -> gostr -> gostr := resource_id #"dataset".
Definition parseDatasetResourceID : gostr -> option (gostr * gostr) := parse_resource_id #"dataset".
Definition oidcResourceID : gostr -> gostr -> gostr := resource_id #"oidcclient".
Definition parseOIDCResourceID : gostr -> option (gostr * gostr) := parse_resource_id #"oidcclient".
Definition tlsResourceID : gostr -> gostr -> gostr := resource_id #"tlscert".
Definition parseTLSResourceID : gostr -> option (gostr * gostr) := parse_resource_id #"tlscert".
Definition permissionResourceID : gostr -> gostr -> gostr := resource_id #"permission".
Definition parsePermissionResourceID : gostr -> option (gostr * gostr) :=
  parse_resource_id #"permission".

(** ** provisioner_dataset.go *)

Inductive ds_err := DsNotFound | DsOther.

Record DsSpec := mkDsSpec {
  dsParent : gostr; dsName : gostr; dsType : gostr; dsProperties : list (gostr * gostr) }.

Class DatasetClient (W : Type) := {
  ds_Get : gostr -> W -> W * option ds_err;
  ds_Create : DsSpec -> W -> W * option ds_err;
  ds_Destroy : gostr -> bool -> W -> W * option ds_err
}.

Section Datasets.
Context {W : Type} `{!DatasetClient W}.

Definition dataset_Provision (plugin : gostr) (n : DatasetNeed) : M W (res perr gostr) :=
  if str_eqb (dnPool n) [] || str_eqb (dnName n) [] then ret (Err FieldRequired)
  else
    let full := dnPool n ++ #"/" ++ dnName n in
    let! e := call (ds_Get full) in
    match e with
    | None => ret (Ok (datasetResourceID plugin full))
    | Some DsOther => ret (Err DatasetProbe)
    | Some DsNotFound =>
        let! e := call (ds_Create (mkDsSpec (dnPool n) (dnName n) #"filesystem" (dnProperties n))) in
        match e with
        | Some _ => ret (Err DatasetCreate)
        | None => ret (Ok (datasetResourceID plugin full))
        end
    end.

Definition dataset_Unprovision (plugin resourceID : gostr) : M W (option perr) :=
  match parseDatasetResourceID resourceID with
  | None => ret (Some (BadResourceID resourceID))
  | Some (_, full) =>
      let! e := call (ds_Get full) in
      match e with
      | Some DsNotFound => ret None
      | _ =>
          let! e := call (ds_Destroy full false) in
          ret (match e with Some _ => Some DatasetDestroy | None => None end)
      end
  end.
End Datasets.

(** ** Keycloak's admin API *)

Inductive Method := GET | HEAD | POST | DELETE.

Record kcProtocolMapper := mkMapper {
  pmName : gostr; pmProtocol : gostr; pmMapper : gostr; pmConfig : list (gostr * gostr) }.

Record kcClient := mkClient {
  kcID : gostr; kcClientID : gostr; kcEnabled : bool; kcPublic : bool; kcServiceAccounts : bool;
  kcStandardFlow : bool; kcDirectAccess : bool; kcRedirects : list gostr;
  kcOrigins : list gostr; kcMappers : list kcProtocolMapper }.

Record kcRole := mkRole {
  rlID : gostr; rlName : gostr; rlContainer : gostr; rlClientRole : bool; rlComposite : bool }.

(** Requests with a body, the JSON codecs, and the secret store ([None]
    from [secrets_enabled] is a nil manager). *)
Class Keycloak (W : Type) := {
  admin_Do : Method -> gostr -> list (gostr * gostr) -> option gostr -> W -> W * option (Z * gostr);
  enc_client : kcClient -> gostr;
  enc_roles : list kcRole -> gostr;
  dec_clients : gostr -> option (list kcClient);
  dec_secret : gostr -> option gostr;
  dec_role : gostr -> option kcRole;
  dec_roles : gostr -> option (list kcRole);
  dec_user : gostr -> option gostr;
  secrets_enabled : bool;
  secrets_Set : gostr -> gostr -> W -> W * bool;
  secrets_Delete : gostr -> W -> W * bool
}.

(** url.PathEscape: one path segment. *)
Definition unescaped (c : ascii) : bool :=
  is_lower c || is_upper c || is_digit c || existsb (ch_eqb c) #"-_.~$&+=:@".

Definition hex_digit (n : Z) : ascii := byte_of (if n <? 10 then 48 + n else 55 + n).

Definition PathEscape (s : gostr) : gostr :=
  concat (map (fun c => if unescaped c then [c]
                        else ["%"%char; hex_digit (byte_val c / 16); hex_digit (byte_val c mod 16)]) s).

Definition ok2xx (status : Z) : bool := status / 100 =? 2.

Definition oidcSecretPath (plugin : gostr) : gostr :=
  #"nova/plugins/" ++ plugin ++ #"/oidc-client-secret".

Section KeycloakOps.
Context {W : Type} `{!Keycloak W}.

(** A request whose answer must be 2xx. *)
Definition must_do (m : Method) (path : gostr) (q : list (gostr * gostr)) (body : option gostr)
  : M W (res perr gostr) :=
  let! r := call (admin_Do m path q body) in
  match r with
  | None => ret (Err KeycloakErr)
  | Some (status, b) => if ok2xx status then ret (Ok b) else ret (Err (KeycloakStatus status))
  end.

Definition client_uuid (cs : list kcClient) (clientID : gostr) : gostr :=
  match find (fun c => str_eqb (kcClientID c) clientID) cs with Some c => kcID c | None => [] end.

(** The empty string when there is no such client. *)
Definition findClientUUID (clientID : gostr) : M W (res perr gostr) :=
  let! r := must_do GET #"/clients" [(#"clientId", clientID)] None in
  match r with
  | Err e => ret (Err e)
  | Ok b =>
      match dec_clients b with
      | None => ret (Err KeycloakDecode)
      | Some cs => ret (Ok (client_uuid cs clientID))
      end
  end.

Definition client_rep (n : OIDCClientNeed) : kcClient :=
  mkClient [] (ocClientID n) true (ocPublic n) (negb (ocPublic n)) true false (ocRedirects n) []
    [mkMapper (#"audience-" ++ ocClientID n) #"openid-connect" #"oidc-audience-mapper"
       [(#"included.client.audience", ocClientID n); (#"id.token.claim", #"false");
        (#"access.token.claim", #"true")]].

Definition ensure_client (n : OIDCClientNeed) (uuid : gostr) : M W (res perr gostr) :=
  if str_eqb uuid [] then
    let! r := must_do POST #"/clients" [] (Some (enc_client (client_rep n))) in
    match r with
    | Err e => ret (Err e)
    | Ok _ =>
        let! u := findClientUUID (ocClientID n) in
        match u with
        | Ok u => if str_eqb u [] then ret (Err LookupPostCreate) else ret (Ok u)
        | Err _ => ret (Err LookupPostCreate)
        end
    end
  else ret (Ok uuid).

Definition rotate_secret (plugin uuid : gostr) : M W (option perr) :=
  let path := #"/clients/" ++ PathEscape uuid ++ #"/client-secret" in
  let! r := must_do POST path [] None in
  match r with
  | Err e => ret (Some e)
  | Ok _ =>
      let! g := must_do GET path [] None in
      match g with
      | Err e => ret (Some e)
      | Ok b =>
          match dec_secret b with
          | None => ret (Some KeycloakDecode)
          | Some sec =>
              if secrets_enabled && negb (str_eqb sec []) then
                let! ok := call (secrets_Set (oidcSecretPath plugin) sec) in
                ret (if (ok : bool) then None else Some SecretErr)
              else ret None
          end
      end
  end.

Definition oidc_Provision (plugin : gostr) (n : OIDCClientNeed) : M W (res perr gostr) :=
  if str_eqb (ocClientID n) [] then ret (Err FieldRequired)
  else
    let! u := findClientUUID (ocClientID n) in
    match u with
    | Err e => ret (Err e)
    | Ok u =>
        let! u := ensure_client n u in
        match u with
        | Err e => ret (Err e)
        | Ok uuid =>
            let! e := (if negb (ocPublic n) then rotate_secret plugin uuid else ret None) in
            match e with
            | Some e => ret (Err e)
            | None => ret (Ok (oidcResourceID plugin (ocClientID n)))
            end
        end
    end.

(** Not found counts as deleted. *)
Definition delete_or_gone (path : gostr) (body : option gostr) : M W (option perr) :=
  let! r := call (admin_Do DELETE path [] body) in
  ret (match r with
       | None => Some KeycloakErr
       | Some (status, _) =>
           if negb (ok2xx status) && negb (status =? 404) then Some (KeycloakStatus status) else None
       end).

Definition oidc_Unprovision (plugin resourceID : gostr) : M W (option perr) :=
  match parseOIDCResourceID resourceID with
  | None => ret (Some (BadResourceID resourceID))
  | Some (_, clientID) =>
      let! u := findClientUUID clientID in
      match u with
      | Err e => ret (Some e)
      | Ok uuid =>
          let! e := (if str_eqb uuid [] then ret None
                     else delete_or_gone (#"/clients/" ++ PathEscape uuid) None) in
          match e with
          | Some e => ret (Some e)
          | None =>
              if secrets_enabled then
                let! _ := call (secrets_Delete (oidcSecretPath plugin)) in ret None
              else ret None
          end
      end
  end.

(** ** provisioner_permission.go *)

(** [None] when the realm has no such role. *)
Definition findRealmRole (name : gostr) : M W (res perr (option kcRole)) :=
  let! r := call (admin_Do GET (#"/roles/" ++ PathEscape name) [] None) in
  match r with
  | None => ret (Err KeycloakErr)
  | Some (status, b) =>
      if status =? 404 then ret (Ok None)
      else if negb (ok2xx status) then ret (Err (KeycloakStatus status))
      else match dec_role b with
           | None => ret (Err KeycloakDecode)
           | Some role => ret (Ok (Some role))
           end
  end.

Definition serviceAccountUserID (clientID : gostr) : M W (res perr gostr) :=
  let! u := findClientUUID clientID in
  match u with
  | Err e => ret (Err e)
  | Ok uuid =>
      if str_eqb uuid [] then ret (Err (NoClient clientID))
      else
        let! r := must_do GET (#"/clients/" ++ PathEscape uuid ++ #"/service-account-user") [] None in
        match r with
        | Err e => ret (Err e)
        | Ok b =>
            match dec_user b with
            | None => ret (Err KeycloakDecode)
            | Some id => if str_eqb id [] then ret (Err EmptyUser) else ret (Ok id)
            end
        end
  end.

Definition role_mappings (userID : gostr) : gostr :=
  #"/users/" ++ PathEscape userID ++ #"/role-mappings/realm".

Definition userHasRealmRole (userID role : gostr) : M W (res perr bool) :=
  let! r := must_do GET (role_mappings userID) [] None in
  match r with
  | Err e => ret (Err e)
  | Ok b =>
      match dec_roles b with
      | None => ret (Err KeycloakDecode)
      | Some rs => ret (Ok (existsb (fun x => str_eqb (rlName x) role) rs))
      end
  end.

(** [clientIDFor]: the client id remembered for the plugin, or its name. *)
Definition perm_Provision (clientIDFor : gostr -> gostr) (plugin : gostr) (n : PermissionNeed)
  : M W (res perr gostr) :=
  if str_eqb (pnRole n) [] then ret (Err FieldRequired)
  else
    let! role := findRealmRole (pnRole n) in
    match role with
    | Err e => ret (Err e)
    | Ok None => ret (Err (RoleNotFound (pnRole n)))
    | Ok (Some role) =>
        let! u := serviceAccountUserID (clientIDFor plugin) in
        match u with
        | Err e => ret (Err e)
        | Ok userID =>
            let! has := userHasRealmRole userID (rlName role) in
            match has with
            | Err e => ret (Err e)
            | Ok true => ret (Ok (permissionResourceID plugin (pnRole n)))
            | Ok false =>
                let! r := must_do POST (role_mappings userID) [] (Some (enc_roles [role])) in
                match r with
                | Err e => ret (Err e)
                | Ok _ => ret (Ok (permissionResourceID plugin (pnRole n)))
                end
            end
        end
    end.

Definition perm_Unprovision (clientIDFor : gostr -> gostr) (plugin resourceID : gostr)
  : M W (option perr) :=
  match parsePermissionResourceID resourceID with
  | None => ret (Some (BadResourceID resourceID))
  | Some (_, role) =>
      let! r := findRealmRole role in
      match r with
      | Ok (Some roleRep) =>
          let! u := serviceAccountUserID (clientIDFor plugin) in
          match u with
          | Err _ => ret None
          | Ok userID => delete_or_gone (role_mappings userID) (Some (enc_roles [roleRep]))
          end
      | _ => ret None
      end
  end.
End KeycloakOps.

(** ** provisioner_tls.go *)

Class CertIssuer (W : Type) := {
  Issue : TLSCertNeed -> W -> W * option (gostr * gostr);
  RemoveFile : gostr -> W -> W * bool
}.

Section Certs.
Context {W : Type} `{!Disk W, !CertIssuer W} (pluginsRoot : gostr).

Definition certDir (plugin : gostr) : gostr :=
  Join [if str_eqb pluginsRoot [] then DefaultPluginsRoot else pluginsRoot; plugin; #"certs"].

Definition certPath (plugin : gostr) : gostr := Join [certDir plugin; #"cert.pem"].
Definition keyPath (plugin : gostr) : gostr := Join [certDir plugin; #"key.pem"].

Definition both_exist (plugin : gostr) : M W bool :=
  let! c := call (Stat (certPath plugin)) in
  match c with
  | None => ret false
  | Some _ => let! k := call (Stat (keyPath plugin)) in ret (if k then true else false)
  end.

Definition tls_Provision (plugin : gostr) (n : TLSCertNeed) : M W (res perr gostr) :=
  if str_eqb (tcCommonName n) [] then ret (Err FieldRequired)
  else
    let! have := both_exist plugin in
    if (have : bool) then ret (Ok (tlsResourceID plugin (tcCommonName n)))
    else
      let! ok := call (MkdirAll (certDir plugin)) in
      if negb ok then ret (Err CertErr)
      else
        let! out := call (Issue n) in
        match out with
        | None => ret (Err CertErr)
        | Some (certPEM, keyPEM) =>
            let! ok := call (WriteFile (certPath plugin) certPEM) in
            if negb ok then ret (Err CertErr)
            else
              let! ok := call (WriteFile (keyPath plugin) keyPEM) in
              if negb ok then ret (Err CertErr)
              else ret (Ok (tlsResourceID plugin (tcCommonName n)))
        end.

(** A readable file is overwritten with zeros before it is removed. *)
Definition shred (path : gostr) : M W unit :=
  let! data := call (ReadFile path) in
  let! _ := (match data with
             | Some d => let! _ := call (WriteFile path (map (fun _ => byte_of 0) d)) in ret tt
             | None => ret tt
             end) in
  let! _ := call (RemoveFile path) in
  ret tt.

Definition tls_Unprovision (plugin resourceID : gostr) : M W (option perr) :=
  match parseTLSResourceID resourceID with
  | None => ret (Some (BadResourceID resourceID))
  | Some (rPlugin, _) =>
      if negb (str_eqb rPlugin plugin) then ret (Some (BadResourceID resourceID))
      else let! _ := each shred [certPath plugin; keyPath plugin] in ret None
  end.
End Certs.

(** ** provisioner_production.go

    Which sub-provisioners are wired, and the client id last provisioned
    for each plugin. *)

Record PStt (W : Type) := mkPStt { clientIDs : gmap gostr gostr; outside : W }.
Arguments mkPStt {W} _ _.
Arguments clientIDs {W} _.
Arguments outside {W} _.

Record Production := mkProduction {
  hasDataset : bool; hasOIDC : bool; hasTLS : bool; hasPermission : bool; ppRoot : gostr }.

Section ProductionProvisioner.
Context {W : Type} `{!DatasetClient W, !Keycloak W, !Disk W, !CertIssuer W} (pp : Production).

(** Run on the outside world. *)
Definition out {A} (m : M W A) : M (PStt W) A :=
  fun s => let '(w, r) := m (outside s) in (mkPStt (clientIDs s) w, r).

Definition rememberClientID (plugin clientID : gostr) : M (PStt W) unit :=
  fun s => (mkPStt (<[plugin := clientID]> (clientIDs s)) (outside s), Some tt).

(** clientIDFor over lookupClientID. *)
Definition client_id_for (ids : gmap gostr gostr) (plugin : gostr) : gostr :=
  let v := default [] (ids !! plugin) in if str_eqb v [] then plugin else v.

Definition get_client_ids : M (PStt W) (gmap gostr gostr) := fun s => (s, Some (clientIDs s)).

Definition wired {A} (has : bool) (kind : gostr) (m : M (PStt W) (res perr A)) : M (PStt W) (res perr A) :=
  if has then m else ret (Err (NotConfigured kind)).
Definition wired_un (has : bool) (kind : gostr) (m : M (PStt W) (option perr)) : M (PStt W) (option perr) :=
  if has then m else ret (Some (NotConfigured kind)).

Definition production : NeedsProvisioner (PStt W) := {|
  ProvisionDataset := fun plugin n =>
    wired (hasDataset pp) NeedDataset (out (dataset_Provision plugin n));
  UnprovisionDataset := fun plugin id =>
    wired_un (hasDataset pp) NeedDataset (out (dataset_Unprovision plugin id));
  ProvisionOIDCClient := fun plugin n =>
    wired (hasOIDC pp) NeedOIDCClient
      (let! r := out (oidc_Provision plugin n) in
       match r with
       | Ok id => let! _ := rememberClientID plugin (ocClientID n) in ret (Ok id)
       | Err e => ret (Err e)
       end);
  UnprovisionOIDCClient := fun plugin id =>
    wired_un (hasOIDC pp) NeedOIDCClient (out (oidc_Unprovision plugin id));
  ProvisionTLSCert := fun plugin n =>
    wired (hasTLS pp) NeedTLSCert (out (tls_Provision (ppRoot pp) plugin n));
  UnprovisionTLSCert := fun plugin id =>
    wired_un (hasTLS pp) NeedTLSCert (out (tls_Unprovision (ppRoot pp) plugin id));
  ProvisionPermission := fun plugin n =>
    wired (hasPermission pp) NeedPermission
      (let! ids := get_client_ids in out (perm_Provision (client_id_for ids) plugin n));
  UnprovisionPermission := fun plugin id =>
    wired_un (hasPermission pp) NeedPermission
      (let! ids := get_client_ids in out (perm_Unprovision (client_id_for ids) plugin id)) |}.
End ProductionProvisioner.

(** The provisioner of tests and of a server with nothing wired. *)
Definition NopProvisioner (W : Type) : NeedsProvisioner W := {|
  ProvisionDataset := fun plugin n =>
    ret (Ok (#"dataset:" ++ plugin ++ #"/" ++ dnPool n ++ #"/" ++ dnName n));
  UnprovisionDataset := fun _ _ => ret None;
  ProvisionOIDCClient := fun plugin n => ret (Ok (#"oidcclient:" ++ plugin ++ #"/" ++ ocClientID n));
  UnprovisionOIDCClient := fun _ _ => ret None;
  ProvisionTLSCert := fun plugin n => ret (Ok (#"tlscert:" ++ plugin ++ #"/" ++ tcCommonName n));
  UnprovisionTLSCert := fun _ _ => ret None;
  ProvisionPermission := fun plugin n => ret (Ok (#"permission:" ++ plugin ++ #"/" ++ pnRole n));
  UnprovisionPermission := fun _ _ => ret None |}.
End NeedsM.
