(* ===== verification/PluginNeedsCorrect.v ===== *)
(** * Provisioning: the calls a manifest leads to, and what a rollback costs

    Whatever the provisioner answers, the needs are provisioned in order
    and, when one fails, those before it are released last first.  That a
    dataset which was there before is among them is the price. *)

From S2P Require Import Prelude GoStrings GoPath Regex Effects Plugins.
From S2P Require Import PluginPackage PluginNeeds.
Import Manifest Package NeedsM.

(** ** Resource identifiers *)

Lemma parse_resource_id_make prefix plugin rest : "/"%char ∉ plugin ->
  parse_resource_id prefix (resource_id prefix plugin rest) = Some (plugin, rest).
Proof.
  intros Hp. unfold parse_resource_id, resource_id.
  assert (has_prefix (prefix ++ #":" ++ plugin ++ #"/" ++ rest) (prefix ++ #":") = true) as ->.
  { apply has_prefix_iff. exists (plugin ++ #"/" ++ rest). by rewrite <- app_assoc. }
  cbn [negb]. rewrite app_assoc, trim_prefix_app. by apply cut_at_Some.
Qed.

Lemma valid_name_no_slash s : valid_name s -> "/"%char ∉ s.
Proof.
  intros (_ & Hall & _) Hin. unfold all_in in Hall.
  by apply (proj1 (Forall_forall _ _) Hall) in Hin.
Qed.

(** ** A provisioner that answers from an oracle and records the calls *)

Inductive event :=
| Provisioned (n : Need) (answer : res perr gostr)
| Unprovisioned (r : provisionedResource).

Section Oracle.
Context (prov : list event -> Need -> res perr gostr) (unprov : list event -> option perr).

Definition ask_prov (n : Need) : M (list event) (res perr gostr) :=
  fun h => (h ++ [Provisioned n (prov h n)], Some (prov h n)).
Definition ask_unprov (r : provisionedResource) : M (list event) (option perr) :=
  fun h => (h ++ [Unprovisioned r], Some (unprov h)).

Definition oracle : NeedsProvisioner (list event) := {|
  ProvisionDataset := fun _ d => ask_prov (mkNeed NeedDataset (Some d) None None None);
  UnprovisionDataset := fun _ id => ask_unprov (mkResource NeedDataset id);
  ProvisionOIDCClient := fun _ o => ask_prov (mkNeed NeedOIDCClient None (Some o) None None);
  UnprovisionOIDCClient := fun _ id => ask_unprov (mkResource NeedOIDCClient id);
  ProvisionTLSCert := fun _ t => ask_prov (mkNeed NeedTLSCert None None (Some t) None);
  UnprovisionTLSCert := fun _ id => ask_unprov (mkResource NeedTLSCert id);
  ProvisionPermission := fun _ q => ask_prov (mkNeed NeedPermission None None None (Some q));
  UnprovisionPermission := fun _ id => ask_unprov (mkResource NeedPermission id) |}.

(** The part of a need that its kind refers to. *)
Definition essence (n : Need) : Need :=
  if str_eqb (nKind n) NeedDataset then mkNeed NeedDataset (nDataset n) None None None
  else if str_eqb (nKind n) NeedOIDCClient then mkNeed NeedOIDCClient None (nOIDCClient n) None None
  else if str_eqb (nKind n) NeedTLSCert then mkNeed NeedTLSCert None None (nTLSCert n) None
  else mkNeed NeedPermission None None None (nPermission n).

Lemma provision_oracle plugin i n h : need_filled n ->
  provision (W := list event) (NeedsProvisioner0 := oracle) plugin i n h =
  (h ++ [Provisioned (essence n) (prov h (essence n))], Some (prov h (essence n))).
Proof.
  unfold need_filled, provision, essence.
  intros [(-> & d & -> & _)|[(-> & d & -> & _)|[(-> & d & -> & _)|(-> & d & -> & _)]]]; done.
Qed.

Definition known_kind (r : provisionedResource) : Prop :=
  resKind r ∈ [NeedDataset; NeedOIDCClient; NeedTLSCert; NeedPermission].

Lemma unprovision_oracle plugin r h : known_kind r ->
  unprovision (W := list event) (NeedsProvisioner0 := oracle) plugin r h =
  (h ++ [Unprovisioned r], Some (unprov h)).
Proof.
  unfold known_kind, unprovision. destruct r as [k id]. simpl. intros Hk. set_unfold in Hk.
  destruct Hk as [->|[->|[->|[->|[]]]]]; done.
Qed.

Lemma unwind_oracle plugin rs h : Forall known_kind rs ->
  exists es, unwind (W := list event) (NeedsProvisioner0 := oracle) plugin rs h =
    (h ++ map Unprovisioned rs, Some es).
Proof.
  revert h. induction rs as [|r rs IH]; intros h Hk; [exists []; by rewrite app_nil_r|].
  apply Forall_cons in Hk as [Hr Hk]. cbn [unwind]. unfold bind. rewrite unprovision_oracle by done.
  destruct (IH (h ++ [Unprovisioned r]) Hk) as [es ->]. rewrite <- app_assoc. eexists. done.
Qed.

(** The resources the answers stand for. *)
Definition created (ns : list Need) (ids : list gostr) : list provisionedResource :=
  zip_with mkResource (map nKind ns) ids.

(** The calls for needs that were all granted. *)
Definition granted (ns : list Need) (ids : list gostr) : list event :=
  zip_with (fun n id => Provisioned (essence n) (Ok id)) ns ids.

Lemma created_known ns ids : Forall need_filled ns -> Forall known_kind (created ns ids).
Proof.
  unfold created. revert ids. induction ns as [|n ns IH]; intros [|id ids] Hn; simpl; try constructor.
  - apply Forall_cons in Hn as [Hn _]. unfold known_kind; simpl.
    destruct Hn as [[-> _]|[[-> _]|[[-> _]|[-> _]]]]; set_solver.
  - apply Forall_cons in Hn as [_ Hn]. by apply IH.
Qed.

(** What a run of [runNeeds] from history [h] to [h'] amounts to. *)
Definition needs_outcome (needs : list Need) (h h' : list event)
    (r : list provisionedResource * option (perr * list perr)) : Prop :=
  match r with
  | (done_, None) => exists ids, length ids = length needs /\
      done_ = created needs ids /\ h' = h ++ granted needs ids
  | (done_, Some (e, _)) => exists pre n post ids,
      needs = pre ++ n :: post /\ length ids = length pre /\ done_ = created pre ids /\
      h' = h ++ granted pre ids ++ [Provisioned (essence n) (Err e)]
             ++ map Unprovisioned (rev done_)
  end.

Lemma zip_with_snoc {A B C} (f : A -> B -> C) l k a b : length l = length k ->
  zip_with f (l ++ [a]) (k ++ [b]) = zip_with f l k ++ [f a b].
Proof.
  revert k. induction l as [|x l IH]; intros [|y k] H; try done. simpl. rewrite IH; [done|]. simpl in H. lia.
Qed.

Lemma run_needs_oracle plugin needs : forall seen ids i h0,
  Forall need_filled (seen ++ needs) -> length ids = length seen ->
  exists h' r, run_needs (W := list event) (NeedsProvisioner0 := oracle) plugin i needs (created seen ids)
      (h0 ++ granted seen ids) = (h', Some r) /\
    needs_outcome (seen ++ needs) h0 h' r.
Proof.
  induction needs as [|n needs IH]; intros seen ids i h0 Hf Hlen.
  { eexists _, _. split; [done|]. rewrite app_nil_r. simpl. by exists ids. }
  assert (need_filled n) as Hn.
  { apply Forall_app in Hf as [_ Hf]. by apply Forall_cons in Hf as [? _]. }
  cbn [run_needs]. unfold bind at 1. rewrite provision_oracle by done.
  set (h1 := h0 ++ granted seen ids). destruct (prov h1 (essence n)) as [id|e].
  - specialize (IH (seen ++ [n]) (ids ++ [id]) (S i) h0).
    replace ((seen ++ [n]) ++ needs) with (seen ++ n :: needs) in IH by by rewrite <- app_assoc.
    unfold created, granted in *. rewrite map_app in IH. change (map nKind [n]) with [nKind n] in IH.
    rewrite !zip_with_snoc in IH by (rewrite ?length_map; lia).
    rewrite app_assoc in IH. apply IH; [done|]. rewrite !length_app. simpl. lia.
  - unfold bind, rollbackNeeds.
    destruct (unwind_oracle plugin (rev (created seen ids)) (h1 ++ [Provisioned (essence n) (Err e)]))
      as [es ->].
    { apply Forall_rev, created_known. by apply Forall_app in Hf as [? _]. }
    eexists _, _. split; [done|]. simpl. exists seen, n, needs, ids. split_and!; [done..|].
    subst h1. by rewrite <- !app_assoc.
Qed.

(** Whatever the provisioners answer, fulfilling the needs of a valid
    manifest ends, and either every need was provisioned in order, or the
    first refusal is followed by the release of exactly what had been
    provisioned, last first, each once and whatever the releases answer. *)
Theorem runNeeds_all_or_released plugin needs h (Hf : Forall need_filled needs) :
  exists h' r, runNeeds (W := list event) (NeedsProvisioner0 := oracle) plugin needs h = (h', Some r) /\
    needs_outcome needs h h' r.
Proof.
  destruct (run_needs_oracle plugin needs [] [] 0 h Hf eq_refl) as (h' & r & Hrun & Ho).
  exists h', r. unfold granted in Hrun. simpl in Hrun. rewrite app_nil_r in Hrun. done.
Qed.
End Oracle.

(** ** What a rollback costs *)

(** A host whose datasets are a set; nothing else is wired. *)
Module MemDatasets.

#[global] Instance client : DatasetClient (gset gostr) := {|
  ds_Get := fun full w => (w, if bool_decide (full ∈ w) then None else Some DsNotFound);
  ds_Create := fun spec w => ({[dsParent spec ++ #"/" ++ dsName spec]} ∪ w, None);
  ds_Destroy := fun full _ w => (w ∖ {[full]}, None) |}.

#[global] Instance no_keycloak : Keycloak (gset gostr) := {|
  admin_Do := fun _ _ _ _ w => (w, None); enc_client := fun _ => []; enc_roles := fun _ => [];
  dec_clients := fun _ => None; dec_secret := fun _ => None; dec_role := fun _ => None;
  dec_roles := fun _ => None; dec_user := fun _ => None; secrets_enabled := false;
  secrets_Set := fun _ _ w => (w, false); secrets_Delete := fun _ w => (w, false) |}.

#[global] Instance no_disk : Disk (gset gostr) := {|
  MkdirAll := fun _ w => (w, false); WriteFile := fun _ _ w => (w, false);
  ReadFile := fun _ w => (w, None); RemoveAll := fun _ w => (w, false);
  Stat := fun _ w => (w, None) |}.

#[global] Instance no_issuer : CertIssuer (gset gostr) := {|
  Issue := fun _ w => (w, None); RemoveFile := fun _ w => (w, false) |}.

Definition datasets_only : Production := mkProduction true false false false [].
End MemDatasets.

(** A failed install or upgrade can destroy a dataset it did not
    create: a dataset need is met by a dataset that already exists, and
    when a later need fails the rollback destroys it, with whatever it
    held.  The comment says that only resources already created are rolled
    back. *)
Theorem rollback_destroys_existing (plugin pool name role desc : gostr) (props : list (gostr * gostr)) (ids : gmap gostr gostr) (w : gset gostr)
    (Hplugin : valid_name plugin) (Hpool : pool <> []) (Hname : name <> [])
    (Hthere : pool ++ #"/" ++ name ∈ w) :
  exists rs e,
    runNeeds (NeedsProvisioner0 := production MemDatasets.datasets_only) plugin
      [mkNeed NeedDataset (Some (mkDatasetNeed pool name props)) None None None;
       mkNeed NeedPermission None None None (Some (mkPermNeed role desc))] (mkPStt ids w)
    = (mkPStt ids (w ∖ {[pool ++ #"/" ++ name]}), Some (rs, Some (e, []))).
Proof.
  apply valid_name_no_slash in Hplugin. apply str_eqb_neq in Hpool, Hname.
  eexists _, _. unfold runNeeds. cbn [run_needs]. unfold bind at 1. unfold provision at 1.
  cbn [nKind nDataset]. change (str_eqb NeedDataset NeedDataset) with true. cbv iota.
  cbn [ProvisionDataset production]. unfold wired. cbn [hasDataset MemDatasets.datasets_only].
  unfold out at 1, dataset_Provision. cbn [dnPool dnName outside clientIDs]. rewrite Hpool, Hname.
  cbn [orb]. unfold bind at 1, call at 1. cbn [ds_Get MemDatasets.client].
  rewrite bool_decide_eq_true_2 by done. unfold ret at 1. cbn [clientIDs].
  unfold bind at 1. unfold provision at 1. cbn [nKind nPermission].
  change (str_eqb NeedPermission NeedDataset) with false.
  change (str_eqb NeedPermission NeedOIDCClient) with false.
  change (str_eqb NeedPermission NeedTLSCert) with false.
  change (str_eqb NeedPermission NeedPermission) with true. cbv iota.
  cbn [ProvisionPermission production]. unfold wired. cbn [hasPermission MemDatasets.datasets_only].
  unfold ret at 1. unfold bind at 1, rollbackNeeds. cbn [rev app unwind]. unfold bind at 1 2.
  unfold unprovision. cbn [resKind resID]. change (str_eqb NeedDataset NeedDataset) with true. cbv iota.
  cbn [UnprovisionDataset production]. unfold wired_un. cbn [hasDataset MemDatasets.datasets_only].
  unfold out, dataset_Unprovision, parseDatasetResourceID, datasetResourceID.
  rewrite parse_resource_id_make by done. unfold bind at 1, call at 1. cbn [ds_Get MemDatasets.client outside].
  rewrite bool_decide_eq_true_2 by done. reflexivity.
Qed.

Lemma runNeeds_all_or_released_witness :
  let needs := [mkNeed NeedDataset (Some (mkDatasetNeed #"tank" #"a" [])) None None None;
                mkNeed NeedPermission None None None (Some (mkPermNeed #"nova-viewer" []))] in
  exists h' r, runNeeds (NeedsProvisioner0 := oracle
      (fun h _ => match h with [] => Ok #"id" | _ => Err KeycloakErr end) (fun _ => None))
      #"rustfs" needs [] = (h', Some r) /\
    needs_outcome needs [] h' r.
Proof.
  apply (runNeeds_all_or_released
    (fun h _ => match h with [] => Ok #"id" | _ => Err KeycloakErr end) (fun _ => None)).
  apply Forall_cons_2; [|apply Forall_cons_2; [|apply Forall_nil_2]].
  - left. split; [reflexivity|]. eexists. split; [reflexivity|]. split; discriminate.
  - right; right; right. split; [reflexivity|]. eexists. split; [reflexivity|]. discriminate.
Defined.

Lemma rollback_destroys_existing_witness :
  (runNeeds (NeedsProvisioner0 := production MemDatasets.datasets_only) #"rustfs"
      [mkNeed NeedDataset (Some (mkDatasetNeed #"tank" #"objects" [])) None None None;
       mkNeed NeedPermission None None None (Some (mkPermNeed #"nova-viewer" []))]
      (mkPStt ∅ {[ #"tank/objects" ]})).1 = mkPStt ∅ ({[ #"tank/objects" ]} ∖ {[ #"tank/objects" ]}).
Proof.
  destruct (rollback_destroys_existing #"rustfs" #"tank" #"objects" #"nova-viewer" [] [] ∅
    {[ #"tank/objects" ]}) as (rs & e & ->).
  - apply nameRE_iff. vm_compute. reflexivity.
  - discriminate.
  - discriminate.
  - apply elem_of_singleton. reflexivity.
  - reflexivity.
Defined.
