(* ===== verification/PluginRouter.v ===== *)
(** * internal/plugins/router.go: the reverse proxy's route table

    Mounting, unmounting, choosing a route and the transformation of the
    caller's credentials.  Parsing of URLs and the token service are
    parameters; forwarding the request is the result. *)

From S2P Require Import Prelude GoStrings Effects Regex Plugins.
Import Manifest.

Module RouterM.

Definition AuthBearerPassthrough : gostr := #"bearer-passthrough".
Definition AuthServiceToken : gostr := #"service-token".

(** The parts of a parsed URL the router reads. *)
Record Url := mkUrl { uText : gostr; uPath : gostr }.

Record routeProxy := mkProxy {
  prefix : gostr; auth : gostr; scopes : list gostr; upstream : Url }.

Definition Router : Type := gmap gostr (list routeProxy).

Definition NewRouter : Router := ∅.

Section Mount.
Context (url_parse : gostr -> option Url).

Definition proxy_of (r : APIRoute) : option routeProxy :=
  u ← url_parse (rUpstream r);
  Some (mkProxy (trim_right_byte "/"%char (rPath r)) (rAuth r) (rScopes r) u).

(** [None] when an upstream does not parse: nothing is mounted. *)
Definition Mount (rt : Router) (plugin : gostr) (routes : list APIRoute) : option Router :=
  ps ← mapM proxy_of routes; Some (<[plugin := ps]> rt).
End Mount.

Definition Unmount (rt : Router) (plugin : gostr) : Router := delete plugin rt.
Definition IsMounted (rt : Router) (plugin : gostr) : bool := bool_decide (is_Some (rt !! plugin)).
Definition MountedPlugins (rt : Router) : list gostr := elements (dom rt).

(** The loop: a matching route replaces the one so far when its prefix is
    strictly longer. *)
Definition route_matches (rest : gostr) (rp : routeProxy) : bool :=
  str_eqb (prefix rp) [] || has_prefix rest (prefix rp).

Definition better (rest : gostr) (best : option routeProxy) (rp : routeProxy) : option routeProxy :=
  if route_matches rest rp then
    match best with
    | None => Some rp
    | Some b => if (length (prefix b) <? length (prefix rp))%nat then Some rp else best
    end
  else best.

Definition longest_match (rest : gostr) (routes : list routeProxy) : option routeProxy :=
  fold_left (better rest) routes None.

Inductive proxy_result :=
| ProxyError (status : Z) (code : gostr)
| Forwarded (to : Url) (path : gostr) (authorization : option gostr).

Section ServeProxy.
(** The token service, absent when it is not configured. *)
Context {W : Type} (TokenMinter : option (gostr -> W -> W * option gostr)).

Definition with_slash (rest : gostr) : gostr := if has_prefix rest #"/" then rest else #"/" ++ rest.

Definition forward (rp : routeProxy) (rest : gostr) (authorization : option gostr) : proxy_result :=
  Forwarded (upstream rp) (trim_right_byte "/"%char (uPath (upstream rp)) ++ rest) authorization.

(** [authorization] is the caller's header. *)
Definition ServeProxy (rt : Router) (plugin rest : gostr) (authorization : option gostr)
  : M W proxy_result :=
  match rt !! plugin with
  | None => ret (ProxyError 404 #"not_mounted")
  | Some routes =>
      let rest := with_slash rest in
      match longest_match rest routes with
      | None => ret (ProxyError 404 #"no_route")
      | Some rp =>
          if str_eqb (auth rp) AuthServiceToken then
            match TokenMinter with
            | None => ret (ProxyError 503 #"service_token_unavailable")
            | Some mint =>
                let! tok := call (mint plugin) in
                match tok with
                | None => ret (ProxyError 502 #"service_token_failed")
                | Some t => ret (forward rp rest (Some (#"Bearer " ++ t)))
                end
            end
          else ret (forward rp rest authorization)
      end
  end.
End ServeProxy.

(** ** Which route a request takes *)

(** [rp] is the first of the longest-prefix routes that match. *)
Definition chosen (rest : gostr) (routes : list routeProxy) (rp : routeProxy) : Prop :=
  exists before after, routes = before ++ rp :: after /\ route_matches rest rp = true /\
    (forall x, x ∈ before -> route_matches rest x = true ->
       (length (prefix x) < length (prefix rp))%nat) /\
    (forall x, x ∈ after -> route_matches rest x = true ->
       (length (prefix x) <= length (prefix rp))%nat).

Lemma longest_match_snoc rest routes rp :
  longest_match rest (routes ++ [rp]) = better rest (longest_match rest routes) rp.
Proof. unfold longest_match. by rewrite fold_left_app. Qed.

Lemma longest_match_spec rest routes :
  match longest_match rest routes with
  | Some rp => chosen rest routes rp
  | None => forall x, x ∈ routes -> route_matches rest x = false
  end.
Proof.
  induction routes as [|x routes IH] using rev_ind; [set_solver|].
  rewrite longest_match_snoc. unfold better. destruct (route_matches rest x) eqn:Ex.
  - destruct (longest_match rest routes) as [b|].
    + destruct IH as (bef & aft & -> & Hb & Hbef & Haft).
      destruct (_ <? _)%nat eqn:El.
      * apply Nat.ltb_lt in El. exists (bef ++ b :: aft), []. split_and!; [done|done| |set_solver].
        intros y Hy Hm. apply elem_of_app in Hy as [Hy|Hy]; [specialize (Hbef y Hy Hm); lia|].
        apply elem_of_cons in Hy as [->|Hy]; [done|]. specialize (Haft y Hy Hm). lia.
      * apply Nat.ltb_ge in El. exists bef, (aft ++ [x]). rewrite <- app_assoc. split_and!; [done..|].
        intros y Hy Hm. apply elem_of_app in Hy as [Hy|Hy%list_elem_of_singleton]; [|subst y]; [by apply Haft|done].
    + exists routes, []. split_and!; [done|done| |set_solver].
      intros y Hy Hm. by rewrite (IH y Hy) in Hm.
  - destruct (longest_match rest routes) as [b|].
    + destruct IH as (bef & aft & -> & Hb & Hbef & Haft). exists bef, (aft ++ [x]).
      rewrite <- app_assoc. split_and!; [done..|]. intros y Hy Hm.
      apply elem_of_app in Hy as [Hy|Hy%list_elem_of_singleton]; [|subst y]; [by apply Haft|congruence].
    + intros y Hy. apply elem_of_app in Hy as [Hy|Hy%list_elem_of_singleton]; [|subst y]; [by apply IH|done].
Qed.

(** The proxy forwards a request only along a mounted route of the
    named plugin, the first of those with the longest prefix that matches;
    on a service-token route the upstream gets the plugin's own token and
    never the caller's credentials, and on any other the caller's header
    as it came. *)
Theorem ServeProxy_forwards {W} (minter : option (gostr -> W -> W * option gostr)) rt plugin rest
    authorization w w' to path hdr
    (Hrun : ServeProxy minter rt plugin rest authorization w = (w', Some (Forwarded to path hdr))) :
  exists routes rp, rt !! plugin = Some routes /\ chosen (with_slash rest) routes rp /\
    to = upstream rp /\
    path = trim_right_byte "/"%char (uPath (upstream rp)) ++ with_slash rest /\
    (auth rp = AuthServiceToken -> exists mint w1 t, minter = Some mint /\
       mint plugin w = (w1, Some t) /\ hdr = Some (#"Bearer " ++ t)) /\
    (auth rp <> AuthServiceToken -> hdr = authorization /\ w' = w).
Proof.
  unfold ServeProxy in Hrun. destruct (rt !! plugin) as [routes|]; [|done].
  pose proof (longest_match_spec (with_slash rest) routes) as Hspec.
  destruct (longest_match (with_slash rest) routes) as [rp|]; [|done].
  exists routes, rp. split; [done|]. split; [done|].
  case_str (auth rp) AuthServiceToken as Ea.
  - destruct minter as [mint|]; [|done]. unfold bind, call in Hrun.
    destruct (mint plugin w) as [w1 [t|]] eqn:Em; [|done]. unfold forward in Hrun. injection Hrun as <- <- <- <-.
    split_and!; [done..| |done]. intros _. by exists mint, w1, t.
  - unfold forward in Hrun. injection Hrun as <- <- <- <-. split_and!; done.
Qed.

Lemma ServeProxy_forwards_witness :
  let rt := <[ #"rustfs" := [mkProxy #"/buckets" AuthBearerPassthrough [] (mkUrl #"http://b" #"/");
                             mkProxy #"/buckets/admin" AuthServiceToken [] (mkUrl #"http://a" #"/v1/")]]>
              NewRouter in
  exists routes, rt !! #"rustfs" = Some routes /\
    ServeProxy (W := unit) (Some (fun _ w => (w, Some #"tok"))) rt #"rustfs" #"buckets/admin/x"
      (Some #"Bearer caller") tt =
    (tt, Some (Forwarded (mkUrl #"http://a" #"/v1/") #"/v1/buckets/admin/x" (Some #"Bearer tok"))).
Proof.
  intros rt.
  assert (Hrun : ServeProxy (W := unit) (Some (fun _ w => (w, Some #"tok"))) rt #"rustfs"
      #"buckets/admin/x" (Some #"Bearer caller") tt =
    (tt, Some (Forwarded (mkUrl #"http://a" #"/v1/") #"/v1/buckets/admin/x" (Some #"Bearer tok"))))
    by (vm_compute; reflexivity).
  destruct (ServeProxy_forwards _ _ _ _ _ _ _ _ _ _ Hrun) as (routes & rp & Hrt & _).
  exists routes. split; [exact Hrt|exact Hrun].
Defined.
End RouterM.
