(* ===== verification/PluginLifecycle.v ===== *)
(** * internal/plugins/lifecycle.go: installing, upgrading and removing plugins

    The manager's own state is the set of held name locks, the route table
    and the UI registry; the database, the marketplace, the disk, the
    deployer and the provisioners are interfaces.  A lock that is already
    held by a caller further up never becomes free, so taking it does not
    return.  Install calls itself for the dependencies; its fuel bounds the
    depth of that recursion. *)

From S2P Require Import Prelude GoStrings GoPath Regex Effects Plugins.
From S2P Require Import PluginPackage PluginNeeds PluginRouter.
Import Manifest Package NeedsM RouterM.

Module LifecycleM.

Definition StatusInstalled : gostr := #"installed".

Record PluginRow := mkRow {
  rowID : gostr; rowName : gostr; rowVersion : gostr; rowManifest : gostr; rowStatus : gostr;
  rowInstalledAt : option Z; rowUpdatedAt : option Z }.

Record IndexVersion := mkIndexVersion {
  ivVersion : gostr; ivTarballURL : gostr; ivSignatureURL : gostr; ivSHA256 : gostr; ivSize : Z }.

(** ** Interfaces *)

(** The generated queries; [None] is an error, no row included. *)
Class PluginStore (W : Type) := {
  GetPluginByName : gostr -> W -> W * option PluginRow;
  ListPlugins : W -> W * option (list PluginRow);
  CreatePlugin : gostr -> gostr -> gostr -> gostr -> gostr -> W -> W * option PluginRow;
  UpdatePlugin : gostr -> gostr -> gostr -> gostr -> W -> W * option PluginRow;
  DeletePlugin : gostr -> W -> W * bool;
  AddPluginResource : gostr -> gostr -> gostr -> W -> W * bool;
  ListPluginResources : gostr -> W -> W * option (list (gostr * gostr));
  NewUUID : W -> W * gostr
}.

(** The multi-source client, the single-source client and its verifier, and
    what the resolver sees of the indexes. *)
Class Market (W : Type) := {
  Multi_FindVersion : gostr -> gostr -> gostr -> W -> W * option (IndexVersion * gostr);
  Multi_DownloadAndVerify : gostr -> IndexVersion -> W -> W * option gostr;
  Single_FindVersion : gostr -> gostr -> W -> W * option IndexVersion;
  DownloadArtifacts : IndexVersion -> W -> W * option (gostr * gostr);
  VerifySignature : gostr -> gostr -> W -> W * bool;
  index_view : W -> gostr -> gostr -> res find_err (IndexPlugin * gostr);
  MkdirTemp : W -> W * option gostr
}.

Class Deployer (W : Type) := {
  deploy_Install : Plugin -> W -> W * bool;
  deploy_Uninstall : gostr -> W -> W * bool;
  deploy_Restart : gostr -> W -> W * bool;
  deploy_Logs : gostr -> Z -> W -> W * option (list gostr)
}.

(** The decoders and the semantic version library. *)
Record Codec (V C : Type) := mkCodec {
  untar : gostr -> option archive;
  yaml : gostr -> option Plugin;
  json_marshal : Plugin -> option gostr;
  json_unmarshal : gostr -> option Plugin;
  url_parse : gostr -> option Url;
  NewVersion : gostr -> option V;
  NewConstraint : gostr -> option C;
  Check_ : C -> V -> bool;
  GreaterThan : V -> V -> bool }.
Arguments untar {V C} _.
Arguments yaml {V C} _.
Arguments json_marshal {V C} _.
Arguments json_unmarshal {V C} _.
Arguments url_parse {V C} _.
Arguments NewVersion {V C} _.
Arguments NewConstraint {V C} _.
Arguments Check_ {V C} _.
Arguments GreaterThan {V C} _.

(** Which collaborators are wired. *)
Record Manager := mkManager {
  hasLogger : bool; hasStore : bool; hasMulti : bool; hasMarketplace : bool; hasVerifier : bool;
  hasRouter : bool; hasUI : bool; hasDeployer : bool }.

Record ResourceRef := mkRef { refType : gostr; refID : gostr }.

Record Installation := mkInstallation {
  instID : gostr; instName : gostr; instVersion : gostr; instManifest : Plugin; instStatus : gostr;
  instAt : option Z; instUpdated : option Z; instResources : list ResourceRef;
  InstalledDeps : list PlanStep }.

Record InstallRequest := mkRequest {
  reqName : gostr; reqVersion : gostr; reqValues : gostr; reqMarketplaceID : gostr }.

Record UninstallOptions := mkUninstall { Purge : bool; Force : bool }.

Inductive life_err :=
| ErrInvalid | NoStore | ErrNotFound | ErrAlreadyExists | NoMarketplaceErr | NoDeployer
| FindErr | DownloadErr | SignatureErr | TempErr | ExtractErr (e : package_err) | ParseErr (e : parse_err)
| NameMismatch (got : gostr) | PlanErr (e : resolve_err) | NeedsErr (e : perr)
| MarshalErr | PersistErr | DeployErr | DeleteErr | ListErr | RestartErr | LogsErr
| DependencyErr (dep : gostr) (e : life_err) | DependentsError (blockedBy : list gostr).

(** ** State *)

Record MSt (W : Type) := mkMSt {
  locks : gset gostr; router : Router; ui : UIAssets; host : W }.
Arguments mkMSt {W} _ _ _ _.
Arguments locks {W} _.
Arguments router {W} _.
Arguments ui {W} _.
Arguments host {W} _.

Section Lifecycle.
Context {W V C : Type}
  `{!PluginStore W, !Market W, !Disk W, !Deployer W, !NeedsProvisioner W}
  (cd : Codec V C) (m : Manager).

Notation S_ := (MSt W).

(** A computation, and an operation, on the host. *)
Definition on_host {A} (c : M W A) : M S_ A :=
  fun s => let '(w, r) := c (host s) in (mkMSt (locks s) (router s) (ui s) w, r).
Definition op {A} (f : W -> W * A) : M S_ A := on_host (call f).

Definition set_router (rt : Router) : M S_ unit :=
  fun s => (mkMSt (locks s) rt (ui s) (host s), Some tt).
Definition set_ui (u : UIAssets) : M S_ unit :=
  fun s => (mkMSt (locks s) (router s) u (host s), Some tt).
Definition get_state : M S_ S_ := fun s => (s, Some s).

(** [lockFor(name).Lock()] and the deferred [Unlock]. *)
Definition lock (name : gostr) : M S_ unit := fun s =>
  if bool_decide (name ∈ locks s) then (s, None)
  else (mkMSt ({[name]} ∪ locks s) (router s) (ui s) (host s), Some tt).
Definition unlock (name : gostr) : M S_ unit := fun s =>
  (mkMSt (locks s ∖ {[name]}) (router s) (ui s) (host s), Some tt).
Definition with_lock {A} (name : gostr) (body : M S_ A) : M S_ A :=
  let! _ := lock name in
  let! r := body in
  let! _ := unlock name in
  ret r.

Definition unmount (name : gostr) : M S_ unit :=
  if hasRouter m then let! s := get_state in set_router (Unmount (router s) name) else ret tt.
Definition deregister (name : gostr) : M S_ unit :=
  if hasUI m then let! s := get_state in set_ui (Deregister (ui s) name) else ret tt.
Definition register (name uiDir : gostr) : M S_ unit :=
  if hasUI m && negb (str_eqb uiDir []) then
    let! s := get_state in set_ui (Register (ui s) name uiDir)
  else ret tt.

(** Mounting the manifest's routes, if it has any; [None] when an upstream
    does not parse. *)
Definition mount (name : gostr) (p : Plugin) : M S_ (option unit) :=
  if hasRouter m && (0 <? length (sRoutes (Spec p)))%nat then
    let! s := get_state in
    match Mount (url_parse cd) (router s) name (sRoutes (Spec p)) with
    | None => ret None
    | Some rt => let! _ := set_router rt in ret (Some tt)
    end
  else ret (Some tt).

(** ** Fetching *)

Definition fetchVerifiedTarball (name version marketplaceID : gostr) : M S_ (res life_err gostr) :=
  if hasMulti m then
    let! f := op (Multi_FindVersion name version marketplaceID) in
    match f with
    | None => ret (Err FindErr)
    | Some (ver, mpID) =>
        let! tb := op (Multi_DownloadAndVerify mpID ver) in
        ret (match tb with None => Err DownloadErr | Some tb => Ok tb end)
    end
  else if hasMarketplace m then
    let! f := op (Single_FindVersion name version) in
    match f with
    | None => ret (Err FindErr)
    | Some ver =>
        let! a := op (DownloadArtifacts ver) in
        match a with
        | None => ret (Err DownloadErr)
        | Some (tb, sig) =>
            if hasVerifier m then
              let! ok := op (VerifySignature tb sig) in
              ret (if (ok : bool) then Ok tb else Err SignatureErr)
            else ret (Ok tb)
        end
    end
  else ret (Err NoMarketplaceErr).

Definition parse_manifest (mb : gostr) : res parse_err Plugin :=
  ParseManifest (NewConstraint cd) (yaml cd) mb.

Definition dest_dir (u : UIAssets) (name : gostr) : gostr :=
  Join [if hasUI m && negb (str_eqb (Root u) []) then Root u else DefaultPluginsRoot; name].

Definition remove_all (path : gostr) : M S_ unit := let! _ := op (RemoveAll path) in ret tt.

(** The manifest, the directory it was unpacked to, the UI directory and
    the resources provisioned. *)
Definition fetchVerifyUnpackProvision (name version marketplaceID : gostr)
  : M S_ (res life_err (Plugin * gostr * gostr * list provisionedResource)) :=
  let! tb := fetchVerifiedTarball name version marketplaceID in
  match tb with
  | Err e => ret (Err e)
  | Ok tarball =>
      let! s := get_state in
      let destDir := dest_dir (ui s) name in
      let! _ := remove_all destDir in
      let! x := on_host (ExtractTarball (untar cd) tarball destDir) in
      match x with
      | Err e => ret (Err (ExtractErr e))
      | Ok (mb, uiDir) =>
          match parse_manifest mb with
          | Err e => let! _ := remove_all destDir in ret (Err (ParseErr e))
          | Ok manifest =>
              if negb (str_eqb (pName manifest) name)
              then let! _ := remove_all destDir in ret (Err (NameMismatch (pName manifest)))
              else
                let! r := on_host (runNeeds name (Needs manifest)) in
                match r with
                | (_, Some (e, _)) => let! _ := remove_all destDir in ret (Err (NeedsErr e))
                | (resources, None) => ret (Ok (manifest, destDir, uiDir, resources))
                end
          end
      end
  end.

(** ** Planning *)

(** What the resolver is given in state [s]: the indexes and the installed
    versions. *)
Definition resolver_for (w : W) : Resolver :=
  mkResolver
    (if hasMulti m || hasMarketplace m then Some (index_view w) else None)
    (Some (fun n => Ok (rowVersion <$> (GetPluginByName n w).2))) 32.

Definition manifest_for_planning (name version marketplaceID : gostr)
  : M S_ (res life_err Plugin) :=
  let! tb := fetchVerifiedTarball name version marketplaceID in
  match tb with
  | Err e => ret (Err e)
  | Ok tarball =>
      let! tmp := op MkdirTemp in
      match tmp with
      | None => ret (Err TempErr)
      | Some tmp =>
          let! x := on_host (ExtractTarball (untar cd) tarball tmp) in
          let! _ := remove_all tmp in
          match x with
          | Err e => ret (Err (ExtractErr e))
          | Ok (mb, _) =>
              ret (match parse_manifest mb with Err e => Err (ParseErr e) | Ok p => Ok p end)
          end
      end
  end.

Definition ManifestForPlanning (name version : gostr) : M S_ (res life_err Plugin) :=
  manifest_for_planning name version [].

Definition planInstall (name version marketplaceID : gostr) : M S_ (res life_err (list PlanStep)) :=
  let! p := manifest_for_planning name version marketplaceID in
  match p with
  | Err e => ret (Err e)
  | Ok manifest =>
      let! s := get_state in
      ret (match Plan (NewVersion cd) (NewConstraint cd) (Check_ cd) (GreaterThan cd)
                   (resolver_for (host s)) manifest with
           | Err e => Err (PlanErr e)
           | Ok plan => Ok plan
           end)
  end.

(** ** Install *)

Definition toInstallation (row : PluginRow) (manifest : Plugin) (resources : list provisionedResource)
  : Installation :=
  mkInstallation (rowID row) (rowName row) (rowVersion row) manifest (rowStatus row)
    (rowInstalledAt row) (rowUpdatedAt row)
    (map (fun r => mkRef (resKind r) (resID r)) resources) [].

Definition add_resources (id : gostr) (resources : list provisionedResource) : M S_ unit :=
  each (fun r => let! _ := op (AddPluginResource id (resKind r) (resID r)) in ret tt) resources.

Definition rollback (name destDir : gostr) (resources : list provisionedResource) : M S_ unit :=
  let! _ := on_host (rollbackNeeds name resources) in
  remove_all destDir.

(** Persisting, mounting, registering and deploying what was unpacked. *)
Definition install_finish (name : gostr) (plan : list PlanStep) (manifest : Plugin)
    (destDir uiDir : gostr) (resources : list provisionedResource)
  : M S_ (res life_err Installation) :=
  match json_marshal cd manifest with
  | None => let! _ := rollback name destDir resources in ret (Err MarshalErr)
  | Some js =>
      let! id := op NewUUID in
      let! row := op (CreatePlugin id name (pVersion manifest) js StatusInstalled) in
      match row with
      | None => let! _ := rollback name destDir resources in ret (Err PersistErr)
      | Some row =>
          let! _ := add_resources (rowID row) resources in
          let! mt := mount name manifest in
          (* the log line of a failed mount is not guarded *)
          let! _ := (match mt with
                     | None => if hasLogger m then ret tt else panic
                     | Some _ => ret tt
                     end) in
          let! _ := register name uiDir in
          let! ok := (if hasDeployer m then op (deploy_Install manifest) else ret true) in
          if negb ok then
            let! _ := unmount name in
            let! _ := deregister name in
            let! _ := op (DeletePlugin name) in
            let! _ := rollback name destDir resources in
            ret (Err DeployErr)
          else
            let inst := toInstallation row manifest resources in
            ret (Ok (mkInstallation (instID inst) (instName inst) (instVersion inst)
                   (instManifest inst) (instStatus inst) (instAt inst) (instUpdated inst)
                   (instResources inst)
                   (filter (fun st => sName st <> name) plan)))
      end
  end.

(** The loop over the plan; [Some] is the error that ends the install. *)
Fixpoint install_deps (rec : InstallRequest -> M S_ (res life_err Installation))
    (req : InstallRequest) (plan : list PlanStep) : M S_ (option life_err) :=
  match plan with
  | [] => ret None
  | step :: plan' =>
      if str_eqb (sName step) (reqName req) then install_deps rec req plan'
      else if negb (bool_decide (sAction step = PlanActionInstall)) then install_deps rec req plan'
      else
        let! row := op (GetPluginByName (sName step)) in
        match row with
        | Some _ => install_deps rec req plan'
        | None =>
            let! r := rec (mkRequest (sName step) (sVersion step) [] (reqMarketplaceID req)) in
            match r with
            | Err e => ret (Some (DependencyErr (sName step) e))
            | Ok _ => install_deps rec req plan'
            end
        end
  end.

(** What Install does while it holds the lock. *)
Definition install_locked (rec : InstallRequest -> M S_ (res life_err Installation))
    (req : InstallRequest) : M S_ (res life_err Installation) :=
  let! row := op (GetPluginByName (reqName req)) in
  match row with
  | Some _ => ret (Err ErrAlreadyExists)
  | None =>
      let! plan := planInstall (reqName req) (reqVersion req) (reqMarketplaceID req) in
      match plan with
      | Err e => ret (Err e)
      | Ok plan =>
          let! d := install_deps rec req plan in
          match d with
          | Some e => ret (Err e)
          | None =>
              let! f := fetchVerifyUnpackProvision (reqName req) (reqVersion req)
                          (reqMarketplaceID req) in
              match f with
              | Err e => ret (Err e)
              | Ok (manifest, destDir, uiDir, resources) =>
                  install_finish (reqName req) plan manifest destDir uiDir resources
              end
          end
      end
  end.

Fixpoint Install (fuel : nat) (req : InstallRequest) : M S_ (res life_err Installation) :=
  match fuel with
  | O => hang
  | S fuel' =>
      if str_eqb (reqName req) [] then ret (Err ErrInvalid)
      else if negb (hasStore m) then ret (Err NoStore)
      else with_lock (reqName req) (install_locked (Install fuel') req)
  end.

(** ** Uninstall *)

Definition depends_on (name : gostr) (p : Plugin) : bool :=
  existsb (fun d => str_eqb (dSource d) DependencySourceTier2 && str_eqb (dName d) name)
    (Dependencies p).

Definition dependents (rows : list PluginRow) (name : gostr) : list gostr :=
  omap (fun row =>
    if str_eqb (rowName row) name then None
    else match json_unmarshal cd (rowManifest row) with
         | None => None
         | Some p => if depends_on name p then Some (rowName row) else None
         end) rows.

(** [None] when the rows cannot be listed. *)
Definition dependentsOf (name : gostr) : M S_ (option (list gostr)) :=
  if negb (hasStore m) then ret (Some [])
  else let! rows := op ListPlugins in ret ((fun rows => dependents rows name) <$> rows).

Definition purge_resources (name id : gostr) : M S_ unit :=
  let! rs := op (ListPluginResources id) in
  match rs with
  | None => ret tt
  | Some rs =>
      let! _ := on_host (rollbackNeeds name (map (fun r => mkResource (fst r) (snd r)) rs)) in ret tt
  end.

Definition uninstall_locked (name : gostr) (opts : UninstallOptions) : M S_ (option life_err) :=
  let! row := op (GetPluginByName name) in
  match row with
  | None => ret (Some ErrNotFound)
  | Some row =>
      let! deps := dependentsOf name in
      let blocked := match deps with Some (d :: ds) => d :: ds | _ => [] end in
      if negb (Force opts) && (0 <? length blocked)%nat then ret (Some (DependentsError blocked))
      else
        let! _ := (if hasDeployer m then let! _ := op (deploy_Uninstall name) in ret tt else ret tt) in
        let! _ := unmount name in
        let! _ := deregister name in
        let! _ := (if Purge opts then purge_resources name (rowID row) else ret tt) in
        let! _ := (if hasUI m then let! s := get_state in remove_all (PluginRootFor (ui s) name)
                   else ret tt) in
        let! ok := op (DeletePlugin name) in
        ret (if (ok : bool) then None else Some DeleteErr)
  end.

Definition Uninstall (name : gostr) (opts : UninstallOptions) : M S_ (option life_err) :=
  if negb (hasStore m) then ret (Some NoStore)
  else with_lock name (uninstall_locked name opts).

(** ** Upgrade *)

Definition upgrade_locked (name version : gostr) : M S_ (res life_err Installation) :=
  let! row := op (GetPluginByName name) in
  match row with
  | None => ret (Err ErrNotFound)
  | Some _ =>
      let! f := fetchVerifyUnpackProvision name version [] in
      match f with
      | Err e => ret (Err e)
      | Ok (manifest, destDir, uiDir, resources) =>
          match json_marshal cd manifest with
          | None => let! _ := remove_all destDir in ret (Err MarshalErr)
          | Some js =>
              let! row := op (UpdatePlugin name (pVersion manifest) js StatusInstalled) in
              match row with
              | None => let! _ := remove_all destDir in ret (Err PersistErr)
              | Some row =>
                  let! _ := add_resources (rowID row) resources in
                  let! _ := mount name manifest in
                  let! _ := register name uiDir in
                  let! _ := (if hasDeployer m
                             then let! _ := op (deploy_Install manifest) in ret tt else ret tt) in
                  ret (Ok (toInstallation row manifest []))
              end
          end
      end
  end.

Definition Upgrade (name version : gostr) : M S_ (res life_err Installation) :=
  if negb (hasStore m) then ret (Err NoStore)
  else with_lock name (upgrade_locked name version).

(** ** Reading, restarting and restoring *)

(** A manifest that does not decode is shown as the zero value [zero]. *)
Definition List_ (zero : Plugin) : M S_ (res life_err (list Installation)) :=
  if negb (hasStore m) then ret (Ok [])
  else
    let! rows := op ListPlugins in
    ret (match rows with
         | None => Err ListErr
         | Some rows =>
             Ok (map (fun row => toInstallation row
                        (default zero (json_unmarshal cd (rowManifest row))) []) rows)
         end).

Definition Get_ (zero : Plugin) (name : gostr) : M S_ (res life_err Installation) :=
  if negb (hasStore m) then ret (Err ErrNotFound)
  else
    let! row := op (GetPluginByName name) in
    match row with
    | None => ret (Err ErrNotFound)
    | Some row =>
        let! rs := op (ListPluginResources (rowID row)) in
        ret (Ok (toInstallation row (default zero (json_unmarshal cd (rowManifest row)))
                   (map (fun r => mkResource (fst r) (snd r)) (default [] rs))))
    end.

Definition Restart (name : gostr) : M S_ (option life_err) :=
  if negb (hasStore m) then ret (Some ErrNotFound)
  else
    let! row := op (GetPluginByName name) in
    match row with
    | None => ret (Some ErrNotFound)
    | Some _ =>
        if negb (hasDeployer m) then ret (Some NoDeployer)
        else with_lock name
               (let! ok := op (deploy_Restart name) in
                ret (if (ok : bool) then None else Some RestartErr))
    end.

Definition Logs (name : gostr) (lines : Z) : M S_ (res life_err (list gostr)) :=
  if negb (hasStore m) then ret (Err ErrNotFound)
  else
    let! row := op (GetPluginByName name) in
    match row with
    | None => ret (Err ErrNotFound)
    | Some _ =>
        if negb (hasDeployer m) then ret (Err NoDeployer)
        else let! l := op (deploy_Logs name lines) in
             ret (match l with None => Err LogsErr | Some l => Ok l end)
    end.

Definition restore_row (row : PluginRow) : M S_ unit :=
  match json_unmarshal cd (rowManifest row) with
  | None => ret tt
  | Some manifest =>
      let! _ := mount (rowName row) manifest in
      if hasUI m then
        let! s := get_state in
        let uiDir := Join [PluginRootFor (ui s) (rowName row); #"ui"] in
        let! st := op (Stat uiDir) in
        match st with
        | Some _ => let! s := get_state in set_ui (Register (ui s) (rowName row) uiDir)
        | None => ret tt
        end
      else ret tt
  end.

Definition RestoreAtStartup : M S_ unit :=
  if negb (hasStore m) then ret tt
  else
    let! rows := op ListPlugins in
    match rows with
    | None => ret tt
    | Some rows => each restore_row rows
    end.
End Lifecycle.
End LifecycleM.
