(* ===== verification/PluginLifecycleInv.v ===== *)
(** * The plugin lifecycle against its interfaces

    What a plan covers, which manifest a tarball holds, the laws of the
    database, the marketplace and the other collaborators, and what one
    call of Install does to the tables and the locks. *)

From S2P Require Import Prelude GoStrings GoPath Regex Effects Plugins PluginsPlan.
From S2P Require Import PluginPackage PluginPackageCorrect PluginNeeds PluginRouter PluginLifecycle.
Import Manifest Package NeedsM RouterM LifecycleM.

(** ** The steps of a plan *)

Section PlanShape.
Context {V C : Type} (NewVersion : gostr -> option V) (NewConstraint : gostr -> option C)
  (Check_ : C -> V -> bool) (GreaterThan : V -> V -> bool) (r : Resolver).

Definition step_reason (ds : list Dependency) (s : PlanStep) : Prop :=
  match sAction s with
  | PlanActionBundled => exists d, d ∈ ds /\ bundled (sName s) d = true
  | PlanActionSkip => is_Some (installed_at r (sName s))
  | PlanActionInstall => exists d, d ∈ ds /\ tier2 (sName s) d = true
  end.

Record shape (ds : list Dependency) (st : resolveState) : Prop := {
  sh_step n s : resolved st !! n = Some s -> sName s = n /\ n ∈ order st /\ step_reason ds s;
  sh_order n : n ∈ order st -> is_Some (resolved st !! n);
  sh_cover d : d ∈ ds -> is_Some (resolved st !! dName d)
}.

Lemma step_reason_snoc ds d s : step_reason ds s -> step_reason (ds ++ [d]) s.
Proof.
  unfold step_reason. destruct (sAction s); [|done|]; intros (e & ? & ?); exists e; set_solver.
Qed.

Lemma shape_same ds d st st' : shape ds st -> resolved st' = resolved st -> order st' = order st ->
  is_Some (resolved st !! dName d) -> shape (ds ++ [d]) st'.
Proof.
  intros [Hs Ho Hc] Hr Hord Hd. split; rewrite ?Hr, ?Hord.
  - intros n s (-> & ? & ?)%Hs. eauto using step_reason_snoc.
  - done.
  - intros e [He|He%list_elem_of_singleton]%elem_of_app; [by apply Hc|by subst].
Qed.

Lemma shape_put ds d st st' s : shape ds st -> resolved st' = <[dName d := s]> (resolved st) ->
  (order st' = order st ++ [dName d] \/ order st' = order st /\ dName d ∈ order st) ->
  sName s = dName d -> step_reason (ds ++ [d]) s -> shape (ds ++ [d]) st'.
Proof.
  intros [Hs Ho Hc] Hr Hord Hn Hok.
  assert (Hin : dName d ∈ order st' /\ forall n, n ∈ order st -> n ∈ order st').
  { destruct Hord as [->|[-> ?]]; set_solver. }
  split; rewrite ?Hr.
  - intros n t. rewrite lookup_insert_Some. intros [[<- <-]|[Hne Ht]]; [naive_solver|].
    apply Hs in Ht as (-> & ? & ?). split_and!; [done|naive_solver|by apply step_reason_snoc].
  - intros n Hin'. destruct (decide (n = dName d)) as [->|Hne]; [rewrite lookup_insert_eq; eauto|].
    rewrite lookup_insert_ne by done. apply Ho. destruct Hord as [E|[E _]]; rewrite E in Hin'; set_solver.
  - intros e He. destruct (decide (dName d = dName e)) as [<-|Hne]; [rewrite lookup_insert_eq; eauto|].
    rewrite lookup_insert_ne by done. apply Hc. set_solver.
Qed.

Lemma walk_dep_shape self ds d st st' : shape ds st ->
  walk_dep NewVersion NewConstraint Check_ GreaterThan r self d st = Ok st' -> shape (ds ++ [d]) st'.
Proof.
  intros Hsh. unfold walk_dep. case_str (dSource d) DependencySourceBundled as Eb.
  { destruct (resolved st !! dName d) as [e|] eqn:Ee; intros [= <-]; [by eapply shape_same; eauto|].
    eapply shape_put; [done|done|by left|done|]. exists d. split; [set_solver|].
    unfold bundled; simpl. by rewrite Eb, !str_eqb_refl. }
  destruct (str_eqb (dSource d) DependencySourceTier2) eqn:Et; cbn [negb]; [|done].
  destruct (str_eqb (dName d) self); [done|].
  assert (Hd : exists e, e ∈ ds ++ [d] /\ tier2 (dName d) e = true).
  { exists d. split; [set_solver|]. unfold tier2. by rewrite Et, str_eqb_refl. }
  assert (Hm : forall st1, walk_market NewVersion NewConstraint Check_ GreaterThan r d (add_constraint st d) = Ok st1 ->
    shape (ds ++ [d]) st1).
  { intros st1. unfold walk_market. destruct (Marketplace r) as [f|]; [|done].
    destruct (f _ _) as [[ip v]|]; [|done]. destruct (pickHighestSatisfying _ _ _ _ _ _); [|done].
    change (resolved (add_constraint st d)) with (resolved st).
    destruct (resolved st !! dName d) as [e|] eqn:Ee.
    - destruct (sh_step _ _ Hsh _ _ Ee) as (Hn & Hin & _).
      destruct (bool_decide (sAction e = PlanActionInstall)) eqn:Ea; cbn [andb];
        [|intros [= <-]; by eapply shape_same; eauto].
      apply bool_decide_eq_true in Ea.
      destruct (negb _); intros [= <-]; [|by eapply shape_same; eauto].
      eapply shape_put; [done|simpl; by rewrite Hn|by right|done|].
      unfold step_reason; simpl. by rewrite Ea.
    - intros [= <-]. eapply shape_put; [done|done|by left|done|]. exact Hd. }
  destruct (Installed r) as [inst|] eqn:Ei; [|apply Hm].
  destruct (inst (dName d)) as [[cur|]|] eqn:En; [|apply Hm|done].
  unfold walk_installed. destruct (negb _); [done|].
  change (resolved (add_constraint st d)) with (resolved st).
  destruct (resolved st !! dName d) as [e|] eqn:Ee.
  - destruct (_ && _); [done|]. intros [= <-]. by eapply shape_same; eauto.
  - intros [= <-]. eapply shape_put; [done|done|by left|done|].
    unfold step_reason, installed_at; simpl. rewrite Ei, En. eauto.
Qed.

Lemma walk_deps_shape self ds ds' st st' : shape ds st ->
  walk_deps NewVersion NewConstraint Check_ GreaterThan r self ds' st = Ok st' -> shape (ds ++ ds') st'.
Proof.
  revert ds st. induction ds' as [|d ds' IH]; intros ds st Hsh; simpl; [intros [= <-]; by rewrite app_nil_r|].
  destruct (walk_dep _ _ _ _ r self d st) as [st1|] eqn:E1; [|done]. intros H.
  replace (ds ++ d :: ds') with ((ds ++ [d]) ++ ds') by by rewrite <- app_assoc.
  eapply IH; [|done]. by eapply walk_dep_shape.
Qed.

(** Every dependency has a step, and every step but the root's a reason. *)
Lemma Plan_shape root steps :
  Plan NewVersion NewConstraint Check_ GreaterThan r root = Ok steps ->
  exists pre,
    steps = pre ++ [mkStep (pName root) (pVersion root) DependencySourceTier2 PlanActionInstall []] /\
    (forall s, s ∈ pre -> step_reason (Dependencies root) s) /\
    (forall d, d ∈ Dependencies root -> exists s, s ∈ pre /\ sName s = dName d).
Proof.
  unfold Plan, walk. destruct (0 <=? maxDepth r); [|done].
  destruct (negb _); [|done]. cbn [resolved order constraints visiting].
  destruct (walk_deps _ _ _ _ _ _ _ _) as [st|] eqn:Ew; [|done]. intros [= <-].
  eapply (walk_deps_shape _ []) in Ew; [|split; simpl; [by intros n s; rewrite lookup_empty|set_solver|set_solver]].
  eexists. split; [done|]. split.
  - intros s (n & Hn & Hs)%list_elem_of_omap. by apply (sh_step _ _ Ew _ _ Hs).
  - intros d Hd. destruct (sh_cover _ _ Ew d Hd) as [s Hs]. destruct (sh_step _ _ Ew _ _ Hs) as (Hn & Hin & _).
    exists s. split; [|done]. apply list_elem_of_omap. by exists (dName d).
Qed.
End PlanShape.

(** ** The manifest in a tarball

    What unpacking finds does not depend on where it unpacks to, as long
    as what was written to a file is read back from it. *)

Definition entry_effect (e : tar_entry) (st : extract_state) : extract_state :=
  let rel := rel_name (eName e) in
  match eType e with
  | TypeDir => mkExtract (remaining st) (manifestBytes st) (Package.hasUI st || str_eqb rel #"ui")
  | TypeReg =>
      let data := limit (remaining st) (eData e) in
      mkExtract (remaining st - Z.of_nat (length data))
        (if str_eqb rel manifest_yaml then Some data else manifestBytes st)
        (Package.hasUI st || is_ui_path rel)
  | TypeOther => st
  end.

Definition archive_effect (es : archive) : extract_state :=
  fold_left (fun st o => match o with Some e => entry_effect e st | None => st end) es
    (mkExtract maxExtractBytes None false).

Definition tar_manifest (untar : gostr -> option archive) (tb : gostr) : option gostr :=
  untar tb ≫= fun es => manifestBytes (archive_effect es).

Section TarManifest.
Context {W : Type} `{!Disk W} (untar : gostr -> option archive).

Definition reads_back : Prop := forall p data w w' w'' b,
  WriteFile p data w = (w', true) -> ReadFile p w' = (w'', Some b) -> b = data.

Context (Hrb : reads_back).

Lemma extract_entry_effect d e st w w' st' : is_rooted d = true ->
  extract_entry d e st w = (w', Some (Ok st')) -> st' = entry_effect e st.
Proof.
  intros Hd. unfold extract_entry, entry_effect. destruct (contains _ _); [done|].
  rewrite Rel_name by done. destruct (has_prefix _ _); [done|]. destruct (eType e).
  - unfold extract_dir, bind, call. destruct (MkdirAll _ w) as [w1 [|]]; cbn [negb]; by intros [= _ <-].
  - unfold extract_file. destruct (_ <? _); [done|]. unfold bind, call.
    destruct (MkdirAll _ w) as [w1 [|]]; cbn [negb]; [|done].
    destruct (WriteFile _ _ w1) as [w2 [|]] eqn:Ew; cbn [negb]; [|done].
    destruct (_ && _); [done|]. destruct (str_eqb (rel_name _) manifest_yaml); [|by intros [= _ <-]].
    destruct (ReadFile _ w2) as [w3 [b|]] eqn:Er; [|done]. rewrite (Hrb _ _ _ _ _ _ Ew Er).
    by intros [= _ <-].
  - by intros [= _ <-].
Qed.

Lemma extract_entries_effect d es st w w' st' : is_rooted d = true ->
  extract_entries d es st w = (w', Some (Ok st')) ->
  st' = fold_left (fun st o => match o with Some e => entry_effect e st | None => st end) es st.
Proof.
  intros Hd. revert st w. induction es as [|[e|] es IH]; intros st w; simpl; [by intros [= _ <-]| |done].
  unfold bind. destruct (extract_entry d e st w) as [w1 [[st1|]|]] eqn:E1; [|done..].
  intros H. apply extract_entry_effect in E1; [|done]. subst st1. by eapply IH.
Qed.

Lemma ExtractTarball_manifest tb d w w' mb u : is_rooted d = true ->
  ExtractTarball untar tb d w = (w', Some (Ok (mb, u))) -> tar_manifest untar tb = Some mb.
Proof.
  intros Hd. unfold ExtractTarball, tar_manifest, bind, call.
  destruct (MkdirAll d w) as [w1 [|]]; cbn [negb]; [|done]. destruct (untar tb) as [es|]; [|done].
  destruct (extract_entries d es _ w1) as [w2 [[st|]|]] eqn:E; [|done..].
  apply extract_entries_effect in E; [|done]. fold (archive_effect es) in E. subst st. simpl.
  destruct (manifestBytes _); [|done]. by intros [= _ <- _].
Qed.

Lemma extract_returns tb d : returns (ExtractTarball (W := W) untar tb d).
Proof.
  assert (He : forall e st, returns (extract_entry d e st)).
  { intros e st. unfold extract_entry. destruct (contains _ _); [auto with eff|].
    destruct (Rel _ _); [|auto with eff]. destruct (has_prefix _ _); [auto with eff|].
    destruct (eType e); [|unfold extract_file; destruct (_ <? _); [auto with eff|]|auto with eff].
    - apply returns_bind; [auto with eff|]. intros ok. destruct (negb ok); auto with eff.
    - apply returns_bind; [auto with eff|]. intros ok. destruct (negb ok); [auto with eff|].
      apply returns_bind; [auto with eff|]. intros ok'. destruct (negb ok'); [auto with eff|].
      destruct (_ && _); [auto with eff|]. destruct (str_eqb _ _); [|auto with eff].
      apply returns_bind; [auto with eff|]. intros [b|]; auto with eff. }
  assert (Hes : forall es st, returns (extract_entries d es st)).
  { intros es. induction es as [|[e|] es IH]; intros st; simpl; [auto with eff| |auto with eff].
    apply returns_bind; [apply He|]. intros [st'|]; auto with eff. }
  apply returns_bind; [auto with eff|]. intros ok. destruct (negb ok); [auto with eff|].
  destruct (untar tb); [|auto with eff]. apply returns_bind; [apply Hes|].
  intros [st|]; [|auto with eff]. destruct (manifestBytes st); auto with eff.
Qed.
End TarManifest.

(** ** Laws of the interfaces

    [db] is the table of plugins; only its own statements change it.  A
    read may fail, which looks like a missing row.  The catalogue
    [published] does not change, and [trusted] is what the signature check
    lets through. *)

Definition keeps {W A B} (view : W -> B) (f : W -> W * A) : Prop := forall w, view (f w).1 = view w.

Class LifecycleLaws (W : Type)
    `{!PluginStore W, !Market W, !Disk W, !Deployer W, !NeedsProvisioner W} := {
  db : W -> gmap gostr PluginRow;
  published : gostr -> gostr -> gostr -> option gostr;
  trusted : gostr -> Prop;
  get_keeps n : keeps db (GetPluginByName n);
  get_row n w row : (GetPluginByName n w).2 = Some row -> db w !! n = Some row;
  list_keeps : keeps db ListPlugins;
  list_rows w rows : (ListPlugins w).2 = Some rows -> rows ≡ₚ (map_to_list (db w)).*2;
  create_some id n ver js st w w' row : CreatePlugin id n ver js st w = (w', Some row) ->
    db w !! n = None /\ db w' = <[n := row]> (db w) /\
    rowName row = n /\ rowVersion row = ver /\ rowManifest row = js;
  create_none id n ver js st w w' : CreatePlugin id n ver js st w = (w', None) -> db w' = db w;
  update_some n ver js st w w' row : UpdatePlugin n ver js st w = (w', Some row) ->
    is_Some (db w !! n) /\ db w' = <[n := row]> (db w) /\
    rowName row = n /\ rowVersion row = ver /\ rowManifest row = js;
  update_none n ver js st w w' : UpdatePlugin n ver js st w = (w', None) -> db w' = db w;
  delete_row n w w' : DeletePlugin n w = (w', true) -> db w' = delete n (db w);
  delete_failed n w w' : DeletePlugin n w = (w', false) -> db w' = db w;
  addres_keeps id k rid : keeps db (AddPluginResource id k rid);
  listres_keeps id : keeps db (ListPluginResources id);
  uuid_keeps : keeps db NewUUID;
  multi_find_keeps n v mp : keeps db (Multi_FindVersion n v mp);
  multi_download_keeps mp iv : keeps db (Multi_DownloadAndVerify mp iv);
  find_keeps n v : keeps db (Single_FindVersion n v);
  download_keeps iv : keeps db (DownloadArtifacts iv);
  verify_keeps tb sig : keeps db (VerifySignature tb sig);
  temp_keeps : keeps db MkdirTemp;
  mkdir_keeps p : keeps db (MkdirAll p);
  write_keeps p data : keeps db (WriteFile p data);
  read_keeps p : keeps db (ReadFile p);
  remove_keeps p : keeps db (RemoveAll p);
  stat_keeps p : keeps db (Stat p);
  disk_reads_back : reads_back (W := W);
  temp_rooted w d : (MkdirTemp w).2 = Some d -> is_rooted d = true;
  deploy_install_keeps p : keeps db (deploy_Install p);
  deploy_uninstall_keeps n : keeps db (deploy_Uninstall n);
  deploy_restart_keeps n : keeps db (deploy_Restart n);
  deploy_logs_keeps n k : keeps db (deploy_Logs n k);
  provision_keeps n i x : respects (fun w w' => db w' = db w) (provision n i x);
  unprovision_keeps n r : respects (fun w w' => db w' = db w) (unprovision n r);
  multi_published n v mp mpID iv w w1 w2 w3 tb :
    Multi_FindVersion n v mp w = (w1, Some (iv, mpID)) ->
    Multi_DownloadAndVerify mpID iv w2 = (w3, Some tb) -> published n v mp = Some tb /\ trusted tb;
  single_published n v mp iv w w1 w2 w3 tb sig :
    Single_FindVersion n v w = (w1, Some iv) ->
    DownloadArtifacts iv w2 = (w3, Some (tb, sig)) -> published n v mp = Some tb;
  signature_trusted tb sig w w' : VerifySignature tb sig w = (w', true) -> trusted tb
}.

Section Life.
Context {W V C : Type}
  `{!PluginStore W, !Market W, !Disk W, !Deployer W, !NeedsProvisioner W} `{!LifecycleLaws W}
  (cd : Codec V C) (m : Manager).

Notation S_ := (MSt W).
Notation rows s := (db (host s)).

(** The outside may change, the tables do not. *)
Definition quiet (s s' : S_) : Prop :=
  locks s' = locks s /\ router s' = router s /\ ui s' = ui s /\ rows s' = rows s.

#[local] Instance quiet_refl : Reflexive quiet.
Proof. by intros s. Qed.
#[local] Instance quiet_trans : Transitive quiet.
Proof. intros s1 s2 s3 (?&?&?&?) (?&?&?&?). unfold quiet. split_and!; congruence. Qed.
#[local] Instance db_refl : Reflexive (fun w w' : W => db w' = db w).
Proof. by intros w. Qed.
#[local] Instance db_trans : Transitive (fun w w' : W => db w' = db w).
Proof. intros w1 w2 w3 ? ?. congruence. Qed.

Lemma on_host_quiet {A} (c : M W A) :
  respects (fun w w' => db w' = db w) c -> respects quiet (on_host c).
Proof. intros H s. unfold on_host. specialize (H (host s)). destruct (c (host s)) as [w r]. done. Qed.

Lemma op_quiet {A} (f : W -> W * A) : keeps db f -> respects quiet (op f).
Proof. intros H. apply on_host_quiet, respects_call. exact H. Qed.

Lemma get_state_quiet : respects quiet get_state.
Proof. by intros s. Qed.

#[local] Hint Resolve get_state_quiet op_quiet on_host_quiet get_keeps list_keeps addres_keeps listres_keeps
  uuid_keeps multi_find_keeps multi_download_keeps find_keeps download_keeps verify_keeps temp_keeps
  mkdir_keeps write_keeps read_keeps remove_keeps stat_keeps deploy_install_keeps
  deploy_uninstall_keeps deploy_restart_keeps deploy_logs_keeps provision_keeps unprovision_keeps : eff.

(** One step of a run that returned, which left the tables alone. *)
Ltac quiet_step H s x E Q :=
  run H as s x E;
  match type of E with ?c ?s0 = _ =>
    assert (quiet s0 s) as Q by (apply (respects_run quiet c s0 s (Some x)); [eauto with eff|exact E])
  end.

Lemma remove_all_quiet p : respects quiet (remove_all p).
Proof.
  unfold remove_all. auto with eff typeclass_instances.
Qed.

Lemma unwind_quiet n rs : respects (fun w w' => db w' = db w) (unwind n rs).
Proof.
  induction rs as [|r rs IH]; simpl; [by apply respects_ret; apply _|].
  apply respects_bind; [apply _|apply unprovision_keeps|]. intros e.
  apply respects_bind; [apply _|done|]. intros. apply respects_ret. apply _.
Qed.

Lemma run_needs_quiet n i ns done_ : respects (fun w w' => db w' = db w) (run_needs n i ns done_).
Proof.
  revert i done_. induction ns as [|x ns IH]; intros i done_; simpl; [apply respects_ret; apply _|].
  apply respects_bind; [apply _|apply provision_keeps|]. intros [id|e]; [apply IH|].
  apply respects_bind; [apply _|apply unwind_quiet|]. intros. apply respects_ret. apply _.
Qed.

Lemma extract_quiet tb d : is_rooted d = true ->
  respects quiet (on_host (ExtractTarball (untar cd) tb d)).
Proof.
  intros Hd. apply on_host_quiet. unfold ExtractTarball.
  apply respects_bind; [apply _|apply respects_call, mkdir_keeps|]. intros ok.
  destruct (negb ok); [apply respects_ret; apply _|].
  destruct (untar cd tb) as [es|]; [|apply respects_ret; apply _].
  apply respects_bind; [apply _| |].
  - apply extract_entries_footprint; [apply _|apply _|done|..]; intros;
      [apply mkdir_keeps|apply write_keeps|apply read_keeps].
  - intros [st|]; [|apply respects_ret; apply _]. destruct (manifestBytes st); apply respects_ret; apply _.
Qed.

(** ** Fetching and planning *)

(** A signature check is wired. *)
Definition verifying : Prop := hasMulti m = true \/ hasVerifier m = true.

(** The manifest of a tarball, when it is one that validates. *)
Definition manifest_in (tb : gostr) : option Plugin :=
  mb ← tar_manifest (untar cd) tb;
  match parse_manifest cd mb with Ok p => Some p | Err _ => None end.

(** The tarball published under this name and version holds [p]. *)
Definition offers (n v mp : gostr) (p : Plugin) : Prop := exists tb,
  published n v mp = Some tb /\ (verifying -> trusted tb) /\ manifest_in tb = Some p.

Lemma op_run {A} (f : W -> W * A) s s' a : op f s = (s', Some a) ->
  f (host s) = (host s', a).
Proof. unfold op, on_host, call. destruct (f (host s)) as [w b]. by intros [= <- <-]. Qed.

Lemma op_get n s s' row : op (GetPluginByName n) s = (s', Some (Some row)) ->
  rows s !! n = Some row.
Proof. intros H%op_run. apply get_row. by rewrite H. Qed.

Lemma fetch_spec n v mp s s' r : fetchVerifiedTarball m n v mp s = (s', Some r) ->
  quiet s s' /\
  match r with
  | Ok tb => published n v mp = Some tb /\ (verifying -> trusted tb)
  | Err _ => True
  end.
Proof.
  unfold fetchVerifiedTarball. intros H.
  destruct (hasMulti m) eqn:Em; [|destruct (hasMarketplace m); [|by apply ret_returned in H as [-> ->]]].
  - quiet_step H s1 f E1 Q1. destruct f as [[iv mpID]|]; [|by apply ret_returned in H as [-> ->]].
    quiet_step H s2 t E2 Q2. apply ret_returned in H as [-> ->]. split; [by etransitivity|].
    apply op_run in E1, E2. destruct t as [tb|]; [|done].
    destruct (multi_published _ _ _ _ _ _ _ _ _ _ E1 E2). done.
  - quiet_step H s1 f E1 Q1. destruct f as [iv|]; [|by apply ret_returned in H as [-> ->]].
    quiet_step H s2 a E2 Q2.
    destruct a as [[tb sig]|]; [|apply ret_returned in H as [-> ->]; split; [by etransitivity|done]].
    apply op_run in E1, E2. pose proof (single_published _ _ mp _ _ _ _ _ _ _ E1 E2) as Hp.
    destruct (hasVerifier m) eqn:Ev.
    + quiet_step H s3 ok E3 Q3. apply ret_returned in H as [-> ->].
      split; [etransitivity; [|done]; by etransitivity|].
      apply op_run in E3. destruct ok; [|done]. split; [done|]. intros _. by eapply signature_trusted.
    + apply ret_returned in H as [-> ->]. split; [by etransitivity|]. split; [done|].
      unfold verifying. rewrite Em, Ev. by intros [?|?].
Qed.

Lemma remove_all_run p s s' r : remove_all p s = (s', r) -> quiet s s'.
Proof. apply respects_run, remove_all_quiet. Qed.

Lemma extract_run tb d s s' x : is_rooted d = true ->
  on_host (ExtractTarball (untar cd) tb d) s = (s', Some x) -> quiet s s' /\
  match x with Ok (mb, _) => tar_manifest (untar cd) tb = Some mb | Err _ => True end.
Proof.
  intros Hd H. split; [by eapply respects_run; [apply extract_quiet|]|]. destruct x as [[mb u]|]; [|done].
  unfold on_host in H. destruct (ExtractTarball _ tb d (host s)) as [w [r|]] eqn:E; [|done].
  injection H as _ ->. eapply ExtractTarball_manifest; [apply disk_reads_back|exact Hd|exact E].
Qed.

Lemma Join_rooted d n : is_rooted d = true -> is_rooted (Join [d; n]) = true.
Proof.
  intros [q ->]%is_rooted_iff.
  assert (Hr : forall p, is_rooted (Clean ("/"%char :: p)) = true)
    by (intros p; rewrite Clean_rooted by apply is_rooted_cons; apply is_rooted_cons).
  destruct n; apply Hr.
Qed.

Lemma dest_dir_rooted (u : UIAssets) n : is_rooted (Root u) = true -> is_rooted (dest_dir m u n) = true.
Proof. intros Hu. apply Join_rooted. by destruct (_ && _). Qed.

Lemma parse_offers n v mp tb mb p : published n v mp = Some tb -> (verifying -> trusted tb) ->
  tar_manifest (untar cd) tb = Some mb -> parse_manifest cd mb = Ok p -> offers n v mp p.
Proof. intros Hp Ht Hm E. exists tb. unfold manifest_in. rewrite Hm. simpl. by rewrite E. Qed.

Lemma unpack_spec n v mp s s' r : is_rooted (Root (ui s)) = true ->
  fetchVerifyUnpackProvision cd m n v mp s = (s', Some r) ->
  quiet s s' /\
  match r with
  | Ok (p, _, _, _) => offers n v mp p /\ pName p = n
  | Err _ => True
  end.
Proof.
  intros Hroot H. unfold fetchVerifyUnpackProvision in H.
  run H as s1 tb E1. apply fetch_spec in E1 as [Q1 Htb].
  destruct tb as [tb|]; [|by apply ret_returned in H as [-> ->]]. destruct Htb as [Hpub Htr].
  run H as s1' su E2. injection E2 as <- <-.
  run H as s2 u2 E2. apply remove_all_run in E2.
  run H as s3 x E3. apply extract_run in E3 as [Q3 Hx];
    [|apply dest_dir_rooted; destruct Q1 as (_ & _ & -> & _); done].
  assert (Q : quiet s s3) by (etransitivity; [|done]; by etransitivity).
  destruct x as [[mb uid]|]; [|by apply ret_returned in H as [-> ->]].
  destruct (parse_manifest cd mb) as [p|] eqn:Ep;
    [|run H as s4 u4 E4; apply remove_all_run in E4; apply ret_returned in H as [-> ->];
      split; [by etransitivity|done]].
  case_str (pName p) n as En; cbn [negb] in H;
    [|run H as s4 u4 E4; apply remove_all_run in E4; apply ret_returned in H as [-> ->];
      split; [by etransitivity|done]].
  run H as s4 rs E4. apply respects_run with (R := quiet) in E4;
    [|apply on_host_quiet, run_needs_quiet].
  destruct rs as [rs [[e es]|]].
  - run H as s5 u5 E5. apply remove_all_run in E5. apply ret_returned in H as [-> ->].
    split; [|done]. etransitivity; [exact Q|]. by etransitivity.
  - apply ret_returned in H as [-> ->]. split; [by etransitivity|]. split; [|done].
    by eapply parse_offers.
Qed.

Lemma planning_spec n v mp s s' r : manifest_for_planning cd m n v mp s = (s', Some r) ->
  quiet s s' /\ match r with Ok p => offers n v mp p | Err _ => True end.
Proof.
  unfold manifest_for_planning. intros H.
  run H as s1 tb E1. apply fetch_spec in E1 as [Q1 Htb].
  destruct tb as [tb|]; [|by apply ret_returned in H as [-> ->]]. destruct Htb as [Hpub Htr].
  quiet_step H s2 d E2 Q2. destruct d as [d|];
    [|apply ret_returned in H as [-> ->]; split; [by etransitivity|done]].
  assert (Hd : is_rooted d = true) by (apply op_run in E2; eapply temp_rooted; by rewrite E2).
  run H as s3 x E3. apply extract_run in E3 as [Q3 Hx]; [|done].
  run H as s4 u4 E4. apply remove_all_run in E4.
  assert (Q : quiet s s4) by (etransitivity; [exact Q1|]; etransitivity; [exact Q2|]; by etransitivity).
  destruct x as [[mb uid]|]; apply ret_returned in H as [-> ->]; [|done]. split; [done|].
  destruct (parse_manifest cd mb) as [p|] eqn:Ep; [|done]. by eapply parse_offers.
Qed.

(** A name the resolver saw installed has a row. *)
Lemma resolver_installed w n : is_Some (installed_at (resolver_for m w) n) -> is_Some (db w !! n).
Proof.
  unfold installed_at, resolver_for; simpl. intros [v Hv].
  destruct (GetPluginByName n w).2 as [row|] eqn:E; [|done]. apply get_row in E. eauto.
Qed.

Definition needs_installed (p : Plugin) (d : Dependency) : Prop :=
  d ∈ Dependencies p /\ dSource d = DependencySourceTier2 /\
  (forall b, b ∈ Dependencies p -> bundled (dName d) b = false).

Lemma planInstall_spec n v mp s s' r : planInstall cd m n v mp s = (s', Some r) ->
  quiet s s' /\
  match r with
  | Ok plan => exists p, offers n v mp p /\
      (forall d, needs_installed p d ->
         is_Some (rows s' !! dName d) \/
         exists st, st ∈ plan /\ sName st = dName d /\ sAction st = PlanActionInstall) /\
      (forall st, st ∈ plan -> sAction st = PlanActionInstall ->
         sName st = pName p \/ exists d, d ∈ Dependencies p /\ tier2 (sName st) d = true)
  | Err _ => True
  end.
Proof.
  unfold planInstall. intros H. run H as s1 x E1. apply planning_spec in E1 as [Q1 Hx].
  destruct x as [p|]; [|by apply ret_returned in H as [-> ->]].
  run H as s2 su E2. injection E2 as <- <-. apply ret_returned in H as [-> ->]. split; [done|].
  destruct (Plan _ _ _ _ _ p) as [plan|] eqn:EP; [|done]. exists p. split; [done|].
  apply Plan_shape in EP as (pre & -> & Hreason & Hcover). split.
  - intros d (Hd & Hsrc & Hnb). destruct (Hcover d Hd) as (st & Hst & Hn).
    specialize (Hreason st Hst). unfold step_reason in Hreason. rewrite Hn in Hreason.
    destruct (sAction st) eqn:Ea.
    + right. exists st. split_and!; [set_solver|done..].
    + left. by apply resolver_installed.
    + destruct Hreason as (b & Hb & E). by rewrite (Hnb b Hb) in E.
  - intros st Hst Ha. apply elem_of_app in Hst as [Hst|Hst%list_elem_of_singleton]; [|subst st; by left].
    right. specialize (Hreason st Hst). unfold step_reason in Hreason. by rewrite Ha in Hreason.
Qed.

(** ** The invariant *)

(** [row] records the manifest [p]. *)
Definition row_for (p : Plugin) (row : PluginRow) : Prop :=
  rowName row = pName p /\ rowVersion row = pVersion p /\ json_marshal cd p = Some (rowManifest row).

(** The row of [n] records a manifest that was published, passed the
    signature check and validated, and is about [n]. *)
Definition row_ok (n : gostr) (row : PluginRow) : Prop :=
  exists v mp p, offers n v mp p /\ pName p = n /\ row_for p row.

(** Routes and UI bundles are served for installed plugins only. *)
Record core (s : S_) : Prop := {
  core_root : is_rooted (Root (ui s)) = true;
  core_rows n row : rows s !! n = Some row -> row_ok n row;
  core_routes n : hasRouter m = true -> is_Some (router s !! n) -> is_Some (rows s !! n);
  core_ui n : hasUI m = true -> is_Some (uiPlugins (ui s) !! n) -> is_Some (rows s !! n)
}.

(** What an installed plugin requires is installed. *)
Definition closed (rs : gmap gostr PluginRow) : Prop := forall n row p d,
  rs !! n = Some row -> json_unmarshal cd (rowManifest row) = Some p ->
  needs_installed p d -> is_Some (rs !! dName d).

Definition same_at (n : gostr) (s s' : S_) : Prop :=
  rows s' !! n = rows s !! n /\ router s' !! n = router s !! n /\
  uiPlugins (ui s') !! n = uiPlugins (ui s) !! n.

(** Only what is served for [n] may change. *)
Definition at_name (n : gostr) (s s' : S_) : Prop :=
  locks s' = locks s /\ rows s' = rows s /\ Root (ui s') = Root (ui s) /\
  (hasRouter m = false -> router s' = router s) /\ (hasUI m = false -> ui s' = ui s) /\
  forall k, k <> n -> router s' !! k = router s !! k /\ uiPlugins (ui s') !! k = uiPlugins (ui s) !! k.

#[local] Instance at_name_refl n : Reflexive (at_name n).
Proof. by intros s. Qed.
#[local] Instance at_name_trans n : Transitive (at_name n).
Proof.
  intros s1 s2 s3 (H1&H2&H3&H4&H5&H6) (G1&G2&G3&G4&G5&G6).
  split_and!; [congruence..|intros E; by rewrite G4, H4|intros E; by rewrite G5, H5|].
  intros k Hk. destruct (H6 k Hk), (G6 k Hk). split; congruence.
Qed.

Lemma quiet_at_name n s s' : quiet s s' -> at_name n s s'.
Proof. intros (?&Hr&Hu&?). split_and!; [done|done|by rewrite Hu|done|done|]. intros. by rewrite Hr, Hu. Qed.

Lemma respects_quiet_at n {A} (c : M S_ A) : respects quiet c -> respects (at_name n) c.
Proof. intros H s. apply quiet_at_name, H. Qed.

Lemma set_router_at n (f : Router -> Router) : hasRouter m = true ->
  (forall rt k, k <> n -> f rt !! k = rt !! k) ->
  respects (at_name n) (let! s := get_state in set_router (f (router s))).
Proof. intros E Hf s. unfold bind; simpl. split_and!; [done|done|done|congruence|done|]. intros k Hk. split; [by apply Hf|done]. Qed.

Lemma set_ui_at n (f : UIAssets -> UIAssets) : hasUI m = true ->
  (forall u, Root (f u) = Root u) -> (forall u k, k <> n -> uiPlugins (f u) !! k = uiPlugins u !! k) ->
  respects (at_name n) (let! s := get_state in set_ui (f (ui s))).
Proof. intros E H1 Hf s. unfold bind; simpl. split_and!; [done|done|apply H1|done|congruence|]. intros k Hk. split; [done|by apply Hf]. Qed.

Lemma Register_other u n dir k : k <> n -> uiPlugins (Register u n dir) !! k = uiPlugins u !! k.
Proof.
  intros Hk. unfold Register; simpl. destruct (str_eqb dir []);
    [by rewrite lookup_delete_ne|by rewrite lookup_insert_ne].
Qed.

Lemma unmount_at n : respects (at_name n) (unmount m n).
Proof.
  unfold unmount. destruct (hasRouter m) eqn:E; [|auto with eff typeclass_instances].
  apply (set_router_at n (fun rt => Unmount rt n)); [done|]. intros rt k Hk. apply lookup_delete_ne. congruence.
Qed.

Lemma deregister_at n : respects (at_name n) (deregister m n).
Proof.
  unfold deregister. destruct (hasUI m) eqn:E; [|auto with eff typeclass_instances].
  apply (set_ui_at n (fun u => Deregister u n)); [done|done|]. intros u k Hk. by apply Register_other.
Qed.

Lemma register_at n d : respects (at_name n) (register m n d).
Proof.
  unfold register. destruct (_ && _) eqn:E; [|auto with eff typeclass_instances].
  gobool in E. apply (set_ui_at n (fun u => Register u n d)); [naive_solver|done|]. intros u k Hk. by apply Register_other.
Qed.

Lemma mount_at n p : respects (at_name n) (mount cd m n p).
Proof.
  unfold mount. destruct (hasRouter m) eqn:Em; cbn [andb]; [|auto with eff typeclass_instances].
  destruct (_ <? _)%nat; [|auto with eff typeclass_instances].
  intros s. unfold bind, get_state. destruct (Mount _ (router s) n _) as [rt|] eqn:E; [|simpl; reflexivity].
  split_and!; [done|done|done|congruence|done|]. intros k Hk. split; [|done]. simpl. unfold Mount in E.
  destruct (mapM _ _); [|done]. injection E as <-. apply lookup_insert_ne. congruence.
Qed.

Lemma add_resources_quiet id rs : respects quiet (add_resources id rs).
Proof.
  unfold add_resources. apply respects_each; [apply _..|]. intros r _. eauto with eff typeclass_instances.
Qed.

Lemma rollback_quiet n d rs : respects quiet (rollback n d rs).
Proof.
  unfold rollback. apply respects_bind; [apply _|apply on_host_quiet, unwind_quiet|]. intros _.
  apply remove_all_quiet.
Qed.

#[local] Hint Resolve respects_quiet_at unmount_at deregister_at register_at mount_at
  add_resources_quiet rollback_quiet remove_all_quiet at_name_refl at_name_trans : eff.

(** ** The end of an install *)

Definition deletes_work : Prop := forall n w, (DeletePlugin n w).2 = true.

(** [s'] is [s] with a row for [p] at [n], or with no change to the table. *)
Definition persisted (n : gostr) (p : Plugin) (s s' : S_) : Prop :=
  rows s' = rows s \/
  exists row, rows s !! n = None /\ rows s' = <[n := row]> (rows s) /\ row_for p row.

Lemma core_quiet s s' : core s -> quiet s s' -> core s'.
Proof. intros [? ? ? ?] (_&Hr&Hu&Hd). split; rewrite ?Hr, ?Hu, ?Hd; auto. Qed.

(** The invariant, after a change that concerns [n] only. *)
Lemma core_change n s s' : core s -> Root (ui s') = Root (ui s) ->
  (forall k, k <> n -> same_at k s s') ->
  (forall row, rows s' !! n = Some row -> row_ok n row) ->
  is_Some (rows s' !! n) \/
    (hasRouter m = true -> router s' !! n = None) /\ (hasUI m = true -> uiPlugins (ui s') !! n = None) ->
  core s'.
Proof.
  intros [Hroot Hrows Hrt Hui] Hr Hk Hn Hs. split; [by rewrite Hr|..].
  - intros k row Hrow. destruct (decide (k = n)) as [->|Hne]; [by apply Hn|].
    destruct (Hk k Hne) as (E & _). rewrite E in Hrow. by apply Hrows.
  - intros k Hm Hin. destruct (decide (k = n)) as [->|Hne].
    + destruct Hs as [?|[Hs _]]; [done|]. rewrite Hs in Hin by done. by destruct Hin.
    + destruct (Hk k Hne) as (E & E' & _). rewrite E. rewrite E' in Hin. by apply Hrt.
  - intros k Hm Hin. destruct (decide (k = n)) as [->|Hne].
    + destruct Hs as [?|[_ Hs]]; [done|]. rewrite Hs in Hin by done. by destruct Hin.
    + destruct (Hk k Hne) as (E & _ & E'). rewrite E. rewrite E' in Hin. by apply Hui.
Qed.

(** Taking the name out of service. *)
Definition unserved (n : gostr) (s : S_) : Prop :=
  (hasRouter m = true -> router s !! n = None) /\ (hasUI m = true -> uiPlugins (ui s) !! n = None).

Lemma unserve_run n (s s1 s2 : S_) : unmount m n s = (s1, Some tt) ->
  deregister m n s1 = (s2, Some tt) -> at_name n s s2 /\ unserved n s2.
Proof.
  intros E1 E2. split.
  - etransitivity; (eapply respects_run; [|eassumption]); auto with eff.
  - unfold unserved, unmount, deregister in *. destruct (hasRouter m).
    + injection E1 as <-. destruct (hasUI m); [injection E2 as <-|apply ret_returned in E2 as [-> _]];
        (split; [|done || intros _]; intros; apply lookup_delete_eq).
    + apply ret_returned in E1 as [-> _]. split; [done|]. destruct (hasUI m); [|done].
      injection E2 as <-. intros _. apply lookup_delete_eq.
Qed.

Lemma create_run id n ver js st s s' row :
  op (CreatePlugin id n ver js st) s = (s', Some row) ->
  locks s' = locks s /\ router s' = router s /\ ui s' = ui s /\
  CreatePlugin id n ver js st (host s) = (host s', row).
Proof.
  intros H. split_and!; [..|by apply op_run]; unfold op, on_host, call in H;
    destruct (CreatePlugin _ _ _ _ _ _); by injection H as <- _.
Qed.

(** Registration, up to the deployment. *)
Definition install_serve (n : gostr) (p : Plugin) (uid : gostr) (row : PluginRow)
    (rs : list provisionedResource) : M S_ bool :=
  let! _ := add_resources (rowID row) rs in
  let! mt := mount cd m n p in
  let! _ := (match mt with
             | None => if hasLogger m then ret tt else panic
             | Some _ => ret tt
             end) in
  let! _ := register m n uid in
  if hasDeployer m then op (deploy_Install p) else ret true.

Lemma install_serve_at n p uid row rs : respects (at_name n) (install_serve n p uid row rs).
Proof.
  unfold install_serve. apply respects_bind; [apply _|auto with eff|]. intros _.
  apply respects_bind; [apply _|auto with eff|]. intros mt. apply respects_bind; [apply _| |].
  { intros s. destruct mt; [simpl; reflexivity|]. destruct (hasLogger m); simpl; reflexivity. }
  intros _. apply respects_bind; [apply _|auto with eff|]. intros _.
  destruct (hasDeployer m); [eauto with eff|apply respects_ret; apply _].
Qed.

(** What undoes a failed deployment. *)
Definition install_undo (n destDir : gostr) (rs : list provisionedResource) : M S_ unit :=
  let! _ := unmount m n in
  let! _ := deregister m n in
  let! _ := op (DeletePlugin n) in
  rollback n destDir rs.

Lemma install_finish_parts n plan p destDir uid rs s s' r :
  install_finish cd m n plan p destDir uid rs s = (s', Some r) ->
  (exists e, r = Err e /\ quiet s s') \/
  exists js id s1 s2 row ok,
    json_marshal cd p = Some js /\ quiet s s1 /\
    op (CreatePlugin id n (pVersion p) js StatusInstalled) s1 = (s2, Some row) /\
    match row with
    | None => exists e, r = Err e /\ quiet s2 s'
    | Some row => exists s3, install_serve n p uid row rs s2 = (s3, Some ok) /\
        if (ok : bool) then s' = s3 /\ is_ok r = true
        else install_undo n destDir rs s3 = (s', Some tt) /\ is_ok r = false
    end.
Proof.
  unfold install_finish. destruct (json_marshal cd p) as [js|]; intros H.
  2:{ left. run H as s1 u E. apply ret_returned in H as [-> ->]. eexists. split; [done|].
      eapply respects_run; [apply rollback_quiet|exact E]. }
  right. quiet_step H s1 pid E1 Q1. run H as s2 row E2. exists js, pid, s1, s2, row.
  destruct row as [row|].
  2:{ exists true. split_and!; [done..|]. run H as s3 u E. apply ret_returned in H as [-> ->]. eexists.
      split; [done|]. eapply respects_run; [apply rollback_quiet|exact E]. }
  run H as s3 u3 E3. run H as s4 mt E4. run H as s5 u5 E5. run H as s6 u6 E6. run H as s7 ok E7.
  exists ok. split_and!; [done..|]. exists s7. split.
  { unfold install_serve. unfold bind at 1. rewrite E3. unfold bind at 1. rewrite E4.
    unfold bind at 1. rewrite E5. unfold bind at 1. rewrite E6. exact E7. }
  destruct ok; cbn [negb] in H; [apply ret_returned in H as [-> ->]; done|].
  run H as s8 u8 E8. run H as s9 u9 E9. run H as s10 u10 E10. run H as s11 u11 E11.
  apply ret_returned in H as [-> ->]. split; [|done]. unfold install_undo.
  unfold bind at 1. rewrite E8. unfold bind at 1. rewrite E9. unfold bind at 1. rewrite E10.
  by destruct u11.
Qed.

Lemma delete_run n s s' ok : op (DeletePlugin n) s = (s', Some ok) ->
  locks s' = locks s /\ router s' = router s /\ ui s' = ui s /\
  rows s' = (if (ok : bool) then delete n (rows s) else rows s) /\ (deletes_work -> ok = true).
Proof.
  intros H. pose proof (op_run _ _ _ _ H) as E. split_and!.
  1-3: unfold op, on_host, call in H; destruct (DeletePlugin _ _); by injection H as <- _.
  - destruct ok; [by eapply delete_row|by eapply delete_failed].
  - intros Hw. specialize (Hw n (host s)). by rewrite E in Hw.
Qed.

Lemma undo_spec n d rs s s' : install_undo n d rs s = (s', Some tt) ->
  exists s1, at_name n s s1 /\ unserved n s' /\ locks s' = locks s /\ router s' = router s1 /\
    ui s' = ui s1 /\ exists ok : bool, rows s' = (if ok then delete n (rows s) else rows s) /\
      (deletes_work -> ok = true).
Proof.
  unfold install_undo. intros H. run H as s1 [] E1. run H as s2 [] E2. run H as s3 ok E3.
  destruct (unserve_run _ _ _ _ E1 E2) as [Ha Hu]. apply delete_run in E3 as (L3 & R3 & U3 & D3 & Hok).
  destruct (respects_run _ _ _ _ _ (rollback_quiet n d rs) H) as (L & R & U & D).
  exists s2. unfold unserved in *. rewrite R, U, R3, U3. pose proof Ha as (La & Da & _).
  split_and!; [done|apply Hu|apply Hu|congruence|done|done|].
  exists ok. split; [|done]. rewrite D, D3, Da. done.
Qed.

Lemma finish_spec n v mp plan p d uid rs s s' r : core s -> offers n v mp p -> pName p = n ->
  install_finish cd m n plan p d uid rs s = (s', Some r) ->
  core s' /\ locks s' = locks s /\ (forall k, k <> n -> same_at k s s') /\ persisted n p s s' /\
  match r with Ok _ => is_Some (rows s' !! n) | Err _ => deletes_work -> same_at n s s' end.
Proof.
  intros Hc Hof Hn H.
  assert (Hquiet : forall e, r = Err e -> quiet s s' ->
    core s' /\ locks s' = locks s /\ (forall k, k <> n -> same_at k s s') /\ persisted n p s s' /\
    match r with Ok _ => is_Some (rows s' !! n) | Err _ => deletes_work -> same_at n s s' end).
  { intros e -> Q. pose proof (core_quiet _ _ Hc Q) as Hc'. destruct Q as (L & R & U & D).
    unfold same_at, persisted. rewrite R, U, D. split_and!; auto. }
  apply install_finish_parts in H as [(e & -> & Q)|(js & id & s1 & s2 & row & ok & Hjs & Q1 & E2 & H)]; [by eauto|].
  destruct Q1 as (L1 & R1 & U1 & D1). apply create_run in E2 as (L2 & R2 & U2 & E2).
  destruct row as [row|].
  2:{ destruct H as (e & -> & L & R & U & D). apply create_none in E2. eapply Hquiet; [done|].
      split_and!; congruence. }
  destruct H as (s3 & E3 & H). apply create_some in E2 as (Hnone & Hdb & Hrn & Hrv & Hrm).
  rewrite D1 in Hnone, Hdb.
  assert (Hrow : row_for p row) by (split_and!; congruence).
  assert (Hok : row_ok n row) by (exists v, mp, p; done).
  destruct (respects_run _ _ _ _ _ (install_serve_at n p uid row rs) E3) as (L3 & D3 & U3 & F3 & G3 & K3).
  assert (K : forall k, k <> n -> router s3 !! k = router s !! k /\
    uiPlugins (ui s3) !! k = uiPlugins (ui s) !! k).
  { intros k Hk. destruct (K3 k Hk) as [-> ->]. by rewrite R2, R1, U2, U1. }
  destruct ok.
  - destruct H as [-> Hr].
    assert (Hsame : forall k, k <> n -> same_at k s s3).
    { intros k Hk. destruct (K k Hk). split_and!; [|done|done]. rewrite D3, Hdb. by apply lookup_insert_ne. }
    assert (Hin : rows s3 !! n = Some row) by (rewrite D3, Hdb; apply lookup_insert_eq).
    split_and!; [|congruence|done|right; exists row; rewrite D3; done|by destruct r; eauto].
    eapply (core_change n); [done|congruence|done| |by eauto]. intros row' E. congruence.
  - destruct H as [Hu Hr]. apply undo_spec in Hu as (s4 & (La & Da & Ra & Fa & Ga & Ka) & Hun & L & R & U & ok & D & Hdel).
    assert (Hsame : forall k, k <> n -> same_at k s s').
    { intros k Hk. destruct (K k Hk), (Ka k Hk). split_and!; [|congruence..].
      rewrite D, D3, Hdb. destruct ok; [rewrite lookup_delete_ne by done|]; by apply lookup_insert_ne. }
    assert (Hrt : hasRouter m = true -> router s !! n = None).
    { intros Hm. apply eq_None_not_Some. intros Hin. apply (core_routes _ Hc) in Hin; [|done].
      rewrite Hnone in Hin. by destruct Hin. }
    assert (Hui : hasUI m = true -> uiPlugins (ui s) !! n = None).
    { intros Hm. apply eq_None_not_Some. intros Hin. apply (core_ui _ Hc) in Hin; [|done].
      rewrite Hnone in Hin. by destruct Hin. }
    destruct Hun as (N1 & N2).
    assert (Hrows : rows s' = if ok then rows s else <[n := row]> (rows s)).
    { rewrite D, D3, Hdb. destruct ok; [by rewrite delete_insert_id|done]. }
    split_and!; [|congruence|done| |].
    + eapply (core_change n); [done|congruence|done| |].
      * intros row'. rewrite Hrows. destruct ok; [by rewrite Hnone|]. rewrite lookup_insert_eq. by intros [= <-].
      * by right.
    + destruct ok; [by left|]. right. exists row. done.
    + destruct r; [done|]. intros Hw. rewrite (Hdel Hw) in Hrows.
      split_and!; [by rewrite Hrows|..].
      * destruct (hasRouter m); [by rewrite N1, Hrt|]. by rewrite R, Fa, F3, R2, R1.
      * destruct (hasUI m); [by rewrite N2, Hui|]. by rewrite U, Ga, G3, U2, U1.
Qed.

(** ** Install *)

(** Encoding and decoding a manifest keeps its dependencies. *)
Definition json_keeps_deps : Prop := forall p js p',
  json_marshal cd p = Some js -> json_unmarshal cd js = Some p' -> Dependencies p' = Dependencies p.

(** The effect of a call that may install: rows are only added, what is
    locked by the caller stays as it is, and the invariants hold on. *)
Definition evolves (s s' : S_) : Prop := core s ->
  core s' /\ (json_keeps_deps -> closed (rows s) -> closed (rows s')) /\ locks s' = locks s /\
  rows s ⊆ rows s' /\ forall n, n ∈ locks s -> same_at n s s'.

#[local] Instance evolves_refl : Reflexive evolves.
Proof. intros s Hc. by split_and!. Qed.
#[local] Instance evolves_trans : Transitive evolves.
Proof.
  intros s1 s2 s3 H1 H2 Hc. destruct (H1 Hc) as (C2 & Cl2 & L2 & S2 & K2).
  destruct (H2 C2) as (C3 & Cl3 & L3 & S3 & K3). split_and!; [done|auto|congruence|by etransitivity|].
  intros n Hn. destruct (K2 n Hn) as (?&?&?), (K3 n ltac:(by rewrite L2)) as (?&?&?).
  split_and!; congruence.
Qed.

Lemma quiet_evolves s s' : quiet s s' -> evolves s s'.
Proof.
  intros Q Hc. pose proof (core_quiet _ _ Hc Q). destruct Q as (L & R & U & D).
  unfold same_at. rewrite R, U, D. by split_and!.
Qed.

(** A new row whose requirements are met keeps the table closed. *)
Lemma closed_insert rs n p row : json_keeps_deps -> closed rs -> rs !! n = None -> row_for p row ->
  (forall d, needs_installed p d -> dName d <> n -> is_Some (rs !! dName d)) -> closed (<[n := row]> rs).
Proof.
  intros Hj Hcl Hn (_ & _ & Hrow) Hd k row' p' d Hk Hp' Hneed.
  apply lookup_insert_is_Some'. destruct (decide (n = dName d)) as [E|Hne]; [by left|right].
  apply lookup_insert_Some in Hk as [[<- <-]|[_ Hk]]; [|by eapply Hcl].
  pose proof (Hj _ _ _ Hrow Hp') as E. apply Hd; [|done]. unfold needs_installed in *. by rewrite <- E.
Qed.

Definition install_outcome (n : gostr) (s s' : S_) (r : res life_err Installation) : Prop :=
  match r with Ok _ => is_Some (rows s' !! n) | Err _ => deletes_work -> same_at n s s' end.

Section Rec.
Context (rec : InstallRequest -> M S_ (res life_err Installation)).
Hypothesis Hrec : forall req s s' r, rec req s = (s', Some r) -> core s ->
  evolves s s' /\ install_outcome (reqName req) s s' r.

Lemma install_deps_spec req plan s s' o : install_deps rec req plan s = (s', Some o) -> core s ->
  evolves s s' /\
  (o = None -> forall st, st ∈ plan -> sAction st = PlanActionInstall -> sName st <> reqName req ->
     is_Some (rows s' !! sName st)).
Proof.
  revert s. induction plan as [|st plan IH]; intros s H Hc; simpl in H.
  { apply ret_returned in H as [-> ->]. split; [reflexivity|set_solver]. }
  assert (Hmore : forall s1, evolves s s1 -> install_deps rec req plan s1 = (s', Some o) ->
    (sAction st = PlanActionInstall -> sName st <> reqName req -> is_Some (rows s1 !! sName st)) ->
    evolves s s' /\ (o = None -> forall x, x ∈ st :: plan -> sAction x = PlanActionInstall ->
      sName x <> reqName req -> is_Some (rows s' !! sName x))).
  { intros s1 He Hrun Hst. destruct (He Hc) as (C1 & _). destruct (IH _ Hrun C1) as [He' Hall].
    split; [by etransitivity|]. intros Ho x [->|Hx]%elem_of_cons Ha Hne; [|by apply Hall].
    destruct (He' C1) as (_&_&_&Hsub&_). destruct (Hst Ha Hne) as [row Hrow]. exists row.
    by eapply lookup_weaken. }
  case_str (sName st) (reqName req) as En; [by apply (Hmore s)|].
  destruct (bool_decide _) eqn:Ea; cbn [negb] in H.
  2:{ apply (Hmore s); [reflexivity|done|]. apply bool_decide_eq_false in Ea. done. }
  quiet_step H s1 row E1 Q1. pose proof (quiet_evolves _ _ Q1) as He1.
  destruct row as [row|].
  { apply (Hmore s1); [done|done|]. intros _ _. apply op_get in E1. destruct Q1 as (_&_&_&->). eauto. }
  run H as s2 x E2. destruct (He1 Hc) as (C1 & _). apply Hrec in E2 as [He2 Hout]; [|done].
  destruct x as [x|e].
  - apply (Hmore s2); [by etransitivity|done|]. intros _ _. exact Hout.
  - apply ret_returned in H as [-> ->]. split; [by etransitivity|done].
Qed.

Lemma install_locked_spec req s s' r : install_locked cd m rec req s = (s', Some r) -> core s ->
  reqName req ∈ locks s ->
  core s' /\ (json_keeps_deps -> closed (rows s) -> closed (rows s')) /\ locks s' = locks s /\
  rows s ⊆ rows s' /\ (forall k, k ∈ locks s -> k <> reqName req -> same_at k s s') /\
  install_outcome (reqName req) s s' r.
Proof.
  intros H Hc Hin.
  assert (Hdone : forall e, r = Err e -> evolves s s' ->
    core s' /\ (json_keeps_deps -> closed (rows s) -> closed (rows s')) /\ locks s' = locks s /\
    rows s ⊆ rows s' /\ (forall k, k ∈ locks s -> k <> reqName req -> same_at k s s') /\
    install_outcome (reqName req) s s' r).
  { intros e -> He. destruct (He Hc) as (?&?&?&?&Hk). split_and!; auto. intros _. by apply Hk. }
  unfold install_locked in H. quiet_step H s1 row E1 Q1. apply quiet_evolves in Q1.
  destruct row as [row|]; [apply ret_returned in H as [-> ->]; by eapply Hdone|].
  run H as s2 x E2. apply planInstall_spec in E2 as [Q2 Hplan]. apply quiet_evolves in Q2.
  assert (He2 : evolves s s2) by by etransitivity.
  destruct x as [plan|]; [|apply ret_returned in H as [-> ->]; by eapply Hdone].
  destruct Hplan as (p0 & Hof0 & Hneed & _).
  run H as s3 o E3. destruct (He2 Hc) as (C2 & _). apply install_deps_spec in E3 as [He3 Hdeps]; [|done].
  assert (Hes3 : evolves s s3) by by etransitivity.
  destruct o as [e|]; [apply ret_returned in H as [-> ->]; by eapply Hdone|]. specialize (Hdeps eq_refl).
  destruct (He3 C2) as (C3 & _ & _ & Hsub3 & _).
  run H as s4 f E4. apply unpack_spec in E4 as [Q4 Hf]; [|apply C3]. pose proof (quiet_evolves _ _ Q4) as He4.
  assert (Hes4 : evolves s s4) by by etransitivity.
  destruct f as [[[[p d] uid] rs]|]; [|apply ret_returned in H as [-> ->]; by eapply Hdone].
  destruct Hf as [Hof Hpn]. destruct (Hes4 Hc) as (C4 & Cl4 & L4 & Hsub4 & K4).
  eapply finish_spec in H as (C' & L' & K' & Hper & Hout); [|done..].
  assert (p0 = p) as -> by (destruct Hof as (tb & E & _ & E'), Hof0 as (tb0 & F & _ & F'); congruence).
  split_and!; [done| |congruence| | |].
  - intros Hj Hcl. specialize (Cl4 Hj Hcl). destruct Hper as [->|(row & Hn & -> & Hrow)]; [done|].
    eapply closed_insert; [done..|]. intros dep Hdep Hne. destruct Q4 as (_&_&_&->).
    destruct (Hneed dep Hdep) as [[row' Hrow']|(st & Hst & Hsn & Ha)].
    + exists row'. by eapply lookup_weaken.
    + rewrite <- Hsn. apply Hdeps; [done|done|]. by rewrite Hsn.
  - etransitivity; [exact Hsub4|]. destruct Hper as [->|(row & Hn & -> & _)]; [done|by apply insert_subseteq].
  - intros k Hk Hne. destruct (K4 k Hk) as (?&?&?), (K' k Hne) as (?&?&?). split_and!; congruence.
  - unfold install_outcome in *. destruct r; [done|]. intros Hw.
    destruct (Hout Hw) as (?&?&?), (K4 _ Hin) as (?&?&?). split_and!; congruence.
Qed.
End Rec.

Lemma with_lock_run {A} n (c : M S_ A) (s s' : S_) r : with_lock n c s = (s', Some r) ->
  n ∉ locks s /\ exists s1, c (mkMSt ({[n]} ∪ locks s) (router s) (ui s) (host s)) = (s1, Some r) /\
    s' = mkMSt (locks s1 ∖ {[n]}) (router s1) (ui s1) (host s1).
Proof.
  unfold with_lock, lock. intros H. run H as s0 u E0. case_bool_decide; [done|]. injection E0 as <- _.
  split; [done|]. run H as s1 x E1. run H as s2 u2 E2. injection E2 as <- _.
  apply ret_returned in H as [-> ->]. by exists s1.
Qed.

Lemma Install_spec fuel req s s' r : Install cd m fuel req s = (s', Some r) -> core s ->
  evolves s s' /\ install_outcome (reqName req) s s' r.
Proof.
  revert req s s' r. induction fuel as [|fuel IH]; intros req s s' r H Hc; [done|]. simpl in H.
  destruct (str_eqb (reqName req) []); [by apply ret_returned in H as [-> ->]|].
  destruct (negb (hasStore m)); [by apply ret_returned in H as [-> ->]|].
  apply with_lock_run in H as (Hnl & s1 & H & ->).
  eapply install_locked_spec in H as (C1 & Cl1 & L1 & Hsub & K1 & Hout); [|done|by destruct Hc|simpl; set_solver].
  simpl in *. split; [|done]. intros _. split_and!; simpl; [by destruct C1|done|rewrite L1; set_solver|done|].
  intros n Hn. apply K1; set_solver.
Qed.
End Life.
