(* ===== verification/PluginLifecycleCorrect.v ===== *)
(** * The plugin lifecycle: invariants, failures, termination

    Sequences of calls keep the tables sound; a failed install leaves the
    name as it was; installing ends when the dependencies of what is
    published are well-founded, and never ends when they are not. *)

From S2P Require Import Prelude GoStrings GoPath Regex Effects Plugins PluginsPlan.
From S2P Require Import PluginPackage PluginPackageCorrect PluginNeeds PluginRouter PluginLifecycle.
From S2P Require Import PluginLifecycleInv.
Import Manifest Package NeedsM RouterM LifecycleM.

Section Calls.
Context {W V C : Type}
  `{!PluginStore W, !Market W, !Disk W, !Deployer W, !NeedsProvisioner W} `{!LifecycleLaws W}
  (cd : Codec V C) (m : Manager).

Notation S_ := (MSt W).
Notation rows s := (db (host s)).
Notation core := (core cd m).
Notation closed := (closed cd).

#[local] Existing Instances quiet_refl quiet_trans at_name_refl at_name_trans.
#[local] Hint Resolve get_state_quiet op_quiet on_host_quiet get_keeps list_keeps listres_keeps
  stat_keeps remove_keeps deploy_install_keeps deploy_uninstall_keeps deploy_restart_keeps
  respects_quiet_at unmount_at deregister_at register_at mount_at
  add_resources_quiet rollback_quiet remove_all_quiet : eff.

Ltac quiet_step H s x E Q :=
  run H as s x E;
  match type of E with ?c ?s0 = _ =>
    assert (quiet s0 s) as Q by (apply (respects_run quiet c s0 s (Some x)); [eauto with eff|exact E])
  end.

Lemma quiet_same_at s s' n : quiet s s' -> same_at n s s'.
Proof. intros (_ & R & U & D). unfold same_at. by rewrite R, U, D. Qed.

Lemma core_locks l s : core s -> core (mkMSt l (router s) (ui s) (host s)).
Proof. by intros [? ? ? ?]. Qed.

(** ** Uninstall *)

Definition listing_works : Prop := forall w, is_Some (ListPlugins w).2.

Lemma plugins_list_run s s' rs : op ListPlugins s = (s', Some (Some rs)) ->
  forall row, row ∈ rs <-> exists n, rows s !! n = Some row.
Proof.
  intros H%op_run row. rewrite (list_rows (host s) rs ltac:(by rewrite H)).
  rewrite list_elem_of_fmap. split.
  - intros ([n x] & -> & E%elem_of_map_to_list). by exists n.
  - intros (n & E). exists (n, row). split; [done|]. by apply elem_of_map_to_list.
Qed.

Lemma dependents_elem rs n row p d : row ∈ rs -> rowName row <> n ->
  json_unmarshal cd (rowManifest row) = Some p -> d ∈ Dependencies p ->
  dSource d = DependencySourceTier2 -> dName d = n -> dependents cd rs n <> [].
Proof.
  intros Hrow Hn Hp Hd Hs Hdn Hnil.
  assert (Hin : rowName row ∈ dependents cd rs n); [|by rewrite Hnil in Hin; set_solver].
  apply list_elem_of_omap. exists row. split; [done|]. case_str (rowName row) n as E; [done|].
  rewrite Hp. assert (depends_on n p = true) as ->; [|done].
  apply existsb_exists. exists d. split; [by apply list_elem_of_In|]. by rewrite Hs, Hdn, !str_eqb_refl.
Qed.

(** Deleting a row nobody requires keeps the table closed. *)
Lemma closed_delete rs ls n : closed rs -> (forall row, row ∈ ls <-> exists k, rs !! k = Some row) ->
  (forall k row, rs !! k = Some row -> rowName row = k) -> dependents cd ls n = [] ->
  closed (delete n rs).
Proof.
  intros Hcl Hls Hnames Hdep k row p d Hk Hp Hneed. apply lookup_delete_Some in Hk as [Hne Hk].
  destruct (Hcl _ _ _ _ Hk Hp Hneed) as [row' Hrow']. exists row'.
  apply lookup_delete_Some. split; [|done]. intros E. destruct Hneed as (Hd & Hs & _).
  apply (dependents_elem ls n row p d); [apply Hls; by exists k|by rewrite (Hnames _ _ Hk)|done..].
Qed.

Lemma core_row_name s n row : core s -> rows s !! n = Some row -> rowName row = n.
Proof. intros Hc Hr. destruct (core_rows _ _ _ Hc _ _ Hr) as (v & mp & p & _ & <- & E & _). done. Qed.

Definition uninstall_tail (name id : gostr) (opts : UninstallOptions) : M S_ bool :=
  let! _ := (if Purge opts then purge_resources name id else ret tt) in
  let! _ := (if hasUI m then let! s := get_state in remove_all (PluginRootFor (ui s) name)
             else ret tt) in
  op (DeletePlugin name).

Lemma purge_quiet n id : respects quiet (purge_resources n id).
Proof.
  unfold purge_resources. apply respects_bind; [apply _|eauto with eff|]. intros [rs|]; [|apply respects_ret; apply _].
  apply respects_bind; [apply _|apply on_host_quiet, unwind_quiet|]. intros. apply respects_ret; apply _.
Qed.

Lemma uninstall_tail_run n id opts s s' ok : uninstall_tail n id opts s = (s', Some ok) ->
  locks s' = locks s /\ router s' = router s /\ ui s' = ui s /\
  rows s' = (if (ok : bool) then delete n (rows s) else rows s).
Proof.
  unfold uninstall_tail. intros H. run H as s1 u1 E1. run H as s2 u2 E2.
  assert (Q1 : quiet s s1).
  { eapply respects_run; [|exact E1]. destruct (Purge opts); [apply purge_quiet|apply respects_ret; apply _]. }
  assert (Q2 : quiet s1 s2).
  { eapply respects_run; [|exact E2]. destruct (hasUI m); [|apply respects_ret; apply _].
    apply respects_bind; [apply _|auto with eff|]. intros. auto with eff. }
  destruct Q1 as (L1&R1&U1&D1), Q2 as (L2&R2&U2&D2). apply delete_run in H as (L&R&U&D&_).
  rewrite D, D2, D1. split_and!; [congruence..|done].
Qed.

Lemma uninstall_locked_spec n opts s s' o : uninstall_locked cd m n opts s = (s', Some o) -> core s ->
  core s' /\ locks s' = locks s /\ (forall k, k <> n -> same_at k s s') /\
  (o = None -> rows s' !! n = None /\ unserved m n s') /\
  (hasStore m = true -> Force opts = false -> listing_works -> closed (rows s) -> closed (rows s')).
Proof.
  intros H Hc. unfold uninstall_locked in H. quiet_step H s1 row E1 Q1.
  destruct row as [row|].
  2:{ apply ret_returned in H as [-> ->]. split_and!; [by eapply core_quiet|by destruct Q1| |done|].
      - intros k _. by apply quiet_same_at.
      - by destruct Q1 as (_&_&_&->). }
  assert (Hdeps : respects quiet (dependentsOf cd m n)).
  { unfold dependentsOf. destruct (hasStore m); cbn [negb]; [|apply respects_ret; apply _].
    apply respects_bind; [apply _|eauto with eff|]. intros. apply respects_ret; apply _. }
  run H as s2 deps E2. pose proof (respects_run _ _ _ _ _ Hdeps E2) as Q2.
  assert (Q : quiet s s2) by by etransitivity.
  destruct (negb (Force opts) && _) eqn:Eb.
  { apply ret_returned in H as [-> ->]. split_and!; [by eapply core_quiet|by destruct Q| |done|].
    - intros k _. by apply quiet_same_at.
    - by destruct Q as (_&_&_&->). }
  run H as s3 u3 E3. assert (Q3 : quiet s2 s3).
  { eapply respects_run; [|exact E3]. destruct (hasDeployer m); [|apply respects_ret; apply _].
    apply respects_bind; [apply _|eauto with eff|]. intros. apply respects_ret; apply _. }
  assert (Q' : quiet s s3) by by etransitivity. clear E3 Q3.
  run H as s4 [] E4. run H as s5 [] E5. destruct (unserve_run _ _ _ _ _ E4 E5) as [Ha Hu].
  run H as s6 u6 E6. run H as s7 u7 E7. run H as s8 ok E8. apply ret_returned in H as [-> ->].
  assert (Ht : uninstall_tail n (rowID row) opts s5 = (s8, Some ok)).
  { unfold uninstall_tail. unfold bind at 1. rewrite E6. unfold bind at 1. by rewrite E7. }
  clear E4 E5 E6 E7 E8. apply uninstall_tail_run in Ht as (L&R&U&D).
  destruct Ha as (La & Da & Ra & Fa & Ga & Ka), Q' as (L'&R'&U'&D').
  assert (Hu8 : unserved m n s8) by (unfold unserved in *; by rewrite R, U).
  assert (Hrows : rows s8 = if ok then delete n (rows s) else rows s) by (rewrite D, Da, D'; done).
  assert (Hk : forall k, k <> n -> same_at k s s8).
  { intros k Hk. destruct (Ka k Hk). split_and!; [|congruence..].
    rewrite Hrows. destruct ok; [by rewrite lookup_delete_ne|done]. }
  split_and!; [|congruence|done|destruct ok; [|done]; intros _; split; [rewrite Hrows; apply lookup_delete_eq|done]|].
  - eapply (core_change _ _ n); [done|congruence|done| |by right].
    intros row'. rewrite Hrows. destruct ok; [by rewrite lookup_delete_eq|apply (core_rows _ _ _ Hc)].
  - intros Hst Hf Hl Hcl. rewrite Hrows. destruct ok; [|done]. rewrite Hf in Eb. cbn [negb andb] in Eb.
    unfold dependentsOf in E2. rewrite Hst in E2. cbn [negb] in E2. run E2 as s9 ls E9.
    apply ret_returned in E2 as [_ ->].
    destruct ls as [ls|]; [|apply op_run in E9; specialize (Hl (host s1)); rewrite E9 in Hl; by destruct Hl].
    destruct Q1 as (_&_&_&D1). eapply closed_delete; [done| |by intros; eapply core_row_name|].
    + rewrite <- D1. eapply plugins_list_run, E9.
    + simpl in Eb. by destruct (dependents cd ls n).
Qed.

Lemma Uninstall_spec n opts s s' o : Uninstall cd m n opts s = (s', Some o) -> core s ->
  core s' /\ locks s' = locks s /\ (forall k, k <> n -> same_at k s s') /\
  (o = None -> rows s' !! n = None /\ unserved m n s') /\
  (Force opts = false -> listing_works -> closed (rows s) -> closed (rows s')).
Proof.
  unfold Uninstall. destruct (hasStore m) eqn:Est; cbn [negb]; intros H Hc.
  2:{ apply ret_returned in H as [-> ->]. by split_and!. }
  apply with_lock_run in H as (Hnl & s1 & H & ->).
  apply uninstall_locked_spec in H as (C1 & L1 & K1 & N1 & Cl1); [|by apply core_locks]. simpl in *.
  split_and!; [by apply core_locks|rewrite L1; set_solver|exact K1|done|auto].
Qed.

(** ** Upgrade *)

Lemma update_run n ver js st s s' row : op (UpdatePlugin n ver js st) s = (s', Some row) ->
  locks s' = locks s /\ router s' = router s /\ ui s' = ui s /\
  UpdatePlugin n ver js st (host s) = (host s', row).
Proof.
  intros H. split_and!; [..|by apply op_run]; unfold op, on_host, call in H;
    destruct (UpdatePlugin _ _ _ _ _); by injection H as <- _.
Qed.

Definition upgrade_serve (n : gostr) (p : Plugin) (uid id : gostr) (rs : list provisionedResource)
  : M S_ unit :=
  let! _ := add_resources id rs in
  let! _ := mount cd m n p in
  let! _ := register m n uid in
  if hasDeployer m then let! _ := op (deploy_Install p) in ret tt else ret tt.

Lemma upgrade_serve_at n p uid id rs : respects (at_name m n) (upgrade_serve n p uid id rs).
Proof.
  unfold upgrade_serve. repeat (apply respects_bind; [apply _|auto with eff|]; intros).
  destruct (hasDeployer m); [|apply respects_ret; apply _].
  apply respects_bind; [apply _|eauto with eff|]. intros. apply respects_ret; apply _.
Qed.

Lemma upgrade_locked_spec n v s s' r : upgrade_locked cd m n v s = (s', Some r) -> core s ->
  core s' /\ locks s' = locks s /\ (forall k, k <> n -> same_at k s s').
Proof.
  intros H Hc. unfold upgrade_locked in H.
  assert (Hq : quiet s s' -> core s' /\ locks s' = locks s /\ (forall k, k <> n -> same_at k s s')).
  { intros Q. split_and!; [by eapply core_quiet|by destruct Q|]. intros k _. by apply quiet_same_at. }
  quiet_step H s1 row0 E1 Q1. destruct row0 as [row0|]; [|apply ret_returned in H as [-> ->]; by apply Hq].
  run H as s2 f E2. apply unpack_spec in E2 as [Q2 Hf]; [|destruct Q1 as (_&_&->&_); apply Hc].
  assert (Q : quiet s s2) by by etransitivity.
  destruct f as [[[[p d] uid] rs]|]; [|apply ret_returned in H as [-> ->]; by apply Hq].
  destruct Hf as [Hof Hpn]. destruct (json_marshal cd p) as [js|] eqn:Ej.
  2:{ quiet_step H s3 u3 E3 Q3. apply ret_returned in H as [-> ->]. apply Hq. by etransitivity. }
  run H as s3 row E3. apply update_run in E3 as (L3 & R3 & U3 & E3).
  destruct Q as (L&R&U&D). destruct row as [row|].
  2:{ apply update_none in E3. quiet_step H s4 u4 E4 Q4. apply ret_returned in H as [-> ->].
      destruct Q4 as (L4&R4&U4&D4). apply Hq. split_and!; congruence. }
  run H as s4 u4 E4. run H as s5 u5 E5. run H as s6 u6 E6. run H as s7 u7 E7.
  apply ret_returned in H as [-> ->].
  assert (Hs : upgrade_serve n p uid (rowID row) rs s3 = (s7, Some tt)).
  { unfold upgrade_serve. unfold bind at 1. rewrite E4. unfold bind at 1. rewrite E5.
    unfold bind at 1. rewrite E6. by destruct u7. }
  clear E4 E5 E6 E7. destruct (respects_run _ _ _ _ _ (upgrade_serve_at n p uid _ rs) Hs) as (La & Da & Ra & _ & _ & Ka).
  apply update_some in E3 as (_ & Hdb & Hrn & Hrv & Hrm). rewrite D in Hdb.
  assert (Hk : forall k, k <> n -> same_at k s s7).
  { intros k Hk. destruct (Ka k Hk). split_and!; [|congruence..]. rewrite Da, Hdb. by apply lookup_insert_ne. }
  assert (Hin : rows s7 !! n = Some row) by (rewrite Da, Hdb; apply lookup_insert_eq).
  split_and!; [|congruence|done]. eapply (core_change _ _ n); [done|congruence|done| |by eauto].
  intros row' E. assert (row' = row) as -> by congruence. exists v, [], p. split_and!; [done|done|].
  split_and!; congruence.
Qed.

Lemma Upgrade_spec n v s s' r : Upgrade cd m n v s = (s', Some r) -> core s ->
  core s' /\ locks s' = locks s /\ (forall k, k <> n -> same_at k s s').
Proof.
  unfold Upgrade. destruct (hasStore m); cbn [negb]; intros H Hc.
  2:{ apply ret_returned in H as [-> ->]. by split_and!. }
  apply with_lock_run in H as (Hnl & s1 & H & ->).
  apply upgrade_locked_spec in H as (C1 & L1 & K1); [|by apply core_locks]. simpl in *.
  split_and!; [by apply core_locks|rewrite L1; set_solver|exact K1].
Qed.

(** ** Restoring and restarting *)

Lemma restore_row_at row : respects (at_name m (rowName row)) (restore_row cd m row).
Proof.
  unfold restore_row. destruct (json_unmarshal cd _) as [p|]; [|apply respects_ret; apply _].
  apply respects_bind; [apply _|auto with eff|]. intros _.
  destruct (hasUI m) eqn:Em; [|apply respects_ret; apply _].
  apply respects_bind; [apply _|auto with eff|]. intros su.
  apply respects_bind; [apply _|eauto with eff|]. intros [k|]; [|apply respects_ret; apply _].
  apply (set_ui_at m (rowName row)
    (fun u => Register u (rowName row) (Join [PluginRootFor (ui su) (rowName row); #"ui"])));
    [done|done|by intros; apply Register_other].
Qed.

Lemma core_at_name n s s' : core s -> at_name m n s s' -> is_Some (rows s !! n) -> core s'.
Proof.
  intros Hc (L & D & R & _ & _ & K) Hn. eapply (core_change _ _ n); [done|done| | |left; by rewrite D].
  - intros k Hk. destruct (K k Hk). split_and!; [by rewrite D|done..].
  - intros row. rewrite D. apply (core_rows _ _ _ Hc).
Qed.

Lemma restore_rows_spec ls s s' : each (restore_row cd m) ls s = (s', Some tt) -> core s ->
  (forall row, row ∈ ls -> rows s !! rowName row = Some row) ->
  core s' /\ locks s' = locks s /\ rows s' = rows s.
Proof.
  revert s. induction ls as [|row ls IH]; intros s H Hc Hls; simpl in H.
  { apply ret_returned in H as [-> _]. done. }
  run H as s1 u E1. pose proof (respects_run _ _ _ _ _ (restore_row_at row) E1) as Ha.
  pose proof (core_at_name _ _ _ Hc Ha) as C1. destruct Ha as (L & D & _).
  destruct (IH s1 H) as (C' & L' & D').
  - apply C1. exists row. apply Hls. set_solver.
  - intros row' Hin. rewrite D. apply Hls. set_solver.
  - split_and!; [done|congruence..].
Qed.

Lemma RestoreAtStartup_spec s s' : RestoreAtStartup cd m s = (s', Some tt) -> core s ->
  core s' /\ locks s' = locks s /\ rows s' = rows s.
Proof.
  unfold RestoreAtStartup. destruct (hasStore m); cbn [negb]; intros H Hc.
  2:{ by apply ret_returned in H as [-> _]. }
  quiet_step H s1 ls E1 Q1. pose proof (core_quiet _ _ _ _ Hc Q1) as C1. destruct Q1 as (L&R&U&D).
  destruct ls as [ls|]; [|by apply ret_returned in H as [-> _]].
  apply restore_rows_spec in H as (C' & L' & D'); [split_and!; [done|congruence..]|done|].
  intros row Hrow. rewrite D. apply (plugins_list_run _ _ _ E1) in Hrow as [n Hn].
  by rewrite (core_row_name _ _ _ Hc Hn).
Qed.

Lemma Restart_spec n s s' r : Restart m n s = (s', Some r) -> core s ->
  core s' /\ locks s' = locks s /\ rows s' = rows s.
Proof.
  unfold Restart. destruct (hasStore m); cbn [negb]; intros H Hc.
  2:{ by apply ret_returned in H as [-> _]. }
  quiet_step H s1 row E1 Q1. pose proof (core_quiet _ _ _ _ Hc Q1) as C1. destruct Q1 as (L&R&U&D).
  destruct row as [row|]; [|by apply ret_returned in H as [-> _]].
  destruct (hasDeployer m); cbn [negb] in H; [|by apply ret_returned in H as [-> _]].
  apply with_lock_run in H as (Hnl & s2 & H & ->). quiet_step H s3 ok E3 Q3.
  apply ret_returned in H as [-> _]. pose proof (core_quiet _ _ _ _ (core_locks _ _ C1) Q3) as C3.
  destruct Q3 as (L3&R3&U3&D3). simpl in *.
  split_and!; [by apply core_locks|rewrite L3; set_solver|congruence].
Qed.

(** ** Sequences of calls *)

Inductive request :=
| RInstall (fuel : nat) (req : InstallRequest)
| RUninstall (name : gostr) (opts : UninstallOptions)
| RUpgrade (name version : gostr)
| RRestart (name : gostr)
| RRestore.

Definition serve (c : request) : M S_ unit :=
  match c with
  | RInstall fuel req => let! _ := Install cd m fuel req in ret tt
  | RUninstall n opts => let! _ := Uninstall cd m n opts in ret tt
  | RUpgrade n v => let! _ := Upgrade cd m n v in ret tt
  | RRestart n => let! _ := Restart m n in ret tt
  | RRestore => RestoreAtStartup cd m
  end.

(** A call that returned. *)
Definition served_call (P : request -> Prop) (s s' : S_) : Prop :=
  exists c, P c /\ serve c s = (s', Some tt).

(** Nothing installed yet. *)
Definition fresh (s : S_) : Prop :=
  locks s = ∅ /\ router s = ∅ /\ uiPlugins (ui s) = ∅ /\ is_rooted (Root (ui s)) = true /\ rows s = ∅.

Lemma fresh_core s : fresh s -> core s.
Proof.
  intros (L & R & U & Ro & D). split; [done|..].
  - intros n row. by rewrite D, lookup_empty.
  - intros n _ [x Hx]. rewrite R in Hx. done.
  - intros n _ [x Hx]. rewrite U in Hx. by rewrite lookup_empty in Hx.
Qed.

Lemma serve_core c s s' : serve c s = (s', Some tt) -> core s -> core s' /\ locks s' = locks s.
Proof.
  intros H Hc. destruct c; simpl in H; try (run H as s1 r E; apply ret_returned in H as [-> _]).
  - apply Install_spec in E as [He _]; [|done]. by destruct (He Hc) as (?&_&?&_).
  - by apply Uninstall_spec in E as (?&?&_).
  - by apply Upgrade_spec in E as (?&?&_).
  - by apply Restart_spec in E as (?&?&_).
  - by apply RestoreAtStartup_spec in H as (?&?&_).
Qed.

(** Calls that check dependencies: no upgrades, no forced uninstalls. *)
Definition checked (c : request) : Prop :=
  match c with RUpgrade _ _ => False | RUninstall _ opts => Force opts = false | _ => True end.

Lemma serve_closed c s s' : serve c s = (s', Some tt) -> core s -> checked c ->
  json_keeps_deps cd -> listing_works -> closed (rows s) -> closed (rows s').
Proof.
  intros H Hc Hch Hj Hl Hcl. destruct c; simpl in H; try (run H as s1 r E; apply ret_returned in H as [-> _]).
  - apply Install_spec in E as [He _]; [|done]. destruct (He Hc) as (_&Hcl'&_). auto.
  - apply Uninstall_spec in E as (_&_&_&_&Hcl'); [|done]. auto.
  - done.
  - apply Restart_spec in E as (_&_&->); done.
  - apply RestoreAtStartup_spec in H as (_&_&->); done.
Qed.

Lemma served_core P s s' : rtc (served_call P) s s' -> core s -> core s' /\ locks s' = locks s.
Proof.
  induction 1 as [s|s s1 s' (c & _ & H) _ IH]; intros Hc; [done|].
  destruct (serve_core _ _ _ H Hc) as [C1 L1]. destruct (IH C1) as [C' L']. split; [done|congruence].
Qed.

(** C2. Whatever sequence of installs, uninstalls, upgrades, restarts and
    restores the manager has served, and however they ended: every plugin
    in the table records a manifest that validates and came from a tarball
    which passed the signature check, under its own name and version;
    routes and UI bundles are served for installed plugins only; and no
    lock is left held. *)
Theorem lifecycle_invariant s0 s (H0 : fresh s0) (Hv : verifying m)
    (Hrun : rtc (served_call (fun _ => True)) s0 s) :
  locks s = ∅ /\
  (forall n row, rows s !! n = Some row -> exists tb p,
     trusted tb /\ manifest_in cd tb = Some p /\ pName p = n /\ row_for cd p row) /\
  (forall n, hasRouter m = true -> is_Some (router s !! n) -> is_Some (rows s !! n)) /\
  (forall n, hasUI m = true -> is_Some (uiPlugins (ui s) !! n) -> is_Some (rows s !! n)).
Proof.
  destruct (served_core _ _ _ Hrun (fresh_core _ H0)) as [[Ro Hr Ht Hu] L].
  split_and!; [by destruct H0 as (<- & _)| |done|done].
  intros n row (v & mp & p & (tb & _ & Htr & Hm) & Hn & Hrow)%Hr. exists tb, p. auto.
Qed.

(** C34. With a catalogue that answers the same request with the same
    tarball, and a database whose listing of plugins does not fail,
    calls that neither upgrade nor remove by force keep every tier-2
    dependency an installed plugin declares installed, unless the plugin
    also declares the same name as a bundled dependency. *)
Theorem dependencies_stay_installed s0 s n row p d (H0 : fresh s0) (Hj : json_keeps_deps cd)
    (Hl : listing_works) (Hrun : rtc (served_call checked) s0 s)
    (Hrow : rows s !! n = Some row) (Hp : json_unmarshal cd (rowManifest row) = Some p)
    (Hd : d ∈ Dependencies p) (Hsrc : dSource d = DependencySourceTier2)
    (Hnb : forall b, b ∈ Dependencies p -> bundled (dName d) b = false) :
  is_Some (rows s !! dName d).
Proof.
  assert (Hcl : closed (rows s)); [|by eapply Hcl].
  assert (Hcl0 : closed (rows s0)).
  { destruct H0 as (_&_&_&_&->). intros ? ? ? ? Hx. by rewrite lookup_empty in Hx. }
  apply fresh_core in H0. clear Hrow. revert H0 Hcl0.
  induction Hrun as [s|s s1 s' (c & Hch & H) _ IH]; intros Hc Hcl; [done|].
  apply IH; [by eapply serve_core|by eapply serve_closed].
Qed.

(** C17. As long as the database can delete a row, an install that fails
    leaves the row of the plugin, its routes and the registration of its
    UI bundle as they were, loses or changes no other row, and frees its
    lock. Files it unpacked and resources it provisioned are not
    covered. *)
Theorem failed_install_changes_nothing fuel req s s' e (Hc : core s) (Hw : deletes_work (W := W))
    (Hrun : Install cd m fuel req s = (s', Some (Err e))) :
  rows s' !! reqName req = rows s !! reqName req /\
  router s' !! reqName req = router s !! reqName req /\
  uiPlugins (ui s') !! reqName req = uiPlugins (ui s) !! reqName req /\
  rows s ⊆ rows s' /\ locks s' = locks s.
Proof.
  apply Install_spec in Hrun as [He Hout]; [|done]. destruct (He Hc) as (_&_&?&?&_).
  destruct (Hout Hw) as (?&?&?). done.
Qed.

(** An upgrade never looks at dependencies: when it succeeds, a plugin
    the new manifest requires is installed afterwards only if it was
    before. *)
Theorem Upgrade_ignores_dependencies n v s s' inst d (Hc : core s)
    (Hrun : Upgrade cd m n v s = (s', Some (Ok inst)))
    (Hd : d ∈ Dependencies (instManifest inst)) (Hne : dName d <> n) :
  rows s' !! dName d = rows s !! dName d.
Proof. apply Upgrade_spec in Hrun as (_ & _ & Hk); [|done]. by destruct (Hk _ Hne). Qed.
End Calls.
