(* ===== verification/PluginLifecycleTermination.v ===== *)
(** * Installing ends, or deadlocks

    With well-founded requirements among what is published, Install returns
    for every outcome of the calls it makes.  Two plugins that require each
    other make it wait for a lock it holds itself. *)

From S2P Require Import Prelude GoStrings GoPath Regex Effects Plugins PluginsPlan.
From S2P Require Import PluginPackage PluginPackageCorrect PluginNeeds PluginRouter PluginLifecycle.
From S2P Require Import PluginLifecycleInv PluginLifecycleCorrect.
Import Manifest Package NeedsM RouterM LifecycleM.

(** Goals [returns c] for code without recursion. *)
Ltac returning :=
  repeat first
    [ apply returns_ret | apply returns_call
    | apply returns_bind; [|intros ?]
    | match goal with
      | |- returns (if ?b then _ else _) => destruct b
      | |- returns (match ?x with _ => _ end) => destruct x
      end
    | solve [auto with eff] ].

Section Returns.
Context {W V C : Type}
  `{!PluginStore W, !Market W, !Disk W, !Deployer W, !NeedsProvisioner W} `{!LifecycleLaws W}
  (cd : Codec V C) (m : Manager).

Notation S_ := (MSt W).
Notation rows s := (db (host s)).

(** The provisioners answer, and a failed mount can be logged. *)
Hypothesis Hprov : forall n i x, need_filled x -> returns (provision (W := W) n i x).
Hypothesis Hunprov : forall n r, returns (unprovision (W := W) n r).
Hypothesis Hlog : hasLogger m = true.

Lemma on_host_returns {A} (c : M W A) : returns c -> returns (on_host c).
Proof. intros H s. unfold on_host. destruct (H (host s)) as (w & a & ->). eauto. Qed.

Lemma op_returns {A} (f : W -> W * A) : returns (op f).
Proof. apply on_host_returns, returns_call. Qed.

Lemma state_returns : returns (get_state (W := W)).
Proof. intros s. by exists s, s. Qed.
Lemma set_router_returns rt : returns (set_router (W := W) rt).
Proof. intros s. by eexists _, tt. Qed.
Lemma set_ui_returns u : returns (set_ui (W := W) u).
Proof. intros s. by eexists _, tt. Qed.

#[local] Hint Resolve op_returns state_returns set_router_returns set_ui_returns
  on_host_returns extract_returns : eff.

Lemma remove_all_returns p : returns (remove_all (W := W) p).
Proof. unfold remove_all. returning. Qed.

Lemma rollback_needs_returns n rs : returns (rollbackNeeds (W := W) n rs).
Proof.
  unfold rollbackNeeds. induction (rev rs) as [|r l IH]; simpl; [returning|].
  apply returns_bind; [apply Hunprov|]. intros e. apply returns_bind; [exact IH|]. intros. returning.
Qed.

Lemma run_needs_returns n i ns acc : Forall need_filled ns -> returns (run_needs (W := W) n i ns acc).
Proof.
  revert i acc. induction ns as [|x ns IH]; intros i acc Hf; simpl; [returning|].
  apply Forall_cons in Hf as [Hx Hf]. apply returns_bind; [by apply Hprov|].
  intros [id|e]; [by apply IH|]. apply returns_bind; [apply rollback_needs_returns|]. intros. returning.
Qed.

#[local] Hint Resolve remove_all_returns rollback_needs_returns : eff.

Lemma fetch_returns n v mp : returns (fetchVerifiedTarball (W := W) m n v mp).
Proof. unfold fetchVerifiedTarball. returning. Qed.

Lemma parsed_filled mb p : parse_manifest cd mb = Ok p -> Forall need_filled (Needs p).
Proof.
  unfold parse_manifest, ParseManifest. destruct (yaml cd mb) as [q|]; [|done].
  destruct (Validate (NewConstraint cd) (fill_display q)) eqn:Ev; [|done]. intros [= <-].
  apply Forall_forall. intros x Hx. by apply (Validate_needs _ _ _ Ev).
Qed.

#[local] Hint Resolve fetch_returns : eff.

Lemma unpack_returns n v mp : returns (fetchVerifyUnpackProvision (W := W) cd m n v mp).
Proof.
  unfold fetchVerifyUnpackProvision. apply returns_bind; [auto with eff|]. intros [tb|]; [|returning].
  apply returns_bind; [auto with eff|]. intros s. apply returns_bind; [auto with eff|]. intros _.
  apply returns_bind; [auto with eff|]. intros [[mb u]|]; [|returning].
  destruct (parse_manifest cd mb) as [p|] eqn:Ep; [|returning]. apply parsed_filled in Ep.
  destruct (negb _); [returning|].
  apply returns_bind; [by apply on_host_returns, run_needs_returns|]. intros [rs [[e es]|]]; returning.
Qed.

Lemma plan_returns n v mp : returns (planInstall (W := W) cd m n v mp).
Proof. unfold planInstall, manifest_for_planning. returning. Qed.

Lemma finish_returns n plan p d uid rs : returns (install_finish (W := W) cd m n plan p d uid rs).
Proof.
  unfold install_finish, rollback, add_resources, mount, register, unmount, deregister. rewrite Hlog.
  assert (Hadd : forall id, returns (each (fun r => let! _ := op (AddPluginResource id (resKind r) (resID r)) in
    ret tt) rs : M S_ unit)) by (intros id; apply returns_each; intros; returning).
  returning.
Qed.

#[local] Hint Resolve unpack_returns plan_returns finish_returns : eff.

(** ** Install *)

(** A measure that decreases from a published plugin to what it requires,
    and published manifests carry the name they are published under. *)
Definition well_founded_by (rank : gostr -> nat) : Prop := forall n v mp p, offers cd m n v mp p ->
  pName p = n /\ forall d, d ∈ Dependencies p -> dSource d = DependencySourceTier2 ->
    (rank (dName d) < rank n)%nat.

Section Ranked.
Context (rank : gostr -> nat).

(** No lock at or below the rank of [n] is held. *)
Definition free_below (n : gostr) (s : S_) : Prop := forall k, k ∈ locks s -> (rank n < rank k)%nat.

Lemma install_deps_returns rec req plan :
  (forall r s, core cd m s -> (rank (reqName r) < rank (reqName req))%nat -> free_below (reqName r) s ->
     exists s' x, rec r s = (s', Some x)) ->
  (forall r s s' x, rec r s = (s', Some x) -> core cd m s ->
     evolves cd m s s' /\ install_outcome (reqName r) s s' x) ->
  (forall st, st ∈ plan -> sAction st = PlanActionInstall -> sName st <> reqName req ->
     (rank (sName st) < rank (reqName req))%nat) ->
  forall s, core cd m s -> (forall k, k ∈ locks s -> k = reqName req \/ (rank (reqName req) < rank k)%nat) ->
  exists s' o, install_deps (W := W) rec req plan s = (s', Some o).
Proof.
  intros Hrec Hspec. induction plan as [|st plan IH]; intros Hst s Hc Hl; simpl; [by exists s, None|].
  assert (Hst' : forall x, x ∈ plan -> sAction x = PlanActionInstall -> sName x <> reqName req ->
     (rank (sName x) < rank (reqName req))%nat) by (intros x Hx; apply Hst; set_solver).
  case_str (sName st) (reqName req) as En; [by apply IH|].
  destruct (bool_decide _) eqn:Ea; cbn [negb]; [|by apply IH]. apply bool_decide_eq_true in Ea.
  destruct (op_returns (GetPluginByName (sName st)) s) as (s1 & row & E1).
  unfold bind at 1. rewrite E1.
  assert (Q1 : quiet s s1) by (eapply respects_run; [apply op_quiet, get_keeps|exact E1]).
  pose proof (core_quiet _ _ _ _ Hc Q1) as C1. destruct Q1 as (L1 & _).
  destruct row as [row|]; [by apply IH; [|done|rewrite L1]|].
  assert (Hlt : (rank (sName st) < rank (reqName req))%nat) by (apply Hst; [set_solver|done..]).
  destruct (Hrec (mkRequest (sName st) (sVersion st) [] (reqMarketplaceID req)) s1) as (s2 & x & E2);
    [done|done| |].
  { intros k Hk. rewrite L1 in Hk. destruct (Hl k Hk) as [->|?]; simpl; lia. }
  unfold bind. rewrite E2. apply Hspec in E2 as [He _]; [|done]. destruct (He C1) as (C2 & _ & L2 & _).
  destruct x as [x|e]; [|by exists s2, (Some (DependencyErr (sName st) e))].
  apply IH; [done..|]. by rewrite L2, L1.
Qed.

Lemma Install_ends fuel req s : well_founded_by rank -> core cd m s -> free_below (reqName req) s ->
  (rank (reqName req) < fuel)%nat -> exists s' r, Install (W := W) cd m fuel req s = (s', Some r).
Proof.
  intros Hwf. revert req s. induction fuel as [|fuel IH]; intros req s Hc Hfree Hfuel; [lia|]. simpl.
  destruct (str_eqb (reqName req) []); [by eexists _, _|].
  destruct (negb (hasStore m)); [by eexists _, _|].
  unfold with_lock, lock. unfold bind at 1. case_bool_decide as Hin; [specialize (Hfree _ Hin); lia|].
  set (s1 := mkMSt _ _ _ _).
  assert (C1 : core cd m s1) by by apply (core_locks cd m _ s).
  enough (exists s' r, install_locked cd m (Install cd m fuel) req s1 = (s', Some r)) as (s' & r & E).
  { unfold bind at 1. rewrite E. by eexists _, _. }
  unfold install_locked. destruct (op_returns (GetPluginByName (reqName req)) s1) as (s2 & row & E2).
  unfold bind at 1. rewrite E2.
  assert (Q2 : quiet s1 s2) by (eapply respects_run; [apply op_quiet, get_keeps|exact E2]).
  pose proof (core_quiet _ _ _ _ C1 Q2) as C2.
  destruct row as [row|]; [by eexists _, _|].
  destruct (plan_returns (reqName req) (reqVersion req) (reqMarketplaceID req) s2) as (s3 & x & E3).
  unfold bind at 1. rewrite E3. apply planInstall_spec in E3 as [Q3 Hplan].
  pose proof (core_quiet _ _ _ _ C2 Q3) as C3.
  destruct x as [plan|]; [|by eexists _, _]. destruct Hplan as (p & Hof & _ & Hsteps).
  apply Hwf in Hof as [Hpn Hdeps].
  destruct (install_deps_returns (Install cd m fuel) req plan) with (s := s3) as (s4 & o & E4).
  - intros r s' Hc' Hr Hf. apply IH; [done..|lia].
  - intros r s' s'' x Hrun Hc'. by eapply Install_spec.
  - intros st Hst Ha Hne. destruct (Hsteps st Hst Ha) as [E|(d & Hd & [Hsrc Hdn]%tier2_iff)]; [congruence|].
    rewrite <- Hdn. by apply Hdeps.
  - done.
  - intros k Hk. destruct Q3 as (L3 & _), Q2 as (L2 & _). rewrite L3, L2 in Hk. simpl in Hk.
    apply elem_of_union in Hk as [Hk%elem_of_singleton|Hk]; [by left|right; by apply Hfree].
  - unfold bind at 1. rewrite E4. destruct o as [e|]; [by eexists _, _|].
    assert (Hr : returns (let! f := fetchVerifyUnpackProvision cd m (reqName req) (reqVersion req)
        (reqMarketplaceID req) in
      match f with
      | Ok (manifest, destDir, uiDir, resources) =>
          install_finish cd m (reqName req) plan manifest destDir uiDir resources
      | Err e => ret (Err e)
      end : M S_ _)); [|apply Hr].
    apply returns_bind; [auto with eff|]. intros [[[[p' d] uid] rs]|]; returning.
Qed.
End Ranked.

(** C38. With a logger configured, when every published manifest carries
    the name it is published under and the requirements among the
    published plugins are well-founded, Install returns, with success or
    an error, however the database, the marketplace, the disk, the
    deployer and the provisioners answer, as long as they answer: every
    lock it waits for is free, also in the installs it starts for the
    dependencies. *)
Theorem Install_returns rank req s (Hwf : well_founded_by rank) (Hc : core cd m s)
    (Hl : locks s = ∅) :
  exists s' r, Install (W := W) cd m (S (rank (reqName req))) req s = (s', Some r) /\ locks s' = ∅.
Proof.
  destruct (Install_ends rank (S (rank (reqName req))) req s) as (s' & r & E); [done|done| |lia|].
  - intros k. rewrite Hl. set_solver.
  - exists s', r. split; [done|]. apply Install_spec in E as [He _]; [|done].
    destruct (He Hc) as (_ & _ & L & _). congruence.
Qed.
End Returns.
