(* ===== verification/PluginLifecycleWorld.v ===== *)
(** * A world in memory for the plugin lifecycle

    The interfaces of the manager over maps, which shows that their laws
    can hold, with a small catalogue; and two things that go wrong in it: a
    cycle of requirements deadlocks, and an upgrade can bring in a
    requirement nobody installs. *)

From S2P Require Import Prelude GoStrings GoPath Regex Effects Plugins PluginsPlan.
From S2P Require Import PluginPackage PluginPackageCorrect PluginNeeds PluginRouter PluginLifecycle.
From S2P Require Import PluginLifecycleInv PluginLifecycleCorrect PluginLifecycleTermination.
Import Manifest Package NeedsM RouterM LifecycleM.

Module MemPlugins.

Record world := mkWorld { wRows : gmap gostr PluginRow; wFiles : MemDisk.files }.

#[global] Instance dependency_eq_dec : EqDecision Dependency.
Proof. solve_decision. Defined.

(** ** The catalogue: a plugin per name and version *)

Definition plugin (name version : gostr) (deps : list Dependency) : Plugin :=
  mkPlugin CurrentAPIVersion Kind (mkMetadata name version #"NovaNAS" [])
    (mkSpec #"A plugin" CategoryUtility #"files" [ #"x"] []
       (mkDeployment DeploymentHelm #"chart" [] []) [] deps
       [mkRoute #"/" #"http://127.0.0.1:9000" [] #"service-token"]
       (mkWindow [] [] [] []) (mkHealth [] 0 0) (mkLifecycle [] [] [])).

Definition on (name : gostr) : Dependency := mkDep name [] DependencySourceTier2.

Definition catalogue : list Plugin :=
  [plugin #"app" #"1.0.0" [on #"lib"]; plugin #"lib" #"1.0.0" [];
   plugin #"broken" #"1.0.0" [on #"lib"];
   plugin #"lib" #"2.0.0" [on #"extra"]; plugin #"extra" #"1.0.0" []].

(** Two that require each other. *)
Definition cycle : list Plugin :=
  [plugin #"chicken" #"1.0.0" [on #"egg"]; plugin #"egg" #"1.0.0" [on #"chicken"]].

Section Catalogue.
Context (ps : list Plugin).

(** The empty version is the first. *)
Definition lookup_plugin (n v : gostr) : option Plugin :=
  find (fun p => str_eqb (pName p) n && (str_eqb v [] || str_eqb (pVersion p) v)) ps.

(** A tarball is its manifest, a manifest its name and version. *)
Definition text (p : Plugin) : gostr := pName p ++ #"@" ++ pVersion p.
Definition decode (t : gostr) : option Plugin := find (fun p => str_eqb (text p) t) ps.
Definition encode (p : Plugin) : option gostr :=
  q ← decode (text p); if bool_decide (Dependencies q = Dependencies p) then Some (text p) else None.

Definition codec : Codec unit unit :=
  mkCodec unit unit (fun t => Some [Some (MemDisk.reg manifest_yaml t)]) decode encode decode
    (fun u => Some (mkUrl u [])) (fun _ => Some tt) (fun _ => Some tt)
    (fun _ _ => true) (fun _ _ => false).

(** ** The interfaces *)

Definition on_files {A} (f : MemDisk.files -> MemDisk.files * A) (w : world) : world * A :=
  let '(fs, a) := f (wFiles w) in (mkWorld (wRows w) fs, a).

#[global] Instance store : PluginStore world := {|
  GetPluginByName := fun n w => (w, wRows w !! n);
  ListPlugins := fun w => (w, Some (map_to_list (wRows w)).*2);
  CreatePlugin := fun id n ver js st w =>
    match wRows w !! n with
    | Some _ => (w, None)
    | None => let row := mkRow id n ver js st None None in
              (mkWorld (<[n := row]> (wRows w)) (wFiles w), Some row)
    end;
  UpdatePlugin := fun n ver js st w =>
    match wRows w !! n with
    | None => (w, None)
    | Some old => let row := mkRow (rowID old) n ver js st None None in
                  (mkWorld (<[n := row]> (wRows w)) (wFiles w), Some row)
    end;
  DeletePlugin := fun n w => (mkWorld (delete n (wRows w)) (wFiles w), true);
  AddPluginResource := fun _ _ _ w => (w, true);
  ListPluginResources := fun _ w => (w, Some []);
  NewUUID := fun w => (w, #"id") |}.

#[global] Instance disk : Disk world := {|
  MkdirAll := fun p => on_files (MkdirAll p);
  WriteFile := fun p d => on_files (WriteFile p d);
  ReadFile := fun p => on_files (ReadFile p);
  RemoveAll := fun p => on_files (RemoveAll p);
  Stat := fun p => on_files (Stat p) |}.

(** "broken" does not start. *)
#[global] Instance deployer : Deployer world := {|
  deploy_Install := fun p w => (w, negb (str_eqb (pName p) #"broken"));
  deploy_Uninstall := fun _ w => (w, true);
  deploy_Restart := fun _ w => (w, true);
  deploy_Logs := fun _ _ w => (w, Some []) |}.

#[global] Instance provisioner : NeedsProvisioner world := NopProvisioner world.

Definition market : Market world := {|
  Multi_FindVersion := fun n v _ w =>
    (w, p ← lookup_plugin n v; Some (mkIndexVersion v n [] [] 0, #"official"));
  Multi_DownloadAndVerify := fun _ iv w =>
    (w, p ← lookup_plugin (ivTarballURL iv) (ivVersion iv); Some (text p));
  Single_FindVersion := fun _ _ w => (w, None);
  DownloadArtifacts := fun _ w => (w, None);
  VerifySignature := fun _ _ w => (w, false);
  index_view := fun _ n v =>
    match lookup_plugin n v with
    | Some p => Ok (mkIndexPlugin n [pVersion p], pVersion p)
    | None => Err NotInIndex
    end;
  MkdirTemp := fun w => (w, Some #"/tmp/plan") |}.

#[local] Existing Instance market.

Lemma nop_quiet : (forall n i x, respects (fun w w' : world => wRows w' = wRows w) (provision n i x)) /\
  (forall n r, respects (fun w w' : world => wRows w' = wRows w) (unprovision n r)).
Proof.
  split; intros.
  - intros w. unfold provision.
    repeat match goal with |- context [if ?b then _ else _] => destruct b
      | |- context [match ?o with Some _ => _ | None => _ end] => destruct o end; done.
  - intros w. unfold unprovision. repeat match goal with |- context [if ?b then _ else _] => destruct b end; done.
Qed.

Definition laws : LifecycleLaws world.
Proof.
  refine {|
    db := wRows;
    published := fun n v _ => text <$> lookup_plugin n v;
    trusted := fun tb => exists p, p ∈ ps /\ tb = text p |}; try (intros; intros w; reflexivity).
  - done.
  - intros w rows [= <-]. done.
  - intros id n ver js st w w' row. simpl. destruct (wRows w !! n) eqn:E; [done|]. by intros [= <- <-].
  - intros id n ver js st w w'. simpl. destruct (wRows w !! n); by intros [= <-].
  - intros n ver js st w w' row. simpl. destruct (wRows w !! n) eqn:E; [|done]. intros [= <- <-].
    split; [by eexists|done].
  - intros n ver js st w w'. simpl. destruct (wRows w !! n); by intros [= <-].
  - by intros n w w' [= <-].
  - done.
  - intros p data w w' w'' b H1 H2. injection H1 as <-. 
    injection H2 as _ H2. simpl in H2. rewrite lookup_insert_eq in H2. congruence.
  - by intros w d [= <-].
  - apply nop_quiet.
  - apply nop_quiet.
  - intros n v mp mpID iv w w1 w2 w3 tb H1 H2. simpl in H1, H2.
    destruct (lookup_plugin n v) as [p|] eqn:E; [|done]. injection H1 as _ <- _. simpl in H2.
    rewrite E in H2. injection H2 as _ <-. split; [done|]. exists p. split; [|done].
    apply find_some in E as [E _]. by apply list_elem_of_In.
  - done.
  - done.
Defined.
End Catalogue.
End MemPlugins.

Definition wired_manager : Manager := mkManager true true true false false true true true.

(** Nothing installed. *)
Definition start : MSt MemPlugins.world :=
  mkMSt ∅ NewRouter (NewUIAssets []) (MemPlugins.mkWorld ∅ ∅).

Definition ask (name : gostr) : InstallRequest := mkRequest name [] [] [].

(** ** Two plugins that require each other *)

Module Cycle.
#[local] Instance cyclic : Market MemPlugins.world := MemPlugins.market MemPlugins.cycle.

Definition install (fuel : nat) (n : gostr) :=
  Install (W := MemPlugins.world) (MemPlugins.codec MemPlugins.cycle) wired_manager fuel (ask n).

(** Two plugins that require each other cannot be installed, and the
    attempt never ends: the manifests are valid and each plan is accepted
    (the resolver looks at the direct requirements of one plugin only),
    but the install of the second waits for the lock the install of the
    first holds.  Both names stay locked: every later install, upgrade or
    uninstall of either of them waits as well. *)
Theorem install_cycle_deadlocks :
  (forall p, p ∈ MemPlugins.cycle -> Validate (fun _ => Some tt) p = []) /\
  forall fuel, exists s, install (3 + fuel) #"chicken" start = (s, None) /\
    locks s = {[ #"chicken"; #"egg"]} /\
    (forall fuel', (install fuel' #"egg" s).2 = None) /\
    (forall v, (Upgrade (MemPlugins.codec MemPlugins.cycle) wired_manager #"egg" v s).2 = None) /\
    (forall opts, (Uninstall (MemPlugins.codec MemPlugins.cycle) wired_manager #"chicken" opts s).2 = None).
Proof.
  split.
  - intros p Hp. unfold MemPlugins.cycle in Hp. set_unfold in Hp.
    destruct Hp as [->|[->|[]]]; vm_compute; reflexivity.
  - intros fuel. eexists. split; [vm_compute; reflexivity|]. split; [by_dec|]. split_and!.
    + intros [|fuel']; [reflexivity|]. vm_compute. reflexivity.
    + intros v. vm_compute. reflexivity.
    + intros opts. vm_compute. reflexivity.
Qed.
End Cycle.

(** ** A catalogue without cycles *)

Module Acyclic.
#[local] Instance acyclic : Market MemPlugins.world := MemPlugins.market MemPlugins.catalogue.
#[local] Instance acyclic_laws : LifecycleLaws MemPlugins.world := MemPlugins.laws MemPlugins.catalogue.

Abbreviation cd := (MemPlugins.codec MemPlugins.catalogue).
Abbreviation m := wired_manager.

Definition run (c : request) (s : MSt MemPlugins.world) : MSt MemPlugins.world := (serve cd m c s).1.

Definition after_app : MSt MemPlugins.world := Eval vm_compute in run (RInstall 5 (ask #"app")) start.
Definition after_lib : MSt MemPlugins.world := Eval vm_compute in run (RInstall 5 (ask #"lib")) start.
Definition after_uninstall : MSt MemPlugins.world :=
  Eval vm_compute in run (RUninstall #"lib" (mkUninstall false false)) after_app.

Lemma start_fresh : fresh start.
Proof. by_dec || (split_and!; reflexivity). Qed.

(** The uninstall of a plugin that is required is refused. *)
Lemma run_app (P : request -> Prop) : P (RInstall 5 (ask #"app")) ->
  P (RUninstall #"lib" (mkUninstall false false)) -> rtc (served_call cd m P) start after_uninstall.
Proof.
  intros H1 H2. eapply rtc_l; [exists (RInstall 5 (ask #"app")); split; [done|vm_compute; reflexivity]|].
  eapply rtc_l; [|apply rtc_refl].
  exists (RUninstall #"lib" (mkUninstall false false)). split; [done|vm_compute; reflexivity].
Qed.

Lemma keeps_deps : json_keeps_deps cd.
Proof.
  intros p js p' H1 H2. change (MemPlugins.encode MemPlugins.catalogue p = Some js) in H1.
  change (MemPlugins.decode MemPlugins.catalogue js = Some p') in H2. unfold MemPlugins.encode in H1.
  destruct (MemPlugins.decode _ (MemPlugins.text p)) as [q|] eqn:E; [|done]. simpl in H1.
  case_bool_decide as Hd; [|done]. injection H1 as <-. rewrite E in H2. congruence.
Qed.

Lemma lifecycle_invariant_witness :
  fresh start /\ rtc (served_call cd m (fun _ => True)) start after_uninstall /\
  is_Some (db (host after_uninstall) !! #"lib") /\
  (forall n, is_Some (router after_uninstall !! n) -> is_Some (db (host after_uninstall) !! n)).
Proof.
  split; [exact start_fresh|]. split; [by apply run_app|]. split; [vm_compute; eauto|].
  intros n. exact (proj1 (proj2 (proj2 (lifecycle_invariant cd m start after_uninstall start_fresh
    (or_introl eq_refl) (run_app _ I I)))) n eq_refl).
Defined.

Lemma dependencies_stay_installed_witness :
  is_Some (db (host after_uninstall) !! #"app") /\ is_Some (db (host after_uninstall) !! #"lib").
Proof.
  split; [vm_compute; eauto|].
  eapply (dependencies_stay_installed cd m start after_uninstall #"app" _ _ (MemPlugins.on #"lib")
    start_fresh keeps_deps).
  - intros w. eexists. reflexivity.
  - apply run_app; [exact I|reflexivity].
  - vm_compute. reflexivity.
  - vm_compute. reflexivity.
  - left.
  - reflexivity.
  - intros b Hb. apply list_elem_of_singleton in Hb. subst b. reflexivity.
Defined.

(** "broken" requires "lib", which is installed and stays. *)
Definition after_broken : MSt MemPlugins.world :=
  Eval vm_compute in run (RInstall 5 (ask #"broken")) start.

Lemma failed_install_changes_nothing_witness :
  Install cd m 5 (ask #"broken") start = (after_broken, Some (Err DeployErr)) /\
  db (host after_broken) !! #"broken" = None /\ is_Some (db (host after_broken) !! #"lib").
Proof.
  assert (Hrun : Install cd m 5 (ask #"broken") start = (after_broken, Some (Err DeployErr)))
    by (vm_compute; reflexivity).
  split; [exact Hrun|]. split; [|vm_compute; eauto].
  exact (proj1 (failed_install_changes_nothing cd m 5 (ask #"broken") start after_broken DeployErr
    (fresh_core _ _ _ start_fresh) (fun _ _ => eq_refl) Hrun)).
Defined.

Definition after_upgrade : MSt MemPlugins.world :=
  Eval vm_compute in run (RUpgrade #"lib" #"2.0.0") after_lib.

Lemma after_lib_core : core cd m after_lib.
Proof.
  apply (serve_core cd m (RInstall 5 (ask #"lib")) start); [vm_compute; reflexivity|].
  apply fresh_core, start_fresh.
Qed.

(** Installing version 2.0.0 brings "extra"; upgrading to it does not. *)
Lemma Upgrade_ignores_dependencies_witness :
  db (host after_upgrade) !! #"extra" = None /\
  (exists inst, (Upgrade cd m #"lib" #"2.0.0" after_lib).2 = Some (Ok inst) /\
     Dependencies (instManifest inst) = [MemPlugins.on #"extra"]) /\
  is_Some (db (host (run (RInstall 5 (mkRequest #"lib" #"2.0.0" [] [])) start)) !! #"extra").
Proof.
  split; [|split; [eexists; vm_compute; split; reflexivity|vm_compute; eauto]].
  eassert (Hrun : Upgrade cd m #"lib" #"2.0.0" after_lib = (after_upgrade, Some (Ok _)))
    by (vm_compute; reflexivity).
  exact (Upgrade_ignores_dependencies cd m #"lib" #"2.0.0" after_lib after_upgrade _
    (MemPlugins.on #"extra") after_lib_core Hrun (list_elem_of_here _ _) ltac:(by_dec)).
Defined.

(** Requirements go from "app" and "broken" to "lib" and from there to "extra". *)
Definition rank (n : gostr) : nat :=
  if str_eqb n #"extra" then 0 else if str_eqb n #"lib" then 1 else 2.

Lemma catalogue_wf : well_founded_by cd m rank.
Proof.
  intros n v mp p (tb & Hpub & _ & Hm).
  assert (Hall : Forall (fun p => manifest_in cd (MemPlugins.text p) = Some p /\
    Forall (fun d => (rank (dName d) < rank (pName p))%nat) (Dependencies p)) MemPlugins.catalogue).
  { unfold MemPlugins.catalogue. repeat (constructor; [split; [vm_compute; reflexivity|]|]); [..|constructor];
      by_dec. }
  change (MemPlugins.text <$> MemPlugins.lookup_plugin MemPlugins.catalogue n v = Some tb) in Hpub.
  destruct (MemPlugins.lookup_plugin MemPlugins.catalogue n v) as [q|] eqn:E; [|discriminate Hpub].
  injection Hpub as <-. apply find_some in E as [Hin Hq]. apply andb_true_iff in Hq as [Hq _]. apply str_eqb_eq in Hq.
  apply list_elem_of_In in Hin. destruct (proj1 (Forall_forall _ _) Hall _ Hin) as [Hman Hdeps].
  assert (q = p) as -> by congruence. split; [done|]. intros d Hd _. rewrite <- Hq.
  by apply (proj1 (Forall_forall _ _) Hdeps).
Qed.

Lemma Install_returns_witness :
  exists s' r, Install cd m 3 (ask #"app") start = (s', Some r) /\ locks s' = ∅.
Proof.
  apply (Install_returns cd m) with (rank := rank) (req := ask #"app") (s := start).
  - intros n i x Hx w. unfold provision.
    destruct Hx as [(-> & d & -> & _)|[(-> & d & -> & _)|[(-> & d & -> & _)|(-> & d & -> & _)]]];
      eexists _, _; reflexivity.
  - intros n r w. unfold unprovision.
    repeat match goal with |- context [if ?b then _ else _] => destruct b end; eexists _, _; reflexivity.
  - reflexivity.
  - exact catalogue_wf.
  - exact (fresh_core _ _ _ start_fresh).
  - reflexivity.
Defined.
End Acyclic.
