(* ===== verification/PluginMarket.v ===== *)
(** * internal/plugins: marketplaces and signatures

    marketplace.go (one source, its index cache and downloads),
    marketplaces.go (the registry of sources, the search across them, the
    in-memory store and the seeding of the official source), verify.go (the
    signature check), PreviewPlugin of preview.go, and the registry's HTTP
    handlers (internal/api/handlers/marketplaces.go).  The network, the
    JSON decoder, the cryptography, the clock and the store are interfaces.
    Of an index entry the name and the versions are kept; the descriptive
    fields are passed through by the code. *)

From S2P Require Import Prelude GoStrings GoPath Regex Effects SortLib Plugins.
From S2P Require Import PluginPackage PluginNeeds PluginRouter PluginLifecycle.
Import Manifest Package NeedsM LifecycleM.

Module MarketM.

Definition DefaultMarketplaceIndexURL : gostr :=
  #"https://raw.githubusercontent.com/azrtydxb/NovaNas-packages/main/index.json".

(** Fifteen minutes, in nanoseconds. *)
Definition IndexCacheTTL : Z := 15 * 60 * 1000000000.

Record IndexEntry := mkEntry { ieName : gostr; ieVersions : list IndexVersion }.
Record Index := mkIndex { ixVersion : Z; ixPlugins : list IndexEntry }.

(** What a call can fail with; the network's and the decoder's messages are
    theirs. *)
Inductive market_err :=
| HTTPErr (text : gostr) | HTTPStatus (status : Z) | DecodeErr (text : gostr) | NoVersionField
| EntryNoVersions (name : gostr) | EntryNoVersion (name version : gostr) | EntryMissing (name : gostr)
| InvalidURL (url : gostr)
| NotConfigured_ | StoreErr (e : gostr) | BadMarketplaceID | Disabled (name : gostr) | NowhereEnabled (name : gostr)
| PinErr | BadSignature.

(** ** Interfaces *)

(** A response: its status, the bytes that can be read, and the error that
    reading them then ends with, if any; [inl] is the error of a request
    that got none. *)
Class Net (W : Type) := {
  http_Do : Method -> gostr -> W -> W * (gostr + Z * gostr * option gostr)
}.

Class Clock (W : Type) := {
  time_Now : W -> W * Z;
  uuid_New : W -> W * gostr
}.

Inductive PublicKey := ECDSA (k : gostr) | RSA (k : gostr) | Ed25519 (k : gostr) | OtherKey.

Class Crypto := {
  pem_Decode : gostr -> option gostr;
  ParsePKIXPublicKey : gostr -> option PublicKey;
  base64_Decode : gostr -> option gostr;
  Sum256 : gostr -> gostr;
  ecdsa_Verify : gostr -> gostr -> gostr -> bool;
  rsa_Verify : gostr -> gostr -> gostr -> bool;
  ed25519_Verify : gostr -> gostr -> gostr -> bool
}.

(** Temporary files, and running a program. *)
Class Tools (W : Type) := {
  CreateTemp : gostr -> W -> W * option gostr;
  RemoveFile : gostr -> W -> W * bool;
  exec_Run : gostr -> list gostr -> W -> W * bool
}.

(** [io.ReadAll(io.LimitReader(body, n))]. *)
Definition read_limited (n : Z) (data : gostr) (readErr : option gostr) : gostr + gostr :=
  match readErr with
  | Some text => if Z.of_nat (length data) <? n then inl text else inr (limit n data)
  | None => inr (limit n data)
  end.

(** ** marketplace.go *)

Record ClientSt := mkClientSt { clURL : gostr; clCache : option (Index * Z) }.

Definition NewMarketplaceClient (indexURL : gostr) : ClientSt :=
  mkClientSt (if str_eqb indexURL [] then DefaultMarketplaceIndexURL else indexURL) None.

Definition find_version (vs : list IndexVersion) (version : gostr) : option IndexVersion :=
  find (fun v => str_eqb (ivVersion v) version) vs.

(** The loop over the index. *)
Fixpoint find_entry (ps : list IndexEntry) (name version : gostr)
  : res market_err (IndexEntry * IndexVersion) :=
  match ps with
  | [] => Err (EntryMissing name)
  | p :: ps' =>
      if negb (str_eqb (ieName p) name) then find_entry ps' name version
      else match ieVersions p with
           | [] => Err (EntryNoVersions name)
           | v0 :: _ =>
               if str_eqb version [] then Ok (p, v0)
               else match find_version (ieVersions p) version with
                    | Some v => Ok (p, v)
                    | None => Err (EntryNoVersion name version)
                    end
           end
  end.

Definition is_http (url : gostr) : bool := has_prefix url #"https://" || has_prefix url #"http://".

Section Client.
Context {W : Type} `{!Net W, !Clock W} (dec_index : gostr -> gostr + Index).

Definition fetch (url : gostr) : M W (res market_err Index) :=
  let! r := call (http_Do GET url) in
  match r with
  | inl text => ret (Err (HTTPErr text))
  | inr (status, data, readErr) =>
      if negb (status =? 200) then ret (Err (HTTPStatus status))
      else match read_limited (8 * 2 ^ 20) data readErr with
           | inl text => ret (Err (HTTPErr text))
           | inr body =>
               match dec_index body with
               | inl text => ret (Err (DecodeErr text))
               | inr idx => ret (if ixVersion idx =? 0 then Err NoVersionField else Ok idx)
               end
           end
  end.

Definition getBytes (url : gostr) : M W (res market_err gostr) :=
  if negb (is_http url) then ret (Err (InvalidURL url))
  else
    let! r := call (http_Do GET url) in
    match r with
    | inl text => ret (Err (HTTPErr text))
    | inr (status, data, readErr) =>
        if negb (status =? 200) then ret (Err (HTTPStatus status))
        else ret (match read_limited (256 * 2 ^ 20) data readErr with
                  | inl text => Err (HTTPErr text)
                  | inr body => Ok body
                  end)
    end.

(** The client's cache is threaded through. *)
Definition FetchIndex (c : ClientSt) (force : bool) : M W (ClientSt * res market_err Index) :=
  let refresh :=
    let! r := fetch (clURL c) in
    match r with
    | Err e => ret (c, Err e)
    | Ok idx =>
        let! now := call time_Now in
        ret (mkClientSt (clURL c) (Some (idx, now)), Ok idx)
    end in
  if force then refresh
  else match clCache c with
       | None => refresh
       | Some (idx, cachedAt) =>
           let! now := call time_Now in
           if now - cachedAt <? IndexCacheTTL then ret (c, Ok idx) else refresh
       end.

Definition client_FindVersion (c : ClientSt) (name version : gostr)
  : M W (ClientSt * res market_err (IndexEntry * IndexVersion)) :=
  let! (c', r) := FetchIndex c false in
  ret (c', match r with Err e => Err e | Ok idx => find_entry (ixPlugins idx) name version end).

Definition client_DownloadArtifacts (v : IndexVersion) : M W (res market_err (gostr * gostr)) :=
  let! t := getBytes (ivTarballURL v) in
  match t with
  | Err e => ret (Err e)
  | Ok tarball =>
      let! s := getBytes (ivSignatureURL v) in
      ret (match s with Err e => Err e | Ok sig => Ok (tarball, sig) end)
  end.
End Client.

(** ** verify.go *)

Definition DefaultTrustKeyPath : gostr := #"/etc/nova-nas/trust/marketplace.pub".

Record Verifier := mkVerifier { PublicKeyPath : gostr; CosignBin : gostr }.

Definition NewVerifier (path : gostr) : Verifier :=
  mkVerifier (if str_eqb path [] then DefaultTrustKeyPath else path) [].

Section Verify.
Context {W : Type} `{!Crypto, !Disk W, !Tools W}.

(** The check against the bytes of a key file. *)
Definition signed_with (keyBytes tarball signature : gostr) : bool :=
  match pem_Decode keyBytes with
  | None => false
  | Some block =>
      match ParsePKIXPublicKey block with
      | None => false
      | Some pub =>
          let sig := default signature (base64_Decode signature) in
          match pub with
          | ECDSA k => ecdsa_Verify k (Sum256 tarball) sig
          | RSA k => rsa_Verify k (Sum256 tarball) sig
          | Ed25519 k => ed25519_Verify k tarball sig
          | OtherKey => false
          end
      end
  end.

Definition verifyNative (v : Verifier) (tarball signature : gostr) : M W bool :=
  let! k := call (ReadFile (PublicKeyPath v)) in
  ret (match k with None => false | Some keyBytes => signed_with keyBytes tarball signature end).

Definition verifyWithCosign (v : Verifier) (tarball signature : gostr) : M W bool :=
  let! t := call (CreateTemp #"novanas-pkg-*.tar.gz") in
  match t with
  | None => ret false
  | Some tmp =>
      let! ok := call (WriteFile tmp tarball) in
      if negb ok then let! _ := call (RemoveFile tmp) in ret false
      else
        let! s := call (CreateTemp #"novanas-pkg-*.sig") in
        match s with
        | None => let! _ := call (RemoveFile tmp) in ret false
        | Some sigTmp =>
            let! ok := call (WriteFile sigTmp signature) in
            let! r := (if negb ok then ret false
                       else call (exec_Run (CosignBin v)
                              [ #"verify-blob"; #"--key"; PublicKeyPath v; #"--signature"; sigTmp; tmp])) in
            let! _ := call (RemoveFile sigTmp) in
            let! _ := call (RemoveFile tmp) in
            ret r
        end
  end.

(** [None] is a nil verifier. *)
Definition Verify (v : option Verifier) (tarball signature : gostr) : M W bool :=
  match v with
  | None => ret false
  | Some v =>
      if str_eqb (PublicKeyPath v) [] then ret false
      else if str_eqb tarball [] || str_eqb signature [] then ret false
      else if negb (str_eqb (CosignBin v) []) then verifyWithCosign v tarball signature
      else verifyNative v tarball signature
  end.
End Verify.

(** ** marketplaces.go: the registry *)

Definition OfficialMarketplaceName : gostr := #"novanas-official".

Record Marketplace := mkMarketplace {
  mpID : gostr; mpName : gostr; mpIndexURL : gostr; mpTrustKeyURL : gostr; mpTrustKeyPEM : gostr;
  mpLocked : bool; mpEnabled : bool; mpAddedBy : gostr; mpAddedAt : Z; mpUpdatedAt : Z }.

Inductive store_err := SNotFound | SDuplicate | SOther.

Class MarketStore (W : Type) := {
  ms_List : W -> W * res store_err (list Marketplace);
  ms_ListEnabled : W -> W * res store_err (list Marketplace);
  ms_Get : gostr -> W -> W * res store_err Marketplace;
  ms_GetByName : gostr -> W -> W * res store_err Marketplace;
  ms_Create : Marketplace -> W -> W * res store_err Marketplace;
  ms_UpdateEnabled : gostr -> bool -> W -> W * res store_err Marketplace;
  ms_UpdateTrustKey : gostr -> gostr -> W -> W * res store_err Marketplace;
  ms_Delete : gostr -> W -> W * option store_err
}.

(** uuid.Nil, as a string. *)
Definition uuid_Nil : gostr := #"00000000-0000-0000-0000-000000000000".

(** *** The multi-source client *)

Record MultiSt (W : Type) := mkMulti { clients : gmap gostr ClientSt; outer : W }.
Arguments mkMulti {W} _ _.
Arguments clients {W} _.
Arguments outer {W} _.

Record MergedSource := mkSource {
  srcID : gostr; srcName : gostr; srcCount : nat; srcOk : bool; srcFetchedAt : Z }.
Record MergedPlugin := mkMerged { mgEntry : IndexEntry; mgID : gostr; mgName : gostr }.
Record MergedIndex := mkMergedIndex { mgPlugins : list MergedPlugin; mgSources : list MergedSource }.

Fixpoint indexOfSource (srcs : list MergedSource) (id : gostr) : nat :=
  match srcs with
  | [] => 0
  | s :: srcs' => if str_eqb (srcID s) id then 0 else S (indexOfSource srcs' id)
  end.

(** Sources first, then names. *)
Definition merged_less (srcs : list MergedSource) (a b : MergedPlugin) : bool :=
  let ai := indexOfSource srcs (mgID a) in
  let bi := indexOfSource srcs (mgID b) in
  if negb (ai =? bi)%nat then (ai <? bi)%nat else str_ltb (ieName (mgEntry a)) (ieName (mgEntry b)).

(** What one source contributes. *)
Definition source_of (m : Marketplace) (r : res market_err Index) (at_ : Z) : MergedSource :=
  mkSource (mpID m) (mpName m) (match r with Ok idx => length (ixPlugins idx) | Err _ => O end)
    (is_ok r) at_.
Definition plugins_of (m : Marketplace) (r : res market_err Index) : list MergedPlugin :=
  match r with
  | Ok idx => map (fun p => mkMerged p (mpID m) (mpName m)) (ixPlugins idx)
  | Err _ => []
  end.

Definition merge (results : list (Marketplace * res market_err Index * Z)) : MergedIndex :=
  let srcs := map (fun '(m, r, t) => source_of m r t) results in
  mkMergedIndex
    (stable_sort (merged_less srcs) (concat (map (fun '(m, r, _) => plugins_of m r) results))) srcs.

Section Multi.
Context {W : Type} `{!Net W, !Clock W, !Disk W, !Tools W, !MarketStore W, !Crypto}
  (dec_index : gostr -> gostr + Index) (uuid_Parse : gostr -> option gostr) (PluginsRoot : gostr).

Definition out_ {A} (c : M W A) : M (MultiSt W) A :=
  fun s => let '(w, r) := c (outer s) in (mkMulti (clients s) w, r).
Definition put_client (id : gostr) (c : ClientSt) : M (MultiSt W) unit :=
  fun s => (mkMulti (<[id := c]> (clients s)) (outer s), Some tt).

Definition clientFor (m : Marketplace) : M (MultiSt W) ClientSt := fun s =>
  match clients s !! mpID m with
  | Some c => (s, Some c)
  | None =>
      let c := NewMarketplaceClient (mpIndexURL m) in
      (mkMulti (<[mpID m := c]> (clients s)) (outer s), Some c)
  end.

Definition index_of (m : Marketplace) : M (MultiSt W) (res market_err Index) :=
  let! c := clientFor m in
  let! (c', r) := out_ (FetchIndex dec_index c false) in
  let! _ := put_client (mpID m) c' in
  ret r.

Definition version_in (m : Marketplace) (name version : gostr)
  : M (MultiSt W) (res market_err (IndexEntry * IndexVersion)) :=
  let! r := index_of m in
  ret (match r with Err e => Err e | Ok idx => find_entry (ixPlugins idx) name version end).

(** The sources are asked one after the other; in the code a goroutine
    each, with its own slot of the results. *)
Fixpoint fetch_each (rows : list Marketplace)
  : M (MultiSt W) (list (Marketplace * res market_err Index * Z)) :=
  match rows with
  | [] => ret []
  | m :: rows' =>
      let! r := index_of m in
      let! now := out_ (call time_Now) in
      let! rest := fetch_each rows' in
      ret ((m, r, now) :: rest)
  end.

Definition FetchAll : M (MultiSt W) (res market_err MergedIndex) :=
  let! rows := out_ (call ms_ListEnabled) in
  match rows with
  | Err _ => ret (Err (StoreErr #"list marketplaces"))
  | Ok rows => let! results := fetch_each rows in ret (Ok (merge results))
  end.

(** The loop over the enabled sources; [firstErr] is that of the first one
    that failed. *)
Fixpoint find_in_sources (rows : list Marketplace) (name version : gostr) (firstErr : option market_err)
  : M (MultiSt W) (res market_err (IndexEntry * IndexVersion * Marketplace)) :=
  match rows with
  | [] => ret (Err (default (NowhereEnabled name) firstErr))
  | m :: rows' =>
      let! r := version_in m name version in
      match r with
      | Ok (p, v) => ret (Ok (p, v, m))
      | Err e => find_in_sources rows' name version (Some (default e firstErr))
      end
  end.

Definition FindVersion (name version marketplaceID : gostr)
  : M (MultiSt W) (res market_err (IndexEntry * IndexVersion * Marketplace)) :=
  if negb (str_eqb marketplaceID []) then
    match uuid_Parse marketplaceID with
    | None => ret (Err BadMarketplaceID)
    | Some id =>
        let! m := out_ (call (ms_Get id)) in
        match m with
        | Err _ => ret (Err (StoreErr #"get"))
        | Ok m =>
            if negb (mpEnabled m) then ret (Err (Disabled (mpName m)))
            else
              let! r := version_in m name version in
              ret (match r with Err e => Err e | Ok (p, v) => Ok (p, v, m) end)
        end
    end
  else
    let! rows := out_ (call ms_ListEnabled) in
    match rows with
    | Err _ => ret (Err (StoreErr #"list"))
    | Ok rows => find_in_sources rows name version None
    end.

Definition writePinnedKey (m : Marketplace) : M (MultiSt W) (option gostr) :=
  let dir := Join [if str_eqb PluginsRoot [] then DefaultPluginsRoot else PluginsRoot; #".trust"] in
  let! ok := out_ (call (MkdirAll dir)) in
  if negb ok then ret None
  else
    let path := Join [dir; mpID m ++ #".pub"] in
    let! ok := out_ (call (WriteFile path (mpTrustKeyPEM m))) in
    ret (if (ok : bool) then Some path else None).

Definition DownloadAndVerify (marketplaceID : gostr) (v : IndexVersion)
  : M (MultiSt W) (res market_err gostr) :=
  let! m := out_ (call (ms_Get marketplaceID)) in
  match m with
  | Err _ => ret (Err (StoreErr #"get"))
  | Ok m =>
      let! _ := clientFor m in
      let! a := out_ (client_DownloadArtifacts v) in
      match a with
      | Err e => ret (Err e)
      | Ok (tarball, sig) =>
          let! k := writePinnedKey m in
          match k with
          | None => ret (Err PinErr)
          | Some keyPath =>
              let! ok := out_ (Verify (Some (mkVerifier keyPath [])) tarball sig) in
              ret (if (ok : bool) then Ok tarball else Err BadSignature)
          end
      end
  end.
End Multi.
End MarketM.
