(* ===== verification/PluginMarketApi.v ===== *)
(** * Marketplace registry: the stores behind it and the API over it

    MemMarketplacesStore and SeedOfficialIfMissing of marketplaces.go,
    PreviewPlugin of preview.go, and the handlers of
    internal/api/handlers/marketplaces.go over any store. *)

From S2P Require Import Prelude GoStrings GoPath Regex Effects SortLib Plugins.
From S2P Require Import PluginPackage PluginNeeds PluginRouter PluginLifecycle PluginMarket.
Import Manifest Package NeedsM LifecycleM MarketM.

Module MarketApi.

(** ** MemMarketplacesStore *)

Record MemM (W : Type) := mkMemM { mmRows : gmap gostr Marketplace; mmW : W }.
Arguments mkMemM {W} _ _.
Arguments mmRows {W} _.
Arguments mmW {W} _.

(** Locked first, then by the time of registration. *)
Definition market_less (a b : Marketplace) : bool :=
  if negb (Bool.eqb (mpLocked a) (mpLocked b)) then mpLocked a else mpAddedAt a <? mpAddedAt b.

Definition with_enabled (m : Marketplace) (enabled : bool) (now : Z) : Marketplace :=
  mkMarketplace (mpID m) (mpName m) (mpIndexURL m) (mpTrustKeyURL m) (mpTrustKeyPEM m)
    (mpLocked m) enabled (mpAddedBy m) (mpAddedAt m) now.
Definition with_key (m : Marketplace) (pem : gostr) (now : Z) : Marketplace :=
  mkMarketplace (mpID m) (mpName m) (mpIndexURL m) (mpTrustKeyURL m) pem
    (mpLocked m) (mpEnabled m) (mpAddedBy m) (mpAddedAt m) now.
Definition with_defaults (m : Marketplace) (id : gostr) (now : Z) : Marketplace :=
  mkMarketplace id (mpName m) (mpIndexURL m) (mpTrustKeyURL m) (mpTrustKeyPEM m)
    (mpLocked m) (mpEnabled m) (mpAddedBy m) (if mpAddedAt m =? 0 then now else mpAddedAt m) now.

Section MemStore.
(** [iter] is the order in which Go ranges over a map; it can be any. *)
Context {W : Type} `{!Clock W} (iter : gmap gostr Marketplace -> list Marketplace).

Definition mem_List (s : MemM W) : MemM W * res store_err (list Marketplace) :=
  (s, Ok (stable_sort market_less (iter (mmRows s)))).

Definition mem_ListEnabled (s : MemM W) : MemM W * res store_err (list Marketplace) :=
  (s, Ok (filter (fun m => mpEnabled m = true) (stable_sort market_less (iter (mmRows s))))).

(** A miss is an error of its own, not the package's ErrNotFound. *)
Definition mem_Get (id : gostr) (s : MemM W) : MemM W * res store_err Marketplace :=
  (s, match mmRows s !! id with Some m => Ok m | None => Err SOther end).

Definition mem_GetByName (name : gostr) (s : MemM W) : MemM W * res store_err Marketplace :=
  (s, match find (fun m => str_eqb (mpName m) name) (iter (mmRows s)) with
      | Some m => Ok m
      | None => Err SOther
      end).

(** The zero time is 0. *)
Definition mem_Create (m : Marketplace) (s : MemM W) : MemM W * res store_err Marketplace :=
  if existsb (fun ex => str_eqb (mpName ex) (mpName m)) (iter (mmRows s)) then (s, Err SDuplicate)
  else
    let '(w, id) := if str_eqb (mpID m) uuid_Nil then uuid_New (mmW s) else (mmW s, mpID m) in
    let '(w, now) := time_Now w in
    let m := with_defaults m id now in
    (mkMemM (<[mpID m := m]> (mmRows s)) w, Ok m).

Definition mem_update (id : gostr) (f : Marketplace -> Z -> Marketplace) (s : MemM W)
  : MemM W * res store_err Marketplace :=
  match mmRows s !! id with
  | None => (s, Err SOther)
  | Some m =>
      let '(w, now) := time_Now (mmW s) in
      let m := f m now in
      (mkMemM (<[id := m]> (mmRows s)) w, Ok m)
  end.

Definition mem_UpdateEnabled (id : gostr) (enabled : bool) : MemM W -> MemM W * res store_err Marketplace :=
  mem_update id (fun m now => with_enabled m enabled now).
Definition mem_UpdateTrustKey (id pem : gostr) : MemM W -> MemM W * res store_err Marketplace :=
  mem_update id (fun m now => with_key m pem now).

Definition mem_Delete (id : gostr) (s : MemM W) : MemM W * option store_err :=
  match mmRows s !! id with
  | None => (s, Some SOther)
  | Some _ => (mkMemM (delete id (mmRows s)) (mmW s), None)
  end.

Definition mem_store : MarketStore (MemM W) := {|
  ms_List := mem_List; ms_ListEnabled := mem_ListEnabled; ms_Get := mem_Get;
  ms_GetByName := mem_GetByName; ms_Create := mem_Create; ms_UpdateEnabled := mem_UpdateEnabled;
  ms_UpdateTrustKey := mem_UpdateTrustKey; ms_Delete := mem_Delete |}.
End MemStore.

(** ** SeedOfficialIfMissing *)

Section Seed.
Context {W : Type} `{!Clock W, !Disk W, !MarketStore W}.

Definition readTrustKey (path : gostr) : M W (option gostr) :=
  if str_eqb path [] then ret None else call (ReadFile path).

(** The row and whether it was created. *)
Definition SeedOfficialIfMissing (indexURL trustKeyPath : gostr) : M W (option (Marketplace * bool)) :=
  let! ex := call (ms_GetByName OfficialMarketplaceName) in
  match ex with
  | Ok existing => ret (Some (existing, false))
  | Err _ =>
      let indexURL := if str_eqb indexURL [] then DefaultMarketplaceIndexURL else indexURL in
      let! pem := readTrustKey trustKeyPath in
      match pem with
      | None => ret None
      | Some pem =>
          let! id := call uuid_New in
          let! now := call time_Now in
          let! r := call (ms_Create (mkMarketplace id OfficialMarketplaceName indexURL [] pem
                            true true #"system" now 0)) in
          ret (match r with Ok m => Some (m, true) | Err _ => None end)
      end
  end.
End Seed.

(** ** PreviewPlugin *)

Definition PreviewErrNotFound : gostr := #"not_found".
Definition PreviewErrMarketplaceUnreach : gostr := #"marketplace_unreachable".
Definition PreviewErrSignatureInvalid : gostr := #"signature_invalid".
Definition PreviewErrManifestInvalid : gostr := #"manifest_invalid".
Definition PreviewErrInternal : gostr := #"internal".

Record PreviewResult := mkPreview {
  pvManifest : Plugin; pvPermissions : PermissionsSummary; pvSHA256 : gostr }.

Section Preview.
Context {W V C : Type} `{!Net W, !Clock W, !Disk W, !Tools W, !Crypto}
  (dec_index : gostr -> gostr + Index) (quote hex : gostr -> gostr) (cd : Codec V C).

(** The message of an error of FindVersion. *)
Definition error_text (e : market_err) : gostr :=
  match e with
  | EntryMissing n => #"plugins: " ++ quote n ++ #" not in marketplace index"
  | EntryNoVersions n => #"plugins: " ++ quote n ++ #" has no versions in index"
  | EntryNoVersion n v => #"plugins: " ++ quote n ++ #" has no version " ++ quote v
  | HTTPErr text => text
  | HTTPStatus st => #"plugins: marketplace HTTP " ++ dec_digits 20 st []
  | DecodeErr text => #"plugins: index decode: " ++ text
  | NoVersionField => #"plugins: marketplace index has no version field"
  | _ => []
  end.

Definition containsAny (haystack : gostr) (needles : list gostr) : bool :=
  existsb (fun n => negb (str_eqb n []) && contains haystack n) needles.

Definition lookup_code (e : market_err) : gostr :=
  if containsAny (error_text e)
       [ #"not in marketplace index"; #"has no version"; #"has no versions"]
  then PreviewErrNotFound else PreviewErrMarketplaceUnreach.

(** [None] is a nil client; the client's cache is returned with the result. *)
Definition PreviewPlugin (mc : option ClientSt) (ver : option Verifier) (name version : gostr)
  : M W (option ClientSt * res gostr PreviewResult) :=
  match mc with
  | None => ret (None, Err PreviewErrInternal)
  | Some c =>
      if str_eqb name [] then ret (Some c, Err PreviewErrNotFound)
      else
        let! (c, f) := client_FindVersion dec_index c name version in
        match f with
        | Err e => ret (Some c, Err (lookup_code e))
        | Ok (_, v) =>
            let! a := client_DownloadArtifacts v in
            match a with
            | Err _ => ret (Some c, Err PreviewErrMarketplaceUnreach)
            | Ok (tarball, sig) =>
                let! ok := (match ver with None => ret true | Some _ => Verify ver tarball sig end) in
                if negb ok then ret (Some c, Err PreviewErrSignatureInvalid)
                else
                  match readManifestFromTarball (untar cd) tarball with
                  | Err _ => ret (Some c, Err PreviewErrManifestInvalid)
                  | Ok mb =>
                      match parse_manifest cd mb with
                      | Err _ => ret (Some c, Err PreviewErrManifestInvalid)
                      | Ok manifest =>
                          if negb (str_eqb (pName manifest) name)
                          then ret (Some c, Err PreviewErrManifestInvalid)
                          else ret (Some c, Ok (mkPreview manifest (Summarize quote manifest)
                                                  (hex (Sum256 tarball))))
                      end
                  end
            end
        end
  end.
End Preview.

(** ** The HTTP handlers *)

(** What a handler writes: an error with its code, or a success. *)
Inductive reply (A : Type) := WriteError (status : Z) (code : gostr) | WriteJSON (status : Z) (a : A).
Arguments WriteError {A} _ _.
Arguments WriteJSON {A} _ _.

Record CreateRequest := mkCreate { crName : gostr; crIndexURL : gostr; crTrustKeyURL : gostr }.
Record PatchRequest := mkPatch { paEnabled : option bool; paRefresh : bool }.

Section Handlers.
Context {W : Type} `{!Net W, !Clock W, !MarketStore W, !Crypto}
  (uuid_Parse : gostr -> option gostr) (addedBy : gostr).

Definition validatePublicKeyPEM (s : gostr) : bool :=
  match pem_Decode s with
  | None => false
  | Some block => match ParsePKIXPublicKey block with None => false | Some _ => true end
  end.

Definition probeURL (url : gostr) : M W bool :=
  if negb (is_http url) then ret false
  else
    let! r := call (http_Do HEAD url) in
    ret (match r with
         | inl _ => false
         | inr (status, _, _) => ((200 <=? status) && (status <? 400)) || (status =? 405)
         end).

Definition fetchTrustKey (url : gostr) : M W (option gostr) :=
  if negb (is_http url) then ret None
  else
    let! r := call (http_Do GET url) in
    ret (match r with
         | inl _ => None
         | inr (status, data, readErr) =>
             if negb (status =? 200) then None
             else match read_limited (64 * 2 ^ 10) data readErr with
                  | inl _ => None
                  | inr body => Some body
                  end
         end).

Definition refreshTrustKey (current : Marketplace) : M W (option Marketplace) :=
  if str_eqb (mpTrustKeyURL current) [] then ret None
  else
    let! k := fetchTrustKey (mpTrustKeyURL current) in
    match k with
    | None => ret None
    | Some pem =>
        if negb (validatePublicKeyPEM pem) then ret None
        else
          let! r := call (ms_UpdateTrustKey (mpID current) pem) in
          ret (match r with Ok m => Some m | Err _ => None end)
    end.

(** [body] is the decoded request, absent when it does not decode. *)
Definition h_Create (body : option CreateRequest) : M W (reply Marketplace) :=
  match body with
  | None => ret (WriteError 400 #"invalid_body")
  | Some req =>
      let name := trim_space (crName req) in
      let indexURL := trim_space (crIndexURL req) in
      let trustKeyURL := trim_space (crTrustKeyURL req) in
      if str_eqb name [] || str_eqb indexURL [] || str_eqb trustKeyURL []
      then ret (WriteError 400 #"invalid_argument")
      else if str_eqb name OfficialMarketplaceName then ret (WriteError 409 #"reserved_name")
      else
        let! reachable := probeURL indexURL in
        if negb reachable then ret (WriteError 502 #"index_unreachable")
        else
          let! k := fetchTrustKey trustKeyURL in
          match k with
          | None => ret (WriteError 502 #"trust_key_unreachable")
          | Some pem =>
              if negb (validatePublicKeyPEM pem) then ret (WriteError 400 #"invalid_trust_key")
              else
                let! id := call uuid_New in
                let! r := call (ms_Create (mkMarketplace id name indexURL trustKeyURL pem
                                  false true addedBy 0 0)) in
                ret (match r with
                     | Err SDuplicate => WriteError 409 #"already_exists"
                     | Err _ => WriteError 500 #"internal_error"
                     | Ok m => WriteJSON 201 m
                     end)
          end
  end.

(** The row an identifier in the path names. *)
Definition with_row {A} (idParam : gostr) (k : Marketplace -> M W (reply A)) : M W (reply A) :=
  match uuid_Parse idParam with
  | None => ret (WriteError 400 #"invalid_id")
  | Some id =>
      let! m := call (ms_Get id) in
      match m with
      | Err SNotFound => ret (WriteError 404 #"not_found")
      | Err _ => ret (WriteError 500 #"internal_error")
      | Ok m => k m
      end
  end.

Definition h_Get (idParam : gostr) : M W (reply Marketplace) :=
  with_row idParam (fun m => ret (WriteJSON 200 m)).

Definition h_List : M W (reply (list Marketplace)) :=
  let! r := call ms_List in
  ret (match r with Err _ => WriteError 500 #"internal_error" | Ok l => WriteJSON 200 l end).

Definition patch_refresh (req : PatchRequest) (updated : Marketplace) : M W (reply Marketplace) :=
  if paRefresh req then
    let! r := refreshTrustKey updated in
    ret (match r with None => WriteError 502 #"trust_key_unreachable" | Some m => WriteJSON 200 m end)
  else ret (WriteJSON 200 updated).

Definition h_Patch (idParam : gostr) (body : option PatchRequest) : M W (reply Marketplace) :=
  match uuid_Parse idParam with
  | None => ret (WriteError 400 #"invalid_id")
  | Some id =>
      match body with
      | None => ret (WriteError 400 #"invalid_body")
      | Some req =>
          with_row idParam (fun current =>
            match paEnabled req with
            | None => patch_refresh req current
            | Some enabled =>
                if mpLocked current && negb enabled
                then ret (WriteError 409 #"locked_marketplace")
                else
                  let! row := call (ms_UpdateEnabled id enabled) in
                  match row with
                  | Err _ => ret (WriteError 500 #"internal_error")
                  | Ok row => patch_refresh req row
                  end
            end)
      end
  end.

Definition h_Delete (idParam : gostr) : M W (reply unit) :=
  match uuid_Parse idParam with
  | None => ret (WriteError 400 #"invalid_id")
  | Some id =>
      with_row idParam (fun current =>
        if mpLocked current then ret (WriteError 409 #"locked_marketplace")
        else
          let! e := call (ms_Delete id) in
          ret (match e with Some _ => WriteError 500 #"internal_error" | None => WriteJSON 204 tt end))
  end.

Definition h_RefreshTrustKey (idParam : gostr) : M W (reply Marketplace) :=
  with_row idParam (fun current =>
    let! r := refreshTrustKey current in
    ret (match r with None => WriteError 502 #"trust_key_unreachable" | Some m => WriteJSON 200 m end)).
End Handlers.
End MarketApi.
