(* ===== verification/PluginMarketCorrect.v ===== *)
(** * Marketplaces: whose signature counts, and which source wins

    A tarball is handed out only when it is signed with the key pinned for
    its marketplace; no API call touches the official source's row; the
    search prefers the official source, but only while it can be reached;
    and the merged index is complete and ordered. *)

From S2P Require Import Prelude GoStrings GoPath Regex Effects SortLib Plugins.
From S2P Require Import PluginPackage PluginPackageCorrect PluginNeeds PluginRouter PluginLifecycle.
From S2P Require Import PluginLifecycleInv PluginMarket PluginMarketApi.
Import Manifest Package NeedsM LifecycleM MarketM MarketApi.

(** ** The pinned key *)

Section Pinned.
Context {W : Type} `{!Net W, !Clock W, !Disk W, !Tools W, !MarketStore W, !Crypto}
  (dec_index : gostr -> gostr + Index) (PluginsRoot : gostr).

Lemma out_run {A} (c : M W A) (s s' : MultiSt W) a : out_ c s = (s', Some a) ->
  c (outer s) = (outer s', Some a) /\ clients s' = clients s.
Proof. unfold out_. destruct (c (outer s)) as [w r]. by intros [= <- ->]. Qed.

(** C14. DownloadAndVerify hands out a tarball only when its signature
    verifies with the key pinned in the registry for the marketplace it was
    asked for: not with another marketplace's key, not without a
    signature, and never an empty tarball. *)
Theorem DownloadAndVerify_pinned_key id v (s s' : MultiSt W) tb (Hrb : reads_back (W := W))
    (Hrun : DownloadAndVerify PluginsRoot id v s = (s', Some (Ok tb))) :
  exists w1 m sig, ms_Get id (outer s) = (w1, Ok m) /\
    tb <> [] /\ sig <> [] /\ signed_with (mpTrustKeyPEM m) tb sig = true.
Proof.
  unfold DownloadAndVerify in Hrun. run Hrun as s1 m E1. apply out_run in E1 as [E1 _].
  unfold call in E1. destruct (ms_Get id (outer s)) as [w1 mr] eqn:Eg. injection E1 as _ <-.
  destruct mr as [m|]; [|done].
  run Hrun as s2 c E2. run Hrun as s3 a E3. destruct a as [[tarball sig]|]; [|done].
  run Hrun as s4 k E4. destruct k as [keyPath|]; [|done]. run Hrun as s5 ok E5.
  apply ret_returned in Hrun as [-> Hok]. destruct ok; [|done]. injection Hok as <-.
  exists w1, m, sig. split; [done|].
  unfold writePinnedKey in E4. run E4 as s6 ok6 E6. destruct ok6; [|done]. cbn [negb] in E4.
  run E4 as s7 ok7 E7. apply ret_returned in E4 as [-> E4]. destruct ok7; [|done]. injection E4 as ->.
  apply out_run in E7 as [E7 _]. apply out_run in E5 as [E5 _]. unfold call in E7.
  destruct (WriteFile _ _ (outer s6)) as [w7 b7] eqn:Ew. injection E7 as E7 ->. subst w7.
  unfold Verify in E5. cbn [PublicKeyPath CosignBin] in E5.
  destruct (str_eqb _ []) in E5 at 1; [done|].
  destruct (str_eqb tb [] || str_eqb sig []) eqn:Ee; [done|].
  apply orb_false_iff in Ee as [Et Es]. apply str_eqb_neq in Et, Es.
  split; [done|]. split; [done|].
  unfold verifyNative in E5. cbn [PublicKeyPath negb str_eqb] in E5.
  run E5 as w8 kb E8. apply ret_returned in E5 as [_ E5]. unfold call in E8.
  destruct (ReadFile _ (outer s7)) as [w9 kb'] eqn:Er. injection E8 as _ <-.
  destruct kb' as [kb'|]; [|done]. by rewrite (Hrb _ _ _ _ _ _ Ew Er) in E5.
Qed.
End Pinned.

(** ** The official source *)

Section Official.
Context {W : Type} `{!Net W, !Clock W, !Disk W, !Crypto}
  (iter : gmap gostr Marketplace -> list Marketplace) (uuid_Parse : gostr -> option gostr) (addedBy : gostr).

(** Go may range over a map in any order. *)
Hypothesis Hiter : forall rows, iter rows ≡ₚ (map_to_list rows).*2.

Definition inner {A} (f : W -> W * A) (s : MemM W) : MemM W * A :=
  let '(w, a) := f (mmW s) in (mkMemM (mmRows s) w, a).

#[local] Instance mem_net : Net (MemM W) := {| http_Do := fun m u => inner (http_Do m u) |}.
#[local] Instance mem_clock : Clock (MemM W) := {| time_Now := inner time_Now; uuid_New := inner uuid_New |}.
#[local] Instance mem_disk : Disk (MemM W) := {|
  MkdirAll := fun p => inner (MkdirAll p); WriteFile := fun p d => inner (WriteFile p d);
  ReadFile := fun p => inner (ReadFile p); RemoveAll := fun p => inner (RemoveAll p);
  Stat := fun p => inner (Stat p) |}.
#[local] Instance the_store : MarketStore (MemM W) := mem_store iter.

Inductive api_call :=
| ACreate (body : option CreateRequest) | APatch (id : gostr) (body : option PatchRequest)
| ADelete (id : gostr) | ARefresh (id : gostr) | AGet (id : gostr) | AList
| ASeed (indexURL keyPath : gostr).

Definition api (c : api_call) : M (MemM W) unit :=
  match c with
  | ACreate b => let! _ := h_Create addedBy b in ret tt
  | APatch id b => let! _ := h_Patch uuid_Parse id b in ret tt
  | ADelete id => let! _ := h_Delete uuid_Parse id in ret tt
  | ARefresh id => let! _ := h_RefreshTrustKey uuid_Parse id in ret tt
  | AGet id => let! _ := h_Get uuid_Parse id in ret tt
  | AList => let! _ := h_List in ret tt
  | ASeed u k => let! _ := SeedOfficialIfMissing u k in ret tt
  end.

(** New identifiers do not collide with the official source's. *)
Definition fresh_ids (oid : gostr) : Prop := forall w : W, (uuid_New w).2 <> oid.

(** The row seeded at boot, with its key pinned and no address to refresh
    it from. *)
Definition official_row (oid url pem : gostr) (m : Marketplace) : Prop :=
  mpID m = oid /\ mpName m = OfficialMarketplaceName /\ mpIndexURL m = url /\ mpTrustKeyURL m = [] /\
  mpTrustKeyPEM m = pem /\ mpLocked m = true /\ mpEnabled m = true.

Record official_inv (oid url pem : gostr) (s : MemM W) : Prop := {
  oi_row : exists m, mmRows s !! oid = Some m /\ official_row oid url pem m;
  oi_others id m : mmRows s !! id = Some m -> mpID m = id /\
    (id <> oid -> mpLocked m = false /\ mpName m <> OfficialMarketplaceName)
}.

Section Protected.
Context (oid url pem : gostr) (Hfresh : fresh_ids oid).
Notation inv := (official_inv oid url pem).

(** A step that keeps the invariant. *)
Definition safe {A} (c : M (MemM W) A) : Prop := respects (fun s s' => inv s -> inv s') c.

#[local] Instance keeps_refl : Reflexive (fun s s' => inv s -> inv s').
Proof. by intros s. Qed.
#[local] Instance keeps_trans : Transitive (fun s s' => inv s -> inv s').
Proof. intros s1 s2 s3 H1 H2 H3. auto. Qed.

Lemma inv_rows s s' : mmRows s' = mmRows s -> inv s -> inv s'.
Proof. intros E [H1 H2]. split; by rewrite E. Qed.

Lemma inner_safe {A} (f : W -> W * A) : safe (call (inner f)).
Proof.
  apply respects_call. intros s. unfold inner. destruct (f (mmW s)). simpl. by apply inv_rows.
Qed.

Lemma get_safe id : safe (call (ms_Get id)).
Proof. apply respects_call. intros s. simpl. done. Qed.

Lemma safe_bind {A B} (c : M (MemM W) A) (k : A -> M (MemM W) B) :
  safe c -> (forall a, safe (k a)) -> safe (bind c k).
Proof. apply respects_bind. apply _. Qed.

Lemma safe_ret {A} (a : A) : safe (ret a).
Proof. apply respects_ret. apply _. Qed.

(** An update of the row [id] that keeps it official, or unlocked. *)
Lemma update_safe id f :
  (forall m now, mpID (f m now) = mpID m /\ mpName (f m now) = mpName m /\ mpLocked (f m now) = mpLocked m) ->
  (forall m now, official_row oid url pem m -> id = oid -> official_row oid url pem (f m now)) ->
  safe (call (mem_update id f)).
Proof.
  intros Hf Ho. apply respects_call. intros s Hi. unfold mem_update.
  destruct (mmRows s !! id) as [m|] eqn:Em; [|done]. destruct (time_Now (mmW s)) as [w now]. simpl.
  destruct (oi_others _ _ _ _ Hi id m Em) as [Hid Hother]. destruct (Hf m now) as (F1 & F2 & F3).
  destruct (oi_row _ _ _ _ Hi) as (mo & Hmo & Hrow). split.
  - destruct (decide (id = oid)) as [->|Hne].
    + exists (f m now). simpl. rewrite lookup_insert_eq. split; [done|]. apply Ho; [|done]. congruence.
    + exists mo. simpl. by rewrite lookup_insert_ne.
  - intros k m'. simpl. rewrite lookup_insert_Some. intros [[<- <-]|[_ Hk]]; [|by apply (oi_others _ _ _ _ Hi)].
    rewrite F1, F2, F3. done.
Qed.

Lemma find_name_official s : inv s ->
  existsb (fun ex => str_eqb (mpName ex) OfficialMarketplaceName) (iter (mmRows s)) = true.
Proof.
  intros Hi. destruct (oi_row _ _ _ _ Hi) as (m & Hm & _ & Hn & _). apply existsb_exists.
  exists m. rewrite Hn, str_eqb_refl. split; [|done]. apply list_elem_of_In. rewrite Hiter.
  apply list_elem_of_fmap. exists (oid, m). split; [done|]. by apply elem_of_map_to_list.
Qed.

(** Creating a row that is not locked, under an identifier that is fresh. *)
Lemma create_safe m : mpID m <> oid -> mpLocked m = false ->
  mpName m <> OfficialMarketplaceName -> safe (call (mem_Create iter m)).
Proof.
  intros Hid Hl Hn. apply respects_call. intros s Hi. unfold mem_Create.
  destruct (existsb _ _) eqn:Ee; [done|].
  destruct (if str_eqb _ _ then _ else _) as [w id] eqn:Eid. destruct (time_Now w) as [w' now]. simpl.
  assert (Hne : id <> oid).
  { destruct (str_eqb (mpID m) uuid_Nil); [|by injection Eid as _ <-].
    specialize (Hfresh (mmW s)). by rewrite Eid in Hfresh. }
  destruct (oi_row _ _ _ _ Hi) as (mo & Hmo & Hrow). split.
  - exists mo. simpl. by rewrite lookup_insert_ne.
  - intros k m'. simpl. rewrite lookup_insert_Some. intros [[<- <-]|[_ Hk]]; [by split|].
    by apply (oi_others _ _ _ _ Hi).
Qed.

Lemma probe_safe u : safe (probeURL u).
Proof. unfold probeURL. destruct (negb _); [apply safe_ret|]. apply safe_bind; [apply inner_safe|]. intros. apply safe_ret. Qed.

Lemma fetch_key_safe u : safe (fetchTrustKey u).
Proof. unfold fetchTrustKey. destruct (negb _); [apply safe_ret|]. apply safe_bind; [apply inner_safe|]. intros. apply safe_ret. Qed.

(** Refreshing a row that is the official one does nothing. *)
Lemma refresh_safe m : (mpID m = oid -> mpTrustKeyURL m = []) -> safe (refreshTrustKey m).
Proof.
  intros Hm. unfold refreshTrustKey. case_str (mpTrustKeyURL m) (@nil ascii) as Eu; [apply safe_ret|].
  apply safe_bind; [apply fetch_key_safe|]. intros [k|]; [|apply safe_ret].
  destruct (negb _); [apply safe_ret|]. apply safe_bind; [|intros; apply safe_ret].
  apply update_safe; [done|]. intros m' now _ E. by specialize (Hm E).
Qed.

Lemma seed_safe u k : safe (SeedOfficialIfMissing u k).
Proof.
  intros s Hi. unfold SeedOfficialIfMissing, bind, call. simpl. unfold mem_GetByName.
  destruct (find _ _) as [m|] eqn:Ef; [done|]. exfalso.
  pose proof (find_name_official s Hi) as Hex. apply existsb_exists in Hex as (x & Hx & E).
  pose proof (find_none _ _ Ef _ Hx) as E'. simpl in E'. congruence.
Qed.

Lemma create_handler_safe b : safe (h_Create addedBy b).
Proof.
  unfold h_Create. destruct b as [req|]; [|apply safe_ret].
  destruct (_ || _); [apply safe_ret|].
  case_str (trim_space (crName req)) OfficialMarketplaceName as En; [apply safe_ret|].
  apply safe_bind; [apply probe_safe|]. intros reachable. destruct (negb reachable); [apply safe_ret|].
  apply safe_bind; [apply fetch_key_safe|]. intros [key|]; [|apply safe_ret].
  destruct (negb _); [apply safe_ret|].
  intros s Hi. unfold bind at 1. unfold call at 1. simpl. unfold inner.
  pose proof (Hfresh (mmW s)) as Hid. destruct (uuid_New (mmW s)) as [w id] eqn:Eu. simpl in Hid.
  refine (safe_bind _ _ (create_safe (mkMarketplace id _ _ _ key false true addedBy 0 0) Hid eq_refl En) _ _ _).
  - intros a. apply safe_ret.
  - by apply (inv_rows s).
Qed.

(** A handler on the row an identifier names. *)
Lemma with_row_safe {A} idp (k : Marketplace -> M (MemM W) (reply A)) :
  (forall id m s, uuid_Parse idp = Some id -> mmRows s !! id = Some m -> inv s -> inv (k m s).1) ->
  safe (with_row uuid_Parse idp k).
Proof.
  intros Hk s Hi. unfold with_row. destruct (uuid_Parse idp) as [id|] eqn:Ep; [|done].
  unfold bind, call. simpl. unfold mem_Get. destruct (mmRows s !! id) as [m|] eqn:Em; [by eapply Hk|done].
Qed.

Lemma official_url s id m : inv s -> mmRows s !! id = Some m -> mpID m = oid -> mpTrustKeyURL m = [].
Proof.
  intros Hi Hm Hid. destruct (oi_others _ _ _ _ Hi id m Hm) as [E _].
  destruct (oi_row _ _ _ _ Hi) as (mo & Hmo & Hrow). assert (m = mo) as -> by congruence. apply Hrow.
Qed.

Lemma patch_safe idp b : safe (h_Patch uuid_Parse idp b).
Proof.
  unfold h_Patch. destruct (uuid_Parse idp) as [id|] eqn:Ep; [|apply safe_ret].
  destruct b as [req|]; [|apply safe_ret]. apply with_row_safe. intros id' m s Ep' Hm Hi.
  assert (id' = id) as -> by congruence.
  assert (Hpr : forall m', (mpID m' = oid -> mpTrustKeyURL m' = []) -> safe (patch_refresh req m')).
  { intros m' Hm'. unfold patch_refresh. destruct (paRefresh req); [|apply safe_ret].
    apply safe_bind; [by apply refresh_safe|]. intros. apply safe_ret. }
  pose proof (official_url _ _ _ Hi Hm) as Hurl.
  destruct (paEnabled req) as [en|]; [|by apply Hpr].
  destruct (mpLocked m && negb en) eqn:Eb; [done|]. unfold bind, call. simpl. unfold mem_UpdateEnabled.
  assert (Hupd : inv (mem_update id (fun m now => with_enabled m en now) s).1).
  { pose proof (update_safe id (fun m now => with_enabled m en now)) as Hu.
    assert (Hs : safe (call (mem_update id (fun m now => with_enabled m en now)))).
    { apply Hu; [done|]. intros m' now (?&?&?&?&?&?&?) ->. destruct (oi_row _ _ _ _ Hi) as (mo & Hmo & Hrow).
      assert (m = mo) as -> by congruence. destruct Hrow as (_&_&_&_&_&Hl&_). rewrite Hl in Eb.
      destruct en; [|done]. done. }
    specialize (Hs s Hi). unfold call in Hs. by destruct (mem_update id _ s). }
  unfold mem_update in *. rewrite Hm in *. destruct (time_Now (mmW s)) as [w now]. simpl in *.
  by apply Hpr.
Qed.

Lemma delete_safe idp : safe (h_Delete uuid_Parse idp).
Proof.
  unfold h_Delete. destruct (uuid_Parse idp) as [id|] eqn:Ep; [|apply safe_ret].
  apply with_row_safe. intros id' m s Ep' Hm Hi. assert (id' = id) as -> by congruence.
  destruct (mpLocked m) eqn:El; [done|]. unfold bind, call. simpl. unfold mem_Delete. rewrite Hm. simpl.
  destruct (oi_row _ _ _ _ Hi) as (mo & Hmo & Hrow).
  assert (Hne : id <> oid).
  { intros ->. assert (m = mo) as -> by congruence. destruct Hrow as (_&_&_&_&_&Hl&_). congruence. }
  split.
  - exists mo. simpl. by rewrite lookup_delete_ne.
  - intros k m' Hk. simpl in Hk. apply lookup_delete_Some in Hk as [_ Hk]. by apply (oi_others _ _ _ _ Hi).
Qed.

Lemma refresh_handler_safe idp : safe (h_RefreshTrustKey uuid_Parse idp).
Proof.
  apply with_row_safe. intros id m s _ Hm Hi.
  refine (safe_bind _ _ (refresh_safe m (official_url _ _ _ Hi Hm)) _ s Hi). intros. apply safe_ret.
Qed.

Lemma api_safe c : safe (api c).
Proof.
  destruct c; apply safe_bind; try (intros; apply safe_ret).
  - apply create_handler_safe.
  - apply patch_safe.
  - apply delete_safe.
  - apply refresh_handler_safe.
  - apply with_row_safe. intros. done.
  - unfold h_List. apply safe_bind; [by apply respects_call|]. intros. apply safe_ret.
  - apply seed_safe.
Qed.
End Protected.

(** C32. No sequence of registry calls can remove, disable, rename or re-key
    the official source, or take its place: its row stays enabled and
    locked with its index address and pinned key, and every other row is
    unlocked and under another name. *)
Theorem official_is_protected oid url pem s s' (Hfresh : fresh_ids oid)
    (Hi : official_inv oid url pem s)
    (Hrun : rtc (fun s s' => exists c, (api c s).1 = s') s s') :
  (exists m, mmRows s' !! oid = Some m /\ official_row oid url pem m) /\
  forall id m, mmRows s' !! id = Some m -> id <> oid ->
    mpLocked m = false /\ mpName m <> OfficialMarketplaceName.
Proof.
  assert (official_inv oid url pem s') as [H1 H2].
  { induction Hrun as [s|s s1 s2 [c <-] _ IH]; [done|]. apply IH. by apply api_safe. }
  split; [done|]. intros id m Hm. by apply H2.
Qed.
End Official.

#[global] Instance marketplace_eq_dec : EqDecision Marketplace.
Proof. solve_decision. Defined.

(** ** Which source wins *)

Section Search.
Context {W : Type} `{!Net W, !Clock W, !Disk W, !Crypto}
  (iter : gmap gostr Marketplace -> list Marketplace) (uuid_Parse : gostr -> option gostr)
  (dec_index : gostr -> gostr + Index).
Hypothesis Hiter : forall rows, iter rows ≡ₚ (map_to_list rows).*2.

#[local] Existing Instances mem_net mem_clock.
#[local] Instance search_store : MarketStore (MemM W) := mem_store iter.

Notation S_ := (MultiSt (MemM W)).

(** The official source heads the list of enabled ones. *)
Lemma official_heads oid url pem (s : MemM W) m : official_inv oid url pem s ->
  mmRows s !! oid = Some m ->
  exists rest, mem_ListEnabled iter s = (s, Ok (m :: rest)).
Proof.
  intros Hi Hm. destruct (oi_row _ _ _ _ Hi) as (m' & Hm' & Hrow). assert (m' = m) as -> by congruence.
  destruct Hrow as (_&_&_&_&_&Hl&He).
  assert (Hin : forall y, y ∈ iter (mmRows s) <-> exists k, mmRows s !! k = Some y).
  { intros y. rewrite Hiter, list_elem_of_fmap. split.
    - intros ([k z] & -> & E%elem_of_map_to_list). by exists k.
    - intros (k & E). exists (k, y). split; [done|]. by apply elem_of_map_to_list. }
  destruct (stable_sort_least market_less m (iter (mmRows s))) as [rest Hs].
  - apply Hin. eauto.
  - unfold market_less. rewrite eqb_reflx. simpl. lia.
  - intros y (k & Hk)%Hin Hne. destruct (oi_others _ _ _ _ Hi k y Hk) as [_ Hother].
    assert (k <> oid) as Hko by (intros ->; congruence). destruct (Hother Hko) as [Hy _].
    unfold market_less. by rewrite Hy, Hl.
  - intros y _. apply _.
  - exists (filter (fun m => mpEnabled m = true) rest). unfold mem_ListEnabled. rewrite Hs.
    by rewrite filter_cons_True.
Qed.

Lemma FindVersion_list n v (s : S_) rows : mem_ListEnabled iter (outer s) = (outer s, Ok rows) ->
  FindVersion dec_index uuid_Parse n v [] s = find_in_sources dec_index rows n v None s.
Proof.
  intros Hl. unfold FindVersion. rewrite str_eqb_refl. cbn [negb]. unfold bind at 1, out_, call.
  change (ms_ListEnabled (outer s)) with (mem_ListEnabled iter (outer s)). rewrite Hl. by destruct s.
Qed.

(** A plugin that the official source lists cannot be shadowed: when
    its index answers and has the plugin in the requested version, the
    search without a named marketplace gives the official entry, whatever
    the other registered sources publish. *)
Theorem official_cannot_be_shadowed oid url pem n v (s s1 : S_) m p iv
    (Hi : official_inv oid url pem (outer s)) (Hm : mmRows (outer s) !! oid = Some m)
    (Hv : version_in dec_index m n v s = (s1, Some (Ok (p, iv)))) :
  FindVersion dec_index uuid_Parse n v [] s = (s1, Some (Ok (p, iv, m))).
Proof.
  destruct (official_heads _ _ _ _ _ Hi Hm) as [rest Hl].
  rewrite (FindVersion_list _ _ _ _ Hl). cbn [find_in_sources]. unfold bind. by rewrite Hv.
Qed.

(** That preference lasts only as long as the official source can be
    reached: any failure to fetch its index is treated like a missing
    plugin, and the next enabled source supplies the plugin of that name. *)
Theorem outage_lets_others_in oid url pem n v (s s1 s2 : S_) m m2 rest p iv e
    (Hi : official_inv oid url pem (outer s)) (Hm : mmRows (outer s) !! oid = Some m)
    (Hl : mem_ListEnabled iter (outer s) = (outer s, Ok (m :: m2 :: rest)))
    (Hfail : index_of dec_index m s = (s1, Some (Err e)))
    (Hv : version_in dec_index m2 n v s1 = (s2, Some (Ok (p, iv)))) :
  FindVersion dec_index uuid_Parse n v [] s = (s2, Some (Ok (p, iv, m2))) /\ m2 <> m.
Proof.
  rewrite (FindVersion_list _ _ _ _ Hl). cbn [find_in_sources].
  assert (Hfail' : version_in dec_index m n v s = (s1, Some (Err e))).
  { unfold version_in. unfold bind at 1. by rewrite Hfail. }
  unfold bind. rewrite Hfail', Hv. split; [done|]. intros ->.
  unfold mem_ListEnabled in Hl. injection Hl as Hl.
  assert (Hnd : NoDup (m :: m :: rest)).
  { rewrite <- Hl. apply NoDup_filter. rewrite stable_sort_perm, Hiter.
    apply (NoDup_fmap_2_strong snd); [|apply NoDup_map_to_list].
    intros [k x] [k' x'] Hx Hx' E. simpl in E. subst x'.
    apply elem_of_map_to_list in Hx, Hx'. destruct (oi_others _ _ _ _ Hi _ _ Hx) as [<- _].
    by destruct (oi_others _ _ _ _ Hi _ _ Hx') as [<- _]. }
  apply NoDup_cons in Hnd as [Hn _]. set_solver.
Qed.
End Search.

(** ** The index lookup is the one the resolver was verified against *)

Definition strip (p : IndexEntry) : IndexPlugin := mkIndexPlugin (ieName p) (map ivVersion (ieVersions p)).

Definition strip_err (e : market_err) : find_err :=
  match e with
  | EntryNoVersions _ => NoVersions
  | EntryNoVersion _ _ => NoSuchVersion
  | EntryMissing _ => NotInIndex
  | _ => FetchFailed
  end.

Definition strip_found (r : res market_err (IndexEntry * IndexVersion)) : res find_err (IndexPlugin * gostr) :=
  match r with Ok (p, v) => Ok (strip p, ivVersion v) | Err e => Err (strip_err e) end.

Lemma find_version_strip vs ver :
  ivVersion <$> find_version vs ver = find (str_eqb ver) (map ivVersion vs).
Proof.
  induction vs as [|v vs IH]; [done|]. unfold find_version in *. simpl.
  assert (str_eqb ver (ivVersion v) = str_eqb (ivVersion v) ver) as ->.
  { apply eq_true_iff_eq. rewrite !str_eqb_eq. naive_solver. }
  by destruct (str_eqb (ivVersion v) ver).
Qed.

(** The lookup in a fetched index, which yields download addresses,
    and the lookup the dependency resolver plans with agree on every index:
    the same entry and version, or the same kind of failure. *)
Theorem find_entry_refines ps name version :
  strip_found (find_entry ps name version) = Manifest.FindVersion (Some (map strip ps)) name version.
Proof.
  induction ps as [|p ps IH]; [done|]. simpl in *.
  destruct (str_eqb (ieName p) name); cbn [negb]; [|exact IH].
  unfold strip at 1. destruct (ieVersions p) as [|v0 vs] eqn:Ev; [done|]. cbn [map ipVersions].
  destruct (str_eqb version []); [unfold strip_found, strip; by rewrite Ev|].
  pose proof (find_version_strip (v0 :: vs) version) as Hf. cbn [map] in Hf. rewrite <- Hf.
  destruct (find_version (v0 :: vs) version); simpl; [|done]. unfold strip. by rewrite Ev.
Qed.

(** ** The merged index *)

Definition entry_le (srcs : list MergedSource) (a b : MergedPlugin) : Prop :=
  merged_less srcs b a = false.

Lemma merged_less_asym srcs x y : merged_less srcs x y = true -> merged_less srcs y x = false.
Proof.
  unfold merged_less. rewrite (Nat.eqb_sym (indexOfSource srcs (mgID y))).
  destruct (_ =? _)%nat eqn:E; cbn [negb]; [|rewrite Nat.ltb_lt, Nat.ltb_ge; lia].
  intros H. apply not_true_iff_false. intros H'.
  pose proof (str_ltb_trans _ _ _ H H') as Hc. by rewrite str_ltb_irrefl in Hc.
Qed.

Lemma merged_less_trans srcs x y z : merged_less srcs y x = false -> merged_less srcs z y = false ->
  merged_less srcs z x = false.
Proof.
  unfold merged_less.
  set (a := indexOfSource srcs (mgID x)). set (b := indexOfSource srcs (mgID y)).
  set (c := indexOfSource srcs (mgID z)).
  destruct (Nat.eqb_spec b a), (Nat.eqb_spec c b), (Nat.eqb_spec c a); cbn [negb];
    rewrite ?Nat.ltb_ge; try lia.
  intros H1 H2. apply not_true_iff_false. intros H3.
  destruct (str_ltb (ieName (mgEntry x)) (ieName (mgEntry y))) eqn:Exy.
  - by rewrite (str_ltb_trans _ _ _ H3 Exy) in H2.
  - pose proof (str_ltb_total _ _ H1 Exy) as E. rewrite E in H2. congruence.
Qed.

(** The merged index holds every plugin of every source whose index
    was fetched, tagged with that source, and nothing else; and it is
    ordered: the sources in their order, and by name within a source. *)
Theorem merge_complete results :
  let idx := merge results in
  mgPlugins idx ≡ₚ concat (map (fun '(m, r, _) => plugins_of m r) results) /\
  StronglySorted (entry_le (mgSources idx)) (mgPlugins idx) /\
  map srcID (mgSources idx) = map (fun '(m, _, _) => mpID m) results.
Proof.
  intros idx. unfold idx, merge. cbn [mgPlugins mgSources]. split; [apply stable_sort_perm|].
  split; [apply stable_sort_weak; [apply merged_less_asym|apply merged_less_trans]|].
  rewrite map_map. apply map_ext. by intros [[m r] t].
Qed.

(** ** A network of two sources *)

Module TwoSources.

(** Whether the official source is down. *)
Record net := mkNet { nFiles : MemDisk.files; nDown : bool }.

Definition on_disk {A} (f : MemDisk.files -> MemDisk.files * A) (w : net) : net * A :=
  let '(fs, a) := f (nFiles w) in (mkNet fs (nDown w), a).

Definition page (url : gostr) : option gostr :=
  if str_eqb url #"https://official/index" then Some #"O"
  else if str_eqb url #"https://other/index" then Some #"X"
  else if str_eqb url #"https://other/key" then Some #"other-key"
  else if str_eqb url #"https://official/app.tgz" then Some #"app"
  else if str_eqb url #"https://official/app.sig" then Some #"official-keyapp"
  else None.

#[global] Instance net_net : Net net := {| http_Do := fun _ url w =>
  (w, if nDown w && has_prefix url #"https://official/" then inl #"connection refused"
      else match page url with Some body => inr (200, body, None) | None => inr (404, [], None) end) |}.
#[global] Instance net_clock : Clock net := {|
  time_Now := fun w => (w, 1000); uuid_New := fun w => (w, #"other-id") |}.
#[global] Instance net_disk : Disk net := {|
  MkdirAll := fun p => on_disk (MkdirAll p); WriteFile := fun p d => on_disk (WriteFile p d);
  ReadFile := fun p => on_disk (ReadFile p); RemoveAll := fun p => on_disk (RemoveAll p);
  Stat := fun p => on_disk (Stat p) |}.
#[global] Instance net_tools : Tools net := {|
  CreateTemp := fun _ w => (w, None); RemoveFile := fun _ w => (w, true); exec_Run := fun _ _ w => (w, false) |}.

(** A signature is the key followed by the text. *)
#[global] Instance toy_crypto : Crypto := {|
  pem_Decode := fun k => Some k; ParsePKIXPublicKey := fun k => Some (Ed25519 k);
  base64_Decode := fun _ => None; Sum256 := fun t => t;
  ecdsa_Verify := fun _ _ _ => false; rsa_Verify := fun _ _ _ => false;
  ed25519_Verify := fun k t sig => str_eqb sig (k ++ t) |}.

Definition iter (rows : gmap gostr Marketplace) : list Marketplace := (map_to_list rows).*2.

#[global] Instance lifted_net : Net (MemM net) := mem_net.
#[global] Instance lifted_clock : Clock (MemM net) := mem_clock.
#[global] Instance lifted_disk : Disk (MemM net) := mem_disk.
#[global] Instance lifted_tools : Tools (MemM net) := {|
  CreateTemp := fun _ w => (w, None); RemoveFile := fun _ w => (w, true); exec_Run := fun _ _ w => (w, false) |}.
#[global] Instance lifted_store : MarketStore (MemM net) := mem_store iter.

Definition app (url : gostr) : IndexEntry :=
  mkEntry #"app" [mkIndexVersion #"1.0.0" (url ++ #"app.tgz") (url ++ #"app.sig") [] 0].
Definition indexes (body : gostr) : gostr + Index :=
  if str_eqb body #"O" then inr (mkIndex 1 [app #"https://official/"])
  else if str_eqb body #"X" then inr (mkIndex 1 [app #"https://other/"])
  else inl #"unexpected".

Definition official : Marketplace :=
  mkMarketplace #"official-id" OfficialMarketplaceName #"https://official/index" [] #"official-key"
    true true #"system" 5 5.
Definition other : Marketplace :=
  mkMarketplace #"other-id" #"other" #"https://other/index" #"https://other/key" #"other-key"
    false true [] 7 7.

Definition registry (down : bool) : MemM net :=
  mkMemM {[ #"official-id" := official; #"other-id" := other ]} (mkNet ∅ down).
Definition seeded : MemM net := mkMemM {[ #"official-id" := official ]} (mkNet ∅ false).

Lemma inv_of rows w : rows !! #"official-id" = Some official ->
  (forall id m, rows !! id = Some m -> m = official /\ id = #"official-id" \/ m = other /\ id = #"other-id") ->
  official_inv #"official-id" #"https://official/index" #"official-key" (mkMemM rows w : MemM net).
Proof.
  intros H1 H2. split; [by exists official|]. intros id m Hm.
  destruct (H2 id m Hm) as [[-> ->]|[-> ->]]; split; [done|done|done|]. intros _. split; [done|]. by_dec.
Qed.

Lemma registry_inv down :
  official_inv #"official-id" #"https://official/index" #"official-key" (registry down).
Proof.
  apply inv_of; [by rewrite lookup_insert_eq|]. intros id m Hm.
  apply lookup_insert_Some in Hm as [[<- <-]|[_ [<- <-]%lookup_singleton_Some]]; auto.
Qed.

Lemma seeded_inv :
  official_inv #"official-id" #"https://official/index" #"official-key" seeded.
Proof. apply inv_of; [by rewrite lookup_singleton_eq|]. intros id m [<- <-]%lookup_singleton_Some. auto. Qed.
End TwoSources.
Import TwoSources.

Lemma iter_perm rows : TwoSources.iter rows ≡ₚ (map_to_list rows).*2.
Proof. done. Qed.

Lemma two_sources_read_back : reads_back (W := MemM net).
Proof.
  intros p data [rows [fs down]] w' w'' b H1 H2. injection H1 as <-. injection H2 as _ H2. simpl in H2.
  rewrite lookup_insert_eq in H2. congruence.
Qed.

Lemma DownloadAndVerify_pinned_key_witness :
  let s : MultiSt (MemM net) := mkMulti ∅ (registry false) in
  let v := mkIndexVersion #"1.0.0" #"https://official/app.tgz" #"https://official/app.sig" [] 0 in
  (DownloadAndVerify [] #"official-id" v s).2 = Some (Ok #"app") /\
  (DownloadAndVerify [] #"other-id" v s).2 = Some (Err BadSignature) /\
  exists m sig, signed_with (mpTrustKeyPEM m) #"app" sig = true.
Proof.
  intros s v. split; [vm_compute; reflexivity|]. split; [vm_compute; reflexivity|].
  destruct (DownloadAndVerify [] #"official-id" v s) as [s' r] eqn:E.
  assert (r = Some (Ok #"app")) as -> by (change r with (s', r).2; rewrite <- E; vm_compute; reflexivity).
  destruct (DownloadAndVerify_pinned_key [] #"official-id" v s s' #"app" two_sources_read_back E)
    as (w1 & m & sig & _ & _ & _ & Hs).
  exists m, sig. exact Hs.
Defined.

(** Adding the other source, and trying to disable, delete and re-key the
    official one. *)
Definition attacks : list api_call :=
  [ACreate (Some (mkCreate #" other " #"https://other/index" #"https://other/key"));
   APatch #"official-id" (Some (mkPatch (Some false) true)); ADelete #"official-id"; ARefresh #"official-id";
   ACreate (Some (mkCreate OfficialMarketplaceName #"https://other/index" #"https://other/key"))].

Definition attacked : MemM net :=
  fold_left (fun s c => (api TwoSources.iter Some [] c s).1) attacks seeded.

Lemma api_run cs (s : MemM net) :
  rtc (fun s s' => exists c, (api TwoSources.iter Some [] c s).1 = s') s
    (fold_left (fun s c => (api TwoSources.iter Some [] c s).1) cs s).
Proof.
  revert s. induction cs as [|c cs IH]; intros s; [apply rtc_refl|].
  eapply rtc_l; [exists c; reflexivity|]. apply IH.
Qed.

Lemma official_is_protected_witness :
  length (map_to_list (mmRows attacked)) = 2%nat /\
  exists m, mmRows attacked !! #"official-id" = Some m /\ mpEnabled m = true /\
    mpTrustKeyPEM m = #"official-key".
Proof.
  split; [vm_compute; reflexivity|].
  destruct (official_is_protected TwoSources.iter Some [] iter_perm #"official-id" #"https://official/index"
    #"official-key" seeded attacked) as [(m & Hm & Hrow) _].
  - intros w. by_dec.
  - exact seeded_inv.
  - exact (api_run attacks seeded).
  - exists m. split; [exact Hm|]. destruct Hrow as (_&_&_&_&Hp&_&He). split; [exact He|exact Hp].
Defined.

Lemma official_cannot_be_shadowed_witness :
  let s : MultiSt (MemM net) := mkMulti ∅ (registry false) in
  exists s1 iv, FindVersion indexes Some #"app" #"1.0.0" [] s =
    (s1, Some (Ok (TwoSources.app #"https://official/", iv, official))).
Proof.
  intros s. eexists _, _.
  apply (official_cannot_be_shadowed TwoSources.iter Some indexes iter_perm #"official-id"
    #"https://official/index" #"official-key" #"app" #"1.0.0" s _ official _ _ (registry_inv false)).
  - vm_compute. reflexivity.
  - vm_compute. reflexivity.
Defined.

Lemma outage_lets_others_in_witness :
  let s : MultiSt (MemM net) := mkMulti ∅ (registry true) in
  exists s1 iv, FindVersion indexes Some #"app" #"1.0.0" [] s =
    (s1, Some (Ok (TwoSources.app #"https://other/", iv, other))).
Proof.
  intros s. eexists _, _.
  eapply (outage_lets_others_in TwoSources.iter Some indexes iter_perm) with (m := official) (rest := []).
  - exact (registry_inv true).
  - vm_compute. reflexivity.
  - vm_compute. reflexivity.
  - vm_compute. reflexivity.
  - vm_compute. reflexivity.
Defined.
