(* ===== verification/PluginDeploy.v ===== *)
(** * internal/plugins/deploy_systemd.go: running plugins as services

    The deployer over the disk, systemctl, journalctl and the scripts a
    package brings along; what it starts, and that removing a plugin takes
    its unit away whatever systemctl says. *)

From S2P Require Import Prelude GoStrings GoPath Regex Effects Plugins PluginPackage.
From S2P Require Import PluginNeeds PluginRouter PluginLifecycle.
Import Manifest Package LifecycleM.

Module DeployM.

Definition PluginRootMagicToken : gostr := #"${PLUGIN_ROOT}".
Definition systemdRunDir : gostr := #"/etc/systemd/system".

Inductive stat_result := NoFile | StatErr | ADir | AFile (executable : bool).
Inductive remove_result := Removed | WasGone | RemoveErr.

Class Systemd (W : Type) := {
  systemctl : list gostr -> W -> W * bool;
  journalctl : list gostr -> W -> W * option gostr;
  StatMode : gostr -> W -> W * stat_result;
  MakeExecutable : gostr -> W -> W * bool;
  RunScript : gostr -> gostr -> list (gostr * gostr) -> W -> W * bool;
  RemoveUnit : gostr -> W -> W * remove_result
}.

(** [hasRunner] is false for a nil Runner. *)
Record SystemdDeployer := mkDeployer {
  dRoot : gostr; hasRunner : bool; UnitDirOverride : gostr }.

Inductive deploy_err :=
| EmptyUnit | ReadUnit | MkdirUnit | WriteUnit | Systemctl (verb : gostr)
| HookStat | HookDir | HookChmod | HookFailed | EmptyName | NoRunner | JournalErr.

Section Deploy.
Context {W : Type} `{!Disk W, !Systemd W} (d : SystemdDeployer).

Definition unitName (plugin : gostr) : gostr := #"nova-plugin-" ++ plugin ++ #".service".
Definition unitDir : gostr := if negb (str_eqb (UnitDirOverride d) []) then UnitDirOverride d else systemdRunDir.
Definition pluginRoot (plugin : gostr) : gostr :=
  Join [if str_eqb (dRoot d) [] then DefaultPluginsRoot else dRoot d; plugin].
Definition unitPath (plugin : gostr) : gostr := Join [unitDir; unitName plugin].

Definition hook_env (plugin : gostr) : list (gostr * gostr) :=
  [(#"PLUGIN_ROOT", pluginRoot plugin); (#"PLUGIN_LIB", pluginRoot plugin); (#"PLUGIN_NAME", plugin)].

Definition run_hook (plugin scriptPath : gostr) : M W (option deploy_err) :=
  let! ok := call (RunScript scriptPath (pluginRoot plugin) (hook_env plugin)) in
  ret (if (ok : bool) then None else Some HookFailed).

Definition runStagingHook (plugin relPath : gostr) : M W (option deploy_err) :=
  let scriptPath := Join [pluginRoot plugin; relPath] in
  let! st := call (StatMode scriptPath) in
  match st with
  | NoFile => ret None
  | StatErr => ret (Some HookStat)
  | ADir => ret (Some HookDir)
  | AFile true => run_hook plugin scriptPath
  | AFile false =>
      let! ok := call (MakeExecutable scriptPath) in
      if negb ok then ret (Some HookChmod) else run_hook plugin scriptPath
  end.

(** A step that ends the installation when it fails. *)
Definition then_ (e : option deploy_err) (k : M W (option deploy_err)) : M W (option deploy_err) :=
  match e with Some err => ret (Some err) | None => k end.

Definition ctl (args : list gostr) : M W (option deploy_err) :=
  let! ok := call (systemctl args) in
  ret (if (ok : bool) then None else Some (Systemctl (default [] (head args)))).

(** Writing the unit, with the token replaced. *)
Definition write_unit (name unitFile : gostr) : M W (option deploy_err) :=
  let! body := call (ReadFile (Join [pluginRoot name; #"deploy"; unitFile])) in
  match body with
  | None => ret (Some ReadUnit)
  | Some body =>
      let rewritten := replace_all body PluginRootMagicToken (pluginRoot name) in
      let! ok := call (MkdirAll unitDir) in
      if negb ok then ret (Some MkdirUnit)
      else
        let! ok := call (WriteFile (unitPath name) rewritten) in
        ret (if (ok : bool) then None else Some WriteUnit)
  end.

Definition start_unit (name postInstall : gostr) : M W (option deploy_err) :=
  let! e := ctl [ #"daemon-reload"] in
  then_ e (
    let! e := runStagingHook name #"deploy/install.sh" in
    then_ e (
      let! e := ctl [ #"enable"; #"--now"; unitName name] in
      then_ e (
        if str_eqb postInstall [] then ret None else runStagingHook name postInstall))).

Definition Install (manifest : Plugin) : M W (option deploy_err) :=
  if negb (str_eqb (DeployType (sDeployment (Spec manifest))) DeploymentSystemd) then ret None
  else
    let name := pName manifest in
    let unitFile := DeployUnit (sDeployment (Spec manifest)) in
    if str_eqb unitFile [] then ret (Some EmptyUnit)
    else
      let! e := write_unit name unitFile in
      then_ e (if hasRunner d then start_unit name (PostInstall (sLifecycle (Spec manifest)))
               else ret None).

(** The first error, after all three steps were tried. *)
Definition first_err (a b : option deploy_err) : option deploy_err :=
  match a with Some e => Some e | None => b end.

Definition Uninstall (plugin : gostr) : M W (option deploy_err) :=
  let! e1 := (if hasRunner d then ctl [ #"disable"; #"--now"; unitName plugin] else ret None) in
  let! r := call (RemoveUnit (unitPath plugin)) in
  let e2 := match r with RemoveErr => Some WriteUnit | _ => None end in
  let! e3 := (if hasRunner d then ctl [ #"daemon-reload"] else ret None) in
  ret (first_err e1 (first_err e2 e3)).

Definition Restart (plugin : gostr) : M W (option deploy_err) :=
  if str_eqb plugin [] then ret (Some EmptyName)
  else if negb (hasRunner d) then ret (Some NoRunner)
  else ctl [ #"restart"; unitName plugin].

Definition clamp_lines (lines : Z) : Z :=
  let lines := if lines <=? 0 then 200 else lines in
  if 5000 <? lines then 5000 else lines.

Definition newline : ascii := byte_of 10.

Definition log_lines (out : gostr) : list gostr :=
  let raw := split_on newline (trim_right_byte newline out) in
  if bool_decide (raw = [[]]) then [] else raw.

Definition Logs (plugin : gostr) (lines : Z) : M W (res deploy_err (list gostr)) :=
  if str_eqb plugin [] then ret (Err EmptyName)
  else
    let! out := call (journalctl [ #"-u"; unitName plugin; #"-n"; dec_digits 20 (clamp_lines lines) [];
                                   #"--no-pager"; #"--output=short-iso"]) in
    ret (match out with None => Err JournalErr | Some out => Ok (log_lines out) end).

(** The deployer as the lifecycle manager sees it. *)
Definition as_bool {A} (c : M W A) (ok : A -> bool) (w : W) : W * bool :=
  match c w with (w', Some a) => (w', ok a) | (w', None) => (w', false) end.
Definition no_err (e : option deploy_err) : bool := match e with None => true | Some _ => false end.

Definition systemd_deployer : Deployer W := {|
  deploy_Install := fun p => as_bool (Install p) no_err;
  deploy_Uninstall := fun n => as_bool (Uninstall n) no_err;
  deploy_Restart := fun n => as_bool (Restart n) no_err;
  deploy_Logs := fun n k w => match Logs n k w with
                              | (w', Some (Ok l)) => (w', Some l)
                              | (w', _) => (w', None)
                              end |}.
End Deploy.
End DeployM.

(** * Deploying plugins: the order of the calls

    Against a host that answers every call as an oracle says and records
    it, the unit is started only after everything it depends on succeeded,
    and removing a plugin always goes through all its steps. *)

From S2P Require Import Prelude GoStrings GoPath Regex Effects Plugins PluginPackage.
From S2P Require Import PluginNeeds PluginRouter PluginLifecycle.
Import Manifest Package LifecycleM DeployM.

#[local] Arguments str : simpl never.

Inductive dev :=
| ERead (p : gostr) (body : option gostr) | EMkdir (p : gostr) (ok : bool) | EWrite (p data : gostr) (ok : bool)
| EStat (p : gostr) (st : stat_result) | EChmod (p : gostr) (ok : bool) | EScript (p : gostr) (ok : bool)
| ECtl (args : list gostr) (ok : bool) | ERemove (p : gostr) (r : remove_result).

Section Trace.
Context (ok : list dev -> bool) (rd : list dev -> option gostr) (st : list dev -> stat_result)
  (rm : list dev -> remove_result).

#[local] Instance trace_disk : Disk (list dev) := {|
  MkdirAll := fun p h => (h ++ [EMkdir p (ok h)], ok h);
  WriteFile := fun p data h => (h ++ [EWrite p data (ok h)], ok h);
  ReadFile := fun p h => (h ++ [ERead p (rd h)], rd h);
  RemoveAll := fun _ h => (h, true);
  Stat := fun _ h => (h, None) |}.

#[local] Instance trace_systemd : Systemd (list dev) := {|
  systemctl := fun args h => (h ++ [ECtl args (ok h)], ok h);
  journalctl := fun _ h => (h, None);
  StatMode := fun p h => (h ++ [EStat p (st h)], st h);
  MakeExecutable := fun p h => (h ++ [EChmod p (ok h)], ok h);
  RunScript := fun p _ _ h => (h ++ [EScript p (ok h)], ok h);
  RemoveUnit := fun p h => (h ++ [ERemove p (rm h)], rm h) |}.

(** The events of the staging hook, when it succeeded. *)
Definition hook_done (path : gostr) (es : list dev) : Prop :=
  es = [EStat path NoFile] \/ es = [EStat path (AFile true); EScript path true] \/
  es = [EStat path (AFile false); EChmod path true; EScript path true].

Definition no_ctl (e : dev) : Prop := match e with ECtl _ _ => False | _ => True end.

Lemma hook_run d plugin rel h :
  exists es r, runStagingHook d plugin rel h = (h ++ es, Some r) /\ Forall no_ctl es /\
    (r = None -> hook_done (Join [pluginRoot d plugin; rel]) es).
Proof.
  unfold runStagingHook, run_hook, bind, call. simpl. destruct (st h) as [| | |[|]] eqn:Es; simpl.
  1-3: eexists [_], _; split; [done|]; split; [repeat constructor|]; intros; unfold hook_done; naive_solver.
  - rewrite <- app_assoc. eexists [_; _], _. split; [done|]. split; [repeat constructor|].
    destruct (ok _); [|done]. intros _. unfold hook_done. auto.
  - destruct (ok (h ++ _)) eqn:E1; simpl.
    + rewrite <- !app_assoc. eexists [_; _; _], _. split; [done|]. split; [repeat constructor|].
      match goal with |- (if ?b then _ else _) = None -> _ => destruct b end; [|done].
      intros _. unfold hook_done. auto.
    + rewrite <- app_assoc. eexists [_; _], _. split; [done|]. split; [repeat constructor|]. done.
Qed.

Lemma write_unit_run d name u h :
  exists es r, write_unit d name u h = (h ++ es, Some r) /\ Forall no_ctl es /\
    (r = None -> exists body, es =
       [ERead (Join [pluginRoot d name; #"deploy"; u]) (Some body); EMkdir (unitDir d) true;
        EWrite (unitPath d name) (replace_all body PluginRootMagicToken (pluginRoot d name)) true]).
Proof.
  unfold write_unit, bind, call. simpl. destruct (rd h) as [body|]; simpl.
  2:{ eexists [_], _. split; [done|]. split; [repeat constructor|done]. }
  destruct (ok (h ++ [ERead _ _])) eqn:E1; simpl.
  2:{ rewrite <- app_assoc. eexists [_; _], _. split; [done|]. split; [repeat constructor|done]. }
  rewrite <- !app_assoc. eexists [_; _; _], _. split; [done|]. split; [repeat constructor|].
  match goal with |- (if ?b then _ else _) = None -> _ => destruct b end; [|done]. intros _. by exists body.
Qed.

(** An element that occurs on neither side of its place occurs only there. *)
Lemma split_unique {A} (x y : A) pre post l k : x ∉ l -> x ∉ k ->
  pre ++ x :: post = l ++ y :: k -> pre = l.
Proof.
  revert pre. induction l as [|z l IH]; intros pre Hl Hk E.
  - destruct pre as [|w pre]; [done|]. injection E as _ E. exfalso. apply Hk. rewrite <- E. set_solver.
  - destruct pre as [|w pre]; injection E as E1 E2; [set_solver|]. f_equal; [done|].
    apply IH; [set_solver|done..].
Qed.

Lemma start_unit_run d name post h :
  exists es r, start_unit d name post h = (h ++ es, Some r) /\
    ((exists b, ECtl [ #"daemon-reload"] b :: nil = es) \/
     (exists hook, es = ECtl [ #"daemon-reload"] true :: hook /\ Forall no_ctl hook) \/
     exists hook b rest, es = (ECtl [ #"daemon-reload"] true :: hook) ++
         ECtl [ #"enable"; #"--now"; unitName name] b :: rest /\
       Forall no_ctl hook /\ Forall no_ctl rest /\
       hook_done (Join [pluginRoot d name; #"deploy/install.sh"]) hook).
Proof.
  unfold start_unit, ctl, then_. unfold bind at 1. unfold bind at 1. unfold call at 1. simpl.
  destruct (ok h); simpl; [|by eexists [_], _; split; [done|]; left; eexists].
  destruct (hook_run d name #"deploy/install.sh" (h ++ [ECtl [ #"daemon-reload"] true])) as (es & r & E & Hno & Hd).
  unfold bind at 1. rewrite E. rewrite <- app_assoc. destruct r as [e|]; simpl.
  { exists (ECtl [ #"daemon-reload"] true :: es), (Some e). split; [done|]. right; left. by exists es. }
  unfold bind at 1, bind at 1, call at 1. simpl. rewrite <- app_assoc. simpl.
  set (h1 := h ++ ECtl _ true :: es). set (b := ok h1). destruct b.
  - destruct (str_eqb post []).
    + eexists (_ :: es ++ [_]), None. split; [done|]. right; right. exists es, true, []. split_and!; [done|done|constructor|by apply Hd].
    + destruct (hook_run d name post (h ++ ECtl [ #"daemon-reload"] true :: es ++
        [ECtl [ #"enable"; #"--now"; unitName name] true])) as (es3 & r3 & E3 & Hno3 & _).
      exists (ECtl [ #"daemon-reload"] true :: es ++ ECtl [ #"enable"; #"--now"; unitName name] true :: es3), r3.
      split; [rewrite E3, <- app_assoc; simpl; by rewrite <- app_assoc|]. right; right. exists es, true, es3. split_and!; [done|done|done|by apply Hd].
  - eexists (_ :: es ++ [_]), _. split; [done|]. right; right. exists es, false, []. split_and!; [done|done|constructor|by apply Hd].
Qed.

(** Whatever the host answers, the service of a plugin is enabled only
    after its unit was written with every token replaced, systemd was
    reloaded, and the package's staging script, if there is one, ran
    successfully. *)
Theorem enabled_only_when_staged d p h h' r pre post b
    (Hrun : Install d p h = (h', Some r))
    (Hev : h' = h ++ pre ++ ECtl [ #"enable"; #"--now"; unitName (pName p)] b :: post) :
  exists body hook, pre =
    [ERead (Join [pluginRoot d (pName p); #"deploy"; DeployUnit (sDeployment (Spec p))]) (Some body);
     EMkdir (unitDir d) true;
     EWrite (unitPath d (pName p))
       (replace_all body PluginRootMagicToken (pluginRoot d (pName p))) true;
     ECtl [ #"daemon-reload"] true] ++ hook /\
    hook_done (Join [pluginRoot d (pName p); #"deploy/install.sh"]) hook.
Proof.
  subst h'. unfold Install in Hrun. set (en := ECtl [ #"enable"; #"--now"; unitName (pName p)] b) in *.
  assert (Hen : forall es, Forall no_ctl es -> en ∉ es).
  { intros es Hes Hin. by apply (proj1 (Forall_forall _ _) Hes) in Hin. }
  assert (Hout : forall es, h ++ es = h ++ pre ++ en :: post -> en ∉ es -> False).
  { intros es E%app_inv_head Hn. apply Hn. rewrite E. set_solver. }
  destruct (negb _).
  { apply ret_returned in Hrun as [E _]. symmetry in E. rewrite <- (app_nil_r h) in E at 1.
    apply Hout in E; [done|set_solver]. }
  destruct (str_eqb _ _).
  { apply ret_returned in Hrun as [E _]. symmetry in E. rewrite <- (app_nil_r h) in E at 1.
    apply Hout in E; [done|set_solver]. }
  destruct (write_unit_run d (pName p) (DeployUnit (sDeployment (Spec p))) h) as (es & r1 & E1 & Hno1 & Hw).
  unfold bind in Hrun. rewrite E1 in Hrun. unfold then_ in Hrun.
  destruct r1 as [e|]; [apply ret_returned in Hrun as [E _]; symmetry in E; apply Hout in E; [done|by apply Hen]|].
  destruct (hasRunner d); [|apply ret_returned in Hrun as [E _]; symmetry in E; apply Hout in E; [done|by apply Hen]].
  destruct (Hw eq_refl) as [body Hes]. clear Hw E1.
  destruct (start_unit_run d (pName p) (PostInstall (sLifecycle (Spec p))) (h ++ es)) as (es2 & r2 & E2 & Hcase).
  rewrite E2 in Hrun. injection Hrun as Hrun _. rewrite <- app_assoc in Hrun.
  destruct Hcase as [[b' <-]|[(hook & -> & Hno)|(hook & b' & rest & -> & Hno & Hnr & Hd)]].
  - apply Hout in Hrun; [done|]. specialize (Hen _ Hno1). subst en. set_solver.
  - apply Hout in Hrun; [done|]. pose proof (Hen _ Hno1). pose proof (Hen _ Hno). subst en. set_solver.
  - apply app_inv_head in Hrun. exists body, hook. split; [|done].
    assert (pre = es ++ ECtl [ #"daemon-reload"] true :: hook) as -> by (
      eapply (split_unique en); [| |symmetry; rewrite <- Hrun, <- (app_assoc es); reflexivity];
      [pose proof (Hen _ Hno1); pose proof (Hen _ Hno); subst en; set_solver|by apply Hen]).
    rewrite Hes. done.
Qed.
End Trace.

Definition systemd_plugin : Plugin :=
  mkPlugin CurrentAPIVersion Kind (mkMetadata #"app" #"1.0.0" #"NovaNAS" [])
    (mkSpec #"A service" CategoryUtility #"files" [] []
       (mkDeployment DeploymentSystemd [] [] #"app.service") [] [] []
       (mkWindow [] [] [] []) (mkHealth [] 0 0) (mkLifecycle [] #"deploy/seed.sh" [])).

Definition deployer_here : SystemdDeployer := mkDeployer #"/plugins" true [].

(** The unit names its root; the staging script must be made executable. *)
Definition traced : list dev * option (option deploy_err) :=
  Install (W := list dev)
    (Disk0 := trace_disk (fun _ => true) (fun _ => Some #"ExecStart=${PLUGIN_ROOT}/run"))
    (Systemd0 := trace_systemd (fun _ => true) (fun _ => AFile false) (fun _ => Removed))
    deployer_here systemd_plugin [].

Lemma enabled_only_when_staged_witness :
  exists hook, hook_done #"/plugins/app/deploy/install.sh" hook /\
    EWrite #"/etc/systemd/system/nova-plugin-app.service" #"ExecStart=/plugins/app/run" true ∈ traced.1.
Proof.
  destruct (enabled_only_when_staged (fun _ => true) (fun _ => Some #"ExecStart=${PLUGIN_ROOT}/run")
    (fun _ => AFile false) (fun _ => Removed) deployer_here systemd_plugin [] traced.1 None
    (take 7 traced.1) (drop 8 traced.1) true ltac:(vm_compute; reflexivity) ltac:(vm_compute; reflexivity))
    as (body & hook & _ & Hd).
  exists hook. split; [exact Hd|]. vm_compute. do 2 right. left.
Defined.
