(* ===== verification/GoBase64.v ===== *)
(** * encoding/base64: the standard encoding with padding

    EncodeToString and DecodeString of base64.StdEncoding, and that
    decoding inverts encoding. *)

From S2P Require Import Prelude GoStrings.

Definition b64_alphabet : gostr :=
  #"ABCDEFGHIJKLMNOPQRSTUVWXYZabcdefghijklmnopqrstuvwxyz0123456789+/".

Definition b64_char (v : Z) : ascii := nth (Z.to_nat v) b64_alphabet "A"%char.

Fixpoint index_of (c : ascii) (s : gostr) (i : Z) : option Z :=
  match s with
  | [] => None
  | d :: s' => if ch_eqb c d then Some i else index_of c s' (i + 1)
  end.

Definition b64_val (c : ascii) : option Z := index_of c b64_alphabet 0.

Definition b64_pad : ascii := "="%char.

(** The four characters of a 24-bit number. *)
Definition b64_quad (n : Z) : gostr :=
  [b64_char (n / 262144); b64_char ((n / 4096) mod 64); b64_char ((n / 64) mod 64); b64_char (n mod 64)].

Fixpoint b64_encode (s : gostr) : gostr :=
  match s with
  | [] => []
  | [a] => firstn 2 (b64_quad (byte_val a * 65536)) ++ [b64_pad; b64_pad]
  | [a; b] => firstn 3 (b64_quad (byte_val a * 65536 + byte_val b * 256)) ++ [b64_pad]
  | a :: b :: c :: s' => b64_quad (byte_val a * 65536 + byte_val b * 256 + byte_val c) ++ b64_encode s'
  end.

Definition is_newline (c : ascii) : bool := ch_eqb c (byte_of 10) || ch_eqb c (byte_of 13).

(** Quanta of four characters; the last may end in padding.  Bits left
    over in a padded quantum are not looked at. *)
Fixpoint b64_quanta (s : gostr) : option gostr :=
  match s with
  | [] => Some []
  | a :: b :: c :: d :: s' =>
      x ← b64_val a; y ← b64_val b;
      if ch_eqb d b64_pad then
        match s' with
        | [] =>
            if ch_eqb c b64_pad then Some [byte_of ((x * 262144 + y * 4096) / 65536)]
            else
              z ← b64_val c;
              let n := x * 262144 + y * 4096 + z * 64 in
              Some [byte_of (n / 65536); byte_of ((n / 256) mod 256)]
        | _ => None
        end
      else
        z ← b64_val c; v ← b64_val d;
        let n := x * 262144 + y * 4096 + z * 64 + v in
        rest ← b64_quanta s';
        Some (byte_of (n / 65536) :: byte_of ((n / 256) mod 256) :: byte_of (n mod 256) :: rest)
  | _ => None
  end.

Definition b64_decode (s : gostr) : option gostr :=
  b64_quanta (List.filter (fun c => negb (is_newline c)) s).

(** ** Decoding inverts encoding *)

Definition b64_ok (v : Z) : bool :=
  bool_decide (b64_val (b64_char v) = Some v) && negb (ch_eqb (b64_char v) b64_pad)
  && negb (is_newline (b64_char v)).

Lemma b64_char_ok v : 0 <= v < 64 ->
  b64_val (b64_char v) = Some v /\ ch_eqb (b64_char v) b64_pad = false /\ is_newline (b64_char v) = false.
Proof.
  intros Hv.
  assert (Hall : forallb b64_ok (map Z.of_nat (seq 0 64)) = true) by (vm_compute; reflexivity).
  rewrite forallb_forall in Hall. specialize (Hall v). unfold b64_ok in Hall.
  rewrite !andb_true_iff, !negb_true_iff, bool_decide_eq_true in Hall. destruct Hall as [[? ?] ?]; [|done].
  apply in_map_iff. exists (Z.to_nat v). split; [lia|]. apply in_seq. lia.
Qed.

(** The characters of a 24-bit number are in range and give it back. *)
Lemma quad_parts n : 0 <= n < 16777216 ->
  0 <= n / 262144 < 64 /\ 0 <= (n / 4096) mod 64 < 64 /\ 0 <= (n / 64) mod 64 < 64 /\ 0 <= n mod 64 < 64 /\
  n / 262144 * 262144 + (n / 4096) mod 64 * 4096 + (n / 64) mod 64 * 64 + n mod 64 = n.
Proof. intros Hn. Z.to_euclidean_division_equations. lia. Qed.

Lemma bytes_back a b c : 0 <= b < 256 -> 0 <= c < 256 ->
  (a * 65536 + b * 256 + c) / 65536 = a /\ ((a * 65536 + b * 256 + c) / 256) mod 256 = b /\
  (a * 65536 + b * 256 + c) mod 256 = c.
Proof. intros Hb Hc. Z.to_euclidean_division_equations. lia. Qed.

#[local] Opaque Z.div Z.modulo Z.mul Z.add.

Lemma b64_no_newline s : List.filter (fun c => negb (is_newline c)) (b64_encode s) = b64_encode s.
Proof.
  assert (Hq : forall n, 0 <= n < 16777216 -> forall c, c ∈ b64_quad n -> is_newline c = false).
  { intros n Hn c Hc. destruct (quad_parts n Hn) as (? & ? & ? & ? & _). unfold b64_quad in Hc.
    rewrite !elem_of_cons in Hc. destruct Hc as [->|[->|[->|[->|Hc%elem_of_nil]]]]; try done; by apply b64_char_ok. }
  assert (Hf : forall l, (forall c, c ∈ l -> is_newline c = false) ->
    List.filter (fun c => negb (is_newline c)) l = l).
  { induction l as [|c l IH]; intros Hl; [done|]. simpl. rewrite Hl by set_solver. simpl. f_equal. apply IH. set_solver. }
  induction s as [s IH] using (induction_ltof1 _ (@length ascii)). unfold ltof in IH.
  destruct s as [|a [|b [|c s]]]; [done|..].
  - apply Hf. intros x. pose proof (byte_val_range a). cbn [b64_encode b64_quad firstn app].
    intros Hx. destruct (decide (x = b64_pad)) as [->|]; [done|].
    apply (Hq (byte_val a * 65536)); [lia|]. unfold b64_quad. set_solver.
  - apply Hf. intros x. pose proof (byte_val_range a). pose proof (byte_val_range b). cbn [b64_encode b64_quad firstn app].
    intros Hx. destruct (decide (x = b64_pad)) as [->|]; [done|].
    apply (Hq (byte_val a * 65536 + byte_val b * 256)); [lia|]. unfold b64_quad. set_solver.
  - pose proof (byte_val_range a). pose proof (byte_val_range b). pose proof (byte_val_range c).
    cbn [b64_encode]. rewrite List.filter_app. rewrite IH by (simpl; lia). f_equal. apply Hf, Hq. lia.
Qed.

Lemma b64_decode_encode s : b64_decode (b64_encode s) = Some s.
Proof.
  unfold b64_decode. rewrite b64_no_newline.
  induction s as [s IH] using (induction_ltof1 _ (@length ascii)). unfold ltof in IH.
  destruct s as [|a [|b [|c s]]]; [done|..]; pose proof (byte_val_range a).
  - destruct (quad_parts (byte_val a * 65536)) as (H1 & H2 & H3 & H4 & E); [lia|].
    cbn [b64_encode b64_quad firstn app b64_quanta].
    destruct (b64_char_ok _ H1) as (-> & _), (b64_char_ok _ H2) as (-> & _). simpl.
    destruct (bytes_back (byte_val a) 0 0) as (E1 & _ & _); [lia..|].
    replace (_ / 65536) with (byte_val a); [by rewrite byte_of_byte_val|].
    Transparent Z.div Z.modulo Z.mul Z.add. Z.to_euclidean_division_equations. lia.
  - pose proof (byte_val_range b).
    destruct (quad_parts (byte_val a * 65536 + byte_val b * 256)) as (H1 & H2 & H3 & H4 & E); [lia|].
    cbn [b64_encode b64_quad firstn app b64_quanta].
    destruct (b64_char_ok _ H1) as (-> & _), (b64_char_ok _ H2) as (-> & _), (b64_char_ok _ H3) as (-> & -> & _). simpl.
    set (n := byte_val a * 65536 + byte_val b * 256) in *.
    assert (n mod 64 = 0) by (unfold n; Z.to_euclidean_division_equations; lia).
    replace (_ + _ + _) with n by lia.
    destruct (bytes_back (byte_val a) (byte_val b) 0) as (E1 & E2 & _); [lia..|].
    rewrite Z.add_0_r in E1, E2. fold n in E1, E2. rewrite E1, E2. by rewrite !byte_of_byte_val.
  - pose proof (byte_val_range b). pose proof (byte_val_range c).
    destruct (quad_parts (byte_val a * 65536 + byte_val b * 256 + byte_val c)) as (H2 & H3 & H4 & H5 & E); [lia|].
    cbn [b64_encode b64_quad firstn app b64_quanta].
    destruct (b64_char_ok _ H2) as (-> & _), (b64_char_ok _ H3) as (-> & _), (b64_char_ok _ H4) as (-> & _),
      (b64_char_ok _ H5) as (-> & -> & _). simpl.
    rewrite IH by (simpl; lia). simpl. rewrite E.
    destruct (bytes_back (byte_val a) (byte_val b) (byte_val c)) as (-> & -> & ->); [lia..|].
    by rewrite !byte_of_byte_val.
Qed.
