(* ===== verification/Tpm.v ===== *)
(** * internal/host/tpm

    The wire format of sealed blobs (wire.go), envelope encryption
    (envelope.go) and the sealer (tpm.go).  The TPM, the codecs of its
    structures, the source of randomness and AES-GCM are classes of
    operations; what is relied on about them is stated where it is used.
    The mutex around each sealer method is left out: a call is one
    computation here. *)

From S2P Require Import Prelude GoStrings Effects.

Module TpmWire.

(** ** Sealed blobs *)

Definition wireMagic : gostr := #"TPMS".
Definition wireVersion : Z := 1.
Definition maxPCRs : Z := 24.
Definition maxBlobField : nat := Z.to_nat 4096.

Inductive wire_err :=
| TooManyPCRs | FieldTooLarge | PCRRange
| ShortHeader | BadMagic | ShortField | BadVersion | TrailingBytes.

(** binary.BigEndian: AppendUint16 of a value converted to uint16, and
    Uint16 of two bytes. *)
Definition put_u16 (n : Z) : gostr := [byte_of ((n mod 2 ^ 16) / 256); byte_of (n mod 256)].

Definition u16 (b : gostr) : Z :=
  match b with
  | [hi; lo] => byte_val hi * 256 + byte_val lo
  | _ => 0
  end.

Definition len (s : gostr) : Z := Z.of_nat (length s).

Definition pcr_in_range (p : ascii) : bool := byte_val p <? maxPCRs.

Definition marshalSealedBlob (pcrs pub priv : gostr) : res wire_err gostr :=
  ensure (len pcrs <=? maxPCRs) else TooManyPCRs ;;
  ensure (length pub <=? maxBlobField)%nat else FieldTooLarge ;;
  ensure (length priv <=? maxBlobField)%nat else FieldTooLarge ;;
  ensure forallb pcr_in_range pcrs else PCRRange ;;
  Ok (wireMagic ++ put_u16 wireVersion ++ put_u16 (len pcrs) ++ pcrs
      ++ put_u16 (len pub) ++ pub ++ put_u16 (len priv) ++ priv).

(** The bounded reader: the bytes and the position. *)
Record wireReader := mkReader { rdB : gostr; rdPos : nat }.

Definition take (n : nat) (r : wireReader) : option (gostr * wireReader) :=
  if (length (rdB r) <? rdPos r + n)%nat then None
  else Some (firstn n (skipn (rdPos r) (rdB r)), mkReader (rdB r) (rdPos r + n)).

Definition takeU16 (r : wireReader) : option (Z * wireReader) :=
  match take 2 r with
  | None => None
  | Some (b, r') => Some (u16 b, r')
  end.

Definition remaining (r : wireReader) : Z := len (rdB r) - Z.of_nat (rdPos r).

(** A length-prefixed field of at most [maxBlobField] bytes. *)
Definition take_field (r : wireReader) : res wire_err (gostr * wireReader) :=
  match takeU16 r with
  | None => Err ShortField
  | Some (n, r') =>
      ensure (n <=? Z.of_nat maxBlobField) else FieldTooLarge ;;
      match take (Z.to_nat n) r' with
      | None => Err ShortField
      | Some (b, r'') => Ok (b, r'')
      end
  end.

Definition unmarshalSealedBlob (b : gostr) : res wire_err (gostr * gostr * gostr) :=
  match take 4 (mkReader b 0) with
  | None => Err ShortHeader
  | Some (magic, r) =>
      ensure str_eqb magic wireMagic else BadMagic ;;
      match takeU16 r with
      | None => Err ShortField
      | Some (ver, r) =>
          ensure (ver =? wireVersion) else BadVersion ;;
          match takeU16 r with
          | None => Err ShortField
          | Some (pcrCount, r) =>
              ensure (pcrCount <=? maxPCRs) else TooManyPCRs ;;
              match take (Z.to_nat pcrCount) r with
              | None => Err ShortField
              | Some (pcrs, r) =>
                  ensure forallb pcr_in_range pcrs else PCRRange ;;
                  let? (pub, r) := take_field r in
                  let? (priv, r) := take_field r in
                  ensure (remaining r =? 0) else TrailingBytes ;;
                  Ok (pcrs, pub, priv)
              end
          end
      end
  end.
End TpmWire.

Module TpmM.
Import TpmWire.

(** ** What the code calls *)

(** crypto/rand. *)
Class Rand (W : Type) := { rand_Read : nat -> W -> W * option gostr }.

(** AES-GCM without additional data; [aes_ok] is aes.NewCipher's check of
    the key. *)
Class Aead := {
  gcm_Seal : gostr -> gostr -> gostr -> gostr;
  gcm_Open : gostr -> gostr -> gostr -> option gostr }.

Definition aes_ok (key : gostr) : bool :=
  (length key =? 16)%nat || (length key =? 24)%nat || (length key =? 32)%nat.

Definition gcmNonceSize : nat := 12.

Inductive tpm_err :=
| RandErr | EmptyPlaintext | TooLong (n : nat) | OpenErr | TrialSession | TrialPCR | DigestErr
| PrimaryErr | CreateErr | PCRIndex (v : Z) | Blob (e : wire_err) | BadPublic | BadPrivate
| LoadErr | SessionErr | PolicyErr | ErrPCRMismatch | UnsealErr
| DekTooLong | CipherErr | EnvelopeShort | ZeroDek | Truncated | OpenFailed.

(** SealUnsealer. *)
Class SealUnsealer (W : Type) := {
  Seal : gostr -> M W (res tpm_err gostr);
  Unseal : gostr -> M W (res tpm_err gostr) }.

(** ** Envelopes *)

Section Envelope.
Context {W : Type} `{Rand W, SealUnsealer W, Aead}.

Definition WrapAEAD (plaintext : gostr) : M W (res tpm_err gostr) :=
  let! dek := call (rand_Read 32) in
  match dek with
  | None => ret (Err RandErr)
  | Some dek =>
      let! sealedDEK := Seal dek in
      match sealedDEK with
      | Err e => ret (Err e)
      | Ok sealedDEK =>
          if negb (len sealedDEK <=? 65535) then ret (Err DekTooLong)
          else if negb (aes_ok dek) then ret (Err CipherErr)
          else
            let! nonce := call (rand_Read gcmNonceSize) in
            match nonce with
            | None => ret (Err RandErr)
            | Some nonce =>
                let ct := gcm_Seal dek nonce plaintext in
                ret (Ok (put_u16 (len sealedDEK) ++ sealedDEK ++ nonce ++ ct))
            end
      end
  end.

Definition UnwrapAEAD (blob : gostr) : M W (res tpm_err gostr) :=
  if (length blob <? 2)%nat then ret (Err EnvelopeShort)
  else
    let dekLen := Z.to_nat (u16 (firstn 2 blob)) in
    if (dekLen =? 0)%nat then ret (Err ZeroDek)
    else if (length blob <? 2 + dekLen + gcmNonceSize)%nat then ret (Err Truncated)
    else
      let sealedDEK := firstn dekLen (skipn 2 blob) in
      let! dek := Unseal sealedDEK in
      match dek with
      | Err e => ret (Err e)
      | Ok dek =>
          if negb (aes_ok dek) then ret (Err CipherErr)
          else
            let nonce := firstn gcmNonceSize (skipn (2 + dekLen) blob) in
            let ct := skipn (2 + dekLen + gcmNonceSize) blob in
            ret (match gcm_Open dek nonce ct with
                 | None => Err OpenFailed
                 | Some pt => Ok pt
                 end)
      end.
End Envelope.

(** ** The sealer *)

Definition defaultOwnerHandle : Z := 2164260865.

Record AuthHandle := mkAuthHandle { ahHandle : Z; ahName : gostr; ahSession : option Z }.

Class TpmDevice (W : Type) := {
  TPM2BPublic : Type; TPM2BPrivate : Type;
  marshal_public : TPM2BPublic -> gostr; marshal_private : TPM2BPrivate -> gostr;
  unmarshal_public : gostr -> option TPM2BPublic; unmarshal_private : gostr -> option TPM2BPrivate;
  tpm_open : W -> W * bool;
  tpm_Close : W -> W * unit;
  PolicySession : bool -> W -> W * option Z;
  session_cleanup : Z -> W -> W * unit;
  PolicyPCR : Z -> list Z -> W -> W * bool;
  PolicyGetDigest : Z -> W -> W * option gostr;
  ReadPublic : Z -> W -> W * option gostr;
  CreatePrimary : W -> W * option (Z * gostr);
  FlushContext : Z -> W -> W * unit;
  CreateSealed : AuthHandle -> gostr -> gostr -> W -> W * option (TPM2BPublic * TPM2BPrivate);
  LoadSealed : AuthHandle -> TPM2BPrivate -> TPM2BPublic -> W -> W * option (Z * gostr);
  (** the flag of a failure says whether it is one of the policy codes *)
  UnsealObject : AuthHandle -> W -> W * res bool gostr }.

Record Sealer := mkSealer { PCRs : list Z; OwnerHandle : Z }.

(** The configuration New gives a sealer. *)
Definition NewSealer : Sealer := mkSealer [7] defaultOwnerHandle.

Section Sealer.
Context {W : Type} `{TpmDevice W} (s : Sealer).

(** A deferred call: it runs when the body has returned. *)
Definition deferred {A} (cleanup : M W unit) (body : M W A) : M W A :=
  let! r := body in let! _ := cleanup in ret r.

(** uint(v) of an int. *)
Definition uintsFromInts (l : list Z) : list Z := map (fun v => v mod 2 ^ 64) l.

Fixpoint pcr_bytes (l : list Z) : res tpm_err gostr :=
  match l with
  | [] => Ok []
  | v :: l' =>
      ensure negb ((v <? 0) || (23 <? v)) else PCRIndex v ;;
      let? b := pcr_bytes l' in Ok (byte_of v :: b)
  end.

Definition pcrIndexesU8 : res tpm_err gostr := pcr_bytes (PCRs s).

Definition trialPolicyDigest (sel : list Z) : M W (res tpm_err gostr) :=
  let! sess := call (PolicySession true) in
  match sess with
  | None => ret (Err TrialSession)
  | Some sess =>
      deferred (call (session_cleanup sess))
        (let! ok := call (PolicyPCR sess sel) in
         if negb ok then ret (Err TrialPCR)
         else
           let! pgd := call (PolicyGetDigest sess) in
           ret (match pgd with None => Err DigestErr | Some d => Ok d end))
  end.

Definition withTransientSRK {A} (fn : AuthHandle -> M W (res tpm_err A)) : M W (res tpm_err A) :=
  let! srk := call CreatePrimary in
  match srk with
  | None => ret (Err PrimaryErr)
  | Some (h, name) => deferred (call (FlushContext h)) (fn (mkAuthHandle h name None))
  end.

Definition withSRK {A} (fn : AuthHandle -> M W (res tpm_err A)) : M W (res tpm_err A) :=
  if negb (OwnerHandle s =? 0) then
    let! rp := call (ReadPublic (OwnerHandle s)) in
    match rp with
    | None => withTransientSRK fn
    | Some name => fn (mkAuthHandle (OwnerHandle s) name None)
    end
  else withTransientSRK fn.

Definition sealer_Seal (plaintext : gostr) : M W (res tpm_err gostr) :=
  if (length plaintext =? 0)%nat then ret (Err EmptyPlaintext)
  else if (128 <? length plaintext)%nat then ret (Err (TooLong (length plaintext)))
  else
    let! t := call tpm_open in
    if negb t then ret (Err OpenErr)
    else
      deferred (call tpm_Close)
        (let! authPolicy := trialPolicyDigest (uintsFromInts (PCRs s)) in
         match authPolicy with
         | Err e => ret (Err e)
         | Ok authPolicy =>
             let! obj := withSRK (fun parent =>
               let! rsp := call (CreateSealed parent plaintext authPolicy) in
               ret (match rsp with None => Err CreateErr | Some o => Ok o end)) in
             ret (match obj with
                  | Err e => Err e
                  | Ok (pub, priv) =>
                      let? pcrIdx := pcrIndexesU8 in
                      match marshalSealedBlob pcrIdx (marshal_public pub) (marshal_private priv) with
                      | Ok b => Ok b
                      | Err e => Err (Blob e)
                      end
                  end)
         end).

(** The work inside the session that authorises the unsealing. *)
Definition unseal_in (sess : Z) (sel : list Z) (h : Z) (name : gostr) : M W (res tpm_err gostr) :=
  let! ok := call (PolicyPCR sess sel) in
  if negb ok then ret (Err PolicyErr)
  else
    let! rsp := call (UnsealObject (mkAuthHandle h name (Some sess))) in
    ret (match rsp with
         | Err true => Err ErrPCRMismatch
         | Err false => Err UnsealErr
         | Ok out => Ok out
         end).

Definition unseal_loaded (priv : TPM2BPrivate) (pub : TPM2BPublic) (sel : list Z)
    (parent : AuthHandle) : M W (res tpm_err gostr) :=
  let! l := call (LoadSealed parent priv pub) in
  match l with
  | None => ret (Err LoadErr)
  | Some (h, name) =>
      deferred (call (FlushContext h))
        (let! sess := call (PolicySession false) in
         match sess with
         | None => ret (Err SessionErr)
         | Some sess => deferred (call (session_cleanup sess)) (unseal_in sess sel h name)
         end)
  end.

Definition sealer_Unseal (sealed : gostr) : M W (res tpm_err gostr) :=
  match unmarshalSealedBlob sealed with
  | Err e => ret (Err (Blob e))
  | Ok (pcrIdx, pubBytes, privBytes) =>
      match unmarshal_public pubBytes, unmarshal_private privBytes with
      | None, _ => ret (Err BadPublic)
      | _, None => ret (Err BadPrivate)
      | Some pub, Some priv =>
          let sel := map byte_val pcrIdx in
          let! t := call tpm_open in
          if negb t then ret (Err OpenErr)
          else deferred (call tpm_Close) (withSRK (unseal_loaded priv pub sel))
      end
  end.

(** *Sealer satisfies SealUnsealer. *)
Definition sealer_unsealer : SealUnsealer W := {| Seal := sealer_Seal; Unseal := sealer_Unseal |}.
End Sealer.
End TpmM.
