(* ===== verification/TpmCorrect.v ===== *)
(** * Sealed blobs and envelopes: round trips and resources

    Reading a blob is the exact inverse of writing one; unwrapping an
    envelope gives back what was wrapped, on the same platform; and the
    sealer releases every session, object and device it opened, whatever
    the TPM answers. *)

From S2P Require Import Prelude GoStrings Effects Tpm.
Import TpmWire TpmM.

#[local] Arguments str : simpl never.

(** ** The wire format *)

Lemma u16_put n : 0 <= n < 65536 -> u16 (put_u16 n) = n.
Proof.
  intros Hn. unfold u16, put_u16. change (2 ^ 16) with 65536.
  rewrite (Z.mod_small n 65536) by lia.
  rewrite !byte_val_byte_of; [pose proof (Z.div_mod n 256); lia| |]; [pose proof (Z.mod_pos_bound n 256); lia|].
  split; [apply Z.div_pos; lia|]. apply Z.div_lt_upper_bound; lia.
Qed.

Lemma put_u16_u16 b : length b = 2%nat -> put_u16 (u16 b) = b.
Proof.
  destruct b as [|hi [|lo [|]]]; intros Hl; try done. unfold put_u16, u16.
  pose proof (byte_val_range hi). pose proof (byte_val_range lo).
  change (2 ^ 16) with 65536. rewrite (Z.mod_small _ 65536) by lia.
  replace ((_ * 256 + _) / 256) with (byte_val hi) by (apply Z.div_unique with (byte_val lo); lia).
  replace ((_ * 256 + _) mod 256) with (byte_val lo) by (apply Z.mod_unique with (byte_val hi); lia).
  by rewrite !byte_of_byte_val.
Qed.

Lemma u16_range b : 0 <= u16 b < 65536.
Proof.
  unfold u16. destruct b as [|hi [|lo [|]]]; try lia.
  pose proof (byte_val_range hi). pose proof (byte_val_range lo). lia.
Qed.

Lemma put_u16_length n : length (put_u16 n) = 2%nat.
Proof. done. Qed.

(** What a reader has left, and that its position is inside. *)
Definition rest_of (r : wireReader) : gostr := skipn (rdPos r) (rdB r).
Definition in_bounds (r : wireReader) : Prop := (rdPos r <= length (rdB r))%nat.

Lemma take_inv n r x r' : in_bounds r -> take n r = Some (x, r') ->
  length x = n /\ rest_of r = x ++ rest_of r' /\ in_bounds r'.
Proof.
  unfold take, rest_of, in_bounds. destruct (Nat.ltb_spec (length (rdB r)) (rdPos r + n)); [done|].
  intros Hb [= <- <-]. simpl. rewrite length_firstn, length_skipn. split_and!; [lia| |lia].
  replace (rdPos r + n)%nat with (n + rdPos r)%nat by lia.
  by rewrite <- skipn_skipn, firstn_skipn.
Qed.

Lemma take_ok r x t : in_bounds r -> rest_of r = x ++ t ->
  exists r', take (length x) r = Some (x, r') /\ in_bounds r' /\ rest_of r' = t.
Proof.
  unfold take, rest_of, in_bounds. intros Hb E.
  assert (Hlen : length (skipn (rdPos r) (rdB r)) = (length x + length t)%nat)
    by (by rewrite E, length_app).
  rewrite length_skipn in Hlen.
  destruct (Nat.ltb_spec (length (rdB r)) (rdPos r + length x)); [lia|].
  eexists. rewrite E. split; [by rewrite firstn_app, firstn_all, Nat.sub_diag, app_nil_r|]. simpl.
  split; [lia|]. replace (rdPos r + length x)%nat with (length x + rdPos r)%nat by lia.
  by rewrite <- skipn_skipn, E, drop_app_length.
Qed.

Lemma takeU16_inv r n r' : in_bounds r -> takeU16 r = Some (n, r') ->
  rest_of r = put_u16 n ++ rest_of r' /\ in_bounds r' /\ 0 <= n < 65536.
Proof.
  unfold takeU16. intros Hb. destruct (take 2 r) as [[b r1]|] eqn:E; [|done]. intros [= <- <-].
  apply take_inv in E as (Hl & -> & Hb'); [|done]. rewrite put_u16_u16 by done.
  split_and!; [done|done|apply u16_range..].
Qed.

Lemma takeU16_ok r n t : in_bounds r -> 0 <= n < 65536 -> rest_of r = put_u16 n ++ t ->
  exists r', takeU16 r = Some (n, r') /\ in_bounds r' /\ rest_of r' = t.
Proof.
  intros Hb Hn E. destruct (take_ok r _ _ Hb E) as (r' & E' & Hb' & Ht).
  exists r'. unfold takeU16. rewrite put_u16_length in E'. rewrite E'. by rewrite u16_put.
Qed.

Lemma take_field_inv r b r' : in_bounds r -> take_field r = Ok (b, r') ->
  (length b <= maxBlobField)%nat /\ rest_of r = put_u16 (len b) ++ b ++ rest_of r' /\ in_bounds r'.
Proof.
  unfold take_field. intros Hb. destruct (takeU16 r) as [[n r1]|] eqn:E; [|done].
  apply takeU16_inv in E as (-> & Hb1 & Hn); [|done].
  destruct (Z.leb_spec n (Z.of_nat maxBlobField)); [|done].
  destruct (take (Z.to_nat n) r1) as [[x r2]|] eqn:E2; [|done]. intros [= <- <-].
  apply take_inv in E2 as (Hl & -> & Hb2); [|done]. split_and!; [lia| |done].
  unfold len. rewrite Hl. by rewrite Z2Nat.id by lia.
Qed.

Lemma take_field_ok r b t : in_bounds r -> (length b <= maxBlobField)%nat ->
  rest_of r = put_u16 (len b) ++ b ++ t ->
  exists r', take_field r = Ok (b, r') /\ in_bounds r' /\ rest_of r' = t.
Proof.
  intros Hb Hl E. assert (Hmax : Z.of_nat maxBlobField = 4096) by (unfold maxBlobField; lia).
  destruct (takeU16_ok r (len b) (b ++ t)) as (r1 & E1 & Hb1 & Ht1); [done|unfold len; lia|done|].
  destruct (take_ok r1 b t Hb1 Ht1) as (r2 & E2 & Hb2 & Ht2).
  exists r2. unfold take_field. rewrite E1. destruct (Z.leb_spec (len b) (Z.of_nat maxBlobField)).
  - unfold len. by rewrite Nat2Z.id, E2.
  - unfold len in *. lia.
Qed.

Lemma remaining_rest r : in_bounds r -> (remaining r =? 0) = bool_decide (rest_of r = []).
Proof.
  unfold remaining, rest_of, in_bounds, len. intros Hb.
  assert (Hl : length (skipn (rdPos r) (rdB r)) = (length (rdB r) - rdPos r)%nat) by apply length_skipn.
  destruct (Z.eqb_spec (Z.of_nat (length (rdB r)) - Z.of_nat (rdPos r)) 0); symmetry.
  - apply bool_decide_eq_true. apply length_zero_iff_nil. lia.
  - apply bool_decide_eq_false. intros E. rewrite E in Hl. simpl in Hl. lia.
Qed.

(** Reading inverts writing, and writing inverts reading. *)
Lemma unmarshal_marshal (b pcrs pub priv : gostr) :
  unmarshalSealedBlob b = Ok (pcrs, pub, priv) <-> marshalSealedBlob pcrs pub priv = Ok b.
Proof.
  unfold unmarshalSealedBlob, marshalSealedBlob. split.
  - assert (Hb0 : in_bounds (mkReader b 0)) by (unfold in_bounds; simpl; lia).
    destruct (take 4 _) as [[magic r]|] eqn:E0; [|done].
    apply take_inv in E0 as (_ & E0 & Hb); [|done]. change (rest_of (mkReader b 0)) with b in E0. subst b.
    destruct (str_eqb magic wireMagic) eqn:Em; [|done]. apply str_eqb_eq in Em as ->.
    destruct (takeU16 r) as [[ver r1]|] eqn:E1; [|done]. apply takeU16_inv in E1 as (-> & Hb1 & _); [|done].
    destruct (Z.eqb_spec ver wireVersion) as [->|]; [|done].
    destruct (takeU16 r1) as [[cnt r2]|] eqn:E2; [|done]. apply takeU16_inv in E2 as (-> & Hb2 & Hc); [|done].
    destruct (Z.leb_spec cnt maxPCRs); [|done].
    destruct (take (Z.to_nat cnt) r2) as [[ps r3]|] eqn:E3; [|done].
    apply take_inv in E3 as (Hl3 & -> & Hb3); [|done].
    destruct (forallb pcr_in_range ps) eqn:Ef; [|done].
    destruct (take_field r3) as [[pb r4]|] eqn:E4; [|done]. apply take_field_inv in E4 as (Hl4 & -> & Hb4); [|done].
    destruct (take_field r4) as [[pv r5]|] eqn:E5; [|done]. apply take_field_inv in E5 as (Hl5 & -> & Hb5); [|done].
    rewrite remaining_rest by done. case_bool_decide as Er; [|done]. intros [= <- <- <-].
    rewrite Er, app_nil_r. assert (len ps = cnt) as -> by (unfold len; lia).
    rewrite Ef. apply Z.leb_le in H as ->. apply Nat.leb_le in Hl4 as ->. by apply Nat.leb_le in Hl5 as ->.
  - destruct (Z.leb_spec (len pcrs) maxPCRs) as [Hl1|]; [|done].
    destruct (Nat.leb_spec (length pub) maxBlobField); [|done].
    destruct (Nat.leb_spec (length priv) maxBlobField); [|done].
    destruct (forallb pcr_in_range pcrs) eqn:Ef; [|done]. intros E0.
    assert (Hb0 : in_bounds (mkReader b 0)) by (unfold in_bounds; simpl; lia).
    apply (f_equal (fun r => match r with Ok x => x | Err _ => [] end)) in E0.
    change b with (rest_of (mkReader b 0)) in E0. symmetry in E0.
    destruct (take_ok _ _ _ Hb0 E0) as (r & E & Hb & Er). change 4%nat with (length wireMagic). rewrite E, str_eqb_refl.
    destruct (takeU16_ok r wireVersion _ Hb ltac:(done) Er) as (r1 & E1 & Hb1 & Er1). rewrite E1. cbn [wireVersion Z.eqb Pos.eqb].
    assert (Hr : 0 <= len pcrs < 65536) by (unfold len, maxPCRs in *; lia).
    destruct (takeU16_ok r1 _ _ Hb1 Hr Er1) as (r2 & E2 & Hb2 & Er2). rewrite E2.
    apply Z.leb_le in Hl1. rewrite Hl1. destruct (take_ok r2 _ _ Hb2 Er2) as (r3 & E3 & Hb3 & Er3).
    unfold len at 1. rewrite Nat2Z.id, E3, Ef.
    destruct (take_field_ok r3 _ _ Hb3 H Er3) as (r4 & E4 & Hb4 & Er4). rewrite E4.
    destruct (take_field_ok r4 priv [] Hb4 H0) as (r5 & E5 & Hb5 & Er5); [by rewrite app_nil_r|]. rewrite E5.
    rewrite remaining_rest by done. by rewrite bool_decide_eq_true_2.
Qed.

(** C21. The format of sealed blobs is exact: reading succeeds with given
    fields precisely on the bytes that writing those fields produces, so
    what was sealed reads back, and no other bytes are accepted. *)
Theorem blob_exact (b pcrs pub priv : gostr) :
  unmarshalSealedBlob b = Ok (pcrs, pub, priv) <-> marshalSealedBlob pcrs pub priv = Ok b.
Proof. apply unmarshal_marshal. Qed.

(** ** Envelopes *)

(** What is relied on: opening undoes sealing, random bytes come in the
    number asked for, and as long as the platform is the [same], what the
    TPM sealed it unseals, unless it reports an error. *)
Class AeadLaws `{Aead} := { gcm_Open_Seal k n p : gcm_Open k n (gcm_Seal k n p) = Some p }.

Class PlatformLaws {W} `{Rand W, SealUnsealer W} (same : W -> W -> Prop) := {
  same_pre :: PreOrder same;
  rand_length n w w' b : rand_Read n w = (w', Some b) -> length b = n;
  rand_same n w : same w (rand_Read n w).1;
  unseal_sealed p w w' s : Seal p w = (w', Some (Ok s)) ->
    s <> [] /\ forall w2, same w' w2 -> exists w3 r, Unseal s w2 = (w3, Some r) /\ (r = Ok p \/ exists e, r = Err e) }.

Section Envelope.
Context {W : Type} `{Rand W, SealUnsealer W, Aead} (same : W -> W -> Prop)
  `{!AeadLaws, !PlatformLaws same}.

(** The checks of UnwrapAEAD on a well-formed envelope. *)
Lemma unwrap_layout sd nonce ct : sd <> [] -> len sd <= 65535 -> length nonce = gcmNonceSize ->
  UnwrapAEAD (put_u16 (len sd) ++ sd ++ nonce ++ ct) =
  (let! dek := Unseal sd in
   match dek with
   | Err e => ret (Err e)
   | Ok dek =>
       if negb (aes_ok dek) then ret (Err CipherErr)
       else ret (match gcm_Open dek nonce ct with None => Err OpenFailed | Some pt => Ok pt end)
   end).
Proof.
  intros Hne Hl Hn. assert (Hr : 0 <= len sd < 65536) by (unfold len in *; lia).
  set (b := put_u16 (len sd) ++ sd ++ nonce ++ ct).
  assert (Hlb : length b = (2 + length sd + gcmNonceSize + length ct)%nat).
  { unfold b. rewrite !length_app, put_u16_length, Hn. lia. }
  assert (Hu : Z.to_nat (u16 (firstn 2 b)) = length sd).
  { change (firstn 2 b) with (put_u16 (len sd)). rewrite u16_put by done. unfold len. lia. }
  assert (E2 : skipn 2 b = sd ++ nonce ++ ct) by done.
  assert (E3 : skipn (2 + length sd) b = nonce ++ ct).
  { rewrite Nat.add_comm, <- skipn_skipn, E2. apply drop_app_length. }
  assert (E4 : skipn (2 + length sd + gcmNonceSize) b = ct).
  { rewrite Nat.add_comm, <- skipn_skipn, E3, <- Hn. apply drop_app_length. }
  unfold UnwrapAEAD. rewrite Hu. rewrite E2, E3, E4.
  rewrite take_app_length, <- Hn, take_app_length.
  assert (length sd <> 0%nat) by (by destruct sd).
  replace (length b <? 2)%nat with false by (symmetry; apply Nat.ltb_ge; lia).
  replace (length sd =? 0)%nat with false by (symmetry; by apply Nat.eqb_neq).
  by replace (length b <? _)%nat with false by (symmetry; apply Nat.ltb_ge; lia).
Qed.

(** Unwrapping undoes wrapping. *)
Lemma unwrap_wrapped pt blob w w1 w2 (Hwrap : WrapAEAD pt w = (w1, Some (Ok blob)))
    (Hsame : same w1 w2) :
  exists w3 r, UnwrapAEAD blob w2 = (w3, Some r) /\ (r = Ok pt \/ exists e, r = Err e).
Proof.
  unfold WrapAEAD in Hwrap. run Hwrap as u0 dek E0. destruct dek as [dek|]; [|done].
  run Hwrap as u1 sd E1. destruct sd as [sd|]; [|done].
  destruct (Z.leb_spec (len sd) 65535) as [Hlen|]; [|done]. cbn [negb] in Hwrap.
  destruct (aes_ok dek) eqn:Ea; [|done]. run Hwrap as u2 nonce E2. destruct nonce as [nonce|]; [|done].
  apply ret_returned in Hwrap as [-> Hb]. injection Hb as Hb. rewrite Hb. clear Hb.
  destruct (unseal_sealed _ _ _ _ E1) as [Hne Hback].
  unfold call in E2. destruct (rand_Read gcmNonceSize u1) as [u2' n2] eqn:Er. injection E2 as -> ->.
  assert (same u1 w2) as Hs.
  { etransitivity; [|done]. pose proof (rand_same gcmNonceSize u1) as Hr. by rewrite Er in Hr. }
  apply rand_length in Er. destruct (Hback w2 Hs) as (w3 & r & Eu & Hr). exists w3.
  change (exists r0, UnwrapAEAD (put_u16 (len sd) ++ sd ++ nonce ++ gcm_Seal dek nonce pt) w2 = (w3, Some r0) /\ (r0 = Ok pt \/ exists e, r0 = Err e)).
  rewrite unwrap_layout by done. unfold bind. rewrite Eu. destruct Hr as [->|[e ->]]; [|by eauto].
  rewrite Ea. simpl. rewrite gcm_Open_Seal. eauto.
Qed.

(** What was wrapped is unwrapped: on the same platform, a blob that
    WrapAEAD produced gives back exactly the plaintext, unless the TPM
    reports an error. *)
Theorem UnwrapAEAD_WrapAEAD pt blob w w1 w2 (Hwrap : WrapAEAD pt w = (w1, Some (Ok blob)))
    (Hsame : same w1 w2) :
  exists w3 r, UnwrapAEAD blob w2 = (w3, Some r) /\ (r = Ok pt \/ exists e, r = Err e).
Proof. by eapply unwrap_wrapped. Qed.
End Envelope.

(** ** The sealer releases what it opened *)

(** A device that records what happens to sessions, objects and itself,
    and answers as an oracle says. *)
Inductive tev :=
| EOpen | EClose
| ESession (h : Z) | ECleanup (h : Z)
| EObject (h : Z) | EFlush (h : Z)
| EOther.

(** Every successful opening is followed by its release, properly
    nested. *)
Inductive released : list tev -> Prop :=
| rel_nil : released []
| rel_other es : released es -> released (EOther :: es)
| rel_device es fs : released es -> released fs -> released (EOpen :: es ++ EClose :: fs)
| rel_session h es fs : released es -> released fs -> released (ESession h :: es ++ ECleanup h :: fs)
| rel_object h es fs : released es -> released fs -> released (EObject h :: es ++ EFlush h :: fs).

Lemma released_app es fs : released es -> released fs -> released (es ++ fs).
Proof.
  intros He Hf. induction He as [|es He IH|es gs He IHe Hg IHg|h es gs He IHe Hg IHg|h es gs He IHe Hg IHg]; simpl; try done.
  - by constructor.
  - rewrite <- app_assoc. by apply rel_device.
  - rewrite <- app_assoc. by apply rel_session.
  - rewrite <- app_assoc. by apply rel_object.
Qed.

Section Leaks.
Context {Pub Priv : Type} (mpub : Pub -> gostr) (mpriv : Priv -> gostr)
  (upub : gostr -> option Pub) (upriv : gostr -> option Priv)
  (ok : list tev -> bool) (hnd : list tev -> option Z) (str_ : list tev -> option gostr)
  (obj : list tev -> option (Pub * Priv)) (uns : list tev -> res bool gostr).

Definition opened (ev : Z -> tev) (h : list tev) : list tev :=
  match hnd h with Some x => h ++ [ev x] | None => h ++ [EOther] end.

#[local] Instance trace_tpm : TpmDevice (list tev) := {|
  TPM2BPublic := Pub; TPM2BPrivate := Priv;
  marshal_public := mpub; marshal_private := mpriv;
  unmarshal_public := upub; unmarshal_private := upriv;
  tpm_open := fun h => (h ++ [if ok h then EOpen else EOther], ok h);
  tpm_Close := fun h => (h ++ [EClose], tt);
  PolicySession := fun _ h => (opened ESession h, hnd h);
  session_cleanup := fun s h => (h ++ [ECleanup s], tt);
  PolicyPCR := fun _ _ h => (h ++ [EOther], ok h);
  PolicyGetDigest := fun _ h => (h ++ [EOther], str_ h);
  ReadPublic := fun _ h => (h ++ [EOther], str_ h);
  CreatePrimary := fun h => (opened EObject h, x ← hnd h; Some (x, []));
  FlushContext := fun o h => (h ++ [EFlush o], tt);
  CreateSealed := fun _ _ _ h => (h ++ [EOther], obj h);
  LoadSealed := fun _ _ _ h => (opened EObject h, x ← hnd h; Some (x, []));
  UnsealObject := fun _ h => (h ++ [EOther], uns h) |}.

(** A computation that returns and adds released events only. *)
Definition tidy {A} (m : M (list tev) A) : Prop :=
  forall h, exists es r, m h = (h ++ es, Some r) /\ released es.

Lemma tidy_ret {A} (a : A) : tidy (ret a).
Proof. intros h. exists [], a. rewrite app_nil_r. split; [done|constructor]. Qed.

Lemma tidy_bind {A B} (m : M (list tev) A) (k : A -> M (list tev) B) :
  tidy m -> (forall a, tidy (k a)) -> tidy (bind m k).
Proof.
  intros Hm Hk h. destruct (Hm h) as (es & r & E & He). destruct (Hk r (h ++ es)) as (fs & r' & E' & Hf).
  exists (es ++ fs), r'. unfold bind. rewrite E, E', app_assoc. split; [done|by apply released_app].
Qed.

Lemma tidy_other {A} (f : list tev -> A) : tidy (call (fun h => (h ++ [EOther], f h))).
Proof. intros h. exists [EOther], (f h). split; [done|repeat constructor]. Qed.

(** The shapes of opening: what was opened is released by the deferred
    call when the opening succeeded. *)
Lemma tidy_bracket {A B} (open : M (list tev) A) (k : A -> M (list tev) B)
    (o : A -> option (tev * tev)) :
  (forall h, exists a, open h = (h ++ [match o a with Some (e, _) => e | None => EOther end], Some a)) ->
  (forall a e f es fs, o a = Some (e, f) -> released es -> released fs -> released (e :: es ++ f :: fs)) ->
  (forall a, o a = None -> tidy (k a)) ->
  (forall a e f, o a = Some (e, f) -> exists body,
      k a = deferred (call (fun h => (h ++ [f], tt))) body /\ tidy body) ->
  tidy (bind open k).
Proof.
  intros Ho Hr Hn Hs h. destruct (Ho h) as (a & E). destruct (o a) as [[e f]|] eqn:Ea.
  - destruct (Hs a e f Ea) as (body & Ek & Hb). destruct (Hb (h ++ [e])) as (es & r & Eb & He).
    exists (e :: es ++ [f]), r. unfold bind at 1. rewrite E, Ek. unfold deferred, bind. rewrite Eb. simpl.
    rewrite <- !app_assoc. split; [done|]. apply (Hr a); [done|done|constructor].
  - destruct (Hn a Ea (h ++ [EOther])) as (es & r & Ek & He). exists (EOther :: es), r.
    unfold bind. rewrite E, Ek, <- app_assoc. split; [done|by constructor].
Qed.

Lemma tidy_session {A} b (n : M (list tev) A) (body : Z -> M (list tev) A) :
  tidy n -> (forall s, tidy (body s)) ->
  tidy (let! s := call (PolicySession b) in
        match s with None => n | Some s => deferred (call (session_cleanup s)) (body s) end).
Proof.
  intros Hn Hb. apply (tidy_bracket _ _ (fun a => x ← a; Some (ESession x, ECleanup x))).
  - intros h. exists (hnd h). unfold call; simpl. unfold opened. by destruct (hnd h).
  - intros [x|] e f es fs [= <- <-] He Hf. by apply rel_session.
  - by intros [x|].
  - intros [x|] e f [= <- <-]. by exists (body x).
Qed.

(** Objects come from CreatePrimary and from Load. *)
Lemma tidy_object {A} (open : list tev -> list tev * option (Z * gostr)) (n : M (list tev) A)
    (body : Z -> gostr -> M (list tev) A) :
  (forall h, open h = (opened EObject h, x ← hnd h; Some (x, []))) ->
  tidy n -> (forall o name, tidy (body o name)) ->
  tidy (let! o := call open in
        match o with None => n | Some (o, name) => deferred (call (FlushContext o)) (body o name) end).
Proof.
  intros Ho Hn Hb.
  apply (tidy_bracket _ _ (fun a : option (Z * gostr) => x ← a; Some (EObject x.1, EFlush x.1))).
  - intros h. exists (x ← hnd h; Some (x, [])). unfold call. rewrite Ho. unfold opened. by destruct (hnd h).
  - intros [x|] e f es fs [= <- <-] He Hf. by apply rel_object.
  - by intros [x|].
  - intros [[x nm]|] e f [= <- <-]. by exists (body x nm).
Qed.

Lemma tidy_device {A} (n body : M (list tev) A) : tidy n -> tidy body ->
  tidy (let! t := call tpm_open in if negb t then n else deferred (call tpm_Close) body).
Proof.
  intros Hn Hb. apply (tidy_bracket _ _ (fun a : bool => if a then Some (EOpen, EClose) else None)).
  - intros h. exists (ok h). unfold call; simpl. by destruct (ok h).
  - intros [|] e f es fs [= <- <-] He Hf. by apply rel_device.
  - by intros [|].
  - intros [|] e f [= <- <-]. by exists body.
Qed.

Hint Resolve tidy_ret tidy_bind tidy_session tidy_device : tidy.
Hint Extern 1 (tidy (call _)) => apply tidy_other : tidy.
Ltac tidy := repeat match goal with
  | |- tidy (match ?x with _ => _ end) => destruct x
  | |- tidy (if ?b then _ else _) => destruct b
  | |- forall _, _ => intro
  | |- tidy _ => solve [eauto 2 with tidy] || apply tidy_bind
  end.

Lemma tidy_trial sel : tidy (trialPolicyDigest sel).
Proof. apply tidy_session; [apply tidy_ret|]. intros s. tidy. Qed.

Lemma tidy_transient {A} (fn : AuthHandle -> M (list tev) (res tpm_err A)) :
  (forall p, tidy (fn p)) -> tidy (withTransientSRK fn).
Proof. intros Hf. apply (tidy_object CreatePrimary); [done|apply tidy_ret|]. intros o name. apply Hf. Qed.

Lemma tidy_SRK {A} s (fn : AuthHandle -> M (list tev) (res tpm_err A)) :
  (forall p, tidy (fn p)) -> tidy (withSRK s fn).
Proof.
  intros Hf. unfold withSRK. destruct (negb _); [|by apply tidy_transient].
  apply tidy_bind; [apply tidy_other|]. intros [name|]; [apply Hf|by apply tidy_transient].
Qed.

Lemma tidy_unseal_loaded priv pub sel p : tidy (unseal_loaded priv pub sel p).
Proof.
  apply (tidy_object (LoadSealed p priv pub)); [done|apply tidy_ret|]. intros o name.
  apply tidy_session; [apply tidy_ret|]. intros ss. unfold unseal_in. tidy.
Qed.

(** C30. Whatever the TPM answers, sealing and unsealing return, and
    every session, transient object and device they opened has been
    released, in reverse order of opening. *)
Theorem sealer_releases (s : Sealer) (seal : bool) (input : gostr) (h : list tev) :
  exists es r, (if seal then sealer_Seal s input else sealer_Unseal s input) h = (h ++ es, Some r)
    /\ released es.
Proof.
  revert h. change (tidy (if seal then sealer_Seal s input else sealer_Unseal s input)). destruct seal.
  - unfold sealer_Seal. destruct (_ =? _)%nat; [apply tidy_ret|]. destruct (_ <? _)%nat; [apply tidy_ret|].
    apply tidy_device; [apply tidy_ret|]. apply tidy_bind; [apply tidy_trial|]. intros [d|e]; [|apply tidy_ret].
    apply tidy_bind; [|intros; apply tidy_ret]. apply tidy_SRK. intros p. tidy.
  - unfold sealer_Unseal. destruct (unmarshalSealedBlob input) as [[[pcrs pb] pv]|e]; [|apply tidy_ret].
    destruct (unmarshal_public pb), (unmarshal_private pv); try apply tidy_ret.
    apply tidy_device; [apply tidy_ret|]. apply tidy_SRK. intros p. apply tidy_unseal_loaded.
Qed.
End Leaks.

(** ** A TPM in memory *)

Module MemTpm.

(** The PCR state, and the object that is loaded. *)
Record tpm := mkTpm { pcr : gostr; loaded : option (gostr * gostr) }.

#[export] Instance mem_rand : Rand tpm := {| rand_Read := fun n w => (w, Some (repeat "r"%char n)) |}.

(** Not a cipher: it only has the interface of one. *)
#[export] Instance mem_aead : Aead := {|
  gcm_Seal := fun k n p => k ++ n ++ p;
  gcm_Open := fun k n c => strip_prefix (k ++ n) c |}.

#[export] Instance mem_device : TpmDevice tpm := {|
  TPM2BPublic := gostr; TPM2BPrivate := gostr;
  marshal_public := fun p => p; marshal_private := fun p => p;
  unmarshal_public := Some; unmarshal_private := Some;
  tpm_open := fun w => (w, true); tpm_Close := fun w => (w, tt);
  PolicySession := fun _ w => (w, Some 1); session_cleanup := fun _ w => (w, tt);
  PolicyPCR := fun _ _ w => (w, true);
  PolicyGetDigest := fun _ w => (w, Some (pcr w));
  ReadPublic := fun _ w => (w, None);
  CreatePrimary := fun w => (w, Some (2, []));
  FlushContext := fun h w => (if h =? 3 then mkTpm (pcr w) None else w, tt);
  CreateSealed := fun _ p policy w => (w, Some (policy, p));
  LoadSealed := fun _ priv pub w => (mkTpm (pcr w) (Some (pub, priv)), Some (3, []));
  UnsealObject := fun a w =>
    (w, match loaded w with
        | Some (policy, p) => if str_eqb policy (pcr w) then Ok p else Err true
        | None => Err false
        end) |}.

#[export] Instance mem_sealer : SealUnsealer tpm := sealer_unsealer NewSealer.

#[export] Instance mem_aead_laws : AeadLaws.
Proof. constructor. intros k n p. simpl. rewrite app_assoc. apply strip_prefix_app. Qed.

Definition same_boot (w w' : tpm) : Prop := pcr w = pcr w'.

#[export] Instance mem_platform : PlatformLaws same_boot.
Proof.
  constructor.
  - split; [by intros w|]. intros w1 w2 w3 H1 H2. unfold same_boot in *. congruence.
  - intros n w w' b [= <- <-]. apply repeat_length.
  - by intros n w.
  - intros p w w' sd. cbn [Seal mem_sealer sealer_unsealer]. unfold sealer_Seal.
    destruct (_ =? _)%nat eqn:E0; [done|]. destruct (_ <? _)%nat eqn:E1; [done|].
    unfold deferred, withSRK, withTransientSRK, trialPolicyDigest, deferred, bind, call, ret; simpl.
    destruct (marshalSealedBlob _ _ _) as [b|] eqn:Em; [|done]. intros [= <- <-]. split.
    { intros ->. apply unmarshal_marshal in Em. done. }
    apply unmarshal_marshal in Em. intros w2 Hw2. do 2 eexists. unfold sealer_Unseal. rewrite Em.
    unfold deferred, withSRK, withTransientSRK, unseal_loaded, unseal_in, deferred, bind, call, ret; simpl.
    rewrite Hw2, str_eqb_refl. split; [done|by left].
Qed.
End MemTpm.

Import MemTpm.

Definition boot : tpm := mkTpm #"boot" None.

Definition sample_blob : gostr :=
  Eval vm_compute in match (WrapAEAD (W := tpm) #"key" boot).2 with Some (Ok b) => b | _ => [] end.

Lemma UnwrapAEAD_WrapAEAD_witness :
  WrapAEAD #"key" boot = (boot, Some (Ok sample_blob)) /\
  exists w3 r, UnwrapAEAD sample_blob boot = (w3, Some r) /\ (r = Ok #"key" \/ exists e, r = Err e).
Proof.
  assert (E : WrapAEAD #"key" boot = (boot, Some (Ok sample_blob))) by (vm_compute; reflexivity).
  split; [exact E|]. exact (UnwrapAEAD_WrapAEAD same_boot #"key" sample_blob boot boot boot E eq_refl).
Defined.
