(* ===== verification/HostExec.v ===== *)
(** * internal/host/exec

    The only place where the control plane runs host commands.  A run is
    an operation on the state of the host; what matters of a failure is its
    exit code and what the command printed on its standard error. *)

From S2P Require Import Prelude GoStrings SortLib Effects.

Record HostError := mkHostError { heBin : gostr; heExitCode : Z; heStderr : gostr; heCause : gostr }.

Class HostExec (W : Type) := {
  (** Run: a command and its standard output *)
  Run : gostr -> list gostr -> W -> W * res HostError gostr;
  (** RunStdin: the same with a payload on the standard input *)
  RunStdin : gostr -> option gostr -> list gostr -> W -> W * res HostError gostr;
  (** RunStream: an input stream and whether the output is read *)
  RunStream : gostr -> option gostr -> bool -> list gostr -> W -> W * option HostError }.

Definition print_int (n : Z) : gostr := if n <? 0 then "-"%char :: print_uint (- n) else print_uint n.

(** HostError.Error. *)
Definition HostError_Error (e : HostError) : gostr :=
  if heExitCode e =? 0 then #"exec " ++ heBin e ++ #": " ++ heCause e
  else #"exec " ++ heBin e ++ #" exit=" ++ print_int (heExitCode e) ++ #": " ++ trim_space (heStderr e).

(** errors.As to a *HostError whose standard error contains a text. *)
Definition stderr_says (text : gostr) (e : HostError) : bool := contains (heStderr e) text.

(** The keys of a Go map, sorted. *)
Definition sorted_keys {A} (m : gmap gostr A) : list gostr := stable_sort str_ltb (elements (dom m)).

Definition prop_value (m : gmap gostr gostr) (k : gostr) : gostr := default [] (m !! k).

(** A flag that is present or not. *)
Definition flag (b : bool) (f : gostr) : list gostr := if b then [f] else [].

(** * How a host command reads its arguments

    The reading of getopt(3), which the zfs and zpool commands use: flags,
    options that take the next argument, and operands, which may come in
    any order.  An argument that starts with a dash and is neither a known
    flag nor a known option ends the reading with an error.  It is the
    measure for the argument vectors of the managers: a caller's string
    that is not where it belongs is read as something else. *)

From S2P Require Import Prelude GoStrings ZfsNames ZfsNamesCorrect.
Import Names.

Record reading := mkReading {
  rdFlags : list gostr; rdOptions : list (gostr * gostr); rdOperands : list gostr }.

Section Getopt.
Context (flags options : list gostr).

Fixpoint getopt (args : list gostr) : option reading :=
  match args with
  | [] => Some (mkReading [] [] [])
  | a :: rest =>
      if existsb (str_eqb a) options then
        match rest with
        | [] => None
        | v :: rest' =>
            r ← getopt rest'; Some (mkReading (rdFlags r) ((a, v) :: rdOptions r) (rdOperands r))
        end
      else if existsb (str_eqb a) flags then
        r ← getopt rest; Some (mkReading (a :: rdFlags r) (rdOptions r) (rdOperands r))
      else if has_prefix a #"-" then None
      else r ← getopt rest; Some (mkReading (rdFlags r) (rdOptions r) (a :: rdOperands r))
  end.

(** Options are dashed. *)
Definition dashed (l : list gostr) : Prop := Forall (fun a => has_prefix a #"-" = true) l.

Context (Hf : dashed flags) (Ho : dashed options) (Hdis : forall a, a ∈ flags -> a ∉ options).

Lemma existsb_false (a : gostr) l : a ∉ l -> existsb (str_eqb a) l = false.
Proof. intros Ha. destruct (existsb _ l) eqn:E; [|done]. by apply existsb_str in E. Qed.

Lemma not_option_prefix a : not_option a -> has_prefix a #"-" = false.
Proof. intros (c & r & -> & Hc). rewrite has_dash_prefix. by apply ch_eqb_neq. Qed.

Lemma not_option_not_in a l : dashed l -> not_option a -> a ∉ l.
Proof.
  intros Hl Ha Hin. apply not_option_prefix in Ha. unfold dashed in Hl. rewrite Forall_forall in Hl.
  specialize (Hl a Hin). congruence.
Qed.

Lemma getopt_operand a rest : not_option a ->
  getopt (a :: rest) = r ← getopt rest; Some (mkReading (rdFlags r) (rdOptions r) (a :: rdOperands r)).
Proof.
  intros Ha. cbn [getopt]. rewrite !existsb_false by (by apply not_option_not_in).
  by rewrite not_option_prefix.
Qed.

Lemma getopt_operands l : Forall not_option l -> getopt l = Some (mkReading [] [] l).
Proof.
  induction l as [|a l IH]; intros Hl; [done|]. apply Forall_cons in Hl as [Ha Hl].
  rewrite getopt_operand by done. by rewrite IH.
Qed.

Lemma getopt_flags l rest : Forall (.∈ flags) l ->
  getopt (l ++ rest) = r ← getopt rest; Some (mkReading (l ++ rdFlags r) (rdOptions r) (rdOperands r)).
Proof.
  induction l as [|a l IH]; intros Hl; [simpl; destruct (getopt rest) as [[]|]; reflexivity|].
  apply Forall_cons in Hl as [Ha Hl]. cbn [app getopt].
  rewrite existsb_false by (by apply Hdis). rewrite (proj2 (existsb_str a flags)) by done.
  rewrite IH by done. destruct (getopt rest); reflexivity.
Qed.

Lemma getopt_option a v rest : a ∈ options ->
  getopt ([a; v] ++ rest) = r ← getopt rest; Some (mkReading (rdFlags r) ((a, v) :: rdOptions r) (rdOperands r)).
Proof. intros Ha. cbn [app getopt]. by rewrite (proj2 (existsb_str a options)). Qed.

Lemma getopt_options a vs rest : a ∈ options ->
  getopt (concat (map (fun v => [a; v]) vs) ++ rest) =
  r ← getopt rest; Some (mkReading (rdFlags r) (map (pair a) vs ++ rdOptions r) (rdOperands r)).
Proof.
  intros Ha. induction vs as [|v vs IH]; [simpl; destruct (getopt rest) as [[]|]; reflexivity|].
  change (concat (map (fun v => [a; v]) (v :: vs)) ++ rest) with ([a; v] ++ concat (map (fun v => [a; v]) vs) ++ rest).
  rewrite getopt_option, IH by done. destruct (getopt rest); reflexivity.
Qed.

(** Flags, then options, then operands. *)
Lemma getopt_laid_out fl opts ops :
  Forall (.∈ flags) fl -> Forall (fun av => av.1 ∈ options) opts -> Forall not_option ops ->
  getopt (fl ++ concat (map (fun av => [av.1; av.2]) opts) ++ ops) = Some (mkReading fl opts ops).
Proof.
  intros Hfl Hopts Hops. rewrite getopt_flags by done.
  assert (getopt (concat (map (fun av => [av.1; av.2]) opts) ++ ops) = Some (mkReading [] opts ops)) as ->.
  { induction Hopts as [|[a v] opts Ha Hopts IH]; [by apply getopt_operands|]. cbn [map concat].
    rewrite <- app_assoc, getopt_option by done. by rewrite IH. }
  simpl. by rewrite app_nil_r.
Qed.
End Getopt.

Lemma valid_dataset_not_option s : valid_dataset s -> not_option s.
Proof.
  intros (_ & pool & rest & -> & (_ & _ & _ & c & r & -> & Hc) & _).
  exists c. destruct rest; simpl; eexists; (split; [done|]); intros ->; discriminate.
Qed.

Lemma valid_pool_not_option s : valid_pool s -> not_option s.
Proof. intros (_ & _ & _ & c & r & -> & Hc). exists c, r. split; [done|]. intros ->. discriminate. Qed.

Lemma snapshot_name_ok s : ValidateSnapshotName s = Ok tt -> not_option s.
Proof. intros Hs. apply valid_snapshot_not_option. by apply snapshot_grammar. Qed.

Lemma dataset_name_ok s : ValidateDatasetName s = Ok tt -> not_option s.
Proof. intros Hs. apply valid_dataset_not_option. by apply ValidateDatasetName_iff. Qed.

Lemma pool_name_ok s : ValidatePoolName s = Ok tt -> not_option s.
Proof. intros Hs. apply valid_pool_not_option. by apply ValidatePoolName_iff. Qed.
