(* ===== verification/Secrets.v ===== *)
(** * internal/host/secrets

    The grammar of keys (secrets.go), the file backend with its sealed
    data-encryption key (file.go) and the OpenBao backend (bao.go), both as
    implementations of the interface [SecretsManager].  The disk, the
    sealer, the source of randomness, AES-GCM and the HTTP client are
    interfaces; the JSON codecs are parameters.  Contexts are taken to be
    live, file modes are left out, and the mutex around the cached key is
    left out as well: a call is one computation here. *)

From S2P Require Import Prelude GoStrings GoPath SortLib Effects GoBase64 Tpm.
Import TpmM.

Module SecretsM.

Inductive key_err :=
| EmptyKey | NulByte | LeadingSlash | TrailingSlash | EmptySegment | Traversal | BadChar.

Inductive secret_err :=
| BadKey (e : key_err)
| ErrNotFound
| ReadErr | MkdirErr | WriteErr | DeleteErr | ListErr
| DekRead | DekUnseal | DekSize (n : nat) | DekRand | DekSeal
| EncryptErr | CipherShort | DecryptErr
| RequestErr | Status (code : Z) | DecodeErr | NoValue | BadBase64 | EncodeErr.

(** Manager, the interface of both backends; the constructors are the
    Go methods. *)
Class SecretsManager (W : Type) := {
  Get : gostr -> M W (res secret_err gostr);
  Set_ : gostr -> gostr -> M W (option secret_err);
  Delete : gostr -> M W (option secret_err);
  List_ : gostr -> M W (res secret_err (list gostr)) }.

(** ** Keys *)

Definition key_char (c : ascii) : bool :=
  is_lower c || is_upper c || is_digit c || ch_eqb c "-"%char || ch_eqb c "_"%char.

Definition nul : ascii := byte_of 0.

Fixpoint check_segments (segs : list gostr) : res key_err unit :=
  match segs with
  | [] => Ok tt
  | seg :: segs' =>
      ensure negb (str_eqb seg []) else EmptySegment ;;
      ensure negb (str_eqb seg dotdot || str_eqb seg dot) else Traversal ;;
      ensure forallb key_char seg else BadChar ;;
      check_segments segs'
  end.

Definition has_suffix (s p : gostr) : bool := has_prefix (rev s) (rev p).

Definition validateKey (key : gostr) : res key_err unit :=
  ensure negb (str_eqb key []) else EmptyKey ;;
  ensure negb (contains_byte nul key) else NulByte ;;
  ensure negb (has_prefix key #"/") else LeadingSlash ;;
  ensure negb (has_suffix key #"/") else TrailingSlash ;;
  check_segments (split_on "/"%char key).

Definition validatePrefix (prefix : gostr) : res key_err unit :=
  if str_eqb prefix [] then Ok tt
  else
    ensure negb (contains_byte nul prefix) else NulByte ;;
    ensure negb (has_prefix prefix #"/") else LeadingSlash ;;
    let trimmed := trim_right_byte "/"%char prefix in
    if str_eqb trimmed [] then Ok tt else check_segments (split_on "/"%char trimmed).

(** ** AES-GCM *)

Section Crypto.
Context {W : Type} `{Rand W, Aead}.

Definition encrypt (key plaintext : gostr) : M W (option gostr) :=
  if negb (aes_ok key) then ret None
  else
    let! nonce := call (rand_Read gcmNonceSize) in
    ret (n ← nonce; Some (n ++ gcm_Seal key n plaintext)).

Definition decrypt (key blob : gostr) : res secret_err gostr :=
  ensure negb (length blob <? gcmNonceSize + 16)%nat else CipherShort ;;
  ensure aes_ok key else EncryptErr ;;
  match gcm_Open key (firstn gcmNonceSize blob) (skipn gcmNonceSize blob) with
  | None => Err DecryptErr
  | Some pt => Ok pt
  end.
End Crypto.

(** ** The file backend *)

Inductive read_result := ROk (data : gostr) | RNotExist | RErr.
Inductive remove_result := RmOk | RmNotExist | RmErr.

Class SecretDisk (W : Type) := {
  ReadFile : gostr -> W -> W * read_result;
  MkdirAll : gostr -> W -> W * bool;
  (** os.CreateTemp(dir, ".tmp-*"): the name of the new file *)
  CreateTemp : gostr -> W -> W * option gostr;
  Chmod : gostr -> W -> W * bool;
  WriteTemp : gostr -> gostr -> W -> W * bool;
  CloseTemp : gostr -> W -> W * bool;
  Rename : gostr -> gostr -> W -> W * bool;
  Remove : gostr -> W -> W * remove_result;
  (** the paths below a directory in the order of filepath.WalkDir, with
      whether they are directories *)
  WalkDir : gostr -> W -> W * option (list (gostr * bool)) }.

Definition dekFile : gostr := #".dek.sealed".
Definition dekSize : nat := 32.

Record FileBackend := mkFileBackend { Root : gostr; hasSealer : bool }.

(** The cached data-encryption key, whether loading it was tried, and the
    host. *)
Record FB (W : Type) := mkFB { dek : option gostr; loaded : bool; host : W }.
Arguments mkFB {W} _ _ _.
Arguments dek {W} _.
Arguments loaded {W} _.
Arguments host {W} _.

Section File.
Context {W : Type} `{SecretDisk W, Rand W, SealUnsealer W, Aead} (f : FileBackend).

Definition on_host {A} (m : M W A) : M (FB W) A :=
  fun s => let '(w, r) := m (host s) in (mkFB (dek s) (loaded s) w, r).
Definition get_fb : M (FB W) (FB W) := fun s => (s, Some s).
Definition put_dek (d : option gostr) : M (FB W) unit :=
  fun s => (mkFB d true (host s), Some tt).

(** NewFileBackend; [None] when the root is empty or cannot be made. *)
Definition NewFileBackend (root : gostr) (sealer : bool) : M W (option (FileBackend)) :=
  if str_eqb root [] then ret None
  else
    let! ok := call (MkdirAll root) in
    ret (if (ok : bool) then Some (mkFileBackend root sealer) else None).

Definition pathFor (key : gostr) : res secret_err gostr :=
  match validateKey key with
  | Err e => Err (BadKey e)
  | Ok _ => Ok (Join [Root f; key])
  end.

Definition dek_path : gostr := Join [Root f; dekFile].

(** Write to a temporary file in the directory, then rename; the deferred
    removal runs in every case. *)
Definition writeFileAtomic (path data : gostr) : M W (option secret_err) :=
  let! tmp := call (CreateTemp (Dir path)) in
  match tmp with
  | None => ret (Some WriteErr)
  | Some tmpName =>
      deferred (let! _ := call (Remove tmpName) in ret tt)
        (let! ok := call (Chmod tmpName) in
         if negb ok then let! _ := call (CloseTemp tmpName) in ret (Some WriteErr)
         else
           let! ok := call (WriteTemp tmpName data) in
           if negb ok then let! _ := call (CloseTemp tmpName) in ret (Some WriteErr)
           else
             let! ok := call (CloseTemp tmpName) in
             if negb ok then ret (Some WriteErr)
             else
               let! ok := call (Rename tmpName path) in
               ret (if (ok : bool) then None else Some WriteErr))
  end.

Definition loadDEK : M (FB W) (res secret_err (option gostr)) :=
  let! s := get_fb in
  if loaded s then ret (Ok (dek s))
  else
    let! sealed := on_host (call (ReadFile dek_path)) in
    match sealed with
    | RNotExist => let! _ := put_dek (dek s) in ret (Ok None)
    | RErr => ret (Err DekRead)
    | ROk sealed =>
        let! d := on_host (Unseal sealed) in
        match d with
        | Err _ => ret (Err DekUnseal)
        | Ok d =>
            if negb (length d =? dekSize)%nat then ret (Err (DekSize (length d)))
            else let! _ := put_dek (Some d) in ret (Ok (Some d))
        end
    end.

(** The part of ensureDEK under the lock. *)
Definition create_dek : M (FB W) (res secret_err gostr) :=
  let! s := get_fb in
  match dek s with
  | Some d => ret (Ok d)
  | None =>
      let! fresh := on_host (call (rand_Read dekSize)) in
      match fresh with
      | None => ret (Err DekRand)
      | Some fresh =>
          let! sealed := on_host (Seal fresh) in
          match sealed with
          | Err _ => ret (Err DekSeal)
          | Ok sealed =>
              let! e := on_host (writeFileAtomic dek_path sealed) in
              match e with
              | Some e => ret (Err e)
              | None => let! _ := put_dek (Some fresh) in ret (Ok fresh)
              end
          end
      end
  end.

Definition ensureDEK : M (FB W) (res secret_err gostr) :=
  let! d := loadDEK in
  match d with
  | Err e => ret (Err e)
  | Ok (Some d) => ret (Ok d)
  | Ok None => create_dek
  end.

Definition file_Get (key : gostr) : M (FB W) (res secret_err gostr) :=
  match pathFor key with
  | Err e => ret (Err e)
  | Ok p =>
      let! data := on_host (call (ReadFile p)) in
      match data with
      | RNotExist => ret (Err ErrNotFound)
      | RErr => ret (Err ReadErr)
      | ROk data =>
          if negb (hasSealer f) then ret (Ok data)
          else
            let! d := loadDEK in
            ret (match d with
                 | Err e => Err e
                 | Ok None => Err ErrNotFound
                 | Ok (Some d) => decrypt d data
                 end)
      end
  end.

Definition file_Set (key value : gostr) : M (FB W) (option secret_err) :=
  match pathFor key with
  | Err e => ret (Some e)
  | Ok p =>
      let! ok := on_host (call (MkdirAll (Dir p))) in
      if negb ok then ret (Some MkdirErr)
      else if negb (hasSealer f) then on_host (writeFileAtomic p value)
      else
        let! d := ensureDEK in
        match d with
        | Err e => ret (Some e)
        | Ok d =>
            let! payload := on_host (encrypt d value) in
            match payload with
            | None => ret (Some EncryptErr)
            | Some payload => on_host (writeFileAtomic p payload)
            end
        end
  end.

(** The removal of parent directories that became empty; [fuel] bounds the
    number of levels. *)
Fixpoint remove_parents (fuel : nat) (dir : gostr) : M W unit :=
  match fuel with
  | O => ret tt
  | S fuel =>
      if negb (str_eqb dir (Root f)) && has_prefix dir (Root f) then
        let! r := call (Remove dir) in
        match r with
        | RmOk => remove_parents fuel (Dir dir)
        | _ => ret tt
        end
      else ret tt
  end.

Definition file_Delete (key : gostr) : M (FB W) (option secret_err) :=
  match pathFor key with
  | Err e => ret (Some e)
  | Ok p =>
      let! r := on_host (call (Remove p)) in
      match r with
      | RmNotExist => ret (Some ErrNotFound)
      | RmErr => ret (Some DeleteErr)
      | RmOk => let! _ := on_host (remove_parents (length p) (Dir p)) in ret None
      end
  end.

(** The base name of a path. *)
Definition Base (p : gostr) : gostr := match cut_last "/"%char p with Some (_, b) => b | None => p end.

(** The visits of WalkDir: hidden files are passed over, and of a hidden
    directory everything below it is. *)
Fixpoint walk_keys (prefix : gostr) (skipped : list gostr) (entries : list (gostr * bool))
  : res secret_err (list gostr) :=
  match entries with
  | [] => Ok []
  | (path, isDir) :: rest =>
      if str_eqb path (Root f) then walk_keys prefix skipped rest
      else if existsb (fun d => has_prefix path (d ++ #"/")) skipped then walk_keys prefix skipped rest
      else if has_prefix (Base path) #"." then
        walk_keys prefix (if isDir then path :: skipped else skipped) rest
      else if isDir then walk_keys prefix skipped rest
      else
        match Rel (Root f) path with
        | None => Err ListErr
        | Some rel =>
            let? ks := walk_keys prefix skipped rest in
            Ok (if str_eqb prefix [] || has_prefix rel prefix then rel :: ks else ks)
        end
  end.

Definition file_List (prefix : gostr) : M (FB W) (res secret_err (list gostr)) :=
  match validatePrefix prefix with
  | Err e => ret (Err (BadKey e))
  | Ok _ =>
      let! es := on_host (call (WalkDir (Root f))) in
      ret (match es with
           | None => Err ListErr
           | Some es =>
               match walk_keys prefix [] es with
               | Err e => Err e
               | Ok keys => Ok (stable_sort str_ltb keys)
               end
           end)
  end.

Definition file_secrets : SecretsManager (FB W) :=
  {| Get := file_Get; Set_ := file_Set; Delete := file_Delete; List_ := file_List |}.
End File.

(** ** The OpenBao backend *)

Inductive Method := GET | POST | DELETE.

(** The HTTP client: the status and the body, [None] for a request that
    could not be made or a body that could not be read. *)
Class BaoHttp (W : Type) := {
  http_Do : Method -> gostr -> list (gostr * gostr) -> option gostr -> W -> W * option (Z * gostr) }.

Record BaoOpts := mkBaoOpts { boAddress : gostr; boToken : gostr; boKVMount : gostr; boNamespace : gostr }.

Record BaoBackend := mkBao { Address : gostr; Token : gostr; KVMount : gostr; Namespace : gostr }.

(** strings.Trim(s, "/"). *)
Definition trim_slashes (s : gostr) : gostr :=
  trim_right_byte "/"%char (rev (trim_right_byte "/"%char (rev s))).

(** [url_Parse] gives the scheme and the host of an address. *)
Definition NewBaoBackend (url_Parse : gostr -> option (gostr * gostr)) (opts : BaoOpts)
  : option BaoBackend :=
  if str_eqb (boAddress opts) [] || str_eqb (boToken opts) [] || str_eqb (boKVMount opts) [] then None
  else
    match url_Parse (boAddress opts) with
    | None => None
    | Some (scheme, host) =>
        if str_eqb scheme [] || str_eqb host [] then None
        else Some (mkBao (trim_right_byte "/"%char (boAddress opts)) (boToken opts)
                     (trim_slashes (boKVMount opts)) (boNamespace opts))
    end.

(** The JSON of the key-value engine: the string fields of a secret, the
    payload of a write, and the names of a listing. *)
Record KvCodec := mkKvCodec {
  dec_read : gostr -> option (list (gostr * gostr));
  enc_write : list (gostr * gostr) -> option gostr;
  dec_list : gostr -> option (list gostr) }.

Definition field (name : gostr) (l : list (gostr * gostr)) : option gostr :=
  snd <$> find (fun kv => str_eqb (fst kv) name) l.

Section Bao.
Context {W : Type} `{BaoHttp W} (cd : KvCodec) (b : BaoBackend).

Definition dataURL (key : gostr) : gostr := Address b ++ #"/v1/" ++ KVMount b ++ #"/data/" ++ key.
Definition metadataURL (key : gostr) : gostr := Address b ++ #"/v1/" ++ KVMount b ++ #"/metadata/" ++ key.

Definition do_ (method : Method) (u : gostr) (body : option gostr) : M W (option (Z * gostr)) :=
  call (http_Do method u
    ([( #"X-Vault-Token", Token b)]
     ++ (if str_eqb (Namespace b) [] then [] else [( #"X-Vault-Namespace", Namespace b)])
     ++ (match body with Some _ => [( #"Content-Type", #"application/json")] | None => [] end)) body).

Definition bao_Get (key : gostr) : M W (res secret_err gostr) :=
  match validateKey key with
  | Err e => ret (Err (BadKey e))
  | Ok _ =>
      let! r := do_ GET (dataURL key) None in
      ret (match r with
           | None => Err RequestErr
           | Some (status, body) =>
               if status =? 200 then
                 match dec_read cd body with
                 | None => Err DecodeErr
                 | Some fields =>
                     match field #"value" fields with
                     | None => Err NoValue
                     | Some enc =>
                         match b64_decode enc with
                         | None => Err BadBase64
                         | Some out => Ok out
                         end
                     end
                 end
               else if status =? 404 then Err ErrNotFound
               else Err (Status status)
           end)
  end.

Definition bao_Set (key value : gostr) : M W (option secret_err) :=
  match validateKey key with
  | Err e => ret (Some (BadKey e))
  | Ok _ =>
      match enc_write cd [( #"value", b64_encode value)] with
      | None => ret (Some EncodeErr)
      | Some body =>
          let! r := do_ POST (dataURL key) (Some body) in
          ret (match r with
               | None => Some RequestErr
               | Some (status, _) =>
                   if negb (status =? 200) && negb (status =? 204) then Some (Status status) else None
               end)
      end
  end.

Definition bao_Delete (key : gostr) : M W (option secret_err) :=
  match validateKey key with
  | Err e => ret (Some (BadKey e))
  | Ok _ =>
      let! r := do_ DELETE (metadataURL key) None in
      ret (match r with
           | None => Some RequestErr
           | Some (status, _) =>
               if (status =? 200) || (status =? 204) then None
               else if status =? 404 then Some ErrNotFound
               else Some (Status status)
           end)
  end.

(** The loop over the names of one listing. *)
Fixpoint list_names (rec : gostr -> M W (res secret_err (list gostr))) (dir prefix : gostr)
    (names : list gostr) : M W (res secret_err (list gostr)) :=
  match names with
  | [] => ret (Ok [])
  | k :: names' =>
      let full := if str_eqb dir [] then k else dir ++ #"/" ++ k in
      let! here :=
        (if has_suffix k #"/" then rec (trim_right_byte "/"%char full)
         else ret (Ok (if str_eqb prefix [] || has_prefix full prefix then [full] else []))) in
      match here with
      | Err e => ret (Err e)
      | Ok here =>
          let! rest := list_names rec dir prefix names' in
          ret (match rest with Err e => Err e | Ok rest => Ok (here ++ rest) end)
      end
  end.

(** [fuel] bounds the depth of the tree; a deeper one does not return. *)
Fixpoint listRecursive (fuel : nat) (dir prefix : gostr) : M W (res secret_err (list gostr)) :=
  match fuel with
  | O => hang
  | S fuel =>
      let u := metadataURL dir in
      let u := (if has_suffix u #"/" then u else u ++ #"/") ++ #"?list=true" in
      let! r := do_ GET u None in
      match r with
      | None => ret (Err RequestErr)
      | Some (status, body) =>
          if status =? 200 then
            match dec_list cd body with
            | None => ret (Err DecodeErr)
            | Some names => list_names (fun d => listRecursive fuel d prefix) dir prefix names
            end
          else if status =? 404 then ret (Ok [])
          else ret (Err (Status status))
      end
  end.

(** The directory a listing starts from. *)
Definition start_dir (prefix : gostr) : gostr :=
  if str_eqb prefix [] then []
  else if has_suffix prefix #"/" then trim_right_byte "/"%char prefix
  else match cut_last "/"%char prefix with Some (d, _) => d | None => [] end.

Definition bao_List (fuel : nat) (prefix : gostr) : M W (res secret_err (list gostr)) :=
  match validatePrefix prefix with
  | Err e => ret (Err (BadKey e))
  | Ok _ =>
      let! r := listRecursive fuel (start_dir prefix) prefix in
      ret (match r with Err e => Err e | Ok out => Ok (stable_sort str_ltb out) end)
  end.

Definition bao_secrets (fuel : nat) : SecretsManager W :=
  {| Get := bao_Get; Set_ := bao_Set; Delete := bao_Delete; List_ := bao_List fuel |}.
End Bao.

(** ** FromEnv *)

(** What the environment selects. *)
Inductive backend_choice := ChooseFile (root : gostr) (seal : bool) | ChooseBao (opts : BaoOpts).

(** strconv.ParseBool. *)
Definition ParseBool (s : gostr) : option bool :=
  if existsb (str_eqb s) [ #"1"; #"t"; #"T"; #"TRUE"; #"true"; #"True"] then Some true
  else if existsb (str_eqb s) [ #"0"; #"f"; #"F"; #"FALSE"; #"false"; #"False"] then Some false
  else None.

Inductive env_err :=
| UnknownBackend | BadSealFlag | NoFactory | NoAddress | TokenFile | NoToken.

Definition firstNonEmpty (vals : list gostr) : gostr :=
  match find (fun v => negb (str_eqb v [])) vals with Some v => v | None => [] end.

(** strings.ToLower as far as it matters for the names of the backends:
    ASCII letters, and the dotted capital I (the bytes C4 B0), whose lower
    case is i; the lower case of no other rune has a letter of those
    names. *)
Fixpoint lower_name (s : gostr) : gostr :=
  match s with
  | [] => []
  | a :: s' =>
      match s' with
      | b :: r =>
          if ch_eqb a (byte_of 196) && ch_eqb b (byte_of 176) then "i"%char :: lower_name r
          else to_lower_byte a :: lower_name s'
      | [] => [to_lower_byte a]
      end
  end.

Section Env.
Context (getenv : gostr -> gostr) (read_file : gostr -> option gostr) (factory : bool).

Definition fileFromEnv : res env_err backend_choice :=
  let root := getenv #"SECRETS_FILE_ROOT" in
  let root := if str_eqb root [] then #"/etc/nova-nas/secrets" else root in
  let v := getenv #"SECRETS_FILE_TPM_SEAL" in
  if str_eqb v [] then Ok (ChooseFile root false)
  else
    match ParseBool v with
    | None => Err BadSealFlag
    | Some true => if factory then Ok (ChooseFile root true) else Err NoFactory
    | Some false => Ok (ChooseFile root false)
    end.

Definition baoFromEnv : res env_err backend_choice :=
  let addr := firstNonEmpty [getenv #"BAO_ADDR"; getenv #"VAULT_ADDR"] in
  if str_eqb addr [] then Err NoAddress
  else
    let token := firstNonEmpty [getenv #"BAO_TOKEN"; getenv #"VAULT_TOKEN"] in
    let? token :=
      (if str_eqb token [] then
         let tf := getenv #"BAO_TOKEN_FILE" in
         if str_eqb tf [] then Ok token
         else match read_file tf with
              | None => Err TokenFile
              | Some body => Ok (trim_space body)
              end
       else Ok token) in
    if str_eqb token [] then Err NoToken
    else
      let mount := getenv #"BAO_KV_MOUNT" in
      let mount := if str_eqb mount [] then #"secret" else mount in
      Ok (ChooseBao (mkBaoOpts addr token mount (getenv #"BAO_NAMESPACE"))).

Definition FromEnv : res env_err backend_choice :=
  let backend := lower_name (trim_space (getenv #"SECRETS_BACKEND")) in
  let backend := if str_eqb backend [] then #"file" else backend in
  if str_eqb backend #"file" then fileFromEnv
  else if str_eqb backend #"bao" then baoFromEnv
  else Err UnknownBackend.
End Env.
End SecretsM.
