(* ===== verification/SecretsCorrect.v ===== *)
(** * The secret store

    What a client may rely on ([SecretsLaws]) and that the file backend
    provides it over a disk that renames atomically: reading returns what
    was stored, writing stores or changes nothing, deleting removes, and
    no call touches another secret.  The grammar of keys keeps every
    secret below the root. *)

From S2P Require Import Prelude GoStrings GoPath SortLib Effects GoBase64 Tpm Secrets.
Import TpmM SecretsM.

#[local] Arguments str : simpl never.

(** ** The interface *)

(** [Inv] holds of every state a client sees; [stored w k v] says that
    [k] has the value [v]. *)
Class SecretsLaws {W} (m : SecretsManager W) (Inv : W -> Prop) (stored : W -> gostr -> gostr -> Prop) := {
  stored_unique w k v v' : Inv w -> stored w k v -> stored w k v' -> v = v';
  get_law k w w' r : Inv w -> Get k w = (w', Some r) ->
    Inv w' /\ (forall k' v', stored w k' v' -> stored w' k' v') /\
    match r with
    | Ok v => stored w k v
    | Err ErrNotFound => forall v, ~ stored w k v
    | Err _ => True
    end;
  set_law k v w w' r : Inv w -> Set_ k v w = (w', Some r) ->
    Inv w' /\ (forall k' v', k' <> k -> stored w k' v' -> stored w' k' v') /\
    match r with
    | None => stored w' k v
    | Some _ => forall v', stored w k v' -> stored w' k v' \/ stored w' k v
    end;
  delete_law k w w' r : Inv w -> Delete k w = (w', Some r) ->
    Inv w' /\ (forall k' v', k' <> k -> stored w k' v' -> stored w' k' v') /\
    match r with
    | None => forall v, ~ stored w' k v
    | Some _ => forall v, stored w k v -> stored w' k v \/ forall v', ~ stored w' k v'
    end }.

(** ** Keys *)

Definition key_seg (s : gostr) : Prop := s <> [] /\ Forall (fun c => key_char c = true) s.

Lemma check_segments_ok segs : check_segments segs = Ok tt -> Forall key_seg segs.
Proof.
  induction segs as [|s segs IH]; simpl; [constructor|].
  destruct (str_eqb s []) eqn:E0; [done|]. apply str_eqb_neq in E0. cbn [negb].
  destruct (str_eqb s dotdot || str_eqb s dot); [done|]. cbn [negb].
  destruct (forallb key_char s) eqn:Ef; [|done]. intros H. constructor; [|by apply IH].
  split; [done|]. rewrite forallb_forall in Ef. apply Forall_forall. intros c Hc. apply Ef. by apply list_elem_of_In.
Qed.

Lemma key_seg_head s : key_seg s -> exists c r, s = c :: r /\ c <> "."%char.
Proof.
  intros [Hne Hall]. destruct s as [|c r]; [done|]. exists c, r. split; [done|].
  apply Forall_cons in Hall as [Hc _]. intros ->. done.
Qed.

Lemma key_seg_plain s : key_seg s -> plain_seg s.
Proof.
  intros Hs. destruct (key_seg_head s Hs) as (c & r & -> & Hd). destruct Hs as [_ Hall].
  split_and!; [done| | |]; try (intros [= -> _]; done).
  intros Hin. rewrite Forall_forall in Hall. specialize (Hall _ Hin). done.
Qed.

Lemma validateKey_segs k : validateKey k = Ok tt -> k <> [] /\ Forall key_seg (split_on "/"%char k).
Proof.
  unfold validateKey. destruct (str_eqb k []) eqn:E; [done|]. apply str_eqb_neq in E. cbn [negb].
  destruct (contains_byte nul k); [done|]. destruct (has_prefix k _); [done|]. destruct (has_suffix k _); [done|].
  cbn [negb]. intros H. split; [done|by apply check_segments_ok].
Qed.

Lemma split_on_ne c s : split_on c s <> [].
Proof. destruct (split_on_cons c s) as (w & ws & ->). done. Qed.

Section Paths.
Context (f : FileBackend) (Hroot : is_rooted (Root f) = true).

Lemma key_path k : validateKey k = Ok tt ->
  Join [Root f; k] = render true (clean_segs (Root f) ++ split_on "/"%char k).
Proof.
  intros Hk. apply validateKey_segs in Hk as [_ Hs].
  rewrite <- (join_split "/"%char k) at 1. apply Join_segs; [done|apply split_on_ne|].
  eapply Forall_impl; [exact Hs|apply key_seg_plain].
Qed.

Lemma root_plain : Forall plain_seg (clean_segs (Root f)).
Proof. by apply clean_segs_plain. Qed.

Lemma below_inj s t : Forall plain_seg s -> Forall plain_seg t ->
  render true (clean_segs (Root f) ++ s) = render true (clean_segs (Root f) ++ t) -> s = t.
Proof.
  intros Hs Ht E. apply render_inj in E; [by simplify_list_eq|by apply Forall_app; split; [apply root_plain|]..].
Qed.

Lemma key_path_inj k k' : validateKey k = Ok tt -> validateKey k' = Ok tt ->
  Join [Root f; k] = Join [Root f; k'] -> k = k'.
Proof.
  intros Hk Hk'. rewrite !key_path by done. intros E.
  rewrite <- (join_split "/"%char k), <- (join_split "/"%char k'). f_equal.
  apply below_inj; [..|exact E];
    (eapply Forall_impl; [by apply validateKey_segs|apply key_seg_plain]).
Qed.

Lemma dek_path_eq : dek_path f = render true (clean_segs (Root f) ++ [dekFile]).
Proof.
  unfold dek_path. change dekFile with (join_with "/"%char [dekFile]) at 1. apply Join_segs; [done|done|].
  repeat constructor; try done. cbn. set_solver.
Qed.

(** Temporary files are recognised by their name. *)
Definition is_temp (p : gostr) : Prop := has_prefix (Base p) #".tmp-" = true.

Lemma Base_render l x : "/"%char ∉ x -> Base (render true (l ++ [x])) = x.
Proof.
  intros Hx. unfold Base, render.
  assert (exists d, "/"%char :: join_with "/"%char (l ++ [x]) = d ++ "/"%char :: x) as (d & ->).
  { destruct (decide (l = [])) as [->|Hne]; [by exists []|].
    rewrite join_with_snoc by done. by exists ("/"%char :: join_with "/"%char l). }
  by rewrite (proj2 (cut_last_Some "/"%char _ d x)).
Qed.

Lemma key_not_temp k : validateKey k = Ok tt -> ~ is_temp (Join [Root f; k]).
Proof.
  intros Hk. rewrite key_path by done. apply validateKey_segs in Hk as [_ Hs].
  destruct (exists_last (split_on_ne "/"%char k)) as (l & x & E). rewrite E in *. rewrite app_assoc.
  apply Forall_app in Hs as [_ Hs]. apply Forall_cons in Hs as [Hx _]. unfold is_temp.
  destruct (key_seg_plain x Hx) as (_ & _ & _ & Hsl). rewrite Base_render by done.
  destruct (key_seg_head x Hx) as (c & r & -> & Hc). rewrite has_prefix_iff. intros [q [= -> _]]. done.
Qed.

Lemma dek_not_temp : ~ is_temp (dek_path f).
Proof. rewrite dek_path_eq. unfold is_temp. rewrite Base_render; [by vm_compute|]. by vm_compute; set_solver. Qed.

Lemma key_not_dek k : validateKey k = Ok tt -> Join [Root f; k] <> dek_path f.
Proof.
  intros Hk E. rewrite key_path, dek_path_eq in E by done. apply validateKey_segs in Hk as [_ Hs].
  apply below_inj in E.
  - rewrite E in Hs. apply Forall_cons in Hs as [Hd _]. destruct (key_seg_head _ Hd) as (c & r & Ed & Hc). by injection Ed as <- _.
  - eapply Forall_impl; [exact Hs|apply key_seg_plain].
  - repeat constructor; try done. vm_compute. set_solver.
Qed.
End Paths.

(** ** What is relied on about the disk and the sealer *)

(** [files] are the regular files; [unseals b d] says that the sealed
    blob [b] holds [d] on this platform.  Nothing is said about when calls
    fail, except that a failed rename or removal changes nothing. *)
Class DiskLaws {W} `{SecretDisk W, Rand W, SealUnsealer W} (files : W -> gmap gostr gostr)
    (unseals : gostr -> gostr -> Prop) := {
  read_law p w w' r : ReadFile p w = (w', r) -> files w' = files w /\
    match r with
    | ROk d => files w !! p = Some d
    | RNotExist => files w !! p = None
    | RErr => True
    end;
  mkdir_law d w : files (MkdirAll d w).1 = files w;
  temp_law d w w' t : CreateTemp d w = (w', t) ->
    match t with
    | Some t => is_temp t /\ files w' = <[t := []]> (files w)
    | None => files w' = files w
    end;
  chmod_law t w : files (Chmod t w).1 = files w;
  write_law t data w w' ok : WriteTemp t data w = (w', ok) -> exists part,
    files w' = <[t := part]> (files w) /\ (ok = true -> part = data);
  close_law t w : files (CloseTemp t w).1 = files w;
  rename_law a b w w' ok : Rename a b w = (w', ok) ->
    if ok then exists c, files w !! a = Some c /\ files w' = <[b := c]> (delete a (files w))
    else files w' = files w;
  remove_law p w w' r : Remove p w = (w', r) ->
    match r with
    | RmOk => files w' = delete p (files w) /\
        (** what was removed existed, so its parents are directories *)
        forall d q, p = d ++ #"/" ++ q -> files w !! d = None
    | RmNotExist | RmErr => files w' = files w
    end;
  disk_rand_law n w : files (rand_Read n w).1 = files w;
  disk_rand_length n w w' b : rand_Read n w = (w', Some b) -> length b = n;
  seal_law p w w' r : Seal p w = (w', r) -> files w' = files w /\
    match r with Some (Ok b) => unseals b p | _ => True end;
  unseal_law b w w' r : Unseal b w = (w', r) -> files w' = files w /\
    match r with Some (Ok d) => unseals b d | _ => True end;
  unseals_unique b d d' : unseals b d -> unseals b d' -> d = d' }.

(** Opening undoes sealing, and a sealed text carries its 16-byte tag. *)
Class GcmLaws `{Aead} := {
  gcm_open_seal k n p : gcm_Open k n (gcm_Seal k n p) = Some p;
  gcm_tag k n p : length (gcm_Seal k n p) = (length p + 16)%nat }.

Section Atomic.
Context {W : Type} `{SecretDisk W, Rand W, SealUnsealer W, Aead} (files : W -> gmap gostr gostr)
  (unseals : gostr -> gostr -> Prop) `{!DiskLaws files unseals, !GcmLaws}.

(** Up to temporary files. *)
Definition agrees (m m' : gmap gostr gostr) : Prop := forall p, ~ is_temp p -> m !! p = m' !! p.

#[local] Instance agrees_equiv : Equivalence agrees.
Proof.
  split; [by intros m p|by intros m m' E p Hp; rewrite E|].
  intros m1 m2 m3 E1 E2 p Hp. by rewrite E1, E2.
Qed.

Lemma agrees_insert_temp t c m : is_temp t -> agrees (<[t := c]> m) m.
Proof. intros Ht p Hp. apply lookup_insert_ne. by intros ->. Qed.

Lemma agrees_delete_temp t m : is_temp t -> agrees (delete t m) m.
Proof. intros Ht p Hp. apply lookup_delete_ne. by intros ->. Qed.

Lemma agrees_insert p c m m' : agrees m m' -> agrees (<[p := c]> m) (<[p := c]> m').
Proof. intros E q Hq. destruct (decide (p = q)) as [->|]; [by simplify_map_eq|]. rewrite !lookup_insert_ne by done. by apply E. Qed.

Hint Resolve agrees_insert_temp agrees_delete_temp : core.

(** The body of the write, once the temporary file exists: it renames the
    complete data into place or leaves everything as it was. *)
Lemma write_rename path data t w w' r (Ht : is_temp t) (Hp : ~ is_temp path) :
  (let! ok := call (Chmod t) in
   if negb ok then let! _ := call (CloseTemp t) in ret (Some WriteErr)
   else
     let! ok := call (WriteTemp t data) in
     if negb ok then let! _ := call (CloseTemp t) in ret (Some WriteErr)
     else
       let! ok := call (CloseTemp t) in
       if negb ok then ret (Some WriteErr)
       else
         let! ok := call (Rename t path) in
         ret (if (ok : bool) then None else Some WriteErr)) w = (w', Some r) ->
  agrees (files w') (match r with None => <[path := data]> (files w) | Some _ => files w end).
Proof.
  intros E. unfold bind, call, ret in E.
  pose proof (chmod_law t w) as G1. destruct (Chmod t w) as [w1 ok1]; simpl in *. destruct ok1; simpl in E.
  2:{ pose proof (close_law t w1) as G2. destruct (CloseTemp t w1) as [w2 ok2]; simpl in *. simplify_eq. by rewrite G2, G1. }
  destruct (WriteTemp t data w1) as [w2 ok2] eqn:Ew. apply write_law in Ew as (part & Ef & Hd).
  assert (E2 : agrees (files w2) (files w)) by (rewrite Ef, G1; auto).
  destruct ok2; simpl in E.
  2:{ pose proof (close_law t w2) as G3. destruct (CloseTemp t w2) as [w3 ok3]; simpl in *. simplify_eq. by rewrite G3. }
  pose proof (close_law t w2) as G3. destruct (CloseTemp t w2) as [w3 ok3]; simpl in *.
  destruct ok3; simpl in E; [|simplify_eq; by rewrite G3].
  destruct (Rename t path w3) as [w4 ok4] eqn:Er. apply rename_law in Er. destruct ok4; simplify_eq.
  - destruct Er as (c & Hc & ->). rewrite G3, Ef in Hc. simplify_map_eq. rewrite Hd by done. apply agrees_insert.
    transitivity (files w3); [auto|]. by rewrite G3.
  - by rewrite Er, G3.
Qed.

(** Writing is atomic. *)
Lemma write_atomic path data w w' r (Hp : ~ is_temp path) :
  writeFileAtomic path data w = (w', Some r) ->
  agrees (files w') (match r with None => <[path := data]> (files w) | Some _ => files w end).
Proof.
  unfold writeFileAtomic. intros E. run E as w1 t Et. unfold call in Et.
  destruct (CreateTemp (Dir path) w) as [w1' t'] eqn:Ec. injection Et as -> ->. apply temp_law in Ec.
  destruct t as [t|]; [|apply ret_returned in E as [-> ->]; by rewrite Ec].
  destruct Ec as [Ht Ef]. unfold deferred in E. run E as w2 r2 Eb. run E as w3 u Er.
  apply ret_returned in E as [-> ->]. apply write_rename in Eb; [|done..].
  run Er as w4 rm Erm. apply ret_returned in Er as [-> _]. unfold call in Erm.
  destruct (Remove t w2) as [w5 r5] eqn:Ed. injection Erm as -> ->. apply remove_law in Ed.
  assert (E4 : agrees (files w4) (files w2)) by (destruct rm; [destruct Ed as [-> _]; auto|by rewrite Ed..]).
  etransitivity; [exact E4|]. etransitivity; [exact Eb|].
  destruct r2; rewrite Ef; auto. by apply agrees_insert, agrees_insert_temp.
Qed.
End Atomic.

(** ** The file backend keeps secrets *)

Section FileLaws.
Context {W : Type} `{SecretDisk W, Rand W, SealUnsealer W, Aead} (files : W -> gmap gostr gostr)
  (unseals : gostr -> gostr -> Prop) `{!DiskLaws files unseals, !GcmLaws}
  (f : FileBackend) (Hroot : is_rooted (Root f) = true).

(** The key on disk. *)
Definition dek_on (m : gmap gostr gostr) (d : gostr) : Prop :=
  exists b, m !! dek_path f = Some b /\ unseals b d /\ length d = dekSize.

Definition fstored (s : FB W) (k v : gostr) : Prop :=
  validateKey k = Ok tt /\ exists c, files (host s) !! Join [Root f; k] = Some c /\
    if hasSealer f then exists d, dek_on (files (host s)) d /\ decrypt d c = Ok v else v = c.

(** The cached key is the one on disk, and "no key" is remembered only
    when there is none. *)
Definition finv (s : FB W) : Prop :=
  match dek s with
  | Some d => loaded s = true /\ dek_on (files (host s)) d
  | None => loaded s = true -> files (host s) !! dek_path f = None
  end.

Lemma dek_on_agrees m m' d : agrees m m' -> dek_on m d -> dek_on m' d.
Proof. intros E (b & Hb & Hd). exists b. split; [|done]. rewrite <- E; [done|by apply dek_not_temp]. Qed.

Lemma dek_on_unique m d d' : dek_on m d -> dek_on m d' -> d = d'.
Proof. intros (b & Hb & Hd & _) (b' & Hb' & Hd' & _). simplify_eq. by eapply unseals_unique. Qed.

Lemma fstored_agrees s s' k v : agrees (files (host s)) (files (host s')) -> fstored s k v -> fstored s' k v.
Proof.
  intros E (Hk & c & Hc & Hv). split; [done|]. exists c. split.
  - rewrite <- E; [done|by apply key_not_temp].
  - destruct (hasSealer f); [|done]. destruct Hv as (d & Hd & Hv). exists d. split; [by eapply dek_on_agrees|done].
Qed.

Lemma finv_agrees s s' : dek s' = dek s -> loaded s' = loaded s ->
  agrees (files (host s)) (files (host s')) -> finv s -> finv s'.
Proof.
  unfold finv. intros -> -> E. destruct (dek s) as [d|].
  - intros [Hl Hd]. split; [done|by eapply dek_on_agrees].
  - intros Hn Hl. rewrite <- E; [by apply Hn|by apply dek_not_temp].
Qed.

Lemma on_host_run {A} (m : M W A) s s' r : on_host m s = (s', Some r) ->
  dek s' = dek s /\ loaded s' = loaded s /\ m (host s) = (host s', Some r).
Proof. unfold on_host. destruct (m (host s)) as [w [a|]]; [|done]. by intros [= <- <-]. Qed.

Lemma call_returned {A} (g : W -> W * A) w w' r : call g w = (w', Some r) -> g w = (w', r).
Proof. unfold call. destruct (g w). by intros [= <- <-]. Qed.

(** Steps that leave the files alone. *)
Lemma quiet_step s s' : dek s' = dek s -> loaded s' = loaded s -> files (host s') = files (host s) ->
  finv s -> finv s' /\ (forall k v, fstored s k v -> fstored s' k v).
Proof.
  intros Hd Hl Hf Hi. assert (agrees (files (host s)) (files (host s'))) by (by rewrite Hf).
  split; [by eapply finv_agrees|]. intros k v. by apply fstored_agrees.
Qed.

Lemma loadDEK_spec s s' r : finv s -> loadDEK f s = (s', Some r) ->
  finv s' /\ files (host s') = files (host s) /\
  match r with
  | Ok (Some d) => dek s' = Some d
  | Ok None => dek s' = None /\ loaded s' = true
  | Err e => e <> ErrNotFound
  end.
Proof.
  unfold loadDEK. intros Hi E. run E as s0 s1 E0. injection E0 as <- <-.
  destruct (loaded s) eqn:El.
  { apply ret_returned in E as [-> ->]. split_and!; [done|done|]. by destruct (dek s). }
  unfold finv in Hi. destruct (dek s) as [d|] eqn:Ed; [destruct Hi; congruence|].
  run E as s1 rr E1. apply on_host_run in E1 as (Hd1 & Hl1 & E1). apply call_returned, read_law in E1 as [Hf1 Hr].
  destruct rr as [b| |].
  - run E as s2 u E2. apply on_host_run in E2 as (Hd2 & Hl2 & E2). apply unseal_law in E2 as [Hf2 Hu].
    destruct u as [d|e].
    + destruct (Nat.eqb_spec (length d) dekSize); cbn [negb] in E.
      * run E as s3 u3 E3. injection E3 as <- _. apply ret_returned in E as [-> ->].
        split_and!; [|simpl; congruence|done]. split; [done|]. exists b. simpl. rewrite Hf2, Hf1. done.
      * apply ret_returned in E as [-> ->]. split_and!; [|congruence|done].
        unfold finv. rewrite Hd2, Hd1, Ed. rewrite Hl2, Hl1, El. done.
    + apply ret_returned in E as [-> ->]. split_and!; [|congruence|done].
      unfold finv. rewrite Hd2, Hd1, Ed. rewrite Hl2, Hl1, El. done.
  - run E as s2 u E2. injection E2 as <- _. apply ret_returned in E as [-> ->].
    split_and!; [|done|done|done]. intros _. simpl. by rewrite Hf1.
  - apply ret_returned in E as [-> ->]. split_and!; [|done|done].
    unfold finv. rewrite Hd1, Ed, Hl1, El. done.
Qed.

Lemma create_dek_spec s s' r : finv s -> dek s = None -> loaded s = true -> create_dek f s = (s', Some r) ->
  finv s' /\ match r with Ok d => dek s' = Some d | Err _ => True end.
Proof.
  unfold create_dek. intros Hi Hd Hl E. run E as s0 s1 E0. injection E0 as <- <-. rewrite Hd in E.
  run E as s1 fr E1. apply on_host_run in E1 as (Hd1 & Hl1 & E1). apply call_returned in E1.
  assert (Hf1 : files (host s1) = files (host s)).
  { pose proof (disk_rand_law dekSize (host s)) as Hr. by rewrite E1 in Hr. }
  destruct fr as [fresh|].
  2:{ apply ret_returned in E as [-> ->]. split; [|done]. by eapply quiet_step. }
  apply disk_rand_length in E1 as Hlen.
  run E as s2 sl E2. apply on_host_run in E2 as (Hd2 & Hl2 & E2). apply seal_law in E2 as [Hf2 Hu].
  destruct sl as [sealed|e].
  2:{ apply ret_returned in E as [-> ->]. split; [|done]. eapply (quiet_step s); congruence. }
  run E as s3 e E3. apply on_host_run in E3 as (Hd3 & Hl3 & E3).
  apply (write_atomic files unseals) in E3; [|by apply dek_not_temp]. destruct e as [e|].
  - apply ret_returned in E as [-> ->]. split; [|done].
    apply (finv_agrees s); [congruence|congruence| |done]. intros p Hp. rewrite (E3 p Hp). congruence.
  - run E as s4 u E4. injection E4 as <- _. apply ret_returned in E as [-> ->]. split; [|done].
    split; [done|]. exists sealed. simpl. split; [|done]. rewrite E3 by (by apply dek_not_temp). by simplify_map_eq.
Qed.

Lemma ensureDEK_spec s s' r : hasSealer f = true -> finv s -> ensureDEK f s = (s', Some r) ->
  finv s' /\ (forall k v, fstored s k v -> fstored s' k v) /\
  match r with Ok d => dek s' = Some d | Err _ => True end.
Proof.
  intros Hs Hi E. unfold ensureDEK in E. run E as s1 d E1.
  apply loadDEK_spec in E1 as (Hi1 & Hf1 & Hd); [|done].
  assert (Hk : forall k v, fstored s k v -> fstored s1 k v).
  { intros k v. apply fstored_agrees. by rewrite Hf1. }
  destruct d as [[d|]|e]; [by apply ret_returned in E as [-> ->]| |by apply ret_returned in E as [-> ->]].
  destruct Hd as [Hd Hl]. assert (Hno : files (host s1) !! dek_path f = None).
  { unfold finv in Hi1. rewrite Hd in Hi1. by apply Hi1. }
  apply create_dek_spec in E as [Hi2 Hr]; [|done..]. split_and!; [done| |done].
  intros k v Hst. apply Hk in Hst as (_ & c & _ & Hv). rewrite Hs in Hv.
  destruct Hv as (d & (b & Hb & _) & _). congruence.
Qed.

Lemma encrypt_decrypt d v w w' c : encrypt d v w = (w', Some (Some c)) ->
  files w' = files w /\ decrypt d c = Ok v.
Proof.
  unfold encrypt. destruct (aes_ok d) eqn:Ea; [|done]. cbn [negb]. intros E. run E as w1 n E1.
  apply ret_returned in E as [-> E]. apply call_returned in E1.
  destruct n as [n|]; [|done]. injection E as ->. pose proof (disk_rand_law gcmNonceSize w) as Hf.
  rewrite E1 in Hf. split; [done|]. apply disk_rand_length in E1 as Hn. unfold decrypt.
  rewrite length_app, gcm_tag, Hn. replace (_ <? _)%nat with false by (symmetry; apply Nat.ltb_ge; lia).
  cbn [negb]. rewrite Ea, <- Hn, take_app_length, drop_app_length. by rewrite gcm_open_seal.
Qed.

(** One secret's file replaced. *)
Lemma put_file s s' k c : dek s' = dek s -> loaded s' = loaded s -> validateKey k = Ok tt ->
  agrees (files (host s')) (<[Join [Root f; k] := c]> (files (host s))) -> finv s ->
  finv s' /\ (forall k' v', k' <> k -> fstored s k' v' -> fstored s' k' v') /\
  forall v, (if hasSealer f then exists d, dek s = Some d /\ decrypt d c = Ok v else v = c) -> fstored s' k v.
Proof.
  intros Hd Hl Hk E Hi.
  assert (Ed : files (host s') !! dek_path f = files (host s) !! dek_path f).
  { rewrite E by (by apply dek_not_temp). apply lookup_insert_ne. by apply key_not_dek. }
  assert (Hdk : forall d, dek_on (files (host s)) d -> dek_on (files (host s')) d).
  { intros d (b & Hb & Hd'). exists b. by rewrite Ed. }
  split_and!.
  - unfold finv in *. rewrite Hd, Hl. destruct (dek s) as [d|]; [naive_solver|]. by rewrite Ed.
  - intros k' v' Hne (Hk' & c' & Hc' & Hv'). split; [done|]. exists c'. split.
    + rewrite E by (by apply key_not_temp). rewrite lookup_insert_ne; [done|]. intros Ej. apply Hne. symmetry.
      by eapply key_path_inj.
    + destruct (hasSealer f); [|done]. destruct Hv' as (d & Hdd & Hv'). eauto.
  - intros v Hv. split; [done|]. exists c. split; [rewrite E by (by apply key_not_temp); by simplify_map_eq|].
    destruct (hasSealer f); [|done]. destruct Hv as (d & Ed' & Hv). exists d. split; [|done].
    unfold finv in Hi. rewrite Ed' in Hi. by apply Hdk, Hi.
Qed.

Lemma pathFor_cases k : (exists e, pathFor f k = Err (BadKey e)) \/
  (validateKey k = Ok tt /\ pathFor f k = Ok (Join [Root f; k])).
Proof. unfold pathFor. destruct (validateKey k) as [[]|e]; [by right|left; by exists e]. Qed.

(** Writing: all or nothing. *)
Lemma file_Set_spec k v s s' r : finv s -> file_Set f k v s = (s', Some r) ->
  finv s' /\ (forall k' v', k' <> k \/ r <> None -> fstored s k' v' -> fstored s' k' v') /\
  (r = None -> fstored s' k v).
Proof.
  intros Hi E. unfold file_Set in E. destruct (pathFor_cases k) as [[e Ep]|[Hk Ep]]; rewrite Ep in E.
  { by apply ret_returned in E as [-> ->]. }
  run E as s1 ok E1. apply on_host_run in E1 as (Hd1 & Hl1 & E1). apply call_returned in E1.
  assert (Hf1 : files (host s1) = files (host s)).
  { pose proof (mkdir_law (Dir (Join [Root f; k])) (host s)) as Hm. by rewrite E1 in Hm. }
  destruct (quiet_step s s1 Hd1 Hl1 Hf1 Hi) as [Hi1 Hk1].
  destruct ok; cbn [negb] in E; [|by apply ret_returned in E as [-> ->]; split_and!; [done|naive_solver|done]].
  assert (Hfin : forall s2 c, finv s2 -> (forall k v, fstored s k v -> fstored s2 k v) ->
    (if hasSealer f then exists d, dek s2 = Some d /\ decrypt d c = Ok v else v = c) ->
    on_host (writeFileAtomic (Join [Root f; k]) c) s2 = (s', Some r) ->
    finv s' /\ (forall k' v', k' <> k \/ r <> None -> fstored s k' v' -> fstored s' k' v') /\
    (r = None -> fstored s' k v)).
  { intros s2 c Hi2 Hk2 Hc E2. apply on_host_run in E2 as (Hd3 & Hl3 & E3).
    apply (write_atomic files unseals) in E3; [|by apply key_not_temp]. destruct r as [e|].
    - assert (agrees (files (host s2)) (files (host s'))) as Ea by (intros p Hp; symmetry; by apply E3).
      split_and!; [by apply (finv_agrees s2)| |done]. intros k' v' _ Hst. by eapply fstored_agrees, Hk2.
    - destruct (put_file s2 s' k c Hd3 Hl3 Hk E3 Hi2) as (Ha & Hb & Hc').
      split_and!; [done| |by intros _; apply Hc']. intros k' v' [Hne|] Hst; [by apply Hb, Hk2|done]. }
  destruct (hasSealer f) eqn:Hs; cbn [negb] in E; [|by apply (Hfin s1 v)].
  run E as s2 d E2. apply ensureDEK_spec in E2 as (Hi2 & Hk2 & Hd2); [|done..].
  destruct d as [d|e]; [|by apply ret_returned in E as [-> ->]; split_and!; [done|naive_solver|done]].
  run E as s3 pl E3. apply on_host_run in E3 as (Hd3 & Hl3 & E3).
  assert (Hf3 : files (host s3) = files (host s2)).
  { unfold encrypt in E3. destruct (negb _); [by apply ret_returned in E3 as [-> _]|]. run E3 as w n En.
    apply ret_returned in E3 as [-> _]. apply call_returned in En.
    pose proof (disk_rand_law gcmNonceSize (host s2)) as Hr. by rewrite En in Hr. }
  destruct (quiet_step s2 s3 Hd3 Hl3 Hf3 Hi2) as [Hi3 Hk3].
  destruct pl as [pl|]; [|by apply ret_returned in E as [-> ->]; split_and!; [done|naive_solver|done]].
  apply encrypt_decrypt in E3 as [_ Hdec]. eapply (Hfin s3 pl); [done|naive_solver| |done].
  exists d. split; [congruence|done].
Qed.

Lemma file_Get_spec k s s' r : finv s -> file_Get f k s = (s', Some r) ->
  finv s' /\ (forall k' v', fstored s k' v' -> fstored s' k' v') /\
  match r with
  | Ok v => fstored s k v
  | Err ErrNotFound => forall v, ~ fstored s k v
  | Err _ => True
  end.
Proof.
  intros Hi E. unfold file_Get in E. destruct (pathFor_cases k) as [[e Ep]|[Hk Ep]]; rewrite Ep in E.
  { by apply ret_returned in E as [-> ->]. }
  run E as s1 rr E1. apply on_host_run in E1 as (Hd1 & Hl1 & E1). apply call_returned, read_law in E1 as [Hf1 Hr].
  destruct (quiet_step s s1 Hd1 Hl1 Hf1 Hi) as [Hi1 Hk1]. destruct rr as [c| |].
  2:{ apply ret_returned in E as [-> ->]. split_and!; [done|done|]. intros v (_ & c & Hc & _). congruence. }
  2:{ by apply ret_returned in E as [-> ->]. }
  destruct (hasSealer f) eqn:Hs; cbn [negb] in E.
  - run E as s2 d E2. apply ret_returned in E as [-> ->].
    apply loadDEK_spec in E2 as (Hi2 & Hf2 & Hd); [|done].
    assert (Hdk : forall d, dek_on (files (host s2)) d <-> dek_on (files (host s)) d)
      by (intros; by rewrite Hf2, Hf1).
    split_and!; [done| |].
    { intros k' v' Hst. apply (fstored_agrees s); [|done]. by rewrite Hf2, Hf1. }
    destruct d as [[d|]|e].
    + unfold finv in Hi2. rewrite Hd in Hi2. destruct Hi2 as [_ Hon]. apply Hdk in Hon.
      destruct (decrypt d c) as [v|e] eqn:Edec.
      * split; [done|]. exists c. rewrite Hs. split; [done|]. by exists d.
      * destruct e; try done. unfold decrypt in Edec. by repeat case_match.
    + destruct Hd as [Hd Hl]. unfold finv in Hi2. rewrite Hd in Hi2. specialize (Hi2 Hl).
      intros v (_ & c' & _ & Hv). rewrite Hs in Hv. destruct Hv as (d & (b & Hb & _) & _).
      rewrite Hf2, Hf1 in Hi2. congruence.
    + by destruct e.
  - apply ret_returned in E as [-> ->]. split_and!; [done|done|]. split; [done|]. exists c. by rewrite Hs.
Qed.

(** Removing empty parent directories touches no file. *)
Lemma remove_parents_files n l w w' u : Forall plain_seg l ->
  (l <> [] -> files w !! render true l = None) ->
  remove_parents f n (render true l) w = (w', Some u) -> files w' = files w.
Proof.
  revert l w. induction n as [|n IH]; intros l w Hl Hn E; cbn [remove_parents] in E; [by apply ret_returned in E as [-> _]|].
  destruct (negb _ && has_prefix _ _) eqn:Eg; [|by apply ret_returned in E as [-> _]].
  apply andb_true_iff in Eg as [Hne Hpre]. apply negb_true_iff, str_eqb_neq in Hne.
  run E as w1 r E1. apply call_returned, remove_law in E1.
  destruct r; [|by apply ret_returned in E as [-> _]; rewrite E1..]. destruct E1 as [Ef Hpar].
  assert (Hl0 : l <> []).
  { intros ->. apply has_prefix_iff in Hpre as [q Hq]. destruct (proj1 (is_rooted_iff _) Hroot) as [r' Er].
    rewrite Er in *. cbn in Hq. injection Hq as Hq. symmetry in Hq. by apply app_eq_nil in Hq as [-> _]. }
  specialize (Hn Hl0). rewrite delete_id in Ef by done. rewrite <- Ef.
  destruct (exists_last Hl0) as (l' & x & ->). apply Forall_app in Hl as [Hl' Hx]. apply Forall_cons in Hx as [Hx _].
  rewrite Dir_render in E by done. eapply (IH l'); [done| |done]. intros Hl'0. rewrite Ef.
  apply (Hpar _ x). unfold render. rewrite join_with_snoc by done. done.
Qed.

Lemma file_Delete_spec k s s' r : finv s -> file_Delete f k s = (s', Some r) ->
  finv s' /\ (forall k' v', k' <> k \/ r <> None -> fstored s k' v' -> fstored s' k' v') /\
  (r = None -> forall v, ~ fstored s' k v).
Proof.
  intros Hi E. unfold file_Delete in E. destruct (pathFor_cases k) as [[e Ep]|[Hk Ep]]; rewrite Ep in E.
  { by apply ret_returned in E as [-> ->]. }
  run E as s1 rr E1. apply on_host_run in E1 as (Hd1 & Hl1 & E1). apply call_returned, remove_law in E1.
  destruct rr.
  2-3: apply ret_returned in E as [-> ->]; destruct (quiet_step s s1 Hd1 Hl1 E1 Hi); naive_solver.
  destruct E1 as [Ef Hpar]. run E as s2 u E2. apply ret_returned in E as [-> ->].
  apply on_host_run in E2 as (Hd2 & Hl2 & E2).
  assert (Ef2 : files (host s2) = files (host s1)).
  { revert E2. rewrite key_path in Hpar |- * by done. pose proof (validateKey_segs k Hk) as [_ Hseg].
    destruct (exists_last (split_on_ne "/"%char k)) as (l & x & El). rewrite El in *. rewrite app_assoc in *.
    apply Forall_app in Hseg as [Hl Hx]. apply Forall_cons in Hx as [Hx _].
    assert (Forall plain_seg (clean_segs (Root f) ++ l)) as Hpl.
    { apply Forall_app; split; [by apply root_plain|]. eapply Forall_impl; [exact Hl|apply key_seg_plain]. }
    rewrite Dir_render by (done || by apply key_seg_plain). apply remove_parents_files; [done|].
    intros Hne. rewrite Ef, lookup_delete_ne.
    - apply (Hpar _ x). unfold render. rewrite join_with_snoc by done. done.
    - intros Er. rewrite key_path, El, app_assoc in Er by done. apply render_inj in Er; [|apply Forall_app; split; [done|by repeat constructor; apply key_seg_plain]|done].
      apply (f_equal length) in Er. rewrite length_app in Er. simpl in Er. lia. }
  rewrite Ef in Ef2.
  assert (Ed : files (host s2) !! dek_path f = files (host s) !! dek_path f).
  { rewrite Ef2. apply lookup_delete_ne. by apply key_not_dek. }
  split_and!.
  - unfold finv in *. rewrite Hd2, Hd1, Hl2, Hl1. destruct (dek s) as [d|]; [|by rewrite Ed].
    destruct Hi as [Hl (b & Hb)]. split; [done|]. exists b. by rewrite Ed.
  - intros k' v' [Hne|] (Hk' & c & Hc & Hv); [|done]. split; [done|]. exists c. split.
    + rewrite Ef2, lookup_delete_ne; [done|]. intros Ej. apply Hne. symmetry. by eapply key_path_inj.
    + destruct (hasSealer f); [|done]. destruct Hv as (d & (b & Hb & Hd') & Hv). exists d. split; [|done].
      exists b. by rewrite Ed.
  - intros _ v (_ & c & Hc & _). rewrite Ef2, lookup_delete_eq in Hc. done.
Qed.

(** C18. The file backend is a secret store: over a disk that renames
    atomically and a sealer that unseals what it sealed, it refines the
    interface its clients are proved against, with and without
    encryption. *)
Theorem file_backend_refines : SecretsLaws (file_secrets f) finv fstored.
Proof.
  constructor.
  - intros s k v v' _ (_ & c & Hc & Hv) (_ & c' & Hc' & Hv'). simplify_eq.
    destruct (hasSealer f); [|congruence]. destruct Hv as (d & Hd & Hv), Hv' as (d' & Hd' & Hv').
    rewrite (dek_on_unique _ _ _ Hd Hd') in Hv. congruence.
  - intros k s s' r Hi E. by apply file_Get_spec.
  - intros k v s s' r Hi E. apply file_Set_spec in E as (? & Hk & Hs); [|done].
    split_and!; [done|naive_solver|]. destruct r; [|by apply Hs]. intros v' Hst. left. apply Hk; auto.
  - intros k s s' r Hi E. apply file_Delete_spec in E as (? & Hk & Hd); [|done].
    split_and!; [done|naive_solver|]. destruct r; [|by apply Hd]. intros v Hst. left. apply Hk; auto.
Qed.

(** A write that fails changes no secret, not even the one it was
    for: neither a failed encryption, nor a partial write, nor a failed
    rename can lose the old value. *)
Theorem file_Set_all_or_nothing k v s s' e k' v' (Hi : finv s)
    (E : file_Set f k v s = (s', Some (Some e))) (Hst : fstored s k' v') : fstored s' k' v'.
Proof. apply file_Set_spec in E as (_ & Hk & _); [|done]. apply Hk; auto. Qed.
End FileLaws.

(** * A host in memory for the secret store

    A disk with files and directories, a sealer and a source of
    randomness: an instance of the interfaces of file Secrets that
    satisfies the laws of SecretsCorrect. *)

From S2P Require Import Prelude GoStrings GoPath SortLib Effects GoBase64 Tpm Secrets.
Import TpmM SecretsM.

#[local] Arguments str : simpl never.

Module MemHost.

Record mhost := mkHost { hfiles : gmap gostr gostr; hdirs : gset gostr; hseed : Z }.

Definition set_files (m : gmap gostr gostr) (w : mhost) : mhost := mkHost m (hdirs w) (hseed w).

(** Every [d] with [p = d ++ "/" ++ q]. *)
Fixpoint ancestors (p : gostr) : list gostr :=
  match p with
  | [] => []
  | c :: r => (if ch_eqb c "/"%char then [[]] else []) ++ map (cons c) (ancestors r)
  end.

Definition is_file (w : mhost) (p : gostr) : bool := bool_decide (is_Some (hfiles w !! p)).

(** Some file lies below a path. *)
Definition has_below (w : mhost) (p : gostr) : bool :=
  existsb (fun q => has_prefix q (p ++ #"/")) (elements (dom (hfiles w))).

Definition blocked (w : mhost) (p : gostr) : bool := existsb (is_file w) (ancestors p).

#[export] Instance mem_disk : SecretDisk mhost := {|
  ReadFile := fun p w => (w, match hfiles w !! p with Some d => ROk d | None => RNotExist end);
  MkdirAll := fun d w =>
    if is_file w d || blocked w d then (w, false)
    else (mkHost (hfiles w) ({[d]} ∪ hdirs w) (hseed w), true);
  CreateTemp := fun d w =>
    if is_file w d || blocked w d then (w, None)
    else let t := d ++ #"/.tmp-0" in (set_files (<[t := []]> (hfiles w)) w, Some t);
  Chmod := fun _ w => (w, true);
  WriteTemp := fun t data w => (set_files (<[t := data]> (hfiles w)) w, true);
  CloseTemp := fun _ w => (w, true);
  Rename := fun a b w =>
    match hfiles w !! a with
    | None => (w, false)
    | Some c => if has_below w b then (w, false) else (set_files (<[b := c]> (delete a (hfiles w))) w, true)
    end;
  Remove := fun p w =>
    if blocked w p then (w, RmErr)
    else if is_file w p then (set_files (delete p (hfiles w)) w, RmOk)
    else if bool_decide (p ∈ hdirs w) then
      if has_below w p then (w, RmErr)
      else (mkHost (hfiles w) (hdirs w ∖ {[p]}) (hseed w), RmOk)
    else (w, RmNotExist);
  WalkDir := fun root w =>
    (w, Some (map (fun p => (p, false)) (filter (fun p => has_prefix p (root ++ #"/") = true) (elements (dom (hfiles w)))))) |}.

(** A different byte every time. *)
#[export] Instance host_rand : Rand mhost := {|
  rand_Read := fun n w => (mkHost (hfiles w) (hdirs w) (hseed w + 1), Some (repeat (byte_of (hseed w)) n)) |}.

#[export] Instance host_sealer : SealUnsealer mhost := {|
  Seal := fun p => ret (Ok ("S"%char :: p));
  Unseal := fun b => ret (match strip_prefix ["S"%char] b with Some p => Ok p | None => Err UnsealErr end) |}.

(** The tag is made from the key; not a cipher. *)
Definition tag (k : gostr) : gostr := firstn 16 (k ++ repeat "t"%char 16).

#[export] Instance host_aead : Aead := {|
  gcm_Seal := fun k _ p => tag k ++ p;
  gcm_Open := fun k _ c => strip_prefix (tag k) c |}.

Lemma ancestors_in d q : d ∈ ancestors (d ++ #"/" ++ q).
Proof.
  change #"/" with ["/"%char]. cbn [app]. induction d as [|c d IH]; cbn [app ancestors].
  - rewrite ch_eqb_refl. set_solver.
  - apply elem_of_app. right. apply list_elem_of_In, in_map, list_elem_of_In. exact IH.
Qed.

Lemma not_blocked w d q : blocked w (d ++ #"/" ++ q) = false -> hfiles w !! d = None.
Proof.
  unfold blocked. intros Hb. destruct (hfiles w !! d) as [c|] eqn:E; [|done].
  assert (existsb (is_file w) (ancestors (d ++ #"/" ++ q)) = true); [|congruence].
  apply existsb_exists. exists d. split; [apply list_elem_of_In, ancestors_in|].
  unfold is_file. by rewrite bool_decide_eq_true, E.
Qed.

#[export] Instance host_gcm : GcmLaws.
Proof.
  constructor.
  - intros k n p. apply strip_prefix_app.
  - intros k n p. simpl. rewrite length_app. unfold tag. rewrite length_firstn, length_app, repeat_length. lia.
Qed.

Lemma temp_base d : is_temp (d ++ #"/.tmp-0").
Proof.
  unfold is_temp, Base. change #"/.tmp-0" with ("/"%char :: #".tmp-0").
  rewrite (proj2 (cut_last_Some "/"%char _ d #".tmp-0")); [by vm_compute|]. split; [done|]. vm_compute. set_solver.
Qed.

#[export] Instance host_laws : DiskLaws hfiles (fun b d => b = "S"%char :: d).
Proof.
  constructor.
  - intros p w w' r [= <- <-]. split; [done|]. by destruct (hfiles w !! p).
  - intros d w. simpl. by destruct (is_file w d || blocked w d).
  - intros d w w' t. simpl. destruct (is_file w d || blocked w d); intros [= <- <-]; [done|].
    split; [apply temp_base|done].
  - done.
  - intros t data w w' ok [= <- <-]. by exists data.
  - done.
  - intros a b w w' ok. simpl. destruct (hfiles w !! a) as [c|] eqn:E; [|by intros [= <- <-]].
    destruct (has_below w b); intros [= <- <-]; [done|]. by exists c.
  - intros p w w' r. simpl. destruct (blocked w p) eqn:Eb; [by intros [= <- <-]|].
    assert (Hpar : forall d q, p = d ++ #"/" ++ q -> hfiles w !! d = None).
    { intros d q ->. by eapply not_blocked. }
    destruct (is_file w p) eqn:Ef; [by intros [= <- <-]|]. unfold is_file in Ef.
    rewrite bool_decide_eq_false, <- eq_None_not_Some in Ef.
    case_bool_decide; [|by intros [= <- <-]]. destruct (has_below w p); intros [= <- <-]; [done|].
    split; [simpl; by rewrite delete_id|done].
  - done.
  - intros n w w' b [= <- <-]. apply repeat_length.
  - intros p w w' r [= <- <-]. done.
  - intros b w w' r E.
    change ((w, Some (match strip_prefix ["S"%char] b with Some p => Ok p | None => Err UnsealErr end)) = (w', r)) in E.
    destruct (strip_prefix ["S"%char] b) as [d|] eqn:Es; simplify_eq; [|done].
    by apply strip_prefix_Some in Es.
  - intros b d d' -> [=]. done.
Qed.

Definition backend : FileBackend := mkFileBackend #"/etc/nova-nas/secrets" true.
Definition new_disk : mhost := mkHost ∅ {[ #"/etc/nova-nas/secrets"]} 0.
Definition started (w : mhost) : FB mhost := mkFB None false w.
End MemHost.
Import MemHost.

Lemma file_backend_refines_witness :
  SecretsLaws (file_secrets backend) (finv hfiles (fun b d => b = "S"%char :: d) backend)
    (fstored hfiles (fun b d => b = "S"%char :: d) backend).
Proof. apply (file_backend_refines hfiles (fun b d => b = "S"%char :: d) backend eq_refl). Defined.

(** A full store: [alpha] is set, then a directory takes the place of
    [beta], so that writing [beta] fails. *)
Definition after_alpha : FB mhost :=
  Eval vm_compute in (file_Set backend #"alpha" #"one" (started new_disk)).1.

Definition in_the_way : FB mhost :=
  mkFB (dek after_alpha) (loaded after_alpha)
    (set_files (<[ #"/etc/nova-nas/secrets/beta/x" := []]> (hfiles (host after_alpha))) (host after_alpha)).

Definition after_beta : FB mhost := Eval vm_compute in (file_Set backend #"beta" #"two" in_the_way).1.

Lemma file_Set_all_or_nothing_witness :
  file_Set backend #"beta" #"two" in_the_way = (after_beta, Some (Some WriteErr)) /\
  fstored hfiles (fun b d => b = "S"%char :: d) backend after_beta #"alpha" #"one".
Proof.
  assert (E : file_Set backend #"beta" #"two" in_the_way = (after_beta, Some (Some WriteErr)))
    by (vm_compute; reflexivity).
  assert (Hd : dek_on (fun b d => b = "S"%char :: d) backend (hfiles (host in_the_way)) (repeat (byte_of 0) 32)).
  { eexists. split; [vm_compute; reflexivity|]. split; [vm_compute; reflexivity|reflexivity]. }
  split; [exact E|].
  apply (file_Set_all_or_nothing hfiles (fun b d => b = "S"%char :: d) backend eq_refl
    #"beta" #"two" in_the_way after_beta WriteErr #"alpha" #"one"); [|exact E|].
  - split; [reflexivity|exact Hd].
  - split; [vm_compute; reflexivity|]. eexists. split; [vm_compute; reflexivity|].
    exists (repeat (byte_of 0) 32). split; [exact Hd|vm_compute; reflexivity].
Defined.
