(* ===== verification/ZfsDataset.v ===== *)
(** * internal/host/zfs/dataset: the dataset manager

    dataset.go, parser.go, write.go and dataset_extra.go: the argument
    vectors of every operation, the parsers of listings, properties, diffs
    and bookmarks, and the operations over the host's commands. *)

From S2P Require Import Prelude GoStrings SortLib Effects ZfsNames HostExec.
Import Names.

Module Datasets.

Inductive ds_err :=
| EncryptedSpec | PlainSpec | BadType | BadName (e : name_err) | NeedVolumeSize
| DashName | KindMismatch | IncrementalFrom (e : name_err) | OriginSnapshot (e : name_err)
| FromSnapshot (e : name_err) | ToTarget (e : name_err)
| BookmarkDash | BookmarkForm | BookmarkMany | BookmarkEmpty | BookmarkChar
| OwnedProperty | ErrNotFound | Host (e : HostError)
| BadFieldCount (n : nat) | BadNumber (s : gostr) | LineTooLong | BadDiff.

Record Dataset := mkDataset {
  dName : gostr; dType : gostr; UsedBytes : Z; AvailableBytes : Z; ReferencedBytes : Z;
  Mountpoint : gostr; Compression : gostr; RecordSizeBytes : Z }.

Record Detail := mkDetail { detDataset : Dataset; detProps : gmap gostr gostr }.

Record CreateSpec := mkCreateSpec {
  Parent : gostr; Name : gostr; Type_ : gostr; VolumeSizeBytes : Z;
  Properties : gmap gostr gostr; EncryptionEnabled : bool; EncryptionAlgorithm : gostr }.

Record SendOpts := mkSendOpts {
  Recursive : bool; IncrementalFromSnap : gostr; Raw : bool; Compressed : bool;
  LargeBlock : bool; EmbeddedData : bool }.

Record RecvOpts := mkRecvOpts { Force : bool; Resumable : bool; Origin : gostr }.

Record DatasetDiffEntry := mkDiffEntry { Change : gostr; Path : gostr; NewPath : gostr }.

Record Bookmark := mkBookmark { bmName : gostr; bmCreationUnix : Z }.

Definition named {A} (wrap : name_err -> ds_err) (r : res name_err unit) (k : res ds_err A) : res ds_err A :=
  match r with Ok _ => k | Err e => Err (wrap e) end.

(** ** Argument vectors *)

(** "-o k=v" for every property, in the order of the keys. *)
Definition prop_args (props : gmap gostr gostr) : list gostr :=
  concat (map (fun k => [ #"-o"; k ++ #"=" ++ prop_value props k]) (sorted_keys props)).

Definition valid_type (t : gostr) : bool := str_eqb t #"filesystem" || str_eqb t #"volume".

Definition full_name (spec : CreateSpec) : gostr := Parent spec ++ #"/" ++ Name spec.

(** The part the plain and the encrypted create share: the size of a
    volume and the name. *)
Definition size_args (spec : CreateSpec) (args : list gostr) : res ds_err (list gostr) :=
  if str_eqb (Type_ spec) #"volume" then
    ensure negb (VolumeSizeBytes spec =? 0) else NeedVolumeSize ;;
    Ok (args ++ [ #"-V"; print_uint (VolumeSizeBytes spec); full_name spec])
  else Ok (args ++ [full_name spec]).

Definition buildCreateArgs (spec : CreateSpec) : res ds_err (list gostr) :=
  ensure negb (EncryptionEnabled spec) else EncryptedSpec ;;
  ensure valid_type (Type_ spec) else BadType ;;
  named BadName (ValidateDatasetName (full_name spec))
    (size_args spec ([ #"create"] ++ prop_args (Properties spec))).

Definition buildRenameArgs (oldName newName : gostr) (recursive : bool) : res ds_err (list gostr) :=
  ensure negb (has_prefix oldName #"-" || has_prefix newName #"-") else DashName ;;
  let oldSnap := contains_byte "@"%char oldName in
  let newSnap := contains_byte "@"%char newName in
  ensure Bool.eqb oldSnap newSnap else KindMismatch ;;
  let validate := if oldSnap then ValidateSnapshotName else ValidateDatasetName in
  named BadName (validate oldName) (named BadName (validate newName)
    (Ok ([ #"rename"] ++ flag recursive #"-r" ++ [oldName; newName]))).

Definition buildCloneArgs (snapshot target : gostr) (properties : gmap gostr gostr) : res ds_err (list gostr) :=
  named BadName (ValidateSnapshotName snapshot) (named BadName (ValidateDatasetName target)
    (Ok ([ #"clone"] ++ prop_args properties ++ [snapshot; target]))).

Definition buildPromoteArgs (name : gostr) : res ds_err (list gostr) :=
  named BadName (ValidateDatasetName name) (Ok [ #"promote"; name]).

Definition buildLoadKeyArgs (name keylocation : gostr) (recursive : bool) : res ds_err (list gostr) :=
  named BadName (ValidateDatasetName name)
    (Ok ([ #"load-key"] ++ flag recursive #"-r"
         ++ (if str_eqb keylocation [] then [] else [ #"-L"; keylocation]) ++ [name])).

Definition buildUnloadKeyArgs (name : gostr) (recursive : bool) : res ds_err (list gostr) :=
  named BadName (ValidateDatasetName name) (Ok ([ #"unload-key"] ++ flag recursive #"-r" ++ [name])).

Definition buildChangeKeyArgs (name : gostr) (properties : gmap gostr gostr) : res ds_err (list gostr) :=
  named BadName (ValidateDatasetName name) (Ok ([ #"change-key"] ++ prop_args properties ++ [name])).

Definition buildSendArgs (snapshot : gostr) (opts : SendOpts) : res ds_err (list gostr) :=
  named BadName (ValidateSnapshotName snapshot)
    (let from := IncrementalFromSnap opts in
     let args := [ #"send"] ++ flag (Recursive opts) #"-R" ++ flag (Raw opts) #"-w"
                 ++ flag (Compressed opts) #"-c" ++ flag (LargeBlock opts) #"-L"
                 ++ flag (EmbeddedData opts) #"-e"
                 ++ (if str_eqb from [] then [] else [ #"-i"; from]) ++ [snapshot] in
     if negb (str_eqb from []) && contains_byte "@"%char from
     then named IncrementalFrom (ValidateSnapshotName from) (Ok args)
     else Ok args).

Definition buildReceiveArgs (target : gostr) (opts : RecvOpts) : res ds_err (list gostr) :=
  named BadName (ValidateDatasetName target)
    (let args := [ #"receive"] ++ flag (Force opts) #"-F" ++ flag (Resumable opts) #"-s" in
     if str_eqb (Origin opts) [] then Ok (args ++ [target])
     else named OriginSnapshot (ValidateSnapshotName (Origin opts))
            (Ok (args ++ [ #"-o"; #"origin=" ++ Origin opts; target]))).

Definition validateDiffTarget (s : gostr) : res name_err unit :=
  if contains_byte "@"%char s then ValidateSnapshotName s else ValidateDatasetName s.

Definition buildDiffArgs (from to : gostr) : res ds_err (list gostr) :=
  named FromSnapshot (ValidateSnapshotName from)
    (if str_eqb to [] then Ok [ #"diff"; #"-H"; from]
     else named ToTarget (validateDiffTarget to) (Ok [ #"diff"; #"-H"; from; to])).

Definition short_char (c : ascii) : bool :=
  is_lower c || is_upper c || is_digit c || ch_eqb c "-"%char || ch_eqb c "_"%char.

Definition validateBookmarkName (s : gostr) : res ds_err unit :=
  ensure negb (has_prefix s #"-") else BookmarkDash ;;
  match cut_at "#"%char s with
  | None | Some ([], _) => Err BookmarkForm
  | Some (ds, short) =>
      ensure (count_byte "#"%char s =? 1)%nat else BookmarkMany ;;
      named BadName (ValidateDatasetName ds)
        (ensure negb (str_eqb short []) else BookmarkEmpty ;;
         ensure forallb short_char short else BookmarkChar ;;
         Ok tt)
  end.

Definition buildBookmarkArgs (snapshot bookmarkName : gostr) : res ds_err (list gostr) :=
  named BadName (ValidateSnapshotName snapshot)
    (let? _ := validateBookmarkName bookmarkName in Ok [ #"bookmark"; snapshot; bookmarkName]).

Definition buildListBookmarksArgs (root : gostr) : res ds_err (list gostr) :=
  let args := [ #"list"; #"-H"; #"-p"; #"-t"; #"bookmark"; #"-o"; #"name,creation"] in
  if str_eqb root [] then Ok args
  else named BadName (ValidateDatasetName root) (Ok (args ++ [ #"-r"; root])).

Definition buildDestroyBookmarkArgs (bookmarkName : gostr) : res ds_err (list gostr) :=
  let? _ := validateBookmarkName bookmarkName in Ok [ #"destroy"; bookmarkName].

(** ** Listings *)

Definition tab : ascii := byte_of 9.

Definition parseUint (s : gostr) : res ds_err Z :=
  if str_eqb s #"-" then Ok 0
  else match Snapshots.parse_uint64 s with None => Err (BadNumber s) | Some v => Ok v end.

(** The loop every parser has: empty lines are skipped, the first bad line
    ends it, and a line that is too long is reported after the rest. *)
Fixpoint parse_lines {A} (row : gostr -> res ds_err A) (lines : list gostr) (long : bool)
  : res ds_err (list A) :=
  match lines with
  | [] => if long then Err LineTooLong else Ok []
  | l :: ls =>
      if str_eqb l [] then parse_lines row ls long
      else
        let? x := row l in
        let? xs := parse_lines row ls long in
        Ok (x :: xs)
  end.

Definition scan_with {A} (limit : nat) (row : gostr -> res ds_err A) (data : gostr) : res ds_err (list A) :=
  let fix scan (ls : list gostr) : list gostr * bool :=
    match ls with
    | [] => ([], false)
    | l :: ls' =>
        if (limit <=? length l)%nat then ([], true)
        else let '(r, long) := scan ls' in (Snapshots.drop_cr l :: r, long)
    end in
  let '(ls, long) := scan (Snapshots.raw_lines data) in parse_lines row ls long.

Definition parseRow (line : gostr) : res ds_err Dataset :=
  match split_on tab line with
  | [f0; f1; f2; f3; f4; f5; f6; f7] =>
      let? used := parseUint f2 in
      let? avail := parseUint f3 in
      let? refd := parseUint f4 in
      let? rs := parseUint f7 in
      Ok (mkDataset f0 f1 used avail refd (if str_eqb f5 #"-" then [] else f5) f6 rs)
  | f => Err (BadFieldCount (length f))
  end.

Definition parseList (data : gostr) : res ds_err (list Dataset) := scan_with Snapshots.max_token parseRow data.

Definition parseProp (line : gostr) : res ds_err (gostr * gostr) :=
  match split_on tab line with
  | _ :: k :: v :: _ => Ok (k, v)
  | f => Err (BadFieldCount (length f))
  end.

(** Later lines win, as the loop assigns to the map. *)
Definition parseProps (data : gostr) : res ds_err (gmap gostr gostr) :=
  let? kvs := scan_with Snapshots.max_token parseProp data in
  Ok (list_to_map (rev kvs)).

(** The buffer of the diff scanner is a megabyte. *)
Definition diff_token : nat := Z.to_nat 1048576.

Definition parseDiffRow (line : gostr) : res ds_err DatasetDiffEntry :=
  match split_on tab line with
  | c :: p :: rest =>
      if str_eqb c #"+" || str_eqb c #"-" || str_eqb c #"M" then
        match rest with [] => Ok (mkDiffEntry c p []) | _ => Err BadDiff end
      else if str_eqb c #"R" then
        match rest with [q] => Ok (mkDiffEntry c p q) | _ => Err BadDiff end
      else Err BadDiff
  | _ => Err BadDiff
  end.

Definition parseDiff (data : gostr) : res ds_err (list DatasetDiffEntry) := scan_with diff_token parseDiffRow data.

Definition parseBookmarkRow (line : gostr) : res ds_err Bookmark :=
  match split_on tab line with
  | [n; c] => match atoi c with None => Err (BadNumber c) | Some t => Ok (mkBookmark n t) end
  | f => Err (BadFieldCount (length f))
  end.

Definition parseBookmarkList (data : gostr) : res ds_err (list Bookmark) :=
  scan_with Snapshots.max_token parseBookmarkRow data.

(** ** The manager *)

Section Manager.
Context {W : Type} `{HostExec W} (ZFSBin : gostr).

Definition notFoundErr (e : HostError) : ds_err :=
  if stderr_says #"does not exist" e then ErrNotFound else Host e.

(** Build the arguments, run, and drop the output. *)
Definition run_args (args : res ds_err (list gostr)) : M W (option ds_err) :=
  match args with
  | Err e => ret (Some e)
  | Ok args =>
      let! r := call (Run ZFSBin args) in
      ret (match r with Err e => Some (Host e) | Ok _ => None end)
  end.

(** Run and parse the output. *)
Definition run_parse {A} (args : res ds_err (list gostr)) (parse : gostr -> res ds_err A) : M W (res ds_err A) :=
  match args with
  | Err e => ret (Err e)
  | Ok args =>
      let! r := call (Run ZFSBin args) in
      ret (match r with Err e => Err (Host e) | Ok out => parse out end)
  end.

Definition list_columns : gostr := #"name,type,used,available,referenced,mountpoint,compression,recordsize".

Definition List_ (root : gostr) : M W (res ds_err (list Dataset)) :=
  run_parse (Ok ([ #"list"; #"-H"; #"-p"; #"-t"; #"filesystem,volume"; #"-o"; list_columns]
                 ++ (if str_eqb root [] then [] else [ #"-r"; root]))) parseList.

Definition Get (name : gostr) : M W (res ds_err Detail) :=
  let! l := call (Run ZFSBin [ #"list"; #"-H"; #"-p"; #"-t"; #"filesystem,volume"; #"-o"; list_columns; name]) in
  match l with
  | Err e => ret (Err (notFoundErr e))
  | Ok out =>
      match parseList out with
      | Err e => ret (Err e)
      | Ok [] => ret (Err ErrNotFound)
      | Ok (d :: _) =>
          let! p := call (Run ZFSBin [ #"get"; #"-H"; #"-p"; #"all"; name]) in
          ret (match p with
               | Err e => Err (notFoundErr e)
               | Ok out => let? props := parseProps out in Ok (mkDetail d props)
               end)
      end
  end.

Definition Create (spec : CreateSpec) : M W (option ds_err) := run_args (buildCreateArgs spec).

(** One run per property, until one fails. *)
Fixpoint set_props (name : gostr) (props : gmap gostr gostr) (keys : list gostr) : M W (option ds_err) :=
  match keys with
  | [] => ret None
  | k :: keys' =>
      let! r := call (Run ZFSBin [ #"set"; k ++ #"=" ++ prop_value props k; name]) in
      match r with
      | Err e => ret (Some (Host e))
      | Ok _ => set_props name props keys'
      end
  end.

Definition SetProps (name : gostr) (props : gmap gostr gostr) : M W (option ds_err) :=
  match ValidateDatasetName name with
  | Err e => ret (Some (BadName e))
  | Ok _ => set_props name props (sorted_keys props)
  end.

Definition Destroy (name : gostr) (recursive : bool) : M W (option ds_err) :=
  run_args (named BadName (ValidateDatasetName name)
    (Ok ([ #"destroy"] ++ flag recursive #"-r" ++ [name]))).

Definition Rename (oldName newName : gostr) (recursive : bool) : M W (option ds_err) :=
  run_args (buildRenameArgs oldName newName recursive).
Definition Clone (snapshot target : gostr) (properties : gmap gostr gostr) : M W (option ds_err) :=
  run_args (buildCloneArgs snapshot target properties).
Definition Promote (name : gostr) : M W (option ds_err) := run_args (buildPromoteArgs name).
Definition LoadKey (name keylocation : gostr) (recursive : bool) : M W (option ds_err) :=
  run_args (buildLoadKeyArgs name keylocation recursive).
Definition UnloadKey (name : gostr) (recursive : bool) : M W (option ds_err) :=
  run_args (buildUnloadKeyArgs name recursive).
Definition ChangeKey (name : gostr) (properties : gmap gostr gostr) : M W (option ds_err) :=
  run_args (buildChangeKeyArgs name properties).

Definition Send (snapshot : gostr) (opts : SendOpts) : M W (option ds_err) :=
  match buildSendArgs snapshot opts with
  | Err e => ret (Some e)
  | Ok args => let! r := call (RunStream ZFSBin None true args) in ret (Host <$> r)
  end.

Definition Receive (target : gostr) (opts : RecvOpts) (stream : gostr) : M W (option ds_err) :=
  match buildReceiveArgs target opts with
  | Err e => ret (Some e)
  | Ok args => let! r := call (RunStream ZFSBin (Some stream) false args) in ret (Host <$> r)
  end.

Definition Diff (fromSnapshot toName : gostr) : M W (res ds_err (list DatasetDiffEntry)) :=
  run_parse (buildDiffArgs fromSnapshot toName) parseDiff.

Definition Bookmark_ (snapshot bookmarkName : gostr) : M W (option ds_err) :=
  run_args (buildBookmarkArgs snapshot bookmarkName).
Definition ListBookmarks (root : gostr) : M W (res ds_err (list Bookmark)) :=
  run_parse (buildListBookmarksArgs root) parseBookmarkList.
Definition DestroyBookmark (bookmarkName : gostr) : M W (option ds_err) :=
  run_args (buildDestroyBookmarkArgs bookmarkName).
End Manager.

End Datasets.
