(* ===== verification/ZfsDatasetCorrect.v ===== *)
(** * The dataset manager: what the zfs command is told

    For every string a caller passes, an operation runs nothing and
    reports an error, or runs zfs once with arguments that are read as
    exactly the request; and what zfs prints is read back as it was. *)

From S2P Require Import Prelude GoStrings SortLib Effects ZfsNames ZfsNamesCorrect HostExec ZfsDataset.
Import Names Datasets.

#[local] Arguments str : simpl never.

Inductive ds_op :=
| DCreate (spec : CreateSpec)
| DDestroy (name : gostr) (recursive : bool)
| DRename (oldName newName : gostr) (recursive : bool)
| DClone (snapshot target : gostr) (props : gmap gostr gostr)
| DPromote (name : gostr)
| DLoadKey (name keylocation : gostr) (recursive : bool)
| DUnloadKey (name : gostr) (recursive : bool)
| DChangeKey (name : gostr) (props : gmap gostr gostr)
| DSend (snapshot : gostr) (opts : SendOpts)
| DReceive (target : gostr) (opts : RecvOpts) (stream : gostr)
| DDiff (from to : gostr)
| DBookmark (snapshot bookmark : gostr)
| DListBookmarks (root : gostr)
| DDestroyBookmark (bookmark : gostr).

Definition exec_op {W} `{HostExec W} (bin : gostr) (o : ds_op) : M W (option ds_err) :=
  let drop {A} (m : M W (res ds_err A)) : M W (option ds_err) :=
    let! r := m in ret (match r with Ok _ => None | Err e => Some e end) in
  match o with
  | DCreate spec => Create bin spec
  | DDestroy n r => Destroy bin n r
  | DRename a b r => Rename bin a b r
  | DClone s t p => Clone bin s t p
  | DPromote n => Promote bin n
  | DLoadKey n k r => LoadKey bin n k r
  | DUnloadKey n r => UnloadKey bin n r
  | DChangeKey n p => ChangeKey bin n p
  | DSend s opts => Send bin s opts
  | DReceive t opts st => Receive bin t opts st
  | DDiff a b => drop (Diff bin a b)
  | DBookmark s b => Bookmark_ bin s b
  | DListBookmarks r => drop (ListBookmarks bin r)
  | DDestroyBookmark b => DestroyBookmark bin b
  end.

(** ** The request, as zfs should read it *)

Definition verb (o : ds_op) : gostr :=
  match o with
  | DCreate _ => #"create" | DDestroy _ _ | DDestroyBookmark _ => #"destroy" | DRename _ _ _ => #"rename"
  | DClone _ _ _ => #"clone" | DPromote _ => #"promote" | DLoadKey _ _ _ => #"load-key"
  | DUnloadKey _ _ => #"unload-key" | DChangeKey _ _ => #"change-key" | DSend _ _ => #"send"
  | DReceive _ _ _ => #"receive" | DDiff _ _ => #"diff" | DBookmark _ _ => #"bookmark"
  | DListBookmarks _ => #"list"
  end.

(** The flags and the options with an argument of each subcommand, as far
    as they are used. *)
Definition flags_of (o : ds_op) : list gostr :=
  match o with
  | DSend _ _ => [ #"-R"; #"-w"; #"-c"; #"-L"; #"-e"]
  | DReceive _ _ _ => [ #"-F"; #"-s"]
  | DDiff _ _ => [ #"-H"]
  | DListBookmarks _ => [ #"-H"; #"-p"; #"-r"]
  | _ => [ #"-r"]
  end.

Definition options_of (o : ds_op) : list gostr :=
  match o with
  | DSend _ _ => [ #"-i"]
  | DLoadKey _ _ _ => [ #"-L"]
  | DListBookmarks _ => [ #"-t"; #"-o"]
  | _ => [ #"-o"; #"-V"]
  end.

Definition assignments (props : gmap gostr gostr) : list gostr :=
  map (fun k => k ++ #"=" ++ prop_value props k) (sorted_keys props).

Definition optional (name v : gostr) : list (gostr * gostr) := if str_eqb v [] then [] else [(name, v)].

Definition requested (o : ds_op) : reading :=
  match o with
  | DCreate spec =>
      mkReading [] (map (pair #"-o") (assignments (Properties spec))
        ++ (if str_eqb (Type_ spec) #"volume" then [( #"-V", print_uint (VolumeSizeBytes spec))] else []))
        [full_name spec]
  | DDestroy n r | DUnloadKey n r => mkReading (flag r #"-r") [] [n]
  | DRename a b r => mkReading (flag r #"-r") [] [a; b]
  | DClone s t p => mkReading [] (map (pair #"-o") (assignments p)) [s; t]
  | DPromote n | DDestroyBookmark n => mkReading [] [] [n]
  | DLoadKey n k r => mkReading (flag r #"-r") (optional #"-L" k) [n]
  | DChangeKey n p => mkReading [] (map (pair #"-o") (assignments p)) [n]
  | DSend s o =>
      mkReading (flag (Recursive o) #"-R" ++ flag (Raw o) #"-w" ++ flag (Compressed o) #"-c"
                 ++ flag (LargeBlock o) #"-L" ++ flag (EmbeddedData o) #"-e")
        (optional #"-i" (IncrementalFromSnap o)) [s]
  | DReceive t o _ =>
      mkReading (flag (Force o) #"-F" ++ flag (Resumable o) #"-s")
        (if str_eqb (Origin o) [] then [] else [( #"-o", #"origin=" ++ Origin o)]) [t]
  | DDiff a b => mkReading [ #"-H"] [] (a :: if str_eqb b [] then [] else [b])
  | DBookmark s b => mkReading [] [] [s; b]
  | DListBookmarks r =>
      mkReading ([ #"-H"; #"-p"] ++ (if str_eqb r [] then [] else [ #"-r"]))
        [( #"-t", #"bookmark"); ( #"-o", #"name,creation")] (if str_eqb r [] then [] else [r])
  end.

(** ** Building the vectors *)

Lemma flag_in b f (l : list gostr) : f ∈ l -> Forall (.∈ l) (flag b f).
Proof. intros Hf. destruct b; repeat constructor; done. Qed.

Lemma prop_args_eq props : prop_args props = concat (map (fun v => [ #"-o"; v]) (assignments props)).
Proof. unfold prop_args, assignments. by rewrite map_map. Qed.

Lemma flags_dashed o : dashed (flags_of o).
Proof. destruct o; repeat constructor. Qed.
Lemma options_dashed o : dashed (options_of o).
Proof. destruct o; repeat constructor. Qed.
Lemma flags_not_options o a : a ∈ flags_of o -> a ∉ options_of o.
Proof.
  assert (Hall : Forall (fun a => a ∉ options_of o) (flags_of o)) by (destruct o; repeat constructor; by_dec).
  rewrite Forall_forall in Hall. apply Hall.
Qed.

Lemma bookmark_not_option b : validateBookmarkName b = Ok tt -> not_option b.
Proof.
  unfold validateBookmarkName. destruct (has_prefix b #"-") eqn:E; [done|]. cbn [negb].
  destruct b as [|c r]; [done|]. intros _. rewrite has_dash_prefix in E. apply ch_eqb_neq in E. by exists c, r.
Qed.

Lemma named_Ok {A} (wrap : name_err -> ds_err) v (k : res ds_err A) x : named wrap v k = Ok x -> v = Ok tt /\ k = Ok x.
Proof. destruct v as [[]|e]; [done|]. by intros [=]. Qed.

(** Reading flags, then options, then operands. *)
Lemma getopt_layout o fl opts ops :
  Forall (.∈ flags_of o) fl -> Forall (fun av => av.1 ∈ options_of o) opts -> Forall not_option ops ->
  getopt (flags_of o) (options_of o) (fl ++ concat (map (fun av => [av.1; av.2]) opts) ++ ops)
  = Some (mkReading fl opts ops).
Proof. apply getopt_laid_out; [apply flags_dashed|apply options_dashed|apply flags_not_options]. Qed.

(** The vector an operation builds. *)
Definition op_args (o : ds_op) : res ds_err (list gostr) :=
  match o with
  | DCreate spec => buildCreateArgs spec
  | DDestroy n r => named BadName (ValidateDatasetName n) (Ok ([ #"destroy"] ++ flag r #"-r" ++ [n]))
  | DRename a b r => buildRenameArgs a b r
  | DClone s t p => buildCloneArgs s t p
  | DPromote n => buildPromoteArgs n
  | DLoadKey n k r => buildLoadKeyArgs n k r
  | DUnloadKey n r => buildUnloadKeyArgs n r
  | DChangeKey n p => buildChangeKeyArgs n p
  | DSend s opts => buildSendArgs s opts
  | DReceive t opts _ => buildReceiveArgs t opts
  | DDiff a b => buildDiffArgs a b
  | DBookmark s b => buildBookmarkArgs s b
  | DListBookmarks r => buildListBookmarksArgs r
  | DDestroyBookmark b => buildDestroyBookmarkArgs b
  end.

Ltac not_options := repeat first
  [ apply Forall_nil_2 | apply Forall_cons_2
  | by apply snapshot_name_ok | by apply dataset_name_ok | by apply bookmark_not_option ].

Ltac flags_ok := repeat first [ apply Forall_app_2 | apply Forall_nil_2 | apply flag_in; by_dec
  | apply Forall_cons_2; [by_dec|] ].

Lemma assignments_options o props : #"-o" ∈ options_of o ->
  Forall (fun av : gostr * gostr => av.1 ∈ options_of o) (map (pair #"-o") (assignments props)).
Proof. intros Ho. apply Forall_map, Forall_forall. done. Qed.

Lemma option_args (opts : list gostr) a :
  concat (map (fun v => [a; v]) opts) = concat (map (fun av : gostr * gostr => [av.1; av.2]) (map (pair a) opts)).
Proof. by rewrite map_map. Qed.

(** A vector is read as requested when it is laid out as its flags, its
    options and its operands. *)
Lemma laid_out o fl opts ops args :
  args = verb o :: fl ++ concat (map (fun av => [av.1; av.2]) opts) ++ ops ->
  requested o = mkReading fl opts ops -> Forall (.∈ flags_of o) fl ->
  Forall (fun av => av.1 ∈ options_of o) opts -> Forall not_option ops ->
  exists rest, args = verb o :: rest /\ getopt (flags_of o) (options_of o) rest = Some (requested o).
Proof. intros -> -> Hfl Hop Hn. eexists. split; [reflexivity|]. by apply getopt_layout. Qed.

Ltac laid_out fl opts ops :=
  apply (laid_out _ fl opts ops); [|try reflexivity|flags_ok| |try not_options].

Ltac one_option := repeat (apply Forall_cons_2; [by_dec|]); apply Forall_nil_2.

(** What zfs reads is what was asked. *)
Lemma op_args_read o args : op_args o = Ok args ->
  exists rest, args = verb o :: rest /\ getopt (flags_of o) (options_of o) rest = Some (requested o).
Proof.
  destruct o as [spec|n r|a b r|s t p|n|n k r|n r|n p|s opts|t opts st|a b|s b|r|b]; simpl op_args.
  - unfold buildCreateArgs. destruct (negb _); [|done]. destruct (valid_type _); [|done].
    intros [Hv E]%named_Ok. rewrite prop_args_eq, option_args in E. unfold size_args in E.
    destruct (str_eqb (Type_ spec) #"volume") eqn:Et.
    + destruct (negb _); [|done]. injection E as <-.
      laid_out (@nil gostr) (map (pair #"-o") (assignments (Properties spec)) ++ [( #"-V", print_uint (VolumeSizeBytes spec))]) [full_name spec].
      * by rewrite map_app, concat_app, <- app_assoc.
      * simpl. by rewrite Et.
      * apply Forall_app_2; [apply assignments_options; by_dec|]. one_option.
    + injection E as <-.
      laid_out (@nil gostr) (map (pair #"-o") (assignments (Properties spec))) [full_name spec]; [done| |].
      * simpl. by rewrite Et, app_nil_r.
      * apply assignments_options; by_dec.
  - intros [Hv [= <-]]%named_Ok. laid_out (flag r #"-r") (@nil (gostr * gostr)) [n]; [done|one_option].
  - unfold buildRenameArgs. destruct (negb _); [|done]. destruct (Bool.eqb _ _); [|done].
    intros [Hv [Hv' [= <-]]%named_Ok]%named_Ok.
    destruct (contains_byte "@"%char a); laid_out (flag r #"-r") (@nil (gostr * gostr)) [a; b]; done || one_option.
  - intros [Hv [Hv' E]%named_Ok]%named_Ok. rewrite prop_args_eq, option_args in E. injection E as <-.
    laid_out (@nil gostr) (map (pair #"-o") (assignments p)) [s; t]; [done|]. apply assignments_options; by_dec.
  - intros [Hv [= <-]]%named_Ok. laid_out (@nil gostr) (@nil (gostr * gostr)) [n]; [done|one_option].
  - intros [Hv [= <-]]%named_Ok. laid_out (flag r #"-r") (optional #"-L" k) [n]; unfold optional; destruct (str_eqb k []); try done; one_option.
  - intros [Hv [= <-]]%named_Ok. laid_out (flag r #"-r") (@nil (gostr * gostr)) [n]; [done|one_option].
  - intros [Hv E]%named_Ok. rewrite prop_args_eq, option_args in E. injection E as <-.
    laid_out (@nil gostr) (map (pair #"-o") (assignments p)) [n]; [done|]. apply assignments_options; by_dec.
  - intros [Hv E]%named_Ok.
    assert (args = [ #"send"] ++ flag (Recursive opts) #"-R" ++ flag (Raw opts) #"-w"
                 ++ flag (Compressed opts) #"-c" ++ flag (LargeBlock opts) #"-L" ++ flag (EmbeddedData opts) #"-e"
                 ++ (if str_eqb (IncrementalFromSnap opts) [] then [] else [ #"-i"; IncrementalFromSnap opts]) ++ [s]) as ->.
    { cbv zeta in E. destruct (_ && _); [apply named_Ok in E as [_ E]|]; by injection E as <-. }
    laid_out (rdFlags (requested (DSend s opts))) (optional #"-i" (IncrementalFromSnap opts)) [s].
    + simpl. rewrite <- !app_assoc. unfold optional. by destruct (str_eqb _ []).
    + unfold optional. destruct (str_eqb _ []); one_option.
  - intros [Hv E]%named_Ok. unfold buildReceiveArgs in E. cbv zeta in E. destruct (str_eqb (Origin opts) []) eqn:Eo.
    + injection E as <-. laid_out (rdFlags (requested (DReceive t opts st))) (@nil (gostr * gostr)) [t];
        [simpl; by rewrite <- !app_assoc|simpl; by rewrite Eo|one_option].
    + apply named_Ok in E as [_ E]. injection E as <-.
      laid_out (rdFlags (requested (DReceive t opts st))) [( #"-o", #"origin=" ++ Origin opts)] [t];
        [simpl; by rewrite <- !app_assoc|simpl; by rewrite Eo|one_option].
  - intros [Hv E]%named_Ok. destruct (str_eqb b []) eqn:Eb.
    + injection E as <-. laid_out [ #"-H"] (@nil (gostr * gostr)) [a]; [done|simpl; by rewrite Eb|one_option].
    + apply named_Ok in E as [Hb E]. injection E as <-.
      unfold validateDiffTarget in Hb.
      destruct (contains_byte _ b); laid_out [ #"-H"] (@nil (gostr * gostr)) [a; b]; try (done || one_option); simpl; by rewrite Eb.
  - intros [Hv E]%named_Ok. destruct (validateBookmarkName b) as [[]|] eqn:Eb; [|done]. injection E as <-.
    laid_out (@nil gostr) (@nil (gostr * gostr)) [s; b]; [done|one_option].
  - unfold buildListBookmarksArgs. destruct (str_eqb r []) eqn:Er.
    + intros [= <-]. exists [ #"-H"; #"-p"; #"-t"; #"bookmark"; #"-o"; #"name,creation"]. split; [done|].
      simpl requested. rewrite Er. reflexivity.
    + intros [Hv [= <-]]%named_Ok.
      exists [ #"-H"; #"-p"; #"-t"; #"bookmark"; #"-o"; #"name,creation"; #"-r"; r]. split; [done|].
      simpl requested. rewrite Er. apply dataset_name_ok in Hv.
      set (o := DListBookmarks r). pose proof (flags_not_options o) as Hfo.
      change (getopt (flags_of o) (options_of o)
        ([ #"-H"; #"-p"] ++ [ #"-t"; #"bookmark"] ++ [ #"-o"; #"name,creation"] ++ [ #"-r"] ++ [r])
        = Some (mkReading [ #"-H"; #"-p"; #"-r"] [( #"-t", #"bookmark"); ( #"-o", #"name,creation")] [r])).
      rewrite (getopt_flags _ _ Hfo [ #"-H"; #"-p"] ([ #"-t"; #"bookmark"] ++ [ #"-o"; #"name,creation"] ++ [ #"-r"] ++ [r]))
        by (repeat (apply Forall_cons_2; [by_dec|]); apply Forall_nil_2).
      rewrite getopt_option by by_dec. rewrite getopt_option by by_dec.
      rewrite (getopt_flags _ _ Hfo [ #"-r"]) by (repeat (apply Forall_cons_2; [by_dec|]); apply Forall_nil_2).
      by rewrite (getopt_operands _ _ (flags_dashed o) (options_dashed o) [r]) by (by repeat constructor).
  - unfold buildDestroyBookmarkArgs. destruct (validateBookmarkName b) as [[]|] eqn:Eb; [|done]. intros [= <-].
    laid_out (@nil gostr) (@nil (gostr * gostr)) [b]; [done|one_option].
Qed.

(** The command an operation runs. *)
Definition invoke {W} `{HostExec W} (bin : gostr) (o : ds_op) (args : list gostr) (w : W) : W :=
  match o with
  | DSend _ _ => (RunStream bin None true args w).1
  | DReceive _ _ st => (RunStream bin (Some st) false args w).1
  | _ => (Run bin args w).1
  end.

(** C20. Whatever strings a caller passes, Create, Destroy, Rename,
    Clone, Promote, LoadKey, UnloadKey, ChangeKey, Send, Receive, Diff,
    Bookmark, ListBookmarks and DestroyBookmark each report an error and
    run nothing, or run zfs exactly once, with arguments that are read
    as the request: the flags asked for, each option with its value, and
    the validated names as operands; no caller's string is taken for a
    flag, an option or an operand it was not given as. (SetProps, List,
    Get and the ACL calls are not among these operations.) *)
Theorem dataset_ops_exact {W} `{HostExec W} (bin : gostr) (o : ds_op) (w : W) :
  (exists e, exec_op bin o w = (w, Some (Some e))) \/
  (exists rest r, exec_op bin o w = (invoke bin o (verb o :: rest) w, Some r) /\
     getopt (flags_of o) (options_of o) rest = Some (requested o)).
Proof.
  destruct (op_args o) as [args|e] eqn:Ea.
  - right. pose proof Ea as Er. apply op_args_read in Er as (rest & -> & Hr). exists rest.
    destruct o; cbn [op_args exec_op] in Ea |- *;
      unfold Create, Destroy, Rename, Clone, Promote, LoadKey, UnloadKey, ChangeKey, Send, Receive, Diff,
        Bookmark_, ListBookmarks, DestroyBookmark, run_args, run_parse; rewrite Ea; unfold bind, call, ret;
      cbn [invoke]; match goal with
      | |- context [Run ?b ?a ?w] => destruct (Run b a w) as [w' r']
      | |- context [RunStream ?b ?i ?o ?a ?w] => destruct (RunStream b i o a w) as [w' r']
      end; eauto.
  - left. exists e.
    destruct o; cbn [op_args exec_op] in Ea |- *;
      unfold Create, Destroy, Rename, Clone, Promote, LoadKey, UnloadKey, ChangeKey, Send, Receive, Diff,
        Bookmark_, ListBookmarks, DestroyBookmark, run_args, run_parse; by rewrite Ea.
Qed.
