(* ===== verification/ZfsEncryption.v ===== *)
(** * internal/host/zfs/dataset/encryption.go and its users

    Keys of encrypted datasets: the name a key is escrowed under, its life
    in the secret store, the creation and unlocking of datasets with the
    key on the standard input, the HTTP handlers
    (internal/api/handlers/encryption.go) from the decoded request on, and
    the boot-time loader (cmd/nova-zfs-keyload).  The secret store is the
    interface of file Secrets and the sealer that of file Tpm; the JSON
    codec and the clock are parameters. *)

From S2P Require Import Prelude GoStrings SortLib Effects ZfsNames HostExec GoBase64 Tpm Secrets ZfsDataset.
Import Names TpmM.

Module Encryption.
Import Datasets.

Definition DefaultEncryptionAlgorithm : gostr := #"aes-256-gcm".
Definition RawKeyLen : nat := 32.

Record WrappedKeyRecord := mkRecord { Wrapped : gostr; Algorithm : gostr; Created : gostr }.

Inductive enc_err :=
| Name_ (e : name_err) | Args (e : ds_err) | NoSealer | NoSecrets | RandKey | TpmWrap (e : tpm_err)
| MarshalRecord | SecretsSet (e : SecretsM.secret_err) | ZfsCreate (e : HostError)
| SecretsGet (e : SecretsM.secret_err) | UnmarshalRecord | DecodeWrapped | TpmUnwrap (e : tpm_err)
| KeyLength (n : nat) | ZfsLoadKey (e : HostError) | ZfsUnloadKey (e : HostError)
| SecretsList (e : SecretsM.secret_err)
| NotZfsKey | BadEscape | DecodedName (e : name_err).

(** ** The name of an escrowed key *)

Definition keys_prefix : gostr := #"zfs-keys/".

Definition plain_char (c : ascii) : bool := is_lower c || is_upper c || is_digit c || ch_eqb c "-"%char.

(** %02X of a byte. *)
Definition hex_digit (n : Z) : ascii := nth (Z.to_nat n) #"0123456789ABCDEF" "0"%char.
Definition hex2 (c : ascii) : gostr := [hex_digit (byte_val c / 16); hex_digit (byte_val c mod 16)].

Fixpoint encodeSegment (s : gostr) : gostr :=
  match s with
  | [] => []
  | c :: s' => (if plain_char c then [c] else #"__" ++ hex2 c) ++ encodeSegment s'
  end.

Definition EncodeSecretKey (datasetName : gostr) : res enc_err gostr :=
  match ValidateDatasetName datasetName with
  | Err e => Err (Name_ e)
  | Ok _ => Ok (keys_prefix ++ join_with "/"%char (map encodeSegment (split_on "/"%char datasetName)))
  end.

(** isHex and the value of the digit. *)
Definition hex_val (c : ascii) : option Z :=
  if is_digit c then Some (byte_val c - 48)
  else if (97 <=? byte_val c) && (byte_val c <=? 102) then Some (byte_val c - 97 + 10)
  else if (65 <=? byte_val c) && (byte_val c <=? 70) then Some (byte_val c - 65 + 10)
  else None.

Fixpoint decodeSegment (s : gostr) : option gostr :=
  match s with
  | [] => Some []
  | c :: s1 =>
      if ch_eqb c "_"%char then
        match s1 with
        | u :: h :: l :: s' =>
            if ch_eqb u "_"%char then
              x ← hex_val h; y ← hex_val l;
              rest ← decodeSegment s'; Some (byte_of (Z.lor (Z.shiftl x 4) y) :: rest)
            else None
        | _ => None
        end
      else rest ← decodeSegment s1; Some (c :: rest)
  end.

Definition DecodeSecretKey (k : gostr) : res enc_err gostr :=
  match strip_prefix keys_prefix k with
  | None => Err NotZfsKey
  | Some rest =>
      match mapM decodeSegment (split_on "/"%char rest) with
      | None => Err BadEscape
      | Some out =>
          let full := join_with "/"%char out in
          match ValidateDatasetName full with
          | Err e => Err (DecodedName e)
          | Ok _ => Ok full
          end
      end
  end.

(** ** Argument vectors *)

Definition owned_property (k : gostr) : bool :=
  existsb (str_eqb k) [ #"encryption"; #"keyformat"; #"keylocation"].

Definition algorithm_or_default (alg : gostr) : gostr :=
  if str_eqb alg [] then DefaultEncryptionAlgorithm else alg.

Definition CreateEncryptedArgs (spec : CreateSpec) : res ds_err (list gostr) :=
  ensure EncryptionEnabled spec else PlainSpec ;;
  ensure valid_type (Type_ spec) else BadType ;;
  named BadName (ValidateDatasetName (full_name spec))
    (ensure negb (existsb owned_property (sorted_keys (Properties spec))) else OwnedProperty ;;
     size_args spec
       ([ #"create"; #"-o"; #"encryption=" ++ algorithm_or_default (EncryptionAlgorithm spec);
          #"-o"; #"keyformat=raw"; #"-o"; #"keylocation=prompt"] ++ prop_args (Properties spec))).

Definition LoadKeyArgs (name : gostr) : res ds_err (list gostr) :=
  named BadName (ValidateDatasetName name) (Ok [ #"load-key"; #"-L"; #"prompt"; name]).

(** ** The manager *)

Record Codec := mkCodec {
  marshal : WrappedKeyRecord -> option gostr;
  unmarshal : gostr -> option WrappedKeyRecord }.

(** time.Now in UTC, formatted. *)
Class Clock (W : Type) := { Now_RFC3339 : W -> W * gostr }.

Record EncryptionManager := mkEncMgr { ZFSBin : gostr; hasSealer : bool; hasSecrets : bool }.

Section Manager.
Context {W : Type} `{HostExec W, Rand W, SealUnsealer W, Aead, Clock W} {sm : SecretsM.SecretsManager W}
  (cd : Codec) (m : EncryptionManager).

Definition GenerateRawKey : M W (option gostr) := call (rand_Read RawKeyLen).

(** The escrow part of Initialize: the key of the record and the body. *)
Definition make_record (rawKey alg : gostr) : M W (res enc_err gostr) :=
  let! wrapped := WrapAEAD rawKey in
  match wrapped with
  | Err e => ret (Err (TpmWrap e))
  | Ok wrapped =>
      let! now := call Now_RFC3339 in
      ret (match marshal cd (mkRecord (b64_encode wrapped) alg now) with
           | None => Err MarshalRecord
           | Some body => Ok body
           end)
  end.

(** The creation after the escrow; a failure takes the record back. *)
Definition create_dataset (secretKey rawKey : gostr) (spec : CreateSpec) : M W (option enc_err) :=
  match CreateEncryptedArgs spec with
  | Err e => let! _ := SecretsM.Delete secretKey in ret (Some (Args e))
  | Ok args =>
      let! r := call (RunStdin (ZFSBin m) (Some rawKey) args) in
      match r with
      | Err e => let! _ := SecretsM.Delete secretKey in ret (Some (ZfsCreate e))
      | Ok _ => ret None
      end
  end.

Definition Initialize (full : gostr) (spec : option CreateSpec) : M W (res enc_err gostr) :=
  match ValidateDatasetName full with
  | Err e => ret (Err (Name_ e))
  | Ok _ =>
      if negb (hasSealer m) then ret (Err NoSealer)
      else if negb (hasSecrets m) then ret (Err NoSecrets)
      else
        let! rawKey := GenerateRawKey in
        match rawKey with
        | None => ret (Err RandKey)
        | Some rawKey =>
            let alg := match spec with Some s => algorithm_or_default (EncryptionAlgorithm s) | None => DefaultEncryptionAlgorithm end in
            let! body := make_record rawKey alg in
            match body with
            | Err e => ret (Err e)
            | Ok body =>
                match EncodeSecretKey full with
                | Err e => ret (Err e)
                | Ok secretKey =>
                    let! e := SecretsM.Set_ secretKey body in
                    match e with
                    | Some e => ret (Err (SecretsSet e))
                    | None =>
                        match spec with
                        | None => ret (Ok rawKey)
                        | Some spec =>
                            let! e := create_dataset secretKey rawKey spec in
                            ret (match e with Some e => Err e | None => Ok rawKey end)
                        end
                    end
                end
            end
        end
  end.

Definition fetchRawKey (full : gostr) : M W (res enc_err gostr) :=
  if negb (hasSealer m) then ret (Err NoSealer)
  else if negb (hasSecrets m) then ret (Err NoSecrets)
  else
    match EncodeSecretKey full with
    | Err e => ret (Err e)
    | Ok secretKey =>
        let! body := SecretsM.Get secretKey in
        match body with
        | Err e => ret (Err (SecretsGet e))
        | Ok body =>
            match unmarshal cd body with
            | None => ret (Err UnmarshalRecord)
            | Some rec =>
                match b64_decode (Wrapped rec) with
                | None => ret (Err DecodeWrapped)
                | Some wrapped =>
                    let! rawKey := UnwrapAEAD wrapped in
                    ret (match rawKey with
                         | Err e => Err (TpmUnwrap e)
                         | Ok rawKey =>
                             ensure (length rawKey =? RawKeyLen)%nat else KeyLength (length rawKey) ;;
                             Ok rawKey
                         end)
                end
            end
        end
    end.

Definition LoadKey (full : gostr) : M W (option enc_err) :=
  let! rawKey := fetchRawKey full in
  match rawKey with
  | Err e => ret (Some e)
  | Ok rawKey =>
      match LoadKeyArgs full with
      | Err e => ret (Some (Args e))
      | Ok args =>
          let! r := call (RunStdin (ZFSBin m) (Some rawKey) args) in
          ret (match r with Err e => Some (ZfsLoadKey e) | Ok _ => None end)
      end
  end.

Definition UnloadKey (full : gostr) : M W (option enc_err) :=
  match ValidateDatasetName full with
  | Err e => ret (Some (Name_ e))
  | Ok _ =>
      let! r := call (RunStdin (ZFSBin m) None [ #"unload-key"; full]) in
      ret (match r with Err e => Some (ZfsUnloadKey e) | Ok _ => None end)
  end.

Definition Recover (full : gostr) : M W (res enc_err gostr) := fetchRawKey full.

(** [says] is the text of a secret store's error. *)
Definition HasKey (says : SecretsM.secret_err -> gostr) (full : gostr) : M W (res enc_err bool) :=
  match EncodeSecretKey full with
  | Err e => ret (Err e)
  | Ok secretKey =>
      let! r := SecretsM.Get secretKey in
      ret (match r with
           | Ok _ => Ok true
           | Err e => if contains (says e) #"not found" then Ok false else Err (SecretsGet e)
           end)
  end.

Definition decoded (k : gostr) : option gostr :=
  match DecodeSecretKey k with Ok ds => Some ds | Err _ => None end.

Definition ListEscrowedDatasets : M W (res enc_err (list gostr)) :=
  let! keys := SecretsM.List_ keys_prefix in
  ret (match keys with
       | Err e => Err (SecretsList e)
       | Ok keys => Ok (stable_sort str_ltb (omap decoded keys))
       end).

(** ** cmd/nova-zfs-keyload *)

(** The loop: a failure is counted and the next dataset is tried. *)
Fixpoint load_each (datasets : list gostr) (failed : nat) : M W nat :=
  match datasets with
  | [] => ret failed
  | ds :: rest =>
      let! e := LoadKey ds in
      load_each rest (match e with Some _ => S failed | None => failed end)
  end.

Inductive load_result := ListFailed (e : enc_err) | Loaded (failed total : nat).

Definition loadAll : M W load_result :=
  let! ds := ListEscrowedDatasets in
  match ds with
  | Err e => ret (ListFailed e)
  | Ok [] => ret (Loaded 0 0)
  | Ok ds => let! failed := load_each ds 0 in ret (Loaded failed (length ds))
  end.

(** ** The HTTP handlers, from the decoded request on *)

Record EncryptionInitRequest := mkInitRequest {
  reqType : gostr; reqVolumeSizeBytes : Z; reqAlgorithm : gostr; reqProperties : gmap gostr gostr }.

Inductive reply (A : Type) := WriteError (status : Z) (code : gostr) | WriteJSON (status : Z) (body : A).
Arguments WriteError {A} _ _.
Arguments WriteJSON {A} _ _.

Definition splitParentName (full : gostr) : option (gostr * gostr) := cut_last "/"%char full.

(** [full] has been validated; [body] is [None] when it is not JSON; the
    manager is [None] when there is no TPM. *)
Definition h_Initialize (full : gostr) (body : option EncryptionInitRequest) (haveMgr : bool)
  : M W (reply (gostr * gostr)) :=
  match body with
  | None => ret (WriteError 400 #"bad_json")
  | Some body =>
      if negb (valid_type (reqType body)) then ret (WriteError 400 #"bad_type")
      else if str_eqb (reqType body) #"volume" && (reqVolumeSizeBytes body =? 0)
      then ret (WriteError 400 #"bad_size")
      else
        match splitParentName full with
        | None => ret (WriteError 400 #"bad_name")
        | Some (parent, name) =>
            if negb haveMgr then ret (WriteError 503 #"no_tpm")
            else
              let! r := Initialize full (Some (mkCreateSpec parent name (reqType body)
                          (reqVolumeSizeBytes body) (reqProperties body) true (reqAlgorithm body))) in
              ret (match r with
                   | Err _ => WriteError 500 #"init_failed"
                   | Ok _ => WriteJSON 201 (full, algorithm_or_default (reqAlgorithm body))
                   end)
        end
  end.

Definition h_LoadKey (full : gostr) (haveMgr : bool) : M W (reply unit) :=
  if negb haveMgr then ret (WriteError 503 #"no_tpm")
  else
    let! e := LoadKey full in
    ret (match e with Some _ => WriteError 500 #"load_failed" | None => WriteJSON 204 tt end).

Definition h_UnloadKey (full : gostr) (haveMgr : bool) : M W (reply unit) :=
  if negb haveMgr then ret (WriteError 503 #"no_tpm")
  else
    let! e := UnloadKey full in
    ret (match e with Some _ => WriteError 500 #"unload_failed" | None => WriteJSON 204 tt end).

(** hex.EncodeToString. *)
Definition hex_string (s : gostr) : gostr := map to_lower_byte (concat (map hex2 s)).

(** Every attempt is audited before the answer; [audit] may fail, which is
    only logged.  The test for a missing key compares with a sentinel no
    error is, so a failure is always the internal one. *)
Definition h_Recover (audit : gostr -> bool -> W -> W * bool) (hasAuditor : bool)
    (full : gostr) (haveMgr : bool) : M W (reply gostr) :=
  if negb haveMgr then ret (WriteError 503 #"no_tpm")
  else
    let! rawKey := Recover full in
    let accepted := match rawKey with Ok _ => true | Err _ => false end in
    let! _ := (if hasAuditor then call (audit full accepted) else ret true) in
    ret (match rawKey with
         | Err _ => WriteError 500 #"recover_failed"
         | Ok rawKey => WriteJSON 200 (hex_string rawKey)
         end).
End Manager.
End Encryption.
