(* ===== verification/ZfsEncryptionCorrect.v ===== *)
(** * Escrowed keys

    The name a key is escrowed under is unambiguous and always acceptable
    to the secret store; a key that was escrowed is the key that unlocks
    the dataset; and how a failed creation loses the key of a dataset that
    was there before. *)

From S2P Require Import Prelude GoStrings SortLib GoPath Effects ZfsNames ZfsNamesCorrect HostExec GoBase64 Tpm TpmCorrect.
From S2P Require Import Secrets SecretsCorrect ZfsDataset ZfsEncryption.
Import Names TpmM Encryption.

#[local] Arguments str : simpl never.

(** ** Names of escrowed keys *)

Definition hex_back (c : ascii) : bool :=
  bool_decide ((x ← hex_val (hex_digit (byte_val c / 16)); y ← hex_val (hex_digit (byte_val c mod 16));
    Some (byte_of (Z.lor (Z.shiftl x 4) y))) = Some c)
  && SecretsM.key_char (hex_digit (byte_val c / 16)) && SecretsM.key_char (hex_digit (byte_val c mod 16)).

Lemma all_bytes (P : ascii -> bool) : forallb P (map byte_of (map Z.of_nat (seq 0 256))) = true ->
  forall c, P c = true.
Proof.
  intros Hall c. rewrite forallb_forall in Hall. apply Hall.
  rewrite <- (byte_of_byte_val c). apply in_map, in_map_iff. pose proof (byte_val_range c).
  exists (Z.to_nat (byte_val c)). split; [lia|]. apply in_seq. lia.
Qed.

Lemma hex_back_ok c : hex_back c = true.
Proof. apply all_bytes. vm_compute. reflexivity. Qed.

Lemma decode_escape c s : decodeSegment ( #"__" ++ hex2 c ++ s) = (cons c) <$> decodeSegment s.
Proof.
  pose proof (hex_back_ok c) as Hc. unfold hex_back in Hc. rewrite !andb_true_iff, bool_decide_eq_true in Hc.
  destruct Hc as [[Hc _] _]. unfold hex2. change #"__" with ["_"%char; "_"%char]. cbn [app decodeSegment].
  change (ch_eqb "_"%char "_"%char) with true. cbv iota.
  destruct (hex_val (hex_digit (byte_val c / 16))) as [x|]; [|by simpl in Hc].
  destruct (hex_val (hex_digit (byte_val c mod 16))) as [y|]; [|by simpl in Hc].
  cbn in Hc |- *. injection Hc as Hc. rewrite Hc. by destruct (decodeSegment s).
Qed.

Lemma decode_encode_segment s : decodeSegment (encodeSegment s) = Some s.
Proof.
  induction s as [|c s IH]; [done|]. cbn [encodeSegment]. destruct (plain_char c) eqn:Ec.
  - cbn [app decodeSegment]. destruct (ch_eqb c "_"%char) eqn:Eu.
    { apply ch_eqb_eq in Eu as ->. discriminate. }
    by rewrite IH.
  - rewrite <- app_assoc, decode_escape, IH. done.
Qed.

Lemma encode_key_chars s : Forall (fun c => SecretsM.key_char c = true) (encodeSegment s).
Proof.
  induction s as [|c s IH]; [constructor|]. cbn [encodeSegment]. apply Forall_app_2; [|done].
  destruct (plain_char c) eqn:Ec.
  - repeat constructor. unfold plain_char in Ec. unfold SecretsM.key_char. by rewrite Ec.
  - pose proof (hex_back_ok c) as Hc. unfold hex_back in Hc. rewrite !andb_true_iff in Hc.
    destruct Hc as [[_ H1] H2]. change #"__" with ["_"%char; "_"%char]. by repeat constructor.
Qed.

Lemma encode_nonempty s : s <> [] -> encodeSegment s <> [].
Proof. destruct s as [|c s]; [done|]. intros _. cbn [encodeSegment]. by destruct (plain_char c). Qed.

Lemma key_chars_no c s : SecretsM.key_char c = false -> Forall (fun c => SecretsM.key_char c = true) s -> c ∉ s.
Proof. intros Hc Hs Hin. rewrite Forall_forall in Hs. specialize (Hs c Hin). congruence. Qed.

Lemma check_segments_intro segs : Forall key_seg segs -> SecretsM.check_segments segs = Ok tt.
Proof.
  induction 1 as [|s segs Hs Hsegs IH]; [done|]. cbn [SecretsM.check_segments].
  destruct (key_seg_plain s Hs) as (Hne & Hd & Hdd & _). destruct Hs as [_ Hall].
  apply str_eqb_neq in Hne as ->, Hd as ->, Hdd as ->. cbn [negb orb].
  replace (forallb SecretsM.key_char s) with true; [done|]. symmetry. apply forallb_forall. intros c Hc.
  rewrite Forall_forall in Hall. apply Hall. by apply list_elem_of_In.
Qed.

(** The segments of an escrow name. *)
Lemma dataset_segments ds : ValidateDatasetName ds = Ok tt -> Forall (fun s => s <> []) (split_on "/"%char ds).
Proof.
  intros Hv. apply ValidateDatasetName_iff in Hv as (_ & pool & rest & -> & (Ha & _ & _ & c & r & -> & _) & Hr).
  rewrite split_join; [|done|].
  - constructor; [done|]. eapply Forall_impl; [exact Hr|]. intros x (_ & c' & r' & -> & _). done.
  - constructor; [by apply allowed_no|]. eapply Forall_impl; [exact Hr|]. intros x Hx. by apply valid_component_no_sep.
Qed.

Lemma escrow_split ds : ValidateDatasetName ds = Ok tt ->
  split_on "/"%char (keys_prefix ++ join_with "/"%char (map encodeSegment (split_on "/"%char ds)))
  = #"zfs-keys" :: map encodeSegment (split_on "/"%char ds).
Proof.
  intros Hv. change keys_prefix with ( #"zfs-keys" ++ ["/"%char]). rewrite <- app_assoc. cbn [app].
  rewrite split_on_app by (vm_compute; set_solver). f_equal. apply split_join.
  - intros E. apply map_eq_nil in E. by apply split_on_ne in E.
  - apply Forall_map, Forall_forall. intros s _. apply key_chars_no; [done|apply encode_key_chars].
Qed.

Lemma escrow_segments ds : ValidateDatasetName ds = Ok tt ->
  Forall key_seg ( #"zfs-keys" :: map encodeSegment (split_on "/"%char ds)).
Proof.
  intros Hv. constructor; [split; [done|by repeat constructor]|]. apply Forall_map.
  eapply Forall_impl; [by apply dataset_segments|]. intros s Hs. split; [by apply encode_nonempty|apply encode_key_chars].
Qed.

Lemma rev_last_char (s : gostr) c : has_prefix (rev s) [c] = true -> c ∈ s.
Proof.
  rewrite has_prefix_iff. intros [r E]. apply (f_equal (@rev ascii)) in E. rewrite rev_involutive in E. rewrite E.
  simpl. set_solver.
Qed.

Lemma escrow_valid ds k : EncodeSecretKey ds = Ok k -> SecretsM.validateKey k = Ok tt /\ DecodeSecretKey k = Ok ds.
Proof.
  unfold EncodeSecretKey. destruct (ValidateDatasetName ds) as [[]|] eqn:Hv; [|done]. intros E.
  pose proof (escrow_split ds Hv) as Hsp. pose proof (escrow_segments ds Hv) as Hseg.
  assert (E' : keys_prefix ++ join_with "/"%char (map encodeSegment (split_on "/"%char ds)) = k) by congruence.
  clear E. rewrite E' in Hsp. split.
  - assert (Hchars : forall c, c ∈ k -> c = "/"%char \/ SecretsM.key_char c = true).
    { intros c Hc. rewrite <- (join_split "/"%char k), Hsp in Hc.
      assert (Hin : forall l, Forall key_seg l -> c ∈ join_with "/"%char l -> c = "/"%char \/ SecretsM.key_char c = true).
      { induction l as [|w l IH]; intros Hl; [set_solver|]. apply Forall_cons in Hl as [[_ Hw] Hl].
        rewrite Forall_forall in Hw. destruct l as [|w' l]; [by intros Hcw; right; apply Hw|].
        cbn [join_with]. rewrite elem_of_app, elem_of_cons. intros [Hcw|[->|Hcl]]; [right; by apply Hw|by left|by apply IH]. }
      by apply (Hin _ Hseg). }
    unfold SecretsM.validateKey. replace (str_eqb k []) with false by (by rewrite <- E'). cbn [negb].
    replace (contains_byte SecretsM.nul k) with false.
    2:{ symmetry. apply not_true_iff_false. rewrite contains_byte_iff. intros Hc. by destruct (Hchars _ Hc). }
    replace (has_prefix k #"/") with false by (by rewrite <- E'). cbn [negb].
    replace (SecretsM.has_suffix k #"/") with false.
    2:{ symmetry. apply not_true_iff_false. unfold SecretsM.has_suffix. rewrite has_prefix_iff. intros [q Eq].
        destruct (exists_last (split_on_ne "/"%char k)) as (l & x & El).
        assert (Hx : key_seg x). { pose proof El as El'. rewrite Hsp in El'. rewrite El' in Hseg. apply Forall_app in Hseg as [_ Hx]. by apply Forall_cons in Hx as [Hx _]. }
        assert (Ek : k = rev q ++ ["/"%char]).
        { apply (f_equal (@rev ascii)) in Eq. rewrite rev_involutive in Eq. rewrite Eq. by rewrite rev_app_distr. }
        assert (Es : split_on "/"%char k = split_on "/"%char (rev q) ++ [[]]).
        { rewrite Ek. apply (split_on_app_sep "/"%char (rev q) []). }
        rewrite El in Es. apply app_inj_tail in Es as [_ ->]. by destruct Hx. }
    cbn [negb]. rewrite Hsp. by apply check_segments_intro.
  - unfold DecodeSecretKey. rewrite <- E', strip_prefix_app.
    assert (split_on "/"%char (join_with "/"%char (map encodeSegment (split_on "/"%char ds))) =
      map encodeSegment (split_on "/"%char ds)) as ->.
    { apply split_join.
      - intros E. apply map_eq_nil in E. by apply split_on_ne in E.
      - apply Forall_map, Forall_forall. intros s _. apply key_chars_no; [done|apply encode_key_chars]. }
    assert (mapM decodeSegment (map encodeSegment (split_on "/"%char ds)) = Some (split_on "/"%char ds)) as ->.
    { generalize (split_on "/"%char ds) as l. induction l as [|s l IH]; [done|]. cbn [map mapM].
      simpl. rewrite decode_encode_segment. simpl. by rewrite IH. }
    by rewrite join_split, Hv.
Qed.

(** The name a key is escrowed under is always accepted by the secret
    store and reads back as the dataset, so no two datasets share a
    record. *)
Theorem escrow_name_roundtrip ds k (Hk : EncodeSecretKey ds = Ok k) :
  SecretsM.validateKey k = Ok tt /\ DecodeSecretKey k = Ok ds.
Proof. by apply escrow_valid. Qed.

Lemma escrow_name_roundtrip_witness :
  EncodeSecretKey #"tank/users/alice_42.x" = Ok #"zfs-keys/tank/users/alice__5F42__2Ex" /\
  DecodeSecretKey #"zfs-keys/tank/users/alice__5F42__2Ex" = Ok #"tank/users/alice_42.x".
Proof.
  assert (E : EncodeSecretKey #"tank/users/alice_42.x" = Ok #"zfs-keys/tank/users/alice__5F42__2Ex")
    by (vm_compute; reflexivity).
  split; [exact E|]. exact (proj2 (escrow_name_roundtrip _ _ E)).
Defined.

(** ** Keys survive in escrow *)

Section Escrow.
Context {W : Type} `{HostExec W, Rand W, SealUnsealer W, Aead, Clock W} {sm : SecretsM.SecretsManager W}
  (cd : Codec) (m : EncryptionManager)
  (Inv : W -> Prop) (stored : W -> gostr -> gostr -> Prop) (same : W -> W -> Prop).

(** A step that concerns neither the secrets nor the platform. *)
Definition aside (w w' : W) : Prop :=
  (Inv w -> Inv w') /\ (forall k v, stored w k v <-> stored w' k v) /\ same w w'.

(** The secret store, the TPM, the commands and the clock do not reach
    into each other. *)
Class Apart := {
  rand_aside n w : aside w (rand_Read n w).1;
  seal_aside p w : aside w (Seal p w).1;
  unseal_aside b w : aside w (Unseal b w).1;
  stdin_aside bin i args w : aside w (RunStdin bin i args w).1;
  now_aside w : aside w (Now_RFC3339 w).1;
  set_same k v w : same w (SecretsM.Set_ k v w).1;
  get_same k w : same w (SecretsM.Get k w).1 }.

Context `{!SecretsLaws sm Inv stored, !PlatformLaws same, !AeadLaws, !Apart}
  (Hcodec : forall rec body, marshal cd rec = Some body -> unmarshal cd body = Some rec).

Lemma aside_refl w : aside w w.
Proof. split_and!; [done|done|reflexivity]. Qed.

Lemma aside_trans w1 w2 w3 : aside w1 w2 -> aside w2 w3 -> aside w1 w3.
Proof.
  intros (Hi & Hs & Hp) (Hi' & Hs' & Hp'). split_and!; [tauto| |by etransitivity].
  intros k v. by rewrite Hs, Hs'.
Qed.

Lemma call_aside {A} (g : W -> W * A) w w' r : (forall w, aside w (g w).1) -> call g w = (w', Some r) -> aside w w'.
Proof. intros Hg. unfold call. specialize (Hg w). destruct (g w). by intros [= <- <-]. Qed.

Lemma run_aside {A} (g : M W A) w w' r : (forall w, aside w (g w).1) -> g w = (w', Some r) -> aside w w'.
Proof. intros Hg E. specialize (Hg w). by rewrite E in Hg. Qed.

Lemma wrap_aside p w w' r : WrapAEAD p w = (w', Some r) -> aside w w'.
Proof.
  unfold WrapAEAD. intros E. run E as w1 d E1. apply (call_aside _ _ _ _ (rand_aside 32)) in E1.
  destruct d as [d|]; [|by apply ret_returned in E as [-> _]].
  run E as w2 sl E2. apply (run_aside _ _ _ _ (seal_aside d)) in E2.
  pose proof (aside_trans _ _ _ E1 E2) as Ha.
  destruct sl as [sl|]; [|by apply ret_returned in E as [-> _]].
  destruct (negb _); [by apply ret_returned in E as [-> _]|].
  destruct (negb _); [by apply ret_returned in E as [-> _]|].
  run E as w3 n E3. apply (call_aside _ _ _ _ (rand_aside gcmNonceSize)) in E3.
  assert (w' = w3) as -> by (by destruct n; apply ret_returned in E as [-> _]). by eapply aside_trans.
Qed.

(** What the escrow record holds, on its platform. *)
Definition escrows (w : W) (body key : gostr) : Prop :=
  exists rec wrapped, unmarshal cd body = Some rec /\ b64_decode (Wrapped rec) = Some wrapped /\
    forall w2, same w w2 -> exists w3 r, UnwrapAEAD wrapped w2 = (w3, Some r) /\ (r = Ok key \/ exists e, r = Err e).

Lemma escrows_same w w' body key : same w w' -> escrows w body key -> escrows w' body key.
Proof. intros Hs (rec & wr & Hu & Hb & Hw). exists rec, wr. split_and!; [done|done|]. intros w2 Hw2. apply Hw. by etransitivity. Qed.

Lemma make_record_spec key alg w w' body : make_record cd key alg w = (w', Some (Ok body)) ->
  aside w w' /\ escrows w' body key.
Proof.
  unfold make_record. intros E. run E as w1 wr E1. pose proof (wrap_aside _ _ _ _ E1) as Ha.
  destruct wr as [wr|]; [|by apply ret_returned in E as [_ E]].
  run E as w2 now E2. apply (call_aside _ _ _ _ now_aside) in E2. apply ret_returned in E as [-> E].
  destruct (marshal cd _) as [b|] eqn:Em; [|done]. injection E as ->. split; [by eapply aside_trans|].
  eexists _, wr. split_and!; [by apply Hcodec|apply b64_decode_encode|].
  intros w3 Hs. apply (unwrap_wrapped same _ _ _ _ _ E1). destruct E2 as (_ & _ & Hp). by etransitivity.
Qed.

(** The dataset was created with this key: the last command that ran is zfs
    with the arguments of the spec and the key on its standard input, and
    it succeeded. *)
Definition zfs_got (spec : Datasets.CreateSpec) (key : gostr) (w1 : W) : Prop :=
  exists args u out, CreateEncryptedArgs spec = Ok args /\ RunStdin (ZFSBin m) (Some key) args u = (w1, Ok out).

(** A successful initialisation leaves a record of the key it returns. *)
Lemma initialize_stored full spec key w w1 : Inv w -> Initialize cd m full spec w = (w1, Some (Ok key)) ->
  exists sk body, EncodeSecretKey full = Ok sk /\ Inv w1 /\ stored w1 sk body /\ escrows w1 body key /\
    length key = RawKeyLen /\ hasSealer m = true /\ hasSecrets m = true /\
    match spec with Some sp => zfs_got sp key w1 | None => True end.
Proof.
  intros Hi E. unfold Initialize in E. destruct (ValidateDatasetName full); [|done].
  destruct (hasSealer m); [|done]. destruct (hasSecrets m); [|done]. cbn [negb] in E.
  run E as u0 k E0. destruct k as [k|]; [|by apply ret_returned in E as [_ E]].
  assert (Hlen : length k = RawKeyLen).
  { unfold GenerateRawKey, call in E0. destruct (rand_Read RawKeyLen w) as [w0 r0] eqn:Er.
    injection E0 as -> ->. by apply rand_length in Er. }
  apply (call_aside _ _ _ _ (rand_aside RawKeyLen)) in E0.
  run E as u1 body E1. destruct body as [body|]; [|by apply ret_returned in E as [_ E]].
  apply make_record_spec in E1 as [Ha1 Hesc].
  assert (Hi1 : Inv u1) by (apply Ha1, E0, Hi).
  destruct (EncodeSecretKey full) as [sk|] eqn:Ek; [|by apply ret_returned in E as [_ E]].
  run E as u2 e E2. destruct e as [e|]; [by apply ret_returned in E as [_ E]|].
  pose proof (set_same sk body u1) as Hs2. rewrite E2 in Hs2. simpl in Hs2.
  apply set_law in E2 as (Hi2 & _ & Hst); [|done]. pose proof (escrows_same _ _ _ _ Hs2 Hesc) as Hesc2.
  exists sk, body. destruct spec as [spec|].
  - run E as u3 e E3. apply ret_returned in E as [-> E]. destruct e as [e|]; [done|]. injection E as ->.
    unfold create_dataset in E3. destruct (CreateEncryptedArgs spec) as [args|] eqn:Eargs; [|run E3 as u4 x E4; by apply ret_returned in E3 as [_ E3]].
    run E3 as u4 rr E4. pose proof E4 as Hz. unfold call in Hz. destruct (RunStdin _ _ _ u2) as [u4' rr'] eqn:Ez. injection Hz as -> ->.
    apply (call_aside _ _ _ _ (stdin_aside _ _ _)) in E4 as (Hi4 & Hs4 & Hp4).
    destruct rr as [rr|]; [|run E3 as u5 x E5; by apply ret_returned in E3 as [_ E3]].
    apply ret_returned in E3 as [-> _]. split_and!; [done|by apply Hi4|by apply Hs4| |done|done|done|by exists args, u2, rr].
    by eapply escrows_same.
  - apply ret_returned in E as [-> E]. injection E as ->. by split_and!.
Qed.

(** The secret store could not be read, or the TPM reported an error; the
    key is not reported missing. *)
Definition unreadable (r : res enc_err gostr) : Prop :=
  (exists e, r = Err (SecretsGet e) /\ e <> SecretsM.ErrNotFound) \/ exists e, r = Err (TpmUnwrap e).

(** Reading a record back. *)
Lemma fetch_stored full sk body key w w' r : EncodeSecretKey full = Ok sk -> Inv w -> stored w sk body ->
  escrows w body key -> length key = RawKeyLen -> hasSealer m = true -> hasSecrets m = true ->
  fetchRawKey cd m full w = (w', Some r) ->
  r = Ok key \/ unreadable r.
Proof.
  intros Ek Hi Hst Hesc Hlen Hs1 Hs2 E. unfold fetchRawKey in E. rewrite Hs1, Hs2, Ek in E. cbn [negb] in E.
  run E as w1 g E1. pose proof (get_same sk w) as Hg. rewrite E1 in Hg. simpl in Hg.
  apply get_law in E1 as (_ & _ & Hr); [|done]. destruct g as [v|e].
  - rewrite (stored_unique _ _ _ _ Hi Hr Hst) in E. destruct Hesc as (rec & wr & Hu & Hb & Hw).
    rewrite Hu, Hb in E. destruct (Hw w1 Hg) as (w3 & x' & Ew & Hx). run E as w4 x E4. rewrite Ew in E4. injection E4 as <- <-.
    apply ret_returned in E as [_ ->]. destruct Hx as [->|[e ->]]; [left|right; right; eauto]. by rewrite (proj2 (Nat.eqb_eq _ _) Hlen).
  - apply ret_returned in E as [_ ->]. right. left. exists e. split; [done|]. intros ->. by apply (Hr body).
Qed.

(** C19. After a successful Initialize zfs got a key on the standard
    input of the create command, the last command run; as long as the
    escrowed record is kept and the platform is the same, any later
    fetch gives exactly that key, or fails because the store or the TPM
    cannot be read; it is never reported missing and never another key. *)
Theorem escrowed_key_recovered full spec key w w1 (Hi : Inv w)
    (Hinit : Initialize cd m full (Some spec) w = (w1, Some (Ok key))) :
  exists zkey, zfs_got spec zkey w1 /\
    forall w2 w3 r, Inv w2 -> (forall k v, stored w1 k v -> stored w2 k v) -> same w1 w2 ->
      fetchRawKey cd m full w2 = (w3, Some r) -> r = Ok zkey \/ unreadable r.
Proof.
  apply initialize_stored in Hinit as (sk & body & Ek & Hi1 & Hst & Hesc & Hlen & Hs1 & Hs2 & Hz); [|done].
  exists key. split; [done|]. intros w2 w3 r Hi2 Hkept Hsame Hfetch.
  eapply fetch_stored; [exact Ek|exact Hi2|by apply Hkept|by eapply escrows_same|done..].
Qed.

(** Creating an encrypted dataset under the name of one that exists
    destroys its key: the record of the existing key is overwritten before
    zfs is asked, and removed when zfs refuses, after which no fetch can
    return a key. *)
Theorem failed_create_loses_key full spec sk old w w' e
    (Hdel : forall k w w' r, SecretsM.Delete k w = (w', r) -> r = Some None)
    (Hi : Inv w) (Hk : EncodeSecretKey full = Ok sk) (Hold : stored w sk old)
    (Hrun : Initialize cd m full (Some spec) w = (w', Some (Err (ZfsCreate e)))) :
  (forall v, ~ stored w' sk v) /\
  forall w2 r, fetchRawKey cd m full w' = (w2, Some r) -> exists e, r = Err e.
Proof.
  unfold Initialize in Hrun. destruct (ValidateDatasetName full); [|done].
  destruct (hasSealer m) eqn:Hs1; [|done]. destruct (hasSecrets m) eqn:Hs2; [|done]. cbn [negb] in Hrun.
  run Hrun as u0 k E0. destruct k as [k|]; [|by apply ret_returned in Hrun as [_ E]].
  apply (call_aside _ _ _ _ (rand_aside RawKeyLen)) in E0.
  run Hrun as u1 body E1. destruct body as [body|ee].
  2:{ apply ret_returned in Hrun as [_ E]. injection E as <-. unfold make_record in E1. run E1 as v1 x X1.
      destruct x; [run E1 as v2 y Y1|]; apply ret_returned in E1 as [_ E1]; repeat case_match; done. }
  apply make_record_spec in E1 as [Ha1 _]. rewrite Hk in Hrun.
  assert (Hi1 : Inv u1) by (apply Ha1, E0, Hi).
  run Hrun as u2 se E2. apply set_law in E2 as (Hi2 & _ & _); [|done].
  destruct se as [se|]; [by apply ret_returned in Hrun as [_ E]|].
  run Hrun as u3 ce E3. apply ret_returned in Hrun as [-> E]. destruct ce as [ce|]; [|done]. injection E as <-.
  unfold create_dataset in E3. destruct (CreateEncryptedArgs spec) as [args|ae].
  2:{ run E3 as u4 x E4. by apply ret_returned in E3 as [_ E3]. }
  run E3 as u4 rr E4. apply (call_aside _ _ _ _ (stdin_aside _ _ _)) in E4 as (Hi4 & _ & _).
  destruct rr as [rr|he]; [by apply ret_returned in E3 as [_ E3]|].
  run E3 as u5 dr E5. apply ret_returned in E3 as [-> _].
  pose proof (Hdel _ _ _ _ E5) as Hd. injection Hd as ->. apply delete_law in E5 as (Hi5 & _ & Hno); [|by apply Hi4].
  split; [done|]. intros w2 r Hf. unfold fetchRawKey in Hf. rewrite Hs1, Hs2, Hk in Hf. cbn [negb] in Hf.
  run Hf as w3 g E6. apply get_law in E6 as (_ & _ & Hr); [|done]. destruct g as [v|ge].
  - by apply Hno in Hr.
  - apply ret_returned in Hf as [_ ->]. eauto.
Qed.
End Escrow.

(** * Worlds for the escrow of keys

    A host in memory on which the theorems on escrowed keys are applied,
    and the encryption manager over the file backend, where a dataset and
    its child cannot both be escrowed. *)

From S2P Require Import Prelude GoStrings SortLib GoPath Effects ZfsNames ZfsNamesCorrect HostExec GoBase64 Tpm TpmCorrect.
From S2P Require Import Secrets SecretsCorrect ZfsDataset ZfsEncryption.
Import Names TpmM Datasets Encryption.

#[local] Arguments str : simpl never.

(** ** A codec *)

Definition nl : ascii := byte_of 10.

(** Three lines; a field with a newline is refused. *)
Definition lines_codec : Codec := mkCodec
  (fun r => if contains_byte nl (Wrapped r) || contains_byte nl (Algorithm r) then None
            else Some (Wrapped r ++ nl :: Algorithm r ++ nl :: Created r))
  (fun b => '(x, r) ← cut_at nl b; '(y, z) ← cut_at nl r; Some (mkRecord x y z)).

Lemma lines_codec_ok rec body : marshal lines_codec rec = Some body -> unmarshal lines_codec body = Some rec.
Proof.
  destruct rec as [x y z]. simpl. destruct (contains_byte nl x) eqn:Ex; [done|].
  destruct (contains_byte nl y) eqn:Ey; [done|]. intros E.
  assert (body = x ++ nl :: y ++ nl :: z) as -> by (by inversion E).
  assert (nl ∉ x /\ nl ∉ y) as [Hx Hy] by (rewrite <- !contains_byte_iff; split; congruence).
  rewrite (proj2 (cut_at_Some nl _ x (y ++ nl :: z))) by done. simpl.
  by rewrite (proj2 (cut_at_Some nl _ y z)).
Qed.

(** ** A world with a map of secrets *)

Module MemEscrow.

Record world := mkWorld { wSecrets : gmap gostr gostr; wDatasets : gset gostr; wSeed : Z }.

#[export] Instance w_rand : Rand world := {|
  rand_Read := fun n w => (mkWorld (wSecrets w) (wDatasets w) (wSeed w + 1), Some (repeat (byte_of (wSeed w)) n)) |}.

#[export] Instance w_sealer : SealUnsealer world := {|
  Seal := fun p => ret (Ok ("S"%char :: p));
  Unseal := fun b => ret (match b with "S"%char :: p => Ok p | _ => Err UnsealErr end) |}.

#[export] Instance w_clock : Clock world := {| Now_RFC3339 := fun w => (w, #"2024-01-01T00:00:00Z") |}.

Definition exists_error : HostError := mkHostError #"/sbin/zfs" 1 #"cannot create: dataset already exists" [].

(** zfs create fails for a dataset that exists. *)
Definition zfs (args : list gostr) (w : world) : world * res HostError gostr :=
  match args with
  | a :: _ =>
      let name := List.last args [] in
      if str_eqb a #"create" then
        if bool_decide (name ∈ wDatasets w) then (w, Err exists_error)
        else (mkWorld (wSecrets w) ({[name]} ∪ wDatasets w) (wSeed w), Ok [])
      else (w, Ok [])
  | [] => (w, Ok [])
  end.

#[export] Instance w_exec : HostExec world := {|
  Run := fun _ args => zfs args; RunStdin := fun _ _ args => zfs args; RunStream := fun _ _ _ _ w => (w, None) |}.

Definition secrets_op {A} (g : gmap gostr gostr -> gmap gostr gostr * A) : M world A :=
  fun w => let '(s, a) := g (wSecrets w) in (mkWorld s (wDatasets w) (wSeed w), Some a).

#[export] Instance w_secrets : SecretsM.SecretsManager world := {|
  SecretsM.Get := fun k => secrets_op (fun s => (s, match s !! k with Some v => Ok v | None => Err SecretsM.ErrNotFound end));
  SecretsM.Set_ := fun k v => secrets_op (fun s => (<[k := v]> s, None));
  SecretsM.Delete := fun k => secrets_op (fun s => (delete k s, None));
  SecretsM.List_ := fun p => secrets_op (fun s => (s, Ok (filter (fun k => has_prefix k p = true) (elements (dom s))))) |}.

Definition holds (w : world) (k v : gostr) : Prop := wSecrets w !! k = Some v.
Definition anywhere (w w' : world) : Prop := True.
Definition always (w : world) : Prop := True.

#[export] Instance w_secret_laws : SecretsLaws w_secrets always holds.
Proof.
  unfold holds. constructor.
  - intros w k v v' _ H1 H2. congruence.
  - intros k w w' r _ [= <- <-]. split_and!; [done|done|]. simpl. by destruct (wSecrets w !! k).
  - intros k v w w' r _ [= <- <-]. split_and!; [done| |by simplify_map_eq].
    intros k' v' Hne. simpl. by rewrite lookup_insert_ne.
  - intros k w w' r _ [= <- <-]. split_and!; [done| |].
    + intros k' v' Hne. simpl. by rewrite lookup_delete_ne.
    + intros v. simpl. by rewrite lookup_delete_eq.
Qed.

#[export] Instance w_platform : PlatformLaws (W := world) anywhere.
Proof.
  constructor; [split; by repeat intro| |done|].
  - intros n w w' b [= <- <-]. apply repeat_length.
  - intros p w w' s [= <- <-]. split; [done|]. intros w2 _. do 2 eexists. split; [done|by left].
Qed.

Lemma quiet_aside (w w' : world) : wSecrets w' = wSecrets w -> aside always holds anywhere w w'.
Proof. intros E. split_and!; [done| |done]. intros k v. unfold holds. by rewrite E. Qed.

#[export] Instance w_apart : Apart (W := world) always holds anywhere.
Proof.
  constructor; try done; intros; apply quiet_aside; try done.
  simpl. unfold zfs. by destruct args; simpl; repeat case_match.
Qed.

Definition mgr : EncryptionManager := mkEncMgr #"/sbin/zfs" true true.
Definition empty_world : world := mkWorld ∅ {[ #"tank"]} 1.
Definition spec (parent name : gostr) : CreateSpec := mkCreateSpec parent name #"filesystem" 0 ∅ true [].

(** A dataset with an escrowed key. *)
Definition with_key : world :=
  Eval vm_compute in (Initialize (W := world) (H2 := MemTpm.mem_aead) lines_codec mgr #"tank/a" (Some (spec #"tank" #"a")) empty_world).1.

(** The same creation again: zfs refuses it. *)
Definition key_lost : world :=
  Eval vm_compute in (Initialize (W := world) (H2 := MemTpm.mem_aead) lines_codec mgr #"tank/a" (Some (spec #"tank" #"a")) with_key).1.
End MemEscrow.
Import MemEscrow.
#[local] Existing Instance MemTpm.mem_aead.
#[local] Existing Instance MemTpm.mem_aead_laws.

Lemma escrowed_key_recovered_witness :
  Initialize lines_codec mgr #"tank/a" (Some (spec #"tank" #"a")) empty_world
    = (with_key, Some (Ok (repeat (byte_of 1) 32))) /\
  exists zkey, zfs_got mgr (spec #"tank" #"a") zkey with_key /\
    ((Ok (repeat (byte_of 1) 32) : res enc_err gostr) = Ok zkey \/ unreadable (Ok (repeat (byte_of 1) 32))).
Proof.
  assert (E : Initialize lines_codec mgr #"tank/a" (Some (spec #"tank" #"a")) empty_world
    = (with_key, Some (Ok (repeat (byte_of 1) 32)))) by (vm_compute; reflexivity).
  assert (F : fetchRawKey lines_codec mgr #"tank/a" with_key = (with_key, Some (Ok (repeat (byte_of 1) 32))))
    by (vm_compute; reflexivity).
  split; [exact E|].
  destruct (escrowed_key_recovered lines_codec mgr always holds anywhere lines_codec_ok
    #"tank/a" (spec #"tank" #"a") _ empty_world with_key I E) as (zkey & Hz & Hr).
  exists zkey. split; [exact Hz|]. exact (Hr with_key with_key _ I (fun _ _ H => H) I F).
Defined.

Lemma failed_create_loses_key_witness :
  (exists old, holds with_key #"zfs-keys/tank/a" old) /\
  Initialize lines_codec mgr #"tank/a" (Some (spec #"tank" #"a")) with_key
    = (key_lost, Some (Err (ZfsCreate exists_error))) /\
  forall v, ~ holds key_lost #"zfs-keys/tank/a" v.
Proof.
  assert (Hold : exists old, holds with_key #"zfs-keys/tank/a" old) by (eexists; vm_compute; reflexivity).
  assert (E : Initialize lines_codec mgr #"tank/a" (Some (spec #"tank" #"a")) with_key
    = (key_lost, Some (Err (ZfsCreate exists_error)))) by (vm_compute; reflexivity).
  split; [exact Hold|]. split; [exact E|]. destruct Hold as [old Hold].
  refine (proj1 (failed_create_loses_key lines_codec mgr always holds anywhere lines_codec_ok
    #"tank/a" (spec #"tank" #"a") #"zfs-keys/tank/a" old with_key key_lost exists_error _ I _ Hold E)).
  - intros k w w' r [= <- <-]. reflexivity.
  - vm_compute. reflexivity.
Defined.

(** ** Over the file backend *)

Module FileEscrow.
Import SecretsM MemHost.

Definition lift_host {A} (g : M mhost A) : M (FB mhost) A :=
  fun s => let '(w, r) := g (host s) in (mkFB (dek s) (loaded s) w, r).

#[export] Instance fe_rand : Rand (FB mhost) := {|
  rand_Read := fun n s => let '(w, r) := rand_Read n (host s) in (mkFB (dek s) (loaded s) w, r) |}.
#[export] Instance fe_sealer : SealUnsealer (FB mhost) := {|
  Seal := fun p => lift_host (Seal p); Unseal := fun b => lift_host (Unseal b) |}.
#[export] Instance fe_clock : Clock (FB mhost) := {| Now_RFC3339 := fun s => (s, #"2024-01-01T00:00:00Z") |}.

(** Every command succeeds. *)
#[export] Instance fe_exec : HostExec (FB mhost) := {|
  Run := fun _ _ s => (s, Ok []); RunStdin := fun _ _ _ s => (s, Ok []); RunStream := fun _ _ _ _ s => (s, None) |}.

Definition initialize (full : gostr) (sp : CreateSpec) : M (FB mhost) (res enc_err gostr) :=
  Initialize (sm := file_secrets backend) lines_codec mgr full (Some sp).

Definition parent_escrowed : FB mhost :=
  Eval vm_compute in (initialize #"tank/a" (spec #"tank" #"a") (started new_disk)).1.

(** With the file backend a dataset and a dataset below it cannot both
    have an escrowed key: the record of the parent is a file where the
    record of the child needs a directory.  Every disk and TPM call works,
    and still the child cannot be created encrypted. *)
Theorem child_key_cannot_be_escrowed :
  (exists key, initialize #"tank/a" (spec #"tank" #"a") (started new_disk) = (parent_escrowed, Some (Ok key))) /\
  exists s, initialize #"tank/a/b" (spec #"tank/a" #"b") parent_escrowed = (s, Some (Err (SecretsSet MkdirErr))).
Proof. split; eexists; vm_compute; reflexivity. Qed.
End FileEscrow.
