(* ===== verification/GoText.v ===== *)
(** * Words and blanks

    What strings.TrimSpace and strings.Fields do to text made of printable
    words and blanks, and how lines are split and joined. *)

From S2P Require Import Prelude GoStrings ZfsNames.

Definition printable (c : ascii) : bool := (33 <=? byte_val c) && (byte_val c <=? 126).
Definition blank (c : ascii) : bool := ch_eqb c " "%char || ch_eqb c (byte_of 9).

(** A word: printable and not empty. *)
Definition word (s : gostr) : bool := negb (str_eqb s []) && forallb printable s.

Lemma word_iff s : word s = true <-> s <> [] /\ Forall (fun c => printable c = true) s.
Proof.
  unfold word. rewrite andb_true_iff, negb_true_iff, str_eqb_neq, forallb_forall, Forall_forall.
  setoid_rewrite list_elem_of_In. done.
Qed.

(** No encoding of white space starts, or ends, with a printable byte. *)
Definition unprintable_head (p : gostr) : Prop :=
  match p with c :: _ => printable c = false | [] => False end.

Lemma spaces_head : Forall unprintable_head space_encodings.
Proof. repeat constructor. Qed.
Lemma spaces_last : Forall unprintable_head (map (@rev ascii) space_encodings).
Proof. repeat constructor. Qed.

Lemma first_strip_printable ps c r : Forall unprintable_head ps -> printable c = true -> first_strip ps (c :: r) = None.
Proof.
  intros Hps Hc. induction Hps as [|p ps Hp Hps IH]; [done|]. cbn [first_strip].
  destruct p as [|a p]; [done|]. cbn [unprintable_head] in Hp. cbn [strip_prefix].
  destruct (ch_eqb a c) eqn:E; [|done]. apply ch_eqb_eq in E as ->. congruence.
Qed.

Lemma first_strip_blank c r : blank c = true -> first_strip space_encodings (c :: r) = Some r.
Proof.
  unfold blank. intros [->%ch_eqb_eq | ->%ch_eqb_eq]%orb_true_iff; destruct r; vm_compute; reflexivity.
Qed.

Lemma trim_left_stop ps fuel s : first_strip ps s = None -> trim_left_with ps fuel s = s.
Proof. intros E. destruct fuel; cbn [trim_left_with]; [done|]. by rewrite E. Qed.

Lemma trim_left_blanks bs s : forall fuel, Forall (fun c => blank c = true) bs -> (length bs <= fuel)%nat ->
  first_strip space_encodings s = None -> trim_left_with space_encodings fuel (bs ++ s) = s.
Proof.
  induction bs as [|b bs IH]; intros fuel Hb Hf Hs; [by apply trim_left_stop|].
  apply Forall_cons in Hb as [Hb Hbs]. destruct fuel as [|fuel]; [simpl in Hf; lia|].
  cbn [app trim_left_with]. rewrite first_strip_blank by done. apply IH; [done|simpl in Hf; lia|done].
Qed.

(** Text that starts and ends with a printable byte. *)
Definition starts (s : gostr) : bool := match s with c :: _ => printable c | [] => false end.
Definition bounded (s : gostr) : bool := starts s && starts (rev s).


Lemma starts_iff s : starts s = true <-> exists c r, s = c :: r /\ printable c = true.
Proof. destruct s as [|c r]; split; [done|by intros (? & ? & ? & _)|by eexists _, _|]. by intros (? & ? & [= -> ->] & ?). Qed.

Lemma trim_space_text bs s : Forall (fun c => blank c = true) bs -> bounded s = true -> trim_space (bs ++ s) = s.
Proof.
  intros Hb [(c & r & -> & Hc)%starts_iff (d & q & Er & Hd)%starts_iff]%andb_true_iff. unfold trim_space.
  rewrite trim_left_blanks; [|done|rewrite length_app; lia|by apply first_strip_printable; [apply spaces_head|]].
  rewrite Er, trim_left_stop by (by apply first_strip_printable; [apply spaces_last|]).
  by rewrite <- Er, rev_involutive.
Qed.

Lemma trim_space_bounded s : bounded s = true -> trim_space s = s.
Proof. intros Hs. by apply (trim_space_text []). Qed.

(** ** Fields *)

Lemma fields_word fuel cur w rest : Forall (fun c => printable c = true) w -> (length w <= fuel)%nat ->
  fields_go fuel cur (w ++ rest) = fields_go (fuel - length w) (rev w ++ cur) rest.
Proof.
  revert fuel cur. induction w as [|c w IH]; intros fuel cur Hw Hf; [simpl; by rewrite Nat.sub_0_r|].
  apply Forall_cons in Hw as [Hc Hw]. destruct fuel as [|fuel]; [simpl in Hf; lia|]. cbn [app fields_go].
  unfold strip_space. rewrite first_strip_printable by (done || apply spaces_head).
  rewrite IH by (done || (simpl in Hf; lia)). cbn [length rev]. by rewrite <- app_assoc.
Qed.

Lemma fields_blanks fuel bs rest : Forall (fun c => blank c = true) bs -> (length bs <= fuel)%nat ->
  fields_go fuel [] (bs ++ rest) = fields_go (fuel - length bs) [] rest.
Proof.
  revert fuel. induction bs as [|c bs IH]; intros fuel Hb Hf; [simpl; by rewrite Nat.sub_0_r|].
  apply Forall_cons in Hb as [Hc Hb]. destruct fuel as [|fuel]; [simpl in Hf; lia|]. cbn [app fields_go].
  unfold strip_space. rewrite first_strip_blank by done. cbn [app]. rewrite IH by (done || (simpl in Hf; lia)). done.
Qed.

(** Columns: words, each after some blanks. *)
Definition pad (n : nat) : gostr := replicate n " "%char.
Definition columns (cols : list (nat * gostr)) : gostr := concat (map (fun c => pad (S c.1) ++ c.2) cols).

Lemma pad_blank n : Forall (fun c => blank c = true) (pad n).
Proof. by apply Forall_replicate. Qed.

Lemma rev_word (w : gostr) : w <> [] -> (match rev w with [] => [] | _ => [rev (rev w)] end) = [w].
Proof.
  intros Hne. destruct (rev w) eqn:Er; [|rewrite <- Er, rev_involutive; done].
  apply (f_equal (@rev ascii)) in Er. rewrite rev_involutive in Er. done.
Qed.

Lemma fields_columns cols : Forall (fun c => word c.2 = true) cols ->
  forall fuel cur, (length (columns cols) < fuel)%nat ->
  fields_go fuel cur (columns cols) = (match cur with [] => [] | _ => [rev cur] end) ++ map snd cols.
Proof.
  induction 1 as [|[n w] cols Hw Hcols IH]; intros fuel cur Hf.
  { destruct fuel; [simpl in Hf; lia|]. by rewrite app_nil_r. }
  cbn [snd] in Hw. apply word_iff in Hw as [Hne Hw]. unfold columns in *. cbn [map concat fst snd] in *.
  rewrite <- app_assoc. change (pad (S n)) with (" "%char :: pad n). cbn [app].
  destruct fuel as [|fuel]; [simpl in Hf; lia|]. cbn [fields_go]. unfold strip_space. rewrite first_strip_blank by done.
  f_equal. assert (Hn : forall k, length (pad k) = k) by (intros; apply length_replicate).
  rewrite !length_app, Hn in Hf.
  rewrite fields_blanks; [|apply pad_blank|rewrite Hn; lia].
  rewrite Hn, fields_word by (done || lia). rewrite app_nil_r, IH by lia.
  by rewrite rev_word.
Qed.

(** A line of words: a first one and columns. *)
Lemma fields_line w cols : word w = true -> Forall (fun c => word c.2 = true) cols ->
  fields (w ++ columns cols) = w :: map snd cols.
Proof.
  intros [Hne Hw]%word_iff Hcols. unfold fields. rewrite fields_word by (done || (rewrite length_app; lia)).
  rewrite app_nil_r, fields_columns by (done || (rewrite length_app; lia)). by rewrite rev_word.
Qed.

Lemma rev_nonempty (w : gostr) : w <> [] -> exists d q, rev w = d :: q /\ d ∈ w.
Proof.
  intros Hne. destruct (rev w) as [|d q] eqn:Er.
  { apply (f_equal (@rev ascii)) in Er. rewrite rev_involutive in Er. done. }
  exists d, q. split; [done|]. apply list_elem_of_In, in_rev. rewrite Er. by left.
Qed.

Lemma word_ends w : word w = true -> starts w = true /\ starts (rev w) = true.
Proof.
  intros [Hne Hw]%word_iff. destruct (rev_nonempty w Hne) as (d & q & Er & Hd). rewrite Forall_forall in Hw.
  rewrite Er. destruct w as [|c w]; [done|]. cbn [starts]. split; apply Hw; [by left|done].
Qed.

Lemma bounded_app_word s b w : bounded s = true -> word w = true -> bounded (s ++ b ++ w) = true.
Proof.
  intros [(c & r & -> & Hc)%starts_iff _]%andb_true_iff [_ Hw]%word_ends. unfold bounded.
  rewrite app_assoc, rev_app_distr. cbn [app starts]. rewrite Hc. by destruct (rev w).
Qed.

Lemma word_bounded w : word w = true -> bounded w = true.
Proof. intros [E1 E2]%word_ends. unfold bounded. by rewrite E1, E2. Qed.

Lemma bounded_line w cols : word w = true -> Forall (fun c => word c.2 = true) cols -> bounded (w ++ columns cols) = true.
Proof.
  intros Hw Hcols. apply word_bounded in Hw. revert w Hw. unfold columns.
  induction Hcols as [|[n v] cols Hv Hcols IH]; intros w Hw; [by rewrite app_nil_r|]. cbn [map concat].
  rewrite app_assoc. apply IH. by apply bounded_app_word.
Qed.

(** A prefix without blanks of such a line is a prefix of its first word. *)
Lemma prefix_of_word p w cols : " "%char ∉ p -> has_prefix (w ++ columns cols) p = true -> has_prefix w p = true.
Proof.
  intros Hp. rewrite !has_prefix_iff. intros [r E].
  destruct (decide (length p <= length w)%nat) as [Hle|Hgt].
  - apply app_eq_inv in E as [(k & E1 & E2)|(k & E1 & E2)].
    + by exists k.
    + subst p. rewrite length_app in Hle. destruct k; [|simpl in Hle; lia]. rewrite app_nil_r. exists []. by rewrite app_nil_r.
  - exfalso. apply app_eq_inv in E as [(k & E1 & E2)|(k & E1 & E2)].
    + subst w. rewrite length_app in Hgt. lia.
    + subst p. destruct k as [|a k]; [rewrite app_nil_r in Hgt; lia|].
      destruct cols as [|[n v] cols]; [done|]. unfold columns, pad in E2. cbn [map concat fst replicate app] in E2.
      injection E2 as <- _. apply Hp. apply elem_of_app. right. by left.
Qed.

(** ** Lines *)

Definition newline : ascii := byte_of 10.
Definition unlines (ls : list gostr) : gostr := concat (map (fun l => l ++ [newline]) ls).

Lemma words_no_newline w : word w = true -> newline ∉ w.
Proof. intros [_ Hw]%word_iff Hin. rewrite Forall_forall in Hw. by specialize (Hw _ Hin). Qed.

Lemma split_unlines ls : Forall (fun l => newline ∉ l) ls -> split_on newline (unlines ls) = ls ++ [[]].
Proof.
  induction 1 as [|l ls Hl Hls IH]; [done|]. unfold unlines in *. cbn [map concat]. rewrite <- app_assoc. cbn [app].
  rewrite split_on_app by done. by rewrite IH.
Qed.

(** ** bufio.Scanner with a buffer of a given size: the lines the loop sees,
    and whether it ended at a line too long for the buffer *)

Fixpoint scan_upto (limit : nat) (ls : list gostr) : list gostr * bool :=
  match ls with
  | [] => ([], false)
  | l :: ls' =>
      if (limit <=? length l)%nat then ([], true)
      else let '(r, long) := scan_upto limit ls' in (Snapshots.drop_cr l :: r, long)
  end.

Definition scan_limit (limit : nat) (data : gostr) : list gostr * bool := scan_upto limit (Snapshots.raw_lines data).

(** A line the scanner hands over as it is. *)
Definition clean_line (limit : nat) (l : gostr) : Prop :=
  newline ∉ l /\ (length l < limit)%nat /\ Snapshots.drop_cr l = l.

Lemma scan_unlines limit ls : Forall (clean_line limit) ls -> scan_limit limit (unlines ls) = (ls, false).
Proof.
  intros Hls. unfold scan_limit, Snapshots.raw_lines. change (byte_of 10) with newline.
  rewrite split_unlines by (eapply Forall_impl; [exact Hls|]; by intros l [? _]).
  rewrite rev_app_distr. cbn [rev app]. rewrite rev_involutive.
  induction Hls as [|l ls (_ & Hlen & Hcr) Hls IH]; [done|]. cbn [scan_upto].
  replace (limit <=? length l)%nat with false by (symmetry; by apply Nat.leb_gt). by rewrite IH, Hcr.
Qed.

(** ** Text that trimming leaves alone *)

Definition trimmed (s : gostr) : Prop := trim_space s = s.

Lemma first_strip_shorter ps s r : Forall (fun p => p <> []) ps -> first_strip ps s = Some r -> (length r < length s)%nat.
Proof.
  induction 1 as [|p ps Hp Hps IH]; cbn [first_strip]; [done|].
  destruct (strip_prefix p s) as [q|] eqn:E; [|exact IH]. intros [= <-]. apply strip_prefix_Some in E as ->.
  rewrite length_app. destruct p; [done|]. cbn [length]. lia.
Qed.

Lemma trim_left_length ps fuel s : Forall (fun p => p <> []) ps -> (length (trim_left_with ps fuel s) <= length s)%nat.
Proof.
  intros Hps. revert s. induction fuel as [|fuel IH]; intros s; cbn [trim_left_with]; [done|].
  destruct (first_strip ps s) as [r|] eqn:E; [|done]. apply first_strip_shorter in E; [|done]. specialize (IH r). lia.
Qed.

Lemma trim_left_same ps fuel s : Forall (fun p => p <> []) ps -> (0 < fuel)%nat ->
  (length s <= length (trim_left_with ps fuel s))%nat -> first_strip ps s = None /\ trim_left_with ps fuel s = s.
Proof.
  intros Hps Hf. destruct fuel as [|fuel]; [lia|]. cbn [trim_left_with].
  destruct (first_strip ps s) as [r|] eqn:E; [|done]. apply first_strip_shorter in E; [|done].
  pose proof (trim_left_length ps fuel r Hps). lia.
Qed.

Lemma spaces_nonempty : Forall (fun p => p <> []) space_encodings.
Proof. by_dec. Qed.
Lemma spaces_rev_nonempty : Forall (fun p => p <> []) (map (@rev ascii) space_encodings).
Proof. by_dec. Qed.

Lemma trimmed_ends s : trimmed s -> s <> [] ->
  first_strip space_encodings s = None /\ first_strip (map (@rev ascii) space_encodings) (rev s) = None.
Proof.
  unfold trimmed, trim_space. intros E Hne. assert (0 < length s)%nat by (destruct s; [done|simpl; lia]).
  pose proof (trim_left_length space_encodings (length s) s spaces_nonempty) as Hl.
  pose proof (trim_left_same space_encodings (length s) s spaces_nonempty) as Hsame.
  revert E Hl Hsame. generalize (trim_left_with space_encodings (length s) s). intros l E Hl Hsame.
  pose proof (trim_left_length (map (@rev ascii) space_encodings) (length l) (rev l) spaces_rev_nonempty) as Hr.
  pose proof (trim_left_same (map (@rev ascii) space_encodings) (length l) (rev l) spaces_rev_nonempty) as Hrsame.
  apply (f_equal (@length ascii)) in E. rewrite length_rev in E, Hr, Hrsame.
  destruct Hsame as [Hs ->]; [done|lia|]. split; [done|]. apply Hrsame; lia.
Qed.

(** The encodings are one ASCII byte, or bytes that are not ASCII. *)
Definition encoding_shape (p : gostr) : bool :=
  (length p =? 1)%nat || forallb (fun c => 128 <=? byte_val c) p.

Lemma first_strip_extend ps s d r : Forall (fun p => encoding_shape p = true) ps -> Forall (fun p => p <> []) ps ->
  s <> [] -> byte_val d < 128 -> first_strip ps s = None -> first_strip ps (s ++ d :: r) = None.
Proof.
  intros Hsh Hne Hs Hd. induction ps as [|p ps IH]; [done|]. cbn [first_strip].
  apply Forall_cons in Hsh as [Hp Hsh]. apply Forall_cons in Hne as [Hpne Hne].
  destruct (strip_prefix p s) eqn:E; [done|]. intros Hn.
  destruct (strip_prefix p (s ++ d :: r)) as [q|] eqn:E2; [|by apply IH]. exfalso.
  apply strip_prefix_Some in E2. apply app_eq_inv in E2 as [(k & E1 & _)|(k & E1 & E2)].
  - rewrite E1, strip_prefix_app in E. done.
  - destruct k as [|a k]; [rewrite app_nil_r in E1; subst p; rewrite <- (app_nil_r s) in E at 2; by rewrite strip_prefix_app in E|].
    injection E2 as <- _. unfold encoding_shape in Hp. apply orb_true_iff in Hp as [Hp|Hp].
    + apply Nat.eqb_eq in Hp. rewrite E1, length_app in Hp. destruct s; [done|]. simpl in Hp. lia.
    + rewrite forallb_forall in Hp. assert (In d p) as Hin by (rewrite E1; apply in_or_app; right; by left).
      specialize (Hp _ Hin). apply Z.leb_le in Hp. lia.
Qed.

(** Blanks, then text that starts visibly and ends with a blank and
    trimmed text. *)
Lemma trim_space_tail bs c pre v : Forall (fun c => blank c = true) bs -> printable c = true -> trimmed v -> v <> [] ->
  trim_space (bs ++ (c :: pre) ++ " "%char :: v) = (c :: pre) ++ " "%char :: v.
Proof.
  intros Hb Hc Hv Hne. destruct (trimmed_ends v Hv Hne) as [_ Hend]. unfold trim_space.
  rewrite trim_left_blanks; [|done|rewrite length_app; lia|by apply first_strip_printable; [apply spaces_head|]].
  rewrite trim_left_stop; [by rewrite rev_involutive|].
  rewrite rev_app_distr. cbn [rev]. rewrite <- app_assoc. cbn [app].
  apply first_strip_extend; [by_dec|apply spaces_rev_nonempty| |done|done].
  intros E. apply (f_equal (@rev ascii)) in E. by rewrite rev_involutive in E.
Qed.

Lemma trim_space_lead v : trimmed v -> v <> [] -> trim_space (" "%char :: v) = v.
Proof.
  intros Hv Hne. destruct (trimmed_ends v Hv Hne) as [Hs Hend]. unfold trim_space.
  rewrite (trim_left_blanks [" "%char] v) by (done || (simpl; lia) || by repeat constructor).
  rewrite trim_left_stop by done. by rewrite rev_involutive.
Qed.

Lemma trimmed_no_cr v : trimmed v -> v <> [] -> forall pre, Snapshots.drop_cr (pre ++ v) = pre ++ v.
Proof.
  intros Hv Hne pre. destruct (trimmed_ends v Hv Hne) as [_ Hend]. unfold Snapshots.drop_cr. rewrite rev_app_distr.
  destruct (rev v) as [|d r] eqn:E; [apply (f_equal (@rev ascii)) in E; by rewrite rev_involutive in E|]. cbn [app].
  destruct (ch_eqb d (byte_of 13)) eqn:Ed; [|done]. apply ch_eqb_eq in Ed as ->. exfalso. revert Hend. destruct r; vm_compute; done.
Qed.

Lemma bounded_trimmed v : bounded v = true -> trimmed v /\ v <> [].
Proof. intros Hb. split; [by apply trim_space_bounded|]. intros ->. done. Qed.
