(* ===== verification/ZfsPool.v ===== *)
(** * internal/host/zfs/pool: the pool manager

    write.go, write_extra.go, pool_extra2.go, pool.go, scrub.go and
    parser.go: the argument vectors of every operation on a pool, the
    parsers of listings, properties, importable pools and the status, and
    the operations over the host's commands.

    The status parser builds a tree through pointers into slices that are
    appended to: the store of arrays is explicit, with the growth of a
    slice left open, as the language leaves it. *)

From S2P Require Import Prelude GoStrings SortLib Effects ZfsNames HostExec ZfsDataset.
Import Names.

Module Pools.

Inductive pool_err :=
| BadName (e : name_err) | NoVdevs | NothingToAdd | VdevType (t : gostr) | VdevNoDisks (t : gostr)
| InClass (class : gostr) (e : pool_err)
| DisksRequired | DashDisk | DiskRequired | BadTrim (action : gostr) | BadProperty | BadActivity (a : gostr)
| SyncName (e : name_err)
| ErrNotFound | Host (e : HostError) | Parse (e : Datasets.ds_err).

Definition named {A} (wrap : name_err -> pool_err) (r : res name_err unit) (k : res pool_err A) : res pool_err A :=
  match r with Ok _ => k | Err e => Err (wrap e) end.

(** ** Layouts: write.go *)

Record VdevSpec := mkVdevSpec { vsType : gostr; vsDisks : list gostr }.

Record CreateSpec := mkCreateSpec {
  csName : gostr; csVdevs : list VdevSpec; csSpecial : list VdevSpec; csDedup : list VdevSpec;
  csLog : list VdevSpec; csCache : list gostr; csSpare : list gostr }.

Record AddSpec := mkAddSpec {
  asVdevs : list VdevSpec; asSpecial : list VdevSpec; asDedup : list VdevSpec;
  asLog : list VdevSpec; asCache : list gostr; asSpare : list gostr }.

Definition validVdevTypes : list gostr :=
  [ #"mirror"; #"raidz1"; #"raidz2"; #"raidz3"; #"stripe"; #"disk"].

Definition validLogTypes : list gostr := [ #"mirror"; #"stripe"; #"disk"].

(** "stripe" and "disk" are emitted as bare disks. *)
Definition bare (t : gostr) : bool := str_eqb t #"stripe" || str_eqb t #"disk".

Fixpoint emitVdevs (args : list gostr) (vdevs : list VdevSpec) (allowed : list gostr)
  : res pool_err (list gostr) :=
  match vdevs with
  | [] => Ok args
  | v :: vs =>
      let isDraid := has_prefix (vsType v) #"draid" in
      ensure isDraid || existsb (str_eqb (vsType v)) allowed else VdevType (vsType v) ;;
      match vsDisks v with
      | [] => Err (VdevNoDisks (vsType v))
      | disks => emitVdevs (args ++ (if bare (vsType v) then [] else [vsType v]) ++ disks) vs allowed
      end
  end.

(** One class of vdevs after its keyword, when there are any. *)
Definition emit_class (class : gostr) (vdevs : list VdevSpec) (allowed : list gostr) (args : list gostr)
  : res pool_err (list gostr) :=
  match vdevs with
  | [] => Ok args
  | _ => match emitVdevs (args ++ [class]) vdevs allowed with
         | Ok args => Ok args
         | Err e => Err (InClass class e)
         end
  end.

Definition emit_disks (class : gostr) (disks args : list gostr) : list gostr :=
  match disks with [] => args | _ => args ++ [class] ++ disks end.

(** What follows the name in both vectors. *)
Definition emit_layout (s : AddSpec) (args : list gostr) : res pool_err (list gostr) :=
  let? args := emitVdevs args (asVdevs s) validVdevTypes in
  let? args := emit_class #"special" (asSpecial s) validVdevTypes args in
  let? args := emit_class #"dedup" (asDedup s) validVdevTypes args in
  let? args := emit_class #"log" (asLog s) validLogTypes args in
  Ok (emit_disks #"spare" (asSpare s) (emit_disks #"cache" (asCache s) args)).

Definition layout_of (s : CreateSpec) : AddSpec :=
  mkAddSpec (csVdevs s) (csSpecial s) (csDedup s) (csLog s) (csCache s) (csSpare s).

Definition is_nil {A} (l : list A) : bool := match l with [] => true | _ => false end.

Definition buildCreateArgs (spec : CreateSpec) : res pool_err (list gostr) :=
  named BadName (ValidatePoolName (csName spec))
    (ensure negb (is_nil (csVdevs spec)) else NoVdevs ;;
     emit_layout (layout_of spec) [ #"create"; #"-f"; csName spec]).

Definition buildAddArgs (name : gostr) (spec : AddSpec) : res pool_err (list gostr) :=
  named BadName (ValidatePoolName name)
    (ensure negb (is_nil (asVdevs spec) && is_nil (asSpecial spec) && is_nil (asDedup spec)
                  && is_nil (asLog spec) && is_nil (asCache spec) && is_nil (asSpare spec))
     else NothingToAdd ;;
     emit_layout spec [ #"add"; #"-f"; name]).

(** ** Vectors of the other operations *)

Definition buildCheckpointArgs (name : gostr) (discard : bool) : res pool_err (list gostr) :=
  named BadName (ValidatePoolName name) (Ok ([ #"checkpoint"] ++ flag discard #"-d" ++ [name])).

Definition buildUpgradeArgs (name : gostr) (all : bool) : res pool_err (list gostr) :=
  if all then Ok [ #"upgrade"; #"-a"]
  else named BadName (ValidatePoolName name) (Ok [ #"upgrade"; name]).

Definition buildReguidArgs (name : gostr) : res pool_err (list gostr) :=
  named BadName (ValidatePoolName name) (Ok [ #"reguid"; name]).

Fixpoint check_names (ns : list gostr) : res pool_err unit :=
  match ns with
  | [] => Ok tt
  | n :: ns' => named SyncName (ValidatePoolName n) (check_names ns')
  end.

Definition buildSyncArgs (poolNames : list gostr) : res pool_err (list gostr) :=
  let? _ := check_names poolNames in Ok ([ #"sync"] ++ poolNames).

Definition dash (s : gostr) : bool := has_prefix s #"-".

Definition validWaitActivities : list gostr :=
  [ #"discard"; #"free"; #"initialize"; #"replace"; #"remove"; #"resilver"; #"scrub"; #"trim"].

(** ** Listings: parser.go *)

Record Pool := mkPool {
  pName : gostr; SizeBytes : Z; Allocated : Z; Free : Z; Health : gostr; ReadOnly : bool;
  Fragmentation : Z; Capacity : Z; DedupRatio : gostr }.

Definition parseInt (s : gostr) : res Datasets.ds_err Z :=
  if str_eqb s #"-" then Ok 0
  else match atoi s with None => Err (Datasets.BadNumber s) | Some v => Ok v end.

Definition parseRow (line : gostr) : res Datasets.ds_err Pool :=
  match split_on Datasets.tab line with
  | [f0; f1; f2; f3; f4; f5; f6; f7; f8] =>
      let? size := Datasets.parseUint f1 in
      let? alloc := Datasets.parseUint f2 in
      let? free := Datasets.parseUint f3 in
      let? frag := parseInt f6 in
      let? cap := parseInt f7 in
      Ok (mkPool f0 size alloc free f4 (str_eqb f5 #"on") frag cap f8)
  | f => Err (Datasets.BadFieldCount (length f))
  end.

Definition parseList (data : gostr) : res Datasets.ds_err (list Pool) :=
  Datasets.scan_with Snapshots.max_token parseRow data.

(** The same loop as for datasets. *)
Definition parseProps (data : gostr) : res Datasets.ds_err (gmap gostr gostr) := Datasets.parseProps data.

Record ImportablePool := mkImportable { ipName : gostr; ipState : gostr; ipStatus : gostr }.

(** The value after a label. *)
Definition label (lbl trim : gostr) : gostr := trim_space (trim_prefix trim lbl).

Fixpoint importable_loop (lines : list gostr) (out : list ImportablePool) (cur : option ImportablePool)
  : list ImportablePool :=
  match lines with
  | [] => out ++ match cur with Some c => [c] | None => [] end
  | l :: ls =>
      let trim := trim_space l in
      if has_prefix trim #"pool: " then
        importable_loop ls (out ++ match cur with Some c => [c] | None => [] end)
          (Some (mkImportable (label #"pool:" trim) [] []))
      else match cur with
      | None => importable_loop ls out cur
      | Some c =>
          if has_prefix trim #"state: " then
            importable_loop ls out (Some (mkImportable (ipName c) (label #"state:" trim) (ipStatus c)))
          else if has_prefix trim #"status: " then
            importable_loop ls out (Some (mkImportable (ipName c) (ipState c) (label #"status:" trim)))
          else importable_loop ls out cur
      end
  end.

Definition parseImportable (data : gostr) : list ImportablePool :=
  importable_loop (split_on (byte_of 10) data) [] None.

(** ** The scan line *)

(** Converting a decimal fraction times a multiplier to a 64-bit integer:
    strconv.ParseFloat and the conversion of the product, which the
    language leaves to the implementation when it does not fit. *)
Class FloatConv := { scaledFloat : gostr -> Z -> option Z }.

Record ScrubStatus := mkScrub { ssState : gostr; ssRawLine : gostr; ssScanned : Z; ssTotal : Z }.

Section Scan.
Context `{FloatConv}.

Definition suffix_mult (c : ascii) : option Z :=
  if ch_eqb c "B"%char then Some 1
  else if ch_eqb c "K"%char then Some 1024
  else if ch_eqb c "M"%char then Some (1024 ^ 2)
  else if ch_eqb c "G"%char then Some (1024 ^ 3)
  else if ch_eqb c "T"%char then Some (1024 ^ 4)
  else if ch_eqb c "P"%char then Some (1024 ^ 5)
  else None.

Definition parseHumanSize (s : gostr) : Z :=
  match rev s with
  | [] => 0
  | last :: rnum =>
      match suffix_mult last with
      | None => default 0 (Snapshots.parse_uint64 s)
      | Some mult => default 0 (scaledFloat (rev rnum) mult)
      end
  end.

(** What precedes the first occurrence of [sub]. *)
Fixpoint before_first (sub s : gostr) : option gostr :=
  if has_prefix s sub then Some []
  else match s with
       | [] => None
       | c :: s' => match before_first sub s' with Some r => Some (c :: r) | None => None end
       end.

Definition extractToken (s keyword : gostr) : option gostr :=
  match before_first (#" " ++ keyword) s with
  | None => None
  | Some before => last (fields (trim_space before))
  end.

Definition size_before (raw keyword : gostr) : Z :=
  match extractToken raw keyword with Some t => parseHumanSize t | None => 0 end.

Definition parseScrubStatus (raw : gostr) : ScrubStatus :=
  if str_eqb raw #"none requested" then mkScrub #"none" raw 0 0
  else if has_prefix raw #"scrub in progress" then
    mkScrub #"in-progress" raw (size_before raw #"scanned") (size_before raw #"total")
  else if has_prefix raw #"resilvered" then mkScrub #"resilver" raw 0 0
  else if has_prefix raw #"scrub repaired" then mkScrub #"finished" raw 0 0
  else mkScrub #"finished" raw 0 0.
End Scan.

(** ** The status tree *)

Inductive Vdev := mkVdev
  (vType vPath vState : gostr) (vReadErr vWriteErr vCksumErr : Z) (vChildren : list Vdev).

Record Status := mkStatus { stState : gostr; stScan : option ScrubStatus; stVdevs : list Vdev }.

(** A slice header, and a cell: a Vdev struct as it lies in an array. *)
Record slice := mkSlice { sArr : nat; sLen : nat; sCap : nat }.
Definition nil_slice : slice := mkSlice 0 0 0.

Record cell := mkCell {
  cType : gostr; cPath : gostr; cState : gostr; cReadErr : Z; cWriteErr : Z; cCksumErr : Z;
  cChildren : slice }.

(** The arrays that were allocated, each with the cells written so far. *)
Notation heap := (list (list cell)).
Definition ptr : Type := nat * nat.

Definition array (h : heap) (a : nat) : list cell := default [] (h !! a).
Definition load (h : heap) (p : ptr) : option cell := array h p.1 !! p.2.

(** Writing a cell, the next one of the array included. *)
Definition store (h : heap) (a i : nat) (c : cell) : heap :=
  alter (fun l => if (i <? length l)%nat then <[i := c]> l else l ++ [c]) a h.

Definition set_children (c : cell) (s : slice) : cell :=
  mkCell (cType c) (cPath c) (cState c) (cReadErr c) (cWriteErr c) (cCksumErr c) s.

Section Store.
(** The capacity of a grown slice is at least its length. *)
Context (grow : nat -> nat).

Definition append (h : heap) (s : slice) (c : cell) : heap * slice :=
  if (sLen s <? sCap s)%nat then (store h (sArr s) (sLen s) c, mkSlice (sArr s) (S (sLen s)) (sCap s))
  else (h ++ [take (sLen s) (array h (sArr s)) ++ [c]],
        mkSlice (length h) (S (sLen s)) (Nat.max (grow (S (sLen s))) (S (sLen s)))).

Definition classifyVdev (name state : gostr) : cell :=
  let typed t := mkCell t [] state 0 0 0 nil_slice in
  if has_prefix name #"mirror" then typed #"mirror"
  else if has_prefix name #"raidz3" then typed #"raidz3"
  else if has_prefix name #"raidz2" then typed #"raidz2"
  else if has_prefix name #"raidz1" || has_prefix name #"raidz" then typed #"raidz1"
  else if has_prefix name #"draid" then typed #"draid"
  else if str_eqb name #"logs" then typed #"log"
  else if str_eqb name #"cache" then typed #"cache"
  else if str_eqb name #"spares" then typed #"spare"
  else if str_eqb name #"special" then typed #"special"
  else if str_eqb name #"dedup" then typed #"dedup"
  else mkCell #"disk" name state 0 0 0 nil_slice.

Fixpoint count_spaces (s : gostr) : nat :=
  match s with c :: s' => if ch_eqb c " "%char then S (count_spaces s') else O | [] => O end.

(** The depth of a row, or none when it is not a row. *)
Definition configDepth (line : gostr) : option nat :=
  match line with
  | c :: rest => if ch_eqb c Datasets.tab then Some (count_spaces rest / 2)%nat else None
  | [] => None
  end.

(** The loop's variables.  The slice of top-level vdevs is a field of the
    status, which lies in array 0: a nil parent is a pointer to it. *)
Record parser := mkParser {
  pInConfig : bool; pRootSeen : bool; pState : gostr; pScan : option ScrubStatus;
  pParents : list (option ptr); pHeap : heap }.

Definition status_ptr : ptr := (0%nat, 0%nat).
Definition empty_cell : cell := mkCell [] [] [] 0 0 0 nil_slice.
Definition start : parser := mkParser false false [] None [None; None; None; None] [[empty_cell]].

Definition parent_of (ps : list (option ptr)) (depth : nat) : ptr :=
  match depth with
  | O => status_ptr
  | S d => match ps !! d with Some (Some p) => p | _ => status_ptr end
  end.

(** Insert a row below its parent and make it the parent of the next
    depth, closing the deeper ones. *)
Definition insert_row (depth : nat) (v : cell) (s : parser) : parser :=
  let p := parent_of (pParents s) depth in
  match load (pHeap s) p with
  | None => s
  | Some c =>
      let '(h, kids) := append (pHeap s) (cChildren c) v in
      mkParser (pInConfig s) (pRootSeen s) (pState s) (pScan s)
        (take depth (pParents s) ++ [Some (sArr kids, sLen (cChildren c))] ++ replicate (3 - depth) None)
        (store h p.1 p.2 (set_children c kids))
  end.

Definition row_step (depth : nat) (v : cell) (s : parser) : parser :=
  if (4 <=? depth)%nat then s
  else if (depth =? 0)%nat && negb (pRootSeen s) then
    mkParser (pInConfig s) true (pState s) (pScan s) (<[0%nat := None]> (pParents s)) (pHeap s)
  else insert_row depth v s.

Definition config_line (line trim : gostr) (s : parser) : parser :=
  match fields trim with
  | [] => s
  | name :: rest =>
      let state := match rest with st :: _ => st | [] => #"-" end in
      match configDepth line with
      | None => s
      | Some depth => row_step depth (classifyVdev name state) s
      end
  end.

Definition set_config (s : parser) (b : bool) : parser :=
  mkParser b (pRootSeen s) (pState s) (pScan s) (pParents s) (pHeap s).

Definition status_line `{FloatConv} (s : parser) (line : gostr) : parser :=
  let trim := trim_space line in
  if has_prefix trim #"state:" then
    mkParser (pInConfig s) (pRootSeen s) (label #"state:" trim) (pScan s) (pParents s) (pHeap s)
  else if has_prefix trim #"scan:" then
    mkParser (pInConfig s) (pRootSeen s) (pState s) (Some (parseScrubStatus (label #"scan:" trim)))
      (pParents s) (pHeap s)
  else if has_prefix trim #"config:" then set_config s true
  else if has_prefix trim #"errors:" then set_config s false
  else if negb (pInConfig s) || str_eqb trim [] || has_prefix trim #"NAME" then s
  else config_line line trim s.

(** The tree a slice holds; a row has a depth below four, and its children
    one more, so four levels are all there are. *)
Fixpoint read_slice (fuel : nat) (h : heap) (s : slice) : list Vdev :=
  match fuel with
  | O => []
  | S fuel =>
      map (fun c => mkVdev (cType c) (cPath c) (cState c) (cReadErr c) (cWriteErr c) (cCksumErr c)
                      (read_slice fuel h (cChildren c)))
          (take (sLen s) (array h (sArr s)))
  end.

Definition top_vdevs (h : heap) : list Vdev :=
  match load h status_ptr with Some c => read_slice 4 h (cChildren c) | None => [] end.

Definition parseStatus `{FloatConv} (data : gostr) : res Datasets.ds_err Status :=
  let '(ls, long) := Snapshots.scan_lines (Snapshots.raw_lines data) in
  let s := fold_left status_line ls start in
  if long then Err Datasets.LineTooLong
  else Ok (mkStatus (pState s) (pScan s) (top_vdevs (pHeap s))).
End Store.

(** ** The manager *)

Section Manager.
Context {W : Type} `{HostExec W, FloatConv} (grow : nat -> nat) (ZpoolBin : gostr).

Definition run (args : res pool_err (list gostr)) : M W (option pool_err) :=
  match args with
  | Err e => ret (Some e)
  | Ok args =>
      let! r := call (Run ZpoolBin args) in
      ret (match r with Err e => Some (Host e) | Ok _ => None end)
  end.

Definition Create (spec : CreateSpec) : M W (option pool_err) := run (buildCreateArgs spec).

Definition Add (name : gostr) (spec : AddSpec) : M W (option pool_err) := run (buildAddArgs name spec).

Definition Destroy (name : gostr) : M W (option pool_err) :=
  run (named BadName (ValidatePoolName name) (Ok [ #"destroy"; #"-f"; name])).

Inductive ScrubAction := ScrubStart | ScrubStop | ScrubOther.

Definition Scrub (name : gostr) (action : ScrubAction) : M W (option pool_err) :=
  run (named BadName (ValidatePoolName name)
    (Ok ([ #"scrub"] ++ (match action with ScrubStop => [ #"-s"] | _ => [] end) ++ [name]))).

Definition Replace (name oldDisk newDisk : gostr) : M W (option pool_err) :=
  run (named BadName (ValidatePoolName name)
    (ensure negb (str_eqb oldDisk [] || str_eqb newDisk []) else DisksRequired ;;
     ensure negb (dash oldDisk || dash newDisk) else DashDisk ;;
     Ok [ #"replace"; #"-f"; name; oldDisk; newDisk])).

Definition Offline (name disk : gostr) (temporary : bool) : M W (option pool_err) :=
  run (named BadName (ValidatePoolName name)
    (ensure negb (str_eqb disk [] || dash disk) else DiskRequired ;;
     Ok ([ #"offline"] ++ flag temporary #"-t" ++ [name; disk]))).

Definition Online (name disk : gostr) : M W (option pool_err) :=
  run (named BadName (ValidatePoolName name)
    (ensure negb (str_eqb disk [] || dash disk) else DiskRequired ;; Ok [ #"online"; name; disk])).

Definition Clear (name disk : gostr) : M W (option pool_err) :=
  run (named BadName (ValidatePoolName name)
    (if str_eqb disk [] then Ok [ #"clear"; name]
     else ensure negb (dash disk) else DashDisk ;; Ok [ #"clear"; name; disk])).

Definition Attach (name existing newDisk : gostr) : M W (option pool_err) :=
  run (named BadName (ValidatePoolName name)
    (ensure negb (str_eqb existing [] || str_eqb newDisk []) else DisksRequired ;;
     ensure negb (dash existing || dash newDisk) else DashDisk ;;
     Ok [ #"attach"; #"-f"; name; existing; newDisk])).

Definition Detach (name disk : gostr) : M W (option pool_err) :=
  run (named BadName (ValidatePoolName name)
    (ensure negb (str_eqb disk [] || dash disk) else DiskRequired ;; Ok [ #"detach"; name; disk])).

Definition Export (name : gostr) (force : bool) : M W (option pool_err) :=
  run (named BadName (ValidatePoolName name) (Ok ([ #"export"] ++ flag force #"-f" ++ [name]))).

Definition Import (name : gostr) : M W (option pool_err) :=
  run (named BadName (ValidatePoolName name) (Ok [ #"import"; name])).

Definition Importable : M W (res pool_err (list ImportablePool)) :=
  let! r := call (Run ZpoolBin [ #"import"]) in
  ret (match r with
       | Err e => if stderr_says #"no pools available" e then Ok [] else Err (Host e)
       | Ok out => Ok (parseImportable out)
       end).

Definition trim_start (action : gostr) : bool := str_eqb action #"start".
Definition trim_stop (action : gostr) : bool := str_eqb action #"stop".

Definition Trim (name action disk : gostr) : M W (option pool_err) :=
  run (named BadName (ValidatePoolName name)
    (ensure trim_start action || trim_stop action else BadTrim action ;;
     let args := [ #"trim"] ++ flag (trim_stop action) #"-c" ++ [name] in
     if str_eqb disk [] then Ok args
     else ensure negb (dash disk) else DashDisk ;; Ok (args ++ [disk]))).

Fixpoint set_props (name : gostr) (props : gmap gostr gostr) (keys : list gostr) : M W (option pool_err) :=
  match keys with
  | [] => ret None
  | k :: keys' =>
      let! r := call (Run ZpoolBin [ #"set"; k ++ #"=" ++ prop_value props k; name]) in
      match r with
      | Err e => ret (Some (Host e))
      | Ok _ => set_props name props keys'
      end
  end.

Definition SetProps (name : gostr) (props : gmap gostr gostr) : M W (option pool_err) :=
  match ValidatePoolName name with
  | Err e => ret (Some (BadName e))
  | Ok _ =>
      if existsb (fun k => str_eqb k [] || dash k) (sorted_keys props) then ret (Some BadProperty)
      else set_props name props (sorted_keys props)
  end.

(** The deadline of the call is left to the runner. *)
Definition Wait (name activity : gostr) : M W (option pool_err) :=
  run (named BadName (ValidatePoolName name)
    (ensure existsb (str_eqb activity) validWaitActivities else BadActivity activity ;;
     Ok [ #"wait"; #"-t"; activity; name])).

Definition Checkpoint (name : gostr) : M W (option pool_err) := run (buildCheckpointArgs name false).
Definition DiscardCheckpoint (name : gostr) : M W (option pool_err) := run (buildCheckpointArgs name true).
Definition Upgrade (name : gostr) (all : bool) : M W (option pool_err) := run (buildUpgradeArgs name all).
Definition Reguid (name : gostr) : M W (option pool_err) := run (buildReguidArgs name).
Definition Sync (poolNames : list gostr) : M W (option pool_err) := run (buildSyncArgs poolNames).

Record Detail := mkDetail { detPool : Pool; detProps : gmap gostr gostr; detStatus : Status }.

Definition pool_columns : gostr :=
  #"name,size,allocated,free,health,readonly,fragmentation,capacity,dedupratio".

Definition parsed {A} (r : res Datasets.ds_err A) : res pool_err A :=
  match r with Ok a => Ok a | Err e => Err (Parse e) end.

Definition Get (name : gostr) : M W (res pool_err Detail) :=
  let! l := call (Run ZpoolBin [ #"list"; #"-H"; #"-p"; #"-o"; pool_columns; name]) in
  match l with
  | Err e => ret (Err (if stderr_says #"no such pool" e then ErrNotFound else Host e))
  | Ok out =>
      match parseList out with
      | Err e => ret (Err (Parse e))
      | Ok [] => ret (Err ErrNotFound)
      | Ok (p :: _) =>
          let! g := call (Run ZpoolBin [ #"get"; #"-H"; #"-p"; #"all"; name]) in
          match g with
          | Err e => ret (Err (Host e))
          | Ok out =>
              match parseProps out with
              | Err e => ret (Err (Parse e))
              | Ok props =>
                  let! s := call (Run ZpoolBin [ #"status"; #"-P"; name]) in
                  ret (match s with
                       | Err e => Err (Host e)
                       | Ok out => let? st := parsed (parseStatus grow out) in Ok (mkDetail p props st)
                       end)
              end
          end
      end
  end.

Definition List_ : M W (res pool_err (list Pool)) :=
  let! l := call (Run ZpoolBin [ #"list"; #"-H"; #"-p"; #"-o"; pool_columns]) in
  ret (match l with Err e => Err (Host e) | Ok out => parsed (parseList out) end).

(** ** Scrubs: scrub.go *)

Record ScrubInfo := mkScrubInfo {
  siState : gostr; siScanned : Z; siTotal : Z; siErrors : Z; siRawLine : gostr }.

(** 64-bit sums over the disks of the tree. *)
Definition add64 (a b : Z) : Z := (a + b) mod 2 ^ 64.

Fixpoint vdev_errors (v : Vdev) : Z :=
  match v with
  | mkVdev t p _ r w c kids =>
      let own := if str_eqb t #"disk" && negb (str_eqb p []) then add64 (add64 r w) c else 0 in
      add64 own (fold_left (fun acc k => add64 acc (vdev_errors k)) kids 0)
  end.

Definition sumVdevErrors (vdevs : list Vdev) : Z := fold_left (fun acc v => add64 acc (vdev_errors v)) vdevs 0.

Definition scrub_info (st : Status) : ScrubInfo :=
  let errors := sumVdevErrors (stVdevs st) in
  match stScan st with
  | None => mkScrubInfo #"none" 0 0 errors []
  | Some s => mkScrubInfo (ssState s) (ssScanned s) (ssTotal s) errors (ssRawLine s)
  end.

Definition ScrubStatus_ (name : gostr) : M W (res pool_err ScrubInfo) :=
  let! d := Get name in
  ret (match d with Err e => Err e | Ok d => Ok (scrub_info (detStatus d)) end).

Definition state_is (s : gostr) (r : res pool_err ScrubInfo) : res pool_err bool :=
  match r with Err e => Err e | Ok info => Ok (str_eqb (siState info) s) end.

Definition IsScrubInProgress (name : gostr) : M W (res pool_err bool) :=
  let! r := ScrubStatus_ name in ret (state_is #"in-progress" r).

Definition IsResilverInProgress (name : gostr) : M W (res pool_err bool) :=
  let! r := ScrubStatus_ name in ret (state_is #"resilver" r).

Definition StartScrub (name : gostr) : M W (option pool_err) := Scrub name ScrubStart.
Definition StopScrub (name : gostr) : M W (option pool_err) := Scrub name ScrubStop.

Definition PoolNames : M W (res pool_err (list gostr)) :=
  let! r := List_ in
  ret (match r with Err e => Err e | Ok ps => Ok (map pName ps) end).
End Manager.
End Pools.
