(* ===== verification/ZfsPoolCorrect.v ===== *)
(** * The pool manager runs what it was asked, and zpool reads the layout
    that was asked

    Two readings are the measure: that of getopt for the flags and the
    operands, and that of zpool for the words of a layout, in which a
    grouping word takes all disks up to the next keyword. *)

From S2P Require Import Prelude GoStrings SortLib Effects ZfsNames ZfsNamesCorrect HostExec ZfsDataset ZfsPool.
Import Names Pools.

#[local] Arguments str : simpl never.

(** ** The words of a layout, as zpool reads them *)

(** A top-level vdev: its class, its type and its disks.  A disk outside a
    group is a vdev of its own. *)
Definition top_vdev : Type := gostr * gostr * list gostr.

Definition data_class : gostr := #"data".

(** Keywords after which the vdevs belong to another class. *)
Definition class_words : list gostr := [ #"special"; #"dedup"; #"log"].

(** Keywords that take disks only. *)
Definition list_words : list gostr := [ #"cache"; #"spare"].

(** draid, with an optional parity and layout. *)
Definition draid_word (w : gostr) : bool :=
  match strip_prefix #"draid" w with
  | None => false
  | Some [] => true
  | Some (c :: _) => ch_eqb c ":"%char || is_digit c
  end.

Definition group_words : list gostr := [ #"mirror"; #"raidz"; #"raidz1"; #"raidz2"; #"raidz3"].

Definition is_group (w : gostr) : bool := existsb (str_eqb w) group_words || draid_word w.
Definition is_class (w : gostr) : bool := existsb (str_eqb w) class_words.
Definition is_list (w : gostr) : bool := existsb (str_eqb w) list_words.

Definition keyword (w : gostr) : bool := is_class w || is_list w || is_group w.

Definition flush (g : option top_vdev) : list top_vdev := match g with Some v => [v] | None => [] end.

(** The reading: the class in force, the open group, the words. *)
Fixpoint read_layout (cls : gostr) (g : option top_vdev) (ws : list gostr) : list top_vdev :=
  match ws with
  | [] => flush g
  | w :: ws' =>
      if is_class w then flush g ++ read_layout w None ws'
      else if is_list w then flush g ++ read_layout cls (Some (w, #"disk", [])) ws'
      else if is_group w then flush g ++ read_layout cls (Some (cls, w, [])) ws'
      else match g with
           | Some (c, t, ds) => read_layout cls (Some (c, t, ds ++ [w])) ws'
           | None => (cls, #"disk", [w]) :: read_layout cls None ws'
           end
  end.

Lemma read_layout_cons cls g w ws : read_layout cls g (w :: ws) =
  if is_class w then flush g ++ read_layout w None ws
  else if is_list w then flush g ++ read_layout cls (Some (w, #"disk", [])) ws
  else if is_group w then flush g ++ read_layout cls (Some (cls, w, [])) ws
  else match g with
       | Some (c, t, ds) => read_layout cls (Some (c, t, ds ++ [w])) ws
       | None => (cls, #"disk", [w]) :: read_layout cls None ws
       end.
Proof. reflexivity. Qed.

(** ** The layout that was asked for *)

Definition singles (cls : gostr) (ds : list gostr) : list top_vdev := map (fun d => (cls, #"disk", [d])) ds.

Definition vdev_asked (cls : gostr) (v : VdevSpec) : list top_vdev :=
  if bare (vsType v) then singles cls (vsDisks v) else [(cls, vsType v, vsDisks v)].

Definition vdevs_asked (cls : gostr) (vs : list VdevSpec) : list top_vdev := concat (map (vdev_asked cls) vs).

Definition list_asked (word : gostr) (ds : list gostr) : list top_vdev :=
  match ds with [] => [] | _ => [(word, #"disk", ds)] end.

Definition layout_asked (s : AddSpec) : list top_vdev :=
  vdevs_asked data_class (asVdevs s) ++ vdevs_asked #"special" (asSpecial s) ++ vdevs_asked #"dedup" (asDedup s)
  ++ vdevs_asked #"log" (asLog s) ++ list_asked #"cache" (asCache s) ++ list_asked #"spare" (asSpare s).

Definition classes_of (s : AddSpec) : list (list VdevSpec) := [asVdevs s; asSpecial s; asDedup s; asLog s].

(** No disk is a keyword, and draid types have their form. *)
Definition plain_vdev (v : VdevSpec) : bool :=
  forallb (fun d => negb (keyword d)) (vsDisks v) && (negb (has_prefix (vsType v) #"draid") || draid_word (vsType v)).

(** Log vdevs are documented to be single disks or mirrors. *)
Definition log_vdev (v : VdevSpec) : bool := str_eqb (vsType v) #"disk" || str_eqb (vsType v) #"mirror".

Definition plain_layout (s : AddSpec) : bool :=
  forallb (forallb plain_vdev) (classes_of s)
  && forallb (fun d => negb (keyword d)) (asCache s) && forallb (fun d => negb (keyword d)) (asSpare s).

(** In a class, no bare disk comes after a group. *)
Fixpoint bare_first (grouped : bool) (vs : list VdevSpec) : bool :=
  match vs with
  | [] => true
  | v :: vs' => negb (grouped && bare (vsType v)) && bare_first (grouped || negb (bare (vsType v))) vs'
  end.

(** ** Reading one class *)

(** The vdevs zpool makes of a list of them: bare disks join an open group. *)
Fixpoint merged (cls : gostr) (g : option top_vdev) (vs : list VdevSpec) : list top_vdev :=
  match vs with
  | [] => flush g
  | v :: vs' =>
      if bare (vsType v) then
        match g with
        | Some (c, t, ds) => merged cls (Some (c, t, ds ++ vsDisks v)) vs'
        | None => singles cls (vsDisks v) ++ merged cls None vs'
        end
      else flush g ++ merged cls (Some (cls, vsType v, vsDisks v)) vs'
  end.

Definition vdev_words (v : VdevSpec) : list gostr := (if bare (vsType v) then [] else [vsType v]) ++ vsDisks v.

Lemma emitVdevs_eq args vs allowed r : emitVdevs args vs allowed = Ok r ->
  r = args ++ concat (map vdev_words vs) /\
  Forall (fun v => vsDisks v <> [] /\ (has_prefix (vsType v) #"draid" = true \/ vsType v ∈ allowed)) vs.
Proof.
  revert args. induction vs as [|v vs IH]; intros args; cbn [emitVdevs map concat].
  { intros [= <-]. by rewrite app_nil_r. }
  destruct (_ || _) eqn:Ea; [|done]. destruct (vsDisks v) as [|d ds] eqn:Ed; [done|].
  intros [-> Hall]%IH. split; [unfold vdev_words; by rewrite Ed, <- !app_assoc|].
  constructor; [|done]. split; [by rewrite Ed|]. apply orb_true_iff in Ea as [Ea|Ea]; [by left|right].
  by apply existsb_str.
Qed.

Lemma plain_disks ds : forallb (fun d => negb (keyword d)) ds = true ->
  Forall (fun d => is_class d = false /\ is_list d = false /\ is_group d = false) ds.
Proof.
  intros Hd. apply Forall_forall. intros d Hin. rewrite forallb_forall in Hd.
  specialize (Hd d (proj1 (list_elem_of_In _ _) Hin)). unfold keyword in Hd.
  destruct (is_class d), (is_list d), (is_group d); done.
Qed.

Lemma read_disks_open cls c t ds ws rest :
  Forall (fun d => is_class d = false /\ is_list d = false /\ is_group d = false) ws ->
  read_layout cls (Some (c, t, ds)) (ws ++ rest) = read_layout cls (Some (c, t, ds ++ ws)) rest.
Proof.
  intros Hws. revert ds. induction Hws as [|w ws (E1 & E2 & E3) Hws IH]; intros ds; [by rewrite app_nil_r|].
  cbn [app read_layout]. rewrite E1, E2, E3, IH. by rewrite <- app_assoc.
Qed.

Lemma read_disks_bare cls ws rest :
  Forall (fun d => is_class d = false /\ is_list d = false /\ is_group d = false) ws ->
  read_layout cls None (ws ++ rest) = singles cls ws ++ read_layout cls None rest.
Proof.
  induction 1 as [|w ws (E1 & E2 & E3) Hws IH]; [done|]. cbn [app read_layout]. by rewrite E1, E2, E3, IH.
Qed.

(** A type that is emitted is a grouping word. *)
Lemma emitted_group v : plain_vdev v = true -> bare (vsType v) = false ->
  has_prefix (vsType v) #"draid" = true \/ vsType v ∈ validVdevTypes ->
  is_class (vsType v) = false /\ is_list (vsType v) = false /\ is_group (vsType v) = true.
Proof.
  intros [_ Hp]%andb_true_iff Hb [Hd|Hin].
  - rewrite Hd in Hp. cbn [negb orb] in Hp. apply has_prefix_iff in Hd as [r Hd].
    split_and!; [| |unfold is_group; by rewrite Hp, orb_true_r]; rewrite Hd; reflexivity.
  - assert (Hall : Forall (fun t => bare t = false -> is_class t = false /\ is_list t = false /\ is_group t = true) validVdevTypes)
      by (repeat constructor; by vm_compute).
    rewrite Forall_forall in Hall. by apply Hall.
Qed.

Lemma plain_vdev_disks v : plain_vdev v = true ->
  Forall (fun d => is_class d = false /\ is_list d = false /\ is_group d = false) (vsDisks v).
Proof. intros [Hd _]%andb_true_iff. by apply plain_disks. Qed.

(** Where the words of a class end: at the end, or at a keyword of
    another class. *)
Definition ends (rest : list gostr) : Prop :=
  match rest with [] => True | w :: _ => is_class w = true \/ is_list w = true end.

Definition after (cls : gostr) (rest : list gostr) : list top_vdev :=
  match rest with [] => [] | _ => read_layout cls None rest end.

Lemma read_ends cls g rest : ends rest -> read_layout cls g rest = flush g ++ read_layout cls None rest.
Proof.
  destruct rest as [|w rest]; intros Hw; [by rewrite app_nil_r|]. cbn [read_layout].
  destruct Hw as [Hw|Hw]; rewrite Hw; [done|]. destruct (is_class w); done.
Qed.

Lemma read_vdevs cls g vs rest : ends rest ->
  Forall (fun v => plain_vdev v = true /\ (has_prefix (vsType v) #"draid" = true \/ vsType v ∈ validVdevTypes)) vs ->
  read_layout cls g (concat (map vdev_words vs) ++ rest) = merged cls g vs ++ read_layout cls None rest.
Proof.
  intros He Hvs. revert g. induction Hvs as [|v vs [Hp Ht] Hvs IH]; intros g; [by apply read_ends|].
  cbn [map concat merged]. rewrite <- app_assoc. unfold vdev_words at 1. pose proof (plain_vdev_disks v Hp) as Hd.
  destruct (bare (vsType v)) eqn:Eb.
  - cbn [app]. destruct g as [[[c t] ds]|].
    + by rewrite read_disks_open, IH.
    + by rewrite read_disks_bare, IH, app_assoc.
  - destruct (emitted_group v Hp Eb Ht) as (E1 & E2 & E3). cbn [app read_layout]. rewrite E1, E2, E3.
    by rewrite read_disks_open, IH, <- app_assoc.
Qed.

(** Bare disks that come first are read as asked; one that comes later
    joins a group, and there are fewer vdevs than asked. *)
Lemma merged_asked cls g vs : Forall (fun v => vsDisks v <> []) vs ->
  if bare_first (match g with Some _ => true | None => false end) vs
  then merged cls g vs = flush g ++ vdevs_asked cls vs
  else (length (merged cls g vs) < length (flush g ++ vdevs_asked cls vs))%nat.
Proof.
  intros Hvs. revert g. induction Hvs as [|v vs Hd Hvs IH]; intros g; [by rewrite app_nil_r|].
  cbn [bare_first merged]. unfold vdevs_asked in *. cbn [map concat].
  assert (Hva : vdev_asked cls v = if bare (vsType v) then singles cls (vsDisks v) else [(cls, vsType v, vsDisks v)]) by done.
  destruct (bare (vsType v)) eqn:Eb; rewrite Hva.
  - destruct g as [[[c t] ds]|]; cbn [andb negb orb].
    + specialize (IH (Some (c, t, ds ++ vsDisks v))). cbn [flush] in *.
      assert (Hlen : (1 <= length (singles cls (vsDisks v)))%nat)
        by (unfold singles; rewrite length_map; destruct (vsDisks v); [done|simpl; lia]).
      assert (Hm : (length (merged cls (Some (c, t, ds ++ vsDisks v)) vs) <= 1 + length (concat (map (vdev_asked cls) vs)))%nat).
      { destruct (bare_first true vs); [by rewrite IH|]. rewrite length_app in IH. simpl in IH. lia. }
      rewrite !length_app. simpl length. lia.
    + specialize (IH None). cbn [flush app] in *.
      destruct (bare_first false vs); [by rewrite IH|]. rewrite !length_app. lia.
  - rewrite andb_false_r, orb_true_r. cbn [negb andb].
    specialize (IH (Some (cls, vsType v, vsDisks v))). cbn [flush] in IH.
    destruct (bare_first true vs); [by rewrite IH|]. rewrite !length_app in *. simpl length in *. lia.
Qed.

(** ** The words of a whole layout *)

Definition class_part (word : gostr) (vs : list VdevSpec) : list gostr :=
  match vs with [] => [] | _ => word :: concat (map vdev_words vs) end.
Definition list_part (word : gostr) (ds : list gostr) : list gostr :=
  match ds with [] => [] | _ => word :: ds end.

Definition layout_words (s : AddSpec) : list gostr :=
  concat (map vdev_words (asVdevs s)) ++ class_part #"special" (asSpecial s) ++ class_part #"dedup" (asDedup s)
  ++ class_part #"log" (asLog s) ++ list_part #"cache" (asCache s) ++ list_part #"spare" (asSpare s).

Definition emitted (v : VdevSpec) : Prop :=
  vsDisks v <> [] /\ (has_prefix (vsType v) #"draid" = true \/ vsType v ∈ validVdevTypes).

Lemma emit_class_eq word vs allowed args r : emit_class word vs allowed args = Ok r ->
  (forall t, t ∈ allowed -> t ∈ validVdevTypes) ->
  r = args ++ class_part word vs /\ Forall emitted vs.
Proof.
  unfold emit_class, class_part. intros E Hsub. destruct vs as [|v vs].
  { injection E as <-. by rewrite app_nil_r. }
  destruct (emitVdevs _ _ _) as [a|e] eqn:Ee; [|done]. assert (a = r) as -> by congruence.
  apply emitVdevs_eq in Ee as [-> Hall]. rewrite <- app_assoc. split; [done|].
  eapply Forall_impl; [exact Hall|]. intros x [Hd Ht]. split; [done|]. destruct Ht; auto.
Qed.

Lemma emit_disks_eq word ds args : emit_disks word ds args = args ++ list_part word ds.
Proof. destruct ds; simpl; [by rewrite app_nil_r|done]. Qed.

Lemma emit_layout_eq s args r : emit_layout s args = Ok r ->
  r = args ++ layout_words s /\ Forall (Forall emitted) (classes_of s).
Proof.
  unfold emit_layout. intros E.
  destruct (emitVdevs _ _ _) as [a1|] eqn:E1; [|done]. apply emitVdevs_eq in E1 as [-> H1].
  destruct (emit_class #"special" _ _ _) as [a2|] eqn:E2; [|done].
  apply emit_class_eq in E2 as [-> H2]; [|done].
  destruct (emit_class #"dedup" _ _ _) as [a3|] eqn:E3; [|done].
  apply emit_class_eq in E3 as [-> H3]; [|done].
  destruct (emit_class #"log" _ _ _) as [a4|] eqn:E4; [|done].
  apply emit_class_eq in E4 as [-> H4].
  2:{ intros t Ht. unfold validLogTypes in Ht. unfold validVdevTypes. set_solver. }
  rewrite !emit_disks_eq in E. injection E as <-. unfold layout_words. rewrite <- !app_assoc.
  split; [done|]. by repeat constructor.
Qed.

Lemma list_part_ends word ds rest : is_list word = true -> ends rest -> ends (list_part word ds ++ rest).
Proof. intros Hw Hr. destruct ds; [done|]. by right. Qed.

Lemma class_part_ends word vs rest : is_class word = true -> ends rest -> ends (class_part word vs ++ rest).
Proof. intros Hw Hr. destruct vs; [done|]. by left. Qed.

Lemma read_list cls word ds rest : is_class word = false -> is_list word = true ->
  forallb (fun d => negb (keyword d)) ds = true -> ends rest ->
  read_layout cls None (list_part word ds ++ rest) = list_asked word ds ++ read_layout cls None rest.
Proof.
  intros Hc Hw Hd Hr. destruct ds as [|d ds]; [done|]. unfold list_part, list_asked.
  change ((word :: d :: ds) ++ rest) with (word :: (d :: ds) ++ rest).
  rewrite read_layout_cons, Hc, Hw. cbn [flush]. rewrite app_nil_l.
  rewrite (read_disks_open cls word #"disk" [] (d :: ds) rest) by (by apply plain_disks).
  rewrite read_ends by done. done.
Qed.

Lemma read_class cls word vs rest : is_class word = true -> ends rest ->
  (forall c c', read_layout c None rest = read_layout c' None rest) ->
  forallb plain_vdev vs = true -> Forall emitted vs ->
  read_layout cls None (class_part word vs ++ rest) = merged word None vs ++ read_layout cls None rest.
Proof.
  intros Hc Hr Hind Hp He. destruct vs as [|v vs]; [done|]. unfold class_part.
  change ((word :: concat (map vdev_words (v :: vs))) ++ rest) with (word :: concat (map vdev_words (v :: vs)) ++ rest).
  rewrite read_layout_cons, Hc. cbn [flush]. rewrite app_nil_l. rewrite read_vdevs; [by rewrite (Hind cls word)|done|].
  rewrite Forall_forall in He |- *. intros x Hx. rewrite forallb_forall in Hp.
  split; [by apply Hp, list_elem_of_In|by apply He].
Qed.

Definition layout_read (s : AddSpec) : list top_vdev :=
  merged data_class None (asVdevs s) ++ merged #"special" None (asSpecial s) ++ merged #"dedup" None (asDedup s)
  ++ merged #"log" None (asLog s) ++ list_asked #"cache" (asCache s) ++ list_asked #"spare" (asSpare s).

Lemma read_layout_words s : plain_layout s = true -> Forall (Forall emitted) (classes_of s) ->
  read_layout data_class None (layout_words s) = layout_read s.
Proof.
  intros [[Hpl Hc]%andb_true_iff Hsp]%andb_true_iff He. unfold classes_of in Hpl, He.
  cbn [forallb] in Hpl. rewrite !andb_true_iff in Hpl. destruct Hpl as (P1 & P2 & P3 & P4 & _).
  apply Forall_cons in He as [E1 [E2 [E3 [E4 _]%Forall_cons]%Forall_cons]%Forall_cons].
  unfold layout_words, layout_read.
  set (tspare := list_part #"spare" (asSpare s)).
  assert (Hspare : forall c, read_layout c None tspare = list_asked #"spare" (asSpare s)).
  { intros c. unfold tspare. rewrite <- (app_nil_r (list_part _ _)), read_list by done. by rewrite app_nil_r. }
  assert (Nspare : ends tspare) by (rewrite <- (app_nil_r tspare); by apply list_part_ends).
  set (tcache := list_part #"cache" (asCache s) ++ tspare).
  assert (Hcache : forall c, read_layout c None tcache = list_asked #"cache" (asCache s) ++ list_asked #"spare" (asSpare s)).
  { intros c. unfold tcache. by rewrite read_list, Hspare. }
  assert (Ncache : ends tcache) by (by apply list_part_ends).
  set (tlog := class_part #"log" (asLog s) ++ tcache).
  assert (Hlog : forall c, read_layout c None tlog = merged #"log" None (asLog s) ++ list_asked #"cache" (asCache s) ++ list_asked #"spare" (asSpare s)).
  { intros c. unfold tlog. rewrite read_class by (try done; intros; by rewrite !Hcache). by rewrite Hcache. }
  assert (Nlog : ends tlog) by (by apply class_part_ends).
  set (tdedup := class_part #"dedup" (asDedup s) ++ tlog).
  assert (Hdedup : forall c, read_layout c None tdedup = merged #"dedup" None (asDedup s) ++ read_layout c None tlog).
  { intros c. unfold tdedup. by rewrite read_class by (try done; intros; by rewrite !Hlog). }
  assert (Ndedup : ends tdedup) by (by apply class_part_ends).
  set (tspecial := class_part #"special" (asSpecial s) ++ tdedup).
  assert (Nspecial : ends tspecial) by (by apply class_part_ends).
  rewrite read_vdevs; [|done|].
  - unfold tspecial. rewrite read_class by (try done; intros; by rewrite !Hdedup, !Hlog).
    by rewrite Hdedup, Hlog.
  - rewrite Forall_forall in E1 |- *. intros x Hx. rewrite forallb_forall in P1.
    split; [by apply P1, list_elem_of_In|by apply E1].
Qed.

Lemma app_exact {A} (a b c d : list A) : (length a <= length c)%nat -> (length b <= length d)%nat ->
  a ++ b = c ++ d -> a = c /\ b = d.
Proof.
  intros Ha Hb E. assert (length a = length c) by (apply (f_equal length) in E; rewrite !length_app in E; lia).
  by apply app_inj_1.
Qed.

Lemma merged_cases cls vs : Forall emitted vs ->
  (bare_first false vs = true /\ merged cls None vs = vdevs_asked cls vs) \/
  (bare_first false vs = false /\ (length (merged cls None vs) < length (vdevs_asked cls vs))%nat).
Proof.
  intros He. pose proof (merged_asked cls None vs) as Hm. cbn [flush app] in Hm.
  destruct (bare_first false vs); [left|right]; (split; [done|]); apply Hm;
    eapply Forall_impl; [exact He|by intros ? []|exact He|by intros ? []].
Qed.

Lemma layout_read_iff s : Forall (Forall emitted) (classes_of s) ->
  layout_read s = layout_asked s <-> forallb (bare_first false) (classes_of s) = true.
Proof.
  intros He. unfold classes_of in *. cbn [forallb]. rewrite !andb_true_iff.
  apply Forall_cons in He as [E1 [E2 [E3 [E4 _]%Forall_cons]%Forall_cons]%Forall_cons].
  unfold layout_read, layout_asked.
  destruct (merged_cases data_class _ E1) as [[B1 M1]|[B1 M1]], (merged_cases #"special" _ E2) as [[B2 M2]|[B2 M2]],
    (merged_cases #"dedup" _ E3) as [[B3 M3]|[B3 M3]], (merged_cases #"log" _ E4) as [[B4 M4]|[B4 M4]];
    rewrite B1, B2, B3, B4; rewrite ?M1, ?M2, ?M3, ?M4; (split; [|naive_solver]);
    intros E; (done || (apply (f_equal length) in E; rewrite !length_app in E; rewrite ?M1, ?M2, ?M3, ?M4 in E; lia)).
Qed.

(** C25. When no disk is one of the keywords of zpool, draid types are
    well formed and log vdevs are disks or mirrors, the layout zpool
    reads from the arguments of a create or an add is the layout asked
    for, class by class and vdev by vdev, exactly when in no class a
    single disk or a stripe is listed after a mirror, raidz or draid
    group: zpool would take its disks into the group before it. *)
Theorem layout_exact_iff (s : AddSpec) (args words : list gostr) (Hplain : plain_layout s = true)
    (Hlog : forallb log_vdev (asLog s) = true) (Hemit : emit_layout s args = Ok (args ++ words)) :
  read_layout data_class None words = layout_asked s <-> forallb (bare_first false) (classes_of s) = true.
Proof.
  apply emit_layout_eq in Hemit as [E%app_inv_head He]. subst words.
  rewrite read_layout_words by done. by apply layout_read_iff.
Qed.

Definition sample_layout : AddSpec :=
  mkAddSpec [mkVdevSpec #"disk" [ #"/dev/sda"]; mkVdevSpec #"mirror" [ #"/dev/sdb"; #"/dev/sdc"]] []
    [] [mkVdevSpec #"mirror" [ #"/dev/nvme0"; #"/dev/nvme1"]] [ #"/dev/sdd"] [].

Lemma layout_exact_iff_witness :
  read_layout data_class None
    [ #"/dev/sda"; #"mirror"; #"/dev/sdb"; #"/dev/sdc"; #"log"; #"mirror"; #"/dev/nvme0"; #"/dev/nvme1"; #"cache"; #"/dev/sdd"]
  = layout_asked sample_layout.
Proof.
  apply (proj2 (layout_exact_iff sample_layout [ #"create"; #"-f"; #"tank"] _ ltac:(vm_compute; reflexivity)
    ltac:(vm_compute; reflexivity) ltac:(vm_compute; reflexivity))).
  vm_compute. reflexivity.
Defined.

(** A disk listed after a mirror becomes a third side of the mirror: the
    two requests give the same command. *)
Lemma disk_joins_mirror name :
  buildAddArgs name (mkAddSpec [mkVdevSpec #"mirror" [ #"a"; #"b"]; mkVdevSpec #"disk" [ #"c"]] [] [] [] [] [])
  = buildAddArgs name (mkAddSpec [mkVdevSpec #"mirror" [ #"a"; #"b"; #"c"]] [] [] [] [] []).
Proof. reflexivity. Qed.

(** ** Every operation, as zpool reads it *)

Inductive pool_op :=
| PCreate (spec : CreateSpec) | PAdd (name : gostr) (spec : AddSpec)
| PDestroy (name : gostr) | PScrub (name : gostr) (stop : bool)
| PReplace (name old new : gostr) | POffline (name disk : gostr) (temporary : bool)
| POnline (name disk : gostr) | PClear (name disk : gostr)
| PAttach (name existing new : gostr) | PDetach (name disk : gostr)
| PExport (name : gostr) (force : bool) | PImport (name : gostr)
| PTrim (name : gostr) (stop : bool) (disk : gostr) | PWait (name activity : gostr)
| PCheckpoint (name : gostr) (discard : bool) | PUpgrade (name : gostr) (all : bool)
| PReguid (name : gostr) | PSync (names : list gostr).

Definition exec_op {W} `{HostExec W} (bin : gostr) (o : pool_op) : M W (option pool_err) :=
  match o with
  | PCreate spec => Create bin spec
  | PAdd n spec => Add bin n spec
  | PDestroy n => Destroy bin n
  | PScrub n stop => if stop then StopScrub bin n else StartScrub bin n
  | PReplace n a b => Replace bin n a b
  | POffline n d t => Offline bin n d t
  | POnline n d => Online bin n d
  | PClear n d => Clear bin n d
  | PAttach n a b => Attach bin n a b
  | PDetach n d => Detach bin n d
  | PExport n f => Export bin n f
  | PImport n => Import bin n
  | PTrim n stop d => Trim bin n (if stop then #"stop" else #"start") d
  | PWait n a => Wait bin n a
  | PCheckpoint n d => if d then DiscardCheckpoint bin n else Checkpoint bin n
  | PUpgrade n all => Upgrade bin n all
  | PReguid n => Reguid bin n
  | PSync ns => Sync bin ns
  end.

Definition verb (o : pool_op) : gostr :=
  match o with
  | PCreate _ => #"create" | PAdd _ _ => #"add" | PDestroy _ => #"destroy" | PScrub _ _ => #"scrub"
  | PReplace _ _ _ => #"replace" | POffline _ _ _ => #"offline" | POnline _ _ => #"online"
  | PClear _ _ => #"clear" | PAttach _ _ _ => #"attach" | PDetach _ _ => #"detach"
  | PExport _ _ => #"export" | PImport _ => #"import" | PTrim _ _ _ => #"trim" | PWait _ _ => #"wait"
  | PCheckpoint _ _ => #"checkpoint" | PUpgrade _ _ => #"upgrade" | PReguid _ => #"reguid" | PSync _ => #"sync"
  end.

(** The flags of the subcommands that are used, and the options. *)
Definition pool_flags : list gostr := [ #"-f"; #"-s"; #"-c"; #"-d"; #"-a"].
Definition flags_of (o : pool_op) : list gostr :=
  match o with POffline _ _ _ => [ #"-t"; #"-f"] | _ => pool_flags end.
Definition options_of (o : pool_op) : list gostr :=
  match o with PWait _ _ => [ #"-t"] | _ => [ #"-o"] end.

Definition optional (s : gostr) : list gostr := if str_eqb s [] then [] else [s].

Definition requested (o : pool_op) : reading :=
  match o with
  | PCreate spec => mkReading [ #"-f"] [] (csName spec :: layout_words (layout_of spec))
  | PAdd n spec => mkReading [ #"-f"] [] (n :: layout_words spec)
  | PDestroy n => mkReading [ #"-f"] [] [n]
  | PScrub n stop => mkReading (flag stop #"-s") [] [n]
  | PReplace n a b | PAttach n a b => mkReading [ #"-f"] [] [n; a; b]
  | POffline n d t => mkReading (flag t #"-t") [] [n; d]
  | POnline n d | PDetach n d => mkReading [] [] [n; d]
  | PClear n d => mkReading [] [] (n :: optional d)
  | PExport n f => mkReading (flag f #"-f") [] [n]
  | PImport n | PReguid n => mkReading [] [] [n]
  | PTrim n stop d => mkReading (flag stop #"-c") [] (n :: optional d)
  | PWait n a => mkReading [] [( #"-t", a)] [n]
  | PCheckpoint n d => mkReading (flag d #"-d") [] [n]
  | PUpgrade n all => if all then mkReading [ #"-a"] [] [] else mkReading [] [] [n]
  | PSync ns => mkReading [] [] ns
  end.

(** The words of a layout are the caller's: the manager does not check
    them. *)
Definition caller_words (o : pool_op) : list gostr :=
  match o with PCreate spec => layout_words (layout_of spec) | PAdd _ spec => layout_words spec | _ => [] end.

(** The vector an operation builds. *)
Definition op_args (o : pool_op) : res pool_err (list gostr) :=
  match o with
  | PCreate spec => buildCreateArgs spec
  | PAdd n spec => buildAddArgs n spec
  | PDestroy n => named BadName (ValidatePoolName n) (Ok [ #"destroy"; #"-f"; n])
  | PScrub n stop => named BadName (ValidatePoolName n) (Ok ([ #"scrub"] ++ flag stop #"-s" ++ [n]))
  | PReplace n a b =>
      named BadName (ValidatePoolName n)
        (ensure negb (str_eqb a [] || str_eqb b []) else DisksRequired ;;
         ensure negb (dash a || dash b) else DashDisk ;; Ok [ #"replace"; #"-f"; n; a; b])
  | POffline n d t =>
      named BadName (ValidatePoolName n)
        (ensure negb (str_eqb d [] || dash d) else DiskRequired ;; Ok ([ #"offline"] ++ flag t #"-t" ++ [n; d]))
  | POnline n d =>
      named BadName (ValidatePoolName n)
        (ensure negb (str_eqb d [] || dash d) else DiskRequired ;; Ok [ #"online"; n; d])
  | PClear n d =>
      named BadName (ValidatePoolName n)
        (if str_eqb d [] then Ok [ #"clear"; n]
         else ensure negb (dash d) else DashDisk ;; Ok [ #"clear"; n; d])
  | PAttach n a b =>
      named BadName (ValidatePoolName n)
        (ensure negb (str_eqb a [] || str_eqb b []) else DisksRequired ;;
         ensure negb (dash a || dash b) else DashDisk ;; Ok [ #"attach"; #"-f"; n; a; b])
  | PDetach n d =>
      named BadName (ValidatePoolName n)
        (ensure negb (str_eqb d [] || dash d) else DiskRequired ;; Ok [ #"detach"; n; d])
  | PExport n f => named BadName (ValidatePoolName n) (Ok ([ #"export"] ++ flag f #"-f" ++ [n]))
  | PImport n => named BadName (ValidatePoolName n) (Ok [ #"import"; n])
  | PTrim n stop d =>
      named BadName (ValidatePoolName n)
        (let args := [ #"trim"] ++ flag stop #"-c" ++ [n] in
         if str_eqb d [] then Ok args else ensure negb (dash d) else DashDisk ;; Ok (args ++ [d]))
  | PWait n a =>
      named BadName (ValidatePoolName n)
        (ensure existsb (str_eqb a) validWaitActivities else BadActivity a ;; Ok [ #"wait"; #"-t"; a; n])
  | PCheckpoint n d => buildCheckpointArgs n d
  | PUpgrade n all => buildUpgradeArgs n all
  | PReguid n => buildReguidArgs n
  | PSync ns => buildSyncArgs ns
  end.

Lemma exec_op_run {W} `{HostExec W} bin o (w : W) : exec_op bin o w = run bin (op_args o) w.
Proof.
  destruct o as [| | |? []| | | | | | | | |? [] ?| |? []| | |]; reflexivity.
Qed.

Lemma pool_flags_dashed o : dashed (flags_of o).
Proof. destruct o; repeat constructor. Qed.
Lemma pool_options_dashed o : dashed (options_of o).
Proof. destruct o; repeat constructor. Qed.
Lemma pool_flags_not_options o a : a ∈ flags_of o -> a ∉ options_of o.
Proof.
  assert (Hall : Forall (fun a => a ∉ options_of o) (flags_of o)) by (destruct o; repeat constructor; by_dec).
  rewrite Forall_forall in Hall. apply Hall.
Qed.

Lemma pool_named_Ok {A} (wrap : name_err -> pool_err) v (k : res pool_err A) x : named wrap v k = Ok x -> v = Ok tt /\ k = Ok x.
Proof. destruct v as [[]|e]; [done|]. by intros [=]. Qed.

Lemma not_dash_option d : d <> [] -> dash d = false -> not_option d.
Proof.
  unfold dash. destruct d as [|c r]; [done|]. rewrite has_dash_prefix. intros _ E%ch_eqb_neq. by exists c, r.
Qed.

Lemma checked_disk d : negb (str_eqb d [] || dash d) = true -> not_option d.
Proof. rewrite negb_true_iff, orb_false_iff, str_eqb_neq. intros []. by apply not_dash_option. Qed.

Lemma checked_disks a b : negb (str_eqb a [] || str_eqb b []) = true -> negb (dash a || dash b) = true ->
  not_option a /\ not_option b.
Proof.
  rewrite !negb_true_iff, !orb_false_iff, !str_eqb_neq. intros [] []. split; by apply not_dash_option.
Qed.

Lemma check_names_ok ns : check_names ns = Ok tt -> Forall not_option ns.
Proof.
  induction ns as [|n ns IH]; [constructor|]. cbn [check_names]. intros [Hn Hs]%pool_named_Ok.
  constructor; [by apply pool_name_ok|by apply IH].
Qed.

Lemma pool_laid_out o fl opts ops args :
  args = verb o :: fl ++ concat (map (fun av => [av.1; av.2]) opts) ++ ops ->
  requested o = mkReading fl opts ops -> Forall (.∈ flags_of o) fl ->
  Forall (fun av => av.1 ∈ options_of o) opts -> Forall not_option ops ->
  exists rest, args = verb o :: rest /\ getopt (flags_of o) (options_of o) rest = Some (requested o).
Proof.
  intros -> -> Hfl Hop Hn. eexists. split; [reflexivity|].
  by apply getopt_laid_out; [apply pool_flags_dashed|apply pool_options_dashed|apply pool_flags_not_options|..].
Qed.

Ltac pool_laid o := match eval cbn [requested] in (requested o) with
  | mkReading ?fl ?opts ?ops => apply (pool_laid_out o fl opts ops)
  end.

Ltac flag_ok := repeat first [ apply Forall_nil_2 | apply Forall_cons_2; [by_dec|] ].

Lemma flag_ok (b : bool) f (l : list gostr) : f ∈ l -> Forall (.∈ l) (flag b f).
Proof. intros Hf. destruct b; repeat constructor; done. Qed.

Ltac operands := repeat first [ apply Forall_nil_2 | apply Forall_cons_2 | done | by apply pool_name_ok ].
Ltac laid := match goal with |- exists rest, _ = verb ?o :: rest /\ _ => pool_laid o end;
  [done|done|first [solve [flag_ok]|apply flag_ok; by_dec]|flag_ok|operands].

Lemma pool_op_args_read o args : op_args o = Ok args -> Forall not_option (caller_words o) ->
  exists rest, args = verb o :: rest /\ getopt (flags_of o) (options_of o) rest = Some (requested o).
Proof.
  destruct o as [spec|n spec|n|n stop|n a b|n d t|n d|n d|n a b|n d|n f|n|n stop d|n a|n d|n all|n|ns];
    cbn [op_args caller_words]; intros E Hw.
  - apply pool_named_Ok in E as [Hv E]. destruct (negb _); [|done]. apply emit_layout_eq in E as [-> _]. laid.
  - apply pool_named_Ok in E as [Hv E]. destruct (negb _); [|done]. apply emit_layout_eq in E as [-> _]. laid.
  - apply pool_named_Ok in E as [Hv [= <-]]. laid.
  - apply pool_named_Ok in E as [Hv [= <-]]. laid.
  - apply pool_named_Ok in E as [Hv E]. destruct (negb _) eqn:E1; [|done]. destruct (negb (dash a || dash b)) eqn:E2; [|done].
    destruct (checked_disks a b E1 E2). injection E as <-. laid.
  - apply pool_named_Ok in E as [Hv E]. destruct (negb _) eqn:E1; [|done]. apply checked_disk in E1. injection E as <-. laid.
  - apply pool_named_Ok in E as [Hv E]. destruct (negb _) eqn:E1; [|done]. apply checked_disk in E1. injection E as <-. laid.
  - apply pool_named_Ok in E as [Hv E]. destruct (str_eqb d []) eqn:E0.
    + injection E as <-. pool_laid (PClear n d); cbn [requested]; unfold optional; rewrite ?E0; first [done|solve [flag_ok]|operands].
    + destruct (negb _) eqn:E1; [|done]. apply negb_true_iff in E1. apply str_eqb_neq in E0 as E0'.
      pose proof (not_dash_option d E0' E1). injection E as <-.
      pool_laid (PClear n d); cbn [requested]; unfold optional; rewrite ?E0; first [done|solve [flag_ok]|solve [operands]].
  - apply pool_named_Ok in E as [Hv E]. destruct (negb _) eqn:E1; [|done]. destruct (negb (dash a || dash b)) eqn:E2; [|done].
    destruct (checked_disks a b E1 E2). injection E as <-. laid.
  - apply pool_named_Ok in E as [Hv E]. destruct (negb _) eqn:E1; [|done]. apply checked_disk in E1. injection E as <-. laid.
  - apply pool_named_Ok in E as [Hv [= <-]]. laid.
  - apply pool_named_Ok in E as [Hv [= <-]]. laid.
  - apply pool_named_Ok in E as [Hv E]. cbv zeta in E. destruct (str_eqb d []) eqn:E0.
    + injection E as <-. pool_laid (PTrim n stop d); cbn [requested]; unfold optional; rewrite ?E0; first [done|solve [flag_ok]|apply flag_ok; by_dec|operands].
    + destruct (negb _) eqn:E1; [|done]. apply negb_true_iff in E1. apply str_eqb_neq in E0 as E0'.
      pose proof (not_dash_option d E0' E1). injection E as <-.
      pool_laid (PTrim n stop d); cbn [requested]; unfold optional; rewrite ?E0;
        first [done|by destruct stop|solve [flag_ok]|apply flag_ok; by_dec|operands].
  - apply pool_named_Ok in E as [Hv E]. destruct (existsb _ _); [|done]. injection E as <-. laid.
  - apply pool_named_Ok in E as [Hv [= <-]]. laid.
  - unfold buildUpgradeArgs in E. destruct all; [injection E as <-; laid|].
    apply pool_named_Ok in E as [Hv [= <-]]. laid.
  - apply pool_named_Ok in E as [Hv [= <-]]. laid.
  - unfold buildSyncArgs in E. destruct (check_names ns) as [[]|] eqn:Ec; [|done]. injection E as <-.
    apply check_names_ok in Ec. laid.
Qed.

(** Whatever strings a caller passes, an operation of the pool manager
    either reports an error and runs nothing, or runs zpool exactly once,
    with arguments that zpool reads as the request: the flags asked for
    and the validated pool and disks as operands.  Only the disks of a
    create or an add are passed as they come. *)
Theorem pool_ops_exact {W} `{HostExec W} (bin : gostr) (o : pool_op) (w : W) :
  (exists e, exec_op bin o w = (w, Some (Some e))) \/
  (exists rest r, exec_op bin o w = ((Run bin (verb o :: rest) w).1, Some r) /\
     (Forall not_option (caller_words o) -> getopt (flags_of o) (options_of o) rest = Some (requested o))).
Proof.
  rewrite exec_op_run. destruct (op_args o) as [args|e] eqn:Ea; [right|left; by exists e].
  assert (exists rest, args = verb o :: rest) as [rest ->].
  { clear -Ea. destruct o; cbn [op_args] in Ea;
      unfold buildCreateArgs, buildAddArgs, buildCheckpointArgs, buildUpgradeArgs, buildReguidArgs, buildSyncArgs, named in Ea;
      repeat case_match; simplify_eq; try (apply emit_layout_eq in Ea as [-> _]); by eexists. }
  unfold run, bind, call, ret. destruct (Run bin (verb o :: rest) w) as [w' r'] eqn:Er.
  eexists rest, _. rewrite Er. split; [reflexivity|]. intros Hw.
  destruct (pool_op_args_read o _ Ea Hw) as (rest' & [= <-] & Hg). done.
Qed.
