(* ===== verification/ZfsPoolStatus.v ===== *)
(** * Reading the status of a pool

    The parser keeps pointers into slices it appends to.  For output that
    is nested as zpool prints it, it never follows a pointer into an array
    that was replaced, however slices grow: the tree it returns is the
    tree that was printed.  The error counters of that tree are always
    zero, and a resilver is taken for finished while it runs. *)

From S2P Require Import Prelude GoStrings GoText SortLib Effects ZfsNames HostExec ZfsDataset ZfsPool.
Import Pools.

#[local] Arguments str : simpl never.

(** ** Trees *)

Inductive node := Node (name state : gostr) (kids : list node).

(** What a vdev is, without its error counters: its kind, path, state and
    children. *)
Inductive shape := Shape (kind path state : gostr) (kids : list shape).

Fixpoint vdev_shape (v : Vdev) : shape :=
  match v with mkVdev ty path st _ _ _ kids => Shape ty path st (map vdev_shape kids) end.

(** The shape that a printed row and the rows below it stand for. *)
Fixpoint shape_of (n : node) : shape :=
  match n with
  | Node nm st kids => let c := classifyVdev nm st in Shape (cType c) (cPath c) st (map shape_of kids)
  end.

Lemma classify_state nm st : cState (classifyVdev nm st) = st.
Proof. unfold classifyVdev. by repeat case_match. Qed.

Fixpoint tall (m : nat) (n : node) : bool :=
  match m, n with
  | O, _ => false
  | S m, Node _ _ kids => forallb (tall m) kids
  end.

Fixpoint rows (d : nat) (n : node) : list (nat * cell) :=
  match n with Node nm st kids => (d, classifyVdev nm st) :: flat_map (rows (S d)) kids end.

Lemma classify_counters nm st : cReadErr (classifyVdev nm st) = 0 /\ cWriteErr (classifyVdev nm st) = 0
  /\ cCksumErr (classifyVdev nm st) = 0 /\ cChildren (classifyVdev nm st) = nil_slice.
Proof. unfold classifyVdev. repeat case_match; done. Qed.

(** ** What a slice represents

    [F] bounds the arrays that may be reached; no array below a slice is
    the slice's own. *)
Fixpoint node_rep (h : heap) (F : nat -> Prop) (n : node) (c : cell) : Prop :=
  match n with
  | Node nm st kids =>
      let s := cChildren c in
      c = set_children (classifyVdev nm st) s /\ sLen s = length kids /\
      (kids = [] -> sCap s = 0%nat) /\
      (kids <> [] -> F (sArr s) /\ length (array h (sArr s)) = sLen s) /\
      (fix go (ks : list node) (cs : list cell) : Prop :=
         match ks, cs with
         | [], [] => True
         | k :: ks, c :: cs => node_rep h (fun b => F b /\ b <> sArr s) k c /\ go ks cs
         | _, _ => False
         end) kids (take (sLen s) (array h (sArr s)))
  end.

Definition forest_rep (h : heap) (F : nat -> Prop) (s : slice) (kids : list node) : Prop :=
  sLen s = length kids /\ (kids = [] -> sCap s = 0%nat) /\
  (kids <> [] -> F (sArr s) /\ length (array h (sArr s)) = sLen s) /\
  Forall2 (node_rep h (fun b => F b /\ b <> sArr s)) kids (take (sLen s) (array h (sArr s))).

Lemma node_rep_iff h F nm st kids c :
  node_rep h F (Node nm st kids) c <->
  c = set_children (classifyVdev nm st) (cChildren c) /\ forest_rep h F (cChildren c) kids.
Proof.
  cbn [node_rep]. unfold forest_rep.
  enough (Hgo : forall ks cs, (fix go (ks : list node) (cs : list cell) : Prop :=
         match ks, cs with
         | [], [] => True
         | k :: ks, c0 :: cs => node_rep h (fun b => F b /\ b <> sArr (cChildren c)) k c0 /\ go ks cs
         | _, _ => False
         end) ks cs <-> Forall2 (node_rep h (fun b => F b /\ b <> sArr (cChildren c))) ks cs).
  { rewrite Hgo. tauto. }
  induction ks as [|k ks IH]; intros [|c0 cs]; split; try done; try (by inversion 1).
  - intros [? ?%IH]. by constructor.
  - inversion 1; subst. by rewrite IH.
Qed.

(** Nodes, by their kids. *)
Lemma node_induction (P : node -> Prop) :
  (forall nm st kids, Forall P kids -> P (Node nm st kids)) -> forall n, P n.
Proof.
  intros Hn. fix IH 1. intros [nm st kids]. apply Hn. induction kids as [|k kids IHk]; constructor; [apply IH|apply IHk].
Qed.

Lemma Forall2_impl_left {A B} (P Q : A -> B -> Prop) ks cs :
  Forall (fun k => forall c, P k c -> Q k c) ks -> Forall2 P ks cs -> Forall2 Q ks cs.
Proof. intros Hks H. induction H; [constructor|]. apply Forall_cons in Hks as []. constructor; auto. Qed.

Lemma node_rep_frame n : forall h h' (F F' : nat -> Prop) c,
  (forall b, F b -> F' b /\ h' !! b = h !! b) -> node_rep h F n c -> node_rep h' F' n c.
Proof.
  induction n as [nm st kids IH] using node_induction. intros h h' F F' c HF.
  rewrite !node_rep_iff. intros [Hc (Hlen & Hnil & Harr & Hall)]. split; [done|].
  destruct kids as [|k ks].
  { split_and!; try done. rewrite Hlen. constructor. }
  destruct Harr as [Ha Hla]; [done|]. destruct (HF _ Ha) as [Ha' Eh].
  assert (Earr : array h' (sArr (cChildren c)) = array h (sArr (cChildren c))) by (unfold array; by rewrite Eh).
  unfold forest_rep. rewrite Earr. split_and!; try done.
  eapply Forall2_impl_left; [|exact Hall]. eapply Forall_impl; [exact IH|].
  intros x Hx c'. apply Hx. intros b [Hb Hne]. destruct (HF b Hb). naive_solver.
Qed.

Lemma forest_rep_frame h h' (F F' : nat -> Prop) s kids :
  (forall b, F b -> F' b /\ h' !! b = h !! b) -> forest_rep h F s kids -> forest_rep h' F' s kids.
Proof.
  intros HF Hr. enough (node_rep h' F' (Node [] [] kids) (set_children (classifyVdev [] []) s)) as Hn
    by (by apply node_rep_iff in Hn as [_ Hn]).
  eapply node_rep_frame; [exact HF|]. by apply node_rep_iff.
Qed.

(** ** Reading a slice back *)

Lemma read_rep m : forall h F s kids, forallb (tall m) kids = true -> forest_rep h F s kids ->
  map vdev_shape (read_slice m h s) = map shape_of kids.
Proof.
  induction m as [|m IH]; intros h F s kids Ht (Hlen & _ & _ & Hall).
  { destruct kids as [|[] kids]; [done|]. done. }
  cbn [read_slice]. rewrite Hlen in Hall |- *. revert Hall Ht.
  generalize (take (length kids) (array h (sArr s))). generalize (fun b => F b /\ b <> sArr s).
  clear Hlen. intros F' cs Hall. induction Hall as [|[nm st ks] c kids cs Hn Hall IHl]; [done|].
  cbn [forallb map tall]. intros [Ht Htl]%andb_true_iff. rewrite IHl by done. f_equal.
  apply node_rep_iff in Hn as [Hc Hf]. cbn [vdev_shape shape_of].
  rewrite (IH _ _ _ _ Ht Hf). rewrite Hc. cbn [set_children cType cPath cState]. by rewrite classify_state.
Qed.

(** ** Appending *)

Lemma store_array h a i c : (a < length h)%nat -> (i <= length (array h a))%nat ->
  array (store h a i c) a = if (i <? length (array h a))%nat then <[i := c]> (array h a) else array h a ++ [c].
Proof.
  intros Ha Hi. unfold store, array. rewrite list_lookup_alter_eq.
  destruct (h !! a) eqn:E; [done|]. apply lookup_ge_None in E. lia.
Qed.

Lemma store_other h a i c b : b <> a -> store h a i c !! b = h !! b.
Proof. intros Hb. unfold store. by rewrite list_lookup_alter_ne. Qed.

Lemma store_length h a i c : length (store h a i c) = length h.
Proof. unfold store. by rewrite length_alter. Qed.

Section Grow.
Context (grow : nat -> nat).

(** One more cell behind a slice that represents a forest: the cells it
    had keep their contents, in place or in a new array. *)
Lemma append_rep h (F : nat -> Prop) s kids v h' s' : forest_rep h F s kids ->
  (forall b, F b -> (b < length h)%nat) -> append grow h s v = (h', s') ->
  sLen s' = S (length kids) /\ (sArr s' < length h')%nat /\ (length h <= length h')%nat /\
  array h' (sArr s') = take (length kids) (array h (sArr s)) ++ [v] /\
  (F (sArr s') /\ sArr s' = sArr s \/ sArr s' = length h) /\
  (forall b, (b < length h)%nat -> b <> sArr s' -> h' !! b = h !! b).
Proof.
  intros (Hlen & Hnil & Harr & Hall) HF. unfold append. rewrite Hlen.
  destruct (length kids <? sCap s)%nat eqn:Ec; intros [= <- <-]; cbn [sLen sArr].
  - apply Nat.ltb_lt in Ec. destruct kids as [|k kids]; [rewrite Hnil in Ec by done; lia|].
    destruct Harr as [Ha Hla]; [done|]. pose proof (HF _ Ha) as Hlt. rewrite store_length.
    split_and!; try done; try lia; [|by left|intros; by apply store_other].
    rewrite store_array by (done || lia). rewrite Hla, Hlen.
    replace (_ <? _)%nat with false by (symmetry; apply Nat.ltb_ge; lia). by rewrite take_ge by lia.
  - rewrite length_app. simpl length. split_and!; try lia; [|intros b Hb _; by apply lookup_app_l].
    unfold array at 1. by rewrite list_lookup_middle by done.
Qed.

(** A forest after its last tree got its kids. *)
Lemma forest_rep_snoc h3 (F1 : nat -> Prop) s kids n c :
  F1 (sArr s) -> sLen s = S (length kids) ->
  (exists cells, array h3 (sArr s) = cells ++ [c] /\
     Forall2 (node_rep h3 (fun b => F1 b /\ b <> sArr s)) kids cells) ->
  node_rep h3 (fun b => F1 b /\ b <> sArr s) n c ->
  forest_rep h3 F1 s (kids ++ [n]).
Proof.
  intros HF Hlen (cells & Ea & Hall) Hn. pose proof (Forall2_length _ _ _ Hall) as El. unfold forest_rep.
  rewrite Ea, Hlen, !length_app, El. simpl length.
  split_and!; [lia|by destruct kids|intros; split; [done|lia]|].
  rewrite take_ge by (rewrite length_app; simpl; lia). apply Forall2_app; [done|by repeat constructor].
Qed.

Definition insert_rows (rs : list (nat * cell)) (s : parser) : parser :=
  fold_left (fun s r => insert_row grow r.1 r.2 s) rs s.

(** What inserting a forest below the cell [c] at [p] does. *)
Definition grafted (d : nat) (p : ptr) (c : cell) (F : nat -> Prop) (ts : list node) (s s' : parser) : Prop :=
  pInConfig s' = pInConfig s /\ pRootSeen s' = pRootSeen s /\ pState s' = pState s /\ pScan s' = pScan s /\
  length (pParents s') = 4%nat /\ take d (pParents s') = take d (pParents s) /\
  (length (pHeap s) <= length (pHeap s'))%nat /\
  (forall b, (b < length (pHeap s))%nat -> ~ F b -> b <> p.1 -> pHeap s' !! b = pHeap s !! b) /\
  exists k, array (pHeap s') p.1 = <[p.2 := set_children c k]> (array (pHeap s) p.1) /\
    forest_rep (pHeap s') (fun b => F b \/ (length (pHeap s) <= b < length (pHeap s'))%nat) k ts.

Lemma parent_of_take ps ps' d : (d <= 4)%nat -> take d ps = take d ps' -> parent_of ps d = parent_of ps' d.
Proof.
  intros Hd E. destruct d as [|d]; [done|]. cbn [parent_of].
  enough (ps !! d = ps' !! d) as -> by done.
  rewrite <- (lookup_take_lt ps (S d) d), E, lookup_take_lt by lia. done.
Qed.

Lemma load_Some h p c : load h p = Some c -> (p.1 < length h)%nat /\ (p.2 < length (array h p.1))%nat /\ array h p.1 !! p.2 = Some c.
Proof.
  unfold load. intros E. split_and!; [|by eapply lookup_lt_Some|done].
  destruct (decide (p.1 < length h)%nat) as [|Hge]; [done|]. exfalso. unfold array in E.
  rewrite (proj2 (lookup_ge_None h p.1)) in E by lia. done.
Qed.

(** One row inserted below [p]. *)
Lemma insert_one d v s p c (F : nat -> Prop) ts :
  parent_of (pParents s) d = p -> load (pHeap s) p = Some c ->
  (forall b, F b -> (b < length (pHeap s))%nat /\ b <> p.1) -> forest_rep (pHeap s) F (cChildren c) ts ->
  exists k h, insert_row grow d v s =
      mkParser (pInConfig s) (pRootSeen s) (pState s) (pScan s)
        (take d (pParents s) ++ [Some (sArr k, length ts)] ++ replicate (3 - d) None) h /\
    sLen k = S (length ts) /\ (sArr k < length h)%nat /\ sArr k <> p.1 /\ (length (pHeap s) <= length h)%nat /\
    array h p.1 = <[p.2 := set_children c k]> (array (pHeap s) p.1) /\
    array h (sArr k) = take (length ts) (array (pHeap s) (sArr (cChildren c))) ++ [v] /\
    (F (sArr k) /\ sArr k = sArr (cChildren c) \/ sArr k = length (pHeap s)) /\
    (forall b, (b < length (pHeap s))%nat -> b <> sArr k -> b <> p.1 -> h !! b = pHeap s !! b).
Proof.
  intros Hp Hc HF Hr. unfold insert_row. rewrite Hp, Hc.
  destruct (append grow (pHeap s) (cChildren c) v) as [h1 k] eqn:Ea.
  pose proof Hr as (Hlen & _). rewrite Hlen.
  apply (append_rep _ F _ ts) in Ea as (Hk & Hlt & Hle & Harr & Hcase & Hsame); [|done|by intros b [? _]%HF].
  apply load_Some in Hc as (Hp1 & Hp2 & Hc).
  assert (Hne : sArr k <> p.1) by (destruct Hcase as [[Hf _]|E]; [by apply HF|lia]).
  assert (Ep : h1 !! p.1 = pHeap s !! p.1) by (by apply Hsame).
  assert (Earr : array h1 p.1 = array (pHeap s) p.1) by (unfold array; by rewrite Ep).
  exists k, (store h1 p.1 p.2 (set_children c k)). split; [done|]. rewrite store_length.
  split_and!; try done.
  - rewrite store_array by (rewrite ?Earr; lia). rewrite Earr.
    by replace (_ <? _)%nat with true by (symmetry; by apply Nat.ltb_lt).
  - unfold array at 1. rewrite store_other by done. exact Harr.
  - intros b Hb Hbk Hbp. by rewrite store_other, Hsame.
Qed.

Lemma set_children_same c : set_children c (cChildren c) = c.
Proof. by destruct c. Qed.

Lemma grafted_nil d p c F ts s : length (pParents s) = 4%nat -> load (pHeap s) p = Some c ->
  forest_rep (pHeap s) F (cChildren c) ts -> grafted d p c F ts s s.
Proof.
  intros Hps [_ [_ Hc]]%load_Some Hr. unfold grafted. split_and!; try done.
  exists (cChildren c). rewrite set_children_same, list_insert_id by done. split; [done|].
  eapply forest_rep_frame; [|exact Hr]. intros b Hb. by split; [left|].
Qed.

(** The state after the first tree of a forest: its row [v], then its kids
    below it. *)
Lemma graft_first d nm st ks s s2 s3 p c F ts k1 :
  let v := classifyVdev nm st in
  (d <= 3)%nat -> length (pParents s) = 4%nat -> load (pHeap s) p = Some c ->
  (forall b, F b -> (b < length (pHeap s))%nat /\ b <> p.1) -> forest_rep (pHeap s) F (cChildren c) ts ->
  take d (pParents s2) = take d (pParents s) ->
  sLen k1 = S (length ts) -> (sArr k1 < length (pHeap s2))%nat -> sArr k1 <> p.1 ->
  (length (pHeap s) <= length (pHeap s2))%nat ->
  array (pHeap s2) p.1 = <[p.2 := set_children c k1]> (array (pHeap s) p.1) ->
  array (pHeap s2) (sArr k1) = take (length ts) (array (pHeap s) (sArr (cChildren c))) ++ [v] ->
  (F (sArr k1) /\ sArr k1 = sArr (cChildren c) \/ sArr k1 = length (pHeap s)) ->
  (forall b, (b < length (pHeap s))%nat -> b <> sArr k1 -> b <> p.1 -> pHeap s2 !! b = pHeap s !! b) ->
  grafted (S d) (sArr k1, length ts) v (fun _ => False) ks s2 s3 ->
  let F1 := fun b => F b \/ (length (pHeap s) <= b < length (pHeap s3))%nat in
  take d (pParents s3) = take d (pParents s) /\
  load (pHeap s3) p = Some (set_children c k1) /\
  array (pHeap s3) p.1 = <[p.2 := set_children c k1]> (array (pHeap s) p.1) /\
  (forall b, F1 b -> (b < length (pHeap s3))%nat /\ b <> p.1) /\
  (forall b, (b < length (pHeap s))%nat -> ~ F b -> b <> p.1 -> pHeap s3 !! b = pHeap s !! b) /\
  forest_rep (pHeap s3) F1 k1 (ts ++ [Node nm st ks]).
Proof.
  intros v Hd Hps Hc HF Hr Htd Hk1 Hlt Hne Hle Hp Harr Hcase Hsame
    (_ & _ & _ & _ & Hps3 & Ht3 & Hle3 & Hsame3 & kv & Hkv & Hrv) F1. cbn [fst snd] in *.
  pose proof (load_Some _ _ _ Hc) as (Hp1 & Hp2 & Hpc).
  assert (Hp3 : pHeap s3 !! p.1 = pHeap s2 !! p.1) by (apply Hsame3; [lia|tauto|done]).
  assert (Ep3 : array (pHeap s3) p.1 = array (pHeap s2) p.1) by (unfold array; by rewrite Hp3).
  pose proof Hr as (Hlen & _ & _ & Hall). rewrite Hlen in Hall.
  pose proof (Forall2_length _ _ _ Hall) as Hcells.
  rewrite Harr in Hkv.
  assert (Ekv : array (pHeap s3) (sArr k1) = take (length ts) (array (pHeap s) (sArr (cChildren c))) ++ [set_children v kv]).
  { rewrite Hkv. rewrite insert_app_r_alt by lia. rewrite <- Hcells, Nat.sub_diag. done. }
  split_and!.
  - apply (f_equal (take d)) in Ht3. rewrite !take_take, Nat.min_l in Ht3 by lia. congruence.
  - unfold load. rewrite Ep3, Hp. by rewrite list_lookup_insert_eq.
  - congruence.
  - intros b [Hb|Hb]; [destruct (HF b Hb); split; [lia|done]|split; [lia|]]. lia.
  - intros b Hb HnF Hbp. assert (b <> sArr k1) by (destruct Hcase as [[Hf _]|E]; [intros ->; done|lia]).
    rewrite Hsame3; [by apply Hsame|lia|tauto|done].
  - apply forest_rep_snoc with (c := set_children v kv).
    + unfold F1. destruct Hcase as [[Hf _]|E]; [by left|right]. lia.
    + done.
    + eexists. split; [exact Ekv|]. eapply Forall2_impl_left; [|exact Hall].
      apply Forall_forall. intros x _ cx. apply node_rep_frame. intros b [Hb Hbne].
      destruct (HF b Hb) as [Hbl Hbp].
      assert (b <> sArr k1) by (destruct Hcase as [[_ E]|E]; [congruence|lia]).
      split; [split; [by left|done]|]. rewrite Hsame3; [by apply Hsame|lia|tauto|done].
    + apply node_rep_iff. split; [done|]. cbn [set_children cChildren].
      eapply forest_rep_frame; [|exact Hrv]. intros b [[]|Hb]. split; [|done].
      split; [right|]; lia.
Qed.

(** A whole forest. *)
Lemma graft m : forall d kids s p c F ts, (d + m <= 4)%nat -> forallb (tall m) kids = true ->
  length (pParents s) = 4%nat -> parent_of (pParents s) d = p -> load (pHeap s) p = Some c ->
  (forall b, F b -> (b < length (pHeap s))%nat /\ b <> p.1) -> forest_rep (pHeap s) F (cChildren c) ts ->
  grafted d p c F (ts ++ kids) s (insert_rows (flat_map (rows d) kids) s).
Proof.
  induction m as [|m IHm]; intros d kids s p c F ts Hd Ht Hps Hp Hc HF Hr.
  { destruct kids; [|done]. rewrite app_nil_r. by apply grafted_nil. }
  revert s c F ts Ht Hps Hp Hc HF Hr. induction kids as [|[nm st ks] kids IHk]; intros s c F ts Ht Hps Hp Hc HF Hr.
  { rewrite app_nil_r. by apply grafted_nil. }
  cbn [forallb tall] in Ht. apply andb_true_iff in Ht as [Htk Ht].
  cbn [flat_map rows app]. unfold insert_rows. cbn [fold_left fst snd]. rewrite fold_left_app.
  change (fold_left _ (flat_map (rows d) kids)) with (insert_rows (flat_map (rows d) kids)).
  change (fold_left _ (flat_map (rows (S d)) ks)) with (insert_rows (flat_map (rows (S d)) ks)).
  destruct (insert_one d (classifyVdev nm st) s p c F ts Hp Hc HF Hr)
    as (k1 & h2 & Es2 & Hk1 & Hlt & Hne & Hle & Hp2 & Harr & Hcase & Hsame).
  rewrite Es2. set (s2 := mkParser _ _ _ _ _ h2). set (s3 := insert_rows (flat_map (rows (S d)) ks) s2).
  assert (Htd : take d (pParents s2) = take d (pParents s)).
  { cbn [s2 pParents]. rewrite take_app_le, take_take, Nat.min_id by (rewrite length_take; lia). done. }
  assert (Hkids : grafted (S d) (sArr k1, length ts) (classifyVdev nm st) (fun _ => False) ks s2 s3).
  { apply (IHm (S d) ks s2 (sArr k1, length ts) (classifyVdev nm st) (fun _ => False) []); try done; [lia| | | |].
    - cbn [s2 pParents]. rewrite !length_app, length_take, length_replicate, Hps. simpl. lia.
    - cbn [s2 pParents parent_of app]. rewrite list_lookup_middle by (rewrite length_take; lia). done.
    - unfold load. cbn [fst snd s2 pHeap]. rewrite Harr. apply list_lookup_middle.
      destruct Hr as (Hlen & _ & _ & Hall). rewrite Hlen in Hall. by apply Forall2_length in Hall.
    - destruct (classify_counters nm st) as (_ & _ & _ & ->). by repeat split. }
  destruct (graft_first d nm st ks s s2 s3 p c F ts k1) as (Ht3 & Hc3 & Hp3 & HF3 & Hsame3 & Hr3); try done; [lia|].
  pose proof Hkids as (C1 & C2 & C3 & C4 & Hps3 & _ & Hle3 & _). cbn [s2 pInConfig pRootSeen pState pScan pHeap] in C1, C2, C3, C4, Hle3.
  assert (Hp' : parent_of (pParents s3) d = p) by (rewrite <- Hp; apply parent_of_take; [lia|done]).
  destruct (IHk s3 _ _ _ Ht Hps3 Hp' Hc3 HF3 Hr3) as (D1 & D2 & D3 & D4 & Hps4 & Ht4 & Hle4 & Hsame4 & k4 & Hk4 & Hr4).
  unfold grafted. split_and!; try congruence; [lia| |].
  - intros b Hb HnF Hbp. rewrite Hsame4; [by apply Hsame3|lia|intros [?|?]; [done|lia]|done].
  - exists k4. split.
    + rewrite Hk4, Hp3, list_insert_insert_eq. done.
    + rewrite <- app_assoc in Hr4. eapply forest_rep_frame; [|exact Hr4]. intros b Hb. split; [|done].
      destruct Hb as [[Hb|Hb]|Hb]; [by left|right; lia|right; lia].
Qed.
End Grow.

(** ** The text zpool prints *)

(** A row: its name, its columns with the blanks before them, its kids. *)
Inductive prow := PRow (name : gostr) (cols : list (nat * gostr)) (kids : list prow).

Definition state_of (cols : list (nat * gostr)) : gostr := match cols with c :: _ => c.2 | [] => #"-" end.

Fixpoint node_of (r : prow) : node :=
  match r with PRow n cols kids => Node n (state_of cols) (map node_of kids) end.

Definition row_text (d : nat) (n : gostr) (cols : list (nat * gostr)) : gostr :=
  Datasets.tab :: pad (2 * d) ++ n ++ columns cols.

Fixpoint text_rows (d : nat) (r : prow) : list gostr :=
  match r with PRow n cols kids => row_text d n cols :: flat_map (text_rows (S d)) kids end.

Record status_text := mkText {
  tPool : gostr; tState : gostr; tScan : option gostr; tRootCols : list (nat * gostr);
  tData : list prow; tGroups : list prow; tErrors : gostr }.

Definition row_header : gostr := Datasets.tab :: #"NAME        STATE     READ WRITE CKSUM".

Definition header_lines (t : status_text) : list gostr :=
  [ #"  pool: " ++ tPool t; #" state: " ++ tState t]
  ++ (match tScan t with Some s => [ #"  scan: " ++ s] | None => [] end)
  ++ [ #"config:"; []; row_header; row_text 0 (tPool t) (tRootCols t)].

Definition status_lines (t : status_text) : list gostr :=
  header_lines t ++ flat_map (text_rows 1) (tData t) ++ flat_map (text_rows 0) (tGroups t)
  ++ [[]; #"errors: " ++ tErrors t].

(** Names that are not taken for a label or the header. *)
Definition labels : list gostr := [ #"state:"; #"scan:"; #"config:"; #"errors:"; #"NAME"].
Definition plain_name (n : gostr) : bool := word n && forallb (fun l => negb (has_prefix n l)) labels.
Definition cols_ok (cols : list (nat * gostr)) : bool := forallb (fun c => word c.2) cols.

(** A row with at most [m] levels. *)
Fixpoint row_ok (m : nat) (r : prow) : bool :=
  match m, r with
  | O, _ => false
  | S m, PRow n cols kids => plain_name n && cols_ok cols && forallb (row_ok m) kids
  end.

Definition line_ok (l : gostr) : bool :=
  negb (contains_byte newline l) && (length l <? Snapshots.max_token)%nat && str_eqb (Snapshots.drop_cr l) l.

Definition text_ok (t : status_text) : bool :=
  plain_name (tPool t) && word (tState t) && (match tScan t with Some s => bounded s | None => true end)
  && cols_ok (tRootCols t) && bounded (tErrors t) && forallb (row_ok 3) (tData t) && forallb (row_ok 4) (tGroups t)
  && forallb line_ok (status_lines t).

Definition print_status (t : status_text) : gostr := unlines (status_lines t).

(** ** Reading the lines *)

Lemma scan_print ls : forallb line_ok ls = true ->
  Snapshots.scan_lines (Snapshots.raw_lines (unlines ls)) = (ls, false).
Proof.
  intros Hls.
  assert (Hall : Forall (fun l => line_ok l = true) ls)
    by (apply Forall_forall; intros l Hl; rewrite forallb_forall in Hls; by apply Hls, list_elem_of_In).
  assert (Eraw : Snapshots.raw_lines (unlines ls) = ls).
  { unfold Snapshots.raw_lines. rewrite split_unlines.
    - rewrite rev_app_distr. cbn [rev app]. by rewrite rev_involutive.
    - eapply Forall_impl; [exact Hall|]. intros l [[Hn _]%andb_true_iff _]%andb_true_iff.
      intros Hin%contains_byte_iff. by rewrite Hin in Hn. }
  rewrite Eraw. clear -Hall. induction Hall as [|l ls [[_ Hs]%andb_true_iff Hc]%andb_true_iff Hall IH]; [done|].
  cbn [Snapshots.scan_lines]. replace (_ <=? _)%nat with false by (symmetry; apply Nat.leb_gt, Nat.ltb_lt, Hs).
  rewrite IH. apply str_eqb_eq in Hc. by rewrite Hc.
Qed.

Section Lines.
Context `{FloatConv} (grow : nat -> nat).

Lemma cols_ok_Forall cols : cols_ok cols = true -> Forall (fun c => word c.2 = true) cols.
Proof. intros Hc. apply Forall_forall. intros c Hin. unfold cols_ok in Hc. rewrite forallb_forall in Hc. by apply Hc, list_elem_of_In. Qed.

Lemma count_spaces_pad k w rest : word w = true -> count_spaces (pad k ++ w ++ rest) = k.
Proof.
  intros [Hne Hw]%word_iff. induction k as [|k IH].
  2:{ change (pad (S k)) with (" "%char :: pad k). cbn [app count_spaces]. by rewrite ch_eqb_refl, IH. }
  destruct w as [|c w]; [done|]. apply Forall_cons in Hw as [Hc _]. cbn [pad replicate app count_spaces].
  destruct (ch_eqb c " "%char) eqn:E; [|done]. apply ch_eqb_eq in E as ->. done.
Qed.

Lemma row_depth d n cols : word n = true -> configDepth (row_text d n cols) = Some d.
Proof.
  intros Hn. unfold configDepth, row_text. rewrite ch_eqb_refl, count_spaces_pad by done. f_equal.
  rewrite Nat.mul_comm. by apply Nat.div_mul.
Qed.

Lemma row_trim d n cols : word n = true -> cols_ok cols = true -> trim_space (row_text d n cols) = n ++ columns cols.
Proof.
  intros Hn Hc. change (row_text d n cols) with ((Datasets.tab :: pad (2 * d)) ++ n ++ columns cols).
  apply trim_space_text; [constructor; [done|apply pad_blank]|]. apply bounded_line; [done|by apply cols_ok_Forall].
Qed.

Lemma not_label n cols l : plain_name n = true -> l ∈ labels -> has_prefix (n ++ columns cols) l = false.
Proof.
  intros [_ Hl]%andb_true_iff Hin. destruct (has_prefix _ l) eqn:E; [|done]. exfalso.
  apply prefix_of_word in E.
  - rewrite forallb_forall in Hl. specialize (Hl l (proj1 (list_elem_of_In _ _) Hin)). by rewrite E in Hl.
  - assert (Hall : Forall (fun l => " "%char ∉ l) labels) by (repeat constructor; by_dec).
    rewrite Forall_forall in Hall. by apply Hall.
Qed.

Lemma status_row s d n cols : pInConfig s = true -> plain_name n = true -> cols_ok cols = true ->
  status_line grow s (row_text d n cols) = row_step grow d (classifyVdev n (state_of cols)) s.
Proof.
  intros Hin Hn Hc. assert (Hw : word n = true) by (by apply andb_true_iff in Hn as []).
  unfold status_line. cbv zeta. rewrite row_trim by done.
  rewrite !(not_label n cols) by (done || by_dec). rewrite Hin. cbn [negb orb].
  replace (str_eqb (n ++ columns cols) []) with false.
  2:{ symmetry. apply str_eqb_neq. apply word_iff in Hw as [Hne _]. destruct n; done. }
  cbn [orb]. unfold config_line. rewrite fields_line by (done || by apply cols_ok_Forall).
  rewrite row_depth by done. by destruct cols.
Qed.

Lemma insert_row_flags d v s :
  pInConfig (insert_row grow d v s) = pInConfig s /\ pRootSeen (insert_row grow d v s) = pRootSeen s.
Proof. unfold insert_row. destruct (load _ _); [|done]. by destruct (append _ _ _ _). Qed.

Lemma insert_rows_flags rs s :
  pInConfig (insert_rows grow rs s) = pInConfig s /\ pRootSeen (insert_rows grow rs s) = pRootSeen s.
Proof.
  revert s. induction rs as [|[d v] rs IH]; intros s; [done|]. unfold insert_rows in *. cbn [fold_left fst snd].
  destruct (IH (insert_row grow d v s)) as [-> ->]. apply insert_row_flags.
Qed.

Lemma row_step_seen d v s : (d < 4)%nat -> pRootSeen s = true -> row_step grow d v s = insert_row grow d v s.
Proof.
  intros Hd Hs. unfold row_step. replace (4 <=? d)%nat with false by (symmetry; by apply Nat.leb_gt).
  rewrite Hs. by rewrite andb_false_r.
Qed.

Lemma status_rows m : forall d rs s, (d + m <= 4)%nat -> forallb (row_ok m) rs = true ->
  pInConfig s = true -> pRootSeen s = true ->
  fold_left (status_line grow) (flat_map (text_rows d) rs) s = insert_rows grow (flat_map (rows d) (map node_of rs)) s.
Proof.
  induction m as [|m IHm]; intros d rs s Hd Hok Hin Hseen; [by destruct rs|].
  revert s Hok Hin Hseen. induction rs as [|[n cols kids] rs IHr]; intros s Hok Hin Hseen; [done|].
  cbn [forallb row_ok] in Hok. rewrite !andb_true_iff in Hok. destruct Hok as [[[Hn Hc] Hk] Hok].
  cbn [flat_map text_rows map node_of rows app]. cbn [fold_left]. rewrite fold_left_app.
  rewrite status_row, row_step_seen by (done || lia).
  unfold insert_rows. cbn [fold_left fst snd]. rewrite fold_left_app.
  destruct (insert_row_flags d (classifyVdev n (state_of cols)) s) as [F1 F2].
  rewrite (IHm (S d) kids) by (done || lia || congruence).
  destruct (insert_rows_flags (flat_map (rows (S d)) (map node_of kids)) (insert_row grow d (classifyVdev n (state_of cols)) s)) as [G1 G2].
  rewrite IHr; [done|done|by rewrite G1, F1|by rewrite G2, F2].
Qed.
End Lines.

(** ** The whole text *)

Lemma raw_line_kept `{FloatConv} raw : ssRawLine (parseScrubStatus raw) = raw.
Proof. unfold parseScrubStatus. cbv zeta. by repeat case_match. Qed.

Lemma row_ok_tall m : forall rs, forallb (row_ok m) rs = true -> forallb (tall m) (map node_of rs) = true.
Proof.
  induction m as [|m IH]; intros rs; induction rs as [|[n cols kids] rs IHr]; try done.
  cbn [forallb row_ok map node_of tall]. rewrite !andb_true_iff. intros [[_ Hk] Hr]. split; [by apply IH|by apply IHr].
Qed.

Lemma tall_S m : forall kids, forallb (tall m) kids = true -> forallb (tall (S m)) kids = true.
Proof.
  induction m as [|m IH]; intros kids; induction kids as [|[nm st ks] kids IHk]; try done.
  intros [Hk Hr]%andb_true_iff. apply andb_true_iff. split; [by apply IH|by apply IHk].
Qed.

Lemma bounded_label lbl x : starts lbl = true -> bounded x = true -> bounded (lbl ++ x) = true.
Proof.
  intros (c & r & -> & Hc)%starts_iff [_ Hx]%andb_true_iff. unfold bounded. rewrite rev_app_distr. cbn [app starts].
  rewrite Hc. by destruct (rev x).
Qed.

Lemma label_text lbl x : bounded x = true -> label lbl (lbl ++ #" " ++ x) = x.
Proof.
  intros Hx. unfold label. rewrite trim_prefix_app. apply trim_space_text; [by repeat constructor|done].
Qed.

Section Text.
Context `{FloatConv} (grow : nat -> nat).

Lemma read_pool_line s x : bounded x = true -> pInConfig s = false -> status_line grow s ( #"  pool: " ++ x) = s.
Proof.
  intros Hx Hs. unfold status_line.
  change ( #"  pool: " ++ x) with ( #"  " ++ ( #"pool: " ++ x)).
  rewrite trim_space_text; [|by repeat constructor|by apply bounded_label]. cbv zeta.
  by rewrite Hs.
Qed.

Lemma read_state_line s x : bounded x = true -> status_line grow s ( #" state: " ++ x) =
  mkParser (pInConfig s) (pRootSeen s) x (pScan s) (pParents s) (pHeap s).
Proof.
  intros Hx. unfold status_line.
  change ( #" state: " ++ x) with ( #" " ++ ( #"state:" ++ #" " ++ x)).
  rewrite trim_space_text; [|by repeat constructor|by apply (bounded_label #"state: ")]. cbv zeta.
  change (has_prefix ( #"state:" ++ #" " ++ x) #"state:") with true. cbv iota. by rewrite label_text.
Qed.

Lemma read_scan_line s x : bounded x = true -> status_line grow s ( #"  scan: " ++ x) =
  mkParser (pInConfig s) (pRootSeen s) (pState s) (Some (parseScrubStatus x)) (pParents s) (pHeap s).
Proof.
  intros Hx. unfold status_line.
  change ( #"  scan: " ++ x) with ( #"  " ++ ( #"scan:" ++ #" " ++ x)).
  rewrite trim_space_text; [|by repeat constructor|by apply (bounded_label #"scan: ")]. cbv zeta.
  change (has_prefix ( #"scan:" ++ #" " ++ x) #"state:") with false.
  change (has_prefix ( #"scan:" ++ #" " ++ x) #"scan:") with true. cbv iota. by rewrite label_text.
Qed.

Lemma read_errors_line s x : bounded x = true -> status_line grow s ( #"errors: " ++ x) = set_config s false.
Proof.
  intros Hx. unfold status_line. rewrite trim_space_bounded by (by apply bounded_label). reflexivity.
Qed.

Lemma read_blank_line s : status_line grow s [] = s.
Proof. unfold status_line. change (trim_space []) with (@nil ascii). cbv zeta. simpl. by rewrite orb_true_r. Qed.

Lemma read_header_line s : status_line grow s row_header = s.
Proof.
  unfold status_line. assert (E : trim_space row_header = #"NAME        STATE     READ WRITE CKSUM") by (vm_compute; reflexivity).
  rewrite E. cbv zeta. change (has_prefix _ #"NAME") with true. rewrite orb_true_r. reflexivity.
Qed.

Lemma read_config_line s : status_line grow s #"config:" = set_config s true.
Proof. reflexivity. Qed.

(** Before the rows: in the table, the root seen, nothing inserted. *)
Lemma read_header t : text_ok t = true ->
  fold_left (status_line grow) (header_lines t) start =
  mkParser true true (tState t) (option_map parseScrubStatus (tScan t)) [None; None; None; None] [[empty_cell]].
Proof.
  unfold text_ok. rewrite !andb_true_iff. intros [[[[[[[Hpool Hstate] Hscan] Hcols] _] _] _] _].
  assert (Hw : word (tPool t) = true) by (by apply andb_true_iff in Hpool as []).
  unfold header_lines. rewrite !fold_left_app. cbn [fold_left].
  rewrite read_pool_line, read_state_line by (done || by apply word_bounded).
  assert (E : fold_left (status_line grow) (match tScan t with Some s => [ #"  scan: " ++ s] | None => [] end)
      (mkParser false false (tState t) None [None; None; None; None] [[empty_cell]])
    = mkParser false false (tState t) (option_map parseScrubStatus (tScan t)) [None; None; None; None] [[empty_cell]]).
  { destruct (tScan t); [|done]. cbn [fold_left]. by rewrite read_scan_line. }
  unfold start. cbn [pInConfig pRootSeen pState pScan pParents pHeap]. rewrite E.
  rewrite read_config_line, read_blank_line, read_header_line, status_row by done. done.
Qed.

End Text.

(** A pool with a mirror, a disk being replaced and a mirrored log. *)
Definition sample_text : status_text :=
  let ok := [(4%nat, #"ONLINE"); (5%nat, #"0"); (5%nat, #"0"); (5%nat, #"0")] in
  mkText #"tank" #"ONLINE" (Some #"scrub repaired 0B in 00:10:02 with 0 errors on Sun Apr 12") ok
    [PRow #"mirror-0" ok
       [PRow #"/dev/sda" ok []; PRow #"replacing-1" ok [PRow #"/dev/sdb" ok []; PRow #"/dev/sdc" ok []]];
     PRow #"raidz2-1" ok [PRow #"/dev/sdd" ok []; PRow #"/dev/sde" ok []; PRow #"/dev/sdf" ok []]]
    [PRow #"logs" [] [PRow #"mirror-2" ok [PRow #"/dev/nvme0" ok []; PRow #"/dev/nvme1" ok []]];
     PRow #"spares" [] [PRow #"/dev/sdg" [(4%nat, #"AVAIL")] []]]
    #"No known data errors".

Definition no_floats : FloatConv := {| scaledFloat := fun _ _ => None |}.


(** ** Error counters *)

Definition zero_cell (c : cell) : Prop := cReadErr c = 0 /\ cWriteErr c = 0 /\ cCksumErr c = 0.
Definition zero_heap (h : heap) : Prop := Forall (Forall zero_cell) h.

Lemma zero_array h a : zero_heap h -> Forall zero_cell (array h a).
Proof.
  intros Hz. unfold array. destruct (h !! a) as [l|] eqn:E; [|constructor].
  unfold zero_heap in Hz. rewrite Forall_lookup in Hz. by eapply Hz.
Qed.

Lemma zero_store h a i c : zero_heap h -> zero_cell c -> zero_heap (store h a i c).
Proof.
  intros Hz Hc. unfold zero_heap. apply Forall_lookup_2. intros b l. unfold store. rewrite list_lookup_alter.
  unfold zero_heap in Hz. rewrite Forall_lookup in Hz. destruct (decide (a = b)) as [->|]; [|by apply Hz].
  destruct (h !! b) as [l'|] eqn:E; [|done]. specialize (Hz _ _ E). simpl. intros [= <-].
  destruct (_ <? _)%nat; [by apply Forall_insert|]. apply Forall_app_2; [done|by apply Forall_singleton].
Qed.

Section Counters.
Context `{FloatConv} (grow : nat -> nat).

Lemma zero_append h s c : zero_heap h -> zero_cell c -> zero_heap (append grow h s c).1.
Proof.
  intros Hz Hc. unfold append. destruct (_ <? _)%nat; [by apply zero_store|].
  apply Forall_app_2; [done|]. apply Forall_singleton, Forall_app_2; [by apply Forall_take, zero_array|by apply Forall_singleton].
Qed.

Lemma zero_insert d nm st s : zero_heap (pHeap s) -> zero_heap (pHeap (insert_row grow d (classifyVdev nm st) s)).
Proof.
  intros Hz. unfold insert_row. destruct (load _ _) as [c|] eqn:El; [|done].
  assert (Hv : zero_cell (classifyVdev nm st)) by (destruct (classify_counters nm st) as (? & ? & ? & _); done).
  pose proof (zero_append (pHeap s) (cChildren c) _ Hz Hv) as Ha.
  destruct (append _ _ _ _) as [h k]. cbn [pHeap]. apply zero_store; [done|].
  pose proof (zero_array (pHeap s) (parent_of (pParents s) d).1 Hz) as Hc. rewrite Forall_lookup in Hc.
  apply (Hc _ _ El).
Qed.

Lemma zero_line s l : zero_heap (pHeap s) -> zero_heap (pHeap (status_line grow s l)).
Proof.
  intros Hz. unfold status_line. cbv zeta. repeat (case_match; [done|]).
  unfold config_line. repeat (case_match; [done|]). case_match; [|done].
  unfold row_step. repeat (case_match; [done|]). by apply zero_insert.
Qed.

Lemma read_zero m : forall h s, zero_heap h -> sumVdevErrors (read_slice m h s) = 0.
Proof.
  unfold sumVdevErrors. induction m as [|m IH]; intros h s Hz; [done|]. cbn [read_slice].
  assert (Hc : Forall zero_cell (take (sLen s) (array h (sArr s)))) by (by apply Forall_take, zero_array).
  induction Hc as [|c cs (E1 & E2 & E3) Hcs IHc]; [done|]. cbn [map fold_left vdev_errors].
  rewrite E1, E2, E3, (IH h (cChildren c) Hz).
  replace (add64 0 _) with 0; [exact IHc|]. by destruct (_ && _).
Qed.

(** No error counter is ever reported: the columns that hold them are not
    read. *)
Lemma parseStatus_no_errors data st : parseStatus grow data = Ok st -> sumVdevErrors (stVdevs st) = 0.
Proof.
  unfold parseStatus. destruct (Snapshots.scan_lines _) as [ls long]. destruct long; [done|]. intros [= <-].
  cbn [stVdevs]. unfold top_vdevs. destruct (load _ _); [|done]. apply read_zero.
  assert (Hs : zero_heap (pHeap start)) by (by repeat constructor). revert Hs.
  generalize start. induction ls as [|l ls IH]; intros s Hs; [done|]. cbn [fold_left]. by apply IH, zero_line.
Qed.

Lemma Get_status {W} `{HostExec W} bin name (w w' : W) d :
  Get grow bin name w = (w', Some (Ok d)) -> exists out, parseStatus grow out = Ok (detStatus d).
Proof.
  unfold Get, bind, call, ret. destruct (Run _ _ w) as [w1 [out|e]]; [|done].
  destruct (parseList out) as [[|p ps]|]; [done| |done]. destruct (Run _ _ w1) as [w2 [out2|]]; [|done].
  destruct (parseProps out2); [|done]. destruct (Run _ _ w2) as [w3 [out3|]]; [|done].
  destruct (parseStatus grow out3) as [st|] eqn:E; [|done]. cbn [parsed]. intros [= _ <-]. by exists out3.
Qed.

(** Whatever zpool reports, the scrub status counts no errors, and it
    says that a resilver is finished while one is in progress. *)
Theorem scrub_status_misses {W} `{HostExec W} (bin name : gostr) (w : W) (rest : gostr) :
  match (ScrubStatus_ grow bin name w).2 with Some (Ok info) => siErrors info = 0 | _ => True end /\
  ssState (parseScrubStatus ( #"resilver in progress" ++ rest)) = #"finished".
Proof.
  split; [|reflexivity]. unfold ScrubStatus_, bind. destruct (Get grow bin name w) as [w' [[d|e]|]] eqn:E; [|done..].
  cbn [snd ret]. apply Get_status in E as [out E]. apply parseStatus_no_errors in E. unfold scrub_info.
  rewrite E. by destruct (stScan _).
Qed.
End Counters.
