(* ===== verification/NfsAcl.v ===== *)
(** * internal/host/zfs/dataset/acl.go: NFSv4 access control lists

    Entries with their validation, the wire format of nfs4_setfacl and
    nfs4_getfacl both ways, and the operations over the host's commands
    and its temporary files. *)

From S2P Require Import Prelude GoStrings SortLib Effects ZfsNames HostExec ZfsDataset.

Module Acl.

Definition NFS4SetFACLBin : gostr := #"/usr/bin/nfs4_setfacl".
Definition NFS4GetFACLBin : gostr := #"/usr/bin/nfs4_getfacl".

Record ACE := mkACE {
  aType : gostr; Principal : gostr; Permissions : list gostr; Inheritance : list gostr }.

Inductive acl_err :=
| PathEmpty | PathRelative | PathDash | PathChar | PathDotDot
| PrincipalEmpty | PrincipalCase | PrincipalForm | PrincipalNameEmpty | PrincipalChar
| BadType | NoPermissions | UnknownPerm (p : gostr) | Mixed | ManyShorthands | UnknownInherit (f : gostr)
| FieldCount | AuditType | UnknownType | AuditFlag | UnknownFlag | EmptyPrincipal | UnknownLetter
| EmptyACL | InACE (i : nat) (e : acl_err) | CreateTempErr | WriteErr | CloseErr
| BadIndex | LineTooLong | ErrACLNotSupported | Host (e : HostError).

Definition ACETypeAllow : gostr := #"allow".
Definition ACETypeDeny : gostr := #"deny".

(** The letter of each permission, and of each inheritance flag. *)
Definition permLetter : list (gostr * ascii) :=
  [( #"read", "r"%char); ( #"write", "w"%char); ( #"execute", "x"%char); ( #"append", "a"%char);
   ( #"delete", "d"%char); ( #"delete_child", "D"%char); ( #"read_acl", "c"%char); ( #"write_acl", "C"%char);
   ( #"write_owner", "o"%char); ( #"read_attrs", "t"%char); ( #"write_attrs", "T"%char);
   ( #"read_xattr", "n"%char); ( #"write_xattr", "N"%char); ( #"synchronize", "y"%char)].

Definition inheritLetter : list (gostr * ascii) :=
  [( #"file", "f"%char); ( #"dir", "d"%char); ( #"no_propagate", "n"%char); ( #"inherit_only", "i"%char)].

Definition letter_of (m : list (gostr * ascii)) (k : gostr) : option ascii :=
  match find (fun e => str_eqb e.1 k) m with Some e => Some e.2 | None => None end.

(** The inverse maps. *)
Definition name_of (m : list (gostr * ascii)) (c : ascii) : option gostr :=
  match find (fun e => ch_eqb e.2 c) m with Some e => Some e.1 | None => None end.

Definition shorthandExpansion (p : gostr) : option (list gostr) :=
  if str_eqb p #"full_control" then
    Some [ #"read"; #"write"; #"execute"; #"append"; #"delete"; #"delete_child"; #"read_attrs"; #"write_attrs";
           #"read_xattr"; #"write_xattr"; #"read_acl"; #"write_acl"; #"write_owner"; #"synchronize"]
  else if str_eqb p #"modify" then
    Some [ #"read"; #"write"; #"execute"; #"append"; #"delete"; #"read_attrs"; #"write_attrs"; #"read_acl"]
  else if str_eqb p #"read_only" then Some [ #"read"; #"execute"; #"read_attrs"; #"read_acl"]
  else None.

(** ** Validation *)

Definition illegal_path_char (c : ascii) : bool :=
  existsb (ch_eqb c) (map byte_of [0; 10; 13; 59; 38; 124; 96; 36; 42; 63; 60; 62; 34; 39; 92]).

Definition validatePath (p : gostr) : res acl_err unit :=
  ensure negb (str_eqb p []) else PathEmpty ;;
  ensure has_prefix p #"/" else PathRelative ;;
  ensure negb (has_prefix p #"-") else PathDash ;;
  ensure negb (existsb illegal_path_char p) else PathChar ;;
  ensure negb (existsb (str_eqb #"..") (split_on "/"%char p)) else PathDotDot ;;
  Ok tt.

Definition special_principals : list gostr := [ #"OWNER@"; #"GROUP@"; #"EVERYONE@"].
Definition is_special (p : gostr) : bool := existsb (str_eqb p) special_principals.

Definition principal_char (c : ascii) : bool :=
  is_lower c || is_upper c || is_digit c || existsb (ch_eqb c) (map byte_of [46; 45; 95; 64; 92]).

Definition to_upper_byte (c : ascii) : ascii := if is_lower c then byte_of (byte_val c - 32) else c.
Definition ends_at (p : gostr) : bool := has_prefix (rev p) #"@".

Definition validatePrincipal (p : gostr) : res acl_err unit :=
  ensure negb (str_eqb p []) else PrincipalEmpty ;;
  if is_special p then Ok tt
  else if ends_at p && is_special (map to_upper_byte p) then Err PrincipalCase
  else
    let? name := match strip_prefix #"user:" p with
                 | Some n => Ok n
                 | None => match strip_prefix #"group:" p with Some n => Ok n | None => Err PrincipalForm end
                 end in
    ensure negb (str_eqb name []) else PrincipalNameEmpty ;;
    ensure forallb principal_char name else PrincipalChar ;;
    Ok tt.

(** The loop over the permissions: whether there was a shorthand and
    whether there was a specific one. *)
Fixpoint check_perms (ps : list gostr) (hasShorthand hasSpecific : bool) : res acl_err (bool * bool) :=
  match ps with
  | [] => Ok (hasShorthand, hasSpecific)
  | p :: ps' =>
      match shorthandExpansion p, letter_of permLetter p with
      | Some _, _ => check_perms ps' true hasSpecific
      | None, Some _ => check_perms ps' hasShorthand true
      | None, None => Err (UnknownPerm p)
      end
  end.

Fixpoint check_inherit (fs : list gostr) : res acl_err unit :=
  match fs with
  | [] => Ok tt
  | f :: fs' => match letter_of inheritLetter f with Some _ => check_inherit fs' | None => Err (UnknownInherit f) end
  end.

Definition validateACE (ace : ACE) : res acl_err unit :=
  ensure str_eqb (aType ace) ACETypeAllow || str_eqb (aType ace) ACETypeDeny else BadType ;;
  let? _ := validatePrincipal (Principal ace) in
  ensure negb (length (Permissions ace) =? 0)%nat else NoPermissions ;;
  let? (hasShorthand, hasSpecific) := check_perms (Permissions ace) false false in
  ensure negb (hasShorthand && hasSpecific) else Mixed ;;
  ensure negb (hasShorthand && (1 <? length (Permissions ace))%nat) else ManyShorthands ;;
  check_inherit (Inheritance ace).

(** ** The wire format *)

Definition canonical : gostr := #"rwxaDdtTnNcCoy".
Definition canonicalFlags : gostr := #"fdni".

Definition expand (ps : list gostr) : list gostr :=
  match ps with
  | [p] => match shorthandExpansion p with Some exp => exp | None => ps end
  | _ => ps
  end.

(** The letters of a list of names. *)
Fixpoint letters (m : list (gostr * ascii)) (ks : list gostr) : res acl_err gostr :=
  match ks with
  | [] => Ok []
  | k :: ks' =>
      match letter_of m k with
      | None => Err (UnknownPerm k)
      | Some l => let? ls := letters m ks' in Ok (l :: ls)
      end
  end.

(** The letters that were seen, in the canonical order. *)
Definition in_order (order seen : gostr) : gostr := filter (fun c => c ∈ seen) order.

Definition isGroup (p : gostr) : bool := str_eqb p #"GROUP@" || has_prefix p #"group:".

Definition wirePrincipal (p : gostr) : gostr :=
  if is_special p then p
  else match strip_prefix #"user:" p with
       | Some n => n
       | None => match strip_prefix #"group:" p with
                 | Some n => if contains_byte "@"%char n then n else n ++ #"@"
                 | None => []
                 end
       end.

Definition aceToString (ace : ACE) : res acl_err gostr :=
  let? _ := validateACE ace in
  let typeLetter := if str_eqb (aType ace) ACETypeAllow then #"A" else #"D" in
  let? seen := letters permLetter (expand (Permissions ace)) in
  let flagSet := map (fun f => default (byte_of 0) (letter_of inheritLetter f)) (Inheritance ace) in
  let flags := in_order canonicalFlags flagSet ++ (if isGroup (Principal ace) then #"g" else []) in
  Ok (typeLetter ++ #":" ++ flags ++ #":" ++ wirePrincipal (Principal ace) ++ #":" ++ in_order canonical seen).

(** strings.SplitN(line, ":", 4). *)
Definition split4 (line : gostr) : option (gostr * gostr * gostr * gostr) :=
  match cut_at ":"%char line with
  | Some (a, r) =>
      match cut_at ":"%char r with
      | Some (b, r) =>
          match cut_at ":"%char r with
          | Some (c, d) => Some (a, b, c, d)
          | None => None
          end
      | None => None
      end
  | None => None
  end.

Fixpoint parse_flags (fs : gostr) : res acl_err (bool * list gostr) :=
  match fs with
  | [] => Ok (false, [])
  | c :: fs' =>
      if ch_eqb c "g"%char then let? (_, l) := parse_flags fs' in Ok (true, l)
      else if ch_eqb c "S"%char || ch_eqb c "F"%char then Err AuditFlag
      else match name_of inheritLetter c with
           | None => Err UnknownFlag
           | Some f => let? (g, l) := parse_flags fs' in Ok (g, f :: l)
           end
  end.

Fixpoint parse_perms (ps : gostr) : res acl_err (list gostr) :=
  match ps with
  | [] => Ok []
  | c :: ps' =>
      match name_of permLetter c with
      | None => Err UnknownLetter
      | Some p => let? l := parse_perms ps' in Ok (p :: l)
      end
  end.

(** strings.TrimSuffix(name, "@"). *)
Definition trim_at (n : gostr) : gostr :=
  match rev n with c :: r => if ch_eqb c "@"%char then rev r else n | [] => n end.

Definition parse_principal (isGroupFromFlag : bool) (p : gostr) : res acl_err gostr :=
  if is_special p then Ok p
  else if str_eqb p [] then Err EmptyPrincipal
  else if isGroupFromFlag then Ok ( #"group:" ++ trim_at p)
  else Ok ( #"user:" ++ p).

Definition parse_type (t : gostr) : res acl_err gostr :=
  if str_eqb t #"A" then Ok ACETypeAllow
  else if str_eqb t #"D" then Ok ACETypeDeny
  else if str_eqb t #"U" || str_eqb t #"L" then Err AuditType
  else Err UnknownType.

Definition parseACE (line : gostr) : res acl_err ACE :=
  match split4 line with
  | None => Err FieldCount
  | Some (typeStr, flagsStr, principalStr, permsStr) =>
      let? t := parse_type typeStr in
      let? (g, inh) := parse_flags flagsStr in
      let? p := parse_principal g principalStr in
      let? perms := parse_perms permsStr in
      ensure negb (length perms =? 0)%nat else NoPermissions ;;
      Ok (mkACE t p perms inh)
  end.

Fixpoint parse_acl_lines (lines : list gostr) (long : bool) : res acl_err (list ACE) :=
  match lines with
  | [] => if long then Err LineTooLong else Ok []
  | l :: ls =>
      let line := trim_space l in
      if str_eqb line [] || has_prefix line #"#" then parse_acl_lines ls long
      else
        let? ace := parseACE line in
        let? aces := parse_acl_lines ls long in
        Ok (ace :: aces)
  end.

Definition parseACLOutput (data : gostr) : res acl_err (list ACE) :=
  let '(ls, long) := Snapshots.scan_lines (Snapshots.raw_lines data) in parse_acl_lines ls long.

(** The text of a list of entries. *)
Fixpoint acl_text (i : nat) (aces : list ACE) : res acl_err gostr :=
  match aces with
  | [] => Ok []
  | ace :: aces' =>
      match aceToString ace with
      | Err e => Err (InACE i e)
      | Ok s => let? rest := acl_text (S i) aces' in Ok (s ++ [byte_of 10] ++ rest)
      end
  end.

(** ** The operations *)

Class TempFiles (W : Type) := {
  os_CreateTemp : W -> W * option gostr;
  os_Write : gostr -> gostr -> W -> W * bool;
  os_Close : gostr -> W -> W * bool;
  os_Remove : gostr -> W -> W * bool }.

Section Manager.
Context {W : Type} `{HostExec W, TempFiles W}.

Definition mapACLNotSupported (e : HostError) : acl_err :=
  if contains (map to_lower_byte (heStderr e)) #"not supported" then ErrACLNotSupported else Host e.

Definition GetACL (path : gostr) : M W (res acl_err (list ACE)) :=
  match validatePath path with
  | Err e => ret (Err e)
  | Ok _ =>
      let! r := call (Run NFS4GetFACLBin [path]) in
      ret (match r with Err e => Err (mapACLNotSupported e) | Ok out => parseACLOutput out end)
  end.

(** The body between the creation of the temporary file and its removal. *)
Definition set_from (tmp path buf : gostr) : M W (option acl_err) :=
  let! ok := call (os_Write tmp buf) in
  if negb ok then let! _ := call (os_Close tmp) in ret (Some WriteErr)
  else
    let! ok := call (os_Close tmp) in
    if negb ok then ret (Some CloseErr)
    else
      let! r := call (Run NFS4SetFACLBin [ #"-S"; tmp; path]) in
      ret (match r with Err e => Some (mapACLNotSupported e) | Ok _ => None end).

Definition SetACL (path : gostr) (aces : list ACE) : M W (option acl_err) :=
  match validatePath path with
  | Err e => ret (Some e)
  | Ok _ =>
      if (length aces =? 0)%nat then ret (Some EmptyACL)
      else match acl_text 0 aces with
      | Err e => ret (Some e)
      | Ok buf =>
          let! tmp := call os_CreateTemp in
          match tmp with
          | None => ret (Some CreateTempErr)
          | Some tmp =>
              let! r := set_from tmp path buf in
              let! _ := call (os_Remove tmp) in
              ret r
          end
      end
  end.

Definition set_with (args : list gostr) : M W (option acl_err) :=
  let! r := call (Run NFS4SetFACLBin args) in
  ret (match r with Err e => Some (mapACLNotSupported e) | Ok _ => None end).

Definition AppendACE (path : gostr) (ace : ACE) : M W (option acl_err) :=
  match validatePath path with
  | Err e => ret (Some e)
  | Ok _ => match aceToString ace with
            | Err e => ret (Some e)
            | Ok s => set_with [ #"-a"; s; path]
            end
  end.

Definition RemoveACE (path : gostr) (aceIndex : Z) : M W (option acl_err) :=
  match validatePath path with
  | Err e => ret (Some e)
  | Ok _ =>
      if aceIndex <? 0 then ret (Some BadIndex)
      else set_with [ #"-x"; print_int (wrap64 (aceIndex + 1)); path]
  end.
End Manager.
End Acl.
