(* ===== verification/NfsAclCorrect.v ===== *)
(** * Access control lists read back

    What the wire format keeps of an entry: the type, the set of
    permissions, the inheritance flags, and the principal, except for
    names that the format cannot tell from a special principal. *)

From S2P Require Import Prelude GoStrings GoText SortLib Effects ZfsNames HostExec ZfsDataset NfsAcl.
Import Acl.

#[local] Arguments str : simpl never.

(** ** Tables of letters *)

(** Names with their letters, in the order of the wire format. *)
Definition perm_table : list (gostr * ascii) :=
  [( #"read", "r"%char); ( #"write", "w"%char); ( #"execute", "x"%char); ( #"append", "a"%char);
   ( #"delete_child", "D"%char); ( #"delete", "d"%char); ( #"read_attrs", "t"%char); ( #"write_attrs", "T"%char);
   ( #"read_xattr", "n"%char); ( #"write_xattr", "N"%char); ( #"read_acl", "c"%char); ( #"write_acl", "C"%char);
   ( #"write_owner", "o"%char); ( #"synchronize", "y"%char)].

(** A table agrees with the maps of the code. *)
Definition agrees (m tbl : list (gostr * ascii)) : Prop :=
  Forall (fun e => letter_of m e.1 = Some e.2 /\ name_of m e.2 = Some e.1) tbl /\
  Forall (fun e => e ∈ tbl) m.

Lemma perm_agrees : agrees permLetter perm_table.
Proof. split; repeat constructor; by_dec. Qed.
Lemma inherit_agrees : agrees inheritLetter inheritLetter.
Proof. split; repeat constructor; by_dec. Qed.

Section Table.
Context (m tbl : list (gostr * ascii)) (Ht : agrees m tbl).

Lemma letter_in_table k c : letter_of m k = Some c -> (k, c) ∈ tbl.
Proof.
  unfold letter_of. destruct (find _ m) as [e|] eqn:E; [|done]. intros [= <-].
  apply find_some in E as [Hin Hk]. apply str_eqb_eq in Hk as <-. apply list_elem_of_In in Hin.
  destruct Ht as [_ Hm]. rewrite Forall_forall in Hm. specialize (Hm _ Hin). by destruct e.
Qed.

Lemma table_letter k c : (k, c) ∈ tbl -> letter_of m k = Some c /\ name_of m c = Some k.
Proof. intros Hin. destruct Ht as [Hl _]. rewrite Forall_forall in Hl. exact (Hl _ Hin). Qed.

Lemma letters_seen ks seen : letters m ks = Ok seen -> forall k c, (k, c) ∈ tbl -> c ∈ seen <-> k ∈ ks.
Proof.
  revert seen. induction ks as [|k0 ks IH]; intros seen; cbn [letters].
  { intros [= <-] k c _. by rewrite !elem_of_nil. }
  destruct (letter_of m k0) as [c0|] eqn:E0; [|done]. destruct (letters m ks) as [ls|] eqn:El; [|done].
  intros [= <-] k c Hin. rewrite !elem_of_cons, (IH ls eq_refl k c Hin).
  destruct (table_letter k c Hin) as [Ek Ec]. destruct (table_letter k0 c0 (letter_in_table _ _ E0)) as [_ Ec0].
  split; (intros [->|]; [left; congruence|by right]).
Qed.

Lemma letters_known ks seen : letters m ks = Ok seen -> Forall (fun k => exists c, (k, c) ∈ tbl) ks.
Proof.
  revert seen. induction ks as [|k ks IH]; intros seen; cbn [letters]; [constructor|].
  destruct (letter_of m k) as [c|] eqn:E; [|done]. destruct (letters m ks) as [ls|]; [|done]. intros _.
  constructor; [exists c; by apply letter_in_table|by eapply IH].
Qed.
End Table.

(** The names of a list, in the order of a table. *)
Definition ordered (tbl : list (gostr * ascii)) (ks : list gostr) : list gostr := filter (fun k => k ∈ ks) (map fst tbl).

Lemma parse_ordered_perms tbl seen ks :
  Forall (fun e => name_of permLetter e.2 = Some e.1 /\ (e.2 ∈ seen <-> e.1 ∈ ks)) tbl ->
  parse_perms (in_order (map snd tbl) seen) = Ok (ordered tbl ks).
Proof.
  unfold in_order, ordered. induction 1 as [|[k c] tbl [Hn Hi] _ IH]; [done|]. cbn [map fst snd] in *.
  rewrite !filter_cons. destruct (decide (c ∈ seen)) as [Hc|Hc], (decide (k ∈ ks)) as [Hk|Hk]; [|tauto|tauto|done].
  cbn [parse_perms]. by rewrite Hn, IH.
Qed.

Lemma parse_ordered_flags tbl seen ks (g : bool) :
  Forall (fun e => name_of inheritLetter e.2 = Some e.1 /\ (e.2 ∈ seen <-> e.1 ∈ ks) /\ e.2 ∉ #"gSF") tbl ->
  parse_flags (in_order (map snd tbl) seen ++ (if g then #"g" else [])) = Ok (g, ordered tbl ks).
Proof.
  unfold in_order, ordered. induction 1 as [|[k c] tbl (Hn & Hi & Ha) _ IH]; [by destruct g|]. cbn [map fst snd] in *.
  rewrite !filter_cons. destruct (decide (c ∈ seen)) as [Hc|Hc], (decide (k ∈ ks)) as [Hk|Hk]; [|tauto|tauto|done].
  cbn [app parse_flags].
  assert (Hne : forall d, d ∈ #"gSF" -> ch_eqb c d = false) by (intros d Hd; apply ch_eqb_neq; intros ->; done).
  rewrite !Hne by by_dec. cbn [orb]. by rewrite Hn, IH.
Qed.

(** ** Principals *)

(** What the format reads back for a principal. *)
Definition read_back (p : gostr) : gostr :=
  let w := wirePrincipal p in
  if is_special w then w else if isGroup p then #"group:" ++ trim_at w else #"user:" ++ w.

(** Names that stay apart from the special principals. *)
Definition unambiguous (p : gostr) : bool :=
  is_special p ||
  match strip_prefix #"user:" p with
  | Some n => negb (is_special n)
  | None => match strip_prefix #"group:" p with
            | Some n => negb (is_special n) && negb (is_special (n ++ #"@")) && negb (ends_at n)
            | None => false
            end
  end.

Lemma principal_cases p : validatePrincipal p = Ok tt ->
  is_special p = true \/
  exists n, n <> [] /\ Forall (fun c => principal_char c = true) n /\ (p = #"user:" ++ n \/ p = #"group:" ++ n).
Proof.
  unfold validatePrincipal. destruct (negb _); [|done]. destruct (is_special p); [by left|]. destruct (_ && _); [done|].
  intros E. right.
  destruct (strip_prefix #"user:" p) as [n|] eqn:Eu; [|destruct (strip_prefix #"group:" p) as [n|] eqn:Eg; [|done]].
  all: destruct (str_eqb n []) eqn:En; [done|]; destruct (forallb principal_char n) eqn:Ec; [|done];
    exists n; split; [by apply str_eqb_neq|]; split;
    [apply Forall_forall; intros c Hc; rewrite forallb_forall in Ec; by apply Ec, list_elem_of_In|].
  - left. by apply strip_prefix_Some.
  - right. by apply strip_prefix_Some.
Qed.

Lemma user_not_special n : is_special ( #"user:" ++ n) = false.
Proof. reflexivity. Qed.
Lemma group_not_special n : is_special ( #"group:" ++ n) = false.
Proof. reflexivity. Qed.

Lemma wire_user n : wirePrincipal ( #"user:" ++ n) = n.
Proof. unfold wirePrincipal. by rewrite user_not_special, strip_prefix_app. Qed.
Lemma wire_group n : wirePrincipal ( #"group:" ++ n) = if contains_byte "@"%char n then n else n ++ #"@".
Proof. unfold wirePrincipal. rewrite group_not_special. change (strip_prefix #"user:" ( #"group:" ++ n)) with (@None gostr). cbv iota. by rewrite strip_prefix_app. Qed.

Definition wire_char (c : ascii) : bool := printable c && negb (ch_eqb c ":"%char).

Lemma principal_wire_char c : principal_char c = true -> wire_char c = true.
Proof.
  unfold principal_char, wire_char, printable, is_lower, is_upper, is_digit. intros Hc. apply andb_true_iff.
  assert (Hcases : 33 <= byte_val c <= 126 /\ c <> ":"%char).
  { rewrite !orb_true_iff, !andb_true_iff, !Z.leb_le in Hc. destruct Hc as [[[Hc|Hc]|Hc]|Hc].
    1-3: split; [lia|intros ->; change (byte_val ":"%char) with 58 in Hc; lia].
    apply existsb_exists in Hc as (d & Hd & ->%ch_eqb_eq). vm_compute in Hd. naive_solver (done || by vm_compute). }
  destruct Hcases as [Hr Hne]. rewrite andb_true_iff, !Z.leb_le, negb_true_iff, ch_eqb_neq. tauto.
Qed.

Lemma special_wire p : is_special p = true -> p <> [] /\ Forall (fun c => wire_char c = true) p.
Proof.
  unfold is_special. intros (q & Hq & ->%str_eqb_eq)%existsb_exists.
  repeat (destruct Hq as [<-|Hq]; [split; [done|repeat constructor]|]). done.
Qed.

Lemma wire_ok p : validatePrincipal p = Ok tt -> wirePrincipal p <> [] /\ Forall (fun c => wire_char c = true) (wirePrincipal p).
Proof.
  intros [Hs|(n & Hne & Hn & Hp)]%principal_cases.
  - unfold wirePrincipal. rewrite Hs. by apply special_wire.
  - assert (Hw : Forall (fun c => wire_char c = true) n) by (eapply Forall_impl; [exact Hn|]; apply principal_wire_char).
    destruct Hp as [->| ->].
    + by rewrite wire_user.
    + rewrite wire_group. destruct (contains_byte _ n); [done|].
      split; [by destruct n|]. apply Forall_app_2; [done|by repeat constructor].
Qed.

Lemma trim_at_snoc n : trim_at (n ++ #"@") = n.
Proof. unfold trim_at. rewrite rev_app_distr. change (rev #"@" ++ rev n) with ("@"%char :: rev n). cbv beta iota. rewrite ch_eqb_refl. apply rev_involutive. Qed.

Lemma trim_at_id n : trim_at n = n <-> ends_at n = false.
Proof.
  unfold trim_at, ends_at. destruct (rev n) as [|c r] eqn:E; [done|].
  change (has_prefix (c :: r) #"@") with (match (if ch_eqb "@"%char c then Some r else None) with Some _ => true | None => false end).
  destruct (ch_eqb c "@"%char) eqn:Ec.
  - apply ch_eqb_eq in Ec as ->. rewrite ch_eqb_refl. split; [|done]. intros En. apply (f_equal length) in En.
    apply (f_equal length) in E. rewrite length_rev in *. simpl in E. lia.
  - assert (ch_eqb "@"%char c = false) as -> by (apply ch_eqb_neq; apply ch_eqb_neq in Ec; congruence). done.
Qed.

(** A principal reads back exactly when it is not one of the names that
    the format uses for the special principals. *)
Lemma read_back_iff p : validatePrincipal p = Ok tt -> read_back p = p <-> unambiguous p = true.
Proof.
  intros Hv%principal_cases. unfold read_back, unambiguous. destruct (is_special p) eqn:Es.
  { unfold wirePrincipal. rewrite Es, Es. done. }
  destruct Hv as [|(n & Hne & Hn & [->| ->])]; [done| |]; cbn [orb].
  - rewrite wire_user, strip_prefix_app. change (isGroup ( #"user:" ++ n)) with false. cbv iota.
    destruct (is_special n) eqn:En; [|done]. split; [|done]. intros E. rewrite E in En. done.
  - rewrite wire_group. change (strip_prefix #"user:" ( #"group:" ++ n)) with (@None gostr). rewrite strip_prefix_app.
    change (isGroup ( #"group:" ++ n)) with true. cbv iota. rewrite !andb_true_iff, !negb_true_iff.
    destruct (contains_byte "@"%char n) eqn:Ea.
    + destruct (is_special n) eqn:En.
      { split; [intros E; rewrite E in En; done|naive_solver]. }
      rewrite <- trim_at_id. split.
      * intros E%app_inv_head. split; [split; [done|]|done].
        destruct (is_special (n ++ #"@")) eqn:Esn; [|done]. exfalso.
        apply contains_byte_iff in Ea. unfold is_special in Esn. apply existsb_exists in Esn as (q & Hq & Eq%str_eqb_eq).
        assert (Hrev : rev n = tail (rev q)) by (rewrite <- Eq, rev_app_distr; done).
        assert (Hn' : n = rev (tail (rev q))) by (by rewrite <- Hrev, rev_involutive).
        subst n. repeat (destruct Hq as [<-|Hq]; [revert Ea; match goal with |- ?P -> False => change (~ P) end; by_dec|]). done.
      * by intros [_ ->].
    + assert (Hnot : "@"%char ∉ n) by (intros Hin%contains_byte_iff; congruence).
      assert (Hend : ends_at n = false).
      { unfold ends_at. destruct (rev n) as [|c r] eqn:Er; [done|]. destruct (has_prefix (c :: r) #"@") eqn:Eh; [|done].
        exfalso. apply has_prefix_iff in Eh as [q Eq]. injection Eq as -> ->. apply Hnot.
        apply list_elem_of_In, in_rev. rewrite Er. by left. }
      assert (Hsp : is_special n = false).
      { destruct (is_special n) eqn:En; [|done]. exfalso. apply Hnot. unfold is_special in En.
        apply existsb_exists in En as (q & Hq & ->%str_eqb_eq).
        repeat (destruct Hq as [<-|Hq]; [by_dec|]). done. }
      rewrite Hend, Hsp. destruct (is_special (n ++ #"@")) eqn:En.
      * split; [|naive_solver]. intros E. rewrite E in En. done.
      * rewrite trim_at_snoc. done.
Qed.

(** ** Entries *)

(** An entry as the format keeps it: shorthands expanded, permissions and
    flags in their order and without repetitions. *)
Definition kept (ace : ACE) : ACE :=
  mkACE (aType ace) (Principal ace) (ordered perm_table (expand (Permissions ace))) (ordered inheritLetter (Inheritance ace)).

Lemma kept_perms ace p : p ∈ Permissions (kept ace) <-> p ∈ expand (Permissions ace) /\ p ∈ map fst perm_table.
Proof. cbn [kept Permissions]. unfold ordered. by rewrite list_elem_of_filter. Qed.

Lemma check_perms_letters ps a b r : check_perms ps a b = Ok r ->
  (r.1 = false -> exists seen, letters permLetter ps = Ok seen) /\ (a = true -> r.1 = true).
Proof.
  revert a b. induction ps as [|p ps IH]; intros a b; cbn [check_perms letters].
  { intros [= <-]. split; [by eexists|done]. }
  destruct (shorthandExpansion p).
  - intros E. destruct (IH _ _ E) as [_ Ht]. split; [rewrite Ht by done; done|auto].
  - destruct (letter_of permLetter p); [|done]. intros E. destruct (IH _ _ E) as [Hl Ha]. split; [|done].
    intros Hr. destruct (Hl Hr) as [seen ->]. by eexists.
Qed.

Lemma shorthand_letters p exp : shorthandExpansion p = Some exp -> exists seen, letters permLetter exp = Ok seen /\ exp <> [].
Proof.
  unfold shorthandExpansion. repeat (destruct (str_eqb p _); [intros [= <-]; eexists; split; [reflexivity|done]|]). done.
Qed.

Lemma inherit_letters fs : check_inherit fs = Ok tt ->
  letters inheritLetter fs = Ok (map (fun f => default (byte_of 0) (letter_of inheritLetter f)) fs).
Proof.
  induction fs as [|f fs IH]; cbn [check_inherit letters map]; [done|]. destruct (letter_of inheritLetter f); [|done].
  intros E. by rewrite IH.
Qed.

Lemma ordered_nonempty tbl ks k : k ∈ ks -> k ∈ map fst tbl -> ordered tbl ks <> [].
Proof.
  intros Hk Ht E. assert (Hin : k ∈ ordered tbl ks) by (by apply list_elem_of_filter). rewrite E in Hin. by apply elem_of_nil in Hin.
Qed.

(** What writing an entry gives. *)
Lemma aceToString_Ok ace s : aceToString ace = Ok s ->
  (aType ace = ACETypeAllow \/ aType ace = ACETypeDeny) /\ validatePrincipal (Principal ace) = Ok tt /\
  expand (Permissions ace) <> [] /\
  exists seen, letters permLetter (expand (Permissions ace)) = Ok seen /\
    let flags := map (fun f => default (byte_of 0) (letter_of inheritLetter f)) (Inheritance ace) in
    letters inheritLetter (Inheritance ace) = Ok flags /\
    s = (if str_eqb (aType ace) ACETypeAllow then #"A" else #"D") ++ #":" ++
        (in_order canonicalFlags flags ++ (if isGroup (Principal ace) then #"g" else [])) ++ #":"
        ++ wirePrincipal (Principal ace) ++ #":" ++ in_order canonical seen.
Proof.
  unfold aceToString. destruct (validateACE ace) as [[]|] eqn:Ev; [|done].
  destruct (letters permLetter _) as [seen|] eqn:El; [|done]. intros [= <-].
  unfold validateACE in Ev. destruct (_ || _) eqn:Et; [|done].
  destruct (validatePrincipal _) as [[]|]; [|done]. destruct (negb (_ =? _)%nat) eqn:Elen; [|done].
  destruct (check_perms _ _ _) as [[sh sp]|]; [|done]. destruct (negb (sh && sp)); [|done]. destruct (negb (sh && (1 <? _)%nat)); [|done].
  apply inherit_letters in Ev.
  rewrite orb_true_iff, !str_eqb_eq in Et. split; [done|]. split; [done|]. split.
  - unfold expand. destruct (Permissions ace) as [|p [|q ps]]; [done| |done].
    destruct (shorthandExpansion p) eqn:Es; [|done]. by apply shorthand_letters in Es as (? & _ & ?).
  - by exists seen.
Qed.

Lemma no_colon l : Forall (fun c => wire_char c = true) l -> ":"%char ∉ l.
Proof. intros Hl Hin. rewrite Forall_forall in Hl. by specialize (Hl _ Hin). Qed.

Lemma in_order_wire order seen : Forall (fun c => wire_char c = true) order -> Forall (fun c => wire_char c = true) (in_order order seen).
Proof. rewrite !Forall_forall. intros Ho c [_ Hc]%list_elem_of_filter. by apply Ho. Qed.

Lemma order_chars : Forall (fun c => wire_char c = true) canonical /\ Forall (fun c => wire_char c = true) canonicalFlags.
Proof. split; repeat constructor. Qed.

Lemma split4_parts a b c d : ":"%char ∉ a -> ":"%char ∉ b -> ":"%char ∉ c ->
  split4 (a ++ #":" ++ b ++ #":" ++ c ++ #":" ++ d) = Some (a, b, c, d).
Proof.
  intros Ha Hb Hc. unfold split4.
  rewrite (proj2 (cut_at_Some ":"%char _ a (b ++ #":" ++ c ++ #":" ++ d))) by done.
  rewrite (proj2 (cut_at_Some ":"%char _ b (c ++ #":" ++ d))) by done.
  by rewrite (proj2 (cut_at_Some ":"%char _ c d)).
Qed.

Lemma read_principal p : validatePrincipal p = Ok tt -> parse_principal (isGroup p) (wirePrincipal p) = Ok (read_back p).
Proof.
  intros [Hne _]%wire_ok. unfold parse_principal, read_back. destruct (is_special _); [done|].
  rewrite (proj2 (str_eqb_neq _ _) Hne). by destruct (isGroup p).
Qed.

Lemma ace_read ace s : aceToString ace = Ok s ->
  parseACE s = Ok (mkACE (aType ace) (read_back (Principal ace)) (Permissions (kept ace)) (Inheritance (kept ace))).
Proof.
  intros (Ht & Hp & Hne & seen & Hseen & Hfl & ->)%aceToString_Ok. cbv zeta in Hfl.
  set (flags := map _ (Inheritance ace)) in *. destruct order_chars as [Ho Hof].
  assert (Hty : exists t, (if str_eqb (aType ace) ACETypeAllow then #"A" else #"D") = t /\ parse_type t = Ok (aType ace) /\ ":"%char ∉ t).
  { destruct Ht as [-> | ->]; eexists; (split; [reflexivity|]); (split; [reflexivity|]); by_dec. }
  destruct Hty as (t & -> & Ept & Hct).
  assert (Hcf : ":"%char ∉ in_order canonicalFlags flags ++ (if isGroup (Principal ace) then #"g" else [])).
  { apply no_colon, Forall_app_2; [by apply in_order_wire|]. destruct (isGroup _); by repeat constructor. }
  pose proof (wire_ok _ Hp) as [_ Hw]. unfold parseACE. rewrite split4_parts by (done || by apply no_colon).
  rewrite Ept. change canonicalFlags with (map snd inheritLetter).
  rewrite (parse_ordered_flags inheritLetter flags (Inheritance ace)).
  2:{ apply Forall_forall. intros [k c] Hin. destruct (table_letter _ _ inherit_agrees _ _ Hin) as [_ Hn].
      split; [done|]. split; [by apply (letters_seen _ _ inherit_agrees _ _ Hfl)|].
      assert (Hall : Forall (fun e : gostr * ascii => e.2 ∉ #"gSF") inheritLetter) by (repeat constructor; by_dec).
      rewrite Forall_forall in Hall. exact (Hall _ Hin). }
  rewrite read_principal by done. change canonical with (map snd perm_table).
  rewrite (parse_ordered_perms perm_table seen (expand (Permissions ace))).
  2:{ apply Forall_forall. intros [k c] Hin. destruct (table_letter _ _ perm_agrees _ _ Hin) as [_ Hn].
      split; [done|]. by apply (letters_seen _ _ perm_agrees _ _ Hseen). }
  destruct (length _ =? 0)%nat eqn:El; [|done]. exfalso. apply Nat.eqb_eq, nil_length_inv in El. revert El.
  destruct (expand (Permissions ace)) as [|k ks] eqn:Ex; [done|].
  apply (letters_known _ _ perm_agrees) in Hseen. apply Forall_cons in Hseen as [(c & Hin) _].
  apply ordered_nonempty with (k := k); [by left|]. change k with (k, c).1. by apply list_elem_of_fmap_2.
Qed.

(** ** Lists of entries *)

Definition short (ace : ACE) : Prop := Z.of_nat (length (Principal ace)) <= 65000.

Lemma filter_length_le {A} (P : A -> Prop) `{!forall x, Decision (P x)} l : (length (filter P l) <= length l)%nat.
Proof. induction l as [|x l IH]; [done|]. rewrite filter_cons. case_decide; simpl; lia. Qed.

Lemma wire_length p : (length (wirePrincipal p) <= S (length p))%nat.
Proof.
  unfold wirePrincipal. destruct (is_special p); [lia|].
  destruct (strip_prefix #"user:" p) as [n|] eqn:Eu.
  { apply strip_prefix_Some in Eu as ->. rewrite length_app. lia. }
  destruct (strip_prefix #"group:" p) as [n|] eqn:Eg; [|simpl; lia].
  apply strip_prefix_Some in Eg as ->. destruct (contains_byte _ n); rewrite !length_app; simpl; lia.
Qed.

(** A written entry is a line of its own. *)
Lemma ace_line ace s : aceToString ace = Ok s -> short ace ->
  bounded s = true /\ newline ∉ s /\ (length s < Snapshots.max_token)%nat /\ Snapshots.drop_cr s = s /\ has_prefix s #"#" = false.
Proof.
  intros E Hshort. pose proof (ace_read _ _ E) as Hread.
  apply aceToString_Ok in E as (Ht & Hp & Hne & seen & Hseen & Hfl & ->). cbv zeta in Hfl.
  set (flags := map _ (Inheritance ace)) in *. destruct order_chars as [Ho Hof]. pose proof (wire_ok _ Hp) as [_ Hw].
  set (body := in_order canonicalFlags flags ++ (if isGroup (Principal ace) then #"g" else [])).
  set (perms := in_order canonical seen) in *.
  assert (Hperms : perms <> []).
  { destruct (expand (Permissions ace)) as [|k ks] eqn:Ex; [done|].
    pose proof (letters_known _ _ perm_agrees _ _ Hseen) as Hk. apply Forall_cons in Hk as [(c & Hin) _].
    assert (Hc : c ∈ seen) by (apply (letters_seen _ _ perm_agrees _ _ Hseen k c Hin); by left).
    assert (Hcan : c ∈ canonical) by (change canonical with (map snd perm_table); change c with (k, c).2; by apply list_elem_of_fmap_2).
    intros Ep. assert (Hin' : c ∈ perms) by (by apply list_elem_of_filter). rewrite Ep in Hin'. by apply elem_of_nil in Hin'. }
  assert (Hpw : word perms = true).
  { apply word_iff. split; [done|]. eapply Forall_impl; [apply in_order_wire, Ho|].
    by intros c [Hc _]%andb_true_iff. }
  set (t := if str_eqb (aType ace) ACETypeAllow then #"A" else #"D").
  assert (Htb : bounded t = true /\ has_prefix (t ++ #":") #"#" = false /\ length t = 1%nat /\ Forall (fun c => printable c = true) t)
    by (unfold t; destruct (str_eqb _ _); repeat split; repeat constructor).
  destruct Htb as (Htb & Hth & Htl & Htp).
  assert (Hall : Forall (fun c => printable c = true) (t ++ #":" ++ body ++ #":" ++ wirePrincipal (Principal ace) ++ #":" ++ perms)).
  { assert (Hwp : forall l, Forall (fun c => wire_char c = true) l -> Forall (fun c => printable c = true) l)
      by (intros l Hl; eapply Forall_impl; [exact Hl|]; by intros c [Hc _]%andb_true_iff).
    repeat (apply Forall_app_2); try (by apply Hwp); try (by repeat constructor).
    - apply Hwp. by apply in_order_wire.
    - destruct (isGroup _); by repeat constructor.
    - apply Hwp. by apply in_order_wire. }
  rewrite Forall_forall in Hall.
  assert (Hb : bounded (t ++ #":" ++ body ++ #":" ++ wirePrincipal (Principal ace) ++ #":" ++ perms) = true).
  { pose proof (bounded_app_word t ( #":" ++ body ++ #":" ++ wirePrincipal (Principal ace) ++ #":") perms Htb Hpw) as Hb.
    rewrite <- !app_assoc in Hb. exact Hb. }
  split_and!; [done| | | |].
  - intros Hin. by specialize (Hall _ Hin).
  - rewrite !length_app, Htl. pose proof (wire_length (Principal ace)). unfold short in Hshort.
    assert (length body <= 5)%nat.
    { unfold body. rewrite length_app. pose proof (filter_length_le (.∈ flags) canonicalFlags). unfold in_order.
      change (length canonicalFlags) with 4%nat in *. destruct (isGroup _); simpl; lia. }
    assert (length perms <= 14)%nat by (apply (filter_length_le (.∈ seen) canonical)).
    unfold Snapshots.max_token. change (length #":") with 1%nat. lia.
  - apply andb_true_iff in Hb as [_ (d & q & Er & Hd)%starts_iff]. unfold Snapshots.drop_cr. rewrite Er.
    destruct (ch_eqb d (byte_of 13)) eqn:Ed; [|done]. apply ch_eqb_eq in Ed as ->. done.
  - unfold t in *. destruct (str_eqb _ _); reflexivity.
Qed.

Definition readable (ace : ACE) : Prop := unambiguous (Principal ace) = true /\ short ace.

Lemma acl_lines i aces buf : acl_text i aces = Ok buf -> Forall short aces ->
  exists ls, buf = unlines ls /\ Forall (fun l => newline ∉ l) ls /\ Snapshots.scan_lines ls = (ls, false) /\
    Forall2 (fun ace l => aceToString ace = Ok l /\ trim_space l = l /\ l <> [] /\ has_prefix l #"#" = false) aces ls.
Proof.
  revert i buf. induction aces as [|ace aces IH]; intros i buf; cbn [acl_text].
  { intros [= <-] _. by exists []. }
  destruct (aceToString ace) as [s|e] eqn:Es; [|done]. destruct (acl_text (S i) aces) as [rest|] eqn:Er; [|done].
  intros [= <-] [Hs Hall]%Forall_cons. destruct (IH _ _ Er Hall) as (ls & -> & Hn & Hscan & H2).
  destruct (ace_line _ _ Es Hs) as (Hb & Hnl & Hlen & Hcr & Hh).
  exists (s :: ls). split; [unfold unlines; cbn [map concat]; by rewrite <- app_assoc|]. split; [by constructor|]. split.
  - cbn [Snapshots.scan_lines]. replace (_ <=? _)%nat with false by (symmetry; by apply Nat.leb_gt).
    by rewrite Hscan, Hcr.
  - constructor; [|done]. split_and!; try done; [by apply trim_space_bounded|]. intros ->. done.
Qed.

(** An access control list that is written is read back: for entries
    whose principals are not spelled like a special one, the text handed
    to nfs4_setfacl, read the way nfs4_getfacl is read, gives the same
    entries in the same order, with shorthands expanded and permissions
    and flags in their fixed order; the set of permissions of each is the
    one that was given. *)
Theorem acl_roundtrip (aces : list ACE) (buf : gostr) (Htext : acl_text 0 aces = Ok buf) (Hread : Forall readable aces) :
  parseACLOutput buf = Ok (map kept aces).
Proof.
  destruct (acl_lines _ _ _ Htext) as (ls & -> & Hn & Hscan & H2); [by eapply Forall_impl; [exact Hread|]; intros ? []|].
  unfold parseACLOutput. assert (Eraw : Snapshots.raw_lines (unlines ls) = ls).
  { unfold Snapshots.raw_lines. change (byte_of 10) with newline. rewrite split_unlines by done.
    rewrite rev_app_distr. cbn [rev app]. by rewrite rev_involutive. }
  rewrite Eraw, Hscan. clear Eraw Hscan Htext Hn.
  induction H2 as [|ace l aces ls (Es & Htrim & Hne & Hh) H2 IH]; [done|].
  apply Forall_cons in Hread as [[Hu _] Hread]. cbn [parse_acl_lines map]. cbv zeta. rewrite Htrim, Hh.
  rewrite (proj2 (str_eqb_neq _ _) Hne). cbn [orb]. rewrite (ace_read _ _ Es), (IH Hread).
  pose proof Es as (_ & Hp & _)%aceToString_Ok. apply (read_back_iff _ Hp) in Hu. rewrite Hu. done.
Qed.

Definition sample_acl : list ACE :=
  [mkACE ACETypeAllow #"user:alice" [ #"modify"] [ #"dir"; #"file"];
   mkACE ACETypeDeny #"group:eng" [ #"write"; #"read"; #"write"] [];
   mkACE ACETypeAllow #"EVERYONE@" [ #"read_only"] []].

Lemma acl_roundtrip_witness :
  parseACLOutput (unlines [ #"A:fd:alice:rwxadtTc"; #"D:g:eng@:rw"; #"A::EVERYONE@:rxtc"]) = Ok (map kept sample_acl).
Proof.
  apply (acl_roundtrip sample_acl); [vm_compute; reflexivity|].
  repeat constructor; unfold short; simpl; lia.
Defined.

(** Names that look like a special principal become one: an entry for
    the group EVERYONE, or for a user or group called EVERYONE@, is
    accepted and is written as, and read back as, an entry for everyone. *)
Theorem principal_confusion (p : gostr) (Hp : p ∈ [ #"group:EVERYONE"; #"user:EVERYONE@"; #"group:EVERYONE@"]) :
  validatePrincipal p = Ok tt /\ wirePrincipal p = #"EVERYONE@" /\ read_back p = #"EVERYONE@".
Proof.
  repeat (apply elem_of_cons in Hp as [-> | Hp]; [split_and!; reflexivity|]). by apply elem_of_nil in Hp.
Qed.

Lemma principal_confusion_witness : wirePrincipal #"group:EVERYONE" = #"EVERYONE@".
Proof. apply (principal_confusion #"group:EVERYONE"). by_dec. Defined.
