(* ===== verification/GoNet.v ===== *)
(** * Addresses: what the code uses of package net

    ParseIP and ParseCIDR, with the parsers of package net/netip they call,
    and membership in a network.  An address is its bytes: four or
    sixteen. *)

From S2P Require Import Prelude GoStrings.

Definition addr : Type := list Z.

(** ** Dotted decimal

    The loop over the characters: the fields so far, the value and the
    number of digits of the current one, and the character before. *)
Fixpoint ipv4_loop (s : gostr) (fs : list Z) (val : Z) (digLen : nat) (first prevdot : bool) : option addr :=
  match s with
  | [] => if (length fs <? 3)%nat then None else Some (fs ++ [val])
  | c :: s' =>
      if is_digit c then
        if (digLen =? 1)%nat && (val =? 0) then None
        else
          let v := val * 10 + digit_val c in
          if 255 <? v then None else ipv4_loop s' fs v (S digLen) false false
      else if ch_eqb c "."%char then
        if first || prevdot || (match s' with [] => true | _ => false end) then None
        else if (length fs =? 3)%nat then None
        else ipv4_loop s' (fs ++ [val]) 0 0 false true
      else None
  end.

Definition parseIPv4 (s : gostr) : option addr :=
  match s with [] => None | _ => ipv4_loop s [] 0 0 true false end.

(** ** Colons and hexadecimal *)

Definition hex_digit_val (c : ascii) : option Z :=
  if is_digit c then Some (byte_val c - 48)
  else if (97 <=? byte_val c) && (byte_val c <=? 102) then Some (byte_val c - 87)
  else if (65 <=? byte_val c) && (byte_val c <=? 70) then Some (byte_val c - 55)
  else None.

(** A group of at most four hexadecimal digits: its value, its length and
    what follows. *)
Fixpoint hex_group (s : gostr) (acc : Z) (off : nat) : option (Z * nat * gostr) :=
  match s with
  | [] => Some (acc, off, [])
  | c :: s' =>
      match hex_digit_val c with
      | None => Some (acc, off, s)
      | Some d => if (3 <? off)%nat then None else hex_group s' (acc * 16 + d) (S off)
      end
  end.

(** The loop over the groups; [ell] is where an ellipsis was seen. *)
Fixpoint ipv6_loop (fuel : nat) (s : gostr) (ip : list Z) (ell : option nat) : option (list Z * option nat * gostr) :=
  match fuel with
  | O => Some (ip, ell, s)
  | S fuel =>
      match hex_group s 0 0 with
      | None => None
      | Some (acc, off, rest) =>
          if (off =? 0)%nat then None
          else match rest with
          | c :: rest' =>
              if ch_eqb c "."%char then
                if (match ell with None => negb (length ip =? 12)%nat | Some _ => false end) then None
                else if (16 <? length ip + 4)%nat then None
                else match parseIPv4 s with
                     | None => None
                     | Some v4 => Some (ip ++ v4, ell, [])
                     end
              else
                let ip := ip ++ [acc / 256; acc mod 256] in
                if negb (ch_eqb c ":"%char) then None
                else match rest' with
                | [] => None
                | d :: rest'' =>
                    if ch_eqb d ":"%char then
                      match ell with
                      | Some _ => None
                      | None =>
                          match rest'' with
                          | [] => Some (ip, Some (length ip), [])
                          | _ => ipv6_loop fuel rest'' ip (Some (length ip))
                          end
                      end
                    else ipv6_loop fuel rest' ip ell
                end
          | [] => Some (ip ++ [acc / 256; acc mod 256], ell, [])
          end
      end
  end.

Definition finish_ipv6 (r : option (list Z * option nat * gostr)) : option addr :=
  match r with
  | Some (ip, ell, []) =>
      if (length ip <? 16)%nat then
        match ell with
        | None => None
        | Some e => Some (take e ip ++ replicate (16 - length ip) 0 ++ drop e ip)
        end
      else match ell with Some _ => None | None => Some ip end
  | _ => None
  end.

(** Without a zone: eight groups at most, so eight rounds. *)
Definition parseIPv6 (s : gostr) : option addr :=
  match strip_prefix #"::" s with
  | Some [] => Some (replicate 16 0)
  | Some s' => finish_ipv6 (ipv6_loop 8 s' [] (Some 0%nat))
  | None => finish_ipv6 (ipv6_loop 8 s [] None)
  end.

(** Which of the two is meant: the first dot, colon or percent sign. *)
Fixpoint first_mark (s : gostr) : option ascii :=
  match s with
  | [] => None
  | c :: s' => if ch_eqb c "."%char || ch_eqb c ":"%char || ch_eqb c "%"%char then Some c else first_mark s'
  end.

(** netip.ParseAddr, for addresses without a zone: with one, both users
    below fail. *)
Definition ParseAddr (s : gostr) : option addr :=
  match first_mark s with
  | Some c =>
      if ch_eqb c "."%char then parseIPv4 s
      else if ch_eqb c ":"%char then if contains_byte "%"%char s then None else parseIPv6 s
      else None
  | None => None
  end.

(** net.ParseIP. *)
Definition ParseIP (s : gostr) : option addr := ParseAddr s.

(** The prefix length of a mask: decimal digits, below 0xFFFFFF. *)
Definition dtoi (s : gostr) : option Z :=
  match s with
  | [] => None
  | _ => match digits_val 0 s with Some n => if n <? 16777215 then Some n else None | None => None end
  end.

(** net.ParseCIDR: the address and the length of the prefix. *)
Definition ParseCIDR (s : gostr) : option (addr * Z) :=
  match cut_at "/"%char s with
  | None => None
  | Some (a, mask) =>
      match ParseAddr a with
      | None => None
      | Some ip =>
          match dtoi mask with
          | None => None
          | Some n => if n <=? 8 * Z.of_nat (length ip) then Some (ip, n) else None
          end
      end
  end.

(** ** The characters of an address *)

Definition addr_char (c : ascii) : bool :=
  match hex_digit_val c with Some _ => true | None => ch_eqb c "."%char || ch_eqb c ":"%char end.

Lemma digit_addr_char c : is_digit c = true -> addr_char c = true.
Proof. unfold addr_char, hex_digit_val. by intros ->. Qed.

Lemma ipv4_chars s : forall fs val dl f p a, ipv4_loop s fs val dl f p = Some a -> Forall (fun c => addr_char c = true) s.
Proof.
  induction s as [|c s IH]; intros fs val dl f p a; cbn [ipv4_loop]; [constructor|].
  destruct (is_digit c) eqn:Ed.
  - destruct (_ && _); [done|]. destruct (255 <? _); [done|]. intros E. constructor; [by apply digit_addr_char|by eapply IH].
  - destruct (ch_eqb c "."%char) eqn:Ec; [|done]. destruct (_ || _); [done|]. destruct (_ =? _)%nat; [done|].
    intros E. constructor; [|by eapply IH]. unfold addr_char. rewrite Ec. by destruct (hex_digit_val c).
Qed.

Lemma parseIPv4_chars s a : parseIPv4 s = Some a -> Forall (fun c => addr_char c = true) s.
Proof. unfold parseIPv4. destruct s; [done|]. apply ipv4_chars. Qed.

Lemma hex_group_chars s : forall acc off r, hex_group s acc off = Some r ->
  exists pre, s = pre ++ r.2 /\ Forall (fun c => addr_char c = true) pre.
Proof.
  induction s as [|c s IH]; intros acc off r; cbn [hex_group].
  { intros [= <-]. by exists []. }
  destruct (hex_digit_val c) eqn:Eh; [|intros [= <-]; by exists []].
  destruct (3 <? off)%nat; [done|]. intros (pre & -> & Hp)%IH. exists (c :: pre). split; [done|].
  constructor; [|done]. unfold addr_char. by rewrite Eh.
Qed.

Lemma colon_addr_char : addr_char ":"%char = true.
Proof. reflexivity. Qed.

Lemma ipv6_chars fuel : forall s ip ell r, ipv6_loop fuel s ip ell = Some r ->
  exists pre, s = pre ++ r.2 /\ Forall (fun c => addr_char c = true) pre.
Proof.
  induction fuel as [|fuel IH]; intros s ip ell r; cbn [ipv6_loop].
  { intros [= <-]. by exists []. }
  destruct (hex_group s 0 0) as [[[acc off] rest]|] eqn:Eg; [|done].
  apply hex_group_chars in Eg as (pre & Es & Hp). cbn [snd] in Es. destruct (off =? 0)%nat; [done|].
  destruct rest as [|c rest]; [intros [= <-]; by exists pre|].
  destruct (ch_eqb c "."%char) eqn:Ec.
  { destruct (match ell with None => _ | Some _ => _ end); [done|]. destruct (16 <? _)%nat; [done|].
    destruct (parseIPv4 s) as [v4|] eqn:E4; [|done]. intros [= <-]. exists s. split; [by rewrite app_nil_r|].
    by eapply parseIPv4_chars. }
  destruct (ch_eqb c ":"%char) eqn:Ecc; [|done]. apply ch_eqb_eq in Ecc as ->. cbn [negb].
  destruct rest as [|d rest]; [done|]. destruct (ch_eqb d ":"%char) eqn:Ed.
  - apply ch_eqb_eq in Ed as ->. destruct ell; [done|].
    assert (Hpre : Forall (fun c => addr_char c = true) (pre ++ #"::")) by (apply Forall_app_2; [done|by repeat constructor]).
    destruct rest as [|e rest].
    + intros [= <-]. exists (pre ++ #"::"). split; [by rewrite Es, app_nil_r|done].
    + intros (q & Eq & Hq)%IH. exists (pre ++ #"::" ++ q). split; [rewrite Es, Eq, <- !app_assoc; done|].
      rewrite app_assoc. by apply Forall_app_2.
  - intros (q & Eq & Hq)%IH. exists (pre ++ #":" ++ q). split; [rewrite Es, Eq, <- !app_assoc; done|].
    apply Forall_app_2; [done|]. apply Forall_app_2; [by repeat constructor|done].
Qed.

Lemma finish_chars r a pre s : s = pre ++ (match r with Some x => x.2 | None => [] end) ->
  finish_ipv6 r = Some a -> s = pre.
Proof.
  intros Es. unfold finish_ipv6. destruct r as [[[ip ell] [|]]|]; [|done..]. intros _. rewrite Es. apply app_nil_r.
Qed.

Lemma parseIPv6_chars s a : parseIPv6 s = Some a -> Forall (fun c => addr_char c = true) s.
Proof.
  unfold parseIPv6. destruct (strip_prefix #"::" s) as [s'|] eqn:E.
  - apply strip_prefix_Some in E as ->. intros E. apply Forall_app_2; [by repeat constructor|].
    destruct s' as [|c s']; [constructor|].
    destruct (ipv6_loop 8 (c :: s') [] (Some 0%nat)) as [r|] eqn:El; [|done].
    pose proof (ipv6_chars _ _ _ _ _ El) as (pre & Es & Hp). by rewrite (finish_chars (Some r) a pre _ Es E).
  - intros Ef. destruct (ipv6_loop 8 s [] None) as [r|] eqn:El; [|done].
    pose proof (ipv6_chars _ _ _ _ _ El) as (pre & Es & Hp). by rewrite (finish_chars (Some r) a pre _ Es Ef).
Qed.

Lemma ParseAddr_chars s a : ParseAddr s = Some a -> s <> [] /\ Forall (fun c => addr_char c = true) s.
Proof.
  unfold ParseAddr. intros E. split; [by intros ->|]. destruct (first_mark s) as [c|]; [|done].
  destruct (ch_eqb c "."%char); [by eapply parseIPv4_chars|]. destruct (ch_eqb c ":"%char); [|done].
  destruct (contains_byte _ s); [done|]. by eapply parseIPv6_chars.
Qed.

Example parse_v4 : ParseIP #"192.168.1.254" = Some [192; 168; 1; 254].
Proof. reflexivity. Qed.
Example parse_v4_leading_zero : ParseIP #"192.168.01.1" = None.
Proof. reflexivity. Qed.
Example parse_v6 : ParseIP #"fe80::1:2" = Some ([254; 128] ++ replicate 10 0 ++ [0; 1; 0; 2]).
Proof. reflexivity. Qed.
Example parse_v6_embedded : ParseIP #"::ffff:10.0.0.1" = Some (replicate 10 0 ++ [255; 255; 10; 0; 0; 1]).
Proof. reflexivity. Qed.
Example parse_cidr : ParseCIDR #"10.0.0.0/24" = Some ([10; 0; 0; 0], 24).
Proof. reflexivity. Qed.
Example parse_v6_too_many : ParseIP #"1:2:3:4:5:6:7:8:9" = None.
Proof. reflexivity. Qed.
