(* ===== verification/HostFiles.v ===== *)
(** * Files of the host

    The file operations the share managers are written against, and their
    laws: what a store of files promises. *)

From S2P Require Import Prelude GoStrings Effects.

Inductive read_res := Data (d : gostr) | Missing | ReadFailed.
Inductive remove_res := Removed | NoSuchFile | RemoveFailed.

Class FileWriter (W : Type) := {
  fw_Write : gostr -> gostr -> W -> W * bool;
  fw_Remove : gostr -> W -> W * remove_res;
  fw_ReadFile : gostr -> W -> W * read_res;
  (** the entries of a directory: name and whether it is a directory *)
  fw_ReadDir : gostr -> W -> W * option (list (gostr * bool)) }.

(** The files of a state, for stores that keep what was written. *)
Class FileLaws (W : Type) `{FileWriter W} (files : W -> gmap gostr gostr) := {
  write_law p d w w' : fw_Write p d w = (w', true) -> files w' = <[p := d]> (files w);
  (** a failed write may leave anything at the path, and nothing elsewhere *)
  write_fail_law p d w w' q : fw_Write p d w = (w', false) -> q <> p -> files w' !! q = files w !! q;
  remove_law p w w' r : fw_Remove p w = (w', r) ->
    match r with
    | Removed => files w' = delete p (files w)
    | NoSuchFile => files w' = files w /\ files w !! p = None
    | RemoveFailed => files w' = files w
    end;
  read_law p w w' r : fw_ReadFile p w = (w', r) -> files w' = files w /\
    match r with Data d => files w !! p = Some d | Missing => files w !! p = None | ReadFailed => True end }.

(** strings.HasSuffix and strings.TrimSuffix. *)
Definition has_suffix (s p : gostr) : bool := has_prefix (rev s) (rev p).
Definition trim_suffix (s p : gostr) : gostr :=
  match strip_prefix (rev p) (rev s) with Some r => rev r | None => s end.

Lemma has_suffix_app s p : has_suffix (s ++ p) p = true.
Proof. unfold has_suffix. rewrite rev_app_distr. apply has_prefix_iff. by eexists. Qed.

Lemma trim_suffix_app s p : trim_suffix (s ++ p) p = s.
Proof. unfold trim_suffix. by rewrite rev_app_distr, strip_prefix_app, rev_involutive. Qed.

(** The name between a prefix and a suffix, when a file name has both. *)
Definition managed_name (prefix suffix fname : gostr) : option gostr :=
  if has_prefix fname prefix && has_suffix fname suffix
  then Some (trim_suffix (trim_prefix fname prefix) suffix) else None.

(** Names that are file names as well: letters, digits, dashes and
    underscores, at most 64, no leading dash. *)
Inductive name_fault := NameEmpty | NameLong | NameDash | NameChar.

Definition file_name_char (c : ascii) : bool :=
  is_lower c || is_upper c || is_digit c || ch_eqb c "_"%char || ch_eqb c "-"%char.

Definition check_file_name (name : gostr) : res name_fault unit :=
  ensure negb (str_eqb name []) else NameEmpty ;;
  ensure (length name <=? 64)%nat else NameLong ;;
  ensure negb (has_prefix name #"-") else NameDash ;;
  ensure forallb file_name_char name else NameChar ;;
  Ok tt.

(** A store of files in which everything succeeds. *)
Section MapStore.
Context {W : Type} (get : W -> gmap gostr gostr) (set : gmap gostr gostr -> W -> W)
  (get_set : forall m w, get (set m w) = m).

Definition map_writer : FileWriter W := {|
  fw_Write p d w := (set (<[p := d]> (get w)) w, true);
  fw_Remove p w := match get w !! p with
                   | None => (w, NoSuchFile)
                   | Some _ => (set (delete p (get w)) w, Removed)
                   end;
  fw_ReadFile p w := (w, match get w !! p with Some d => Data d | None => Missing end);
  fw_ReadDir d w := (w, Some []) |}.

#[local] Instance map_writer_inst : FileWriter W := map_writer.

Lemma map_writer_laws : FileLaws W get.
Proof.
  constructor; cbn.
  - intros p d w w' [= <-]. apply get_set.
  - done.
  - intros p w w' r. destruct (get w !! p) eqn:E; intros [= <- <-]; [apply get_set|done].
  - intros p w w' r [= <- <-]. split; [done|]. by destruct (get w !! p).
Qed.
End MapStore.

(** * internal/host/configfs: the kernel's configuration tree

    Paths below the root, and the operations on them over the calls of
    package os. *)

From S2P Require Import Prelude GoStrings GoPath SortLib Effects.

Inductive os_err := NotExist | OtherErr.

(** What is used of package os; an error is a value. *)
Class ConfigTree (W : Type) := {
  os_MkdirAll : gostr -> W -> W * option os_err;
  os_Remove : gostr -> W -> W * option os_err;
  os_Open : gostr -> W -> W * option os_err;
  os_WriteTo : gostr -> gostr -> W -> W * option os_err;
  os_CloseOf : gostr -> W -> W * option os_err;
  os_Read : gostr -> W -> W * res os_err gostr;
  os_Symlink : gostr -> gostr -> W -> W * option os_err;
  os_ReadDir : gostr -> W -> W * res os_err (list gostr) }.

Module Cfs.

Inductive path_fault := PathEmpty | LeadingSlash | NulByte | Backslash | ControlChar | Traversal | EmptySegment.
Inductive cfs_err := BadPath (f : path_fault) | Os (e : os_err).

(** errors.Is(err, ErrNotExist). *)
Definition is_not_exist (e : cfs_err) : bool := match e with Os NotExist => true | _ => false end.

Definition DefaultRoot : gostr := #"/sys/kernel/config".

Record Manager := mkManager { Root : gostr }.
Definition root (m : Manager) : gostr := if str_eqb (Root m) [] then DefaultRoot else Root m.

Definition control (c : ascii) : bool := (byte_val c <? 32) || (byte_val c =? 127).

(** The loop over the segments stops at the first that is refused. *)
Fixpoint check_segs (segs : list gostr) : res path_fault unit :=
  match segs with
  | [] => Ok tt
  | seg :: segs' =>
      ensure negb (str_eqb seg dotdot) else Traversal ;;
      ensure negb (str_eqb seg []) else EmptySegment ;;
      check_segs segs'
  end.

Definition validateRel (rel : gostr) : res path_fault gostr :=
  ensure negb (str_eqb rel []) else PathEmpty ;;
  ensure negb (has_prefix rel #"/") else LeadingSlash ;;
  ensure negb (contains_byte (byte_of 0) rel) else NulByte ;;
  ensure negb (contains_byte (byte_of 92) rel) else Backslash ;;
  ensure negb (existsb control rel) else ControlChar ;;
  let cleaned := trim_right_byte "/"%char rel in
  ensure negb (str_eqb cleaned []) else PathEmpty ;;
  let? _ := check_segs (split_on "/"%char cleaned) in
  Ok cleaned.

Definition resolve (m : Manager) (rel : gostr) : res cfs_err gostr :=
  match validateRel rel with
  | Err e => Err (BadPath e)
  | Ok cleaned => Ok (Join [root m; cleaned])
  end.

Section Operations.
Context {W : Type} `{ConfigTree W} (m : Manager).

(** Resolve the path, then call. *)
Definition at_path {A} (rel : gostr) (k : gostr -> M W (res cfs_err A)) : M W (res cfs_err A) :=
  match resolve m rel with Err e => ret (Err e) | Ok p => k p end.

Definition simple (f : gostr -> W -> W * option os_err) (rel : gostr) : M W (res cfs_err unit) :=
  at_path rel (fun p => let! r := call (f p) in ret (match r with Some e => Err (Os e) | None => Ok tt end)).

Definition Mkdir (rel : gostr) : M W (res cfs_err unit) := simple os_MkdirAll rel.
Definition Rmdir (rel : gostr) : M W (res cfs_err unit) := simple os_Remove rel.
Definition RemoveSymlink (linkRel : gostr) : M W (res cfs_err unit) := simple os_Remove linkRel.
Definition Symlink (target linkRel : gostr) : M W (res cfs_err unit) := simple (os_Symlink target) linkRel.

Definition WriteFile (rel data : gostr) : M W (res cfs_err unit) :=
  at_path rel (fun p =>
    let! o := call (os_Open p) in
    match o with
    | Some e => ret (Err (Os e))
    | None =>
        let! w := call (os_WriteTo p data) in
        let! c := call (os_CloseOf p) in
        ret (match w, c with
             | Some e, _ => Err (Os e)
             | None, Some e => Err (Os e)
             | None, None => Ok tt
             end)
    end).

Definition ReadFile (rel : gostr) : M W (res cfs_err gostr) :=
  at_path rel (fun p => let! r := call (os_Read p) in ret (match r with Err e => Err (Os e) | Ok d => Ok d end)).

Definition ListDir (rel : gostr) : M W (res cfs_err (list gostr)) :=
  at_path rel (fun p =>
    let! r := call (os_ReadDir p) in
    ret (match r with Err e => Err (Os e) | Ok names => Ok (stable_sort str_ltb names) end)).
End Operations.
End Cfs.
