(* ===== verification/NfsExports.v ===== *)
(** * internal/host/nfs: NFS exports

    Exports with their validation, the file of an export and its parser,
    the Kerberos default, and the operations over the files of the exports
    directory and the exportfs command. *)

From S2P Require Import Prelude GoStrings GoPath GoNet SortLib Effects ZfsNames HostExec HostFiles.

Module Nfs.

Record ClientRule := mkRule { Spec : gostr; Options : gostr }.
Record Export := mkExport { Name : gostr; Path : gostr; Clients : list ClientRule }.
Record ActiveExport := mkActive { aePath : gostr; aeClient : gostr; aeOptions : gostr }.

Inductive nfs_err :=
| BadName (e : name_fault) | PathRequired | PathRelative | PathNul | PathDotDot | PathControl | PathChar
| NoClients | InClient (i : nat) (e : nfs_err)
| SpecRequired | BadCIDR | SpecDash | SpecChar | OptionsRequired | OptionsLong | OptionsChar
| AlreadyExists | ReadErr | WriteErr | RemoveErr | ReadDirErr | ErrNotFound
| Exportfs (e : HostError)
| NoClientList | NoRules | BadToken | NoSpec | NoLine | LineTooLong.

Record Manager := mkManager {
  ExportsBin : gostr; ExportsDir : gostr; FilePrefix : gostr; RequireKerberos : bool }.

Definition or_default (v d : gostr) : gostr := if str_eqb v [] then d else v.

Definition bin (m : Manager) : gostr := or_default (ExportsBin m) #"/usr/sbin/exportfs".
Definition dir (m : Manager) : gostr := or_default (ExportsDir m) #"/etc/exports.d".
Definition prefix (m : Manager) : gostr := or_default (FilePrefix m) #"nova-nas-".
Definition suffix : gostr := #".exports".

Definition filePath (m : Manager) (name : gostr) : gostr := Join [dir m; prefix m ++ name ++ suffix].

(** ** Validation *)

Definition validateExportName (name : gostr) : res nfs_err unit :=
  match check_file_name name with Ok _ => Ok tt | Err e => Err (BadName e) end.

Definition control (c : ascii) : bool := (byte_val c <? 32) || (byte_val c =? 127).

Definition forbidden_char (c : ascii) : bool :=
  existsb (ch_eqb c) (map byte_of [32; 9; 59; 124; 38; 36; 96; 92; 34; 39; 60; 62; 42; 63; 40; 41; 123; 125; 91; 93]).

(** The loop stops at the first character that is refused. *)
Fixpoint check_path_chars (p : gostr) : res nfs_err unit :=
  match p with
  | [] => Ok tt
  | c :: p' =>
      ensure negb (control c) else PathControl ;;
      ensure negb (forbidden_char c) else PathChar ;;
      check_path_chars p'
  end.

Definition validateExportPath (p : gostr) : res nfs_err unit :=
  ensure negb (str_eqb p []) else PathRequired ;;
  ensure has_prefix p #"/" else PathRelative ;;
  ensure negb (contains_byte (byte_of 0) p) else PathNul ;;
  ensure negb (existsb (str_eqb #"..") (split_on "/"%char p)) else PathDotDot ;;
  check_path_chars p.

Definition spec_char (c : ascii) : bool :=
  is_lower c || is_upper c || is_digit c || existsb (ch_eqb c) [".";"-";"*";"?"]%char.

Definition validateClientSpec (s : gostr) : res nfs_err unit :=
  ensure negb (str_eqb s []) else SpecRequired ;;
  if str_eqb s #"*" then Ok tt
  else if contains_byte "/"%char s then
    match ParseCIDR s with None => Err BadCIDR | Some _ => Ok tt end
  else match ParseIP s with
       | Some _ => Ok tt
       | None =>
           ensure negb (has_prefix s #"-") else SpecDash ;;
           ensure forallb spec_char s else SpecChar ;;
           Ok tt
       end.

Definition option_char (c : ascii) : bool :=
  is_lower c || is_upper c || is_digit c || existsb (ch_eqb c) ["=";",";"/";"-";"_";":"]%char.

Definition validateExportOptions (opts : gostr) : res nfs_err unit :=
  ensure negb (str_eqb opts []) else OptionsRequired ;;
  ensure (length opts <=? 256)%nat else OptionsLong ;;
  ensure forallb option_char opts else OptionsChar ;;
  Ok tt.

Fixpoint check_clients (i : nat) (cs : list ClientRule) : res nfs_err unit :=
  match cs with
  | [] => Ok tt
  | c :: cs' =>
      match validateClientSpec (Spec c) with
      | Err e => Err (InClient i e)
      | Ok _ => match validateExportOptions (Options c) with
                | Err e => Err (InClient i e)
                | Ok _ => check_clients (S i) cs'
                end
      end
  end.

Definition validateExport (e : Export) : res nfs_err unit :=
  let? _ := validateExportName (Name e) in
  let? _ := validateExportPath (Path e) in
  ensure negb (length (Clients e) =? 0)%nat else NoClients ;;
  check_clients 0 (Clients e).

(** ** The Kerberos default *)

(** The key of an option. *)
Definition option_key (tok : gostr) : gostr :=
  let k := trim_space tok in
  match cut_at "="%char k with Some (key, _) => key | None => k end.

Definition hasSecOption (opts : gostr) : bool :=
  existsb (fun tok => negb (str_eqb (trim_space tok) []) && equal_fold (option_key tok) #"sec") (split_on ","%char opts).

Definition with_sec (c : ClientRule) : ClientRule :=
  if hasSecOption (Options c) then c
  else mkRule (Spec c) (if str_eqb (Options c) [] then #"sec=krb5p" else #"sec=krb5p," ++ Options c).

Definition applyKerberosDefault (m : Manager) (e : Export) : Export :=
  if negb (RequireKerberos m) then e
  else mkExport (Name e) (Path e) (map with_sec (Clients e)).

(** ** The file *)

Definition rule_text (c : ClientRule) : gostr := Spec c ++ #"(" ++ Options c ++ #")".

Definition renderExportFile (e : Export) : gostr :=
  Path e ++ concat (map (fun c => #" " ++ rule_text c) (Clients e)) ++ [byte_of 10].

(** ** Parsers *)

Definition parse_token (tok : gostr) : res nfs_err (gostr * gostr) :=
  match cut_at "("%char tok with
  | Some (spec, rest) => if has_suffix tok #")" then Ok (spec, removelast rest) else Err BadToken
  | None => Err BadToken
  end.

Fixpoint parse_tokens (toks : list gostr) : res nfs_err (list ClientRule) :=
  match toks with
  | [] => Ok []
  | tok :: toks' =>
      let? (spec, opts) := parse_token tok in
      ensure negb (str_eqb spec []) else NoSpec ;;
      let? rest := parse_tokens toks' in
      Ok (mkRule spec opts :: rest)
  end.

Definition parseClientList (s : gostr) : res nfs_err (list ClientRule) :=
  let? out := parse_tokens (fields s) in
  ensure negb (length out =? 0)%nat else NoRules ;;
  Ok out.

(** The first blank or tab. *)
Fixpoint cut_blank (s : gostr) : option (gostr * gostr) :=
  match s with
  | [] => None
  | c :: s' =>
      if ch_eqb c " "%char || ch_eqb c (byte_of 9) then Some ([], s')
      else match cut_blank s' with Some (a, b) => Some (c :: a, b) | None => None end
  end.

Definition parseExportLine (line : gostr) : res nfs_err Export :=
  match cut_blank line with
  | None => Err NoClientList
  | Some (path, rest) =>
      let rest := trim_space rest in
      ensure negb (str_eqb rest []) else NoClientList ;;
      let? clients := parseClientList rest in
      Ok (mkExport [] path clients)
  end.

Fixpoint first_line (lines : list gostr) (long : bool) : res nfs_err Export :=
  match lines with
  | [] => if long then Err LineTooLong else Err NoLine
  | l :: ls =>
      let line := trim_space l in
      if str_eqb line [] || has_prefix line #"#" then first_line ls long else parseExportLine line
  end.

Definition parseExportFile (data : gostr) : res nfs_err Export :=
  let '(ls, long) := Snapshots.scan_lines (Snapshots.raw_lines data) in first_line ls long.

Definition parseActiveToken (path tok : gostr) : option ActiveExport :=
  match parse_token tok with Ok (c, o) => Some (mkActive path c o) | Err _ => None end.

Fixpoint exportfs_loop (lines : list gostr) (lastPath : gostr) : list ActiveExport :=
  match lines with
  | [] => []
  | raw :: ls =>
      let line := trim_space raw in
      if str_eqb line [] then exportfs_loop ls lastPath
      else
        let indented := match raw with c :: _ => ch_eqb c " "%char || ch_eqb c (byte_of 9) | [] => false end in
        if indented && negb (str_eqb lastPath []) then
          match parseActiveToken lastPath line with
          | Some ae => ae :: exportfs_loop ls lastPath
          | None => exportfs_loop ls lastPath
          end
        else match fields line with
        | [] => exportfs_loop ls lastPath
        | p :: toks => omap (parseActiveToken p) toks ++ exportfs_loop ls p
        end
  end.

Definition parseExportfsV (data : gostr) : res nfs_err (list ActiveExport) :=
  let '(ls, long) := Snapshots.scan_lines (Snapshots.raw_lines data) in
  if long then Err LineTooLong else Ok (exportfs_loop ls []).

(** ** Operations *)

Section Operations.
Context {W : Type} `{HostExec W, FileWriter W} (m : Manager).

Definition Reload : M W (option nfs_err) :=
  let! r := call (Run (bin m) [ #"-ra"]) in
  ret (match r with Err e => Some (Exportfs e) | Ok _ => None end).

(** Write the file, then reload. *)
Definition write_and_reload (e : Export) : M W (option nfs_err) :=
  let! ok := call (fw_Write (filePath m (Name e)) (renderExportFile e)) in
  if negb ok then ret (Some WriteErr) else Reload.

Definition CreateExport (e : Export) : M W (option nfs_err) :=
  let e := applyKerberosDefault m e in
  match validateExport e with
  | Err err => ret (Some err)
  | Ok _ =>
      let! r := call (fw_ReadFile (filePath m (Name e))) in
      match r with
      | Data _ => ret (Some AlreadyExists)
      | ReadFailed => ret (Some ReadErr)
      | Missing => write_and_reload e
      end
  end.

Definition UpdateExport (e : Export) : M W (option nfs_err) :=
  let e := applyKerberosDefault m e in
  match validateExport e with
  | Err err => ret (Some err)
  | Ok _ =>
      let! r := call (fw_ReadFile (filePath m (Name e))) in
      match r with
      | Missing => ret (Some ErrNotFound)
      | ReadFailed => ret (Some ReadErr)
      | Data _ => write_and_reload e
      end
  end.

Definition DeleteExport (name : gostr) : M W (option nfs_err) :=
  match validateExportName name with
  | Err e => ret (Some e)
  | Ok _ =>
      let! r := call (fw_Remove (filePath m name)) in
      match r with
      | NoSuchFile => ret (Some ErrNotFound)
      | RemoveFailed => ret (Some RemoveErr)
      | Removed => Reload
      end
  end.

Definition GetExport (name : gostr) : M W (res nfs_err Export) :=
  match validateExportName name with
  | Err e => ret (Err e)
  | Ok _ =>
      let! r := call (fw_ReadFile (filePath m name)) in
      ret (match r with
           | Missing => Err ErrNotFound
           | ReadFailed => Err ReadErr
           | Data d => let? ex := parseExportFile d in Ok (mkExport name (Path ex) (Clients ex))
           end)
  end.

(** Files that are not ours or do not parse are skipped. *)
Fixpoint list_entries (entries : list (gostr * bool)) : M W (list Export) :=
  match entries with
  | [] => ret []
  | (fname, isDir) :: es =>
      match (if isDir then None else managed_name (prefix m) suffix fname) with
      | None => list_entries es
      | Some name =>
          if is_ok (validateExportName name) then
            let! r := call (fw_ReadFile (Join [dir m; fname])) in
            match r with
            | Data d =>
                match parseExportFile d with
                | Ok ex => let! rest := list_entries es in ret (mkExport name (Path ex) (Clients ex) :: rest)
                | Err _ => list_entries es
                end
            | _ => list_entries es
            end
          else list_entries es
      end
  end.

Definition ListExports : M W (res nfs_err (list Export)) :=
  let! d := call (fw_ReadDir (dir m)) in
  match d with
  | None => ret (Err ReadDirErr)
  | Some entries =>
      let! out := list_entries entries in
      ret (Ok (stable_sort (fun a b => str_ltb (Name a) (Name b)) out))
  end.

Definition ListActive : M W (res nfs_err (list ActiveExport)) :=
  let! r := call (Run (bin m) [ #"-v"]) in
  ret (match r with Err e => Err (Exportfs e) | Ok out => parseExportfsV out end).
End Operations.
End Nfs.
