(* ===== verification/NfsExportsCorrect.v ===== *)
(** * Exports on disk are the exports that were asked for

    A valid export is one line that reads back as it was, so the file a
    successful call leaves holds the requested path and client rules, each
    with a security flavour when Kerberos is required. *)

From S2P Require Import Prelude GoStrings GoText GoPath GoNet SortLib Effects ZfsNames HostExec HostFiles NfsExports.
Import Nfs.

#[local] Arguments str : simpl never.

(** ** Characters *)

(** Printable and not a parenthesis. *)
Definition token_char (c : ascii) : bool := printable c && negb (ch_eqb c "("%char || ch_eqb c ")"%char).

Lemma token_char_alnum c : is_lower c || is_upper c || is_digit c = true -> token_char c = true.
Proof.
  unfold token_char, printable, is_lower, is_upper, is_digit. rewrite !orb_true_iff, !andb_true_iff, !Z.leb_le. intros Hc.
  split; [lia|]. rewrite negb_true_iff, orb_false_iff, !ch_eqb_neq.
  split; intros ->; [change (byte_val "("%char) with 40 in Hc|change (byte_val ")"%char) with 41 in Hc]; lia.
Qed.

Lemma token_char_in c l : existsb (ch_eqb c) l = true -> forallb token_char l = true -> token_char c = true.
Proof. intros (d & Hd & ->%ch_eqb_eq)%existsb_exists Hl. rewrite forallb_forall in Hl. by apply Hl. Qed.

Lemma spec_token_char c : spec_char c = true -> token_char c = true.
Proof.
  unfold spec_char. intros [Hc|Hc]%orb_true_iff; [by apply token_char_alnum|]. by eapply token_char_in.
Qed.
Lemma option_token_char c : option_char c = true -> token_char c = true.
Proof.
  unfold option_char. intros [Hc|Hc]%orb_true_iff; [by apply token_char_alnum|]. by eapply token_char_in.
Qed.

Lemma addr_token_char c : addr_char c = true -> token_char c = true.
Proof.
  unfold addr_char, hex_digit_val. destruct (is_digit c) eqn:Ed.
  { intros _. apply token_char_alnum. by rewrite Ed, orb_true_r. }
  destruct ((97 <=? byte_val c) && (byte_val c <=? 102)) eqn:El.
  { intros _. apply token_char_alnum. apply andb_true_iff in El as [E1 E2]. apply Z.leb_le in E1, E2.
    unfold is_lower. replace ((97 <=? byte_val c) && (byte_val c <=? 122)) with true; [done|].
    symmetry. rewrite andb_true_iff, !Z.leb_le. lia. }
  destruct ((65 <=? byte_val c) && (byte_val c <=? 70)) eqn:Eu.
  { intros _. apply token_char_alnum. apply andb_true_iff in Eu as [E1 E2]. apply Z.leb_le in E1, E2.
    unfold is_upper. replace ((65 <=? byte_val c) && (byte_val c <=? 90)) with true; [by rewrite orb_true_r|].
    symmetry. rewrite andb_true_iff, !Z.leb_le. lia. }
  intros [->%ch_eqb_eq | ->%ch_eqb_eq]%orb_true_iff; done.
Qed.

Lemma digits_token s n v : digits_val n s = Some v -> Forall (fun c => token_char c = true) s.
Proof.
  revert n. induction s as [|c s IH]; intros n; cbn [digits_val]; [constructor|].
  destruct (is_digit c) eqn:Ed; [|done]. intros E. constructor; [|by eapply IH].
  apply token_char_alnum. by rewrite Ed, orb_true_r.
Qed.

Definition token (s : gostr) : Prop := s <> [] /\ Forall (fun c => token_char c = true) s.

Lemma forallb_token (f : ascii -> bool) s : (forall c, f c = true -> token_char c = true) -> forallb f s = true ->
  Forall (fun c => token_char c = true) s.
Proof. intros Hf Hs. rewrite forallb_forall in Hs. apply Forall_forall. intros c Hc. by apply Hf, Hs, list_elem_of_In. Qed.

Lemma spec_token s : validateClientSpec s = Ok tt -> token s.
Proof.
  unfold validateClientSpec. destruct (str_eqb s []) eqn:E0; [done|]. apply str_eqb_neq in E0. cbn [negb].
  destruct (str_eqb s #"*") eqn:Es; [apply str_eqb_eq in Es as ->; intros _; split; [done|by repeat constructor]|].
  intros E. split; [done|]. destruct (contains_byte "/"%char s).
  - unfold ParseCIDR in E. destruct (cut_at "/"%char s) as [[a mask]|] eqn:Ec; [|done].
    apply cut_at_Some in Ec as [-> _]. destruct (ParseAddr a) as [ip|] eqn:Ea; [|done].
    destruct (dtoi mask) as [n|] eqn:Ed; [|done]. apply Forall_app_2.
    + eapply Forall_impl; [by apply (ParseAddr_chars _ _ Ea)|]. apply addr_token_char.
    + constructor; [done|]. unfold dtoi in Ed. destruct mask; [done|]. destruct (digits_val _ _) eqn:Edv; [|done].
      by eapply digits_token.
  - destruct (ParseIP s) eqn:Ei.
    + eapply Forall_impl; [by apply (ParseAddr_chars _ _ Ei)|]. apply addr_token_char.
    + destruct (negb _); [|done]. destruct (forallb spec_char s) eqn:Ef; [|done]. eapply forallb_token; [apply spec_token_char|done].
Qed.

Lemma options_token s : validateExportOptions s = Ok tt -> token s.
Proof.
  unfold validateExportOptions. destruct (str_eqb s []) eqn:E0; [done|]. apply str_eqb_neq in E0. cbn [negb].
  destruct (_ <=? _)%nat; [|done]. destruct (forallb option_char s) eqn:Ef; [|done]. intros _. split; [done|].
  eapply forallb_token; [apply option_token_char|done].
Qed.

Lemma clients_tokens i cs : check_clients i cs = Ok tt -> Forall (fun c => token (Spec c) /\ token (Options c)) cs.
Proof.
  revert i. induction cs as [|c cs IH]; intros i; cbn [check_clients]; [constructor|].
  destruct (validateClientSpec _) as [[]|] eqn:Es; [|done]. destruct (validateExportOptions _) as [[]|] eqn:Eo; [|done].
  intros E. constructor; [|by eapply IH]. split; [by apply spec_token|by apply options_token].
Qed.

(** ** One rule *)

Lemma token_no_paren s c : token s -> ch_eqb c "("%char || ch_eqb c ")"%char = true -> c ∉ s.
Proof.
  intros [_ Hs] Hc Hin. rewrite Forall_forall in Hs. specialize (Hs _ Hin). unfold token_char in Hs.
  rewrite Hc in Hs. by rewrite andb_false_r in Hs.
Qed.

Lemma parse_rule c : token (Spec c) -> token (Options c) -> parse_token (rule_text c) = Ok (Spec c, Options c).
Proof.
  intros Hs Ho. unfold parse_token, rule_text.
  rewrite (proj2 (cut_at_Some "("%char _ (Spec c) (Options c ++ #")"))) by (split; [done|by apply token_no_paren]).
  assert (has_suffix (Spec c ++ #"(" ++ Options c ++ #")") #")" = true) as ->
    by (rewrite !app_assoc; apply has_suffix_app).
  change #")" with [")"%char]. by rewrite removelast_last.
Qed.

Lemma parse_rules cs : Forall (fun c => token (Spec c) /\ token (Options c)) cs ->
  parse_tokens (map rule_text cs) = Ok cs.
Proof.
  induction 1 as [|c cs [Hs Ho] Hcs IH]; [done|]. cbn [map parse_tokens]. rewrite parse_rule by done.
  rewrite (proj2 (str_eqb_neq _ _)) by apply Hs. cbn [negb]. rewrite IH. by destruct c.
Qed.

Lemma rule_word c : token (Spec c) -> token (Options c) -> word (rule_text c) = true.
Proof.
  intros [Hne Hs] [_ Ho]. apply word_iff. split; [unfold rule_text; by destruct (Spec c)|].
  assert (Hp : forall s, Forall (fun c => token_char c = true) s -> Forall (fun c => printable c = true) s).
  { intros s Hf. eapply Forall_impl; [exact Hf|]. by intros x [Hx _]%andb_true_iff. }
  unfold rule_text. repeat apply Forall_app_2; try (by apply Hp); by repeat constructor.
Qed.

(** ** The path *)

Lemma path_chars p : check_path_chars p = Ok tt ->
  Forall (fun c => control c = false /\ forbidden_char c = false) p.
Proof.
  induction p as [|c p IH]; cbn [check_path_chars]; [constructor|].
  destruct (control c) eqn:E1; [done|]. destruct (forbidden_char c) eqn:E2; [done|]. cbn [negb]. intros E. constructor; auto.
Qed.

Lemma valid_path p : validateExportPath p = Ok tt ->
  (exists q, p = "/"%char :: q) /\ Forall (fun c => control c = false /\ forbidden_char c = false) p.
Proof.
  unfold validateExportPath. destruct (negb _); [|done]. destruct (has_prefix p #"/") eqn:Ep; [|done].
  destruct (negb (contains_byte _ _)); [|done]. destruct (negb (existsb _ _)); [|done]. intros E.
  split; [by apply has_prefix_iff in Ep|by apply path_chars].
Qed.

Lemma cut_blank_path p rest : Forall (fun c => control c = false /\ forbidden_char c = false) p ->
  cut_blank (p ++ " "%char :: rest) = Some (p, rest).
Proof.
  induction 1 as [|c p [Hc Hf] Hp IH]; [done|]. cbn [app cut_blank]. rewrite IH.
  destruct (ch_eqb c " "%char) eqn:E1; [apply ch_eqb_eq in E1 as ->; done|].
  destruct (ch_eqb c (byte_of 9)) eqn:E2; [apply ch_eqb_eq in E2 as ->; done|]. done.
Qed.

(** ** The file *)

Definition export_line (e : Export) : gostr := Path e ++ concat (map (fun c => #" " ++ rule_text c) (Clients e)).

Lemma rules_columns cs : concat (map (fun c => #" " ++ rule_text c) cs) = columns (map (fun c => (0%nat, rule_text c)) cs).
Proof. unfold columns. by rewrite map_map. Qed.

Definition fits (e : Export) : Prop := (length (export_line e) < Snapshots.max_token)%nat.

Lemma control_newline p : Forall (fun c => control c = false /\ forbidden_char c = false) p -> newline ∉ p.
Proof. intros Hp Hin. rewrite Forall_forall in Hp. by destruct (Hp _ Hin). Qed.

Lemma parse_render e : validateExport e = Ok tt -> fits e ->
  parseExportFile (renderExportFile e) = Ok (mkExport [] (Path e) (Clients e)).
Proof.
  intros Hv Hfit. unfold validateExport in Hv. destruct (validateExportName _); [|done].
  destruct (validateExportPath _) as [[]|] eqn:Ep; [|done]. destruct (length (Clients e) =? 0)%nat eqn:El; [done|].
  apply clients_tokens in Hv. apply valid_path in Ep as [(q & Eq) Hp].
  destruct (Clients e) as [|c cs] eqn:Ec; [done|]. apply Forall_cons in Hv as [[Hs Ho] Hcs].
  pose proof (rule_word c Hs Ho) as Hw.
  assert (Hcols : Forall (fun col : nat * gostr => word col.2 = true) (map (fun c => (0%nat, rule_text c)) cs)).
  { apply Forall_map. eapply Forall_impl; [exact Hcs|]. intros x [? ?]. by apply rule_word. }
  set (rest := rule_text c ++ columns (map (fun c => (0%nat, rule_text c)) cs)).
  assert (Eline : export_line e = Path e ++ " "%char :: rest).
  { unfold export_line. rewrite Ec. cbn [map concat]. rewrite rules_columns. done. }
  assert (Hb : bounded rest = true) by (by apply bounded_line).
  assert (Hbl : bounded (export_line e) = true).
  { rewrite Eline, Eq. apply andb_true_iff in Hb as [_ Hend]. unfold bounded. cbn [app starts].
    change ("/"%char :: q ++ " "%char :: rest) with (("/"%char :: q) ++ " "%char :: rest).
    rewrite rev_app_distr. cbn [rev]. rewrite <- app_assoc. apply starts_iff in Hend as (d & r & -> & Hd). done. }
  assert (Hnl : newline ∉ export_line e).
  { rewrite Eline. intros [Hin|Hin]%elem_of_app; [by apply control_newline in Hin|].
    apply elem_of_cons in Hin as [Hin|Hin]; [done|]. unfold rest, columns in Hin.
    apply elem_of_app in Hin as [Hin|Hin]; [by apply words_no_newline in Hin|].
    apply list_elem_of_In, in_concat in Hin as (w & Hwin & Hin). apply in_map_iff in Hwin as ([n v] & <- & Hv).
    rewrite Forall_forall in Hcols. specialize (Hcols (n, v) (proj2 (list_elem_of_In _ _) Hv)).
    apply list_elem_of_In, elem_of_app in Hin as [Hin|Hin]; [|by apply words_no_newline in Hin].
    apply elem_of_replicate_inv in Hin. done. }
  unfold parseExportFile, renderExportFile. rewrite app_assoc, Ec. fold (export_line e).
  assert (Eraw : Snapshots.raw_lines (export_line e ++ [byte_of 10]) = [export_line e]).
  { unfold Snapshots.raw_lines. change (byte_of 10) with newline. by rewrite (split_on_app newline _ []) by done. }
  replace (Path e ++ concat (map (fun c => #" " ++ rule_text c) (c :: cs))) with (export_line e) by (unfold export_line; by rewrite Ec).
  rewrite Eraw. cbn [Snapshots.scan_lines].
  replace (_ <=? _)%nat with false by (symmetry; by apply Nat.leb_gt).
  assert (Ecr : Snapshots.drop_cr (export_line e) = export_line e).
  { apply andb_true_iff in Hbl as [_ (d & r & Er & Hd)%starts_iff]. unfold Snapshots.drop_cr. rewrite Er.
    destruct (ch_eqb d (byte_of 13)) eqn:Ed; [apply ch_eqb_eq in Ed as ->; done|done]. }
  rewrite Ecr. cbn [first_line]. cbv zeta. rewrite trim_space_bounded by done.
  assert (Hh : str_eqb (export_line e) [] || has_prefix (export_line e) #"#" = false) by (by rewrite Eline, Eq).
  rewrite Hh. unfold parseExportLine. rewrite Eline, cut_blank_path by done. cbv zeta.
  rewrite trim_space_bounded by done.
  assert (Hne : str_eqb rest [] = false).
  { apply str_eqb_neq. intros E. rewrite E in Hb. done. }
  rewrite Hne. cbn [negb]. unfold parseClientList, rest. rewrite fields_line by done.
  rewrite map_map. cbn [snd]. change (rule_text c :: map (fun x => rule_text x) cs) with (map rule_text (c :: cs)).
  rewrite parse_rules by (by constructor). done.
Qed.

(** ** Kerberos *)

(** An option of the form sec=..., in either case, and one that names sec
    with or without a value. *)
Definition sec_token (t : gostr) : Prop := exists k v, t = k ++ "="%char :: v /\ map to_lower_byte k = #"sec".
Definition names_sec (t : gostr) : Prop := sec_token t \/ map to_lower_byte t = #"sec".

(** What is made of a rule when Kerberos is required. *)
Definition kerberised (c c' : ClientRule) : Prop :=
  Spec c' = Spec c /\
  ((exists t, t ∈ split_on ","%char (Options c) /\ sec_token t) -> Options c' = Options c) /\
  ((forall t, t ∈ split_on ","%char (Options c) -> ~ names_sec t) ->
     Options c' = if str_eqb (Options c) [] then #"sec=krb5p" else #"sec=krb5p," ++ Options c).

Lemma fold_strip_printable c a s : printable a = true ->
  fold_strip c (a :: s) = if ch_eqb (to_lower_byte a) (to_lower_byte c) then Some s else None.
Proof.
  intros Ha. unfold fold_strip. destruct (ch_eqb (to_lower_byte a) (to_lower_byte c)); [done|].
  assert (Hn : forall h, 128 <= h < 256 -> ch_eqb (byte_of h) a = false).
  { intros h Hh. apply ch_eqb_neq. intros <-. unfold printable in Ha. rewrite byte_val_byte_of in Ha by lia. lia. }
  unfold enc. cbn [map strip_prefix]. rewrite !Hn by lia. by repeat case_match.
Qed.

Lemma fold_printable t : forall s, Forall (fun c => printable c = true) s ->
  equal_fold s t = true <-> map to_lower_byte s = map to_lower_byte t.
Proof.
  induction t as [|c t IH]; intros [|a s] Hs; cbn [equal_fold map]; [done..|].
  apply Forall_cons in Hs as [Ha Hs]. rewrite fold_strip_printable by done.
  destruct (ch_eqb _ _) eqn:E; [apply ch_eqb_eq in E as ->|apply ch_eqb_neq in E].
  - rewrite IH by done. split; [by intros ->|by intros [= ->]].
  - split; [done|by intros [= ? _]].
Qed.

Lemma trim_token t : Forall (fun c => printable c = true) t -> trim_space t = t.
Proof.
  intros Ht. destruct t as [|c t]; [done|]. apply trim_space_bounded, word_bounded, word_iff. by split.
Qed.

Lemma split_Forall (P : ascii -> Prop) c s : Forall P s -> Forall (Forall P) (split_on c s).
Proof.
  induction 1 as [|a s Ha Hs IH]; cbn [split_on]; [by repeat constructor|].
  destruct (ch_eqb a c); [by constructor|]. destruct (split_on c s) as [|w ws]; [by repeat constructor|].
  apply Forall_cons in IH as [Hw Hws]. by repeat constructor.
Qed.

Lemma sec_no_eq k : map to_lower_byte k = #"sec" -> "="%char ∉ k.
Proof.
  intros Hk Hin. apply (list_elem_of_fmap_2 to_lower_byte) in Hin. change (to_lower_byte <$> k) with (map to_lower_byte k) in Hin.
  rewrite Hk in Hin. revert Hin. by_dec.
Qed.

Lemma has_sec_iff opts : Forall (fun c => printable c = true) opts ->
  hasSecOption opts = true <-> exists t, t ∈ split_on ","%char opts /\ names_sec t.
Proof.
  intros Ho. unfold hasSecOption. rewrite existsb_exists.
  enough (Ht : forall t, t ∈ split_on ","%char opts ->
    negb (str_eqb (trim_space t) []) && equal_fold (option_key t) #"sec" = true <-> names_sec t).
  { split; intros (t & Hin & Hn); exists t; (split; [by apply list_elem_of_In|]); apply Ht; try done; by apply list_elem_of_In. }
  intros t Hin. apply (split_Forall _ ","%char) in Ho as Hp. rewrite Forall_forall in Hp. specialize (Hp t Hin).
  unfold option_key, names_sec, sec_token. rewrite trim_token by done.
  destruct (cut_at "="%char t) as [[k v]|] eqn:Ec.
  - pose proof Ec as [-> Hk]%cut_at_Some. apply Forall_app in Hp as [Hpk _]. rewrite andb_true_iff, fold_printable by done.
    split; [intros [_ E]; left; eauto|]. intros [(k' & v' & E & Hs)|Hs]; [|apply sec_no_eq in Hs; set_solver].
    assert (Hk' : cut_at "="%char (k ++ "="%char :: v) = Some (k', v')) by (apply cut_at_Some; split; [done|by apply sec_no_eq]).
    rewrite Ec in Hk'. injection Hk' as -> ->. split; [|done]. by destruct k'.
  - apply cut_at_None in Ec. rewrite andb_true_iff, fold_printable by done. split; [intros [_ E]; by right|].
    intros [(k' & v' & -> & _)|Hs]; [set_solver|]. split; [|done]. by destruct t.
Qed.

Lemma with_sec_kerberised c : token (Options (with_sec c)) -> kerberised c (with_sec c).
Proof.
  intros [_ Ht]. assert (Hp : Forall (fun c => printable c = true) (Options c)).
  { unfold with_sec in Ht. assert (Hw : forall s, Forall (fun c => token_char c = true) s -> Forall (fun c => printable c = true) s)
      by (intros s Hs; eapply Forall_impl; [exact Hs|]; by intros x [Hx _]%andb_true_iff).
    destruct (hasSecOption (Options c)); [by apply Hw|]. cbn [Options] in Ht.
    destruct (str_eqb (Options c) []) eqn:E; [apply str_eqb_eq in E as ->; constructor|]. apply Hw. by apply Forall_app in Ht as []. }
  unfold kerberised, with_sec. destruct (hasSecOption (Options c)) eqn:E; cbn [Spec Options]; split_and!; try done.
  - intros Hno. apply has_sec_iff in E as (t & Hin & Hn); [|done]. by destruct (Hno t Hin).
  - intros (t & Hin & Hs). assert (hasSecOption (Options c) = true); [|congruence]. apply has_sec_iff; [done|]. exists t. split; [done|by left].
Qed.

Lemma with_sec_spec c : Spec (with_sec c) = Spec c.
Proof. unfold with_sec. by destruct (hasSecOption _). Qed.

Lemma kerberos_name m e : Name (applyKerberosDefault m e) = Name e.
Proof. unfold applyKerberosDefault. by destruct (negb _). Qed.

(** ** The calls *)

Section Calls.
Context {W : Type} `{HostExec W, FileWriter W} (files : W -> gmap gostr gostr) `{!FileLaws W files}.
Context (run_files : forall b args w, files (Run b args w).1 = files w).
Implicit Types (m : Manager) (w : W).

Lemma reload_files m w w' r : Reload m w = (w', r) -> files w' = files w.
Proof.
  unfold Reload, bind, call, ret. pose proof (run_files (bin m) [ #"-ra"] w) as Hf.
  destruct (Run _ _ _) as [w1 r1]. intros [= <- _]. exact Hf.
Qed.

(** What a call that writes and reloads leaves, whether or not it failed. *)
Lemma write_and_reload_files m e w w' r : write_and_reload m e w = (w', Some r) -> r <> Some WriteErr ->
  files w' = <[filePath m (Name e) := renderExportFile e]> (files w).
Proof.
  unfold write_and_reload. unfold bind at 1, call at 1. destruct (fw_Write _ _ _) as [w1 []] eqn:Ew; cbn [negb].
  - intros E _. apply reload_files in E as ->. by apply write_law.
  - unfold ret. intros [= _ <-] Hne. by destruct Hne.
Qed.

Lemma get_written m e w w' r : validateExport e = Ok tt -> fits e ->
  files w !! filePath m (Name e) = Some (renderExportFile e) ->
  GetExport m (Name e) w = (w', Some r) -> r = Err ReadErr \/ r = Ok e.
Proof.
  intros Hv Hfit Hf. unfold GetExport.
  assert (validateExportName (Name e) = Ok tt) as ->.
  { unfold validateExport in Hv. by destruct (validateExportName (Name e)) as [[]|]. }
  unfold bind, call, ret. destruct (fw_ReadFile _ _) as [w1 r1] eqn:Er. apply read_law in Er as [_ Er].
  intros [= _ <-]. destruct r1 as [d| |]; [|congruence|by left]. right.
  rewrite Hf in Er. injection Er as <-. rewrite parse_render by done. by destruct e.
Qed.

(** What a state holds once an export was accepted. *)
Definition exported m e w w' : Prop :=
  validateExport (applyKerberosDefault m e) = Ok tt /\
  files w' = <[filePath m (Name e) := renderExportFile (applyKerberosDefault m e)]> (files w).

Lemma create_exported m e w w' : CreateExport m e w = (w', Some None) ->
  exported m e w w' /\ files w !! filePath m (Name e) = None.
Proof.
  unfold CreateExport, exported. cbv zeta. destruct (validateExport _) as [[]|] eqn:Ev; [|done].
  unfold bind at 1, call at 1. rewrite kerberos_name. destruct (fw_ReadFile _ _) as [w1 r1] eqn:Er.
  apply read_law in Er as [Ef Er]. destruct r1; [done| |done].
  intros E. apply write_and_reload_files in E; [|done]. rewrite kerberos_name, Ef in E. done.
Qed.

Lemma update_exported m e w w' : UpdateExport m e w = (w', Some None) ->
  exported m e w w' /\ is_Some (files w !! filePath m (Name e)).
Proof.
  unfold UpdateExport, exported. cbv zeta. destruct (validateExport _) as [[]|] eqn:Ev; [|done].
  unfold bind at 1, call at 1. rewrite kerberos_name. destruct (fw_ReadFile _ _) as [w1 r1] eqn:Er.
  apply read_law in Er as [Ef Er]. destruct r1; [|done|done].
  intros E. apply write_and_reload_files in E; [|done]. rewrite kerberos_name, Ef in E. split; [done|by eexists].
Qed.

(** C26. An export whose line is below 64 KB and that was created or
    updated without an error is on disk: only its file changed, a new
    one for a creation, and GetExport, unless it cannot read the file,
    gives back the requested export. With Kerberos required the rules
    come back with the same clients, the same options where one of them
    is sec=..., and sec=krb5p in front of the same options where none is
    named sec; without it the export comes back as it was. *)
Theorem export_on_disk m e w w' :
  CreateExport m e w = (w', Some None) \/ UpdateExport m e w = (w', Some None) ->
  fits (applyKerberosDefault m e) ->
  (forall q, q <> filePath m (Name e) -> files w' !! q = files w !! q) /\
  (CreateExport m e w = (w', Some None) -> files w !! filePath m (Name e) = None) /\
  (forall w'' r, GetExport m (Name e) w' = (w'', Some r) -> r = Err ReadErr \/
     exists got, r = Ok got /\ Name got = Name e /\ Path got = Path e /\ map Spec (Clients got) = map Spec (Clients e) /\
       (RequireKerberos m = false -> got = e) /\
       (RequireKerberos m = true -> Forall2 kerberised (Clients e) (Clients got))).
Proof.
  intros Hop Hfit.
  assert (exported m e w w') as [Hv Hf] by (destruct Hop as [E%create_exported|E%update_exported]; apply E).
  split; [intros q Hq; by rewrite Hf, lookup_insert_ne by done|].
  split; [intros E%create_exported; apply E|].
  intros w'' r Hget. rewrite <- (kerberos_name m e) in Hget, Hf.
  apply get_written in Hget as [Hget|Hget]; [by left| |done|done|by rewrite Hf, lookup_insert_eq].
  right. eexists. split; [exact Hget|]. unfold validateExport in Hv. destruct (validateExportName _); [|done].
  destruct (validateExportPath _); [|done]. destruct (length _ =? 0)%nat; [done|]. apply clients_tokens in Hv.
  unfold applyKerberosDefault in *.
  destruct (RequireKerberos m); cbn [negb Clients] in *; [|by repeat split].
  cbn [Name Path Clients]. repeat split; [|done|].
  - rewrite map_map. apply map_ext. intros c. apply with_sec_spec.
  - intros _. clear -Hv. induction (Clients e) as [|c cs IH]; cbn [map] in *; [constructor|].
    apply Forall_cons in Hv as [[_ Ho] Hv]. constructor; [by apply with_sec_kerberised|by apply IH].
Qed.

(** A create whose reload fails reports it and leaves the file, so asking
    again is refused. *)
Lemma failed_create_stays m e w w' err : CreateExport m e w = (w', Some (Some (Exportfs err))) ->
  files w' !! filePath m (Name e) = Some (renderExportFile (applyKerberosDefault m e)).
Proof.
  unfold CreateExport. cbv zeta. destruct (validateExport _) as [[]|er] eqn:Ev.
  2: { unfold ret. intros [= _ ->]. exfalso. revert Ev. clear. unfold validateExport, validateExportName, validateExportPath.
       destruct (check_file_name _); [|done]. destruct (negb _); [|done]. destruct (has_prefix _ _); [|done].
       destruct (negb (contains_byte _ _)); [|done]. destruct (negb (existsb _ _)); [|done].
       assert (Hc : forall p, check_path_chars p <> Err (Exportfs err)).
       { induction p as [|c p IH]; [done|]. cbn [check_path_chars]. destruct (negb _); [|done]. by destruct (negb _). }
       destruct (check_path_chars _) eqn:E; [|intros [= ->]; by destruct (Hc _ E)].
       destruct (negb _); [|done]. generalize 0%nat. generalize (Clients (applyKerberosDefault m e)).
       induction l as [|c l IH]; intros n; [done|]. cbn [check_clients]. destruct (validateClientSpec _); [|done].
       destruct (validateExportOptions _); [apply IH|done]. }
  unfold bind at 1, call at 1. rewrite kerberos_name. destruct (fw_ReadFile _ _) as [w1 r1] eqn:Er.
  destruct r1; [done| |done]. intros E. apply write_and_reload_files in E; [|done].
  rewrite kerberos_name in E. by rewrite E, lookup_insert_eq.
Qed.
End Calls.

(** ** A concrete host *)

#[local] Instance ok_exec : HostExec (gmap gostr gostr) := {|
  Run _ _ w := (w, Ok []); RunStdin _ _ _ w := (w, Ok []); RunStream _ _ _ _ w := (w, None) |}.
#[local] Instance ok_files : FileWriter (gmap gostr gostr) := map_writer id (fun m _ => m).
#[local] Instance ok_laws : FileLaws (gmap gostr gostr) id := map_writer_laws id (fun m _ => m) (fun _ _ => eq_refl).

(** An option [sec] without a value is taken for a security flavour. *)
Lemma bare_sec_kept m p : RequireKerberos m = true ->
  applyKerberosDefault m (mkExport p p [mkRule #"*" #"rw,sec"]) = mkExport p p [mkRule #"*" #"rw,sec"].
Proof. intros Hm. unfold applyKerberosDefault. by rewrite Hm. Qed.

Definition demo_manager : Manager := mkManager [] [] [] true.
Definition demo_export : Export :=
  mkExport #"media" #"/mnt/tank/media" [mkRule #"10.0.0.0/24" #"rw,sync"; mkRule #"host.lan" #"ro,SEC=krb5i"].

Definition demo_files : gmap gostr gostr :=
  {[ #"/etc/exports.d/nova-nas-media.exports" := renderExportFile (applyKerberosDefault demo_manager demo_export) ]}.

Lemma demo_created : CreateExport demo_manager demo_export ∅ = (demo_files, Some None).
Proof. vm_compute. reflexivity. Qed.

Lemma demo_fits : fits (applyKerberosDefault demo_manager demo_export).
Proof.
  unfold fits, Snapshots.max_token. assert (length (export_line (applyKerberosDefault demo_manager demo_export)) <= 200)%nat; [|lia].
  by_dec.
Qed.

Lemma export_on_disk_witness : exists w',
  CreateExport demo_manager demo_export ∅ = (w', Some None) /\
  exists got, GetExport demo_manager #"media" w' = (w', Some (Ok got)) /\ Forall2 kerberised (Clients demo_export) (Clients got).
Proof.
  exists demo_files. split; [exact demo_created|].
  pose proof (export_on_disk id (fun _ _ _ => eq_refl) demo_manager demo_export ∅) as Hd.
  specialize (Hd _ (or_introl demo_created) demo_fits) as (_ & _ & Hget).
  destruct (Hget demo_files _ eq_refl) as [Hr|(got & Hr & _ & _ & _ & _ & Hk)]; [discriminate|].
  exists got. split; [by rewrite <- Hr|by apply Hk].
Defined.
