(* ===== verification/Samba.v ===== *)
(** * internal/host/samba: SMB shares

    Shares and server-wide settings with their validation, the smb.conf
    sections they become and the parsers that read them back, and the
    operations over the files of the drop-in directory, the samba commands
    and the samba password database. *)

From S2P Require Import Prelude GoStrings GoText GoPath SortLib Effects ZfsNames HostExec HostFiles.

Module Smb.

Record Share := mkShare {
  Name : gostr; Path : gostr; Comment : gostr;
  Browseable : bool; Writable : bool; GuestOK : bool; ReadOnly : bool;
  ValidUsers : list gostr; WriteList : list gostr; AdminUsers : list gostr;
  CreateMask : gostr; DirectoryMask : gostr; Veto : list gostr }.

Definition emptyShare : Share := mkShare [] [] [] false false false false [] [] [] [] [] [].

Inductive user_fault := UserRequired | UserLong | UserStart | UserChar.
Inductive list_kind := InValidUsers | InWriteList | InAdminUsers | InVeto | InCustomLines.
Inductive mask_kind := CreateMaskKind | DirectoryMaskKind.

Inductive smb_err :=
| BadName (e : name_fault) | PathRequired | PathRelative | PathNul | PathDotDot | PathControl | PathChar
| BadUser (e : user_fault) | MaskLength (k : mask_kind) | MaskDigit (k : mask_kind)
| VetoEmpty | VetoChar | CommentLong | CommentChar
| InList (k : list_kind) (i : nat) (e : smb_err)
| WorkgroupRequired | WorkgroupLong | WorkgroupChar | ServerStringLong | ServerStringChar
| BadACLProfile | BadSecurityMode | RealmLong | RealmChar | RealmRequired | CustomNoEquals | CustomControl | CustomMeta
| AlreadyExists | ReadErr | WriteErr | RemoveErr | ReadDirErr | ErrNotFound
| TestparmFailed (e : HostError) | ReloadFailed (e : HostError)
| PasswordRequired | Smbpasswd (e : HostError) | Pdbedit (e : HostError)
| HeaderExpected | NoHeader | LineTooLong.

Record Manager := mkManager {
  SmbcontrolBin : gostr; TestparmBin : gostr; SmbpasswdBin : gostr; PdbeditBin : gostr;
  ConfigDir : gostr; FilePrefix : gostr }.

Definition or_default (v d : gostr) : gostr := if str_eqb v [] then d else v.

Definition smbcontrolBin (m : Manager) : gostr := or_default (SmbcontrolBin m) #"/usr/bin/smbcontrol".
Definition testparmBin (m : Manager) : gostr := or_default (TestparmBin m) #"/usr/bin/testparm".
Definition smbpasswdBin (m : Manager) : gostr := or_default (SmbpasswdBin m) #"/usr/bin/smbpasswd".
Definition pdbeditBin (m : Manager) : gostr := or_default (PdbeditBin m) #"/usr/bin/pdbedit".
Definition dir (m : Manager) : gostr := or_default (ConfigDir m) #"/etc/samba/smb.conf.d".
Definition prefix (m : Manager) : gostr := or_default (FilePrefix m) #"nova-nas-".
Definition suffix : gostr := #".conf".

Definition filePath (m : Manager) (name : gostr) : gostr := Join [dir m; prefix m ++ name ++ suffix].

(** ** Validation *)

Definition validateShareName (name : gostr) : res smb_err unit :=
  match check_file_name name with Ok _ => Ok tt | Err e => Err (BadName e) end.

Definition control (c : ascii) : bool := (byte_val c <? 32) || (byte_val c =? 127).

Definition forbidden_char (c : ascii) : bool :=
  existsb (ch_eqb c) (map byte_of [32; 9; 59; 124; 38; 36; 96; 92; 34; 39; 60; 62; 42; 63; 10; 13; 91; 93]).

Fixpoint check_path_chars (p : gostr) : res smb_err unit :=
  match p with
  | [] => Ok tt
  | c :: p' =>
      ensure negb (control c) else PathControl ;;
      ensure negb (forbidden_char c) else PathChar ;;
      check_path_chars p'
  end.

Definition validateSharePath (p : gostr) : res smb_err unit :=
  ensure negb (str_eqb p []) else PathRequired ;;
  ensure has_prefix p #"/" else PathRelative ;;
  ensure negb (contains_byte (byte_of 0) p) else PathNul ;;
  ensure negb (existsb (str_eqb #"..") (split_on "/"%char p)) else PathDotDot ;;
  check_path_chars p.

Definition letter_or_underscore (c : ascii) : bool := is_lower c || is_upper c || ch_eqb c "_"%char.
Definition user_char (c : ascii) : bool := file_name_char c || ch_eqb c "."%char.

Definition check_username (u : gostr) : res user_fault unit :=
  match u with
  | [] => Err UserRequired
  | first :: _ =>
      ensure (length u <=? 32)%nat else UserLong ;;
      ensure letter_or_underscore first else UserStart ;;
      ensure forallb user_char u else UserChar ;;
      Ok tt
  end.

Definition validateUsername (u : gostr) : res smb_err unit :=
  match check_username u with Ok _ => Ok tt | Err e => Err (BadUser e) end.

Definition octal (c : ascii) : bool := (48 <=? byte_val c) && (byte_val c <=? 55).

Definition validateMask (label : mask_kind) (m : gostr) : res smb_err unit :=
  if str_eqb m [] then Ok tt
  else
    ensure (length m =? 3)%nat || (length m =? 4)%nat else MaskLength label ;;
    ensure forallb octal m else MaskDigit label ;;
    Ok tt.

Definition line_break (c : ascii) : bool :=
  ch_eqb c (byte_of 10) || ch_eqb c (byte_of 13) || ch_eqb c (byte_of 0).

Definition validateVetoEntry (e : gostr) : res smb_err unit :=
  ensure negb (str_eqb e []) else VetoEmpty ;;
  ensure negb (existsb (fun c => ch_eqb c "/"%char || line_break c) e) else VetoChar ;;
  Ok tt.

Definition validateComment (c : gostr) : res smb_err unit :=
  ensure (length c <=? 256)%nat else CommentLong ;;
  ensure negb (existsb line_break c) else CommentChar ;;
  Ok tt.

(** The loops over a list: the first refusal, with its index. *)
Fixpoint check_each (k : list_kind) (check : gostr -> res smb_err unit) (i : nat) (l : list gostr) : res smb_err unit :=
  match l with
  | [] => Ok tt
  | x :: l' => match check x with Err e => Err (InList k i e) | Ok _ => check_each k check (S i) l' end
  end.

Definition validateShare (s : Share) : res smb_err unit :=
  let? _ := validateShareName (Name s) in
  let? _ := validateSharePath (Path s) in
  let? _ := validateComment (Comment s) in
  let? _ := validateMask CreateMaskKind (CreateMask s) in
  let? _ := validateMask DirectoryMaskKind (DirectoryMask s) in
  let? _ := check_each InValidUsers validateUsername 0 (ValidUsers s) in
  let? _ := check_each InWriteList validateUsername 0 (WriteList s) in
  let? _ := check_each InAdminUsers validateUsername 0 (AdminUsers s) in
  check_each InVeto validateVetoEntry 0 (Veto s).

(** ** Rendering *)

Definition yesno (b : bool) : gostr := if b then #"yes" else #"no".

(** strings.Join with a separator of any length. *)
Fixpoint join (sep : gostr) (l : list gostr) : gostr :=
  match l with
  | [] => []
  | [x] => x
  | x :: l' => x ++ sep ++ join sep l'
  end.

Definition unless {A} (b : bool) (l : list A) : list A := if b then [] else l.
Definition is_empty {A} (l : list A) : bool := match l with [] => true | _ => false end.

(** The settings of a section, in the order they are printed. *)
Definition share_settings (s : Share) : list (gostr * gostr) :=
  [(#"path", Path s)] ++
  unless (is_empty (Comment s)) [(#"comment", Comment s)] ++
  [(#"browseable", yesno (Browseable s)); (#"writable", yesno (Writable s));
   (#"guest ok", yesno (GuestOK s)); (#"read only", yesno (ReadOnly s))] ++
  unless (is_empty (ValidUsers s)) [(#"valid users", join #", " (ValidUsers s))] ++
  unless (is_empty (WriteList s)) [(#"write list", join #", " (WriteList s))] ++
  unless (is_empty (AdminUsers s)) [(#"admin users", join #", " (AdminUsers s))] ++
  unless (is_empty (CreateMask s)) [(#"create mask", CreateMask s)] ++
  unless (is_empty (DirectoryMask s)) [(#"directory mask", DirectoryMask s)] ++
  unless (is_empty (Veto s)) [(#"veto files", #"/" ++ join #"/" (Veto s) ++ #"/")].

Definition setting_line (kv : gostr * gostr) : gostr := #"   " ++ kv.1 ++ #" = " ++ kv.2.
Definition header_line (name : gostr) : gostr := #"[" ++ name ++ #"]".

Definition renderShareConf (s : Share) : gostr :=
  unlines (header_line (Name s) :: map setting_line (share_settings s)).

(** ** Parsing *)

(** strings.ToLower, exact on text whose lower case is ASCII: besides the
    ASCII capitals these are the Kelvin sign and the dotted capital I. *)
Fixpoint to_lower (s : gostr) : gostr :=
  match s with
  | [] => []
  | a :: s1 =>
      match s1 with
      | b :: s2 =>
          if str_eqb [a; b] (enc [196; 176]) then "i"%char :: to_lower s2
          else match s2 with
               | d :: s3 => if str_eqb [a; b; d] (enc [226; 132; 170]) then "k"%char :: to_lower s3
                            else to_lower_byte a :: to_lower s1
               | [] => to_lower_byte a :: to_lower s1
               end
      | [] => [to_lower_byte a]
      end
  end.

Definition one_of (s : gostr) (l : list gostr) : bool := existsb (str_eqb s) l.

Definition parseBool (s : gostr) : bool := one_of (to_lower (trim_space s)) [ #"yes"; #"true"; #"1"; #"on"].

Definition parseUserList (s : gostr) : list gostr := fields (replace_all s #"," #" ").

Definition parseVetoList (s : gostr) : list gostr :=
  List.filter (fun p => negb (str_eqb p [])) (map trim_space (split_on "/"%char s)).

(** The settings a key of the file changes. *)
Definition set_key (sh : Share) (key val : gostr) : Share :=
  let 'mkShare nm pa co br wr gu ro vu wl au cm dm ve := sh in
  if one_of key [ #"path"] then mkShare nm val co br wr gu ro vu wl au cm dm ve
  else if one_of key [ #"comment"] then mkShare nm pa val br wr gu ro vu wl au cm dm ve
  else if one_of key [ #"browseable"; #"browsable"] then mkShare nm pa co (parseBool val) wr gu ro vu wl au cm dm ve
  else if one_of key [ #"writable"; #"writeable"] then mkShare nm pa co br (parseBool val) gu ro vu wl au cm dm ve
  else if one_of key [ #"guest ok"] then mkShare nm pa co br wr (parseBool val) ro vu wl au cm dm ve
  else if one_of key [ #"read only"] then mkShare nm pa co br wr gu (parseBool val) vu wl au cm dm ve
  else if one_of key [ #"valid users"] then mkShare nm pa co br wr gu ro (parseUserList val) wl au cm dm ve
  else if one_of key [ #"write list"] then mkShare nm pa co br wr gu ro vu (parseUserList val) au cm dm ve
  else if one_of key [ #"admin users"] then mkShare nm pa co br wr gu ro vu wl (parseUserList val) cm dm ve
  else if one_of key [ #"create mask"] then mkShare nm pa co br wr gu ro vu wl au val dm ve
  else if one_of key [ #"directory mask"] then mkShare nm pa co br wr gu ro vu wl au cm val ve
  else if one_of key [ #"veto files"] then mkShare nm pa co br wr gu ro vu wl au cm dm (parseVetoList val)
  else sh.

Definition set_name (sh : Share) (name : gostr) : Share :=
  let 'mkShare _ pa co br wr gu ro vu wl au cm dm ve := sh in mkShare name pa co br wr gu ro vu wl au cm dm ve.

(** What a trimmed line of a section file is. *)
Inductive conf_line := Skipped | Header (name : gostr) | Setting (key val : gostr) | Other.

Definition classify (line : gostr) : conf_line :=
  if str_eqb line [] || has_prefix line #"#" || has_prefix line #";" then Skipped
  else if has_prefix line #"[" && has_suffix line #"]" then Header (trim_space (trim_suffix (trim_prefix line #"[") #"]"))
  else match cut_at "="%char line with
       | None => Other
       | Some (k, v) => Setting (trim_space (to_lower k)) (trim_space v)
       end.

(** The lines after the header: a second header ends the loop without
    reading further, so a line that is too long after it is not seen. *)
Fixpoint section_loop (lines : list gostr) (long : bool) (sh : Share) : res smb_err Share :=
  match lines with
  | [] => if long then Err LineTooLong else Ok sh
  | l :: ls =>
      match classify (trim_space l) with
      | Skipped | Other => section_loop ls long sh
      | Header _ => Ok sh
      | Setting k v => section_loop ls long (set_key sh k v)
      end
  end.

Fixpoint header_loop (lines : list gostr) (long : bool) : res smb_err Share :=
  match lines with
  | [] => if long then Err LineTooLong else Err NoHeader
  | l :: ls =>
      match classify (trim_space l) with
      | Skipped => header_loop ls long
      | Header name => section_loop ls long (set_name emptyShare name)
      | Setting _ _ | Other => Err HeaderExpected
      end
  end.

(** The scanner's buffer is a megabyte. *)
Definition max_line : nat := Z.to_nat 1048576.

Definition parseShareConf (data : gostr) : res smb_err Share :=
  let '(ls, long) := scan_limit max_line data in header_loop ls long.

(** Malformed lines are skipped, and so is what follows one that is too long. *)
Definition parsePdbeditL (data : gostr) : list gostr :=
  let user (l : gostr) : option gostr :=
    let line := trim_space l in
    if str_eqb line [] then None
    else let u := trim_space (match cut_at ":"%char line with Some (u, _) => u | None => line end) in
         if str_eqb u [] then None else if is_ok (validateUsername u) then Some u else None in
  omap user (scan_limit max_line data).1.

(** ** Operations *)

Section Operations.
Context {W : Type} `{HostExec W, FileWriter W} (m : Manager).

Definition reload : M W (option smb_err) :=
  let! r := call (Run (smbcontrolBin m) [ #"smbd"; #"reload-config"]) in
  ret (match r with Err e => Some (ReloadFailed e) | Ok _ => None end).

Definition testparm : M W (option HostError) :=
  let! r := call (Run (testparmBin m) [ #"-s"]) in
  ret (match r with Err e => Some e | Ok _ => None end).

(** Put back what was at a path: its content, or nothing.  Errors are
    dropped. *)
Definition restore (path : gostr) (prev : option gostr) : M W unit :=
  match prev with
  | Some d => let! _ := call (fw_Write path d) in ret tt
  | None => let! _ := call (fw_Remove path) in ret tt
  end.

(** Write, check the merged configuration, put back what was there when it
    is refused, and reload. *)
Definition write_checked (path data : gostr) (prev : option gostr) : M W (option smb_err) :=
  let! ok := call (fw_Write path data) in
  if negb ok then ret (Some WriteErr)
  else
    let! t := testparm in
    match t with
    | Some e => let! _ := restore path prev in ret (Some (TestparmFailed e))
    | None => reload
    end.

Definition CreateShare (s : Share) : M W (option smb_err) :=
  match validateShare s with
  | Err e => ret (Some e)
  | Ok _ =>
      let path := filePath m (Name s) in
      let! r := call (fw_ReadFile path) in
      match r with
      | Data _ => ret (Some AlreadyExists)
      | ReadFailed => ret (Some ReadErr)
      | Missing => write_checked path (renderShareConf s) None
      end
  end.

Definition UpdateShare (s : Share) : M W (option smb_err) :=
  match validateShare s with
  | Err e => ret (Some e)
  | Ok _ =>
      let path := filePath m (Name s) in
      let! r := call (fw_ReadFile path) in
      match r with
      | Missing => ret (Some ErrNotFound)
      | ReadFailed => ret (Some ReadErr)
      | Data prev => write_checked path (renderShareConf s) (Some prev)
      end
  end.

Definition DeleteShare (name : gostr) : M W (option smb_err) :=
  match validateShareName name with
  | Err e => ret (Some e)
  | Ok _ =>
      let! r := call (fw_Remove (filePath m name)) in
      match r with
      | NoSuchFile => ret (Some ErrNotFound)
      | RemoveFailed => ret (Some RemoveErr)
      | Removed => reload
      end
  end.

Definition GetShare (name : gostr) : M W (res smb_err Share) :=
  match validateShareName name with
  | Err e => ret (Err e)
  | Ok _ =>
      let! r := call (fw_ReadFile (filePath m name)) in
      ret (match r with
           | Missing => Err ErrNotFound
           | ReadFailed => Err ReadErr
           | Data d => let? sh := parseShareConf d in Ok (set_name sh name)
           end)
  end.

Fixpoint list_entries (entries : list (gostr * bool)) : M W (list Share) :=
  match entries with
  | [] => ret []
  | (fname, isDir) :: es =>
      match (if isDir then None else managed_name (prefix m) suffix fname) with
      | None => list_entries es
      | Some name =>
          if is_ok (validateShareName name) then
            let! r := call (fw_ReadFile (Join [dir m; fname])) in
            match r with
            | Data d =>
                match parseShareConf d with
                | Ok sh => let! rest := list_entries es in ret (set_name sh name :: rest)
                | Err _ => list_entries es
                end
            | _ => list_entries es
            end
          else list_entries es
      end
  end.

Definition ListShares : M W (res smb_err (list Share)) :=
  let! d := call (fw_ReadDir (dir m)) in
  match d with
  | None => ret (Err ReadDirErr)
  | Some entries =>
      let! out := list_entries entries in
      ret (Ok (stable_sort (fun a b => str_ltb (Name a) (Name b)) out))
  end.

Definition Reload : M W (option smb_err) := reload.

(** The password twice, one line each. *)
Definition password_input (password : gostr) : gostr := unlines [password; password].

Definition smbpasswd (stdin : gostr) (args : list gostr) : M W (option smb_err) :=
  let! r := call (RunStdin (smbpasswdBin m) (Some stdin) args) in
  ret (match r with Err e => Some (Smbpasswd e) | Ok _ => None end).

Definition AddUser (username password : gostr) : M W (option smb_err) :=
  match validateUsername username with
  | Err e => ret (Some e)
  | Ok _ => if str_eqb password [] then ret (Some PasswordRequired)
            else smbpasswd (password_input password) [ #"-a"; #"-s"; username]
  end.

Definition SetUserPassword (username newPassword : gostr) : M W (option smb_err) :=
  match validateUsername username with
  | Err e => ret (Some e)
  | Ok _ => if str_eqb newPassword [] then ret (Some PasswordRequired)
            else smbpasswd (password_input newPassword) [ #"-s"; username]
  end.

Definition DeleteUser (username : gostr) : M W (option smb_err) :=
  match validateUsername username with
  | Err e => ret (Some e)
  | Ok _ =>
      let! r := call (Run (smbpasswdBin m) [ #"-x"; username]) in
      ret (match r with Err e => Some (Smbpasswd e) | Ok _ => None end)
  end.

Definition ListUsers : M W (res smb_err (list gostr)) :=
  let! r := call (Run (pdbeditBin m) [ #"-L"]) in
  ret (match r with Err e => Err (Pdbedit e) | Ok out => Ok (parsePdbeditL out) end).
End Operations.
End Smb.

(** * internal/host/samba: server-wide settings

    The managed [global] section: its options with their defaults and
    validation, its text, its parser, and the operations that set and read
    it. *)

From S2P Require Import Prelude GoStrings GoText GoPath Effects ZfsNames HostExec HostFiles.

Module SmbGlobals.
Import Smb.

Record GlobalsOpts := mkGlobals {
  Workgroup : gostr; ServerString : gostr; ACLProfile : gostr; SecurityMode : gostr;
  Realm : gostr; EnableNetBIOS : bool; CustomLines : list gostr }.

Definition emptyGlobals : GlobalsOpts := mkGlobals [] [] [] [] [] false [].

Definition globalsFileName : gostr := #"00-nova-globals.conf".
Definition globalsFilePath (m : Manager) : gostr := Join [dir m; globalsFileName].

Definition applyGlobalsDefaults (o : GlobalsOpts) : GlobalsOpts :=
  mkGlobals (or_default (Workgroup o) #"WORKGROUP") (or_default (ServerString o) #"NovaNAS")
            (or_default (ACLProfile o) #"nfsv4") (or_default (SecurityMode o) #"user")
            (Realm o) (EnableNetBIOS o) (CustomLines o).

(** ** Validation *)

Definition validateWorkgroup (w : gostr) : res smb_err unit :=
  ensure negb (str_eqb w []) else WorkgroupRequired ;;
  ensure (length w <=? 15)%nat else WorkgroupLong ;;
  ensure forallb user_char w else WorkgroupChar ;;
  Ok tt.

Definition validateServerString (s : gostr) : res smb_err unit :=
  ensure (length s <=? 256)%nat else ServerStringLong ;;
  ensure negb (existsb line_break s) else ServerStringChar ;;
  Ok tt.

Definition validateRealm (r : gostr) : res smb_err unit :=
  if str_eqb r [] then Ok tt
  else
    ensure (length r <=? 255)%nat else RealmLong ;;
    ensure forallb user_char r else RealmChar ;;
    Ok tt.

Definition shell_meta (c : ascii) : bool :=
  existsb (ch_eqb c) (map byte_of [59; 124; 38; 36; 96; 92; 60; 62; 0]).

Fixpoint check_custom_chars (line : gostr) : res smb_err unit :=
  match line with
  | [] => Ok tt
  | c :: l =>
      ensure negb (line_break c) else CustomControl ;;
      ensure negb (shell_meta c) else CustomMeta ;;
      check_custom_chars l
  end.

Definition validateCustomLine (line : gostr) : res smb_err unit :=
  ensure contains line #"=" else CustomNoEquals ;;
  check_custom_chars line.

Definition validateGlobals (o : GlobalsOpts) : res smb_err unit :=
  let? _ := validateWorkgroup (Workgroup o) in
  let? _ := validateServerString (ServerString o) in
  ensure one_of (ACLProfile o) [ #"nfsv4"; #"posix"] else BadACLProfile ;;
  ensure one_of (SecurityMode o) [ #"user"; #"ads"] else BadSecurityMode ;;
  let? _ := validateRealm (Realm o) in
  ensure negb (str_eqb (SecurityMode o) #"ads" && str_eqb (Realm o) []) else RealmRequired ;;
  check_each InCustomLines validateCustomLine 0 (CustomLines o).

(** ** Rendering *)

Definition nfsv4_settings : list (gostr * gostr) :=
  [(#"vfs objects", #"zfsacl"); (#"nfs4: chown", #"yes"); (#"nfs4: acedup", #"merge"); (#"nfs4: mode", #"special");
   (#"nt acl support", #"yes"); (#"inherit acls", #"yes"); (#"map acl inherit", #"yes");
   (#"store dos attributes", #"yes"); (#"ea support", #"yes"); (#"oplocks", #"no"); (#"level2 oplocks", #"no");
   (#"kernel oplocks", #"no"); (#"idmap config * : backend", #"tdb"); (#"idmap config * : range", #"100000-200000")].

Definition posix_settings : list (gostr * gostr) :=
  [(#"vfs objects", #"acl_xattr"); (#"acl_xattr:ignore system acls", #"yes");
   (#"nt acl support", #"yes"); (#"store dos attributes", #"yes")].

Definition global_settings (o : GlobalsOpts) : list (gostr * gostr) :=
  let nfsv4 := str_eqb (ACLProfile o) #"nfsv4" in
  [(#"workgroup", Workgroup o); (#"server string", ServerString o);
   (#"server min protocol", #"SMB2"); (#"server max protocol", #"SMB3")] ++
  unless (negb nfsv4) [(#"client min protocol", #"SMB2")] ++
  [(#"security", SecurityMode o)] ++
  unless (negb (str_eqb (SecurityMode o) #"ads")) [(#"realm", Realm o)] ++
  unless (EnableNetBIOS o) [(#"disable netbios", #"yes")] ++
  (if nfsv4 then nfsv4_settings else posix_settings).

Definition renderGlobalsConf (o : GlobalsOpts) : gostr :=
  unlines (#"[global]" :: map setting_line (global_settings o) ++
           map (fun line => #"   " ++ trim_space line) (CustomLines o)).

(** ** Parsing *)

(** The variables of the loop: the options, and what was seen. *)
Record seen := mkSeen {
  sOpts : GlobalsOpts; sawZFS : bool; sawACLXattr : bool; disableNetBIOSSeen : bool }.

Definition see (st : seen) (key val : gostr) : seen :=
  let 'mkSeen (mkGlobals wg ss ap sm re nb cl) z x d := st in
  if str_eqb key #"workgroup" then mkSeen (mkGlobals val ss ap sm re nb cl) z x d
  else if str_eqb key #"server string" then mkSeen (mkGlobals wg val ap sm re nb cl) z x d
  else if str_eqb key #"security" then mkSeen (mkGlobals wg ss ap val re nb cl) z x d
  else if str_eqb key #"realm" then mkSeen (mkGlobals wg ss ap sm val nb cl) z x d
  else if str_eqb key #"disable netbios" then mkSeen (mkGlobals wg ss ap sm re nb cl) z x (parseBool val)
  else if str_eqb key #"vfs objects" then
    mkSeen (mkGlobals wg ss ap sm re nb cl) (z || contains val #"zfsacl") (x || contains val #"acl_xattr") d
  else st.

Fixpoint globals_loop (lines : list gostr) (headerSeen : bool) (st : seen) : bool * seen :=
  match lines with
  | [] => (headerSeen, st)
  | l :: ls =>
      match classify (trim_space l) with
      | Header _ => globals_loop ls true st
      | Setting k v => globals_loop ls headerSeen (if headerSeen then see st k v else st)
      | Skipped | Other => globals_loop ls headerSeen st
      end
  end.

(** Without a recognised vfs module the profile is nfsv4. *)
Definition finish (st : seen) : GlobalsOpts :=
  let 'mkSeen (mkGlobals wg ss _ sm re _ cl) z x d := st in
  let profile := if z then #"nfsv4" else if x then #"posix" else #"nfsv4" in
  mkGlobals wg ss profile sm re (negb d) cl.

Definition parseGlobalsConf (data : gostr) : res smb_err GlobalsOpts :=
  let '(ls, long) := scan_limit max_line data in
  let '(headerSeen, st) := globals_loop ls false (mkSeen emptyGlobals false false false) in
  if long then Err LineTooLong
  else if negb headerSeen then Err NoHeader else Ok (finish st).

(** ** Operations *)

Section Operations.
Context {W : Type} `{HostExec W, FileWriter W} (m : Manager).

Definition SetGlobals (opts : GlobalsOpts) : M W (option smb_err) :=
  let opts := applyGlobalsDefaults opts in
  match validateGlobals opts with
  | Err e => ret (Some e)
  | Ok _ =>
      let path := globalsFilePath m in
      let! prev := call (fw_ReadFile path) in
      match prev with
      | ReadFailed => ret (Some ReadErr)
      | Data d => write_checked m path (renderGlobalsConf opts) (Some d)
      | Missing => write_checked m path (renderGlobalsConf opts) None
      end
  end.

Definition GetGlobals : M W (res smb_err GlobalsOpts) :=
  let! r := call (fw_ReadFile (globalsFilePath m)) in
  ret (match r with
       | Missing => Ok emptyGlobals
       | ReadFailed => Err ReadErr
       | Data d => parseGlobalsConf d
       end).
End Operations.
End SmbGlobals.
