(* ===== verification/SambaCorrect.v ===== *)
(** * Shares on disk are the shares that were asked for

    The section of a share reads back as the share, and a change the
    configuration check refuses is undone. *)

From S2P Require Import Prelude GoStrings GoText GoPath SortLib Effects ZfsNames HostExec HostFiles Samba.
Import Smb.

#[local] Arguments str : simpl never.

(** ** One setting *)

(** Keys that read back as they are. *)
Definition key_ok (k : gostr) : bool :=
  match k with
  | c :: _ => printable c && negb (existsb (ch_eqb c) ["#"; ";"; "["]%char) && negb (contains_byte "="%char k) &&
              str_eqb (trim_space (to_lower (k ++ #" "))) k
  | [] => false
  end.

Lemma setting_read k v : key_ok k = true -> trimmed v -> v <> [] ->
  classify (trim_space (setting_line (k, v))) = Setting k v.
Proof.
  intros Hk Hv Hne. destruct k as [|c k]; [done|]. cbn [key_ok] in Hk. rewrite !andb_true_iff in Hk.
  destruct Hk as [[[Hc Hhead] Heq] Hkey]. apply str_eqb_eq in Hkey. rewrite negb_true_iff in Heq, Hhead.
  assert (trim_space (setting_line (c :: k, v)) = (c :: k ++ #" =") ++ " "%char :: v) as ->.
  { unfold setting_line. cbn [fst snd].
    transitivity (trim_space (#"   " ++ (c :: k ++ #" =") ++ " "%char :: v)).
    - f_equal. cbn [app]. by rewrite <- !app_assoc.
    - apply trim_space_tail; [by repeat constructor|done..]. }
  unfold classify. cbn [existsb] in Hhead. rewrite !orb_false_iff in Hhead. destruct Hhead as (H1 & H2 & H3 & _).
  cbn [app has_prefix]. 
  assert (Hpre : forall d l, ch_eqb c d = false -> has_prefix (c :: l) [d] = false).
  { intros d l Hd. unfold has_prefix. cbn [strip_prefix]. apply ch_eqb_neq in Hd.
    rewrite (proj2 (ch_eqb_neq d c)) by congruence. done. }
  change #"#" with ["#"%char]. change #";" with [";"%char]. change #"[" with ["["%char].
  rewrite !Hpre by done. cbn [andb orb str_eqb].
  replace (str_eqb _ []) with false by (symmetry; by apply str_eqb_neq).
  cbn [orb]. change (c :: (k ++ #" =") ++ " "%char :: v) with ((c :: k ++ #" =") ++ " "%char :: v).
  rewrite (proj2 (cut_at_Some "="%char _ ((c :: k) ++ #" ") (" "%char :: v))).
  - rewrite Hkey, trim_space_lead by done. done.
  - split; [cbn [app]; by rewrite <- !app_assoc|].
    intros [Hin|Hin]%elem_of_app; [|by vm_compute in Hin; apply list_elem_of_singleton in Hin].
    apply contains_byte_iff in Hin. congruence.
Qed.

Definition apply_settings (kvs : list (gostr * gostr)) (sh : Share) : Share :=
  fold_left (fun sh kv => set_key sh kv.1 kv.2) kvs sh.

Definition good_setting (kv : gostr * gostr) : Prop := key_ok kv.1 = true /\ trimmed kv.2 /\ kv.2 <> [].

Lemma section_read kvs sh : Forall good_setting kvs ->
  section_loop (map setting_line kvs) false sh = Ok (apply_settings kvs sh).
Proof.
  intros Hk. revert sh. induction Hk as [|[k v] kvs (Hk & Hv & Hne) Hkvs IH]; intros sh; [done|].
  cbn [map section_loop]. rewrite setting_read by done. apply IH.
Qed.

(** ** Values *)

Lemma file_char_printable c : file_name_char c = true -> printable c = true.
Proof.
  unfold file_name_char, is_lower, is_upper, is_digit, printable.
  rewrite !orb_true_iff, !andb_true_iff, !Z.leb_le, !ch_eqb_eq.
  intros [[[[?|?]|?]| ->]| ->]; [lia|lia|lia|by vm_compute|by vm_compute].
Qed.

Lemma user_word u : validateUsername u = Ok tt -> word u = true /\ ","%char ∉ u.
Proof.
  unfold validateUsername, check_username. destruct u as [|c u]; [done|]. destruct (_ <=? _)%nat; [|done].
  destruct (letter_or_underscore c); [|done]. destruct (forallb user_char (c :: u)) eqn:E; [|done]. intros _.
  rewrite forallb_forall in E. split.
  - apply word_iff. split; [done|]. apply Forall_forall. intros x Hx%list_elem_of_In. specialize (E _ Hx).
    unfold user_char in E. apply orb_true_iff in E as [E | ->%ch_eqb_eq]; [by apply file_char_printable|done].
  - intros Hin%list_elem_of_In. by specialize (E _ Hin).
Qed.

Lemma check_each_all k check i l : check_each k check i l = Ok tt -> Forall (fun x => check x = Ok tt) l.
Proof.
  revert i. induction l as [|x l IH]; intros i; cbn [check_each]; [constructor|].
  destruct (check x) as [[]|] eqn:E; [|done]. intros Hl. constructor; eauto.
Qed.

Definition comma_blank (c : ascii) : ascii := if ch_eqb c ","%char then " "%char else c.

Lemma replace_commas s : replace_all s #"," #" " = map comma_blank s.
Proof.
  unfold replace_all. induction s as [|c s IH]; [done|]. cbn [replace_from map]. unfold comma_blank at 1.
  change #"," with [","%char]. unfold has_prefix. cbn [strip_prefix]. rewrite <- IH.
  destruct (ch_eqb c ","%char) eqn:E.
  - apply ch_eqb_eq in E as ->. by rewrite ch_eqb_refl.
  - apply ch_eqb_neq in E. by rewrite (proj2 (ch_eqb_neq ","%char c)) by congruence.
Qed.

Lemma commas_id u : ","%char ∉ u -> map comma_blank u = u.
Proof.
  induction u as [|c u IH]; intros Hn; [done|]. cbn [map]. rewrite IH by set_solver. unfold comma_blank.
  by rewrite (proj2 (ch_eqb_neq c ","%char)) by set_solver.
Qed.

Lemma users_columns u us : Forall (fun u => ","%char ∉ u) (u :: us) ->
  map comma_blank (join #", " (u :: us)) = u ++ columns (map (fun u => (1%nat, u)) us).
Proof.
  revert u. induction us as [|v us IH]; intros u [Hu Hus]%Forall_cons.
  - cbn [join]. rewrite commas_id by done. by rewrite app_nil_r.
  - change (join #", " (u :: v :: us)) with (u ++ #", " ++ join #", " (v :: us)).
    rewrite !map_app, commas_id by done. by rewrite IH.
Qed.

Lemma users_read us : Forall (fun u => validateUsername u = Ok tt) us -> parseUserList (join #", " us) = us.
Proof.
  intros Hus. unfold parseUserList. rewrite replace_commas. destruct us as [|u us]; [done|].
  assert (Hw : Forall (fun u => word u = true /\ ","%char ∉ u) (u :: us)) by (eapply Forall_impl; [exact Hus|apply user_word]).
  apply Forall_and in Hw as [Hw Hc]. rewrite users_columns by done. apply Forall_cons in Hw as [Hu Hw].
  rewrite fields_line by (done || by apply Forall_map). f_equal. rewrite map_map. apply map_id.
Qed.

Lemma bounded_join sep us : us <> [] -> Forall (fun u => word u = true) us -> bounded (join sep us) = true.
Proof.
  intros Hne Hus. destruct us as [|u us]; [done|]. clear Hne. revert u Hus.
  induction us as [|v us IH]; intros u [Hu Hus]%Forall_cons; [by apply word_bounded|].
  change (join sep (u :: v :: us)) with (u ++ sep ++ join sep (v :: us)). specialize (IH v Hus).
  apply word_ends in Hu as [Hu _]. unfold bounded in *. apply andb_true_iff in IH as [_ IH].
  rewrite !rev_app_distr. destruct u as [|c u]; [done|]. cbn [starts app] in *. rewrite Hu.
  by destruct (rev (join sep (v :: us))).
Qed.

Lemma users_value us : us <> [] -> Forall (fun u => validateUsername u = Ok tt) us ->
  trimmed (join #", " us) /\ join #", " us <> [].
Proof.
  intros Hne Hus. apply bounded_trimmed, bounded_join; [done|].
  eapply Forall_impl; [exact Hus|]. intros u Hu. by apply user_word.
Qed.

Lemma bool_read b : parseBool (yesno b) = b.
Proof. by destruct b. Qed.

Lemma bool_value b : trimmed (yesno b) /\ yesno b <> [].
Proof. by destruct b. Qed.

Lemma mask_value k m : validateMask k m = Ok tt -> m <> [] -> trimmed m /\ m <> [].
Proof.
  unfold validateMask. intros E Hne. rewrite (proj2 (str_eqb_neq _ _)) in E by done.
  destruct (_ || _); [|done]. destruct (forallb octal m) eqn:Ef; [|done]. apply bounded_trimmed, word_bounded, word_iff.
  split; [done|]. rewrite forallb_forall in Ef. apply Forall_forall. intros c Hc%list_elem_of_In. specialize (Ef _ Hc).
  unfold octal in Ef. unfold printable. rewrite andb_true_iff, !Z.leb_le in *. lia.
Qed.

(** ** Vetoed names *)

Lemma join_slash l : join #"/" l = join_with "/"%char l.
Proof.
  induction l as [|x [|y l] IH]; [done|done|]. change (join #"/" (x :: y :: l)) with (x ++ #"/" ++ join #"/" (y :: l)).
  by rewrite IH.
Qed.

Lemma veto_entry e : validateVetoEntry e = Ok tt -> e <> [] /\ ~ ("/"%char ∈ e) /\ newline ∉ e.
Proof.
  unfold validateVetoEntry. destruct (str_eqb e []) eqn:E; [done|]. apply str_eqb_neq in E. cbn [negb].
  destruct (existsb _ e) eqn:Ee; [done|]. intros _. split; [done|].
  assert (Hx : forall c, c ∈ e -> ch_eqb c "/"%char || line_break c = false).
  { intros c Hc. apply not_true_iff_false. intros Ht. apply not_true_iff_false in Ee. apply Ee, existsb_exists.
    exists c. split; [by apply list_elem_of_In|done]. }
  split; intros Hc; by specialize (Hx _ Hc).
Qed.

Lemma veto_read l : l <> [] -> Forall (fun e => validateVetoEntry e = Ok tt /\ trimmed e) l ->
  parseVetoList (#"/" ++ join #"/" l ++ #"/") = l.
Proof.
  intros Hne Hl. unfold parseVetoList. rewrite join_slash. change #"/" with ["/"%char]. cbn [app split_on].
  rewrite ch_eqb_refl, split_on_app_sep, split_join; [|done|].
  2: { eapply Forall_impl; [exact Hl|]. intros e [He _]. by apply veto_entry in He as (_ & He & _). }
  cbn [map]. change (trim_space []) with ([] : gostr). cbn [List.filter]. rewrite map_app, List.filter_app.
  change (List.filter _ (map trim_space (split_on "/"%char []))) with (@nil gostr). rewrite app_nil_r.
  cbn [str_eqb]. change (negb (str_eqb [] [])) with false. cbv iota.
  clear Hne. induction Hl as [|e l [He Ht] Hl IH]; [done|]. cbn [map List.filter]. rewrite Ht.
  apply veto_entry in He as (Hne & _). rewrite (proj2 (str_eqb_neq e [])) by done. cbn [negb]. by rewrite IH.
Qed.

Lemma veto_value l : trimmed (#"/" ++ join #"/" l ++ #"/") /\ #"/" ++ join #"/" l ++ #"/" <> [].
Proof. apply bounded_trimmed. unfold bounded. rewrite app_assoc, rev_app_distr. done. Qed.

(** ** The section *)

Section Settings.
Context (nm pa co : gostr) (br wr gu ro : bool) (vu wl au : list gostr) (cm dm : gostr) (ve : list gostr).

Lemma set_valid_users v : set_key (mkShare nm pa co br wr gu ro vu wl au cm dm ve) #"valid users" v =
  mkShare nm pa co br wr gu ro (parseUserList v) wl au cm dm ve.
Proof. reflexivity. Qed.
Lemma set_write_list v : set_key (mkShare nm pa co br wr gu ro vu wl au cm dm ve) #"write list" v =
  mkShare nm pa co br wr gu ro vu (parseUserList v) au cm dm ve.
Proof. reflexivity. Qed.
Lemma set_admin_users v : set_key (mkShare nm pa co br wr gu ro vu wl au cm dm ve) #"admin users" v =
  mkShare nm pa co br wr gu ro vu wl (parseUserList v) cm dm ve.
Proof. reflexivity. Qed.
Lemma set_veto_files v : set_key (mkShare nm pa co br wr gu ro vu wl au cm dm ve) #"veto files" v =
  mkShare nm pa co br wr gu ro vu wl au cm dm (parseVetoList v).
Proof. reflexivity. Qed.

Lemma set_flags : apply_settings [(#"browseable", yesno br); (#"writable", yesno wr); (#"guest ok", yesno gu); (#"read only", yesno ro)]
  (mkShare nm pa co false false false false vu wl au cm dm ve) = mkShare nm pa co br wr gu ro vu wl au cm dm ve.
Proof. by destruct br, wr, gu, ro. Qed.
End Settings.

Lemma settings_app l kvs sh : apply_settings (l ++ kvs) sh = apply_settings kvs (apply_settings l sh).
Proof. apply fold_left_app. Qed.

(** A setting that is printed only when its value is not empty. *)
Lemma opt_setting {A} (x : list A) k v sh sh' :
  (x = [] -> sh = sh') -> (x <> [] -> set_key sh k v = sh') -> apply_settings (unless (is_empty x) [(k, v)]) sh = sh'.
Proof. intros H0 H1. destruct x; [by apply H0|by apply H1]. Qed.

(** What [validateShare] guarantees of the parts of a share. *)
Record valid_parts (s : Share) : Prop := {
  vp_name : validateShareName (Name s) = Ok tt;
  vp_path : validateSharePath (Path s) = Ok tt;
  vp_comment : validateComment (Comment s) = Ok tt;
  vp_create : validateMask CreateMaskKind (CreateMask s) = Ok tt;
  vp_directory : validateMask DirectoryMaskKind (DirectoryMask s) = Ok tt;
  vp_valid : Forall (fun u => validateUsername u = Ok tt) (ValidUsers s);
  vp_write : Forall (fun u => validateUsername u = Ok tt) (WriteList s);
  vp_admin : Forall (fun u => validateUsername u = Ok tt) (AdminUsers s);
  vp_veto : Forall (fun e => validateVetoEntry e = Ok tt) (Veto s) }.

Lemma validateShare_parts s : validateShare s = Ok tt -> valid_parts s.
Proof.
  unfold validateShare. intros Hv.
  destruct (validateShareName _) as [[]|] eqn:E1; [|done]. destruct (validateSharePath _) as [[]|] eqn:E2; [|done].
  destruct (validateComment _) as [[]|] eqn:E3; [|done]. destruct (validateMask CreateMaskKind _) as [[]|] eqn:E4; [|done].
  destruct (validateMask DirectoryMaskKind _) as [[]|] eqn:E5; [|done]. destruct (check_each InValidUsers _ _ _) as [[]|] eqn:E6; [|done].
  destruct (check_each InWriteList _ _ _) as [[]|] eqn:E7; [|done]. destruct (check_each InAdminUsers _ _ _) as [[]|] eqn:E8; [|done].
  split; try done; by eapply check_each_all.
Qed.

Lemma settings_read s : valid_parts s -> Forall trimmed (Veto s) ->
  apply_settings (share_settings s) (set_name emptyShare (Name s)) = s.
Proof.
  intros [_ _ _ _ _ Ev%users_read Ew%users_read Ea%users_read Hv] Ht.
  pose proof (fun Hne => veto_read (Veto s) Hne (proj2 (Forall_and _ _) (conj Hv Ht))) as Er. clear Hv Ht.
  destruct s as [nm pa co br wr gu ro vu wl au cm dm ve]. unfold share_settings.
  cbn [Name Path Comment Browseable Writable GuestOK ReadOnly ValidUsers WriteList AdminUsers CreateMask DirectoryMask Veto] in *.
  rewrite !settings_app.
  change (apply_settings [(#"path", pa)] (set_name emptyShare nm)) with (mkShare nm pa [] false false false false [] [] [] [] [] []).
  rewrite (opt_setting co _ _ _ (mkShare nm pa co false false false false [] [] [] [] [] [])) by ((by intros ->) || (intros _; reflexivity)).
  rewrite set_flags.
  rewrite (opt_setting vu _ _ _ (mkShare nm pa co br wr gu ro vu [] [] [] [] []))
    by ((by intros ->) || by rewrite set_valid_users, Ev).
  rewrite (opt_setting wl _ _ _ (mkShare nm pa co br wr gu ro vu wl [] [] [] []))
    by ((by intros ->) || by rewrite set_write_list, Ew).
  rewrite (opt_setting au _ _ _ (mkShare nm pa co br wr gu ro vu wl au [] [] []))
    by ((by intros ->) || by rewrite set_admin_users, Ea).
  rewrite (opt_setting cm _ _ _ (mkShare nm pa co br wr gu ro vu wl au cm [] [])) by ((by intros ->) || (intros _; reflexivity)).
  rewrite (opt_setting dm _ _ _ (mkShare nm pa co br wr gu ro vu wl au cm dm [])) by ((by intros ->) || (intros _; reflexivity)).
  apply opt_setting; [by intros ->|]. intros Hne. by rewrite set_veto_files, Er.
Qed.

(** ** The file *)

(** A share whose text carries no blanks at its ends and whose lines fit
    the parser's buffer. *)
Definition readable (s : Share) : Prop :=
  trimmed (Path s) /\ trimmed (Comment s) /\ Forall trimmed (Veto s) /\
  Forall (fun kv => (length (setting_line kv) < max_line)%nat) (share_settings s).

Lemma Forall_unless {A} (P : A -> Prop) b l : (b = false -> Forall P l) -> Forall P (unless b l).
Proof. destruct b; [constructor|]. intros Hl. by apply Hl. Qed.

Lemma is_empty_false {A} (l : list A) : is_empty l = false -> l <> [].
Proof. by destruct l. Qed.

Lemma settings_good s : valid_parts s -> readable s -> Forall good_setting (share_settings s).
Proof.
  intros [_ Hp Hc Hcm Hdm Hv Hw Ha _] (Hpt & Hct & _ & _). unfold share_settings.
  assert (Hne : Path s <> []) by (intros E; by rewrite E in Hp).
  repeat apply Forall_app_2; try (apply Forall_unless; intros He%is_empty_false); repeat constructor; cbn [snd fst];
    try done; try apply bool_value; try (by apply users_value); try (by eapply mask_value); apply veto_value.
Qed.

Lemma join_no_newline sep l : newline ∉ sep -> Forall (fun x => newline ∉ x) l -> newline ∉ join sep l.
Proof.
  intros Hs. induction 1 as [|x [|y l] Hx Hl IH]; [by intros ?%elem_of_nil|done|].
  change (join sep (x :: y :: l)) with (x ++ sep ++ join sep (y :: l)). rewrite !elem_of_app. tauto.
Qed.

Lemma path_no_newline p : validateSharePath p = Ok tt -> newline ∉ p.
Proof.
  unfold validateSharePath. destruct (negb _); [|done]. destruct (has_prefix p #"/"); [|done].
  destruct (negb (contains_byte _ _)); [|done]. destruct (negb (existsb _ _)); [|done]. clear.
  induction p as [|c p IH]; [by intros _ ?%elem_of_nil|]. cbn [check_path_chars]. destruct (control c) eqn:Ec; [done|]. cbn [negb].
  destruct (negb _); [|done]. intros Hp [<-|Hin]%elem_of_cons; [done|by apply IH].
Qed.

Lemma comment_no_newline c : validateComment c = Ok tt -> newline ∉ c.
Proof.
  unfold validateComment. destruct (_ <=? _)%nat; [|done]. destruct (existsb line_break c) eqn:E; [done|]. intros _ Hin.
  apply not_true_iff_false in E. apply E, existsb_exists. exists newline. by rewrite list_elem_of_In in Hin.
Qed.

Lemma users_no_newline us : Forall (fun u => validateUsername u = Ok tt) us -> newline ∉ join #", " us.
Proof.
  intros Hus. apply join_no_newline; [by_dec|]. eapply Forall_impl; [exact Hus|]. intros u [Hu _]%user_word. by apply words_no_newline.
Qed.

Lemma mask_no_newline k m : validateMask k m = Ok tt -> newline ∉ m.
Proof.
  unfold validateMask. destruct (str_eqb m []) eqn:E; [apply str_eqb_eq in E as ->; by intros _ ?%elem_of_nil|].
  destruct (_ || _); [|done]. destruct (forallb octal m) eqn:Ef; [|done]. intros _ Hin%list_elem_of_In.
  rewrite forallb_forall in Ef. by specialize (Ef _ Hin).
Qed.

Lemma settings_no_newline s : valid_parts s -> Forall (fun kv => newline ∉ kv.1 /\ newline ∉ kv.2) (share_settings s).
Proof.
  intros [_ Hp Hc Hcm Hdm Hv Hw Ha Hve]. unfold share_settings.
  assert (Hbool : forall b, newline ∉ yesno b) by (intros []; by_dec).
  repeat apply Forall_app_2; try (apply Forall_unless; intros _); repeat constructor; cbn [fst snd]; try by_dec;
    try apply Hbool; [by apply path_no_newline|by apply comment_no_newline|by apply users_no_newline..| | |].
  1,2: by eapply mask_no_newline.
  rewrite !not_elem_of_app. repeat split; [by_dec| |by_dec]. apply join_no_newline; [by_dec|].
  eapply Forall_impl; [exact Hve|]. by intros e (_ & _ & He)%veto_entry.
Qed.

Lemma setting_clean kv : good_setting kv -> newline ∉ kv.1 /\ newline ∉ kv.2 -> (length (setting_line kv) < max_line)%nat ->
  clean_line max_line (setting_line kv).
Proof.
  intros (_ & Hv & Hne) [Hk Hn] Hlen. split; [|split; [done|]].
  - unfold setting_line. rewrite !not_elem_of_app. repeat split; try done; by_dec.
  - unfold setting_line. rewrite !app_assoc. by apply trimmed_no_cr.
Qed.

Lemma name_word n : validateShareName n = Ok tt -> word n = true /\ (length n <= 64)%nat.
Proof.
  unfold validateShareName, check_file_name. destruct (str_eqb n []) eqn:E; [done|]. apply str_eqb_neq in E. cbn [negb].
  destruct (length n <=? 64)%nat eqn:El; [|done]. destruct (negb _); [|done]. destruct (forallb _ n) eqn:Ef; [|done]. intros _.
  split; [|by apply Nat.leb_le]. apply word_iff. split; [done|]. rewrite forallb_forall in Ef. apply Forall_forall.
  intros c Hc%list_elem_of_In. by apply file_char_printable, Ef.
Qed.

Lemma header_word n : word n = true -> word (header_line n) = true.
Proof.
  intros [_ Hn]%word_iff. apply word_iff. split; [done|]. unfold header_line.
  repeat apply Forall_app_2; try done; by repeat constructor.
Qed.

Lemma header_read n : validateShareName n = Ok tt -> classify (trim_space (header_line n)) = Header n.
Proof.
  intros [Hn _]%name_word. rewrite trim_space_bounded by (by apply word_bounded, header_word). unfold classify, header_line.
  change (str_eqb (#"[" ++ n ++ #"]") [] || has_prefix (#"[" ++ n ++ #"]") #"#" || has_prefix (#"[" ++ n ++ #"]") #";") with false.
  assert (has_prefix (#"[" ++ n ++ #"]") #"[" = true) as -> by (apply has_prefix_iff; by eexists).
  assert (has_suffix (#"[" ++ n ++ #"]") #"]" = true) as -> by (rewrite app_assoc; apply has_suffix_app).
  cbn [andb]. rewrite trim_prefix_app, trim_suffix_app. by rewrite trim_space_bounded by (by apply word_bounded).
Qed.

Lemma header_clean n : validateShareName n = Ok tt -> clean_line max_line (header_line n).
Proof.
  intros [Hn Hl]%name_word. apply header_word in Hn as Hh. split; [by apply words_no_newline|]. split.
  - unfold header_line. rewrite !length_app. change (length #"[") with 1%nat. change (length #"]") with 1%nat. unfold max_line. lia.
  - apply word_bounded, bounded_trimmed in Hh as [Ht Hne]. by apply (trimmed_no_cr _ Ht Hne []).
Qed.

Lemma share_parse_render s : validateShare s = Ok tt -> readable s -> parseShareConf (renderShareConf s) = Ok s.
Proof.
  intros Hv%validateShare_parts Hr. unfold parseShareConf, renderShareConf. rewrite scan_unlines.
  - cbn [header_loop]. rewrite header_read by apply Hv. rewrite section_read by (by apply settings_good).
    f_equal. apply settings_read; [done|apply Hr].
  - constructor; [by apply header_clean, Hv|]. apply Forall_map. destruct Hr as (Hp & Hc & Hve & Hlen).
    pose proof (settings_good s Hv (conj Hp (conj Hc (conj Hve Hlen)))) as Hg.
    pose proof (settings_no_newline s Hv) as Hn. rewrite Forall_forall in *. intros kv Hin. apply setting_clean; auto.
Qed.
