(* ===== verification/SambaFiles.v ===== *)
(** * Changes to the samba configuration are transactions

    Over any store of files that keeps what is written: a change takes
    effect or the files are as before, and what a successful change wrote
    is what is read back. *)

From S2P Require Import Prelude GoStrings GoText GoPath Effects ZfsNames HostExec HostFiles Samba SambaCorrect.
Import Smb SmbGlobals.

#[local] Arguments str : simpl never.

Section Files.
Context {W : Type} `{HostExec W, FileWriter W} (files : W -> gmap gostr gostr) `{!FileLaws W files}.
(** No command changes the managed files. *)
Context (run_files : forall b args w, files (Run b args w).1 = files w).
Implicit Types (m : Manager) (w : W).

(** Putting back what was at the path failed, in the call that led to
    [w']. *)
Definition undo_failed (path : gostr) (prev : option gostr) (w' : W) : Prop :=
  exists w2, match prev with
             | Some d => fw_Write path d w2 = (w', false)
             | None => fw_Remove path w2 = (w', RemoveFailed)
             end.

(** What a change of the file at a path does to the files: everything, or
    nothing.  A write that fails may leave anything at the path. *)
Definition transaction (path data : gostr) (w w' : W) (r : option smb_err) : Prop :=
  match r with
  | None | Some (ReloadFailed _) => files w' = <[path := data]> (files w)
  | Some WriteErr => forall q, q <> path -> files w' !! q = files w !! q
  | Some (TestparmFailed _) =>
      files w' = files w \/
      undo_failed path (files w !! path) w' /\ (forall q, q <> path -> files w' !! q = files w !! q)
  | Some _ => files w' = files w
  end.

(** The call always returns, and is a transaction. *)
Definition changes (path data : gostr) (c : M W (option smb_err)) : Prop :=
  forall w, exists w' r, c w = (w', Some r) /\ transaction path data w w' r.

Lemma testparm_files m w : exists w' r, testparm m w = (w', Some r) /\ files w' = files w.
Proof.
  unfold testparm, bind, call, ret. pose proof (run_files (testparmBin m) [ #"-s"] w) as Hf.
  destruct (Run _ _ _) as [w1 r1]. eauto.
Qed.

Lemma smb_reload_files m w : exists w' r, reload m w = (w', Some r) /\
  files w' = files w /\ (r = None \/ exists e, r = Some (ReloadFailed e)).
Proof.
  unfold reload, bind, call, ret. pose proof (run_files (smbcontrolBin m) [ #"smbd"; #"reload-config"] w) as Hf.
  destruct (Run _ _ _) as [w1 [r1|e]]; eauto 8.
Qed.

(** Putting back undoes the write, or fails and leaves the other files. *)
Lemma restore_files path prev data fs w : files w = <[path := data]> fs -> fs !! path = prev ->
  exists w', restore path prev w = (w', Some tt) /\
    (files w' = fs \/ undo_failed path prev w' /\ forall q, q <> path -> files w' !! q = fs !! q).
Proof.
  intros Hf Hp. destruct prev as [d|]; unfold restore, bind, call, ret.
  - destruct (fw_Write path d w) as [w1 []] eqn:E; exists w1; (split; [done|]).
    + left. apply write_law in E. rewrite E, Hf, insert_insert_eq. by apply insert_id.
    + right. split; [by exists w|]. intros q Hq. by rewrite (write_fail_law _ _ _ _ q E Hq), Hf, lookup_insert_ne by done.
  - destruct (fw_Remove path w) as [w1 x] eqn:E. exists w1. split; [done|]. pose proof (remove_law _ _ _ _ E) as L. destruct x.
    + left. rewrite L, Hf. by apply delete_insert_id.
    + destruct L as [_ L]. by rewrite Hf, lookup_insert_eq in L.
    + right. split; [by exists w|]. intros q Hq. by rewrite L, Hf, lookup_insert_ne by done.
Qed.

Lemma write_checked_transaction m path data prev w : files w !! path = prev ->
  exists w' r, write_checked m path data prev w = (w', Some r) /\ transaction path data w w' r.
Proof.
  intros Hp. unfold write_checked. unfold bind at 1, call at 1. destruct (fw_Write path data w) as [w1 []] eqn:Ew; cbn [negb].
  2: { exists w1, (Some WriteErr). split; [done|]. intros q Hq. by eapply write_fail_law. }
  apply write_law in Ew. unfold bind at 1. destruct (testparm_files m w1) as (w2 & t & -> & Hf2). destruct t as [e|].
  - unfold bind at 1. destruct (restore_files path prev data (files w) w2) as (w3 & -> & Hr); [by rewrite Hf2|done|].
    exists w3, (Some (TestparmFailed e)). split; [done|]. cbn [transaction]. by rewrite Hp.
  - destruct (smb_reload_files m w2) as (w3 & r & -> & Hf3 & Hr). exists w3, r. split; [done|].
    unfold transaction. destruct Hr as [-> | [e ->]]; by rewrite Hf3, Hf2, Ew.
Qed.

(** Refusals before anything is written. *)
Definition early (e : smb_err) : Prop :=
  match e with ReloadFailed _ | WriteErr | TestparmFailed _ => False | _ => True end.

Lemma early_changes path data e : early e -> changes path data (ret (Some e)).
Proof. intros He w. exists w, (Some e). split; [done|]. by destruct e. Qed.

Lemma check_each_early k check l e i : check_each k check i l = Err e -> early e.
Proof.
  revert i. induction l as [|x l IH]; intros i; cbn [check_each]; [done|]. destruct (check x); [apply IH|]. by intros [= <-].
Qed.

Lemma validateShare_early s e : validateShare s = Err e -> early e.
Proof.
  unfold validateShare, validateShareName, validateSharePath, validateComment, validateMask.
  assert (Hpath : forall p e, check_path_chars p = Err e -> early e).
  { induction p as [|c p IH]; intros e0; cbn [check_path_chars]; [done|]. destruct (negb _); [|by intros [= <-]].
    destruct (negb _); [apply IH|by intros [= <-]]. }
  destruct (check_file_name _); [|by intros [= <-]].
  repeat (match goal with |- context [if ?b then _ else Err _] => destruct b; [|by intros [= <-]] end).
  destruct (check_path_chars _) eqn:Ep; [|intros [= <-]; by eapply Hpath].
  repeat match goal with |- context [if ?b then _ else _] => destruct b; try (by intros [= <-]) end;
  repeat (match goal with |- context [check_each ?k ?c ?i ?l] => destruct (check_each k c i l) eqn:?; [|intros [= <-]; by eapply check_each_early] end);
  try done.
Qed.

Lemma validateGlobals_early o e : validateGlobals o = Err e -> early e.
Proof.
  unfold validateGlobals, validateWorkgroup, validateServerString, validateRealm.
  repeat match goal with |- context [if ?b then _ else _] => destruct b; try (by intros [= <-]) end;
  apply check_each_early.
Qed.

(** A change that reads what is there, refuses, or writes and checks. *)
Lemma checked_change m path data (k : read_res -> M W (option smb_err)) :
  (forall prev, k prev = ret (Some AlreadyExists) \/ k prev = ret (Some ErrNotFound) \/ k prev = ret (Some ReadErr) \/
     exists d, k prev = write_checked m path data d /\ match prev with Data p => d = Some p | Missing => d = None | ReadFailed => False end) ->
  changes path data (let! prev := call (fw_ReadFile path) in k prev).
Proof.
  intros Hk w. unfold bind at 1, call at 1. destruct (fw_ReadFile path w) as [w1 prev] eqn:Er.
  apply read_law in Er as [Hf Er]. rewrite <- Hf in Er.
  assert (Hw : forall w' r, transaction path data w1 w' r -> transaction path data w w' r) by (intros w' r; unfold transaction; by rewrite Hf).
  destruct (Hk prev) as [-> |[-> |[-> |(d & -> & Hd)]]]; [by eexists w1, _..|].
  destruct (write_checked_transaction m path data d w1) as (w' & r & -> & Ht); [by destruct prev; [subst d|subst d|]|eauto].
Qed.

Lemma share_changes m s :
  changes (filePath m (Name s)) (renderShareConf s) (CreateShare m s) /\
  changes (filePath m (Name s)) (renderShareConf s) (UpdateShare m s).
Proof.
  unfold CreateShare, UpdateShare. cbv zeta. destruct (validateShare s) as [u|e] eqn:Ev; split;
    [apply (checked_change m)|apply (checked_change m)|by eapply early_changes, validateShare_early..]; intros [d| |]; eauto 10.
Qed.

(** C22. Creating and updating a samba share and setting the server-wide
    options always return. On success, and when only the reload failed,
    exactly the managed file has the new text. When the request is
    refused, or the merged configuration is refused by testparm, every
    file is as it was, unless the call that puts the managed file back
    fails itself; then, and after a failed write, no other file has
    changed. *)
Theorem samba_changes_are_transactions m s o :
  changes (filePath m (Name s)) (renderShareConf s) (CreateShare m s) /\
  changes (filePath m (Name s)) (renderShareConf s) (UpdateShare m s) /\
  changes (globalsFilePath m) (renderGlobalsConf (applyGlobalsDefaults o)) (SetGlobals m o).
Proof.
  destruct (share_changes m s) as [H1 H2]. split_and!; [done|done|].
  unfold SetGlobals. cbv zeta. destruct (validateGlobals _) as [u|e] eqn:Ev.
  - apply (checked_change m). intros [d| |]; eauto 10.
  - by eapply early_changes, validateGlobals_early.
Qed.

(** A share that was created or updated without an error, or with only
    the reload failing, reads back as it was requested, provided its path,
    comment and vetoed names carry no white space at their ends. *)
Theorem share_reads_back m s w w' w'' r got :
  CreateShare m s w = (w', Some r) \/ UpdateShare m s w = (w', Some r) ->
  r = None \/ (exists e, r = Some (ReloadFailed e)) -> readable s ->
  GetShare m (Name s) w' = (w'', Some got) -> got = Err ReadErr \/ got = Ok s.
Proof.
  intros Hop Hr Hread.
  assert (Hv : validateShare s = Ok tt).
  { unfold CreateShare, UpdateShare in Hop. destruct (validateShare s) as [[]|e] eqn:Ev; [done|]. exfalso.
    apply validateShare_early in Ev. unfold ret in Hop.
    destruct Hop as [[= _ <-]|[= _ <-]]; destruct Hr as [?|[? [= ->]]]; done. }
  assert (Hf : files w' !! filePath m (Name s) = Some (renderShareConf s)).
  { destruct (share_changes m s) as [H1 H2]. assert (transaction (filePath m (Name s)) (renderShareConf s) w w' r) as Ht.
    { destruct Hop as [Hop|Hop]; [destruct (H1 w) as (? & ? & E & ?)|destruct (H2 w) as (? & ? & E & ?)]; congruence. }
    destruct Hr as [-> |[e ->]]; cbn [transaction] in Ht; by rewrite Ht, lookup_insert_eq. }
  unfold GetShare. pose proof (vp_name _ (validateShare_parts _ Hv)) as ->.
  unfold bind, call, ret. destruct (fw_ReadFile _ w') as [w1 r1] eqn:Er. apply read_law in Er as [_ Er].
  intros [= _ <-]. destruct r1 as [d| |]; [|congruence|by left]. right. rewrite Hf in Er. injection Er as <-.
  rewrite share_parse_render by done. by destruct s.
Qed.
End Files.

(** ** A concrete host whose testparm refuses everything *)

Definition bad_config : HostError := mkHostError #"/usr/bin/testparm" 1 #"ERROR" [].

#[local] Instance refusing_exec : HostExec (gmap gostr gostr) := {|
  Run b _ w := (w, if str_eqb b #"/usr/bin/testparm" then Err bad_config else Ok []);
  RunStdin _ _ _ w := (w, Ok []); RunStream _ _ _ _ w := (w, None) |}.
#[local] Instance map_files : FileWriter (gmap gostr gostr) := map_writer id (fun m _ => m).
#[local] Instance map_laws : FileLaws (gmap gostr gostr) id := map_writer_laws id (fun m _ => m) (fun _ _ => eq_refl).

Lemma refusing_run (b : gostr) (args : list gostr) (w : gmap gostr gostr) : id (Run b args w).1 = id w.
Proof. done. Qed.

Definition demo_manager : Manager := mkManager [] [] [] [] [] [].
Definition demo_share : Share :=
  mkShare #"media" #"/mnt/tank/media" #"films and music" true true false false [ #"ada"; #"bob"] [ #"ada"] [] #"0640" []
    [ #".DS_Store"; #"Thumbs.db"].
Definition demo_path : gostr := #"/etc/samba/smb.conf.d/nova-nas-media.conf".
Definition demo_before : gmap gostr gostr := {[ demo_path := #"[media]" ]}.

Lemma samba_changes_are_transactions_witness :
  UpdateShare demo_manager demo_share demo_before = (demo_before, Some (Some (TestparmFailed bad_config))) /\
  changes id demo_path (renderShareConf demo_share) (UpdateShare demo_manager demo_share).
Proof.
  split; [vm_compute; reflexivity|].
  apply (samba_changes_are_transactions id refusing_run demo_manager demo_share emptyGlobals).
Defined.

Section Healthy.
#[local] Instance healthy_exec : HostExec (gmap gostr gostr) := {|
  Run _ _ w := (w, Ok []); RunStdin _ _ _ w := (w, Ok []); RunStream _ _ _ _ w := (w, None) |}.

Lemma healthy_run (b : gostr) (args : list gostr) (w : gmap gostr gostr) : id (Run b args w).1 = id w.
Proof. done. Qed.

Definition demo_after : gmap gostr gostr := {[ demo_path := renderShareConf demo_share ]}.

Lemma smb_demo_created : CreateShare demo_manager demo_share ∅ = (demo_after, Some None).
Proof. vm_compute. reflexivity. Qed.

Lemma demo_readable : readable demo_share.
Proof.
  split; [by vm_compute|]. split; [by vm_compute|]. split; [by repeat constructor|].
  assert (Forall (fun kv => (length (setting_line kv) <= 200)%nat) (share_settings demo_share)) as Hl by by_dec.
  eapply Forall_impl; [exact Hl|]. intros kv Hkv. cbv beta in *. unfold max_line. lia.
Qed.

Lemma share_reads_back_witness : exists got,
  GetShare demo_manager #"media" demo_after = (demo_after, Some got) /\ (got = Err ReadErr \/ got = Ok demo_share).
Proof.
  eexists. split; [reflexivity|].
  apply (share_reads_back id healthy_run demo_manager demo_share ∅ demo_after demo_after None);
    [left; exact smb_demo_created|by left|exact demo_readable|reflexivity].
Defined.
End Healthy.

(** ** What smbd makes of a section

    smb.conf(5): "writable", "writeable" and "write ok" are inverted
    synonyms of "read only", and of several settings of one parameter the
    last one counts. *)

Definition access_key (k : gostr) : bool := one_of k [ #"writable"; #"writeable"; #"write ok"; #"read only"].

Section Smbd.
Context (smbd_read_only : list (gostr * gostr) -> bool).
Context (last_counts : forall before v after,
  forallb (fun kv => negb (access_key kv.1)) after = true ->
  smbd_read_only (before ++ (#"read only", v) :: after) = parseBool v).

(** Whether clients may write to a share is decided by its ReadOnly
    field alone: the Writable field, which is printed before it, has no
    effect. *)
Theorem writable_has_no_effect s : smbd_read_only (share_settings s) = ReadOnly s.
Proof.
  unfold share_settings. set (after := unless (is_empty (ValidUsers s)) _ ++ _).
  transitivity (smbd_read_only ((((#"path", Path s) :: unless (is_empty (Comment s)) [(#"comment", Comment s)]) ++
    [(#"browseable", yesno (Browseable s)); (#"writable", yesno (Writable s)); (#"guest ok", yesno (GuestOK s))]) ++
    (#"read only", yesno (ReadOnly s)) :: after)).
  { f_equal. by rewrite <- !app_assoc. }
  rewrite last_counts; [apply bool_read|].
  unfold after. rewrite !forallb_app, !andb_true_iff.
  repeat split; match goal with |- context [is_empty ?x] => by destruct x end.
Qed.
End Smbd.

(** A reader that follows the manual. *)
Definition last_access (kvs : list (gostr * gostr)) : bool :=
  fold_left (fun acc kv => if str_eqb kv.1 #"read only" then parseBool kv.2
                           else if access_key kv.1 then negb (parseBool kv.2) else acc) kvs true.

Lemma last_access_counts before v after : forallb (fun kv => negb (access_key kv.1)) after = true ->
  last_access (before ++ (#"read only", v) :: after) = parseBool v.
Proof.
  intros Ha. unfold last_access. rewrite fold_left_app. cbn [fold_left fst snd]. rewrite str_eqb_refl.
  generalize (parseBool v). induction after as [|[k u] after IH]; intros b; [done|]. cbn [forallb fst] in Ha.
  apply andb_true_iff in Ha as [Hk Ha]. apply negb_true_iff in Hk. cbn [fold_left fst snd]. rewrite Hk.
  assert (str_eqb k #"read only" = false) as ->; [|by apply IH].
  apply str_eqb_neq. intros ->. done.
Qed.

Definition locked_share : Share := mkShare #"s" #"/s" [] true false false false [] [] [] [] [] [].

Lemma writable_has_no_effect_witness : Writable locked_share = false /\ last_access (share_settings locked_share) = false.
Proof. split; [reflexivity|]. exact (writable_has_no_effect last_access last_access_counts locked_share). Defined.
