(* ===== verification/ProtocolShare.v ===== *)
(** * internal/host/protocolshare: one folder over NFS and SMB

    A share is a dataset with an NFS export and a samba share.  The manager
    is written against the operations of the three managers below it, an
    interface that the models of those managers implement. *)

From S2P Require Import Prelude GoStrings GoPath Effects ZfsNames HostExec ZfsDataset NfsAcl HostFiles NfsExports Samba.

Module Shares.

(** DatasetMgr, NFSMgr and SambaMgr. *)
Class Managers (W : Type) := {
  ds_Create : Datasets.CreateSpec -> M W (option Datasets.ds_err);
  ds_SetProps : gostr -> gmap gostr gostr -> M W (option Datasets.ds_err);
  ds_Destroy : gostr -> bool -> M W (option Datasets.ds_err);
  ds_Get : gostr -> M W (res Datasets.ds_err Datasets.Detail);
  ds_SetACL : gostr -> list Acl.ACE -> M W (option Acl.acl_err);
  ds_GetACL : gostr -> M W (res Acl.acl_err (list Acl.ACE));
  nfs_CreateExport : Nfs.Export -> M W (option Nfs.nfs_err);
  nfs_UpdateExport : Nfs.Export -> M W (option Nfs.nfs_err);
  nfs_DeleteExport : gostr -> M W (option Nfs.nfs_err);
  smb_CreateShare : Smb.Share -> M W (option Smb.smb_err);
  smb_UpdateShare : Smb.Share -> M W (option Smb.smb_err);
  smb_DeleteShare : gostr -> M W (option Smb.smb_err);
  smb_SetGlobals : SmbGlobals.GlobalsOpts -> M W (option Smb.smb_err) }.

(** The managers of the host. *)
Definition host_managers {W} `{HostExec W, FileWriter W, Acl.TempFiles W} (zfs : gostr) (nm : Nfs.Manager) (sm : Smb.Manager) :
  Managers W := {|
  ds_Create := Datasets.Create zfs; ds_SetProps := Datasets.SetProps zfs; ds_Destroy := Datasets.Destroy zfs;
  ds_Get := Datasets.Get zfs; ds_SetACL := Acl.SetACL; ds_GetACL := Acl.GetACL;
  nfs_CreateExport := Nfs.CreateExport nm; nfs_UpdateExport := Nfs.UpdateExport nm; nfs_DeleteExport := Nfs.DeleteExport nm;
  smb_CreateShare := Smb.CreateShare sm; smb_UpdateShare := Smb.UpdateShare sm; smb_DeleteShare := Smb.DeleteShare sm;
  smb_SetGlobals := SmbGlobals.SetGlobals sm |}.

Definition ProtocolNFS : gostr := #"nfs".
Definition ProtocolSMB : gostr := #"smb".

Record SMBOpts := mkSMBOpts {
  Comment : gostr; Browseable : bool; GuestOK : bool; ValidUsers : list gostr; WriteList : list gostr }.

(** The NFS options are their client rules. *)
Record ProtocolShare := mkShare {
  Name : gostr; Pool : gostr; DatasetName : gostr; Protocols : list gostr; ACLs : list Acl.ACE;
  QuotaBytes : Z; NFS : option (list Nfs.ClientRule); SMB : option SMBOpts }.

Record ProtocolStatus := mkStatus { psProtocol : gostr; psActive : bool; psDetail : gostr }.
Record Detail := mkDetail { dShare : ProtocolShare; dPath : gostr; dACL : list Acl.ACE; dProtocols : list ProtocolStatus }.

Record Manager := mkManager {
  PathPrefix : gostr; NFSExportsDir : gostr; SambaConfigDir : gostr; NFSFilePrefix : gostr; SMBFilePrefix : gostr }.

Inductive share_err :=
| BadName (e : name_fault) | PoolRequired | DatasetNameRequired | PoolAndDatasetRequired | NoProtocol | BadProtocol (p : gostr)
| CreateDataset (e : Datasets.ds_err) | GetDataset (e : Datasets.ds_err) | SetDatasetProps (e : Datasets.ds_err)
| DestroyDataset (e : Datasets.ds_err) | SetAcl (e : Acl.acl_err) | GetAcl (e : Acl.acl_err)
| CreateNfs (e : Nfs.nfs_err) | UpdateNfs (e : Nfs.nfs_err) | DeleteNfs (e : Nfs.nfs_err)
| CreateSmb (e : Smb.smb_err) | UpdateSmb (e : Smb.smb_err) | DeleteSmb (e : Smb.smb_err)
| Joined (es : list share_err).

(** ** Helpers *)

Definition path (m : Manager) (s : ProtocolShare) : gostr := PathPrefix m ++ #"/" ++ Pool s ++ #"/" ++ DatasetName s.
Definition datasetFullName (s : ProtocolShare) : gostr := Pool s ++ #"/" ++ DatasetName s.

Definition or_default (v d : gostr) : gostr := if str_eqb v [] then d else v.
Definition nfsExportsDir (m : Manager) : gostr := or_default (NFSExportsDir m) #"/etc/exports.d".
Definition sambaConfigDir (m : Manager) : gostr := or_default (SambaConfigDir m) #"/etc/samba/smb.conf.d".
Definition nfsFilePrefix (m : Manager) : gostr := or_default (NFSFilePrefix m) #"nova-nas-".
Definition smbFilePrefix (m : Manager) : gostr := or_default (SMBFilePrefix m) #"nova-nas-".

Definition validateName (name : gostr) : res share_err unit :=
  match check_file_name name with Ok _ => Ok tt | Err e => Err (BadName e) end.

Fixpoint check_protocols (ps : list gostr) : res share_err unit :=
  match ps with
  | [] => Ok tt
  | p :: ps' => ensure str_eqb p ProtocolNFS || str_eqb p ProtocolSMB else BadProtocol p ;; check_protocols ps'
  end.

Definition validateProtocols (ps : list gostr) : res share_err unit :=
  ensure negb (length ps =? 0)%nat else NoProtocol ;; check_protocols ps.

Definition hasProtocol (ps : list gostr) (want : gostr) : bool := existsb (fun p => str_eqb p want) ps.

Definition validateShare (s : ProtocolShare) : res share_err unit :=
  let? _ := validateName (Name s) in
  ensure negb (str_eqb (Pool s) []) else PoolRequired ;;
  ensure negb (str_eqb (DatasetName s) []) else DatasetNameRequired ;;
  validateProtocols (Protocols s).

Definition managedZFSProps : gmap gostr gostr := list_to_map
  [(#"acltype", #"nfsv4"); (#"aclmode", #"passthrough"); (#"aclinherit", #"passthrough"); (#"xattr", #"sa");
   (#"casesensitivity", #"mixed"); (#"utf8only", #"on"); (#"normalization", #"formD")].

(** The managed properties, with the quota when one is asked for. *)
Definition share_props (s : ProtocolShare) : gmap gostr gostr :=
  if QuotaBytes s =? 0 then managedZFSProps else <[ #"quota" := print_uint (QuotaBytes s)]> managedZFSProps.

Definition buildCreateSpec (s : ProtocolShare) : Datasets.CreateSpec :=
  Datasets.mkCreateSpec (Pool s) (DatasetName s) #"filesystem" 0 (share_props s) false [].

Definition nfsExportFor (m : Manager) (s : ProtocolShare) : Nfs.Export :=
  Nfs.mkExport (Name s) (path m s) (default [] (NFS s)).

Definition sambaShareFor (m : Manager) (s : ProtocolShare) : Smb.Share :=
  match SMB s with
  | None => Smb.mkShare (Name s) (path m s) [] true true false false [] [] [] [] [] []
  | Some o => Smb.mkShare (Name s) (path m s) (Comment o) (Browseable o) true (GuestOK o) false
                (ValidUsers o) (WriteList o) [] [] [] []
  end.

Definition wants_nfs (s : ProtocolShare) : bool := hasProtocol (Protocols s) ProtocolNFS && bool_decide (is_Some (NFS s)).
Definition wants_smb (s : ProtocolShare) : bool := hasProtocol (Protocols s) ProtocolSMB && bool_decide (is_Some (SMB s)).

(** ** Operations *)

Section Operations.
Context {W : Type} `{Managers W} (m : Manager).

(** Run a step unless it is not wanted. *)
Definition step_if {E} (b : bool) (c : M W (option E)) : M W (option E) := if b then c else ret None.

(** The calls that undo a creation: the export when there is one, then the
    dataset; their errors are dropped. *)
Definition undo (share : ProtocolShare) (nfsCreated : bool) : M W unit :=
  let! _ := step_if nfsCreated (nfs_DeleteExport (Name share)) in
  let! _ := ds_Destroy (datasetFullName share) false in
  ret tt.

Definition Create (share : ProtocolShare) : M W (option share_err) :=
  match validateShare share with
  | Err e => ret (Some e)
  | Ok _ =>
      let! c := ds_Create (buildCreateSpec share) in
      match c with
      | Some e => ret (Some (CreateDataset e))
      | None =>
          let! a := step_if (negb (length (ACLs share) =? 0)%nat) (ds_SetACL (path m share) (ACLs share)) in
          match a with
          | Some e => let! _ := undo share false in ret (Some (SetAcl e))
          | None =>
              let! n := step_if (wants_nfs share) (nfs_CreateExport (nfsExportFor m share)) in
              match n with
              | Some e => let! _ := undo share false in ret (Some (CreateNfs e))
              | None =>
                  let! s := step_if (wants_smb share) (smb_CreateShare (sambaShareFor m share)) in
                  match s with
                  | Some e => let! _ := undo share (wants_nfs share) in ret (Some (CreateSmb e))
                  | None => ret None
                  end
              end
          end
      end
  end.

(** Create the dataset, or set its properties when it exists. *)
Definition ensure_dataset (share : ProtocolShare) : M W (option share_err) :=
  let! g := ds_Get (datasetFullName share) in
  match g with
  | Err Datasets.ErrNotFound =>
      let! c := ds_Create (buildCreateSpec share) in
      ret (option_map CreateDataset c)
  | Err e => ret (Some (GetDataset e))
  | Ok _ =>
      let! p := ds_SetProps (datasetFullName share) (share_props share) in
      ret (option_map SetDatasetProps p)
  end.

Definition ensure_export (share : ProtocolShare) : M W (option share_err) :=
  let! u := nfs_UpdateExport (nfsExportFor m share) in
  match u with
  | None => ret None
  | Some Nfs.ErrNotFound => let! c := nfs_CreateExport (nfsExportFor m share) in ret (option_map CreateNfs c)
  | Some e => ret (Some (UpdateNfs e))
  end.

Definition ensure_smb (share : ProtocolShare) : M W (option share_err) :=
  let! u := smb_UpdateShare (sambaShareFor m share) in
  match u with
  | None => ret None
  | Some Smb.ErrNotFound => let! c := smb_CreateShare (sambaShareFor m share) in ret (option_map CreateSmb c)
  | Some e => ret (Some (UpdateSmb e))
  end.

Definition Update (share : ProtocolShare) : M W (option share_err) :=
  match validateShare share with
  | Err e => ret (Some e)
  | Ok _ =>
      let! d := ensure_dataset share in
      match d with
      | Some e => ret (Some e)
      | None =>
          let! a := step_if (negb (length (ACLs share) =? 0)%nat) (ds_SetACL (path m share) (ACLs share)) in
          match a with
          | Some e => ret (Some (SetAcl e))
          | None =>
              let! n := step_if (wants_nfs share) (ensure_export share) in
              match n with
              | Some e => ret (Some e)
              | None => step_if (wants_smb share) (ensure_smb share)
              end
          end
      end
  end.

(** Nothing, the only error, or all of them joined. *)
Definition join_errors (errs : list share_err) : option share_err :=
  match errs with [] => None | [e] => Some e | es => Some (Joined es) end.

Definition smb_errors (r : option Smb.smb_err) : list share_err :=
  match r with None | Some Smb.ErrNotFound => [] | Some e => [DeleteSmb e] end.
Definition nfs_errors (r : option Nfs.nfs_err) : list share_err :=
  match r with None | Some Nfs.ErrNotFound => [] | Some e => [DeleteNfs e] end.
Definition dataset_errors (r : option Datasets.ds_err) : list share_err :=
  match r with None | Some Datasets.ErrNotFound => [] | Some e => [DestroyDataset e] end.

Definition Delete (name : gostr) : M W (option share_err) :=
  match validateName name with
  | Err e => ret (Some e)
  | Ok _ =>
      let! s := smb_DeleteShare name in
      let! n := nfs_DeleteExport name in
      ret (join_errors (smb_errors s ++ nfs_errors n))
  end.

Definition located (share : ProtocolShare) : bool := negb (str_eqb (Pool share) [] || str_eqb (DatasetName share) []).

Definition DeleteShare (share : ProtocolShare) : M W (option share_err) :=
  match validateName (Name share) with
  | Err e => ret (Some e)
  | Ok _ =>
      if negb (located share) then ret (Some PoolAndDatasetRequired)
      else
        let! s := smb_DeleteShare (Name share) in
        let! n := nfs_DeleteExport (Name share) in
        let! d := ds_Destroy (datasetFullName share) false in
        ret (join_errors (smb_errors s ++ nfs_errors n ++ dataset_errors d))
  end.

(** os.Stat: does it exist, is it missing, or can it not be told. *)
Context (Stat : gostr -> W -> W * option bool).

Definition fileExists (p : gostr) : M W bool :=
  let! r := call (Stat p) in ret (match r with Some b => b | None => true end).

Definition Get (share : ProtocolShare) : M W (res share_err Detail) :=
  match validateName (Name share) with
  | Err e => ret (Err e)
  | Ok _ =>
      if negb (located share) then ret (Err PoolAndDatasetRequired)
      else
        let! g := ds_Get (datasetFullName share) in
        match g with
        | Err e => ret (Err (GetDataset e))
        | Ok _ =>
            let! a := ds_GetACL (path m share) in
            match a with
            | Err e => ret (Err (GetAcl e))
            | Ok acl =>
                let nfsFile := Join [nfsExportsDir m; nfsFilePrefix m ++ Name share ++ Nfs.suffix] in
                let smbFile := Join [sambaConfigDir m; smbFilePrefix m ++ Name share ++ Smb.suffix] in
                let! nfsActive := fileExists nfsFile in
                let! smbActive := fileExists smbFile in
                ret (Ok (mkDetail share (path m share) acl
                           [mkStatus ProtocolNFS nfsActive nfsFile; mkStatus ProtocolSMB smbActive smbFile]))
            end
        end
  end.

Context `{FileWriter W}.

(** The managed names among the entries of a directory. *)
Definition managed_names (prefix suffix : gostr) (entries : list (gostr * bool)) : list gostr :=
  omap (fun e : gostr * bool =>
          if e.2 then None
          else match managed_name prefix suffix e.1 with
               | Some n => if is_ok (validateName n) then Some n else None
               | None => None
               end) entries.

(** Go's map from names to what was seen of them, and one share for each of
    its entries, in no particular order. *)
Definition mark (f : bool * bool -> bool * bool) (all : gmap gostr (bool * bool)) (n : gostr) : gmap gostr (bool * bool) :=
  <[n := f (default (false, false) (all !! n))]> all.

Definition listed (n : gostr) (s : bool * bool) : ProtocolShare :=
  mkShare n [] [] (flag s.1 ProtocolNFS ++ flag s.2 ProtocolSMB) [] 0 None None.

Definition List_ : M W (list ProtocolShare) :=
  let! nd := call (fw_ReadDir (nfsExportsDir m)) in
  let! sd := call (fw_ReadDir (sambaConfigDir m)) in
  let all := fold_left (mark (fun s => (true, s.2))) (managed_names (nfsFilePrefix m) Nfs.suffix (default [] nd)) ∅ in
  let all := fold_left (mark (fun s => (s.1, true))) (managed_names (smbFilePrefix m) Smb.suffix (default [] sd)) all in
  ret (map (fun p => listed p.1 p.2) (map_to_list all)).

Definition InitGlobals (opts : SmbGlobals.GlobalsOpts) : M W (option Smb.smb_err) := smb_SetGlobals opts.
End Operations.
End Shares.
