(* ===== verification/ProtocolShareCorrect.v ===== *)
(** * Creating a share: its calls, and what undoes them

    Proved over arbitrary managers: which calls Create makes, in which
    order, and how it rolls back.  What a rollback of these calls misses on
    the managers of the host is proved of the composition with them. *)

From S2P Require Import Prelude GoStrings GoPath GoNet SortLib Effects ZfsNames HostExec ZfsDataset NfsAcl HostFiles NfsExports NfsExportsCorrect Samba SambaCorrect SambaFiles ProtocolShare.
Import Shares.

#[local] Arguments str : simpl never.

(** ** The calls of a manager, and whether they succeeded *)

Inductive share_call :=
| CallCreate (spec : Datasets.CreateSpec)
| CallSetACL (p : gostr) (l : list Acl.ACE)
| CallExport (e : Nfs.Export)
| CallShare (s : Smb.Share)
| CallDeleteExport (n : gostr)
| CallDestroy (n : gostr) (recursive : bool)
| CallOther.

Abbreviation trace := (list (share_call * bool)).

Definition logged {W A} (k : share_call) (good : A -> bool) (c : M W A) : M (W * trace) A := fun wl =>
  let '(w', r) := c wl.1 in ((w', wl.2 ++ [(k, match r with Some a => good a | None => false end)]), r).

Definition no_error {E} (r : option E) : bool := match r with None => true | Some _ => false end.

(** The same managers, with every call noted down. *)
Definition recording (W : Type) `{Managers W} : Managers (W * trace) := {|
  ds_Create spec := logged (CallCreate spec) no_error (ds_Create spec);
  ds_SetProps n ps := logged CallOther no_error (ds_SetProps n ps);
  ds_Destroy n r := logged (CallDestroy n r) no_error (ds_Destroy n r);
  ds_Get n := logged CallOther is_ok (ds_Get n);
  ds_SetACL p l := logged (CallSetACL p l) no_error (ds_SetACL p l);
  ds_GetACL p := logged CallOther is_ok (ds_GetACL p);
  nfs_CreateExport e := logged (CallExport e) no_error (nfs_CreateExport e);
  nfs_UpdateExport e := logged CallOther no_error (nfs_UpdateExport e);
  nfs_DeleteExport n := logged (CallDeleteExport n) no_error (nfs_DeleteExport n);
  smb_CreateShare s := logged (CallShare s) no_error (smb_CreateShare s);
  smb_UpdateShare s := logged CallOther no_error (smb_UpdateShare s);
  smb_DeleteShare n := logged CallOther no_error (smb_DeleteShare n);
  smb_SetGlobals o := logged CallOther no_error (smb_SetGlobals o) |}.

(** The calls that a request asks for: the dataset, its access list, its
    export and its samba share. *)
Definition wanted (m : Manager) (s : ProtocolShare) : list share_call :=
  CallCreate (buildCreateSpec s)
  :: (match ACLs s with [] => [] | l => [CallSetACL (path m s) l] end)
  ++ (if wants_nfs s then [CallExport (nfsExportFor m s)] else [])
  ++ (if wants_smb s then [CallShare (sambaShareFor m s)] else []).

(** The call that takes back what a call has created. *)
Definition undoing (s : ProtocolShare) (c : share_call) : option share_call :=
  match c with
  | CallCreate spec => Some (CallDestroy (Datasets.full_name spec) false)
  | CallExport e => Some (CallDeleteExport (Nfs.Name e))
  | _ => None
  end.

(** The error of a request says which call failed. *)
Definition error_of (c : share_call) (e : share_err) : Prop :=
  match c, e with
  | CallCreate _, CreateDataset _ | CallSetACL _ _, SetAcl _ | CallExport _, CreateNfs _ | CallShare _, CreateSmb _ => True
  | _, _ => False
  end.

Section Calls.
Context {W : Type} `{Managers W} (m : Manager).

Record managers_return : Prop := {
  create_returns spec : returns (ds_Create spec);
  set_acl_returns p l : returns (ds_SetACL p l);
  destroy_returns n r : returns (ds_Destroy n r);
  export_returns e : returns (nfs_CreateExport e);
  delete_export_returns n : returns (nfs_DeleteExport n);
  share_returns s : returns (smb_CreateShare s) }.

Context (Hret : managers_return).
#[local] Existing Instance recording.

Lemma logged_run {A} k (good : A -> bool) (c : M W A) w l : returns c ->
  exists w' a, logged k good c (w, l) = ((w', l ++ [(k, good a)]), Some a).
Proof. intros Hc. unfold logged. cbn [fst snd]. destruct (Hc w) as (w' & a & ->). eauto. Qed.

Ltac logged_step :=
  match goal with |- context [logged ?k ?good ?c (?w, ?l)] =>
    let w' := fresh "w" in let a := fresh "a" in let E := fresh in
    destruct (logged_run k good c w l) as (w' & a & E); [destruct Hret; auto|rewrite E; clear E]
  end.

(** Undoing makes the calls that undo the export, when there is one, and
    the dataset, also when the first of them fails. *)
Lemma undo_calls s (nfs : bool) w l : exists w' undone, undo s nfs (w, l) = ((w', l ++ undone), Some tt) /\
  map fst undone = (if nfs then [CallDeleteExport (Name s)] else []) ++ [CallDestroy (datasetFullName s) false].
Proof.
  unfold undo, bind, ret. cbn [nfs_DeleteExport ds_Destroy recording].
  destruct nfs; cbn [step_if]; unfold ret; repeat logged_step; eexists _, _; rewrite <- ?(assoc_L app); by split.
Qed.

(** The trace of a request that was rolled back: the wanted calls up to the
    one that failed, then what undoes those before it, the last first. *)
Definition rolled_back (s : ProtocolShare) (l : trace) (e : share_err) : Prop :=
  exists done c rest undone, wanted m s = done ++ c :: rest /\
    l = map (., true) done ++ (c, false) :: undone /\
    map fst undone = omap (undoing s) (rev done) /\ error_of c e.

Lemma rollback s (nfs : bool) e done c rest w l : wanted m s = done ++ c :: rest -> error_of c e ->
  l = map (., true) done ++ [(c, false)] ->
  omap (undoing s) (rev done) = (if nfs then [CallDeleteExport (Name s)] else []) ++ [CallDestroy (datasetFullName s) false] ->
  exists w' l', (let! _ := undo s nfs in ret (Some e)) (w, l) = ((w', l'), Some (Some e)) /\ rolled_back s l' e.
Proof.
  intros Hw He -> Hu. unfold bind at 1. destruct (undo_calls s nfs w (map (., true) done ++ [(c, false)])) as (w' & undone & -> & Hf).
  eexists w', _. split; [done|]. exists done, c, rest, undone. rewrite Hu, <- (assoc_L app). done.
Qed.

(** What Create did, by its result. *)
Definition create_outcome (s : ProtocolShare) (l : trace) (r : option share_err) : Prop :=
  match r with
  | None => is_ok (validateShare s) = true /\ l = map (., true) (wanted m s)
  | Some e => validateShare s = Err e /\ l = [] \/ rolled_back s l e
  end.

Lemma call_samba s done w : wanted m s = done ++ (if wants_smb s then [CallShare (sambaShareFor m s)] else []) ->
  is_ok (validateShare s) = true ->
  omap (undoing s) (rev done) = (if wants_nfs s then [CallDeleteExport (Name s)] else []) ++ [CallDestroy (datasetFullName s) false] ->
  exists w' l r, (let! q := step_if (wants_smb s) (smb_CreateShare (sambaShareFor m s)) in
    match q with Some e => let! _ := undo s (wants_nfs s) in ret (Some (CreateSmb e)) | None => ret None end) (w, map (., true) done)
    = ((w', l), Some r) /\ create_outcome s l r.
Proof.
  intros Hw Hv Hu. unfold bind at 1. cbn [smb_CreateShare recording]. destruct (wants_smb s); cbn [step_if].
  - logged_step. destruct a as [e|]; cbn [no_error].
    + destruct (rollback s (wants_nfs s) (CreateSmb e) done (CallShare (sambaShareFor m s)) [] w0 _ Hw I eq_refl Hu) as (w' & l' & -> & Hr).
      exists w', l', (Some (CreateSmb e)). split; [done|by right].
    + eexists w0, _, None. split; [done|]. split; [done|]. by rewrite Hw, map_app.
  - eexists w, _, None. split; [done|]. split; [done|]. by rewrite Hw, app_nil_r.
Qed.

Lemma call_export s done w :
  wanted m s = done ++ (if wants_nfs s then [CallExport (nfsExportFor m s)] else []) ++ (if wants_smb s then [CallShare (sambaShareFor m s)] else []) ->
  is_ok (validateShare s) = true -> omap (undoing s) (rev done) = [CallDestroy (datasetFullName s) false] ->
  exists w' l r, (let! n := step_if (wants_nfs s) (nfs_CreateExport (nfsExportFor m s)) in
    match n with
    | Some e => let! _ := undo s false in ret (Some (CreateNfs e))
    | None =>
        let! q := step_if (wants_smb s) (smb_CreateShare (sambaShareFor m s)) in
        match q with Some e => let! _ := undo s (wants_nfs s) in ret (Some (CreateSmb e)) | None => ret None end
    end) (w, map (., true) done) = ((w', l), Some r) /\ create_outcome s l r.
Proof.
  intros Hw Hv Hu. unfold bind at 1. cbn [nfs_CreateExport recording]. destruct (wants_nfs s) eqn:En; cbn [step_if].
  - logged_step. destruct a as [e|]; cbn [no_error].
    + destruct (rollback s false (CreateNfs e) done (CallExport (nfsExportFor m s)) _ w0 _ Hw I eq_refl Hu) as (w' & l' & -> & Hr).
      exists w', l', (Some (CreateNfs e)). split; [done|by right].
    + pose proof (call_samba s (done ++ [CallExport (nfsExportFor m s)]) w0) as Hs. rewrite En, map_app in Hs. apply Hs; [|done|].
      * by rewrite Hw, <- (assoc_L app).
      * rewrite rev_app_distr. cbn. by rewrite Hu.
  - pose proof (call_samba s done w) as Hs. rewrite En in Hs. apply Hs; [|done|done]. by rewrite Hw.
Qed.

(** C23. Over any managers that return, Create makes the calls the
    request asks for in order, the dataset, its access list, its NFS
    export, its samba share, up to the first that fails; then it deletes
    the export and destroys the dataset, those that had been created and
    the last first, and returns the error of the call that failed. A
    refused request makes no call. (A call that fails after it changed
    something is not undone: failed_export_blocks_retry.) *)
Theorem share_creation_rolls_back s w : exists w' l r,
  Create m s (w, []) = ((w', l), Some r) /\ create_outcome s l r.
Proof.
  unfold Create. destruct (validateShare s) as [[]|e] eqn:Ev; [|by exists w, [], (Some e); split; [|left]].
  unfold bind at 1. cbn [ds_Create recording]. logged_step. destruct a as [e|]; cbn [no_error].
  { exists w0, [(CallCreate (buildCreateSpec s), false)], (Some (CreateDataset e)). split; [done|right].
    by eexists [], _, _, []. }
  unfold bind at 1. cbn [ds_SetACL recording]. destruct (ACLs s) as [|x l] eqn:Ea; cbn [length Nat.eqb negb step_if].
  - apply (call_export s [CallCreate (buildCreateSpec s)]); [|by rewrite Ev|done]. unfold wanted. by rewrite Ea.
  - logged_step. destruct a as [e|]; cbn [no_error].
    + edestruct (rollback s false (SetAcl e) [CallCreate (buildCreateSpec s)] (CallSetACL (path m s) (x :: l))) as (w' & l' & -> & Hr);
        [unfold wanted; rewrite Ea; done|done..|]. exists w', l', (Some (SetAcl e)). split; [done|by right].
    + apply (call_export s [CallCreate (buildCreateSpec s); CallSetACL (path m s) (x :: l)]); [|by rewrite Ev|done]. unfold wanted. by rewrite Ea.
Qed.
End Calls.

(** ** Over the managers of the host *)

Section Host.
Context {W : Type} `{HostExec W, FileWriter W, Acl.TempFiles W} (files : W -> gmap gostr gostr) `{!FileLaws W files}.
Context (zfs : gostr) (nm : Nfs.Manager) (sm : Smb.Manager) (m : Manager).
(** Commands and temporary files leave the managed files alone. *)
Context (run_files : forall b args w, files (Run b args w).1 = files w).
Context (create_temp_files : forall w, files (Acl.os_CreateTemp w).1 = files w)
        (temp_write_files : forall p d w, files (Acl.os_Write p d w).1 = files w)
        (close_files : forall p w, files (Acl.os_Close p w).1 = files w)
        (temp_remove_files : forall p w, files (Acl.os_Remove p w).1 = files w).

#[local] Instance host : Managers W := host_managers zfs nm sm.

Definition same_files (w w' : W) : Prop := files w' = files w.
#[local] Instance same_files_refl : Reflexive same_files.
Proof. done. Qed.
#[local] Instance same_files_trans : Transitive same_files.
Proof. intros a b c Hab Hbc. unfold same_files in *. congruence. Qed.

Lemma run_args_files args : respects same_files (Datasets.run_args zfs args).
Proof.
  unfold Datasets.run_args. destruct args; [|apply respects_ret; tc_solve]. apply respects_bind; [tc_solve| |intros; apply respects_ret; tc_solve].
  apply respects_call. intros w. apply run_files.
Qed.

Lemma set_acl_files p l : respects same_files (Acl.SetACL p l).
Proof.
  unfold Acl.SetACL, Acl.set_from. destruct (Acl.validatePath p); [|apply respects_ret; tc_solve].
  destruct (_ =? _)%nat; [apply respects_ret; tc_solve|]. destruct (Acl.acl_text 0 l); [|apply respects_ret; tc_solve].
  repeat first [ apply respects_bind; [tc_solve| |intros ?] | apply respects_ret; tc_solve
               | apply respects_call; intros w; first [apply run_files|apply create_temp_files|apply temp_write_files|apply close_files|apply temp_remove_files]
               | match goal with |- context [match ?x with _ => _ end] => destruct x end ].
Qed.

Lemma step_if_files {E} b (c : M W (option E)) : respects same_files c -> respects same_files (step_if b c).
Proof. intros Hc. destruct b; [done|]. apply respects_ret. tc_solve. Qed.

Lemma undo_files s w w' r : undo s false w = (w', r) -> files w' = files w.
Proof.
  apply (respects_run same_files). unfold undo. apply respects_bind; [tc_solve|by apply respects_ret; tc_solve|]. intros _.
  apply respects_bind; [tc_solve|apply run_args_files|]. intros _. apply respects_ret; tc_solve.
Qed.

(** The files when the export is created. *)
Lemma create_reaches_export s w w' r : Create m s w = (w', Some r) -> wants_nfs s = true ->
  (exists w2 w3 n, files w2 = files w /\ Nfs.CreateExport nm (nfsExportFor m s) w2 = (w3, Some n) /\
     match n with
     | Some e => r = Some (CreateNfs e) /\ files w' = files w3
     | None => forall e, r <> Some (CreateNfs e)
     end) \/
  (exists e, r = Some e /\ forall e', e <> CreateNfs e').
Proof.
  intros E Hn. revert E. unfold Create. destruct (validateShare s) as [[]|ve] eqn:Ev.
  2: { intros [= <- <-]. right. exists ve. split; [done|]. intros e' ->. unfold validateShare, validateName, validateProtocols in Ev.
       destruct (check_file_name _); [|done]. destruct (negb _); [|done]. destruct (negb _); [|done]. destruct (negb _); [|done].
       revert Ev. clear. induction (Protocols s) as [|p ps IH]; [done|]. cbn [check_protocols]. by destruct (_ || _). }
  unfold bind at 1. destruct (ds_Create _ w) as [w1 [c|]] eqn:Ec; [|done].
  apply (respects_run same_files _ _ _ _ (run_args_files _)) in Ec. destruct c as [e|]; [intros [= <- <-]; right; eauto|].
  unfold bind at 1. destruct (step_if _ (ds_SetACL _ _) w1) as [w2 [a|]] eqn:Ea; [|done].
  apply (respects_run same_files _ _ _ _ (step_if_files _ _ (set_acl_files _ _))) in Ea.
  destruct a as [e|].
  { unfold bind at 1. destruct (undo s false w2) as [w3 [u|]] eqn:Eu; [|done]. intros [= <- <-]. right. eauto. }
  rewrite Hn. cbn [step_if]. unfold bind at 1. destruct (nfs_CreateExport _ w2) as [w3 [n|]] eqn:En; [|done].
  intros E. left. exists w2, w3, n. split; [congruence|]. split; [exact En|]. destruct n as [e|]; revert E.
  - unfold bind at 1. destruct (undo s false w3) as [w4 [u|]] eqn:Eu; [|done]. intros [= <- <-].
    split; [done|]. by eapply undo_files.
  - unfold bind at 1. destruct (step_if (wants_smb s) _ w3) as [w4 [[q|]|]]; [|by intros [= <- <-]|done].
    unfold bind at 1. destruct (undo s true w4) as [w5 [u|]]; [|done]. by intros [= <- <-].
Qed.

(** When a share's export was written but exportfs then failed, Create
    reports the error and destroys the dataset but leaves the export file;
    as long as that file is there, no later Create of the same share
    succeeds. *)
Theorem failed_export_blocks_retry s w w' err : wants_nfs s = true ->
  Create m s w = (w', Some (Some (CreateNfs (Nfs.Exportfs err)))) ->
  files w' !! Nfs.filePath nm (Name s) = Some (Nfs.renderExportFile (Nfs.applyKerberosDefault nm (nfsExportFor m s))) /\
  forall w1 w2 r, files w1 = files w' -> Create m s w1 = (w2, Some r) -> r <> None.
Proof.
  intros Hn E. apply create_reaches_export in E; [|done].
  destruct E as [(w2 & w3 & n & Hf & Ee & Hr)|(e & [= <-] & Hne)]; [|by destruct (Hne (Nfs.Exportfs err))].
  assert (Hin : files w' !! Nfs.filePath nm (Name s) = Some (Nfs.renderExportFile (Nfs.applyKerberosDefault nm (nfsExportFor m s)))).
  { destruct n as [e|]; [|by destruct (Hr (Nfs.Exportfs err))].
    destruct Hr as [[= <-] ->]. by apply (failed_create_stays files run_files) in Ee. }
  split; [done|]. intros u1 u2 r Hu E. apply create_reaches_export in E; [|done].
  destruct E as [(u3 & u4 & n' & Hf' & Ee' & Hr')|(e & -> & _)]; [|done].
  destruct n' as [e|]; [by destruct Hr' as [-> _]|]. exfalso.
  apply (create_exported files run_files) in Ee' as [_ Hnone]. rewrite Hf', Hu in Hnone.
  change (Nfs.Name (nfsExportFor m s)) with (Name s) in Hnone. congruence.
Qed.

Lemma set_props_fails name props k keys w : k ∈ keys ->
  (forall w, exists e, (Run zfs [ #"set"; k ++ #"=" ++ prop_value props k; name] w).2 = Err e) ->
  exists w' e, Datasets.set_props zfs name props keys w = (w', Some (Some e)).
Proof.
  intros Hin Hfail. revert w. induction keys as [|k' keys IH]; intros w; [by apply elem_of_nil in Hin|].
  cbn [Datasets.set_props]. unfold bind at 1, call at 1.
  destruct (decide (k' = k)) as [->|Hne].
  - destruct (Hfail w) as [e He]. destruct (Run zfs _ w) as [w1 r]. cbn in He. subst r. by eexists _, _.
  - destruct (Run zfs _ w) as [w1 [o|e]]; [|by eexists _, _]. apply IH. apply elem_of_cons in Hin as [->|]; done.
Qed.

Lemma share_props_case s : is_Some (share_props s !! #"casesensitivity").
Proof.
  unfold share_props. destruct (QuotaBytes s =? 0); [eexists; vm_compute; reflexivity|]. rewrite lookup_insert_ne by by_dec. eexists; vm_compute; reflexivity.
Qed.

(** zfsprops(7): casesensitivity cannot be changed after the file system is
    created. *)
Context (fixed_at_creation : forall v ds w, exists e, (Run zfs [ #"set"; #"casesensitivity=" ++ v; ds] w).2 = Err e).

(** Updating a share whose dataset exists never succeeds: Update sets the
    managed properties again, and one of them cannot be set after the
    dataset was created, so neither the access list nor the export nor the
    samba share is updated. *)
Theorem update_of_existing_share_fails s w w1 d : validateShare s = Ok tt ->
  Datasets.Get zfs (datasetFullName s) w = (w1, Some (Ok d)) ->
  exists w' e, Update m s w = (w', Some (Some (SetDatasetProps e))).
Proof.
  intros Hv Hg. unfold Update. rewrite Hv. unfold bind at 1, ensure_dataset. unfold bind at 1.
  change (ds_Get (datasetFullName s) w) with (Datasets.Get zfs (datasetFullName s) w). rewrite Hg. unfold bind at 1.
  assert (Hp : exists w' e, ds_SetProps (datasetFullName s) (share_props s) w1 = (w', Some (Some e))).
  { change (ds_SetProps (datasetFullName s) (share_props s)) with (Datasets.SetProps zfs (datasetFullName s) (share_props s)).
    unfold Datasets.SetProps. destruct (Names.ValidateDatasetName _); [|by eexists _, _].
    apply (set_props_fails _ _ #"casesensitivity").
    - unfold sorted_keys. rewrite stable_sort_perm, elem_of_elements, elem_of_dom. apply share_props_case.
    - intros w2. apply fixed_at_creation. }
  destruct Hp as (w2 & e & ->). by eexists _, _.
Qed.
End Host.

(** ** The managers of a host always return *)

Lemma host_managers_return {W} `{HostExec W, FileWriter W, Acl.TempFiles W} zfs nm sm :
  managers_return (H := host_managers zfs nm sm).
Proof.
  constructor; cbn [ds_Create ds_SetACL ds_Destroy nfs_CreateExport nfs_DeleteExport smb_CreateShare host_managers];
    unfold Datasets.Create, Datasets.Destroy, Datasets.run_args, Acl.SetACL, Acl.set_from, Nfs.CreateExport, Nfs.DeleteExport,
      Nfs.write_and_reload, Nfs.Reload, Smb.CreateShare, Smb.write_checked, Smb.testparm, Smb.restore, Smb.reload; intros; cbv zeta;
    repeat first [ apply returns_ret | apply returns_call | apply returns_bind; [|intros ?]
                 | match goal with |- context [match ?x with _ => _ end] => destruct x end ].
Qed.

(** ** A concrete host *)

Section Concrete.
Definition no_exports : HostError := mkHostError #"/usr/sbin/exportfs" 1 #"exportfs: cannot reload" [].
Definition read_only_prop : HostError := mkHostError #"zfs" 1 #"'casesensitivity' is readonly" [].
Definition tab : gostr := [byte_of 9].
Definition media_row : gostr :=
  join_with (byte_of 9) [ #"tank/media"; #"filesystem"; #"1"; #"2"; #"3"; #"/tank/media"; #"lz4"; #"131072"].

(** exportfs fails, and so does setting a property fixed at creation. *)
#[local] Instance broken_exec : HostExec (gmap gostr gostr) := {|
  Run b args w := (w,
    if str_eqb b #"/usr/sbin/exportfs" then Err no_exports
    else match args with
         | [verb; prop; _] =>
             if str_eqb verb #"set" && has_prefix prop #"casesensitivity=" then Err read_only_prop else Ok []
         | verb :: _ => if str_eqb verb #"list" then Ok media_row else Ok []
         | [] => Ok []
         end);
  RunStdin _ _ _ w := (w, Ok []); RunStream _ _ _ _ w := (w, None) |}.
#[local] Instance plain_files : FileWriter (gmap gostr gostr) := map_writer id (fun m _ => m).
#[local] Instance plain_laws : FileLaws (gmap gostr gostr) id := map_writer_laws id (fun m _ => m) (fun _ _ => eq_refl).
#[local] Instance plain_temp : Acl.TempFiles (gmap gostr gostr) := {|
  Acl.os_CreateTemp w := (w, Some #"/tmp/acl"); Acl.os_Write _ _ w := (w, true);
  Acl.os_Close _ w := (w, true); Acl.os_Remove _ w := (w, true) |}.

Definition plain_nfs : Nfs.Manager := Nfs.mkManager [] [] [] false.
Definition plain_smb : Smb.Manager := Smb.mkManager [] [] [] [] [] [].
#[local] Instance broken_host : Managers (gmap gostr gostr) := host_managers #"zfs" plain_nfs plain_smb.

Definition plain_manager : Manager := mkManager [] [] [] [] [].
Definition media : ProtocolShare :=
  mkShare #"media" #"tank" #"media" [ #"nfs"; #"smb"] [] 0
    (Some [Nfs.mkRule #"*" #"rw"]) (Some (mkSMBOpts [] true false [] [])).

(** exportfs fails: the dataset is destroyed again. *)
Definition media_trace : trace :=
  [(CallCreate (buildCreateSpec media), true); (CallExport (nfsExportFor plain_manager media), false);
   (CallDestroy #"tank/media" false, true)].

Lemma share_creation_rolls_back_witness : exists w' l r,
  Create (H := recording (gmap gostr gostr)) plain_manager media (∅, []) = ((w', l), Some r) /\
  create_outcome plain_manager media l r /\ l = media_trace.
Proof.
  destruct (share_creation_rolls_back plain_manager (host_managers_return #"zfs" plain_nfs plain_smb) media ∅) as (w' & l & r & E & Ho).
  exists w', l, r. split; [exact E|]. split; [exact Ho|].
  transitivity ((Create (H := recording (gmap gostr gostr)) plain_manager media (∅, [])).1.2);
    [symmetry; exact (f_equal (fun x => x.1.2) E)|vm_compute; reflexivity].
Defined.

Definition left_behind : gmap gostr gostr :=
  {[ #"/etc/exports.d/nova-nas-media.exports" := #"/tank/media *(rw)" ++ [byte_of 10] ]}.

Lemma broken_create : Create plain_manager media ∅ = (left_behind, Some (Some (CreateNfs (Nfs.Exportfs no_exports)))).
Proof. vm_compute. reflexivity. Qed.

Lemma broken_run (b : gostr) (args : list gostr) (w : gmap gostr gostr) : id (Run b args w).1 = id w.
Proof. done. Qed.

Lemma failed_export_blocks_retry_witness :
  Create plain_manager media ∅ = (left_behind, Some (Some (CreateNfs (Nfs.Exportfs no_exports)))) /\
  forall w2 r, Create plain_manager media left_behind = (w2, Some r) -> r <> None.
Proof.
  split; [exact broken_create|]. intros w2 r.
  apply (@failed_export_blocks_retry _ broken_exec plain_files plain_temp id plain_laws #"zfs" plain_nfs plain_smb plain_manager broken_run
           (fun _ => eq_refl) (fun _ _ _ => eq_refl) (fun _ _ => eq_refl) (fun _ _ => eq_refl)
           media ∅ left_behind no_exports eq_refl broken_create). reflexivity.
Defined.

Lemma broken_fixed (v ds : gostr) (w : gmap gostr gostr) :
  exists e, (Run #"zfs" [ #"set"; #"casesensitivity=" ++ v; ds] w).2 = Err e.
Proof.
  exists read_only_prop. cbn [Run broken_exec snd].
  assert (has_prefix (#"casesensitivity=" ++ v) #"casesensitivity=" = true) as -> by (apply has_prefix_iff; by eexists).
  reflexivity.
Qed.

Lemma media_exists : exists d, Datasets.Get #"zfs" #"tank/media" (∅ : gmap gostr gostr) = (∅, Some (Ok d)).
Proof. eexists. vm_compute. reflexivity. Qed.

Lemma update_of_existing_share_fails_witness :
  exists w' e, Update plain_manager media (∅ : gmap gostr gostr) = (w', Some (Some (SetDatasetProps e))).
Proof.
  destruct media_exists as [d Hd].
  exact (update_of_existing_share_fails #"zfs" plain_nfs plain_smb plain_manager broken_fixed media ∅ ∅ d eq_refl Hd).
Defined.
End Concrete.
