(* ===== verification/CsiEndpoint.v ===== *)
(** * internal/csi: which NFS endpoints the driver accepts

    The check of the configured server and client list against public
    addresses, with what it uses of package net, and what it guarantees:
    every address of an accepted IPv4 network is private when the prefix has
    at least sixteen bits, and not in general. *)

From S2P Require Import Prelude GoStrings GoNet Csi.

Module Endpoint.
Import Csi.

(** ** Package net *)

(** net.SplitHostPort: the host, when the text has the form host:port. *)
Definition SplitHostPort (s : gostr) : option gostr :=
  match cut_last ":"%char s with
  | None => None
  | Some (before, _) =>
      match s with
      | c :: _ =>
          if ch_eqb c "["%char then
            match cut_at "]"%char s with
            | None => None
            | Some (inside, after) =>
                match after with
                | d :: p =>
                    if ch_eqb d ":"%char && negb (contains_byte ":"%char p) then
                      let host := drop 1 inside in
                      if contains_byte "["%char (drop 1 s) || contains_byte "]"%char after then None else Some host
                    else None
                | [] => None
                end
            end
          else if contains_byte ":"%char before then None
          else if contains_byte "["%char s || contains_byte "]"%char s then None
          else Some before
      | [] => None
      end
  end.

(** The four bytes of an IPv4 address, also when it is written as an
    IPv6 one. *)
Definition v4InV6Prefix : list Z := [0; 0; 0; 0; 0; 0; 0; 0; 0; 0; 255; 255].

Definition To4 (ip : addr) : option addr :=
  if (length ip =? 4)%nat then Some ip
  else if (length ip =? 16)%nat && bool_decide (take 12 ip = v4InV6Prefix) then Some (drop 12 ip)
  else None.

Definition byte_at (ip : addr) (i : nat) : Z := nth i ip 0.

Definition IsLoopback (ip : addr) : bool :=
  match To4 ip with
  | Some ip4 => byte_at ip4 0 =? 127
  | None => bool_decide (ip = [0; 0; 0; 0; 0; 0; 0; 0; 0; 0; 0; 0; 0; 0; 0; 1])
  end.

Definition IsLinkLocalUnicast (ip : addr) : bool :=
  match To4 ip with
  | Some ip4 => (byte_at ip4 0 =? 169) && (byte_at ip4 1 =? 254)
  | None => (length ip =? 16)%nat && (byte_at ip 0 =? 254) && (Z.land (byte_at ip 1) 192 =? 128)
  end.

Definition IsPrivate (ip : addr) : bool :=
  match To4 ip with
  | Some ip4 => (byte_at ip4 0 =? 10) ||
                ((byte_at ip4 0 =? 172) && (Z.land (byte_at ip4 1) 240 =? 16)) ||
                ((byte_at ip4 0 =? 192) && (byte_at ip4 1 =? 168))
  | None => (length ip =? 16)%nat && (Z.land (byte_at ip 0) 254 =? 252)
  end.

Definition To16 (ip : addr) : option addr :=
  match length ip with
  | 4%nat => Some (v4InV6Prefix ++ ip)
  | 16%nat => Some ip
  | _ => None
  end.

(** The byte of a mask that keeps the first [n] bits, and the address with
    every byte masked. *)
Definition mask_byte (n : Z) : Z := if 8 <=? n then 255 else if n <=? 0 then 0 else 256 - 2 ^ (8 - n).

Fixpoint Mask (ip : addr) (n : Z) : addr :=
  match ip with
  | [] => []
  | b :: ip' => Z.land b (mask_byte n) :: Mask ip' (n - 8)
  end.

(** ** The check *)

Inductive endpoint_err := InvalidCIDR | PublicCIDR | PublicIP.
Inductive config_err := BadServer (e : endpoint_err) | BadClient (c : gostr) (e : endpoint_err).

Definition isPrivateIP (ip : addr) : bool :=
  if IsLoopback ip || IsLinkLocalUnicast ip || IsPrivate ip then true
  else match To16 ip with
       | Some ip16 => Z.land (byte_at ip16 0) 254 =? 252
       | None => false
       end.

(** A port is not looked at. *)
Definition without_port (s : gostr) : gostr := match SplitHostPort s with Some h => h | None => s end.

Definition validatePrivateEndpoint (s0 : gostr) : res endpoint_err unit :=
  let s := trim_space s0 in
  if str_eqb s [] then Ok tt
  else
    let s := without_port s in
    if contains_byte "/"%char s then
      match ParseCIDR s with
      | None => Err InvalidCIDR
      | Some (ip, n) => ensure isPrivateIP (Mask ip n) else PublicCIDR ;; Ok tt
      end
    else match ParseIP s with
         | Some ip => ensure isPrivateIP ip else PublicIP ;; Ok tt
         | None => Ok tt
         end.

Fixpoint check_clients (l : list gostr) : res config_err unit :=
  match l with
  | [] => Ok tt
  | raw :: l' =>
      let c := trim_space raw in
      if str_eqb c [] then check_clients l'
      else match validatePrivateEndpoint c with
           | Err e => Err (BadClient c e)
           | Ok _ => check_clients l'
           end
  end.

Definition validatePrivateNFSEndpoints (server clientsCSV : gostr) : res config_err unit :=
  match validatePrivateEndpoint server with
  | Err e => Err (BadServer e)
  | Ok _ => check_clients (split_on ","%char clientsCSV)
  end.

Definition DefaultName : gostr := #"csi.novanas.io".
Definition DefaultVersion : gostr := #"0.1.0".

(** NewDriver: the driver keeps the configuration once it is accepted, with
    the defaults filled in. *)
Definition NewDriver (cfg : Config) : res config_err Config :=
  match validatePrivateNFSEndpoints (NFSServer cfg) (DefaultNFSClients cfg) with
  | Err e => Err e
  | Ok _ =>
      Ok (mkConfig (if str_eqb (drvName cfg) [] then DefaultName else drvName cfg)
                   (if str_eqb (drvVersion cfg) [] then DefaultVersion else drvVersion cfg)
                   true (NodeID cfg) (DefaultPool cfg) (DefaultParent cfg) (HostRootPrefix cfg)
                   (NFSServer cfg) (DefaultNFSClients cfg))
  end.

(** ** What an accepted network contains *)

(** A client of the list, as the check sees it. *)
Definition client_of (cfg : Config) (c : gostr) : Prop := exists raw, raw ∈ split_on ","%char (DefaultNFSClients cfg) /\ c = trim_space raw.

Definition is_byte (b : Z) : Prop := 0 <= b < 256.

(** The addresses of a network. *)
Definition member (x ip : addr) (n : Z) : Prop := length x = length ip /\ Forall is_byte x /\ Mask x n = Mask ip n.

Lemma check_clients_all l raw : check_clients l = Ok tt -> raw ∈ l -> trim_space raw <> [] -> validatePrivateEndpoint (trim_space raw) = Ok tt.
Proof.
  induction l as [|r l IH]; cbn [check_clients]; [by intros _ ?%elem_of_nil|]. intros E Hin Hne.
  apply elem_of_cons in Hin as [->|Hin].
  - rewrite (proj2 (str_eqb_neq _ _)) in E by done. by destruct (validatePrivateEndpoint _) as [[]|].
  - destruct (str_eqb _ []); [by apply IH|]. destruct (validatePrivateEndpoint (trim_space r)); [by apply IH|done].
Qed.

Lemma mask_full b : is_byte b -> Z.land b 255 = b.
Proof. intros Hb. change 255 with (Z.ones 8). rewrite Z.land_ones by lia. apply Z.mod_small. exact Hb. Qed.

Lemma mask_head b ip n : 8 <= n -> Mask (b :: ip) n = Z.land b 255 :: Mask ip (n - 8).
Proof. intros Hn. cbn [Mask]. unfold mask_byte. by rewrite (proj2 (Z.leb_le 8 n)) by lia. Qed.

(** The first two bytes decide whether an IPv4 address is private. *)
Lemma private_network a b c d n x : 16 <= n -> isPrivateIP (Mask [a; b; c; d] n) = true -> member x [a; b; c; d] n ->
  isPrivateIP x = true.
Proof.
  intros Hn Hp (Hlen & Hb & Hm). destruct x as [|x1 [|x2 [|x3 [|x4 [|]]]]]; try done.
  rewrite (mask_head x1), (mask_head x2), (mask_head a), (mask_head b) in Hm by lia.
  rewrite (mask_head a), (mask_head b) in Hp by lia. cbn [Mask] in Hm, Hp. injection Hm as H1 H2 _ _. rewrite <- H1, <- H2 in Hp.
  apply Forall_cons in Hb as [Hb1 Hb]. apply Forall_cons in Hb as [Hb2 _].
  rewrite !mask_full in Hp by done. exact Hp.
Qed.


Lemma short_prefix_public : validatePrivateEndpoint #"10.0.0.0/7" = Ok tt /\
  member [11; 0; 0; 1] [10; 0; 0; 0] 7 /\ isPrivateIP [11; 0; 0; 1] = false.
Proof. split; [reflexivity|]. split; [|reflexivity]. split; [done|]. split; [by_dec|reflexivity]. Qed.

Definition lan : Config := mkConfig [] [] false [] [] [] [] #"nas.lan:2049" #"*.lan, 192.168.4.0/22".

End Endpoint.
