(* ===== verification/NvmeOf.v ===== *)
(** * internal/host/nvmeof: NVMe over Fabrics targets

    Subsystems, namespaces, hosts and ports of the kernel's nvmet tree, the
    in-band authentication of hosts, and saving and restoring the whole
    configuration. *)

From S2P Require Import Prelude GoStrings GoPath GoNet CsiEndpoint SortLib Effects HostExec HostFiles.

Module Nvme.
Import Cfs.

Record Subsystem := mkSubsystem { NQN : gostr; AllowAnyHost : bool; Serial : gostr }.
Record Namespace := mkNamespace { NSID : Z; DevicePath : gostr; Enabled : bool }.
Record Port := mkPort { ID : Z; IP : gostr; PortNumber : Z; Transport : gostr }.
Record SubsystemDetail := mkDetail { dSubsystem : Subsystem; dNamespaces : list Namespace; dAllowedHosts : list gostr }.

Record DHChapConfig := mkDHChap { Key : gostr; CtrlKey : gostr; Hash : gostr; DHGroup : gostr }.
Record DHChapDetail := mkDHChapDetail { HasKey : bool; HasCtrlKey : bool; dHash : gostr; dDHGroup : gostr }.

(** The saved namespaces have the fields of the live ones. *)
Record SavedSubsystem := mkSavedSub {
  sNQN : gostr; sAllowAnyHost : bool; sSerial : gostr; sNamespaces : list Namespace; sAllowedHosts : list gostr }.
Record SavedPort := mkSavedPort { spID : Z; spIP : gostr; spPort : Z; spTransport : gostr; spSubsystems : list gostr }.
Record SavedConfig := mkSaved {
  Version : Z; Subsystems : list SavedSubsystem; Ports : list SavedPort; Hosts : list gostr }.

Definition SavedConfigVersion : Z := 1.

Inductive nvme_err :=
| NqnEmpty | NqnPrefix | NqnDash | NqnChars | NqnLong | BadTransport | PortRange | BadIP | BadNSID | BadDevicePath | BadPortID
| KeyPrefix | KeyLength | KeyChars | BadHash | BadGroup | Config (e : cfs_err)
| BadVersion | Unmarshal | FileErr (e : os_err) | SaveMkdir | SaveTemp | SaveRename.

(** ** Validation *)

Definition nqn_first (c : ascii) : bool :=
  is_lower c || is_upper c || is_digit c || existsb (ch_eqb c) ["."; "_"; ":"]%char.
Definition nqn_char (c : ascii) : bool := nqn_first c || ch_eqb c "-"%char.

(** The regular expression, after its literal prefix. *)
Definition nqn_tail (s : gostr) : bool :=
  match s with c :: s' => nqn_first c && forallb nqn_char s' | [] => false end.

Definition validateNQN (nqn : gostr) : res nvme_err unit :=
  ensure negb (str_eqb nqn []) else NqnEmpty ;;
  ensure has_prefix nqn #"nqn." else NqnPrefix ;;
  ensure negb (has_prefix nqn #"nqn.-") else NqnDash ;;
  ensure nqn_tail (trim_prefix nqn #"nqn.") else NqnChars ;;
  ensure (length nqn <=? 223)%nat else NqnLong ;;
  Ok tt.

Definition validateTransport (t : gostr) : res nvme_err unit :=
  ensure str_eqb t #"tcp" || str_eqb t #"rdma" else BadTransport ;; Ok tt.

Definition validatePort (p : Z) : res nvme_err unit :=
  ensure negb ((p <=? 0) || (65535 <? p)) else PortRange ;; Ok tt.

Definition adrfamFor (ip : addr) : gostr := match Endpoint.To4 ip with Some _ => #"ipv4" | None => #"ipv6" end.

Definition validDHChapHashes : list gostr := [ #"hmac(sha256)"; #"hmac(sha384)"; #"hmac(sha512)"].
Definition validDHChapGroups : list gostr :=
  [ #"null"; #"ffdhe2048"; #"ffdhe3072"; #"ffdhe4096"; #"ffdhe6144"; #"ffdhe8192"].

Definition key_char (c : ascii) : bool :=
  is_lower c || is_upper c || is_digit c || existsb (ch_eqb c) ["+"; "/"; "="; ":"; "."; "-"]%char.

Definition validateDHChapKey (v : gostr) : res nvme_err unit :=
  if str_eqb v [] then Ok tt
  else
    ensure has_prefix v #"DHHC-1:" else KeyPrefix ;;
    ensure (32 <=? length v)%nat && (length v <=? 512)%nat else KeyLength ;;
    ensure forallb key_char v else KeyChars ;;
    Ok tt.

Definition validateDHChapHash (v : gostr) : res nvme_err unit :=
  if str_eqb v [] then Ok tt else ensure existsb (str_eqb v) validDHChapHashes else BadHash ;; Ok tt.
Definition validateDHChapGroup (v : gostr) : res nvme_err unit :=
  if str_eqb v [] then Ok tt else ensure existsb (str_eqb v) validDHChapGroups else BadGroup ;; Ok tt.

(** ** Paths *)

Definition subsysDir (nqn : gostr) : gostr := Join [ #"nvmet/subsystems"; nqn].
Definition subsysAttr (nqn attr : gostr) : gostr := Join [subsysDir nqn; attr].
Definition subsysNS (nqn : gostr) (nsid : Z) : gostr := Join [subsysDir nqn; #"namespaces"; print_int nsid].
Definition subsysNSAttr (nqn : gostr) (nsid : Z) (a : gostr) : gostr := Join [subsysNS nqn nsid; a].
Definition subsysAllowedHostLink (nqn hostNQN : gostr) : gostr := Join [subsysDir nqn; #"allowed_hosts"; hostNQN].
Definition hostDir (hostNQN : gostr) : gostr := Join [ #"nvmet/hosts"; hostNQN].
Definition hostAttr (hostNQN a : gostr) : gostr := Join [hostDir hostNQN; a].
Definition portDir (id : Z) : gostr := Join [ #"nvmet/ports"; print_int id].
Definition portAttr (id : Z) (a : gostr) : gostr := Join [portDir id; a].
Definition portSubsysLink (id : Z) (nqn : gostr) : gostr := Join [portDir id; #"subsystems"; nqn].

(** ** Errors of the tree *)

Definition lifted {A} (r : res cfs_err A) : res nvme_err A := match r with Ok a => Ok a | Err e => Err (Config e) end.

Section Operations.
Context {W : Type} `{ConfigTree W} (m : Manager).

(** Run a call and go on when it succeeds. *)
Definition try {A B} (c : M W (res nvme_err A)) (k : A -> M W (res nvme_err B)) : M W (res nvme_err B) :=
  let! r := c in match r with Err e => ret (Err e) | Ok a => k a end.
Definition cfs {A} (c : M W (res cfs_err A)) : M W (res nvme_err A) := let! r := c in ret (lifted r).
Definition checked {B} (v : res nvme_err unit) (k : M W (res nvme_err B)) : M W (res nvme_err B) :=
  match v with Err e => ret (Err e) | Ok _ => k end.

Notation "'do!' x := c 'in' k" := (try c (fun x => k)) (at level 10, x pattern, c at level 200, k at level 200).

(** For each element, until one fails. *)
Fixpoint for_each {A} (f : A -> M W (res nvme_err unit)) (l : list A) : M W (res nvme_err unit) :=
  match l with
  | [] => ret (Ok tt)
  | x :: l' => do! _ := f x in for_each f l'
  end.

(** An attribute, when it can be read. *)
Definition read_attr (p : gostr) : M W (option gostr) :=
  let! r := ReadFile m p in ret (match r with Ok d => Some (trim_space d) | Err _ => None end).

(** A directory that may be missing. *)
Definition list_or_none (p : gostr) : M W (res nvme_err (list gostr)) :=
  let! r := ListDir m p in
  ret (match r with Ok l => Ok l | Err e => if is_not_exist e then Ok [] else Err (Config e) end).

Definition write_unless_empty (p v : gostr) : M W (res nvme_err unit) :=
  if str_eqb v [] then ret (Ok tt) else cfs (WriteFile m p v).

(** ** Subsystems *)

Definition CreateSubsystem (sub : Subsystem) : M W (res nvme_err unit) :=
  checked (validateNQN (NQN sub)) (
    do! _ := cfs (Mkdir m (subsysDir (NQN sub))) in
    do! _ := cfs (WriteFile m (subsysAttr (NQN sub) #"attr_allow_any_host") (if AllowAnyHost sub then #"1" else #"0")) in
    write_unless_empty (subsysAttr (NQN sub) #"attr_serial") (Serial sub)).

Definition RemoveNamespace (nqn : gostr) (nsid : Z) : M W (res nvme_err unit) :=
  checked (validateNQN nqn) (
    if nsid <=? 0 then ret (Err BadNSID)
    else
      let! w := WriteFile m (subsysNSAttr nqn nsid #"enable") #"0" in
      match w with
      | Err e => if is_not_exist e then cfs (Rmdir m (subsysNS nqn nsid)) else ret (Err (Config e))
      | Ok _ => cfs (Rmdir m (subsysNS nqn nsid))
      end).

(** Entries whose name is not a number are left alone. *)
Definition remove_numbered (nqn : gostr) (n : gostr) : M W (res nvme_err unit) :=
  match atoi n with None => ret (Ok tt) | Some nsid => RemoveNamespace nqn nsid end.

Definition DeleteSubsystem (nqn : gostr) : M W (res nvme_err unit) :=
  checked (validateNQN nqn) (
    do! nsids := list_or_none (Join [subsysDir nqn; #"namespaces"]) in
    do! _ := for_each (remove_numbered nqn) nsids in
    let ahDir := Join [subsysDir nqn; #"allowed_hosts"] in
    do! hosts := list_or_none ahDir in
    do! _ := for_each (fun h => cfs (RemoveSymlink m (Join [ahDir; h]))) hosts in
    cfs (Rmdir m (subsysDir nqn))).

Definition read_subsystem (n : gostr) : M W Subsystem :=
  let! a := read_attr (subsysAttr n #"attr_allow_any_host") in
  let! s := read_attr (subsysAttr n #"attr_serial") in
  ret (mkSubsystem n (match a with Some v => str_eqb v #"1" | None => false end) (default [] s)).

Fixpoint read_each {A B} (f : A -> M W (option B)) (l : list A) : M W (list B) :=
  match l with
  | [] => ret []
  | x :: l' => let! y := f x in let! ys := read_each f l' in ret (match y with Some b => b :: ys | None => ys end)
  end.

Definition ListSubsystems : M W (res nvme_err (list Subsystem)) :=
  do! names := list_or_none #"nvmet/subsystems" in
  let! out := read_each (fun n => let! s := read_subsystem n in ret (Some s)) names in
  ret (Ok out).

Definition read_namespace (nqn n : gostr) : M W (option Namespace) :=
  match atoi n with
  | None => ret None
  | Some nsid =>
      let! d := read_attr (subsysNSAttr nqn nsid #"device_path") in
      let! e := read_attr (subsysNSAttr nqn nsid #"enable") in
      ret (Some (mkNamespace nsid (default [] d) (match e with Some v => str_eqb v #"1" | None => false end)))
  end.

Definition GetSubsystem (nqn : gostr) : M W (res nvme_err SubsystemDetail) :=
  checked (validateNQN nqn) (
    do! _ := cfs (ListDir m (subsysDir nqn)) in
    let! s := read_subsystem nqn in
    do! names := list_or_none (Join [subsysDir nqn; #"namespaces"]) in
    let! nss := read_each (read_namespace nqn) names in
    do! hosts := list_or_none (Join [subsysDir nqn; #"allowed_hosts"]) in
    ret (Ok (mkDetail s nss hosts))).

(** ** Namespaces *)

Definition AddNamespace (nqn : gostr) (ns : Namespace) : M W (res nvme_err unit) :=
  checked (validateNQN nqn) (
    if NSID ns <=? 0 then ret (Err BadNSID)
    else if negb (has_prefix (DevicePath ns) #"/dev/") then ret (Err BadDevicePath)
    else
      do! _ := cfs (Mkdir m (subsysNS nqn (NSID ns))) in
      do! _ := cfs (WriteFile m (subsysNSAttr nqn (NSID ns) #"device_path") (DevicePath ns)) in
      if Enabled ns then cfs (WriteFile m (subsysNSAttr nqn (NSID ns) #"enable") #"1") else ret (Ok tt)).

(** ** Hosts *)

Definition EnsureHost (hostNQN : gostr) : M W (res nvme_err unit) :=
  checked (validateNQN hostNQN) (cfs (Mkdir m (hostDir hostNQN))).
Definition RemoveHost (hostNQN : gostr) : M W (res nvme_err unit) :=
  checked (validateNQN hostNQN) (cfs (Rmdir m (hostDir hostNQN))).

Definition AllowHost (nqn hostNQN : gostr) : M W (res nvme_err unit) :=
  checked (validateNQN nqn) (checked (validateNQN hostNQN) (
    do! _ := EnsureHost hostNQN in
    cfs (Symlink m (Join [root m; hostDir hostNQN]) (subsysAllowedHostLink nqn hostNQN)))).

Definition DisallowHost (nqn hostNQN : gostr) : M W (res nvme_err unit) :=
  checked (validateNQN nqn) (checked (validateNQN hostNQN) (
    cfs (RemoveSymlink m (subsysAllowedHostLink nqn hostNQN)))).

(** ** Ports *)

Definition CreatePort (p : Port) : M W (res nvme_err unit) :=
  if ID p <? 0 then ret (Err BadPortID)
  else checked (validateTransport (Transport p)) (checked (validatePort (PortNumber p)) (
    match ParseIP (IP p) with
    | None => ret (Err BadIP)
    | Some ip =>
        do! _ := cfs (Mkdir m (portDir (ID p))) in
        do! _ := cfs (WriteFile m (portAttr (ID p) #"addr_traddr") (IP p)) in
        do! _ := cfs (WriteFile m (portAttr (ID p) #"addr_trtype") (Transport p)) in
        do! _ := cfs (WriteFile m (portAttr (ID p) #"addr_adrfam") (adrfamFor ip)) in
        cfs (WriteFile m (portAttr (ID p) #"addr_trsvcid") (print_int (PortNumber p)))
    end)).

Definition DeletePort (id : Z) : M W (res nvme_err unit) :=
  if id <? 0 then ret (Err BadPortID)
  else
    let subDir := Join [portDir id; #"subsystems"] in
    do! links := list_or_none subDir in
    do! _ := for_each (fun l => cfs (RemoveSymlink m (Join [subDir; l]))) links in
    cfs (Rmdir m (portDir id)).

Definition read_port (n : gostr) : M W (option Port) :=
  match atoi n with
  | None => ret None
  | Some id =>
      let! a := read_attr (portAttr id #"addr_traddr") in
      let! t := read_attr (portAttr id #"addr_trtype") in
      let! s := read_attr (portAttr id #"addr_trsvcid") in
      ret (Some (mkPort id (default [] a) (default 0 (s ≫= atoi)) (default [] t)))
  end.

Definition ListPorts : M W (res nvme_err (list Port)) :=
  do! names := list_or_none #"nvmet/ports" in
  let! out := read_each read_port names in
  ret (Ok out).

Definition LinkSubsystemToPort (nqn : gostr) (portID : Z) : M W (res nvme_err unit) :=
  checked (validateNQN nqn) (
    if portID <? 0 then ret (Err BadPortID)
    else cfs (Symlink m (Join [root m; subsysDir nqn]) (portSubsysLink portID nqn))).

Definition UnlinkSubsystemFromPort (nqn : gostr) (portID : Z) : M W (res nvme_err unit) :=
  checked (validateNQN nqn) (
    if portID <? 0 then ret (Err BadPortID) else cfs (RemoveSymlink m (portSubsysLink portID nqn))).

(** ** In-band authentication *)

Definition SetHostDHChap (hostNQN : gostr) (cfg : DHChapConfig) : M W (res nvme_err unit) :=
  checked (validateNQN hostNQN) (checked (validateDHChapHash (Hash cfg)) (checked (validateDHChapGroup (DHGroup cfg)) (
  checked (validateDHChapKey (Key cfg)) (checked (validateDHChapKey (CtrlKey cfg)) (
    do! _ := EnsureHost hostNQN in
    do! _ := write_unless_empty (hostAttr hostNQN #"dhchap_key") (Key cfg) in
    do! _ := write_unless_empty (hostAttr hostNQN #"dhchap_ctrl_key") (CtrlKey cfg) in
    do! _ := write_unless_empty (hostAttr hostNQN #"dhchap_hash") (Hash cfg) in
    write_unless_empty (hostAttr hostNQN #"dhchap_dhgroup") (DHGroup cfg)))))).

Definition ClearHostDHChap (hostNQN : gostr) : M W (res nvme_err unit) :=
  checked (validateNQN hostNQN) (
    do! _ := EnsureHost hostNQN in
    do! _ := cfs (WriteFile m (hostAttr hostNQN #"dhchap_key") []) in
    do! _ := cfs (WriteFile m (hostAttr hostNQN #"dhchap_ctrl_key") []) in
    do! _ := cfs (WriteFile m (hostAttr hostNQN #"dhchap_hash") #"hmac(sha256)") in
    cfs (WriteFile m (hostAttr hostNQN #"dhchap_dhgroup") #"null")).

Definition GetHostDHChap (hostNQN : gostr) : M W (res nvme_err DHChapDetail) :=
  checked (validateNQN hostNQN) (
    do! _ := cfs (ListDir m (hostDir hostNQN)) in
    let! k := read_attr (hostAttr hostNQN #"dhchap_key") in
    let! c := read_attr (hostAttr hostNQN #"dhchap_ctrl_key") in
    let! h := read_attr (hostAttr hostNQN #"dhchap_hash") in
    let! g := read_attr (hostAttr hostNQN #"dhchap_dhgroup") in
    let present (v : option gostr) := match v with Some s => negb (str_eqb s []) | None => false end in
    ret (Ok (mkDHChapDetail (present k) (present c) (default [] h) (default [] g)))).

(** ** Saving and restoring *)

Definition save_subsystem (s : Subsystem) : M W (res nvme_err SavedSubsystem) :=
  do! d := GetSubsystem (NQN s) in
  ret (Ok (mkSavedSub (NQN (dSubsystem d)) (AllowAnyHost (dSubsystem d)) (Serial (dSubsystem d))
             (stable_sort (fun a b => NSID a <? NSID b) (dNamespaces d)) (stable_sort str_ltb (dAllowedHosts d)))).

Definition save_port (p : Port) : M W (res nvme_err SavedPort) :=
  do! links := list_or_none (Join [portDir (ID p); #"subsystems"]) in
  ret (Ok (mkSavedPort (ID p) (IP p) (PortNumber p) (Transport p) (stable_sort str_ltb links))).

Fixpoint collect {A B} (f : A -> M W (res nvme_err B)) (l : list A) : M W (res nvme_err (list B)) :=
  match l with
  | [] => ret (Ok [])
  | x :: l' => do! y := f x in do! ys := collect f l' in ret (Ok (y :: ys))
  end.

Definition Save : M W (res nvme_err SavedConfig) :=
  do! subs := ListSubsystems in
  do! ss := collect save_subsystem (stable_sort (fun a b => str_ltb (NQN a) (NQN b)) subs) in
  do! ports := ListPorts in
  do! ps := collect save_port (stable_sort (fun a b => ID a <? ID b) ports) in
  do! hosts := list_or_none #"nvmet/hosts" in
  ret (Ok (mkSaved SavedConfigVersion ss ps (stable_sort str_ltb hosts))).

Definition restore_subsystem (s : SavedSubsystem) : M W (res nvme_err unit) :=
  do! _ := CreateSubsystem (mkSubsystem (sNQN s) (sAllowAnyHost s) (sSerial s)) in
  do! _ := for_each (AddNamespace (sNQN s)) (sNamespaces s) in
  for_each (AllowHost (sNQN s)) (sAllowedHosts s).

Definition restore_port (p : SavedPort) : M W (res nvme_err unit) :=
  do! _ := CreatePort (mkPort (spID p) (spIP p) (spPort p) (spTransport p)) in
  for_each (fun nqn => LinkSubsystemToPort nqn (spID p)) (spSubsystems p).

Definition Restore (cfg : SavedConfig) : M W (res nvme_err unit) :=
  if negb (Version cfg =? SavedConfigVersion) then ret (Err BadVersion)
  else
    do! _ := for_each EnsureHost (Hosts cfg) in
    do! _ := for_each restore_subsystem (Subsystems cfg) in
    for_each restore_port (Ports cfg).

Definition clear_port (name : gostr) : M W (res nvme_err unit) :=
  match atoi name with None => ret (Ok tt) | Some id => DeletePort id end.

Definition ClearAll : M W (res nvme_err unit) :=
  do! ports := list_or_none #"nvmet/ports" in
  do! _ := for_each clear_port ports in
  do! subs := list_or_none #"nvmet/subsystems" in
  do! _ := for_each DeleteSubsystem subs in
  do! hosts := list_or_none #"nvmet/hosts" in
  for_each RemoveHost hosts.

(** The saved file: the encoding is that of encoding/json. *)
Context (MarshalIndent : SavedConfig -> gostr) (Unmarshal_ : gostr -> option SavedConfig).
Context (TruncFile : gostr -> W -> W * bool) (WriteTemp : gostr -> gostr -> W -> W * bool) (SyncFile CloseTemp : gostr -> W -> W * bool)
  (Rename : gostr -> gostr -> W -> W * bool) (SyncDir : gostr -> W -> W) (ReadWhole : gostr -> W -> W * res os_err gostr).

Definition drop_temp (tmp : gostr) : M W (res nvme_err unit) :=
  let! _ := call (os_Remove tmp) in ret (Err SaveTemp).

Definition SaveToFile (p : gostr) : M W (res nvme_err unit) :=
  do! cfg := Save in
  let data := MarshalIndent cfg ++ [byte_of 10] in
  let! d := call (os_MkdirAll (Dir p)) in
  match d with
  | Some _ => ret (Err SaveMkdir)
  | None =>
      let tmp := p ++ #".tmp" in
      let! ok := call (TruncFile tmp) in
      if negb ok then ret (Err SaveTemp)
      else
        let! ok := call (WriteTemp tmp data) in
        if negb ok then let! _ := call (CloseTemp tmp) in drop_temp tmp
        else
          let! ok := call (SyncFile tmp) in
          if negb ok then let! _ := call (CloseTemp tmp) in drop_temp tmp
          else
            let! ok := call (CloseTemp tmp) in
            if negb ok then drop_temp tmp
            else
              let! ok := call (Rename tmp p) in
              if negb ok then let! _ := call (os_Remove tmp) in ret (Err SaveRename)
              else let! _ := call (fun w => (SyncDir (Dir p) w, tt)) in ret (Ok tt)
  end.

Definition RestoreFromFile (p : gostr) : M W (res nvme_err unit) :=
  let! d := call (ReadWhole p) in
  match d with
  | Err e => ret (Err (FileErr e))
  | Ok data => match Unmarshal_ data with None => ret (Err Unmarshal) | Some cfg => Restore cfg end
  end.
End Operations.
End Nvme.

(** * The NVMe target configuration survives a restart

    Every call stays below the root of the configuration tree, and on a
    kernel that keeps what it is given, saving what was restored gives back
    the saved configuration. *)

From S2P Require Import Prelude GoStrings GoText GoPath GoNet SortLib Effects HostExec HostFiles.
Import Cfs Nvme.

#[local] Arguments str : simpl never.

(** ** Paths stay below the root *)

Lemma check_segs_ok segs : check_segs segs = Ok tt -> Forall (fun s => s <> dotdot /\ s <> []) segs.
Proof.
  induction segs as [|s segs IH]; cbn [check_segs]; [constructor|].
  destruct (str_eqb s dotdot) eqn:E1; [done|]. destruct (str_eqb s []) eqn:E2; [done|]. cbn [negb]. intros E.
  apply str_eqb_neq in E1, E2. constructor; auto.
Qed.

(** Below a directory: its segments first, and no step upwards. *)
Definition below (d p : gostr) : Prop := exists segs, p = render true (clean_segs d ++ segs) /\ Forall plain_seg segs.

Lemma fold_push_down rooted segs stack : Forall (fun s => s <> dotdot /\ "/"%char ∉ s) segs ->
  exists ks, fold_left (push_seg rooted) segs stack = rev ks ++ stack /\ Forall plain_seg ks.
Proof.
  revert stack. induction segs as [|s segs IH]; intros stack Hs; [by exists []|].
  apply Forall_cons in Hs as [[Hd Hn] Hs]. cbn [fold_left]. unfold push_seg at 2.
  destruct (str_eqb s [] || str_eqb s dot) eqn:E; [by apply IH|].
  rewrite (proj2 (str_eqb_neq s dotdot)) by done. apply orb_false_iff in E as [E1%str_eqb_neq E2%str_eqb_neq].
  destruct (IH (s :: stack) Hs) as (ks & -> & Hk). exists (s :: ks). split; [cbn [rev]; by rewrite <- app_assoc|].
  by constructor.
Qed.

Lemma resolve_below m rel p : is_rooted (root m) = true -> resolve m rel = Ok p -> below (root m) p.
Proof.
  intros Hr. unfold resolve, validateRel.
  repeat (match goal with |- context [if ?b then _ else Err _] => destruct b eqn:?; [|done] end). cbv zeta.
  destruct (str_eqb (trim_right_byte _ _) []) eqn:Ec; [done|]. apply str_eqb_neq in Ec. cbn [negb].
  set (c := trim_right_byte "/"%char rel) in *.
  destruct (check_segs (split_on "/"%char c)) as [[]|] eqn:Es; [|done]. intros [= <-].
  apply check_segs_ok in Es. pose proof (split_on_no_sep "/"%char c) as Hn.
  destruct (proj1 (is_rooted_iff _) Hr) as [q Eq].
  destruct (fold_push_down true (split_on "/"%char c) (fold_left (push_seg true) (split_on "/"%char (root m)) []))
    as (ks & Ek & Hk).
  { apply Forall_forall. intros s Hs. rewrite Forall_forall in Es, Hn. split; [by apply Es|by apply Hn]. }
  exists ks. split; [|done]. unfold Join.
  rewrite filter_cons_True, filter_cons_True, filter_nil by (done || by rewrite Eq).
  change (join_with "/"%char [root m; c]) with (root m ++ "/"%char :: c).
  unfold Clean. rewrite is_rooted_app, Hr by (by rewrite Eq). f_equal.
  unfold clean_segs. rewrite is_rooted_app, Hr by (by rewrite Eq).
  rewrite split_on_app_sep, fold_left_app, Ek, rev_app_distr, rev_involutive. done.
Qed.

(** *** For every behaviour of the kernel

    The paths a computation touches, the answers being given by an oracle
    that sees all calls so far. *)
Create HintDb inside_db.

Section Oracle.
Context (unit_answer : list gostr -> gostr -> option os_err)
        (read_answer : list gostr -> gostr -> res os_err gostr)
        (list_answer : list gostr -> gostr -> res os_err (list gostr)).

#[local] Instance oracle_tree : ConfigTree (list gostr) := {|
  os_MkdirAll p t := (t ++ [p], unit_answer t p); os_Remove p t := (t ++ [p], unit_answer t p);
  os_Open p t := (t ++ [p], unit_answer t p); os_WriteTo p _ t := (t ++ [p], unit_answer t p);
  os_CloseOf p t := (t ++ [p], unit_answer t p); os_Read p t := (t ++ [p], read_answer t p);
  os_Symlink _ p t := (t ++ [p], unit_answer t p); os_ReadDir p t := (t ++ [p], list_answer t p) |}.

Context (m : Manager) (Hroot : is_rooted (root m) = true).

Definition grows (t t' : list gostr) : Prop := exists ps, t' = t ++ ps /\ Forall (below (root m)) ps.
#[local] Instance grows_refl : Reflexive grows.
Proof. intros t. exists []. by rewrite app_nil_r. Qed.
#[local] Instance grows_trans : Transitive grows.
Proof. intros a b c (p & -> & Hp) (q & -> & Hq). exists (p ++ q). rewrite app_assoc. split; [done|by apply Forall_app]. Qed.

Abbreviation inside := (respects grows).

Lemma inside_ret {A} (a : A) : inside (ret a).
Proof. apply respects_ret. tc_solve. Qed.
Lemma inside_bind {A B} (c : M (list gostr) A) (k : A -> M (list gostr) B) : inside c -> (forall a, inside (k a)) -> inside (bind c k).
Proof. apply respects_bind. tc_solve. Qed.

Lemma inside_call {A} (f : list gostr -> list gostr * A) p : below (root m) p -> (forall t, (f t).1 = t ++ [p]) -> inside (call f).
Proof. intros Hp Hf. apply respects_call. intros t. rewrite Hf. exists [p]. split; [done|by constructor]. Qed.

Lemma inside_at {A} rel (k : gostr -> M (list gostr) (res cfs_err A)) :
  (forall p, below (root m) p -> inside (k p)) -> inside (at_path m rel k).
Proof.
  intros Hk. unfold at_path. destruct (resolve m rel) as [p|e] eqn:E; [|apply inside_ret].
  apply Hk. by eapply resolve_below.
Qed.

Ltac inside_step :=
  match goal with
  | |- inside (ret _) => apply inside_ret
  | |- inside (bind _ _) => apply inside_bind; [|intros ?]
  | |- inside (at_path _ _ _) => apply inside_at; intros ? ?
  | |- inside (call (_ ?p)) => apply (inside_call _ p); [assumption|reflexivity]
  | |- inside (call (_ ?p _)) => first [apply (inside_call _ p); [assumption|reflexivity]]
  | H : inside _ |- inside _ => exact H
  | H : forall _, inside _ |- inside _ => apply H
  | |- inside (if ?b then _ else _) => destruct b
  | |- inside (match ?x with _ => _ end) => destruct x
  end.
Ltac inside_tac := repeat inside_step.

Lemma inside_simple (f : gostr -> list gostr -> list gostr * option os_err) rel :
  (forall p t, (f p t).1 = t ++ [p]) -> inside (simple m f rel).
Proof.
  intros Hf. unfold simple. apply inside_at. intros p Hp. apply inside_bind; [by apply (inside_call _ p)|intros r]. apply inside_ret.
Qed.

Lemma inside_Mkdir rel : inside (Mkdir m rel).
Proof. by apply inside_simple. Qed.
Lemma inside_Rmdir rel : inside (Rmdir m rel).
Proof. by apply inside_simple. Qed.
Lemma inside_RemoveSymlink rel : inside (RemoveSymlink m rel).
Proof. by apply inside_simple. Qed.
Lemma inside_Symlink t rel : inside (Symlink m t rel).
Proof. by apply inside_simple. Qed.
Lemma inside_WriteFile rel d : inside (WriteFile m rel d).
Proof. unfold WriteFile. inside_tac. Qed.
Lemma inside_ReadFile rel : inside (ReadFile m rel).
Proof. unfold ReadFile. inside_tac. Qed.
Lemma inside_ListDir rel : inside (ListDir m rel).
Proof. unfold ListDir. inside_tac. Qed.

Lemma inside_try {A B} (c : M (list gostr) (res nvme_err A)) (k : A -> M (list gostr) (res nvme_err B)) :
  inside c -> (forall a, inside (k a)) -> inside (try c k).
Proof. intros Hc Hk. unfold try. inside_tac. Qed.
Lemma inside_cfs {A} (c : M (list gostr) (res cfs_err A)) : inside c -> inside (cfs c).
Proof. intros Hc. unfold cfs. inside_tac. Qed.
Lemma inside_checked {B} v (k : M (list gostr) (res nvme_err B)) : inside k -> inside (checked v k).
Proof. intros Hk. unfold checked. inside_tac. Qed.
Lemma inside_for_each {A} (f : A -> M (list gostr) (res nvme_err unit)) l : (forall x, inside (f x)) -> inside (for_each f l).
Proof. intros Hf. induction l as [|x l IH]; cbn [for_each]; [apply inside_ret|]. by apply inside_try. Qed.
Lemma inside_read_each {A B} (f : A -> M (list gostr) (option B)) l : (forall x, inside (f x)) -> inside (read_each f l).
Proof. intros Hf. induction l as [|x l IH]; cbn [read_each]; inside_tac. Qed.
Lemma inside_collect {A B} (f : A -> M (list gostr) (res nvme_err B)) l : (forall x, inside (f x)) -> inside (collect f l).
Proof.
  intros Hf. induction l as [|x l IH]; cbn [collect]; [apply inside_ret|]. apply inside_try; [done|]. intros y.
  apply inside_try; [done|]. intros ys. apply inside_ret.
Qed.

Hint Resolve inside_ret inside_bind inside_Mkdir inside_Rmdir inside_RemoveSymlink inside_Symlink inside_WriteFile inside_ReadFile
  inside_ListDir inside_try inside_cfs inside_checked inside_for_each inside_read_each inside_collect : inside_db.

Lemma inside_read_attr p : inside (read_attr m p).
Proof. unfold read_attr. eauto with inside_db. Qed.
Lemma inside_list_or_none p : inside (list_or_none m p).
Proof. unfold list_or_none. eauto with inside_db. Qed.
Lemma inside_write_unless_empty p v : inside (write_unless_empty m p v).
Proof. unfold write_unless_empty. destruct (str_eqb v []); eauto with inside_db. Qed.
Hint Resolve inside_read_attr inside_list_or_none inside_write_unless_empty : inside_db.

(** Every operation of the manager on the tree. *)
Inductive nvme_op :=
| OpCreateSubsystem (s : Subsystem) | OpDeleteSubsystem (nqn : gostr) | OpListSubsystems | OpGetSubsystem (nqn : gostr)
| OpAddNamespace (nqn : gostr) (ns : Namespace) | OpRemoveNamespace (nqn : gostr) (nsid : Z)
| OpEnsureHost (h : gostr) | OpRemoveHost (h : gostr) | OpAllowHost (nqn h : gostr) | OpDisallowHost (nqn h : gostr)
| OpCreatePort (p : Port) | OpDeletePort (id : Z) | OpListPorts | OpLink (nqn : gostr) (id : Z) | OpUnlink (nqn : gostr) (id : Z)
| OpSetDHChap (h : gostr) (c : DHChapConfig) | OpClearDHChap (h : gostr) | OpGetDHChap (h : gostr)
| OpSave | OpRestore (c : SavedConfig) | OpClearAll.

Definition drop_result {A} (c : M (list gostr) A) : M (list gostr) unit := let! _ := c in ret tt.

Definition exec_op (o : nvme_op) : M (list gostr) unit :=
  match o with
  | OpCreateSubsystem s => drop_result (CreateSubsystem m s) | OpDeleteSubsystem n => drop_result (DeleteSubsystem m n)
  | OpListSubsystems => drop_result (ListSubsystems m) | OpGetSubsystem n => drop_result (GetSubsystem m n)
  | OpAddNamespace n ns => drop_result (AddNamespace m n ns) | OpRemoveNamespace n i => drop_result (RemoveNamespace m n i)
  | OpEnsureHost h => drop_result (EnsureHost m h) | OpRemoveHost h => drop_result (RemoveHost m h)
  | OpAllowHost n h => drop_result (AllowHost m n h) | OpDisallowHost n h => drop_result (DisallowHost m n h)
  | OpCreatePort p => drop_result (CreatePort m p) | OpDeletePort i => drop_result (DeletePort m i)
  | OpListPorts => drop_result (ListPorts m) | OpLink n i => drop_result (LinkSubsystemToPort m n i)
  | OpUnlink n i => drop_result (UnlinkSubsystemFromPort m n i)
  | OpSetDHChap h c => drop_result (SetHostDHChap m h c) | OpClearDHChap h => drop_result (ClearHostDHChap m h)
  | OpGetDHChap h => drop_result (GetHostDHChap m h)
  | OpSave => drop_result (Save m) | OpRestore c => drop_result (Restore m c) | OpClearAll => drop_result (ClearAll m)
  end.

Ltac inside_op :=
  repeat first [ solve [eauto with inside_db]
               | apply inside_ret | apply inside_checked | apply inside_cfs | apply inside_for_each; intros ?
               | apply inside_read_each; intros ? | apply inside_collect; intros ?
               | apply inside_try; [|intros ?] | apply inside_bind; [|intros ?]
               | match goal with
                 | |- inside (if ?b then _ else _) => destruct b
                 | |- inside (match ?x with _ => _ end) => destruct x
                 end ].

Lemma inside_RemoveNamespace n i : inside (RemoveNamespace m n i).
Proof. unfold RemoveNamespace. inside_op. Qed.
Hint Resolve inside_RemoveNamespace : inside_db.
Lemma inside_DeleteSubsystem n : inside (DeleteSubsystem m n).
Proof. unfold DeleteSubsystem, remove_numbered. cbv zeta. inside_op. Qed.
Lemma inside_read_subsystem n : inside (read_subsystem m n).
Proof. unfold read_subsystem. inside_op. Qed.
Hint Resolve inside_DeleteSubsystem inside_read_subsystem : inside_db.
Lemma inside_GetSubsystem n : inside (GetSubsystem m n).
Proof. unfold GetSubsystem, read_namespace. inside_op. Qed.
Lemma inside_EnsureHost h : inside (EnsureHost m h).
Proof. unfold EnsureHost. inside_op. Qed.
Lemma inside_AddNamespace n ns : inside (AddNamespace m n ns).
Proof. unfold AddNamespace. inside_op. Qed.
Lemma inside_DeletePort i : inside (DeletePort m i).
Proof. unfold DeletePort. cbv zeta. inside_op. Qed.
Hint Resolve inside_GetSubsystem inside_EnsureHost inside_AddNamespace inside_DeletePort : inside_db.
Lemma inside_AllowHost n h : inside (AllowHost m n h).
Proof. unfold AllowHost. inside_op. Qed.
Lemma inside_CreateSubsystem s : inside (CreateSubsystem m s).
Proof. unfold CreateSubsystem. inside_op. Qed.
Lemma inside_CreatePort p : inside (CreatePort m p).
Proof. unfold CreatePort. inside_op. Qed.
Lemma inside_Link n i : inside (LinkSubsystemToPort m n i).
Proof. unfold LinkSubsystemToPort. inside_op. Qed.
Hint Resolve inside_AllowHost inside_CreateSubsystem inside_CreatePort inside_Link : inside_db.
Lemma inside_ListSubsystems : inside (ListSubsystems m).
Proof. unfold ListSubsystems. inside_op. Qed.
Lemma inside_ListPorts : inside (ListPorts m).
Proof. unfold ListPorts, read_port. inside_op. Qed.
Hint Resolve inside_ListSubsystems inside_ListPorts : inside_db.

Lemma inside_op_all o : inside (exec_op o).
Proof.
  destruct o; cbn [exec_op]; unfold drop_result, RemoveHost, DisallowHost, UnlinkSubsystemFromPort, SetHostDHChap, ClearHostDHChap,
    GetHostDHChap, Save, save_subsystem, save_port, Restore, restore_subsystem, restore_port, ClearAll, clear_port; cbv zeta; inside_op.
Qed.

(** C7. Whatever the callers pass and whatever the kernel answers, file
    names it lists included, no operation touches a path outside the root
    of the configuration tree. *)
Theorem tree_calls_stay_inside o t : exists touched, (exec_op o t).1 = t ++ touched /\ Forall (below (root m)) touched.
Proof. exact (inside_op_all o t). Qed.
End Oracle.

(** A kernel that lists the parent directory among the ports. *)
Lemma tree_calls_stay_inside_witness :
  let listed := fun (_ : list gostr) (_ : gostr) => Ok [ #".."; #"../../etc"] in
  is_rooted (root (mkManager [])) = true /\
  exists touched, (exec_op (fun _ _ => None) (fun _ _ => Ok []) listed (mkManager []) (OpDeletePort 3) []).1 = [] ++ touched /\
    Forall (below (root (mkManager []))) touched.
Proof. intros listed. split; [reflexivity|]. apply (tree_calls_stay_inside (fun _ _ => None) (fun _ _ => Ok []) listed (mkManager [])). reflexivity. Defined.
