(* ===== verification/NvmeOfSave.v ===== *)
(** * Saving and restoring the NVMe target configuration

    On a kernel that keeps what it is given, a saved configuration that is
    restored into an empty tree is what is saved next. *)

From S2P Require Import Prelude GoStrings GoText GoPath GoNet SortLib Effects HostExec HostFiles NvmeOf.
Import Cfs Nvme.

#[local] Arguments str : simpl never.

(** ** Segments *)

Definition seg_char (c : ascii) : bool := printable c && negb (existsb (ch_eqb c) [byte_of 47; byte_of 92]).
Definition seg_ok (s : gostr) : bool :=
  negb (str_eqb s [] || str_eqb s dot || str_eqb s dotdot) && forallb seg_char s.
Definition safe (segs : list gostr) : Prop := Forall (fun s => seg_ok s = true) segs.

Lemma seg_ok_plain s : seg_ok s = true -> plain_seg s.
Proof.
  unfold seg_ok. rewrite andb_true_iff, negb_true_iff, !orb_false_iff, !str_eqb_neq.
  intros [[[? ?] ?] Hc]. split_and!; [done..|]. intros Hin%list_elem_of_In. rewrite forallb_forall in Hc. by specialize (Hc _ Hin).
Qed.

Lemma safe_plain segs : safe segs -> Forall plain_seg segs.
Proof. intros Hs. eapply Forall_impl; [exact Hs|apply seg_ok_plain]. Qed.

Lemma nvme_join_nonempty segs : segs <> [] -> Forall plain_seg segs -> join_with "/"%char segs <> [].
Proof. intros Hne Hs. destruct segs as [|s segs]; [done|]. apply Forall_cons in Hs as [(Hk & _) _]. by destruct s, segs. Qed.

Lemma join_concat (L : list (list gostr)) : Forall (fun ss => ss <> []) L ->
  join_with "/"%char (map (join_with "/"%char) L) = join_with "/"%char (concat L).
Proof.
  induction 1 as [|ss L Hss HL IH]; [done|]. cbn [map concat]. destruct L as [|ss' L].
  - cbn [concat]. by rewrite app_nil_r.
  - change (join_with "/"%char ss ++ "/"%char :: join_with "/"%char (map (join_with "/"%char) (ss' :: L)) =
            join_with "/"%char (ss ++ concat (ss' :: L))). rewrite IH.
    apply Forall_cons in HL as [Hss' HL].
    assert (Hne : concat (ss' :: L) <> []) by (cbn [concat]; by destruct ss').
    clear IH. induction ss as [|s ss IHs]; [done|]. destruct ss as [|s' ss]; [by destruct (concat (ss' :: L))|].
    change (join_with "/"%char ((s :: s' :: ss) ++ concat (ss' :: L))) with
      (s ++ "/"%char :: join_with "/"%char ((s' :: ss) ++ concat (ss' :: L))).
    rewrite <- IHs by done. cbn [join_with]. by rewrite <- app_assoc.
Qed.

Lemma unrooted segs : segs <> [] -> Forall plain_seg segs -> is_rooted (join_with "/"%char segs) = false.
Proof.
  intros Hne Hs. destruct segs as [|s segs]; [done|]. apply Forall_cons in Hs as [(Hk & _ & _ & Hn) _].
  apply not_true_iff_false. rewrite is_rooted_iff. intros [q E]. destruct s as [|c s]; [done|].
  destruct segs; cbn [join_with app] in E; injection E as -> _; set_solver.
Qed.

(** Joining relative paths of plain segments. *)
Lemma Join_rel (L : list (list gostr)) : L <> [] -> Forall (fun ss => ss <> [] /\ Forall plain_seg ss) L ->
  Join (map (join_with "/"%char) L) = join_with "/"%char (concat L).
Proof.
  intros HL Hs. assert (Hall : Forall plain_seg (concat L)).
  { clear HL. induction Hs as [|ss L [_ Hss] Hs IH]; [constructor|]. cbn [concat]. by apply Forall_app. }
  assert (Hne : concat L <> []) by (destruct L as [|ss L]; [done|]; apply Forall_cons in Hs as [[? _] _]; cbn [concat]; by destruct ss).
  unfold Join.
  assert (filter (fun e => e <> []) (map (join_with "/"%char) L) = map (join_with "/"%char) L) as ->.
  { clear HL Hall Hne. induction Hs as [|ss L [Hn Hss] Hs IH]; [done|]. cbn [map].
    rewrite filter_cons_True by (by apply nvme_join_nonempty). by rewrite IH. }
  destruct (map (join_with "/"%char) L) eqn:E; [by destruct L|]. rewrite <- E.
  rewrite join_concat by (eapply Forall_impl; [exact Hs|]; by intros ss [? _]).
  unfold Clean. rewrite unrooted by done. unfold clean_segs. rewrite unrooted by done.
  rewrite split_join by (done || by apply plain_no_sep). rewrite fold_push_id by done.
  rewrite app_nil_r, rev_involutive. unfold render. destruct (concat L); done.
Qed.

Lemma Join_parts (L : list (list gostr)) : forallb (fun ss => negb (bool_decide (ss = []))) L && negb (bool_decide (L = [])) = true ->
  Forall plain_seg (concat L) -> Join (map (join_with "/"%char) L) = join_with "/"%char (concat L).
Proof.
  rewrite andb_true_iff, negb_true_iff, bool_decide_eq_false. intros [HL Hne] Hs. apply Join_rel; [done|].
  clear Hne. induction L as [|ss L IH]; [constructor|]. cbn [forallb concat] in *. apply andb_true_iff in HL as [H1 HL].
  apply Forall_app in Hs as [Hs1 Hs]. constructor; [|by apply IH]. apply negb_true_iff, bool_decide_eq_false in H1. done.
Qed.

Lemma check_segs_plain segs : Forall plain_seg segs -> check_segs segs = Ok tt.
Proof.
  induction 1 as [|s segs (Hne & _ & Hd & _) Hs IH]; [done|]. cbn [check_segs].
  by rewrite (proj2 (str_eqb_neq s dotdot)), (proj2 (str_eqb_neq s [])).
Qed.

Lemma join_chars (P : ascii -> Prop) segs : P "/"%char -> Forall (Forall P) segs -> Forall P (join_with "/"%char segs).
Proof.
  intros Hsl. induction 1 as [|s segs Hs Hsegs IH]; [constructor|]. destruct segs; [done|].
  cbn [join_with]. apply Forall_app. split; [done|]. constructor; [done|exact IH].
Qed.

Lemma trim_right_id c s : (forall d r, rev s = d :: r -> d <> c) -> trim_right_byte c s = s.
Proof.
  induction s as [|a s IH]; intros Hl; [done|]. cbn [trim_right_byte]. destruct s as [|b s].
  - cbn [trim_right_byte]. by rewrite (proj2 (ch_eqb_neq a c)) by (by apply (Hl a [])).
  - rewrite IH; [done|]. intros d r E. apply (Hl d (r ++ [a])). cbn [rev] in *. by rewrite E.
Qed.

Lemma join_last segs : segs <> [] -> Forall plain_seg segs -> forall d r, rev (join_with "/"%char segs) = d :: r -> d <> "/"%char.
Proof.
  intros Hne Hs. induction Hs as [|s segs (Hk & _ & _ & Hn) Hs IH]; [done|]. destruct segs as [|s' segs].
  - intros d r E ->. cbn [join_with] in E. apply Hn, list_elem_of_In, in_rev. rewrite E. by left.
  - intros d r. cbn [join_with]. rewrite rev_app_distr. cbn [rev]. rewrite <- app_assoc.
    change (rev (match segs with [] => s' | _ :: _ => s' ++ "/"%char :: join_with "/"%char segs end)) with
      (rev (join_with "/"%char (s' :: segs))).
    destruct (rev (join_with "/"%char (s' :: segs))) as [|d' r'] eqn:E.
    + exfalso. apply (f_equal (@rev ascii)) in E. rewrite rev_involutive in E. by apply (nvme_join_nonempty (s' :: segs)).
    + intros [= <- _]. by eapply IH.
Qed.

Lemma resolve_segs m segs : is_rooted (root m) = true -> segs <> [] -> safe segs ->
  resolve m (join_with "/"%char segs) = Ok (render true (clean_segs (root m) ++ segs)).
Proof.
  intros Hr Hne Hs. pose proof (safe_plain _ Hs) as Hp. unfold resolve, validateRel.
  assert (Hchars : Forall (fun c => (printable c || ch_eqb c "/"%char) && negb (ch_eqb c (byte_of 92)) = true) (join_with "/"%char segs)).
  { apply join_chars; [done|]. eapply Forall_impl; [exact Hs|]. intros s Hok. unfold seg_ok in Hok.
    apply andb_true_iff in Hok as [_ Hok]. rewrite forallb_forall in Hok. apply Forall_forall. intros c Hc%list_elem_of_In.
    specialize (Hok _ Hc). unfold seg_char in Hok. apply andb_true_iff in Hok as [-> Hb]. cbn [existsb] in Hb.
    rewrite negb_orb in Hb. apply andb_true_iff in Hb as [_ Hb]. rewrite orb_false_r in Hb. cbn [orb andb]. exact Hb. }
  assert (Hno : forall f : ascii -> bool, (forall c, f c = true -> (printable c || ch_eqb c "/"%char) && negb (ch_eqb c (byte_of 92)) = false) ->
    existsb f (join_with "/"%char segs) = false).
  { intros f Hf. apply not_true_iff_false. intros (c & Hc & Hfc)%existsb_exists. rewrite Forall_forall in Hchars.
    specialize (Hchars c (proj2 (list_elem_of_In _ _) Hc)). rewrite (Hf c Hfc) in Hchars. done. }
  rewrite (proj2 (str_eqb_neq _ _)) by (by apply nvme_join_nonempty). cbn [negb].
  change (has_prefix (join_with "/"%char segs) #"/") with (is_rooted (join_with "/"%char segs)). rewrite unrooted by done. cbn [negb].
  unfold contains_byte. rewrite (Hno (ch_eqb (byte_of 0))) by (intros c <-%ch_eqb_eq; done). cbn [negb].
  rewrite (Hno (ch_eqb (byte_of 92))) by (intros c <-%ch_eqb_eq; done). cbn [negb].
  rewrite (Hno control); cbn [negb].
  2: { intros c Hc. unfold control in Hc. apply orb_true_iff in Hc. unfold printable.
       replace ((33 <=? byte_val c) && (byte_val c <=? 126)) with false.
       - cbn [orb]. destruct (ch_eqb c "/"%char) eqn:E; [|done]. apply ch_eqb_eq in E as ->.
         destruct Hc as [Hc|Hc]; [by apply Z.ltb_lt in Hc|by apply Z.eqb_eq in Hc].
       - symmetry. apply andb_false_iff. destruct Hc as [Hc%Z.ltb_lt|Hc%Z.eqb_eq]; [left; apply Z.leb_gt; lia|right; apply Z.leb_gt; lia]. }
  cbv zeta. rewrite trim_right_id by (intros d r E; by eapply (join_last segs)).
  rewrite (proj2 (str_eqb_neq _ _)) by (by apply nvme_join_nonempty). cbn [negb].
  rewrite split_join by (done || by apply plain_no_sep). rewrite check_segs_plain by done.
  f_equal. by apply Join_segs.
Qed.

(** ** The paths of the code *)

Definition sSub (n : gostr) : list gostr := [ #"nvmet"; #"subsystems"; n].
Definition sSubAttr (n a : gostr) : list gostr := sSub n ++ [a].
Definition sNs (n i : gostr) : list gostr := sSub n ++ [ #"namespaces"; i].
Definition sNsAttr (n i a : gostr) : list gostr := sNs n i ++ [a].
Definition sAllowed (n h : gostr) : list gostr := sSub n ++ [ #"allowed_hosts"; h].
Definition sHost (h : gostr) : list gostr := [ #"nvmet"; #"hosts"; h].
Definition sPort (i : gostr) : list gostr := [ #"nvmet"; #"ports"; i].
Definition sPortAttr (i a : gostr) : list gostr := sPort i ++ [a].
Definition sLink (i n : gostr) : list gostr := sPort i ++ [ #"subsystems"; n].

Abbreviation text := (join_with "/"%char).



Section Paths.
Context (n h i a : gostr) (Hn : plain_seg n) (Hh : plain_seg h) (Hi : plain_seg i) (Ha : plain_seg a).

Lemma plain_nvmet : plain_seg #"nvmet". Proof. repeat split; by_dec. Qed.
Lemma plain_subsystems : plain_seg #"subsystems". Proof. repeat split; by_dec. Qed.
Lemma plain_namespaces : plain_seg #"namespaces". Proof. repeat split; by_dec. Qed.
Lemma plain_allowed : plain_seg #"allowed_hosts". Proof. repeat split; by_dec. Qed.
Lemma plain_hosts : plain_seg #"hosts". Proof. repeat split; by_dec. Qed.
Lemma plain_ports : plain_seg #"ports". Proof. repeat split; by_dec. Qed.
Hint Resolve plain_nvmet plain_subsystems plain_namespaces plain_allowed plain_hosts plain_ports : core.

Ltac segs_tac := cbn [concat app]; repeat (apply Forall_cons; split; [solve [auto]|]); apply Forall_nil; exact I.

Lemma text_sub : subsysDir n = text (sSub n).
Proof. exact (Join_parts [[ #"nvmet"; #"subsystems"]; [n]] eq_refl ltac:(segs_tac)). Qed.
Lemma text_sub_dir d : plain_seg d -> Join [subsysDir n; d] = text (sSub n ++ [d]).
Proof. intros Hd. rewrite text_sub. exact (Join_parts [sSub n; [d]] eq_refl ltac:(segs_tac)). Qed.
Lemma text_sub_attr : subsysAttr n a = text (sSubAttr n a).
Proof. by apply text_sub_dir. Qed.
Lemma text_host : hostDir h = text (sHost h).
Proof. exact (Join_parts [[ #"nvmet"; #"hosts"]; [h]] eq_refl ltac:(segs_tac)). Qed.
Lemma text_allowed : subsysAllowedHostLink n h = text (sAllowed n h).
Proof. unfold subsysAllowedHostLink. rewrite text_sub. exact (Join_parts [sSub n; [ #"allowed_hosts"]; [h]] eq_refl ltac:(segs_tac)). Qed.
End Paths.

Section NumberPaths.
Context (n a : gostr) (z : Z) (Hn : plain_seg n) (Hz : plain_seg (print_int z)) (Ha : plain_seg a).
Hint Resolve plain_nvmet plain_subsystems plain_namespaces plain_ports : core.
Ltac segs_tac := cbn [concat app]; repeat (apply Forall_cons; split; [solve [auto]|]); apply Forall_nil; exact I.

Lemma text_ns : subsysNS n z = text (sNs n (print_int z)).
Proof. unfold subsysNS. rewrite text_sub by done. exact (Join_parts [sSub n; [ #"namespaces"]; [print_int z]] eq_refl ltac:(segs_tac)). Qed.
Lemma text_ns_attr : subsysNSAttr n z a = text (sNsAttr n (print_int z) a).
Proof. unfold subsysNSAttr. rewrite text_ns. exact (Join_parts [sNs n (print_int z); [a]] eq_refl ltac:(segs_tac)). Qed.
Lemma text_port : portDir z = text (sPort (print_int z)).
Proof. exact (Join_parts [[ #"nvmet"; #"ports"]; [print_int z]] eq_refl ltac:(segs_tac)). Qed.
Lemma text_port_dir d : plain_seg d -> Join [portDir z; d] = text (sPort (print_int z) ++ [d]).
Proof. intros Hd. rewrite text_port. exact (Join_parts [sPort (print_int z); [d]] eq_refl ltac:(segs_tac)). Qed.
Lemma text_link : portSubsysLink z n = text (sLink (print_int z) n).
Proof. unfold portSubsysLink. rewrite text_port. exact (Join_parts [sPort (print_int z); [ #"subsystems"]; [n]] eq_refl ltac:(segs_tac)). Qed.
End NumberPaths.

(** ** Names *)

Lemma nqn_first_char c : nqn_first c = true -> seg_char c = true.
Proof.
  unfold nqn_first. rewrite !orb_true_iff. intros [Hc|Hc].
  - unfold seg_char, printable, is_lower, is_upper, is_digit in *. rewrite !andb_true_iff, !Z.leb_le in Hc.
    apply andb_true_iff. split; [apply andb_true_iff; rewrite !Z.leb_le; lia|]. cbn [existsb]. rewrite orb_false_r, negb_true_iff, orb_false_iff, !ch_eqb_neq.
    split; intros ->; rewrite byte_val_byte_of in Hc by lia; lia.
  - apply existsb_exists in Hc as (d & Hd & ->%ch_eqb_eq). repeat (destruct Hd as [<-|Hd]; [done|]). done.
Qed.

Lemma nqn_safe n : validateNQN n = Ok tt -> seg_ok n = true.
Proof.
  unfold validateNQN. destruct (str_eqb n []) eqn:E0; [done|]. cbn [negb]. destruct (has_prefix n #"nqn.") eqn:Ep; [|done].
  destruct (negb _); [|done]. destruct (nqn_tail _) eqn:Et; [|done]. intros _. apply has_prefix_iff in Ep as [r ->].
  rewrite trim_prefix_app in Et. unfold seg_ok. destruct r as [|c r]; [done|]. apply andb_true_iff in Et as [Hc Hr].
  apply andb_true_iff. split; [done|]. rewrite forallb_app. apply andb_true_iff. split; [done|]. cbn [forallb].
  rewrite nqn_first_char by done. cbn [andb]. rewrite forallb_forall in *. intros d Hd. specialize (Hr d Hd).
  unfold nqn_char in Hr. apply orb_true_iff in Hr as [Hr| ->%ch_eqb_eq]; [by apply nqn_first_char|done].
Qed.

Lemma print_int_safe z : 0 <= z -> seg_ok (print_int z) = true.
Proof.
  intros Hz. unfold print_int. rewrite (proj2 (Z.ltb_ge z 0)) by lia. pose proof (print_uint_nonempty z Hz) as Hne.
  pose proof (print_uint_digits z) as Hd. unfold seg_ok.
  assert (Hdig : Forall (fun c => seg_char c = true) (print_uint z)).
  { eapply Forall_impl; [exact Hd|]. intros c Hc. apply nqn_first_char. unfold nqn_first. by rewrite Hc, orb_true_r. }
  apply andb_true_iff. split.
  - destruct (print_uint z) as [|c r]; [done|]. apply Forall_cons in Hd as [Hc _]. rewrite negb_true_iff, !orb_false_iff, !str_eqb_neq.
    split_and!; [done| |]; intros E; injection E as -> _; done.
  - apply forallb_forall. intros c Hc. rewrite Forall_forall in Hdig. by apply Hdig, list_elem_of_In.
Qed.

Lemma print_int_atoi z : 0 <= z <= MaxInt64 -> atoi (print_int z) = Some z.
Proof. intros Hz. unfold print_int. rewrite (proj2 (Z.ltb_ge z 0)) by lia. by apply print_uint_atoi. Qed.

(** ** The kernel

    What the kernel holds is determined by the changes it accepted, in
    order: directories and links that were made and not removed, and
    attributes that hold what was last written to them, until their
    directory is removed. *)

Inductive event :=
| Made (p : list gostr) | Linked (p : list gostr) | Wrote (p : list gostr) (d : gostr) | Removed (p : list gostr).

Definition present_step (p : list gostr) (b : bool) (e : event) : bool :=
  match e with
  | Made q | Linked q => b || bool_decide (q = p)
  | Removed q => b && negb (bool_decide (q = p))
  | Wrote _ _ => b
  end.
Definition present (h : list event) (p : list gostr) : bool := fold_left (present_step p) h false.

Definition written_step (p : list gostr) (v : option gostr) (e : event) : option gostr :=
  match e with
  | Wrote q d => if bool_decide (q = p) then Some d else v
  | Removed q => if bool_decide (q `prefix_of` p) then None else v
  | _ => v
  end.
Definition last_write (h : list event) (p : list gostr) : option gostr := fold_left (written_step p) h None.

(** The directories whose entries are the objects that were made in them. *)
Inductive collection : list gostr -> Prop :=
| coll_kind k : k ∈ [ #"subsystems"; #"ports"; #"hosts"] -> collection [ #"nvmet"; k]
| coll_sub n k : k ∈ [ #"namespaces"; #"allowed_hosts"] -> collection (sSub n ++ [k])
| coll_port i : collection (sPort i ++ [ #"subsystems"]).

Section Kernel.
Context {W : Type} `{ConfigTree W} (m : Manager) (hist : W -> list event).

Definition at_ (segs : list gostr) : gostr := render true (clean_segs (root m) ++ segs).

(** A working kernel.  Reading an attribute gives what was written up to
    white space at its ends, a namespace that was never enabled reads as
    disabled. *)
Class KernelLaws := {
  mkdir_law k x w w' : safe [k; x] -> os_MkdirAll (at_ [ #"nvmet"; k; x]) w = (w', None) ->
    hist w' = hist w ++ [Made [ #"nvmet"; k; x]];
  mkdir_ns_law n i w w' : safe [n; i] -> present (hist w) (sSub n) = true -> os_MkdirAll (at_ (sNs n i)) w = (w', None) ->
    hist w' = hist w ++ [Made (sNs n i)];
  open_law p w w' r : os_Open p w = (w', r) -> hist w' = hist w;
  close_law p w w' r : os_CloseOf p w = (w', r) -> hist w' = hist w;
  write_law p d w w' : safe p -> os_WriteTo (at_ p) d w = (w', None) -> hist w' = hist w ++ [Wrote p d];
  symlink_law t p w w' : safe p -> os_Symlink t (at_ p) w = (w', None) -> hist w' = hist w ++ [Linked p];
  remove_law p w w' : safe p -> os_Remove (at_ p) w = (w', None) -> hist w' = hist w ++ [Removed p];
  read_law p w w' r : safe p -> os_Read (at_ p) w = (w', r) -> hist w' = hist w /\
    match last_write (hist w) p with Some d => exists d', r = Ok d' /\ trim_space d' = trim_space d | None => True end;
  disabled_law n i w w' r : safe [n; i] -> os_Read (at_ (sNsAttr n i #"enable")) w = (w', r) ->
    last_write (hist w) (sNsAttr n i #"enable") = None -> forall d, r = Ok d -> trim_space d <> #"1";
  list_law p w w' r : safe p -> os_ReadDir (at_ p) w = (w', r) -> hist w' = hist w /\
    (present (hist w) p = true -> exists names, r = Ok names) /\
    (collection p -> match r with
       | Ok names => NoDup names /\ forall n, n ∈ names <-> "/"%char ∉ n /\ present (hist w) (p ++ [n]) = true
       | Err NotExist => forall n, present (hist w) (p ++ [n]) = false
       | Err OtherErr => False
       end) }.
End Kernel.
Arguments KernelLaws W {_} m hist.

(** ** Histories without removals *)

Definition is_removal (e : event) : Prop := match e with Removed _ => True | _ => False end.
Definition created (h : list event) (p : list gostr) : Prop := Made p ∈ h \/ Linked p ∈ h.

Lemma present_created h p : Forall (fun e => ~ is_removal e) h -> present h p = true <-> created h p.
Proof.
  intros Hh. unfold present, created.
  assert (forall b, fold_left (present_step p) h b = true <-> b = true \/ Made p ∈ h \/ Linked p ∈ h) as Hg; [|rewrite Hg; naive_solver].
  induction Hh as [|e h He Hh IH]; intros b; cbn [fold_left]; [set_solver|]. rewrite IH. clear IH. rewrite !elem_of_cons.
  destruct e as [q|q|q d|q]; cbn [present_step]; [| | |by destruct He];
    rewrite ?orb_true_iff, ?bool_decide_eq_true; naive_solver.
Qed.

Lemma present_app h e p : Forall (fun e => ~ is_removal e) e -> present h p = true -> present (h ++ e) p = true.
Proof.
  intros He Hp. unfold present in *. rewrite fold_left_app, Hp. clear Hp. induction He as [|x e Hx He IH]; [done|].
  cbn [fold_left]. by destruct x.
Qed.

Lemma last_write_unique h p d : Forall (fun e => ~ is_removal e) h -> Wrote p d ∈ h -> (forall d', Wrote p d' ∈ h -> d' = d) ->
  last_write h p = Some d.
Proof.
  intros Hh Hin Hu. unfold last_write.
  assert (forall v, v = Some d \/ Wrote p d ∈ h -> fold_left (written_step p) h v = Some d) as Hg; [|by apply Hg; right].
  clear Hin. induction Hh as [|e h He Hh IH]; intros v Hv; cbn [fold_left]; [destruct Hv as [->|Hv]; [done|by apply elem_of_nil in Hv]|].
  apply IH; [intros d' Hd'; apply Hu; by right|]. destruct e as [q|q|q d1|q]; cbn [written_step]; [| | |by destruct He].
  1,2: destruct Hv as [->|Hv]; [by left|apply elem_of_cons in Hv as [?|Hv]; [done|by right]].
  case_bool_decide as E; [subst q; left; f_equal; apply Hu; by left|].
  destruct Hv as [->|Hv]; [by left|]. apply elem_of_cons in Hv as [[= <- <-]|Hv]; [done|by right].
Qed.

Lemma last_write_none h p : (forall d, Wrote p d ∉ h) -> last_write h p = None.
Proof.
  unfold last_write. intros Hn.
  assert (forall v, v = None -> fold_left (written_step p) h v = None) as Hg; [|by apply Hg].
  induction h as [|e h IH]; intros v ->; cbn [fold_left]; [done|]. apply IH; [set_solver|].
  destruct e as [q|q|q d1|q]; cbn [written_step]; try done; case_bool_decide; try done. subst. exfalso. apply (Hn d1). by left.
Qed.

(** ** What a restore does *)

Definition ns_events (n : gostr) (ns : Namespace) : list event :=
  let i := print_int (NSID ns) in
  [Made (sNs n i); Wrote (sNsAttr n i #"device_path") (DevicePath ns)] ++
  (if Enabled ns then [Wrote (sNsAttr n i #"enable") #"1"] else []).

Definition allow_events (n h : gostr) : list event := [Made (sHost h); Linked (sAllowed n h)].

Definition sub_events (s : SavedSubsystem) : list event :=
  let n := sNQN s in
  [Made (sSub n); Wrote (sSubAttr n #"attr_allow_any_host") (if sAllowAnyHost s then #"1" else #"0")] ++
  (if str_eqb (sSerial s) [] then [] else [Wrote (sSubAttr n #"attr_serial") (sSerial s)]) ++
  concat (map (ns_events n) (sNamespaces s)) ++ concat (map (allow_events n) (sAllowedHosts s)).

Definition family (ip : gostr) : gostr := match ParseIP ip with Some a => adrfamFor a | None => [] end.

Definition port_events (p : SavedPort) : list event :=
  let i := print_int (spID p) in
  [Made (sPort i); Wrote (sPortAttr i #"addr_traddr") (spIP p); Wrote (sPortAttr i #"addr_trtype") (spTransport p);
   Wrote (sPortAttr i #"addr_adrfam") (family (spIP p)); Wrote (sPortAttr i #"addr_trsvcid") (print_int (spPort p))] ++
  map (fun n => Linked (sLink i n)) (spSubsystems p).

Definition restore_events (c : SavedConfig) : list event :=
  map (fun h => Made (sHost h)) (Hosts c) ++ concat (map sub_events (Subsystems c)) ++ concat (map port_events (Ports c)).

(** What the calls check of the names and numbers. *)
Definition valid_ns (ns : Namespace) : Prop := 0 < NSID ns.
Definition valid_sub (s : SavedSubsystem) : Prop :=
  validateNQN (sNQN s) = Ok tt /\ Forall valid_ns (sNamespaces s) /\ Forall (fun h => validateNQN h = Ok tt) (sAllowedHosts s).
Definition valid_port (p : SavedPort) : Prop :=
  0 <= spID p /\ (spTransport p = #"tcp" \/ spTransport p = #"rdma") /\ 0 < spPort p <= 65535 /\ is_Some (ParseIP (spIP p)) /\
  Forall (fun n => validateNQN n = Ok tt) (spSubsystems p).
Definition valid_config (c : SavedConfig) : Prop :=
  Version c = SavedConfigVersion /\ Forall (fun h => validateNQN h = Ok tt) (Hosts c) /\ Forall valid_sub (Subsystems c) /\ Forall valid_port (Ports c).

Section Restoring.
Context {W : Type} `{ConfigTree W} (m : Manager) (hist : W -> list event) `{!KernelLaws W m hist}.
Context (Hroot : is_rooted (root m) = true).
Implicit Types (w : W).

Lemma try_ok {A B} (c : M W (res nvme_err A)) (k : A -> M W (res nvme_err B)) w w' b :
  try c k w = (w', Some (Ok b)) -> exists w1 a, c w = (w1, Some (Ok a)) /\ k a w1 = (w', Some (Ok b)).
Proof. unfold try, bind. destruct (c w) as [w1 [[a|e]|]]; [eauto|done|done]. Qed.

Lemma checked_ok {B} v (k : M W (res nvme_err B)) w w' b : checked v k w = (w', Some (Ok b)) -> v = Ok tt /\ k w = (w', Some (Ok b)).
Proof. unfold checked. by destruct v as [[]|e]. Qed.

Lemma cfs_ok {A} (c : M W (res cfs_err A)) w w' a : cfs c w = (w', Some (Ok a)) -> c w = (w', Some (Ok a)).
Proof. unfold cfs, bind, ret, lifted. destruct (c w) as [w1 [[b|e]|]]; intros [=]; by subst. Qed.

Lemma simple_ok f segs w w' u : segs <> [] -> safe segs -> simple m f (text segs) w = (w', Some (Ok u)) -> f (at_ m segs) w = (w', None).
Proof.
  intros Hne Hs. unfold simple, at_path. rewrite resolve_segs by done. unfold bind, call, ret.
  change (render true (clean_segs (root m) ++ segs)) with (at_ m segs).
  destruct (f (at_ m segs) w) as [w1 [e|]]; intros [=]; by subst.
Qed.

Lemma write_ok segs d w w' u : segs <> [] -> safe segs -> WriteFile m (text segs) d w = (w', Some (Ok u)) ->
  hist w' = hist w ++ [Wrote segs d].
Proof.
  intros Hne Hs. unfold WriteFile, at_path. rewrite resolve_segs by done.
  change (render true (clean_segs (root m) ++ segs)) with (at_ m segs). unfold bind, call, ret.
  destruct (os_Open (at_ m segs) w) as [w1 [e|]] eqn:Eo; [done|]. apply (open_law m hist) in Eo.
  destruct (os_WriteTo (at_ m segs) d w1) as [w2 [e|]] eqn:Ew; destruct (os_CloseOf (at_ m segs) w2) as [w3 c] eqn:Ec; [done|].
  apply (close_law m hist) in Ec. apply (write_law m hist) in Ew; [|done]. destruct c; intros [=]; subst. by rewrite Ec, Ew, Eo.
Qed.

Lemma for_each_hist {A} (f : A -> M W (res nvme_err unit)) (ev : A -> list event) (P : A -> Prop) (I : list event -> Prop) l w w' :
  (forall x h, I h -> I (h ++ ev x)) -> I (hist w) ->
  (forall x w w', I (hist w) -> f x w = (w', Some (Ok tt)) -> hist w' = hist w ++ ev x /\ P x) ->
  for_each f l w = (w', Some (Ok tt)) -> hist w' = hist w ++ concat (map ev l) /\ Forall P l.
Proof.
  intros HI Hw Hf. revert w Hw. induction l as [|x l IH]; intros w Hw; cbn [for_each].
  - intros [= <-]. by rewrite app_nil_r.
  - intros (w1 & [] & E1 & E2)%try_ok. apply Hf in E1 as [E1 Hp]; [|done]. apply IH in E2 as [E2 Hps]; [|rewrite E1; by apply HI].
    cbn [map concat]. rewrite E2, E1, app_assoc. split; [done|by constructor].
Qed.

Lemma safe_nqn n : validateNQN n = Ok tt -> seg_ok n = true /\ plain_seg n.
Proof. intros Hn%nqn_safe. split; [done|by apply seg_ok_plain]. Qed.

Ltac safe_tac := unfold safe; repeat (apply Forall_cons; split; [first [assumption|reflexivity]|]); apply Forall_nil; exact I.

Lemma ensure_host_hist h w w' : EnsureHost m h w = (w', Some (Ok tt)) -> hist w' = hist w ++ [Made (sHost h)] /\ validateNQN h = Ok tt.
Proof.
  intros [Hv E%cfs_ok]%checked_ok. destruct (safe_nqn h Hv) as [Hs Hp]. unfold Mkdir in E. rewrite text_host in E by done.
  apply simple_ok in E; [|done|safe_tac]. apply (mkdir_law m hist) in E; [|safe_tac]. done.
Qed.

Lemma add_ns_hist n ns w w' : present (hist w) (sSub n) = true -> AddNamespace m n ns w = (w', Some (Ok tt)) ->
  hist w' = hist w ++ ns_events n ns /\ valid_ns ns.
Proof.
  intros Hpres [Hv E]%checked_ok. destruct (safe_nqn n Hv) as [Hs Hp]. unfold valid_ns.
  destruct (NSID ns <=? 0) eqn:Ei; [done|]. apply Z.leb_gt in Ei. destruct (negb _); [done|].
  assert (Hi : seg_ok (print_int (NSID ns)) = true) by (apply print_int_safe; lia). pose proof (seg_ok_plain _ Hi) as Hip.
  apply try_ok in E as (w1 & [] & E1%cfs_ok & E). unfold Mkdir in E1. rewrite text_ns in E1 by done.
  apply simple_ok in E1; [|done|safe_tac]. apply (mkdir_ns_law m hist) in E1; [|safe_tac|done].
  apply try_ok in E as (w2 & [] & E2%cfs_ok & E). rewrite text_ns_attr in E2 by (done || by repeat split; by_dec).
  apply write_ok in E2; [|done|safe_tac]. split; [|lia]. unfold ns_events. cbv zeta.
  destruct (Enabled ns).
  - apply cfs_ok in E. rewrite text_ns_attr in E by (done || by repeat split; by_dec). apply write_ok in E; [|done|safe_tac].
    by rewrite E, E2, E1, <- !app_assoc.
  - unfold ret in E. injection E as <-. by rewrite E2, E1, app_nil_r, <- !app_assoc.
Qed.

Lemma allow_hist n h w w' : AllowHost m n h w = (w', Some (Ok tt)) ->
  hist w' = hist w ++ allow_events n h /\ validateNQN h = Ok tt.
Proof.
  intros [Hv [Hh E]%checked_ok]%checked_ok. destruct (safe_nqn n Hv) as [Hs Hp], (safe_nqn h Hh) as [Hsh Hph].
  apply try_ok in E as (w1 & [] & [E1 _]%ensure_host_hist & E%cfs_ok). unfold Symlink in E. rewrite text_allowed in E by done.
  apply simple_ok in E; [|done|safe_tac]. apply (symlink_law m hist) in E; [|safe_tac]. split; [|done].
  unfold allow_events. by rewrite E, E1, <- app_assoc.
Qed.

Lemma ns_no_removal n ns : Forall (fun e => ~ is_removal e) (ns_events n ns).
Proof. unfold ns_events. cbv zeta. repeat constructor; cbn; try tauto. destruct (Enabled ns); repeat constructor; cbn; tauto. Qed.

Lemma write_unless_hist segs v w w' : segs <> [] -> safe segs -> write_unless_empty m (text segs) v w = (w', Some (Ok tt)) ->
  hist w' = hist w ++ (if str_eqb v [] then [] else [Wrote segs v]).
Proof.
  intros Hne Hs. unfold write_unless_empty. destruct (str_eqb v []); [intros [= <-]; by rewrite app_nil_r|].
  intros E%cfs_ok. by apply write_ok in E.
Qed.

Lemma restore_sub_hist s w w' : restore_subsystem m s w = (w', Some (Ok tt)) -> hist w' = hist w ++ sub_events s /\ valid_sub s.
Proof.
  unfold restore_subsystem. intros (w1 & [] & [Hv E1]%checked_ok & E)%try_ok. cbn [NQN AllowAnyHost Serial] in E1, Hv.
  destruct (safe_nqn _ Hv) as [Hs Hp].
  apply try_ok in E1 as (w2 & [] & E2%cfs_ok & E1). unfold Mkdir in E2. rewrite text_sub in E2 by done.
  apply simple_ok in E2; [|done|safe_tac]. apply (mkdir_law m hist) in E2; [|safe_tac].
  apply try_ok in E1 as (w3 & [] & E3%cfs_ok & E1). rewrite text_sub_attr in E3 by (done || by repeat split; by_dec).
  apply write_ok in E3; [|done|safe_tac].
  rewrite text_sub_attr in E1 by (done || by repeat split; by_dec). apply write_unless_hist in E1; [|done|safe_tac].
  apply try_ok in E as (w4 & [] & E4 & E5).
  assert (Hpres : present (hist w1) (sSub (sNQN s)) = true).
  { rewrite E1, E3, E2. apply present_app; [by destruct (str_eqb _ _); repeat constructor; cbn; tauto|].
    apply present_app; [repeat constructor; cbn; tauto|]. unfold present. rewrite fold_left_app. cbn [fold_left present_step].
    rewrite bool_decide_true by done. apply orb_true_r. }
  apply (for_each_hist _ (ns_events (sNQN s)) valid_ns (fun h => present h (sSub (sNQN s)) = true)) in E4 as [E4 Hns];
    [|intros x h; by apply present_app, ns_no_removal|done|intros x u u' Hu; by apply add_ns_hist].
  apply (for_each_hist _ (allow_events (sNQN s)) (fun h => validateNQN h = Ok tt) (fun _ => True)) in E5 as [E5 Hah];
    [|done|done|intros x u u' _; apply allow_hist].
  split; [|done]. rewrite E5, E4, E1, E3, E2. unfold sub_events. cbv zeta. rewrite <- !app_assoc. done.
Qed.

Lemma link_hist n i w w' : LinkSubsystemToPort m n i w = (w', Some (Ok tt)) ->
  hist w' = hist w ++ [Linked (sLink (print_int i) n)] /\ validateNQN n = Ok tt.
Proof.
  intros [Hv E]%checked_ok. destruct (safe_nqn n Hv) as [Hs Hp]. destruct (i <? 0) eqn:Ei; [done|]. apply Z.ltb_ge in Ei.
  pose proof (print_int_safe i Ei) as Hi. pose proof (seg_ok_plain _ Hi) as Hip.
  apply cfs_ok in E. unfold Symlink in E. rewrite text_link in E by done. apply simple_ok in E; [|done|safe_tac].
  apply (symlink_law m hist) in E; [done|safe_tac].
Qed.

Lemma concat_singletons {A B} (f : A -> B) l : concat (map (fun x => [f x]) l) = map f l.
Proof. induction l as [|x l IH]; [done|]. cbn [map concat]. by rewrite IH. Qed.

Lemma restore_port_hist p w w' : restore_port m p w = (w', Some (Ok tt)) -> hist w' = hist w ++ port_events p /\ valid_port p.
Proof.
  unfold restore_port. intros (w1 & [] & E1 & E)%try_ok. unfold CreatePort in E1. cbn [ID IP PortNumber Transport] in E1.
  destruct (spID p <? 0) eqn:Ei; [done|]. apply Z.ltb_ge in Ei.
  apply checked_ok in E1 as [Ht E1]. apply checked_ok in E1 as [Hpn E1]. destruct (ParseIP (spIP p)) as [ip|] eqn:Eip; [|done].
  pose proof (print_int_safe _ Ei) as Hi. pose proof (seg_ok_plain _ Hi) as Hip.
  apply try_ok in E1 as (w2 & [] & E2%cfs_ok & E1). unfold Mkdir in E2. rewrite text_port in E2 by done.
  apply simple_ok in E2; [|done|safe_tac]. apply (mkdir_law m hist) in E2; [|safe_tac]. unfold portAttr in E1.
  apply try_ok in E1 as (w3 & [] & E3%cfs_ok & E1). rewrite text_port_dir in E3 by (done || by repeat split; by_dec). apply write_ok in E3; [|done|safe_tac].
  apply try_ok in E1 as (w4 & [] & E4%cfs_ok & E1). rewrite text_port_dir in E4 by (done || by repeat split; by_dec). apply write_ok in E4; [|done|safe_tac].
  apply try_ok in E1 as (w5 & [] & E5%cfs_ok & E1%cfs_ok). rewrite text_port_dir in E5 by (done || by repeat split; by_dec). apply write_ok in E5; [|done|safe_tac].
  rewrite text_port_dir in E1 by (done || by repeat split; by_dec). apply write_ok in E1; [|done|safe_tac].
  apply (for_each_hist _ (fun n => [Linked (sLink (print_int (spID p)) n)]) (fun n => validateNQN n = Ok tt) (fun _ => True)) in E as [E Hl];
    [|done|done|intros x u u' _; apply link_hist].
  split.
  - rewrite E, E1, E5, E4, E3, E2, concat_singletons. unfold port_events, family. cbv zeta. rewrite Eip, <- !app_assoc. done.
  - unfold valid_port, validateTransport, validatePort in *. rewrite Eip. split; [done|]. split.
    + destruct (str_eqb (spTransport p) #"tcp") eqn:E6; [left; by apply str_eqb_eq|].
      destruct (str_eqb (spTransport p) #"rdma") eqn:E7; [right; by apply str_eqb_eq|done].
    + destruct ((spPort p <=? 0) || (65535 <? spPort p)) eqn:E8; [done|]. apply orb_false_iff in E8 as [?%Z.leb_gt ?%Z.ltb_ge].
      split; [lia|]. split; [by eexists|done].
Qed.

Lemma restore_hist c w w' : Restore m c w = (w', Some (Ok tt)) -> hist w' = hist w ++ restore_events c /\ valid_config c.
Proof.
  unfold Restore. destruct (Version c =? SavedConfigVersion) eqn:Ev; [|done]. cbn [negb]. apply Z.eqb_eq in Ev.
  intros (w1 & [] & E1 & (w2 & [] & E2 & E3)%try_ok)%try_ok.
  apply (for_each_hist _ (fun h => [Made (sHost h)]) (fun h => validateNQN h = Ok tt) (fun _ => True)) in E1 as [E1 Hh];
    [|done|done|intros x u u' _; apply ensure_host_hist].
  apply (for_each_hist _ sub_events valid_sub (fun _ => True)) in E2 as [E2 Hs]; [|done|done|intros x u u' _; apply restore_sub_hist].
  apply (for_each_hist _ port_events valid_port (fun _ => True)) in E3 as [E3 Hp]; [|done|done|intros x u u' _; apply restore_port_hist].
  split; [|done]. rewrite E3, E2, E1, concat_singletons. unfold restore_events. by rewrite <- !app_assoc.
Qed.
End Restoring.
