(* ===== verification/NvmeOfRoundTrip.v ===== *)
(** * What is restored is what is saved next

    The history of a restore determines what a save reads. *)

From S2P Require Import Prelude GoStrings GoText GoPath GoNet SortLib Effects HostExec HostFiles NvmeOf NvmeOfSave.
Import Cfs Nvme.

#[local] Arguments str : simpl never.

(** ** Sorted names *)

Abbreviation str_sorted := (StronglySorted (fun a b : gostr => str_ltb a b = true)).

Lemma str_comparable (l : list gostr) : comparable str_ltb l.
Proof.
  intros x y _ _ Hne. destruct (str_ltb x y) eqn:E1; [by left|]. destruct (str_ltb y x) eqn:E2; [by right|].
  by destruct (Hne (str_ltb_total x y E1 E2)).
Qed.

Lemma sort_names_perm (l l' : list gostr) : NoDup l' -> l ≡ₚ l' -> stable_sort str_ltb l = stable_sort str_ltb l'.
Proof.
  intros Hd Hp. apply stable_sort_unique; [apply str_ltb_trans|apply str_ltb_irrefl|by rewrite stable_sort_perm|].
  apply stable_sort_strict; [apply str_ltb_trans|done|apply str_comparable].
Qed.

Lemma sort_names_id l : str_sorted l -> stable_sort str_ltb l = l.
Proof. intros Hs. apply stable_sort_unique; [apply str_ltb_trans|apply str_ltb_irrefl|done|done]. Qed.

Lemma names_NoDup l : str_sorted l -> NoDup l.
Proof. apply strict_sorted_NoDup. apply str_ltb_irrefl. Qed.

(** ** Configurations as a save gives them *)

Definition ns_order (a b : Namespace) : bool := NSID a <? NSID b.
Definition sub_order (a b : SavedSubsystem) : bool := str_ltb (sNQN a) (sNQN b).
Definition port_order (a b : SavedPort) : bool := spID a <? spID b.

Record sub_as_saved (hosts : list gostr) (s : SavedSubsystem) : Prop := {
  as_serial : trimmed (sSerial s) /\ sSerial s <> [];
  as_ns_sorted : StronglySorted (fun a b => ns_order a b = true) (sNamespaces s);
  as_ns : Forall (fun ns => NSID ns <= MaxInt64 /\ trimmed (DevicePath ns)) (sNamespaces s);
  as_allowed : str_sorted (sAllowedHosts s) /\ Forall (fun h => h ∈ hosts) (sAllowedHosts s) }.

Record as_saved (c : SavedConfig) : Prop := {
  as_hosts : str_sorted (Hosts c);
  as_subs_sorted : StronglySorted (fun a b => sub_order a b = true) (Subsystems c);
  as_subs : Forall (sub_as_saved (Hosts c)) (Subsystems c);
  as_ports_sorted : StronglySorted (fun a b => port_order a b = true) (Ports c);
  as_ports : Forall (fun p => spID p <= MaxInt64 /\ str_sorted (spSubsystems p)) (Ports c) }.

(** ** The history of a restore *)

Lemma elem_of_concat_map {A B} (f : A -> list B) l y : y ∈ concat (map f l) <-> exists x, x ∈ l /\ y ∈ f x.
Proof.
  rewrite list_elem_of_In, in_concat. split.
  - intros (ys & Hys & Hy). apply in_map_iff in Hys as (x & <- & Hx). exists x. by rewrite !list_elem_of_In.
  - intros (x & Hx & Hy). exists (f x). rewrite list_elem_of_In in Hy. split; [|done]. apply in_map. by apply list_elem_of_In.
Qed.

Definition made_by (c : SavedConfig) (p : list gostr) : Prop :=
  (exists h, h ∈ Hosts c /\ p = sHost h) \/
  (exists s, s ∈ Subsystems c /\ (p = sSub (sNQN s) \/ (exists ns, ns ∈ sNamespaces s /\ p = sNs (sNQN s) (print_int (NSID ns))) \/
                                  (exists h, h ∈ sAllowedHosts s /\ p = sHost h))) \/
  (exists q, q ∈ Ports c /\ p = sPort (print_int (spID q))).

Definition linked_by (c : SavedConfig) (p : list gostr) : Prop :=
  (exists s h, s ∈ Subsystems c /\ h ∈ sAllowedHosts s /\ p = sAllowed (sNQN s) h) \/
  (exists q n, q ∈ Ports c /\ n ∈ spSubsystems q /\ p = sLink (print_int (spID q)) n).

Definition written_by_sub (s : SavedSubsystem) (p : list gostr) (d : gostr) : Prop :=
  (p = sSubAttr (sNQN s) #"attr_allow_any_host" /\ d = if sAllowAnyHost s then #"1" else #"0") \/
  (sSerial s <> [] /\ p = sSubAttr (sNQN s) #"attr_serial" /\ d = sSerial s) \/
  (exists ns, ns ∈ sNamespaces s /\
     ((p = sNsAttr (sNQN s) (print_int (NSID ns)) #"device_path" /\ d = DevicePath ns) \/
      (Enabled ns = true /\ p = sNsAttr (sNQN s) (print_int (NSID ns)) #"enable" /\ d = #"1"))).

Definition written_by_port (q : SavedPort) (p : list gostr) (d : gostr) : Prop :=
  (p = sPortAttr (print_int (spID q)) #"addr_traddr" /\ d = spIP q) \/
  (p = sPortAttr (print_int (spID q)) #"addr_trtype" /\ d = spTransport q) \/
  (p = sPortAttr (print_int (spID q)) #"addr_adrfam" /\ d = family (spIP q)) \/
  (p = sPortAttr (print_int (spID q)) #"addr_trsvcid" /\ d = print_int (spPort q)).

Lemma ns_event_iff n ns e : e ∈ ns_events n ns <->
  e = Made (sNs n (print_int (NSID ns))) \/ e = Wrote (sNsAttr n (print_int (NSID ns)) #"device_path") (DevicePath ns) \/
  (Enabled ns = true /\ e = Wrote (sNsAttr n (print_int (NSID ns)) #"enable") #"1").
Proof. unfold ns_events. cbv zeta. rewrite elem_of_app, !elem_of_cons, elem_of_nil. destruct (Enabled ns); rewrite ?elem_of_cons, ?elem_of_nil; naive_solver. Qed.

Lemma sub_event_iff s e : e ∈ sub_events s <->
  e = Made (sSub (sNQN s)) \/ e = Wrote (sSubAttr (sNQN s) #"attr_allow_any_host") (if sAllowAnyHost s then #"1" else #"0") \/
  (sSerial s <> [] /\ e = Wrote (sSubAttr (sNQN s) #"attr_serial") (sSerial s)) \/
  (exists ns, ns ∈ sNamespaces s /\ e ∈ ns_events (sNQN s) ns) \/
  (exists h, h ∈ sAllowedHosts s /\ (e = Made (sHost h) \/ e = Linked (sAllowed (sNQN s) h))).
Proof.
  unfold sub_events. cbv zeta. rewrite !elem_of_app, !elem_of_concat_map, !elem_of_cons, elem_of_nil. unfold allow_events.
  setoid_rewrite elem_of_cons. setoid_rewrite list_elem_of_singleton.
  destruct (str_eqb (sSerial s) []) eqn:E; [apply str_eqb_eq in E|apply str_eqb_neq in E];
    rewrite ?elem_of_nil, ?list_elem_of_singleton; naive_solver.
Qed.

Lemma port_event_iff q e : e ∈ port_events q <->
  e = Made (sPort (print_int (spID q))) \/ (exists p d, e = Wrote p d /\ written_by_port q p d) \/
  (exists n, n ∈ spSubsystems q /\ e = Linked (sLink (print_int (spID q)) n)).
Proof.
  unfold port_events, written_by_port. cbv zeta. rewrite elem_of_app, !elem_of_cons, elem_of_nil, list_elem_of_In, in_map_iff.
  setoid_rewrite <- list_elem_of_In. naive_solver.
Qed.

Lemma event_iff c e : e ∈ restore_events c <->
  (exists h, h ∈ Hosts c /\ e = Made (sHost h)) \/ (exists s, s ∈ Subsystems c /\ e ∈ sub_events s) \/
  (exists q, q ∈ Ports c /\ e ∈ port_events q).
Proof.
  unfold restore_events. rewrite !elem_of_app, !elem_of_concat_map, list_elem_of_In, in_map_iff.
  setoid_rewrite <- list_elem_of_In. naive_solver.
Qed.

Lemma made_iff c p : Made p ∈ restore_events c <-> made_by c p.
Proof.
  rewrite event_iff. unfold made_by. setoid_rewrite sub_event_iff. setoid_rewrite port_event_iff. setoid_rewrite ns_event_iff.
  naive_solver.
Qed.

Lemma linked_iff c p : Linked p ∈ restore_events c <-> linked_by c p.
Proof.
  rewrite event_iff. unfold linked_by. setoid_rewrite sub_event_iff. setoid_rewrite port_event_iff. setoid_rewrite ns_event_iff.
  naive_solver.
Qed.

Lemma wrote_iff c p d : Wrote p d ∈ restore_events c <->
  (exists s, s ∈ Subsystems c /\ written_by_sub s p d) \/ (exists q, q ∈ Ports c /\ written_by_port q p d).
Proof.
  rewrite event_iff. unfold written_by_sub. setoid_rewrite sub_event_iff. setoid_rewrite port_event_iff. setoid_rewrite ns_event_iff.
  naive_solver.
Qed.

Lemma restore_no_removal c : Forall (fun e => ~ is_removal e) (restore_events c).
Proof.
  apply Forall_forall. intros e He%event_iff Hr. destruct e; try done.
  setoid_rewrite sub_event_iff in He. setoid_rewrite port_event_iff in He. setoid_rewrite ns_event_iff in He. naive_solver.
Qed.

(** ** Observing a history *)

Section Observing.
Context {W : Type} `{ConfigTree W} (m : Manager) (hist : W -> list event) `{!KernelLaws W m hist}.
Context (Hroot : is_rooted (root m) = true) (E : list event) (Hkept : Forall (fun e => ~ is_removal e) E).

(** From any kernel with this history the call gives this and leaves the
    history. *)
Definition obs {A} (c : M W A) (a : A) : Prop := forall w, hist w = E -> exists w', c w = (w', Some a) /\ hist w' = E.

Lemma obs_ret {A} (a : A) : obs (ret a) a.
Proof. intros w Hw. by exists w. Qed.

Lemma obs_bind {A B} (c : M W A) (k : A -> M W B) a b : obs c a -> obs (k a) b -> obs (bind c k) b.
Proof. intros Hc Hk w Hw. destruct (Hc w Hw) as (w1 & E1 & Hw1). unfold bind. rewrite E1. by apply Hk. Qed.

Lemma obs_try {A B} (c : M W (res nvme_err A)) (k : A -> M W (res nvme_err B)) a b : obs c (Ok a) -> obs (k a) b -> obs (try c k) b.
Proof. intros Hc Hk. unfold try. by eapply obs_bind. Qed.

(** What the call gives is not used. *)
Lemma obs_try_any {A B} (c : M W (res nvme_err A)) (k : M W (res nvme_err B)) b :
  (forall w, hist w = E -> exists w' a, c w = (w', Some (Ok a)) /\ hist w' = E) -> obs k b -> obs (try c (fun _ => k)) b.
Proof. intros Hc Hk w Hw. destruct (Hc w Hw) as (w1 & a & E1 & Hw1). unfold try, bind. rewrite E1. by apply Hk. Qed.

Lemma obs_read_each {A B} (f : A -> M W (option B)) (key : B -> A) l : Forall (fun y => obs (f (key y)) (Some y)) l ->
  obs (read_each f (map key l)) l.
Proof.
  induction 1 as [|y l Hy Hl IH]; [apply obs_ret|]. cbn [map read_each].
  eapply obs_bind; [exact Hy|]. eapply obs_bind; [exact IH|]. apply obs_ret.
Qed.

Lemma obs_collect {A B} (f : A -> M W (res nvme_err B)) (key : B -> A) l : Forall (fun y => obs (f (key y)) (Ok y)) l ->
  obs (collect f (map key l)) (Ok l).
Proof.
  induction 1 as [|y l Hy Hl IH]; [apply obs_ret|]. cbn [map collect].
  eapply obs_try; [exact Hy|]. eapply obs_try; [exact IH|]. apply obs_ret.
Qed.

Lemma read_at segs w : safe segs -> segs <> [] ->
  ReadFile m (text segs) w = let (w', r) := os_Read (at_ m segs) w in (w', Some (match r with Err e => Err (Os e) | Ok d => Ok d end)).
Proof.
  intros Hs Hne. unfold ReadFile, at_path. rewrite resolve_segs by done. unfold bind, call, ret.
  change (render true (clean_segs (root m) ++ segs)) with (at_ m segs). by destruct (os_Read (at_ m segs) w).
Qed.

Lemma list_at segs w : safe segs -> segs <> [] ->
  ListDir m (text segs) w = let (w', r) := os_ReadDir (at_ m segs) w in
    (w', Some (match r with Err e => Err (Os e) | Ok names => Ok (stable_sort str_ltb names) end)).
Proof.
  intros Hs Hne. unfold ListDir, at_path. rewrite resolve_segs by done. unfold bind, call, ret.
  change (render true (clean_segs (root m) ++ segs)) with (at_ m segs). by destruct (os_ReadDir (at_ m segs) w).
Qed.

(** An attribute that was written once. *)
Lemma obs_attr segs d : safe segs -> segs <> [] -> Wrote segs d ∈ E -> (forall d', Wrote segs d' ∈ E -> d' = d) -> trimmed d ->
  obs (read_attr m (text segs)) (Some d).
Proof.
  intros Hs Hne Hin Hu Ht w Hw. unfold read_attr, bind. rewrite read_at by done.
  destruct (os_Read (at_ m segs) w) as [w' r] eqn:Er. destruct (read_law m hist _ _ _ _ Hs Er) as [Hw' Hr].
  rewrite Hw, (last_write_unique _ _ d) in Hr by done. destruct Hr as (d' & -> & Hd). unfold ret. exists w'. rewrite Hd, Ht.
  split; [done|by rewrite Hw'].
Qed.

(** A namespace that was not enabled. *)
Lemma disabled_attr n i w : safe [n; i] -> (forall d, Wrote (sNsAttr n i #"enable") d ∉ E) -> hist w = E ->
  exists w' r, read_attr m (text (sNsAttr n i #"enable")) w = (w', Some r) /\ hist w' = E /\ r <> Some #"1".
Proof.
  intros Hs Hno Hw. assert (Hs' : safe (sNsAttr n i #"enable")).
  { apply Forall_cons in Hs as [Hn Hs]. apply Forall_cons in Hs as [Hi _]. by repeat (apply Forall_cons; split; [first [assumption|reflexivity]|]). }
  unfold read_attr, bind. rewrite read_at by done.
  destruct (os_Read (at_ m (sNsAttr n i #"enable")) w) as [w' r] eqn:Er. destruct (read_law m hist _ _ _ _ Hs' Er) as [Hw' _].
  pose proof (disabled_law m hist n i w w' r Hs Er) as Hd. rewrite Hw in Hd. specialize (Hd (last_write_none _ _ Hno)).
  unfold ret. eexists _, _. split; [done|]. split; [by rewrite Hw'|]. destruct r as [d|e]; [|done]. intros [= E1]. by apply (Hd d).
Qed.

(** A collection lists what was made in it. *)
Lemma obs_list segs (X : list gostr) : safe segs -> segs <> [] -> collection segs -> NoDup X -> Forall (fun n => "/"%char ∉ n) X ->
  (forall n, created E (segs ++ [n]) <-> n ∈ X) -> obs (list_or_none m (text segs)) (Ok (stable_sort str_ltb X)).
Proof.
  intros Hs Hne Hc Hd Hsl HX w Hw. unfold list_or_none, bind. rewrite list_at by done.
  destruct (os_ReadDir (at_ m segs) w) as [w' r] eqn:Er. destruct (list_law m hist _ _ _ _ Hs Er) as (Hw' & _ & Hr).
  specialize (Hr Hc). rewrite Hw in Hr. exists w'. split; [|by rewrite Hw'].
  assert (Hp : forall n, present E (segs ++ [n]) = true <-> n ∈ X) by (intros n; by rewrite present_created).
  destruct r as [names|[]]; [| |done].
  - destruct Hr as [Hdn Hr]. unfold ret. do 3 f_equal. apply sort_names_perm; [done|]. apply NoDup_Permutation; [done|done|].
    intros n. rewrite Hr, Hp. rewrite Forall_forall in Hsl. naive_solver.
  - destruct X as [|x X]; [done|]. specialize (Hr x). rewrite (proj2 (Hp x)) in Hr by set_solver. done.
Qed.

(** A directory that was made can be listed. *)
Lemma list_made segs w : safe segs -> segs <> [] -> created E segs -> hist w = E ->
  exists w' a, cfs (ListDir m (text segs)) w = (w', Some (Ok a)) /\ hist w' = E.
Proof.
  intros Hs Hne Hc Hw. unfold cfs, bind. rewrite list_at by done.
  destruct (os_ReadDir (at_ m segs) w) as [w' r] eqn:Er. destruct (list_law m hist _ _ _ _ Hs Er) as (Hw' & Hr & _).
  rewrite Hw in Hr. apply present_created in Hc; [|done]. destruct (Hr Hc) as [names ->]. unfold ret. cbn [lifted].
  eexists _, _. split; [done|]. by rewrite Hw'.
Qed.
End Observing.

(** ** What a restored kernel shows *)

Lemma cons_eq {A} (x y : A) l l' : x :: l = y :: l' -> x = y /\ l = l'.
Proof. by intros [= -> ->]. Qed.

(** Compare two paths of the code segment by segment. *)
Ltac path_eq :=
  unfold sSubAttr, sNsAttr, sPortAttr, sNs, sAllowed, sLink, sSub, sHost, sPort in *; cbn [app] in *;
  repeat match goal with
  | H : _ :: _ = _ :: _ |- _ => apply cons_eq in H as [? ?]
  | H : [] = _ :: _ |- _ => discriminate H
  | H : _ :: _ = [] |- _ => discriminate H
  | H : @eq (list gostr) [] [] |- _ => clear H
  | H : str _ = str _ |- _ => first [discriminate H | clear H]
  end.

Lemma sorted_key {A K} (key : A -> K) (less : K -> K -> bool) l x y : (forall k, less k k = false) ->
  StronglySorted (fun a b => less (key a) (key b) = true) l -> x ∈ l -> y ∈ l -> key x = key y -> x = y.
Proof.
  intros Hirr. induction 1 as [|a l Hs IH Ha]; intros Hx Hy E; [by apply elem_of_nil in Hx|]. rewrite Forall_forall in Ha.
  apply elem_of_cons in Hx as [->|Hx], Hy as [->|Hy]; [done| | |by apply IH].
  - specialize (Ha _ Hy). cbv beta in Ha. rewrite E, Hirr in Ha. done.
  - specialize (Ha _ Hx). cbv beta in Ha. rewrite E, Hirr in Ha. done.
Qed.

Lemma sorted_map {A K} (key : A -> K) (less : K -> K -> bool) l :
  StronglySorted (fun a b => less (key a) (key b) = true) l -> StronglySorted (fun a b => less a b = true) (map key l).
Proof. induction 1 as [|a l Hs IH Ha]; constructor; [done|]. by apply Forall_map. Qed.

Lemma print_int_inj a b : 0 <= a <= MaxInt64 -> 0 <= b <= MaxInt64 -> print_int a = print_int b -> a = b.
Proof. intros Ha Hb E. apply (f_equal atoi) in E. rewrite !print_int_atoi in E by done. by injection E. Qed.

Lemma numbers_NoDup {A} (f : A -> Z) l : Forall (fun x => 0 <= f x <= MaxInt64) l -> NoDup (map f l) -> NoDup (map (fun x => print_int (f x)) l).
Proof.
  induction 1 as [|x l Hx Hl IH]; [constructor|]. cbn [map]. rewrite !NoDup_cons. intros [Hn Hd]. split; [|by apply IH].
  intros Hin%list_elem_of_fmap. destruct Hin as (y & Ey & Hy). apply Hn. rewrite Forall_forall in Hl.
  apply print_int_inj in Ey; [|done|by apply Hl]. rewrite Ey. by apply list_elem_of_fmap_2.
Qed.

Lemma numbers_noslash {A} (f : A -> Z) l : Forall (fun x => 0 <= f x <= MaxInt64) l -> Forall (fun n => "/"%char ∉ n) (map (fun x => print_int (f x)) l).
Proof. intros Hl. apply Forall_map. eapply Forall_impl; [exact Hl|]. intros x [Hx _]. by destruct (seg_ok_plain _ (print_int_safe (f x) Hx)) as (_ & _ & _ & ?). Qed.

Lemma nqns_noslash l : Forall (fun n => validateNQN n = Ok tt) l -> Forall (fun n => "/"%char ∉ n) l.
Proof. intros Hl. eapply Forall_impl; [exact Hl|]. intros x Hx. by destruct (safe_nqn x Hx) as [_ (_ & _ & _ & ?)]. Qed.

Section Restored.
Context (c : SavedConfig) (Hv : valid_config c) (Hs : as_saved c).
Abbreviation E := (restore_events c).

Lemma same_sub s s' : s ∈ Subsystems c -> s' ∈ Subsystems c -> sNQN s = sNQN s' -> s = s'.
Proof. apply (sorted_key sNQN str_ltb); [apply str_ltb_irrefl|apply Hs]. Qed.

Lemma sub_facts s : s ∈ Subsystems c -> valid_sub s /\ sub_as_saved (Hosts c) s.
Proof. destruct Hv as (_ & _ & H1 & _). pose proof (as_subs c Hs) as H2. rewrite Forall_forall in H1, H2. auto. Qed.

Lemma port_facts q : q ∈ Ports c -> valid_port q /\ spID q <= MaxInt64 /\ str_sorted (spSubsystems q).
Proof. destruct Hv as (_ & _ & _ & H1). pose proof (as_ports c Hs) as H2. rewrite Forall_forall in H1, H2. auto. Qed.

Lemma ns_facts s ns : s ∈ Subsystems c -> ns ∈ sNamespaces s -> 0 < NSID ns <= MaxInt64 /\ trimmed (DevicePath ns).
Proof.
  intros Hin Hns. destruct (sub_facts s Hin) as [(_ & H1 & _) H2]. pose proof (as_ns _ _ H2) as H3. rewrite Forall_forall in H1, H3.
  specialize (H1 _ Hns). destruct (H3 _ Hns). unfold valid_ns in H1. split; [lia|done].
Qed.

Lemma same_ns s ns ns' : s ∈ Subsystems c -> ns ∈ sNamespaces s -> ns' ∈ sNamespaces s -> print_int (NSID ns) = print_int (NSID ns') -> ns = ns'.
Proof.
  intros Hin Hns Hns' Eq. destruct (sub_facts s Hin) as [_ H2]. destruct (ns_facts s ns Hin Hns) as [? _], (ns_facts s ns' Hin Hns') as [? _].
  apply print_int_inj in Eq; [|lia|lia]. eapply (sorted_key NSID Z.ltb); [apply Z.ltb_irrefl|apply H2|done|done|done].
Qed.

Lemma same_port q q' : q ∈ Ports c -> q' ∈ Ports c -> print_int (spID q) = print_int (spID q') -> q = q'.
Proof.
  intros Hq Hq' Eq. destruct (port_facts q Hq) as ((? & _) & ? & _), (port_facts q' Hq') as ((? & _) & ? & _).
  apply print_int_inj in Eq; [|lia|lia]. eapply (sorted_key spID Z.ltb); [apply Z.ltb_irrefl|apply Hs|done|done|done].
Qed.

Lemma subs_created n : created E [ #"nvmet"; #"subsystems"; n] <-> n ∈ map sNQN (Subsystems c).
Proof.
  unfold created. rewrite made_iff, linked_iff, list_elem_of_fmap. unfold made_by, linked_by. split.
  - intros Hc. naive_solver path_eq; naive_solver.
  - intros (s & -> & Hin). left. right. left. exists s. by auto.
Qed.

Ltac split_events := unfold created; rewrite made_iff, linked_iff; unfold made_by, linked_by.

Lemma hosts_created h : created E [ #"nvmet"; #"hosts"; h] <-> h ∈ Hosts c.
Proof.
  split_events. split.
  - intros [[(h' & Hh & Eq)|[(s & Hin & [Eq|[(ns & _ & Eq)|(h' & Hh & Eq)]])|(q & _ & Eq)]]|[(s & h' & _ & _ & Eq)|(q & n & _ & _ & Eq)]];
      path_eq; subst; [done|]. destruct (sub_facts s Hin) as [_ H2]. destruct (as_allowed _ _ H2) as [_ H3]. rewrite Forall_forall in H3. auto.
  - intros Hh. left. left. by exists h.
Qed.

Lemma ports_created i : created E [ #"nvmet"; #"ports"; i] <-> i ∈ map (fun q => print_int (spID q)) (Ports c).
Proof.
  rewrite list_elem_of_fmap. split_events. split.
  - intros [[(h' & Hh & Eq)|[(s & Hin & [Eq|[(ns & _ & Eq)|(h' & Hh & Eq)]])|(q & Hq & Eq)]]|[(s & h' & _ & _ & Eq)|(q & n & _ & _ & Eq)]];
      path_eq; subst. by exists q.
  - intros (q & -> & Hq). left. right. right. by exists q.
Qed.

Lemma namespaces_created s i : s ∈ Subsystems c ->
  created E (sNs (sNQN s) i) <-> i ∈ map (fun ns => print_int (NSID ns)) (sNamespaces s).
Proof.
  intros Hin. rewrite list_elem_of_fmap. split_events. split.
  - intros [[(h' & Hh & Eq)|[(s' & Hin' & [Eq|[(ns & Hns & Eq)|(h' & Hh & Eq)]])|(q & Hq & Eq)]]|[(s' & h' & _ & _ & Eq)|(q & n & _ & _ & Eq)]];
      path_eq; subst. rewrite (same_sub s s') by done. by exists ns.
  - intros (ns & -> & Hns). left. right. left. exists s. split; [done|]. right. left. by exists ns.
Qed.

Lemma allowed_created s h : s ∈ Subsystems c -> created E (sAllowed (sNQN s) h) <-> h ∈ sAllowedHosts s.
Proof.
  intros Hin. split_events. split.
  - intros [[(h' & Hh & Eq)|[(s' & Hin' & [Eq|[(ns & Hns & Eq)|(h' & Hh & Eq)]])|(q & Hq & Eq)]]|[(s' & h' & Hin' & Hh & Eq)|(q & n & _ & _ & Eq)]];
      path_eq; subst. by rewrite (same_sub s s').
  - intros Hh. right. left. by exists s, h.
Qed.

Lemma links_created q n : q ∈ Ports c -> created E (sLink (print_int (spID q)) n) <-> n ∈ spSubsystems q.
Proof.
  intros Hq. split_events. split.
  - intros [[(h' & Hh & Eq)|[(s' & Hin' & [Eq|[(ns & Hns & Eq)|(h' & Hh & Eq)]])|(q' & Hq' & Eq)]]|[(s' & h' & Hin' & Hh & Eq)|(q' & n' & Hq' & Hn & Eq)]];
      path_eq; subst. by rewrite (same_port q q').
  - intros Hn. right. right. by exists q, n.
Qed.

(** Every attribute was written once. *)
Definition once (p : list gostr) (d : gostr) : Prop := Wrote p d ∈ E /\ forall d', Wrote p d' ∈ E -> d' = d.

Ltac once_tac := let Hw := fresh in intros d' Hw%wrote_iff; unfold written_by_sub, written_by_port in Hw;
  destruct Hw as [(s' & Hin' & [[Eq ->]|[(_ & Eq & ->)|(ns' & Hns' & [[Eq ->]|(_ & Eq & ->)])]])|(q' & Hq' & [[Eq ->]|[[Eq ->]|[[Eq ->]|[Eq ->]]]])]; path_eq; subst.

Lemma once_any s : s ∈ Subsystems c -> once (sSubAttr (sNQN s) #"attr_allow_any_host") (if sAllowAnyHost s then #"1" else #"0").
Proof. intros Hin. split; [apply wrote_iff; left; exists s; unfold written_by_sub; auto|]. once_tac. by rewrite (same_sub s s'). Qed.

Lemma once_serial s : s ∈ Subsystems c -> sSerial s <> [] -> once (sSubAttr (sNQN s) #"attr_serial") (sSerial s).
Proof. intros Hin Hne. split; [apply wrote_iff; left; exists s; unfold written_by_sub; auto 9|]. once_tac. by rewrite (same_sub s s'). Qed.

Lemma once_device s ns : s ∈ Subsystems c -> ns ∈ sNamespaces s -> once (sNsAttr (sNQN s) (print_int (NSID ns)) #"device_path") (DevicePath ns).
Proof.
  intros Hin Hns. split; [apply wrote_iff; left; exists s; unfold written_by_sub; eauto 9|]. once_tac.
  rewrite <- (same_sub s s') in Hns' by done. by rewrite (same_ns s ns ns').
Qed.

Lemma once_enable s ns : s ∈ Subsystems c -> ns ∈ sNamespaces s -> Enabled ns = true -> once (sNsAttr (sNQN s) (print_int (NSID ns)) #"enable") #"1".
Proof. intros Hin Hns He. split; [apply wrote_iff; left; exists s; unfold written_by_sub; eauto 9|]. once_tac. done. Qed.

Lemma never_enable s ns : s ∈ Subsystems c -> ns ∈ sNamespaces s -> Enabled ns = false ->
  forall d, Wrote (sNsAttr (sNQN s) (print_int (NSID ns)) #"enable") d ∉ E.
Proof.
  intros Hin Hns He d Hw%wrote_iff. unfold written_by_sub, written_by_port in Hw.
  destruct Hw as [(s' & Hin' & [[Eq ->]|[(_ & Eq & ->)|(ns' & Hns' & [[Eq ->]|(He' & Eq & ->)])]])|(q' & Hq' & [[Eq ->]|[[Eq ->]|[[Eq ->]|[Eq ->]]]])];
    path_eq; subst. rewrite <- (same_sub s s') in Hns' by done. rewrite (same_ns s ns ns') in He by done. congruence.
Qed.

Lemma once_port q a d : q ∈ Ports c -> (a, d) ∈ [( #"addr_traddr", spIP q); ( #"addr_trtype", spTransport q); ( #"addr_trsvcid", print_int (spPort q))] ->
  once (sPortAttr (print_int (spID q)) a) d.
Proof.
  intros Hq Ha. rewrite !elem_of_cons, elem_of_nil in Ha. destruct Ha as [[= -> ->]|[[= -> ->]|[[= -> ->]|[]]]];
    (split; [apply wrote_iff; right; exists q; unfold written_by_port; auto 9|once_tac; by rewrite (same_port q q')]).
Qed.
End Restored.

(** ** Saving the restored kernel *)

Lemma perm_map {A B} (f : A -> B) l l' : l' ≡ₚ map f l -> exists k, l' = map f k /\ k ≡ₚ l.
Proof. intros (k & -> & Hk)%Permutation_map_inv. by exists k. Qed.

Lemma addr_printable ch : addr_char ch = true -> printable ch = true.
Proof.
  intros Hc. destruct ch as [b0 b1 b2 b3 b4 b5 b6 b7]. revert Hc.
  destruct b0, b1, b2, b3, b4, b5, b6, b7; vm_compute; congruence.
Qed.

Lemma addr_trimmed s a : ParseAddr s = Some a -> trimmed s.
Proof.
  intros [Hne Hc]%ParseAddr_chars. apply trim_space_bounded, word_bounded, word_iff. split; [done|].
  eapply Forall_impl; [exact Hc|apply addr_printable].
Qed.

Section Saving.
Context {W : Type} `{ConfigTree W} (m : Manager) (hist : W -> list event) `{!KernelLaws W m hist}.
Context (Hroot : is_rooted (root m) = true) (c : SavedConfig) (Hv : valid_config c) (Hs : as_saved c).
Abbreviation E := (restore_events c).
Abbreviation sees := (obs hist E).

Definition sub_of (s : SavedSubsystem) : Subsystem := mkSubsystem (sNQN s) (sAllowAnyHost s) (sSerial s).
Definition port_of (q : SavedPort) : Port := mkPort (spID q) (spIP q) (spPort q) (spTransport q).

Ltac safe_tac := unfold safe; repeat (apply Forall_cons; split; [first [assumption|reflexivity]|]); apply Forall_nil; exact I.

Lemma sees_once segs d : safe segs -> segs <> [] -> once c segs d -> trimmed d -> sees (read_attr m (text segs)) (Some d).
Proof. intros Hsafe Hne [Hin Hu] Ht. by apply (obs_attr m hist Hroot E (restore_no_removal c)). Qed.

Lemma sees_list segs X : safe segs -> segs <> [] -> collection segs -> NoDup X -> Forall (fun n => "/"%char ∉ n) X ->
  (forall n, created E (segs ++ [n]) <-> n ∈ X) -> sees (list_or_none m (text segs)) (Ok (stable_sort str_ltb X)).
Proof. intros. by apply (obs_list m hist Hroot E (restore_no_removal c)). Qed.

Lemma sees_subsystem s : s ∈ Subsystems c -> sees (read_subsystem m (sNQN s)) (sub_of s).
Proof.
  intros Hin. destruct (sub_facts c Hv Hs s Hin) as [(Hn & _) Has]. destruct (safe_nqn _ Hn) as [Hsafe Hp].
  destruct (as_serial _ _ Has) as [Hser Hne]. unfold read_subsystem.
  rewrite !text_sub_attr by (done || by repeat split; by_dec).
  eapply obs_bind; [apply sees_once; [safe_tac|done|by apply once_any|by destruct (sAllowAnyHost s)]|].
  eapply obs_bind; [apply sees_once; [safe_tac|done|by apply once_serial|done]|].
  unfold sub_of. cbn [default]. destruct (sAllowAnyHost s); apply obs_ret.
Qed.

Lemma sees_namespace s ns : s ∈ Subsystems c -> ns ∈ sNamespaces s -> sees (read_namespace m (sNQN s) (print_int (NSID ns))) (Some ns).
Proof.
  intros Hin Hns. destruct (sub_facts c Hv Hs s Hin) as [(Hn & _) Has]. destruct (safe_nqn _ Hn) as [Hsafe Hp].
  destruct (ns_facts c Hv Hs s ns Hin Hns) as [Hid Hdev]. unfold read_namespace. rewrite print_int_atoi by lia.
  assert (Hi : seg_ok (print_int (NSID ns)) = true) by (apply print_int_safe; lia). pose proof (seg_ok_plain _ Hi) as Hip.
  rewrite !text_ns_attr by (done || by repeat split; by_dec).
  eapply obs_bind; [apply sees_once; [safe_tac|done|by apply once_device|done]|]. cbn [default].
  destruct ns as [i p []]; cbn [NSID DevicePath Enabled] in *.
  - eapply obs_bind; [apply sees_once; [safe_tac|done|exact (once_enable c s _ Hin Hns eq_refl)|done]|]. apply obs_ret.
  - intros w Hw. destruct (disabled_attr m hist Hroot E (sNQN s) (print_int i) w) as (w' & r & Er & Hw' & Hr);
      [safe_tac|exact (never_enable c Hv Hs s _ Hin Hns eq_refl)|done|].
    unfold bind. rewrite Er. unfold ret. eexists. split; [|exact Hw']. destruct r as [v|]; [|done].
    destruct (str_eqb v #"1") eqn:Ev; [apply str_eqb_eq in Ev; by subst|done].
Qed.

Lemma ns_names s : s ∈ Subsystems c -> exists nss, nss ≡ₚ sNamespaces s /\
  sees (list_or_none m (Join [subsysDir (sNQN s); #"namespaces"])) (Ok (map (fun ns => print_int (NSID ns)) nss)).
Proof.
  intros Hin. destruct (sub_facts c Hv Hs s Hin) as [(Hn & _) Has]. destruct (safe_nqn _ Hn) as [Hsafe Hp].
  assert (Hids : Forall (fun ns => 0 <= NSID ns <= MaxInt64) (sNamespaces s)).
  { apply Forall_forall. intros ns Hns. destruct (ns_facts c Hv Hs s ns Hin Hns). lia. }
  destruct (perm_map (fun ns => print_int (NSID ns)) (sNamespaces s) (stable_sort str_ltb (map (fun ns => print_int (NSID ns)) (sNamespaces s))))
    as (nss & Enss & Hperm); [apply stable_sort_perm|]. exists nss. split; [done|]. rewrite <- Enss.
  rewrite text_sub_dir by (done || by repeat split; by_dec).
  apply sees_list; [safe_tac|done|constructor; set_solver| |by apply numbers_noslash|].
  - apply numbers_NoDup; [done|]. apply (strict_sorted_NoDup Z.ltb); [apply Z.ltb_irrefl|]. apply (sorted_map NSID Z.ltb), Has.
  - intros n. by apply (namespaces_created c Hs).
Qed.

Lemma host_names s : s ∈ Subsystems c -> sees (list_or_none m (Join [subsysDir (sNQN s); #"allowed_hosts"])) (Ok (sAllowedHosts s)).
Proof.
  intros Hin. destruct (sub_facts c Hv Hs s Hin) as [(Hn & _ & Hah) Has]. destruct (safe_nqn _ Hn) as [Hsafe Hp].
  destruct (as_allowed _ _ Has) as [Hsort _]. rewrite text_sub_dir by (done || by repeat split; by_dec).
  rewrite <- (sort_names_id _ Hsort) at 1.
  apply sees_list; [safe_tac|done|constructor; set_solver|by apply names_NoDup|by apply nqns_noslash|].
  intros h. by apply (allowed_created c Hs).
Qed.

Lemma sees_detail s : s ∈ Subsystems c -> exists nss, nss ≡ₚ sNamespaces s /\
  sees (GetSubsystem m (sNQN s)) (Ok (mkDetail (sub_of s) nss (sAllowedHosts s))).
Proof.
  intros Hin. destruct (sub_facts c Hv Hs s Hin) as [(Hn & _) Has]. destruct (safe_nqn _ Hn) as [Hsafe Hp].
  destruct (ns_names s Hin) as (nss & Hperm & Hnames). exists nss. split; [done|]. unfold GetSubsystem, checked. rewrite Hn.
  apply obs_try_any.
  { intros w Hw. rewrite text_sub by done. apply (list_made m hist Hroot E (restore_no_removal c)); [safe_tac|done| |done].
    apply (subs_created c). by apply list_elem_of_fmap_2. }
  eapply obs_bind; [by apply sees_subsystem|]. eapply obs_try; [exact Hnames|]. eapply obs_bind.
  - apply (obs_read_each hist E (read_namespace m (sNQN s)) (fun ns => print_int (NSID ns))). apply Forall_forall. intros ns Hns.
    apply sees_namespace; [done|by rewrite <- Hperm].
  - eapply obs_try; [by apply host_names|apply obs_ret].
Qed.

Lemma sees_saved_sub s : s ∈ Subsystems c -> sees (save_subsystem m (sub_of s)) (Ok s).
Proof.
  intros Hin. destruct (sub_facts c Hv Hs s Hin) as [_ Has]. destruct (sees_detail s Hin) as (nss & Hperm & Hd).
  unfold save_subsystem. eapply obs_try; [exact Hd|]. cbn [dSubsystem dNamespaces dAllowedHosts sub_of NQN AllowAnyHost Serial].
  destruct (as_allowed _ _ Has) as [Hah _]. rewrite (sort_names_id _ Hah).
  rewrite (stable_sort_unique (fun a b => NSID a <? NSID b) ltac:(intros x y z; rewrite !Z.ltb_lt; lia) nss (sNamespaces s));
    [|intros x; apply Z.ltb_irrefl|done|apply Has].
  destruct s. apply obs_ret.
Qed.

Lemma sees_subsystems : sees (ListSubsystems m) (Ok (map sub_of (Subsystems c))).
Proof.
  assert (Hsort : str_sorted (map sNQN (Subsystems c))) by apply (sorted_map sNQN str_ltb), Hs.
  unfold ListSubsystems. eapply obs_try.
  - change (#"nvmet/subsystems") with (text [ #"nvmet"; #"subsystems"]).
    apply (sees_list _ (map sNQN (Subsystems c))); [safe_tac|done|constructor; set_solver|by apply names_NoDup| |intros n; apply (subs_created c)].
    apply nqns_noslash, Forall_map, Forall_forall. intros s Hin. by destruct (sub_facts c Hv Hs s Hin) as [(? & _) _].
  - rewrite (sort_names_id _ Hsort). eapply obs_bind; [|apply obs_ret].
    replace (map sNQN (Subsystems c)) with (map NQN (map sub_of (Subsystems c))) by (rewrite map_map; done).
    apply (obs_read_each hist E _ NQN). apply Forall_map, Forall_forall. intros s Hin. cbn [sub_of NQN].
    eapply obs_bind; [by apply sees_subsystem|apply obs_ret].
Qed.

Lemma sees_port q : q ∈ Ports c -> sees (read_port m (print_int (spID q))) (Some (port_of q)).
Proof.
  intros Hq. destruct (port_facts c Hv Hs q Hq) as ((Hid & Ht & Hpn & [a Hip] & _) & Hmax & _).
  unfold read_port. rewrite print_int_atoi by lia. pose proof (print_int_safe _ Hid) as Hi. pose proof (seg_ok_plain _ Hi) as Hpl.
  unfold portAttr. rewrite !text_port_dir by (done || by repeat split; by_dec).
  eapply obs_bind; [apply (sees_once _ (spIP q)); [safe_tac|done|apply (once_port c Hv Hs); [done|set_solver]|by eapply addr_trimmed]|].
  eapply obs_bind; [apply (sees_once _ (spTransport q)); [safe_tac|done|apply (once_port c Hv Hs); [done|set_solver]|by destruct Ht as [->| ->]]|].
  eapply obs_bind; [apply (sees_once _ (print_int (spPort q))); [safe_tac|done|apply (once_port c Hv Hs); [done|set_solver]|]|].
  - assert (word (print_int (spPort q)) = true) as Hw; [|by apply trim_space_bounded, word_bounded].
    apply word_iff. assert (Hsafe : seg_ok (print_int (spPort q)) = true) by (apply print_int_safe; lia).
    unfold seg_ok in Hsafe. rewrite andb_true_iff, negb_true_iff, !orb_false_iff, str_eqb_neq in Hsafe. destruct Hsafe as [[[? _] _] Hf].
    split; [done|]. rewrite forallb_forall in Hf. apply Forall_forall. intros ch Hch%list_elem_of_In. specialize (Hf _ Hch).
    unfold seg_char in Hf. by apply andb_true_iff in Hf as [? _].
  - cbn [default option_bind mbind]. rewrite (print_int_atoi (spPort q)) by (unfold MaxInt64; lia). apply obs_ret.
Qed.

Lemma sees_ports : exists ps, ps ≡ₚ Ports c /\ sees (ListPorts m) (Ok (map port_of ps)).
Proof.
  assert (Hids : Forall (fun q => 0 <= spID q <= MaxInt64) (Ports c)).
  { apply Forall_forall. intros q Hq. destruct (port_facts c Hv Hs q Hq) as ((? & _) & ? & _). lia. }
  destruct (perm_map (fun q => print_int (spID q)) (Ports c) (stable_sort str_ltb (map (fun q => print_int (spID q)) (Ports c))))
    as (ps & Eps & Hperm); [apply stable_sort_perm|]. exists ps. split; [done|]. unfold ListPorts. eapply obs_try.
  - change (#"nvmet/ports") with (text [ #"nvmet"; #"ports"]).
    apply (sees_list _ (map (fun q => print_int (spID q)) (Ports c)));
      [safe_tac|done|constructor; set_solver| |by apply numbers_noslash|intros n; apply (ports_created c)].
    apply numbers_NoDup; [done|]. apply (strict_sorted_NoDup Z.ltb); [apply Z.ltb_irrefl|]. apply (sorted_map spID Z.ltb), Hs.
  - rewrite Eps. eapply obs_bind; [|apply obs_ret].
    replace (map (fun q => print_int (spID q)) ps) with (map (fun p => print_int (ID p)) (map port_of ps)) by (rewrite map_map; done).
    apply (obs_read_each hist E _ (fun p => print_int (ID p))). apply Forall_map, Forall_forall. intros q Hq. cbn [port_of ID].
    apply sees_port. by rewrite <- Hperm.
Qed.

Lemma sees_saved_port q : q ∈ Ports c -> sees (save_port m (port_of q)) (Ok q).
Proof.
  intros Hq. destruct (port_facts c Hv Hs q Hq) as ((Hid & _ & _ & _ & Hn) & _ & Hsort).
  pose proof (print_int_safe _ Hid) as Hi. pose proof (seg_ok_plain _ Hi) as Hpl.
  unfold save_port. cbn [port_of ID IP PortNumber Transport]. rewrite text_port_dir by (done || by repeat split; by_dec).
  eapply obs_try.
  - apply (sees_list _ (spSubsystems q)); [safe_tac|done|constructor|by apply names_NoDup|by apply nqns_noslash|].
    intros n. by apply (links_created c Hv Hs).
  - rewrite !(sort_names_id _ Hsort). destruct q. apply obs_ret.
Qed.

Lemma sees_hosts : sees (list_or_none m #"nvmet/hosts") (Ok (Hosts c)).
Proof.
  rewrite <- (sort_names_id _ (as_hosts c Hs)). change (#"nvmet/hosts") with (text [ #"nvmet"; #"hosts"]).
  apply sees_list; [safe_tac|done|constructor; set_solver|apply names_NoDup, Hs| |intros n; by apply (hosts_created c Hv Hs)].
  apply nqns_noslash. apply Hv.
Qed.

Lemma sorted_image {A B} (f : A -> B) (r : A -> A -> Prop) (r' : B -> B -> Prop) l :
  (forall x y, r x y -> r' (f x) (f y)) -> StronglySorted r l -> StronglySorted r' (map f l).
Proof. intros Hf. induction 1 as [|a l Hl IH Ha]; constructor; [done|]. apply Forall_map. eapply Forall_impl; [exact Ha|]. auto. Qed.

Lemma sees_config : sees (Save m) (Ok c).
Proof.
  unfold Save. eapply obs_try; [apply sees_subsystems|].
  rewrite (stable_sort_unique (fun a b => str_ltb (NQN a) (NQN b)) ltac:(intros x y z; apply str_ltb_trans) _ (map sub_of (Subsystems c)));
    [|intros x; apply str_ltb_irrefl|done|by eapply sorted_image, Hs].
  eapply obs_try; [apply (obs_collect hist E _ sub_of), Forall_forall; intros s Hin; by apply sees_saved_sub|].
  destruct sees_ports as (ps & Hperm & Hps). eapply obs_try; [exact Hps|].
  rewrite (stable_sort_unique (fun a b => ID a <? ID b) ltac:(intros x y z; rewrite !Z.ltb_lt; lia) _ (map port_of (Ports c)));
    [|intros x; apply Z.ltb_irrefl|by rewrite Hperm|by eapply sorted_image, Hs].
  eapply obs_try; [apply (obs_collect hist E _ port_of), Forall_forall; intros q Hq; by apply sees_saved_port|].
  eapply obs_try; [apply sees_hosts|]. rewrite (sort_names_id _ (as_hosts c Hs)).
  destruct Hv as (Hver & _). destruct c as [v ss pp hh]. cbn in Hver |- *. rewrite Hver. apply obs_ret.
Qed.
End Saving.

(** C6. Restoring a saved configuration into an empty kernel and saving
    again gives the same configuration: subsystems, namespaces, allowed
    hosts, ports and links. *)
Theorem restored_config_is_saved {W : Type} `{ConfigTree W} (m : Manager) (hist : W -> list event) `{!KernelLaws W m hist} c w w' :
  is_rooted (root m) = true -> as_saved c -> hist w = [] -> Restore m c w = (w', Some (Ok tt)) ->
  exists w'', Save m w' = (w'', Some (Ok c)).
Proof.
  intros Hroot Hs Hw Hr. destruct (restore_hist m hist Hroot c w w' Hr) as [Hh Hv]. rewrite Hw in Hh.
  destruct (sees_config m hist Hroot c Hv Hs w' Hh) as (w'' & E & _). by exists w''.
Qed.

(** A restore writes no attribute of a host, so no key of the in-band
    authentication. *)
Lemma restore_writes_no_key c h a d : Wrote (sHost h ++ [a]) d ∉ restore_events c.
Proof.
  intros Hw%wrote_iff. unfold written_by_sub, written_by_port in Hw.
  destruct Hw as [(s' & Hin' & [[Eq ->]|[(_ & Eq & ->)|(ns' & Hns' & [[Eq ->]|(_ & Eq & ->)])]])|(q' & Hq' & [[Eq ->]|[[Eq ->]|[[Eq ->]|[Eq ->]]]])]; path_eq.
Qed.

(** ** A kernel *)

Module SmallKernel.

Definition m0 : Manager := mkManager [].
Definition decode (p : gostr) : list gostr := drop 4 (split_on "/"%char p).

Lemma decode_at segs : safe segs -> decode (at_ m0 segs) = segs.
Proof.
  intros Hs%safe_plain. unfold decode, at_. change (clean_segs (root m0)) with [ #"sys"; #"kernel"; #"config"].
  set (l := [ #"sys"; #"kernel"; #"config"] ++ segs).
  assert (Hl : Forall plain_seg l) by (apply Forall_app; split; [repeat constructor; by_dec|done]).
  change (render true l) with (join_with "/"%char ([] :: l)).
  rewrite split_join; [done|done|]. constructor; [set_solver|by apply plain_no_sep].
Qed.

Definition target (e : event) : option (list gostr) := match e with Made p | Linked p => Some p | _ => None end.

Definition names_in (w : list event) (p : list gostr) : list gostr :=
  remove_dups (filter (fun n => "/"%char ∉ n /\ present w (p ++ [n]) = true) (omap (fun e => target e ≫= last) w)).

#[local] Instance tree : ConfigTree (list event) := {
  os_MkdirAll p w := (w ++ [Made (decode p)], None);
  os_Remove p w := (w ++ [Removed (decode p)], None);
  os_Open p w := (w, None);
  os_WriteTo p d w := (w ++ [Wrote (decode p) d], None);
  os_CloseOf p w := (w, None);
  os_Read p w := (w, match last_write w (decode p) with Some d => Ok d | None => Err NotExist end);
  os_Symlink t p w := (w ++ [Linked (decode p)], None);
  os_ReadDir p w := (w, Ok (names_in w (decode p))) }.

Lemma present_target w p : present w p = true -> exists e, e ∈ w /\ target e = Some p.
Proof.
  unfold present. induction w as [|e w IH] using rev_ind; [done|]. rewrite fold_left_app. cbn [fold_left].
  destruct e as [q|q|q d|q]; cbn [present_step]; rewrite ?orb_true_iff, ?andb_true_iff, ?bool_decide_eq_true.
  1,2: intros [Hp| ->]; [destruct (IH Hp) as (e & He & Et); exists e; set_solver|eexists; split; [apply elem_of_app; right; by left|done]].
  - intros Hp. destruct (IH Hp) as (e & He & Et). exists e. set_solver.
  - intros [Hp _]. destruct (IH Hp) as (e & He & Et). exists e. set_solver.
Qed.

Lemma names_in_iff w p n : n ∈ names_in w p <-> "/"%char ∉ n /\ present w (p ++ [n]) = true.
Proof.
  unfold names_in. rewrite elem_of_remove_dups, list_elem_of_filter. split; [by intros [? _]|]. intros Hn. split; [done|].
  destruct (present_target _ _ (proj2 Hn)) as (e & He & Et). apply list_elem_of_omap. exists e. split; [done|]. rewrite Et.
  cbn. apply last_snoc.
Qed.

#[local] Instance laws : KernelLaws (list event) m0 id.
Proof.
  constructor; unfold id; cbn [os_MkdirAll os_Remove os_Open os_WriteTo os_CloseOf os_Read os_Symlink os_ReadDir tree].
  - intros k x w w' Hs [= <-]. rewrite decode_at; [done|]. by constructor.
  - intros n i w w' Hs _ [= <-]. apply Forall_cons in Hs as [Hn Hs]. apply Forall_cons in Hs as [Hi _].
    rewrite decode_at; [done|]. by repeat (apply Forall_cons; split; [first [assumption|reflexivity]|]).
  - by intros p w w' r [= <- <-].
  - by intros p w w' r [= <- <-].
  - intros p d w w' Hs [= <-]. by rewrite decode_at.
  - intros t p w w' Hs [= <-]. by rewrite decode_at.
  - intros p w w' Hs [= <-]. by rewrite decode_at.
  - intros p w w' r Hs [= <- <-]. split; [done|]. rewrite decode_at by done. destruct (last_write w p); [eauto|done].
  - intros n i w w' r Hs [= <- <-] Hl d. apply Forall_cons in Hs as [Hn Hs]. apply Forall_cons in Hs as [Hi _].
    rewrite decode_at by (by repeat (apply Forall_cons; split; [first [assumption|reflexivity]|])). by rewrite Hl.
  - intros p w w' r Hs [= <- <-]. split; [done|]. rewrite decode_at by done. split; [by eexists|]. intros _.
    split; [apply NoDup_remove_dups|]. apply names_in_iff.
Qed.

Definition cfg0 : SavedConfig :=
  mkSaved 1
    [mkSavedSub #"nqn.2024-01.io.novanas:vol1" false #"NAS001"
       [mkNamespace 2 #"/dev/zvol/tank/a" true; mkNamespace 10 #"/dev/zvol/tank/b" false] [ #"nqn.2024-01.io.host:h1"]]
    [mkSavedPort 1 #"192.0.2.10" 4420 #"tcp" [ #"nqn.2024-01.io.novanas:vol1"]]
    [ #"nqn.2024-01.io.host:h1"].

Lemma restored_config_is_saved_witness : exists w'', Save m0 (fst (Restore m0 cfg0 [])) = (w'', Some (Ok cfg0)).
Proof.
  apply (restored_config_is_saved m0 id cfg0 [] (fst (Restore m0 cfg0 []))); [reflexivity| |reflexivity|vm_compute; reflexivity].
  split; [|repeat constructor| |repeat constructor|].
  - repeat constructor.
  - repeat constructor; by_dec.
  - repeat constructor; by_dec.
Defined.
End SmallKernel.
