(* ===== verification/GoJson.v ===== *)
(** * encoding/json, as far as the job queue uses it

    Go types are described by [ty] and their values by [den]; [marshal]
    and [unmarshal] are json.Marshal and json.Unmarshal on them, with the
    rules for nil, omitempty, unknown and repeated members, and invalid
    UTF-8.  JSON texts are taken as trees: spelling (white space, escapes,
    number formats) is left out. *)

From stdpp Require Import gmap.
From S2P Require Import Prelude GoStrings SortLib GoBase64.

(** ** UTF-8 *)

Definition within (lo hi : Z) (c : ascii) : bool := (lo <=? byte_val c) && (byte_val c <=? hi).
Abbreviation cont := (within 128 191).

(** The length of the rune at the front, when it is valid. *)
Definition rune_len (s : gostr) : option nat :=
  match s with
  | [] => None
  | a :: s1 =>
      if byte_val a <? 128 then Some 1%nat
      else match s1 with
      | [] => None
      | b :: s2 =>
          if within 194 223 a && cont b then Some 2%nat
          else match s2 with
          | [] => None
          | c :: s3 =>
              let second := if byte_val a =? 224 then within 160 191 b else if byte_val a =? 237 then within 128 159 b else cont b in
              if within 224 239 a && second && cont c then Some 3%nat
              else match s3 with
              | [] => None
              | d :: _ =>
                  let second := if byte_val a =? 240 then within 144 191 b else if byte_val a =? 244 then within 128 143 b else cont b in
                  if within 240 244 a && second && cont c && cont d then Some 4%nat else None
              end
          end
      end
  end.

Definition replacement : gostr := [byte_of 239; byte_of 191; byte_of 189].

(** Bytes that are not part of a rune are replaced one by one. *)
Fixpoint to_valid_go (fuel : nat) (s : gostr) : gostr :=
  match fuel, s with
  | S fuel', c :: s' =>
      match rune_len s with
      | Some n => take n s ++ to_valid_go fuel' (drop n s)
      | None => replacement ++ to_valid_go fuel' s'
      end
  | _, _ => []
  end.
Definition to_valid (s : gostr) : gostr := to_valid_go (length s) s.

Definition valid_utf8 (s : gostr) : bool := str_eqb (to_valid s) s.

Lemma ascii_valid s : Forall (fun c => byte_val c < 128) s -> valid_utf8 s = true.
Proof.
  intros Hs. unfold valid_utf8. apply str_eqb_eq. unfold to_valid.
  induction Hs as [|c s Hc Hs IH]; [done|]. cbn [length to_valid_go rune_len].
  rewrite (proj2 (Z.ltb_lt _ _) Hc). cbn [take drop app]. by rewrite drop_0, IH.
Qed.

(** ** Trees *)

Inductive json := JNull | JBool (b : bool) | JNum (z : Z) | JFrac (text : gostr) | JStr (s : gostr)
| JArr (l : list json) | JObj (ms : list (gostr * json)).

(** ** Types of values *)

Inductive ty := TStr | TBool | TInt | TUint | TBytes | TUuid | TSlice (t : ty) | TMap (t : ty) | TPtr (t : ty) | TStruct (fs : fields_)
with fields_ := FNil | FCons (name : gostr) (omitempty : bool) (t : ty) (fs : fields_).

Scheme ty_mut := Induction for ty Sort Prop with fields_mut := Induction for fields_ Sort Prop.
Combined Scheme ty_fields_ind from ty_mut, fields_mut.

(** A field with its tag. *)
Definition req (name : gostr) (t : ty) : gostr * bool * ty := (name, false, t).
Definition opt (name : gostr) (t : ty) : gostr * bool * ty := (name, true, t).
Fixpoint fields_of (l : list (gostr * bool * ty)) : fields_ :=
  match l with [] => FNil | (n, o, t) :: l' => FCons n o t (fields_of l') end.
Definition struct (l : list (gostr * bool * ty)) : ty := TStruct (fields_of l).

Fixpoint names (fs : fields_) : list gostr := match fs with FNil => [] | FCons n _ _ fs' => n :: names fs' end.

(** github.com/google/uuid. *)
Class UuidLib (U : Type) := {
  uuid_String : U -> gostr;
  uuid_Parse : gostr -> option U;
  uuid_Nil : U }.
Class UuidLaws (U : Type) `{UuidLib U} := {
  uuid_parse_string u : uuid_Parse (uuid_String u) = Some u;
  uuid_string_ascii u : Forall (fun c => byte_val c < 128) (uuid_String u) }.

Section Codec.
Context {U : Type} `{UuidLib U}.

(** Nil and empty are told apart where Go does. *)
Fixpoint den (t : ty) : Type :=
  match t with
  | TStr => gostr | TBool => bool | TInt | TUint => Z | TUuid => U
  | TBytes => option gostr
  | TSlice t => option (list (den t))
  | TMap t => option (gmap gostr (den t))
  | TPtr t => option (den t)
  | TStruct fs => dens fs
  end
with dens (fs : fields_) : Type :=
  match fs with FNil => unit | FCons _ _ t fs' => (den t * dens fs')%type end.

Fixpoint zero (t : ty) : den t :=
  match t with
  | TStr => [] | TBool => false | TInt => 0 | TUint => 0 | TUuid => uuid_Nil
  | TBytes => None | TSlice _ => None | TMap _ => None | TPtr _ => None
  | TStruct fs => zeros fs
  end
with zeros (fs : fields_) : dens fs :=
  match fs with FNil => tt | FCons _ _ t fs' => (zero t, zeros fs') end.

(** What omitempty leaves out. *)
Definition is_empty (t : ty) : den t -> bool :=
  match t with
  | TStr => fun s => str_eqb s [] | TBool => negb | TInt => Z.eqb 0 | TUint => Z.eqb 0 | TUuid => fun _ => false
  | TBytes => fun o => match o with None | Some [] => true | _ => false end
  | TSlice _ => fun o => match o with None | Some [] => true | _ => false end
  | TMap _ => fun o => match o with None => true | Some m => bool_decide (map_to_list m = []) end
  | TPtr _ => fun o => match o with None => true | _ => false end
  | TStruct _ => fun _ => false
  end.

Fixpoint marshal (t : ty) : den t -> json :=
  match t return den t -> json with
  | TStr => fun s => JStr (to_valid s)
  | TBool => JBool | TInt => JNum | TUint => JNum
  | TUuid => fun u => JStr (uuid_String u)
  | TBytes => fun o => match o with None => JNull | Some b => JStr (b64_encode b) end
  | TSlice t => fun o => match o with None => JNull | Some l => JArr (map (marshal t) l) end
  | TMap t => fun o =>
      match o with
      | None => JNull
      | Some m => JObj (map (fun kv => (to_valid kv.1, marshal t kv.2)) (stable_sort (fun a b => str_ltb a.1 b.1) (map_to_list m)))
      end
  | TPtr t => fun o => match o with None => JNull | Some v => marshal t v end
  | TStruct fs => fun v => JObj (marshal_fields fs v)
  end
with marshal_fields (fs : fields_) : dens fs -> list (gostr * json) :=
  match fs with
  | FNil => fun _ => []
  | FCons n omit t fs' => fun v => (if omit && is_empty t v.1 then [] else [(n, marshal t v.1)]) ++ marshal_fields fs' v.2
  end.

(** The field a member is stored in: the one of that name, or the first
    whose name differs in case only. *)
Definition pick (ns : list gostr) (k : gostr) : option gostr :=
  if bool_decide (k ∈ ns) then Some k else List.find (fun n => equal_fold k n) ns.

Fixpoint fold_opt {A B} (f : A -> B -> option A) (l : list B) (a : A) : option A :=
  match l with [] => Some a | x :: l' => match f a x with Some a' => fold_opt f l' a' | None => None end end.

Definition byte_num (j : json) : option ascii :=
  match j with JNum z => if (0 <=? z) && (z <? 256) then Some (byte_of z) else None | JNull => Some (byte_of 0) | _ => None end.

Definition in_uint64 (z : Z) : bool := (0 <=? z) && (z <? 2 ^ 64).

Definition set_member {A} (ns : list gostr) (set : A -> gostr -> json -> option A) (cur : A) (kv : gostr * json) : option A :=
  match pick ns kv.1 with None => Some cur | Some n => set cur n kv.2 end.

(** Into a variable that holds [cur]: null leaves a scalar or a struct as
    it is, and members that are not there keep what the field held. *)
Fixpoint unmarshal (t : ty) : den t -> json -> option (den t) :=
  match t return den t -> json -> option (den t) with
  | TStr => fun cur j => match j with JNull => Some cur | JStr s => Some s | _ => None end
  | TBool => fun cur j => match j with JNull => Some cur | JBool b => Some b | _ => None end
  | TInt => fun cur j => match j with JNull => Some cur | JNum z => if in_int64 z then Some z else None | _ => None end
  | TUint => fun cur j => match j with JNull => Some cur | JNum z => if in_uint64 z then Some z else None | _ => None end
  | TUuid => fun cur j => match j with JNull => Some cur | JStr s => uuid_Parse s | _ => None end
  | TBytes => fun cur j =>
      match j with JNull => Some None | JStr s => Some <$> b64_decode s | JArr l => Some <$> mapM byte_num l | _ => None end
  | TSlice t => fun cur j => match j with JNull => Some None | JArr l => Some <$> mapM (unmarshal t (zero t)) l | _ => None end
  | TMap t => fun cur j =>
      match j with
      | JNull => Some None
      | JObj ms => Some <$> fold_opt (fun m kv => (fun v => <[kv.1 := v]> m) <$> unmarshal t (zero t) kv.2) ms (default ∅ cur)
      | _ => None
      end
  | TPtr t => fun cur j => match j with JNull => Some None | _ => Some <$> unmarshal t (default (zero t) cur) j end
  | TStruct fs => fun cur j =>
      match j with
      | JNull => Some cur
      | JObj ms => fold_opt (set_member (names fs) (set_field fs)) ms cur
      | _ => None
      end
  end
with set_field (fs : fields_) : dens fs -> gostr -> json -> option (dens fs) :=
  match fs return dens fs -> gostr -> json -> option (dens fs) with
  | FNil => fun cur _ _ => Some cur
  | FCons n _ t fs' => fun cur k j =>
      if str_eqb n k then (fun v => (v, cur.2)) <$> unmarshal t cur.1 j
      else (fun r => (cur.1, r)) <$> set_field fs' cur.2 k j
  end.

(** ** What is sent is what is received *)

Definition nullable (t : ty) : bool := match t with TBytes | TSlice _ | TMap _ | TPtr _ => true | _ => false end.

(** Field names differ; no pointer to something that is written as null. *)
Fixpoint ty_ok (t : ty) : bool :=
  match t with
  | TSlice t | TMap t => ty_ok t
  | TPtr t => negb (nullable t) && ty_ok t
  | TStruct fs => bool_decide (NoDup (names fs)) && fields_ok fs
  | _ => true
  end
with fields_ok (fs : fields_) : bool := match fs with FNil => true | FCons _ _ t fs' => ty_ok t && fields_ok fs' end.

(** Values of the machine: strings are UTF-8 and numbers fit their width. *)
Fixpoint fits (t : ty) : den t -> Prop :=
  match t return den t -> Prop with
  | TStr => fun s => valid_utf8 s = true
  | TInt => fun z => in_int64 z = true
  | TUint => fun z => in_uint64 z = true
  | TBool => fun _ => True | TBytes => fun _ => True | TUuid => fun _ => True
  | TSlice t => fun o => match o with None => True | Some l => Forall (fits t) l end
  | TMap t => fun o => match o with None => True | Some m => map_Forall (fun k v => valid_utf8 k = true /\ fits t v) m end
  | TPtr t => fun o => match o with None => True | Some v => fits t v end
  | TStruct fs => fits_fields fs
  end
with fits_fields (fs : fields_) : dens fs -> Prop :=
  match fs return dens fs -> Prop with FNil => fun _ => True | FCons _ _ t fs' => fun v => fits t v.1 /\ fits_fields fs' v.2 end.

(** The value received: empty slices and maps that omitempty left out
    arrive as nil, all else is the same. *)
Fixpoint sent (t : ty) : den t -> den t :=
  match t return den t -> den t with
  | TSlice t => fun o => match o with None => None | Some l => Some (map (sent t) l) end
  | TMap t => fun o => match o with None => None | Some m => Some (fmap (M := gmap gostr) (sent t) m) end
  | TPtr t => fun o => match o with None => None | Some v => Some (sent t v) end
  | TStruct fs => sent_fields fs
  | _ => fun v => v
  end
with sent_fields (fs : fields_) : dens fs -> dens fs :=
  match fs return dens fs -> dens fs with
  | FNil => fun v => v
  | FCons _ omit t fs' => fun v => ((if omit && is_empty t v.1 then zero t else sent t v.1), sent_fields fs' v.2)
  end.

Lemma valid_id s : valid_utf8 s = true -> to_valid s = s.
Proof. by intros ?%str_eqb_eq. Qed.

Lemma fold_opt_app {A B} (f : A -> B -> option A) l l' a : fold_opt f (l ++ l') a = fold_opt f l a ≫= fold_opt f l'.
Proof. revert a. induction l as [|x l IH]; intros a; [done|]. cbn [app fold_opt]. destruct (f a x); [apply IH|done]. Qed.

Lemma fold_opt_ext {A B} (f g : A -> B -> option A) l a : (forall x a, x ∈ l -> f a x = g a x) -> fold_opt f l a = fold_opt g l a.
Proof.
  revert a. induction l as [|x l IH]; intros a Hfg; [done|]. cbn [fold_opt]. rewrite Hfg by set_solver.
  destruct (g a x); [apply IH; set_solver|done].
Qed.

Lemma member_names fs v k j : (k, j) ∈ marshal_fields fs v -> k ∈ names fs.
Proof.
  revert v. induction fs as [|n o t fs IH]; [by intros v ?%elem_of_nil|]. intros [v r]. cbn [marshal_fields names fst snd].
  rewrite elem_of_app, elem_of_cons. intros [Hin|Hin]; [|right; by eapply IH]. left. destruct (o && is_empty t v); [by apply elem_of_nil in Hin|].
  apply list_elem_of_singleton in Hin. by injection Hin.
Qed.

Definition set_exact (fs : fields_) (cur : dens fs) (kv : gostr * json) : option (dens fs) := set_field fs cur kv.1 kv.2.

(** Members with other names do not touch the first field. *)
Lemma fold_tail n o t fs (v : den t) (r : dens fs) ms : Forall (fun kv => kv.1 <> n) ms ->
  fold_opt (set_exact (FCons n o t fs)) ms (v, r) = (fun r => (v, r)) <$> fold_opt (set_exact fs) ms r.
Proof.
  intros Hms. revert r. induction Hms as [|kv ms Hk Hms IH]; intros r; [done|]. cbn [fold_opt]. unfold set_exact at 1. cbn [set_field].
  rewrite (proj2 (str_eqb_neq n kv.1)) by done. cbn [fst snd]. unfold set_exact at 2.
  destruct (set_field fs r kv.1 kv.2); cbn [fmap option_fmap option_map]; [apply IH|done].
Qed.

Context `{!UuidLaws U}.

Lemma roundtrip_map t (m : gmap gostr (den t)) :
  (forall v, fits t v -> unmarshal t (zero t) (marshal t v) = Some (sent t v)) ->
  map_Forall (fun k v => valid_utf8 k = true /\ fits t v) m ->
  forall l (m' : gmap gostr (den t)), l ⊆+ map_to_list m ->
  fold_opt (fun (m : gmap gostr (den t)) kv => (fun v => <[kv.1 := v]> m) <$> unmarshal t (zero t) kv.2)
    (map (fun kv => (to_valid kv.1, marshal t kv.2)) l) m' = Some (foldl (fun (m : gmap gostr (den t)) kv => <[kv.1 := sent t kv.2]> m) m' l).
Proof.
  intros Hrt Hm l. assert (Hall : l ⊆+ map_to_list m -> Forall (fun kv => valid_utf8 kv.1 = true /\ fits t kv.2) l).
  { intros Hl. apply Forall_forall. intros [k v] Hin. apply (elem_of_submseteq _ _ _ Hin) in Hl. apply elem_of_map_to_list in Hl. by apply (Hm k v). }
  intros m' Hl. specialize (Hall Hl). clear Hl Hm. revert m'. induction Hall as [|[k v] l [Hk Hv] Hall IH]; intros m'; [done|].
  cbn [map fold_opt foldl fst snd] in *. rewrite Hrt, valid_id by done. cbn [fmap option_fmap option_map]. apply IH.
Qed.

Lemma foldl_insert_map {A} (f : A -> A) (l : list (gostr * A)) (m : gmap gostr A) : NoDup l.*1 -> list_to_map l = m ->
  foldl (fun (m : gmap gostr A) kv => <[kv.1 := f kv.2]> m) ∅ l = f <$> m.
Proof.
  intros Hd <-. set (g := fun kv : gostr * A => (kv.1, f kv.2)).
  assert (Hmap : f <$> (list_to_map l : gmap gostr A) = list_to_map (g <$> l)).
  { by rewrite <- list_to_map_fmap. }
  rewrite Hmap. clear Hmap.
  assert (Hg : forall l m0, foldl (fun (m : gmap gostr A) kv => <[kv.1 := f kv.2]> m) m0 l = foldl (fun (m : gmap gostr A) kv => <[kv.1 := kv.2]> m) m0 (g <$> l)).
  { clear. induction l as [|kv l IH]; intros m0; [done|]. cbn [foldl fmap list_fmap]. by rewrite IH. }
  rewrite Hg.
  assert (Hd' : NoDup (g <$> l).*1) by (rewrite <- list_fmap_compose; exact Hd). revert Hd'. generalize (g <$> l). clear.
  intros l0 Hd.
  assert (Hgen : forall l' m0, foldl (fun (m : gmap gostr A) kv => <[kv.1 := kv.2]> m) m0 l' = list_to_map (reverse l') ∪ m0).
  { induction l' as [|[k v] l' IH]; intros m0; [by rewrite reverse_nil, list_to_map_nil, map_empty_union|].
    cbn [foldl fst snd]. rewrite IH, reverse_cons, list_to_map_app, list_to_map_cons, list_to_map_nil, <- map_union_assoc.
    by rewrite <- insert_union_l, map_empty_union. }
  rewrite Hgen, map_union_empty. apply list_to_map_proper; [|apply reverse_Permutation]. by rewrite reverse_Permutation.
Qed.

Lemma marshal_not_null t (v : den t) : nullable t = false -> marshal t v <> JNull.
Proof. destruct t; done. Qed.

Lemma unmarshal_marshal_mut :
  (forall t, ty_ok t = true -> forall v, fits t v -> unmarshal t (zero t) (marshal t v) = Some (sent t v)) /\
  (forall fs, NoDup (names fs) -> fields_ok fs = true -> forall v, fits_fields fs v ->
    fold_opt (set_exact fs) (marshal_fields fs v) (zeros fs) = Some (sent_fields fs v)).
Proof.
  apply ty_fields_ind.
  - intros _ s Hs. cbn [marshal unmarshal sent]. by rewrite valid_id.
  - done.
  - intros _ z Hz. cbn [marshal unmarshal sent fits] in *. by rewrite Hz.
  - intros _ z Hz. cbn [marshal unmarshal sent fits] in *. by rewrite Hz.
  - intros _ [b|] _; [|done]. cbn [marshal unmarshal sent]. by rewrite b64_decode_encode.
  - intros _ u _. cbn [marshal unmarshal sent]. apply uuid_parse_string.
  - intros t IH Hok [l|] Hl; [|done]. cbn [marshal unmarshal sent ty_ok fits] in *.
    assert (mapM (unmarshal t (zero t)) (map (marshal t) l) = Some (map (sent t) l)) as ->; [|done].
    induction Hl as [|v l Hv Hl IHl]; [done|].
    cbn [map mapM]. rewrite IH by done. cbn [mbind option_bind]. by rewrite IHl.
  - intros t IH Hok [m|] Hm; [|done]. cbn [marshal unmarshal sent ty_ok fits default] in *.
    set (l := stable_sort _ _). assert (Hp : l ≡ₚ map_to_list m) by apply stable_sort_perm.
    change (default ∅ (zero (TMap t))) with (∅ : gmap gostr (den t)).
    rewrite (roundtrip_map t m (IH Hok) Hm l ∅) by (by rewrite Hp). cbn. do 2 f_equal.
    apply foldl_insert_map; [rewrite Hp; apply NoDup_fst_map_to_list|].
    rewrite <- (list_to_map_to_list m). apply list_to_map_proper; [rewrite Hp; apply NoDup_fst_map_to_list|done].
  - intros t IH Hok [v|] Hv; [|done]. cbn [marshal unmarshal sent ty_ok fits default] in *.
    apply andb_true_iff in Hok as [Hn%negb_true_iff Hok]. pose proof (marshal_not_null t v Hn) as Hnn. specialize (IH Hok v Hv).
    change (default (zero t) (zero (TPtr t))) with (zero t). destruct (marshal t v); try done; by rewrite IH.
  - intros fs IH Hok v Hv. cbn [marshal unmarshal sent ty_ok fits zero] in *. apply andb_true_iff in Hok as [Hd%bool_decide_eq_true Hok].
    transitivity (fold_opt (set_exact fs) (marshal_fields fs v) (zeros fs)); [|by apply IH]. apply fold_opt_ext. intros [k j] a Hin%member_names. unfold set_member, pick. cbn [fst snd].
    by rewrite bool_decide_true.
  - by intros _ _ [].
  - intros n o t IHt fs IH Hd Hok [v r] [Hv Hr]. cbn [names fields_ok marshal_fields sent_fields zeros fst snd] in *.
    apply NoDup_cons in Hd as [Hn Hd]. apply andb_true_iff in Hok as [Hokt Hok].
    assert (Hms : Forall (fun kv => kv.1 <> n) (marshal_fields fs r)).
    { apply Forall_forall. intros [k j] Hin%member_names E. cbn in E. by subst. }
    destruct (o && is_empty t v); cbn [app fold_opt].
    + rewrite fold_tail by done. rewrite IH by done. done.
    + unfold set_exact at 1. cbn [set_field fst snd]. rewrite (proj2 (str_eqb_eq n n) eq_refl), IHt by done. cbn [fmap option_fmap option_map].
      rewrite fold_tail by done. rewrite IH by done. done.
Qed.

(** A value that fits its type is received as it was sent. *)
Lemma json_roundtrip t v : ty_ok t = true -> fits t v -> unmarshal t (zero t) (marshal t v) = Some (sent t v).
Proof. intros. by apply unmarshal_marshal_mut. Qed.
End Codec.
