(* ===== verification/JobTypes.v ===== *)
(** * internal/jobs/kind.go: kinds of jobs and their payloads

    Every kind has a type string and a payload, a struct with its JSON
    tags; the structs of other packages that payloads carry come first. *)

From S2P Require Import Prelude GoStrings GoJson.

Module JobKinds.

(** ** Structs of the managers *)

Definition VdevSpec : ty := struct [req #"type" TStr; req #"disks" (TSlice TStr)].
Definition datasetACE : ty := struct [req #"type" TStr; req #"principal" TStr; req #"permissions" (TSlice TStr); opt #"inheritance" (TSlice TStr)].
Definition nfsClientRule : ty := struct [req #"spec" TStr; req #"options" TStr].
Definition krb5Realm : ty := struct [req #"kdc" (TSlice TStr); opt #"adminServer" TStr; opt #"defaultDomain" TStr].
Definition shareNFSOpts : ty := struct [req #"clients" (TSlice nfsClientRule)].
Definition shareSMBOpts : ty := struct [opt #"comment" TStr; req #"browseable" TBool; opt #"guestOk" TBool; opt #"validUsers" (TSlice TStr); opt #"writeList" (TSlice TStr)].
Definition poolCreateSpec : ty := struct [req #"name" TStr; req #"vdevs" (TSlice VdevSpec); opt #"special" (TSlice VdevSpec); opt #"dedup" (TSlice VdevSpec); opt #"log" (TSlice VdevSpec); opt #"cache" (TSlice TStr); opt #"spare" (TSlice TStr)].
Definition poolAddSpec : ty := struct [opt #"vdevs" (TSlice VdevSpec); opt #"special" (TSlice VdevSpec); opt #"dedup" (TSlice VdevSpec); opt #"log" (TSlice VdevSpec); opt #"cache" (TSlice TStr); opt #"spare" (TSlice TStr)].
Definition datasetCreateSpec : ty := struct [req #"parent" TStr; req #"name" TStr; req #"type" TStr; opt #"volumeSizeBytes" TUint; opt #"properties" (TMap TStr); opt #"encryptionEnabled" TBool; opt #"encryptionAlgorithm" TStr].
Definition nfsExport : ty := struct [req #"name" TStr; req #"path" TStr; req #"clients" (TSlice nfsClientRule)].
Definition sambaShare : ty := struct [req #"name" TStr; req #"path" TStr; opt #"comment" TStr; req #"browseable" TBool; req #"writable" TBool; req #"guestOk" TBool; req #"readOnly" TBool; opt #"validUsers" (TSlice TStr); opt #"writeList" (TSlice TStr); opt #"adminUsers" (TSlice TStr); opt #"createMask" TStr; opt #"directoryMask" TStr; opt #"veto" (TSlice TStr)].
Definition sambaGlobalsOpts : ty := struct [opt #"workgroup" TStr; opt #"serverString" TStr; opt #"aclProfile" TStr; opt #"securityMode" TStr; opt #"realm" TStr; opt #"enableNetbios" TBool; opt #"customLines" (TSlice TStr)].
Definition krb5Config : ty := struct [req #"defaultRealm" TStr; req #"realms" (TMap krb5Realm); opt #"domainRealm" (TMap TStr); req #"dnsLookupKdc" TBool; req #"dnsLookupRealm" TBool].
Definition krb5IdmapdConfig : ty := struct [req #"domain" TStr; opt #"verbosity" TInt; opt #"method" TStr; opt #"nobodyUser" TStr; opt #"nobodyGroup" TStr].
Definition networkInterfaceConfig : ty := struct [req #"name" TStr; req #"matchName" TStr; req #"dhcp" TStr; opt #"addresses" (TSlice TStr); opt #"gateway" TStr; opt #"dns" (TSlice TStr); opt #"domains" (TSlice TStr); opt #"mtu" TInt; opt #"linkLocal" TStr; opt #"dryRun" TBool].
Definition networkVLAN : ty := struct [req #"name" TStr; req #"parent" TStr; req #"id" TInt; opt #"address" TStr; opt #"dryRun" TBool].
Definition networkBond : ty := struct [req #"name" TStr; req #"mode" TStr; req #"members" (TSlice TStr); opt #"address" TStr; opt #"miiMonSec" TInt; opt #"dryRun" TBool].
Definition protocolShare : ty := struct [req #"name" TStr; req #"pool" TStr; req #"datasetName" TStr; req #"protocols" (TSlice TStr); req #"acls" (TSlice datasetACE); opt #"quotaBytes" TUint; opt #"nfs" (TPtr shareNFSOpts); opt #"smb" (TPtr shareSMBOpts)].
Definition iscsiPortal : ty := struct [req #"ip" TStr; req #"port" TInt; req #"transport" TStr].
Definition iscsiLUN : ty := struct [req #"id" TInt; req #"zvol" TStr; req #"backstore" TStr].
Definition iscsiACL : ty := struct [req #"initiatorIqn" TStr; opt #"chapUser" TStr; opt #"chapSecret" TStr].
Definition nvmeofSubsystem : ty := struct [req #"nqn" TStr; req #"allowAnyHost" TBool; opt #"serial" TStr].
Definition nvmeofNamespace : ty := struct [req #"nsid" TInt; req #"devicePath" TStr; req #"enabled" TBool].
Definition nvmeofPort : ty := struct [req #"id" TInt; req #"ip" TStr; req #"port" TInt; req #"transport" TStr].
Definition nvmeofDHChapConfig : ty := struct [opt #"key" TStr; opt #"ctrlKey" TStr; opt #"hash" TStr; opt #"dhgroup" TStr].

(** ** Payloads *)

Definition IscsiTargetCreatePayload : ty := struct [req #"iqn" TStr].
Definition IscsiTargetDestroyPayload : ty := struct [req #"iqn" TStr].
Definition IscsiPortalCreatePayload : ty := struct [req #"iqn" TStr; req #"portal" iscsiPortal].
Definition IscsiPortalDeletePayload : ty := struct [req #"iqn" TStr; req #"portal" iscsiPortal].
Definition IscsiLUNCreatePayload : ty := struct [req #"iqn" TStr; req #"lun" iscsiLUN].
Definition IscsiLUNDeletePayload : ty := struct [req #"iqn" TStr; req #"id" TInt].
Definition IscsiACLCreatePayload : ty := struct [req #"iqn" TStr; req #"acl" iscsiACL].
Definition IscsiACLDeletePayload : ty := struct [req #"iqn" TStr; req #"initiatorIqn" TStr].
Definition IscsiSaveConfigPayload : ty := struct [].
Definition NvmeofSubsystemCreatePayload : ty := struct [req #"subsystem" nvmeofSubsystem].
Definition NvmeofSubsystemDestroyPayload : ty := struct [req #"nqn" TStr].
Definition NvmeofNamespaceAddPayload : ty := struct [req #"nqn" TStr; req #"namespace" nvmeofNamespace].
Definition NvmeofNamespaceRemovePayload : ty := struct [req #"nqn" TStr; req #"nsid" TInt].
Definition NvmeofHostAllowPayload : ty := struct [req #"nqn" TStr; req #"hostNqn" TStr].
Definition NvmeofHostDisallowPayload : ty := struct [req #"nqn" TStr; req #"hostNqn" TStr].
Definition NvmeofPortCreatePayload : ty := struct [req #"port" nvmeofPort].
Definition NvmeofPortDeletePayload : ty := struct [req #"id" TInt].
Definition NvmeofPortLinkPayload : ty := struct [req #"portId" TInt; req #"nqn" TStr].
Definition NvmeofPortUnlinkPayload : ty := struct [req #"portId" TInt; req #"nqn" TStr].
Definition NvmeofSetHostDHChapPayload : ty := struct [req #"hostNqn" TStr; req #"config" nvmeofDHChapConfig].
Definition NvmeofClearHostDHChapPayload : ty := struct [req #"hostNqn" TStr].
Definition NvmeofSaveConfigPayload : ty := struct [opt #"path" TStr].
Definition PoolCreatePayload : ty := struct [req #"name" TStr; req #"spec" poolCreateSpec].
Definition PoolDestroyPayload : ty := struct [req #"name" TStr].
Definition PoolScrubPayload : ty := struct [req #"name" TStr; req #"action" TStr].
Definition DatasetCreatePayload : ty := struct [req #"spec" datasetCreateSpec].
Definition DatasetSetPayload : ty := struct [req #"name" TStr; req #"properties" (TMap TStr)].
Definition DatasetDestroyPayload : ty := struct [req #"name" TStr; req #"recursive" TBool].
Definition SnapshotCreatePayload : ty := struct [req #"dataset" TStr; req #"shortName" TStr; req #"recursive" TBool].
Definition SnapshotDestroyPayload : ty := struct [req #"name" TStr].
Definition SnapshotRollbackPayload : ty := struct [req #"snapshot" TStr].
Definition PoolReplacePayload : ty := struct [req #"name" TStr; req #"oldDisk" TStr; req #"newDisk" TStr].
Definition PoolOfflinePayload : ty := struct [req #"name" TStr; req #"disk" TStr; req #"temporary" TBool].
Definition PoolOnlinePayload : ty := struct [req #"name" TStr; req #"disk" TStr].
Definition PoolClearPayload : ty := struct [req #"name" TStr; req #"disk" TStr].
Definition PoolAttachPayload : ty := struct [req #"name" TStr; req #"existing" TStr; req #"newDisk" TStr].
Definition PoolDetachPayload : ty := struct [req #"name" TStr; req #"disk" TStr].
Definition PoolAddPayload : ty := struct [req #"name" TStr; req #"spec" poolAddSpec].
Definition PoolExportPayload : ty := struct [req #"name" TStr; req #"force" TBool].
Definition PoolImportPayload : ty := struct [req #"name" TStr].
Definition DatasetRenamePayload : ty := struct [req #"oldName" TStr; req #"newName" TStr; req #"recursive" TBool].
Definition DatasetClonePayload : ty := struct [req #"snapshot" TStr; req #"target" TStr; opt #"properties" (TMap TStr)].
Definition DatasetPromotePayload : ty := struct [req #"name" TStr].
Definition DatasetLoadKeyPayload : ty := struct [req #"name" TStr; opt #"keylocation" TStr; req #"recursive" TBool].
Definition DatasetUnloadKeyPayload : ty := struct [req #"name" TStr; req #"recursive" TBool].
Definition DatasetChangeKeyPayload : ty := struct [req #"name" TStr; req #"properties" (TMap TStr)].
Definition PoolTrimPayload : ty := struct [req #"name" TStr; req #"action" TStr; opt #"disk" TStr].
Definition PoolSetPropsPayload : ty := struct [req #"name" TStr; req #"properties" (TMap TStr)].
Definition DatasetBookmarkPayload : ty := struct [req #"snapshot" TStr; req #"bookmark" TStr].
Definition DatasetDestroyBookmarkPayload : ty := struct [req #"bookmark" TStr].
Definition SnapshotHoldPayload : ty := struct [req #"snapshot" TStr; req #"tag" TStr; req #"recursive" TBool].
Definition SnapshotReleasePayload : ty := struct [req #"snapshot" TStr; req #"tag" TStr; req #"recursive" TBool].
Definition PoolCheckpointPayload : ty := struct [req #"name" TStr].
Definition PoolDiscardCheckpointPayload : ty := struct [req #"name" TStr].
Definition PoolUpgradePayload : ty := struct [req #"name" TStr; req #"all" TBool].
Definition PoolReguidPayload : ty := struct [req #"name" TStr].
Definition NfsExportCreatePayload : ty := struct [req #"export" nfsExport].
Definition NfsExportUpdatePayload : ty := struct [req #"export" nfsExport].
Definition NfsExportDeletePayload : ty := struct [req #"name" TStr].
Definition NfsReloadPayload : ty := struct [].
Definition Krb5SetConfigPayload : ty := struct [req #"config" krb5Config].
Definition Krb5SetIdmapdPayload : ty := struct [req #"config" krb5IdmapdConfig].
Definition Krb5UploadKeytabPayload : ty := struct [req #"data" TBytes].
Definition Krb5DeleteKeytabPayload : ty := struct [].
Definition SambaShareCreatePayload : ty := struct [req #"share" sambaShare].
Definition SambaShareUpdatePayload : ty := struct [req #"share" sambaShare].
Definition SambaShareDeletePayload : ty := struct [req #"name" TStr].
Definition SambaReloadPayload : ty := struct [].
Definition SambaUserAddPayload : ty := struct [req #"username" TStr; req #"password" TStr].
Definition SambaUserDeletePayload : ty := struct [req #"username" TStr].
Definition SambaUserSetPasswordPayload : ty := struct [req #"username" TStr; req #"password" TStr].
Definition SmartRunSelfTestPayload : ty := struct [req #"devicePath" TStr; req #"testType" TStr].
Definition SmartEnablePayload : ty := struct [req #"devicePath" TStr].
Definition SchedSnapshotFirePayload : ty := struct [req #"scheduleId" TUuid].
Definition SchedReplicationFirePayload : ty := struct [req #"scheduleId" TUuid].
Definition NetworkInterfaceApplyPayload : ty := struct [req #"config" networkInterfaceConfig].
Definition NetworkInterfaceDeletePayload : ty := struct [req #"name" TStr; opt #"dryRun" TBool].
Definition NetworkVLANApplyPayload : ty := struct [req #"vlan" networkVLAN].
Definition NetworkBondApplyPayload : ty := struct [req #"bond" networkBond].
Definition NetworkReloadPayload : ty := struct [].
Definition SystemSetHostnamePayload : ty := struct [req #"hostname" TStr].
Definition SystemSetTimezonePayload : ty := struct [req #"timezone" TStr].
Definition SystemSetNTPPayload : ty := struct [req #"enabled" TBool; opt #"servers" (TSlice TStr)].
Definition SystemRebootPayload : ty := struct [req #"delaySeconds" TInt].
Definition SystemShutdownPayload : ty := struct [req #"delaySeconds" TInt].
Definition SystemCancelShutdownPayload : ty := struct [].
Definition ProtocolShareCreatePayload : ty := struct [req #"share" protocolShare].
Definition ProtocolShareUpdatePayload : ty := struct [req #"share" protocolShare].
Definition ProtocolShareDeletePayload : ty := struct [req #"name" TStr; opt #"pool" TStr; opt #"datasetName" TStr].
Definition DatasetSetACLPayload : ty := struct [req #"path" TStr; req #"aces" (TSlice datasetACE)].
Definition DatasetAppendACEPayload : ty := struct [req #"path" TStr; req #"ace" datasetACE].
Definition DatasetRemoveACEPayload : ty := struct [req #"path" TStr; req #"index" TInt].
Definition SambaSetGlobalsPayload : ty := struct [req #"opts" sambaGlobalsOpts].
Definition ReplicationRunPayload : ty := struct [req #"jobId" TUuid].

(** ** Kinds *)

Inductive Kind :=
| KindPoolCreate | KindPoolDestroy | KindPoolScrub | KindPoolReplace | KindPoolOffline | KindPoolOnline | KindPoolClear | KindPoolAttach
| KindPoolDetach | KindPoolAdd | KindPoolExport | KindPoolImport | KindDatasetCreate | KindDatasetSet | KindDatasetDestroy
| KindDatasetRename | KindDatasetClone | KindDatasetPromote | KindDatasetLoadKey | KindDatasetUnloadKey | KindDatasetChangeKey
| KindPoolTrim | KindPoolSetProps | KindSnapshotCreate | KindSnapshotDestroy | KindSnapshotRollback | KindDatasetBookmark
| KindDatasetDestroyBookmark | KindSnapshotHold | KindSnapshotRelease | KindPoolCheckpoint | KindPoolDiscardCheckpoint | KindPoolUpgrade
| KindPoolReguid | KindIscsiTargetCreate | KindIscsiTargetDestroy | KindIscsiPortalCreate | KindIscsiPortalDelete | KindIscsiLUNCreate
| KindIscsiLUNDelete | KindIscsiACLCreate | KindIscsiACLDelete | KindIscsiSaveConfig | KindNvmeofSubsystemCreate
| KindNvmeofSubsystemDestroy | KindNvmeofNamespaceAdd | KindNvmeofNamespaceRemove | KindNvmeofHostAllow | KindNvmeofHostDisallow
| KindNvmeofPortCreate | KindNvmeofPortDelete | KindNvmeofPortLink | KindNvmeofPortUnlink | KindNvmeofSetHostDHChap
| KindNvmeofClearHostDHChap | KindNvmeofSaveConfig | KindNfsExportCreate | KindNfsExportUpdate | KindNfsExportDelete | KindNfsReload
| KindKrb5SetConfig | KindKrb5SetIdmapd | KindKrb5UploadKeytab | KindKrb5DeleteKeytab | KindSambaShareCreate | KindSambaShareUpdate
| KindSambaShareDelete | KindSambaReload | KindSambaUserAdd | KindSambaUserDelete | KindSambaUserSetPassword | KindSmartRunSelfTest
| KindSmartEnable | KindSchedSnapshotFire | KindSchedReplicationFire | KindNetworkInterfaceApply | KindNetworkInterfaceDelete
| KindNetworkVLANApply | KindNetworkBondApply | KindNetworkReload | KindSystemSetHostname | KindSystemSetTimezone | KindSystemSetNTP
| KindSystemReboot | KindSystemShutdown | KindSystemCancelShutdown | KindProtocolShareCreate | KindProtocolShareUpdate
| KindProtocolShareDelete | KindDatasetSetACL | KindDatasetAppendACE | KindDatasetRemoveACE | KindSambaSetGlobals | KindReplicationRun.

Definition type_string (k : Kind) : gostr :=
  match k with
  | KindPoolCreate => #"pool.create"
  | KindPoolDestroy => #"pool.destroy"
  | KindPoolScrub => #"pool.scrub"
  | KindPoolReplace => #"pool.replace"
  | KindPoolOffline => #"pool.offline"
  | KindPoolOnline => #"pool.online"
  | KindPoolClear => #"pool.clear"
  | KindPoolAttach => #"pool.attach"
  | KindPoolDetach => #"pool.detach"
  | KindPoolAdd => #"pool.add"
  | KindPoolExport => #"pool.export"
  | KindPoolImport => #"pool.import"
  | KindDatasetCreate => #"dataset.create"
  | KindDatasetSet => #"dataset.set"
  | KindDatasetDestroy => #"dataset.destroy"
  | KindDatasetRename => #"dataset.rename"
  | KindDatasetClone => #"dataset.clone"
  | KindDatasetPromote => #"dataset.promote"
  | KindDatasetLoadKey => #"dataset.load_key"
  | KindDatasetUnloadKey => #"dataset.unload_key"
  | KindDatasetChangeKey => #"dataset.change_key"
  | KindPoolTrim => #"pool.trim"
  | KindPoolSetProps => #"pool.set_props"
  | KindSnapshotCreate => #"snapshot.create"
  | KindSnapshotDestroy => #"snapshot.destroy"
  | KindSnapshotRollback => #"snapshot.rollback"
  | KindDatasetBookmark => #"dataset.bookmark"
  | KindDatasetDestroyBookmark => #"dataset.destroy_bookmark"
  | KindSnapshotHold => #"snapshot.hold"
  | KindSnapshotRelease => #"snapshot.release"
  | KindPoolCheckpoint => #"pool.checkpoint"
  | KindPoolDiscardCheckpoint => #"pool.discard_checkpoint"
  | KindPoolUpgrade => #"pool.upgrade"
  | KindPoolReguid => #"pool.reguid"
  | KindIscsiTargetCreate => #"iscsi.target.create"
  | KindIscsiTargetDestroy => #"iscsi.target.destroy"
  | KindIscsiPortalCreate => #"iscsi.portal.create"
  | KindIscsiPortalDelete => #"iscsi.portal.delete"
  | KindIscsiLUNCreate => #"iscsi.lun.create"
  | KindIscsiLUNDelete => #"iscsi.lun.delete"
  | KindIscsiACLCreate => #"iscsi.acl.create"
  | KindIscsiACLDelete => #"iscsi.acl.delete"
  | KindIscsiSaveConfig => #"iscsi.saveconfig"
  | KindNvmeofSubsystemCreate => #"nvmeof.subsystem.create"
  | KindNvmeofSubsystemDestroy => #"nvmeof.subsystem.destroy"
  | KindNvmeofNamespaceAdd => #"nvmeof.namespace.add"
  | KindNvmeofNamespaceRemove => #"nvmeof.namespace.remove"
  | KindNvmeofHostAllow => #"nvmeof.host.allow"
  | KindNvmeofHostDisallow => #"nvmeof.host.disallow"
  | KindNvmeofPortCreate => #"nvmeof.port.create"
  | KindNvmeofPortDelete => #"nvmeof.port.delete"
  | KindNvmeofPortLink => #"nvmeof.port.link"
  | KindNvmeofPortUnlink => #"nvmeof.port.unlink"
  | KindNvmeofSetHostDHChap => #"nvmeof.host.dhchap.set"
  | KindNvmeofClearHostDHChap => #"nvmeof.host.dhchap.clear"
  | KindNvmeofSaveConfig => #"nvmeof.saveconfig"
  | KindNfsExportCreate => #"nfs.export.create"
  | KindNfsExportUpdate => #"nfs.export.update"
  | KindNfsExportDelete => #"nfs.export.delete"
  | KindNfsReload => #"nfs.reload"
  | KindKrb5SetConfig => #"krb5.config.set"
  | KindKrb5SetIdmapd => #"krb5.idmapd.set"
  | KindKrb5UploadKeytab => #"krb5.keytab.upload"
  | KindKrb5DeleteKeytab => #"krb5.keytab.delete"
  | KindSambaShareCreate => #"samba.share.create"
  | KindSambaShareUpdate => #"samba.share.update"
  | KindSambaShareDelete => #"samba.share.delete"
  | KindSambaReload => #"samba.reload"
  | KindSambaUserAdd => #"samba.user.add"
  | KindSambaUserDelete => #"samba.user.delete"
  | KindSambaUserSetPassword => #"samba.user.set_password"
  | KindSmartRunSelfTest => #"smart.selftest.run"
  | KindSmartEnable => #"smart.enable"
  | KindSchedSnapshotFire => #"scheduler.snapshot.fire"
  | KindSchedReplicationFire => #"scheduler.replication.fire"
  | KindNetworkInterfaceApply => #"network.interface.apply"
  | KindNetworkInterfaceDelete => #"network.interface.delete"
  | KindNetworkVLANApply => #"network.vlan.apply"
  | KindNetworkBondApply => #"network.bond.apply"
  | KindNetworkReload => #"network.reload"
  | KindSystemSetHostname => #"system.hostname.set"
  | KindSystemSetTimezone => #"system.timezone.set"
  | KindSystemSetNTP => #"system.ntp.set"
  | KindSystemReboot => #"system.reboot"
  | KindSystemShutdown => #"system.shutdown"
  | KindSystemCancelShutdown => #"system.cancel_shutdown"
  | KindProtocolShareCreate => #"protocolshare.create"
  | KindProtocolShareUpdate => #"protocolshare.update"
  | KindProtocolShareDelete => #"protocolshare.delete"
  | KindDatasetSetACL => #"dataset.acl.set"
  | KindDatasetAppendACE => #"dataset.acl.append"
  | KindDatasetRemoveACE => #"dataset.acl.remove"
  | KindSambaSetGlobals => #"samba.globals.set"
  | KindReplicationRun => #"replication:run"
  end.

(** The payload of a kind: the struct its handler decodes. *)
Definition payload_ty (k : Kind) : ty :=
  match k with
  | KindPoolCreate => PoolCreatePayload
  | KindPoolDestroy => PoolDestroyPayload
  | KindPoolScrub => PoolScrubPayload
  | KindPoolReplace => PoolReplacePayload
  | KindPoolOffline => PoolOfflinePayload
  | KindPoolOnline => PoolOnlinePayload
  | KindPoolClear => PoolClearPayload
  | KindPoolAttach => PoolAttachPayload
  | KindPoolDetach => PoolDetachPayload
  | KindPoolAdd => PoolAddPayload
  | KindPoolExport => PoolExportPayload
  | KindPoolImport => PoolImportPayload
  | KindDatasetCreate => DatasetCreatePayload
  | KindDatasetSet => DatasetSetPayload
  | KindDatasetDestroy => DatasetDestroyPayload
  | KindDatasetRename => DatasetRenamePayload
  | KindDatasetClone => DatasetClonePayload
  | KindDatasetPromote => DatasetPromotePayload
  | KindDatasetLoadKey => DatasetLoadKeyPayload
  | KindDatasetUnloadKey => DatasetUnloadKeyPayload
  | KindDatasetChangeKey => DatasetChangeKeyPayload
  | KindPoolTrim => PoolTrimPayload
  | KindPoolSetProps => PoolSetPropsPayload
  | KindSnapshotCreate => SnapshotCreatePayload
  | KindSnapshotDestroy => SnapshotDestroyPayload
  | KindSnapshotRollback => SnapshotRollbackPayload
  | KindDatasetBookmark => DatasetBookmarkPayload
  | KindDatasetDestroyBookmark => DatasetDestroyBookmarkPayload
  | KindSnapshotHold => SnapshotHoldPayload
  | KindSnapshotRelease => SnapshotReleasePayload
  | KindPoolCheckpoint => PoolCheckpointPayload
  | KindPoolDiscardCheckpoint => PoolDiscardCheckpointPayload
  | KindPoolUpgrade => PoolUpgradePayload
  | KindPoolReguid => PoolReguidPayload
  | KindIscsiTargetCreate => IscsiTargetCreatePayload
  | KindIscsiTargetDestroy => IscsiTargetDestroyPayload
  | KindIscsiPortalCreate => IscsiPortalCreatePayload
  | KindIscsiPortalDelete => IscsiPortalDeletePayload
  | KindIscsiLUNCreate => IscsiLUNCreatePayload
  | KindIscsiLUNDelete => IscsiLUNDeletePayload
  | KindIscsiACLCreate => IscsiACLCreatePayload
  | KindIscsiACLDelete => IscsiACLDeletePayload
  | KindIscsiSaveConfig => IscsiSaveConfigPayload
  | KindNvmeofSubsystemCreate => NvmeofSubsystemCreatePayload
  | KindNvmeofSubsystemDestroy => NvmeofSubsystemDestroyPayload
  | KindNvmeofNamespaceAdd => NvmeofNamespaceAddPayload
  | KindNvmeofNamespaceRemove => NvmeofNamespaceRemovePayload
  | KindNvmeofHostAllow => NvmeofHostAllowPayload
  | KindNvmeofHostDisallow => NvmeofHostDisallowPayload
  | KindNvmeofPortCreate => NvmeofPortCreatePayload
  | KindNvmeofPortDelete => NvmeofPortDeletePayload
  | KindNvmeofPortLink => NvmeofPortLinkPayload
  | KindNvmeofPortUnlink => NvmeofPortUnlinkPayload
  | KindNvmeofSetHostDHChap => NvmeofSetHostDHChapPayload
  | KindNvmeofClearHostDHChap => NvmeofClearHostDHChapPayload
  | KindNvmeofSaveConfig => NvmeofSaveConfigPayload
  | KindNfsExportCreate => NfsExportCreatePayload
  | KindNfsExportUpdate => NfsExportUpdatePayload
  | KindNfsExportDelete => NfsExportDeletePayload
  | KindNfsReload => NfsReloadPayload
  | KindKrb5SetConfig => Krb5SetConfigPayload
  | KindKrb5SetIdmapd => Krb5SetIdmapdPayload
  | KindKrb5UploadKeytab => Krb5UploadKeytabPayload
  | KindKrb5DeleteKeytab => Krb5DeleteKeytabPayload
  | KindSambaShareCreate => SambaShareCreatePayload
  | KindSambaShareUpdate => SambaShareUpdatePayload
  | KindSambaShareDelete => SambaShareDeletePayload
  | KindSambaReload => SambaReloadPayload
  | KindSambaUserAdd => SambaUserAddPayload
  | KindSambaUserDelete => SambaUserDeletePayload
  | KindSambaUserSetPassword => SambaUserSetPasswordPayload
  | KindSmartRunSelfTest => SmartRunSelfTestPayload
  | KindSmartEnable => SmartEnablePayload
  | KindSchedSnapshotFire => SchedSnapshotFirePayload
  | KindSchedReplicationFire => SchedReplicationFirePayload
  | KindNetworkInterfaceApply => NetworkInterfaceApplyPayload
  | KindNetworkInterfaceDelete => NetworkInterfaceDeletePayload
  | KindNetworkVLANApply => NetworkVLANApplyPayload
  | KindNetworkBondApply => NetworkBondApplyPayload
  | KindNetworkReload => NetworkReloadPayload
  | KindSystemSetHostname => SystemSetHostnamePayload
  | KindSystemSetTimezone => SystemSetTimezonePayload
  | KindSystemSetNTP => SystemSetNTPPayload
  | KindSystemReboot => SystemRebootPayload
  | KindSystemShutdown => SystemShutdownPayload
  | KindSystemCancelShutdown => SystemCancelShutdownPayload
  | KindProtocolShareCreate => ProtocolShareCreatePayload
  | KindProtocolShareUpdate => ProtocolShareUpdatePayload
  | KindProtocolShareDelete => ProtocolShareDeletePayload
  | KindDatasetSetACL => DatasetSetACLPayload
  | KindDatasetAppendACE => DatasetAppendACEPayload
  | KindDatasetRemoveACE => DatasetRemoveACEPayload
  | KindSambaSetGlobals => SambaSetGlobalsPayload
  | KindReplicationRun => ReplicationRunPayload
  end.

Definition all_kinds : list Kind :=
  [KindPoolCreate; KindPoolDestroy; KindPoolScrub; KindPoolReplace; KindPoolOffline; KindPoolOnline; KindPoolClear; KindPoolAttach;
  KindPoolDetach; KindPoolAdd; KindPoolExport; KindPoolImport; KindDatasetCreate; KindDatasetSet; KindDatasetDestroy; KindDatasetRename;
  KindDatasetClone; KindDatasetPromote; KindDatasetLoadKey; KindDatasetUnloadKey; KindDatasetChangeKey; KindPoolTrim; KindPoolSetProps;
  KindSnapshotCreate; KindSnapshotDestroy; KindSnapshotRollback; KindDatasetBookmark; KindDatasetDestroyBookmark; KindSnapshotHold;
  KindSnapshotRelease; KindPoolCheckpoint; KindPoolDiscardCheckpoint; KindPoolUpgrade; KindPoolReguid; KindIscsiTargetCreate;
  KindIscsiTargetDestroy; KindIscsiPortalCreate; KindIscsiPortalDelete; KindIscsiLUNCreate; KindIscsiLUNDelete; KindIscsiACLCreate;
  KindIscsiACLDelete; KindIscsiSaveConfig; KindNvmeofSubsystemCreate; KindNvmeofSubsystemDestroy; KindNvmeofNamespaceAdd;
  KindNvmeofNamespaceRemove; KindNvmeofHostAllow; KindNvmeofHostDisallow; KindNvmeofPortCreate; KindNvmeofPortDelete; KindNvmeofPortLink;
  KindNvmeofPortUnlink; KindNvmeofSetHostDHChap; KindNvmeofClearHostDHChap; KindNvmeofSaveConfig; KindNfsExportCreate; KindNfsExportUpdate;
  KindNfsExportDelete; KindNfsReload; KindKrb5SetConfig; KindKrb5SetIdmapd; KindKrb5UploadKeytab; KindKrb5DeleteKeytab;
  KindSambaShareCreate; KindSambaShareUpdate; KindSambaShareDelete; KindSambaReload; KindSambaUserAdd; KindSambaUserDelete;
  KindSambaUserSetPassword; KindSmartRunSelfTest; KindSmartEnable; KindSchedSnapshotFire; KindSchedReplicationFire;
  KindNetworkInterfaceApply; KindNetworkInterfaceDelete; KindNetworkVLANApply; KindNetworkBondApply; KindNetworkReload;
  KindSystemSetHostname; KindSystemSetTimezone; KindSystemSetNTP; KindSystemReboot; KindSystemShutdown; KindSystemCancelShutdown;
  KindProtocolShareCreate; KindProtocolShareUpdate; KindProtocolShareDelete; KindDatasetSetACL; KindDatasetAppendACE; KindDatasetRemoveACE;
  KindSambaSetGlobals; KindReplicationRun].
End JobKinds.
