(* ===== verification/Jobs.v ===== *)
(** * internal/jobs: dispatching jobs and working them off

    Job rows, the dispatcher, the worker's handlers and the handlers of
    the jobs API.  The task queue (asynq), the database connection and the
    managers are interfaces. *)

From stdpp Require Import gmap.
From S2P Require Import Prelude GoStrings GoTime Effects Retention GoJson JobTypes.

Module JobsM.
Import JobKinds.

(** ** Rows *)

Inductive JobState := queued | running | succeeded | failed | cancelled | interrupted.
#[export] Instance JobState_eq : EqDecision JobState := ltac:(solve_decision).

(** Times are left out. *)
Record Job := mkJob {
  JKind : gostr; JTarget : gostr; JState : JobState; JCommand : gostr; JRequestID : gostr;
  JStdout : gostr; JStderr : gostr; JExitCode : option Z; JError : option gostr }.

Definition with_state (st : JobState) (j : Job) : Job :=
  mkJob (JKind j) (JTarget j) st (JCommand j) (JRequestID j) (JStdout j) (JStderr j) (JExitCode j) (JError j).

(** An error of a manager; a command that failed carries what it printed. *)
Record JobErr := mkErr { Error : gostr; HostError : option (gostr * Z) }.

Definition int32 (z : Z) : Z := (z + 2 ^ 31) mod 2 ^ 32 - 2 ^ 31.

Section Table.
Context {U : Type} `{Countable U}.
Abbreviation table := (gmap U Job).

(** UPDATE jobs ... WHERE id = $1 AND state IN (...). *)
Definition update_job (from : list JobState) (f : Job -> Job) (id : U) (rows : table) : table :=
  match rows !! id with
  | Some j => if bool_decide (JState j ∈ from) then <[id := f j]> rows else rows
  | None => rows
  end.

Definition MarkJobRunning (id : U) : table -> table := update_job [queued; interrupted] (with_state running) id.

Definition MarkJobFinished (st : JobState) (stdout stderr : gostr) (exit : option Z) (err : option gostr) (id : U) : table -> table :=
  update_job [running] (fun j => mkJob (JKind j) (JTarget j) st (JCommand j) (JRequestID j) stdout stderr exit err) id.

Definition CancelJob (id : U) : table -> table := update_job [queued; running] (with_state cancelled) id.

Definition interrupt (j : Job) : Job :=
  if bool_decide (JState j ∈ [queued; running])
  then mkJob (JKind j) (JTarget j) interrupted (JCommand j) (JRequestID j) (JStdout j) (JStderr j) (JExitCode j) (Some #"process restarted")
  else j.
Definition MarkRunningInterrupted (rows : table) : table := interrupt <$> rows.
End Table.

(** ** Interfaces *)

(** github.com/hibiken/asynq: tasks by their ids. *)
Record Task := mkTask { TType : gostr; TBody : json }.
Inductive phase := Pending | Active | Archived.
Inductive enqueued := Enqueued | TaskIDConflict | QueueDown.

Class Asynq (Q : Type) := {
  tasks : Q -> gmap gostr (Task * phase);
  enqueue : gostr -> Task -> Q -> Q * enqueued;
  start : gostr -> Q -> Q;
  processed : gostr -> bool -> Q -> Q;
  recover : Q -> Q;
  mux_find {R : Type} : list (gostr * R) -> gostr -> option R }.

(** The operations of the managers that handlers call. *)
Inductive TrimAction := TrimStart | TrimStop.
Inductive HostOp {U : Type} :=
| Pools_Create (_ : den (U := U) poolCreateSpec)
| Pools_Destroy (_ : den (U := U) TStr)
| Pools_Scrub (_ : den (U := U) TStr) (_ : den (U := U) TStr)
| Datasets_Create (_ : den (U := U) datasetCreateSpec)
| Datasets_SetProps (_ : den (U := U) TStr) (_ : den (U := U) (TMap TStr))
| Datasets_Destroy (_ : den (U := U) TStr) (_ : den (U := U) TBool)
| Snapshots_Create (_ : den (U := U) TStr) (_ : den (U := U) TStr) (_ : den (U := U) TBool)
| Snapshots_Destroy (_ : den (U := U) TStr)
| Snapshots_Rollback (_ : den (U := U) TStr)
| Pools_Replace (_ : den (U := U) TStr) (_ : den (U := U) TStr) (_ : den (U := U) TStr)
| Pools_Offline (_ : den (U := U) TStr) (_ : den (U := U) TStr) (_ : den (U := U) TBool)
| Pools_Online (_ : den (U := U) TStr) (_ : den (U := U) TStr)
| Pools_Clear (_ : den (U := U) TStr) (_ : den (U := U) TStr)
| Pools_Attach (_ : den (U := U) TStr) (_ : den (U := U) TStr) (_ : den (U := U) TStr)
| Pools_Detach (_ : den (U := U) TStr) (_ : den (U := U) TStr)
| Pools_Add (_ : den (U := U) TStr) (_ : den (U := U) poolAddSpec)
| Pools_Export (_ : den (U := U) TStr) (_ : den (U := U) TBool)
| Pools_Import (_ : den (U := U) TStr)
| Datasets_Rename (_ : den (U := U) TStr) (_ : den (U := U) TStr) (_ : den (U := U) TBool)
| Datasets_Clone (_ : den (U := U) TStr) (_ : den (U := U) TStr) (_ : den (U := U) (TMap TStr))
| Datasets_Promote (_ : den (U := U) TStr)
| Datasets_LoadKey (_ : den (U := U) TStr) (_ : den (U := U) TStr) (_ : den (U := U) TBool)
| Datasets_UnloadKey (_ : den (U := U) TStr) (_ : den (U := U) TBool)
| Datasets_ChangeKey (_ : den (U := U) TStr) (_ : den (U := U) (TMap TStr))
| Pools_SetProps (_ : den (U := U) TStr) (_ : den (U := U) (TMap TStr))
| Datasets_Bookmark (_ : den (U := U) TStr) (_ : den (U := U) TStr)
| Datasets_DestroyBookmark (_ : den (U := U) TStr)
| Snapshots_Hold (_ : den (U := U) TStr) (_ : den (U := U) TStr) (_ : den (U := U) TBool)
| Snapshots_Release (_ : den (U := U) TStr) (_ : den (U := U) TStr) (_ : den (U := U) TBool)
| Pools_Checkpoint (_ : den (U := U) TStr)
| Pools_DiscardCheckpoint (_ : den (U := U) TStr)
| Pools_Upgrade (_ : den (U := U) TStr) (_ : den (U := U) TBool)
| Pools_Reguid (_ : den (U := U) TStr)
| Iscsi_CreateTarget (_ : den (U := U) TStr)
| Iscsi_DeleteTarget (_ : den (U := U) TStr)
| Iscsi_CreatePortal (_ : den (U := U) TStr) (_ : den (U := U) iscsiPortal)
| Iscsi_DeletePortal (_ : den (U := U) TStr) (_ : den (U := U) iscsiPortal)
| Iscsi_CreateLUN (_ : den (U := U) TStr) (_ : den (U := U) iscsiLUN)
| Iscsi_DeleteLUN (_ : den (U := U) TStr) (_ : den (U := U) TInt)
| Iscsi_CreateACL (_ : den (U := U) TStr) (_ : den (U := U) iscsiACL)
| Iscsi_DeleteACL (_ : den (U := U) TStr) (_ : den (U := U) TStr)
| Iscsi_SaveConfig
| Nvmeof_CreateSubsystem (_ : den (U := U) nvmeofSubsystem)
| Nvmeof_DeleteSubsystem (_ : den (U := U) TStr)
| Nvmeof_AddNamespace (_ : den (U := U) TStr) (_ : den (U := U) nvmeofNamespace)
| Nvmeof_RemoveNamespace (_ : den (U := U) TStr) (_ : den (U := U) TInt)
| Nvmeof_AllowHost (_ : den (U := U) TStr) (_ : den (U := U) TStr)
| Nvmeof_DisallowHost (_ : den (U := U) TStr) (_ : den (U := U) TStr)
| Nvmeof_CreatePort (_ : den (U := U) nvmeofPort)
| Nvmeof_DeletePort (_ : den (U := U) TInt)
| Nvmeof_LinkSubsystemToPort (_ : den (U := U) TStr) (_ : den (U := U) TInt)
| Nvmeof_UnlinkSubsystemFromPort (_ : den (U := U) TStr) (_ : den (U := U) TInt)
| Nvmeof_SetHostDHChap (_ : den (U := U) TStr) (_ : den (U := U) nvmeofDHChapConfig)
| Nvmeof_ClearHostDHChap (_ : den (U := U) TStr)
| Nfs_CreateExport (_ : den (U := U) nfsExport)
| Nfs_UpdateExport (_ : den (U := U) nfsExport)
| Nfs_DeleteExport (_ : den (U := U) TStr)
| Nfs_Reload
| Krb5_SetConfig (_ : den (U := U) krb5Config)
| Krb5_SetIdmapdConfig (_ : den (U := U) krb5IdmapdConfig)
| Krb5_UploadKeytab (_ : den (U := U) TBytes)
| Krb5_DeleteKeytab
| Samba_CreateShare (_ : den (U := U) sambaShare)
| Samba_UpdateShare (_ : den (U := U) sambaShare)
| Samba_DeleteShare (_ : den (U := U) TStr)
| Samba_Reload
| Samba_AddUser (_ : den (U := U) TStr) (_ : den (U := U) TStr)
| Samba_DeleteUser (_ : den (U := U) TStr)
| Samba_SetUserPassword (_ : den (U := U) TStr) (_ : den (U := U) TStr)
| Smart_RunSelfTest (_ : den (U := U) TStr) (_ : den (U := U) TStr)
| Smart_EnableSMART (_ : den (U := U) TStr)
| Network_ApplyInterfaceConfig (_ : den (U := U) networkInterfaceConfig)
| Network_DeleteInterfaceConfig (_ : den (U := U) TStr) (_ : den (U := U) TBool)
| Network_ApplyVLAN (_ : den (U := U) networkVLAN)
| Network_ApplyBond (_ : den (U := U) networkBond)
| Network_Reload
| System_SetHostname (_ : den (U := U) TStr)
| System_SetTimezone (_ : den (U := U) TStr)
| System_SetNTP (_ : den (U := U) TBool) (_ : den (U := U) (TSlice TStr))
| System_Reboot (_ : den (U := U) TInt)
| System_Shutdown (_ : den (U := U) TInt)
| System_Cancel
| ProtocolShare_Create (_ : den (U := U) protocolShare)
| ProtocolShare_Update (_ : den (U := U) protocolShare)
| Datasets_SetACL (_ : den (U := U) TStr) (_ : den (U := U) (TSlice datasetACE))
| Datasets_AppendACE (_ : den (U := U) TStr) (_ : den (U := U) datasetACE)
| Datasets_RemoveACE (_ : den (U := U) TStr) (_ : den (U := U) TInt)
| Samba_SetGlobals (_ : den (U := U) sambaGlobalsOpts)
| Pools_Trim (Name : gostr) (action : TrimAction) (Disk : gostr)
| Nvmeof_SaveToFile (path : gostr)
| ProtocolShare_DeleteShare (s : den (U := U) protocolShare)
| ProtocolShare_Delete (Name : gostr)
| Replication_Run (jobID : U).
Arguments HostOp U : clear implicits.

(** The rest of the process and the host: whether the database answers,
    the managers, the event channel, two queries of the scheduler and the
    clock. *)
Record SnapshotSchedule := mkSchedule { Dataset : gostr; SnapshotPrefix : gostr; Recursive_ : bool }.
Class World (U X : Type) := {
  db_up : X -> X * bool;
  host_run : HostOp U -> X -> X * option JobErr;
  publish : gostr -> gostr -> X -> X;
  GetSnapshotSchedule : U -> X -> X * res JobErr SnapshotSchedule;
  GetReplicationSchedule : U -> X -> X * option JobErr;
  Zone : Location;
  Now : X -> X * Instant }.

Section Jobs.
Context {U : Type} `{Countable U, !UuidLib U} {Q : Type} `{!Asynq Q} {X : Type} `{!World U X}.

Record Sys := mkSys { rows : gmap U Job; queue : Q; ext : X }.
Abbreviation den := (den (U := U)).

Definition on_ext {A} (f : X -> X * A) : M Sys A := fun s => let '(x, a) := f (ext s) in (mkSys (rows s) (queue s) x, Some a).
Definition on_queue {A} (f : Q -> Q * A) : M Sys A := fun s => let '(q, a) := f (queue s) in (mkSys (rows s) q (ext s), Some a).
Definition set_rows (f : gmap U Job -> gmap U Job) : M Sys unit := fun s => (mkSys (f (rows s)) (queue s) (ext s), Some tt).

(** A statement changes the table when the database answers. *)
Definition exec_sql (f : gmap U Job -> gmap U Job) : M Sys bool :=
  let! up := on_ext db_up in
  if up : bool then let! _ := set_rows f in ret true else ret false.

(** ** The dispatcher *)

Inductive dispatch_err := DbErr | ErrDuplicate | EnqueueErr.

(** Payload is any value: its type is not tied to the kind. *)
Record DispatchInput := mkInput {
  IKind : Kind; ITarget : gostr; IType : ty; IPayload : den IType; ICommand : gostr; IRequestID : gostr; IUniqueKey : gostr }.

Definition encodeTaskBody (jobID : U) (payload : json) : json :=
  JObj [( #"jobId", JStr (uuid_String jobID)); ( #"payload", payload)].

Definition new_row (d : DispatchInput) : Job :=
  mkJob (type_string (IKind d)) (ITarget d) queued (ICommand d) (IRequestID d) [] [] None None.

Definition task_of (jobID : U) (d : DispatchInput) : Task :=
  mkTask (type_string (IKind d)) (encodeTaskBody jobID (marshal (IType d) (IPayload d))).

(** Up to the commit: the row is only seen by its transaction. *)
Definition dispatch_enqueue (jobID : U) (autoID : gostr) (d : DispatchInput) : M Sys (res dispatch_err unit) :=
  let! begun := on_ext db_up in
  if negb begun then ret (Err DbErr)
  else
    let! inserted := on_ext db_up in
    let! s := (fun s => (s, Some s)) in
    if negb inserted || bool_decide (is_Some (rows s !! jobID)) then ret (Err DbErr)
    else
      let id := if str_eqb (IUniqueKey d) [] then autoID else IUniqueKey d in
      let! r := on_queue (enqueue id (task_of jobID d)) in
      ret (match r with Enqueued => Ok tt | TaskIDConflict => Err ErrDuplicate | QueueDown => Err EnqueueErr end).

Definition dispatch_commit (jobID : U) (row : Job) : M Sys (res dispatch_err U) :=
  let! ok := exec_sql (insert jobID row) in ret (if ok : bool then Ok jobID else Err DbErr).

Definition Dispatch (jobID : U) (autoID : gostr) (d : DispatchInput) : M Sys (res dispatch_err U) :=
  let! r := dispatch_enqueue jobID autoID d in
  match r with Err e => ret (Err e) | Ok _ => dispatch_commit jobID (new_row d) end.

Definition DispatchReplication (jobID : U) (autoID : gostr) (job : U) (requestID : gostr) : M Sys (res dispatch_err U) :=
  Dispatch jobID autoID (mkInput KindReplicationRun (uuid_String job) ReplicationRunPayload (job, tt)
    ( #"replication.run " ++ uuid_String job) requestID ( #"replication:job:" ++ uuid_String job)).

Definition DispatchScrub (jobID : U) (autoID name action requestID : gostr) : M Sys (res dispatch_err U) :=
  let cmd := if str_eqb action #"stop" then #"zpool scrub -s " ++ name else #"zpool scrub " ++ name in
  Dispatch jobID autoID (mkInput KindPoolScrub name PoolScrubPayload (name, (action, tt)) cmd requestID ( #"pool:" ++ name ++ #":scrub")).

(** ** The worker *)

Definition host (op : HostOp U) : M Sys (option JobErr) := on_ext (host_run op).

(** The struct a handler decodes, and what it does with it. *)
Record handler := mkHandler { payload : ty; run : den payload -> M Sys (option JobErr) }.

Definition decode_error : JobErr := mkErr #"decode" None.

(** A task body holds the id as a string and the payload as it is. *)
Definition body_fields : list gostr := [ #"jobId"; #"payload"].
Definition set_body (b : gostr * json) (n : gostr) (j : json) : option (gostr * json) :=
  if str_eqb n #"jobId" then match j with JNull => Some b | JStr s => Some (s, b.2) | _ => None end
  else Some (b.1, j).
Definition decode_body (t : json) : option (gostr * json) :=
  match t with
  | JObj ms => fold_opt (set_member body_fields set_body) ms ([], JNull)
  | JNull => Some ([], JNull)
  | _ => None
  end.

(** An absent payload is not a JSON text; null is one. *)
Definition has_payload (t : json) : bool :=
  match t with JObj ms => existsb (fun kv => bool_decide (pick body_fields kv.1 = Some #"payload")) ms | _ => false end.

Definition decode (p : ty) (t : json) : option (U * den p) :=
  match decode_body t with
  | None => None
  | Some (id, j) =>
      match uuid_Parse id with
      | None => None
      | Some u => if has_payload t then (fun v => (u, v)) <$> unmarshal p (zero p) j else None
      end
  end.

Definition markRunning (id : U) : M Sys bool := exec_sql (MarkJobRunning id).

Definition finish (id : U) (runErr : option JobErr) : M Sys unit :=
  let st := match runErr with None => succeeded | Some _ => failed end in
  let stderr := match runErr with Some (mkErr _ (Some (out, _))) => out | _ => [] end in
  let exitCode := match runErr with Some (mkErr _ (Some (_, code))) => Some (int32 code) | _ => None end in
  let! _ := exec_sql (MarkJobFinished st [] stderr exitCode (Error <$> runErr) id) in
  on_ext (fun x => (publish ( #"job:" ++ uuid_String id ++ #":update") (match runErr with None => #"succeeded" | Some _ => #"failed" end) x, tt)).

Definition handle (h : handler) (t : json) : M Sys (option JobErr) :=
  match decode (payload h) t with
  | None => ret (Some decode_error)
  | Some (id, p) =>
      let! _ := markRunning id in
      let! err := run h p in
      let! _ := finish id err in
      ret err
  end.

Definition handlePoolCreate : handler := mkHandler PoolCreatePayload (fun '(_, (Spec, tt)) => host (Pools_Create Spec)).
Definition handlePoolDestroy : handler := mkHandler PoolDestroyPayload (fun '(Name, tt) => host (Pools_Destroy Name)).
Definition handlePoolScrub : handler := mkHandler PoolScrubPayload (fun '(Name, (Action, tt)) => host (Pools_Scrub Name Action)).
Definition handleDatasetCreate : handler := mkHandler DatasetCreatePayload (fun '(Spec, tt) => host (Datasets_Create Spec)).
Definition handleDatasetSet : handler := mkHandler DatasetSetPayload (fun '(Name, (Properties, tt)) => host (Datasets_SetProps Name Properties)).
Definition handleDatasetDestroy : handler := mkHandler DatasetDestroyPayload (fun '(Name, (Recursive, tt)) => host (Datasets_Destroy Name Recursive)).
Definition handleSnapshotCreate : handler := mkHandler SnapshotCreatePayload (fun '(Dataset, (ShortName, (Recursive, tt))) => host (Snapshots_Create Dataset ShortName Recursive)).
Definition handleSnapshotDestroy : handler := mkHandler SnapshotDestroyPayload (fun '(Name, tt) => host (Snapshots_Destroy Name)).
Definition handleSnapshotRollback : handler := mkHandler SnapshotRollbackPayload (fun '(Snapshot, tt) => host (Snapshots_Rollback Snapshot)).
Definition handlePoolReplace : handler := mkHandler PoolReplacePayload (fun '(Name, (OldDisk, (NewDisk, tt))) => host (Pools_Replace Name OldDisk NewDisk)).
Definition handlePoolOffline : handler := mkHandler PoolOfflinePayload (fun '(Name, (Disk, (Temporary, tt))) => host (Pools_Offline Name Disk Temporary)).
Definition handlePoolOnline : handler := mkHandler PoolOnlinePayload (fun '(Name, (Disk, tt)) => host (Pools_Online Name Disk)).
Definition handlePoolClear : handler := mkHandler PoolClearPayload (fun '(Name, (Disk, tt)) => host (Pools_Clear Name Disk)).
Definition handlePoolAttach : handler := mkHandler PoolAttachPayload (fun '(Name, (Existing, (NewDisk, tt))) => host (Pools_Attach Name Existing NewDisk)).
Definition handlePoolDetach : handler := mkHandler PoolDetachPayload (fun '(Name, (Disk, tt)) => host (Pools_Detach Name Disk)).
Definition handlePoolAdd : handler := mkHandler PoolAddPayload (fun '(Name, (Spec, tt)) => host (Pools_Add Name Spec)).
Definition handlePoolExport : handler := mkHandler PoolExportPayload (fun '(Name, (Force, tt)) => host (Pools_Export Name Force)).
Definition handlePoolImport : handler := mkHandler PoolImportPayload (fun '(Name, tt) => host (Pools_Import Name)).
Definition handleDatasetRename : handler := mkHandler DatasetRenamePayload (fun '(OldName, (NewName, (Recursive, tt))) => host (Datasets_Rename OldName NewName Recursive)).
Definition handleDatasetClone : handler := mkHandler DatasetClonePayload (fun '(Snapshot, (Target, (Properties, tt))) => host (Datasets_Clone Snapshot Target Properties)).
Definition handleDatasetPromote : handler := mkHandler DatasetPromotePayload (fun '(Name, tt) => host (Datasets_Promote Name)).
Definition handleDatasetLoadKey : handler := mkHandler DatasetLoadKeyPayload (fun '(Name, (Keylocation, (Recursive, tt))) => host (Datasets_LoadKey Name Keylocation Recursive)).
Definition handleDatasetUnloadKey : handler := mkHandler DatasetUnloadKeyPayload (fun '(Name, (Recursive, tt)) => host (Datasets_UnloadKey Name Recursive)).
Definition handleDatasetChangeKey : handler := mkHandler DatasetChangeKeyPayload (fun '(Name, (Properties, tt)) => host (Datasets_ChangeKey Name Properties)).
Definition handlePoolSetProps : handler := mkHandler PoolSetPropsPayload (fun '(Name, (Properties, tt)) => host (Pools_SetProps Name Properties)).
Definition handleDatasetBookmark : handler := mkHandler DatasetBookmarkPayload (fun '(Snapshot, (Bookmark, tt)) => host (Datasets_Bookmark Snapshot Bookmark)).
Definition handleDatasetDestroyBookmark : handler := mkHandler DatasetDestroyBookmarkPayload (fun '(Bookmark, tt) => host (Datasets_DestroyBookmark Bookmark)).
Definition handleSnapshotHold : handler := mkHandler SnapshotHoldPayload (fun '(Snapshot, (Tag, (Recursive, tt))) => host (Snapshots_Hold Snapshot Tag Recursive)).
Definition handleSnapshotRelease : handler := mkHandler SnapshotReleasePayload (fun '(Snapshot, (Tag, (Recursive, tt))) => host (Snapshots_Release Snapshot Tag Recursive)).
Definition handlePoolCheckpoint : handler := mkHandler PoolCheckpointPayload (fun '(Name, tt) => host (Pools_Checkpoint Name)).
Definition handlePoolDiscardCheckpoint : handler := mkHandler PoolDiscardCheckpointPayload (fun '(Name, tt) => host (Pools_DiscardCheckpoint Name)).
Definition handlePoolUpgrade : handler := mkHandler PoolUpgradePayload (fun '(Name, (All, tt)) => host (Pools_Upgrade Name All)).
Definition handlePoolReguid : handler := mkHandler PoolReguidPayload (fun '(Name, tt) => host (Pools_Reguid Name)).
Definition handleIscsiTargetCreate : handler := mkHandler IscsiTargetCreatePayload (fun '(IQN, tt) => host (Iscsi_CreateTarget IQN)).
Definition handleIscsiTargetDestroy : handler := mkHandler IscsiTargetDestroyPayload (fun '(IQN, tt) => host (Iscsi_DeleteTarget IQN)).
Definition handleIscsiPortalCreate : handler := mkHandler IscsiPortalCreatePayload (fun '(IQN, (Portal, tt)) => host (Iscsi_CreatePortal IQN Portal)).
Definition handleIscsiPortalDelete : handler := mkHandler IscsiPortalDeletePayload (fun '(IQN, (Portal, tt)) => host (Iscsi_DeletePortal IQN Portal)).
Definition handleIscsiLUNCreate : handler := mkHandler IscsiLUNCreatePayload (fun '(IQN, (LUN, tt)) => host (Iscsi_CreateLUN IQN LUN)).
Definition handleIscsiLUNDelete : handler := mkHandler IscsiLUNDeletePayload (fun '(IQN, (ID, tt)) => host (Iscsi_DeleteLUN IQN ID)).
Definition handleIscsiACLCreate : handler := mkHandler IscsiACLCreatePayload (fun '(IQN, (ACL, tt)) => host (Iscsi_CreateACL IQN ACL)).
Definition handleIscsiACLDelete : handler := mkHandler IscsiACLDeletePayload (fun '(IQN, (InitiatorIQN, tt)) => host (Iscsi_DeleteACL IQN InitiatorIQN)).
Definition handleIscsiSaveConfig : handler := mkHandler IscsiSaveConfigPayload (fun 'tt => host (Iscsi_SaveConfig)).
Definition handleNvmeofSubsystemCreate : handler := mkHandler NvmeofSubsystemCreatePayload (fun '(Subsystem, tt) => host (Nvmeof_CreateSubsystem Subsystem)).
Definition handleNvmeofSubsystemDestroy : handler := mkHandler NvmeofSubsystemDestroyPayload (fun '(NQN, tt) => host (Nvmeof_DeleteSubsystem NQN)).
Definition handleNvmeofNamespaceAdd : handler := mkHandler NvmeofNamespaceAddPayload (fun '(NQN, (Namespace, tt)) => host (Nvmeof_AddNamespace NQN Namespace)).
Definition handleNvmeofNamespaceRemove : handler := mkHandler NvmeofNamespaceRemovePayload (fun '(NQN, (NSID, tt)) => host (Nvmeof_RemoveNamespace NQN NSID)).
Definition handleNvmeofHostAllow : handler := mkHandler NvmeofHostAllowPayload (fun '(NQN, (HostNQN, tt)) => host (Nvmeof_AllowHost NQN HostNQN)).
Definition handleNvmeofHostDisallow : handler := mkHandler NvmeofHostDisallowPayload (fun '(NQN, (HostNQN, tt)) => host (Nvmeof_DisallowHost NQN HostNQN)).
Definition handleNvmeofPortCreate : handler := mkHandler NvmeofPortCreatePayload (fun '(Port, tt) => host (Nvmeof_CreatePort Port)).
Definition handleNvmeofPortDelete : handler := mkHandler NvmeofPortDeletePayload (fun '(ID, tt) => host (Nvmeof_DeletePort ID)).
Definition handleNvmeofPortLink : handler := mkHandler NvmeofPortLinkPayload (fun '(PortID, (NQN, tt)) => host (Nvmeof_LinkSubsystemToPort NQN PortID)).
Definition handleNvmeofPortUnlink : handler := mkHandler NvmeofPortUnlinkPayload (fun '(PortID, (NQN, tt)) => host (Nvmeof_UnlinkSubsystemFromPort NQN PortID)).
Definition handleNvmeofSetHostDHChap : handler := mkHandler NvmeofSetHostDHChapPayload (fun '(HostNQN, (Config, tt)) => host (Nvmeof_SetHostDHChap HostNQN Config)).
Definition handleNvmeofClearHostDHChap : handler := mkHandler NvmeofClearHostDHChapPayload (fun '(HostNQN, tt) => host (Nvmeof_ClearHostDHChap HostNQN)).
Definition handleNfsExportCreate : handler := mkHandler NfsExportCreatePayload (fun '(Export, tt) => host (Nfs_CreateExport Export)).
Definition handleNfsExportUpdate : handler := mkHandler NfsExportUpdatePayload (fun '(Export, tt) => host (Nfs_UpdateExport Export)).
Definition handleNfsExportDelete : handler := mkHandler NfsExportDeletePayload (fun '(Name, tt) => host (Nfs_DeleteExport Name)).
Definition handleNfsReload : handler := mkHandler NfsReloadPayload (fun 'tt => host (Nfs_Reload)).
Definition handleKrb5SetConfig : handler := mkHandler Krb5SetConfigPayload (fun '(Config, tt) => host (Krb5_SetConfig Config)).
Definition handleKrb5SetIdmapd : handler := mkHandler Krb5SetIdmapdPayload (fun '(Config, tt) => host (Krb5_SetIdmapdConfig Config)).
Definition handleKrb5UploadKeytab : handler := mkHandler Krb5UploadKeytabPayload (fun '(Data, tt) => host (Krb5_UploadKeytab Data)).
Definition handleKrb5DeleteKeytab : handler := mkHandler Krb5DeleteKeytabPayload (fun 'tt => host (Krb5_DeleteKeytab)).
Definition handleSambaShareCreate : handler := mkHandler SambaShareCreatePayload (fun '(Share, tt) => host (Samba_CreateShare Share)).
Definition handleSambaShareUpdate : handler := mkHandler SambaShareUpdatePayload (fun '(Share, tt) => host (Samba_UpdateShare Share)).
Definition handleSambaShareDelete : handler := mkHandler SambaShareDeletePayload (fun '(Name, tt) => host (Samba_DeleteShare Name)).
Definition handleSambaReload : handler := mkHandler SambaReloadPayload (fun 'tt => host (Samba_Reload)).
Definition handleSambaUserAdd : handler := mkHandler SambaUserAddPayload (fun '(Username, (Password, tt)) => host (Samba_AddUser Username Password)).
Definition handleSambaUserDelete : handler := mkHandler SambaUserDeletePayload (fun '(Username, tt) => host (Samba_DeleteUser Username)).
Definition handleSambaUserSetPassword : handler := mkHandler SambaUserSetPasswordPayload (fun '(Username, (Password, tt)) => host (Samba_SetUserPassword Username Password)).
Definition handleSmartRunSelfTest : handler := mkHandler SmartRunSelfTestPayload (fun '(DevicePath, (TestType, tt)) => host (Smart_RunSelfTest DevicePath TestType)).
Definition handleSmartEnable : handler := mkHandler SmartEnablePayload (fun '(DevicePath, tt) => host (Smart_EnableSMART DevicePath)).
Definition handleNetworkInterfaceApply : handler := mkHandler NetworkInterfaceApplyPayload (fun '(Config, tt) => host (Network_ApplyInterfaceConfig Config)).
Definition handleNetworkInterfaceDelete : handler := mkHandler NetworkInterfaceDeletePayload (fun '(Name, (DryRun, tt)) => host (Network_DeleteInterfaceConfig Name DryRun)).
Definition handleNetworkVLANApply : handler := mkHandler NetworkVLANApplyPayload (fun '(VLAN, tt) => host (Network_ApplyVLAN VLAN)).
Definition handleNetworkBondApply : handler := mkHandler NetworkBondApplyPayload (fun '(Bond, tt) => host (Network_ApplyBond Bond)).
Definition handleNetworkReload : handler := mkHandler NetworkReloadPayload (fun 'tt => host (Network_Reload)).
Definition handleSystemSetHostname : handler := mkHandler SystemSetHostnamePayload (fun '(Hostname, tt) => host (System_SetHostname Hostname)).
Definition handleSystemSetTimezone : handler := mkHandler SystemSetTimezonePayload (fun '(Timezone, tt) => host (System_SetTimezone Timezone)).
Definition handleSystemSetNTP : handler := mkHandler SystemSetNTPPayload (fun '(Enabled, (Servers, tt)) => host (System_SetNTP Enabled Servers)).
Definition handleSystemReboot : handler := mkHandler SystemRebootPayload (fun '(DelaySeconds, tt) => host (System_Reboot DelaySeconds)).
Definition handleSystemShutdown : handler := mkHandler SystemShutdownPayload (fun '(DelaySeconds, tt) => host (System_Shutdown DelaySeconds)).
Definition handleSystemCancelShutdown : handler := mkHandler SystemCancelShutdownPayload (fun 'tt => host (System_Cancel)).
Definition handleProtocolShareCreate : handler := mkHandler ProtocolShareCreatePayload (fun '(Share, tt) => host (ProtocolShare_Create Share)).
Definition handleProtocolShareUpdate : handler := mkHandler ProtocolShareUpdatePayload (fun '(Share, tt) => host (ProtocolShare_Update Share)).
Definition handleDatasetSetACL : handler := mkHandler DatasetSetACLPayload (fun '(Path, (ACEs, tt)) => host (Datasets_SetACL Path ACEs)).
Definition handleDatasetAppendACE : handler := mkHandler DatasetAppendACEPayload (fun '(Path, (ACE, tt)) => host (Datasets_AppendACE Path ACE)).
Definition handleDatasetRemoveACE : handler := mkHandler DatasetRemoveACEPayload (fun '(Path, (Index, tt)) => host (Datasets_RemoveACE Path Index)).
Definition handleSambaSetGlobals : handler := mkHandler SambaSetGlobalsPayload (fun '(Opts, tt) => host (Samba_SetGlobals Opts)).

Definition handlePoolTrim : handler := mkHandler PoolTrimPayload (fun '(Name, (Action, (Disk, tt))) =>
  if str_eqb Action #"start" then host (Pools_Trim Name TrimStart Disk)
  else if str_eqb Action #"stop" then host (Pools_Trim Name TrimStop Disk)
  else ret (Some (mkErr ( #"invalid trim action " ++ Action) None))).

Definition handleNvmeofSaveConfig : handler := mkHandler NvmeofSaveConfigPayload (fun '(Path, tt) =>
  host (Nvmeof_SaveToFile (if str_eqb Path [] then #"/etc/nova-nas/nvmet-config.json" else Path))).

Definition handleSchedSnapshotFire : handler := mkHandler SchedSnapshotFirePayload (fun '(ScheduleID, tt) =>
  let! s := on_ext (GetSnapshotSchedule ScheduleID) in
  match s with
  | Err e => ret (Some e)
  | Ok s =>
      let! now := on_ext (Now (U := U)) in
      host (Snapshots_Create (Dataset s) (Retention.FormatSnapTime (SnapshotPrefix s) (Zone (U := U) (X := X)) now) (Recursive_ s))
  end).

Definition handleSchedReplicationFire : handler := mkHandler SchedReplicationFirePayload (fun '(ScheduleID, tt) =>
  on_ext (GetReplicationSchedule ScheduleID)).

Definition handleProtocolShareDelete : handler := mkHandler ProtocolShareDeletePayload (fun '(Name, (Pool, (DatasetName, tt))) =>
  if negb (str_eqb Pool []) && negb (str_eqb DatasetName [])
  then host (ProtocolShare_DeleteShare (Name, (Pool, (DatasetName, (None, (None, (0, (None, (None, tt)))))))))
  else host (ProtocolShare_Delete Name)).

(** The replication handler keeps no row. *)
Definition decode_run (t : json) : option U :=
  match decode_body t with
  | None => None
  | Some (_, j) => if has_payload t then fst <$> unmarshal ReplicationRunPayload (zero ReplicationRunPayload) j else None
  end.
Definition HandleReplicationRun (t : json) : M Sys (option JobErr) :=
  match decode_run t with
  | None => ret (Some decode_error)
  | Some id => if bool_decide (id = uuid_Nil) then ret (Some (mkErr #"replication: empty jobId" None)) else host (Replication_Run id)
  end.

Inductive route := Handle (h : handler) | HandleRun.

Definition NewServeMux : list (gostr * route) :=
  [(type_string KindPoolCreate, Handle handlePoolCreate); (type_string KindPoolDestroy, Handle handlePoolDestroy); (type_string KindPoolScrub, Handle handlePoolScrub);
   (type_string KindPoolReplace, Handle handlePoolReplace); (type_string KindPoolOffline, Handle handlePoolOffline); (type_string KindPoolOnline, Handle handlePoolOnline);
   (type_string KindPoolClear, Handle handlePoolClear); (type_string KindPoolAttach, Handle handlePoolAttach); (type_string KindPoolDetach, Handle handlePoolDetach); (type_string KindPoolAdd, Handle handlePoolAdd);
   (type_string KindPoolExport, Handle handlePoolExport); (type_string KindPoolImport, Handle handlePoolImport); (type_string KindDatasetCreate, Handle handleDatasetCreate);
   (type_string KindDatasetSet, Handle handleDatasetSet); (type_string KindDatasetDestroy, Handle handleDatasetDestroy); (type_string KindDatasetRename, Handle handleDatasetRename);
   (type_string KindDatasetClone, Handle handleDatasetClone); (type_string KindDatasetPromote, Handle handleDatasetPromote); (type_string KindDatasetLoadKey, Handle handleDatasetLoadKey);
   (type_string KindDatasetUnloadKey, Handle handleDatasetUnloadKey); (type_string KindDatasetChangeKey, Handle handleDatasetChangeKey); (type_string KindPoolTrim, Handle handlePoolTrim);
   (type_string KindPoolSetProps, Handle handlePoolSetProps); (type_string KindSnapshotCreate, Handle handleSnapshotCreate); (type_string KindSnapshotDestroy, Handle handleSnapshotDestroy);
   (type_string KindSnapshotRollback, Handle handleSnapshotRollback); (type_string KindDatasetBookmark, Handle handleDatasetBookmark);
   (type_string KindDatasetDestroyBookmark, Handle handleDatasetDestroyBookmark); (type_string KindSnapshotHold, Handle handleSnapshotHold);
   (type_string KindSnapshotRelease, Handle handleSnapshotRelease); (type_string KindPoolCheckpoint, Handle handlePoolCheckpoint);
   (type_string KindPoolDiscardCheckpoint, Handle handlePoolDiscardCheckpoint); (type_string KindPoolUpgrade, Handle handlePoolUpgrade); (type_string KindPoolReguid, Handle handlePoolReguid);
   (type_string KindIscsiTargetCreate, Handle handleIscsiTargetCreate); (type_string KindIscsiTargetDestroy, Handle handleIscsiTargetDestroy);
   (type_string KindIscsiPortalCreate, Handle handleIscsiPortalCreate); (type_string KindIscsiPortalDelete, Handle handleIscsiPortalDelete);
   (type_string KindIscsiLUNCreate, Handle handleIscsiLUNCreate); (type_string KindIscsiLUNDelete, Handle handleIscsiLUNDelete); (type_string KindIscsiACLCreate, Handle handleIscsiACLCreate);
   (type_string KindIscsiACLDelete, Handle handleIscsiACLDelete); (type_string KindIscsiSaveConfig, Handle handleIscsiSaveConfig);
   (type_string KindNvmeofSubsystemCreate, Handle handleNvmeofSubsystemCreate); (type_string KindNvmeofSubsystemDestroy, Handle handleNvmeofSubsystemDestroy);
   (type_string KindNvmeofNamespaceAdd, Handle handleNvmeofNamespaceAdd); (type_string KindNvmeofNamespaceRemove, Handle handleNvmeofNamespaceRemove);
   (type_string KindNvmeofHostAllow, Handle handleNvmeofHostAllow); (type_string KindNvmeofHostDisallow, Handle handleNvmeofHostDisallow);
   (type_string KindNvmeofPortCreate, Handle handleNvmeofPortCreate); (type_string KindNvmeofPortDelete, Handle handleNvmeofPortDelete);
   (type_string KindNvmeofPortLink, Handle handleNvmeofPortLink); (type_string KindNvmeofPortUnlink, Handle handleNvmeofPortUnlink);
   (type_string KindNvmeofSetHostDHChap, Handle handleNvmeofSetHostDHChap); (type_string KindNvmeofClearHostDHChap, Handle handleNvmeofClearHostDHChap);
   (type_string KindNvmeofSaveConfig, Handle handleNvmeofSaveConfig); (type_string KindNfsExportCreate, Handle handleNfsExportCreate);
   (type_string KindNfsExportUpdate, Handle handleNfsExportUpdate); (type_string KindNfsExportDelete, Handle handleNfsExportDelete); (type_string KindNfsReload, Handle handleNfsReload);
   (type_string KindKrb5SetConfig, Handle handleKrb5SetConfig); (type_string KindKrb5SetIdmapd, Handle handleKrb5SetIdmapd); (type_string KindKrb5UploadKeytab, Handle handleKrb5UploadKeytab);
   (type_string KindKrb5DeleteKeytab, Handle handleKrb5DeleteKeytab); (type_string KindSambaShareCreate, Handle handleSambaShareCreate);
   (type_string KindSambaShareUpdate, Handle handleSambaShareUpdate); (type_string KindSambaShareDelete, Handle handleSambaShareDelete); (type_string KindSambaReload, Handle handleSambaReload);
   (type_string KindSambaUserAdd, Handle handleSambaUserAdd); (type_string KindSambaUserDelete, Handle handleSambaUserDelete);
   (type_string KindSambaUserSetPassword, Handle handleSambaUserSetPassword); (type_string KindSmartRunSelfTest, Handle handleSmartRunSelfTest);
   (type_string KindSmartEnable, Handle handleSmartEnable); (type_string KindSchedSnapshotFire, Handle handleSchedSnapshotFire);
   (type_string KindSchedReplicationFire, Handle handleSchedReplicationFire); (type_string KindNetworkInterfaceApply, Handle handleNetworkInterfaceApply);
   (type_string KindNetworkInterfaceDelete, Handle handleNetworkInterfaceDelete); (type_string KindNetworkVLANApply, Handle handleNetworkVLANApply);
   (type_string KindNetworkBondApply, Handle handleNetworkBondApply); (type_string KindNetworkReload, Handle handleNetworkReload);
   (type_string KindSystemSetHostname, Handle handleSystemSetHostname); (type_string KindSystemSetTimezone, Handle handleSystemSetTimezone);
   (type_string KindSystemSetNTP, Handle handleSystemSetNTP); (type_string KindSystemReboot, Handle handleSystemReboot); (type_string KindSystemShutdown, Handle handleSystemShutdown);
   (type_string KindSystemCancelShutdown, Handle handleSystemCancelShutdown); (type_string KindProtocolShareCreate, Handle handleProtocolShareCreate);
   (type_string KindProtocolShareUpdate, Handle handleProtocolShareUpdate); (type_string KindProtocolShareDelete, Handle handleProtocolShareDelete);
   (type_string KindDatasetSetACL, Handle handleDatasetSetACL); (type_string KindDatasetAppendACE, Handle handleDatasetAppendACE); (type_string KindDatasetRemoveACE, Handle handleDatasetRemoveACE);
   (type_string KindSambaSetGlobals, Handle handleSambaSetGlobals)].

(** The mux as main extends it. *)
Definition worker_mux : list (gostr * route) := NewServeMux ++ [(type_string KindReplicationRun, HandleRun)].

Definition serve (t : Task) : M Sys (option JobErr) :=
  match mux_find worker_mux (TType t) with
  | Some (Handle h) => handle h (TBody t)
  | Some HandleRun => HandleReplicationRun (TBody t)
  | None => ret (Some (mkErr #"handler not found" None))
  end.

(** ** Start of the process, and the jobs API *)

Definition MarkInterruptedAtStartup : M Sys bool := exec_sql MarkRunningInterrupted.

Inductive http := NoContent | BadId | DbError.
Definition h_Cancel (raw : gostr) : M Sys http :=
  match uuid_Parse raw with
  | None => ret BadId
  | Some id => let! ok := exec_sql (CancelJob id) in ret (if ok : bool then NoContent else DbError)
  end.
End Jobs.
End JobsM.
