(* ===== verification/JobsCorrect.v ===== *)
(** * Jobs: payloads arrive as they were sent, rows tell the truth

    The dispatcher, the queue, the worker and the jobs API as one system
    whose steps interleave. *)

From stdpp Require Import gmap.
From S2P Require Import Prelude GoStrings GoTime Effects Retention GoJson JobTypes Jobs.
Import JobKinds JobsM.

#[local] Arguments str : simpl never.

(** ** Every kind has a handler for its payload *)

Section Routes.
Context {U : Type} `{Countable U, !UuidLib U, !UuidLaws U} {Q : Type} `{!Asynq Q} {X : Type} `{!World U X}.

Definition route_of (k : Kind) : route (U := U) (Q := Q) (X := X) :=
  match k with
  | KindPoolCreate => Handle handlePoolCreate
  | KindPoolDestroy => Handle handlePoolDestroy
  | KindPoolScrub => Handle handlePoolScrub
  | KindPoolReplace => Handle handlePoolReplace
  | KindPoolOffline => Handle handlePoolOffline
  | KindPoolOnline => Handle handlePoolOnline
  | KindPoolClear => Handle handlePoolClear
  | KindPoolAttach => Handle handlePoolAttach
  | KindPoolDetach => Handle handlePoolDetach
  | KindPoolAdd => Handle handlePoolAdd
  | KindPoolExport => Handle handlePoolExport
  | KindPoolImport => Handle handlePoolImport
  | KindDatasetCreate => Handle handleDatasetCreate
  | KindDatasetSet => Handle handleDatasetSet
  | KindDatasetDestroy => Handle handleDatasetDestroy
  | KindDatasetRename => Handle handleDatasetRename
  | KindDatasetClone => Handle handleDatasetClone
  | KindDatasetPromote => Handle handleDatasetPromote
  | KindDatasetLoadKey => Handle handleDatasetLoadKey
  | KindDatasetUnloadKey => Handle handleDatasetUnloadKey
  | KindDatasetChangeKey => Handle handleDatasetChangeKey
  | KindPoolTrim => Handle handlePoolTrim
  | KindPoolSetProps => Handle handlePoolSetProps
  | KindSnapshotCreate => Handle handleSnapshotCreate
  | KindSnapshotDestroy => Handle handleSnapshotDestroy
  | KindSnapshotRollback => Handle handleSnapshotRollback
  | KindDatasetBookmark => Handle handleDatasetBookmark
  | KindDatasetDestroyBookmark => Handle handleDatasetDestroyBookmark
  | KindSnapshotHold => Handle handleSnapshotHold
  | KindSnapshotRelease => Handle handleSnapshotRelease
  | KindPoolCheckpoint => Handle handlePoolCheckpoint
  | KindPoolDiscardCheckpoint => Handle handlePoolDiscardCheckpoint
  | KindPoolUpgrade => Handle handlePoolUpgrade
  | KindPoolReguid => Handle handlePoolReguid
  | KindIscsiTargetCreate => Handle handleIscsiTargetCreate
  | KindIscsiTargetDestroy => Handle handleIscsiTargetDestroy
  | KindIscsiPortalCreate => Handle handleIscsiPortalCreate
  | KindIscsiPortalDelete => Handle handleIscsiPortalDelete
  | KindIscsiLUNCreate => Handle handleIscsiLUNCreate
  | KindIscsiLUNDelete => Handle handleIscsiLUNDelete
  | KindIscsiACLCreate => Handle handleIscsiACLCreate
  | KindIscsiACLDelete => Handle handleIscsiACLDelete
  | KindIscsiSaveConfig => Handle handleIscsiSaveConfig
  | KindNvmeofSubsystemCreate => Handle handleNvmeofSubsystemCreate
  | KindNvmeofSubsystemDestroy => Handle handleNvmeofSubsystemDestroy
  | KindNvmeofNamespaceAdd => Handle handleNvmeofNamespaceAdd
  | KindNvmeofNamespaceRemove => Handle handleNvmeofNamespaceRemove
  | KindNvmeofHostAllow => Handle handleNvmeofHostAllow
  | KindNvmeofHostDisallow => Handle handleNvmeofHostDisallow
  | KindNvmeofPortCreate => Handle handleNvmeofPortCreate
  | KindNvmeofPortDelete => Handle handleNvmeofPortDelete
  | KindNvmeofPortLink => Handle handleNvmeofPortLink
  | KindNvmeofPortUnlink => Handle handleNvmeofPortUnlink
  | KindNvmeofSetHostDHChap => Handle handleNvmeofSetHostDHChap
  | KindNvmeofClearHostDHChap => Handle handleNvmeofClearHostDHChap
  | KindNvmeofSaveConfig => Handle handleNvmeofSaveConfig
  | KindNfsExportCreate => Handle handleNfsExportCreate
  | KindNfsExportUpdate => Handle handleNfsExportUpdate
  | KindNfsExportDelete => Handle handleNfsExportDelete
  | KindNfsReload => Handle handleNfsReload
  | KindKrb5SetConfig => Handle handleKrb5SetConfig
  | KindKrb5SetIdmapd => Handle handleKrb5SetIdmapd
  | KindKrb5UploadKeytab => Handle handleKrb5UploadKeytab
  | KindKrb5DeleteKeytab => Handle handleKrb5DeleteKeytab
  | KindSambaShareCreate => Handle handleSambaShareCreate
  | KindSambaShareUpdate => Handle handleSambaShareUpdate
  | KindSambaShareDelete => Handle handleSambaShareDelete
  | KindSambaReload => Handle handleSambaReload
  | KindSambaUserAdd => Handle handleSambaUserAdd
  | KindSambaUserDelete => Handle handleSambaUserDelete
  | KindSambaUserSetPassword => Handle handleSambaUserSetPassword
  | KindSmartRunSelfTest => Handle handleSmartRunSelfTest
  | KindSmartEnable => Handle handleSmartEnable
  | KindSchedSnapshotFire => Handle handleSchedSnapshotFire
  | KindSchedReplicationFire => Handle handleSchedReplicationFire
  | KindNetworkInterfaceApply => Handle handleNetworkInterfaceApply
  | KindNetworkInterfaceDelete => Handle handleNetworkInterfaceDelete
  | KindNetworkVLANApply => Handle handleNetworkVLANApply
  | KindNetworkBondApply => Handle handleNetworkBondApply
  | KindNetworkReload => Handle handleNetworkReload
  | KindSystemSetHostname => Handle handleSystemSetHostname
  | KindSystemSetTimezone => Handle handleSystemSetTimezone
  | KindSystemSetNTP => Handle handleSystemSetNTP
  | KindSystemReboot => Handle handleSystemReboot
  | KindSystemShutdown => Handle handleSystemShutdown
  | KindSystemCancelShutdown => Handle handleSystemCancelShutdown
  | KindProtocolShareCreate => Handle handleProtocolShareCreate
  | KindProtocolShareUpdate => Handle handleProtocolShareUpdate
  | KindProtocolShareDelete => Handle handleProtocolShareDelete
  | KindDatasetSetACL => Handle handleDatasetSetACL
  | KindDatasetAppendACE => Handle handleDatasetAppendACE
  | KindDatasetRemoveACE => Handle handleDatasetRemoveACE
  | KindSambaSetGlobals => Handle handleSambaSetGlobals
  | KindReplicationRun => HandleRun
  end.

Lemma payload_ok k : ty_ok (payload_ty k) = true.
Proof. destruct k; vm_compute; reflexivity. Qed.

Lemma route_typed k h : route_of k = Handle h -> payload h = payload_ty k.
Proof. destruct k; intros E; first [discriminate E|injection E as <-; reflexivity]. Qed.

Lemma all_kinds_complete k : k ∈ all_kinds.
Proof. apply list_elem_of_In. destruct k; repeat first [left; reflexivity|right]. Qed.

Lemma mux_routes : worker_mux = map (fun k => (type_string k, route_of k)) all_kinds.
Proof. reflexivity. Qed.

Lemma type_strings_differ : NoDup (map type_string all_kinds).
Proof. by_dec. Qed.

(** A payload of the kind's type, with strings in UTF-8 and numbers that fit. *)
Definition well_typed (d : DispatchInput (U := U)) : Prop := IType d = payload_ty (IKind d) /\ fits (IType d) (IPayload d).

Lemma body_decoded (id : U) j : decode_body (encodeTaskBody id j) = Some (uuid_String id, j) /\ has_payload (encodeTaskBody id j) = true.
Proof. done. Qed.

Lemma decode_task id t (v : den (U := U) t) : ty_ok t = true -> fits t v ->
  decode t (encodeTaskBody id (marshal t v)) = Some (id, sent t v).
Proof.
  intros Hok Hv. unfold decode. destruct (body_decoded id (marshal t v)) as [-> ->]. rewrite uuid_parse_string.
  by rewrite json_roundtrip.
Qed.

Lemma decode_run_task (id job : U) : decode_run (encodeTaskBody id (marshal ReplicationRunPayload (job, tt))) = Some job.
Proof.
  unfold decode_run. destruct (body_decoded id (marshal ReplicationRunPayload (job, tt))) as [-> ->].
  by rewrite (json_roundtrip ReplicationRunPayload (job, tt)).
Qed.

(** Handlers leave the table and the queue alone. *)
Definition outside {A} (c : M (Sys (U := U) (Q := Q) (X := X)) A) : Prop :=
  forall s, exists x a, c s = (mkSys (rows s) (queue s) x, Some a).

Lemma outside_ret {A} (a : A) : outside (ret a).
Proof. intros [r q x]. by exists x, a. Qed.
Lemma outside_ext {A} (f : X -> X * A) : outside (on_ext f).
Proof. intros [r q x]. unfold on_ext. cbn. destruct (f x) as [x' a]. by exists x', a. Qed.
Lemma outside_bind {A B} (c : M Sys A) (k : A -> M Sys B) : outside c -> (forall a, outside (k a)) -> outside (bind c k).
Proof. intros Hc Hk s. unfold bind. destruct (Hc s) as (x & a & ->). destruct (Hk a (mkSys (rows s) (queue s) x)) as (x' & b & ->). by exists x', b. Qed.

Lemma outside_if {A} (b : bool) (c c' : M Sys A) : outside c -> outside c' -> outside (if b then c else c').
Proof. by destruct b. Qed.

Lemma handlers_outside k h p : route_of k = Handle h -> outside (run h p).
Proof.
  destruct k; intros E; first [discriminate E|injection E as <-]; cbn in p |- *;
    repeat match goal with x : _ * _ |- _ => destruct x | x : unit |- _ => destruct x end;
    repeat first [apply outside_if|apply outside_bind; [apply outside_ext|intros []]|apply outside_bind; [apply outside_ext|intros ?]
                 |apply outside_ext|apply outside_ret].
Qed.
End Routes.

(** ** The queue

    What asynq documents: a task id is taken as long as its task is known,
    also after it failed (with no retries left it is archived); a task that
    succeeds is forgotten; after a crash a task that was being worked on is
    pending again or archived; a pattern that is the task's type is the
    closest match. *)
Class AsynqLaws (Q : Type) `{Asynq Q} := {
  enqueue_law id t q q' r : enqueue id t q = (q', r) ->
    match tasks q !! id with
    | Some _ => r = TaskIDConflict /\ tasks q' = tasks q
    | None => (r = Enqueued /\ tasks q' = <[id := (t, Pending)]> (tasks q)) \/ (r = QueueDown /\ tasks q' = tasks q)
    end;
  start_law id t q : tasks q !! id = Some (t, Pending) -> tasks (start id q) = <[id := (t, Active)]> (tasks q);
  processed_law id t ok q : tasks q !! id = Some (t, Active) ->
    tasks (processed id ok q) = if ok : bool then delete id (tasks q) else <[id := (t, Archived)]> (tasks q);
  recover_law q id : match tasks q !! id with
    | Some (t, Active) => exists ph, tasks (recover q) !! id = Some (t, ph) /\ ph <> Active
    | o => tasks (recover q) !! id = o
    end;
  mux_law {R} (l : list (gostr * R)) s r : NoDup (map fst l) -> (s, r) ∈ l -> mux_find l s = Some r }.

(** ** The system *)

Section System.
Context {U : Type} `{Countable U, !UuidLib U, !UuidLaws U} {Q : Type} `{!Asynq Q, !AsynqLaws Q} {X : Type} `{!World U X}.
Abbreviation Sys := (Sys (U := U) (Q := Q) (X := X)).
Abbreviation mux := (worker_mux (U := U) (Q := Q) (X := X)).
Abbreviation handler := (handler (U := U) (Q := Q) (X := X)).

(** A goroutine of the worker: it has to run the job, or ran it. *)
Inductive thread := TRunning (id : U) (go : M Sys (option JobErr)) | TRan (id : U) (err : option JobErr).

(** Transactions that are not committed, the goroutines, and the
    operations that were carried out, with their outcome. *)
Record config := mkConfig { sys : Sys; open_tx : gmap U Job; threads : gmap gostr thread; ran : list (U * option JobErr) }.

Definition set_queue (f : Q -> Q) (s : Sys) : Sys := mkSys (rows s) (f (queue s)) (ext s).
Definition is_ok (e : option JobErr) : bool := match e with None => true | Some _ => false end.

Inductive label := LDispatch | LCommit | LStart (id : U) | LRun | LFinish | LUndecodable | LReplicate | LCancel (id : U) | LRestart | LOther.

Inductive step : label -> config -> config -> Prop :=
| s_enqueue c id auto d s' : well_typed d -> open_tx c !! id = None ->
    dispatch_enqueue id auto d (sys c) = (s', Some (Ok tt)) ->
    step LDispatch c (mkConfig s' (<[id := new_row d]> (open_tx c)) (threads c) (ran c))
| s_refused c id auto d s' e : dispatch_enqueue id auto d (sys c) = (s', Some (Err e)) ->
    step LDispatch c (mkConfig s' (open_tx c) (threads c) (ran c))
| s_commit c id row s' r : open_tx c !! id = Some row -> dispatch_commit id row (sys c) = (s', Some r) ->
    step LCommit c (mkConfig s' (delete id (open_tx c)) (threads c) (ran c))
| s_start c tid t (h : handler) id p s' ok : tasks (queue (sys c)) !! tid = Some (t, Pending) -> mux_find mux (TType t) = Some (Handle h) ->
    decode (payload h) (TBody t) = Some (id, p) -> markRunning id (set_queue (start tid) (sys c)) = (s', Some ok) ->
    step (LStart id) c (mkConfig s' (open_tx c) (<[tid := TRunning id (run h p)]> (threads c)) (ran c))
| s_run c tid id go s' err : threads c !! tid = Some (TRunning id go) -> go (sys c) = (s', Some err) ->
    step LRun c (mkConfig s' (open_tx c) (<[tid := TRan id err]> (threads c)) (ran c ++ [(id, err)]))
| s_finish c tid id err s' : threads c !! tid = Some (TRan id err) -> finish id err (sys c) = (s', Some tt) ->
    step LFinish c (mkConfig (set_queue (processed tid (is_ok err)) s') (open_tx c) (delete tid (threads c)) (ran c))
| s_undecodable c tid t (h : handler) : tasks (queue (sys c)) !! tid = Some (t, Pending) -> mux_find mux (TType t) = Some (Handle h) ->
    decode (payload h) (TBody t) = None ->
    step LUndecodable c (mkConfig (set_queue (fun q => processed tid false (start tid q)) (sys c)) (open_tx c) (threads c) (ran c))
| s_replicate c tid t s' err : tasks (queue (sys c)) !! tid = Some (t, Pending) -> mux_find mux (TType t) = Some HandleRun ->
    HandleReplicationRun (TBody t) (set_queue (start tid) (sys c)) = (s', Some err) ->
    step LReplicate c (mkConfig (set_queue (processed tid (is_ok err)) s') (open_tx c) (threads c) (ran c))
| s_cancel c raw id s' r : uuid_Parse raw = Some id -> h_Cancel raw (sys c) = (s', Some r) ->
    step (LCancel id) c (mkConfig s' (open_tx c) (threads c) (ran c))
| s_restart c s' ok : MarkInterruptedAtStartup (set_queue recover (sys c)) = (s', Some ok) ->
    step LRestart c (mkConfig s' ∅ ∅ (ran c))
| s_other c x : step LOther c (mkConfig (mkSys (rows (sys c)) (queue (sys c)) x) (open_tx c) (threads c) (ran c)).

Inductive reachable : config -> Prop :=
| r_init s : rows s = ∅ -> tasks (queue s) = ∅ -> reachable (mkConfig s ∅ ∅ [])
| r_step l c c' : reachable c -> step l c c' -> reachable c'.

(** *** How the pieces change the table *)

Lemma exec_sql_run f (s : Sys) : exists x b, exec_sql f s = (mkSys (if b : bool then f (rows s) else rows s) (queue s) x, Some b).
Proof.
  unfold exec_sql, bind, on_ext, set_rows, ret. destruct (db_up (ext s)) as [x [|]]; [by exists x, true|by exists x, false].
Qed.

Lemma enqueue_run id auto d (s s' : Sys) r : dispatch_enqueue id auto d s = (s', Some r) ->
  rows s' = rows s /\
  match r with
  | Ok _ => rows s !! id = None /\ exists tid, (tid = if str_eqb (IUniqueKey d) [] then auto else IUniqueKey d) /\
              tasks (queue s) !! tid = None /\ tasks (queue s') = <[tid := (task_of id d, Pending)]> (tasks (queue s))
  | Err e => tasks (queue s') = tasks (queue s) /\
             (e = ErrDuplicate -> is_Some (tasks (queue s) !! (if str_eqb (IUniqueKey d) [] then auto else IUniqueKey d)))
  end.
Proof.
  unfold dispatch_enqueue, bind, on_ext, on_queue, ret. destruct (db_up (ext s)) as [x [|]]; cbn [negb]; [|by intros [= <- <-]].
  cbn [ext rows queue]. destruct (db_up x) as [x' ins]. cbn [ext rows queue].
  destruct (negb ins || bool_decide (is_Some (rows s !! id))) eqn:Eb; [by intros [= <- <-]|].
  apply orb_false_iff in Eb as [_ Eb%bool_decide_eq_false]. rewrite <- eq_None_not_Some in Eb.
  cbn [queue]. set (tid := if str_eqb (IUniqueKey d) [] then auto else IUniqueKey d). destruct (enqueue tid (task_of id d) (queue s)) as [q' r'] eqn:Eq.
  apply enqueue_law in Eq. intros [= <- <-]. cbn [rows queue]. split; [done|]. destruct (tasks (queue s) !! tid) eqn:Et.
  - destruct Eq as [-> Hq]. by split; [|eauto].
  - destruct Eq as [[-> Hq]|[-> Hq]]; [|by split]. split; [done|]. by exists tid.
Qed.

Lemma update_lookup from f (id k : U) rows :
  update_job from f id rows !! k = (fun j => if bool_decide (k = id /\ JState j ∈ from) then f j else j) <$> rows !! k.
Proof.
  unfold update_job. destruct (decide (k = id)) as [->|Hne].
  - destruct (rows !! id) as [j|] eqn:E; [|by rewrite E]. cbn. case_bool_decide as E1.
    + rewrite lookup_insert_eq, bool_decide_true by done. done.
    + rewrite E, bool_decide_false by naive_solver. done.
  - destruct (rows !! id) as [j|]; [case_bool_decide; [rewrite lookup_insert_ne by done|]|];
      (destruct (rows !! k); [cbn; by rewrite bool_decide_false by naive_solver|done]).
Qed.

(** *** Tasks are typed, goroutines keep to themselves *)

Definition typed_task (t : Task) : Prop := exists (id : U) d, well_typed d /\ t = task_of id d.

Lemma mux_kind k : mux_find mux (type_string k) = Some (route_of k).
Proof.
  apply mux_law; rewrite mux_routes.
  - rewrite map_map. exact type_strings_differ.
  - apply list_elem_of_In, in_map_iff. exists k. split; [done|]. apply list_elem_of_In, all_kinds_complete.
Qed.

Lemma typed_handler t (h : handler) : typed_task t -> mux_find mux (TType t) = Some (Handle h) -> exists k, route_of k = Handle h /\ TType t = type_string k.
Proof. intros (id & d & _ & ->) E. cbn [TType task_of] in *. exists (IKind d). split; [|done]. rewrite mux_kind in E. by injection E. Qed.

Definition settled (st : JobState) : bool := match st with succeeded | failed | cancelled => true | _ => false end.

(** A row that says how the job ended is right. *)
Definition truth (ran : list (U * option JobErr)) (id : U) (j : Job) : Prop :=
  match JState j with
  | succeeded => (id, None) ∈ ran
  | failed => exists e, (id, Some e) ∈ ran /\ JError j = Some (Error e)
  | _ => True
  end.

Record inv (c : config) : Prop := {
  i_typed tid t ph : tasks (queue (sys c)) !! tid = Some (t, ph) -> typed_task t;
  i_outside tid id go : threads c !! tid = Some (TRunning id go) -> outside go;
  i_ran tid id err : threads c !! tid = Some (TRan id err) -> (id, err) ∈ ran c;
  i_active tid th : threads c !! tid = Some th -> exists t, tasks (queue (sys c)) !! tid = Some (t, Active);
  i_true id j : rows (sys c) !! id = Some j -> truth (ran c) id j;
  i_open id j : open_tx c !! id = Some j -> rows (sys c) !! id = None /\ JState j = queued }.

Lemma truth_more r r' id j : truth r id j -> truth (r ++ r') id j.
Proof. unfold truth. destruct (JState j); try done; [set_solver|]. intros (e & ? & ?). exists e. set_solver. Qed.

(** What a change of the table may do to a row. *)
Definition row_step (ran : list (U * option JobErr)) (r r' : gmap U Job) : Prop :=
  forall k, exists g, r' !! k = g <$> r !! k /\ forall j, r !! k = Some j -> truth ran k j -> truth ran k (g j) /\ (settled (JState j) = true -> g j = j).

Lemma row_step_update ran from f (id : U) r :
  (forall st, st ∈ from -> settled st = false) -> (forall j, truth ran id (f j)) -> row_step ran r (update_job from f id r).
Proof.
  intros Hfrom Hf k. eexists. split; [apply update_lookup|]. intros j Hj Ht. cbv beta. case_bool_decide as E; [|done].
  destruct E as [-> Hst]. split; [apply Hf|]. intros Hse. by rewrite Hfrom in Hse.
Qed.

Lemma row_step_refl ran r : row_step ran r r.
Proof. intros k. exists id. split; [by destruct (r !! k)|done]. Qed.

Lemma row_step_sql ran f (s s' : Sys) b : row_step ran (rows s) (f (rows s)) -> exec_sql f s = (s', Some b) ->
  row_step ran (rows s) (rows s') /\ queue s' = queue s.
Proof. intros Hf. destruct (exec_sql_run f s) as (x & b' & ->). intros [= <- <-]. destruct b'; [done|]. split; [apply row_step_refl|done]. Qed.

Lemma row_step_none ran r r' k : row_step ran r r' -> r' !! k = None <-> r !! k = None.
Proof. intros Hr. destruct (Hr k) as (g & -> & _). by destruct (r !! k). Qed.

Lemma mark_rows ran id (s s' : Sys) ok : markRunning id s = (s', Some ok) -> row_step ran (rows s) (rows s') /\ queue s' = queue s.
Proof. apply row_step_sql, row_step_update; [|done]. intros st Hst. rewrite !elem_of_cons, elem_of_nil in Hst. by destruct Hst as [->|[->|[]]]. Qed.

Lemma cancel_rows ran raw (s s' : Sys) r : h_Cancel raw s = (s', Some r) -> row_step ran (rows s) (rows s') /\ queue s' = queue s.
Proof.
  unfold h_Cancel. destruct (uuid_Parse raw) as [id|]; [|intros [= <- _]; split; [apply row_step_refl|done]].
  unfold bind. destruct (exec_sql (CancelJob id) s) as [s1 [b|]] eqn:E; [|done]. intros [= <- _]. revert E. apply row_step_sql, row_step_update; [|done].
  intros st Hst. rewrite !elem_of_cons, elem_of_nil in Hst. by destruct Hst as [->|[->|[]]].
Qed.

Lemma finish_rows ran id err (s s' : Sys) : (id, err) ∈ ran -> finish id err s = (s', Some tt) -> row_step ran (rows s) (rows s') /\ queue s' = queue s.
Proof.
  intros Hin. unfold finish. cbv zeta. unfold bind at 1. destruct (exec_sql _ s) as [s1 [b|]] eqn:E; [|done].
  unfold on_ext. intros [= <-]. cbn [rows queue]. revert E. apply row_step_sql, row_step_update.
  - intros st Hst. by apply list_elem_of_singleton in Hst as ->.
  - intros j. unfold truth. cbn [JState JError]. destruct err as [e|]; [|done]. by exists e.
Qed.

Lemma restart_rows ran (s s' : Sys) ok : MarkInterruptedAtStartup s = (s', Some ok) -> row_step ran (rows s) (rows s') /\ queue s' = queue s.
Proof.
  apply row_step_sql. intros k. exists interrupt. unfold MarkRunningInterrupted. split; [apply lookup_fmap|]. intros j _ Ht.
  unfold interrupt. case_bool_decide as E; [|done]. split; [done|]. rewrite !elem_of_cons, elem_of_nil in E. by destruct E as [->|[->|[]]].
Qed.

Lemma outside_rows ran {A} (go : M Sys A) (s s' : Sys) r : outside go -> go s = (s', r) -> row_step ran (rows s) (rows s') /\ queue s' = queue s.
Proof. intros Ho E. destruct (Ho s) as (x & a & E'). rewrite E' in E. injection E as <- _. split; [apply row_step_refl|done]. Qed.

Lemma replicate_outside t : outside (HandleReplicationRun t : M Sys _).
Proof. unfold HandleReplicationRun. destruct (decode_run t); [apply outside_if; [apply outside_ret|apply outside_ext]|apply outside_ret]. Qed.

(** The table part of the invariant after a step that only changes rows. *)
Lemma table_kept c c' : inv c -> (exists more, ran c' = ran c ++ more) -> row_step (ran c') (rows (sys c)) (rows (sys c')) ->
  (forall id j, rows (sys c') !! id = Some j -> truth (ran c') id j) /\
  (forall id j, open_tx c !! id = Some j -> rows (sys c') !! id = None /\ JState j = queued).
Proof.
  intros Hi [more Hr] Hrows. split.
  - intros id j Hj. destruct (Hrows id) as (g & Eg & Hg). rewrite Eg in Hj. destruct (rows (sys c) !! id) as [j0|] eqn:E0; [|done].
    injection Hj as <-. apply Hg; [done|]. rewrite Hr. by apply truth_more, i_true.
  - intros id j Hj. destruct (i_open c Hi id j Hj) as [Hn Hq]. split; [|done]. by apply (row_step_none _ _ _ _ Hrows).
Qed.

Lemma same_ran {A} (l : list A) : exists more, l = l ++ more.
Proof. exists []. by rewrite app_nil_r. Qed.

Definition live (q : Q) (tid : gostr) (t : Task) : Prop := tasks q !! tid = Some (t, Pending).

Lemma inv_start c tid t (h : handler) id p s' ok : inv c -> live (queue (sys c)) tid t -> mux_find mux (TType t) = Some (Handle h) ->
  markRunning id (set_queue (start tid) (sys c)) = (s', Some ok) ->
  inv (mkConfig s' (open_tx c) (<[tid := TRunning id (run h p)]> (threads c)) (ran c)).
Proof.
  intros Hi Hl Hm E. destruct (mark_rows (ran c) _ _ _ _ E) as [Hrows Hq]. cbn [set_queue rows queue] in Hrows, Hq.
  set (c' := mkConfig _ _ _ _). destruct (table_kept c c' Hi (same_ran _) Hrows) as [Htrue Hopen].
  assert (Hts : tasks (queue s') = <[tid := (t, Active)]> (tasks (queue (sys c)))) by (rewrite Hq; by apply start_law).
  constructor; cbn [sys threads ran open_tx c'] in *; try done.
  - intros tid' t' ph. rewrite Hts, lookup_insert_Some. intros [[-> [= <- <-]]|[_ Ht]]; by eapply i_typed.
  - intros tid' id' go. rewrite lookup_insert_Some. intros [[<- [= _ <-]]|[_ Ht]]; [|by eapply i_outside].
    destruct (typed_handler t h (i_typed c Hi _ _ _ Hl) Hm) as (k & Hk & _). by eapply handlers_outside.
  - intros tid' id' err. rewrite lookup_insert_Some. intros [[<- E']|[_ Ht]]; [done|by eapply i_ran].
  - intros tid' th. rewrite lookup_insert_Some. intros [[<- _]|[Hne Ht]]; [exists t; by rewrite Hts, lookup_insert_eq|].
    destruct (i_active c Hi tid' th Ht) as [t' Ht']. exists t'. by rewrite Hts, lookup_insert_ne.
Qed.

Lemma inv_run c tid id go s' err : inv c -> threads c !! tid = Some (TRunning id go) -> go (sys c) = (s', Some err) ->
  inv (mkConfig s' (open_tx c) (<[tid := TRan id err]> (threads c)) (ran c ++ [(id, err)])).
Proof.
  intros Hi Hth E. destruct (outside_rows (ran c ++ [(id, err)]) go _ _ _ (i_outside c Hi _ _ _ Hth) E) as [Hrows Hq].
  set (c' := mkConfig _ _ _ _).
  destruct (table_kept c c' Hi ltac:(by exists [(id, err)]) Hrows) as [Htrue Hopen].
  constructor; cbn [sys threads ran open_tx c'] in *; try done.
  - intros tid' t' ph. rewrite Hq. by apply i_typed.
  - intros tid' id' go'. rewrite lookup_insert_Some. intros [[<- E']|[_ Ht]]; [done|by eapply i_outside].
  - intros tid' id' err'. rewrite lookup_insert_Some. intros [[<- [= <- <-]]|[_ Ht]]; [set_solver|]. apply elem_of_app. left. by eapply i_ran.
  - intros tid' th. rewrite Hq, lookup_insert_Some. intros [[<- _]|[_ Ht]]; by eapply i_active.
Qed.

Lemma inv_finish c tid id err s' : inv c -> threads c !! tid = Some (TRan id err) -> finish id err (sys c) = (s', Some tt) ->
  inv (mkConfig (set_queue (processed tid (is_ok err)) s') (open_tx c) (delete tid (threads c)) (ran c)).
Proof.
  intros Hi Hth E. destruct (finish_rows (ran c) _ _ _ _ (i_ran c Hi _ _ _ Hth) E) as [Hrows Hq].
  destruct (i_active c Hi _ _ Hth) as [t Ht]. rewrite <- Hq in Ht. pose proof (processed_law _ _ (is_ok err) _ Ht) as Hts. rewrite Hq in Hts.
  set (c' := mkConfig _ _ _ _). destruct (table_kept c c' Hi (same_ran _) Hrows) as [Htrue Hopen].
  constructor; cbn [sys threads ran open_tx c' set_queue queue rows] in *; rewrite ?Hq in *; try done.
  - intros tid' t' ph. rewrite Hts. destruct (is_ok err); [rewrite lookup_delete_Some; intros [_ ?]; by eapply i_typed|].
    rewrite lookup_insert_Some. intros [[_ [= <- _]]|[_ ?]]; by eapply i_typed.
  - intros tid' id' go'. rewrite lookup_delete_Some. intros [_ ?]. by eapply i_outside.
  - intros tid' id' err'. rewrite lookup_delete_Some. intros [_ ?]. by eapply i_ran.
  - intros tid' th. rewrite lookup_delete_Some. intros [Hne ?]. destruct (i_active c Hi tid' th) as [t' Ht']; [done|]. exists t'.
    rewrite Hts. destruct (is_ok err); [by rewrite lookup_delete_ne|by rewrite lookup_insert_ne].
Qed.

(** Steps that leave the goroutines alone and whose tasks were there. *)
Lemma inv_queue c s' (o : gmap U Job) : inv c -> row_step (ran c) (rows (sys c)) (rows s') ->
  (forall id j, o !! id = Some j -> open_tx c !! id = Some j) ->
  (forall tid t ph, tasks (queue s') !! tid = Some (t, ph) -> typed_task t) ->
  (forall tid t, tasks (queue (sys c)) !! tid = Some (t, Active) -> tasks (queue s') !! tid = Some (t, Active)) ->
  inv (mkConfig s' o (threads c) (ran c)).
Proof.
  intros Hi Hrows Ho Hts Hact. set (c' := mkConfig _ _ _ _). destruct (table_kept c c' Hi (same_ran _) Hrows) as [Htrue Hopen].
  constructor; cbn [sys threads ran open_tx c'] in *; try done; [by apply i_outside|by apply i_ran| |].
  - intros tid th Ht. destruct (i_active c Hi tid th Ht) as [t Ht']. eauto.
  - intros id j Hj. by apply Hopen, Ho.
Qed.

Lemma inv_enqueue c id auto d s' : inv c -> well_typed d -> open_tx c !! id = None ->
  dispatch_enqueue id auto d (sys c) = (s', Some (Ok tt)) ->
  inv (mkConfig s' (<[id := new_row d]> (open_tx c)) (threads c) (ran c)).
Proof.
  intros Hi Hw Ho E. apply enqueue_run in E as (Hr & Hn & tid & _ & Hfree & Hts).
  assert (Hinv : inv (mkConfig s' (open_tx c) (threads c) (ran c))).
  { apply inv_queue; [done|rewrite Hr; apply row_step_refl|done| |].
    - intros tid' t ph. rewrite Hts, lookup_insert_Some. intros [[_ [= <- _]]|[_ ?]]; [by exists id, d|by eapply i_typed].
    - intros tid' t Ht. rewrite Hts, lookup_insert_ne; [done|]. intros ->. congruence. }
  constructor; cbn [sys threads ran open_tx]; [apply Hinv..|]. intros id' j. rewrite lookup_insert_Some.
  intros [[<- <-]|[_ Hj]]; [by rewrite Hr|by apply (i_open _ Hinv)].
Qed.

Lemma inv_commit c id row s' r : inv c -> open_tx c !! id = Some row -> dispatch_commit id row (sys c) = (s', Some r) ->
  inv (mkConfig s' (delete id (open_tx c)) (threads c) (ran c)).
Proof.
  intros Hi Ho. unfold dispatch_commit, bind. destruct (exec_sql_run (insert id row) (sys c)) as (x & b & ->). intros [= <- _].
  destruct (i_open c Hi id row Ho) as [Hn Hq]. constructor; cbn [sys threads ran open_tx rows queue]; [apply Hi..| |].
  - intros id' j. destruct b; [|by apply i_true]. rewrite lookup_insert_Some. intros [[<- <-]|[_ ?]]; [|by apply i_true]. unfold truth. by rewrite Hq.
  - intros id' j. rewrite lookup_delete_Some. intros [Hne Hj]. destruct (i_open c Hi id' j Hj). split; [|done].
    destruct b; [by rewrite lookup_insert_ne|done].
Qed.

Lemma start_processed tid t ok q : live q tid t ->
  tasks (processed tid ok (start tid q)) = if ok : bool then delete tid (tasks q) else <[tid := (t, Archived)]> (tasks q).
Proof.
  intros Hl. pose proof (start_law _ _ _ Hl) as Hs. rewrite (processed_law _ t) by (by rewrite Hs, lookup_insert_eq).
  rewrite Hs. destruct ok; [by rewrite delete_insert_eq|by rewrite insert_insert_eq].
Qed.

Lemma inv_ended c tid t ok s' : inv c -> live (queue (sys c)) tid t -> row_step (ran c) (rows (sys c)) (rows s') ->
  queue s' = start tid (queue (sys c)) -> inv (mkConfig (set_queue (processed tid ok) s') (open_tx c) (threads c) (ran c)).
Proof.
  intros Hi Hl Hrows Hq. apply inv_queue; cbn [set_queue rows queue]; [done|done|done| |]; rewrite Hq, (start_processed _ _ _ _ Hl).
  - intros tid' t' ph. destruct ok; [rewrite lookup_delete_Some; intros [_ ?]; by eapply i_typed|].
    rewrite lookup_insert_Some. intros [[_ [= <- _]]|[_ ?]]; by eapply i_typed.
  - intros tid' t' Ht. assert (tid <> tid') by (intros ->; unfold live in Hl; congruence).
    destruct ok; [by rewrite lookup_delete_ne|by rewrite lookup_insert_ne].
Qed.

Lemma inv_restart c s' ok : inv c -> MarkInterruptedAtStartup (set_queue recover (sys c)) = (s', Some ok) -> inv (mkConfig s' ∅ ∅ (ran c)).
Proof.
  intros Hi E. destruct (restart_rows (ran c) _ _ _ E) as [Hrows Hq]. cbn [set_queue rows queue] in Hrows, Hq.
  set (c' := mkConfig _ _ _ _). destruct (table_kept c c' Hi (same_ran _) Hrows) as [Htrue _].
  constructor; cbn [sys threads ran open_tx c'] in *; try done.
  intros tid t ph. rewrite Hq. pose proof (recover_law (queue (sys c)) tid) as Hrec.
  destruct (tasks (queue (sys c)) !! tid) as [[t0 [| |]]|] eqn:E0; [| |..].
  - rewrite Hrec. intros [= <- <-]. by eapply i_typed.
  - destruct Hrec as (ph' & -> & _). intros [= <- <-]. by eapply i_typed.
  - rewrite Hrec. intros [= <- <-]. by eapply i_typed.
  - by rewrite Hrec.
Qed.

Lemma inv_step l c c' : inv c -> step l c c' -> inv c'.
Proof.
  intros Hi Hs. destruct Hs.
  - by eapply inv_enqueue.
  - apply enqueue_run in H0 as (Hr & Hts & _). apply inv_queue; [done|rewrite Hr; apply row_step_refl|done|rewrite Hts; apply Hi|by rewrite Hts].
  - by eapply inv_commit.
  - by eapply inv_start.
  - by eapply inv_run.
  - by eapply inv_finish.
  - apply (inv_ended c tid t false (set_queue (start tid) (sys c))); [done|done|apply row_step_refl|done].
  - destruct (outside_rows (ran c) _ _ _ _ (replicate_outside _) H2) as [Hrows Hq]. by eapply inv_ended.
  - destruct (cancel_rows (ran c) _ _ _ _ H1) as [Hrows Hq]. apply inv_queue; [done|done|done|rewrite Hq; apply Hi|by rewrite Hq].
  - by eapply inv_restart.
  - apply inv_queue; [done|apply row_step_refl|done|apply Hi|done].
Qed.

Lemma inv_reachable c : reachable c -> inv c.
Proof.
  induction 1 as [s Hr Ht|l c c' Hc IH Hs]; [|by eapply inv_step].
  constructor; cbn [sys threads ran open_tx]; try done; [by rewrite Ht|by rewrite Hr].
Qed.

(** C5. Well-typed dispatches make a well-typed queue: in every reachable
    state, whatever was dispatched, worked off, cancelled or restarted,
    each task in the queue is of a kind that has exactly the registered
    handler, that handler decodes the struct of the kind, and it gets the
    id and the payload that were dispatched (empty slices and maps that
    omitempty leaves out as nil). *)
Theorem queued_tasks_are_typed c tid t ph : reachable c -> tasks (queue (sys c)) !! tid = Some (t, ph) ->
  exists (k : Kind) (id : U), TType t = type_string k /\ mux_find mux (TType t) = Some (route_of k) /\
  match route_of (U := U) (Q := Q) (X := X) k with
  | Handle h => payload h = payload_ty k /\ exists p : den (payload h), fits (payload h) p /\
      TBody t = encodeTaskBody id (marshal (payload h) p) /\ decode (payload h) (TBody t) = Some (id, sent (payload h) p)
  | HandleRun => exists job, TBody t = encodeTaskBody id (marshal ReplicationRunPayload (job, tt)) /\ decode_run (TBody t) = Some job
  end.
Proof.
  intros Hr Ht. destruct (i_typed c (inv_reachable c Hr) tid t ph Ht) as (id & d & [Hty Hfit] & ->). destruct d as [k tg pt p cmd rq uk].
  cbn in Hty, Hfit. clear Ht. subst pt. exists k, id. split; [done|]. split; [apply mux_kind|]. cbn [TBody task_of IType IPayload].
  destruct (route_of k) as [h|] eqn:Er.
  - pose proof (route_typed k h Er) as Hp. split; [done|]. revert p Hfit. rewrite <- Hp. intros p Hfit. exists p.
    split; [done|]. split; [done|]. apply decode_task; [rewrite Hp; apply payload_ok|done].
  - assert (k = KindReplicationRun) as -> by (by destruct k). destruct p as [job []]. exists job. split; [done|]. apply (decode_run_task id job).
Qed.

Lemma step_settled l c c' id j : inv c -> step l c c' -> rows (sys c) !! id = Some j -> settled (JState j) = true -> rows (sys c') !! id = Some j.
Proof.
  intros Hi Hs Hj Hst. assert (Hkeep : forall ran', (exists more, ran' = ran c ++ more) -> row_step ran' (rows (sys c)) (rows (sys c')) -> rows (sys c') !! id = Some j).
  { intros ran' [more ->] Hrows. destruct (Hrows id) as (g & -> & Hg). rewrite Hj. cbn. f_equal. apply Hg; [done| |done]. by apply truth_more, i_true. }
  destruct Hs; cbn [sys rows set_queue] in *.
  - apply enqueue_run in H2 as (-> & _). done.
  - apply enqueue_run in H0 as (-> & _). done.
  - unfold dispatch_commit, bind in H1. destruct (exec_sql_run (insert id0 row) (sys c)) as (x & b & E). rewrite E in H1. injection H1 as <- _.
    cbn [rows]. destruct b; [|done]. destruct (i_open c Hi id0 row H0) as [Hn _]. rewrite lookup_insert_ne; [done|]. congruence.
  - apply (Hkeep (ran c) (same_ran _)). by apply (mark_rows _ _ _ _ _ H3).
  - apply (Hkeep (ran c) (same_ran _)). by apply (outside_rows _ go _ _ _ (i_outside c Hi _ _ _ H0) H1).
  - apply (Hkeep (ran c) (same_ran _)). by apply (finish_rows _ _ _ _ _ (i_ran c Hi _ _ _ H0) H1).
  - done.
  - apply (Hkeep (ran c) (same_ran _)). by apply (outside_rows _ _ _ _ _ (replicate_outside _) H2).
  - apply (Hkeep (ran c) (same_ran _)). by apply (cancel_rows _ _ _ _ _ H1).
  - apply (Hkeep (ran c) (same_ran _)). by apply (restart_rows _ _ _ _ H0).
  - done.
Qed.

(** C4. Under every interleaving of dispatches, workers, cancellations
    and restarts, with a database and a queue that may fail, a job row
    that says succeeded belongs to a job whose operation was carried out
    without an error, one that says failed to a job whose operation
    returned the recorded error, and a row that is succeeded, failed or
    cancelled never changes again. *)
Theorem job_rows_tell_the_truth c : reachable c ->
  (forall id j, rows (sys c) !! id = Some j -> truth (ran c) id j) /\
  (forall l c' id j, step l c c' -> rows (sys c) !! id = Some j -> settled (JState j) = true -> rows (sys c') !! id = Some j).
Proof. intros Hr%inv_reachable. split; [apply Hr|]. intros l c' id j. by apply step_settled. Qed.

(** Cancelling a job that is still queued does not stop it: the worker
    takes the task and carries the operation out, and the row says
    cancelled. *)
Lemma cancelled_job_still_runs c tid t (h : handler) id p : reachable c -> live (queue (sys c)) tid t ->
  mux_find mux (TType t) = Some (Handle h) -> decode (payload h) (TBody t) = Some (id, p) ->
  (exists j, rows (sys c) !! id = Some j /\ JState j = cancelled) ->
  exists c1 c2 err, step (LStart id) c c1 /\ step LRun c1 c2 /\ ran c2 = ran c ++ [(id, err)] /\
    exists j, rows (sys c2) !! id = Some j /\ JState j = cancelled.
Proof.
  intros Hr Hl Hm Hd (j & Hj & Hst). pose proof (inv_reachable c Hr) as Hi.
  destruct (exec_sql_run (MarkJobRunning id) (set_queue (start tid) (sys c))) as (x & b & E). fold (markRunning (U := U) (Q := Q) (X := X) id) in E.
  pose proof (s_start c tid t h id p _ _ Hl Hm Hd E) as S1. set (c1 := mkConfig _ _ _ _) in S1.
  pose proof (inv_step _ _ _ Hi S1) as Hi1.
  assert (Hth : threads c1 !! tid = Some (TRunning id (run h p))) by apply lookup_insert_eq.
  destruct (i_outside c1 Hi1 _ _ _ Hth (sys c1)) as (x' & err & Ego). pose proof (s_run c1 tid id _ _ _ Hth Ego) as S2.
  eexists c1, _, err. split; [done|]. split; [exact S2|]. split; [done|]. exists j. split; [|done].
  assert (Hse : settled (JState j) = true) by (by rewrite Hst).
  eapply (step_settled _ _ _ _ _ Hi1 S2); [|done]. by eapply (step_settled _ _ _ _ _ Hi S1).
Qed.

(** After a job with a key failed, its task is archived and no job with
    that key is dispatched as long as it is kept. *)
Lemma failed_job_blocks_its_key c tid id e s' (d : DispatchInput) jobID auto s'' r : reachable c -> tid <> [] ->
  threads c !! tid = Some (TRan id (Some e)) -> finish id (Some e) (sys c) = (s', Some tt) ->
  IUniqueKey d = tid -> Dispatch jobID auto d (set_queue (processed tid false) s') = (s'', Some r) -> exists e', r = Err e'.
Proof.
  intros Hr Hne Hth Ef Hk.
  destruct (finish_rows (ran c) _ _ _ _ (i_ran c (inv_reachable c Hr) _ _ _ Hth) Ef) as [_ Hq].
  destruct (i_active c (inv_reachable c Hr) _ _ Hth) as [t Ht]. rewrite <- Hq in Ht.
  unfold Dispatch. intros E. unfold bind at 1 in E. destruct (dispatch_enqueue _ _ _ _) as [s1 [r1|]] eqn:Ed; [|done].
  apply enqueue_run in Ed as [_ Ed]. destruct r1 as [u|e']; [|injection E as _ <-; by eexists].
  destruct Ed as (_ & tid' & -> & Hfree & _). rewrite Hk, (proj2 (str_eqb_neq tid [])) in Hfree by done.
  cbn [set_queue queue] in Hfree. rewrite (processed_law _ t), lookup_insert_eq in Hfree by done. done.
Qed.
End System.

(** ** A small system *)

Module SmallJobs.

#[local] Instance bool_uuid : UuidLib bool := {
  uuid_String b := if b then #"t" else #"f";
  uuid_Parse s := if str_eqb s #"t" then Some true else if str_eqb s #"f" then Some false else None;
  uuid_Nil := false }.
#[local] Instance bool_uuid_laws : UuidLaws bool.
Proof. constructor; intros []; [done|done|by repeat constructor|by repeat constructor]. Qed.

Abbreviation Q0 := (gmap gostr (Task * phase)).
#[local] Instance map_queue : Asynq Q0 := {
  tasks q := q;
  enqueue id t q := match q !! id with Some _ => (q, TaskIDConflict) | None => (<[id := (t, Pending)]> q, Enqueued) end;
  start id q := match q !! id with Some (t, Pending) => <[id := (t, Active)]> q | _ => q end;
  processed id ok q := match q !! id with
    | Some (t, Active) => if ok then delete id q else <[id := (t, Archived)]> q | _ => q end;
  recover q := (fun e => (e.1, match e.2 with Active => Pending | ph => ph end)) <$> q;
  mux_find R l s := snd <$> List.find (fun e => str_eqb e.1 s) l }.

Lemma find_first {R} (l : list (gostr * R)) s r : NoDup (map fst l) -> (s, r) ∈ l -> snd <$> List.find (fun e => str_eqb e.1 s) l = Some r.
Proof.
  induction l as [|[s0 r0] l IH]; cbn; [by intros _ ?%elem_of_nil|]. intros [Hn Hd]%NoDup_cons Hin.
  destruct (str_eqb s0 s) eqn:E.
  - apply str_eqb_eq in E as ->. apply elem_of_cons in Hin as [[= <-]|Hin]; [done|].
    exfalso. apply Hn, list_elem_of_fmap. by exists (s, r).
  - apply str_eqb_neq in E. apply elem_of_cons in Hin as [[= <- <-]|Hin]; [done|by apply IH].
Qed.

#[local] Instance map_queue_laws : AsynqLaws Q0.
Proof.
  constructor; cbn.
  - intros id t q q' r. destruct (q !! id); intros [= <- <-]; [done|by left].
  - intros id t q ->. done.
  - intros id t ok q ->. by destruct ok.
  - intros q id. rewrite lookup_fmap. destruct (q !! id) as [[t []]|]; cbn; eauto.
  - intros R l s r. apply find_first.
Qed.

(** The database answers, and every operation succeeds. *)
#[local] Instance quiet_world : World bool unit := {
  db_up x := (x, true); host_run _ x := (x, None); publish _ _ x := x;
  GetSnapshotSchedule _ x := (x, Err decode_error); GetReplicationSchedule _ x := (x, None);
  Zone := UTC; Now x := (x, 0) }.

Abbreviation config0 := (config (U := bool) (Q := Q0) (X := unit)).
Definition empty0 : Sys (U := bool) (Q := Q0) (X := unit) := mkSys ∅ (∅ : Q0) tt.
Definition scrub : DispatchInput (U := bool) :=
  mkInput KindPoolScrub #"tank" PoolScrubPayload ( #"tank", ( #"start", tt)) #"zpool scrub tank" #"r1" #"pool:tank:scrub".

Lemma scrub_typed : well_typed scrub.
Proof. split; [reflexivity|]. repeat split; vm_compute; reflexivity. Qed.

Definition queued0 : config0 := mkConfig (dispatch_enqueue true #"a" scrub empty0).1 (<[true := new_row scrub]> ∅) ∅ [].
Lemma queued0_reachable : reachable queued0.
Proof.
  eapply r_step; [apply (r_init empty0); reflexivity|]. refine (s_enqueue (mkConfig empty0 ∅ ∅ []) true #"a" scrub _ scrub_typed _ _); reflexivity.
Qed.

Definition scrub_task : Task := task_of true scrub.

Lemma queued_tasks_are_typed_witness :
  exists (k : Kind) (id : bool), TType scrub_task = type_string k /\ mux_find worker_mux (TType scrub_task) = Some (route_of (Q := Q0) (X := unit) k) /\
  match route_of (U := bool) (Q := Q0) (X := unit) k with
  | Handle h => payload h = payload_ty k /\ exists p : den (payload h), fits (payload h) p /\
      TBody scrub_task = encodeTaskBody id (marshal (payload h) p) /\ decode (payload h) (TBody scrub_task) = Some (id, sent (payload h) p)
  | HandleRun => exists job, TBody scrub_task = encodeTaskBody id (marshal ReplicationRunPayload (job, tt)) /\ decode_run (TBody scrub_task) = Some job
  end.
Proof. apply (queued_tasks_are_typed queued0 #"pool:tank:scrub" scrub_task Pending); [apply queued0_reachable|vm_compute; reflexivity]. Defined.

(** The worker takes the task, runs it and ends before the transaction is
    committed. *)
Definition handle_scrub := handlePoolScrub (U := bool) (Q := Q0) (X := unit).
Definition started0 : config0 := mkConfig (markRunning true (set_queue (start #"pool:tank:scrub") (sys queued0))).1 (open_tx queued0)
  (<[ #"pool:tank:scrub" := TRunning true (run handle_scrub ( #"tank", ( #"start", tt)))]> ∅) [].
Definition ran0 : config0 := mkConfig (sys started0) (open_tx started0) (<[ #"pool:tank:scrub" := TRan true None]> (threads started0)) [(true, None)].
Definition ended0 : config0 := mkConfig (set_queue (processed #"pool:tank:scrub" true) (finish true None (sys ran0)).1) (open_tx ran0) (delete #"pool:tank:scrub" (threads ran0)) (ran ran0).
Definition committed0 : config0 := mkConfig (dispatch_commit true (new_row scrub) (sys ended0)).1 (delete true (open_tx ended0)) (threads ended0) (ran ended0).

Lemma started0_reachable : reachable started0.
Proof.
  eapply r_step; [apply queued0_reachable|].
  refine (s_start queued0 #"pool:tank:scrub" scrub_task handle_scrub true ( #"tank", ( #"start", tt)) _ true _ _ _ _); reflexivity.
Qed.

Lemma ran0_reachable : reachable ran0.
Proof. eapply r_step; [apply started0_reachable|]. refine (s_run started0 #"pool:tank:scrub" true _ _ None _ _); reflexivity. Qed.

Lemma ended0_reachable : reachable ended0.
Proof. eapply r_step; [apply ran0_reachable|]. refine (s_finish ran0 #"pool:tank:scrub" true None _ _ _); reflexivity. Qed.

Lemma committed0_reachable : reachable committed0.
Proof. eapply r_step; [apply ended0_reachable|]. refine (s_commit ended0 true (new_row scrub) _ (Ok true) _ _); reflexivity. Qed.

(** The job was carried out, nothing is left to do, and its row says
    queued for good. *)
Lemma worker_outruns_commit : reachable committed0 /\ tasks (queue (sys committed0)) = ∅ /\ threads committed0 = ∅ /\
  (true, None) ∈ ran committed0 /\ JState <$> rows (sys committed0) !! true = Some queued.
Proof. split; [apply committed0_reachable|]. split; [vm_compute; reflexivity|]. split; [vm_compute; reflexivity|]. split; [by left|vm_compute; reflexivity]. Qed.

Lemma job_rows_tell_the_truth_witness :
  (forall id j, rows (sys committed0) !! id = Some j -> truth (ran committed0) id j) /\
  (forall l c' id j, step l committed0 c' -> rows (sys committed0) !! id = Some j -> settled (JState j) = true -> rows (sys c') !! id = Some j).
Proof. apply (job_rows_tell_the_truth committed0). apply committed0_reachable. Defined.

(** The replication handler writes no row: the run is over and its row
    still says queued. *)
Definition run_input : DispatchInput (U := bool) :=
  mkInput KindReplicationRun #"t" ReplicationRunPayload (true, tt) #"replication.run t" #"r2" #"replication:job:t".
Lemma replication_row_stays_queued :
  let s := (Dispatch true #"a" run_input empty0).1 in
  let s' := (serve (task_of true run_input) s).1 in
  (serve (task_of true run_input) s).2 = Some None /\ JState <$> rows s' !! true = Some queued.
Proof. vm_compute. done. Qed.
End SmallJobs.
