(* ===== verification/ScrubPolicy.v ===== *)
(** * internal/scrubpolicy: scheduled scrubs

    The executor of scrub policies over the database, the pool manager and
    the job dispatcher, and the policy that is installed by default. *)

From S2P Require Import Prelude GoStrings GoTime Effects Cron.

Module Scrub.

Record Policy := mkPolicy {
  PID : gostr; PName : gostr; PPools : gostr; PCron : gostr; PPriority : gostr; PEnabled : bool; PBuiltin : bool;
  PLastFiredAt : option Instant }.

Record NewPolicy := mkNewPolicy { NName : gostr; NPools : gostr; NCron : gostr; NPriority : gostr; NEnabled : bool; NBuiltin : bool }.

(** The dispatch of a scrub job: kind and payload are those of a start. *)
Record ScrubDispatch := mkDispatch { DPool : gostr; DCommand : gostr; DRequestID : gostr; DUniqueKey : gostr }.

Inductive scrub_err := DbErr | NoRows | BadCron | PoolsErr | Duplicate | DispatchErr.

(** QueriesAPI, PoolsAPI, DispatcherAPI and the clock. *)
Class ScrubEnv (W : Type) := {
  ListEnabledScrubPolicies : W -> W * option (list Policy);
  GetScrubPolicyByName : gostr -> W -> W * res scrub_err Policy;
  CreateScrubPolicy : NewPolicy -> W -> W * option Policy;
  MarkScrubPolicyFired : gostr -> Instant -> option scrub_err -> W -> W * bool;
  PoolNames : W -> W * option (list gostr);
  IsScrubInProgress : gostr -> W -> W * option bool;
  DispatchJob : ScrubDispatch -> W -> W * option scrub_err;
  NowIs : W -> W * Instant }.

Definition DefaultPolicyName : gostr := #"monthly-all-pools".
Definition DefaultCron : gostr := #"0 2 * * 0".
Definition DefaultPriority : gostr := #"medium".
Definition DefaultMinFireGap : Z := 7 * 24 * Hour.

Record Manager := mkManager { Loc : Location; MinFireGap : Z }.

(** Time.Sub, which saturates. *)
Definition time_sub (a b : Instant) : Z := Z.max MinInt64 (Z.min MaxInt64 (a - b)).

Section Operations.
Context {W : Type} `{ScrubEnv W} (m : Manager).

Definition EnsureDefaultPolicy : M W (res scrub_err Policy) :=
  let! r := call (GetScrubPolicyByName DefaultPolicyName) in
  match r with
  | Ok p => ret (Ok p)
  | Err NoRows =>
      let! c := call (CreateScrubPolicy (mkNewPolicy DefaultPolicyName #"*" DefaultCron DefaultPriority true true)) in
      ret (match c with Some p => Ok p | None => Err DbErr end)
  | Err e => ret (Err DbErr)
  end.

(** "*" is every pool at the time of firing; else a list, blanks dropped. *)
Definition listed_pools (spec : gostr) : list gostr :=
  List.filter (fun t => negb (str_eqb t [])) (map trim_space (split_on ","%char spec)).

Definition expandPools (spec : gostr) : M W (option (list gostr)) :=
  let spec := trim_space spec in
  if str_eqb spec #"*" || str_eqb spec [] then call PoolNames else ret (Some (listed_pools spec)).

Definition scrub_of (p : Policy) (name : gostr) : ScrubDispatch :=
  mkDispatch name ( #"zpool scrub " ++ name) ( #"scrubpolicy:" ++ PName p) ( #"pool:" ++ name ++ #":scrub").

(** One pool; what is known of the others is whether one was dispatched
    and the first error. *)
Definition fire_pool (p : Policy) (acc : bool * option scrub_err) (name : gostr) : M W (bool * option scrub_err) :=
  let! busy := call (IsScrubInProgress name) in
  match busy with
  | None | Some true => ret acc
  | Some false =>
      let! e := call (DispatchJob (scrub_of p name)) in
      ret (match e with
           | None => (true, acc.2)
           | Some Duplicate => acc
           | Some e => (acc.1, match acc.2 with None => Some e | Some e0 => Some e0 end)
           end)
  end.

Fixpoint fire_pools (p : Policy) (acc : bool * option scrub_err) (names : list gostr) : M W (bool * option scrub_err) :=
  match names with
  | [] => ret acc
  | n :: names' => let! acc' := fire_pool p acc n in fire_pools p acc' names'
  end.

Definition prev_of (p : Policy) : Instant := default zero_time (PLastFiredAt p).

Definition firePolicy (p : Policy) (now : Instant) : M W (option scrub_err) :=
  match Cron.ParseCron (PCron p) with
  | Err _ => ret (Some BadCron)
  | Ok expr =>
      let prev := prev_of p in
      let! due := lift (Cron.ShouldFireBetween expr prev now (Some (Loc m))) in
      if negb due then ret None
      else if negb (is_zero prev) && (time_sub now prev <? MinFireGap m) then ret None
      else
        let! pools := expandPools (PPools p) in
        match pools with
        | None => ret (Some PoolsErr)
        | Some [] => let! _ := call (MarkScrubPolicyFired (PID p) now None) in ret None
        | Some names =>
            let! r := fire_pools p (false, None) names in
            let '(firedAny, firstErr) := r in
            if firedAny || match firstErr with None => true | Some _ => false end
            then let! _ := call (MarkScrubPolicyFired (PID p) now firstErr) in ret firstErr
            else ret firstErr
        end
  end.

Definition Tick : M W unit :=
  let! now := call NowIs in
  let! pols := call ListEnabledScrubPolicies in
  match pols with
  | None => ret tt
  | Some ps => each (fun p => let! _ := firePolicy p now in ret tt) ps
  end.
End Operations.

Definition ValidateCron (expr : gostr) : bool := match Cron.ParseCron expr with Ok _ => true | Err _ => false end.
Definition ValidatePriority (v : gostr) : bool := existsb (str_eqb v) [ []; #"low"; #"medium"; #"high"].
End Scrub.

(** ** What a tick dispatches, whatever the answers *)

Section Trace.
Import Scrub.

Inductive event :=
| EvList (r : option (list Policy)) | EvGet (n : gostr) | EvCreate (p : NewPolicy) | EvMark (id : gostr) (now : Instant) (e : option scrub_err)
| EvPools (r : option (list gostr)) | EvBusy (n : gostr) (r : option bool) | EvDispatch (d : ScrubDispatch) (r : option scrub_err) | EvNow (t : Instant).

(** Answers that may depend on everything that happened. *)
Context (a_list : list event -> option (list Policy)) (a_get : list event -> res scrub_err Policy) (a_create : list event -> option Policy)
  (a_mark : list event -> bool) (a_pools : list event -> option (list gostr)) (a_busy : list event -> gostr -> option bool)
  (a_dispatch : list event -> ScrubDispatch -> option scrub_err) (a_now : list event -> Instant).

#[local] Instance oracle_env : ScrubEnv (list event) := {
  ListEnabledScrubPolicies t := (t ++ [EvList (a_list t)], a_list t);
  GetScrubPolicyByName n t := (t ++ [EvGet n], a_get t);
  CreateScrubPolicy p t := (t ++ [EvCreate p], a_create t);
  MarkScrubPolicyFired id now e t := (t ++ [EvMark id now e], a_mark t);
  PoolNames t := (t ++ [EvPools (a_pools t)], a_pools t);
  IsScrubInProgress n t := (t ++ [EvBusy n (a_busy t n)], a_busy t n);
  DispatchJob d t := (t ++ [EvDispatch d (a_dispatch t d)], a_dispatch t d);
  NowIs t := (t ++ [EvNow (a_now t)], a_now t) }.

Context (m : Manager).

(** The policy's time has come since it last fired, and the gap is over. *)
Definition due (p : Policy) (now : Instant) : Prop :=
  exists expr, Cron.ParseCron (PCron p) = Ok expr /\ Cron.ShouldFireBetween expr (prev_of p) now (Some (Loc m)) = Some true /\
    (is_zero (prev_of p) = true \/ MinFireGap m <= time_sub now (prev_of p)).

(** The pools of a policy: the listed ones, or those the pool manager named. *)
Definition targets (p : Policy) (new : list event) (n : gostr) : Prop :=
  if str_eqb (trim_space (PPools p)) #"*" || str_eqb (trim_space (PPools p)) []
  then exists names, EvPools (Some names) ∈ new /\ n ∈ names
  else n ∈ listed_pools (trim_space (PPools p)).

Definition rightful (p : Policy) (now : Instant) (new : list event) (d : ScrubDispatch) : Prop :=
  due p now /\ d = scrub_of p (DPool d) /\ targets p new (DPool d) /\ EvBusy (DPool d) (Some false) ∈ new.

Lemma fire_pools_trace p names acc t : exists new acc', fire_pools p acc names t = (t ++ new, Some acc') /\
  (forall d r, EvDispatch d r ∈ new -> d = scrub_of p (DPool d) /\ DPool d ∈ names /\ EvBusy (DPool d) (Some false) ∈ new) /\
  (acc'.1 = true \/ forall d, EvDispatch d None ∉ new) /\ (acc.1 = true -> acc'.1 = true) /\
  (forall e, e ∈ new -> match e with EvBusy _ _ | EvDispatch _ _ => True | _ => False end).
Proof.
  revert acc t. induction names as [|n names IH]; intros acc t.
  { exists [], acc. rewrite app_nil_r. split_and!; [done|set_solver|right; set_solver|done|set_solver]. }
  cbn [fire_pools]. unfold bind at 1, fire_pool, bind, call, ret. cbn [IsScrubInProgress oracle_env].
  destruct (a_busy t n) as [[|]|] eqn:Eb; cbn [DispatchJob oracle_env].
  - destruct (IH acc (t ++ [EvBusy n (Some true)])) as (new & acc' & -> & H1 & H2 & H3 & H4).
    exists (EvBusy n (Some true) :: new), acc'. rewrite <- app_assoc. split_and!; [done|..]; [|destruct H2; [by left|right; set_solver]|done|].
    + intros d r Hd. destruct (H1 d r) as (? & ? & ?); [set_solver|]. split_and!; [done|set_solver|set_solver].
    + intros e [->|He]%elem_of_cons; [done|by apply H4].
  - set (t1 := t ++ [EvBusy n (Some false)]). set (ans := a_dispatch t1 (scrub_of p n)).
    set (acc1 := match ans with None => (true, acc.2) | Some Duplicate => acc
      | Some e => (acc.1, match acc.2 with None => Some e | Some e0 => Some e0 end) end).
    destruct (IH acc1 (t1 ++ [EvDispatch (scrub_of p n) ans])) as (new & acc' & E & H1 & H2 & H3 & H4).
    exists ([EvBusy n (Some false); EvDispatch (scrub_of p n) ans] ++ new), acc'. fold t1. fold ans. fold acc1. rewrite E.
    unfold t1. rewrite <- !app_assoc. split_and!; [done|..].
    + intros d r Hd. rewrite !elem_of_app, !elem_of_cons, elem_of_nil in Hd.
      destruct Hd as [[?|[[= -> ->]|[]]]|Hd]; [done|cbn; split_and!; [done|set_solver|set_solver]|].
      destruct (H1 d r Hd) as (? & ? & ?). split_and!; [done|set_solver|set_solver].
    + destruct ans as [e|] eqn:Ea; [|left; by apply H3].
      destruct H2 as [H2|H2]; [by left|right]. intros d. rewrite !elem_of_app, !elem_of_cons, elem_of_nil.
      intros [[?|[?|[]]]|Hd]; [done|congruence|by eapply H2].
    + intros Ha. apply H3. unfold acc1. destruct ans as [[]|]; done.
    + intros e. rewrite !elem_of_app, !elem_of_cons, elem_of_nil. intros [[->|[->|[]]]|He]; [done|done|by apply H4].
  - destruct (IH acc (t ++ [EvBusy n None])) as (new & acc' & -> & H1 & H2 & H3 & H4).
    exists (EvBusy n None :: new), acc'. rewrite <- app_assoc. split_and!; [done|..]; [|destruct H2; [by left|right; set_solver]|done|].
    + intros d r Hd. destruct (H1 d r) as (? & ? & ?); [set_solver|]. split_and!; [done|set_solver|set_solver].
    + intros e [->|He]%elem_of_cons; [done|by apply H4].
Qed.

(** Every dispatch is rightful, and a policy that dispatched is marked. *)
Definition accounted (p : Policy) (now : Instant) (new : list event) : Prop :=
  forall d r, EvDispatch d r ∈ new -> rightful p now new d /\ (r = None -> exists e, EvMark (PID p) now e ∈ new).

Lemma no_dispatch p now new : (forall d r, EvDispatch d r ∉ new) -> accounted p now new.
Proof. intros Hn d r Hd. by apply Hn in Hd. Qed.

Lemma expand_trace p t : exists pre r, expandPools (PPools p) t = (t ++ pre, Some r) /\ (forall d r, EvDispatch d r ∉ pre) /\
  forall names, r = Some names -> forall n new, n ∈ names -> targets p (pre ++ new) n.
Proof.
  unfold expandPools, targets, call, ret. cbv zeta. destruct (_ || _) eqn:E.
  - cbn [PoolNames oracle_env]. eexists [EvPools (a_pools t)], _. split; [done|]. split; [set_solver|]. intros names -> n new Hn.
    exists names. set_solver.
  - exists [], (Some (listed_pools (trim_space (PPools p)))). rewrite app_nil_r. split; [done|]. split; [set_solver|].
    by intros names [= <-] n new Hn.
Qed.

Lemma fire_trace p now t : exists new, (firePolicy m p now t).1 = t ++ new /\ accounted p now new.
Proof.
  unfold firePolicy. destruct (Cron.ParseCron (PCron p)) as [expr|] eqn:Ep.
  2: { exists []. split; [by rewrite app_nil_r|]. apply no_dispatch. set_solver. }
  unfold bind at 1, lift. destruct (Cron.ShouldFireBetween expr (prev_of p) now (Some (Loc m))) as [[|]|] eqn:Es; cbn [negb].
  2,3: exists []; split; [by rewrite app_nil_r|]; apply no_dispatch; set_solver.
  destruct (negb (is_zero (prev_of p)) && (time_sub now (prev_of p) <? MinFireGap m)) eqn:Eg.
  { exists []. split; [by rewrite app_nil_r|]. apply no_dispatch. set_solver. }
  assert (Hdue : due p now).
  { exists expr. split; [done|]. split; [done|]. apply andb_false_iff in Eg as [?%negb_false_iff|?%Z.ltb_ge]; [by left|by right]. }
  unfold bind at 1. destruct (expand_trace p t) as (pre & r & -> & Hpre & Hnames). destruct r as [[|n names]|].
  - exists (pre ++ [EvMark (PID p) now None]). split; [by rewrite app_assoc|]. apply no_dispatch. set_solver.
  - unfold bind at 1. destruct (fire_pools_trace p (n :: names) (false, None) (t ++ pre)) as (new & [fired e] & -> & H1 & H2 & _ & _).
    destruct (fired || match e with None => true | Some _ => false end) eqn:Em.
    + exists (pre ++ new ++ [EvMark (PID p) now e]). unfold bind, call. cbn. split; [by rewrite <- !app_assoc|].
      intros d r Hd. assert (Hd' : EvDispatch d r ∈ new) by (specialize (Hpre d r); set_solver).
      destruct (H1 d r Hd') as (E1 & E2 & E3). split; [|intros _; exists e; set_solver].
      split; [done|]. split; [done|]. split; [by apply (Hnames (n :: names))|set_solver].
    + exists (pre ++ new). cbn. split; [by rewrite app_assoc|]. apply orb_false_iff in Em as [-> _].
      intros d r Hd. assert (Hd' : EvDispatch d r ∈ new) by (specialize (Hpre d r); set_solver).
      destruct (H1 d r Hd') as (E1 & E2 & E3). split.
      * split; [done|]. split; [done|]. split; [by apply (Hnames (n :: names))|set_solver].
      * intros ->. destruct H2 as [?|H2]; [done|]. by apply H2 in Hd'.
  - exists pre. split; [done|]. by apply no_dispatch.
Qed.

Lemma rightful_mono p now new new' d : (forall e, e ∈ new -> e ∈ new') -> rightful p now new d -> rightful p now new' d.
Proof.
  intros Hsub (H1 & H2 & H3 & H4). split; [done|]. split; [done|]. split; [|auto]. unfold targets in *. destruct (_ || _); [|done].
  destruct H3 as (names & ? & ?). eauto.
Qed.

Lemma each_trace now ps t : exists new, (each (fun p => let! _ := firePolicy m p now in ret tt) ps t).1 = t ++ new /\
  forall d r, EvDispatch d r ∈ new -> exists p, p ∈ ps /\ rightful p now new d /\ (r = None -> exists e, EvMark (PID p) now e ∈ new).
Proof.
  set (body := fun p => let! _ := firePolicy m p now in ret tt).
  revert t. induction ps as [|p ps IH]; intros t; [exists []; split; [by rewrite app_nil_r|set_solver]|].
  destruct (fire_trace p now t) as (new1 & E1 & Ha). cbn [each]. unfold bind at 1. unfold body at 1, bind at 1.
  destruct (firePolicy m p now t) as [t1 [r1|]]; cbn [fst] in E1; subst t1.
  - unfold ret at 1. destruct (IH (t ++ new1)) as (new2 & -> & H2). exists (new1 ++ new2). rewrite app_assoc. split; [done|].
    intros d r [Hd|Hd]%elem_of_app.
    + destruct (Ha d r Hd) as [Hr Hm]. exists p. split; [by left|]. split; [eapply rightful_mono; [|exact Hr]; set_solver|].
      intros Hn. destruct (Hm Hn) as [e He]. exists e. set_solver.
    + destruct (H2 d r Hd) as (q & Hq & Hr & Hm). exists q. split; [by right|]. split; [eapply rightful_mono; [|exact Hr]; set_solver|].
      intros Hn. destruct (Hm Hn) as [e He]. exists e. set_solver.
  - exists new1. split; [done|]. intros d r Hd. exists p. split; [by left|]. by apply Ha.
Qed.

(** C8. For every behaviour of the database, the pools and the queue, a
    tick dispatches a scrub only for an enabled policy that is due and
    whose gap is over, of a pool the policy targets and that is known not
    to be scrubbed, with the pool's key; and each policy for which a scrub
    was dispatched is marked as fired at that time. *)
Theorem scrubs_are_rightful t : exists new, (Tick m t).1 = t ++ new /\
  forall d r, EvDispatch d r ∈ new -> exists now ps p, EvNow now ∈ new /\ EvList (Some ps) ∈ new /\ p ∈ ps /\
    rightful p now new d /\ (r = None -> exists e, EvMark (PID p) now e ∈ new).
Proof.
  unfold Tick, bind, call. cbn [NowIs ListEnabledScrubPolicies oracle_env]. set (now := a_now t). set (t1 := t ++ [EvNow now]).
  destruct (a_list t1) as [ps|] eqn:El.
  - destruct (each_trace now ps (t1 ++ [EvList (Some ps)])) as (new & E & Hn).
    exists ([EvNow now; EvList (Some ps)] ++ new). unfold bind in E. rewrite E. unfold t1. rewrite <- !app_assoc. split; [done|].
    intros d r Hd. assert (Hd' : EvDispatch d r ∈ new) by set_solver. destruct (Hn d r Hd') as (p & Hp & Hr & Hm).
    exists now, ps, p. split; [set_solver|]. split; [set_solver|]. split; [done|]. split; [eapply rightful_mono; [|exact Hr]; set_solver|].
    intros Hno. destruct (Hm Hno) as [e He]. exists e. set_solver.
  - exists [EvNow now; EvList None]. cbn. unfold t1. rewrite <- app_assoc. split; [done|]. set_solver.
Qed.
End Trace.

(** ** The default policy *)

Section Default.
Import Scrub.

(** Installing it again gives the row that is there and writes nothing. *)
Lemma default_installed_once {W : Type} `{ScrubEnv W} w w' p :
  GetScrubPolicyByName DefaultPolicyName w = (w', Ok p) -> EnsureDefaultPolicy w = (w', Some (Ok p)).
Proof. intros E. unfold EnsureDefaultPolicy, bind, call. by rewrite E. Qed.

Definition default_manager : Manager := mkManager UTC DefaultMinFireGap.
Definition default_fired_at (t : Instant) : Policy :=
  mkPolicy #"1" DefaultPolicyName #"*" DefaultCron DefaultPriority true true (Some t).

(** The policy that is named monthly is due again on the next Sunday: it
    fired on 7 January 2024 in the minute after 02:00, and on the 14th a
    minute later its gap is over. *)
Lemma default_policy_fires_weekly :
  due default_manager (default_fired_at (go_date 2024 1 7 2 0 UTC + 30 * Second)) (go_date 2024 1 14 2 1 UTC) .
Proof. eexists. split; [vm_compute; reflexivity|]. split; [vm_compute; reflexivity|]. right. vm_compute. discriminate. Qed.

(** A due policy none of whose pools could be asked for its state counts as
    fired: no scrub is dispatched, and the gap starts again. *)
Lemma failed_checks_count_as_fired :
  let p := default_fired_at (go_date 2024 1 7 2 0 UTC) in let now := go_date 2024 2 4 2 0 UTC in
  let pools := Some [ #"tank"; #"backup"] in
  firePolicy (H := oracle_env (fun _ => None) (fun _ => Err NoRows) (fun _ => None) (fun _ => true) (fun _ => pools)
                              (fun _ _ => None) (fun _ _ => None) (fun _ => now)) default_manager p now [] =
  ([EvPools pools; EvBusy #"tank" None; EvBusy #"backup" None; EvMark #"1" now None], Some None).
Proof. vm_compute. reflexivity. Qed.
End Default.
