(* ===== verification/NotifyCenter.v ===== *)
(** * internal/notifycenter: the notification center

    The tables of notifications and of the state each user has of them with
    the statements on them, the manager, the event bus, the aggregator that
    polls alerts, failed jobs and rejected requests, and the HTTP handlers.
    The package google/uuid, the clock, the success of a statement and the
    answers of Alertmanager are parameters. *)

From stdpp Require Import gmap.
From S2P Require Import Prelude GoStrings GoTime SortLib Effects Retention Samba.

Module Notify.

Definition SourceAlertmanager : gostr := #"alertmanager".
Definition SourceJobs : gostr := #"jobs".
Definition SourceAudit : gostr := #"audit".
Definition SourceSystem : gostr := #"system".
Definition Source_Valid (s : gostr) : bool := existsb (str_eqb s) [SourceAlertmanager; SourceJobs; SourceAudit; SourceSystem].

Definition SeverityInfo : gostr := #"info".
Definition SeverityWarning : gostr := #"warning".
Definition SeverityCritical : gostr := #"critical".
Definition Severity_Valid (v : gostr) : bool := existsb (str_eqb v) [SeverityInfo; SeverityWarning; SeverityCritical].

Record State := mkState {
  Read : bool; Dismissed : bool; Snoozed : bool; ReadAt : option Instant; DismissedAt : option Instant; SnoozedUntil : option Instant }.
Definition no_state : State := mkState false false false None None None.

Record Event := mkEvent {
  ID : gostr; TenantID : gostr; Source : gostr; SourceID : gostr; Severity : gostr; Title : gostr; Body : gostr; Link : gostr;
  CreatedAt : Instant; UserState : State }.

Record RecordInput := mkInput {
  iSource : gostr; iSourceID : gostr; iSeverity : gostr; iTitle : gostr; iBody : gostr; iLink : gostr; iTenantID : gostr }.

(** ** Tables.  An id is the 128-bit number of its bytes. *)

Record Notification := mkRow {
  nID : Z; nTenantID : option gostr; nSource : gostr; nSourceID : gostr; nSeverity : gostr; nTitle : gostr; nBody : gostr; nLink : gostr;
  nCreatedAt : Instant }.

Record NotificationState := mkUserRow { sReadAt : option Instant; sDismissedAt : option Instant; sSnoozedUntil : option Instant }.
Definition no_row : NotificationState := mkUserRow None None None.

Record Db := mkDb { dRows : list Notification; dStates : gmap (Z * gostr) NotificationState }.

Record ListNotificationsParams := mkParams {
  pSeverity : option gostr; pSource : option gostr; pCursorTs : option Instant; pCursorID : option Z; pLim : Z }.

Definition same_source (src sid : gostr) (n : Notification) : bool := str_eqb (nSource n) src && str_eqb (nSourceID n) sid.

(** INSERT ... ON CONFLICT (source, source_id) gives the row that is there;
    an id that is taken violates the primary key. *)
Definition InsertNotification (mk : Instant -> Notification) (now : Instant) (d : Db) : option (Db * Notification) :=
  let n := mk now in
  match List.find (same_source (nSource n) (nSourceID n)) (dRows d) with
  | Some old => Some (d, old)
  | None => if existsb (fun m => nID m =? nID n) (dRows d) then None else Some (mkDb (dRows d ++ [n]) (dStates d), n)
  end.

Definition newer (a b : Notification) : bool :=
  (nCreatedAt b <? nCreatedAt a) || ((nCreatedAt a =? nCreatedAt b) && (nID b <? nID a)).

Definition opt_is (o : option gostr) (v : gostr) : bool := match o with None => true | Some x => str_eqb v x end.

(** The WHERE clause; a comparison with NULL is not true. *)
Definition listed (p : ListNotificationsParams) (n : Notification) : bool :=
  opt_is (pSeverity p) (nSeverity n) && opt_is (pSource p) (nSource n) &&
  match pCursorTs p with
  | None => true
  | Some ts => (nCreatedAt n <? ts) || ((nCreatedAt n =? ts) && match pCursorID p with Some c => nID n <? c | None => false end)
  end.

Definition ListNotifications (p : ListNotificationsParams) (d : Db) : list Notification :=
  firstn (Z.to_nat (pLim p)) (stable_sort newer (List.filter (listed p) (dRows d))).

Definition ListUserStatesForNotifications (user : gostr) (ids : list Z) (d : Db) : list (Z * NotificationState) :=
  omap (fun e : (Z * gostr) * NotificationState =>
          if str_eqb e.1.2 user && bool_decide (e.1.1 ∈ ids) then Some (e.1.1, e.2) else None) (map_to_list (dStates d)).

(** An upsert of the row of a user; the notification must exist. *)
Definition upsert (f : NotificationState -> NotificationState) (id : Z) (user : gostr) (d : Db) : option (Db * unit) :=
  if existsb (fun m => nID m =? id) (dRows d)
  then Some (mkDb (dRows d) (<[(id, user) := f (default no_row (dStates d !! (id, user)))]> (dStates d)), tt)
  else None.

Definition coalesce (o : option Instant) (t : Instant) : option Instant := match o with Some x => Some x | None => Some t end.

Definition set_read (now : Instant) (s : NotificationState) : NotificationState :=
  mkUserRow (coalesce (sReadAt s) now) (sDismissedAt s) (sSnoozedUntil s).
Definition UpsertUserStateRead (id : Z) (user : gostr) (now : Instant) : Db -> option (Db * unit) := upsert (set_read now) id user.
Definition UpsertUserStateDismiss (id : Z) (user : gostr) (now : Instant) : Db -> option (Db * unit) :=
  upsert (fun s => mkUserRow (coalesce (sReadAt s) now) (Some now) (sSnoozedUntil s)) id user.
Definition UpsertUserStateSnooze (id : Z) (user : gostr) (until : option Instant) : Db -> option (Db * unit) :=
  upsert (fun s => mkUserRow (sReadAt s) (sDismissedAt s) until) id user.

(** The row a LEFT JOIN finds for a user. *)
Definition joined (user : gostr) (d : Db) (n : Notification) : NotificationState := default no_row (dStates d !! (nID n, user)).

Definition MarkAllReadForUser (user : gostr) (now : Instant) (d : Db) : Db :=
  mkDb (dRows d)
    (fold_left (fun m n => let s := joined user d n in
                           match sReadAt s, sDismissedAt s with None, None => <[(nID n, user) := set_read now s]> m | _, _ => m end)
               (dRows d) (dStates d)).

Definition unread (user : gostr) (now : Instant) (d : Db) (n : Notification) : bool :=
  let s := joined user d n in
  match sReadAt s, sDismissedAt s with
  | None, None => match sSnoozedUntil s with None => true | Some u => u <=? now end
  | _, _ => false
  end.
Definition UnreadCountForUser_sql (user : gostr) (now : Instant) (d : Db) : Z := Z.of_nat (length (List.filter (unread user now d) (dRows d))).

(** ** Sources *)

Record JobRow := mkJobRow {
  jID : Z; jKind : gostr; jTarget : gostr; jState : gostr; jError : option gostr; jCreatedAt : Instant; jFinishedAt : option Instant }.
Record AuditRow := mkAuditRow { aID : Z; aTs : option Instant; aActor : option gostr; aAction : gostr; aTarget : gostr; aResult : gostr }.
Record Alert := mkAlert {
  Fingerprint : gostr; StartsAt : Instant; Labels : gmap gostr gostr; Annotations : gmap gostr gostr; GeneratorURL : gostr }.

(** Rows created at the same time come in any order; here, that of the
    table. *)
Definition ListJobs (lim : Z) (state : gostr) (jobs : list JobRow) : list JobRow :=
  firstn (Z.to_nat lim) (stable_sort (fun a b => jCreatedAt b <? jCreatedAt a) (List.filter (fun j => str_eqb (jState j) state) jobs)).

Definition later_audit (a b : AuditRow) : bool :=
  let ta := default 0 (aTs a) in let tb := default 0 (aTs b) in (tb <? ta) || ((ta =? tb) && (aID b <? aID a)).
Definition SearchAudit (lim : Z) (result : gostr) (since : Instant) (rows : list AuditRow) : list AuditRow :=
  firstn (Z.to_nat lim) (stable_sort later_audit
    (List.filter (fun r => str_eqb (aResult r) result && match aTs r with Some t => since <=? t | None => false end) rows)).

(** ** The event bus *)

Definition busBuffer : nat := 16.
Record Bus := mkBus { subscribers : gmap Z (list Event); next : Z }.
Definition NewBus : Bus := mkBus ∅ 0.
Definition Subscribe (b : Bus) : Bus * Z := (mkBus (<[next b := []]> (subscribers b)) (next b + 1), next b).
Definition Unsubscribe (id : Z) (b : Bus) : Bus := mkBus (delete id (subscribers b)) (next b).
Definition Publish (ev : Event) (b : Bus) : Bus :=
  mkBus ((fun ch => if bool_decide (length ch < busBuffer)%nat then ch ++ [ev] else ch) <$> subscribers b) (next b).
Definition SubscriberCount (b : Bus) : nat := size (subscribers b).
(** A consumer takes the oldest event of its channel. *)
Definition receive (id : Z) (b : Bus) : Bus * option Event :=
  match subscribers b !! id with
  | Some (ev :: ch) => (mkBus (<[id := ch]> (subscribers b)) (next b), Some ev)
  | _ => (b, None)
  end.

Record World := mkWorld {
  wDb : Db; wBus : Bus; wCursors : gmap gostr Instant; wJobs : list JobRow; wAudit : list AuditRow; wTicks : nat }.
Definition set_db (d : Db) (w : World) : World := mkWorld d (wBus w) (wCursors w) (wJobs w) (wAudit w) (wTicks w).
Definition set_bus (b : Bus) (w : World) : World := mkWorld (wDb w) b (wCursors w) (wJobs w) (wAudit w) (wTicks w).
Definition set_cursor (s : gostr) (t : Instant) (w : World) : World :=
  mkWorld (wDb w) (wBus w) (<[s := t]> (wCursors w)) (wJobs w) (wAudit w) (wTicks w).
Definition tick_clock (w : World) : World := mkWorld (wDb w) (wBus w) (wCursors w) (wJobs w) (wAudit w) (S (wTicks w)).

Record ListFilter := mkFilter {
  fSeverity : gostr; fSource : gostr; OnlyUnread : bool; IncludeDismissed : bool; IncludeSnoozed : bool; OnlySnoozed : bool; Limit : Z;
  CursorTime : Instant; CursorID : gostr }.

(** uuidToString: the bytes in lower-case hexadecimal, in five groups. *)
Definition hex_low (n : Z) : ascii := nth (Z.to_nat n) #"0123456789abcdef" "0"%char.
Definition hex_digits (from count : nat) (id : Z) : gostr := map (fun k => hex_low (Z.shiftr id (4 * (31 - Z.of_nat k)) mod 16)) (seq from count).
Definition uuidToString (id : Z) : gostr :=
  hex_digits 0 8 id ++ #"-" ++ hex_digits 8 4 id ++ #"-" ++ hex_digits 12 4 id ++ #"-" ++ hex_digits 16 4 id ++ #"-" ++ hex_digits 20 12 id.

Definition mapAlertSeverity (label : gostr) : gostr :=
  let l := Smb.to_lower (trim_space label) in
  if existsb (str_eqb l) [ #"critical"; #"page"] then SeverityCritical else if str_eqb l #"warning" then SeverityWarning else SeverityInfo.

Definition isAuthFailure (action : gostr) : bool :=
  let a := Smb.to_lower action in contains a #"auth" || contains a #"login" || contains a #"token".

Section Center.
Context (uuid_New : nat -> Z) (uuid_String : Z -> gostr) (uuid_Parse : gostr -> option Z).
Context (clock : nat -> Instant) (db_ok : nat -> bool) (alerts : nat -> option (list Alert)).

Definition time_now : M World Instant := call (fun w => (tick_clock w, clock (wTicks w))).

(** One statement, with the time the database has. *)
Definition statement {A} (f : Instant -> Db -> option (Db * A)) : M World (option A) := call (fun w =>
  let w' := tick_clock w in
  if db_ok (wTicks w) then
    match f (clock (wTicks w)) (wDb w) with Some (d, a) => (set_db d w', Some a) | None => (w', None) end
  else (w', None)).
Definition query {A} (f : Instant -> World -> A) : M World (option A) := call (fun w =>
  (tick_clock w, if db_ok (wTicks w) then Some (f (clock (wTicks w)) w) else None)).

(** ** The manager *)

Inductive center_err := InvalidSource | InvalidSeverity | SourceIDRequired | TitleRequired | InvalidID | DbErr.

Definition rowToEvent (row : Notification) (state : option NotificationState) : M World Event :=
  let ev st := mkEvent (uuid_String (nID row)) (default [] (nTenantID row)) (nSource row) (nSourceID row) (nSeverity row) (nTitle row)
                 (nBody row) (nLink row) (nCreatedAt row) st in
  match state with
  | None => ret (ev no_state)
  | Some s =>
      let! now := time_now in
      ret (ev (mkState (bool_decide (is_Some (sReadAt s))) (bool_decide (is_Some (sDismissedAt s)))
                 (match sSnoozedUntil s with Some t => now <? t | None => false end) (sReadAt s) (sDismissedAt s) (sSnoozedUntil s)))
  end.

Definition RecordEvent (i : RecordInput) : M World (res center_err Event) :=
  if negb (Source_Valid (iSource i)) then ret (Err InvalidSource)
  else if negb (Severity_Valid (iSeverity i)) then ret (Err InvalidSeverity)
  else if str_eqb (trim_space (iSourceID i)) [] then ret (Err SourceIDRequired)
  else if str_eqb (trim_space (iTitle i)) [] then ret (Err TitleRequired)
  else
    let! id := call (fun w => (tick_clock w, uuid_New (wTicks w))) in
    let tenant := let t := trim_space (iTenantID i) in if str_eqb t [] then None else Some t in
    let! row := statement (InsertNotification (mkRow id tenant (iSource i) (iSourceID i) (iSeverity i) (iTitle i) (iBody i) (iLink i))) in
    match row with
    | None => ret (Err DbErr)
    | Some row =>
        let! ev := rowToEvent row None in
        let! _ := call (fun w => (set_bus (Publish ev (wBus w)) w, tt)) in
        ret (Ok ev)
    end.

Definition applyFilter (ev : Event) (f : ListFilter) (now : Instant) : bool :=
  if OnlyUnread f && Read (UserState ev) then false
  else if negb (IncludeDismissed f) && Dismissed (UserState ev) then false
  else
    let snoozedNow := match SnoozedUntil (UserState ev) with Some t => now <? t | None => false end in
    if OnlySnoozed f then snoozedNow else if negb (IncludeSnoozed f) && snoozedNow then false else true.

Definition page_limit (f : ListFilter) : Z := if (Limit f <=? 0) || (500 <? Limit f) then 50 else Limit f.

Definition params_of (f : ListFilter) : ListNotificationsParams :=
  let opt v := if str_eqb v [] then None else Some v in
  if is_zero (CursorTime f) then mkParams (opt (fSeverity f)) (opt (fSource f)) None None (page_limit f)
  else mkParams (opt (fSeverity f)) (opt (fSource f)) (Some (CursorTime f)) (uuid_Parse (CursorID f)) (page_limit f).

Definition state_map (states : list (Z * NotificationState)) : gmap Z NotificationState :=
  fold_left (fun m s => <[s.1 := s.2]> m) states ∅.

(** The loop over the rows; a row without state has the zero value. *)
Fixpoint visible (f : ListFilter) (now : Instant) (stateMap : gmap Z NotificationState) (rows : list Notification) : M World (list Event) :=
  match rows with
  | [] => ret []
  | r :: rows' =>
      let! ev := rowToEvent r (stateMap !! nID r) in
      let! out := visible f now stateMap rows' in
      ret (if applyFilter ev f now then ev :: out else out)
  end.

Definition ListForUser (user : gostr) (f : ListFilter) : M World (option (list Event)) :=
  let! rows := query (fun _ w => ListNotifications (params_of f) (wDb w)) in
  match rows with
  | None => ret None
  | Some [] => ret (Some [])
  | Some rows =>
      let! states := query (fun _ w => ListUserStatesForNotifications user (map nID rows) (wDb w)) in
      match states with
      | None => ret None
      | Some states =>
          let! now := time_now in
          let! out := visible f now (state_map states) rows in
          ret (Some out)
      end
  end.

Definition UnreadCountForUser (user : gostr) : M World (option Z) := query (fun now w => UnreadCountForUser_sql user now (wDb w)).

Definition on_id (id : gostr) (f : Z -> Instant -> Db -> option (Db * unit)) : M World (option center_err) :=
  match uuid_Parse id with
  | None => ret (Some InvalidID)
  | Some u => let! r := statement (f u) in ret (match r with Some _ => None | None => Some DbErr end)
  end.
Definition MarkRead (user id : gostr) : M World (option center_err) := on_id id (fun u => UpsertUserStateRead u user).
Definition MarkDismissed (user id : gostr) : M World (option center_err) := on_id id (fun u => UpsertUserStateDismiss u user).
Definition Snooze (user id : gostr) (until : Instant) : M World (option center_err) :=
  on_id id (fun u _ => UpsertUserStateSnooze u user (if is_zero until then None else Some until)).
Definition MarkAllRead (user : gostr) : M World (option center_err) :=
  let! r := statement (fun now d => Some (MarkAllReadForUser user now d, tt)) in ret (match r with Some _ => None | None => Some DbErr end).

(** ** The aggregator *)

Definition NewAggregator : M World unit :=
  let! now := time_now in
  call (fun w => (mkWorld (wDb w) (wBus w) (<[SourceAudit := now]> (<[SourceJobs := now]> {[SourceAlertmanager := now]}))
                          (wJobs w) (wAudit w) (wTicks w), tt)).

Definition cursor_of (s : gostr) : M World Instant := call (fun w => (w, default zero_time (wCursors w !! s))).
Definition move_cursor (s : gostr) (t : Instant) : M World unit := call (fun w => (set_cursor s t w, tt)).

(** What a poll makes of its rows: those after the cursor are recorded, a
    failure is only logged, and the newest time is kept. *)
Fixpoint record_new {A} (time_of : A -> option Instant) (input : A -> RecordInput) (cursor newest : Instant) (rows : list A) : M World Instant :=
  match rows with
  | [] => ret newest
  | r :: rows' =>
      match time_of r with
      | None => record_new time_of input cursor newest rows'
      | Some t =>
          if negb (cursor <? t) then record_new time_of input cursor newest rows'
          else
            let newest' := if newest <? t then t else newest in
            let! _ := RecordEvent (input r) in record_new time_of input cursor newest' rows'
      end
  end.

Definition label (k : gostr) (m : gmap gostr gostr) : gostr := default [] (m !! k).
Definition alert_input (al : Alert) : RecordInput :=
  let title := label #"alertname" (Labels al) in
  let body := label #"description" (Annotations al) in
  mkInput SourceAlertmanager (Fingerprint al) (mapAlertSeverity (label #"severity" (Labels al)))
    (if str_eqb title [] then #"Alert" else title) (if str_eqb body [] then label #"summary" (Annotations al) else body) (GeneratorURL al) [].

Definition job_input (j : JobRow) : RecordInput :=
  let id := uuidToString (jID j) in
  mkInput SourceJobs id SeverityWarning ( #"Job failed: " ++ jKind j)
    (match jError j with Some e => if str_eqb e [] then jTarget j else trim_space e | None => jTarget j end) ( #"/jobs/" ++ id) [].

Definition audit_input (r : AuditRow) : RecordInput :=
  let id := Retention.formatInt (aID r) in
  mkInput SourceAudit id (if isAuthFailure (aAction r) then SeverityWarning else SeverityInfo) ( #"Rejected: " ++ aAction r)
    (trim_space (default [] (aActor r) ++ #" " ++ aTarget r)) ( #"/audit?id=" ++ id) [].

Definition pollAlertmanager : M World bool :=
  let! cursor := cursor_of SourceAlertmanager in
  let! got := call (fun w => (tick_clock w, alerts (wTicks w))) in
  match got with
  | None => ret false
  | Some als =>
      let! newest := record_new (fun al => Some (StartsAt al)) alert_input cursor cursor als in
      let! _ := move_cursor SourceAlertmanager newest in ret true
  end.

Definition pollJobs : M World bool :=
  let! cursor := cursor_of SourceJobs in
  let! rows := query (fun _ w => ListJobs 200 #"failed" (wJobs w)) in
  match rows with
  | None => ret false
  | Some rows =>
      let! newest := record_new jFinishedAt job_input cursor cursor rows in
      let! _ := move_cursor SourceJobs newest in ret true
  end.

Definition pollAudit : M World bool :=
  let! cursor := cursor_of SourceAudit in
  let! rows := query (fun _ w => SearchAudit 200 #"rejected" cursor (wAudit w)) in
  match rows with
  | None => ret false
  | Some rows =>
      let! newest := record_new aTs audit_input cursor cursor rows in
      let! _ := move_cursor SourceAudit newest in ret true
  end.

Definition tick (alertmanagerURL : gostr) : M World unit :=
  let! _ := (if str_eqb alertmanagerURL [] then ret true else pollAlertmanager) in
  let! _ := pollJobs in
  let! _ := pollAudit in
  ret tt.

(** ** The HTTP handlers.  A cursor is read and printed without loss. *)

Record ListQuery := mkQuery {
  qSeverity : gostr; qSource : gostr; qUnread : gostr; qIncludeDismissed : gostr; qIncludeSnoozed : gostr; qOnlySnoozed : gostr;
  qLimit : gostr; qCursor : option (Instant * gostr) }.

Inductive ListResponse := InvalidQuery | DbError | Page (items : list Event) (nextCursor : option (Instant * gostr)).

Definition query_limit (lim : gostr) : Z := match atoi lim with Some n => if (0 <? n) && (n <=? 2 ^ 31 - 1) then n else 0 | None => 0 end.

Definition filter_of (q : ListQuery) : ListFilter :=
  let yes v := str_eqb v #"true" in
  mkFilter (qSeverity q) (qSource q) (yes (qUnread q)) (yes (qIncludeDismissed q)) (yes (qIncludeSnoozed q) || yes (qOnlySnoozed q))
    (yes (qOnlySnoozed q)) (query_limit (qLimit q)) (match qCursor q with Some c => c.1 | None => zero_time end)
    (match qCursor q with Some c => c.2 | None => [] end).

Definition h_List (user : gostr) (q : ListQuery) : M World ListResponse :=
  let f := filter_of q in
  if negb (str_eqb (fSeverity f) []) && negb (Severity_Valid (fSeverity f)) then ret InvalidQuery
  else if negb (str_eqb (fSource f) []) && negb (Source_Valid (fSource f)) then ret InvalidQuery
  else
    let! r := ListForUser user f in
    ret (match r with
         | None => DbError
         | Some events =>
             Page events (match last events with
                          | Some l => if (0 <? Limit f) && (Z.of_nat (length events) =? Limit f) then Some (CreatedAt l, ID l) else None
                          | None => None
                          end)
         end).

(** A snooze needs a time; everything that goes wrong is a bad request. *)
Definition h_Snooze (user id : gostr) (until : Instant) : M World bool :=
  if is_zero until then ret false else let! r := Snooze user id until in ret (match r with None => true | Some _ => false end).
End Center.
End Notify.
