(* ===== verification/NotifyCenterCorrect.v ===== *)
(** * The notification center shows what happened

    The bell and its list agree, paging shows every notification once, and
    every failed job is notified. *)

From stdpp Require Import gmap.
From S2P Require Import Prelude GoStrings GoTime SortLib Effects Retention GoText Samba NotifyCenter.
Import Notify.

#[local] Arguments str : simpl never.

(** ** The order of the list *)

Lemma newer_irrefl n : newer n n = false.
Proof. unfold newer. rewrite !Z.ltb_irrefl. by destruct (_ =? _). Qed.

Lemma newer_spec a b : newer a b = true <-> nCreatedAt b < nCreatedAt a \/ nCreatedAt a = nCreatedAt b /\ nID b < nID a.
Proof. unfold newer. rewrite orb_true_iff, andb_true_iff, !Z.ltb_lt, Z.eqb_eq. done. Qed.

Lemma newer_trans a b c : newer a b = true -> newer b c = true -> newer a c = true.
Proof. rewrite !newer_spec. lia. Qed.

Definition distinct_ids (rows : list Notification) : Prop := NoDup (map nID rows).

Lemma distinct_ids_inj rows a b : distinct_ids rows -> a ∈ rows -> b ∈ rows -> nID a = nID b -> a = b.
Proof.
  intros Hd Ha Hb E. apply list_elem_of_lookup in Ha as [i Hi], Hb as [j Hj].
  assert (i = j) as ->; [|congruence]. eapply (NoDup_lookup _ i j (nID a) Hd); by rewrite list_lookup_fmap, ?Hi, ?Hj; cbn; rewrite ?E.
Qed.

Lemma distinct_ids_comparable rows : distinct_ids rows -> comparable newer rows.
Proof.
  intros Hd a b Ha Hb Hne. rewrite !newer_spec. assert (nID a <> nID b) by (intros E; by apply Hne, (distinct_ids_inj rows)). lia.
Qed.

Lemma elem_of_filter_b {A} (p : A -> bool) l x : x ∈ List.filter p l <-> x ∈ l /\ p x = true.
Proof. rewrite !list_elem_of_In. apply filter_In. Qed.

Lemma distinct_ids_filter p rows : distinct_ids rows -> distinct_ids (List.filter p rows).
Proof.
  unfold distinct_ids. induction rows as [|r rows IH]; [done|]. cbn. intros [Hr Hd]%NoDup_cons. destruct (p r); [|by apply IH].
  cbn. constructor; [|by apply IH]. intros (x & E & Hx)%list_elem_of_fmap. apply Hr, list_elem_of_fmap. exists x.
  split; [done|]. by apply elem_of_filter_b in Hx as [? _].
Qed.

Lemma distinct_ids_nodup rows : distinct_ids rows -> NoDup rows.
Proof. apply NoDup_fmap_1. Qed.

Lemma listed_sorted p rows : distinct_ids rows -> StronglySorted (fun x y => newer x y = true) (stable_sort newer (List.filter p rows)).
Proof.
  intros Hd. apply stable_sort_strict; [exact newer_trans|by apply distinct_ids_nodup, distinct_ids_filter|].
  by apply distinct_ids_comparable, distinct_ids_filter.
Qed.

(** ** Text that starts visibly is not blank *)

Definition unprintable (p : gostr) : Prop := Forall (fun c => printable c = false) p.

Lemma spaces_unprintable : Forall unprintable (map (@rev ascii) space_encodings).
Proof. repeat constructor. Qed.

Lemma first_strip_keeps_last ps x c r : Forall unprintable ps -> printable c = true ->
  first_strip ps (x ++ [c]) = Some r -> exists x', r = x' ++ [c].
Proof.
  intros Hps Hc. induction Hps as [|p ps Hp Hps IH]; [done|]. cbn [first_strip]. destruct (strip_prefix p (x ++ [c])) as [r'|] eqn:E; [|done].
  intros [= ->]. apply strip_prefix_Some in E. destruct r as [|a r] using rev_ind; [|rewrite app_assoc in E; apply app_inj_tail in E as [_ <-]; eauto].
  rewrite app_nil_r in E. subst p. apply Forall_app in Hp as [_ Hp]. apply Forall_cons in Hp as [Hp _]. congruence.
Qed.

Lemma trim_left_keeps_last fuel x c : printable c = true ->
  exists x', trim_left_with (map (@rev ascii) space_encodings) fuel (x ++ [c]) = x' ++ [c].
Proof.
  intros Hc. revert x. induction fuel as [|fuel IH]; intros x; cbn [trim_left_with]; [by exists x|].
  destruct (first_strip _ (x ++ [c])) as [r|] eqn:E; [|by exists x].
  apply first_strip_keeps_last in E as [x' ->]; [apply IH|apply spaces_unprintable|done].
Qed.

Lemma starts_not_blank s : starts s = true -> str_eqb (trim_space s) [] = false.
Proof.
  intros (c & r & -> & Hc)%starts_iff. apply str_eqb_neq. unfold trim_space.
  rewrite (trim_left_stop space_encodings) by (by apply first_strip_printable; [apply spaces_head|]). cbn [rev].
  destruct (trim_left_keeps_last (length (c :: r)) (rev r) c Hc) as [x' ->]. by rewrite rev_app_distr.
Qed.

Lemma hex_low_printable n : printable (hex_low (n mod 16)) = true.
Proof.
  unfold hex_low. destruct (nth_in_or_default (Z.to_nat (n mod 16)) #"0123456789abcdef" "0"%char) as [H| ->]; [|done].
  revert H. generalize (nth (Z.to_nat (n mod 16)) #"0123456789abcdef" "0"%char). apply List.Forall_forall. repeat constructor.
Qed.

Section Correct.
Context (uuid_New : nat -> Z) (uuid_String : Z -> gostr) (uuid_Parse : gostr -> option Z).
Context (clock : nat -> Instant) (db_ok : nat -> bool) (alerts : nat -> option (list Alert)).
Abbreviation ListForUser := (ListForUser uuid_String uuid_Parse clock db_ok).
Abbreviation visible := (visible uuid_String clock).
Abbreviation rowToEvent := (rowToEvent uuid_String clock).
Abbreviation h_List := (h_List uuid_String uuid_Parse clock db_ok).
Abbreviation RecordEvent := (RecordEvent uuid_New uuid_String clock db_ok).

(** ** What a listing returns *)

Lemma state_map_val l id s : state_map l !! id = Some s -> (id, s) ∈ l.
Proof.
  unfold state_map. induction l as [|e l IH] using rev_ind; [done|].
  rewrite fold_left_app. cbn. destruct (decide (e.1 = id)) as [<-|Hne].
  - rewrite lookup_insert_eq. intros [= <-]. destruct e. set_solver.
  - rewrite lookup_insert_ne by done. intros H%IH. set_solver.
Qed.

Lemma state_map_dom l id s : (id, s) ∈ l -> is_Some (state_map l !! id).
Proof.
  unfold state_map. induction l as [|e l IH] using rev_ind; [set_solver|].
  rewrite fold_left_app. cbn. intros H. destruct (decide (e.1 = id)) as [<-|Hne]; [by rewrite lookup_insert_eq|].
  rewrite lookup_insert_ne by done. apply IH. apply elem_of_app in H as [H|H]; [done|]. apply list_elem_of_singleton in H. by subst e.
Qed.

Lemma state_map_lookup user ids d id :
  state_map (ListUserStatesForNotifications user ids d) !! id = if bool_decide (id ∈ ids) then dStates d !! (id, user) else None.
Proof.
  set (l := ListUserStatesForNotifications user ids d).
  assert (Hin : forall i s, (i, s) ∈ l <-> i ∈ ids /\ dStates d !! (i, user) = Some s).
  { intros i s. unfold l, ListUserStatesForNotifications. rewrite list_elem_of_omap. split.
    - intros ([[i' u] s'] & Hm & E). cbn in E. destruct (str_eqb u user) eqn:Eu; [|done]. apply str_eqb_eq in Eu as ->.
      case_bool_decide; [|done]. cbn in E. injection E as -> ->. split; [done|]. by apply elem_of_map_to_list.
    - intros [Hi Hs]. exists ((i, user), s). split; [by apply elem_of_map_to_list|]. cbn. rewrite str_eqb_refl. by rewrite bool_decide_true. }
  destruct (state_map l !! id) as [s|] eqn:E.
  - apply state_map_val, Hin in E as [Hid ->]. by rewrite bool_decide_true.
  - case_bool_decide as Hid; [|done]. destruct (dStates d !! (id, user)) as [s|] eqn:Es; [|done].
    destruct (state_map_dom l id s) as [? ?]; [by apply Hin|]. congruence.
Qed.

(** The filter, on the row of the user. *)
Definition shown (f : ListFilter) (now : Instant) (s : NotificationState) : bool :=
  negb (OnlyUnread f && bool_decide (is_Some (sReadAt s))) && negb (negb (IncludeDismissed f) && bool_decide (is_Some (sDismissedAt s))) &&
  let snoozed := match sSnoozedUntil s with Some t => now <? t | None => false end in
  if OnlySnoozed f then snoozed else negb (negb (IncludeSnoozed f) && snoozed).

Definition key (r : Notification) : Instant * gostr := (nCreatedAt r, uuid_String (nID r)).
Definition event_key (e : Event) : Instant * gostr := (CreatedAt e, ID e).

Definition same_but_time (w w' : World) : Prop :=
  wDb w' = wDb w /\ wBus w' = wBus w /\ wCursors w' = wCursors w /\ wJobs w' = wJobs w /\ wAudit w' = wAudit w /\ (wTicks w <= wTicks w')%nat.

Lemma same_but_time_trans w1 w2 w3 : same_but_time w1 w2 -> same_but_time w2 w3 -> same_but_time w1 w3.
Proof. unfold same_but_time. intros (->&->&->&->&->&?) (->&->&->&->&->&?). split_and!; try done. lia. Qed.

Lemma rowToEvent_run r s w : exists w' ev, rowToEvent r s w = (w', Some ev) /\ same_but_time w w' /\ event_key ev = key r /\
  forall f now, applyFilter ev f now = shown f now (default no_row s).
Proof.
  unfold NotifyCenter.Notify.rowToEvent. destruct s as [s|].
  - eexists _, _. split; [reflexivity|]. split; [unfold same_but_time; cbn; split_and!; try done; lia|]. split; [done|].
    intros f now. unfold applyFilter, shown. cbn. destruct (_ && bool_decide (is_Some (sReadAt s))); [done|].
    destruct (_ && bool_decide (is_Some (sDismissedAt s))); [done|]. cbn. destruct (OnlySnoozed f); [done|]. by destruct (_ && _).
  - eexists _, _. split; [reflexivity|]. split; [unfold same_but_time; by split_and!|]. split; [done|].
    intros f now. unfold applyFilter, shown. cbn. rewrite !andb_false_r. cbn. destruct (OnlySnoozed f); [done|]. by destruct (IncludeSnoozed f).
Qed.

Lemma visible_run f now sm rows w : exists w' evs, visible f now sm rows w = (w', Some evs) /\ same_but_time w w' /\
  map event_key evs = map key (List.filter (fun r => shown f now (default no_row (sm !! nID r))) rows).
Proof.
  revert w. induction rows as [|r rows IH]; intros w; [exists w, []; unfold same_but_time; by split_and!|].
  cbn [NotifyCenter.Notify.visible]. destruct (rowToEvent_run r (sm !! nID r) w) as (w1 & ev & E1 & S1 & K1 & F1).
  destruct (IH w1) as (w2 & evs & E2 & S2 & K2). unfold bind. rewrite E1, E2. eexists _, _. split; [reflexivity|].
  split; [by eapply same_but_time_trans|]. rewrite F1. cbn [List.filter]. destruct (shown _ _ _); cbn [map]; [|done]. by rewrite K1, K2.
Qed.

Lemma filter_ext_in_b {A} (p q : A -> bool) l : (forall x, x ∈ l -> p x = q x) -> List.filter p l = List.filter q l.
Proof. intros H. apply List.filter_ext_in. intros a Ha. apply H. by apply list_elem_of_In. Qed.

(** A listing with a working database: the newest rows that match, up to
    the limit, and of these the ones the user's state shows. *)
Lemma ListForUser_run user f w : (forall k, db_ok k = true) -> exists w' evs,
  ListForUser user f w = (w', Some (Some evs)) /\ same_but_time w w' /\
  map event_key evs = map key (List.filter (fun r => shown f (clock (S (S (wTicks w)))) (joined user (wDb w) r))
                                (ListNotifications (params_of uuid_Parse f) (wDb w))).
Proof.
  intros Hok. unfold NotifyCenter.Notify.ListForUser. unfold bind at 1, query at 1, call at 1. rewrite Hok.
  destruct (ListNotifications (params_of uuid_Parse f) (wDb w)) as [|r rows] eqn:El.
  { eexists _, _. split; [reflexivity|]. split; [|done]. unfold same_but_time; cbn; split_and!; try done; lia. }
  unfold bind at 1, query at 1, call at 1. rewrite Hok. unfold bind at 1, time_now, call at 1.
  change (wTicks (tick_clock (tick_clock w))) with (S (S (wTicks w))). change (wDb (tick_clock w)) with (wDb w).
  set (sm := state_map _). destruct (visible_run f (clock (S (S (wTicks w)))) sm (r :: rows) (tick_clock (tick_clock (tick_clock w)))) as (w4 & evs & E & S4 & K).
  unfold bind at 1. rewrite E. eexists _, _. split; [reflexivity|]. split.
  { eapply same_but_time_trans; [|exact S4]. unfold same_but_time; cbn; split_and!; try done; lia. }
  rewrite K. f_equal. apply filter_ext_in_b. intros x Hx. unfold sm. rewrite state_map_lookup. rewrite bool_decide_true; [done|].
  by apply list_elem_of_fmap_2.
Qed.

(** ** The badge *)

Lemma filter_length_perm {A} (p : A -> bool) l l' : l ≡ₚ l' -> length (List.filter p l) = length (List.filter p l').
Proof. induction 1 as [|x l l' _ IH|x y l|l1 l2 l3 _ IH1 _ IH2]; cbn; [done|destruct (p x); cbn; congruence|by destruct (p x), (p y)|congruence]. Qed.

Definition unread_filter (f : ListFilter) : Prop :=
  fSeverity f = [] /\ fSource f = [] /\ OnlyUnread f = true /\ IncludeDismissed f = false /\ IncludeSnoozed f = false /\
  OnlySnoozed f = false /\ CursorTime f = zero_time.

Lemma unread_shown f user now d n : unread_filter f -> shown f now (joined user d n) = unread user now d n.
Proof.
  intros (_ & _ & Eu & Ed & Es & Eo & _). unfold shown, unread. rewrite Eu, Ed, Es, Eo. cbn.
  destruct (joined user d n) as [[r|] [di|] [s|]]; cbn; try done. by rewrite Z.leb_antisym.
Qed.

(** The badge counts exactly the events the list of unread events shows
    when the page can hold every row and no snooze ends between the two
    requests. *)
Lemma badge_is_unread_list user f w : (forall k, db_ok k = true) -> unread_filter f ->
  Z.of_nat (length (dRows (wDb w))) <= page_limit f ->
  (forall n t, sSnoozedUntil (joined user (wDb w) n) = Some t -> (t <=? clock (wTicks w)) = (t <=? clock (S (S (wTicks w))))) ->
  exists w' evs, ListForUser user f w = (w', Some (Some evs)) /\
    UnreadCountForUser clock db_ok user w = (tick_clock w, Some (Some (Z.of_nat (length evs)))).
Proof.
  intros Hok Hf Hlim Hs. destruct (ListForUser_run user f w Hok) as (w' & evs & E & _ & K). exists w', evs. split; [done|].
  unfold UnreadCountForUser, query, call. rewrite Hok. do 2 f_equal. f_equal. unfold UnreadCountForUser_sql. f_equal.
  rewrite <- (length_map event_key evs), K, length_map.
  pose proof Hf as (E1 & E2 & Hf'). unfold ListNotifications, params_of. rewrite E1, E2. destruct Hf' as (E3 & E4 & E5 & E6 & E7).
  rewrite E7. cbn [is_zero zero_time pLim]. change (is_zero zero_time) with true. cbn [pLim].
  assert (Hall : List.filter (listed (mkParams None None None None (page_limit f))) (dRows (wDb w)) = dRows (wDb w)).
  { induction (dRows (wDb w)) as [|r rows IH]; [done|]. cbn. f_equal. apply IH. cbn in Hlim. lia. }
  change (if str_eqb [] [] then None else Some []) with (@None gostr). rewrite Hall, firstn_all2 by (rewrite stable_sort_perm; lia).
  rewrite (filter_length_perm _ _ _ (stable_sort_perm newer (dRows (wDb w)))). f_equal. apply filter_ext_in_b. intros n _.
  rewrite (unread_shown f user _ _ n) by done. unfold unread. specialize (Hs n).
  destruct (joined user (wDb w) n) as [[?|] [?|] [?|]]; try done. by apply Hs.
Qed.

(** ** Paging *)

Definition with_cursor (c : Instant * gostr) (q : ListQuery) : ListQuery :=
  mkQuery (qSeverity q) (qSource q) (qUnread q) (qIncludeDismissed q) (qIncludeSnoozed q) (qOnlySnoozed q) (qLimit q) (Some c).

(** A client that follows the cursors; each request finds a world of its own. *)
Fixpoint pages (user : gostr) (q : ListQuery) (ws : list World) : option (list Event) :=
  match ws with
  | [] => None
  | w :: ws' =>
      match (h_List user q w).2 with
      | Some (Page items None) => Some items
      | Some (Page items (Some c)) => app items <$> pages user (with_cursor c q) ws'
      | _ => None
      end
  end.

(** A query for everything, in pages of at most 500. *)
Definition whole_list (q : ListQuery) : Prop :=
  str_eqb (qUnread q) #"true" = false /\ qIncludeDismissed q = #"true" /\ qIncludeSnoozed q = #"true" /\ str_eqb (qOnlySnoozed q) #"true" = false /\
  (qSeverity q = [] \/ Severity_Valid (qSeverity q) = true) /\ (qSource q = [] \/ Source_Valid (qSource q) = true) /\
  0 < query_limit (qLimit q) <= 500.

Definition asked (q : ListQuery) (n : Notification) : bool :=
  (str_eqb (qSeverity q) [] || str_eqb (nSeverity n) (qSeverity q)) && (str_eqb (qSource q) [] || str_eqb (nSource n) (qSource q)).

(** The rows of a world are the given ones and newer ones. *)
Definition grown (rows0 : list Notification) (w : World) : Prop :=
  exists extra, dRows (wDb w) = rows0 ++ extra /\ distinct_ids (rows0 ++ extra) /\
    forall n m, n ∈ extra -> m ∈ rows0 -> newer n m = true.

Lemma whole_list_shown q now s : whole_list q -> shown (filter_of q) now s = true.
Proof.
  intros (E1 & E2 & E3 & E4 & _). unfold shown, filter_of. cbn. rewrite E1, E2, E3, E4, str_eqb_refl. done.
Qed.

Lemma filter_all {A} (p : A -> bool) l : (forall x, p x = true) -> List.filter p l = l.
Proof. intros H. induction l as [|x l IH]; cbn; [done|]. by rewrite H, IH. Qed.

Lemma last_map {A B} (f : A -> B) (l : list A) : last (map f l) = f <$> last l.
Proof. apply fmap_last. Qed.

Lemma h_List_run user q w : (forall k, db_ok k = true) -> whole_list q -> exists w' evs,
  let page := ListNotifications (params_of uuid_Parse (filter_of q)) (wDb w) in
  h_List user q w = (w', Some (Page evs (if Z.of_nat (length page) =? query_limit (qLimit q) then key <$> last page else None))) /\
  map event_key evs = map key page.
Proof.
  intros Hok Hq. destruct (ListForUser_run user (filter_of q) w Hok) as (w' & evs & E & _ & K).
  rewrite filter_all in K by (intros; by apply whole_list_shown).
  exists w', evs. cbv zeta. split; [|done]. pose proof Hq as (_ & _ & _ & _ & Hsev & Hsrc & Hlim). unfold NotifyCenter.Notify.h_List.
  assert (negb (str_eqb (fSeverity (filter_of q)) []) && negb (Severity_Valid (fSeverity (filter_of q))) = false) as ->.
  { cbn [fSeverity filter_of]. destruct Hsev as [->| ->]; [done|apply andb_false_r]. }
  assert (negb (str_eqb (fSource (filter_of q)) []) && negb (Source_Valid (fSource (filter_of q))) = false) as ->.
  { cbn [fSource filter_of]. destruct Hsrc as [->| ->]; [done|apply andb_false_r]. }
  unfold bind, ret. rewrite E. do 3 f_equal. cbn [Limit filter_of].
  assert (length evs = length (ListNotifications (params_of uuid_Parse (filter_of q)) (wDb w))) as <-
    by (rewrite <- (length_map event_key evs), K; apply length_map).
  pose proof (f_equal last K) as HL. rewrite !last_map in HL. rewrite <- HL.
  replace (0 <? query_limit (qLimit q)) with true by lia. cbn [andb]. destruct (last evs) as [e|]; [done|]. by destruct (_ =? _).
Qed.

(** After a cursor come the rest of the sorted rows, whatever was inserted
    meanwhile. *)
Lemma sorted_split (pre rest : list Notification) c n :
  StronglySorted (fun x y => newer x y = true) (pre ++ c :: rest) -> n ∈ pre ++ c :: rest -> (newer c n = true <-> n ∈ rest).
Proof.
  intros Hs Hn. apply StronglySorted_app in Hs as (Hpc & Hpre & Hc). inversion Hc as [|? ? Hrest Hall]; subst. rewrite Forall_forall in Hall.
  split; [|apply Hall]. intros Hnew. apply elem_of_app in Hn as [Hn|Hn].
  - specialize (Hpc n c Hn). assert (newer n c = true) by (apply Hpc; set_solver). pose proof (newer_trans _ _ _ Hnew H) as E. by rewrite newer_irrefl in E.
  - apply elem_of_cons in Hn as [->|Hn]; [|done]. by rewrite newer_irrefl in Hnew.
Qed.

(** The rows of the first world, as the listing sorts them. *)
Definition whole (q : ListQuery) (rows0 : list Notification) : list Notification := stable_sort newer (List.filter (asked q) rows0).

Lemma asked_listed q ts c lim n : listed (mkParams (if str_eqb (qSeverity q) [] then None else Some (qSeverity q))
    (if str_eqb (qSource q) [] then None else Some (qSource q)) ts c lim) n =
  asked q n && match ts with
               | None => true
               | Some ts => (nCreatedAt n <? ts) || ((nCreatedAt n =? ts) && match c with Some c => nID n <? c | None => false end)
               end.
Proof. unfold listed, asked, opt_is. cbn [pSeverity pSource pCursorTs pCursorID]. by destruct (str_eqb (qSeverity q) []), (str_eqb (qSource q) []). Qed.

Lemma after_cursor q rows0 w pre c rest lim : distinct_ids rows0 -> grown rows0 w -> whole q rows0 = pre ++ c :: rest ->
  stable_sort newer (List.filter (listed (mkParams (if str_eqb (qSeverity q) [] then None else Some (qSeverity q))
    (if str_eqb (qSource q) [] then None else Some (qSource q)) (Some (nCreatedAt c)) (Some (nID c)) lim)) (dRows (wDb w))) = rest.
Proof.
  intros Hd0 (extra & Er & Hd & Hx) Ew. pose proof (listed_sorted (asked q) rows0 Hd0) as Hs. fold (whole q rows0) in Hs. rewrite Ew in Hs.
  assert (Hin : forall n, n ∈ pre ++ c :: rest <-> n ∈ rows0 /\ asked q n = true).
  { intros n. rewrite <- Ew. unfold whole. rewrite stable_sort_perm. apply elem_of_filter_b. }
  assert (Hsr : StronglySorted (fun x y => newer x y = true) rest).
  { apply StronglySorted_app_1_r in Hs. by inversion Hs. }
  apply stable_sort_unique; [exact newer_trans|exact newer_irrefl| |done]. rewrite Er.
  apply NoDup_Permutation; [by apply distinct_ids_nodup, distinct_ids_filter|by apply (strict_sorted_NoDup newer); [exact newer_irrefl|]|].
  intros n. rewrite elem_of_filter_b, asked_listed, andb_true_iff.
  assert (Hnc : (nCreatedAt n <? nCreatedAt c) || ((nCreatedAt n =? nCreatedAt c) && (nID n <? nID c)) = newer c n)
    by (unfold newer; by rewrite (Z.eqb_sym (nCreatedAt n))). rewrite Hnc.
  assert (Hc : c ∈ rows0) by (apply Hin; set_solver). split.
  - intros ([Hn|Hn]%elem_of_app & Ha & Hnew); [by apply (sorted_split pre rest c n Hs); [apply Hin|]|].
    pose proof (newer_trans _ _ _ (Hx n c Hn Hc) Hnew) as E. by rewrite newer_irrefl in E.
  - intros Hn. assert (n ∈ rows0 /\ asked q n = true) as [Hn0 Ha] by (apply Hin; set_solver).
    split; [set_solver|]. split; [done|]. apply (sorted_split pre rest c n Hs); [by apply Hin|done].
Qed.

Lemma page_step user q w ws rest : (forall k, db_ok k = true) -> whole_list q ->
  ListNotifications (params_of uuid_Parse (filter_of q)) (wDb w) = firstn (Z.to_nat (query_limit (qLimit q))) rest ->
  (forall pre c rest', rest = pre ++ c :: rest' -> length pre = pred (Z.to_nat (query_limit (qLimit q))) ->
    exists evs, pages user (with_cursor (key c) q) ws = Some evs /\ map event_key evs = map key rest') ->
  exists evs, pages user q (w :: ws) = Some evs /\ map event_key evs = map key rest.
Proof.
  intros Hok Hq Hp Hnext. pose proof Hq as (_ & _ & _ & _ & _ & _ & Hlim). destruct (h_List_run user q w Hok Hq) as (w' & evs & E & K).
  rewrite Hp in E, K. cbn [pages]. rewrite E. cbn [snd]. rewrite length_take. set (L := Z.to_nat (query_limit (qLimit q))) in *.
  assert (HL : query_limit (qLimit q) = Z.of_nat L) by lia. rewrite HL.
  destruct (Z.eqb_spec (Z.of_nat (L `min` length rest)) (Z.of_nat L)) as [Hfull|Hshort].
  - assert (Hpos : (pred L < length rest)%nat) by lia. destruct (lookup_lt_is_Some_2 rest (pred L) Hpos) as [c Hc].
    assert (Hlast : last (take L rest) = Some c).
    { rewrite last_lookup, length_take, Nat.min_l by lia. rewrite lookup_take_lt by lia. done. }
    rewrite Hlast. cbn [fmap option_fmap option_map].
    destruct (Hnext (take (pred L) rest) c (drop L rest)) as (evs' & E' & K').
    { rewrite <- (take_drop_middle rest (pred L) c Hc) at 1. do 2 f_equal. f_equal. lia. }
    { rewrite length_take. lia. }
    rewrite E'. eexists. split; [reflexivity|]. rewrite map_app, K, K', <- map_app. f_equal. apply take_drop.
  - exists evs. split; [done|]. rewrite K. f_equal. apply take_ge. lia.
Qed.

Lemma params_with_cursor q c : whole_list q -> is_zero (nCreatedAt c) = false -> uuid_Parse (uuid_String (nID c)) = Some (nID c) ->
  params_of uuid_Parse (filter_of (with_cursor (key c) q)) =
  mkParams (if str_eqb (qSeverity q) [] then None else Some (qSeverity q)) (if str_eqb (qSource q) [] then None else Some (qSource q))
           (Some (nCreatedAt c)) (Some (nID c)) (query_limit (qLimit q)).
Proof.
  intros (_ & _ & _ & _ & _ & _ & Hlim) Hz Hu. unfold params_of. cbn [CursorTime CursorID filter_of with_cursor qCursor key fst snd fSeverity fSource qSeverity qSource].
  rewrite Hz, Hu. f_equal. unfold page_limit. cbn [Limit filter_of with_cursor qLimit]. replace (_ || _) with false by lia. done.
Qed.

Lemma pages_after user q rows0 ws pre c rest : (forall k, db_ok k = true) -> (forall n, n ∈ rows0 -> uuid_Parse (uuid_String (nID n)) = Some (nID n)) ->
  whole_list q -> distinct_ids rows0 -> (forall n, n ∈ rows0 -> is_zero (nCreatedAt n) = false) -> Forall (grown rows0) ws ->
  whole q rows0 = pre ++ c :: rest -> Z.of_nat (length rest) < query_limit (qLimit q) * Z.of_nat (length ws) ->
  exists evs, pages user (with_cursor (key c) q) ws = Some evs /\ map event_key evs = map key rest.
Proof.
  intros Hok Hu Hq Hd Hz Hws. revert pre c rest. induction Hws as [|w ws Hw Hws IH]; intros pre c rest Ew Hlen; [cbn in Hlen; lia|].
  assert (Hc : c ∈ rows0).
  { assert (c ∈ whole q rows0) as Hin by (rewrite Ew; set_solver). unfold whole in Hin. rewrite stable_sort_perm in Hin.
    by apply elem_of_filter_b in Hin as [? _]. }
  apply page_step; [done|done| |].
  - rewrite params_with_cursor by auto. unfold ListNotifications. cbn [pLim].
    by rewrite (after_cursor q rows0 w pre c rest (query_limit (qLimit q)) Hd Hw Ew).
  - intros pre' c' rest' -> Hpre. change (with_cursor (key c') (with_cursor (key c) q)) with (with_cursor (key c') q).
    apply (IH (pre ++ c :: pre')); [by rewrite Ew, <- app_assoc|]. rewrite length_app in Hlen. cbn [length] in Hlen.
    change (qLimit (with_cursor (key c) q)) with (qLimit q) in Hpre. pose proof Hq as (_ & _ & _ & _ & _ & _ & Hlim). nia.
Qed.

(** C10. With an explicit limit of 1 to 500, dismissed and snoozed
    notifications included and neither unread nor only-snoozed asked
    for, a client that follows the cursors of a working database sees
    every notification that was there at its first request and has the
    severity and source asked for exactly once, newest first, as long as
    what is inserted meanwhile is newer. *)
Theorem pages_show_every_event user q w ws
  (Hok : forall k, db_ok k = true)
  (Hu : forall n, n ∈ dRows (wDb w) -> uuid_Parse (uuid_String (nID n)) = Some (nID n))
  (Hq : whole_list q) (Hq0 : qCursor q = None)
  (Hd : distinct_ids (dRows (wDb w))) (Hz : forall n, n ∈ dRows (wDb w) -> is_zero (nCreatedAt n) = false)
  (Hws : Forall (grown (dRows (wDb w))) ws)
  (Hlen : Z.of_nat (length (dRows (wDb w))) < query_limit (qLimit q) * (1 + Z.of_nat (length ws))) :
  exists evs, pages user q (w :: ws) = Some evs /\
    map event_key evs = map key (stable_sort newer (List.filter (asked q) (dRows (wDb w)))).
Proof.
  fold (whole q (dRows (wDb w))). pose proof Hq as (_ & _ & _ & _ & _ & _ & Hlim). apply page_step; [done|done| |].
  - unfold params_of. cbn [CursorTime filter_of]. rewrite Hq0. change (is_zero zero_time) with true. cbn [fSeverity fSource filter_of].
    unfold ListNotifications, page_limit. cbn [pLim Limit filter_of]. replace (_ || _) with false by lia. f_equal. unfold whole. f_equal.
    apply filter_ext_in_b. intros n _. by rewrite asked_listed, andb_true_r.
  - intros pre c rest' Ew Hpre. eapply pages_after; try done. pose proof (f_equal length Ew) as HL. rewrite length_app in HL. cbn [length] in HL.
    assert (length (whole q (dRows (wDb w))) <= length (dRows (wDb w)))%nat by (unfold whole; rewrite stable_sort_perm; apply filter_length_le). nia.
Qed.

(** ** Every failed job is notified *)

Inductive op :=
| ORecord (i : RecordInput) | OList (user : gostr) (q : ListQuery) | OCount (user : gostr) | ORead (user id : gostr) | ODismiss (user id : gostr)
| OSnooze (user id : gostr) (until : Instant) | OReadAll (user : gostr) | OSubscribe | OUnsubscribe (id : Z) | OReceive (id : Z)
| OTick (alertmanagerURL : gostr) | OJobs (jobs : list JobRow) | OAudit (rows : list AuditRow).

Abbreviation tick := (tick uuid_New uuid_String clock db_ok alerts).

Definition exec (o : op) (w : World) : World :=
  match o with
  | ORecord i => (RecordEvent i w).1
  | OList user q => (h_List user q w).1
  | OCount user => (UnreadCountForUser clock db_ok user w).1
  | ORead user id => (MarkRead uuid_Parse clock db_ok user id w).1
  | ODismiss user id => (MarkDismissed uuid_Parse clock db_ok user id w).1
  | OSnooze user id until => (h_Snooze uuid_Parse clock db_ok user id until w).1
  | OReadAll user => (MarkAllRead clock db_ok user w).1
  | OSubscribe => set_bus (Subscribe (wBus w)).1 w
  | OUnsubscribe id => set_bus (Unsubscribe id (wBus w)) w
  | OReceive id => set_bus (receive id (wBus w)).1 w
  | OTick url => (tick url w).1
  | OJobs jobs => mkWorld (wDb w) (wBus w) (wCursors w) jobs (wAudit w) (S (wTicks w))
  | OAudit rows => mkWorld (wDb w) (wBus w) (wCursors w) (wJobs w) rows (S (wTicks w))
  end.

Definition is_failed (j : JobRow) : bool := str_eqb (jState j) #"failed".

(** What the rest of the program does to the jobs: a job that fails is
    finished at the time of that step, and failed rows do not change.  The
    poll reads at most 200 failed jobs. *)
Definition allowed (o : op) (w : World) : Prop :=
  match o with
  | OJobs jobs => forall j, j ∈ jobs -> is_failed j = true -> j ∈ wJobs w \/ jFinishedAt j = Some (clock (wTicks w))
  | OTick _ => (length (List.filter is_failed (wJobs w)) <= 200)%nat
  | _ => True
  end.

Definition notified (src sid : gostr) (rows : list Notification) : Prop := exists n, n ∈ rows /\ nSource n = src /\ nSourceID n = sid.
Definition job_notified (j : JobRow) (w : World) : Prop := notified SourceJobs (uuidToString (jID j)) (dRows (wDb w)).

(** Rows are only added, under new ids. *)
Definition grows (w w' : World) : Prop :=
  wJobs w' = wJobs w /\ (wTicks w <= wTicks w')%nat /\ (forall n, n ∈ dRows (wDb w) -> n ∈ dRows (wDb w')) /\
  (forall n, n ∈ dRows (wDb w') -> n ∈ dRows (wDb w) \/ exists k, (wTicks w <= k < wTicks w')%nat /\ nID n = uuid_New k).
Definition grows_kept (w w' : World) : Prop := grows w w' /\ wCursors w' !! SourceJobs = wCursors w !! SourceJobs.

#[local] Instance grows_refl : Reflexive grows.
Proof. intros w. unfold grows. split_and!; auto. Qed.
#[local] Instance grows_trans : Transitive grows.
Proof.
  intros w1 w2 w3 (J1 & T1 & K1 & N1) (J2 & T2 & K2 & N2). split_and!; [congruence|lia|auto|]. intros n Hn.
  destruct (N2 n Hn) as [H|(k & ? & ?)]; [|right; exists k; split; [lia|done]]. destruct (N1 n H) as [?|(k & ? & ?)]; [by left|].
  right. exists k. split; [lia|done].
Qed.
#[local] Instance grows_kept_refl : Reflexive grows_kept.
Proof. intros w. split; [reflexivity|done]. Qed.
#[local] Instance grows_kept_trans : Transitive grows_kept.
Proof. intros w1 w2 w3 [H1 E1] [H2 E2]. split; [by etransitivity|congruence]. Qed.

(** Reads, and writes of the states of users. *)
Lemma grows_sub w w' : wJobs w' = wJobs w -> (wTicks w <= wTicks w')%nat -> wCursors w' = wCursors w -> dRows (wDb w') = dRows (wDb w) -> grows_kept w w'.
Proof. intros HJ HT HC HR. split; [|by rewrite HC]. split_and!; [done|done|by rewrite HR|rewrite HR; by left]. Qed.

Lemma query_grows {A} (f : Instant -> World -> A) : respects grows_kept (query clock db_ok f).
Proof. intros w. apply grows_sub; try done. cbn. lia. Qed.

Lemma time_now_grows : respects grows_kept (time_now clock).
Proof. intros w. apply grows_sub; try done. cbn. lia. Qed.

Lemma statement_grows {A} (f : Instant -> Db -> option (Db * A)) : (forall t d d' a, f t d = Some (d', a) -> dRows d' = dRows d) ->
  respects grows_kept (statement clock db_ok f).
Proof.
  intros Hf w. unfold statement, call. destruct (db_ok _); [|apply grows_sub; try done; cbn; lia].
  destruct (f _ _) as [[d a]|] eqn:E; [|apply grows_sub; try done; cbn; lia]. apply grows_sub; try done; [cbn; lia|cbn]. by eapply Hf.
Qed.

Lemma upsert_rows g id user d d' u : upsert g id user d = Some (d', u) -> dRows d' = dRows d.
Proof. unfold upsert. destruct (existsb _ _); [|done]. by intros [= <- _]. Qed.

Lemma on_id_grows id f : (forall u t d d' a, f u t d = Some (d', a) -> dRows d' = dRows d) -> respects grows_kept (on_id uuid_Parse clock db_ok id f).
Proof.
  intros Hf. unfold on_id. destruct (uuid_Parse id); [|by apply respects_ret; tc_solve]. apply respects_bind; [tc_solve| |].
  - apply statement_grows. apply Hf.
  - intros. apply respects_ret. tc_solve.
Qed.

Lemma list_grows user q : respects grows_kept (h_List user q).
Proof.
  unfold NotifyCenter.Notify.h_List. repeat case_match; try (apply respects_ret; tc_solve). apply respects_bind; [tc_solve| |intros; apply respects_ret; tc_solve].
  unfold NotifyCenter.Notify.ListForUser. apply respects_bind; [tc_solve|apply query_grows|]. intros [[|r rows]|]; try (apply respects_ret; tc_solve).
  apply respects_bind; [tc_solve|apply query_grows|]. intros [states|]; [|apply respects_ret; tc_solve].
  apply respects_bind; [tc_solve|apply time_now_grows|]. intros now. apply respects_bind; [tc_solve| |intros; apply respects_ret; tc_solve].
  intros w. destruct (visible_run (filter_of q) now (state_map states) (r :: rows) w) as (w' & evs & -> & (Ed & _ & Ec & Ej & _ & Et) & _).
  cbn. apply grows_sub; [done|done|done|by rewrite Ed].
Qed.

Lemma insert_rows mk t d d' n : InsertNotification mk t d = Some (d', n) -> d' = d \/ dRows d' = dRows d ++ [mk t].
Proof. unfold InsertNotification. destruct (List.find _ _); [intros [= <- _]; by left|]. destruct (existsb _ _); [done|]. intros [= <- _]. by right. Qed.

Lemma record_grows i : respects grows_kept (RecordEvent i).
Proof.
  intros w. unfold NotifyCenter.Notify.RecordEvent. do 4 (match goal with |- context [if ?b then ret _ else _] => destruct b; [reflexivity|] end).
  unfold bind at 1, call at 1, bind at 1, statement at 1, call at 1. cbn [wTicks tick_clock wDb].
  destruct (db_ok _); [|cbn; apply grows_sub; try done; cbn; lia]. destruct (InsertNotification _ _ _) as [[d n]|] eqn:E; [|cbn; apply grows_sub; try done; cbn; lia].
  cbn. apply insert_rows in E as [->|E]; [apply grows_sub; try done; cbn; lia|]. split; [|done]. split_and!; cbn; [done|lia|rewrite E; set_solver|].
  intros m. rewrite E. intros [Hm|Hm]%elem_of_app; [by left|]. apply list_elem_of_singleton in Hm as ->. right. exists (wTicks w). cbn. split; [lia|done].
Qed.

#[local] Hint Resolve query_grows record_grows : eff.

Lemma record_returns i : returns (RecordEvent i).
Proof.
  unfold NotifyCenter.Notify.RecordEvent. do 4 (match goal with |- context [if ?b then ret _ else _] => destruct b; [apply returns_ret|] end).
  apply returns_bind; [apply returns_call|]. intros id. apply returns_bind; [apply returns_call|]. intros [row|]; [|apply returns_ret].
  apply returns_bind; [apply returns_ret|]. intros ev. apply returns_bind; [apply returns_call|intros; apply returns_ret].
Qed.

(** Every id that is taken was made before. *)
Definition ids_made (w : World) : Prop := forall n, n ∈ dRows (wDb w) -> exists k, (k < wTicks w)%nat /\ nID n = uuid_New k.

Lemma ids_made_grows w w' : grows w w' -> ids_made w -> ids_made w'.
Proof.
  intros (_ & HT & _ & HN) Hi n Hn. destruct (HN n Hn) as [H|(k & Hk & E)].
  - destruct (Hi n H) as (k & ? & ?). exists k. split; [lia|done].
  - exists k. split; [lia|done].
Qed.

Definition acceptable (i : RecordInput) : Prop :=
  Source_Valid (iSource i) = true /\ Severity_Valid (iSeverity i) = true /\ str_eqb (trim_space (iSourceID i)) [] = false /\
  str_eqb (trim_space (iTitle i)) [] = false.

Lemma job_acceptable j : acceptable (job_input j).
Proof.
  split; [done|]. split; [done|]. split; [|by apply starts_not_blank]. cbn [iSourceID job_input]. apply starts_not_blank.
  unfold uuidToString, hex_digits. cbn [seq map app]. unfold starts. apply hex_low_printable.
Qed.

Context (Hok : forall k, db_ok k = true) (Hfresh : forall k l, uuid_New k = uuid_New l -> k = l).

Lemma insert_notified mk t d : (forall m, m ∈ dRows d -> nID m <> nID (mk t)) ->
  exists d' n, InsertNotification mk t d = Some (d', n) /\ notified (nSource (mk t)) (nSourceID (mk t)) (dRows d').
Proof.
  intros Hid. unfold InsertNotification. destruct (List.find _ _) as [old|] eqn:Ef.
  - apply find_some in Ef as [Hin E]. apply andb_true_iff in E as [E1%str_eqb_eq E2%str_eqb_eq].
    eexists _, _. split; [done|]. exists old. split; [by apply list_elem_of_In|done].
  - destruct (existsb _ _) eqn:Ee.
    + apply existsb_exists in Ee as (m & Hm & E%Z.eqb_eq). apply list_elem_of_In in Hm. by apply Hid in Hm.
    + eexists _, _. split; [done|]. exists (mk t). split; [cbn; set_solver|done].
Qed.

Lemma record_notifies i w : ids_made w -> acceptable i ->
  exists w' ev, RecordEvent i w = (w', Some ev) /\ notified (iSource i) (iSourceID i) (dRows (wDb w')).
Proof.
  intros Hi (E1 & E2 & E3 & E4). unfold NotifyCenter.Notify.RecordEvent. rewrite E1, E2, E3, E4. cbn [negb].
  unfold bind at 1, call at 1, bind at 1, statement at 1, call at 1. rewrite Hok. cbn [wTicks tick_clock wDb].
  set (mk := mkRow _ _ _ _ _ _ _ _). set (t := clock (S (wTicks w))).
  destruct (insert_notified mk t (wDb w)) as (d' & n & -> & Hn).
  { intros m Hm E. destruct (Hi m Hm) as (k & Hk & E'). rewrite E' in E. cbn in E. apply Hfresh in E. lia. }
  eexists _, _. split; [reflexivity|exact Hn].
Qed.

Lemma notified_grows w w' src sid : grows w w' -> notified src sid (dRows (wDb w)) -> notified src sid (dRows (wDb w')).
Proof. intros (_ & _ & HK & _) (n & Hn & ?). exists n. split; [by apply HK|done]. Qed.

Section Poll.
Context {A : Type} (time_of : A -> option Instant) (input : A -> RecordInput).
Abbreviation record_new := (record_new uuid_New uuid_String clock db_ok time_of input).

(** A poll's loop: rows are only added, and the cursor it gives is one of
    the times, none of which is later. *)
Lemma record_new_run cursor rows : forall newest w, exists w' newest', record_new cursor newest rows w = (w', Some newest') /\ grows_kept w w' /\
  newest <= newest' /\ (newest' = newest \/ exists r, r ∈ rows /\ time_of r = Some newest') /\
  (forall r t, r ∈ rows -> time_of r = Some t -> cursor < t -> t <= newest').
Proof.
  induction rows as [|r rows IH]; intros newest w.
  { exists w, newest. split_and!; [done|reflexivity|lia|by left|set_solver]. }
  cbn [NotifyCenter.Notify.record_new].
  assert (Hskip : exists w' newest', record_new cursor newest rows w = (w', Some newest') /\ grows_kept w w' /\ newest <= newest' /\
    (newest' = newest \/ exists r0, r0 ∈ r :: rows /\ time_of r0 = Some newest') /\ (forall r0 t, r0 ∈ rows -> time_of r0 = Some t -> cursor < t -> t <= newest')).
  { destruct (IH newest w) as (w' & n' & E & G & L & [->|(r0 & ? & ?)] & H); eexists _, _; (split; [exact E|]); split_and!; try done; [by left|right; set_solver]. }
  destruct (time_of r) as [t|] eqn:Et.
  - destruct (Z.ltb_spec cursor t) as [Hct|Hct]; cbn [negb].
    + unfold bind at 1. pose proof (record_grows (input r) w) as G1. destruct (RecordEvent (input r) w) as [w1 [ev|]] eqn:Er.
      * destruct (IH (if newest <? t then t else newest) w1) as (w' & n' & -> & G & L & Hn & H). exists w', n'. split; [done|].
        split; [by etransitivity|]. split_and!; [destruct (Z.ltb_spec newest t); lia| |].
        -- destruct Hn as [->|(r0 & ? & ?)]; [|right; set_solver]. destruct (Z.ltb_spec newest t); [right; exists r; set_solver|by left].
        -- intros r0 t0 [->|Hr0]%elem_of_cons Ht0; [|by eapply H]. rewrite Et in Ht0. injection Ht0 as ->. destruct (Z.ltb_spec newest t0); lia.
      * destruct (record_returns (input r) w) as (? & ? & ?). congruence.
    + destruct Hskip as (w' & n' & E & G & L & Hn & H). exists w', n'. split_and!; [done..|].
      intros r0 t0 [->|Hr0]%elem_of_cons Ht0 ?; [|by eapply H]. rewrite Et in Ht0. injection Ht0 as ->. lia.
  - destruct Hskip as (w' & n' & E & G & L & Hn & H). exists w', n'. split_and!; [done..|].
    intros r0 t0 [->|Hr0]%elem_of_cons Ht0 ?; [congruence|by eapply H].
Qed.

Lemma record_new_notifies cursor rows : (forall r, r ∈ rows -> acceptable (input r)) -> forall newest w, ids_made w ->
  forall r t, r ∈ rows -> time_of r = Some t -> cursor < t ->
  notified (iSource (input r)) (iSourceID (input r)) (dRows (wDb (record_new cursor newest rows w).1)).
Proof.
  induction rows as [|r rows IH]; intros Hacc newest w Hi r0 t Hr0 Ht Hct; [set_solver|]. cbn [NotifyCenter.Notify.record_new].
  assert (Hacc' : forall r, r ∈ rows -> acceptable (input r)) by (intros; apply Hacc; set_solver).
  destruct (time_of r) as [t1|] eqn:Et1.
  - destruct (Z.ltb_spec cursor t1) as [Hc1|Hc1]; cbn [negb].
    + unfold bind. destruct (record_notifies (input r) w Hi) as (w1 & ev & E & Hn); [apply Hacc; set_solver|]. rewrite E.
      pose proof (record_grows (input r) w) as [G1 _]. rewrite E in G1. cbn [fst] in G1.
      apply elem_of_cons in Hr0 as [->|Hr0]; [|apply (IH Hacc' _ w1 (ids_made_grows _ _ G1 Hi) r0 t); done].
      destruct (record_new_run cursor rows (if newest <? t1 then t1 else newest) w1) as (w' & n' & E' & [G2 _] & _).
      rewrite E'. by eapply notified_grows.
    + apply elem_of_cons in Hr0 as [->|Hr0]; [|by apply (IH Hacc' newest w Hi r0 t)]. rewrite Et1 in Ht. injection Ht as ->. lia.
  - apply elem_of_cons in Hr0 as [->|Hr0]; [congruence|]. by apply (IH Hacc' newest w Hi r0 t).
Qed.
End Poll.

Context (Hclock : forall k l, (k < l)%nat -> clock k < clock l).

Lemma clock_mono k l : (k <= l)%nat -> clock k <= clock l.
Proof. intros H. destruct (decide (k = l)) as [->|?]; [done|]. apply Z.lt_le_incl, Hclock. lia. Qed.

(** Every job that failed since the start is notified, or is finished after
    the cursor. *)
Definition pending_or_notified (start : Instant) (w : World) : Prop :=
  ids_made w /\ exists c, wCursors w !! SourceJobs = Some c /\ start <= c < clock (wTicks w) /\
  forall j t, j ∈ wJobs w -> is_failed j = true -> jFinishedAt j = Some t -> t < clock (wTicks w) /\ (start < t -> c < t \/ job_notified j w).

Lemma inv_grows start w w' : grows_kept w w' -> pending_or_notified start w -> pending_or_notified start w'.
Proof.
  intros [G EC] [Hi (c & Ec & Hc & Hj)]. split; [by eapply ids_made_grows|]. pose proof G as (EJ & HT & _). apply clock_mono in HT.
  exists c. split; [congruence|]. split; [lia|]. intros j t Hin Hf Ht. rewrite EJ in Hin. destruct (Hj j t Hin Hf Ht) as [Hlt Hn]. split; [lia|].
  intros Hs. destruct (Hn Hs) as [?|?]; [by left|]. right. by eapply notified_grows.
Qed.

Lemma ListJobs_all jobs j : (length (List.filter is_failed jobs) <= 200)%nat ->
  j ∈ ListJobs 200 #"failed" jobs <-> j ∈ jobs /\ is_failed j = true.
Proof.
  intros H. unfold ListJobs. rewrite take_ge by (rewrite stable_sort_perm; done). rewrite stable_sort_perm. apply elem_of_filter_b.
Qed.

Lemma set_cursor_kept s t w : s <> SourceJobs -> grows_kept w (set_cursor s t w).
Proof. intros Hs. split; [unfold grows; cbn; split_and!; auto|]. cbn. by rewrite lookup_insert_ne. Qed.

Lemma poll_other_grows {A} (time_of : A -> option Instant) input s cursor rows : s <> SourceJobs ->
  respects grows_kept (let! newest := record_new uuid_New uuid_String clock db_ok time_of input cursor cursor rows in
                       let! _ := move_cursor s newest in ret true).
Proof.
  intros Hs w. unfold bind at 1. destruct (record_new_run time_of input cursor rows cursor w) as (w' & n' & -> & G & _).
  etransitivity; [exact G|]. unfold bind, move_cursor, call, ret. cbn [fst]. by apply set_cursor_kept.
Qed.

Lemma pollAlertmanager_grows : respects grows_kept (pollAlertmanager uuid_New uuid_String clock db_ok alerts).
Proof.
  unfold pollAlertmanager. apply respects_bind; [tc_solve|by intros w|]. intros c. apply respects_bind; [tc_solve| |].
  - intros w. apply grows_sub; try done. cbn. lia.
  - intros [als|]; [by apply poll_other_grows|apply respects_ret; tc_solve].
Qed.

Lemma pollAudit_grows : respects grows_kept (pollAudit uuid_New uuid_String clock db_ok).
Proof.
  unfold pollAudit. apply respects_bind; [tc_solve|by intros w|]. intros c. apply respects_bind; [tc_solve|apply query_grows|].
  intros [rows|]; [by apply poll_other_grows|apply respects_ret; tc_solve].
Qed.

Lemma pollJobs_run start w : pending_or_notified start w -> (length (List.filter is_failed (wJobs w)) <= 200)%nat ->
  exists w', pollJobs uuid_New uuid_String clock db_ok w = (w', Some true) /\ pending_or_notified start w' /\ wJobs w' = wJobs w /\
  forall j t, j ∈ wJobs w -> is_failed j = true -> jFinishedAt j = Some t -> start < t -> job_notified j w'.
Proof.
  intros [Hi (c & Ec & Hc & Hj)] Hlen. unfold pollJobs, cursor_of, query. unfold bind at 1, call at 1. rewrite Ec. cbn [default].
  unfold bind at 1, call at 1. rewrite Hok. set (rows := ListJobs 200 _ _). set (w1 := tick_clock w).
  assert (G1 : grows_kept w w1) by (apply grows_sub; try done; cbn; lia).
  assert (Hi1 : ids_made w1) by (eapply ids_made_grows; [apply G1|done]).
  pose proof (record_new_notifies jFinishedAt job_input c rows (fun r _ => job_acceptable r) c w1 Hi1) as Hnot.
  destruct (record_new_run jFinishedAt job_input c rows c w1) as (w2 & n' & E & [G2 _] & Hle & Hnew & _).
  change (id c) with c. unfold bind at 1. rewrite E. rewrite E in Hnot. cbn [fst] in Hnot.
  unfold bind, move_cursor, call, ret. eexists. split; [reflexivity|]. pose proof G2 as (EJ & HT & _). cbn in HT, EJ.
  assert (Hall : forall j t, j ∈ wJobs w -> is_failed j = true -> jFinishedAt j = Some t -> start < t -> job_notified j w2).
  { intros j t Hin Hf Ht Hs. destruct (Hj j t Hin Hf Ht) as [_ Hn]. destruct (Hn Hs) as [Hct|Hn'].
    - apply (Hnot j t); [by apply ListJobs_all|done|done].
    - eapply notified_grows; [exact G2|]. eapply notified_grows; [apply G1|done]. }
  split; [|by split]. split; [by eapply ids_made_grows|]. exists n'. cbn. split; [apply lookup_insert_eq|]. pose proof (clock_mono _ _ HT) as HT'.
  pose proof (Hclock (wTicks w) (S (wTicks w)) ltac:(lia)) as HS. split.
  - split; [lia|]. destruct Hnew as [->|(r & Hr & Ht)]; [lia|]. apply ListJobs_all in Hr as [Hr Hf]; [|done]. destruct (Hj r n' Hr Hf Ht). lia.
  - rewrite EJ. intros j t Hin Hf Ht. destruct (Hj j t Hin Hf Ht). split; [lia|]. intros Hs. right. by apply (Hall j t).
Qed.

Lemma tick_run start url w : pending_or_notified start w -> (length (List.filter is_failed (wJobs w)) <= 200)%nat ->
  exists w', tick url w = (w', Some tt) /\ pending_or_notified start w' /\
  forall j t, j ∈ wJobs w -> is_failed j = true -> jFinishedAt j = Some t -> start < t -> job_notified j w'.
Proof.
  intros Hinv Hlen. unfold NotifyCenter.Notify.tick. unfold bind at 1.
  assert (exists w1 b, (if str_eqb url [] then ret true else pollAlertmanager uuid_New uuid_String clock db_ok alerts) w = (w1, Some b) /\ grows_kept w w1)
    as (w1 & b & -> & G1).
  { destruct (str_eqb url []); [by eexists _, _|]. pose proof (pollAlertmanager_grows w) as G.
    unfold pollAlertmanager, cursor_of, bind, call, move_cursor, ret in *. cbv beta zeta in *. destruct (alerts (wTicks w)) as [als|]; [|eauto].
    destruct (record_new_run (fun al => Some (StartsAt al)) alert_input (default zero_time (wCursors w !! SourceAlertmanager)) als
      (default zero_time (wCursors w !! SourceAlertmanager)) (tick_clock w)) as (w' & n' & E & _). rewrite E in *. eauto. }
  pose proof G1 as [(EJ & _) _]. destruct (pollJobs_run start w1) as (w2 & E2 & I2 & EJ2 & H2); [by eapply inv_grows|by rewrite EJ|].
  unfold bind at 1. rewrite E2. pose proof (pollAudit_grows w2) as G3. unfold bind.
  destruct (pollAudit _ _ _ _ w2) as [w3 [b3|]] eqn:E3; cbn [fst] in G3.
  - eexists. split; [reflexivity|]. split; [by eapply inv_grows|]. intros j t Hin Hf Ht Hs. eapply notified_grows; [apply G3|].
    apply (H2 j t); [by rewrite EJ|done..].
  - exfalso. revert E3. unfold pollAudit, cursor_of, query, bind, call, move_cursor, ret. cbv beta zeta. rewrite Hok.
    destruct (record_new_run aTs audit_input (default zero_time (wCursors w2 !! SourceAudit))
      (SearchAudit 200 #"rejected" (default zero_time (wCursors w2 !! SourceAudit)) (wAudit w2))
      (default zero_time (wCursors w2 !! SourceAudit)) (tick_clock w2)) as (w' & n' & -> & _). done.
Qed.

(** What happens from the start of the process on. *)
Inductive runs (w0 : World) : World -> Prop :=
| runs_start : runs w0 (NewAggregator clock w0).1
| runs_step w o : runs w0 w -> allowed o w -> runs w0 (exec o w).

Definition at_start (w0 : World) : Prop :=
  ids_made w0 /\ forall j t, j ∈ wJobs w0 -> is_failed j = true -> jFinishedAt j = Some t -> t <= clock (wTicks w0).

Lemma center_inv_start w0 : at_start w0 -> pending_or_notified (clock (wTicks w0)) (NewAggregator clock w0).1.
Proof.
  intros [Hi Hj]. pose proof (Hclock (wTicks w0) (S (wTicks w0)) ltac:(lia)) as HS. split.
  - intros n Hn. destruct (Hi n Hn) as (k & ? & ?). exists k. cbn. split; [lia|done].
  - exists (clock (wTicks w0)). split; [reflexivity|]. cbn. split; [lia|]. intros j t Hin Hf Ht. specialize (Hj j t Hin Hf Ht). lia.
Qed.

Lemma center_inv_step start w o : allowed o w -> pending_or_notified start w -> pending_or_notified start (exec o w).
Proof.
  intros Ha Hinv. destruct o; cbn [exec].
  - eapply inv_grows; [apply record_grows|done].
  - eapply inv_grows; [apply list_grows|done].
  - eapply inv_grows; [apply query_grows|done].
  - eapply inv_grows; [apply on_id_grows|done]. intros u t d d' a. apply upsert_rows.
  - eapply inv_grows; [apply on_id_grows|done]. intros u t d d' a. apply upsert_rows.
  - unfold h_Snooze. destruct (is_zero until); [done|]. eapply inv_grows; [|done].
    apply (respects_bind grows_kept); [apply on_id_grows; intros u t d d' a; apply upsert_rows|]. intros. apply respects_ret. tc_solve.
  - eapply inv_grows; [|done]. apply (respects_bind grows_kept); [apply statement_grows; by intros t d d' a [= <- _]|].
    intros. apply respects_ret. tc_solve.
  - eapply inv_grows; [by apply grows_sub|done].
  - eapply inv_grows; [by apply grows_sub|done].
  - eapply inv_grows; [by apply grows_sub|done].
  - destruct (tick_run start alertmanagerURL w Hinv Ha) as (w' & -> & H & _). done.
  - destruct Hinv as [Hi (c & Ec & Hc & Hj)]. pose proof (Hclock (wTicks w) (S (wTicks w)) ltac:(lia)) as HS. split.
    + intros n Hn. destruct (Hi n Hn) as (k & ? & ?). exists k. cbn. split; [lia|done].
    + exists c. cbn. split; [done|]. split; [lia|]. intros j t Hin Hf Ht. destruct (Ha j Hin Hf) as [Hold|Hnew].
      * destruct (Hj j t Hold Hf Ht). split; [lia|done].
      * rewrite Ht in Hnew. injection Hnew as ->. split; [lia|]. left. lia.
  - apply (inv_grows start w); [apply grows_sub; try done; cbn; lia|done].
Qed.

(** C9. With a working database, ids that do not repeat, a clock that
    advances and at most 200 failed jobs at a time, every job that failed
    since the start of the process has a notification after the next tick,
    whatever users, other sources and the alert manager do in between. *)
Theorem failed_jobs_are_notified w0 w url (Hw0 : at_start w0) (Hw : runs w0 w) (Hlen : allowed (OTick url) w) :
  exists w', tick url w = (w', Some tt) /\
  forall j t, j ∈ wJobs w -> is_failed j = true -> jFinishedAt j = Some t -> clock (wTicks w0) < t -> job_notified j w'.
Proof.
  assert (Hinv : pending_or_notified (clock (wTicks w0)) w) by (clear Hlen; induction Hw; [by apply center_inv_start|by apply center_inv_step]).
  destruct (tick_run _ url w Hinv Hlen) as (w' & E & _ & H). by exists w'.
Qed.
End Correct.

(** ** A small center *)

Module SmallCenter.
Definition new_id (k : nat) : Z := Z.of_nat k.
Definition id_string (i : Z) : gostr := Retention.formatInt i.
Definition id_parse : gostr -> option Z := atoi.
Definition small_clock (k : nat) : Instant := 1000 + Z.of_nat k.
Definition works (k : nat) : bool := true.
Definition no_alerts (k : nat) : option (list Alert) := None.

Definition job (id : Z) (fin : Instant) : JobRow := mkJobRow id #"pool.scrub" #"tank" #"failed" (Some #"no such pool") 900 (Some fin).
Definition empty_center : World := mkWorld (mkDb [] ∅) NewBus ∅ [] [] 0.
Definition started : World := (NewAggregator small_clock empty_center).1.
Definition one_failed : World := exec new_id id_string id_parse small_clock works no_alerts (OJobs [job 7 1001]) started.

Lemma failed_jobs_are_notified_witness : job_notified (job 7 1001) (tick new_id id_string small_clock works no_alerts [] one_failed).1.
Proof.
  destruct (failed_jobs_are_notified new_id id_string id_parse small_clock works no_alerts (fun _ => eq_refl)
    ltac:(intros k l H; unfold new_id in H; lia) ltac:(intros k l H; unfold small_clock; lia) empty_center one_failed [])
    as (w' & E & H).
  - split; [intros n Hn; by apply elem_of_nil in Hn|intros j t Hj; by apply elem_of_nil in Hj].
  - apply (runs_step new_id id_string id_parse small_clock works no_alerts empty_center started); [apply runs_start|].
    intros j Hj _. right. apply list_elem_of_singleton in Hj as ->. reflexivity.
  - vm_compute. lia.
  - rewrite E. cbn [fst]. apply (H (job 7 1001) 1001); [by left|reflexivity|reflexivity|vm_compute; reflexivity].
Defined.

Definition row (i t : Z) : Notification := mkRow i None SourceJobs (id_string i) SeverityWarning #"Job failed" [] [] t.
Definition three : World := mkWorld (mkDb [row 1 10; row 2 20; row 3 20] ∅) NewBus ∅ [] [] 0.
Definition four : World := mkWorld (mkDb [row 1 10; row 2 20; row 3 20; row 4 30] ∅) NewBus ∅ [] [] 5.
Definition by_two : ListQuery := mkQuery [] #"jobs" [] #"true" #"true" [] #"2" None.

(** Two pages of two; a notification that arrives between them does not
    disturb the second. *)
Lemma pages_show_every_event_witness : exists evs, pages id_string id_parse small_clock works #"ann" by_two [three; four] = Some evs /\
  map event_key evs = [(20, #"3"); (20, #"2"); (10, #"1")].
Proof.
  destruct (pages_show_every_event id_string id_parse small_clock works #"ann" by_two three [four]) as (evs & E & K).
  - done.
  - intros n Hn. repeat (apply elem_of_cons in Hn as [->|Hn]; [reflexivity|]). by apply elem_of_nil in Hn.
  - split_and!; try reflexivity; [by left|by right|by vm_compute].
  - reflexivity.
  - by_dec.
  - intros n Hn. repeat (apply elem_of_cons in Hn as [->|Hn]; [reflexivity|]). by apply elem_of_nil in Hn.
  - constructor; [|constructor]. exists [row 4 30]. split; [reflexivity|]. split; [by_dec|].
    intros n m Hn Hm. apply list_elem_of_singleton in Hn as ->.
    repeat (apply elem_of_cons in Hm as [->|Hm]; [reflexivity|]). by apply elem_of_nil in Hm.
  - vm_compute. reflexivity.
  - exists evs. split; [exact E|]. rewrite K. vm_compute. reflexivity.
Defined.
End SmallCenter.

(** ** Where it falls short *)

Section Short.
Import SmallCenter.

(** The database refuses the insert of one poll: the cursor moves on, and
    the later polls, which all succeed, never notify the job. *)
Lemma failed_insert_loses_event :
  let ok k := negb (Nat.eqb k 4) in let poll := pollJobs new_id id_string small_clock ok in
  let w1 := (poll one_failed).1 in let w2 := (poll w1).1 in
  (poll w1).2 = Some true /\ dRows (wDb w2) = [] /\ wCursors w2 !! SourceJobs = Some 1001.
Proof. vm_compute. done. Qed.

(** The newest events are dismissed: a page that could show two shows none
    and ends the listing, while the badge counts an older one. *)
Lemma dismissed_events_end_the_listing :
  let d := mkUserRow (Some 50) (Some 50) None in
  let w := mkWorld (mkDb [row 1 10; row 2 20; row 3 20] {[(2, #"ann") := d; (3, #"ann") := d]}) NewBus ∅ [] [] 0 in
  (h_List id_string id_parse small_clock works #"ann" (mkQuery [] [] [] [] [] [] #"2" None) w).2 = Some (Page [] None) /\
  (UnreadCountForUser small_clock works #"ann" w).2 = Some (Some 1).
Proof. vm_compute. done. Qed.

(** Without a limit the page has the default size and never a cursor. *)
Definition many : World := mkWorld (mkDb (map (fun k => row (Z.of_nat k) 10) (seq 1 60)) ∅) NewBus ∅ [] [] 0.
Lemma default_page_has_no_cursor : exists items, (h_List id_string id_parse small_clock works #"ann" (mkQuery [] [] [] [] [] [] [] None) many).2 =
  Some (Page items None) /\ length items = 50%nat.
Proof. vm_compute. eexists. split; reflexivity. Qed.

(** An event that is recorded again, as an alert that fires again with its
    fingerprint is, gives the row of the first time: a user who dismissed
    that one sees nothing. *)
Lemma repeated_alert_keeps_row i :
  iSource i = SourceJobs -> iSourceID i = id_string 1 -> acceptable i ->
  exists w' ev, RecordEvent new_id id_string small_clock works i three = (w', Some (Ok ev)) /\ dRows (wDb w') = dRows (wDb three).
Proof.
  intros E1 E2 (H1 & H2 & H3 & H4). unfold Notify.RecordEvent. rewrite H1, H2, H3, H4. cbn [negb]. rewrite E1, E2.
  unfold bind, call, statement. cbn. eexists _, _. split; [reflexivity|]. reflexivity.
Qed.
End Short.
