(* ===== verification/Iscsi.v ===== *)
(** * internal/host/iscsi: iSCSI targets through targetcli

    The checks of the caller's values, the argument vectors, the
    operations and the parser of the tree targetcli prints; that targetcli
    reads every command as the request, and that a target is read back as
    it was printed. *)

From S2P Require Import Prelude GoStrings GoText GoNet Effects HostExec Samba NvmeOfSave.

Module Iscsi.

Record Target := mkTarget { IQN : gostr }.
Record Portal := mkPortal { IP : gostr; Port : Z; Transport : gostr }.
Record LUN := mkLUN { lunID : Z; Zvol : gostr; Backstore : gostr }.
Record ACL := mkACL { InitiatorIQN : gostr; CHAPUser : gostr; CHAPSecret : gostr }.
Record TargetDetail := mkDetail { dTarget : Target; dPortals : list Portal; dLUNs : list LUN; dACLs : list ACL }.

Inductive iscsi_err :=
| BadBackstore | BadDevPath | BadIQN | BadIP | BadPort | BadTransport | BadLUN | BadCHAP | BadSecretLength | Host (e : HostError).

(** ** Checks.  Every rune that is looked for is one byte. *)

Definition validateNoDash (v : gostr) : bool := negb (has_prefix v #"-").
Definition one_of_bytes (set : gostr) (c : ascii) : bool := contains_byte c set.
Definition white (c : ascii) : bool := one_of_bytes (" "%char :: enc [9; 10; 13]) c.
Definition validateNoWhitespace (v : gostr) : bool := forallb (fun c => negb (white c)) v.
Definition alnum (c : ascii) : bool := is_lower c || is_upper c || is_digit c.

Definition validateBackstoreName (name : gostr) : res iscsi_err unit :=
  ensure negb (str_eqb name []) else BadBackstore ;;
  ensure validateNoDash name else BadBackstore ;;
  ensure forallb (fun c => alnum c || one_of_bytes #"_-." c) name else BadBackstore ;; Ok tt.

Definition control (c : ascii) : bool := (byte_val c <? 32) || (byte_val c =? 127).
(** The quotation mark is byte 34. *)
Definition metacharacters : gostr := #";|&$`\'<>*?(){}[]" ++ enc [34].

Definition validateDevPath (p : gostr) : res iscsi_err unit :=
  ensure has_prefix p #"/dev/zvol/" else BadDevPath ;;
  ensure validateNoDash p else BadDevPath ;;
  ensure validateNoWhitespace p else BadDevPath ;;
  ensure forallb (fun c => negb (control c) && negb (one_of_bytes metacharacters c)) p else BadDevPath ;; Ok tt.

Definition validateIQN (iqn : gostr) : res iscsi_err unit :=
  ensure has_prefix iqn #"iqn." else BadIQN ;;
  ensure validateNoDash iqn else BadIQN ;;
  ensure forallb (fun c => alnum c || one_of_bytes #".-:" c) iqn else BadIQN ;; Ok tt.

Definition validatePortal (p : Portal) : res iscsi_err unit :=
  ensure match ParseIP (IP p) with Some _ => true | None => false end else BadIP ;;
  ensure negb ((Port p <? 1) || (65535 <? Port p)) else BadPort ;;
  ensure existsb (str_eqb (Transport p)) [ []; #"tcp"; #"iser"] else BadTransport ;; Ok tt.

Definition validateCHAPField (v : gostr) : res iscsi_err unit :=
  ensure negb (str_eqb v []) else BadCHAP ;;
  ensure forallb (fun c => negb (control c) && negb (one_of_bytes (" "%char :: "="%char :: metacharacters) c)) v else BadCHAP ;; Ok tt.

(** ** Argument vectors *)

Definition buildCreateBackstoreArgs (name devPath : gostr) : res iscsi_err (list gostr) :=
  let? _ := validateBackstoreName name in let? _ := validateDevPath devPath in
  Ok [ #"/backstores/block"; #"create"; #"name=" ++ name; #"dev=" ++ devPath].
Definition buildDeleteBackstoreArgs (name : gostr) : res iscsi_err (list gostr) :=
  let? _ := validateBackstoreName name in Ok [ #"/backstores/block"; #"delete"; #"name=" ++ name].
Definition buildCreateTargetArgs (iqn : gostr) : res iscsi_err (list gostr) :=
  let? _ := validateIQN iqn in Ok [ #"/iscsi"; #"create"; #"wwn=" ++ iqn].
Definition buildDeleteTargetArgs (iqn : gostr) : res iscsi_err (list gostr) :=
  let? _ := validateIQN iqn in Ok [ #"/iscsi"; #"delete"; #"wwn=" ++ iqn].
Definition buildListTargetsArgs : list gostr := [ #"/iscsi"; #"ls"; #"depth=1"].
Definition buildGetTargetArgs (iqn : gostr) : res iscsi_err (list gostr) :=
  let? _ := validateIQN iqn in Ok [ #"/iscsi/" ++ iqn; #"ls"].
Definition buildCreatePortalArgs (iqn : gostr) (p : Portal) : res iscsi_err (list gostr) :=
  let? _ := validateIQN iqn in let? _ := validatePortal p in
  Ok [ #"/iscsi/" ++ iqn ++ #"/tpg1/portals"; #"create"; #"ip_address=" ++ IP p; #"ip_port=" ++ print_int (Port p)].
Definition buildEnableIserArgs (iqn : gostr) (p : Portal) : res iscsi_err (list gostr) :=
  let? _ := validateIQN iqn in let? _ := validatePortal p in
  Ok [ #"/iscsi/" ++ iqn ++ #"/tpg1/portals/" ++ IP p ++ #":" ++ print_int (Port p); #"enable_iser"; #"true"].
Definition buildDeletePortalArgs (iqn : gostr) (p : Portal) : res iscsi_err (list gostr) :=
  let? _ := validateIQN iqn in let? _ := validatePortal p in
  Ok [ #"/iscsi/" ++ iqn ++ #"/tpg1/portals"; #"delete"; #"ip_address=" ++ IP p; #"ip_port=" ++ print_int (Port p)].
Definition buildCreateLUNArgs (iqn : gostr) (lun : LUN) : res iscsi_err (list gostr) :=
  let? _ := validateIQN iqn in
  ensure negb (lunID lun <? 0) else BadLUN ;;
  let? _ := validateBackstoreName (Backstore lun) in
  Ok [ #"/iscsi/" ++ iqn ++ #"/tpg1/luns"; #"create"; #"storage_object=/backstores/block/" ++ Backstore lun; #"lun=" ++ print_int (lunID lun)].
Definition buildDeleteLUNArgs (iqn : gostr) (id : Z) : res iscsi_err (list gostr) :=
  let? _ := validateIQN iqn in
  ensure negb (id <? 0) else BadLUN ;; Ok [ #"/iscsi/" ++ iqn ++ #"/tpg1/luns"; #"delete"; print_int id].
Definition buildCreateACLArgs (iqn : gostr) (acl : ACL) : res iscsi_err (list gostr) :=
  let? _ := validateIQN iqn in let? _ := validateIQN (InitiatorIQN acl) in
  Ok [ #"/iscsi/" ++ iqn ++ #"/tpg1/acls"; #"create"; #"wwn=" ++ InitiatorIQN acl].
Definition buildSetCHAPUserArgs (iqn : gostr) (acl : ACL) : res iscsi_err (list gostr) :=
  let? _ := validateIQN iqn in let? _ := validateIQN (InitiatorIQN acl) in let? _ := validateCHAPField (CHAPUser acl) in
  Ok [ #"/iscsi/" ++ iqn ++ #"/tpg1/acls/" ++ InitiatorIQN acl; #"set"; #"auth"; #"userid=" ++ CHAPUser acl].
Definition buildSetCHAPPasswordArgs (iqn : gostr) (acl : ACL) : res iscsi_err (list gostr) :=
  let? _ := validateIQN iqn in let? _ := validateIQN (InitiatorIQN acl) in let? _ := validateCHAPField (CHAPSecret acl) in
  ensure negb ((length (CHAPSecret acl) <? 12)%nat || (16 <? length (CHAPSecret acl))%nat) else BadSecretLength ;;
  Ok [ #"/iscsi/" ++ iqn ++ #"/tpg1/acls/" ++ InitiatorIQN acl; #"set"; #"auth"; #"password=" ++ CHAPSecret acl].
Definition buildDeleteACLArgs (iqn initiator : gostr) : res iscsi_err (list gostr) :=
  let? _ := validateIQN iqn in let? _ := validateIQN initiator in
  Ok [ #"/iscsi/" ++ iqn ++ #"/tpg1/acls"; #"delete"; #"wwn=" ++ initiator].
Definition buildSaveConfigArgs : list gostr := [ #"saveconfig"].

(** ** The tree targetcli prints *)

(** strings.Index of a text: what is before its first occurrence and what
    is after it. *)
Fixpoint cut_sub (sub s : gostr) : option (gostr * gostr) :=
  match strip_prefix sub s with
  | Some r => Some ([], r)
  | None => match s with
            | [] => None
            | c :: s' => match cut_sub sub s' with Some (l, r) => Some (c :: l, r) | None => None end
            end
  end.

Definition parseTreeLine (line : gostr) : option (Z * gostr) :=
  match cut_sub #"o- " line with
  | None => None
  | Some (before, rest) =>
      let rest := match cut_sub #" ." rest with Some (l, _) => l | None => rest end in
      let rest := trim_space rest in
      if str_eqb rest [] then None else Some (Z.of_nat (length before), rest)
  end.

Definition parseTargetList (data : gostr) : list Target :=
  omap (fun line => match parseTreeLine line with
                    | Some (_, name) => if has_prefix name #"iqn." then Some (mkTarget name) else None
                    | None => None
                    end) (split_on newline data).

(** The annotation between the last opening bracket and the closing one
    after it. *)
Definition parseLUNLine (name fullLine : gostr) : option LUN :=
  match strip_prefix #"lun" name with
  | None => None
  | Some idStr =>
      match atoi idStr with
      | None => None
      | Some id =>
          let plain := mkLUN id [] [] in
          Some (match cut_last "["%char fullLine with
                | None => plain
                | Some (_, after) =>
                    match cut_at "]"%char after with
                    | None => plain
                    | Some (info, _) =>
                        match strip_prefix #"block/" info with
                        | None => plain
                        | Some rest =>
                            match cut_at " "%char rest with
                            | Some ((_ :: _) as bs, more) =>
                                match cut_at "("%char (" "%char :: more) with
                                | Some (_, zvol) => match cut_at ")"%char zvol with Some (z, _) => mkLUN id z bs | None => mkLUN id [] bs end
                                | None => mkLUN id [] bs
                                end
                            | _ => mkLUN id [] rest
                            end
                        end
                    end
                end)
      end
  end.

Definition parsePortalName (name : gostr) : option Portal :=
  let split :=
    match strip_prefix #"[" name with
    | Some inner =>
        match cut_at "]"%char inner with
        | None => None
        | Some (host, rest) => Some (host, match strip_prefix #":" rest with Some p => p | None => [] end)
        end
    | None => match cut_last ":"%char name with Some hp => Some hp | None => Some (name, []) end
    end in
  match split with
  | None => None
  | Some (host, port) =>
      if str_eqb host [] || str_eqb port [] then None
      else match atoi port with Some pn => Some (mkPortal host pn #"tcp") | None => None end
  end.

(** The loop over the lines: the section the next leaves are in, and what
    was found. *)
Definition no_detail : TargetDetail := mkDetail (mkTarget []) [] [] [].

Definition detail_line (st : gostr * TargetDetail) (line : gostr) : gostr * TargetDetail :=
  let '(section, d) := st in
  match parseTreeLine line with
  | None => st
  | Some (_, name) =>
      let low := Smb.to_lower name in
      if existsb (str_eqb low) [ #"acls"; #"luns"; #"portals"] then (low, d)
      else if has_prefix name #"iqn." && str_eqb section [] then st
      else if has_prefix name #"tpg" then ([], d)
      else if str_eqb section #"acls" then
        if has_prefix name #"iqn." then (section, mkDetail (dTarget d) (dPortals d) (dLUNs d) (dACLs d ++ [mkACL name [] []])) else st
      else if str_eqb section #"luns" then
        match parseLUNLine name line with
        | Some lun => (section, mkDetail (dTarget d) (dPortals d) (dLUNs d ++ [lun]) (dACLs d)) | None => st end
      else if str_eqb section #"portals" then
        match parsePortalName name with
        | Some p => (section, mkDetail (dTarget d) (dPortals d ++ [p]) (dLUNs d) (dACLs d)) | None => st end
      else st
  end.

Definition parseTargetDetail (data : gostr) : TargetDetail := (fold_left detail_line (split_on newline data) ([], no_detail)).2.

(** ** Operations *)

Section Manager.
Context {W : Type} `{HostExec W} (bin : gostr).

Definition run (args : list gostr) : M W (res iscsi_err gostr) :=
  let! r := call (Run bin args) in ret (match r with Ok out => Ok out | Err e => Err (Host e) end).

(** Manager.bin. *)
Definition bin_of (TargetcliBin : gostr) : gostr := if str_eqb TargetcliBin [] then #"/usr/bin/targetcli" else TargetcliBin.

(** Build, then run. *)
Definition run_built (args : res iscsi_err (list gostr)) : M W (res iscsi_err gostr) :=
  match args with Ok a => run a | Err e => ret (Err e) end.

Definition CreateBackstore (name devPath : gostr) := run_built (buildCreateBackstoreArgs name devPath).
Definition DeleteBackstore (name : gostr) := run_built (buildDeleteBackstoreArgs name).

(** The portal that targetcli adds by itself is removed if it is there. *)
Definition CreateTarget (iqn : gostr) : M W (res iscsi_err gostr) :=
  let! r := run_built (buildCreateTargetArgs iqn) in
  match r with
  | Err e => ret (Err e)
  | Ok out => let! _ := run [ #"/iscsi/" ++ iqn ++ #"/tpg1/portals"; #"delete"; #"ip_address=0.0.0.0"; #"ip_port=3260"] in ret (Ok out)
  end.

Definition DeleteTarget (iqn : gostr) := run_built (buildDeleteTargetArgs iqn).

Definition ListTargets : M W (res iscsi_err (list Target)) :=
  let! r := run buildListTargetsArgs in ret (match r with Ok out => Ok (parseTargetList out) | Err e => Err e end).

Definition blank_secret (a : ACL) : ACL := mkACL (InitiatorIQN a) (CHAPUser a) [].

Definition GetTarget (iqn : gostr) : M W (res iscsi_err TargetDetail) :=
  let! r := run_built (buildGetTargetArgs iqn) in
  ret (match r with
       | Ok out => let d := parseTargetDetail out in Ok (mkDetail (mkTarget iqn) (dPortals d) (dLUNs d) (map blank_secret (dACLs d)))
       | Err e => Err e
       end).

Definition CreatePortal (iqn : gostr) (p : Portal) : M W (res iscsi_err gostr) :=
  let! r := run_built (buildCreatePortalArgs iqn p) in
  match r with
  | Err e => ret (Err e)
  | Ok out => if str_eqb (Transport p) #"iser" then run_built (buildEnableIserArgs iqn p) else ret (Ok out)
  end.

Definition DeletePortal (iqn : gostr) (p : Portal) := run_built (buildDeletePortalArgs iqn p).
Definition CreateLUN (iqn : gostr) (lun : LUN) := run_built (buildCreateLUNArgs iqn lun).
Definition DeleteLUN (iqn : gostr) (id : Z) := run_built (buildDeleteLUNArgs iqn id).

(** Both halves of the credentials are checked before anything runs. *)
Definition CreateACL (iqn : gostr) (acl : ACL) : M W (res iscsi_err gostr) :=
  let chap := negb (str_eqb (CHAPUser acl) []) || negb (str_eqb (CHAPSecret acl) []) in
  match buildCreateACLArgs iqn acl with
  | Err e => ret (Err e)
  | Ok args =>
      if chap then
        match buildSetCHAPUserArgs iqn acl with
        | Err e => ret (Err e)
        | Ok userArgs =>
            match buildSetCHAPPasswordArgs iqn acl with
            | Err e => ret (Err e)
            | Ok pwArgs =>
                let! r := run args in
                match r with
                | Err e => ret (Err e)
                | Ok _ => let! r := run userArgs in match r with Err e => ret (Err e) | Ok _ => run pwArgs end
                end
            end
        end
      else run args
  end.

Definition DeleteACL (iqn initiator : gostr) := run_built (buildDeleteACLArgs iqn initiator).
Definition SaveConfig : M W (res iscsi_err gostr) := run buildSaveConfigArgs.
End Manager.
End Iscsi.
Import Iscsi.

(** ** How targetcli reads its arguments

    The words of the command line, which it joins with blanks: the path of
    a node, a command and its parameters, by name or by position. *)

Record Cli := mkCli { cPath : list gostr; cCommand : gostr; cParams : list (option gostr * gostr) }.

Definition param_of (w : gostr) : option gostr * gostr := match cut_at "="%char w with Some (k, v) => (Some k, v) | None => (None, w) end.

Definition targetcli (args : list gostr) : option Cli :=
  match split_on " "%char (join_with " "%char args) with
  | [] => None
  | w :: ws =>
      match strip_prefix #"/" w, ws with
      | Some path, cmd :: ps => Some (mkCli (split_on "/"%char path) cmd (map param_of ps))
      | Some _, [] => None
      | None, ps => Some (mkCli [] w (map param_of ps))
      end
  end.

Definition print_param (p : option gostr * gostr) : gostr := match p.1 with Some k => k ++ "="%char :: p.2 | None => p.2 end.
Definition print_cli (c : Cli) : list gostr :=
  match cPath c with
  | [] => cCommand c :: map print_param (cParams c)
  | path => ("/"%char :: join_with "/"%char path) :: cCommand c :: map print_param (cParams c)
  end.

Definition no_blank (s : gostr) : bool := negb (contains_byte " "%char s).
Definition seg_ok (s : gostr) : bool := no_blank s && negb (contains_byte "/"%char s).
Definition param_ok (p : option gostr * gostr) : bool :=
  no_blank p.2 && match p.1 with Some k => no_blank k && negb (contains_byte "="%char k) | None => negb (contains_byte "="%char p.2) end.
Definition cli_ok (c : Cli) : bool :=
  forallb seg_ok (cPath c) && no_blank (cCommand c) && negb (has_prefix (cCommand c) #"/") && forallb param_ok (cParams c).

Lemma contains_byte_false c s : negb (contains_byte c s) = true <-> c ∉ s.
Proof. rewrite negb_true_iff, <- not_true_iff_false, contains_byte_iff. done. Qed.

Lemma join_no_sep a c ws : a <> c -> Forall (fun w => a ∉ w) ws -> a ∉ join_with c ws.
Proof.
  intros Hac. induction 1 as [|w ws Hw Hws IH]; [set_solver|]. destruct ws as [|w' ws]; [done|].
  change (join_with c (w :: w' :: ws)) with (w ++ c :: join_with c (w' :: ws)). rewrite elem_of_app, elem_of_cons. naive_solver.
Qed.

Lemma print_param_ok p : param_ok p = true -> " "%char ∉ print_param p /\ param_of (print_param p) = p.
Proof.
  destruct p as [[k|] v]; unfold param_ok, print_param, param_of; cbn [fst snd].
  - intros [Hv%contains_byte_false [Hk%contains_byte_false He%contains_byte_false]%andb_true_iff]%andb_true_iff. split.
    + rewrite elem_of_app, elem_of_cons. naive_solver.
    + rewrite (proj2 (cut_at_Some "="%char (k ++ "="%char :: v) k v)); done.
  - intros [Hv%contains_byte_false He%contains_byte_false]%andb_true_iff. split; [done|]. by rewrite (proj2 (cut_at_None "="%char v)).
Qed.

(** A command printed word by word is read as itself. *)
Lemma targetcli_reads c : cli_ok c = true -> targetcli (print_cli c) = Some c.
Proof.
  unfold cli_ok. rewrite !andb_true_iff. intros [[[Hp Hc%contains_byte_false] Hs] Hps]. rewrite forallb_forall in Hp, Hps.
  assert (Hpw : Forall (fun w => " "%char ∉ w) (map print_param (cParams c))).
  { apply Forall_forall. intros w (p & -> & Hin)%list_elem_of_fmap. by apply print_param_ok, Hps, list_elem_of_In. }
  assert (Hback : map param_of (map print_param (cParams c)) = cParams c).
  { rewrite map_map. rewrite <- (map_id (cParams c)) at 2. apply map_ext_in. intros p Hin. by apply print_param_ok, Hps. }
  unfold targetcli, print_cli. destruct (cPath c) as [|g gs] eqn:Ep.
  - rewrite split_join by (done || by constructor). rewrite Hback. apply negb_true_iff in Hs. unfold has_prefix in Hs.
    destruct (strip_prefix #"/" (cCommand c)); [done|]. rewrite <- Ep. by destruct c.
  - assert (Hg : Forall (fun w => " "%char ∉ w /\ "/"%char ∉ w) (g :: gs)).
    { apply Forall_forall. intros w Hw%list_elem_of_In%Hp. apply andb_true_iff in Hw as [?%contains_byte_false ?%contains_byte_false]. done. }
    rewrite split_join; [|done|].
    + change (strip_prefix #"/" ("/"%char :: join_with "/"%char (g :: gs))) with (Some (join_with "/"%char (g :: gs))). cbv beta iota.
      rewrite split_join; [|done|eapply Forall_impl; [exact Hg|naive_solver]]. rewrite Hback, <- Ep. by destruct c.
    + constructor; [|by constructor]. apply not_elem_of_cons. split; [done|]. apply join_no_sep; [done|]. eapply Forall_impl; [exact Hg|]. naive_solver.
Qed.

(** ** What the checks let through *)

Lemma forallb_no p c s : (forall a, p a = true -> a <> c) -> forallb p s = true -> negb (contains_byte c s) = true.
Proof. intros Hp Hs. apply contains_byte_false. intros Hin. rewrite forallb_forall in Hs. by eapply Hp; [apply Hs, list_elem_of_In|]. Qed.

Lemma iqn_chars iqn u : validateIQN iqn = Ok u -> forall c, c ∈ [" "; "/"; "="]%char -> negb (contains_byte c iqn) = true.
Proof.
  unfold validateIQN. intros Hv c Hc. repeat case_match; try done. eapply forallb_no; [|eassumption]. intros a Ha ->.
  repeat (apply elem_of_cons in Hc as [->|Hc]; [done|]). set_solver.
Qed.

Lemma backstore_chars n u : validateBackstoreName n = Ok u -> forall c, c ∈ [" "; "/"; "="]%char -> negb (contains_byte c n) = true.
Proof.
  unfold validateBackstoreName. intros Hv c Hc. repeat case_match; try done. eapply forallb_no; [|eassumption]. intros a Ha ->.
  repeat (apply elem_of_cons in Hc as [->|Hc]; [done|]). set_solver.
Qed.

Lemma dev_no_blank p u : validateDevPath p = Ok u -> no_blank p = true.
Proof.
  unfold validateDevPath. destruct (has_prefix _ _), (validateNoDash p), (validateNoWhitespace p) eqn:E; try done. intros _.
  eapply forallb_no; [|exact E]. by intros a Ha ->.
Qed.

Lemma chap_no_blank v u : validateCHAPField v = Ok u -> no_blank v = true.
Proof. unfold validateCHAPField. intros Hv. repeat case_match; try done. eapply forallb_no; [|eassumption]. by intros a Ha ->. Qed.

Lemma addr_no c s : addr_char c = false -> Forall (fun a => addr_char a = true) s -> negb (contains_byte c s) = true.
Proof. intros Hc Hs. apply contains_byte_false. intros Hin. rewrite Forall_forall in Hs. by rewrite (Hs c Hin) in Hc. Qed.

Lemma ip_chars p u : validatePortal p = Ok u -> forall c, c ∈ [" "; "/"; "="]%char -> negb (contains_byte c (IP p)) = true.
Proof.
  unfold validatePortal. destruct (ParseIP (IP p)) eqn:E; [|done]. apply ParseAddr_chars in E as [_ Hc]. intros _ c Hin. apply addr_no; [|done].
  repeat (apply elem_of_cons in Hin as [->|Hin]; [done|]). set_solver.
Qed.

Lemma port_range p u : validatePortal p = Ok u -> 1 <= Port p <= 65535.
Proof. unfold validatePortal. destruct (ParseIP (IP p)); [|done]. destruct (negb _) eqn:Ep; [|done]. intros _. lia. Qed.

Lemma print_int_no c n : 0 <= n -> is_digit c = false -> negb (contains_byte c (print_int n)) = true.
Proof. intros Hn Hc. unfold print_int. replace (n <? 0) with false by lia. apply contains_byte_false, digits_no; [done|apply print_uint_digits]. Qed.

Lemma contains_byte_app c s t : contains_byte c (s ++ t) = contains_byte c s || contains_byte c t.
Proof. apply existsb_app. Qed.

(** ** The requests *)

Inductive iscsi_op :=
| OCreateBackstore (name dev : gostr) | ODeleteBackstore (name : gostr) | OCreateTarget (iqn : gostr) | ODeleteTarget (iqn : gostr) | OListTargets
| OGetTarget (iqn : gostr) | OCreatePortal (iqn : gostr) (p : Portal) | ODeletePortal (iqn : gostr) (p : Portal) | OCreateLUN (iqn : gostr) (l : LUN)
| ODeleteLUN (iqn : gostr) (id : Z) | OCreateACL (iqn : gostr) (a : ACL) | ODeleteACL (iqn initiator : gostr) | OSaveConfig.

Definition by_name (l : list (gostr * gostr)) : list (option gostr * gostr) := map (fun p => (Some p.1, p.2)) l.
Definition block : list gostr := [ #"backstores"; #"block"].
Definition tpg (iqn node : gostr) : list gostr := [ #"iscsi"; iqn; #"tpg1"; node].
Definition portal_params (ip : gostr) (port : Z) := by_name [( #"ip_address", ip); ( #"ip_port", print_int port)].
Definition auth_cli (iqn : gostr) (a : ACL) (k v : gostr) : Cli :=
  mkCli (tpg iqn #"acls" ++ [InitiatorIQN a]) #"set" ((None, #"auth") :: by_name [(k, v)]).

(** The node of a portal: an IPv6 address is in brackets. *)
Definition portal_name (ip : gostr) (port : Z) : gostr :=
  if contains_byte ":"%char ip then #"[" ++ ip ++ #"]:" ++ print_int port else ip ++ #":" ++ print_int port.

(** The commands a request stands for. *)
Definition plan (o : iscsi_op) : list Cli :=
  match o with
  | OCreateBackstore n d => [mkCli block #"create" (by_name [( #"name", n); ( #"dev", d)])]
  | ODeleteBackstore n => [mkCli block #"delete" (by_name [( #"name", n)])]
  | OCreateTarget iqn =>
      [mkCli [ #"iscsi"] #"create" (by_name [( #"wwn", iqn)]); mkCli (tpg iqn #"portals") #"delete" (portal_params #"0.0.0.0" 3260)]
  | ODeleteTarget iqn => [mkCli [ #"iscsi"] #"delete" (by_name [( #"wwn", iqn)])]
  | OListTargets => [mkCli [ #"iscsi"] #"ls" (by_name [( #"depth", #"1")])]
  | OGetTarget iqn => [mkCli [ #"iscsi"; iqn] #"ls" []]
  | OCreatePortal iqn p =>
      mkCli (tpg iqn #"portals") #"create" (portal_params (IP p) (Port p)) ::
      (if str_eqb (Transport p) #"iser"
       then [mkCli (tpg iqn #"portals" ++ [portal_name (IP p) (Port p)]) #"enable_iser" [(None, #"true")]] else [])
  | ODeletePortal iqn p => [mkCli (tpg iqn #"portals") #"delete" (portal_params (IP p) (Port p))]
  | OCreateLUN iqn l => [mkCli (tpg iqn #"luns") #"create"
      (by_name [( #"storage_object", #"/backstores/block/" ++ Backstore l); ( #"lun", print_int (lunID l))])]
  | ODeleteLUN iqn id => [mkCli (tpg iqn #"luns") #"delete" [(None, print_int id)]]
  | OCreateACL iqn a =>
      mkCli (tpg iqn #"acls") #"create" (by_name [( #"wwn", InitiatorIQN a)]) ::
      (if negb (str_eqb (CHAPUser a) []) || negb (str_eqb (CHAPSecret a) [])
       then [auth_cli iqn a #"userid" (CHAPUser a); auth_cli iqn a #"password" (CHAPSecret a)] else [])
  | ODeleteACL iqn i => [mkCli (tpg iqn #"acls") #"delete" (by_name [( #"wwn", i)])]
  | OSaveConfig => [mkCli [] #"saveconfig" []]
  end.

(** iSER is not asked for over IPv6: the command that turns it on names a
    node without the brackets (iser_misses_ipv6_portal). *)
Definition iser_over_ipv4 (o : iscsi_op) : Prop :=
  match o with OCreatePortal _ p => Transport p = #"iser" -> ":"%char ∉ IP p | _ => True end.

Definition drop_out {W A} (m : M W (res iscsi_err A)) : M W (option iscsi_err) :=
  let! r := m in ret (match r with Ok _ => None | Err e => Some e end).

(** The words of a request that passed its checks. *)
Ltac word_tac :=
  first [ done
        | eapply iqn_chars; [eassumption|set_solver] | eapply backstore_chars; [eassumption|set_solver]
        | eapply ip_chars; [eassumption|set_solver] | apply print_int_no; [match goal with H : validatePortal _ = Ok _ |- _ => apply port_range in H; lia end|done]
        | by eapply dev_no_blank | by eapply chap_no_blank | apply print_int_no; [lia|done]
        | apply andb_true_iff; split; word_tac
        | rewrite contains_byte_app, negb_orb; apply andb_true_iff; split; word_tac ].
Ltac cli_tac :=
  unfold cli_ok; cbn [cPath cCommand cParams forallb by_name map portal_params tpg block app auth_cli]; unfold seg_ok, param_ok, no_blank in *;
  cbn [fst snd]; word_tac.

Section Exec.
Context {W : Type} `{HostExec W} (bin : gostr).
Definition exec_iscsi (o : iscsi_op) : M W (option iscsi_err) :=
  match o with
  | OCreateBackstore n d => drop_out (CreateBackstore bin n d)
  | ODeleteBackstore n => drop_out (DeleteBackstore bin n)
  | OCreateTarget iqn => drop_out (CreateTarget bin iqn)
  | ODeleteTarget iqn => drop_out (DeleteTarget bin iqn)
  | OListTargets => drop_out (ListTargets bin)
  | OGetTarget iqn => drop_out (GetTarget bin iqn)
  | OCreatePortal iqn p => drop_out (CreatePortal bin iqn p)
  | ODeletePortal iqn p => drop_out (DeletePortal bin iqn p)
  | OCreateLUN iqn l => drop_out (CreateLUN bin iqn l)
  | ODeleteLUN iqn id => drop_out (DeleteLUN bin iqn id)
  | OCreateACL iqn a => drop_out (CreateACL bin iqn a)
  | ODeleteACL iqn i => drop_out (DeleteACL bin iqn i)
  | OSaveConfig => drop_out (SaveConfig bin)
  end.
End Exec.

(** What an operation runs, command after command, until one fails; the
    first failure is the result.  Only a failure of the command that
    removes the portal of a new target is not. *)
Section Trace.
Context (answer : list (gostr * list gostr) -> list gostr -> res HostError gostr) (bin : gostr).

#[local] Instance recorder : HostExec (list (gostr * list gostr)) := {
  Run b args t := (t ++ [(b, args)], answer t args);
  RunStdin b _ args t := (t ++ [(b, args)], answer t args);
  RunStream b _ _ args t := (t ++ [(b, args)], match answer t args with Ok _ => None | Err e => Some e end) }.

Definition best_effort (o : iscsi_op) (k : nat) : bool := match o with OCreateTarget _ => Nat.eqb k 1 | _ => false end.

Fixpoint run_plan (o : iscsi_op) (k : nat) (cs : list Cli) (t : list (gostr * list gostr)) : list (gostr * list gostr) * option iscsi_err :=
  match cs with
  | [] => (t, None)
  | c :: cs' =>
      let t' := t ++ [(bin, print_cli c)] in
      match answer t (print_cli c) with
      | Ok _ => run_plan o (S k) cs' t'
      | Err e => if best_effort o k then run_plan o (S k) cs' t' else (t', Some (Host e))
      end
  end.

Definition follows (o : iscsi_op) (t : list (gostr * list gostr)) : Prop :=
  (exists e, exec_iscsi bin o t = (t, Some (Some e)) /\ forall h, e <> Host h) \/
  (Forall (fun c => cli_ok c = true) (plan o) /\ exec_iscsi bin o t = ((run_plan o 0 (plan o) t).1, Some (run_plan o 0 (plan o) t).2)).

Lemma run_built_follows o args c t : plan o = [c] -> best_effort o 0 = false -> exec_iscsi bin o t = drop_out (run_built bin args) t ->
  (forall a, args = Ok a -> a = print_cli c /\ cli_ok c = true) -> (forall e h, args = Err e -> e <> Host h) -> follows o t.
Proof.
  intros Hp Hb He Ha Herr. unfold follows. rewrite He, Hp. destruct args as [a|e].
  - right. destruct (Ha a eq_refl) as [-> Hok]. split; [by repeat constructor|]. unfold drop_out, run_built, run, bind, call, ret. cbn [Run recorder run_plan].
    destruct (answer t (print_cli c)); [done|]. by rewrite Hb.
  - left. exists e. split; [done|]. intros h. by apply Herr.
Qed.
End Trace.

Ltac checked E := repeat match type of E with
  | match ?v with Ok _ => _ | Err _ => _ end = _ => let H := fresh "V" in destruct v eqn:H; [|done]
  | (if ?b then _ else _) = _ => let H := fresh "V" in destruct b eqn:H; [|done]
  end.

(** A check that fails is not a failure of the host. *)
Definition not_host {A} (r : res iscsi_err A) : Prop := forall e h, r = Err e -> e <> Host h.

Lemma not_host_ok {A} (a : A) : not_host (Ok a).
Proof. by intros e h. Qed.
Lemma not_host_bind {A B} (r : res iscsi_err A) (k : A -> res iscsi_err B) : not_host r -> (forall a, not_host (k a)) ->
  not_host (match r with Ok a => k a | Err e => Err e end).
Proof. intros Hr Hk. destruct r as [a|e]; [apply Hk|]. intros e' h [= <-]. by apply Hr. Qed.
Lemma not_host_ensure {A} (b : bool) e (k : res iscsi_err A) : (forall h, e <> Host h) -> not_host k -> not_host (if b then k else Err e).
Proof. intros He Hk. destruct b; [done|]. by intros e' h [= <-]. Qed.

Ltac not_host_tac := repeat first [apply not_host_ok | apply not_host_bind; [|intros ?] | apply not_host_ensure; [done|]
  | match goal with |- not_host (?f _) => unfold f | |- not_host (?f _ _) => unfold f end].

Ltac single := eapply run_built_follows; [reflexivity|reflexivity|reflexivity| |not_host_tac];
  let a := fresh in let E := fresh in intros a E;
  match type of E with ?f _ = _ => unfold f in E | ?f _ _ = _ => unfold f in E | _ => idtac end;
  checked E; injection E as <-; split; [reflexivity|cli_tac].

Section Exact.
Context (answer : list (gostr * list gostr) -> list gostr -> res HostError gostr) (bin : gostr).
#[local] Existing Instance recorder.

Lemma singles_follow o t : match o with OCreateTarget _ | OCreatePortal _ _ | OCreateACL _ _ | OListTargets | OGetTarget _ | OSaveConfig => False | _ => True end ->
  follows answer bin o t.
Proof. destruct o; try done; intros _; single. Qed.

Lemma reads_follow o t : match o with OListTargets | OGetTarget _ | OSaveConfig => True | _ => False end -> follows answer bin o t.
Proof.
  destruct o; try done; intros _.
  - apply (run_built_follows _ _ _ (Ok buildListTargetsArgs) (mkCli [ #"iscsi"] #"ls" (by_name [( #"depth", #"1")]))); try done; [|by intros a [= <-]].
    cbn [exec_iscsi]. unfold drop_out, ListTargets, run_built, run, bind, call, ret. cbn [Run recorder]. by destruct (answer t buildListTargetsArgs).
  - apply (run_built_follows _ _ _ (buildGetTargetArgs iqn) (mkCli [ #"iscsi"; iqn] #"ls" [])); [done|done| |unfold buildGetTargetArgs|not_host_tac].
    + cbn [exec_iscsi]. unfold drop_out, GetTarget, bind, ret. by destruct (run_built _ _ _) as [? [[|]|]].
    + intros a E. checked E. injection E as <-. split; [reflexivity|cli_tac].
  - apply (run_built_follows _ _ _ (Ok buildSaveConfigArgs) (mkCli [] #"saveconfig" [])); try done. by intros a [= <-].
Qed.

Lemma create_target_follows iqn t : follows answer bin (OCreateTarget iqn) t.
Proof.
  unfold follows. cbn [exec_iscsi]. unfold drop_out, CreateTarget, bind at 1 2. assert (Hn : not_host (buildCreateTargetArgs iqn)) by not_host_tac.
  destruct (buildCreateTargetArgs iqn) as [a|e] eqn:E; [|left; exists e; split; [done|by intros h; eapply Hn]]. right. unfold buildCreateTargetArgs in E.
  checked E. injection E as <-. split; [repeat (constructor; [cli_tac|]); constructor|]. unfold run_built, run, bind, call, ret. cbn [Run recorder plan run_plan].
  change (print_cli (mkCli [ #"iscsi"] #"create" (by_name [( #"wwn", iqn)]))) with [ #"/iscsi"; #"create"; #"wwn=" ++ iqn].
  destruct (answer t _); [|done]. cbn [best_effort Nat.eqb].
  change (print_cli (mkCli (tpg iqn #"portals") #"delete" (portal_params #"0.0.0.0" 3260)))
    with [ #"/iscsi/" ++ iqn ++ #"/tpg1/portals"; #"delete"; #"ip_address=0.0.0.0"; #"ip_port=3260"]. by destruct (answer (t ++ _) _).
Qed.

Lemma create_portal_follows iqn p t : iser_over_ipv4 (OCreatePortal iqn p) -> follows answer bin (OCreatePortal iqn p) t.
Proof.
  intros Hip. unfold follows. cbn [exec_iscsi iser_over_ipv4] in *. unfold drop_out, CreatePortal, bind at 1 2. assert (Hn : not_host (buildCreatePortalArgs iqn p)) by not_host_tac.
  destruct (buildCreatePortalArgs iqn p) as [a|e] eqn:E; [|left; exists e; split; [done|by intros h; eapply Hn]]. right. unfold buildCreatePortalArgs in E.
  checked E. injection E as <-. unfold buildEnableIserArgs. rewrite V, V0. cbn [plan]. unfold run_built, run, bind, call, ret. cbn [Run recorder run_plan best_effort].
  change (print_cli (mkCli (tpg iqn #"portals") #"create" (portal_params (IP p) (Port p))))
    with [ #"/iscsi/" ++ iqn ++ #"/tpg1/portals"; #"create"; #"ip_address=" ++ IP p; #"ip_port=" ++ print_int (Port p)].
  destruct (str_eqb (Transport p) #"iser") eqn:Et.
  - apply str_eqb_eq in Et. apply Hip, contains_byte_false in Et. unfold portal_name. apply negb_true_iff in Et. rewrite Et.
    split; [constructor; [cli_tac|constructor; [cli_tac|constructor]]|].
    destruct (answer t _); [|done]. cbn [run_plan best_effort].
    change (print_cli (mkCli (tpg iqn #"portals" ++ [IP p ++ #":" ++ print_int (Port p)]) #"enable_iser" [(None, #"true")]))
      with [ #"/iscsi/" ++ iqn ++ #"/tpg1/portals/" ++ IP p ++ #":" ++ print_int (Port p); #"enable_iser"; #"true"]. by destruct (answer (t ++ _) _).
  - split; [constructor; [cli_tac|constructor]|]. by destruct (answer t _).
Qed.

Lemma create_acl_follows iqn a t : follows answer bin (OCreateACL iqn a) t.
Proof.
  unfold follows. cbn [exec_iscsi]. unfold drop_out, CreateACL, bind at 1. cbn [plan].
  assert (Hn : not_host (buildCreateACLArgs iqn a)) by not_host_tac.
  destruct (buildCreateACLArgs iqn a) as [args|e] eqn:E; [|left; exists e; split; [done|by intros h; eapply Hn]]. unfold buildCreateACLArgs in E.
  checked E. injection E as <-. destruct (_ || _) eqn:Ec.
  - assert (Hu : not_host (buildSetCHAPUserArgs iqn a)) by not_host_tac.
    destruct (buildSetCHAPUserArgs iqn a) as [ua|e] eqn:Eu; [|left; exists e; split; [done|by intros h; eapply Hu]].
    assert (Hp : not_host (buildSetCHAPPasswordArgs iqn a)) by not_host_tac.
    destruct (buildSetCHAPPasswordArgs iqn a) as [pa|e] eqn:Ep; [|left; exists e; split; [done|by intros h; eapply Hp]]. right.
    unfold buildSetCHAPUserArgs in Eu. checked Eu. injection Eu as <-. unfold buildSetCHAPPasswordArgs in Ep. checked Ep. injection Ep as <-.
    split; [repeat (constructor; [cli_tac|]); constructor|]. unfold run, bind, call, ret. cbn [Run recorder run_plan best_effort].
    change (print_cli (mkCli (tpg iqn #"acls") #"create" (by_name [( #"wwn", InitiatorIQN a)])))
      with [ #"/iscsi/" ++ iqn ++ #"/tpg1/acls"; #"create"; #"wwn=" ++ InitiatorIQN a].
    destruct (answer t _); [|done].
    change (print_cli (auth_cli iqn a #"userid" (CHAPUser a)))
      with [ #"/iscsi/" ++ iqn ++ #"/tpg1/acls/" ++ InitiatorIQN a; #"set"; #"auth"; #"userid=" ++ CHAPUser a].
    destruct (answer (t ++ _) _); [|done].
    change (print_cli (auth_cli iqn a #"password" (CHAPSecret a)))
      with [ #"/iscsi/" ++ iqn ++ #"/tpg1/acls/" ++ InitiatorIQN a; #"set"; #"auth"; #"password=" ++ CHAPSecret a].
    by destruct (answer ((t ++ _) ++ _) _).
  - right. split; [repeat (constructor; [cli_tac|]); constructor|]. unfold run, bind, call, ret. cbn [Run recorder run_plan best_effort].
    change (print_cli (mkCli (tpg iqn #"acls") #"create" (by_name [( #"wwn", InitiatorIQN a)])))
      with [ #"/iscsi/" ++ iqn ++ #"/tpg1/acls"; #"create"; #"wwn=" ++ InitiatorIQN a]. by destruct (answer t _).
Qed.

(** C27. Every iSCSI operation, but for iSER over an IPv6 portal, runs
    nothing and reports what is wrong with the request, or runs its
    commands one after the other until one fails, whose error it
    reports, and targetcli reads each command as the request: the node,
    the command and the values. Only the failure of the best-effort
    removal of the automatic portal of a new target is passed over. *)
Theorem iscsi_ops_exact o t (Hiser : iser_over_ipv4 o) :
  (exists e, exec_iscsi (H := recorder answer) bin o t = (t, Some (Some e)) /\ forall h, e <> Host h) \/
  (exec_iscsi (H := recorder answer) bin o t = ((run_plan answer bin o 0 (plan o) t).1, Some (run_plan answer bin o 0 (plan o) t).2) /\
   Forall (fun c => targetcli (print_cli c) = Some c) (plan o)).
Proof.
  assert (follows answer bin o t) as [H|[Hc H]].
  { destruct o; first [by apply singles_follow | by apply reads_follow | apply create_target_follows | by apply create_portal_follows | apply create_acl_follows]. }
  - by left.
  - right. split; [done|]. eapply Forall_impl; [exact Hc|]. intros c. apply targetcli_reads.
Qed.
End Exact.

(** A portal with iSER, on a host where every command works. *)
Lemma iscsi_ops_exact_witness :
  let o := OCreatePortal #"iqn.2020-01.io.example:foo" (mkPortal #"10.0.0.1" 3260 #"iser") in
  ":"%char ∉ IP (mkPortal #"10.0.0.1" 3260 #"iser") /\
  Forall (fun c => targetcli (print_cli c) = Some c) (plan o).
Proof.
  cbv zeta. split; [by_dec|].
  destruct (iscsi_ops_exact (fun _ _ => Ok []) #"targetcli"
    (OCreatePortal #"iqn.2020-01.io.example:foo" (mkPortal #"10.0.0.1" 3260 #"iser")) []) as [(e & E & _)|[_ H]]; [intros _; by_dec| |exact H].
  vm_compute in E. discriminate E.
Defined.

(** ** The tree *)

(** An initiator with its mapped LUNs and their notes, a LUN with its
    backstore and device, and a portal with its port. *)
Record tree := mkTree { tIQN : gostr; tACLs : list (gostr * list (Z * gostr)); tLUNs : list (Z * gostr * gostr); tPortals : list (gostr * Z) }.

Section Printed.
(** The filler and the notes in brackets, which vary. *)
Context (dots : gostr -> nat) (note : gostr -> gostr) (more : gostr).
(** What stands before the mapped LUNs of an initiator: a bar, or nothing
    for the last one. *)
Context (bar : gostr -> gostr).

Definition node_line (indent name info : gostr) : gostr :=
  indent ++ #"o- " ++ name ++ #" ." ++ replicate (dots name) "."%char ++ #" [" ++ info ++ #"]".

Definition lun_name (id : Z) : gostr := #"lun" ++ print_int id.
Definition lun_info (l : Z * gostr * gostr) : gostr := #"block/" ++ l.1.2 ++ #" (" ++ l.2 ++ #")" ++ more.

Definition acl_line (a : gostr) : gostr := node_line #"    | " a (note a).
Definition mapped_line (a : gostr) (l : Z * gostr) : gostr := node_line ( #"    | " ++ bar a) ( #"mapped_lun" ++ print_int l.1) l.2.
Definition acl_lines (a : gostr * list (Z * gostr)) : list gostr := acl_line a.1 :: map (mapped_line a.1) a.2.
Definition lun_line (l : Z * gostr * gostr) : gostr := node_line #"    | " (lun_name l.1.1) (lun_info l).
Definition portal_line (p : gostr * Z) : gostr := node_line #"      " (portal_name p.1 p.2) (note (portal_name p.1 p.2)).

Definition print_tree (t : tree) : gostr :=
  unlines ([node_line [] (tIQN t) (note (tIQN t)); node_line #"  " #"tpg1" (note #"tpg1"); node_line #"    " #"acls" (note #"acls")] ++
    flat_map acl_lines (tACLs t) ++ [node_line #"    " #"luns" (note #"luns")] ++ map lun_line (tLUNs t) ++
    [node_line #"    " #"portals" (note #"portals")] ++ map portal_line (tPortals t)).

Definition lun_ok (l : Z * gostr * gostr) : Prop :=
  0 <= l.1.1 <= MaxInt64 /\ validateBackstoreName l.1.2 = Ok tt /\ validateDevPath l.2 = Ok tt.
Definition acl_ok (a : gostr * list (Z * gostr)) : Prop :=
  validateIQN a.1 = Ok tt /\ Forall (fun l => 0 <= l.1 /\ newline ∉ l.2) a.2.
Definition tree_ok (t : tree) : Prop :=
  validateIQN (tIQN t) = Ok tt /\ Forall acl_ok (tACLs t) /\ Forall lun_ok (tLUNs t) /\
  Forall (fun p => validatePortal (mkPortal p.1 p.2 #"tcp") = Ok tt) (tPortals t).

Definition detail_of (t : tree) : TargetDetail :=
  mkDetail (mkTarget []) (map (fun p => mkPortal p.1 p.2 #"tcp") (tPortals t)) (map (fun l => mkLUN l.1.1 l.2 l.1.2) (tLUNs t))
    (map (fun a => mkACL a.1 [] []) (tACLs t)).

Context (Hnote : forall n, newline ∉ note n) (Hbar : forall a, newline ∉ bar a /\ "o"%char ∉ bar a) (Hmore : newline ∉ more /\ "["%char ∉ more /\ "]"%char ∉ more).

Lemma cut_sub_first c sub pre r : c ∉ pre -> cut_sub (c :: sub) (pre ++ (c :: sub) ++ r) = Some (pre, r).
Proof.
  induction pre as [|a pre IH]; intros Hc.
  - change ([] ++ (c :: sub) ++ r) with ((c :: sub) ++ r). destruct (c :: sub) as [|x l] eqn:E; [done|]. cbn [app cut_sub].
    change (x :: l ++ r) with ((x :: l) ++ r). by rewrite strip_prefix_app.
  - apply not_elem_of_cons in Hc as [Hne Hc]. cbn [app cut_sub strip_prefix]. destruct (ch_eqb c a) eqn:E; [apply ch_eqb_eq in E; congruence|].
    change (pre ++ c :: sub ++ r) with (pre ++ (c :: sub) ++ r). by rewrite IH.
Qed.

(** A line is read as its name. *)
Lemma node_read indent name info : "o"%char ∉ indent -> word name = true -> exists k, parseTreeLine (node_line indent name info) = Some (k, name).
Proof.
  intros Ho Hw. unfold parseTreeLine, node_line. change ( #"o- ") with ("o"%char :: #"- "). rewrite cut_sub_first by done.
  change ( #" .") with (" "%char :: #"."). assert (Hs : " "%char ∉ name).
  { apply word_iff in Hw as [_ Hw]. rewrite Forall_forall in Hw. intros Hin. by apply Hw in Hin. }
  rewrite cut_sub_first by done. rewrite trim_space_bounded by (by apply word_bounded). apply word_iff in Hw as [Hne _].
  rewrite (proj2 (str_eqb_neq name [])) by done. by eexists.
Qed.

Lemma to_lower_cons c s : byte_val c < 128 -> Smb.to_lower (c :: s) = to_lower_byte c :: Smb.to_lower s.
Proof.
  intros Hc. destruct s as [|b s]; [done|]. change (Smb.to_lower (c :: b :: s)) with
    (if str_eqb [c; b] (enc [196; 176]) then "i"%char :: Smb.to_lower s
     else match s with d :: s3 => if str_eqb [c; b; d] (enc [226; 132; 170]) then "k"%char :: Smb.to_lower s3
                                  else to_lower_byte c :: Smb.to_lower (b :: s)
          | [] => to_lower_byte c :: Smb.to_lower (b :: s) end).
  rewrite (proj2 (str_eqb_neq _ _)) by (intros [= -> _]; by vm_compute in Hc). destruct s as [|d s]; [done|].
  rewrite (proj2 (str_eqb_neq _ _)) by (intros [= -> _]; by vm_compute in Hc). done.
Qed.

(** The name of a leaf: not one of a section. *)
Definition leaf_name (n : gostr) : Prop :=
  word n = true /\ existsb (str_eqb (Smb.to_lower n)) [ #"acls"; #"luns"; #"portals"] = false /\ has_prefix n #"tpg" = false.

Lemma name_byte_printable c : alnum c || one_of_bytes #".-:" c = true -> printable c = true.
Proof. destruct c as [[] [] [] [] [] [] [] []]; by vm_compute. Qed.

Lemma addr_byte_printable c : addr_char c = true -> printable c = true.
Proof. destruct c as [[] [] [] [] [] [] [] []]; by vm_compute. Qed.

Lemma digit_printable c : is_digit c = true -> printable c = true.
Proof. destruct c as [[] [] [] [] [] [] [] []]; by vm_compute. Qed.

Lemma digit_low c : is_digit c = true -> byte_val c < 128 /\ to_lower_byte c = c.
Proof. destruct c as [[] [] [] [] [] [] [] []]; by vm_compute. Qed.

Lemma print_int_digits n : 0 <= n -> exists c r, print_int n = c :: r /\ is_digit c = true /\ Forall (fun c => is_digit c = true) r.
Proof.
  intros Hn. unfold print_int. replace (n <? 0) with false by lia. pose proof (print_uint_digits n) as H. pose proof (print_uint_nonempty n Hn).
  destruct (print_uint n) as [|c r]; [done|]. apply Forall_cons in H as [? ?]. by exists c, r.
Qed.

Lemma iqn_leaf a : validateIQN a = Ok tt -> leaf_name a /\ has_prefix a #"iqn." = true.
Proof.
  unfold validateIQN. destruct (has_prefix a #"iqn.") eqn:Ep; [|done]. destruct (validateNoDash a); [|done]. destruct (forallb _ a) eqn:Ef; [|done]. intros _.
  split; [|done]. apply has_prefix_iff in Ep as [r ->]. split; [|split].
  - apply word_iff. split; [done|]. apply Forall_forall. intros c Hc%list_elem_of_In. rewrite forallb_forall in Ef. apply Ef in Hc.
    by apply name_byte_printable.
  - change ( #"iqn." ++ r) with ("i"%char :: #"qn." ++ r). by rewrite to_lower_cons.
  - done.
Qed.

Lemma lun_leaf id : 0 <= id -> leaf_name (lun_name id) /\ has_prefix (lun_name id) #"iqn." = false.
Proof.
  intros Hid. unfold lun_name. destruct (print_int_digits id Hid) as (c & r & -> & Hc & Hr). destruct (digit_low c Hc) as [Hb Hl].
  split; [|done]. split; [|split; [|done]].
  - apply word_iff. split; [done|]. change ( #"lun" ++ c :: r) with ("l"%char :: "u"%char :: "n"%char :: c :: r). do 3 (constructor; [done|]).
    constructor; [by apply digit_printable|]. eapply Forall_impl; [exact Hr|]. apply digit_printable.
  - change ( #"lun" ++ c :: r) with ("l"%char :: "u"%char :: "n"%char :: c :: r). rewrite !to_lower_cons by done. rewrite Hl.
    change (to_lower_byte "l") with "l"%char. change (to_lower_byte "u") with "u"%char. change (to_lower_byte "n") with "n"%char.
    apply not_true_iff_false. intros (x & Hx & E%str_eqb_eq)%existsb_exists. destruct Hx as [<-|[<-|[<-|[]]]]; [done| |done].
    injection E as -> _. done.
Qed.

(** An address starts with a digit unless it has a colon. *)
Lemma ipv4_starts ip a : ParseIP ip = Some a -> ":"%char ∉ ip -> exists c r, ip = c :: r /\ is_digit c = true.
Proof.
  unfold ParseIP, ParseAddr. intros E Hc. destruct (first_mark ip) as [m|] eqn:Em; [|done]. destruct (ch_eqb m ".") eqn:Ed.
  - destruct ip as [|c r]; [done|]. exists c, r. split; [done|]. cbn in E. destruct (is_digit c); [done|]. by destruct (ch_eqb c ".").
  - destruct (ch_eqb m ":") eqn:Ec; [|done]. exfalso. apply Hc. apply ch_eqb_eq in Ec as ->. clear -Em.
    induction ip as [|c s IH]; [done|]. cbn [first_mark] in Em. destruct (_ || _) eqn:E.
    + injection Em as ->. by left.
    + right. by apply IH.
Qed.

Lemma portal_leaf ip port : validatePortal (mkPortal ip port #"tcp") = Ok tt ->
  leaf_name (portal_name ip port) /\ has_prefix (portal_name ip port) #"iqn." = false.
Proof.
  intros V. pose proof (port_range _ _ V) as Hr. cbn in Hr. unfold validatePortal in V. cbn [IP] in V. destruct (ParseIP ip) as [a|] eqn:E; [|done]. clear V.
  pose proof (ParseAddr_chars ip a E) as [Hne Hch]. destruct (print_int_digits port) as (c & r & Ep & Hc & Hdr); [lia|].
  assert (Hpw : Forall (fun c => printable c = true) (print_int port)).
  { rewrite Ep. constructor; [by apply digit_printable|]. eapply Forall_impl; [exact Hdr|]. apply digit_printable. }
  assert (Hiw : Forall (fun c => printable c = true) ip) by (eapply Forall_impl; [exact Hch|]; apply addr_byte_printable).
  unfold portal_name. destruct (contains_byte ":"%char ip) eqn:Ec.
  - split; [|done]. split; [|split; [|done]].
    + apply word_iff. split; [done|]. change ( #"[" ++ ip ++ #"]:" ++ print_int port) with ("["%char :: ip ++ #"]:" ++ print_int port).
      constructor; [done|]. apply Forall_app. split; [done|]. by repeat constructor.
    + change ( #"[" ++ ip ++ #"]:" ++ print_int port) with ("["%char :: ip ++ #"]:" ++ print_int port). by rewrite to_lower_cons.
  - destruct (ipv4_starts ip a E) as (d & q & -> & Hd). { rewrite <- contains_byte_iff. by rewrite Ec. }
    destruct (digit_low d Hd) as [Hb Hl]. assert (Hnot : forall x, is_digit x = false -> ch_eqb x d = false).
    { intros x Hx. apply ch_eqb_neq. intros ->. congruence. }
    cbn [app]. split; [split; [|split]|].
    + apply word_iff. split; [done|]. change (d :: q ++ #":" ++ print_int port) with ((d :: q) ++ #":" ++ print_int port).
      apply Forall_app. split; [done|]. by constructor.
    + rewrite to_lower_cons by done. rewrite Hl. apply not_true_iff_false. intros (x & Hx & E1%str_eqb_eq)%existsb_exists.
      destruct Hx as [<-|[<-|[<-|[]]]]; injection E1 as -> _; done.
    + unfold has_prefix. change ( #"tpg") with ("t"%char :: #"pg"). cbn [strip_prefix]. by rewrite Hnot.
    + unfold has_prefix. change ( #"iqn.") with ("i"%char :: #"qn."). cbn [strip_prefix]. by rewrite Hnot.
Qed.

Lemma portal_parsed ip port : validatePortal (mkPortal ip port #"tcp") = Ok tt -> parsePortalName (portal_name ip port) = Some (mkPortal ip port #"tcp").
Proof.
  intros V. pose proof (port_range _ _ V) as Hr. cbn in Hr. unfold validatePortal in V. cbn [IP] in V. destruct (ParseIP ip) as [a|] eqn:E; [|done]. clear V.
  pose proof (ParseAddr_chars ip a E) as [Hne Hch]. destruct (print_int_digits port) as (c & r & Ep & Hc & Hdr); [lia|].
  assert (Hat : atoi (print_int port) = Some port) by (apply print_int_atoi; unfold MaxInt64; lia).
  assert (Hp : str_eqb (print_int port) [] = false) by (rewrite Ep; done).
  unfold parsePortalName, portal_name. destruct (contains_byte ":"%char ip) eqn:Ec.
  - change ( #"[" ++ ip ++ #"]:" ++ print_int port) with ( #"[" ++ (ip ++ "]"%char :: #":" ++ print_int port)). rewrite strip_prefix_app.
    rewrite (proj2 (cut_at_Some "]"%char (ip ++ "]"%char :: #":" ++ print_int port) ip ( #":" ++ print_int port))).
    + rewrite strip_prefix_app, (proj2 (str_eqb_neq ip [])), Hp, Hat by done. done.
    + split; [done|]. apply contains_byte_false. by apply addr_no.
  - assert (Hcol : ":"%char ∉ ip) by (rewrite <- contains_byte_iff, Ec; done). destruct (ipv4_starts ip a E Hcol) as (d & q & Eip & Hd).
    assert (strip_prefix #"[" (ip ++ #":" ++ print_int port) = None) as ->.
    { rewrite Eip. change ( #"[") with ["["%char]. cbn [app strip_prefix]. destruct (ch_eqb "[" d) eqn:E1; [|done]. apply ch_eqb_eq in E1 as <-. done. }
    rewrite (proj2 (cut_last_Some ":"%char (ip ++ #":" ++ print_int port) ip (print_int port))).
    + by rewrite (proj2 (str_eqb_neq ip [])), Hp, Hat by done.
    + split; [done|]. apply contains_byte_false, print_int_no; [lia|done].
Qed.

Lemma dev_chars d u : validateDevPath d = Ok u -> forall c, one_of_bytes metacharacters c = true \/ control c = true -> c ∉ d.
Proof.
  unfold validateDevPath. destruct (has_prefix _ _), (validateNoDash d), (validateNoWhitespace d); try done. destruct (forallb _ d) eqn:Ef; [|done].
  intros _ c Hc Hin. rewrite forallb_forall in Ef. apply list_elem_of_In, Ef, andb_true_iff in Hin as [H1 H2].
  destruct Hc as [Hc|Hc]; rewrite Hc in *; done.
Qed.

Lemma backstore_not c n u : alnum c || one_of_bytes #"_-." c = false -> validateBackstoreName n = Ok u -> c ∉ n.
Proof.
  intros Hc. unfold validateBackstoreName. destruct (negb _), (validateNoDash n); try done. destruct (forallb _ n) eqn:Ef; [|done].
  intros _ Hin. rewrite forallb_forall in Ef. apply list_elem_of_In, Ef in Hin. congruence.
Qed.

Lemma lun_parsed l : lun_ok l -> parseLUNLine (lun_name l.1.1) (lun_line l) = Some (mkLUN l.1.1 l.2 l.1.2).
Proof.
  intros (Hid & Hb & Hd). destruct l as [[id bs] dev]. cbn [fst snd] in *. destruct Hmore as (_ & Ho & Hcl). unfold parseLUNLine, lun_name. rewrite strip_prefix_app, print_int_atoi by done.
  assert (Hinfo : "["%char ∉ lun_info (id, bs, dev) /\ "]"%char ∉ lun_info (id, bs, dev)).
  { unfold lun_info. cbn [fst snd]. split; rewrite !not_elem_of_app; (split_and!; [by apply contains_byte_false|by eapply backstore_not|by apply contains_byte_false
      |eapply dev_chars; [exact Hd|by left]|by apply contains_byte_false|done]). }
  unfold lun_line, node_line. cbn [fst snd]. set (front := #"    | " ++ _).
  set (info := lun_info (id, bs, dev)) in *.
  match goal with |- context [cut_last _ ?line] => assert (Hl : exists pre, line = pre ++ "["%char :: info ++ #"]") end.
  { eexists ( #"    | " ++ #"o- " ++ lun_name id ++ #" ." ++ replicate (dots (lun_name id)) "."%char ++ [" "%char]). unfold lun_name. rewrite <- !app_assoc. reflexivity. }
  destruct Hl as [pre ->]. rewrite (proj2 (cut_last_Some "["%char _ pre (info ++ #"]"))).
  2: { split; [done|]. rewrite not_elem_of_app. split; [apply Hinfo|]. by apply contains_byte_false. }
  change (info ++ #"]") with (info ++ "]"%char :: []). rewrite (proj2 (cut_at_Some "]"%char (info ++ "]"%char :: []) info [])) by (split; [done|apply Hinfo]).
  unfold info, lun_info. cbn [fst snd]. rewrite strip_prefix_app. change ( #" (" ++ dev ++ #")" ++ more) with (" "%char :: #"(" ++ dev ++ #")" ++ more).
  rewrite (proj2 (cut_at_Some " "%char (bs ++ " "%char :: #"(" ++ dev ++ #")" ++ more) bs ( #"(" ++ dev ++ #")" ++ more))) by (split; [done|by eapply backstore_not]).
  assert (bs <> []) by (intros ->; done). destruct bs as [|b bs]; [done|].
  rewrite (proj2 (cut_at_Some "("%char (" "%char :: #"(" ++ dev ++ #")" ++ more) [" "%char] (dev ++ #")" ++ more))) by (split; [done|set_solver]).
  rewrite (proj2 (cut_at_Some ")"%char (dev ++ #")" ++ more) dev more)) by (split; [done|eapply dev_chars; [exact Hd|by left]]). done.
Qed.

Lemma section_line indent name section d : "o"%char ∉ indent -> name ∈ [ #"acls"; #"luns"; #"portals"] ->
  detail_line (section, d) (node_line indent name (note name)) = (name, d).
Proof.
  intros Ho Hn. assert (Hw : word name = true /\ existsb (str_eqb (Smb.to_lower name)) [ #"acls"; #"luns"; #"portals"] = true /\ Smb.to_lower name = name).
  { repeat (apply elem_of_cons in Hn as [->|Hn]; [done|]). by apply elem_of_nil in Hn. }
  destruct Hw as (Hw & Hs & Hl). destruct (node_read indent name (note name) Ho Hw) as [k E]. unfold detail_line. rewrite E. cbv zeta. rewrite Hs. by rewrite Hl.
Qed.

(** A leaf under a section. *)
Lemma leaf_line indent name info section d : "o"%char ∉ indent -> leaf_name name -> section <> [] ->
  detail_line (section, d) (node_line indent name info) =
  if str_eqb section #"acls" then
    if has_prefix name #"iqn." then (section, mkDetail (dTarget d) (dPortals d) (dLUNs d) (dACLs d ++ [mkACL name [] []])) else (section, d)
  else if str_eqb section #"luns" then
    match parseLUNLine name (node_line indent name info) with
    | Some lun => (section, mkDetail (dTarget d) (dPortals d) (dLUNs d ++ [lun]) (dACLs d)) | None => (section, d) end
  else if str_eqb section #"portals" then
    match parsePortalName name with
    | Some p => (section, mkDetail (dTarget d) (dPortals d ++ [p]) (dLUNs d) (dACLs d)) | None => (section, d) end
  else (section, d).
Proof.
  intros Ho (Hw & Hs & Ht) Hne. destruct (node_read indent name info Ho Hw) as [k E]. unfold detail_line at 1. rewrite E. cbv zeta.
  rewrite Hs, Ht, (proj2 (str_eqb_neq section [])) by done. by rewrite andb_false_r.
Qed.

(** The mapped LUNs of an initiator are passed over. *)
Lemma mapped_leaf id : 0 <= id -> leaf_name ( #"mapped_lun" ++ print_int id) /\ has_prefix ( #"mapped_lun" ++ print_int id) #"iqn." = false.
Proof.
  intros Hid. destruct (print_int_digits id Hid) as (c & r & -> & Hc & Hr). split; [|done]. split; [|split; [|done]].
  - apply word_iff. split; [done|]. apply Forall_app. split; [by repeat constructor|].
    constructor; [by apply digit_printable|]. eapply Forall_impl; [exact Hr|]. apply digit_printable.
  - change ( #"mapped_lun" ++ c :: r) with ("m"%char :: #"apped_lun" ++ c :: r). by rewrite to_lower_cons.
Qed.

Lemma mapped_lines_read a l : Forall (fun l => 0 <= l.1 /\ newline ∉ l.2) l -> forall d,
  fold_left detail_line (map (mapped_line a) l) ( #"acls", d) = ( #"acls", d).
Proof.
  induction 1 as [|x l [Hx _] Hl IH]; intros d; cbn [map fold_left]; [done|]. destruct (mapped_leaf x.1 Hx) as [Hleaf Hp].
  unfold mapped_line at 2. rewrite leaf_line; [|rewrite not_elem_of_app; split; [by apply contains_byte_false|apply Hbar]|done|done].
  rewrite Hp. change (str_eqb #"acls" #"acls") with true. cbv iota. apply IH.
Qed.

Lemma acl_lines_read l : Forall acl_ok l -> forall d, fold_left detail_line (flat_map acl_lines l) ( #"acls", d) =
  ( #"acls", mkDetail (dTarget d) (dPortals d) (dLUNs d) (dACLs d ++ map (fun a => mkACL a.1 [] []) l)).
Proof.
  induction 1 as [|a l [Ha Hm] Hl IH]; intros d; cbn [map flat_map fold_left]; [rewrite app_nil_r; by destruct d|]. destruct (iqn_leaf a.1 Ha) as [Hleaf Hp].
  change (acl_lines a) with (acl_line a.1 :: map (mapped_line a.1) a.2). cbn [app fold_left]. rewrite fold_left_app. unfold acl_line at 1. rewrite leaf_line by (done || by apply contains_byte_false).
  rewrite Hp. change (str_eqb #"acls" #"acls") with true. cbv iota.
  rewrite mapped_lines_read, IH by done. cbn [dTarget dPortals dLUNs dACLs]. by rewrite <- app_assoc.
Qed.

Lemma lun_lines_read l : Forall lun_ok l -> forall d, fold_left detail_line (map lun_line l) ( #"luns", d) =
  ( #"luns", mkDetail (dTarget d) (dPortals d) (dLUNs d ++ map (fun l => mkLUN l.1.1 l.2 l.1.2) l) (dACLs d)).
Proof.
  induction 1 as [|a l Ha Hl IH]; intros d; cbn [map fold_left]; [rewrite app_nil_r; by destruct d|].
  destruct (lun_leaf a.1.1) as [Hleaf _]; [by destruct Ha as [? _]; lia|]. pose proof (lun_parsed a Ha) as Hp.
  unfold lun_line at 2. rewrite leaf_line by (done || by apply contains_byte_false). fold (lun_line a). rewrite Hp.
  change (str_eqb #"luns" #"acls") with false. change (str_eqb #"luns" #"luns") with true. cbv iota.
  rewrite IH. cbn [dTarget dPortals dLUNs dACLs]. by rewrite <- app_assoc.
Qed.

Lemma portal_lines_read l : Forall (fun p => validatePortal (mkPortal p.1 p.2 #"tcp") = Ok tt) l -> forall d, fold_left detail_line (map portal_line l) ( #"portals", d) =
  ( #"portals", mkDetail (dTarget d) (dPortals d ++ map (fun p => mkPortal p.1 p.2 #"tcp") l) (dLUNs d) (dACLs d)).
Proof.
  induction 1 as [|a l Ha Hl IH]; intros d; cbn [map fold_left]; [rewrite app_nil_r; by destruct d|].
  destruct (portal_leaf a.1 a.2 Ha) as [Hleaf _]. unfold portal_line at 2. rewrite leaf_line by (done || by apply contains_byte_false).
  rewrite (portal_parsed a.1 a.2 Ha).
  change (str_eqb #"portals" #"acls") with false. change (str_eqb #"portals" #"luns") with false. change (str_eqb #"portals" #"portals") with true. cbv iota.
  rewrite IH. cbn [dTarget dPortals dLUNs dACLs]. by rewrite <- app_assoc.
Qed.

Lemma node_no_newline indent name info : newline ∉ indent -> newline ∉ name -> newline ∉ info -> newline ∉ node_line indent name info.
Proof.
  intros H1 H2 H3. unfold node_line. rewrite !not_elem_of_app. split_and!; try done; try by apply contains_byte_false.
  intros H%elem_of_replicate. by destruct H as [? _].
Qed.

Lemma leaf_no_newline n : leaf_name n -> newline ∉ n.
Proof. intros [Hw _]. by apply words_no_newline. Qed.

Lemma tree_read t : tree_ok t -> parseTargetDetail (print_tree t) = detail_of t.
Proof.
  intros (Hq & Ha & Hl & Hp). unfold parseTargetDetail, print_tree. destruct (iqn_leaf (tIQN t) Hq) as [Hqn Hqp]. destruct Hmore as (Hmn & _ & _).
  rewrite split_unlines.
  - rewrite !fold_left_app. cbn [fold_left].
    assert (E1 : detail_line ([], no_detail) (node_line [] (tIQN t) (note (tIQN t))) = ([], no_detail)).
    { destruct Hqn as (Hw & Hs & _). destruct (node_read [] (tIQN t) (note (tIQN t)) ltac:(set_solver) Hw) as [k E]. unfold detail_line. rewrite E. cbv zeta. by rewrite Hs, Hqp. }
    rewrite E1. assert (E2 : detail_line ([], no_detail) (node_line #"  " #"tpg1" (note #"tpg1")) = ([], no_detail)).
    { destruct (node_read #"  " #"tpg1" (note #"tpg1")) as [k E]; [by apply contains_byte_false|done|]. unfold detail_line. by rewrite E. }
    rewrite E2, section_line by (by apply contains_byte_false || set_solver). rewrite acl_lines_read by done.
    rewrite section_line by (by apply contains_byte_false || set_solver). rewrite lun_lines_read by done.
    rewrite section_line by (by apply contains_byte_false || set_solver). rewrite portal_lines_read by done. reflexivity.
  - rewrite !Forall_app. repeat rewrite Forall_cons. split_and!; try done.
    + apply node_no_newline; [set_solver|by apply leaf_no_newline|apply Hnote].
    + apply node_no_newline; [by apply contains_byte_false|by apply contains_byte_false|apply Hnote].
    + apply node_no_newline; [by apply contains_byte_false|by apply contains_byte_false|apply Hnote].
    + apply Forall_flat_map. eapply Forall_impl; [exact Ha|]. intros a [[Hleaf _]%iqn_leaf Hm]. constructor.
      * apply node_no_newline; [by apply contains_byte_false|by apply leaf_no_newline|apply Hnote].
      * apply Forall_fmap. eapply Forall_impl; [exact Hm|]. intros x [Hx Hi]. apply node_no_newline; [|by apply leaf_no_newline, mapped_leaf|done].
        rewrite not_elem_of_app. split; [by apply contains_byte_false|apply Hbar].
    + apply node_no_newline; [by apply contains_byte_false|by apply contains_byte_false|apply Hnote].
    + apply Forall_fmap. eapply Forall_impl; [exact Hl|]. intros [[id bs] dev] (Hid & Hb & Hd). cbn [fst snd] in *.
      apply node_no_newline; [by apply contains_byte_false|apply leaf_no_newline, lun_leaf; cbn; lia|]. unfold lun_info. cbn [fst snd]. rewrite !not_elem_of_app.
      split_and!; [by apply contains_byte_false|by eapply backstore_not|by apply contains_byte_false|eapply dev_chars; [exact Hd|by right]|by apply contains_byte_false|done].
    + apply node_no_newline; [by apply contains_byte_false|by apply contains_byte_false|apply Hnote].
    + apply Forall_fmap. eapply Forall_impl; [exact Hp|]. intros p V. apply node_no_newline; [by apply contains_byte_false|apply leaf_no_newline; by apply portal_leaf|apply Hnote].
Qed.
End Printed.

(** C28. When targetcli prints the tree of a target, with mapped LUNs
    below its initiators, whatever the filler and the notes, GetTarget
    returns the address and port of each portal, the number, backstore
    and volume of each LUN, and the initiators, in order. The transport
    of a portal, CHAP credentials and mapped LUNs are not part of the
    statement. *)
Theorem target_read_back {W} `{HostExec W} (bin : gostr) dots note more bar t
  (Hnote : forall n, newline ∉ note n) (Hbar : forall a, newline ∉ bar a /\ "o"%char ∉ bar a)
  (Hmore : newline ∉ more /\ "["%char ∉ more /\ "]"%char ∉ more) (Ht : tree_ok t) w w'
  (Hrun : Run bin [ #"/iscsi/" ++ tIQN t; #"ls"] w = (w', Ok (print_tree dots note more bar t))) :
  exists d, GetTarget bin (tIQN t) w = (w', Some (Ok d)) /\ dTarget d = mkTarget (tIQN t) /\
    map (fun p => (IP p, Port p)) (dPortals d) = tPortals t /\
    map (fun l => (lunID l, Backstore l, Zvol l)) (dLUNs d) = tLUNs t /\
    map InitiatorIQN (dACLs d) = map fst (tACLs t).
Proof.
  unfold GetTarget, run_built, buildGetTargetArgs. pose proof Ht as (-> & _). unfold run, bind, call, ret. rewrite Hrun.
  rewrite (tree_read dots note more bar Hnote Hbar Hmore t Ht). eexists. split; [reflexivity|]. cbn [detail_of dTarget dPortals dLUNs dACLs].
  rewrite !map_map. cbn [IP Port lunID Backstore Zvol InitiatorIQN]. split; [done|].
  split; [|split; [|done]]; rewrite <- map_id; apply map_ext; [by intros []|by intros [[]]].
Qed.

Module SmallTarget.
Definition small : tree := mkTree #"iqn.2020-01.io.example:foo" [( #"iqn.2020-01.io.client:bar", [(0, #"lun0 block/zvol1 (rw)")])]
  [(0, #"zvol1", #"/dev/zvol/tank/vol1"); (12, #"zvol2", #"/dev/zvol/tank/vol2")] [( #"10.0.0.1", 3260); ( #"fe80::1", 3260)].
Definition fill (n : gostr) : nat := 3%nat.
Definition notes (n : gostr) : gostr := #"OK".

#[export] Instance printing_host : HostExec unit := {
  Run _ _ u := (u, Ok (print_tree fill notes #" (default_tg_pt_gp)" (fun _ => #"  ") small));
  RunStdin _ _ _ u := (u, Ok []);
  RunStream _ _ _ _ u := (u, None) }.

Lemma target_read_back_witness : exists d, GetTarget #"/usr/bin/targetcli" #"iqn.2020-01.io.example:foo" tt = (tt, Some (Ok d)) /\
  map (fun l => (lunID l, Backstore l, Zvol l)) (dLUNs d) = [(0, #"zvol1", #"/dev/zvol/tank/vol1"); (12, #"zvol2", #"/dev/zvol/tank/vol2")] /\
  map InitiatorIQN (dACLs d) = [ #"iqn.2020-01.io.client:bar"].
Proof.
  destruct (target_read_back #"/usr/bin/targetcli" fill notes #" (default_tg_pt_gp)" (fun _ => #"  ") small) with (w := tt) (w' := tt)
    as (d & E & _ & _ & Hl & Ha); [| | | | |by exists d].
  - intros n. by apply contains_byte_false.
  - intros a. split; by apply contains_byte_false.
  - split_and!; by apply contains_byte_false.
  - split; [vm_compute; reflexivity|]. split; [|split].
    + constructor; [|constructor]. split; [vm_compute; reflexivity|]. constructor; [|constructor]. split; [cbn; lia|by apply contains_byte_false].
    + constructor; [|constructor; [|constructor]]; (split; [cbn; unfold MaxInt64; lia|split; vm_compute; reflexivity]).
    + repeat constructor.
  - reflexivity.
Defined.
End SmallTarget.

(** ** Where it falls short *)

Section Short.
(** The checked device path need not be under /dev/zvol. *)
Lemma dev_path_leaves_zvol : validateDevPath #"/dev/zvol/../sda" = Ok tt.
Proof. reflexivity. Qed.

(** The node of an IPv6 portal is named with brackets; the command that
    turns iSER on names it without. *)
Lemma iser_misses_ipv6_portal : exists args, buildEnableIserArgs #"iqn.a" (mkPortal #"fe80::1" 3260 #"iser") = Ok args /\
  head args = Some #"/iscsi/iqn.a/tpg1/portals/fe80::1:3260" /\ portal_name #"fe80::1" 3260 = #"[fe80::1]:3260".
Proof. eexists. split; [reflexivity|]. split; reflexivity. Qed.

(** When the secret cannot be set, the initiator stays admitted. *)
Lemma acl_without_secret_stays (refused : HostError) :
  let answer (t : list (gostr * list gostr)) (args : list gostr) := if existsb (str_eqb #"set") args then Err refused else Ok ([] : gostr) in
  exec_iscsi (H := recorder answer) #"targetcli" (OCreateACL #"iqn.a" (mkACL #"iqn.b" #"ann" #"0123456789ab")) [] =
  ([( #"targetcli", [ #"/iscsi/iqn.a/tpg1/acls"; #"create"; #"wwn=iqn.b"]);
    ( #"targetcli", [ #"/iscsi/iqn.a/tpg1/acls/iqn.b"; #"set"; #"auth"; #"userid=ann"])], Some (Some (Host refused))).
Proof. reflexivity. Qed.

(** Every portal is reported as TCP. *)
Lemma portals_read_as_tcp n p : parsePortalName n = Some p -> Transport p = #"tcp".
Proof. unfold parsePortalName. intros H. repeat case_match; try done; by injection H as <-. Qed.
End Short.
