(* ===== verification/Network.v ===== *)
(** * internal/host/network: systemd-networkd configuration

    Interfaces, VLANs and bonds with their validation, the files that are
    written for them and the parser that reads them back, the operations
    over the files of the directory and networkctl, and the interface that
    holds an address. *)

From S2P Require Import Prelude GoStrings GoPath GoText GoNet SortLib Effects ZfsNames HostExec HostFiles Samba.

Module Net.

Record InterfaceConfig := mkIface {
  cName : gostr; MatchName : gostr; DHCP : gostr; Addresses : list gostr; Gateway : gostr; DNS : list gostr; Domains : list gostr;
  MTU : Z; LinkLocal : gostr; cDryRun : bool }.
Record VLAN := mkVLAN { vName : gostr; Parent : gostr; vID : Z; vAddress : gostr; vDryRun : bool }.
Record Bond := mkBond { bName : gostr; Mode : gostr; Members : list gostr; bAddress : gostr; MIIMonSec : Z; bDryRun : bool }.
Record LiveInterface := mkLive { lName : gostr; lState : gostr; MAC : gostr; lAddresses : list gostr; lType : gostr }.

(** The kind with the one pointer that is set. *)
Inductive ManagedConfig := KindInterface (c : InterfaceConfig) | KindVLAN (v : VLAN) | KindBond (b : Bond).
Definition managed_name_of (mc : ManagedConfig) : gostr :=
  match mc with KindInterface c => cName c | KindVLAN v => vName v | KindBond b => bName b end.

Inductive net_err :=
| BadName (e : name_fault) | BadMatchName (e : name_fault) | BadDHCP | BadLinkLocal | BadCIDR | BadIP | BadMTU | BadVLANID | BadMode
| NoMembers | DuplicateMember | BadMIIMon | ErrNotFound | WriteErr | RemoveErr | ReadDirErr | NoNetdevKind | UnknownKind
| Networkctl (e : HostError).

Record Manager := mkManager { NetworkDir : gostr; NetworkctlBin : gostr; IPBin : gostr; FilePrefix : gostr }.
Definition or_default (v d : gostr) : gostr := if str_eqb v [] then d else v.
Definition dir (m : Manager) : gostr := or_default (NetworkDir m) #"/etc/systemd/network".
Definition networkctl (m : Manager) : gostr := or_default (NetworkctlBin m) #"/usr/bin/networkctl".
Definition ipBin (m : Manager) : gostr := or_default (IPBin m) #"/usr/sbin/ip".
Definition prefix (m : Manager) : gostr := or_default (FilePrefix m) #"70-nova-".

Definition networkFile (m : Manager) (name : gostr) : gostr := Join [dir m; prefix m ++ name ++ #".network"].
Definition netdevFile (m : Manager) (name : gostr) : gostr := Join [dir m; prefix m ++ name ++ #".netdev"].
Definition memberNetworkFile (m : Manager) (bond member : gostr) : gostr :=
  Join [dir m; prefix m ++ bond ++ #"-member-" ++ member ++ #".network"].
Definition parentFile (m : Manager) (vlan : gostr) : gostr := Join [dir m; prefix m ++ vlan ++ #"-parent.network"].

(** ** Validation *)

Definition validateConfigName (name : gostr) : res net_err unit :=
  match check_file_name name with Ok _ => Ok tt | Err e => Err (BadName e) end.

Definition match_char (c : ascii) : bool := file_name_char c || ch_eqb c "*"%char || ch_eqb c "?"%char.
Definition validateMatchName (name : gostr) : res net_err unit :=
  ensure negb (str_eqb name []) else BadMatchName NameEmpty ;;
  ensure (length name <=? 64)%nat else BadMatchName NameLong ;;
  ensure negb (has_prefix name #"-") else BadMatchName NameDash ;;
  ensure forallb match_char name else BadMatchName NameChar ;; Ok tt.

Definition validateDHCP (s : gostr) : res net_err unit :=
  ensure existsb (str_eqb s) [ []; #"yes"; #"no"; #"ipv4"; #"ipv6"] else BadDHCP ;; Ok tt.
Definition validateLinkLocal (s : gostr) : res net_err unit :=
  ensure existsb (str_eqb s) [ []; #"ipv6"; #"ipv4"; #"yes"; #"no"; #"fallback"; #"ipv4-fallback"] else BadLinkLocal ;; Ok tt.
Definition validateCIDR (c : gostr) : res net_err unit :=
  ensure negb (str_eqb c []) else BadCIDR ;;
  ensure match ParseCIDR c with Some _ => true | None => false end else BadCIDR ;; Ok tt.
Definition validateIP (s : gostr) : res net_err unit :=
  ensure negb (str_eqb s []) else BadIP ;;
  ensure match ParseIP s with Some _ => true | None => false end else BadIP ;; Ok tt.

Fixpoint check_all (check : gostr -> res net_err unit) (l : list gostr) : res net_err unit :=
  match l with [] => Ok tt | x :: l' => let? _ := check x in check_all check l' end.

Definition validateInterfaceConfig (c : InterfaceConfig) : res net_err unit :=
  let? _ := validateConfigName (cName c) in
  let? _ := validateMatchName (MatchName c) in
  let? _ := validateDHCP (DHCP c) in
  let? _ := validateLinkLocal (LinkLocal c) in
  let? _ := check_all validateCIDR (Addresses c) in
  let? _ := (if str_eqb (Gateway c) [] then Ok tt else validateIP (Gateway c)) in
  let? _ := check_all validateIP (DNS c) in
  ensure negb ((MTU c <? 0) || (65535 <? MTU c)) else BadMTU ;; Ok tt.

Definition validateVLAN (v : VLAN) : res net_err unit :=
  let? _ := validateConfigName (vName v) in
  let? _ := validateMatchName (Parent v) in
  ensure negb ((vID v <? 1) || (4094 <? vID v)) else BadVLANID ;;
  if str_eqb (vAddress v) [] then Ok tt else validateCIDR (vAddress v).

Definition validBondModes : list gostr :=
  [ #"balance-rr"; #"active-backup"; #"balance-xor"; #"broadcast"; #"802.3ad"; #"balance-tlb"; #"balance-alb"].

Fixpoint check_members (seen : list gostr) (ms : list gostr) : res net_err unit :=
  match ms with
  | [] => Ok tt
  | m :: ms' =>
      let? _ := validateMatchName m in
      ensure negb (existsb (str_eqb m) seen) else DuplicateMember ;; check_members (m :: seen) ms'
  end.

Definition validateBond (b : Bond) : res net_err unit :=
  let? _ := validateConfigName (bName b) in
  ensure existsb (str_eqb (Mode b)) validBondModes else BadMode ;;
  ensure negb (length (Members b) =? 0)%nat else NoMembers ;;
  let? _ := check_members [] (Members b) in
  let? _ := (if str_eqb (bAddress b) [] then Ok tt else validateCIDR (bAddress b)) in
  ensure negb (MIIMonSec b <? 0) else BadMIIMon ;; Ok tt.

(** ** Rendering *)

Definition kv (k v : gostr) : gostr := k ++ #"=" ++ v.
Definition when_set (v : gostr) (line : gostr) : list gostr := if str_eqb v [] then [] else [line].

(** strings.Join(c.Domains, " "). *)
Definition renderNetworkFile (c : InterfaceConfig) : gostr :=
  unlines ([ #"[Match]"; kv #"Name" (MatchName c); []; #"[Network]"] ++
    when_set (DHCP c) (kv #"DHCP" (DHCP c)) ++ map (kv #"DNS") (DNS c) ++
    (match Domains c with [] => [] | _ => [kv #"Domains" (join_with " "%char (Domains c))] end) ++
    when_set (LinkLocal c) (kv #"LinkLocalAddressing" (LinkLocal c)) ++
    (if 0 <? MTU c then [kv #"MTUBytes" (print_int (MTU c))] else []) ++
    concat (map (fun a => [ []; #"[Address]"; kv #"Address" a]) (Addresses c)) ++
    (if str_eqb (Gateway c) [] then [] else [ []; #"[Route]"; kv #"Gateway" (Gateway c)])).

Definition renderVLANNetdev (v : VLAN) : gostr :=
  unlines [ #"[NetDev]"; kv #"Name" (vName v); #"Kind=vlan"; []; #"[VLAN]"; kv #"Id" (print_int (vID v))].
Definition renderVLANParentNetwork (v : VLAN) : gostr :=
  unlines [ #"[Match]"; kv #"Name" (Parent v); []; #"[Network]"; kv #"VLAN" (vName v)].

(** The device itself: an address, or DHCP without one. *)
Definition device_lines (name address : gostr) : list gostr :=
  [ #"[Match]"; kv #"Name" name; []; #"[Network]"] ++
  (if str_eqb address [] then [ #"DHCP=yes"] else [ []; #"[Address]"; kv #"Address" address]).
Definition renderVLANNetwork (v : VLAN) : gostr := unlines (device_lines (vName v) (vAddress v)).

Definition renderBondNetdev (b : Bond) : gostr :=
  unlines ([ #"[NetDev]"; kv #"Name" (bName b); #"Kind=bond"; []; #"[Bond]"; kv #"Mode" (Mode b)] ++
    (if 0 <? MIIMonSec b then [kv #"MIIMonitorSec" (print_int (MIIMonSec b) ++ #"s")] else [])).
Definition renderBondNetwork (b : Bond) : gostr := unlines (device_lines (bName b) (bAddress b)).
Definition renderBondMemberNetwork (bondName memberName : gostr) : gostr :=
  unlines [ #"[Match]"; kv #"Name" memberName; []; #"[Network]"; kv #"Bond" bondName].

(** ** The ini parser *)

Record iniPair := mkPair { Key : gostr; Value : gostr }.
Record iniSection := mkSection { secName : gostr; Pairs : list iniPair }.

Definition add_pair (p : iniPair) (secs : list iniSection) : list iniSection :=
  match rev secs with
  | [] => secs
  | s :: before => rev before ++ [mkSection (secName s) (Pairs s ++ [p])]
  end.

Definition ini_line (secs : list iniSection) (text : gostr) : list iniSection :=
  let line := trim_space text in
  if str_eqb line [] || has_prefix line #"#" || has_prefix line #";" then secs
  else if has_prefix line #"[" && has_suffix line #"]" then secs ++ [mkSection (removelast (tail line)) []]
  else match cut_at "="%char line with
       | None => secs
       | Some (k, v) => add_pair (mkPair (trim_space k) (trim_space v)) secs
       end.

Definition parseINI (data : gostr) : list iniSection := fold_left ini_line (scan_limit Snapshots.max_token data).1 [].

Definition values_of (key : gostr) (ps : list iniPair) : list gostr := map Value (List.filter (fun p => str_eqb (Key p) key) ps).
Definition sectionValues (secs : list iniSection) (sec key : gostr) : list gostr :=
  concat (map (fun s => if str_eqb (secName s) sec then values_of key (Pairs s) else []) secs).
Definition firstSectionValue (secs : list iniSection) (sec key : gostr) : gostr :=
  match sectionValues secs sec key with [] => [] | v :: _ => v end.
Definition addressBlocks (secs : list iniSection) : list gostr := sectionValues secs #"Address" #"Address".

(** fmt.Sscanf with %d into a variable that is 0: the leading number, or 0
    when there is none or it does not fit. *)
Fixpoint leading_digits (s : gostr) : gostr :=
  match s with c :: s' => if is_digit c then c :: leading_digits s' else [] | [] => [] end.
Definition sscan_int (s : gostr) : Z :=
  let '(sign, rest) := match s with
                       | c :: s' => if ch_eqb c "-"%char || ch_eqb c "+"%char then ([c], s') else ([], s)
                       | [] => ([], []) end in
  default 0 (atoi (sign ++ leading_digits rest)).

Definition detectNetdevKind (data : gostr) : res net_err gostr :=
  let v := firstSectionValue (parseINI data) #"NetDev" #"Kind" in if str_eqb v [] then Err NoNetdevKind else Ok v.

Definition parseInterfaceConfig (name data : gostr) : InterfaceConfig :=
  let secs := parseINI data in
  let d := firstSectionValue secs #"Network" #"Domains" in
  let mtu := firstSectionValue secs #"Network" #"MTUBytes" in
  mkIface name (firstSectionValue secs #"Match" #"Name") (firstSectionValue secs #"Network" #"DHCP") (addressBlocks secs)
    (firstSectionValue secs #"Route" #"Gateway") (sectionValues secs #"Network" #"DNS") (if str_eqb d [] then [] else fields d)
    (if str_eqb mtu [] then 0 else sscan_int mtu) (firstSectionValue secs #"Network" #"LinkLocalAddressing") false.

Definition first_address (netw : gostr) : gostr :=
  match netw with [] => [] | _ => match addressBlocks (parseINI netw) with [] => [] | a :: _ => a end end.

Definition parseVLAN (name netdev netw : gostr) : VLAN :=
  let idStr := firstSectionValue (parseINI netdev) #"VLAN" #"Id" in
  mkVLAN name [] (if str_eqb idStr [] then 0 else sscan_int idStr) (first_address netw) false.

Definition parseBond (name netdev netw : gostr) : Bond :=
  let secs := parseINI netdev in
  let s := firstSectionValue secs #"Bond" #"MIIMonitorSec" in
  mkBond name (firstSectionValue secs #"Bond" #"Mode") [] (first_address netw) (if str_eqb s [] then 0 else sscan_int (trim_suffix s #"s")) false.

(** ** Live interfaces *)

Record ipAddrEntry := mkEntry {
  IfName : gostr; LinkType : gostr; eAddress : gostr; OperState : gostr; LinkInfo : option gostr; AddrInfo : list (gostr * Z) }.

Definition classifyType (linkType : gostr) (info : option gostr) : gostr :=
  let other := if str_eqb linkType #"ether" || str_eqb linkType [] then #"ether" else linkType in
  match info with
  | Some k => if existsb (str_eqb k) [ #"vlan"; #"bond"; #"bridge"] then k else other
  | None => other
  end.

Definition live_of (e : ipAddrEntry) : LiveInterface :=
  mkLive (IfName e) (OperState e) (eAddress e) (map (fun a => a.1 ++ #"/" ++ print_int a.2) (AddrInfo e)) (classifyType (LinkType e) (LinkInfo e)).

(** net.IP.Equal: an IPv4 address equals its form in IPv6. *)
Definition v4_in_v6 : list Z := replicate 10 0 ++ [255; 255].
Definition ip_equal (a b : addr) : bool :=
  if Nat.eqb (length a) (length b) then bool_decide (a = b)
  else if Nat.eqb (length a) 4 && Nat.eqb (length b) 16 then bool_decide (b = v4_in_v6 ++ a)
  else if Nat.eqb (length a) 16 && Nat.eqb (length b) 4 then bool_decide (a = v4_in_v6 ++ b)
  else false.

(** The addresses of ParseIP are in the sixteen-byte form. *)
Definition holds (localIP : addr) (cidr : gostr) : bool := match ParseCIDR cidr with Some (ip, _) => ip_equal ip localIP | None => false end.
Fixpoint matchInterfaceByIP (live : list LiveInterface) (localIP : addr) : option gostr :=
  match live with
  | [] => None
  | li :: live' => if existsb (holds localIP) (lAddresses li) then Some (lName li) else matchInterfaceByIP live' localIP
  end.

(** ** Operations *)

Section Manager.
Context {W : Type} `{HostExec W, FileWriter W} (m : Manager).

Definition reload : M W (option net_err) :=
  let! r := call (Run (networkctl m) [ #"reload"]) in ret (match r with Ok _ => None | Err e => Some (Networkctl e) end).
Definition Reload : M W (option net_err) := reload.

(** Write files one after the other; the first that fails ends it. *)
Fixpoint write_all (fs : list (gostr * gostr)) : M W (option net_err) :=
  match fs with
  | [] => reload
  | (p, d) :: fs' => let! ok := call (fw_Write p d) in if negb ok then ret (Some WriteErr) else write_all fs'
  end.

Definition ApplyInterfaceConfig (c : InterfaceConfig) : M W (option net_err) :=
  match validateInterfaceConfig c with
  | Err e => ret (Some e)
  | Ok _ => if cDryRun c then ret None else write_all [(networkFile m (cName c), renderNetworkFile c)]
  end.

Definition DeleteInterfaceConfig (name : gostr) (dryRun : bool) : M W (option net_err) :=
  match validateConfigName name with
  | Err e => ret (Some e)
  | Ok _ =>
      if dryRun then ret None
      else
        let! r := call (fw_Remove (networkFile m name)) in
        match r with NoSuchFile => ret (Some ErrNotFound) | RemoveFailed => ret (Some RemoveErr) | Removed => reload end
  end.

Definition vlan_files (v : VLAN) : list (gostr * gostr) :=
  [(netdevFile m (vName v), renderVLANNetdev v); (parentFile m (vName v), renderVLANParentNetwork v); (networkFile m (vName v), renderVLANNetwork v)].
Definition ApplyVLAN (v : VLAN) : M W (option net_err) :=
  match validateVLAN v with
  | Err e => ret (Some e)
  | Ok _ => if vDryRun v then ret None else write_all (vlan_files v)
  end.

(** The map of the member files, in the order of their sorted paths. *)
Definition member_files (b : Bond) : gmap gostr gostr :=
  fold_left (fun fs mem => <[memberNetworkFile m (bName b) mem := renderBondMemberNetwork (bName b) mem]> fs) (Members b) ∅.
Definition bond_files (b : Bond) : list (gostr * gostr) :=
  [(netdevFile m (bName b), renderBondNetdev b); (networkFile m (bName b), renderBondNetwork b)] ++
  map (fun p => (p, default [] (member_files b !! p))) (sorted_keys (member_files b)).
Definition ApplyBond (b : Bond) : M W (option net_err) :=
  match validateBond b with
  | Err e => ret (Some e)
  | Ok _ => if bDryRun b then ret None else write_all (bond_files b)
  end.

(** Both files are read; one that cannot be read counts as absent. *)
Definition loadConfig (name : gostr) : M W (res net_err ManagedConfig) :=
  let! d := call (fw_ReadFile (netdevFile m name)) in
  let! n := call (fw_ReadFile (networkFile m name)) in
  let netBytes := match n with Data b => b | _ => [] end in
  ret (match d, n with
       | Data netdev, _ =>
           match detectNetdevKind netdev with
           | Err e => Err e
           | Ok kind =>
               if str_eqb kind #"vlan" then Ok (KindVLAN (parseVLAN name netdev netBytes))
               else if str_eqb kind #"bond" then Ok (KindBond (parseBond name netdev netBytes))
               else Err UnknownKind
           end
       | _, Data netw => Ok (KindInterface (parseInterfaceConfig name netw))
       | _, _ => Err ErrNotFound
       end).

Definition GetConfig (name : gostr) : M W (res net_err ManagedConfig) :=
  match validateConfigName name with Err e => ret (Err e) | Ok _ => loadConfig name end.

(** The name of a file of the listing, unless it belongs to another. *)
Definition listed_name (fname : gostr) : option gostr :=
  if negb (has_prefix fname (prefix m)) then None
  else
    let trimmed := trim_prefix fname (prefix m) in
    if contains trimmed #"-member-" then None
    else if has_suffix trimmed #"-parent.network" then None
    else if has_suffix trimmed #".network" then Some (trim_suffix trimmed #".network")
    else if has_suffix trimmed #".netdev" then Some (trim_suffix trimmed #".netdev")
    else None.

Fixpoint list_entries (seen : list gostr) (entries : list (gostr * bool)) : M W (list ManagedConfig) :=
  match entries with
  | [] => ret []
  | (fname, isdir) :: rest =>
      match (if isdir then None else listed_name fname) with
      | None => list_entries seen rest
      | Some name =>
          if existsb (str_eqb name) seen then list_entries seen rest
          else
            let! r := loadConfig name in
            let! out := list_entries (name :: seen) rest in
            ret (match r with Ok mc => mc :: out | Err _ => out end)
      end
  end.

Definition ListConfigs : M W (res net_err (list ManagedConfig)) :=
  let! es := call (fw_ReadDir (dir m)) in
  match es with
  | None => ret (Err ReadDirErr)
  | Some entries =>
      let! out := list_entries [] entries in
      ret (Ok (stable_sort (fun a b => str_ltb (managed_name_of a) (managed_name_of b)) out))
  end.

(** What package encoding/json makes of the output of ip. *)
Context (decode : gostr -> option (list ipAddrEntry)).

Definition ListInterfaces : M W (option (list LiveInterface)) :=
  let! r := call (Run (ipBin m) [ #"-j"; #"addr"; #"show"]) in
  ret (match r with Err _ => None | Ok out => map live_of <$> decode out end).

Definition IdentifyManagementIface (localIP : option addr) : M W (option gostr) :=
  match localIP with
  | None => ret None
  | Some ip => let! live := ListInterfaces in ret (match live with None => None | Some l => matchInterfaceByIP l ip end)
  end.
End Manager.
End Net.
Import Net.

#[local] Arguments str : simpl never.

(** ** What the parser makes of sections, pairs and blank lines *)

Ltac by_not_in := rewrite <- contains_byte_iff; by vm_compute.

(** Text on one line that starts and ends visibly. *)
Definition one_line (s : gostr) : Prop := bounded s = true /\ newline ∉ s.
Definition key_ok (k : gostr) : bool :=
  word k && negb (contains_byte "="%char k) && negb (existsb (fun c => has_prefix k [c]) ["[";"#";";"]%char).
Definition pair_ok (p : iniPair) : Prop := key_ok (Key p) = true /\ one_line (Value p).
Definition section_ok (s : iniSection) : Prop := word (secName s) = true /\ Forall pair_ok (Pairs s).

Definition sec_lines (s : iniSection) : list gostr := ( #"[" ++ secName s ++ #"]") :: map (fun p => kv (Key p) (Value p)) (Pairs s).
Definition layout_lines (l : list (option iniSection)) : list gostr :=
  concat (map (fun o => match o with None => [ []] | Some s => sec_lines s end) l).

Lemma add_pair_last p s secs : add_pair p (secs ++ [s]) = secs ++ [mkSection (secName s) (Pairs s ++ [p])].
Proof. unfold add_pair. rewrite rev_app_distr. cbn [rev app]. by rewrite rev_involutive. Qed.

Lemma starts_nonempty s : starts s = true -> s <> [].
Proof. by destruct s. Qed.

Lemma kv_bounded k v : key_ok k = true -> bounded v = true -> bounded (kv k v) = true.
Proof.
  intros [[Hk _]%andb_true_iff _]%andb_true_iff [Hs He]%andb_true_iff. apply word_ends in Hk as [Hk _]. apply andb_true_iff. unfold kv. split.
  - destruct k; [done|]. exact Hk.
  - rewrite !rev_app_distr. destruct (rev v); [done|]. exact He.
Qed.

Lemma pair_line secs s p : pair_ok p -> ini_line (secs ++ [s]) (kv (Key p) (Value p)) = secs ++ [mkSection (secName s) (Pairs s ++ [p])].
Proof.
  intros [Hk [Hv _]]. unfold ini_line. rewrite trim_space_bounded by (by apply kv_bounded). destruct p as [k v]. cbn [Key Value] in *.
  pose proof Hk as [[Hw He%negb_true_iff]%andb_true_iff Hp%negb_true_iff]%andb_true_iff. apply word_iff in Hw as [Hne _].
  assert (Hpre : forall c, c ∈ ["[";"#";";"]%char -> has_prefix (kv k v) [c] = false).
  { intros c Hc. destruct k as [|a k]; [done|]. unfold has_prefix. cbn. destruct (ch_eqb c a) eqn:E; [|done]. exfalso.
    apply not_true_iff_false in Hp. apply Hp, existsb_exists. exists c. split; [by apply list_elem_of_In|]. unfold has_prefix. cbn. by rewrite E. }
  assert (str_eqb (kv k v) [] = false) as -> by (apply str_eqb_neq; by destruct k).
  change ( #"#") with ["#"%char]. change ( #";") with [";"%char]. change ( #"[") with ["["%char]. rewrite !Hpre by set_solver. cbn [orb andb].
  rewrite (proj2 (cut_at_Some "="%char (kv k v) k v)).
  - rewrite (trim_space_bounded v) by done. rewrite (trim_space_bounded k) by (apply word_bounded; by apply andb_true_iff in Hk as [[? _]%andb_true_iff _]).
    apply add_pair_last.
  - split; [done|]. rewrite <- contains_byte_iff, He. done.
Qed.

Lemma header_line_read secs name : word name = true -> ini_line secs ( #"[" ++ name ++ #"]") = secs ++ [mkSection name []].
Proof.
  intros Hw. unfold ini_line. rewrite trim_space_bounded.
  - change ( #"[" ++ name ++ #"]") with ("["%char :: name ++ #"]"). cbn [tail].
    assert (has_suffix ("["%char :: name ++ #"]") #"]" = true) as -> by (change ("["%char :: name ++ #"]") with (("["%char :: name) ++ #"]"); apply has_suffix_app).
    change ( #"]") with ["]"%char]. rewrite removelast_last. done.
  - apply andb_true_iff. split; [done|]. rewrite !rev_app_distr. done.
Qed.

Lemma section_lines_read secs s : section_ok s -> fold_left ini_line (sec_lines s) secs = secs ++ [s].
Proof.
  intros [Hw Hp]. unfold sec_lines. cbn [fold_left]. rewrite header_line_read by done. destruct s as [name ps]. cbn [secName Pairs] in *.
  assert (forall qs, fold_left ini_line (map (fun p => kv (Key p) (Value p)) ps) (secs ++ [mkSection name qs]) = secs ++ [mkSection name (qs ++ ps)]) as H.
  { induction Hp as [|p ps Hp Hps IH]; intros qs; cbn [map fold_left]; [by rewrite app_nil_r|]. rewrite pair_line by done. cbn [secName Pairs].
    rewrite IH. by rewrite <- app_assoc. }
  apply (H []).
Qed.

Lemma layout_read l secs : Forall section_ok (omap id l) -> fold_left ini_line (layout_lines l) secs = secs ++ omap id l.
Proof.
  revert secs. induction l as [|[s|] l IH]; intros secs Hl; unfold layout_lines; cbn [map concat]; rewrite ?fold_left_app.
  - by rewrite app_nil_r.
  - cbn in Hl. apply Forall_cons in Hl as [Hs Hl]. rewrite section_lines_read by done. fold (layout_lines l). rewrite IH by done. by rewrite <- app_assoc.
  - cbn [fold_left]. change (ini_line secs []) with secs. fold (layout_lines l). by apply IH.
Qed.

Lemma bounded_clean s : bounded s = true -> newline ∉ s -> (length s < Snapshots.max_token)%nat -> clean_line Snapshots.max_token s.
Proof.
  intros Hb Hn Hl. split; [done|]. split; [done|]. apply andb_true_iff in Hb as [_ He]. unfold Snapshots.drop_cr. destruct (rev s) as [|c r] eqn:E; [done|].
  destruct (ch_eqb c (byte_of 13)) eqn:Ec; [|done]. apply ch_eqb_eq in Ec as ->. done.
Qed.

Definition short_lines (l : list (option iniSection)) : Prop := Forall (fun s => (length s < Snapshots.max_token)%nat) (layout_lines l).

Lemma layout_clean l : Forall section_ok (omap id l) -> short_lines l -> Forall (clean_line Snapshots.max_token) (layout_lines l).
Proof.
  unfold short_lines. induction l as [|[s|] l IH]; unfold layout_lines; cbn [map concat]; intros Hl Hs; [constructor| |].
  - cbn in Hl. apply Forall_cons in Hl as [[Hw Hp] Hl]. fold (layout_lines l) in *. apply Forall_app in Hs as [Hs1 Hs2]. apply Forall_app. split; [|by apply IH].
    unfold sec_lines in *. apply Forall_cons in Hs1 as [Hh Hs1]. constructor.
    + apply bounded_clean; [|rewrite !not_elem_of_app|done].
      * apply andb_true_iff. split; [done|]. rewrite !rev_app_distr. done.
      * split_and!; [by_not_in|by apply words_no_newline|by_not_in].
    + apply Forall_forall. intros x Hx. rewrite Forall_forall in Hs1. specialize (Hs1 x Hx). apply list_elem_of_fmap in Hx as (p & -> & Hin).
      rewrite Forall_forall in Hp. destruct (Hp p Hin) as [Hk [Hv Hn]]. apply bounded_clean; [by apply kv_bounded| |done].
      unfold kv. rewrite !not_elem_of_app. split_and!; [|by_not_in|done]. apply words_no_newline. by apply andb_true_iff in Hk as [[? _]%andb_true_iff _].
  - fold (layout_lines l) in *. apply Forall_cons in Hs as [_ Hs]. constructor; [|by apply IH]. split; [set_solver|]. split; [|done].
    unfold Snapshots.max_token. cbn. lia.
Qed.

Lemma parse_layout l : Forall section_ok (omap id l) -> short_lines l -> parseINI (unlines (layout_lines l)) = omap id l.
Proof. intros Hl Hs. unfold parseINI. rewrite scan_unlines by (by apply layout_clean). by apply (layout_read l []). Qed.

(** ** What is written, as sections *)

Definition one (name k v : gostr) : iniSection := mkSection name [mkPair k v].
Definition set_pair (k v : gostr) : list iniPair := if str_eqb v [] then [] else [mkPair k v].

Definition network_pairs (c : InterfaceConfig) : list iniPair :=
  set_pair #"DHCP" (DHCP c) ++ map (mkPair #"DNS") (DNS c) ++ set_pair #"Domains" (join_with " "%char (Domains c)) ++
  set_pair #"LinkLocalAddressing" (LinkLocal c) ++ (if 0 <? MTU c then [mkPair #"MTUBytes" (print_int (MTU c))] else []).

Definition iface_layout (c : InterfaceConfig) : list (option iniSection) :=
  [Some (one #"Match" #"Name" (MatchName c)); None; Some (mkSection #"Network" (network_pairs c))] ++
  concat (map (fun a => [None; Some (one #"Address" #"Address" a)]) (Addresses c)) ++
  (if str_eqb (Gateway c) [] then [] else [None; Some (one #"Route" #"Gateway" (Gateway c))]).

Definition device_layout (name address : gostr) : list (option iniSection) :=
  [Some (one #"Match" #"Name" name); None] ++
  (if str_eqb address [] then [Some (one #"Network" #"DHCP" #"yes")] else [Some (mkSection #"Network" []); None; Some (one #"Address" #"Address" address)]).

Definition netdev_layout (name kind : gostr) (s : iniSection) : list (option iniSection) :=
  [Some (mkSection #"NetDev" [mkPair #"Name" name; mkPair #"Kind" kind]); None; Some s].

Lemma layout_app l l' : layout_lines (l ++ l') = layout_lines l ++ layout_lines l'.
Proof. unfold layout_lines. by rewrite map_app, concat_app. Qed.

Lemma words_join_nonempty ws : Forall (fun w => word w = true) ws -> ws <> [] -> join_with " "%char ws <> [].
Proof. intros Hw Hne. destruct Hw as [|w ws Hw _]; [done|]. apply word_iff in Hw as [Hw _]. destruct w; [done|]. by destruct ws. Qed.

Lemma iface_lines c : Forall (fun d => word d = true) (Domains c) -> renderNetworkFile c = unlines (layout_lines (iface_layout c)).
Proof.
  intros Hd. unfold renderNetworkFile, iface_layout. rewrite !layout_app. f_equal.
  assert (E1 : forall k v, map (fun p => kv (Key p) (Value p)) (set_pair k v) = when_set v (kv k v)) by (intros k v; unfold set_pair, when_set; by destruct (str_eqb v [])).
  assert (E2 : layout_lines [Some (one #"Match" #"Name" (MatchName c)); None; Some (mkSection #"Network" (network_pairs c))] =
    [ #"[Match]"; kv #"Name" (MatchName c); []; #"[Network]"] ++ map (fun p => kv (Key p) (Value p)) (network_pairs c)).
  { unfold layout_lines. cbn [map concat]. rewrite app_nil_r. reflexivity. }
  rewrite E2, <- app_assoc. f_equal. unfold network_pairs. rewrite !map_app, !E1, map_map, <- !app_assoc. f_equal. f_equal.
  assert (E3 : when_set (join_with " "%char (Domains c)) (kv #"Domains" (join_with " "%char (Domains c))) =
    match Domains c with [] => [] | _ => [kv #"Domains" (join_with " "%char (Domains c))] end).
  { unfold when_set. destruct (Domains c) as [|d ds] eqn:Ed; [done|]. rewrite (proj2 (str_eqb_neq _ _)); [done|]. by apply words_join_nonempty. }
  rewrite E3. f_equal. f_equal. f_equal; [by destruct (0 <? MTU c)|].
  f_equal; [|by destruct (str_eqb (Gateway c) [])]. induction (Addresses c) as [|a l IH]; [done|]. cbn [map concat]. rewrite layout_app, IH. done.
Qed.

Lemma device_lines_layout name address : device_lines name address = layout_lines (device_layout name address).
Proof. unfold device_lines, device_layout. by destruct (str_eqb address []). Qed.

(** ** The checks and the text *)

Lemma forallb_word p s : (forall c, p c = true -> printable c = true) -> s <> [] -> forallb p s = true -> word s = true.
Proof. intros Hp Hne Hs. apply word_iff. split; [done|]. apply Forall_forall. intros c Hc%list_elem_of_In. rewrite forallb_forall in Hs. by apply Hp, Hs. Qed.

Lemma match_printable c : match_char c = true -> printable c = true.
Proof. destruct c as [[] [] [] [] [] [] [] []]; by vm_compute. Qed.
Lemma file_name_printable c : file_name_char c = true -> printable c = true.
Proof. destruct c as [[] [] [] [] [] [] [] []]; by vm_compute. Qed.
Lemma net_addr_printable c : addr_char c = true -> printable c = true.
Proof. destruct c as [[] [] [] [] [] [] [] []]; by vm_compute. Qed.
Lemma net_digit_printable c : is_digit c = true -> printable c = true.
Proof. destruct c as [[] [] [] [] [] [] [] []]; by vm_compute. Qed.

Lemma match_word n : validateMatchName n = Ok tt -> word n = true.
Proof.
  unfold validateMatchName. destruct (negb (str_eqb n [])) eqn:E1; [|done]. destruct (_ <=? _)%nat, (negb (has_prefix n #"-")); try done.
  destruct (forallb _ n) eqn:E2; [|done]. intros _. eapply forallb_word; [exact match_printable| |exact E2]. intros ->. done.
Qed.

Lemma config_name_word n : validateConfigName n = Ok tt -> word n = true.
Proof.
  unfold validateConfigName, check_file_name. destruct (negb (str_eqb n [])) eqn:E1; [|done]. destruct (_ <=? _)%nat, (negb (has_prefix n #"-")); try done.
  destruct (forallb _ n) eqn:E2; [|done]. intros _. eapply forallb_word; [exact file_name_printable| |exact E2]. intros ->. done.
Qed.

Lemma ip_word s : validateIP s = Ok tt -> word s = true.
Proof.
  unfold validateIP. destruct (negb _); [|done]. destruct (ParseIP s) eqn:E; [|done]. intros _. apply ParseAddr_chars in E as [Hne Hc].
  apply word_iff. split; [done|]. eapply Forall_impl; [exact Hc|]. apply net_addr_printable.
Qed.

Lemma digits_val_digits s : forall n v, digits_val n s = Some v -> Forall (fun c => is_digit c = true) s.
Proof.
  induction s as [|c s IH]; intros n v; [constructor|]. cbn. destruct (is_digit c) eqn:E; [|done]. intros H. constructor; [done|]. by eapply IH.
Qed.

Lemma cidr_word s : validateCIDR s = Ok tt -> word s = true.
Proof.
  unfold validateCIDR. destruct (negb (str_eqb s [])) eqn:Ene; [|done]. destruct (ParseCIDR s) as [[a n]|] eqn:E; [|done]. intros _. unfold ParseCIDR in E.
  destruct (cut_at "/"%char s) as [[l r]|] eqn:Ec; [|done]. apply cut_at_Some in Ec as [-> _]. destruct (ParseAddr l) eqn:El; [|done].
  destruct (dtoi r) eqn:Er; [|done]. apply ParseAddr_chars in El as [_ Hl]. unfold dtoi in Er. destruct r as [|c r]; [done|].
  destruct (digits_val 0 (c :: r)) eqn:Ed; [|done]. apply digits_val_digits in Ed. apply word_iff. split; [by destruct l|].
  apply Forall_app. split; [eapply Forall_impl; [exact Hl|]; apply net_addr_printable|]. constructor; [done|].
  eapply Forall_impl; [exact Ed|]. apply net_digit_printable.
Qed.

Lemma check_all_Forall f l : check_all f l = Ok tt -> Forall (fun x => f x = Ok tt) l.
Proof. induction l as [|x l IH]; [constructor|]. cbn. destruct (f x) as [[]|] eqn:E; [|done]. intros H. constructor; [done|by apply IH]. Qed.

Lemma word_one_line s : word s = true -> one_line s.
Proof. intros Hw. split; [by apply word_bounded|by apply words_no_newline]. Qed.

Lemma print_int_word n : 0 <= n -> word (print_int n) = true.
Proof.
  intros Hn. unfold print_int. replace (n <? 0) with false by lia. apply word_iff. split; [by apply print_uint_nonempty|].
  eapply Forall_impl; [apply print_uint_digits|]. apply net_digit_printable.
Qed.

Lemma join_columns w ws : join_with " "%char (w :: ws) = w ++ columns (map (pair 0%nat) ws).
Proof.
  revert w. induction ws as [|w' ws IH]; intros w; [by rewrite app_nil_r|].
  change (join_with " "%char (w :: w' :: ws)) with (w ++ " "%char :: join_with " "%char (w' :: ws)). rewrite IH. reflexivity.
Qed.

Lemma words_one_line ws : ws <> [] -> Forall (fun w => word w = true) ws -> one_line (join_with " "%char ws).
Proof.
  intros Hne Hw. destruct Hw as [|w ws Hw Hws]; [done|]. rewrite join_columns. split.
  - apply bounded_line; [done|]. apply Forall_fmap. eapply Forall_impl; [exact Hws|]. done.
  - rewrite not_elem_of_app. split; [by apply words_no_newline|]. unfold columns. clear Hw Hne. induction Hws as [|x ws Hx Hws IH]; [set_solver|]. cbn [map concat].
    rewrite !not_elem_of_app. split_and!; [by_not_in|by apply words_no_newline|done].
Qed.

Lemma fields_join ws : Forall (fun w => word w = true) ws -> fields (join_with " "%char ws) = ws.
Proof.
  destruct 1 as [|w ws Hw Hws]; [done|]. rewrite join_columns.
  rewrite fields_line; [|done|apply Forall_fmap; eapply Forall_impl; [exact Hws|]; done]. f_equal. rewrite map_map. apply map_id.
Qed.

(** ** Values of a key *)

Lemma values_app key ps qs : values_of key (ps ++ qs) = values_of key ps ++ values_of key qs.
Proof. unfold values_of. by rewrite List.filter_app, map_app. Qed.

Lemma values_set key k v : values_of key (set_pair k v) = if str_eqb k key then (if str_eqb v [] then [] else [v]) else [].
Proof. unfold set_pair, values_of. destruct (str_eqb v []); cbn; by destruct (str_eqb k key). Qed.

Lemma values_map key k vs : values_of key (map (mkPair k) vs) = if str_eqb k key then vs else [].
Proof.
  unfold values_of. induction vs as [|v vs IH]; [by destruct (str_eqb k key)|]. cbn [map List.filter Key]. destruct (str_eqb k key); [|done]. cbn. by rewrite IH.
Qed.

Lemma section_values_app s1 s2 sec key : sectionValues (s1 ++ s2) sec key = sectionValues s1 sec key ++ sectionValues s2 sec key.
Proof. unfold sectionValues. by rewrite map_app, concat_app. Qed.

Lemma section_values_cons s ss sec key : sectionValues (s :: ss) sec key =
  (if str_eqb (secName s) sec then values_of key (Pairs s) else []) ++ sectionValues ss sec key.
Proof. reflexivity. Qed.

(** Comparisons of literals. *)
Ltac lit := repeat match goal with |- context [str_eqb (str ?a) (str ?b)] =>
  let r := eval vm_compute in (str_eqb (str a) (str b)) in change (str_eqb (str a) (str b)) with r end; cbv iota.

Lemma first_or_none v : match (if str_eqb v [] then [] else [v]) with [] => [] | x :: _ => x end = v.
Proof. destruct (str_eqb v []) eqn:E; [|done]. by apply str_eqb_eq in E. Qed.

Lemma omap_blocks {A} (f : A -> iniSection) l : omap id (concat (map (fun a => [None; Some (f a)]) l)) = map f l.
Proof. induction l as [|a l IH]; [done|]. cbn. by f_equal. Qed.

Definition iface_sections (c : InterfaceConfig) : list iniSection :=
  [one #"Match" #"Name" (MatchName c); mkSection #"Network" (network_pairs c)] ++ map (one #"Address" #"Address") (Addresses c) ++
  (if str_eqb (Gateway c) [] then [] else [one #"Route" #"Gateway" (Gateway c)]).

Lemma iface_layout_sections c : omap id (iface_layout c) = iface_sections c.
Proof. unfold iface_layout, iface_sections. rewrite !omap_app, omap_blocks. by destruct (str_eqb (Gateway c) []). Qed.

Lemma set_pair_ok k v : key_ok k = true -> (str_eqb v [] = false -> one_line v) -> Forall pair_ok (set_pair k v).
Proof. intros Hk Hv. unfold set_pair. destruct (str_eqb v []); repeat constructor; [done|by apply Hv..]. Qed.

Lemma dhcp_line s : validateDHCP s = Ok tt -> str_eqb s [] = false -> one_line s.
Proof.
  unfold validateDHCP. destruct (existsb _ _) eqn:E; [|done]. intros _ Hne. apply word_one_line. apply existsb_exists in E as (x & Hx & ->%str_eqb_eq).
  repeat (destruct Hx as [<-|Hx]; [done|]). done.
Qed.
Lemma link_local_line s : validateLinkLocal s = Ok tt -> str_eqb s [] = false -> one_line s.
Proof.
  unfold validateLinkLocal. destruct (existsb _ _) eqn:E; [|done]. intros _ Hne. apply word_one_line. apply existsb_exists in E as (x & Hx & ->%str_eqb_eq).
  repeat (destruct Hx as [<-|Hx]; [done|]). done.
Qed.

Record valid_parts (c : InterfaceConfig) : Prop := {
  vp_name : validateConfigName (cName c) = Ok tt; vp_match : validateMatchName (MatchName c) = Ok tt; vp_dhcp : validateDHCP (DHCP c) = Ok tt;
  vp_link : validateLinkLocal (LinkLocal c) = Ok tt; vp_addr : Forall (fun a => validateCIDR a = Ok tt) (Addresses c);
  vp_gw : str_eqb (Gateway c) [] = false -> validateIP (Gateway c) = Ok tt; vp_dns : Forall (fun a => validateIP a = Ok tt) (DNS c);
  vp_mtu : 0 <= MTU c <= 65535 }.

Lemma valid_interface c : validateInterfaceConfig c = Ok tt -> valid_parts c.
Proof.
  unfold validateInterfaceConfig. destruct (validateConfigName _) as [[]|] eqn:E1; [|done]. destruct (validateMatchName _) as [[]|] eqn:E2; [|done].
  destruct (validateDHCP _) as [[]|] eqn:E3; [|done]. destruct (validateLinkLocal _) as [[]|] eqn:E4; [|done].
  destruct (check_all validateCIDR _) as [[]|] eqn:E5; [|done]. destruct (if str_eqb (Gateway c) [] then _ else _) as [[]|] eqn:E6; [|done].
  destruct (check_all validateIP _) as [[]|] eqn:E7; [|done]. destruct (negb _) eqn:E8; [|done]. intros _.
  constructor; try done; [by apply check_all_Forall|intros Hg; by rewrite Hg in E6|by apply check_all_Forall|lia].
Qed.

Lemma iface_sections_ok c : valid_parts c -> Forall (fun d => word d = true) (Domains c) -> Forall section_ok (iface_sections c).
Proof.
  intros [] Hd. unfold iface_sections. cbn [app]. constructor; [|constructor].
  - split; [done|]. constructor; [|constructor]. split; [done|]. by apply word_one_line, match_word.
  - split; [done|]. cbn [Pairs]. unfold network_pairs. rewrite !Forall_app. split_and!.
    + apply set_pair_ok; [done|by apply dhcp_line].
    + apply Forall_fmap. eapply Forall_impl; [exact vp_dns0|]. intros x Hx. split; [done|]. by apply word_one_line, ip_word.
    + apply set_pair_ok; [done|]. intros E. apply words_one_line; [|done]. intros E'. by rewrite E' in E.
    + apply set_pair_ok; [done|by apply link_local_line].
    + destruct (0 <? MTU c); repeat constructor; apply word_one_line, print_int_word; lia.
  - rewrite Forall_app. split.
    + apply Forall_fmap. eapply Forall_impl; [exact vp_addr0|]. intros x Hx. split; [done|]. repeat constructor; by apply word_one_line, cidr_word.
    + destruct (str_eqb (Gateway c) []) eqn:E; repeat constructor; by apply word_one_line, ip_word, vp_gw0.
Qed.

Lemma sscan_digits n : 0 <= n <= MaxInt64 -> sscan_int (print_int n) = n.
Proof.
  intros Hn. unfold sscan_int. pose proof (print_int_word n ltac:(lia)) as Hw. assert (Hd : Forall (fun c => is_digit c = true) (print_int n)).
  { unfold print_int. replace (n <? 0) with false by lia. apply print_uint_digits. }
  assert (Hl : leading_digits (print_int n) = print_int n).
  { clear Hw. induction Hd as [|c s Hc Hs IH]; [done|]. cbn. rewrite Hc. by rewrite IH. }
  destruct (print_int n) as [|c s] eqn:E; [done|]. apply Forall_cons in Hd as [Hc _].
  assert (ch_eqb c "-"%char || ch_eqb c "+"%char = false) as ->.
  { apply orb_false_iff. split; apply ch_eqb_neq; intros ->; done. }
  cbn [app]. rewrite Hl, <- E. unfold print_int. replace (n <? 0) with false by lia. by rewrite print_uint_atoi.
Qed.

Definition shown_config (c : InterfaceConfig) : InterfaceConfig :=
  mkIface (cName c) (MatchName c) (DHCP c) (Addresses c) (Gateway c) (DNS c) (Domains c) (MTU c) (LinkLocal c) false.

Lemma address_values l rest sec key : sectionValues (map (one #"Address" #"Address") l ++ rest) sec key =
  (if str_eqb #"Address" sec then (if str_eqb #"Address" key then l else []) else []) ++ sectionValues rest sec key.
Proof.
  rewrite section_values_app. f_equal. unfold sectionValues. induction l as [|a l IH]; [by destruct (str_eqb #"Address" sec), (str_eqb #"Address" key)|].
  cbn [map concat]. rewrite IH. cbn [one secName Pairs]. unfold values_of. cbn [List.filter Key].
  by destruct (str_eqb #"Address" sec), (str_eqb #"Address" key).
Qed.

(** An interface that validates reads back as it was requested. *)
Lemma interface_roundtrip c : validateInterfaceConfig c = Ok tt -> Forall (fun d => word d = true) (Domains c) -> short_lines (iface_layout c) ->
  parseInterfaceConfig (cName c) (renderNetworkFile c) = shown_config c.
Proof.
  intros Hv Hd Hs. apply valid_interface in Hv. unfold parseInterfaceConfig. rewrite iface_lines by done.
  rewrite parse_layout; [|rewrite iface_layout_sections; by apply iface_sections_ok|done]. rewrite iface_layout_sections.
  set (gw := if str_eqb (Gateway c) [] then [] else [one #"Route" #"Gateway" (Gateway c)]).
  assert (Egw : forall sec key, sectionValues gw sec key =
    if str_eqb #"Route" sec then (if str_eqb #"Gateway" key then (if str_eqb (Gateway c) [] then [] else [Gateway c]) else []) else []).
  { intros sec key. unfold gw. destruct (str_eqb (Gateway c) []); [by destruct (str_eqb #"Route" sec), (str_eqb #"Gateway" key)|].
    rewrite section_values_cons. cbn [one secName Pairs]. unfold values_of. cbn [List.filter Key].
    by destruct (str_eqb #"Route" sec), (str_eqb #"Gateway" key). }
  assert (E : forall sec key, sectionValues (iface_sections c) sec key =
    (if str_eqb #"Match" sec then (if str_eqb #"Name" key then [MatchName c] else []) else []) ++
    (if str_eqb #"Network" sec then values_of key (network_pairs c) else []) ++
    (if str_eqb #"Address" sec then (if str_eqb #"Address" key then Addresses c else []) else []) ++ sectionValues gw sec key).
  { intros sec key. unfold iface_sections. cbn [app]. rewrite !section_values_cons. fold gw. rewrite address_values. cbn [one secName Pairs].
    unfold values_of at 1. cbn [List.filter Key]. by destruct (str_eqb #"Name" key). }
  assert (EN : forall key, values_of key (network_pairs c) =
    (if str_eqb #"DHCP" key then (if str_eqb (DHCP c) [] then [] else [DHCP c]) else []) ++ (if str_eqb #"DNS" key then DNS c else []) ++
    (if str_eqb #"Domains" key then (if str_eqb (join_with " "%char (Domains c)) [] then [] else [join_with " "%char (Domains c)]) else []) ++
    (if str_eqb #"LinkLocalAddressing" key then (if str_eqb (LinkLocal c) [] then [] else [LinkLocal c]) else []) ++
    (if str_eqb #"MTUBytes" key then (if 0 <? MTU c then [print_int (MTU c)] else []) else [])).
  { intros key. unfold network_pairs. rewrite !values_app, !values_set, values_map. do 4 f_equal. unfold values_of. destruct (0 <? MTU c); cbn; by destruct (str_eqb #"MTUBytes" key). }
  unfold firstSectionValue, addressBlocks, shown_config. rewrite !E, !EN, !Egw. lit. cbn [app]. rewrite ?app_nil_r, !first_or_none.
  f_equal.
  - destruct (str_eqb (join_with " "%char (Domains c)) []) eqn:Ej.
    + apply str_eqb_eq in Ej. destruct (Domains c) as [|d ds] eqn:Ed; [done|]. by apply words_join_nonempty in Ej.
    + by apply fields_join.
  - destruct Hv as [_ _ _ _ _ _ _ Hm]. destruct (Z.ltb_spec 0 (MTU c)); [|change (str_eqb [] []) with true; cbv iota; lia].
    rewrite (proj2 (str_eqb_neq _ _)); [apply sscan_digits; unfold MaxInt64; lia|]. intros E'. pose proof (print_int_word (MTU c) ltac:(lia)) as Hw. by rewrite E' in Hw.
Qed.

(** ** Devices *)

Lemma device_sections name address : omap id (device_layout name address) =
  one #"Match" #"Name" name ::
  (if str_eqb address [] then [one #"Network" #"DHCP" #"yes"] else [mkSection #"Network" []; one #"Address" #"Address" address]).
Proof. unfold device_layout. by destruct (str_eqb address []). Qed.

Lemma one_ok name k v : word name = true -> key_ok k = true -> word v = true -> section_ok (one name k v).
Proof. intros Hn Hk Hv. split; [done|]. constructor; [|constructor]. split; [done|]. by apply word_one_line. Qed.

Lemma device_address name address : word name = true -> (str_eqb address [] = false -> word address = true) -> short_lines (device_layout name address) ->
  first_address (unlines (device_lines name address)) = address.
Proof.
  intros Hn Ha Hs. unfold first_address. rewrite device_lines_layout, parse_layout; [|rewrite device_sections|done].
  - rewrite device_sections. destruct (unlines _) eqn:E; [destruct (str_eqb address []); done|]. clear E. unfold addressBlocks.
    destruct (str_eqb address []) eqn:Ea; rewrite !section_values_cons; cbn [one secName Pairs]; lit; [by apply str_eqb_eq in Ea as ->|].
    unfold values_of. cbn [List.filter Key]. by lit.
  - constructor; [by apply one_ok|]. destruct (str_eqb address []) eqn:Ea; (constructor; [|constructor; [|constructor]]) || (constructor; [|constructor]);
      try (by apply one_ok; auto); done.
Qed.

Lemma netdev_parsed name kind s : word name = true -> word kind = true -> section_ok s -> short_lines (netdev_layout name kind s) ->
  parseINI (unlines (layout_lines (netdev_layout name kind s))) = [mkSection #"NetDev" [mkPair #"Name" name; mkPair #"Kind" kind]; s].
Proof.
  intros Hn Hk Hs Hl. rewrite parse_layout; [done| |done]. cbn. constructor; [|by constructor]. split; [done|].
  constructor; [|constructor; [|constructor]]; (split; [done|]); by apply word_one_line.
Qed.

Lemma netdev_kind name kind s : word name = true -> word kind = true -> section_ok s -> short_lines (netdev_layout name kind s) ->
  detectNetdevKind (unlines (layout_lines (netdev_layout name kind s))) = Ok kind.
Proof.
  intros Hn Hk Hs Hl. unfold detectNetdevKind. rewrite netdev_parsed by done. unfold firstSectionValue. rewrite section_values_cons. cbn [secName Pairs]. lit.
  unfold values_of. cbn [List.filter Key]. lit. cbn [map app Value]. rewrite (proj2 (str_eqb_neq kind [])); [done|]. by apply word_iff in Hk as [? _].
Qed.

(** A file that ties an interface to a device. *)
Lemma link_parsed name key owner : word name = true -> word owner = true -> key_ok key = true -> (length key <= 64)%nat ->
  (length name <= 64)%nat -> (length owner <= 64)%nat ->
  parseINI (unlines [ #"[Match]"; kv #"Name" name; []; #"[Network]"; kv key owner]) = [one #"Match" #"Name" name; one #"Network" key owner].
Proof.
  intros Hn Ho Hk Lk Ln Lo. set (l := [Some (one #"Match" #"Name" name); None; Some (one #"Network" key owner)]).
  change (unlines _) with (unlines (layout_lines l)). rewrite parse_layout; [done| |].
  - constructor; [by apply one_ok|]. constructor; [by apply one_ok|constructor].
  - unfold short_lines, l, layout_lines. cbn [map concat app one secName Pairs].
    assert (Hkv : forall a b, (length a <= 64)%nat -> (length b <= 64)%nat -> (length (kv a b) < Snapshots.max_token)%nat).
    { intros a b Ha Hb. unfold kv, Snapshots.max_token. rewrite !length_app. change (length #"=") with 1%nat. lia. }
    assert (Hs : forall x : gostr, (length x <= 64)%nat -> (length x < Snapshots.max_token)%nat) by (intros x; unfold Snapshots.max_token; lia).
    unfold sec_lines. cbn [map app one secName Pairs Key Value].
    repeat (constructor; [first [by apply Hkv | apply Hkv; [by apply Nat.leb_le|done] | apply Hs; by apply Nat.leb_le]|]). constructor.
Qed.

Definition vlan_section (v : VLAN) : iniSection := one #"VLAN" #"Id" (print_int (vID v)).
Definition bond_section (b : Bond) : iniSection :=
  mkSection #"Bond" (mkPair #"Mode" (Mode b) :: if 0 <? MIIMonSec b then [mkPair #"MIIMonitorSec" (print_int (MIIMonSec b) ++ #"s")] else []).

Lemma vlan_netdev v : renderVLANNetdev v = unlines (layout_lines (netdev_layout (vName v) #"vlan" (vlan_section v))).
Proof. reflexivity. Qed.
Lemma bond_netdev b : renderBondNetdev b = unlines (layout_lines (netdev_layout (bName b) #"bond" (bond_section b))).
Proof. unfold renderBondNetdev, bond_section, netdev_layout. by destruct (0 <? MIIMonSec b). Qed.

Lemma valid_vlan v : validateVLAN v = Ok tt -> validateConfigName (vName v) = Ok tt /\ validateMatchName (Parent v) = Ok tt /\ 1 <= vID v <= 4094 /\
  (str_eqb (vAddress v) [] = false -> word (vAddress v) = true).
Proof.
  unfold validateVLAN. destruct (validateConfigName _) as [[]|] eqn:E1; [|done]. destruct (validateMatchName _) as [[]|] eqn:E2; [|done].
  destruct (negb _) eqn:E3; [|done]. intros E4. split_and!; [done|done|lia|lia|]. intros Ha. rewrite Ha in E4. by apply cidr_word.
Qed.

Lemma check_members_all seen ms : check_members seen ms = Ok tt -> Forall (fun m => validateMatchName m = Ok tt) ms.
Proof.
  revert seen. induction ms as [|m ms IH]; intros seen; [constructor|]. cbn. destruct (validateMatchName m) as [[]|] eqn:E; [|done].
  destruct (negb _); [|done]. intros H. constructor; [done|]. by eapply IH.
Qed.

Lemma valid_bond b : validateBond b = Ok tt -> validateConfigName (bName b) = Ok tt /\ word (Mode b) = true /\
  Forall (fun m => validateMatchName m = Ok tt) (Members b) /\ (str_eqb (bAddress b) [] = false -> word (bAddress b) = true) /\ 0 <= MIIMonSec b.
Proof.
  unfold validateBond. destruct (validateConfigName _) as [[]|] eqn:E1; [|done]. destruct (existsb _ _) eqn:E2; [|done]. destruct (negb (_ =? _)%nat); [|done].
  destruct (check_members _ _) as [[]|] eqn:E3; [|done]. destruct (if str_eqb (bAddress b) [] then _ else _) as [[]|] eqn:E4; [|done].
  destruct (negb _) eqn:E5; [|done]. intros _. split_and!; [done| |by eapply check_members_all| |lia].
  - apply existsb_exists in E2 as (x & Hx & ->%str_eqb_eq). repeat (destruct Hx as [<-|Hx]; [done|]). done.
  - intros Ha. rewrite Ha in E4. by apply cidr_word.
Qed.

Definition shown_vlan (v : VLAN) : VLAN := mkVLAN (vName v) [] (vID v) (vAddress v) false.
Definition shown_bond (b : Bond) : Bond := mkBond (bName b) (Mode b) [] (bAddress b) (MIIMonSec b) false.

Definition vlan_fits (v : VLAN) : Prop :=
  short_lines (netdev_layout (vName v) #"vlan" (vlan_section v)) /\ short_lines (device_layout (vName v) (vAddress v)).
Definition bond_fits (b : Bond) : Prop :=
  short_lines (netdev_layout (bName b) #"bond" (bond_section b)) /\ short_lines (device_layout (bName b) (bAddress b)) /\ MIIMonSec b <= MaxInt64.

Lemma vlan_roundtrip v : validateVLAN v = Ok tt -> vlan_fits v ->
  detectNetdevKind (renderVLANNetdev v) = Ok #"vlan" /\ parseVLAN (vName v) (renderVLANNetdev v) (renderVLANNetwork v) = shown_vlan v.
Proof.
  intros (Hn%config_name_word & _ & Hid & Ha)%valid_vlan [Hs1 Hs2]. assert (Hsec : section_ok (vlan_section v)).
  { apply one_ok; [done|done|]. apply print_int_word. lia. }
  rewrite vlan_netdev. split; [by apply netdev_kind|]. unfold parseVLAN, shown_vlan. rewrite netdev_parsed by done. unfold renderVLANNetwork.
  rewrite device_address by done. f_equal. unfold firstSectionValue. rewrite !section_values_cons. cbn [secName Pairs vlan_section one]. lit.
  unfold values_of. cbn [List.filter Key]. lit. cbn [app map Value sectionValues concat]. pose proof (print_int_word (vID v) ltac:(lia)) as Hw.
  rewrite (proj2 (str_eqb_neq _ _)) by (intros E; by rewrite E in Hw). apply sscan_digits. unfold MaxInt64. lia.
Qed.

Lemma bond_roundtrip b : validateBond b = Ok tt -> bond_fits b ->
  detectNetdevKind (renderBondNetdev b) = Ok #"bond" /\ parseBond (bName b) (renderBondNetdev b) (renderBondNetwork b) = shown_bond b.
Proof.
  intros (Hn%config_name_word & Hm & _ & Ha & Hi)%valid_bond (Hs1 & Hs2 & Hmax). assert (Hsec : section_ok (bond_section b)).
  { split; [done|]. constructor; [split; [done|by apply word_one_line]|]. destruct (0 <? MIIMonSec b); [|constructor]. constructor; [|constructor]. split; [done|].
    (apply word_one_line, word_iff; pose proof (print_int_word (MIIMonSec b) Hi) as [Hne Hw]%word_iff; split; [by destruct (print_int (MIIMonSec b))|]; apply Forall_app; by split; [|repeat constructor]). }
  rewrite bond_netdev. split; [by apply netdev_kind|]. unfold parseBond, shown_bond. rewrite netdev_parsed by done. unfold renderBondNetwork.
  rewrite device_address by done. unfold firstSectionValue. rewrite !section_values_cons. cbn [secName Pairs bond_section]. lit.
  unfold values_of. cbn [List.filter Key]. lit. cbn [app map Value sectionValues concat]. f_equal.
  destruct (Z.ltb_spec 0 (MIIMonSec b)).
  - cbn [List.filter Key]. lit. cbn [app map Value]. rewrite (proj2 (str_eqb_neq _ _)) by (by destruct (print_int (MIIMonSec b))).
    rewrite trim_suffix_app. by apply sscan_digits.
  - cbn. change (str_eqb [] []) with true. cbv iota. lia.
Qed.

(** ** Paths *)

(** A rooted directory and a prefix that is part of a file name. *)
Definition plain_manager (m : Manager) : Prop := is_rooted (dir m) = true /\ "/"%char ∉ prefix m.

Lemma long_plain x : (2 < length x)%nat -> "/"%char ∉ x -> plain_seg x.
Proof. intros Hl Hx. split_and!; [| | |done]; intros ->; vm_compute in Hl; lia. Qed.

Lemma managed_path_inj m x y : plain_manager m -> (2 < length x)%nat -> (2 < length y)%nat -> "/"%char ∉ x -> "/"%char ∉ y ->
  Join [dir m; prefix m ++ x] = Join [dir m; prefix m ++ y] -> x = y.
Proof.
  intros [Hr Hp] Hx Hy Sx Sy E.
  assert (P : forall z, (2 < length z)%nat -> "/"%char ∉ z -> plain_seg (prefix m ++ z)).
  { intros z Hz Sz. apply long_plain; [rewrite length_app; lia|]. rewrite not_elem_of_app. done. }
  assert (J : forall z, (2 < length z)%nat -> "/"%char ∉ z -> Join [dir m; prefix m ++ z] = render true (clean_segs (dir m) ++ [prefix m ++ z])).
  { intros z Hz Sz. apply (Join_segs (dir m) [prefix m ++ z]); [done|done|]. constructor; [by apply P|constructor]. }
  rewrite !J in E by done.
  apply render_inj in E; [|apply Forall_app; split; [by apply clean_segs_plain|constructor; [by apply P|constructor]]..].
  apply app_inv_head in E. injection E as E. by apply app_inv_head in E.
Qed.

(** ** On disk *)

Inductive request := RInterface (c : InterfaceConfig) | RVLAN (v : VLAN) | RBond (b : Bond).

Section Disk.
Context {W : Type} `{HostExec W, FileWriter W} (files : W -> gmap gostr gostr) `{!FileLaws W files}.
Context (run_files : forall b args w, files (Run b args w).1 = files w) (reads : forall p w, (fw_ReadFile p w).2 <> ReadFailed).

Definition apply (m : Manager) (r : request) : M W (option net_err) :=
  match r with RInterface c => ApplyInterfaceConfig m c | RVLAN v => ApplyVLAN m v | RBond b => ApplyBond m b end.
Definition validate (r : request) : res net_err unit :=
  match r with RInterface c => validateInterfaceConfig c | RVLAN v => validateVLAN v | RBond b => validateBond b end.
Definition dry (r : request) : bool := match r with RInterface c => cDryRun c | RVLAN v => vDryRun v | RBond b => bDryRun b end.
Definition request_name (r : request) : gostr := match r with RInterface c => cName c | RVLAN v => vName v | RBond b => bName b end.
Definition request_files (m : Manager) (r : request) : list (gostr * gostr) :=
  match r with RInterface c => [(networkFile m (cName c), renderNetworkFile c)] | RVLAN v => vlan_files m v | RBond b => bond_files m b end.
Definition fits (r : request) : Prop :=
  match r with
  | RInterface c => Forall (fun d => word d = true) (Domains c) /\ short_lines (iface_layout c)
  | RVLAN v => vlan_fits v
  | RBond b => bond_fits b
  end.
(** What is read back: the parent of a VLAN and the members of a bond are
    in files of their own. *)
Definition shown (r : request) : ManagedConfig :=
  match r with RInterface c => KindInterface (shown_config c) | RVLAN v => KindVLAN (shown_vlan v) | RBond b => KindBond (shown_bond b) end.

Lemma apply_eq m r w : apply m r w =
  match validate r with Err e => (w, Some (Some e)) | Ok _ => if dry r then (w, Some None) else write_all m (request_files m r) w end.
Proof.
  destruct r; cbn [apply validate dry request_files]; unfold ApplyInterfaceConfig, ApplyVLAN, ApplyBond, ret;
    [destruct (validateInterfaceConfig c), (cDryRun c)|destruct (validateVLAN v), (vDryRun v)|destruct (validateBond b), (bDryRun b)]; done.
Qed.

Lemma write_all_files m fs w w' : write_all m fs w = (w', Some None) -> files w' = fold_left (fun f pd => <[pd.1 := pd.2]> f) fs (files w).
Proof.
  revert w. induction fs as [|[p d] fs IH]; intros w; cbn [write_all fold_left].
  - unfold reload, bind, call, ret. pose proof (run_files (networkctl m) [ #"reload"] w) as Hf. destruct (Run _ _ w) as [w1 [|]]; [|done]. by intros [= <-].
  - unfold bind at 1, call at 1. destruct (fw_Write p d w) as [w1 []] eqn:Ew; cbn [negb]; [|done]. intros E. apply write_law in Ew. rewrite (IH w1 E). cbn. by rewrite Ew.
Qed.

Lemma fold_insert_other (fs : list (gostr * gostr)) (f : gmap gostr gostr) q : q ∉ map fst fs -> fold_left (fun f pd => <[pd.1 := pd.2]> f) fs f !! q = f !! q.
Proof.
  revert f. induction fs as [|[p d] fs IH]; intros f Hq; [done|]. cbn in *. apply not_elem_of_cons in Hq as [Hne Hq]. rewrite IH by done. by rewrite lookup_insert_ne.
Qed.

Lemma config_name_slash n : validateConfigName n = Ok tt -> "/"%char ∉ n.
Proof.
  unfold validateConfigName, check_file_name. destruct (negb (str_eqb n [])), (length n <=? 64)%nat, (negb (has_prefix n #"-")); try done.
  destruct (forallb _ n) eqn:E; [|done]. intros _ Hin. rewrite forallb_forall in E. by apply list_elem_of_In, E in Hin.
Qed.
Lemma match_name_slash n : validateMatchName n = Ok tt -> "/"%char ∉ n.
Proof.
  unfold validateMatchName. destruct (negb (str_eqb n [])), (length n <=? 64)%nat, (negb (has_prefix n #"-")); try done.
  destruct (forallb _ n) eqn:E; [|done]. intros _ Hin. rewrite forallb_forall in E. by apply list_elem_of_In, E in Hin.
Qed.

(** Files of one name with different endings. *)
Lemma endings_differ m n e e' : plain_manager m -> "/"%char ∉ n -> "/"%char ∉ e -> "/"%char ∉ e' -> (2 < length e)%nat -> (2 < length e')%nat -> e <> e' ->
  Join [dir m; prefix m ++ n ++ e] <> Join [dir m; prefix m ++ n ++ e'].
Proof.
  intros Hm Hn He He' Hl Hl' Hne E. apply managed_path_inj in E; [by apply app_inv_head in E|done|rewrite length_app; lia..| |]; by rewrite not_elem_of_app.
Qed.

Lemma sorted_keys_dom {A} (mp : gmap gostr A) k : k ∈ sorted_keys mp <-> is_Some (mp !! k).
Proof. unfold sorted_keys. rewrite stable_sort_perm, elem_of_elements. apply elem_of_dom. Qed.

Lemma member_paths m b p : is_Some (member_files m b !! p) -> exists mem, mem ∈ Members b /\ p = memberNetworkFile m (bName b) mem.
Proof.
  unfold member_files. assert (forall f : gmap gostr gostr, is_Some (fold_left (fun fs mem => <[memberNetworkFile m (bName b) mem := renderBondMemberNetwork (bName b) mem]> fs) (Members b) f !! p) ->
    is_Some (f !! p) \/ exists mem, mem ∈ Members b /\ p = memberNetworkFile m (bName b) mem) as Hf.
  { induction (Members b) as [|mem ms IH]; intros f Hp; [by left|]. cbn in Hp. destruct (IH _ Hp) as [H1|(mem' & ? & ?)]; [|right; exists mem'; set_solver].
    destruct (decide (memberNetworkFile m (bName b) mem = p)) as [<-|Hne]; [right; exists mem; set_solver|]. rewrite lookup_insert_ne in H1 by done. by left. }
  intros Hp. destruct (Hf ∅ Hp) as [Hn|?]; [|done]. rewrite lookup_empty in Hn. by destruct Hn.
Qed.

(** The paths of a request, by what follows the prefix. *)
Lemma request_paths m r q : validate r = Ok tt -> q ∈ map fst (request_files m r) ->
  exists e, q = Join [dir m; prefix m ++ request_name r ++ e] /\ "/"%char ∉ e /\ (2 < length e)%nat.
Proof.
  intros Hv. destruct r as [c|v|b]; cbn [request_files request_name].
  - intros ->%list_elem_of_singleton. exists #".network". split; [done|]. split; [by_not_in|vm_compute; lia].
  - intros Hq. cbn in Hq. apply elem_of_cons in Hq as [->|Hq]; [exists #".netdev"; split; [done|]; split; [by_not_in|vm_compute; lia]|].
    apply elem_of_cons in Hq as [->|Hq]; [exists #"-parent.network"; split; [done|]; split; [by_not_in|vm_compute; lia]|].
    apply list_elem_of_singleton in Hq as ->. exists #".network". split; [done|]. split; [by_not_in|vm_compute; lia].
  - unfold bond_files. rewrite map_app, map_map. cbn [map app fst]. rewrite map_id. intros Hq.
    apply elem_of_cons in Hq as [->|Hq]; [exists #".netdev"; split; [done|]; split; [by_not_in|vm_compute; lia]|].
    apply elem_of_cons in Hq as [->|Hq]; [exists #".network"; split; [done|]; split; [by_not_in|vm_compute; lia]|].
    apply sorted_keys_dom, member_paths in Hq as (mem & Hmem & ->). apply valid_bond in Hv as (_ & _ & Hms & _). rewrite Forall_forall in Hms.
    exists ( #"-member-" ++ mem ++ #".network"). split; [done|]. split; [|rewrite !length_app; change (length #"-member-") with 8%nat; lia].
    rewrite !not_elem_of_app. split_and!; [by_not_in|by apply match_name_slash, Hms|by_not_in].
Qed.

Lemma request_name_ok r : validate r = Ok tt -> validateConfigName (request_name r) = Ok tt.
Proof. destruct r; [intros Hv; by destruct (valid_interface c Hv)|by intros (? & _)%valid_vlan|by intros (? & _)%valid_bond]. Qed.

Lemma read_run p w : exists w', fw_ReadFile p w = (w', match files w !! p with Some d => Data d | None => Missing end) /\ files w' = files w.
Proof.
  pose proof (reads p w) as Hr. destruct (fw_ReadFile p w) as [w' r] eqn:E. apply read_law in E as [Ef E]. exists w'. split; [|done].
  cbn in Hr. destruct r; [by rewrite E|by rewrite E|done].
Qed.

Lemma get_run m n w : validateConfigName n = Ok tt -> exists w', GetConfig m n w = (w', Some
  (match files w !! netdevFile m n, files w !! networkFile m n with
   | Some netdev, nw => match detectNetdevKind netdev with
       | Err e => Err e
       | Ok kind => if str_eqb kind #"vlan" then Ok (KindVLAN (parseVLAN n netdev (default [] nw)))
                    else if str_eqb kind #"bond" then Ok (KindBond (parseBond n netdev (default [] nw))) else Err UnknownKind
       end
   | None, Some nw => Ok (KindInterface (parseInterfaceConfig n nw))
   | None, None => Err ErrNotFound
   end)).
Proof.
  intros Hn. unfold GetConfig. rewrite Hn. unfold loadConfig, bind, call, ret. destruct (read_run (netdevFile m n) w) as (w1 & -> & E1).
  destruct (read_run (networkFile m n) w1) as (w2 & -> & E2). exists w2. rewrite E1. by destruct (files w !! netdevFile m n), (files w !! networkFile m n).
Qed.

(** The files of a request after it was written. *)
Lemma written_netdev (m : Manager) (r : request) (f : gmap gostr gostr) : plain_manager m -> validate r = Ok tt ->
  fold_left (fun f pd => <[pd.1 := pd.2]> f) (request_files m r) f !! netdevFile m (request_name r) =
  match r with RInterface c => f !! netdevFile m (cName c) | RVLAN v => Some (renderVLANNetdev v) | RBond b => Some (renderBondNetdev b) end.
Proof.
  intros Hm Hv. pose proof (config_name_slash _ (request_name_ok r Hv)) as Hs.
  destruct r as [c|v|b]; cbn [request_files request_name] in *.
  - apply fold_insert_other. cbn. intros E%list_elem_of_singleton. revert E. apply endings_differ; try done; try by_not_in; vm_compute; lia.
  - unfold vlan_files. cbn [fold_left fst snd]. rewrite lookup_insert_ne, lookup_insert_ne; [apply lookup_insert_eq|..]; apply endings_differ; try done; try by_not_in; vm_compute; lia.
  - unfold bond_files. rewrite fold_left_app. cbn [fold_left fst snd]. rewrite fold_insert_other.
    + rewrite lookup_insert_ne; [apply lookup_insert_eq|]. apply endings_differ; try done; try by_not_in; vm_compute; lia.
    + rewrite map_map. cbn [fst]. rewrite map_id. intros (mem & Hmem & E)%sorted_keys_dom%member_paths. revert E. apply valid_bond in Hv as (_ & _ & Hms & _).
      rewrite Forall_forall in Hms. apply (endings_differ m (bName b) #".netdev" ( #"-member-" ++ mem ++ #".network")); try done; try by_not_in; [|vm_compute; lia|rewrite !length_app; change (length #"-member-") with 8%nat; lia].
      rewrite !not_elem_of_app. split_and!; [by_not_in|by apply match_name_slash, Hms|by_not_in].
Qed.

Lemma written_network (m : Manager) (r : request) (f : gmap gostr gostr) : plain_manager m -> validate r = Ok tt ->
  fold_left (fun f pd => <[pd.1 := pd.2]> f) (request_files m r) f !! networkFile m (request_name r) =
  Some (match r with RInterface c => renderNetworkFile c | RVLAN v => renderVLANNetwork v | RBond b => renderBondNetwork b end).
Proof.
  intros Hm Hv. pose proof (config_name_slash _ (request_name_ok r Hv)) as Hs.
  destruct r as [c|v|b]; cbn [request_files request_name] in *.
  - cbn [fold_left fst snd]. apply lookup_insert_eq.
  - unfold vlan_files. cbn [fold_left fst snd]. apply lookup_insert_eq.
  - unfold bond_files. rewrite fold_left_app. cbn [fold_left fst snd]. rewrite fold_insert_other; [apply lookup_insert_eq|].
    rewrite map_map. cbn [fst]. rewrite map_id. intros (mem & Hmem & E)%sorted_keys_dom%member_paths. revert E. apply valid_bond in Hv as (_ & _ & Hms & _).
    rewrite Forall_forall in Hms. apply (endings_differ m (bName b) #".network" ( #"-member-" ++ mem ++ #".network")); try done; try by_not_in; [|vm_compute; lia|rewrite !length_app; change (length #"-member-") with 8%nat; lia].
    rewrite !not_elem_of_app. split_and!; [by_not_in|by apply match_name_slash, Hms|by_not_in].
Qed.

(** ** The files that tie interfaces to a device *)

(** Path, interface and key of each: the parent of a VLAN, the members of a
    bond. *)
Definition links (m : Manager) (r : request) : list (gostr * gostr * gostr) :=
  match r with
  | RInterface _ => []
  | RVLAN v => [(parentFile m (vName v), Parent v, #"VLAN")]
  | RBond b => map (fun mem => (memberNetworkFile m (bName b) mem, mem, #"Bond")) (Members b)
  end.

(** A file ties an interface to a device: it matches the interface and
    names the device under the key. *)
Definition ties (fs : gmap gostr gostr) (device : gostr) (l : gostr * gostr * gostr) : Prop :=
  exists d, fs !! l.1.1 = Some d /\ sectionValues (parseINI d) #"Match" #"Name" = [l.1.2] /\
    sectionValues (parseINI d) #"Network" l.2 = [device].

Lemma name_length n : validateConfigName n = Ok tt -> (length n <= 64)%nat.
Proof.
  unfold validateConfigName, check_file_name. destruct (negb (str_eqb n [])); [|done]. destruct (length n <=? 64)%nat eqn:E; [|done]. intros _. by apply Nat.leb_le.
Qed.
Lemma match_length n : validateMatchName n = Ok tt -> (length n <= 64)%nat.
Proof.
  unfold validateMatchName. destruct (negb (str_eqb n [])); [|done]. destruct (length n <=? 64)%nat eqn:E; [|done]. intros _. by apply Nat.leb_le.
Qed.

Lemma link_ties fs device p name key : validateMatchName name = Ok tt -> validateConfigName device = Ok tt -> key_ok key = true ->
  (length key <= 64)%nat ->
  fs !! p = Some (unlines [ #"[Match]"; kv #"Name" name; []; #"[Network]"; kv key device]) -> ties fs device (p, name, key).
Proof.
  intros Hn Hd Hk Hl Hf. eexists. split; [exact Hf|]. cbn [fst snd].
  rewrite link_parsed by first [done|by apply match_word|by apply config_name_word|by apply match_length|by apply name_length].
  rewrite !section_values_cons. cbn [one secName Pairs]. lit. unfold values_of. cbn [List.filter Key]. lit.
  rewrite str_eqb_refl. by split.
Qed.

Lemma member_file_at m b mem : plain_manager m -> validateBond b = Ok tt -> mem ∈ Members b ->
  member_files m b !! memberNetworkFile m (bName b) mem = Some (renderBondMemberNetwork (bName b) mem).
Proof.
  intros Hm (Hn%config_name_slash & _ & Hms & _)%valid_bond Hin.
  assert (Hinj : forall x y, x ∈ Members b -> y ∈ Members b -> memberNetworkFile m (bName b) x = memberNetworkFile m (bName b) y -> x = y).
  { rewrite Forall_forall in Hms. assert (Hs : forall x, x ∈ Members b -> "/"%char ∉ bName b ++ #"-member-" ++ x ++ #".network").
    { intros x Hx. rewrite !not_elem_of_app. split_and!; [done|by_not_in|by apply match_name_slash, Hms|by_not_in]. }
    intros x y Hx Hy E. apply managed_path_inj in E; [|done|rewrite !length_app; change (length #".network") with 8%nat; lia..|by apply Hs|by apply Hs].
    apply app_inv_head, app_inv_head in E. by apply app_inv_tail in E. }
  unfold member_files. assert (Hgo : forall l (f : gmap gostr gostr), (forall x, x ∈ l -> x ∈ Members b) ->
    (mem ∈ l \/ f !! memberNetworkFile m (bName b) mem = Some (renderBondMemberNetwork (bName b) mem)) ->
    fold_left (fun fs mem => <[memberNetworkFile m (bName b) mem := renderBondMemberNetwork (bName b) mem]> fs) l f
      !! memberNetworkFile m (bName b) mem = Some (renderBondMemberNetwork (bName b) mem)); [|by apply Hgo; [|left]].
  induction l as [|x l IH]; intros f Hl Hf; cbn [fold_left]; [by destruct Hf as [Hf%elem_of_nil|Hf]|].
  apply IH; [set_solver|]. destruct (decide (x = mem)) as [->|Hne]; [right; apply lookup_insert_eq|].
  destruct Hf as [Hf|Hf]; [left; set_solver|]. right. rewrite lookup_insert_ne; [done|]. intros E. apply Hne, Hinj; [set_solver|done|done].
Qed.

Lemma fold_insert_in (fs : list (gostr * gostr)) (f : gmap gostr gostr) p d : NoDup (map fst fs) -> (p, d) ∈ fs ->
  fold_left (fun f pd => <[pd.1 := pd.2]> f) fs f !! p = Some d.
Proof.
  revert f. induction fs as [|[q x] fs IH]; intros f Hnd Hin; [by apply elem_of_nil in Hin|]. cbn [map fst fold_left snd] in *.
  apply NoDup_cons in Hnd as [Hq Hnd]. apply elem_of_cons in Hin as [[= -> ->]|Hin]; [|by apply IH].
  rewrite fold_insert_other by done. apply lookup_insert_eq.
Qed.

Lemma written_links m r f : plain_manager m -> validate r = Ok tt ->
  Forall (ties (fold_left (fun f pd => <[pd.1 := pd.2]> f) (request_files m r) f) (request_name r)) (links m r).
Proof.
  intros Hm Hv. pose proof (config_name_slash _ (request_name_ok r Hv)) as Hs. destruct r as [c|v|b]; cbn [links request_files request_name validate] in *; [constructor| |].
  - constructor; [|constructor]. apply valid_vlan in Hv as (Hn & Hp & _). apply link_ties; [done|done|done|by apply Nat.leb_le|].
    unfold vlan_files. cbn [fold_left fst snd]. rewrite lookup_insert_ne; [apply lookup_insert_eq|]. apply endings_differ; try done; try by_not_in; vm_compute; lia.
  - pose proof Hv as (Hn & _ & Hms & _)%valid_bond. apply Forall_forall. intros l (mem & -> & Hin)%list_elem_of_fmap. rewrite Forall_forall in Hms.
    apply link_ties; [by apply Hms|done|done|by apply Nat.leb_le|]. unfold bond_files. rewrite fold_left_app. apply fold_insert_in.
    + rewrite map_map. cbn [fst]. rewrite map_id. unfold sorted_keys. rewrite stable_sort_perm. apply NoDup_elements.
    + apply list_elem_of_fmap. exists (memberNetworkFile m (bName b) mem). split; [by rewrite member_file_at|].
      apply sorted_keys_dom. rewrite member_file_at by done. by eexists.
Qed.

(** C29. A refused request and a dry run change nothing. A configuration
    that was applied without an error changed only managed files of its
    name; the files for the parent of a VLAN and for each member of a
    bond are there and tie that interface to the device; and GetConfig
    gives back the request without the parent and the members, which it
    never returns. This holds when files can be read, lines are below 64
    KB, and, for an interface, its domains are plain words and no device
    file of its name exists. *)
Theorem config_on_disk m r w w' (Hm : plain_manager m) (Hfit : fits r)
  (Hnew : match r with RInterface c => files w !! netdevFile m (cName c) = None | _ => True end) :
  (forall e, apply m r w = (w', Some (Some e)) -> validate r = Err e -> w' = w) /\ (apply m r w = (w', Some None) -> dry r = true -> w' = w) /\
  (apply m r w = (w', Some None) -> dry r = false ->
    (forall q, q ∉ map fst (request_files m r) -> files w' !! q = files w !! q) /\
    (forall q, q ∈ map fst (request_files m r) -> exists x, q = Join [dir m; prefix m ++ request_name r ++ x] /\ "/"%char ∉ x) /\
    Forall (ties (files w') (request_name r)) (links m r) /\
    exists w'', GetConfig m (request_name r) w' = (w'', Some (Ok (shown r)))).
Proof.
  rewrite apply_eq. destruct (validate r) as [[]|e0] eqn:Hv; [|by split; [intros e [= <- _]|split]]. split; [done|].
  destruct (dry r) eqn:Hd; [split; [by intros [= <-]|done]|]. split; [done|]. intros Hw _. apply write_all_files in Hw.
  split; [intros q Hq; rewrite Hw; by apply fold_insert_other|]. split; [intros q Hq; destruct (request_paths m r q Hv Hq) as (e & ? & ? & _); eauto|].
  split; [rewrite Hw; by apply written_links|].
  destruct (get_run m (request_name r) w' (request_name_ok r Hv)) as (w'' & ->). exists w''. rewrite Hw, written_netdev, written_network by done.
  destruct r as [c|v|b]; cbn [request_name shown fits default validate] in *.
  - rewrite Hnew. destruct Hfit as [Hdom Hs]. by rewrite interface_roundtrip.
  - destruct (vlan_roundtrip v Hv Hfit) as [-> E]. lit. cbn [default]. change (id (renderVLANNetwork v)) with (renderVLANNetwork v). by rewrite E.
  - destruct (bond_roundtrip b Hv Hfit) as [-> E]. lit. cbn [default]. change (id (renderBondNetwork b)) with (renderBondNetwork b). by rewrite E.
Qed.
End Disk.

(** ** The interface that holds an address *)

(** The first interface with the address, or none when no interface has
    it. *)
Lemma management_iface live ip : match matchInterfaceByIP live ip with
  | Some n => exists before li after, live = before ++ li :: after /\ lName li = n /\ (exists c, c ∈ lAddresses li /\ holds ip c = true) /\
      forall l c, l ∈ before -> c ∈ lAddresses l -> holds ip c = false
  | None => forall l c, l ∈ live -> c ∈ lAddresses l -> holds ip c = false
  end.
Proof.
  induction live as [|li live IH]; cbn [matchInterfaceByIP]; [set_solver|]. destruct (existsb (holds ip) (lAddresses li)) eqn:E.
  - apply existsb_exists in E as (c & Hc & Hh). exists [], li, live. split_and!; [done|done|exists c; by rewrite list_elem_of_In|set_solver].
  - assert (Hno : forall c, c ∈ lAddresses li -> holds ip c = false).
    { intros c Hc. apply not_true_iff_false. intros Hh. apply not_true_iff_false in E. apply E, existsb_exists. exists c. by rewrite <- list_elem_of_In. }
    destruct (matchInterfaceByIP live ip) as [n|].
    + destruct IH as (before & l & after & -> & ? & ? & Hb). exists (li :: before), l, after. split_and!; [done|done|done|]. intros x c [->|Hx]%elem_of_cons; [apply Hno|by apply Hb].
    + intros x c [->|Hx]%elem_of_cons; [apply Hno|by apply IH].
Qed.

(** ** The HTTP handlers and their guard

    A request is its source address, when it could be parsed, the query
    parameter and the decoded body; what is dispatched is a job. *)

Module NetApi.

Inductive net_job := JApply (r : request) | JDelete (name : gostr) | JReload.
Record NetDispatch := mkNetDispatch { ndJob : net_job; ndTarget : gostr; ndCommand : gostr; ndUniqueKey : gostr }.
Record HttpRequest := mkHttp { RemoteIP : option addr; Force : gostr }.

Definition to4 (a : addr) : option addr :=
  if Nat.eqb (length a) 4 then Some a
  else if Nat.eqb (length a) 16 && bool_decide (take 12 a = v4_in_v6) then Some (drop 12 a) else None.
Definition is_loopback (a : addr) : bool :=
  match to4 a with Some (b :: _) => b =? 127 | Some [] => false | None => bool_decide (a = replicate 15 0 ++ [1]) end.

Definition forceParam (r : HttpRequest) : bool := existsb (str_eqb (Smb.to_lower (Force r))) [ #"true"; #"1"; #"yes"].

Section Handlers.
Context {W : Type} `{HostExec W} (m : Manager) (decode : gostr -> option (list ipAddrEntry)).

Definition guard (r : HttpRequest) (touched : list gostr) : M W bool :=
  if forceParam r then ret true
  else match RemoteIP r with
       | None => ret false
       | Some src =>
           if is_loopback src then ret false
           else
             let! mgmt := IdentifyManagementIface m decode (Some src) in
             ret (match mgmt with None => false | Some name => negb (existsb (fun t => str_eqb t name) touched) end)
       end.

Definition guarded (r : HttpRequest) (touched : list gostr) (d : NetDispatch) : M W (option NetDispatch) :=
  let! ok := guard r touched in ret (if (ok : bool) then Some d else None).

Definition h_ApplyInterface (r : HttpRequest) (c : InterfaceConfig) : M W (option NetDispatch) :=
  if str_eqb (cName c) [] then ret None
  else guarded r [cName c; MatchName c]
         (mkNetDispatch (JApply (RInterface c)) (cName c) ( #"networkctl reload (apply " ++ cName c ++ #")") ( #"network:iface:" ++ cName c)).
Definition h_DeleteInterface (r : HttpRequest) (name : gostr) : M W (option NetDispatch) :=
  if str_eqb name [] then ret None
  else guarded r [name] (mkNetDispatch (JDelete name) name ( #"networkctl reload (delete " ++ name ++ #")") ( #"network:iface:" ++ name)).
Definition h_ApplyVLAN (r : HttpRequest) (v : VLAN) : M W (option NetDispatch) :=
  if str_eqb (vName v) [] || str_eqb (Parent v) [] then ret None
  else guarded r [vName v; Parent v]
         (mkNetDispatch (JApply (RVLAN v)) (vName v) ( #"networkctl reload (vlan " ++ vName v ++ #")") ( #"network:vlan:" ++ vName v)).
Definition h_ApplyBond (r : HttpRequest) (b : Bond) : M W (option NetDispatch) :=
  if str_eqb (bName b) [] then ret None
  else if (length (Members b) =? 0)%nat then ret None
  else guarded r (bName b :: Members b)
         (mkNetDispatch (JApply (RBond b)) (bName b) ( #"networkctl reload (bond " ++ bName b ++ #")") ( #"network:bond:" ++ bName b)).
Definition h_Reload (r : HttpRequest) : M W (option NetDispatch) :=
  ret (if forceParam r then Some (mkNetDispatch JReload #"network" #"networkctl reload" #"network:reload") else None).

(** The endpoints, and the interfaces a body names. *)
Inductive body := BInterface (c : InterfaceConfig) | BDelete (name : gostr) | BVLAN (v : VLAN) | BBond (b : Bond) | BReload.
Definition serve (r : HttpRequest) (b : body) : M W (option NetDispatch) :=
  match b with
  | BInterface c => h_ApplyInterface r c | BDelete n => h_DeleteInterface r n | BVLAN v => h_ApplyVLAN r v | BBond b => h_ApplyBond r b | BReload => h_Reload r
  end.
End Handlers.

Definition names (b : body) : list gostr :=
  match b with
  | BInterface c => [cName c; MatchName c] | BDelete n => [n] | BVLAN v => [vName v; Parent v] | BBond b => bName b :: Members b | BReload => []
  end.
End NetApi.
Import NetApi.

Section Guard.
Context {W : Type} `{HostExec W} (m : Manager) (decode : gostr -> option (list ipAddrEntry)).

Lemma guarded_passes r touched d w w' d' : forceParam r = false -> guarded m decode r touched d w = (w', Some (Some d')) ->
  exists src mgmt, RemoteIP r = Some src /\ is_loopback src = false /\ (IdentifyManagementIface m decode (Some src) w).2 = Some (Some mgmt) /\ mgmt ∉ touched.
Proof.
  intros Hf. unfold guarded, guard. rewrite Hf. destruct (RemoteIP r) as [src|]; [|done]. destruct (is_loopback src) eqn:El; [done|]. intros E.
  apply bind_returned in E as (w1 & ok & E1 & E2). apply bind_returned in E1 as (w2 & mgmt & E1 & E3). apply ret_returned in E2 as [_ E2], E3 as [_ ->].
  destruct mgmt as [name|]; [|done]. destruct (existsb _ touched) eqn:Ex; [done|]. exists src, name. rewrite E1. split_and!; try done.
  intros Hin. apply not_true_iff_false in Ex. apply Ex, existsb_exists. exists name. split; [by apply list_elem_of_In|apply str_eqb_refl].
Qed.

Lemma guard_facts r b w w' d : forceParam r = false -> serve m decode r b w = (w', Some (Some d)) ->
  exists src live mgmt before li after, RemoteIP r = Some src /\ is_loopback src = false /\
    (ListInterfaces m decode w).2 = Some (Some live) /\ live = before ++ li :: after /\ lName li = mgmt /\
    (exists c, c ∈ lAddresses li /\ holds src c = true) /\ (forall l c, l ∈ before -> c ∈ lAddresses l -> holds src c = false) /\ mgmt ∉ names b.
Proof.
  intros Hf Hd.
  assert (exists d0, guarded m decode r (names b) d0 w = (w', Some (Some d))) as [d0 Hg].
  { destruct b as [c|n|v|b|]; cbn [serve names] in *; unfold h_ApplyInterface, h_DeleteInterface, h_ApplyVLAN, h_ApplyBond, h_Reload, ret in Hd.
    - destruct (str_eqb (cName c) []); [done|eauto].
    - destruct (str_eqb n []); [done|eauto].
    - destruct (_ || _); [done|eauto].
    - destruct (str_eqb (bName b) []); [done|]. destruct (_ =? _)%nat; [done|eauto].
    - by rewrite Hf in Hd. }
  destruct (guarded_passes r (names b) d0 w w' d Hf Hg) as (src & mgmt & E1 & E2 & E3 & Hn). unfold IdentifyManagementIface, bind in E3.
  destruct (ListInterfaces m decode w) as [w1 [[live|]|]]; [|done|done]. cbn in E3. injection E3 as E3. pose proof (management_iface live src) as Hm. rewrite E3 in Hm.
  destruct Hm as (before & li & after & -> & Hname & Hc & Hb). exists src, (before ++ li :: after), mgmt, before, li, after. by split_and!.
Qed.

(** Without force, a request to change the network is dispatched only
    when an interface holds the address it was made from, which is not a
    loopback address, and when the first such interface is none of those
    the request names. *)
Theorem network_guard r b w w' d (Hf : forceParam r = false) (Hd : serve m decode r b w = (w', Some (Some d))) :
  exists src live mgmt before li after, RemoteIP r = Some src /\ is_loopback src = false /\
    (ListInterfaces m decode w).2 = Some (Some live) /\ live = before ++ li :: after /\ lName li = mgmt /\
    (exists c, c ∈ lAddresses li /\ holds src c = true) /\ (forall l c, l ∈ before -> c ∈ lAddresses l -> holds src c = false) /\ mgmt ∉ names b.
Proof. by apply (guard_facts r b w w' d). Qed.

(** The address of a client is not one of the host: its requests are
    refused unless they are forced, whatever they name. *)
Lemma remote_clients_must_force r b w live src : forceParam r = false -> RemoteIP r = Some src -> (ListInterfaces m decode w).2 = Some (Some live) ->
  (forall l c, l ∈ live -> c ∈ lAddresses l -> holds src c = false) -> forall w' d, serve m decode r b w <> (w', Some (Some d)).
Proof.
  intros Hf Hr Hl Hno w' d Hd. destruct (guard_facts r b w w' d Hf Hd) as (src' & live' & mgmt & before & li & after & E1 & _ & E2 & -> & _ & (c & Hc & Hh) & _).
  rewrite Hr in E1. injection E1 as <-. rewrite Hl in E2. injection E2 as ->. specialize (Hno li c ltac:(set_solver) Hc). congruence.
Qed.
End Guard.

(** ** A concrete host *)

Module SmallNetwork.
#[export] Instance ok_exec : HostExec (gmap gostr gostr) := {|
  Run _ _ w := (w, Ok []); RunStdin _ _ _ w := (w, Ok []); RunStream _ _ _ _ w := (w, None) |}.
#[export] Instance ok_files : FileWriter (gmap gostr gostr) := map_writer id (fun m _ => m).
#[export] Instance ok_laws : FileLaws (gmap gostr gostr) id := map_writer_laws id (fun m _ => m) (fun _ _ => eq_refl).

Definition defaults : Manager := mkManager [] [] [] [].
Definition lan : InterfaceConfig :=
  mkIface #"lan" #"enp1s0" #"no" [ #"10.0.0.5/24"; #"fd00::5/64"] #"10.0.0.1" [ #"10.0.0.1"; #"1.1.1.1"] [ #"lan.example"; #"example.org"] 9000 #"ipv6" false.
Definition pair : Bond := mkBond #"bond0" #"802.3ad" [ #"eth1"; #"eth0"] #"10.0.1.5/24" 1 false.

Lemma lan_fits : fits (RInterface lan).
Proof.
  split; [repeat constructor|]. unfold short_lines. assert (H : Forall (fun s => (length s <= 200)%nat) (layout_lines (iface_layout lan))) by by_dec.
  eapply Forall_impl; [exact H|]. intros s Hs. cbv beta in Hs. unfold Snapshots.max_token. lia.
Qed.

Lemma ok_reads (p : gostr) (w : gmap gostr gostr) : (fw_ReadFile p w).2 <> ReadFailed.
Proof. unfold fw_ReadFile, ok_files, map_writer. cbn [snd]. by destruct (id w !! p). Qed.
Lemma ok_run (b : gostr) (args : list gostr) (w : gmap gostr gostr) : id (Run b args w).1 = id w.
Proof. reflexivity. Qed.

Definition lan_disk : gmap gostr gostr := {[networkFile defaults #"lan" := renderNetworkFile lan]}.
Lemma lan_applied : apply defaults (RInterface lan) ∅ = (lan_disk, Some None).
Proof. vm_compute. reflexivity. Qed.

Lemma config_on_disk_witness : apply defaults (RInterface lan) ∅ = (lan_disk, Some None) /\
  exists w'', GetConfig defaults #"lan" lan_disk = (w'', Some (Ok (KindInterface lan))).
Proof.
  split; [exact lan_applied|].
  destruct (config_on_disk id ok_run ok_reads defaults (RInterface lan) ∅ lan_disk) as (_ & _ & Hd).
  - split; [reflexivity|]. rewrite <- contains_byte_iff. vm_compute. discriminate.
  - exact lan_fits.
  - reflexivity.
  - exact (proj2 (proj2 (proj2 (Hd lan_applied eq_refl)))).
Defined.

(** A request from the host itself, which holds 10.0.0.5 on another
    interface. *)
Definition two_ifaces (out : gostr) : option (list ipAddrEntry) :=
  Some [mkEntry #"eth0" #"ether" [] #"UP" None [( #"10.0.0.5", 24)]; mkEntry #"eth1" #"ether" [] #"UP" None [( #"10.0.9.5", 24)]].
Definition from_host : HttpRequest := mkHttp (Some [10; 0; 0; 5]) [].

Lemma network_guard_witness : exists live li c, (ListInterfaces defaults two_ifaces (∅ : gmap gostr gostr)).2 = Some (Some live) /\ li ∈ live /\
  c ∈ lAddresses li /\ holds [10; 0; 0; 5] c = true /\ lName li ∉ [ #"eth1"].
Proof.
  destruct (network_guard defaults two_ifaces from_host (BDelete #"eth1") ∅ ∅
    (mkNetDispatch (JDelete #"eth1") #"eth1" #"networkctl reload (delete eth1)" #"network:iface:eth1"))
    as (src & live & mgmt & before & li & after & E1 & _ & E2 & E3 & E4 & (c & Hc & Hh) & _ & Hn); [reflexivity|vm_compute; reflexivity|].
  exists live, li, c. injection E1 as <-. split_and!; [exact E2|rewrite E3; set_solver|exact Hc|exact Hh|rewrite E4; exact Hn].
Defined.

(** ** Where it falls short *)

(** A domain is written as it comes: one with a line break adds a
    section. *)
Lemma domains_inject :
  validateInterfaceConfig (mkIface #"lan" #"enp1s0" [] [] [] [] [ #"x" ++ [newline] ++ #"[Route]" ++ [newline] ++ #"Gateway=10.6.6.6"] 0 [] false) = Ok tt /\
  Gateway (parseInterfaceConfig #"lan" (renderNetworkFile
    (mkIface #"lan" #"enp1s0" [] [] [] [] [ #"x" ++ [newline] ++ #"[Route]" ++ [newline] ++ #"Gateway=10.6.6.6"] 0 [] false))) = #"10.6.6.6".
Proof. vm_compute. done. Qed.

Definition after (m : M (gmap gostr gostr) (option net_err)) (w : gmap gostr gostr) : gmap gostr gostr := (m w).1.

(** An interface under the name of a VLAN replaces the file of its device
    and is read back as the VLAN. *)
Lemma interface_over_vlan :
  let w := after (ApplyInterfaceConfig defaults (mkIface #"v5" #"enp1s0" #"yes" [] [] [] [] 0 [] false)) (after (ApplyVLAN defaults (mkVLAN #"v5" #"enp1s0" 5 #"10.5.0.1/24" false)) ∅) in
  (GetConfig defaults #"v5" w).2 = Some (Ok (KindVLAN (mkVLAN #"v5" [] 5 [] false))).
Proof. vm_compute. reflexivity. Qed.

(** A member that a bond no longer has stays enslaved. *)
Lemma dropped_member_stays :
  let w := after (ApplyBond defaults (mkBond #"bond0" #"802.3ad" [ #"eth0"] [] 0 false)) (after (ApplyBond defaults pair) ∅) in
  w !! #"/etc/systemd/network/70-nova-bond0-member-eth1.network" = Some (renderBondMemberNetwork #"bond0" #"eth1").
Proof. vm_compute. reflexivity. Qed.

(** Deleting a VLAN by its name leaves the device and its parent. *)
Lemma deleted_vlan_stays :
  let w := after (DeleteInterfaceConfig defaults #"v5" false) (after (ApplyVLAN defaults (mkVLAN #"v5" #"enp1s0" 5 #"10.5.0.1/24" false)) ∅) in
  (GetConfig defaults #"v5" w).2 = Some (Ok (KindVLAN (mkVLAN #"v5" [] 5 [] false))).
Proof. vm_compute. reflexivity. Qed.

(** A valid name that the listing takes for a file of a bond. *)
Lemma listing_hides_name : validateConfigName #"a-member-b" = Ok tt /\ listed_name defaults #"70-nova-a-member-b.network" = None /\
  validateConfigName #"a-parent" = Ok tt /\ listed_name defaults #"70-nova-a-parent.network" = None.
Proof. vm_compute. done. Qed.
End SmallNetwork.
