(* ===== verification/Smart.v ===== *)
(** * internal/host/smart: disk health through smartctl

    The checks of the caller's values, the reading of smartctl's exit
    code, the three operations, and the summary that is made of the JSON
    document: that it raises the alarm exactly when the document or the
    exit code gives a reason to. *)

From S2P Require Import Prelude GoStrings Effects ZfsNamesCorrect HostExec GoJson.

Module Smart.

(** ** Data *)

Record Attribute := mkAttribute {
  ID : Z; Name : gostr; Value : Z; Worst : Z; Threshold : Z; RawValue : gostr; WhenFailed : gostr }.
Record SelfTest := mkSelfTest { tType : gostr; tStatus : gostr; LifetimeHrs : Z; tLBA : Z }.
Record Health := mkHealth {
  DeviceName : gostr; Model : gostr; SerialNumber : gostr; Firmware : gostr; CapacityBytes : Z; OverallPassed : bool;
  Temperature : option Z; PowerOnHours : option Z; PowerCycles : option Z;
  Attributes : list Attribute; LastTest : option SelfTest; HasErrors : bool; ErrorSummary : list gostr }.

(** An error of the runner; errors.As finds a host error in the first. *)
Inductive run_err := HostErr (e : HostError) | OtherErr (text : gostr).
Inductive smart_err :=
| PathRequired | PathOutside | PathDash | PathNUL | PathDotDot | PathControl | PathForbidden (c : ascii) | BadTestType | Failed (e : run_err) | NoOutput | BadJson.

(** exec.Runner: the output is returned next to the error. *)
Class Runner (W : Type) := { runner : gostr -> list gostr -> W -> W * (gostr * option run_err) }.

(** ** Checks.  The runes that are looked for are one byte each. *)

Definition control (c : ascii) : bool := (byte_val c <? 32) || (byte_val c =? 127).
(** The quotation mark is byte 34. *)
Definition forbidden (c : ascii) : bool := contains_byte c (#" ;|&$`\'<>*?(){}[]" ++ enc [9; 34]).

Fixpoint check_runes (p : gostr) : res smart_err unit :=
  match p with
  | [] => Ok tt
  | r :: p' => if control r then Err PathControl else if forbidden r then Err (PathForbidden r) else check_runes p'
  end.

Definition validateDevicePath (p : gostr) : res smart_err unit :=
  ensure negb (str_eqb p []) else PathRequired ;;
  ensure has_prefix p #"/dev/" else PathOutside ;;
  ensure negb (has_prefix p #"-") else PathDash ;;
  ensure negb (contains_byte (byte_of 0) p) else PathNUL ;;
  ensure negb (existsb (str_eqb #"..") (split_on "/"%char p)) else PathDotDot ;;
  check_runes p.

Definition validateTestType (t : gostr) : res smart_err unit :=
  ensure existsb (str_eqb t) [ #"short"; #"long"; #"conveyance"; #"abort"] else BadTestType ;; Ok tt.

(** ** The exit code *)

Record exit_class := mkClass { fatal : bool; nonFatalBits : Z; isHost : bool }.

Definition classifyExit (err : option run_err) : exit_class :=
  match err with
  | None => mkClass false 0 false
  | Some (OtherErr _) => mkClass true 0 false
  | Some (HostErr he) =>
      let code := heExitCode he in
      let fatalMask := Z.lor (Z.lor (Z.shiftl 1 0) (Z.shiftl 1 1)) (Z.shiftl 1 2) in
      if negb (Z.land code fatalMask =? 0) then mkClass true (Z.land code (Z.lnot fatalMask)) true
      else mkClass false code true
  end.

(** ** The document *)

Record ataAttr := mkAta {
  aID : Z; aName : gostr; aValue : Z; aWorst : Z; aThresh : Z; aWhenFailed : gostr; aRawValue : Z; aRawString : gostr }.
Record nvmeLog := mkNvme {
  CriticalWarning : Z; nTemperature : option Z; AvailableSpare : option Z; AvailableSpareThreshold : option Z; PercentageUsed : option Z;
  nPowerCycles : option Z; nPowerOnHours : option Z; UnsafeShutdowns : option Z; MediaErrors : option Z; NumErrLogEntries : option Z }.
Record ataSelfTestEntry := mkAtaTest { atType : gostr; atStatus : gostr; atPassed : option bool; LifetimeHours : Z; atLBA : Z }.
Record nvmeSelfTestEntry := mkNvmeTest { SelfTestCode : gostr; SelfTestResult : gostr; ntHours : Z; ntLBA : Z }.
Record smartctlOutput := mkDoc {
  DeviceType : gostr; ModelName : gostr; ModelFamily : gostr; dSerial : gostr; FirmwareVersion : gostr;
  UserCapacity : Z; NVMeTotalCapacity : option Z; StatusPassed : bool; dTemperature : option Z; Hours : option Z; PowerCycleCount : option Z;
  ATATable : list ataAttr; NVMeLog : option nvmeLog;
  ATASelfTestLog : option (list ataSelfTestEntry); NVMeSelfTestLog : option (list nvmeSelfTestEntry) }.

(** The JSON shapes of the four structs. *)
Definition int_ptr : ty := TPtr TInt.
Definition ata_ty : ty := struct [
  req #"id" TInt; req #"name" TStr; req #"value" TInt; req #"worst" TInt; req #"thresh" TInt; req #"when_failed" TStr;
  req #"raw" (struct [req #"value" TInt; req #"string" TStr])].
Definition nvme_ty : ty := struct [
  req #"critical_warning" TInt; req #"temperature" int_ptr; req #"available_spare" int_ptr; req #"available_spare_threshold" int_ptr;
  req #"percentage_used" int_ptr; req #"power_cycles" int_ptr; req #"power_on_hours" int_ptr; req #"unsafe_shutdowns" int_ptr;
  req #"media_errors" int_ptr; req #"num_err_log_entries" int_ptr].
Definition ata_test_ty : ty := struct [
  req #"type" (struct [req #"string" TStr]); req #"status" (struct [req #"string" TStr; req #"passed" (TPtr TBool)]);
  req #"lifetime_hours" TInt; req #"lba_of_first_error" TInt].
Definition nvme_test_ty : ty := struct [
  req #"self_test_code" (struct [req #"string" TStr]); req #"self_test_result" (struct [req #"string" TStr]);
  req #"power_on_hours" TInt; req #"lba_of_first_error" TInt].
Definition doc_ty : ty := struct [
  req #"device" (struct [req #"name" TStr; req #"type" TStr]);
  req #"model_name" TStr; req #"model_family" TStr; req #"serial_number" TStr; req #"firmware_version" TStr;
  req #"user_capacity" (struct [req #"bytes" TInt]); opt #"nvme_total_capacity" int_ptr;
  req #"smart_status" (struct [req #"passed" TBool]);
  req #"temperature" (struct [req #"current" int_ptr]);
  req #"power_on_time" (struct [req #"hours" int_ptr]); req #"power_cycle_count" int_ptr;
  req #"ata_smart_attributes" (struct [req #"table" (TSlice ata_ty)]);
  opt #"nvme_smart_health_information_log" (TPtr nvme_ty);
  opt #"ata_smart_self_test_log" (TPtr (struct [req #"standard" (struct [req #"table" (TSlice ata_test_ty)])]));
  opt #"nvme_self_test_log" (TPtr (struct [req #"table" (TSlice nvme_test_ty)]))].

(** The document holds no UUID. *)
#[local] Instance no_uuid : UuidLib unit := { uuid_String _ := []; uuid_Parse _ := None; uuid_Nil := tt }.
Abbreviation val t := (den (U := unit) t).

Definition ata_of (v : val ata_ty) : ataAttr :=
  let '(id, (name, (value, (worst, (thresh, (failed, ((rv, (rs, _)), _))))))) := v in mkAta id name value worst thresh failed rv rs.
Definition nvme_of (v : val nvme_ty) : nvmeLog :=
  let '(cw, (t, (sp, (th, (pu, (pc, (poh, (us, (me, (ne, _)))))))))) := v in mkNvme cw t sp th pu pc poh us me ne.
Definition ata_test_of (v : val ata_test_ty) : ataSelfTestEntry :=
  let '((ty, _), ((st, (pass, _)), (hrs, (lba, _)))) := v in mkAtaTest ty st pass hrs lba.
Definition nvme_test_of (v : val nvme_test_ty) : nvmeSelfTestEntry :=
  let '((code, _), ((r, _), (hrs, (lba, _)))) := v in mkNvmeTest code r hrs lba.

(** A nil table and an empty one are not told apart. *)
Definition doc_of (v : val doc_ty) : smartctlOutput :=
  let '((_, (dt, _)), (mn, (mf, (sn, (fw, ((cap, _), (ncap, ((passed, _), ((temp, _), ((hrs, _), (pcc,
    ((tab, _), (nv, (al, (nl, _))))))))))))))) := v in
  mkDoc dt mn mf sn fw cap ncap passed temp hrs pcc (map ata_of (default [] tab)) (nvme_of <$> nv)
    ((fun l => map ata_test_of (default [] l.1.1)) <$> al) ((fun l => map nvme_test_of (default [] l.1)) <$> nl).

(** json.Unmarshal into a fresh document. *)
Definition decode (j : json) : option smartctlOutput := doc_of <$> unmarshal (U := unit) doc_ty (zero doc_ty) j.

(** ** The summary *)

Definition firstNonEmpty (a b : gostr) : gostr := if str_eqb a [] then b else a.

(** fmt's "%02x": at least two places, the sign among them. *)
Definition hex_low (n : Z) : ascii := nth (Z.to_nat n) #"0123456789abcdef" "0"%char.
Fixpoint hex_go (fuel : nat) (n : Z) (acc : gostr) : gostr :=
  match fuel with O => acc | S fuel => if n >? 0 then hex_go fuel (n / 16) (hex_low (n mod 16) :: acc) else acc end.
Definition print_02x (n : Z) : gostr :=
  let ds := hex_go 16 (Z.abs n) [] in
  let places := if n <? 0 then 1%nat else 2%nat in
  (if n <? 0 then #"-" else []) ++ replicate (places - length ds) "0"%char ++ ds.

Definition add_attributes (h : Health) (l : list Attribute) : Health :=
  mkHealth (DeviceName h) (Model h) (SerialNumber h) (Firmware h) (CapacityBytes h) (OverallPassed h) (Temperature h) (PowerOnHours h)
    (PowerCycles h) (Attributes h ++ l) (LastTest h) (HasErrors h) (ErrorSummary h).
Definition set_readings (h : Health) (t poh pc : option Z) : Health :=
  mkHealth (DeviceName h) (Model h) (SerialNumber h) (Firmware h) (CapacityBytes h) (OverallPassed h) t poh pc
    (Attributes h) (LastTest h) (HasErrors h) (ErrorSummary h).
Definition set_test (h : Health) (t : SelfTest) : Health :=
  mkHealth (DeviceName h) (Model h) (SerialNumber h) (Firmware h) (CapacityBytes h) (OverallPassed h) (Temperature h) (PowerOnHours h)
    (PowerCycles h) (Attributes h) (Some t) (HasErrors h) (ErrorSummary h).
Definition add_error (h : Health) (text : gostr) : Health :=
  mkHealth (DeviceName h) (Model h) (SerialNumber h) (Firmware h) (CapacityBytes h) (OverallPassed h) (Temperature h) (PowerOnHours h)
    (PowerCycles h) (Attributes h) (LastTest h) true (ErrorSummary h ++ [text]).

Definition ata_attribute (a : ataAttr) : Attribute :=
  let raw := if str_eqb (aRawString a) [] then print_int (aRawValue a) else aRawString a in
  mkAttribute (aID a) (aName a) (aValue a) (aWorst a) (aThresh a) raw (aWhenFailed a).

Definition populateFromATA (h : Health) (table : list ataAttr) : Health := fold_left (fun h a => add_attributes h [ata_attribute a]) table h.

Definition failing : gostr := #"FAILING_NOW".
Definition or_else (a b : option Z) : option Z := match a with Some v => Some v | None => b end.

Definition add (h : Health) (name : gostr) (value : Z) (raw failed : gostr) : Health :=
  add_attributes h [mkAttribute 0 name value 0 0 raw failed].

(** The rows of populateFromNVMe, one field after the other. *)
Definition add_critical (log : nvmeLog) (h : Health) : Health :=
  if negb (CriticalWarning log =? 0)
  then add h #"critical_warning" (CriticalWarning log) (#"0x" ++ print_02x (CriticalWarning log)) failing else h.
Definition add_spare (log : nvmeLog) (h : Health) : Health :=
  match AvailableSpare log, AvailableSpareThreshold log with
  | Some s, Some t => add_attributes h [mkAttribute 0 #"available_spare" s 0 t (print_int s) (if s <? t then failing else [])]
  | _, _ => h
  end.
Definition add_used (log : nvmeLog) (h : Health) : Health :=
  match PercentageUsed log with
  | Some u => add h #"percentage_used" u (print_int u) (if u >=? 100 then failing else [])
  | None => h
  end.
Definition add_media (log : nvmeLog) (h : Health) : Health :=
  match MediaErrors log with
  | Some e => if e >? 0 then add h #"media_errors" e (print_int e) failing else h
  | None => h
  end.
Definition add_counts (log : nvmeLog) (h : Health) : Health :=
  let h := match UnsafeShutdowns log with Some n => add h #"unsafe_shutdowns" n (print_int n) [] | None => h end in
  match NumErrLogEntries log with Some n => add h #"num_err_log_entries" n (print_int n) [] | None => h end.

Definition populateFromNVMe (h : Health) (log : option nvmeLog) : Health :=
  match log with
  | None => h
  | Some log =>
      let h := set_readings h (or_else (Temperature h) (nTemperature log)) (or_else (PowerOnHours h) (nPowerOnHours log))
                 (or_else (PowerCycles h) (nPowerCycles log)) in
      add_counts log (add_media log (add_used log (add_spare log (add_critical log h))))
  end.

Definition populateATASelfTest (h : Health) (log : option (list ataSelfTestEntry)) : Health :=
  match log with
  | Some (e :: _) => set_test h (mkSelfTest (atType e) (atStatus e) (LifetimeHours e) (atLBA e))
  | _ => h
  end.
Definition populateNVMeSelfTest (h : Health) (log : option (list nvmeSelfTestEntry)) : Health :=
  match log with
  | Some (e :: _) => set_test h (mkSelfTest (SelfTestCode e) (SelfTestResult e) (ntHours e) (ntLBA e))
  | _ => h
  end.

Definition is_nvme (doc : smartctlOutput) : bool :=
  equal_fold (DeviceType doc) #"nvme" || match NVMeLog doc with Some _ => true | None => false end.

Definition attribute_text (a : Attribute) : gostr :=
  Name a ++ #" value " ++ print_int (Value a) ++ #" below threshold " ++ print_int (Threshold a) ++ #", " ++ WhenFailed a.

Definition raise_attribute (h : Health) (a : Attribute) : Health :=
  if str_eqb (WhenFailed a) [] then h else add_error h (attribute_text a).

(** What parseSmartctlJSON makes of a document. *)
Definition base_health (devicePath : gostr) (doc : smartctlOutput) : Health :=
  let cap := match NVMeTotalCapacity doc with Some c => if UserCapacity doc =? 0 then c else UserCapacity doc | None => UserCapacity doc end in
  mkHealth devicePath (firstNonEmpty (ModelName doc) (ModelFamily doc)) (dSerial doc) (FirmwareVersion doc) cap (StatusPassed doc)
    (dTemperature doc) (Hours doc) (PowerCycleCount doc) [] None false [].

Definition health_of (devicePath : gostr) (doc : smartctlOutput) (bits : Z) : Health :=
  let h := base_health devicePath doc in
  let h := if is_nvme doc then populateNVMeSelfTest (populateFromNVMe h (NVMeLog doc)) (NVMeSelfTestLog doc)
           else populateATASelfTest (populateFromATA h (ATATable doc)) (ATASelfTestLog doc) in
  let h := if OverallPassed h then h else add_error h #"SMART overall-health self-assessment FAILED" in
  let h := fold_left raise_attribute (Attributes h) h in
  if negb (bits =? 0) && negb (HasErrors h)
  then add_error h (#"smartctl reported warnings (exit-code bits 0x" ++ print_02x bits ++ #")") else h.

(** ** Operations *)

Section Manager.
Context {W : Type} `{Runner W} (read_json : gostr -> option json) (SmartctlBin : gostr).

Definition bin : gostr := if str_eqb SmartctlBin [] then #"/usr/sbin/smartctl" else SmartctlBin.
Definition run (args : list gostr) : M W (gostr * option run_err) := call (runner bin args).

Definition parseSmartctlJSON (devicePath data : gostr) (bits : Z) : res smart_err Health :=
  ensure negb (str_eqb data []) else NoOutput ;;
  match read_json data ≫= decode with
  | None => Err BadJson
  | Some doc => Ok (health_of devicePath doc bits)
  end.

Definition Get (devicePath : gostr) : M W (res smart_err Health) :=
  match validateDevicePath devicePath with
  | Err e => ret (Err e)
  | Ok _ =>
      let! r := run [ #"-a"; #"-j"; devicePath] in
      let (out, err) := (r : gostr * option run_err) in
      let c := classifyExit err in
      match err with
      | Some e =>
          if fatal c then
            match e with
            | HostErr he =>
                if (Z.land (heExitCode he) (Z.lor (Z.shiftl 1 0) (Z.shiftl 1 1)) =? 0) && negb (Z.land (heExitCode he) (Z.shiftl 1 2) =? 0)
                   && negb (str_eqb out [])
                then ret (parseSmartctlJSON devicePath out (heExitCode he)) else ret (Err (Failed e))
            | OtherErr _ => ret (Err (Failed e))
            end
          else ret (parseSmartctlJSON devicePath out (nonFatalBits c))
      | None => ret (parseSmartctlJSON devicePath out (nonFatalBits c))
      end
  end.

(** Nothing is left of an error that is not fatal. *)
Definition outcome (err : option run_err) : res smart_err unit :=
  match err with Some e => if fatal (classifyExit err) then Err (Failed e) else Ok tt | None => Ok tt end.

Definition RunSelfTest (devicePath testType : gostr) : M W (res smart_err unit) :=
  match validateDevicePath devicePath with
  | Err e => ret (Err e)
  | Ok _ =>
      match validateTestType testType with
      | Err e => ret (Err e)
      | Ok _ => let! r := run [ #"-t"; testType; devicePath] in ret (outcome r.2)
      end
  end.

Definition EnableSMART (devicePath : gostr) : M W (res smart_err unit) :=
  match validateDevicePath devicePath with
  | Err e => ret (Err e)
  | Ok _ => let! r := run [ #"--smart=on"; devicePath] in ret (outcome r.2)
  end.
End Manager.
End Smart.
Import Smart.

(** ** What the checks let through *)

Definition plain (c : ascii) : bool := negb (control c) && negb (forbidden c).

(** Below /dev, in plain characters, with no parent directory on the way. *)
Definition device_ok (p : gostr) : Prop :=
  (exists name, p = #"/dev/" ++ name) /\ forallb plain p = true /\ #".." ∉ split_on "/"%char p.

Lemma check_runes_iff p : check_runes p = Ok tt <-> forallb plain p = true.
Proof.
  induction p as [|c p IH]; [done|]. cbn [check_runes forallb]. unfold plain at 1.
  destruct (control c), (forbidden c); cbn [negb andb]; done.
Qed.

Lemma plain_no_nul p : forallb plain p = true -> contains_byte (byte_of 0) p = false.
Proof.
  intros Hp. apply not_true_is_false. intros Hin%contains_byte_iff. rewrite forallb_forall in Hp. by apply list_elem_of_In, Hp in Hin.
Qed.

Lemma validateDevicePath_iff p : validateDevicePath p = Ok tt <-> device_ok p.
Proof.
  unfold validateDevicePath, device_ok. rewrite <- has_prefix_iff, <- check_runes_iff. destruct (has_prefix p #"/dev/") eqn:Ep.
  - assert (str_eqb p [] = false /\ has_prefix p #"-" = false) as [-> ->] by (apply has_prefix_iff in Ep as [name ->]; done).
    cbn [negb]. rewrite <- existsb_str.
    destruct (contains_byte _ p) eqn:En; cbn [negb].
    + split; [done|]. intros (_ & Hc%check_runes_iff%plain_no_nul & _). congruence.
    + destruct (existsb _ _); cbn [negb]; naive_solver.
  - destruct (negb _); split; naive_solver.
Qed.

Lemma validateDevicePath_unit p u : validateDevicePath p = Ok u -> device_ok p.
Proof. destruct u. apply validateDevicePath_iff. Qed.

Lemma validateDevicePath_err p e : validateDevicePath p = Err e -> ~ device_ok p.
Proof. intros He Hok%validateDevicePath_iff. congruence. Qed.

Lemma device_not_option p : device_ok p -> not_option p.
Proof. intros ((name & ->) & _). by eexists _, _. Qed.

(** ** The summary raises the alarm exactly when there is a reason *)

Definition exit_code (err : option run_err) : Z := match err with Some (HostErr he) => heExitCode he | _ => 0 end.

(** A document can be there: smartctl read its command line and opened the
    device. *)
Definition usable (err : option run_err) : Prop :=
  match err with None => True | Some (HostErr he) => Z.testbit (heExitCode he) 0 = false /\ Z.testbit (heExitCode he) 1 = false | Some (OtherErr _) => False end.

(** The run failed: smartctl was not run to its end, or its exit code has
    one of the bits 0 to 2. *)
Definition failed_run (err : option run_err) : Prop :=
  match err with
  | None => False
  | Some (HostErr he) => exists b, 0 <= b <= 2 /\ Z.testbit (heExitCode he) b = true
  | Some (OtherErr _) => True
  end.

Lemma unusable_failed err : ~ usable err -> failed_run err.
Proof.
  destruct err as [[he|t]|]; cbn; [|done..]. intros Hu.
  destruct (Z.testbit (heExitCode he) 0) eqn:E0; [by exists 0|].
  destruct (Z.testbit (heExitCode he) 1) eqn:E1; [by exists 1|]. by destruct Hu.
Qed.

Definition nvme_alarm (l : nvmeLog) : Prop :=
  CriticalWarning l <> 0
  \/ (exists s t, AvailableSpare l = Some s /\ AvailableSpareThreshold l = Some t /\ s < t)
  \/ (exists u, PercentageUsed l = Some u /\ 100 <= u)
  \/ (exists e, MediaErrors l = Some e /\ 0 < e).

Definition attribute_alarm (doc : smartctlOutput) : Prop :=
  if is_nvme doc then exists l, NVMeLog doc = Some l /\ nvme_alarm l else Exists (fun a => aWhenFailed a <> []) (ATATable doc).

Definition alarm (doc : smartctlOutput) (code : Z) : Prop := StatusPassed doc = false \/ attribute_alarm doc \/ code <> 0.

(** The summary names every failed attribute, in their order. *)
Definition failed_texts (l : list Attribute) : list gostr := map attribute_text (filter (fun a => WhenFailed a <> []) l).

Lemma raise_all l h :
  ErrorSummary (fold_left raise_attribute l h) = ErrorSummary h ++ failed_texts l
  /\ HasErrors (fold_left raise_attribute l h) = HasErrors h || negb (bool_decide (failed_texts l = [])).
Proof.
  revert h. induction l as [|a l IH]; intros h; cbn [fold_left].
  - by rewrite app_nil_r, orb_false_r.
  - destruct (IH (raise_attribute h a)) as [-> ->]. unfold failed_texts, raise_attribute. rewrite filter_cons.
    case_str (WhenFailed a) (@nil ascii) as Ea.
    + by rewrite decide_False by naive_solver.
    + rewrite decide_True by done. cbn [add_error ErrorSummary HasErrors map]. rewrite <- app_assoc. by rewrite orb_true_r.
Qed.

(** The attributes and the readings are set before any error is. *)
Definition quiet (h : Health) : Prop := HasErrors h = false /\ ErrorSummary h = [].

Lemma populateFromATA_attributes t h : Attributes (populateFromATA h t) = Attributes h ++ map ata_attribute t.
Proof.
  unfold populateFromATA. revert h. induction t as [|a t IH]; intros h; cbn [fold_left map]; [by rewrite app_nil_r|].
  rewrite IH. cbn [add_attributes Attributes]. by rewrite <- app_assoc.
Qed.

Lemma populateFromATA_quiet t h : quiet h -> quiet (populateFromATA h t) /\ OverallPassed (populateFromATA h t) = OverallPassed h.
Proof.
  unfold populateFromATA. revert h. induction t as [|a t IH]; intros h Hh; [done|]. cbn [fold_left].
  by destruct (IH (add_attributes h [ata_attribute a]) Hh) as [? ->].
Qed.

(** A step of populateFromNVMe: it adds rows, with a failed one among them
    exactly when [bad]. *)
Definition row_failed (h : Health) : Prop := Exists (fun a => WhenFailed a <> []) (Attributes h).
Definition nvme_step (f : Health -> Health) (bad : Prop) : Prop :=
  forall h, (row_failed (f h) <-> row_failed h \/ bad)
    /\ HasErrors (f h) = HasErrors h /\ ErrorSummary (f h) = ErrorSummary h /\ OverallPassed (f h) = OverallPassed h.

Lemma row_failed_add h a : row_failed (add_attributes h [a]) <-> row_failed h \/ WhenFailed a <> [].
Proof. unfold row_failed. cbn [add_attributes Attributes]. rewrite Exists_app, Exists_cons, Exists_nil. naive_solver. Qed.

Lemma step_comp f g P Q : nvme_step f P -> nvme_step g Q -> nvme_step (fun h => g (f h)) (P \/ Q).
Proof.
  intros Hf Hg h. destruct (Hf h) as (Ha & Hb & Hc & Hd), (Hg (f h)) as (Ga & Gb & Gc & Gd).
  rewrite Ga, Gb, Gc, Gd, Ha. split_and!; try done. naive_solver.
Qed.

Lemma step_critical l : nvme_step (add_critical l) (CriticalWarning l <> 0).
Proof. intros h. unfold add_critical, add. destruct (Z.eqb_spec (CriticalWarning l) 0); cbn [negb]; [naive_solver|]. rewrite row_failed_add. naive_solver. Qed.

Lemma step_spare l : nvme_step (add_spare l) (exists s t, AvailableSpare l = Some s /\ AvailableSpareThreshold l = Some t /\ s < t).
Proof.
  intros h. unfold add_spare. destruct (AvailableSpare l), (AvailableSpareThreshold l); try naive_solver.
  rewrite row_failed_add. cbn [WhenFailed]. destruct (Z.ltb_spec z z0); naive_solver lia.
Qed.

Lemma step_used l : nvme_step (add_used l) (exists u, PercentageUsed l = Some u /\ 100 <= u).
Proof.
  intros h. unfold add_used, add. destruct (PercentageUsed l) as [u|]; [|naive_solver].
  rewrite row_failed_add, Z.geb_leb. cbn [WhenFailed]. destruct (Z.leb_spec 100 u); naive_solver lia.
Qed.

Lemma step_media l : nvme_step (add_media l) (exists e, MediaErrors l = Some e /\ 0 < e).
Proof.
  intros h. unfold add_media, add. destruct (MediaErrors l) as [e|]; [|naive_solver].
  rewrite Z.gtb_ltb. destruct (Z.ltb_spec 0 e); [|naive_solver lia]. rewrite row_failed_add. naive_solver.
Qed.

Lemma step_counts l : nvme_step (add_counts l) False.
Proof. intros h. unfold add_counts, add. destruct (UnsafeShutdowns l), (NumErrLogEntries l); rewrite ?row_failed_add; naive_solver. Qed.

Lemma step_nvme l : nvme_step (fun h => populateFromNVMe h (Some l)) (nvme_alarm l).
Proof.
  intros h.
  destruct (step_comp _ _ _ _ (step_comp _ _ _ _ (step_comp _ _ _ _ (step_comp _ _ _ _ (step_critical l) (step_spare l)) (step_used l)) (step_media l)) (step_counts l)
    (set_readings h (or_else (Temperature h) (nTemperature l)) (or_else (PowerOnHours h) (nPowerOnHours l)) (or_else (PowerCycles h) (nPowerCycles l)))) as [Hr H].
  split; [|exact H]. unfold populateFromNVMe. rewrite Hr. unfold nvme_alarm, row_failed. cbn [set_readings Attributes]. naive_solver.
Qed.

Lemma populateNVMeSelfTest_same h l :
  let h' := populateNVMeSelfTest h l in
  Attributes h' = Attributes h /\ HasErrors h' = HasErrors h /\ ErrorSummary h' = ErrorSummary h /\ OverallPassed h' = OverallPassed h.
Proof. by destruct l as [[|e l]|]. Qed.

Lemma populateATASelfTest_same h l :
  let h' := populateATASelfTest h l in
  Attributes h' = Attributes h /\ HasErrors h' = HasErrors h /\ ErrorSummary h' = ErrorSummary h /\ OverallPassed h' = OverallPassed h.
Proof. by destruct l as [[|e l]|]. Qed.

Lemma failed_texts_nil l : failed_texts l <> [] <-> Exists (fun a => WhenFailed a <> []) l.
Proof.
  unfold failed_texts. induction l as [|a l IH]; [rewrite Exists_nil; naive_solver|]. rewrite filter_cons, Exists_cons.
  case_decide; naive_solver.
Qed.

Lemma failed_ata t : Exists (fun a => WhenFailed a <> []) (map ata_attribute t) <-> Exists (fun a => aWhenFailed a <> []) t.
Proof. apply (Exists_fmap ata_attribute). Qed.

(** What health_of has filled in before it looks for errors. *)
Definition filled (devicePath : gostr) (doc : smartctlOutput) : Health :=
  let h := base_health devicePath doc in
  if is_nvme doc then populateNVMeSelfTest (populateFromNVMe h (NVMeLog doc)) (NVMeSelfTestLog doc)
  else populateATASelfTest (populateFromATA h (ATATable doc)) (ATASelfTestLog doc).

Lemma filled_spec devicePath doc :
  quiet (filled devicePath doc) /\ OverallPassed (filled devicePath doc) = StatusPassed doc
  /\ (row_failed (filled devicePath doc) <-> attribute_alarm doc).
Proof.
  unfold filled, attribute_alarm, row_failed, quiet. destruct (is_nvme doc).
  - destruct (populateNVMeSelfTest_same (populateFromNVMe (base_health devicePath doc) (NVMeLog doc)) (NVMeSelfTestLog doc)) as (-> & -> & -> & ->).
    destruct (NVMeLog doc) as [l|].
    + destruct (step_nvme l (base_health devicePath doc)) as (Ha & -> & -> & ->). unfold row_failed in Ha. rewrite Ha. cbn. rewrite Exists_nil. naive_solver.
    + cbn. rewrite Exists_nil. naive_solver.
  - destruct (populateATASelfTest_same (populateFromATA (base_health devicePath doc) (ATATable doc)) (ATASelfTestLog doc)) as (-> & -> & -> & ->).
    rewrite populateFromATA_attributes. cbn [base_health Attributes app]. rewrite failed_ata.
    by destruct (populateFromATA_quiet (ATATable doc) (base_health devicePath doc)) as [[-> ->] ->].
Qed.

Lemma health_of_flags devicePath doc bits :
  (HasErrors (health_of devicePath doc bits) = true <-> alarm doc bits)
  /\ (HasErrors (health_of devicePath doc bits) = true <-> ErrorSummary (health_of devicePath doc bits) <> [])
  /\ Forall (.∈ ErrorSummary (health_of devicePath doc bits)) (failed_texts (Attributes (filled devicePath doc))).
Proof.
  destruct (filled_spec devicePath doc) as ((Hq & Hs) & Hp & Hr). unfold health_of. fold (filled devicePath doc).
  set (h := filled devicePath doc) in *. unfold row_failed in Hr. rewrite <- failed_texts_nil in Hr.
  set (h1 := if OverallPassed h then h else _).
  assert (Attributes h1 = Attributes h) as Ea by (unfold h1; by destruct (OverallPassed h)).
  assert (HasErrors h1 = negb (StatusPassed doc)) as E1 by (unfold h1; rewrite <- Hp; by destruct (OverallPassed h)).
  assert (ErrorSummary h1 <> [] <-> StatusPassed doc = false) as E2.
  { unfold h1. rewrite <- Hp. destruct (OverallPassed h); [naive_solver|]. cbn [add_error ErrorSummary]. rewrite Hs. naive_solver. }
  destruct (raise_all (Attributes h1) h1) as [Es Eh]. rewrite Ea in Es, Eh |- *. set (h2 := fold_left _ _ h1) in *.
  rewrite E1 in Eh. unfold alarm. rewrite <- Hr.
  assert (HasErrors h2 = true <-> StatusPassed doc = false \/ failed_texts (Attributes h) <> []) as Eh'.
  { rewrite Eh, orb_true_iff, !negb_true_iff, bool_decide_eq_false. done. }
  assert (HasErrors h2 = true <-> ErrorSummary h2 <> []) as Hse.
  { rewrite Eh', Es, <- E2. destruct (ErrorSummary h1), (failed_texts _); naive_solver. }
  assert (Forall (.∈ ErrorSummary h2) (failed_texts (Attributes h))) as Hin by (rewrite Es; apply Forall_forall; set_solver).
  destruct (Z.eqb_spec bits 0), (HasErrors h2) eqn:E; cbn [negb andb].
  1-3: rewrite E; naive_solver.
  cbn [add_error HasErrors ErrorSummary]. split_and!; [naive_solver|..].
  - split; [|done]. intros _. by destruct (ErrorSummary h2).
  - eapply Forall_impl; [exact Hin|]. set_solver.
Qed.

Lemma health_of_fixed devicePath doc bits :
  DeviceName (health_of devicePath doc bits) = devicePath /\ Attributes (health_of devicePath doc bits) = Attributes (filled devicePath doc).
Proof.
  assert (forall l h, Attributes (fold_left raise_attribute l h) = Attributes h /\ DeviceName (fold_left raise_attribute l h) = DeviceName h) as Hr.
  { induction l as [|a l IH]; intros h; [done|]. cbn [fold_left]. destruct (IH (raise_attribute h a)) as [-> ->].
    unfold raise_attribute. by destruct (str_eqb _ _). }
  assert (DeviceName (filled devicePath doc) = devicePath) as Hd.
  { unfold filled, populateFromATA, populateFromNVMe. destruct (is_nvme doc).
    - destruct (NVMeSelfTestLog doc) as [[|e l]|], (NVMeLog doc) as [l'|]; cbn [populateNVMeSelfTest set_test DeviceName]; try done;
        unfold add_counts, add_media, add_used, add_spare, add_critical; repeat case_match; done.
    - assert (forall t h, DeviceName (fold_left (fun h a => add_attributes h [ata_attribute a]) t h) = DeviceName h) as Ht.
      { induction t as [|a t IH]; intros h; [done|]. cbn [fold_left]. by rewrite IH. }
      destruct (ATASelfTestLog doc) as [[|e l]|]; cbn [populateATASelfTest set_test DeviceName]; by rewrite Ht. }
  unfold health_of. fold (filled devicePath doc). set (h := filled devicePath doc) in *.
  set (h1 := if OverallPassed h then h else _). assert (Attributes h1 = Attributes h /\ DeviceName h1 = DeviceName h) as [Ea En].
  { unfold h1. by destruct (OverallPassed h). }
  destruct (Hr (Attributes h1) h1) as [E1 E2]. destruct (_ && _); cbn [add_error DeviceName Attributes]; split; congruence.
Qed.

(** ** Bits of the exit code *)

Lemma land_bit c k : 0 <= k -> Z.land c (Z.shiftl 1 k) = 0 <-> Z.testbit c k = false.
Proof.
  intros Hk. rewrite Z.shiftl_1_l. split; intros Hc.
  - apply (f_equal (fun z => Z.testbit z k)) in Hc. by rewrite Z.land_spec, Z.pow2_bits_true, andb_true_r, Z.bits_0 in Hc.
  - apply Z.bits_inj'. intros n Hn. rewrite Z.land_spec, Z.bits_0, Z.pow2_bits_eqb by done. destruct (Z.eqb_spec k n) as [->|]; [|by rewrite andb_false_r].
    by rewrite Hc.
Qed.

Lemma land_two c : Z.land c (Z.lor (Z.shiftl 1 0) (Z.shiftl 1 1)) = 0 <-> Z.testbit c 0 = false /\ Z.testbit c 1 = false.
Proof. by rewrite Z.land_lor_distr_r, Z.lor_eq_0_iff, !land_bit by done. Qed.

Lemma land_three c :
  Z.land c (Z.lor (Z.lor (Z.shiftl 1 0) (Z.shiftl 1 1)) (Z.shiftl 1 2)) = 0 <-> (Z.testbit c 0 = false /\ Z.testbit c 1 = false) /\ Z.testbit c 2 = false.
Proof. by rewrite Z.land_lor_distr_r, Z.lor_eq_0_iff, land_two, land_bit. Qed.

(** ** The operations *)

Section Correct.
Context {W : Type} `{Runner W} (read_json : gostr -> option json) (SmartctlBin : gostr).

Lemma parse_cases dev out bits :
  (exists doc, out <> [] /\ read_json out ≫= decode = Some doc /\ parseSmartctlJSON read_json dev out bits = Ok (health_of dev doc bits))
  \/ (exists e, parseSmartctlJSON read_json dev out bits = Err e /\ (out = [] \/ read_json out ≫= decode = None)).
Proof.
  unfold parseSmartctlJSON. case_str out (@nil ascii) as Eo; cbn [negb]; [right; eauto|].
  destruct (read_json out ≫= decode) as [doc|]; [left|right]; eauto 6.
Qed.

(** Get, in one step: the check, the run, and what is made of its output. *)
Lemma Get_step dev w w' out err : device_ok dev -> runner (bin SmartctlBin) [ #"-a"; #"-j"; dev] w = (w', (out, err)) ->
  (usable err /\ Get read_json SmartctlBin dev w = (w', Some (parseSmartctlJSON read_json dev out (exit_code err))))
  \/ (exists e, Get read_json SmartctlBin dev w = (w', Some (Err e)) /\ (~ usable err \/ out = [])).
Proof.
  intros Hd Hr. unfold Get. rewrite (proj2 (validateDevicePath_iff dev) Hd). unfold bind, run, call. rewrite Hr. cbv beta iota.
  destruct err as [[he|t]|]; [|right; eauto|left; done]. unfold classifyExit. cbv zeta.
  destruct (Z.eqb_spec (Z.land (heExitCode he) (Z.lor (Z.lor (Z.shiftl 1 0) (Z.shiftl 1 1)) (Z.shiftl 1 2))) 0) as [E|E]; cbn [negb fatal nonFatalBits].
  - apply land_three in E as [Hu _]. by left.
  - rewrite land_three in E. destruct (Z.eqb_spec (Z.land (heExitCode he) (Z.lor (Z.shiftl 1 0) (Z.shiftl 1 1))) 0) as [E2|E2]; rewrite land_two in E2.
    + destruct (Z.eqb_spec (Z.land (heExitCode he) (Z.shiftl 1 2)) 0) as [E3|E3]; rewrite land_bit in E3 by done; [naive_solver|].
      case_str out (@nil ascii) as Eo; cbn [negb andb]; [right; eauto|by left].
    + right. eexists. split; [done|]. by left.
Qed.


(** *** The commands *)

Inductive smart_op := OGet (dev : gostr) | OSelfTest (dev testType : gostr) | OEnable (dev : gostr).

Definition device_of (o : smart_op) : gostr := match o with OGet d | OSelfTest d _ | OEnable d => d end.
Definition test_types : list gostr := [ #"short"; #"long"; #"conveyance"; #"abort"].
Definition allowed (o : smart_op) : Prop := device_ok (device_of o) /\ match o with OSelfTest _ t => t ∈ test_types | _ => True end.

Definition perform (o : smart_op) : M W bool :=
  match o with
  | OGet d => let! r := Get read_json SmartctlBin d in ret (is_ok r)
  | OSelfTest d t => let! r := RunSelfTest SmartctlBin d t in ret (is_ok r)
  | OEnable d => let! r := EnableSMART SmartctlBin d in ret (is_ok r)
  end.

(** smartctl's options, and what it is to read. *)
Definition smart_flags : list gostr := [ #"-a"; #"-j"; #"--smart=on"].
Definition request (o : smart_op) : reading :=
  match o with
  | OGet d => mkReading [ #"-a"; #"-j"] [] [d]
  | OSelfTest d t => mkReading [] [( #"-t", t)] [d]
  | OEnable d => mkReading [ #"--smart=on"] [] [d]
  end.
Definition args_of (o : smart_op) : list gostr :=
  match o with OGet d => [ #"-a"; #"-j"; d] | OSelfTest d t => [ #"-t"; t; d] | OEnable d => [ #"--smart=on"; d] end.

Lemma args_read o : device_ok (device_of o) -> getopt smart_flags [ #"-t"] (args_of o) = Some (request o).
Proof.
  intros Hd%device_not_option. assert (dashed smart_flags /\ dashed [ #"-t"]) as [Hf Ho] by (split; repeat constructor).
  pose proof (getopt_operand smart_flags [ #"-t"] Hf Ho (device_of o) [] Hd) as Hop. cbn [getopt mbind option_bind] in Hop.
  destruct o; cbn [device_of args_of request] in *; cbn; cbn in Hop; by rewrite Hop.
Qed.

Lemma validateTestType_iff t : validateTestType t = Ok tt <-> t ∈ test_types.
Proof. unfold validateTestType. rewrite <- existsb_str. unfold test_types. by destruct (existsb _ _). Qed.

(** An operation runs what [args_of] says, or nothing. *)
Lemma perform_cases o w :
  (allowed o /\ (perform o w).1 = (runner (bin SmartctlBin) (args_of o) w).1 /\ exists b, (perform o w).2 = Some b)
  \/ (~ allowed o /\ perform o w = (w, Some false)).
Proof.
  destruct (validateDevicePath (device_of o)) as [[]|e] eqn:Ev.
  - apply validateDevicePath_iff in Ev as Hd. destruct o as [d|d t|d]; cbn [device_of args_of] in *.
    + left. unfold perform, bind. destruct (runner _ _ w) as [w' [out err]] eqn:Er.
      destruct (Get_step d w w' out err Hd Er) as [[_ ->]|(e & -> & _)]; (split; [by split|]); cbn; eauto.
    + unfold perform, RunSelfTest, allowed. rewrite Ev, <- validateTestType_iff. destruct (validateTestType t) as [[]|e]; [left|right].
      * unfold bind, run, call. destruct (runner _ _ w) as [w' [out err]]. split; [by split|]. cbn. eauto.
      * split; [naive_solver|done].
    + left. unfold perform, EnableSMART. rewrite Ev. unfold bind, run, call. destruct (runner _ _ w) as [w' [out err]]. split; [by split|]. cbn. eauto.
  - right. apply validateDevicePath_err in Ev as Hd. split; [unfold allowed; naive_solver|].
    destruct o; cbn [device_of] in *; unfold perform, Get, RunSelfTest, EnableSMART; by rewrite Ev.
Qed.

(** Every request runs smartctl once or not at all.  For a device below
    /dev and, for a self-test, one of the four known tests, the only step
    is one run of smartctl, whose arguments are read as the request: the
    options the operation stands for and the device as the one operand,
    never as an option.  Anything else is refused and leaves the host as
    it was. *)
Theorem smart_ops_exact o w :
  (allowed o /\ exists args b, getopt smart_flags [ #"-t"] args = Some (request o)
     /\ perform o w = ((runner (bin SmartctlBin) args w).1, Some b))
  \/ (~ allowed o /\ perform o w = (w, Some false)).
Proof.
  destruct (perform_cases o w) as [(Ha & Hw & b & Hb)|]; [left|by right]. split; [done|]. exists (args_of o), b. split; [apply args_read, Ha|].
  rewrite <- Hw. destruct (perform o w) as [w1 r]. cbn in *. congruence.
Qed.
End Correct.

(** ** On concrete disks *)

Module SmallSmart.
Definition doc_nvme : json := JObj [
  ( #"device", JObj [( #"name", JStr #"/dev/nvme0"); ( #"type", JStr #"nvme")]);
  ( #"smart_status", JObj [( #"passed", JBool true)]);
  ( #"nvme_smart_health_information_log", JObj [( #"critical_warning", JNum 0); ( #"available_spare", JNum 4);
     ( #"available_spare_threshold", JNum 10); ( #"percentage_used", JNum 97)])].

(** A host on which smartctl gives the same answer every time; the state
    counts the runs. *)
Definition answers (out : gostr) (err : option run_err) : Runner nat := {| runner _ _ n := (S n, (out, err)) |}.
Definition host_error (code : Z) : option run_err := Some (HostErr (mkHostError #"smartctl" code [] #"exit status")).
Definition reader (j : json) (text : gostr) : option json := if str_eqb text #"doc" then Some j else None.

(** Bit 2 of the exit code is not an error of the call, although the
    package says that bits 0 to 2 are. *)
Example bit_two_is_health :
  (Get (H := answers #"doc" (host_error 4)) (reader doc_nvme) [] #"/dev/nvme0" 0%nat).2
  = Some (Ok (mkHealth #"/dev/nvme0" [] [] [] 0 true None None None
      [mkAttribute 0 #"available_spare" 4 0 10 #"4" failing; mkAttribute 0 #"percentage_used" 97 0 0 #"97" []]
      None true [ #"available_spare value 4 below threshold 10, FAILING_NOW"])).
Proof. vm_compute. reflexivity. Qed.

(** exec.Run reports a command that could not be started with the exit code
    0, which is no fatal bit: a self-test on a host without smartctl
    succeeds. *)
Example unstarted_self_test_succeeds :
  RunSelfTest (H := answers [] (host_error 0)) [] #"/dev/sda" #"long" 0%nat = (1%nat, Some (Ok tt)).
Proof. vm_compute. reflexivity. Qed.

(** A worn-out disk is said to be below a threshold of 0. *)
Example worn_out_is_below_zero :
  attribute_text (mkAttribute 0 #"percentage_used" 105 0 0 #"105" failing) = #"percentage_used value 105 below threshold 0, FAILING_NOW".
Proof. vm_compute. reflexivity. Qed.

(** The directory itself passes as a device. *)
Example dev_directory_accepted : validateDevicePath #"/dev/" = Ok tt.
Proof. vm_compute. reflexivity. Qed.
End SmallSmart.
