(* ===== verification/Krb5.v ===== *)
(** * internal/krb5sync: Keycloak users as Kerberos principals

    The daemon that keeps the principals of the KDC in step with the users
    of Keycloak: which principals a user is to have, one reconcile pass,
    the loop around it, the paging of the user list and the state file.
    Shown: a pass without failures leaves exactly the principals that are
    wanted and those the daemon has no say in, it never removes a service
    principal, and the state that is saved is the state that is loaded. *)

From stdpp Require Import gmap.
From S2P Require Import Prelude GoStrings GoPath SortLib Effects Regex GoText HostExec HostFiles Samba GoJson Smart.

Module Sync.

(** ** Users *)

Record KeycloakUser := mkUser { uID : gostr; Username : gostr; Enabled : bool; Attributes : gmap gostr (list gostr) }.
Record AdminEvent := mkEvent { evTime : Z; RealmID : gostr; OperationType : gostr; ResourceType : gostr; ResourcePath : gostr }.

Definition TenantAttribute : gostr := #"nova-tenant".
Definition PlatformNFSAttribute : gostr := #"nova-platform-nfs".

Definition Tenants (u : KeycloakUser) : list gostr := default [] (Attributes u !! TenantAttribute).
Definition PlatformNFSEnabled (u : KeycloakUser) : bool :=
  existsb (fun v => equal_fold (trim_space v) #"true") (default [] (Attributes u !! PlatformNFSAttribute)).

(** ** Principals *)

Definition ServicePrefixes : list gostr := [ #"krbtgt/"; #"kadmin/"; #"nfs/"; #"host/"; #"K/M"].
Definition IsServicePrincipal (name : gostr) : bool := existsb (fun p => str_eqb name p || has_prefix name p) ServicePrefixes.

(** sort.Strings. *)
Definition sort_strings (l : list gostr) : list gostr := stable_sort str_ltb l.

(** The loop over the tenants, with the names seen so far. *)
Fixpoint tenant_names (user realm : gostr) (seen : gset gostr) (ts : list gostr) : list gostr :=
  match ts with
  | [] => []
  | t :: ts' =>
      let t := trim_space t in
      if str_eqb t [] then tenant_names user realm seen ts'
      else
        let name := user ++ #"/" ++ t ++ #"@" ++ realm in
        if bool_decide (name ∈ seen) then tenant_names user realm seen ts'
        else name :: tenant_names user realm ({[name]} ∪ seen) ts'
  end.

Definition ExpectedPrincipals (u : KeycloakUser) (realm : gostr) : list gostr :=
  if negb (Enabled u) || str_eqb (trim_space (Username u)) [] then []
  else
    match Tenants u with
    | [] => if PlatformNFSEnabled u then [Username u ++ #"@" ++ realm] else []
    | ts => sort_strings (tenant_names (Username u) realm ∅ ts)
    end.

Definition PrincipalUserPattern (name realm : gostr) : bool :=
  if IsServicePrincipal name then false
  else
    let suffix := #"@" ++ realm in
    if negb (has_suffix name suffix) then false
    else
      let local := trim_suffix name suffix in
      if str_eqb local [] then false else negb (1 <? count_byte "/"%char local)%nat.

(** ** The state of the daemon *)

Record State := mkState { Version : Z; LastSyncUnix : Z; LastEventUnix : Z; UserPrincipals : gmap gostr (list gostr) }.
Definition CurrentVersion : Z := 1.
Definition NewState : State := mkState CurrentVersion 0 0 ∅.

Definition set_principals (s : State) (m : gmap gostr (list gostr)) : State := mkState (Version s) (LastSyncUnix s) (LastEventUnix s) m.

Definition SetUserPrincipals (uuid : gostr) (principals : list gostr) (s : State) : State :=
  if str_eqb uuid [] then s
  else match principals with
       | [] => set_principals s (delete uuid (UserPrincipals s))
       | _ => set_principals s (<[uuid := sort_strings principals]> (UserPrincipals s))
       end.

(** Times are given in whole seconds. *)
Definition MarkSynced (unix : Z) (s : State) : State := mkState (Version s) unix (LastEventUnix s) (UserPrincipals s).
Definition MarkEvent (unix : Z) (s : State) : State := mkState (Version s) (LastSyncUnix s) unix (UserPrincipals s).
(** The zero time when there was none. *)
Definition LastEvent (s : State) : option Z := if LastEventUnix s =? 0 then None else Some (LastEventUnix s).

Definition AllPrincipals (s : State) : list gostr :=
  sort_strings (elements (list_to_set (concat (map_to_list (UserPrincipals s)).*2) : gset gostr)).

(** ** The services the daemon talks to *)

Inductive api_err := Canceled | Failed.
Record SdkPrincipalSpec := mkSdkSpec { spName : gostr; spRandkey : bool; spPassword : gostr }.

Class KeycloakAPI (W : Type) := {
  kc_ListUsers : W -> W * res api_err (list KeycloakUser);
  kc_ListAdminEvents : option Z -> W -> W * res api_err (list AdminEvent) }.
Class PrincipalAPI (W : Type) := {
  kdc_ListPrincipals : W -> W * res api_err (list gostr);
  kdc_CreatePrincipal : SdkPrincipalSpec -> W -> W * res api_err unit;
  kdc_DeletePrincipal : gostr -> W -> W * res api_err unit }.

(** What wakes the loop in its second phase. *)
Inductive tick := Done | PollTick | EventTick.
Class Host (W : Type) := {
  time_Now : W -> W * Z;
  (** rand.Int64N *)
  rand_Int64N : Z -> W -> W * Z;
  (** the select of the first phase: whether the context was done first *)
  sleep : Z -> W -> W * bool;
  next_tick : W -> W * tick;
  first_ready : W -> W * unit }.

(** ** One pass *)

Record Result := mkResult {
  UsersConsidered : Z; PrincipalsDesired : Z; PrincipalsInKDC : Z; Created : list gostr; Deleted : list gostr; CreateErrors : Z; DeleteErrors : Z }.

Definition desired_of (realm : gostr) (users : list KeycloakUser) : gmap gostr gostr :=
  fold_left (fun m u => fold_left (fun m p => <[p := uID u]> m) (ExpectedPrincipals u realm) m) users ∅.
Definition desired_by_user (realm : gostr) (users : list KeycloakUser) : gmap gostr (list gostr) :=
  fold_left (fun m u => match ExpectedPrincipals u realm with [] => m | exp => <[uID u := exp]> m end) users ∅.

Section Reconciler.
Context {W : Type} `{KeycloakAPI W, PrincipalAPI W, Host W} (Realm : gostr).

(** One call per name; a failure is counted and the loop goes on. *)
Fixpoint call_each (f : gostr -> W -> W * res api_err unit) (names : list gostr) : M W (list gostr * Z) :=
  match names with
  | [] => ret ([], 0)
  | n :: names' =>
      let! r := call (f n) in
      let! rest := call_each f names' in
      ret (match r with Ok _ => (n :: rest.1, rest.2) | Err _ => (rest.1, rest.2 + 1) end)
  end.

(** The last part of a pass: what is recorded. *)
Definition record_users (users : list KeycloakUser) (now : Z) (s : State) : State :=
  let s := fold_left (fun s up => SetUserPrincipals up.1 up.2 s) (map_to_list (desired_by_user Realm users)) s in
  let currentUsers : gset gostr := list_to_set (map uID users) in
  let s := fold_left (fun s uid => if bool_decide (uid ∈ currentUsers) then s else SetUserPrincipals uid [] s)
             (elements (dom (UserPrincipals s))) s in
  MarkSynced now s.

Definition ReconcileOnce (s : State) : M W (State * res api_err Result) :=
  let! ru := call kc_ListUsers in
  match ru with
  | Err e => ret (s, Err e)
  | Ok users =>
      let! rk := call kdc_ListPrincipals in
      match rk with
      | Err e => ret (s, Err e)
      | Ok kdcList =>
          let desired := desired_of Realm users in
          let have : gset gostr := list_to_set kdcList in
          let createNames := sort_strings (elements (dom desired ∖ have)) in
          let! created := call_each (fun name => kdc_CreatePrincipal (mkSdkSpec name true [])) createNames in
          let deleteCandidates := sort_strings (filter (fun n => PrincipalUserPattern n Realm = true /\ n ∉ dom desired) (elements have)) in
          let! deleted := call_each kdc_DeletePrincipal deleteCandidates in
          let! now := call time_Now in
          ret (record_users users now s,
               Ok (mkResult (Z.of_nat (length users)) (Z.of_nat (size desired)) (Z.of_nat (length kdcList)) created.1 deleted.1 created.2 deleted.2))
      end
  end.

(** ** The loop *)

Definition Second : Z := 10 ^ 9.

(** Floating point is exact here: powers of two up to the cap. *)
Definition nextBackoff (attempt : Z) : M W Z :=
  let base := Z.min (60 * Second) (2 * Second * 2 ^ (attempt - 1)) in
  let! j := call (rand_Int64N Second) in ret (base + j).

Definition is_change (ev : AdminEvent) : bool :=
  str_eqb (ResourceType ev) #"USER" && existsb (str_eqb (OperationType ev)) [ #"CREATE"; #"UPDATE"; #"DELETE"].

(** Event times are in milliseconds. *)
Definition processAdminEvents (s : State) : M W (State * res api_err bool) :=
  let! r := call (kc_ListAdminEvents (LastEvent s)) in
  match r with
  | Err e => ret (s, Err e)
  | Ok [] => ret (s, Ok false)
  | Ok events =>
      let maxTime := fold_left (fun m ev => if evTime ev >? m then evTime ev else m) events 0 in
      ret (if maxTime >? 0 then MarkEvent (maxTime / 1000) s else s, Ok (existsb is_change events))
  end.

(** The first phase: until a pass succeeds.  [None]: stopped. *)
Fixpoint initial (fuel : nat) (attempt : Z) (s : State) : M W (option State) :=
  match fuel with
  | O => hang
  | S fuel' =>
      let! r := ReconcileOnce s in
      match r.2 with
      | Ok _ => let! _ := call first_ready in ret (Some r.1)
      | Err Canceled => ret None
      | Err Failed =>
          let! backoff := nextBackoff (attempt + 1) in
          let! done := call (sleep backoff) in
          if done then ret None else initial fuel' (attempt + 1) r.1
      end
  end.

(** The second phase.  [fuel] counts the ticks. *)
Fixpoint periodic (fuel : nat) (s : State) : M W State :=
  match fuel with
  | O => hang
  | S fuel' =>
      let! t := call next_tick in
      match t with
      | Done => ret s
      | PollTick => let! r := ReconcileOnce s in periodic fuel' r.1
      | EventTick =>
          let! r := processAdminEvents s in
          match r.2 with
          | Ok true => let! r2 := ReconcileOnce r.1 in periodic fuel' r2.1
          | _ => periodic fuel' r.1
          end
      end
  end.

Definition Run (fuel : nat) (s : State) : M W unit :=
  let! r := initial fuel 0 s in
  match r with None => ret tt | Some s => let! _ := periodic fuel s in ret tt end.
End Reconciler.

(** ** KeycloakClient.ListUsers

    [page first max] is what the server answers to one request: the users
    of the page, or nothing for any failure. *)
Section Paging.
Context (page : Z -> Z -> option (list KeycloakUser)).

Definition pageSize : Z := 100.
Fixpoint list_users_from (fuel : nat) (first : Z) (out : list KeycloakUser) : option (res unit (list KeycloakUser)) :=
  match fuel with
  | O => None
  | S fuel' =>
      match page first pageSize with
      | None => Some (Err tt)
      | Some p =>
          let out := out ++ p in
          if Z.of_nat (length p) <? pageSize then Some (Ok out) else list_users_from fuel' (first + Z.of_nat (length p)) out
      end
  end.
Definition ListUsers (fuel : nat) : option (res unit (list KeycloakUser)) := list_users_from fuel 0 [].
End Paging.
End Sync.
Import Sync.

(** ** Which principals a user is entitled to *)

Definition tenant_name (user realm t : gostr) : gostr := user ++ #"/" ++ trim_space t ++ #"@" ++ realm.

Definition entitled (realm : gostr) (u : KeycloakUser) (n : gostr) : Prop :=
  Enabled u = true /\ trim_space (Username u) <> []
  /\ ((exists t, t ∈ Tenants u /\ trim_space t <> [] /\ n = tenant_name (Username u) realm t)
      \/ (Tenants u = [] /\ PlatformNFSEnabled u = true /\ n = Username u ++ #"@" ++ realm)).

Lemma elem_of_sort n l : n ∈ sort_strings l <-> n ∈ l.
Proof. unfold sort_strings. by rewrite stable_sort_perm. Qed.

Lemma tenant_names_iff user realm ts : forall seen n, n ∈ tenant_names user realm seen ts <->
  n ∉ seen /\ exists t, t ∈ ts /\ trim_space t <> [] /\ n = tenant_name user realm t.
Proof.
  induction ts as [|t ts IH]; intros seen n; cbn [tenant_names]; [set_solver|].
  fold (tenant_name user realm t). set (a := tenant_name user realm t).
  case_str (trim_space t) (@nil ascii) as Et; [|case_bool_decide as Es].
  - rewrite IH. setoid_rewrite elem_of_cons. naive_solver.
  - rewrite IH. setoid_rewrite elem_of_cons. naive_solver.
  - rewrite elem_of_cons, IH, not_elem_of_union, elem_of_singleton. setoid_rewrite elem_of_cons. destruct (decide (n = a)); naive_solver.
Qed.

Lemma ExpectedPrincipals_iff u realm n : n ∈ ExpectedPrincipals u realm <-> entitled realm u n.
Proof.
  unfold ExpectedPrincipals, entitled. destruct (Enabled u); cbn [negb orb]; [|set_solver].
  case_str (trim_space (Username u)) (@nil ascii) as Eu; [set_solver|]. destruct (Tenants u) as [|t ts].
  - destruct (PlatformNFSEnabled u); set_solver.
  - rewrite elem_of_sort, tenant_names_iff. set_solver.
Qed.

Lemma desired_of_dom realm users n : n ∈ dom (desired_of realm users) <-> exists u, u ∈ users /\ entitled realm u n.
Proof.
  unfold desired_of.
  assert (forall id ps (m : gmap gostr gostr), n ∈ dom (fold_left (fun m p => <[p := id]> m) ps m) <-> n ∈ dom m \/ n ∈ ps) as Hin.
  { intros id ps. induction ps as [|p ps IH]; intros m; cbn [fold_left]; [set_solver|]. rewrite IH, dom_insert. set_solver. }
  assert (forall (m : gmap gostr gostr), n ∈ dom (fold_left (fun m u => fold_left (fun m p => <[p := uID u]> m) (ExpectedPrincipals u realm) m) users m)
    <-> n ∈ dom m \/ exists u, u ∈ users /\ entitled realm u n) as H.
  { induction users as [|u us IH]; intros m; cbn [fold_left]; [set_solver|]. rewrite IH, Hin, ExpectedPrincipals_iff. set_solver. }
  rewrite H. set_solver.
Qed.

(** ** What the services promise

    The set of the principals; a failed call may have done its work or
    not. *)
Class KdcLaws (W : Type) `{KeycloakAPI W, PrincipalAPI W, Host W} (principals : W -> gset gostr) := {
  list_law w w' r : kdc_ListPrincipals w = (w', r) ->
    principals w' = principals w /\ match r with Ok l => list_to_set l = principals w | Err _ => True end;
  create_law sp w w' r : kdc_CreatePrincipal sp w = (w', r) ->
    principals w' = {[spName sp]} ∪ principals w \/ (principals w' = principals w /\ r <> Ok tt);
  delete_law n w w' r : kdc_DeletePrincipal n w = (w', r) ->
    principals w' = principals w ∖ {[n]} \/ (principals w' = principals w /\ r <> Ok tt);
  users_law w : principals (kc_ListUsers w).1 = principals w;
  events_law t w : principals (kc_ListAdminEvents t w).1 = principals w;
  now_law w : principals (time_Now w).1 = principals w;
  rand_law n w : principals (rand_Int64N n w).1 = principals w;
  sleep_law d w : principals (sleep d w).1 = principals w;
  tick_law w : principals (next_tick w).1 = principals w;
  ready_law w : principals (first_ready w).1 = principals w }.

Section Correct.
Context {W : Type} `{KeycloakAPI W, PrincipalAPI W, Host W} (principals : W -> gset gostr) `{!KdcLaws W principals} (Realm : gostr).
#[local] Abbreviation add_one := (fun name => kdc_CreatePrincipal (mkSdkSpec name true [])).

(** Creating: nothing goes away, only the names come, and all of them when
    no call failed. *)
Lemma create_each names : forall w w' r, call_each add_one names w = (w', r) ->
  exists done errs, r = Some (done, errs) /\ principals w ⊆ principals w' /\ principals w' ⊆ principals w ∪ list_to_set names
    /\ 0 <= errs /\ (errs = 0 -> principals w' = principals w ∪ list_to_set names).
Proof.
  induction names as [|n names IH]; intros w w' r; cbn [call_each].
  - intros [= <- <-]. exists [], 0. set_solver by lia.
  - unfold bind, call. destruct (kdc_CreatePrincipal _ w) as [w1 r1] eqn:E1. destruct (call_each _ names w1) as [w2 r2] eqn:E2.
    apply create_law in E1. apply IH in E2 as (done & errs & -> & Hsub & Hsup & Hpos & Hall). cbn. intros [= <- <-]. cbn in E1. clear IH.
    destruct E1 as [E1|[E1 Hr]]; destruct r1 as [[]|e]; try done; do 2 eexists; (split; [done|]); cbn;
      rewrite E1 in Hsub, Hsup, Hall; clear E1;
      (split_and!; [clear Hall Hsup; set_solver|clear Hall Hsub; set_solver|lia|]); intros He; try lia; rewrite Hall by lia; clear; set_solver.
Qed.

Lemma delete_each names : forall w w' r, call_each kdc_DeletePrincipal names w = (w', r) ->
  exists done errs, r = Some (done, errs) /\ principals w' ⊆ principals w /\ principals w ∖ list_to_set names ⊆ principals w'
    /\ 0 <= errs /\ (errs = 0 -> principals w' = principals w ∖ list_to_set names).
Proof.
  induction names as [|n names IH]; intros w w' r; cbn [call_each].
  - intros [= <- <-]. exists [], 0. set_solver by lia.
  - unfold bind, call. destruct (kdc_DeletePrincipal _ w) as [w1 r1] eqn:E1. destruct (call_each _ names w1) as [w2 r2] eqn:E2.
    apply delete_law in E1. apply IH in E2 as (done & errs & -> & Hsub & Hsup & Hpos & Hall). cbn. intros [= <- <-]. clear IH.
    destruct E1 as [E1|[E1 Hr]]; destruct r1 as [[]|e]; try done; do 2 eexists; (split; [done|]); cbn;
      rewrite E1 in Hsub, Hsup, Hall; clear E1;
      (split_and!; [clear Hall Hsup; set_solver|clear Hall Hsub; set_solver|lia|]); intros He; try lia; rewrite Hall by lia; clear; set_solver.
Qed.

Definition wanted (users : list KeycloakUser) : gset gostr := dom (desired_of Realm users).
(** What the daemon has a say in: names of the shape of a user's. *)
Definition user_shaped (n : gostr) : Prop := PrincipalUserPattern n Realm = true.
Definition unwanted (users : list KeycloakUser) (have : gset gostr) : gset gostr := filter (fun n => user_shaped n /\ n ∉ wanted users) have.

Lemma list_to_set_sort (X : gset gostr) : (list_to_set (sort_strings (elements X)) : gset gostr) = X.
Proof. apply set_eq. intros n. rewrite elem_of_list_to_set, elem_of_sort. apply elem_of_elements. Qed.

(** The calls of a pass, and the sets they are made for. *)
Lemma reconcile_cases s w :
  (exists w' e, ReconcileOnce Realm s w = (w', Some (s, Err e)) /\ principals w' = principals w)
  \/ exists users w' s' res, (kc_ListUsers w).2 = Ok users /\ ReconcileOnce Realm s w = (w', Some (s', Ok res))
    /\ 0 <= CreateErrors res /\ 0 <= DeleteErrors res
    /\ exists mid, principals w ⊆ mid /\ mid ⊆ principals w ∪ (wanted users ∖ principals w)
       /\ principals w' ⊆ mid /\ mid ∖ unwanted users (principals w) ⊆ principals w'
       /\ (CreateErrors res = 0 -> mid = principals w ∪ (wanted users ∖ principals w))
       /\ (DeleteErrors res = 0 -> principals w' = mid ∖ unwanted users (principals w)).
Proof.
  unfold ReconcileOnce, bind, call. pose proof (users_law w) as Hu. destruct (kc_ListUsers w) as [w1 [users|e]] eqn:E1; cbn in Hu; [|left; eauto].
  destruct (kdc_ListPrincipals w1) as [w2 rk] eqn:E2. apply list_law in E2 as [E2 Hl]. destruct rk as [kdcList|e]; [|left; do 2 eexists; split; [done|congruence]].
  right. rewrite Hl. destruct (call_each _ (sort_strings (elements (dom (desired_of Realm users) ∖ _))) w2) as [w3 r3] eqn:E3.
  apply create_each in E3 as (cr & ce & -> & C1 & C2 & C3 & C4). rewrite list_to_set_sort in C2, C4. fold (wanted users) in C2, C4.
  destruct (call_each kdc_DeletePrincipal _ w3) as [w4 r4] eqn:E4. apply delete_each in E4 as (dl & de & -> & D1 & D2 & D3 & D4).
  assert (forall X : gset gostr, (list_to_set (sort_strings (filter (fun n => PrincipalUserPattern n Realm = true /\ n ∉ dom (desired_of Realm users)) (elements X))) : gset gostr)
    = unwanted users X) as Hf.
  { intros X. apply set_eq. intros n. unfold unwanted. rewrite elem_of_list_to_set, elem_of_sort, list_elem_of_filter, elem_of_filter, elem_of_elements. done. }
  rewrite Hf in D2, D4. pose proof (now_law w4) as Hn. destruct (time_Now w4) as [w5 now] eqn:E5. cbn in Hn.
  rewrite E2, Hu in *. do 4 eexists. split; [done|]. split; [done|]. cbn. split; [done|]. split; [done|].
  exists (principals w3). rewrite Hn. done.
Qed.

(** C11. A reconcile pass brings the KDC in step with Keycloak and does
    nothing else.  It always returns.  When one of the lists cannot be read
    nothing changes.  Otherwise a principal that is new is one that some
    listed user is entitled to (enabled, one name per tenant, or the bare
    name for a platform user with NFS access), and one that is gone has the
    shape of a user principal of the realm, is not a service principal, and
    nobody is entitled to it; when no call failed, the principals are
    exactly those somebody is entitled to and those that were there and
    are not of that shape. *)
Theorem reconcile_exact s w :
  match ReconcileOnce Realm s w with
  | (_, None) => False
  | (w', Some (s', Err _)) => principals w' = principals w /\ s' = s
  | (w', Some (s', Ok res)) =>
      exists users, (kc_ListUsers w).2 = Ok users
      /\ (forall n, n ∈ principals w' -> n ∈ principals w \/ exists u, u ∈ users /\ entitled Realm u n)
      /\ (forall n, n ∈ principals w -> n ∉ principals w' ->
            PrincipalUserPattern n Realm = true /\ IsServicePrincipal n = false /\ ~ exists u, u ∈ users /\ entitled Realm u n)
      /\ (CreateErrors res = 0 -> DeleteErrors res = 0 -> forall n,
            n ∈ principals w' <-> (exists u, u ∈ users /\ entitled Realm u n) \/ (n ∈ principals w /\ PrincipalUserPattern n Realm = false))
  end.
Proof.
  destruct (reconcile_cases s w) as [(w' & e & -> & He)|(users & w' & s' & res & Hu & -> & _ & _ & mid & M1 & M2 & M3 & M4 & M5 & M6)]; [done|].
  exists users. split; [done|]. split_and!.
  - intros n Hn. rewrite <- desired_of_dom. fold (wanted users). clear - Hn M2 M3. set_solver.
  - intros n Hn Hn'. rewrite <- desired_of_dom. fold (wanted users).
    assert (n ∈ unwanted users (principals w)) as Hx by (clear M5 M6; destruct (decide (n ∈ unwanted users (principals w))); [done|set_solver]).
    unfold unwanted in Hx. apply elem_of_filter in Hx as [[Hp Hw] _]. split_and!; try done.
    unfold user_shaped, PrincipalUserPattern in Hp. by destruct (IsServicePrincipal n).
  - intros Hc Hd n. rewrite <- desired_of_dom. fold (wanted users). rewrite (M6 Hd), (M5 Hc). clear.
    unfold unwanted, user_shaped. rewrite elem_of_difference, elem_of_filter, elem_of_union, elem_of_difference.
    destruct (decide (n ∈ wanted users)), (decide (n ∈ principals w)), (PrincipalUserPattern n Realm); naive_solver.
Qed.

(** ** The daemon *)

(** A principal that is not of the shape of a user's stays. *)
Definition keeps (w w' : W) : Prop := forall n, PrincipalUserPattern n Realm = false -> n ∈ principals w -> n ∈ principals w'.

#[local] Instance keeps_refl : Reflexive keeps.
Proof. by intros w n. Qed.
#[local] Instance keeps_trans : Transitive keeps.
Proof. intros a b c Hab Hbc n Hn Hin. by apply Hbc, Hab. Qed.

Lemma keeps_same w w' : principals w' = principals w -> keeps w w'.
Proof. intros E n _. by rewrite E. Qed.

Lemma reconcile_keeps s : respects keeps (ReconcileOnce Realm s).
Proof.
  intros w. destruct (reconcile_cases s w) as [(w' & e & -> & He)|(users & w' & s' & res & _ & -> & _ & _ & mid & M1 & _ & _ & M4 & _)]; [by apply keeps_same|].
  intros n Hn Hin. apply M4, elem_of_difference. split; [by apply M1|]. unfold unwanted, user_shaped. rewrite elem_of_filter. naive_solver congruence.
Qed.

Lemma call_keeps {A} (f : W -> W * A) : (forall w, principals (f w).1 = principals w) -> respects keeps (call f).
Proof. intros Hf. apply respects_call. intros w. by apply keeps_same. Qed.

Lemma hang_keeps {A} : respects keeps (hang (A := A)).
Proof. by intros w. Qed.

(** One step of a loop: a sequence, a result, or a call. *)
Ltac keep := repeat (lazymatch goal with |- respects _ (bind _ _) => apply respects_bind; [apply _| |intros] end);
  try first [apply respects_ret, _ | apply reconcile_keeps | solve [auto]
    | apply call_keeps; intros; first [apply users_law | apply events_law | apply now_law | apply rand_law | apply sleep_law | apply tick_law | apply ready_law]].

Lemma backoff_keeps a : respects keeps (nextBackoff a).
Proof. unfold nextBackoff. keep. Qed.

Lemma initial_keeps fuel : forall a s, respects keeps (initial Realm fuel a s).
Proof.
  induction fuel as [|fuel IH]; intros a s; [apply hang_keeps|]. cbn [initial]. keep.
  repeat case_match; keep; [apply backoff_keeps|]. case_match; keep.
Qed.

Lemma events_keep s : respects keeps (processAdminEvents s).
Proof. unfold processAdminEvents. keep. repeat case_match; keep. Qed.

Lemma periodic_keeps fuel : forall s, respects keeps (periodic Realm fuel s).
Proof.
  induction fuel as [|fuel IH]; intros s; [apply hang_keeps|]. cbn [periodic]. keep. case_match; keep; [apply events_keep|].
  repeat case_match; keep.
Qed.

(** C12. The daemon never removes a service principal.  However long it
    runs, whatever Keycloak, the KDC, the clock and the signals do, at
    every point of the run the ticket-granting, administration, NFS and
    host principals and the master key that were there at the start are
    still there, and so is every principal of another realm. *)
Theorem daemon_keeps_services fuel s w n :
  IsServicePrincipal n = true \/ has_suffix n (#"@" ++ Realm) = false -> n ∈ principals w -> n ∈ principals (Run Realm fuel s w).1.
Proof.
  intros Hn Hin. assert (respects keeps (Run Realm fuel s)) as Hr.
  { unfold Run. keep; [apply initial_keeps|]. case_match; keep. apply periodic_keeps. }
  apply Hr; [|done]. unfold PrincipalUserPattern. destruct (IsServicePrincipal n); [done|]. by destruct Hn as [?| ->].
Qed.
End Correct.

(** ** The user list is read whole *)

Lemma list_users_pages (users : list KeycloakUser) page : (forall first, 0 <= first -> page first pageSize = Some (take 100 (drop (Z.to_nat first) users))) ->
  forall fuel done, (length (drop (length done) users) < 100 * fuel)%nat -> done = take (length done) users ->
  list_users_from page fuel (Z.of_nat (length done)) done = Some (Ok users).
Proof.
  intros Hp. induction fuel as [|fuel IH]; intros dn Hf Hd; [lia|]. cbn [list_users_from]. rewrite Hp, Nat2Z.id by lia.
  set (p := take 100 (drop (length dn) users)). rewrite length_drop in Hf.
  assert (length p = (length users - length dn) `min` 100)%nat as Hl by (unfold p; rewrite length_take, length_drop; lia).
  assert (dn ++ p = take (length dn + length p) users) as Hdp.
  { rewrite Hl. rewrite Hd at 1. unfold p. rewrite <- (take_take_drop users (length dn)). f_equal. destruct (decide (length users - length dn <= 100)%nat).
    - rewrite Nat.min_l by lia. rewrite !take_ge; rewrite ?length_drop; done || lia.
    - by rewrite Nat.min_r by lia. }
  unfold pageSize. destruct (Z.ltb_spec (Z.of_nat (length p)) 100).
  - rewrite Hdp, take_ge; [done|lia].
  - rewrite <- Nat2Z.inj_add, <- length_app. apply IH; [rewrite length_drop, length_app; lia|]. rewrite length_app. done.
Qed.

(** However many users there are, the client returns all of them, in the
    order of the server, as long as they do not change between two pages. *)
Lemma list_users_complete (users : list KeycloakUser) page fuel :
  (forall first, 0 <= first -> page first pageSize = Some (take 100 (drop (Z.to_nat first) users))) ->
  (length users < 100 * fuel)%nat -> ListUsers page fuel = Some (Ok users).
Proof. intros Hp Hf. apply (list_users_pages users page Hp fuel []); [done|by rewrite take_0]. Qed.

(** ** The state of the daemon *)

(** Every record is for a user with an identifier, not empty and sorted. *)
Definition state_ok (s : State) : Prop :=
  map_Forall (fun uid ps => uid <> [] /\ ps <> [] /\ ps = sort_strings ps) (UserPrincipals s).

Lemma str_ltb_asym x y : str_ltb x y = true -> str_ltb y x = false.
Proof. intros H. destruct (str_ltb y x) eqn:E; [|done]. pose proof (str_ltb_trans _ _ _ H E) as Hx. by rewrite str_ltb_irrefl in Hx. Qed.

Lemma str_ltb_negtrans x y z : str_ltb y x = false -> str_ltb z y = false -> str_ltb z x = false.
Proof.
  intros H1 H2. destruct (str_ltb z x) eqn:E; [|done]. destruct (str_ltb x y) eqn:E2.
  - by rewrite (str_ltb_trans _ _ _ E E2) in H2.
  - by rewrite (str_ltb_total _ _ E2 H1), H2 in E.
Qed.

Lemma insert_after_end (x : gostr) l : Forall (fun y => str_ltb x y = false) l -> insert_after str_ltb x l = l ++ [x].
Proof. induction 1 as [|y l Hy Hl IH]; [done|]. cbn. by rewrite Hy, IH. Qed.

Lemma sort_sorted_id l : StronglySorted (fun x y => str_ltb y x = false) l -> sort_strings l = l.
Proof.
  intros Hl. unfold sort_strings, stable_sort. change l with ([] ++ l) in Hl. change l with ([] ++ l) at 2. revert Hl. generalize (@nil gostr).
  induction l as [|x l IH]; intros acc Hs; cbn [fold_left]; [by rewrite app_nil_r|].
  rewrite insert_after_end, IH; rewrite <- ?app_assoc; [done..|]. clear IH. induction acc as [|a acc IHa]; [done|].
  apply StronglySorted_inv in Hs as [Hs Ha]. constructor; [|by apply IHa]. rewrite Forall_app, Forall_cons in Ha. naive_solver.
Qed.

Lemma sort_idem l : sort_strings (sort_strings l) = sort_strings l.
Proof. apply sort_sorted_id, stable_sort_weak; [apply str_ltb_asym|apply str_ltb_negtrans]. Qed.

Lemma sort_nil l : sort_strings l = [] <-> l = [].
Proof. unfold sort_strings. split; [|by intros ->]. intros E. pose proof (stable_sort_perm str_ltb l) as Hp. rewrite E in Hp. by apply Permutation_nil_l in Hp. Qed.

Lemma set_ok uid ps s : state_ok s -> state_ok (SetUserPrincipals uid ps s).
Proof.
  unfold SetUserPrincipals, state_ok. intros Hs. case_str uid (@nil ascii) as Eu; [done|]. destruct ps as [|p ps].
  - by apply map_Forall_delete.
  - apply map_Forall_insert_2; [|done]. split_and!; [done| |by rewrite sort_idem]. by intros E%(proj1 (sort_nil _)).
Qed.

Lemma fold_ok {A} (f : State -> A -> State) l : (forall s a, state_ok s -> state_ok (f s a)) -> forall s, state_ok s -> state_ok (fold_left f l s).
Proof. intros Hf. induction l as [|a l IH]; intros s Hs; [done|]. cbn. by apply IH, Hf. Qed.

Lemma record_users_ok Realm users now s : state_ok s -> state_ok (record_users Realm users now s).
Proof.
  intros Hs. unfold record_users. change (state_ok (MarkSynced now ?s)) with (state_ok s). apply fold_ok; [|apply fold_ok].
  - intros s' uid Hs'. case_bool_decide; [done|by apply set_ok].
  - intros s' up Hs'. by apply set_ok.
  - done.
Qed.

(** Removing the records of the users that are gone. *)
Lemma drop_others (keep : gset gostr) l : forall s uid ps,
  UserPrincipals (fold_left (fun s uid => if bool_decide (uid ∈ keep) then s else SetUserPrincipals uid [] s) l s) !! uid = Some ps ->
  UserPrincipals s !! uid = Some ps /\ (uid ∈ l -> uid <> [] -> uid ∈ keep).
Proof.
  induction l as [|a l IH]; intros s uid ps; cbn [fold_left]; [set_solver|]. intros Hl%IH. destruct Hl as [Hl Hk]. revert Hl.
  unfold SetUserPrincipals. case_bool_decide; [|case_str a (@nil ascii) as Ea]; intros Hl.
  - set_solver.
  - set_solver.
  - cbn [set_principals UserPrincipals] in Hl. apply lookup_delete_Some in Hl as [Hne Hl]. split; [done|]. set_solver.
Qed.

(** After a pass only listed users have records. *)
Lemma recorded_users_listed Realm users now s uid : state_ok s -> uid ∈ dom (UserPrincipals (record_users Realm users now s)) -> exists u, u ∈ users /\ uID u = uid.
Proof.
  intros Hs [ps Hps]%elem_of_dom. assert (uid <> []) as Hne by (by apply (record_users_ok Realm users now s) in Hps as (? & _)).
  unfold record_users in Hps. cbn [MarkSynced UserPrincipals] in Hps. apply drop_others in Hps as [Hps Hk].
  assert (uid ∈ (list_to_set (map uID users) : gset gostr)) as Hin by (apply Hk; [apply elem_of_elements; by eapply elem_of_dom_2|done]).
  apply elem_of_list_to_set, list_elem_of_fmap in Hin as (u & -> & Hu). eauto.
Qed.

(** ** The state file *)

Module StateFile.
Definition state_ty : ty := struct [
  req #"version" TInt; req #"lastSyncUnix" TInt; opt #"lastEventUnix" TInt; req #"userPrincipals" (TMap (TSlice TStr))].

(** The file holds no UUID. *)
#[local] Instance no_uuid : UuidLib unit := { uuid_String _ := []; uuid_Parse _ := Some tt; uuid_Nil := tt }.
#[local] Instance no_uuid_laws : UuidLaws unit.
Proof. constructor; [by intros []|]. intros u. constructor. Qed.
Abbreviation val := (den (U := unit) state_ty).

Definition to_val (s : State) : val := (Version s, (LastSyncUnix s, (LastEventUnix s, (Some (Some <$> UserPrincipals s), tt)))).
(** A missing map is an empty one; version 0 is the current one. *)
Definition of_val (v : val) : State :=
  let '(version, (sync, (event, (m, _)))) := v in
  mkState (if version =? 0 then CurrentVersion else version) sync event (default [] <$> default ∅ m).

(** What Save makes of the state before it writes it. *)
Definition normal (s : State) : State :=
  mkState (if Version s =? 0 then CurrentVersion else Version s) (LastSyncUnix s) (LastEventUnix s) (sort_strings <$> UserPrincipals s).

(** What is used of package os. *)
Class TempFiles (W : Type) := {
  os_ReadFile : gostr -> W -> W * read_res;
  (** a directory and the part of the pattern before its star *)
  os_CreateTemp : gostr -> gostr -> W -> W * option gostr;
  tmp_Write : gostr -> gostr -> W -> W * bool;
  tmp_Sync : gostr -> W -> W * bool;
  tmp_Close : gostr -> W -> W * bool;
  os_Rename : gostr -> gostr -> W -> W * bool;
  os_Remove : gostr -> W -> W * bool }.

Inductive file_err := LoadFailed | ParseFailed | CreateFailed | WriteFailed | SyncFailed | CloseFailed | RenameFailed.

Definition temp_prefix : gostr := #".state.json.tmp.".

Section Files.
Context {W : Type} `{TempFiles W} (print_json : json -> gostr) (read_json : gostr -> option json).

Definition Load (path : gostr) : M W (res file_err State) :=
  let! r := call (os_ReadFile path) in
  match r with
  | Missing => ret (Ok NewState)
  | ReadFailed => ret (Err LoadFailed)
  | Data b =>
      match read_json b ≫= unmarshal state_ty (zero state_ty) with
      | None => ret (Err ParseFailed)
      | Some v => ret (Ok (of_val v))
      end
  end.

(** The body of Save once the file exists. *)
Definition write_temp (tmpName path buf : gostr) : M W (res file_err unit) :=
  let! ok := call (tmp_Write tmpName buf) in
  if negb ok then let! _ := call (tmp_Close tmpName) in ret (Err WriteFailed) else
  let! ok := call (tmp_Sync tmpName) in
  if negb ok then let! _ := call (tmp_Close tmpName) in ret (Err SyncFailed) else
  let! ok := call (tmp_Close tmpName) in
  if negb ok then ret (Err CloseFailed) else
  let! ok := call (os_Rename tmpName path) in
  if negb ok then ret (Err RenameFailed) else ret (Ok tt).

Definition Save (path : gostr) (s : State) : M W (res file_err unit) :=
  let buf := print_json (marshal state_ty (to_val (normal s))) in
  let! t := call (os_CreateTemp (Dir path) temp_prefix) in
  match t with
  | None => ret (Err CreateFailed)
  | Some tmpName =>
      let! r := write_temp tmpName path buf in
      let! _ := call (os_Remove tmpName) in
      ret r
  end.
End Files.

(** A file system: names that were free, renames that are atomic, writes
    that may be cut short. *)
Class TempLaws (W : Type) `{TempFiles W} (files : W -> gmap gostr gostr) := {
  read_law p w w' r : os_ReadFile p w = (w', r) -> files w' = files w /\
    match r with Data d => files w !! p = Some d | Missing => files w !! p = None | ReadFailed => True end;
  temp_law d pre w w' r : os_CreateTemp d pre w = (w', r) ->
    match r with Some n => contains n pre = true /\ files w !! n = None /\ files w' = <[n := []]> (files w) | None => files w' = files w end;
  write_law n d w w' r : tmp_Write n d w = (w', r) -> exists c, files w' = <[n := c]> (files w) /\ (r = true -> c = d);
  sync_law n w : files (tmp_Sync n w).1 = files w;
  close_law n w : files (tmp_Close n w).1 = files w;
  rename_law a b w w' r : os_Rename a b w = (w', r) ->
    if r then exists d, files w !! a = Some d /\ files w' = <[b := d]> (delete a (files w)) else files w' = files w;
  remove_law n w w' r : os_Remove n w = (w', r) -> files w' = if r then delete n (files w) else files w }.

Section Correct.
Context {W : Type} `{TempFiles W} (files : W -> gmap gostr gostr) `{!TempLaws W files}.
Context (print_json : json -> gostr) (read_json : gostr -> option json).

(** The file at [q] is as it was. *)
#[local] Abbreviation same q w w' := (files w' !! q = files w !! q).

Lemma write_temp_spec n path buf w : n <> path -> files w !! n <> None ->
  exists w' r, write_temp n path buf w = (w', Some r)
  /\ (forall q, q <> n -> q <> path -> same q w w')
  /\ match r with Ok _ => files w' !! path = Some buf | Err _ => same path w w' end.
Proof.
  intros Hne Hn. unfold write_temp, bind, call. destruct (tmp_Write n buf w) as [w1 r1] eqn:E1. apply write_law in E1 as (c & E1 & Hc).
  assert (forall q, q <> n -> same q w w1) as S1 by (intros q Hq; by rewrite E1, lookup_insert_ne).
  pose proof (close_law n w1) as C1. pose proof (sync_law n w1) as Y. destruct r1; cbn [negb].
  2: { destruct (tmp_Close n w1) as [w2 r2]. cbn in C1. do 2 eexists. split; [done|]. rewrite C1. auto. }
  destruct (tmp_Sync n w1) as [w2 r2]. cbn in Y. pose proof (close_law n w2) as C2. destruct r2; cbn [negb].
  2: { destruct (tmp_Close n w2) as [w3 r3]. cbn in C2. do 2 eexists. split; [done|]. rewrite C2, Y. auto. }
  destruct (tmp_Close n w2) as [w3 r3]. cbn in C2. destruct r3; cbn [negb].
  2: { do 2 eexists. split; [done|]. rewrite C2, Y. auto. }
  destruct (os_Rename n path w3) as [w4 r4] eqn:E4. apply rename_law in E4. rewrite C2, Y in E4. destruct r4; cbn [negb].
  - destruct E4 as (d & Hd & E4). rewrite E1, lookup_insert_eq in Hd. rewrite Hc in Hd by done. injection Hd as <-.
    do 2 eexists. split; [done|]. rewrite E4. split; [|by rewrite lookup_insert_eq].
    intros q Hq Hq'. rewrite lookup_insert_ne, lookup_delete_ne by done. by apply S1.
  - do 2 eexists. split; [done|]. rewrite E4. auto.
Qed.

(** Saving is all or nothing: the file holds the new state whole, or what it
    held, and no other file that was there changes. *)
Lemma Save_atomic path s w : contains path temp_prefix = false ->
  exists w' r, Save print_json path s w = (w', Some r)
  /\ (forall q, q <> path -> files w !! q <> None -> same q w w')
  /\ match r with Ok _ => files w' !! path = Some (print_json (marshal state_ty (to_val (normal s)))) | Err _ => same path w w' end.
Proof.
  intros Hp. unfold Save, bind, call. destruct (os_CreateTemp _ _ w) as [w1 [n|]] eqn:E1; apply temp_law in E1.
  - destruct E1 as (Hc & Hn & E1). assert (n <> path) as Hne by congruence.
    destruct (write_temp_spec n path (print_json (marshal state_ty (to_val (normal s)))) w1 Hne) as (w2 & r & -> & Hq & Hr); [by rewrite E1, lookup_insert_eq|].
    destruct (os_Remove n w2) as [w3 ok] eqn:E3. apply remove_law in E3. do 2 eexists. split; [done|].
    assert (forall q, q <> n -> same q w2 w3) as S3 by (intros q Hqn; rewrite E3; destruct ok; [by rewrite lookup_delete_ne|done]).
    assert (forall q, q <> n -> same q w w1) as S1 by (intros q Hqn; by rewrite E1, lookup_insert_ne). split.
    + intros q Hqp Hqw. assert (q <> n) by congruence. by rewrite S3, Hq, S1.
    + rewrite S3 by done. destruct r; [done|]. by rewrite Hr, S1.
  - do 2 eexists. split; [done|]. by rewrite E1.
Qed.

(** Texts and numbers of the machine. *)
Definition state_fits (s : State) : Prop :=
  in_int64 (Version s) = true /\ in_int64 (LastSyncUnix s) = true /\ in_int64 (LastEventUnix s) = true
  /\ map_Forall (fun uid ps => valid_utf8 uid = true /\ Forall (fun p => valid_utf8 p = true) ps) (UserPrincipals s).

Lemma normal_id s : state_ok s -> Version s <> 0 -> normal s = s.
Proof.
  intros Hs Hv. destruct s as [v ls le m]. unfold normal, state_ok in *. cbn in *. destruct (Z.eqb_spec v 0); [done|]. f_equal.
  apply map_eq. intros uid. rewrite lookup_fmap. destruct (m !! uid) as [ps|] eqn:E; [|done]. cbn. by destruct (Hs uid ps E) as (_ & _ & <-).
Qed.

Lemma state_json s : state_fits s -> Version s <> 0 ->
  of_val <$> unmarshal state_ty (zero state_ty) (marshal state_ty (to_val s)) = Some s.
Proof.
  intros (Hv & Hs & He & Hm) Hv0. rewrite json_roundtrip.
  - destruct s as [v ls le m]. cbn in *. destruct (Z.eqb_spec v 0); [done|]. f_equal. f_equal; [by destruct le|].
    apply map_eq. intros uid. rewrite !lookup_fmap. destruct (m !! uid) as [ps|]; [|done]. cbn. by rewrite map_id.
  - by vm_compute.
  - destruct s as [v ls le m]. cbn in *. split_and!; try done. apply map_Forall_fmap. eapply map_Forall_impl; [exact Hm|]. done.
Qed.

(** What was saved is what the next start of the daemon loads. *)
Lemma state_survives_restart path s w w1 : (forall j, read_json (print_json j) = Some j) -> contains path temp_prefix = false ->
  state_ok s -> state_fits s -> Version s <> 0 ->
  Save print_json path s w = (w1, Some (Ok tt)) -> forall w2 r, Load read_json path w1 = (w2, Some r) -> r = Ok s \/ r = Err LoadFailed.
Proof.
  intros Hj Hp Hs Hf Hv Hsave w2 r. destruct (Save_atomic path s w Hp) as (w1' & r' & E & _ & Hfile). rewrite E in Hsave. simplify_eq.
  rewrite normal_id in Hfile by done. unfold Load, bind, call. destruct (os_ReadFile path w1) as [w3 rr] eqn:Er. apply read_law in Er as [_ Hr].
  rewrite Hfile in Hr. destruct rr as [d| |]; [|done|by intros [= <- <-]; right]. injection Hr as <-. rewrite Hj. cbn [mbind option_bind].
  pose proof (state_json s Hf Hv) as Hu. destruct (unmarshal _ _ _) as [v|]; [|done]. injection Hu as Hu. intros [= <- <-]. left. by rewrite Hu.
Qed.
End Correct.
End StateFile.

(** * internal/host/krb5: the KDC behind the daemon

    principal.go and kdc.go: principals through kadmin.local, the status of
    the KDC and its first start. *)

Module Kdc.
Record PrincipalInfo := mkInfo { piName : gostr; KVNO : Z; Expiration : gostr; piAttributes : gostr }.
Record CreatePrincipalSpec := mkSpec { Name : gostr; Randkey : bool; Password : gostr }.
Record KDCConfig := mkConfig { cfgRealm : gostr; DatabasePath : gostr; SealedBlobPath : gostr; KadminLocalBin : gostr; Kdb5UtilBin : gostr; SystemctlBin : gostr }.
Record KDCStatus := mkStatus { Running : bool; stRealm : gostr; DatabaseExists : bool; StashSealed : bool; PrincipalCount : Z }.

Inductive krb_err :=
| NameRequired | NameTooLong | NameInvalid | Exclusive | RunFailed (e : Smart.run_err) | NotExist | TempFailed | KeytabUnread | KeytabInvalid
| PasswordRequired | AlreadyBootstrapped | StatError.

Definition alnum (c : ascii) : bool := is_lower c || is_upper c || is_digit c.
Definition mark (c : ascii) : bool := ch_eqb c "."%char || ch_eqb c "_"%char || ch_eqb c "-"%char.
Definition realm_char (c : ascii) : bool := alnum c || mark c.
Definition name_char (c : ascii) : bool := realm_char c || ch_eqb c "/"%char.
Definition principalNameRE : re :=
  Cat (Cls alnum) (Cat (Star (Cls name_char)) (Opt (Cat (Lit "@"%char) (Cat (Cls alnum) (Star (Cls realm_char)))))).

Definition validatePrincipalName (name : gostr) : res krb_err unit :=
  ensure negb (str_eqb name []) else NameRequired ;;
  ensure negb (256 <? length name)%nat else NameTooLong ;;
  ensure match_string principalNameRE name else NameInvalid ;; Ok tt.

Definition shellQuote (s : gostr) : gostr := #"'" ++ replace_all s #"'" #"'\''" ++ #"'".

Definition skipped_line (line : gostr) : bool :=
  str_eqb line [] || has_prefix line #"Authenticating as principal" || has_prefix line #"kadmin.local:".
Definition parseListPrincipals (data : gostr) : list gostr :=
  List.filter (fun line => negb (skipped_line line)) (map trim_space (split_on newline data)).

Definition splitColon (s : gostr) : option (gostr * gostr) :=
  match cut_at ":"%char s with
  | None => None
  | Some (k, v) => let k := trim_space k in if str_eqb k [] then None else Some (k, trim_space v)
  end.

(** One field: its value when it has digits only. *)
Fixpoint digits_of (n : Z) (valid : bool) (f : gostr) : bool * Z :=
  match f with
  | [] => (valid, n)
  | c :: f' => if is_digit c then digits_of (wrap64 (n * 10 + (byte_val c - 48))) true f' else (false, n)
  end.
Fixpoint atoiSafe (fields : list gostr) : Z :=
  match fields with
  | [] => 0
  | f :: fs => let (valid, n) := digits_of 0 false f in if valid && (n >? 0) then n else atoiSafe fs
  end.

Definition get_line (st : PrincipalInfo * bool) (raw : gostr) : PrincipalInfo * bool :=
  let (info, found) := st in
  let line := trim_space raw in
  if str_eqb line [] then st
  else match splitColon line with
       | None => st
       | Some (k, v) =>
           if str_eqb k #"Principal" then (mkInfo v (KVNO info) (Expiration info) (piAttributes info), true)
           else if str_eqb k #"Expiration date" then (mkInfo (piName info) (KVNO info) v (piAttributes info), found)
           else if str_eqb k #"Attributes" then (mkInfo (piName info) (KVNO info) (Expiration info) v, found)
           else if str_eqb k #"Key version" then
             let n := atoiSafe (fields v) in if n >? 0 then (mkInfo (piName info) n (Expiration info) (piAttributes info), found) else st
           else st
       end.
Definition parseGetPrincipal (data : gostr) : option PrincipalInfo :=
  let (info, found) := fold_left get_line (split_on newline data) (mkInfo [] 0 [] [], false) in if found then Some info else None.

(** err.Error(), in lower case. *)
Definition error_text (e : Smart.run_err) : gostr := match e with Smart.HostErr he => HostError_Error he | Smart.OtherErr t => t end.
Definition isPrincipalNotFound (e : Smart.run_err) : bool :=
  let s := Smb.to_lower (error_text e) in contains s #"principal does not exist" || contains s #"not found in kerberos database".

Inductive stat_res := Exists_ | NoFile | StatFailed.
Class KdcFiles (W : Type) := {
  fs_Stat : gostr -> W -> W * stat_res;
  (** the directory, and the pattern around its star *)
  kt_CreateTemp : gostr -> gostr -> gostr -> W -> W * option gostr;
  kt_Remove : gostr -> W -> W * unit;
  kt_ReadFile : gostr -> W -> W * option gostr;
  os_TempDir : W -> W * gostr }.

Definition or_default (s d : gostr) : gostr := if str_eqb s [] then d else s.

Section Manager.
Context {W : Type} `{Smart.Runner W, KdcFiles W} (Cfg : KDCConfig).

Definition realm : gostr := or_default (trim_space (cfgRealm Cfg)) #"NOVANAS.LOCAL".
Definition databasePath : gostr := or_default (DatabasePath Cfg) #"/var/lib/krb5kdc/principal".
Definition sealedBlobPath : gostr := or_default (SealedBlobPath Cfg) #"/etc/nova-kdc/master.enc".
Definition kadminLocalBin : gostr := or_default (KadminLocalBin Cfg) #"/usr/sbin/kadmin.local".
Definition kdb5UtilBin : gostr := or_default (Kdb5UtilBin Cfg) #"/usr/sbin/kdb5_util".
Definition systemctlBin : gostr := or_default (SystemctlBin Cfg) #"/bin/systemctl".

Definition query (q : gostr) : M W (gostr * option Smart.run_err) := call (Smart.runner kadminLocalBin [ #"-q"; q]).

Definition GetPrincipal (name : gostr) : M W (res krb_err PrincipalInfo) :=
  match validatePrincipalName name with
  | Err e => ret (Err e)
  | Ok _ =>
      let! r := query (#"get_principal " ++ name) in
      ret (match r.2 with
           | Some e => if isPrincipalNotFound e then Err NotExist else Err (RunFailed e)
           | None =>
               match parseGetPrincipal r.1 with
               | None => Err NotExist
               | Some info => Ok (if str_eqb (piName info) [] then mkInfo name (KVNO info) (Expiration info) (piAttributes info) else info)
               end
           end)
  end.

Definition add_query (spec : CreatePrincipalSpec) : gostr :=
  if Randkey spec || str_eqb (Password spec) [] then #"add_principal -randkey " ++ Name spec
  else #"add_principal -pw " ++ shellQuote (Password spec) ++ #" " ++ Name spec.

Definition CreatePrincipal (spec : CreatePrincipalSpec) : M W (res krb_err PrincipalInfo) :=
  match validatePrincipalName (Name spec) with
  | Err e => ret (Err e)
  | Ok _ =>
      if Randkey spec && negb (str_eqb (Password spec) []) then ret (Err Exclusive)
      else
        let! r := query (add_query spec) in
        match r.2 with
        | Some e => ret (Err (RunFailed e))
        | None => GetPrincipal (Name spec)
        end
  end.

Definition DeletePrincipal (name : gostr) : M W (res krb_err unit) :=
  match validatePrincipalName name with
  | Err e => ret (Err e)
  | Ok _ =>
      let! r := query (#"delete_principal -force " ++ name) in
      ret (match r.2 with Some e => if isPrincipalNotFound e then Ok tt else Err (RunFailed e) | None => Ok tt end)
  end.

Definition ListPrincipals : M W (res krb_err (list gostr)) :=
  let! r := query #"list_principals" in
  ret (match r.2 with Some e => Err (RunFailed e) | None => Ok (parseListPrincipals r.1) end).

Definition GenerateKeytab (name dir : gostr) : M W (res krb_err gostr) :=
  match validatePrincipalName name with
  | Err e => ret (Err e)
  | Ok _ =>
      let! dir := if str_eqb dir [] then call os_TempDir else ret dir in
      let safeName := replace_all name #"/" #"_" in
      let! t := call (kt_CreateTemp dir (#"novanas-keytab-" ++ safeName ++ #"-") #".keytab") in
      match t with
      | None => ret (Err TempFailed)
      | Some tmpPath =>
          let! _ := call (kt_Remove tmpPath) in
          let! res :=
            (let! r := query (#"ktadd -k " ++ tmpPath ++ #" " ++ name) in
             match r.2 with
             | Some e => ret (Err (RunFailed e))
             | None =>
                 let! d := call (kt_ReadFile (Clean tmpPath)) in
                 ret (match d with
                      | None => Err KeytabUnread
                      | Some data => match data with c :: _ => if byte_val c =? 5 then Ok data else Err KeytabInvalid | [] => Err KeytabInvalid end
                      end)
             end) in
          let! _ := call (kt_Remove tmpPath) in
          ret res
      end
  end.

Definition Status : M W (res krb_err KDCStatus) :=
  let! db := call (fs_Stat databasePath) in
  match db with
  | StatFailed => ret (Err StatError)
  | _ =>
      let exists_ := match db with Exists_ => true | _ => false end in
      let! blob := call (fs_Stat sealedBlobPath) in
      match blob with
      | StatFailed => ret (Err StatError)
      | _ =>
          let sealed := match blob with Exists_ => true | _ => false end in
          let! out := call (Smart.runner systemctlBin [ #"is-active"; #"krb5kdc"]) in
          let running := str_eqb (trim_space out.1) #"active" in
          if exists_ then
            let! names := ListPrincipals in
            ret (Ok (mkStatus running realm true sealed (match names with Ok l => Z.of_nat (length l) | Err _ => 0 end)))
          else ret (Ok (mkStatus running realm false sealed 0))
      end
  end.

Definition Bootstrap (masterPassword : gostr) : M W (res krb_err unit) :=
  if str_eqb masterPassword [] then ret (Err PasswordRequired)
  else
    let! db := call (fs_Stat databasePath) in
    match db with
    | Exists_ => ret (Err AlreadyBootstrapped)
    | StatFailed => ret (Err StatError)
    | NoFile =>
        let! r := call (Smart.runner kdb5UtilBin [ #"-r"; realm; #"-P"; masterPassword; #"create"; #"-s"]) in
        ret (match r.2 with Some e => Err (RunFailed e) | None => Ok tt end)
    end.
End Manager.
End Kdc.
Import Kdc.

(** ** Names are words *)

Lemma valid_principal n u : validatePrincipalName n = Ok u -> exists c r, n = c :: r /\ alnum c = true /\ Forall (fun a => name_char a = true \/ a = "@"%char) r.
Proof.
  unfold validatePrincipalName. destruct (match_string principalNameRE n) eqn:E; [|by repeat case_match]. intros _. apply match_string_iff in E.
  unfold principalNameRE in E. apply lang_Cat in E as (a & b & -> & (c & -> & Hc)%lang_Cls & E). exists c, b. split; [done|]. split; [done|].
  apply lang_Cat in E as (m & t & -> & Hm%lang_Star_Cls & [->|E]%lang_Opt); apply Forall_app; split; try (eapply Forall_impl; [exact Hm|]; auto); [done|].
  apply lang_Cat in E as (x & y & -> & (d & -> & Hd)%lang_Cls & E). constructor; [right; by apply ch_eqb_eq|].
  apply lang_Cat in E as (x & z & -> & (e & -> & He)%lang_Cls & Hz%lang_Star_Cls). constructor.
  - left. unfold name_char, realm_char. by rewrite He.
  - eapply Forall_impl; [exact Hz|]. intros f Hf. left. unfold name_char. by rewrite Hf.
Qed.

Lemma name_char_ascii : forallb (fun n => let c := byte_of (Z.of_nat n) in implb (name_char c || ch_eqb c "@"%char) (printable c)) (seq 0 256) = true.
Proof. vm_compute. reflexivity. Qed.

Lemma byte_cases (P : ascii -> bool) : forallb (fun n => P (byte_of (Z.of_nat n))) (seq 0 256) = true -> forall c, P c = true.
Proof.
  intros H c. rewrite forallb_forall in H. replace c with (byte_of (Z.of_nat (N.to_nat (N_of_ascii c)))).
  - apply H, in_seq. pose proof (N_ascii_bounded c). lia.
  - unfold byte_of. rewrite N_nat_Z, N2Z.id. apply ascii_N_embedding.
Qed.

Lemma name_char_printable c : name_char c = true \/ c = "@"%char -> printable c = true.
Proof.
  intros Hc. pose proof (byte_cases (fun c => implb (name_char c || ch_eqb c "@"%char) (printable c)) name_char_ascii c) as H. cbv beta in H.
  assert (name_char c || ch_eqb c "@"%char = true) as E by (destruct Hc as [->| ->]; [done|by rewrite orb_true_r]). by rewrite E in H.
Qed.

Lemma principal_word n u : validatePrincipalName n = Ok u -> word n = true.
Proof.
  intros (c & r & -> & Hc & Hr)%valid_principal. apply word_iff. split; [done|]. constructor.
  - apply name_char_printable. left. unfold name_char, realm_char. by rewrite Hc.
  - eapply Forall_impl; [exact Hr|]. intros a. apply name_char_printable.
Qed.

(** A query is made of the words of the request: a name is one word, and
    none that kadmin could take for an option. *)
Lemma queries_are_words n u : validatePrincipalName n = Ok u ->
  has_prefix n #"-" = false
  /\ fields (#"get_principal " ++ n) = [ #"get_principal"; n]
  /\ fields (#"add_principal -randkey " ++ n) = [ #"add_principal"; #"-randkey"; n]
  /\ fields (#"delete_principal -force " ++ n) = [ #"delete_principal"; #"-force"; n].
Proof.
  intros Hv. pose proof (principal_word n u Hv) as Hw. split_and!.
  - apply valid_principal in Hv as (c & r & -> & Hc & _). apply not_true_is_false. intros (t & Et)%has_prefix_iff. injection Et as -> _. done.
  - change (#"get_principal " ++ n) with (#"get_principal" ++ " "%char :: n). rewrite <- (app_nil_r n) at 1. apply (fields_line #"get_principal" [(0%nat, n)]); [done|]. by repeat constructor.
  - change (#"add_principal -randkey " ++ n) with (#"add_principal" ++ " "%char :: #"-randkey" ++ " "%char :: n). rewrite <- (app_nil_r n) at 1.
    apply (fields_line #"add_principal" [(0%nat, #"-randkey"); (0%nat, n)]); [done|]. by repeat constructor.
  - change (#"delete_principal -force " ++ n) with (#"delete_principal" ++ " "%char :: #"-force" ++ " "%char :: n). rewrite <- (app_nil_r n) at 1.
    apply (fields_line #"delete_principal" [(0%nat, #"-force"); (0%nat, n)]); [done|]. by repeat constructor.
Qed.

Lemma valid_not_skipped n u : validatePrincipalName n = Ok u -> skipped_line n = false.
Proof.
  intros Hv. apply principal_word in Hv as Hw. apply word_iff in Hw as [Hne Hw]. rewrite Forall_forall in Hw.
  apply valid_principal in Hv as (c & r & -> & Hc & Hr). unfold skipped_line. rewrite !orb_false_iff. split_and!.
  - done.
  - apply not_true_is_false. intros (t & Et)%has_prefix_iff. assert (" "%char ∈ c :: r) as Hin by (rewrite Et; set_solver). by apply Hw in Hin.
  - apply not_true_is_false. intros (t & Et)%has_prefix_iff. injection Et as -> ->. rewrite Forall_forall in Hr.
    assert (name_char ":"%char = true \/ ":"%char = "@"%char) as [|] by (apply Hr; set_solver); done.
Qed.

Lemma names_kept names : Forall (fun n => validatePrincipalName n = Ok tt) names ->
  List.filter (fun line => negb (skipped_line line)) (map trim_space names) = names.
Proof.
  induction 1 as [|n names Hv Hn IH]; [done|]. cbn [map List.filter].
  rewrite (trim_space_bounded n) by (by eapply word_bounded, principal_word). by rewrite (valid_not_skipped n tt Hv), IH.
Qed.

Definition banner (who : gostr) : gostr := #"Authenticating as principal " ++ who.

Lemma banner_skipped who : skipped_line (banner who) = true.
Proof.
  unfold skipped_line. assert (has_prefix (banner who) #"Authenticating as principal" = true) as ->; [|by rewrite orb_true_r].
  apply has_prefix_iff. by exists (" "%char :: who).
Qed.

(** The names kadmin prints, one on a line after its banner, are read back. *)
Lemma principals_read_back who names : newline ∉ who -> trim_space (banner who) = banner who ->
  Forall (fun n => validatePrincipalName n = Ok tt) names -> parseListPrincipals (unlines (banner who :: names)) = names.
Proof.
  intros Hw Hb Hn. unfold parseListPrincipals. rewrite split_unlines.
  - rewrite map_app, List.filter_app, app_nil_r. cbn [map List.filter]. rewrite Hb, banner_skipped. by apply names_kept.
  - constructor; [|eapply Forall_impl; [exact Hn|]; intros n Hv; exact (words_no_newline n (principal_word n tt Hv))].
    unfold banner. rewrite elem_of_app. intros [Hx|Hx]; [|done]. apply contains_byte_iff in Hx. by vm_compute in Hx.
Qed.

(** ** On a concrete realm *)

Module SmallSync.
(** Users, principals, the ticks to come, and events that are the same at
    every request. *)
Record World := mkWorld { wUsers : list KeycloakUser; wPrincipals : gset gostr; wTicks : list tick; wEvents : list AdminEvent }.
Definition with_principals (f : gset gostr -> gset gostr) (w : World) : World := mkWorld (wUsers w) (f (wPrincipals w)) (wTicks w) (wEvents w).

#[global] Instance world_kc : KeycloakAPI World := { kc_ListUsers w := (w, Ok (wUsers w)); kc_ListAdminEvents _ w := (w, Ok (wEvents w)) }.
#[global] Instance world_kdc : PrincipalAPI World := {
  kdc_ListPrincipals w := (w, Ok (elements (wPrincipals w)));
  kdc_CreatePrincipal sp w := (with_principals (union {[spName sp]}) w, Ok tt);
  kdc_DeletePrincipal n w := (with_principals (fun X => X ∖ {[n]}) w, Ok tt) }.
#[global] Instance world_host : Sync.Host World := {
  time_Now w := (w, 1000); rand_Int64N _ w := (w, 7); sleep _ w := (w, true);
  next_tick w := match wTicks w with [] => (w, Done) | t :: ts => (mkWorld (wUsers w) (wPrincipals w) ts (wEvents w), t) end;
  first_ready w := (w, tt) }.

#[global] Instance world_laws : KdcLaws World wPrincipals.
Proof.
  constructor; try done.
  - intros w w' r [= <- <-]. split; [done|]. apply list_to_set_elements_L.
  - intros sp w w' r [= <- <-]. by left.
  - intros n w w' r [= <- <-]. by left.
  - intros w. cbn. by destruct (wTicks w).
Qed.

Definition R : gostr := #"NOVANAS.LOCAL".
Definition user (id name : gostr) (enabled : bool) (tenants : list gostr) : KeycloakUser := mkUser id name enabled {[ TenantAttribute := tenants ]}.
Definition alice := user #"1" #"alice" true [ #"acme"; #" acme "; #"globex"].
Definition start : World := mkWorld [alice] {[ #"krbtgt/NOVANAS.LOCAL@NOVANAS.LOCAL"; #"mallory@NOVANAS.LOCAL"]} [PollTick] [].

(** Alice gets her two principals, the stranger goes. *)
Example first_pass :
  (ReconcileOnce R NewState start).2
  = Some (mkState 1 1000 0 {[ #"1" := [ #"alice/acme@NOVANAS.LOCAL"; #"alice/globex@NOVANAS.LOCAL"] ]},
      Ok (mkResult 1 2 2 [ #"alice/acme@NOVANAS.LOCAL"; #"alice/globex@NOVANAS.LOCAL"] [ #"mallory@NOVANAS.LOCAL"] 0 0)).
Proof. vm_compute. reflexivity. Qed.

Lemma first_pass_result : exists w' s' res, ReconcileOnce R NewState start = (w', Some (s', Ok res)) /\ CreateErrors res = 0 /\ DeleteErrors res = 0.
Proof. pose proof first_pass as E. destruct (ReconcileOnce R NewState start) as [w' r]. cbn in E. rewrite E. by do 3 eexists. Qed.

Lemma reconcile_exact_witness : #"alice/acme@NOVANAS.LOCAL" ∈ wPrincipals (ReconcileOnce R NewState start).1.
Proof.
  pose proof (reconcile_exact wPrincipals R NewState start) as H. destruct first_pass_result as (w' & s' & res & E & Hc & Hd).
  rewrite E in H |- *. destruct H as (users & Hu & _ & _ & Hall). apply (Hall Hc Hd). left. exists alice. injection Hu as <-.
  split; [left|]. split; [reflexivity|]. split; [by vm_compute|]. left. exists #"acme". split; [left|]. split; [by vm_compute|vm_compute; reflexivity].
Defined.

Lemma daemon_keeps_services_witness : #"krbtgt/NOVANAS.LOCAL@NOVANAS.LOCAL" ∈ wPrincipals (Run R 5 NewState start).1.
Proof.
  apply (daemon_keeps_services wPrincipals R 5 NewState start); [left; vm_compute; reflexivity|].
  apply (bool_decide_unpack _). vm_compute. exact I.
Defined.

(** A user named like a service: its principals are created but never
    deleted, so a user who is disabled keeps them. *)
Definition nfs_user (enabled : bool) := user #"2" #"nfs" enabled [ #"acme"].
Example service_named_user_stays :
  let w1 := (ReconcileOnce R NewState (mkWorld [nfs_user true] ∅ [] [])).1 in
  let w2 := (ReconcileOnce R NewState (mkWorld [nfs_user false] (wPrincipals w1) [] [])).1 in
  elements (wPrincipals w2) = [ #"nfs/acme@NOVANAS.LOCAL"].
Proof. vm_compute. reflexivity. Qed.

(** The prefix of the master key covers users, too. *)
Example master_key_prefix_covers_users : IsServicePrincipal #"K/Mary@NOVANAS.LOCAL" = true.
Proof. vm_compute. reflexivity. Qed.

(** The record of a user who is disabled, but still listed, stays in the
    state, although the principals are deleted. *)
Definition gone := user #"1" #"alice" false [ #"acme"].
Example disabled_user_stays_recorded :
  let s := mkState 1 0 0 {[ #"1" := [ #"alice/acme@NOVANAS.LOCAL"] ]} in
  let w := mkWorld [gone] {[ #"alice/acme@NOVANAS.LOCAL"]} [] [] in
  (ReconcileOnce R s w).2 = Some (mkState 1 1000 0 (UserPrincipals s), Ok (mkResult 1 0 1 [] [ #"alice/acme@NOVANAS.LOCAL"] 0 0)).
Proof. vm_compute. reflexivity. Qed.
End SmallSync.

(** Events that were seen are changes again at the next request, since
    neither the request nor the loop leaves them out: the answer is the
    same, and so is the verdict. *)
Lemma seen_events_change_again {W} `{KeycloakAPI W} (events : list AdminEvent) s w s' b :
  (forall t w, kc_ListAdminEvents t w = (w, Ok events)) ->
  processAdminEvents s w = (w, Some (s', Ok b)) -> (processAdminEvents s' w).2 = Some (s', Ok b).
Proof.
  intros He. unfold processAdminEvents, bind, call. rewrite !He. destruct events as [|ev evs]; cbn [ret]; [by intros [= <- <-]|].
  set (m := fold_left _ _ 0). intros [= <- <-]. unfold ret. cbn [snd]. by destruct (m >? 0).
Qed.

(** The wait between two attempts is at least two seconds and less than 61,
    and doubles until it is capped. *)
Lemma nextBackoff_bounds {W} `{Sync.Host W} a w : (forall n w, 0 < n -> 0 <= (rand_Int64N n w).2 < n) -> 1 <= a ->
  exists w' d, nextBackoff a w = (w', Some d) /\ 2 * Second <= d < 61 * Second.
Proof.
  intros Hr Ha. unfold nextBackoff, bind, call. pose proof (Hr Second w ltac:(done)) as Hj. destruct (rand_Int64N Second w) as [w' j]. cbn in Hj.
  do 2 eexists. split; [done|]. assert (1 <= 2 ^ (a - 1)) by (apply (Z.pow_le_mono_r 2 0); lia). unfold Second in *. lia.
Qed.
